(* ===== verification/_CoqProject ===== *)
-Q . S2P
Prelude.v
GoOrder.v
GoText.v
Paths.v
GoHash.v
GoFloat.v
Semantics.v
Domain.v
Signals.v
RuleText.v
Rules.v
FileSignals.v
Positions.v
SignalOrder.v
Report.v
Narrow.v
LayerRules.v
ProjectOrder.v
ProjectLifecycle.v
ProjectReport.v
Json.v
Jsonc.v
Utf8.v
GoErr.v
JobStore.v
Worker.v
WorkerSafety.v
Reconciler.v
CallGraph.v
Reachability.v
JudgmentPack.v
Gateway.v
ToolArgs.v
AgentLoop.v
Stub.v
Rubrics.v
SignalWire.v
Judgment.v
Ingest.v
Authz.v
JobParams.v
HttpApi.v
Authn.v
TreeSource.v
Syntax.v
Nesting.v
GoSyntax.v
GoFeatures.v
Complexity.v
GoComplexity.v
GoUnquote.v
TsSyntax.v
TsScope.v
TsFeatures.v
TsComplexity.v
ReactScope.v
ReactFacts.v
ReactComponents.v
Analyzer.v
GitRepo.v
Glob.v
SourceScope.v
ProjectConfig.v
ScopeModel.v
Disclosure.v
Scan.v
RevisionFs.v
Readiness.v
PackageManager.v
