(* ===== verification/Prelude.v ===== *)
(** * Coach: a verification development

    Coach is a Go program in two halves.  [pkg/codesignal] turns what was parsed from
    the two sides of a comparison (a head revision and an optional base) into a
    report of signals: which design smells a change introduces, which it found
    already there, which it resolves, and which architecture rules the project as a
    whole breaks.  [internal/coachapi] runs such analyses as jobs: an API stores a
    job and enqueues a message, workers claim jobs under leases, run them, and settle
    the message.  This development models both halves as Rocq functions translated
    from the source and proves what makes them correct.  Every definition that
    models code says which with a line [go: <file under src/>#<symbol>] in its
    comment, and keeps the code's name; record fields carry a prefix of their type
    ([sig_Path] is [Signal.Path]).

    ** Layout

    Foundations, models of what the code uses of Go and its standard library:
    - [Prelude]: notation for Go's string tests, [zlen] for [len], the boolean
      reflection tactic, lists; the hint database [coach].
    - [GoOrder]: comparisons as classes of laws ([CmpLaws], [StrictWeak], [CmpEq]),
      stable sorting, its uniqueness, independence of input order.
    - [GoText]: [strings], [strconv], [path], [%q], JSON strings; [GoHash]: SHA-256
      and hexadecimal, computed, and the length-prefixed encoding of identities with
      its injectivity; [GoFloat]: binary64 quotients; [GoErr]: error chains, times
      and durations.

    The report pipeline, in the order data flows:
    - [Semantics] and [Domain]: the inputs, a file's parsed facts ([pkg/semantics])
      and a project's model, with the canonical wire form of the model ([pkg/domain]).
    - [Signals], [RuleText], [Rules]: signals, and the rules from parsed facts to
      signals ([registry.go], [metric_rules.go], [rule_*.go]).
    - [FileSignals]: one changed file at a time, its head and base signals matched by
      key and classified ([file_change.go], [file_signals.go], [lifecycle.go]).
    - [Positions], [SignalOrder]: the order of the report, where the metric signals of
      a tier are ranked among themselves through a map, and its summary ([sort.go],
      [signal_summary.go]).
    - [LayerRules]: layer violations and layer bypasses over the project model.
    - [ProjectOrder], [ProjectLifecycle]: canonical order and lifecycle of project
      observations.
    - [Report], [Narrow]: the report itself and the narrowed views of it.
    - [ProjectReport]: coverage and provenance, the project surface, next actions, and
      [Build], which composes all of the above.

    The job platform:
    - [JobStore]: the job domain, the persistence port as a class [WorkerJobStore]
      with the laws [WorkerJobStoreLaws] a worker relies on, and the in-memory store
      (module [Memory]) as functions on a map.  The inductive relation [transition] is
      the job's state machine; [apply_transition] shows that every call is a step of
      it.  A history is any list of calls, so any interleaving of any callers.
    - [Worker]: the queue port [TaskQueue], and the worker's code in a state monad over
      a world of store, queue, clock and environment.
    - [WorkerSafety]: Hoare triples for that monad and the worker's guarantees.
    - [Reconciler]: the slot that holds the background reconciler, as a state machine
      of starts, stops and returning loops.

    ** What the theorems show

    The properties are the theorems whose comments begin with C and a number.  In
    groups:
    - the worker and its queue: C1 (a message is settled only when the store says so,
      for every lawful store and every queue), C11, C12, C22, C23, C35,
      C40;
    - the store's leases and rows: C2 (a lost lease stays lost), C5, C13, C17, C18, C31;
    - reports as a whole: C3 (no observation disappears without a trace), C4, C15, C19,
      C25, C26;
    - lifecycles: C9, C10, C14, C24, C28, C29, C32, C37, C38;
    - order: C8, C27, C30; narrowed views: C16, C39;
    - rules: C6, C7, C20, C33, C34, C36; the project model's wire form: C21.
    Each one with hypotheses has a [_witness] that applies it to a concrete input.
    Other theorems of the same files (wire form and sorting independent of input
    order, density gate, import depth, summary counters, narrowing errors, the outcome
    of [Build], finding counts) are part of the library without being listed.

    ** Conventions and bounds

    - A Go [int] is a [Z], a [uint] an [N].  Arithmetic that can leave 64 bits is
      wrapped ([int64_wrap]) where the code multiplies or adds unbounded values: metric
      sums and doubled thresholds, three heartbeat intervals, the negated age
      threshold.  The attempt counter of a job and the reconciler's generation are not
      wrapped: they take one claim or start per unit.
    - A [nil] slice and an empty one are one list; an optional pointer is an [option].
      A Go map whose iteration order could matter is a [gmap] visited through a list
      in arbitrary order, and theorems C27 and C23 do not depend on that order.
    - Recursion is structural.  The two scanners that consume several bytes at a time
      ([quote_body], [json_body]) take the string's length as fuel, one unit per call,
      each call consuming at least one byte.
    - Parameters: [isPrint], the table of [unicode.IsPrint] ([%q] only), and the
      decoding of a finding's payload by [encoding/json] ([unmarshalRuleID]); nothing
      is assumed of either.

    ** Not modelled

    The Tree-sitter extractors of [pkg/semantics] and the Go and TypeScript analysers
    of [pkg/projectmodel] (third-party parsers, SSA, a sidecar process): their results
    are inputs.  The HTTP surface, the Postgres store and the queue adapters of
    [internal/coachapi] (databases and brokers behind the modelled ports).  The command
    line ([cmd], [internal/codesignalcli]), which is process, file and terminal I/O
    around [Build].  Serialisation of the report, authentication, the model gateway and
    the agent loop.  In the worker, [New] and the endless loop around the modelled
    reconciliation.

    ** Plan

    Next: the baseline-scan use case ([internal/coachapi/baseline]), the budgeted agent
    loop ([internal/agentloop]) and the rubric judgments, repository authorization
    ([internal/authz]), the HTTP job handlers over the ports, and the graph routines of
    [pkg/projectmodel] that walk an already built call graph. *)

From stdpp Require Export base list strings gmap option.
From Stdlib Require Export NArith ZArith Lia.

(** Shared notations live in their own scope, opened by the files that model
    code. *)
Declare Scope go_scope.
Delimit Scope go_scope with go.

(** Go's [&&], [||] and [!] on booleans, and [==] on strings. *)
Notation "a == b" := (String.eqb a b) (at level 70, no associativity) : go_scope.
Notation "a != b" := (negb (String.eqb a b)) (at level 70, no associativity) : go_scope.
#[global] Open Scope go_scope.
#[global] Open Scope stdpp_scope.

(** The character Go writes as an escaped double quote inside a literal. *)
Definition dq : string := String (Ascii.ascii_of_nat 34) EmptyString.

(** [len(xs)] of a Go slice, as the [int] the code compares it with. *)
Definition zlen {A} (l : list A) : Z := Z.of_nat (length l).

(** A 64-bit signed [int] keeps the low 64 bits, two's complement. *)
Definition int64_wrap (z : Z) : Z := (z + 2 ^ 63) `mod` 2 ^ 64 - 2 ^ 63.

(** ** Automation *)

Create HintDb coach.

(** Turns equations between booleans into propositions. *)
Ltac breflect :=
  repeat match goal with
  | H : andb _ _ = true |- _ => apply andb_true_iff in H as [? ?]
  | H : andb _ _ = false |- _ => apply andb_false_iff in H
  | H : orb _ _ = true |- _ => apply orb_true_iff in H
  | H : orb _ _ = false |- _ => apply orb_false_iff in H as [? ?]
  | H : negb _ = true |- _ => apply negb_true_iff in H
  | H : negb _ = false |- _ => apply negb_false_iff in H
  | H : String.eqb _ _ = true |- _ => apply String.eqb_eq in H
  | H : String.eqb _ _ = false |- _ => apply String.eqb_neq in H
  | H : bool_decide _ = true |- _ => apply bool_decide_eq_true in H
  | H : bool_decide _ = false |- _ => apply bool_decide_eq_false in H
  | H : (_ <=? _)%Z = true |- _ => apply Z.leb_le in H
  | H : (_ <=? _)%Z = false |- _ => apply Z.leb_gt in H
  | H : (_ <? _)%Z = true |- _ => apply Z.ltb_lt in H
  | H : (_ <? _)%Z = false |- _ => apply Z.ltb_ge in H
  | H : (_ =? _)%Z = true |- _ => apply Z.eqb_eq in H
  | H : (_ =? _)%Z = false |- _ => apply Z.eqb_neq in H
  | H : (_ <=? _)%N = true |- _ => apply N.leb_le in H
  | H : (_ <=? _)%N = false |- _ => apply N.leb_gt in H
  end.

(** ** Lists *)

Lemma filter_id {A} (f : A → bool) l :
  (∀ x, In x l → f x = true) → List.filter f l = l.
Proof.
  induction l as [|x l IH]; simpl; intros H; [done|].
  rewrite (H x) by auto. f_equal. auto.
Qed.

Lemma filter_nil {A} (f : A → bool) l :
  (∀ x, In x l → f x = false) → List.filter f l = [].
Proof.
  induction l as [|x l IH]; simpl; intros H; [done|].
  rewrite (H x) by auto. auto.
Qed.

Lemma filter_comm {A} (f g : A → bool) l :
  List.filter f (List.filter g l) = List.filter g (List.filter f l).
Proof.
  induction l as [|x l IH]; simpl; [done|].
  destruct (f x) eqn:Hf, (g x) eqn:Hg; simpl; rewrite ?Hf, ?Hg, ?IH; done.
Qed.

Lemma filter_ext_In {A} (f g : A → bool) l :
  (∀ x, In x l → f x = g x) → List.filter f l = List.filter g l.
Proof.
  induction l as [|x l IH]; simpl; intros H; [done|].
  rewrite (H x) by auto. rewrite IH by auto. done.
Qed.

Lemma filter_andb {A} (f g : A → bool) l :
  List.filter (λ x, f x && g x) l = List.filter g (List.filter f l).
Proof.
  induction l as [|x l IH]; simpl; [done|].
  destruct (f x); simpl; [|done]. by destruct (g x); rewrite IH.
Qed.

Lemma filter_length_split {A} (f : A → bool) l :
  length (List.filter f l) + length (List.filter (λ x, negb (f x)) l) = length l.
Proof. induction l as [|x l IH]; simpl; [done|]. destruct (f x); simpl; lia. Qed.

Lemma Permutation_bfilter {A} (f : A → bool) l l' :
  l ≡ₚ l' → List.filter f l ≡ₚ List.filter f l'.
Proof.
  induction 1; simpl; repeat case_match; eauto using Permutation.
Qed.

Lemma bfilter_map {A B} (f : B → bool) (g : A → B) l :
  List.filter f (map g l) = map g (List.filter (λ x, f (g x)) l).
Proof. induction l as [|x l IH]; simpl; [done|]. destruct (f (g x)); simpl; congruence. Qed.

Lemma bfilter_sublist {A} (f : A → bool) l : List.filter f l `sublist_of` l.
Proof. induction l as [|x l IH]; simpl; [done|]. destruct (f x); by constructor. Qed.

Lemma forallb_false {A} (f : A → bool) l : forallb f l = false → ∃ x, In x l ∧ f x = false.
Proof.
  induction l as [|x l IH]; simpl; [done|]. intros [H|H]%andb_false_iff; [eauto|].
  destruct (IH H) as (y & ? & ?). eauto.
Qed.

Lemma NoDup_map_inj {A B} (f : A → B) l x y :
  NoDup (map f l) → In x l → In y l → f x = f y → x = y.
Proof.
  intros Hnd Hx Hy E. apply list_elem_of_In, list_elem_of_lookup in Hx as [i Hi], Hy as [j Hj].
  assert (i = j) as ->; [|by rewrite Hi in Hj; simplify_eq].
  apply (NoDup_lookup (f <$> l) i j (f x)); [done|..]; rewrite list_lookup_fmap.
  - by rewrite Hi.
  - by rewrite Hj, E.
Qed.

Lemma map_fixed {A} (f : A → A) l : (∀ x, In x l → f x = x) → map f l = l.
Proof. induction l; simpl; intros H; [done|]. rewrite H, IHl; auto. Qed.

Lemma Permutation_split_filter {A} (f : A → bool) l :
  List.filter f l ++ List.filter (λ x, negb (f x)) l ≡ₚ l.
Proof.
  induction l as [|x l IH]; simpl; [done|]. destruct (f x); simpl.
  - by constructor.
  - rewrite <- Permutation_middle. by constructor.
Qed.

(** Splitting a list by a key and gluing the classes back loses nothing. *)
Lemma concat_classes {A K} `{EqDecision K} (key : A → K) (ks : list K) (l : list A) :
  NoDup ks → (∀ x, In x l → key x ∈ ks) →
  concat (map (λ k, List.filter (λ x, bool_decide (key x = k)) l) ks) ≡ₚ l.
Proof.
  intros Hnd. revert l. induction Hnd as [|k ks Hk Hnd IH]; intros l Hl; simpl.
  - destruct l as [|x l]; [done|]. specialize (Hl x (or_introl eq_refl)). set_solver.
  - rewrite <- (Permutation_split_filter (λ x, bool_decide (key x = k)) l) at 2.
    apply Permutation_app_head.
    rewrite <- (IH (List.filter (λ x, negb (bool_decide (key x = k))) l)).
    + match goal with |- ?a ≡ₚ ?b => enough (a = b) as -> by done end.
      f_equal. apply map_ext_in. intros k' Hk'. rewrite filter_comm.
      symmetry. apply filter_id. intros x [_ Hx]%filter_In. breflect. subst.
      apply negb_true_iff, bool_decide_eq_false. intros <-.
      apply Hk. by apply list_elem_of_In.
    + intros x [Hx Hne]%filter_In. breflect. specialize (Hl x Hx). set_solver.
Qed.

Lemma existsb_ext_In {A} (f g : A → bool) l :
  (∀ x, In x l → f x = g x) → existsb f l = existsb g l.
Proof. induction l; simpl; intros H; [done|]. rewrite H, IHl; auto. Qed.

Lemma hd_In {A} (d : A) l : l ≠ [] → In (List.hd d l) l.
Proof. destruct l; [done|]. by left. Qed.

(** ** Integers *)

Lemma int64_wrap_small z : (- 2 ^ 63 ≤ z < 2 ^ 63)%Z → int64_wrap z = z.
Proof. intros H. unfold int64_wrap. rewrite Z.mod_small by lia. lia. Qed.

(** ** Maps of slices *)

(** [groups[k] = append(groups[k], x)]. *)
Definition group_append {K A} `{Countable K} (k : K) (x : A) (groups : gmap K (list A)) :
    gmap K (list A) :=
  <[k := default [] (groups !! k) ++ [x]]> groups.

Definition group_by {K A} `{Countable K} (key : A → K) (l : list A) : gmap K (list A) :=
  fold_left (λ groups x, group_append (key x) x groups) l ∅.

Section Groups.
Context {K A : Type} `{Countable K} (key : A → K).

Lemma group_by_acc l m k :
  fold_left (λ groups x, group_append (key x) x groups) l m !! k =
  match m !! k, List.filter (λ x, bool_decide (key x = k)) l with
  | None, [] => None
  | g, xs => Some (default [] g ++ xs)
  end.
Proof.
  revert m. induction l as [|x l IH]; intros m; simpl.
  - destruct (m !! k); [by rewrite app_nil_r|done].
  - rewrite IH. unfold group_append. case_bool_decide as Hk.
    + subst. rewrite lookup_insert_eq. simpl. rewrite <- app_assoc. by destruct (m !! key x).
    + by rewrite lookup_insert_ne.
Qed.

Lemma group_by_lookup l k :
  group_by key l !! k =
  match List.filter (λ x, bool_decide (key x = k)) l with [] => None | xs => Some xs end.
Proof. unfold group_by. rewrite group_by_acc, lookup_empty. by case_match. Qed.

Lemma group_by_default l k :
  default [] (group_by key l !! k) = List.filter (λ x, bool_decide (key x = k)) l.
Proof. rewrite group_by_lookup. by case_match. Qed.

Lemma group_by_is_Some l k : is_Some (group_by key l !! k) ↔ ∃ x, In x l ∧ key x = k.
Proof.
  rewrite group_by_lookup. split.
  - destruct (List.filter _ l) as [|x xs] eqn:E; [by intros [? [=]]|]. intros _. exists x.
    assert (In x (List.filter (λ x, bool_decide (key x = k)) l)) as Hx by (rewrite E; by left).
    apply filter_In in Hx as [? ?]. by breflect.
  - intros (x & Hx & <-).
    assert (In x (List.filter (λ y, bool_decide (key y = key x)) l)) as Hf
      by (apply filter_In; split; [done|by apply bool_decide_eq_true]).
    destruct (List.filter _ l); [done|by eexists].
Qed.
End Groups.

#[export] Hint Resolve filter_id filter_nil : coach.
#[export] Hint Rewrite @length_app @length_map : coach.
