(* ===== verification/GoOrder.v ===== *)
(** * Comparators and stable sorting

    Go's [sort.SliceStable], [slices.SortStableFunc], [sort.Slice] and
    [sort.Strings] as the code uses them: [stable_sort less] is the stable
    permutation ordered by [less].  [stable_sort_unique] shows that, for a strict
    weak ordering, any ordered list with the same equivalence classes in the same
    order is that list, so the choice of algorithm is immaterial. *)

From stdpp Require Import sorting.
From S2P Require Import Prelude.

(** ** Definitions *)

Fixpoint insert_stable {A} (less : A → A → bool) (x : A) (l : list A) : list A :=
  match l with
  | [] => [x]
  | y :: l' => if less y x then y :: insert_stable less x l' else x :: y :: l'
  end.

Definition stable_sort {A} (less : A → A → bool) (l : list A) : list A :=
  foldr (insert_stable less) [] l.

(** [cmp.Or] and chains of [if c != 0 { return c }]: the first non-equal result. *)
Definition then_cmp (c1 c2 : comparison) : comparison :=
  match c1 with Eq => c2 | _ => c1 end.

Definition is_lt (c : comparison) : bool :=
  match c with Lt => true | _ => false end.

(** [slices.SortStableFunc(xs, cmp)]. *)
Definition sort_func {A} (cmp : A → A → comparison) : list A → list A :=
  stable_sort (λ a b, is_lt (cmp a b)).

(** The elements a comparison cannot tell apart from [x]. *)
Definition equiv_to {A} (less : A → A → bool) (x y : A) : bool :=
  negb (less x y) && negb (less y x).

(** [a < b] on Go strings: byte-wise lexicographic. *)
Definition str_less (a b : string) : bool := is_lt (String.compare a b).

(** [sort.Strings]. *)
Definition sort_strings : list string → list string := stable_sort str_less.

Lemma then_cmp_Eq c1 c2 : then_cmp c1 c2 = Eq → c1 = Eq ∧ c2 = Eq.
Proof. by destruct c1. Qed.

(** ** Laws *)

(** A strict weak ordering, given as the boolean [less] Go's sort takes. *)
Class StrictWeak {A} (less : A → A → bool) : Prop := {
  sw_asym x y : less x y = true → less y x = false;
  sw_negtrans x y z : less x y = false → less y z = false → less x z = false
}.

(** A comparison function consistent with a total preorder. *)
Class CmpLaws {A} (cmp : A → A → comparison) : Prop := {
  cmp_refl x : cmp x x = Eq;
  cmp_antisym x y : cmp y x = CompOpp (cmp x y);
  cmp_lt_trans x y z : cmp x y = Lt → cmp y z = Lt → cmp x z = Lt;
  cmp_eq_l x y z : cmp x y = Eq → cmp x z = cmp y z
}.

(** A comparison function that identifies equal values only. *)
Class CmpEq {A} (cmp : A → A → comparison) : Prop :=
  cmp_eq x y : cmp x y = Eq → x = y.

Lemma cmp_eq_r {A} (cmp : A → A → comparison) `{!CmpLaws cmp} x y z :
  cmp x y = Eq → cmp z x = cmp z y.
Proof.
  intros H. rewrite (cmp_antisym x z), (cmp_antisym y z). f_equal. by apply cmp_eq_l.
Qed.

#[export] Instance cmp_strict_weak {A} (cmp : A → A → comparison) `{!CmpLaws cmp} :
  StrictWeak (λ a b, is_lt (cmp a b)).
Proof.
  split.
  - intros x y. rewrite (cmp_antisym x y). by destruct (cmp x y).
  - intros x y z.
    destruct (cmp x y) eqn:Hxy; try done; intros _.
    + by rewrite (cmp_eq_l x y z Hxy).
    + destruct (cmp y z) eqn:Hyz; try done; intros _.
      * by rewrite <- (cmp_eq_r cmp y z x Hyz), Hxy.
      * assert (cmp z x = Lt) as H.
        { apply (cmp_lt_trans z y x); rewrite cmp_antisym; [by rewrite Hyz|by rewrite Hxy]. }
        rewrite (cmp_antisym z x), H. done.
Qed.

#[export] Instance then_cmp_laws {A} (c1 c2 : A → A → comparison)
  `{!CmpLaws c1, !CmpLaws c2} : CmpLaws (λ x y, then_cmp (c1 x y) (c2 x y)).
Proof.
  split.
  - intros x. by rewrite !cmp_refl.
  - intros x y. rewrite (cmp_antisym (cmp:=c1) x y), (cmp_antisym (cmp:=c2) x y).
    by destruct (c1 x y).
  - intros x y z. unfold then_cmp.
    destruct (c1 x y) eqn:E1; try done.
    + rewrite (cmp_eq_l (cmp:=c1) x y z E1). destruct (c1 y z); try done.
      apply cmp_lt_trans.
    + intros _. destruct (c1 y z) eqn:E2; try done.
      * rewrite <- (cmp_eq_r c1 y z x E2), E1. done.
      * intros _. by rewrite (cmp_lt_trans (cmp:=c1) x y z E1 E2).
  - intros x y z. unfold then_cmp. destruct (c1 x y) eqn:E1; try done. intros E2.
    by rewrite (cmp_eq_l (cmp:=c1) x y z E1), (cmp_eq_l (cmp:=c2) x y z E2).
Qed.

#[export] Instance then_cmp_eq_r {A} (c1 c2 : A → A → comparison)
  `{!CmpEq c2} : CmpEq (λ x y, then_cmp (c1 x y) (c2 x y)).
Proof. intros x y. unfold then_cmp. destruct (c1 x y); try done. apply cmp_eq. Qed.

Lemma on_cmp_laws {A B} (f : A → B) (cmp : B → B → comparison) `{!CmpLaws cmp} :
  CmpLaws (λ x y, cmp (f x) (f y)).
Proof.
  split; intros.
  - apply cmp_refl.
  - apply cmp_antisym.
  - eauto using cmp_lt_trans.
  - eauto using cmp_eq_l.
Qed.

Lemma flip_cmp_laws {A} (cmp : A → A → comparison) `{!CmpLaws cmp} :
  CmpLaws (λ x y, cmp y x).
Proof.
  split; intros.
  - apply cmp_refl.
  - apply cmp_antisym.
  - eauto using cmp_lt_trans.
  - eapply cmp_eq_r; [done|]. by rewrite (cmp_antisym y x), H.
Qed.

(** Descending order on a key. *)
Lemma on_cmp_desc_laws {A B} (f : A → B) (cmp : B → B → comparison) `{!CmpLaws cmp} :
  CmpLaws (λ x y, cmp (f y) (f x)).
Proof. pose proof (on_cmp_laws f cmp). apply (flip_cmp_laws (λ x y, cmp (f x) (f y))). Qed.

(** Comparisons of the base types the code orders by. *)

#[export] Instance nat_compare_laws : CmpLaws Nat.compare.
Proof.
  split; intros.
  - apply Nat.compare_refl.
  - apply Nat.compare_antisym.
  - rewrite Nat.compare_lt_iff in *. lia.
  - apply Nat.compare_eq_iff in H. by subst.
Qed.

#[export] Instance N_compare_laws : CmpLaws N.compare.
Proof.
  split; intros.
  - apply N.compare_refl.
  - apply N.compare_antisym.
  - rewrite N.compare_lt_iff in *. lia.
  - apply N.compare_eq_iff in H. by subst.
Qed.

#[export] Instance Z_compare_laws : CmpLaws Z.compare.
Proof.
  split; intros.
  - apply Z.compare_refl.
  - apply Z.compare_antisym.
  - rewrite Z.compare_lt_iff in *. lia.
  - apply Z.compare_eq_iff in H. by subst.
Qed.

#[export] Instance string_compare_eq : CmpEq String.compare.
Proof. intros x y. apply String.compare_eq_iff. Qed.

#[export] Instance string_compare_laws : CmpLaws String.compare.
Proof.
  assert (∀ x, String.compare x x = Eq) as Hrefl.
  { intros x. induction x as [|a x IH]; simpl; [done|]. unfold Ascii.compare.
    by rewrite N.compare_refl. }
  split.
  - done.
  - intros x y. rewrite (String.compare_antisym x y). by destruct (String.compare y x).
  - intros x. induction x as [|a x IH]; intros [|b y] [|c z]; simpl; try done.
    unfold Ascii.compare.
    destruct (N.compare_spec (Ascii.N_of_ascii a) (Ascii.N_of_ascii b)) as [E1|E1|E1];
      destruct (N.compare_spec (Ascii.N_of_ascii b) (Ascii.N_of_ascii c)) as [E2|E2|E2];
      destruct (N.compare_spec (Ascii.N_of_ascii a) (Ascii.N_of_ascii c)) as [E3|E3|E3];
      try done; try lia; eauto.
  - intros x y z H. apply cmp_eq in H. by subst.
Qed.

#[export] Instance str_less_strict_weak : StrictWeak str_less := cmp_strict_weak String.compare.

(** A chain written [if a.k != b.k { return a.k < b.k }; return rest] is the
    lexicographic comparison. *)
Lemma less_chain_string (a b : string) (rest : bool) c :
  rest = is_lt c →
  (if a != b then str_less a b else rest) = is_lt (then_cmp (String.compare a b) c).
Proof.
  intros ->. destruct (String.eqb_spec a b) as [->|Hne]; simpl.
  - by rewrite cmp_refl.
  - unfold str_less, then_cmp. destruct (String.compare a b) eqn:E; try done.
    by apply cmp_eq in E.
Qed.

Lemma less_chain_N (a b : N) (rest : bool) c :
  rest = is_lt c →
  (if negb (a =? b)%N then (a <? b)%N else rest) = is_lt (then_cmp (a ?= b)%N c).
Proof.
  intros ->. destruct (N.eqb_spec a b) as [->|Hne]; simpl.
  - by rewrite N.compare_refl.
  - unfold N.ltb, then_cmp. destruct (a ?= b)%N eqn:E; try done.
    by apply N.compare_eq_iff in E.
Qed.

Lemma less_chain_Z (a b : Z) (rest : bool) c :
  rest = is_lt c → (if negb (a =? b)%Z then (a <? b)%Z else rest) = is_lt (then_cmp (a ?= b)%Z c).
Proof.
  intros ->. destruct (Z.compare_spec a b) as [->|H|H]; cbn.
  - by rewrite Z.eqb_refl.
  - rewrite (proj2 (Z.eqb_neq _ _)) by lia. by apply Z.ltb_lt.
  - rewrite (proj2 (Z.eqb_neq _ _)) by lia. apply Z.ltb_ge. lia.
Qed.

Lemma less_chain_Z_desc (a b : Z) (rest : bool) c :
  rest = is_lt c → (if negb (a =? b)%Z then (b <? a)%Z else rest) = is_lt (then_cmp (b ?= a)%Z c).
Proof. intros. rewrite Z.eqb_sym. by apply less_chain_Z. Qed.

Lemma N_ltb_is_lt (a b : N) : (a <? b)%N = is_lt (a ?= b)%N.
Proof. done. Qed.

(** ** Lexicographic order on string keys *)

Definition lex_strings {A} (keys : list (A → string)) (a b : A) : comparison :=
  foldr (λ key c, then_cmp (String.compare (key a) (key b)) c) Eq keys.

#[export] Instance lex_strings_laws {A} (keys : list (A → string)) : CmpLaws (lex_strings keys).
Proof.
  induction keys as [|key keys IH]; simpl.
  - by split.
  - pose proof (on_cmp_laws key String.compare).
    apply (then_cmp_laws (λ a b, String.compare (key a) (key b)) (lex_strings keys)).
Qed.

Lemma lex_strings_eq {A} (keys : list (A → string)) a b :
  lex_strings keys a b = Eq → Forall (λ key, key a = key b) keys.
Proof.
  induction keys as [|key keys IH]; simpl; [constructor|].
  unfold then_cmp. destruct (String.compare (key a) (key b)) eqn:E; try done.
  apply cmp_eq in E. constructor; auto.
Qed.

Lemma str_less_lex (a b : string) : str_less a b = is_lt (then_cmp (String.compare a b) Eq).
Proof. unfold str_less. by destruct (String.compare a b). Qed.

Lemma strict_weak_ext {A} (f g : A → A → bool) :
  (∀ x y, f x y = g x y) → StrictWeak g → StrictWeak f.
Proof.
  intros Hfg [H1 H2]. split.
  - intros x y. rewrite !Hfg. apply H1.
  - intros x y z. rewrite !Hfg. apply H2.
Qed.

Lemma strict_weak_of_cmp {A} (less : A → A → bool) cmp :
  (∀ x y, less x y = is_lt (cmp x y)) → CmpLaws cmp → StrictWeak less.
Proof. intros H ?. eapply strict_weak_ext; [exact H|apply cmp_strict_weak, _]. Qed.

(** Proves [StrictWeak less] for an if-chain over the given string keys. *)
Ltac lex_strict_weak keys :=
  apply (strict_weak_of_cmp _ (lex_strings keys)); [|apply _];
  intros; repeat (apply less_chain_string); first [done | apply str_less_lex].

(** ** Sorting *)

Lemma stable_sort_ext {A} (f g : A → A → bool) l :
  (∀ x y, f x y = g x y) → stable_sort f l = stable_sort g l.
Proof.
  intros H. unfold stable_sort. induction l as [|x l IH]; simpl; [done|]. rewrite IH.
  generalize (foldr (insert_stable g) [] l). intros l'.
  induction l' as [|y l' IH']; simpl; [done|]. rewrite H, IH'. done.
Qed.

Lemma insert_stable_perm {A} (less : A → A → bool) x l : insert_stable less x l ≡ₚ x :: l.
Proof.
  induction l as [|y l IH]; simpl; [done|]. case_match; [|done].
  rewrite IH. constructor.
Qed.

Lemma stable_sort_perm {A} (less : A → A → bool) l : stable_sort less l ≡ₚ l.
Proof.
  induction l as [|x l IH]; simpl; [done|]. rewrite insert_stable_perm. by constructor.
Qed.

Lemma stable_sort_In {A} (less : A → A → bool) l x : In x (stable_sort less l) ↔ In x l.
Proof. split; apply Permutation_in; [|symmetry]; apply stable_sort_perm. Qed.

Lemma stable_sort_length {A} (less : A → A → bool) l : length (stable_sort less l) = length l.
Proof. apply Permutation_length, stable_sort_perm. Qed.

Section Sorting.
Context {A : Type} (less : A → A → bool) `{!StrictWeak less}.

(** [a] may stand before [b]. *)
Definition not_after (a b : A) : Prop := less b a = false.

Lemma sw_irrefl x : less x x = false.
Proof. destruct (less x x) eqn:E; [|done]. by rewrite (sw_asym x x E) in E. Qed.

Lemma not_after_trans x y z : not_after x y → not_after y z → not_after x z.
Proof. unfold not_after. intros H1 H2. by apply (sw_negtrans z y x). Qed.

Lemma insert_stable_sorted x l :
  StronglySorted not_after l → StronglySorted not_after (insert_stable less x l).
Proof.
  induction 1 as [|y l Hl IH Hall]; simpl; [repeat constructor|].
  destruct (less y x) eqn:E.
  - constructor; [done|]. rewrite insert_stable_perm. constructor; [|done].
    by apply sw_asym.
  - constructor; [by constructor|]. constructor; [done|].
    eapply List.Forall_impl; [|exact Hall]. intros z Hz. by apply (not_after_trans x y z).
Qed.

Lemma stable_sort_sorted l : StronglySorted not_after (stable_sort less l).
Proof. induction l as [|x l IH]; simpl; [constructor|]. by apply insert_stable_sorted. Qed.

Lemma equiv_less x y z : equiv_to less x y = true → less z y = true → equiv_to less x z = false.
Proof.
  unfold equiv_to. intros H Hz. breflect.
  destruct (less z x) eqn:E; [by rewrite andb_false_r|].
  rewrite (sw_negtrans z x y) in Hz; done.
Qed.

Lemma equiv_refl x : equiv_to less x x = true.
Proof. unfold equiv_to. by rewrite sw_irrefl. Qed.

Lemma insert_stable_class x y l :
  List.filter (equiv_to less x) (insert_stable less y l) =
  if equiv_to less x y then y :: List.filter (equiv_to less x) l
  else List.filter (equiv_to less x) l.
Proof.
  induction l as [|z l IH]; simpl; [done|].
  destruct (less z y) eqn:Hz; simpl; [|done].
  rewrite IH. destruct (equiv_to less x y) eqn:E; [|done].
  by rewrite (equiv_less x y z).
Qed.

(** Stability: elements the ordering cannot tell apart keep their order. *)
Lemma stable_sort_class x l :
  List.filter (equiv_to less x) (stable_sort less l) = List.filter (equiv_to less x) l.
Proof.
  induction l as [|y l IH]; simpl; [done|]. rewrite insert_stable_class, IH. done.
Qed.

Lemma sorted_unique l1 l2 :
  StronglySorted not_after l1 → StronglySorted not_after l2 →
  (∀ x, List.filter (equiv_to less x) l1 = List.filter (equiv_to less x) l2) → l1 = l2.
Proof.
  intros H1. revert l2. induction H1 as [|a l1 Hs1 IH Ha]; intros [|b l2] H2 Hcl.
  - done.
  - specialize (Hcl b). simpl in Hcl. by rewrite equiv_refl in Hcl.
  - specialize (Hcl a). simpl in Hcl. by rewrite equiv_refl in Hcl.
  - inversion H2 as [|? ? Hs2 Hb]; subst.
    assert (In a (b :: l2)) as Hina.
    { apply (filter_In (equiv_to less a)). rewrite <- Hcl.
      apply filter_In. split; [by left|apply equiv_refl]. }
    assert (In b (a :: l1)) as Hinb.
    { apply (filter_In (equiv_to less b)). rewrite Hcl.
      apply filter_In. split; [by left|apply equiv_refl]. }
    assert (not_after b a) as Hba.
    { destruct Hina as [->|Hin]; [apply sw_irrefl|].
      by apply (proj1 (List.Forall_forall _ _) Hb). }
    assert (not_after a b) as Hab.
    { destruct Hinb as [->|Hin]; [apply sw_irrefl|].
      by apply (proj1 (List.Forall_forall _ _) Ha). }
    assert (a = b) as ->.
    { specialize (Hcl a). simpl in Hcl. rewrite equiv_refl in Hcl.
      unfold equiv_to in Hcl at 2. unfold not_after in *.
      rewrite Hab, Hba in Hcl. simpl in Hcl. by injection Hcl. }
    f_equal. apply IH; [done|]. intros x. specialize (Hcl x). simpl in Hcl.
    destruct (equiv_to less x b); [by injection Hcl|done].
Qed.

(** Any ordered, stable rearrangement is the one [stable_sort] computes. *)
Lemma stable_sort_unique l l' :
  StronglySorted not_after l' →
  (∀ x, List.filter (equiv_to less x) l' = List.filter (equiv_to less x) l) →
  l' = stable_sort less l.
Proof.
  intros Hs Hcl. apply sorted_unique; [done|apply stable_sort_sorted|].
  intros x. by rewrite stable_sort_class.
Qed.

Lemma stable_sort_id l : StronglySorted not_after l → stable_sort less l = l.
Proof. intros H. symmetry. by apply stable_sort_unique. Qed.

Lemma stable_sort_idemp l : stable_sort less (stable_sort less l) = stable_sort less l.
Proof. apply stable_sort_id, stable_sort_sorted. Qed.

Lemma StronglySorted_bfilter (R : A → A → Prop) f l :
  StronglySorted R l → StronglySorted R (List.filter f l).
Proof.
  induction 1 as [|x l Hl IH Hall]; simpl; [constructor|].
  case_match; [|done]. constructor; [done|].
  apply List.Forall_forall. intros y [Hy _]%filter_In.
  by apply (proj1 (List.Forall_forall _ _) Hall).
Qed.

(** Sorting commutes with dropping elements. *)
Lemma stable_sort_filter f l :
  List.filter f (stable_sort less l) = stable_sort less (List.filter f l).
Proof.
  apply stable_sort_unique.
  - apply StronglySorted_bfilter, stable_sort_sorted.
  - intros x. by rewrite filter_comm, stable_sort_class, filter_comm.
Qed.

(** When the ordering separates distinct elements, the input order is
    irrelevant. *)
Lemma stable_sort_perm_eq l l' :
  (∀ x y, In x l → In y l → equiv_to less x y = true → x = y) →
  l ≡ₚ l' → stable_sort less l = stable_sort less l'.
Proof.
  intros Heq Hp.
  apply (StronglySorted_unique_strong not_after).
  - intros x y Hx Hy H1 H2.
    rewrite list_elem_of_In, stable_sort_In in Hx.
    rewrite list_elem_of_In, stable_sort_In in Hy.
    assert (In y l) by (by rewrite Hp).
    apply Heq; [done|done|]. unfold equiv_to, not_after in *. by rewrite H1, H2.
  - apply stable_sort_sorted.
  - apply stable_sort_sorted.
  - by rewrite !stable_sort_perm.
Qed.
End Sorting.

(** Sorting decorated elements. *)
Lemma stable_sort_map {A B} (less : B → B → bool) (g : A → B) l :
  stable_sort less (map g l) = map g (stable_sort (λ a b, less (g a) (g b)) l).
Proof.
  unfold stable_sort. induction l as [|x l IH]; simpl; [done|]. rewrite IH.
  generalize (foldr (insert_stable (λ a b, less (g a) (g b))) [] l). intros l'.
  induction l' as [|y l' IH']; simpl; [done|]. case_match; simpl; [by rewrite IH'|done].
Qed.

Lemma StronglySorted_lookup {A} (R : A → A → Prop) l i j x y :
  StronglySorted R l → i < j → l !! i = Some x → l !! j = Some y → R x y.
Proof.
  intros Hs. revert i j. induction Hs as [|z l Hl IH Hall]; intros i j Hij; [done|].
  destruct j as [|j]; [lia|]. destruct i as [|i]; simpl.
  - intros [= ->] Hy. apply (proj1 (List.Forall_forall _ _) Hall).
    apply list_elem_of_In. by eapply list_elem_of_lookup_2.
  - apply IH. lia.
Qed.

(** Normalising every element and sorting is idempotent. *)
Lemma sort_map_idemp {A} (less : A → A → bool) `{!StrictWeak less} (f : A → A) l :
  (∀ x, f (f x) = f x) →
  stable_sort less (map f (stable_sort less (map f l))) = stable_sort less (map f l).
Proof.
  intros Hf. rewrite (map_fixed f (stable_sort less (map f l))).
  - by apply stable_sort_idemp.
  - intros x Hx. apply stable_sort_In in Hx. apply in_map_iff in Hx as (y & <- & _). apply Hf.
Qed.

Lemma sort_strings_idemp l : sort_strings (sort_strings l) = sort_strings l.
Proof. apply stable_sort_idemp, _. Qed.

(** A chain over all the fields of a record separates distinct records. *)
Lemma lex_sort_perm_eq {A} (less : A → A → bool) (keys : list (A → string)) l l' :
  (∀ x y, less x y = is_lt (lex_strings keys x y)) →
  (∀ x y, Forall (λ key, key x = key y) keys → x = y) →
  l ≡ₚ l' → stable_sort less l = stable_sort less l'.
Proof.
  intros Hless Hkeys.
  assert (StrictWeak less) by (eapply strict_weak_of_cmp; [exact Hless|apply _]).
  apply stable_sort_perm_eq; [done|]. intros x y _ _ He. apply Hkeys, lex_strings_eq.
  unfold equiv_to in He. rewrite !Hless in He.
  rewrite (cmp_antisym (cmp:=lex_strings keys) x y) in He. by destruct (lex_strings keys x y).
Qed.

(** Sorting by a comparison that separates distinct elements. *)
Lemma sort_func_perm_eq {A} (cmp : A → A → comparison) `{!CmpLaws cmp} l l' :
  (∀ x y, In x l → In y l → cmp x y = Eq → x = y) →
  l ≡ₚ l' → sort_func cmp l = sort_func cmp l'.
Proof.
  intros H. apply stable_sort_perm_eq; [apply _|]. intros x y Hx Hy He. apply H; [done|done|].
  unfold equiv_to in He. rewrite (cmp_antisym x y) in He. by destruct (cmp x y).
Qed.

Lemma sort_strings_perm_eq l l' : l ≡ₚ l' → sort_strings l = sort_strings l'.
Proof. apply (sort_func_perm_eq String.compare). intros. by apply cmp_eq. Qed.

#[export] Hint Resolve stable_sort_perm stable_sort_sorted : coach.
#[export] Hint Rewrite @stable_sort_length : coach.
