(* ===== verification/GoText.v ===== *)
(** * Go strings

    The functions of Go's [strings], [strconv], [path], [unicode/utf8] and
    [fmt] the modelled code calls, on byte strings.  A Go string is a [string]:
    a sequence of 8-bit characters. *)

From Stdlib Require Import Ascii DecimalString DecimalN DecimalZ DecimalFacts.
From S2P Require Import Prelude.

(** ** Bytes *)

Definition byte_of (n : N) : ascii := ascii_of_N n.
Definition code (c : ascii) : N := N_of_ascii c.

Definition ch_slash : ascii := "/"%char.
Definition ch_dot : ascii := "."%char.
Definition ch_colon : ascii := ":"%char.
Definition ch_backslash : ascii := byte_of 92.

Definition in_range (lo hi n : N) : bool := (lo <=? n)%N && (n <=? hi)%N.

(** ** [strings] *)

(** [strings.CutPrefix(s, p)]: the remainder, when [p] is a prefix. *)
Fixpoint CutPrefix (p s : string) : option string :=
  match p, s with
  | EmptyString, _ => Some s
  | String a p', String b s' => if Ascii.eqb a b then CutPrefix p' s' else None
  | String _ _, EmptyString => None
  end.

Definition TrimPrefix (p s : string) : string :=
  match CutPrefix p s with Some rest => rest | None => s end.

Definition HasPrefix (p s : string) : bool :=
  match CutPrefix p s with Some _ => true | None => false end.

Fixpoint map_string (f : ascii → ascii) (s : string) : string :=
  match s with
  | EmptyString => EmptyString
  | String c s' => String (f c) (map_string f s')
  end.

(** [strings.ReplaceAll] with one-byte operands. *)
Definition ReplaceByte (a b : ascii) : string → string :=
  map_string (λ c, if Ascii.eqb c a then b else c).

(** [strings.TrimLeft(s, "c")]. *)
Fixpoint TrimLeftByte (c : ascii) (s : string) : string :=
  match s with
  | String d s' => if Ascii.eqb d c then TrimLeftByte c s' else s
  | EmptyString => EmptyString
  end.

Fixpoint rev_string_acc (s acc : string) : string :=
  match s with
  | EmptyString => acc
  | String c s' => rev_string_acc s' (String c acc)
  end.
Definition rev_string (s : string) : string := rev_string_acc s EmptyString.

(** [strings.HasSuffix]. *)
Definition HasSuffix (suffix s : string) : bool := HasPrefix (rev_string suffix) (rev_string s).

(** [unicode.IsSpace] on the runes of one, two and three bytes it accepts. *)
Definition space1 (a : ascii) : bool := in_range 9 13 (code a) || (code a =? 32)%N.
Definition space2 (a b : ascii) : bool :=
  (code a =? 194)%N && ((code b =? 133)%N || (code b =? 160)%N).
Definition space3 (a b c : ascii) : bool :=
  let '(a, b, c) := (code a, code b, code c) in
  ((a =? 225) && (b =? 154) && (c =? 128))%N
  || ((a =? 226)%N && (b =? 128)%N
      && (in_range 128 138 c || (c =? 168)%N || (c =? 169)%N || (c =? 175)%N))
  || ((a =? 226) && (b =? 129) && (c =? 159))%N
  || ((a =? 227) && (b =? 128) && (c =? 128))%N.

Section TrimRunes.
Variables (sp2 : ascii → ascii → bool) (sp3 : ascii → ascii → ascii → bool).

Fixpoint trim_runes (s : string) : string :=
  match s with
  | EmptyString => EmptyString
  | String a t =>
      if space1 a then trim_runes t else
      match t with
      | EmptyString => s
      | String b u =>
          if sp2 a b then trim_runes u else
          match u with
          | EmptyString => s
          | String c v => if sp3 a b c then trim_runes v else s
          end
      end
  end.
End TrimRunes.

Definition TrimLeftSpace : string → string := trim_runes space2 space3.
Definition TrimRightSpace (s : string) : string :=
  rev_string (trim_runes (λ b a, space2 a b) (λ c b a, space3 a b c) (rev_string s)).

(** [strings.TrimSpace]. *)
Definition TrimSpace (s : string) : string := TrimRightSpace (TrimLeftSpace s).

(** [strings.LastIndex(s, "c")] as the two sides of the last occurrence. *)
Fixpoint CutLast (c : ascii) (s : string) : option (string * string) :=
  match s with
  | EmptyString => None
  | String d s' =>
      match CutLast c s' with
      | Some (before, after) => Some (String d before, after)
      | None => if Ascii.eqb d c then Some (EmptyString, s') else None
      end
  end.

(** [s[:strings.IndexAny(s, chars)]], or all of [s]. *)
Fixpoint UntilAny (stop : ascii → bool) (s : string) : string :=
  match s with
  | EmptyString => EmptyString
  | String c s' => if stop c then EmptyString else String c (UntilAny stop s')
  end.

(** [strings.Contains(s, sub)]. *)
Fixpoint Contains (sub s : string) : bool :=
  HasPrefix sub s || match s with EmptyString => false | String _ s' => Contains sub s' end.

(** [strings.Split(s, "c")]. *)
Fixpoint SplitByte (c : ascii) (s : string) : list string :=
  match s with
  | EmptyString => [EmptyString]
  | String d s' =>
      if Ascii.eqb d c then EmptyString :: SplitByte c s' else
      match SplitByte c s' with
      | seg :: rest => String d seg :: rest
      | [] => [String d EmptyString]
      end
  end.

(** [strings.Join]. *)
Definition Join (parts : list string) (sep : string) : string := String.concat sep parts.

(** ** Case folding

    [strings.ToLower] agrees with this function on every string whose image is
    ASCII: besides A-Z only U+0130 and U+212A have an ASCII lower case.  Its
    result is only ever looked up among ASCII keys. *)
Definition lower_byte (c : ascii) : ascii :=
  if in_range 65 90 (code c) then byte_of (code c + 32) else c.

Fixpoint ToLower (s : string) : string :=
  match s with
  | EmptyString => EmptyString
  | String a t =>
      match t with
      | String b u =>
          if ((code a =? 196) && (code b =? 176))%N then String "i" (ToLower u) else
          match u with
          | String c v =>
              if ((code a =? 226) && (code b =? 132) && (code c =? 170))%N
              then String "k" (ToLower v) else String (lower_byte a) (ToLower t)
          | EmptyString => String (lower_byte a) (ToLower t)
          end
      | EmptyString => String (lower_byte a) (ToLower t)
      end
  end.

(** The folding of [(?i)] in [regexp]: the letters of a literal also match
    U+017F (for s) and U+212A (for k). *)
Fixpoint fold_case (s : string) : string :=
  match s with
  | EmptyString => EmptyString
  | String a t =>
      match t with
      | String b u =>
          if ((code a =? 197) && (code b =? 191))%N then String "s" (fold_case u) else
          match u with
          | String c v =>
              if ((code a =? 226) && (code b =? 132) && (code c =? 170))%N
              then String "k" (fold_case v) else String (lower_byte a) (fold_case t)
          | EmptyString => String (lower_byte a) (fold_case t)
          end
      | EmptyString => String (lower_byte a) (fold_case t)
      end
  end.

(** ** [strconv] *)

(** [strconv.Itoa], [strconv.FormatUint(_, 10)] and [%d]. *)
Definition Itoa (z : Z) : string := NilZero.string_of_int (Z.to_int z).
Definition FormatUint (n : N) : string := Itoa (Z.of_N n).

Definition digits_value (s : string) : option Z :=
  match NilZero.uint_of_string s with
  | Some d => Some (Z.of_N (N.of_uint d))
  | None => None
  end.

Definition in_int64 (z : Z) : bool := (- 2 ^ 63 <=? z)%Z && (z <? 2 ^ 63)%Z.

Definition check_int64 (o : option Z) : option Z :=
  match o with
  | Some z => if in_int64 z then Some z else None
  | None => None
  end.

(** [strconv.Atoi]: an optional sign, decimal digits, the int64 range. *)
Definition Atoi (s : string) : option Z :=
  match s with
  | EmptyString => None
  | String c rest =>
      if Ascii.eqb c "-" then check_int64 (option_map Z.opp (digits_value rest))
      else if Ascii.eqb c "+" then check_int64 (digits_value rest)
      else check_int64 (digits_value s)
  end.

(** ** [path] *)

(** [path.Ext]. *)
Definition Ext (p : string) : string :=
  let last := match CutLast ch_slash p with Some (_, f) => f | None => p end in
  match CutLast ch_dot last with Some (_, e) => String ch_dot e | None => EmptyString end.

(** The element stack of [path.Clean], innermost element first. *)
Definition clean_step (rooted : bool) (stack : list string) (elem : string) : list string :=
  if (elem == "") || (elem == ".") then stack
  else if elem == ".." then
    match stack with
    | top :: rest => if top == ".." then elem :: stack else rest
    | [] => if rooted then [] else [elem]
    end
  else elem :: stack.

(** [path.Clean]. *)
Definition Clean (p : string) : string :=
  let rooted := HasPrefix "/" p in
  let body := Join (reverse (fold_left (clean_step rooted) (SplitByte ch_slash p) [])) "/" in
  if rooted then String ch_slash body else if body == "" then "." else body.

(** [path.Dir]. *)
Definition Dir (p : string) : string :=
  match CutLast ch_slash p with
  | Some (dir, _) => Clean (dir +:+ "/")
  | None => "."
  end.

(** ** [%q]

    [strconv.Quote].  [unicode.IsPrint] beyond ASCII is a table of the Unicode
    database, so it is a parameter. *)
Section Quote.
Variable isPrint : N → bool.

Definition cont (c : ascii) : bool := in_range 128 191 (code c).
Definition low6 (c : ascii) : N := code c - 128.

(** [utf8.DecodeRuneInString] beyond ASCII: the rune, its bytes and the rest. *)
Definition decode_rune (s : string) : option (N * string * string) :=
  match s with
  | String a (String b u) =>
      if in_range 194 223 (code a) && cont b then
        Some ((code a - 192) * 64 + low6 b, String a (String b ""), u)%N
      else match u with
      | String c v =>
          if in_range 224 239 (code a) && cont b && cont c
             && (negb (code a =? 224)%N || (160 <=? code b)%N)
             && (negb (code a =? 237)%N || (code b <=? 159)%N)
          then Some (((code a - 224) * 64 + low6 b) * 64 + low6 c,
                     String a (String b (String c "")), v)%N
          else match v with
          | String d w =>
              if in_range 240 244 (code a) && cont b && cont c && cont d
                 && (negb (code a =? 240)%N || (144 <=? code b)%N)
                 && (negb (code a =? 244)%N || (code b <=? 143)%N)
              then Some ((((code a - 240) * 64 + low6 b) * 64 + low6 c) * 64 + low6 d,
                         String a (String b (String c (String d ""))), w)%N
              else None
          | EmptyString => None
          end
      | EmptyString => None
      end
  | _ => None
  end.

Definition hex_digit (n : N) : ascii :=
  if (n <? 10)%N then byte_of (n + 48) else byte_of (n + 87).

Fixpoint hex_digits (count : nat) (n : N) : string :=
  match count with
  | O => ""
  | S k => hex_digits k (n / 16) +:+ String (hex_digit (n `mod` 16)) ""
  end.

Definition escape (s : string) : string := String ch_backslash s.

Definition quote_ascii (c : ascii) : string :=
  let n := code c in
  if ((n =? 34) || (n =? 92))%N then escape (String c "")
  else if in_range 32 126 n then String c ""
  else if (n =? 7)%N then escape "a" else if (n =? 8)%N then escape "b"
  else if (n =? 12)%N then escape "f" else if (n =? 10)%N then escape "n"
  else if (n =? 13)%N then escape "r" else if (n =? 9)%N then escape "t"
  else if (n =? 11)%N then escape "v" else escape ("x" +:+ hex_digits 2 n).

Definition quote_rune (r : N) (bytes : string) : string :=
  if isPrint r then bytes
  else if (r <? 65536)%N then escape ("u" +:+ hex_digits 4 r)
  else escape ("U" +:+ hex_digits 8 r).

Fixpoint quote_body (fuel : nat) (s : string) : string :=
  match fuel, s with
  | S fuel', String c s' =>
      if (code c <? 128)%N then quote_ascii c +:+ quote_body fuel' s'
      else match decode_rune s with
      | Some (r, bytes, rest) => quote_rune r bytes +:+ quote_body fuel' rest
      | None => escape ("x" +:+ hex_digits 2 (code c)) +:+ quote_body fuel' s'
      end
  | _, _ => ""
  end.

Definition Quote (s : string) : string := dq +:+ quote_body (String.length s) s +:+ dq.
End Quote.

(** ** [encoding/json] *)

(** One byte below 128 of a string, as [json.Marshal] writes it with its default
    HTML escaping. *)
Definition json_ascii (c : ascii) : string :=
  let n := code c in
  if ((n =? 34) || (n =? 92))%N then escape (String c "")
  else if in_range 32 127 n && negb ((n =? 60) || (n =? 62) || (n =? 38))%N then String c ""
  else if (n =? 8)%N then escape "b" else if (n =? 12)%N then escape "f"
  else if (n =? 10)%N then escape "n" else if (n =? 13)%N then escape "r"
  else if (n =? 9)%N then escape "t" else escape ("u00" +:+ hex_digits 2 n).

Fixpoint json_body (fuel : nat) (s : string) : string :=
  match fuel, s with
  | S fuel', String c s' =>
      if (code c <? 128)%N then json_ascii c +:+ json_body fuel' s'
      else match decode_rune s with
      | Some (r, bytes, rest) =>
          (if ((r =? 8232) || (r =? 8233))%N then escape ("u" +:+ hex_digits 4 r) else bytes)
          +:+ json_body fuel' rest
      | None => escape "ufffd" +:+ json_body fuel' s'
      end
  | _, _ => ""
  end.

(** A Go string as a JSON string. *)
Definition json_string (s : string) : string := dq +:+ json_body (String.length s) s +:+ dq.

Example json_string_example :
  json_string ("a<" +:+ dq) = dq +:+ "a\u003c\" +:+ dq +:+ dq.
Proof. reflexivity. Qed.

(** ** Lemmas *)

#[local] Arguments String.append : simpl nomatch.

Lemma append_empty_r s : s +:+ "" = s.
Proof. induction s as [|c s IH]; simpl; [done|]. by rewrite IH. Qed.

Lemma append_assoc_str a b c : (a +:+ b) +:+ c = a +:+ b +:+ c.
Proof. induction a as [|x a IH]; simpl; [done|]. by rewrite IH. Qed.

Lemma append_inj_l p a b : p +:+ a = p +:+ b → a = b.
Proof. induction p as [|c p IH]; simpl; [done|]. intros [= H]. auto. Qed.

Lemma length_append a b : String.length (a +:+ b) = String.length a + String.length b.
Proof. induction a as [|c a IH]; simpl; [done|]. by rewrite IH. Qed.

Lemma CutPrefix_app p s : CutPrefix p (p +:+ s) = Some s.
Proof. induction p as [|c p IH]; simpl; [done|]. by rewrite Ascii.eqb_refl. Qed.

Lemma CutPrefix_Some p s r : CutPrefix p s = Some r ↔ s = p +:+ r.
Proof.
  split; [|intros ->; apply CutPrefix_app].
  revert s. induction p as [|c p IH]; intros s; simpl; [by intros [= ->]|].
  destruct s as [|d s]; [done|]. destruct (Ascii.eqb_spec c d) as [->|]; [|done].
  intros H. by rewrite (IH s H).
Qed.

Lemma CutPrefix_None p s : CutPrefix p s = None ↔ ∀ r, s ≠ p +:+ r.
Proof.
  split.
  - intros H r ->. by rewrite CutPrefix_app in H.
  - intros H. destruct (CutPrefix p s) as [r|] eqn:E; [|done].
    apply CutPrefix_Some in E. by destruct (H r).
Qed.

Lemma TrimPrefix_app p s : TrimPrefix p (p +:+ s) = s.
Proof. unfold TrimPrefix. by rewrite CutPrefix_app. Qed.

Lemma HasPrefix_spec p s : HasPrefix p s = true ↔ ∃ r, s = p +:+ r.
Proof.
  unfold HasPrefix. destruct (CutPrefix p s) as [r|] eqn:E.
  - apply CutPrefix_Some in E. split; [by eexists|done].
  - rewrite CutPrefix_None in E. split; [done|]. intros [r ->]. by destruct (E r).
Qed.

Lemma CutLast_app c a b :
  CutLast c b = None → CutLast c (a +:+ String c b) = Some (a, b).
Proof.
  intros Hb. induction a as [|d a IH]; simpl.
  - by rewrite Hb, Ascii.eqb_refl.
  - by rewrite IH.
Qed.

Lemma CutLast_Some c s a b :
  CutLast c s = Some (a, b) → s = a +:+ String c b ∧ CutLast c b = None.
Proof.
  revert a b. induction s as [|d s IH]; intros a b; simpl; [done|].
  destruct (CutLast c s) as [[a' b']|] eqn:E.
  - intros [= <- <-]. destruct (IH a' b' eq_refl) as [-> ?]. done.
  - destruct (Ascii.eqb_spec d c) as [->|]; [|done]. by intros [= <- <-].
Qed.

Lemma Itoa_inj a b : Itoa a = Itoa b → a = b.
Proof.
  unfold Itoa. intros H.
  assert (∀ z, NilZero.int_of_string (NilZero.string_of_int (Z.to_int z)) = Some (Z.to_int z)) as Hr.
  { intros z. apply NilZero.isi.
    - destruct z; simpl; try done. intros [=]. by eapply DecimalPos.Unsigned.to_uint_nonnil.
    - destruct z; simpl; try done. intros [=]. by eapply DecimalPos.Unsigned.to_uint_nonnil. }
  pose proof (Hr a) as Ha. rewrite H, Hr in Ha. injection Ha as Ha.
  by apply DecimalZ.to_int_inj.
Qed.

Lemma uint_string_head d : d ≠ Decimal.Nil →
  ∃ c r, NilZero.string_of_uint d = String c r ∧ Ascii.eqb c "-" = false ∧ Ascii.eqb c "+" = false.
Proof. intros H. destruct d; [done|..]; simpl; by repeat eexists. Qed.

Lemma digits_value_uint d : d ≠ Decimal.Nil →
  digits_value (NilZero.string_of_uint d) = Some (Z.of_N (N.of_uint d)).
Proof. intros H. unfold digits_value. by rewrite NilZero.usu. Qed.

(** Parsing a printed [int] gives it back. *)
Lemma Atoi_Itoa z : in_int64 z = true → Atoi (Itoa z) = Some z.
Proof.
  intros Hz. unfold Itoa. destruct z as [|p|p]; [done|..]; simpl.
  - pose proof (DecimalPos.Unsigned.to_uint_nonnil p) as Hn.
    change (Pos.to_uint p) with (N.to_uint (N.pos p)) in *.
    destruct (uint_string_head _ Hn) as (c & r & E & H1 & H2).
    unfold Atoi. rewrite E, H1, H2, <- E, digits_value_uint by done.
    rewrite DecimalN.Unsigned.of_to.
    change (check_int64 (Some (Z.pos p)) = Some (Z.pos p)). unfold check_int64. by rewrite Hz.
  - pose proof (DecimalPos.Unsigned.to_uint_nonnil p) as Hn.
    change (Pos.to_uint p) with (N.to_uint (N.pos p)) in *.
    rewrite digits_value_uint by done. rewrite DecimalN.Unsigned.of_to.
    change (check_int64 (Some (Z.neg p)) = Some (Z.neg p)). unfold check_int64. by rewrite Hz.
Qed.

Lemma uint_string_no_colon d : CutLast ch_colon (NilEmpty.string_of_uint d) = None.
Proof. induction d; simpl; try done; by rewrite IHd. Qed.

Lemma Itoa_no_colon z : CutLast ch_colon (Itoa z) = None.
Proof.
  unfold Itoa, NilZero.string_of_int, NilZero.string_of_uint.
  destruct (Z.to_int z) as [d|d]; destruct d; simpl; try done; by rewrite uint_string_no_colon.
Qed.

Lemma FormatUint_inj a b : FormatUint a = FormatUint b → a = b.
Proof. unfold FormatUint. intros H%Itoa_inj. lia. Qed.

Lemma get_app a c b : String.get (String.length a) (a +:+ String c b) = Some c.
Proof. induction a as [|x a IH]; [reflexivity|]. apply IH. Qed.

Lemma substring_prefix b c : String.substring 0 (String.length b) (b +:+ c) = b.
Proof. induction b as [|x b IH]; [by destruct c|]. cbn. by rewrite IH. Qed.

Lemma substring_app a b c :
  String.substring (String.length a) (String.length b) (a +:+ b +:+ c) = b.
Proof. induction a as [|x a IH]; [exact (substring_prefix b c)|]. apply IH. Qed.

Lemma CutLast_snoc c d s :
  CutLast c s = None → Ascii.eqb d c = false → CutLast c (s +:+ String d "") = None.
Proof.
  intros Hs Hd. induction s as [|x s IH]; simpl in *; [by rewrite Hd|].
  destruct (CutLast c s) as [[]|]; [done|]. rewrite IH by done. by destruct (Ascii.eqb x c).
Qed.

Lemma SplitByte_last c s : CutLast c s = None → SplitByte c s = [s].
Proof.
  induction s as [|x s IH]; simpl; [done|]. destruct (CutLast c s) as [[]|]; [done|].
  destruct (Ascii.eqb x c); [done|]. by rewrite IH.
Qed.

Lemma SplitByte_app c s t :
  CutLast c s = None → SplitByte c (s +:+ String c t) = s :: SplitByte c t.
Proof.
  induction s as [|x s IH]; simpl; [by rewrite Ascii.eqb_refl|].
  destruct (CutLast c s) as [[]|]; [done|]. destruct (Ascii.eqb x c); [done|]. intros.
  by rewrite IH.
Qed.

#[export] Hint Rewrite append_empty_r CutPrefix_app TrimPrefix_app : coach.

Example TrimSpace_example :
  TrimSpace (String (byte_of 194) (String (byte_of 160) (" a b " +:+ String (byte_of 226)
    (String (byte_of 128) (String (byte_of 137) ""))))) = "a b".
Proof. reflexivity. Qed.

Example Dir_examples :
  (Dir "a/b/c.go", Dir "c.go", Dir "/x", Dir "a//../b/c") = ("a/b", ".", "/", "b").
Proof. reflexivity. Qed.

Example Ext_examples : (Ext "a.b/c.json", Ext "a.b/c", Ext "x.tar.gz") = (".json", "", ".gz").
Proof. reflexivity. Qed.

#[global] Arguments CutPrefix : simpl never.
#[global] Arguments CutLast : simpl never.
#[global] Arguments SplitByte : simpl never.
#[global] Arguments Itoa : simpl never.
#[global] Arguments Atoi : simpl never.
