(* ===== verification/Paths.v ===== *)
(** * File paths

    [path/filepath] on a slash-separated system, over [GoText]'s [Clean]: joining,
    relative paths, and what they say of where a path lies. *)

From Stdlib Require Import Ascii.
From S2P Require Import Prelude GoText.

(** The elements of a path. *)
Definition segments (p : string) : list string := List.filter (λ s, s != "") (SplitByte ch_slash p).

Fixpoint drop_common (a b : list string) : list string * list string :=
  match a, b with
  | x :: a', y :: b' => if x == y then drop_common a' b' else (a, b)
  | _, _ => (a, b)
  end.

(** [filepath.Rel] of two clean absolute paths, which does not fail. *)
Definition Rel (base target : string) : string :=
  let '(up, down) := drop_common (segments base) (segments target) in
  let elems := map (λ _, "..") up ++ down in
  match elems with [] => "." | _ => Join elems "/" end.

(** [filepath.Join] of two elements. *)
Definition Join2 (a b : string) : string :=
  if a == "" then (if b == "" then "" else Clean b) else if b == "" then Clean a else Clean (a +:+ "/" +:+ b).

Example Rel_examples :
  map (Rel "/srv/fix") ["/srv/fix"; "/srv/fix/a/b.go"; "/srv/other"; "/srv/fixture"]
  = ["."; "a/b.go"; "../other"; "../fixture"].
Proof. vm_compute. reflexivity. Qed.

Lemma SplitByte_cons c d s : SplitByte c (String d s)
  = if Ascii.eqb d c then "" :: SplitByte c s
    else match SplitByte c s with seg :: rest => String d seg :: rest | [] => [String d ""] end.
Proof. reflexivity. Qed.

Lemma CutLast_cons c d s : CutLast c (String d s)
  = match CutLast c s with
    | Some (before, after) => Some (String d before, after)
    | None => if Ascii.eqb d c then Some ("", s) else None
    end.
Proof. reflexivity. Qed.

Lemma HasPrefix_slash p : HasPrefix "/" p = true ↔ ∃ q, p = String ch_slash q.
Proof.
  destruct p as [|c p]; [split; [done|by intros (q & [=])]|].
  change (HasPrefix "/" (String c p)) with (match (if Ascii.eqb ch_slash c then Some p else None) with Some _ => true | None => false end).
  destruct (Ascii.eqb_spec ch_slash c) as [<-|]; split; try done; [by exists p|]. by intros (q & [= ->]).
Qed.

Definition no_slash (s : string) : Prop := CutLast ch_slash s = None.

Lemma SplitByte_no_slash s : Forall no_slash (SplitByte ch_slash s).
Proof.
  unfold no_slash. induction s as [|c s IH]; [by repeat constructor|]. rewrite SplitByte_cons.
  destruct (Ascii.eqb c ch_slash) eqn:Ec; [by constructor|].
  destruct (SplitByte ch_slash s) as [|seg rest]; inversion IH as [|?? Hs Hr]; subst; constructor; try done;
    rewrite CutLast_cons; by rewrite ?Hs, Ec.
Qed.

(** An element of a clean rooted path. *)
Definition plain_element (e : string) : Prop := no_slash e ∧ e ≠ "" ∧ e ≠ "." ∧ e ≠ "..".

Lemma clean_stack elems stack : Forall no_slash elems → Forall plain_element stack →
  Forall plain_element (fold_left (clean_step true) elems stack).
Proof.
  intros He. revert stack. induction He as [|e elems Hn _ IH]; intros stack Hs; [done|]. apply IH. unfold clean_step.
  destruct (String.eqb_spec e "") as [|N1]; [done|]. destruct (String.eqb_spec e ".") as [|N2]; [done|]. cbn [orb].
  destruct (String.eqb_spec e "..") as [|N3]; [|by constructor].
  destruct stack as [|top stack]; [done|]. inversion Hs as [|?? Ht Hr]; subst.
  destruct (String.eqb_spec top "..") as [->|]; [by destruct Ht as (_ & _ & _ & ?)|done].
Qed.

Lemma SplitByte_Join l : Forall no_slash l → l ≠ [] → SplitByte ch_slash (Join l "/") = l.
Proof.
  unfold Join. induction 1 as [|x l Hx Hl IH]; [done|]. intros _. destruct l as [|y l]; [by apply SplitByte_last|].
  change (String.concat "/" (x :: y :: l)) with (x +:+ String ch_slash (String.concat "/" (y :: l))).
  rewrite SplitByte_app by exact Hx. by rewrite IH.
Qed.

Lemma filter_plain l : Forall plain_element l → List.filter (λ s, s != "") l = l.
Proof.
  induction 1 as [|e l (_ & Hn & _) _ IH]; [done|]. cbn. apply String.eqb_neq in Hn. by rewrite Hn, IH.
Qed.

(** A rooted path, cleaned, goes up nowhere. *)
Lemma segments_Clean p : HasPrefix "/" p = true → Forall plain_element (segments (Clean p)).
Proof.
  intros Hp. unfold Clean. rewrite Hp. set (elems := reverse _).
  assert (Forall plain_element elems) as He.
  { apply list.Forall_reverse, clean_stack; [apply SplitByte_no_slash|constructor]. }
  unfold segments. rewrite SplitByte_cons, Ascii.eqb_refl. cbn [List.filter].
  destruct elems as [|e l]; [constructor|]. rewrite SplitByte_Join; [|eapply list.Forall_impl; [exact He|by intros ? []]|done].
  change (String.eqb "" "") with true. cbn [negb]. by rewrite filter_plain.
Qed.

Lemma drop_common_app a b up down : drop_common a b = (up, down) → ∃ c, a = c ++ up ∧ b = c ++ down.
Proof.
  revert b. induction a as [|x a IH]; intros b; cbn; [intros [= <- <-]; by exists []|].
  destruct b as [|y b]; [intros [= <- <-]; by exists []|].
  destruct (String.eqb_spec x y) as [->|]; [|intros [= <- <-]; by exists []].
  intros H. destruct (IH _ H) as (c & -> & ->). by exists (y :: c).
Qed.

(** A relative path that does not begin by going up goes down. *)
Lemma Rel_inside base target :
  Rel base target ≠ ".." → HasPrefix "../" (Rel base target) = false →
  ∃ down, segments target = segments base ++ down.
Proof.
  unfold Rel. destruct (drop_common _ _) as [up down] eqn:E. apply drop_common_app in E as (c & Ha & Hb).
  destruct up as [|u up]; [intros _ _; exists down; by rewrite Hb, Ha, app_nil_r|]. cbn [map app].
  destruct (map (λ _, "..") up ++ down) as [|x l]; [done|]. intros _ H. discriminate H.
Qed.

Lemma HasPrefix_slash_Clean p : HasPrefix "/" p = true → HasPrefix "/" (Clean p) = true.
Proof. intros H. unfold Clean. rewrite H. apply HasPrefix_slash. by eexists. Qed.

Lemma HasPrefix_slash_app p q : HasPrefix "/" p = true → HasPrefix "/" (p +:+ q) = true.
Proof. rewrite !HasPrefix_slash. intros (r & ->). by eexists. Qed.


(** ** Any two paths *)

Definition base_segments (p : string) : list string := if p == "." then [] else segments p.

(** [filepath.Rel]: [None] when one path is rooted and the other is not, or when the way
    up from the base is not known. *)
Definition RelPath (basePath targPath : string) : option string :=
  let base := Clean basePath in
  let targ := Clean targPath in
  if targ == base then Some "." else
  if Bool.eqb (HasPrefix "/" base) (HasPrefix "/" targ) then
    let '(up, down) := drop_common (base_segments base) (segments targ) in
    match up with
    | ".." :: _ => None
    | _ => Some (match map (λ _, "..") up ++ down with [] => "." | elems => Join elems "/" end)
    end
  else None.

(** [filepath.Rel(base, targ)] failed or leads out of the base. *)
Definition outside (rel : option string) : bool :=
  match rel with None => true | Some rel => (rel == "..") || HasPrefix "../" rel end.

Example RelPath_examples :
  map (λ '(a, b), RelPath a b) [("/a/b", "/a/c/d"); (".", "x/y"); ("../u", "v"); ("/a", "b"); ("/a/", "/a/./b")]
  = [Some "../c/d"; Some "x/y"; None; None; Some "b"].
Proof. vm_compute. reflexivity. Qed.

(** What is not outside a rooted base is below it. *)
Lemma RelPath_inside base targ : HasPrefix "/" base = true → outside (RelPath base targ) = false →
  HasPrefix "/" (Clean targ) = true ∧ ∃ down, segments (Clean targ) = segments (Clean base) ++ down.
Proof.
  intros Hb. apply HasPrefix_slash_Clean in Hb. unfold RelPath.
  destruct (String.eqb_spec (Clean targ) (Clean base)) as [->|]; [intros _; split; [done|exists []; by rewrite app_nil_r]|].
  rewrite Hb. destruct (HasPrefix "/" (Clean targ)) eqn:Ht; [|done]. cbn [Bool.eqb].
  assert (base_segments (Clean base) = segments (Clean base)) as ->.
  { unfold base_segments. destruct (String.eqb_spec (Clean base) ".") as [E|]; [by rewrite E in Hb|done]. }
  destruct (drop_common _ _) as [up down] eqn:E. apply drop_common_app in E as (c & Ea & Ed). intros Ho.
  split; [done|]. destruct up as [|u up]; [exists down; by rewrite Ed, Ea, app_nil_r|]. exfalso. revert Ho.
  assert (∀ l, outside (Some (match ".." :: l with [] => "." | elems => Join elems "/" end)) = true) as Hup
    by (intros [|x l]; done).
  destruct (String.eqb_spec u "..") as [->|Hu]; [done|].
  replace (match u with ".." => None | _ => _ end)
    with (Some (match ".." :: (map (λ _, "..") up ++ down) with [] => "." | elems => Join elems "/" end)); [by rewrite Hup|].
  destruct u as [|[[] [] [] [] [] [] [] []] u]; try done; destruct u as [|[[] [] [] [] [] [] [] []] u]; try done; by destruct u.
Qed.

(** ** Cleaning twice *)

Lemma fold_plain elems stack : Forall plain_element elems → fold_left (clean_step true) elems stack = reverse elems ++ stack.
Proof.
  intros H. revert stack. induction H as [|e elems (_ & H1 & H2 & H3) _ IH]; intros stack; [done|].
  cbn [fold_left]. rewrite IH, reverse_cons, <- app_assoc. f_equal. unfold clean_step.
  apply String.eqb_neq in H1, H2, H3. by rewrite H1, H2, H3.
Qed.

(** A rooted clean path is its elements. *)
Lemma Clean_elements p : HasPrefix "/" p = true →
  ∃ elems, Forall plain_element elems ∧ Clean p = String ch_slash (Join elems "/").
Proof.
  intros Hp. unfold Clean. rewrite Hp. eexists. split; [|done].
  apply list.Forall_reverse, clean_stack; [apply SplitByte_no_slash|constructor].
Qed.

Lemma Clean_plain elems : Forall plain_element elems → Clean (String ch_slash (Join elems "/")) = String ch_slash (Join elems "/").
Proof.
  intros H. unfold Clean.
  replace (HasPrefix "/" (String ch_slash (Join elems "/"))) with true by (symmetry; apply HasPrefix_slash; by eexists).
  rewrite SplitByte_cons, Ascii.eqb_refl. cbn [fold_left]. change (clean_step true [] "") with (@nil string).
  destruct elems as [|e elems]; [done|].
  rewrite SplitByte_Join; [|eapply list.Forall_impl; [exact H|by intros ? []]|done].
  by rewrite fold_plain, app_nil_r, reverse_involutive.
Qed.

Lemma Clean_idemp p : HasPrefix "/" p = true → Clean (Clean p) = Clean p.
Proof. intros (elems & H & ->)%Clean_elements. by apply Clean_plain. Qed.

(** ** Splitting at a slash *)

Lemma SplitByte_some c s : SplitByte c s ≠ [].
Proof. destruct s as [|d s]; [done|]. rewrite SplitByte_cons. by destruct (Ascii.eqb d c), (SplitByte c s). Qed.

Lemma SplitByte_at c a b : SplitByte c (a +:+ String c b) = SplitByte c a ++ SplitByte c b.
Proof.
  induction a as [|d a IH].
  - change ("" +:+ String c b) with (String c b). by rewrite SplitByte_cons, Ascii.eqb_refl.
  - change (String d a +:+ ?x) with (String d (a +:+ x)). rewrite !SplitByte_cons, IH.
    destruct (Ascii.eqb d c); [done|]. destruct (SplitByte c a) eqn:E; [by apply SplitByte_some in E|done].
Qed.
