(* ===== verification/GoHash.v ===== *)
(** * Hashing

    [crypto/sha256], [encoding/hex] and the length-prefixed encoding under every
    identity the program computes. *)

From Stdlib Require Import Ascii.
From S2P Require Import Prelude GoText.

(** ** SHA-256 on 32-bit words *)

Definition w32 (n : N) : N := N.land n 4294967295.
Definition add32 (a b : N) : N := w32 (a + b).
Definition rotr (k : N) (x : N) : N := N.lor (N.shiftr x k) (w32 (N.shiftl x (32 - k))).
Definition not32 (x : N) : N := N.lxor x 4294967295.

Definition bsig0 x := N.lxor (N.lxor (rotr 2 x) (rotr 13 x)) (rotr 22 x).
Definition bsig1 x := N.lxor (N.lxor (rotr 6 x) (rotr 11 x)) (rotr 25 x).
Definition ssig0 x := N.lxor (N.lxor (rotr 7 x) (rotr 18 x)) (N.shiftr x 3).
Definition ssig1 x := N.lxor (N.lxor (rotr 17 x) (rotr 19 x)) (N.shiftr x 10).
Definition ch x y z := N.lxor (N.land x y) (N.land (not32 x) z).
Definition maj x y z := N.lxor (N.lxor (N.land x y) (N.land x z)) (N.land y z).

(** The constants, from their definition in the standard: the first 32 bits of the
    fractional parts of the cube roots and the square roots of the first primes. *)
Definition primes : list N :=
  Eval vm_compute in
    take 64 (List.filter (λ n, forallb (λ d, negb (n `mod` d =? 0)%N)
                                 (map N.of_nat (seq 2 (N.to_nat n - 2))))
               (map N.of_nat (seq 2 310))).

(** [icbrt bits r n]: extends [r] by [bits] low bits to the greatest cube root of [n]. *)
Fixpoint icbrt (bits : nat) (r n : N) : N :=
  match bits with
  | O => r
  | S k => let r' := (r + 2 ^ N.of_nat k)%N in icbrt k (if (r' ^ 3 <=? n)%N then r' else r) n
  end.

Definition round_constants : list N :=
  Eval vm_compute in map (λ p, w32 (icbrt 36 0 (N.shiftl p 96))) primes.

Record sha_state := ShaState { sa : N; sb : N; sc : N; sd : N; se : N; sf : N; sg : N; sh : N }.

Definition initial_state : sha_state :=
  Eval vm_compute in
    let h i := w32 (N.sqrt (N.shiftl (nth i primes 0%N) 64)) in
    ShaState (h 0) (h 1) (h 2) (h 3) (h 4) (h 5) (h 6) (h 7).

Definition sha_round (s : sha_state) (k w : N) : sha_state :=
  let t1 := add32 (add32 (add32 (add32 (sh s) (bsig1 (se s))) (ch (se s) (sf s) (sg s))) k) w in
  let t2 := add32 (bsig0 (sa s)) (maj (sa s) (sb s) (sc s)) in
  ShaState (add32 t1 t2) (sa s) (sb s) (sc s) (add32 (sd s) t1) (se s) (sf s) (sg s).

(** [window] holds the last sixteen schedule words, oldest first. *)
Fixpoint sha_rounds (ks : list N) (window : list N) (s : sha_state) : sha_state :=
  match ks, window with
  | k :: ks', w :: rest =>
      let next := add32 (add32 (ssig1 (nth 13 rest 0%N)) (nth 8 rest 0%N))
                        (add32 (ssig0 (nth 0 rest 0%N)) w) in
      sha_rounds ks' (rest ++ [next]) (sha_round s k w)
  | _, _ => s
  end.

Definition sha_block (s : sha_state) (block : list N) : sha_state :=
  let r := sha_rounds round_constants block s in
  ShaState (add32 (sa s) (sa r)) (add32 (sb s) (sb r)) (add32 (sc s) (sc r))
           (add32 (sd s) (sd r)) (add32 (se s) (se r)) (add32 (sf s) (sf r))
           (add32 (sg s) (sg r)) (add32 (sh s) (sh r)).

Fixpoint be_words (bytes : list N) : list N :=
  match bytes with
  | a :: b :: c :: d :: rest => (((a * 256 + b) * 256 + c) * 256 + d)%N :: be_words rest
  | _ => []
  end.

Fixpoint be_bytes (count : nat) (n : N) : list N :=
  match count with
  | O => []
  | S k => be_bytes k (n / 256) ++ [n `mod` 256]%N
  end.

Definition sha_pad (bytes : list N) : list N :=
  let len := length bytes in
  let zeros := (64 - ((len + 9) mod 64)) mod 64 in
  bytes ++ [128%N] ++ replicate zeros 0%N ++ be_bytes 8 (N.of_nat (8 * len)).

Fixpoint sha_blocks (count : nat) (words : list N) (s : sha_state) : sha_state :=
  match count with
  | O => s
  | S k => sha_blocks k (drop 16 words) (sha_block s (take 16 words))
  end.

Definition bytes_of (s : string) : list N := map code (String.list_ascii_of_string s).

(** [sha256.Sum256]: thirty-two bytes. *)
Definition Sum256 (buf : string) : list N :=
  let words := be_words (sha_pad (bytes_of buf)) in
  let s := sha_blocks (length words / 16) words initial_state in
  concat (map (be_bytes 4) [sa s; sb s; sc s; sd s; se s; sf s; sg s; sh s]).

(** [hex.EncodeToString]. *)
Fixpoint EncodeToString (bytes : list N) : string :=
  match bytes with
  | [] => ""
  | b :: rest => String (hex_digit (b / 16)) (String (hex_digit (b `mod` 16)) (EncodeToString rest))
  end.

Definition hex_sum (buf : string) : string := EncodeToString (Sum256 buf).

(** ** Length-prefixed fields *)

Definition string_of_bytes (bytes : list N) : string :=
  String.string_of_list_ascii (map byte_of bytes).

(** [binary.BigEndian.PutUint32(lenBuf, uint32(len(field)))] then the field.
    go: pkg/codesignal/fingerprint.go#appendLengthPrefixed *)
Definition appendLengthPrefixed (buf field : string) : string :=
  buf +:+ string_of_bytes (be_bytes 4 (w32 (N.of_nat (String.length field)))) +:+ field.

(** Reads one length-prefixed field back. *)
Fixpoint split_at (n : nat) (s : string) : option (string * string) :=
  match n, s with
  | O, _ => Some ("", s)
  | S k, String c s' =>
      match split_at k s' with Some (a, b) => Some (String c a, b) | None => None end
  | S _, EmptyString => None
  end.

Definition read_field (s : string) : option (string * string) :=
  match s with
  | String a (String b (String c (String d rest))) =>
      split_at (N.to_nat (((code a * 256 + code b) * 256 + code c) * 256 + code d)) rest
  | _ => None
  end.

Fixpoint read_fields (count : nat) (s : string) : option (list string) :=
  match count with
  | O => match s with EmptyString => Some [] | _ => None end
  | S k =>
      match read_field s with
      | Some (f, rest) =>
          match read_fields k rest with Some fs => Some (f :: fs) | None => None end
      | None => None
      end
  end.

(** The buffer built by appending the fields in order. *)
Definition encode_fields (fields : list string) : string :=
  fold_left appendLengthPrefixed fields "".

(** ** Lemmas *)

#[local] Arguments String.append : simpl nomatch.

(** A length that [uint32] does not truncate. *)
Definition fits_uint32 (s : string) : bool := (N.of_nat (String.length s) <? 2 ^ 32)%N.

Lemma appendLengthPrefixed_app buf f :
  appendLengthPrefixed buf f = buf +:+ appendLengthPrefixed "" f.
Proof. done. Qed.

Lemma fold_appendLengthPrefixed fields buf :
  fold_left appendLengthPrefixed fields buf = buf +:+ encode_fields fields.
Proof.
  unfold encode_fields. revert buf.
  assert (∀ buf acc, fold_left appendLengthPrefixed fields (buf +:+ acc)
    = buf +:+ fold_left appendLengthPrefixed fields acc) as H.
  { induction fields as [|f fs IH]; intros buf acc; simpl; [done|].
    rewrite <- IH. f_equal. unfold appendLengthPrefixed. by rewrite append_assoc_str. }
  intros buf. rewrite <- H. by rewrite append_empty_r.
Qed.

Lemma encode_fields_cons f fs :
  encode_fields (f :: fs) = appendLengthPrefixed "" f +:+ encode_fields fs.
Proof. unfold encode_fields at 1. simpl. apply fold_appendLengthPrefixed. Qed.

Lemma split_at_app a b : split_at (String.length a) (a +:+ b) = Some (a, b).
Proof. induction a as [|c a IH]; simpl; [done|]. by rewrite IH. Qed.

Lemma w32_small n : (n < 2 ^ 32)%N → w32 n = n.
Proof.
  intros H. unfold w32. change 4294967295%N with (N.ones 32).
  rewrite N.land_ones. by apply N.mod_small.
Qed.

Lemma code_byte_of n : (n < 256)%N → code (byte_of n) = n.
Proof. apply N_ascii_embedding. Qed.

Lemma read_field_encoded f rest :
  fits_uint32 f = true → read_field (appendLengthPrefixed "" f +:+ rest) = Some (f, rest).
Proof.
  unfold fits_uint32. intros H%N.ltb_lt. unfold appendLengthPrefixed.
  rewrite w32_small by done. set (n := N.of_nat (String.length f)) in *.
  cbn [be_bytes app map string_of_bytes String.string_of_list_ascii String.append read_field].
  simpl. rewrite !code_byte_of by (apply N.mod_lt; done).
  replace (N.to_nat _) with (String.length f); [apply split_at_app|].
  assert ((((n / 256 / 256 / 256) `mod` 256 * 256 + (n / 256 / 256) `mod` 256) * 256
    + (n / 256) `mod` 256) * 256 + n `mod` 256 = n)%N as ->; [|lia].
  assert (n / 256 / 256 / 256 < 256)%N as Hs.
  { rewrite !N.Div0.div_div. apply N.Div0.div_lt_upper_bound. lia. }
  rewrite (N.mod_small (n / 256 / 256 / 256)) by done.
  pose proof (N.Div0.div_mod n 256). pose proof (N.Div0.div_mod (n / 256) 256).
  pose proof (N.Div0.div_mod (n / 256 / 256) 256). lia.
Qed.

(** Decoding inverts encoding. *)
Lemma read_fields_encoded fields :
  forallb fits_uint32 fields = true →
  read_fields (length fields) (encode_fields fields) = Some fields.
Proof.
  induction fields as [|f fs IH]; simpl; [done|]. intros [Hf Hfs]%andb_true_iff.
  by rewrite encode_fields_cons, read_field_encoded, IH.
Qed.

Lemma encode_fields_inj fs gs :
  length fs = length gs →
  forallb fits_uint32 fs = true → forallb fits_uint32 gs = true →
  encode_fields fs = encode_fields gs → fs = gs.
Proof.
  intros Hl Hf Hg He.
  pose proof (read_fields_encoded fs Hf) as H1. pose proof (read_fields_encoded gs Hg) as H2.
  rewrite He, Hl, H2 in H1. by injection H1.
Qed.

(** The encoding determines the number of fields too. *)
Lemma encode_fields_inj_any fs gs :
  forallb fits_uint32 fs = true → forallb fits_uint32 gs = true →
  encode_fields fs = encode_fields gs → fs = gs.
Proof.
  revert gs. induction fs as [|f fs IH]; intros [|g gs]; cbn [forallb]; [done|..].
  - intros _ [Hg _]%andb_true_iff H. rewrite encode_fields_cons in H.
    pose proof (read_field_encoded g (encode_fields gs) Hg) as Hr. by rewrite <- H in Hr.
  - intros [Hf _]%andb_true_iff _ H. rewrite encode_fields_cons in H.
    pose proof (read_field_encoded f (encode_fields fs) Hf) as Hr. by rewrite H in Hr.
  - intros [Hf Hfs]%andb_true_iff [Hg Hgs]%andb_true_iff H. rewrite !encode_fields_cons in H.
    pose proof (read_field_encoded f (encode_fields fs) Hf) as Hr.
    rewrite H, (read_field_encoded g (encode_fields gs) Hg) in Hr. injection Hr as -> Hr.
    f_equal. by apply IH.
Qed.

Lemma be_bytes_length k n : length (be_bytes k n) = k.
Proof. revert n. induction k as [|k IH]; intros n; simpl; [done|]. rewrite length_app, IH. simpl. lia. Qed.

Lemma be_bytes_bound k n b : In b (be_bytes k n) → (b < 256)%N.
Proof.
  revert n. induction k as [|k IH]; intros n; simpl; [done|].
  rewrite in_app_iff. intros [H|[<-|[]]]; [eauto|]. by apply N.mod_lt.
Qed.

Lemma Sum256_length buf : length (Sum256 buf) = 32.
Proof. unfold Sum256. cbn [concat map]. by rewrite !length_app, !be_bytes_length. Qed.

Lemma Sum256_bound buf b : In b (Sum256 buf) → (b < 256)%N.
Proof.
  unfold Sum256. rewrite in_concat. intros (l & Hl & Hb).
  apply in_map_iff in Hl as (n & <- & _). by eapply be_bytes_bound.
Qed.

Lemma hex_digit_inj a b : (a < 16)%N → (b < 16)%N → hex_digit a = hex_digit b → a = b.
Proof.
  intros Ha Hb. unfold hex_digit.
  intros H%(f_equal code).
  assert (∀ n, (n < 16)%N → code (if (n <? 10)%N then byte_of (n + 48) else byte_of (n + 87))
    = if (n <? 10)%N then (n + 48)%N else (n + 87)%N) as E.
  { intros n Hn. destruct (n <? 10)%N; apply code_byte_of; lia. }
  rewrite !E in H by done.
  destruct (N.ltb_spec a 10), (N.ltb_spec b 10); lia.
Qed.

Lemma EncodeToString_inj l l' :
  (∀ b, In b l → (b < 256)%N) → (∀ b, In b l' → (b < 256)%N) →
  EncodeToString l = EncodeToString l' → l = l'.
Proof.
  revert l'. induction l as [|x l IH]; intros [|y l'] Hl Hl'; simpl; try done.
  intros [= H1 H2 H3].
  assert (x < 256 ∧ y < 256)%N as [Hx Hy] by (split; [apply Hl|apply Hl']; by left).
  apply hex_digit_inj in H1; [|apply N.Div0.div_lt_upper_bound; lia..].
  apply hex_digit_inj in H2; [|by apply N.mod_lt..].
  f_equal; [|apply IH; auto using in_cons].
  rewrite (N.Div0.div_mod x 16), (N.Div0.div_mod y 16). by rewrite H1, H2.
Qed.

(** Printed digests agree exactly when the digests do. *)
Lemma hex_sum_inj a b : hex_sum a = hex_sum b ↔ Sum256 a = Sum256 b.
Proof.
  unfold hex_sum. split; [|by intros ->].
  apply EncodeToString_inj; intros; by eapply Sum256_bound.
Qed.

Lemma EncodeToString_length l : String.length (EncodeToString l) = 2 * length l.
Proof. induction l as [|x l IH]; simpl; [done|]. rewrite IH. lia. Qed.

Lemma hex_sum_length buf : String.length (hex_sum buf) = 64.
Proof. unfold hex_sum. by rewrite EncodeToString_length, Sum256_length. Qed.

(** The FIPS 180-2 test vectors for one and two blocks. *)
Example sha256_abc :
  hex_sum "abc" = "ba7816bf8f01cfea414140de5dae2223b00361a396177a9cb410ff61f20015ad".
Proof. vm_compute. reflexivity. Qed.

Example sha256_two_blocks :
  hex_sum "abcdbcdecdefdefgefghfghighijhijkijkljklmklmnlmnomnopnopq"
  = "248d6a61d20638b8e5c026930c3e6039a33ce45964ff2167f6ecedd419db06c1".
Proof. vm_compute. reflexivity. Qed.
