(* ===== verification/GoFloat.v ===== *)
(** * Go's float64

    IEEE 754 binary64 through the executable specification [SpecFloat]: the
    conversion [float64(n)], the quotient, and [cmp.Compare]. *)

From Stdlib Require Import SpecFloat.
From S2P Require Import Prelude GoOrder.

Definition float64 := spec_float.

(** [float64(n)], rounded to nearest, ties to even. *)
Definition float64_of_int (n : Z) : float64 := binary_normalize 53 1024 n 0 false.

(** The zero value. *)
Definition float64_zero : float64 := S754_zero false.

(** [a / b]. *)
Definition float64_div : float64 → float64 → float64 := SFdiv 53 1024.

(** [cmp.Compare] on float64: a NaN is below every number and equal to itself. *)
Definition float64_compare (a b : float64) : comparison :=
  match SFcompare a b with
  | Some c => c
  | None =>
      match a, b with
      | S754_nan, S754_nan => Eq
      | S754_nan, _ => Lt
      | _, _ => Gt
      end
  end.

(** ** The order is a total preorder *)

(** Class, exponent and significand, signed so that they compare
    lexicographically. *)
Definition float_key (x : float64) : Z * (Z * Z) :=
  match x with
  | S754_nan => (-3, (0, 0))
  | S754_infinity true => (-2, (0, 0))
  | S754_finite true m e => (-1, (- e, Z.neg m))
  | S754_zero _ => (0, (0, 0))
  | S754_finite false m e => (1, (e, Z.pos m))
  | S754_infinity false => (2, (0, 0))
  end%Z.

Definition key_compare (a b : Z * (Z * Z)) : comparison :=
  then_cmp (a.1 ?= b.1)%Z (then_cmp (a.2.1 ?= b.2.1)%Z (a.2.2 ?= b.2.2)%Z).

#[export] Instance key_compare_laws : CmpLaws key_compare.
Proof.
  pose proof (on_cmp_laws (A:=Z * (Z * Z)) (λ a, a.1) Z.compare).
  pose proof (on_cmp_laws (A:=Z * (Z * Z)) (λ a, a.2.1) Z.compare).
  pose proof (on_cmp_laws (A:=Z * (Z * Z)) (λ a, a.2.2) Z.compare).
  pose proof (then_cmp_laws (λ a b : Z * (Z * Z), a.2.1 ?= b.2.1)%Z (λ a b, a.2.2 ?= b.2.2)%Z).
  apply (then_cmp_laws (λ a b : Z * (Z * Z), a.1 ?= b.1)%Z
    (λ a b, then_cmp (a.2.1 ?= b.2.1) (a.2.2 ?= b.2.2))%Z).
Qed.

Lemma float64_compare_key a b : float64_compare a b = key_compare (float_key a) (float_key b).
Proof.
  unfold float64_compare, key_compare.
  destruct a as [[]|[]| |[] m e], b as [[]|[]| |[] m' e']; try done; simpl.
  - rewrite Z.compare_opp, (Z.compare_antisym e e'). by destruct (e ?= e')%Z.
  - by destruct (e ?= e')%Z.
Qed.

#[export] Instance float64_compare_laws : CmpLaws float64_compare.
Proof.
  pose proof (on_cmp_laws float_key key_compare) as [H1 H2 H3 H4].
  split; intros *; rewrite !float64_compare_key; eauto.
Qed.

Example float64_third : float64_compare
  (float64_div (float64_of_int 31) (float64_of_int 15))
  (float64_div (float64_of_int 30) (float64_of_int 15)) = Gt.
Proof. vm_compute. reflexivity. Qed.
