(* ===== verification/Semantics.v ===== *)
(** * Per-file analysis results

    The value types of [pkg/semantics] the signal rules read.  The Tree-sitter
    analysis that fills them is not modelled here: a [Result] is an input. *)

From S2P Require Import Prelude.

(** go: pkg/semantics/result.go#Location *)
Record Location := mkLocation {
  loc_StartByte : N; loc_EndByte : N;
  loc_StartRow : N; loc_StartCol : N;
  loc_EndRow : N; loc_EndCol : N
}.

(** The zero value. *)
Definition zero_Location : Location := mkLocation 0 0 0 0 0 0.

(** go: pkg/semantics/result.go#SyntaxIssue *)
Record SyntaxIssue := mkSyntaxIssue { iss_Kind : string; iss_Location : Location }.

(** go: pkg/semantics/result.go#ImportFeature *)
Record ImportFeature := mkImportFeature {
  imp_Path : string; imp_Alias : string; imp_Location : Location
}.

(** go: pkg/semantics/result.go#StructuralMetrics *)
Record StructuralMetrics := mkStructuralMetrics {
  met_Ifs : Z; met_Fors : Z; met_ExprSwitches : Z; met_TypeSwitches : Z; met_Selects : Z;
  met_Functions : Z; met_Methods : Z; met_MaxNestingDepth : Z;
  met_MaxCognitiveComplexity : Z; met_SumCognitiveComplexity : Z
}.

(** go: pkg/semantics/result.go#FunctionCognitiveComplexity *)
Record FunctionCognitiveComplexity := mkFunctionCognitiveComplexity {
  fcc_Name : string; fcc_Kind : string; fcc_Location : Location; fcc_Score : Z
}.

(** go: pkg/semantics/result.go#Finding *)
Record Finding := mkFinding {
  fnd_Kind : string; fnd_Name : string; fnd_Location : Location;
  fnd_Confidence : string; fnd_Evidence : string;
  fnd_Recommendation : string; fnd_SuggestedSkill : string
}.

(** go: pkg/semantics/result.go#ReactUseStateBinding *)
Record ReactUseStateBinding := mkReactUseStateBinding {
  usb_Binding : string; usb_Setter : string; usb_Location : Location
}.

(** go: pkg/semantics/result.go#ReactCoordinatedTransition *)
Record ReactCoordinatedTransition := mkReactCoordinatedTransition {
  rct_Name : string; rct_Kind : string; rct_Location : Location;
  rct_UpdatedBindings : list string
}.

(** go: pkg/semantics/result.go#ReactWorkspaceBranch *)
Record ReactWorkspaceBranch := mkReactWorkspaceBranch {
  rwb_Label : string; rwb_Location : Location
}.

(** go: pkg/semantics/result.go#ReactImperativeUICall *)
Record ReactImperativeUICall := mkReactImperativeUICall {
  riu_API : string; riu_Location : Location
}.

(** go: pkg/semantics/result.go#ReactSharedPanelDep *)
Record ReactSharedPanelDep := mkReactSharedPanelDep {
  rsp_Name : string; rsp_Panels : list string
}.

(** go: pkg/semantics/result.go#ReactComponentFacts *)
Record ReactComponentFacts := mkReactComponentFacts {
  rcf_Name : string; rcf_Location : Location; rcf_ClientKind : string;
  rcf_UseState : list ReactUseStateBinding;
  rcf_CoordinatedTransitions : list ReactCoordinatedTransition;
  rcf_WorkspaceBranches : list ReactWorkspaceBranch;
  rcf_ImperativeUI : list ReactImperativeUICall;
  rcf_SharedPanelDeps : list ReactSharedPanelDep
}.

(** [ParseStatus] and [Language] are string types.
    go: pkg/semantics/result.go#Result *)
Record Result := mkResult {
  res_Path : string; res_Language : string; res_ParseStatus : string;
  res_SyntaxErrors : list SyntaxIssue;
  res_Imports : list ImportFeature;
  res_Metrics : StructuralMetrics;
  res_Findings : list Finding;
  res_CognitiveComplexity : list FunctionCognitiveComplexity;
  res_ReactComponents : list ReactComponentFacts
}.

#[export] Instance Location_eq_dec : EqDecision Location.
Proof. solve_decision. Defined.
