(* ===== verification/Domain.v ===== *)
(** * Project facts

    [pkg/domain]: the whole-repository structural model, its coverage record,
    its canonical wire form, and layer membership. *)

From S2P Require Import Prelude GoOrder GoText.

(** ** Coverage *)

(** go: pkg/domain/model_coverage.go#Diagnostic *)
Record DomainDiagnostic := mkDomainDiagnostic {
  dd_Code : string; dd_Message : string; dd_Path : string
}.

(** go: pkg/domain/model_coverage.go#Coverage *)
Record ProjCoverage := mkProjCoverage {
  pc_Phase : string; pc_Complete : bool;
  pc_Counts : gmap string Z; pc_Budgets : gmap string Z;
  pc_Diagnostics : list DomainDiagnostic
}.

(** go: pkg/domain/model_coverage.go#DiagBackendUnavailable *)
Definition DiagBackendUnavailable : string := "project_backend_unavailable".

(** go: pkg/domain/model_coverage.go#DiagRootScopeIncomplete *)
Definition DiagRootScopeIncomplete : string := "project_root_scope_incomplete".

(** The closure [CanonicalCoverage] sorts by. *)
Definition domain_diagnostic_less (a b : DomainDiagnostic) : bool :=
  if dd_Code a != dd_Code b then str_less (dd_Code a) (dd_Code b)
  else if dd_Path a != dd_Path b then str_less (dd_Path a) (dd_Path b)
  else str_less (dd_Message a) (dd_Message b).

(** go: pkg/domain/model_coverage.go#CanonicalCoverage *)
Definition CanonicalCoverage (c : ProjCoverage) : ProjCoverage :=
  mkProjCoverage (pc_Phase c) (pc_Complete c) (pc_Counts c) (pc_Budgets c)
    (stable_sort domain_diagnostic_less (pc_Diagnostics c)).

(** ** Model *)

(** go: pkg/domain/model.go#Snapshot *)
Record Snapshot := mkSnapshot {
  snap_Revision : string; snap_TreeID : string; snap_ConfigDigest : string;
  snap_BackendDigest : string; snap_BuildContextDigest : string;
  snap_SelectedRoots : list string
}.

(** go: pkg/domain/model_layout.go#Workspace *)
Record Workspace := mkWorkspace {
  ws_ID : string; ws_Language : string; ws_Root : string; ws_Projects : list string
}.

(** go: pkg/domain/model_layout.go#Module *)
Record GoModule := mkGoModule {
  mod_ID : string; mod_Path : string; mod_Language : string; mod_Files : list string
}.

(** go: pkg/domain/model_layout.go#Package *)
Record Package := mkPackage {
  pkg_ID : string; pkg_Path : string; pkg_Language : string; pkg_Files : list string
}.

(** go: pkg/domain/model_files.go#File *)
Record File := mkFile {
  file_ID : string; file_Path : string; file_Language : string;
  file_BlobHash : string; file_ContentHash : string
}.

(** go: pkg/domain/model_edges.go#ImportEdge *)
Record ImportEdge := mkImportEdge {
  edge_From : string; edge_To : string; edge_Kind : string;
  edge_Site : string; edge_Resolution : string
}.

(** go: pkg/domain/model_edges.go#CallFact *)
Record CallFact := mkCallFact { cf_From : string; cf_To : string }.

(** go: pkg/domain/reachability.go#ReachabilityFact *)
Record ReachabilityFact := mkReachabilityFact {
  rf_ID : string; rf_Kind : string; rf_Confidence : string;
  rf_Source : string; rf_Sink : string;
  rf_Path : list string;  (* the NodeID of each ReachabilityStep *)
  rf_AlgorithmVersion : string
}.

(** go: pkg/domain/reachability.go#ReachabilityResult *)
Record ReachabilityResult := mkReachabilityResult {
  rr_Facts : list ReachabilityFact; rr_Sources : list string;
  rr_Algorithm : string; rr_Coverage : ProjCoverage
}.

(** go: pkg/domain/reachability.go#ReachabilityConfidenceResolvedDirect *)
Definition ReachabilityConfidenceResolvedDirect : string := "resolved_direct".

(** go: pkg/domain/project_scope.go#RootScope *)
Record RootScope := mkRootScope {
  rs_Root : string; rs_CandidateFiles : Z; rs_AnalyzedFiles : Z;
  rs_AnalyzedPaths : list string; rs_UnanalyzedPaths : list string
}.

(** [CallFacts] and [ReachabilityFacts] distinguish a nil slice ([None]) from an
    empty one.
    go: pkg/domain/model.go#Model *)
Record Model := mkModel {
  m_SchemaVersion : string; m_Repository : string; m_Snapshot : Snapshot;
  m_Workspaces : list Workspace; m_Modules : list GoModule; m_Packages : list Package;
  m_Files : list File; m_ImportEdges : list ImportEdge;
  m_CallFacts : option (list CallFact);
  m_ReachabilityFacts : option (list ReachabilityFact);
  m_RootScopes : list RootScope; m_Coverage : ProjCoverage
}.

(** The JSON object: an optional key is [None] when it is left out.  The raw
    messages are held decoded.
    go: pkg/domain/model.go#ModelWire *)
Record ModelWire := mkModelWire {
  w_SchemaVersion : string; w_Repository : string; w_Snapshot : Snapshot;
  w_Workspaces : list Workspace; w_Modules : list GoModule; w_Packages : list Package;
  w_Files : list File; w_ImportEdges : list ImportEdge;
  w_CallFacts : option (list CallFact);
  w_ReachabilityFacts : option (list ReachabilityFact);
  w_RootScopes : list RootScope; w_Coverage : ProjCoverage
}.

(** ** Canonical order *)

(** go: pkg/domain/model_layout.go#sortedStrings *)
Definition sortedStrings (l : list string) : list string := sort_strings l.

Definition workspace_less (a b : Workspace) : bool :=
  if ws_ID a != ws_ID b then str_less (ws_ID a) (ws_ID b)
  else if ws_Root a != ws_Root b then str_less (ws_Root a) (ws_Root b)
  else str_less (ws_Language a) (ws_Language b).

(** go: pkg/domain/model_layout.go#canonicalWorkspaces *)
Definition canonicalWorkspaces (l : list Workspace) : list Workspace :=
  stable_sort workspace_less
    (map (λ w, mkWorkspace (ws_ID w) (ws_Language w) (ws_Root w) (sortedStrings (ws_Projects w))) l).

Definition module_less (a b : GoModule) : bool :=
  if mod_ID a != mod_ID b then str_less (mod_ID a) (mod_ID b)
  else str_less (mod_Path a) (mod_Path b).

(** go: pkg/domain/model_layout.go#canonicalModules *)
Definition canonicalModules (l : list GoModule) : list GoModule :=
  stable_sort module_less
    (map (λ m, mkGoModule (mod_ID m) (mod_Path m) (mod_Language m) (sortedStrings (mod_Files m))) l).

Definition package_less (a b : Package) : bool :=
  if pkg_ID a != pkg_ID b then str_less (pkg_ID a) (pkg_ID b)
  else str_less (pkg_Path a) (pkg_Path b).

(** go: pkg/domain/model_layout.go#canonicalPackages *)
Definition canonicalPackages (l : list Package) : list Package :=
  stable_sort package_less
    (map (λ p, mkPackage (pkg_ID p) (pkg_Path p) (pkg_Language p) (sortedStrings (pkg_Files p))) l).

Definition file_less (a b : File) : bool :=
  if file_Path a != file_Path b then str_less (file_Path a) (file_Path b)
  else if file_ID a != file_ID b then str_less (file_ID a) (file_ID b)
  else if file_BlobHash a != file_BlobHash b then str_less (file_BlobHash a) (file_BlobHash b)
  else if file_ContentHash a != file_ContentHash b
  then str_less (file_ContentHash a) (file_ContentHash b)
  else str_less (file_Language a) (file_Language b).

(** go: pkg/domain/model_files.go#canonicalFiles *)
Definition canonicalFiles (l : list File) : list File := stable_sort file_less l.

Definition edge_less (a b : ImportEdge) : bool :=
  if edge_From a != edge_From b then str_less (edge_From a) (edge_From b)
  else if edge_To a != edge_To b then str_less (edge_To a) (edge_To b)
  else if edge_Kind a != edge_Kind b then str_less (edge_Kind a) (edge_Kind b)
  else if edge_Site a != edge_Site b then str_less (edge_Site a) (edge_Site b)
  else str_less (edge_Resolution a) (edge_Resolution b).

(** go: pkg/domain/model_edges.go#canonicalImportEdges *)
Definition canonicalImportEdges (l : list ImportEdge) : list ImportEdge := stable_sort edge_less l.

Definition call_fact_less (a b : CallFact) : bool :=
  if cf_From a != cf_From b then str_less (cf_From a) (cf_From b)
  else str_less (cf_To a) (cf_To b).

(** go: pkg/domain/model_edges.go#CanonicalCallFacts *)
Definition CanonicalCallFacts (l : list CallFact) : list CallFact := stable_sort call_fact_less l.

Definition reachability_less (a b : ReachabilityFact) : bool :=
  if rf_Source a != rf_Source b then str_less (rf_Source a) (rf_Source b)
  else if rf_Sink a != rf_Sink b then str_less (rf_Sink a) (rf_Sink b)
  else str_less (rf_ID a) (rf_ID b).

(** go: pkg/domain/reachability.go#canonicalReachabilityFacts *)
Definition canonicalReachabilityFacts (l : list ReachabilityFact) : list ReachabilityFact :=
  stable_sort reachability_less l.

Definition root_scope_less (a b : RootScope) : bool := str_less (rs_Root a) (rs_Root b).

(** go: pkg/domain/project_scope.go#canonicalRootScopes *)
Definition canonicalRootScopes (l : list RootScope) : list RootScope :=
  stable_sort root_scope_less
    (map (λ r, mkRootScope (rs_Root r) (rs_CandidateFiles r) (rs_AnalyzedFiles r)
                 (sortedStrings (rs_AnalyzedPaths r)) (sortedStrings (rs_UnanalyzedPaths r))) l).

Definition canonicalSnapshot (s : Snapshot) : Snapshot :=
  mkSnapshot (snap_Revision s) (snap_TreeID s) (snap_ConfigDigest s) (snap_BackendDigest s)
    (snap_BuildContextDigest s) (sortedStrings (snap_SelectedRoots s)).

(** ** Wire form *)

(** go: pkg/domain/model.go#MarshalJSON *)
Definition MarshalModel (m : Model) : ModelWire :=
  {| w_SchemaVersion := m_SchemaVersion m;
     w_Repository := m_Repository m;
     w_Snapshot := canonicalSnapshot (m_Snapshot m);
     w_Workspaces := canonicalWorkspaces (m_Workspaces m);
     w_Modules := canonicalModules (m_Modules m);
     w_Packages := canonicalPackages (m_Packages m);
     w_Files := canonicalFiles (m_Files m);
     w_ImportEdges := canonicalImportEdges (m_ImportEdges m);
     w_CallFacts := option_map CanonicalCallFacts (m_CallFacts m);
     w_ReachabilityFacts := option_map canonicalReachabilityFacts (m_ReachabilityFacts m);
     w_RootScopes := canonicalRootScopes (m_RootScopes m);
     w_Coverage := CanonicalCoverage (m_Coverage m) |}.

(** go: pkg/domain/model.go#UnmarshalJSON *)
Definition UnmarshalModel (w : ModelWire) : Model :=
  {| m_SchemaVersion := w_SchemaVersion w;
     m_Repository := w_Repository w;
     m_Snapshot := w_Snapshot w;
     m_Workspaces := w_Workspaces w;
     m_Modules := w_Modules w;
     m_Packages := w_Packages w;
     m_Files := w_Files w;
     m_ImportEdges := w_ImportEdges w;
     m_CallFacts := w_CallFacts w;
     m_ReachabilityFacts := w_ReachabilityFacts w;
     m_RootScopes := w_RootScopes w;
     m_Coverage := w_Coverage w |}.

(** ** Layers *)

(** go: pkg/domain/layer_membership.go#LayerMembership *)
Record LayerMembership := mkLayerMembership { lm_AnalyzedFiles : Z; lm_FilesOutsideLayers : Z }.

(** go: pkg/domain/layer_membership.go#LayerPrefixContains *)
Definition LayerPrefixContains (prefix key : string) : bool :=
  (prefix == ".") || (key == prefix) || HasPrefix (prefix +:+ "/") key.

(** go: pkg/domain/layer_membership.go#anyLayerPrefixContains *)
Fixpoint anyLayerPrefixContains (prefixes : list string) (key : string) : bool :=
  match prefixes with
  | [] => false
  | prefix :: rest => if LayerPrefixContains prefix key then true else anyLayerPrefixContains rest key
  end.

(** go: pkg/domain/layer_membership.go#NewLayerMembership *)
Definition NewLayerMembership (keys prefixes : list string) : LayerMembership :=
  let outside :=
    fold_left (λ n key, if anyLayerPrefixContains prefixes key then n else (n + 1)%Z) keys 0%Z in
  mkLayerMembership (zlen keys) outside.

(** go: pkg/domain/layer_bypass.go#LayerBypassStep *)
Record LayerBypassStep := mkLayerBypassStep { lbs_NodeID : string; lbs_Path : string; lbs_Line : Z }.

(** go: pkg/domain/layer_bypass.go#LayerBypassWitness *)
Record LayerBypassWitness := mkLayerBypassWitness {
  lbw_ID : string; lbw_Source : string; lbw_Sink : string; lbw_RequiredLayer : string;
  lbw_Path : list LayerBypassStep; lbw_Confidence : string; lbw_AlgorithmVersion : string
}.

(** go: pkg/domain/layer_bypass.go#LayerBypassConfidenceHigh *)
Definition LayerBypassConfidenceHigh : string := "high".

(** go: pkg/domain/layer_bypass.go#LayerBypassResult *)
Record LayerBypassResult := mkLayerBypassResult {
  lbr_Witnesses : list LayerBypassWitness; lbr_Sources : list string;
  lbr_Algorithm : string; lbr_Coverage : ProjCoverage
}.

(** go: pkg/domain/project_scope.go#ProjectScopeRoot *)
Record ProjectScopeRoot := mkProjectScopeRoot {
  psr_Root : string; psr_CandidateFiles : Z; psr_AnalyzedFiles : Z
}.

(** go: pkg/domain/project_scope.go#ProjectScope *)
Record ProjectScope := mkProjectScope {
  psc_InclusionRule : string; psc_PatternSet : string;
  psc_Roots : list ProjectScopeRoot;
  psc_MatchedLayers : list string; psc_UnmatchedLayers : list string;
  psc_LayerMembership : option LayerMembership
}.

(** ** Lemmas *)

#[export] Instance domain_diagnostic_sw : StrictWeak domain_diagnostic_less.
Proof. lex_strict_weak [dd_Code; dd_Path; dd_Message]. Qed.
#[export] Instance workspace_sw : StrictWeak workspace_less.
Proof. lex_strict_weak [ws_ID; ws_Root; ws_Language]. Qed.
#[export] Instance module_sw : StrictWeak module_less.
Proof. lex_strict_weak [mod_ID; mod_Path]. Qed.
#[export] Instance package_sw : StrictWeak package_less.
Proof. lex_strict_weak [pkg_ID; pkg_Path]. Qed.
#[export] Instance file_sw : StrictWeak file_less.
Proof. lex_strict_weak [file_Path; file_ID; file_BlobHash; file_ContentHash; file_Language]. Qed.
#[export] Instance edge_sw : StrictWeak edge_less.
Proof. lex_strict_weak [edge_From; edge_To; edge_Kind; edge_Site; edge_Resolution]. Qed.
#[export] Instance call_fact_sw : StrictWeak call_fact_less.
Proof. lex_strict_weak [cf_From; cf_To]. Qed.
#[export] Instance reachability_sw : StrictWeak reachability_less.
Proof. lex_strict_weak [rf_Source; rf_Sink; rf_ID]. Qed.
#[export] Instance root_scope_sw : StrictWeak root_scope_less.
Proof. lex_strict_weak [rs_Root]. Qed.

Lemma sortedStrings_idemp l : sortedStrings (sortedStrings l) = sortedStrings l.
Proof. apply sort_strings_idemp. Qed.

#[export] Hint Rewrite sortedStrings_idemp : coach.

Lemma canonicalWorkspaces_idemp l : canonicalWorkspaces (canonicalWorkspaces l) = canonicalWorkspaces l.
Proof. apply sort_map_idemp; [apply _|]. intros []; simpl. by autorewrite with coach. Qed.
Lemma canonicalModules_idemp l : canonicalModules (canonicalModules l) = canonicalModules l.
Proof. apply sort_map_idemp; [apply _|]. intros []; simpl. by autorewrite with coach. Qed.
Lemma canonicalPackages_idemp l : canonicalPackages (canonicalPackages l) = canonicalPackages l.
Proof. apply sort_map_idemp; [apply _|]. intros []; simpl. by autorewrite with coach. Qed.
Lemma canonicalRootScopes_idemp l : canonicalRootScopes (canonicalRootScopes l) = canonicalRootScopes l.
Proof. apply sort_map_idemp; [apply _|]. intros []; simpl. by autorewrite with coach. Qed.

Lemma canonicalFiles_perm l l' : l ≡ₚ l' → canonicalFiles l = canonicalFiles l'.
Proof.
  apply (lex_sort_perm_eq _ [file_Path; file_ID; file_BlobHash; file_ContentHash; file_Language]).
  - intros. repeat (apply less_chain_string). apply str_less_lex.
  - intros [] [] H. decompose_Forall_hyps. by simplify_eq/=.
Qed.

Lemma canonicalImportEdges_perm l l' : l ≡ₚ l' → canonicalImportEdges l = canonicalImportEdges l'.
Proof.
  apply (lex_sort_perm_eq _ [edge_From; edge_To; edge_Kind; edge_Site; edge_Resolution]).
  - intros. repeat (apply less_chain_string). apply str_less_lex.
  - intros [] [] H. decompose_Forall_hyps. by simplify_eq/=.
Qed.

Lemma CanonicalCallFacts_perm l l' : l ≡ₚ l' → CanonicalCallFacts l = CanonicalCallFacts l'.
Proof.
  apply (lex_sort_perm_eq _ [cf_From; cf_To]).
  - intros. repeat (apply less_chain_string). apply str_less_lex.
  - intros [] [] H. decompose_Forall_hyps. by simplify_eq/=.
Qed.

Lemma domain_diagnostics_perm l l' :
  l ≡ₚ l' → stable_sort domain_diagnostic_less l = stable_sort domain_diagnostic_less l'.
Proof.
  apply (lex_sort_perm_eq _ [dd_Code; dd_Path; dd_Message]).
  - intros. repeat (apply less_chain_string). apply str_less_lex.
  - intros [] [] H. decompose_Forall_hyps. by simplify_eq/=.
Qed.

(** A layer prefix contains exactly itself and what lies under it. *)
Lemma LayerPrefixContains_spec prefix key :
  LayerPrefixContains prefix key = true ↔
  prefix = "." ∨ key = prefix ∨ ∃ rest, key = prefix +:+ "/" +:+ rest.
Proof.
  unfold LayerPrefixContains. rewrite !orb_true_iff, !String.eqb_eq, HasPrefix_spec.
  setoid_rewrite append_assoc_str. tauto.
Qed.

Lemma anyLayerPrefixContains_spec prefixes key :
  anyLayerPrefixContains prefixes key = existsb (λ p, LayerPrefixContains p key) prefixes.
Proof. induction prefixes as [|p ps IH]; simpl; [done|]. rewrite IH. by case_match. Qed.

Lemma outside_count prefixes keys n :
  fold_left (λ n key, if anyLayerPrefixContains prefixes key then n else (n + 1)%Z) keys n
  = (n + zlen (List.filter (λ k, negb (anyLayerPrefixContains prefixes k)) keys))%Z.
Proof.
  unfold zlen. revert n. induction keys as [|k ks IH]; intros n; simpl; [lia|].
  rewrite IH. destruct (anyLayerPrefixContains prefixes k); simpl; lia.
Qed.

(** ** Properties *)

(** Printing a model and reading it back keeps every field up to canonical
    order, keeps the difference between an absent and an empty fact list, and
    printing again gives the same document. *)
Theorem model_wire_roundtrip m :
  let m' := UnmarshalModel (MarshalModel m) in
  MarshalModel m' = MarshalModel m
  ∧ UnmarshalModel (MarshalModel m') = m'
  ∧ (m_CallFacts m' = None ↔ m_CallFacts m = None)
  ∧ (m_ReachabilityFacts m' = None ↔ m_ReachabilityFacts m = None)
  ∧ m_ImportEdges m' ≡ₚ m_ImportEdges m ∧ m_Files m' ≡ₚ m_Files m.
Proof.
  assert (MarshalModel (UnmarshalModel (MarshalModel m)) = MarshalModel m) as H.
  { destruct m as [v r s ws ms ps fs es cf rf rs c]. unfold MarshalModel, UnmarshalModel. simpl.
    rewrite canonicalWorkspaces_idemp, canonicalModules_idemp, canonicalPackages_idemp,
      canonicalRootScopes_idemp.
    unfold canonicalFiles, canonicalImportEdges, CanonicalCoverage, canonicalSnapshot. simpl.
    rewrite sortedStrings_idemp, !stable_sort_idemp by apply _.
    f_equal; [destruct cf|destruct rf]; simpl; try done; f_equal; by apply stable_sort_idemp, _. }
  simpl. rewrite H. repeat split; try done.
  - simpl. by destruct (m_CallFacts m).
  - simpl. by intros ->.
  - simpl. by destruct (m_ReachabilityFacts m).
  - simpl. by intros ->.
  - apply stable_sort_perm.
  - apply stable_sort_perm.
Qed.

(** Two models whose files, import edges, call facts and coverage
    diagnostics differ only in order print to the same document. *)
Theorem model_wire_order_insensitive m files edges calls diagnostics :
  files ≡ₚ m_Files m → edges ≡ₚ m_ImportEdges m →
  option_Forall2 (≡ₚ) calls (m_CallFacts m) →
  diagnostics ≡ₚ pc_Diagnostics (m_Coverage m) →
  MarshalModel
    {| m_SchemaVersion := m_SchemaVersion m; m_Repository := m_Repository m;
       m_Snapshot := m_Snapshot m; m_Workspaces := m_Workspaces m; m_Modules := m_Modules m;
       m_Packages := m_Packages m; m_Files := files; m_ImportEdges := edges;
       m_CallFacts := calls; m_ReachabilityFacts := m_ReachabilityFacts m;
       m_RootScopes := m_RootScopes m;
       m_Coverage := mkProjCoverage (pc_Phase (m_Coverage m)) (pc_Complete (m_Coverage m))
         (pc_Counts (m_Coverage m)) (pc_Budgets (m_Coverage m)) diagnostics |}
  = MarshalModel m.
Proof.
  intros Hf He Hc Hd. unfold MarshalModel, CanonicalCoverage. simpl.
  rewrite (canonicalFiles_perm _ _ Hf), (canonicalImportEdges_perm _ _ He),
    (domain_diagnostics_perm _ _ Hd).
  f_equal. destruct Hc as [c c' Hc|]; simpl; [|done]. f_equal. by apply CanonicalCallFacts_perm.
Qed.

(** Layer membership counts the keys no prefix contains, a number between
    zero and the number of keys, and declaring more prefixes never raises it. *)
Theorem layer_membership_count keys prefixes more :
  let m := NewLayerMembership keys prefixes in
  lm_AnalyzedFiles m = zlen keys
  ∧ lm_FilesOutsideLayers m
    = zlen (List.filter (λ k, forallb (λ p, negb (LayerPrefixContains p k)) prefixes) keys)
  ∧ (0 <= lm_FilesOutsideLayers m <= lm_AnalyzedFiles m)%Z
  ∧ (lm_FilesOutsideLayers (NewLayerMembership keys (prefixes ++ more))
     <= lm_FilesOutsideLayers m)%Z.
Proof.
  assert (∀ ps k, negb (anyLayerPrefixContains ps k)
    = forallb (λ p, negb (LayerPrefixContains p k)) ps) as E.
  { intros ps k. rewrite anyLayerPrefixContains_spec.
    induction ps as [|p ps IH]; simpl; [done|]. by rewrite negb_orb, IH. }
  unfold NewLayerMembership. simpl. rewrite !outside_count, !Z.add_0_l.
  repeat split.
  - f_equal. apply filter_ext_In. intros k _. apply E.
  - unfold zlen. lia.
  - unfold zlen.
    apply inj_le, List.filter_length_le.
  - unfold zlen. apply inj_le. induction keys as [|k ks IH]; simpl; [lia|].
    rewrite !E, forallb_app. destruct (forallb _ prefixes); simpl; [|lia].
    case_match; simpl; lia.
Qed.
