(* ===== verification/Signals.v ===== *)
(** * Signals and project changes

    The data model of [pkg/codesignal] and the functions every part of it
    shares: severity and confidence ranks, location comparison, signal keys,
    fingerprints and diagnostics order. *)

From S2P Require Import Prelude GoOrder GoText GoHash Semantics Domain.

(** ** Data *)

(** go: pkg/codesignal/report.go#Provenance *)
Record Provenance := mkProvenance {
  prov_Producer : string; prov_FindingKind : string; prov_Language : string
}.

(** go: pkg/codesignal/project_report.go#ProjectLocation *)
Record ProjectLocation := mkProjectLocation { pl_Path : string; pl_Location : Location }.

(** go: pkg/codesignal/project_report.go#ProjectPathStep *)
Record ProjectPathStep := mkProjectPathStep {
  ps_NodeID : string; ps_DisplayName : string; ps_Resolution : string;
  ps_Confidence : string; ps_SourceLocations : list ProjectLocation
}.

(** [Category], [Severity], [Confidence] and [Lifecycle] are string types.
    go: pkg/codesignal/report.go#Signal *)
Record Signal := mkSignal {
  sig_ID : string; sig_Fingerprint : string;
  sig_RuleID : string; sig_RuleVersion : string; sig_Kind : string;
  sig_Category : string; sig_Severity : string; sig_Confidence : string;
  sig_Lifecycle : string; sig_Changed : bool;
  sig_Path : string; sig_SourceScope : string; sig_Subject : string;
  sig_Location : Location; sig_Evidence : string;
  sig_WhyItMatters : string; sig_Recommendation : string; sig_SuggestedSkill : string;
  sig_Provenance : Provenance;
  sig_MachineEvidence : gmap string string;
  sig_RelatedLocations : list ProjectLocation;
  sig_PathSteps : list ProjectPathStep;
  sig_CoverageRefs : list string
}.

(** go: pkg/codesignal/project_report.go#ProjectChange *)
Record ProjectChange := mkProjectChange {
  pch_SemanticKey : string; pch_ID : string; pch_Fingerprint : string;
  pch_RuleID : string; pch_RuleVersion : string; pch_BackendVersion : string;
  pch_AlgorithmVersion : string; pch_ConfigDigest : string; pch_Kind : string;
  pch_Category : string; pch_Severity : string; pch_Confidence : string;
  pch_Lifecycle : string; pch_Changed : bool; pch_CausalEvidenceDigest : string;
  pch_PrimaryAnchor : ProjectLocation;
  pch_RelatedLocations : list ProjectLocation;
  pch_PathSteps : list ProjectPathStep;
  pch_CoverageRefs : list string;
  pch_Evidence : string;
  pch_MachineEvidence : gmap string string;
  pch_WhyItMatters : string; pch_Recommendation : string; pch_SuggestedSkill : string;
  pch_Provenance : Provenance
}.

(** go: pkg/codesignal/project_report.go#ProjectFact *)
Record ProjectFact := mkProjectFact {
  pf_Kind : string; pf_SemanticKey : string; pf_PathSteps : list ProjectPathStep;
  pf_CoverageRefs : list string; pf_Evidence : string; pf_Provenance : Provenance
}.

(** go: pkg/codesignal/diagnostics.go#Diagnostic *)
Record Diagnostic := mkDiagnostic {
  dg_Path : string; dg_Kind : string; dg_Message : string;
  dg_Location : option Location; dg_Side : string; dg_Revision : string
}.

(** A diagnostic with the fields a file-pipeline literal sets. *)
Definition file_diagnostic (path kind message : string) : Diagnostic :=
  mkDiagnostic path kind message None "" "".

(** go: pkg/codesignal/input.go#LineRange *)
Record LineRange := mkLineRange { lr_StartRow : N; lr_EndRow : N }.

(** go: pkg/codesignal/input.go#FileChange *)
Record FileChange := mkFileChange {
  fc_Path : string; fc_Status : string; fc_SourceScope : string;
  fc_Base : option Result; fc_Head : option Result;
  fc_ChangedRanges : list LineRange
}.

(** *** Assignments to one field *)

Definition with_lifecycle (l : string) (s : Signal) : Signal :=
  mkSignal (sig_ID s) (sig_Fingerprint s) (sig_RuleID s) (sig_RuleVersion s) (sig_Kind s)
    (sig_Category s) (sig_Severity s) (sig_Confidence s) l (sig_Changed s) (sig_Path s)
    (sig_SourceScope s) (sig_Subject s) (sig_Location s) (sig_Evidence s) (sig_WhyItMatters s)
    (sig_Recommendation s) (sig_SuggestedSkill s) (sig_Provenance s) (sig_MachineEvidence s)
    (sig_RelatedLocations s) (sig_PathSteps s) (sig_CoverageRefs s).

Definition with_identity (fingerprint id : string) (s : Signal) : Signal :=
  mkSignal id fingerprint (sig_RuleID s) (sig_RuleVersion s) (sig_Kind s)
    (sig_Category s) (sig_Severity s) (sig_Confidence s) (sig_Lifecycle s) (sig_Changed s)
    (sig_Path s) (sig_SourceScope s) (sig_Subject s) (sig_Location s) (sig_Evidence s)
    (sig_WhyItMatters s) (sig_Recommendation s) (sig_SuggestedSkill s) (sig_Provenance s)
    (sig_MachineEvidence s) (sig_RelatedLocations s) (sig_PathSteps s) (sig_CoverageRefs s).

Definition with_changed (c : bool) (s : Signal) : Signal :=
  mkSignal (sig_ID s) (sig_Fingerprint s) (sig_RuleID s) (sig_RuleVersion s) (sig_Kind s)
    (sig_Category s) (sig_Severity s) (sig_Confidence s) (sig_Lifecycle s) c (sig_Path s)
    (sig_SourceScope s) (sig_Subject s) (sig_Location s) (sig_Evidence s) (sig_WhyItMatters s)
    (sig_Recommendation s) (sig_SuggestedSkill s) (sig_Provenance s) (sig_MachineEvidence s)
    (sig_RelatedLocations s) (sig_PathSteps s) (sig_CoverageRefs s).

Definition with_source_scope (sc : string) (s : Signal) : Signal :=
  mkSignal (sig_ID s) (sig_Fingerprint s) (sig_RuleID s) (sig_RuleVersion s) (sig_Kind s)
    (sig_Category s) (sig_Severity s) (sig_Confidence s) (sig_Lifecycle s) (sig_Changed s)
    (sig_Path s) sc (sig_Subject s) (sig_Location s) (sig_Evidence s) (sig_WhyItMatters s)
    (sig_Recommendation s) (sig_SuggestedSkill s) (sig_Provenance s) (sig_MachineEvidence s)
    (sig_RelatedLocations s) (sig_PathSteps s) (sig_CoverageRefs s).

(** ** Ranks *)

(** go: pkg/codesignal/severity.go#severityOrder *)
Definition severityOrder : list string := ["low"; "advisory"; "medium"; "high"].

(** [slices.Index]. *)
Fixpoint index_of (x : string) (l : list string) : option Z :=
  match l with
  | [] => None
  | y :: l' => if y == x then Some 0%Z else option_map Z.succ (index_of x l')
  end.

(** go: pkg/codesignal/severity.go#severityRank *)
Definition severityRank (s : string) : Z :=
  match index_of s severityOrder with
  | Some i => (i + 1)%Z
  | None => 1%Z
  end.

(** go: pkg/codesignal/severity.go#SeverityFloors *)
Definition SeverityFloors : list string := reverse severityOrder.

(** go: pkg/codesignal/severity.go#ParseSeverityFloor *)
Definition ParseSeverityFloor (value : string) : option string :=
  if existsb (String.eqb value) severityOrder then Some value else None.

(** go: pkg/codesignal/signal_rank.go#confidenceRank *)
Definition confidenceRank (c : string) : Z :=
  if c == "high" then 3 else if c == "medium" then 2 else if c == "low" then 1 else 0.

(** ** Locations *)

(** go: pkg/codesignal/location_compare.go#compareUint *)
Definition compareUint (a b : N) : comparison :=
  if (a <? b)%N then Lt else if (b <? a)%N then Gt else Eq.

(** go: pkg/codesignal/location_compare.go#compareLocationValue *)
Definition compareLocationValue (a b : Location) : comparison :=
  if negb (loc_StartRow a =? loc_StartRow b)%N then compareUint (loc_StartRow a) (loc_StartRow b)
  else if negb (loc_StartCol a =? loc_StartCol b)%N then compareUint (loc_StartCol a) (loc_StartCol b)
  else if negb (loc_EndRow a =? loc_EndRow b)%N then compareUint (loc_EndRow a) (loc_EndRow b)
  else if negb (loc_EndCol a =? loc_EndCol b)%N then compareUint (loc_EndCol a) (loc_EndCol b)
  else if negb (loc_StartByte a =? loc_StartByte b)%N
  then compareUint (loc_StartByte a) (loc_StartByte b)
  else if negb (loc_EndByte a =? loc_EndByte b)%N then compareUint (loc_EndByte a) (loc_EndByte b)
  else Eq.

(** go: pkg/codesignal/location_compare.go#compareLocationPtr *)
Definition compareLocationPtr (a b : option Location) : comparison :=
  match a, b with
  | None, None => Eq
  | None, Some _ => Lt
  | Some _, None => Gt
  | Some a, Some b => compareLocationValue a b
  end.

(** ** Fingerprints *)

(** go: pkg/codesignal/fingerprint.go#normalizePath *)
Definition normalizePath (path : string) : string :=
  TrimLeftByte ch_slash (TrimPrefix "./" (ReplaceByte ch_backslash ch_slash path)).

(** go: pkg/codesignal/fingerprint.go#normalizeEvidence *)
Definition normalizeEvidence (evidence : string) : string := TrimSpace evidence.

(** The five fields of a fingerprint, in order. *)
Definition fingerprint_fields (ruleID path subject evidence : string) (ordinal : nat) : list string :=
  [ruleID; normalizePath path; subject; normalizeEvidence evidence; Itoa (Z.of_nat ordinal)].

(** go: pkg/codesignal/fingerprint.go#computeFingerprint *)
Definition computeFingerprint (ruleID path subject evidence : string) (ordinal : nat) : string :=
  "fp_" +:+ hex_sum (encode_fields (fingerprint_fields ruleID path subject evidence ordinal)).

Definition signal_id_fields (ruleID path subject evidence : string) (startRow startCol : N)
    (ordinal : nat) : list string :=
  [ruleID; normalizePath path; subject; normalizeEvidence evidence;
   FormatUint startRow; FormatUint startCol; Itoa (Z.of_nat ordinal)].

(** go: pkg/codesignal/fingerprint.go#computeSignalID *)
Definition computeSignalID (ruleID path subject evidence : string) (startRow startCol : N)
    (ordinal : nat) : string :=
  "sig_" +:+ hex_sum
    (encode_fields (signal_id_fields ruleID path subject evidence startRow startCol ordinal)).

(** ** Signal keys *)

(** go: pkg/codesignal/signal_key.go#signalKey *)
Record signalKey := mkSignalKey {
  key_ruleID : string; key_path : string; key_subject : string; key_evidence : string
}.

#[export] Instance signalKey_eq_dec : EqDecision signalKey.
Proof. solve_decision. Defined.
#[export] Instance signalKey_countable : Countable signalKey.
Proof.
  refine (inj_countable' (λ k, (key_ruleID k, key_path k, key_subject k, key_evidence k))
    (λ t, mkSignalKey t.1.1.1 t.1.1.2 t.1.2 t.2) _). by intros [].
Defined.

(** go: pkg/codesignal/signal_key.go#keyOf *)
Definition keyOf (s : Signal) : signalKey :=
  mkSignalKey (sig_RuleID s) (normalizePath (sig_Path s)) (sig_Subject s)
    (normalizeEvidence (sig_Evidence s)).

(** go: pkg/codesignal/signal_key.go#signalLocationLess *)
Definition signalLocationLess (a b : Location) : bool :=
  if negb (loc_StartRow a =? loc_StartRow b)%N then (loc_StartRow a <? loc_StartRow b)%N
  else if negb (loc_StartCol a =? loc_StartCol b)%N then (loc_StartCol a <? loc_StartCol b)%N
  else (loc_StartByte a <? loc_StartByte b)%N.

Definition signal_location_less (a b : Signal) : bool :=
  signalLocationLess (sig_Location a) (sig_Location b).

(** go: pkg/codesignal/signal_key.go#groupAndOrder *)
Definition groupAndOrder (signals : list Signal) : gmap signalKey (list Signal) :=
  stable_sort signal_location_less <$> group_by keyOf signals.

Definition signalKey_less (a b : signalKey) : bool :=
  if key_ruleID a != key_ruleID b then str_less (key_ruleID a) (key_ruleID b)
  else if key_path a != key_path b then str_less (key_path a) (key_path b)
  else if key_subject a != key_subject b then str_less (key_subject a) (key_subject b)
  else str_less (key_evidence a) (key_evidence b).

(** go: pkg/codesignal/signal_key.go#sortedKeys *)
Definition sortedKeys (groups : gmap signalKey (list Signal)) : list signalKey :=
  stable_sort signalKey_less (map fst (map_to_list groups)).

(** ** Diagnostics order *)

Definition diagnostic_less (a b : Diagnostic) : bool :=
  if dg_Path a != dg_Path b then str_less (dg_Path a) (dg_Path b)
  else if dg_Kind a != dg_Kind b then str_less (dg_Kind a) (dg_Kind b)
  else match compareLocationPtr (dg_Location a) (dg_Location b) with
       | Eq => str_less (dg_Message a) (dg_Message b)
       | c => is_lt c
       end.

(** go: pkg/codesignal/diagnostics.go#sortDiagnostics *)
Definition sortDiagnostics (diagnostics : list Diagnostic) : list Diagnostic :=
  stable_sort diagnostic_less diagnostics.

(** go: pkg/codesignal/diagnostics.go#SortDiagnostics *)
Definition SortDiagnostics (diagnostics : list Diagnostic) : list Diagnostic :=
  sortDiagnostics diagnostics.

(** ** Lemmas *)

Lemma index_of_bound x l i : index_of x l = Some i → (0 <= i < zlen l)%Z.
Proof.
  revert i. induction l as [|y l IH]; intros i; [done|]. cbn [index_of]. unfold zlen in *.
  destruct (y == x); [intros [= <-]; simpl; lia|].
  destruct (index_of x l) as [j|]; [|done]. intros [= <-]. specialize (IH j eq_refl).
  cbn [length]. lia.
Qed.

Lemma severityRank_range s : (1 <= severityRank s <= 4)%Z.
Proof.
  unfold severityRank. destruct (index_of s severityOrder) as [i|] eqn:E; [|lia].
  apply index_of_bound in E. change (zlen severityOrder) with 4%Z in E. lia.
Qed.

Lemma ParseSeverityFloor_Some v f : ParseSeverityFloor v = Some f ↔ f = v ∧ In v severityOrder.
Proof.
  unfold ParseSeverityFloor. destruct (existsb _ _) eqn:E.
  - apply existsb_exists in E as (x & Hx & ->%String.eqb_eq). split; [by intros [= ->]|].
    by intros [-> _].
  - split; [done|]. intros [_ H].
    assert (existsb (String.eqb v) severityOrder = true) as Ht; [|by rewrite Ht in E].
    apply existsb_exists. exists v. by rewrite String.eqb_refl.
Qed.

Lemma compareUint_compare a b : compareUint a b = (a ?= b)%N.
Proof.
  unfold compareUint, N.ltb. rewrite (N.compare_antisym a b). by destruct (a ?= b)%N.
Qed.

(** A location compares by its fields in this order. *)
Definition location_cmp (a b : Location) : comparison :=
  then_cmp (loc_StartRow a ?= loc_StartRow b)%N
  (then_cmp (loc_StartCol a ?= loc_StartCol b)%N
  (then_cmp (loc_EndRow a ?= loc_EndRow b)%N
  (then_cmp (loc_EndCol a ?= loc_EndCol b)%N
  (then_cmp (loc_StartByte a ?= loc_StartByte b)%N
            (loc_EndByte a ?= loc_EndByte b)%N)))).

Lemma compareLocationValue_cmp a b : compareLocationValue a b = location_cmp a b.
Proof.
  assert (∀ x y c, (if negb (x =? y)%N then compareUint x y else c) = then_cmp (x ?= y)%N c) as E.
  { intros x y c. rewrite compareUint_compare.
    destruct (N.eqb_spec x y) as [->|H]; simpl; [by rewrite N.compare_refl|].
    destruct (N.compare_spec x y); done. }
  unfold compareLocationValue, location_cmp. rewrite !E.
  by destruct (loc_EndByte a ?= loc_EndByte b)%N.
Qed.

Ltac field_laws :=
  repeat match goal with
  | |- CmpLaws (λ a b, then_cmp _ _) => apply then_cmp_laws
  | |- CmpLaws (λ a b, (?f a ?= ?f b)%N) => apply (on_cmp_laws f N.compare)
  | |- CmpLaws (λ a b, (?f a ?= ?f b)%Z) => apply (on_cmp_laws f Z.compare)
  | |- CmpLaws (λ a b, String.compare (?f a) (?f b)) => apply (on_cmp_laws f String.compare)
  end.

#[export] Instance location_cmp_laws : CmpLaws location_cmp.
Proof. unfold location_cmp. field_laws. Qed.

#[export] Instance compareLocationValue_laws : CmpLaws compareLocationValue.
Proof.
  destruct location_cmp_laws as [H1 H2 H3 H4].
  split; intros *; rewrite !compareLocationValue_cmp; eauto.
Qed.

#[export] Instance compareLocationValue_eq : CmpEq compareLocationValue.
Proof.
  intros [] []. rewrite compareLocationValue_cmp. unfold location_cmp, then_cmp. simpl.
  repeat (case_match; try done). intros. repeat match goal with
  | H : (_ ?= _)%N = Eq |- _ => apply N.compare_eq_iff in H
  end. by subst.
Qed.

#[export] Instance compareLocationPtr_laws : CmpLaws compareLocationPtr.
Proof.
  split.
  - intros [x|]; simpl; [apply cmp_refl|done].
  - intros [x|] [y|]; simpl; [apply cmp_antisym|done..].
  - intros [x|] [y|] [z|]; simpl; try done. apply cmp_lt_trans.
  - intros [x|] [y|] [z|]; simpl; try done. apply cmp_eq_l.
Qed.

#[export] Instance compareLocationPtr_eq : CmpEq compareLocationPtr.
Proof. intros [x|] [y|]; simpl; try done. intros H%(cmp_eq (cmp:=compareLocationValue)). by subst. Qed.

#[export] Instance signal_location_sw : StrictWeak signal_location_less.
Proof.
  apply (strict_weak_of_cmp _ (λ a b,
    then_cmp (loc_StartRow (sig_Location a) ?= loc_StartRow (sig_Location b))%N
    (then_cmp (loc_StartCol (sig_Location a) ?= loc_StartCol (sig_Location b))%N
              (loc_StartByte (sig_Location a) ?= loc_StartByte (sig_Location b))%N))).
  - intros x y. unfold signal_location_less, signalLocationLess.
    apply less_chain_N, less_chain_N. done.
  - pose proof (on_cmp_laws (λ s, loc_StartRow (sig_Location s)) N.compare).
    pose proof (on_cmp_laws (λ s, loc_StartCol (sig_Location s)) N.compare).
    pose proof (on_cmp_laws (λ s, loc_StartByte (sig_Location s)) N.compare).
    repeat apply then_cmp_laws; done.
Qed.

#[export] Instance signalKey_sw : StrictWeak signalKey_less.
Proof. lex_strict_weak [key_ruleID; key_path; key_subject; key_evidence]. Qed.

Lemma signalKey_sort_perm l l' :
  l ≡ₚ l' → stable_sort signalKey_less l = stable_sort signalKey_less l'.
Proof.
  apply (lex_sort_perm_eq _ [key_ruleID; key_path; key_subject; key_evidence]).
  - intros. repeat (apply less_chain_string). apply str_less_lex.
  - intros [] [] H. decompose_Forall_hyps. by simplify_eq/=.
Qed.

Definition diagnostic_cmp (a b : Diagnostic) : comparison :=
  then_cmp (String.compare (dg_Path a) (dg_Path b))
  (then_cmp (String.compare (dg_Kind a) (dg_Kind b))
  (then_cmp (compareLocationPtr (dg_Location a) (dg_Location b))
            (String.compare (dg_Message a) (dg_Message b)))).

Lemma diagnostic_less_cmp a b : diagnostic_less a b = is_lt (diagnostic_cmp a b).
Proof.
  apply less_chain_string, less_chain_string.
  by destruct (compareLocationPtr (dg_Location a) (dg_Location b)).
Qed.

#[export] Instance diagnostic_cmp_laws : CmpLaws diagnostic_cmp.
Proof.
  pose proof (on_cmp_laws dg_Location compareLocationPtr).
  unfold diagnostic_cmp. apply then_cmp_laws; [field_laws|].
  apply then_cmp_laws; [field_laws|]. apply then_cmp_laws; [done|field_laws].
Qed.

#[export] Instance diagnostic_sw : StrictWeak diagnostic_less.
Proof. eapply strict_weak_of_cmp; [apply diagnostic_less_cmp|apply _]. Qed.

Lemma groupAndOrder_default signals k :
  default [] (groupAndOrder signals !! k)
  = stable_sort signal_location_less (List.filter (λ s, bool_decide (keyOf s = k)) signals).
Proof.
  unfold groupAndOrder. rewrite lookup_fmap, group_by_lookup. by case_match.
Qed.

Lemma groupAndOrder_is_Some signals k :
  is_Some (groupAndOrder signals !! k) ↔ ∃ s, In s signals ∧ keyOf s = k.
Proof. unfold groupAndOrder. rewrite lookup_fmap, fmap_is_Some. apply group_by_is_Some. Qed.

Lemma sortedKeys_elem groups k : In k (sortedKeys groups) ↔ is_Some (groups !! k).
Proof.
  unfold sortedKeys. rewrite stable_sort_In, in_map_iff. split.
  - intros ([k' g] & <- & Hin). apply list_elem_of_In, elem_of_map_to_list in Hin. by eexists.
  - intros [g Hg]. exists (k, g). split; [done|]. by apply list_elem_of_In, elem_of_map_to_list.
Qed.

Lemma sortedKeys_NoDup groups : NoDup (sortedKeys groups).
Proof. unfold sortedKeys. rewrite stable_sort_perm. apply NoDup_fst_map_to_list. Qed.

(** Visiting the groups in key order visits every signal once. *)
Lemma groups_partition signals :
  concat (map (λ k, default [] (groupAndOrder signals !! k)) (sortedKeys (groupAndOrder signals)))
  ≡ₚ signals.
Proof.
  transitivity (concat (map (λ k, List.filter (λ s, bool_decide (keyOf s = k)) signals)
    (sortedKeys (groupAndOrder signals)))).
  - generalize (sortedKeys (groupAndOrder signals)) as ks. intros ks.
    induction ks as [|k ks IH]; simpl; [done|].
    by rewrite IH, groupAndOrder_default, stable_sort_perm.
  - apply concat_classes; [apply sortedKeys_NoDup|]. intros s Hs.
    apply list_elem_of_In, sortedKeys_elem, groupAndOrder_is_Some. eauto.
Qed.

(** The visiting order does not depend on how the map enumerates its keys. *)
Lemma sortedKeys_any_order groups ks :
  ks ≡ₚ map fst (map_to_list groups) → stable_sort signalKey_less ks = sortedKeys groups.
Proof. apply signalKey_sort_perm. Qed.
