(* ===== verification/RuleText.v ===== *)
(** * Rule prose

    The constant explanations and recommendations of the signal rules, as the
    rules attach them. *)

From S2P Require Import Prelude.

(** go: pkg/codesignal/rule_branch_density.go#branchDensityWhyItMatters *)
Definition branchDensityWhyItMatters : string :=
  "A large number of branching constructs concentrated in one file increases the number of paths a reader has to hold in mind at once and the number of cases tests need to cover.".

(** go: pkg/codesignal/rule_branch_density.go#branchDensityRecommendation *)
Definition branchDensityRecommendation : string :=
  "Split this file's branching logic across smaller, single-purpose functions or files so each piece has fewer paths to reason about.".

(** go: pkg/codesignal/rule_cognitive_complexity.go#cognitiveComplexityWhyItMatters *)
Definition cognitiveComplexityWhyItMatters : string :=
  "High cognitive complexity means the control flow takes more mental effort to follow: nested branches, mixed logical sequences, and jumps compound so reviewers and authors miss paths.".

(** go: pkg/codesignal/rule_cognitive_complexity.go#cognitiveComplexityRecommendation *)
Definition cognitiveComplexityRecommendation : string :=
  "Extract nested branches into named helpers, replace nested conditionals with early returns or lookup tables, and simplify boolean expressions so each function stays linearly readable.".

(** go: pkg/codesignal/rule_constructor_density.go#defaultConstructorDensityRecommendation *)
Definition defaultConstructorDensityRecommendation : string :=
  "Consolidate overlapping constructor-like functions in this file, or split the file so each constructor's responsibility is clearer.".

(** go: pkg/codesignal/rule_constructor_density.go#constructorDensityWhyItMatters *)
Definition constructorDensityWhyItMatters : string :=
  "A high concentration of constructor-like functions in one file often signals overlapping responsibilities or an object graph that's grown organically rather than by design, making the file harder to navigate and its construction paths harder to reason about.".

(** go: pkg/codesignal/rule_deep_relative_import.go#deepRelativeImportWhyItMatters *)
Definition deepRelativeImportWhyItMatters : string :=
  "A deep relative import (" +:+ dq +:+ "../../../" +:+ dq +:+ ") tightly couples a module to another module's exact directory location, so moving or renaming either side breaks the import and makes refactors brittle.".

(** go: pkg/codesignal/rule_deep_relative_import.go#deepRelativeImportRecommendation *)
Definition deepRelativeImportRecommendation : string :=
  "Introduce a path alias or restructure toward a shared module boundary instead of climbing many directories with relative imports.".

(** go: pkg/codesignal/rule_hidden_input_mutation.go#defaultHiddenInputMutationRecommendation *)
Definition defaultHiddenInputMutationRecommendation : string :=
  "Return the updated value instead of mutating caller-owned state, or make the in-place behavior explicit through the API name and documentation.".

(** go: pkg/codesignal/rule_hidden_input_mutation.go#hiddenInputMutationWhyItMatters *)
Definition hiddenInputMutationWhyItMatters : string :=
  "Mutating a caller-owned input can create behavior that is not visible from the function signature, make outcomes dependent on call ordering, introduce temporal coupling, make tests and local reasoning more difficult, and surprise callers that expect an input to remain unchanged.".

(** go: pkg/codesignal/rule_max_nesting_depth.go#maxNestingDepthWhyItMatters *)
Definition maxNestingDepthWhyItMatters : string :=
  "Deeply nested control flow is harder to read, harder to test exhaustively, and hides the function's actual branching structure behind indentation, making it easy to miss an edge case.".

(** go: pkg/codesignal/rule_max_nesting_depth.go#maxNestingDepthRecommendation *)
Definition maxNestingDepthRecommendation : string :=
  "Extract deeply nested blocks into named helper functions or invert conditionals with early returns to flatten the control flow.".

(** go: pkg/codesignal/rule_pointer_return_density.go#defaultPointerReturnDensityRecommendation *)
Definition defaultPointerReturnDensityRecommendation : string :=
  "Reconsider whether all of these functions need to return pointers; returning values where mutation and nil-ness aren't required can simplify ownership and reduce aliasing risk.".

(** go: pkg/codesignal/rule_pointer_return_density.go#pointerReturnDensityWhyItMatters *)
Definition pointerReturnDensityWhyItMatters : string :=
  "A high concentration of pointer-returning functions in one file can indicate widespread reliance on aliasing and shared mutable state, which makes ownership harder to reason about and increases the risk of unintended mutation through shared references.".

(** go: pkg/codesignal/rule_react_orchestration.go#reactOrchestrationWhyItMatters *)
Definition reactOrchestrationWhyItMatters : string :=
  "This component coordinates several independently changing UI concerns and feature panels. This is a refactoring opportunity, not a functional defect: changes to one workflow can unintentionally affect another, and the component is harder to test or extract safely.".

(** go: pkg/codesignal/rule_react_orchestration.go#reactOrchestrationRecommendation *)
Definition reactOrchestrationRecommendation : string :=
  "Preserve the public component boundary. First extract one cohesive workspace or panel, then move only its local interaction state and derived data into that module or a dedicated hook. Keep cross-workspace state in the parent. Do not split by line count; derive explicit state-transition actions before moving state.".

(** go: pkg/codesignal/rule_tight_constructor_init.go#defaultTightConstructorInitRecommendation *)
Definition defaultTightConstructorInitRecommendation : string :=
  "Inject collaborators through the constructor's parameters or setters instead of instantiating them directly inside it, so tests and callers can substitute alternatives.".

(** go: pkg/codesignal/rule_tight_constructor_init.go#tightConstructorInitWhyItMatters *)
Definition tightConstructorInitWhyItMatters : string :=
  "A constructor that directly instantiates its own collaborators hardwires those dependencies, making the type harder to test in isolation, harder to substitute alternative implementations for, and more prone to hidden coupling that only surfaces at runtime.".

(** go: pkg/codesignal/rule_toctou_check_then_act.go#defaultTOCTOUCheckThenActRecommendation *)
Definition defaultTOCTOUCheckThenActRecommendation : string :=
  "Attempt the filesystem operation directly and handle its error (try/catch or check the returned error) instead of checking existence first; a re-check between the check and the act does not close the race.".

(** go: pkg/codesignal/rule_toctou_check_then_act.go#toctouCheckThenActWhyItMatters *)
Definition toctouCheckThenActWhyItMatters : string :=
  "Checking for a file's existence and then acting on it in a separate step leaves a non-atomic check-then-act window (CWE-367, Time-of-Check Time-of-Use) in which another process or actor can create, delete, or replace the file between the check and the act, causing the acted-upon state to differ from what was checked.".
