(* ===== verification/Rules.v ===== *)
(** * File signal rules

    One [Result] to the signals it triggers: the finding registry with its density
    gate, the metric rules, deep relative imports, cognitive complexity and React
    orchestration density ([registry.go], [metric_rules.go], [rule_*.go]). *)

From S2P Require Import Prelude GoOrder GoText GoFloat Semantics Domain Signals RuleText.

(** ** Shared construction *)

(** A signal literal: the fields no file rule sets keep their zero value. *)
Definition rule_signal (ruleID kind category severity confidence path subject : string)
    (location : Location) (evidence why recommendation skill : string) (prov : Provenance) : Signal :=
  {| sig_ID := ""; sig_Fingerprint := "";
     sig_RuleID := ruleID; sig_RuleVersion := "1"; sig_Kind := kind;
     sig_Category := category; sig_Severity := severity; sig_Confidence := confidence;
     sig_Lifecycle := ""; sig_Changed := false;
     sig_Path := path; sig_SourceScope := ""; sig_Subject := subject;
     sig_Location := location; sig_Evidence := evidence;
     sig_WhyItMatters := why; sig_Recommendation := recommendation; sig_SuggestedSkill := skill;
     sig_Provenance := prov;
     sig_MachineEvidence := ∅; sig_RelatedLocations := []; sig_PathSteps := [];
     sig_CoverageRefs := [] |}.

Definition codesignal_provenance : Provenance := mkProvenance "codesignal" "" "".
Definition semantics_provenance (kind : string) : Provenance := mkProvenance "semantics" kind "".

(** A signal with nothing set, for examples. *)
Definition zero_Signal : Signal :=
  rule_signal "" "" "" "" "" "" "" zero_Location "" "" "" "" codesignal_provenance.

(** ** Metric rules *)

(** go: pkg/codesignal/metric_rules.go#highSeverityThresholdMultiple *)
Definition highSeverityThresholdMultiple : Z := 2.

(** go: pkg/codesignal/metric_rules.go#metricRule *)
Record metricRule := mkMetricRule {
  mr_ruleID : string; mr_evidencePrefix : string; mr_threshold : Z; mr_escalates : bool
}.

(** go: pkg/codesignal/metric_rules.go:28-33#cognitiveComplexityRule *)
Definition cognitiveComplexityRule : metricRule :=
  mkMetricRule "complexity.cognitive_complexity" "cognitive_complexity=" 15 true.
(** go: pkg/codesignal/metric_rules.go:34-38#branchDensityRule *)
Definition branchDensityRule : metricRule :=
  mkMetricRule "complexity.branch_density" "branch_sum=" 12 false.
(** go: pkg/codesignal/metric_rules.go:39-44#maxNestingDepthRule *)
Definition maxNestingDepthRule : metricRule :=
  mkMetricRule "complexity.max_nesting_depth" "max_nesting_depth=" 4 true.

(** go: pkg/codesignal/metric_rules.go#metricRules *)
Definition metricRules : list metricRule :=
  [cognitiveComplexityRule; branchDensityRule; maxNestingDepthRule].

(** go: pkg/codesignal/metric_rules.go#reaches *)
Definition reaches (r : metricRule) (metric : Z) : bool := (mr_threshold r <=? metric)%Z.

(** go: pkg/codesignal/metric_rules.go#severity *)
Definition metric_severity (r : metricRule) (metric : Z) : string :=
  if mr_escalates r && (highSeverityThresholdMultiple * mr_threshold r <=? metric)%Z
  then "high" else "medium".

(** go: pkg/codesignal/metric_rules.go#evidence *)
Definition metric_evidence (r : metricRule) (metric : Z) : string :=
  mr_evidencePrefix r +:+ Itoa metric.

(** go: pkg/codesignal/metric_rules.go#magnitude *)
Definition magnitude (r : metricRule) (s : Signal) : option float64 :=
  match CutPrefix (mr_evidencePrefix r) (sig_Evidence s) with
  | None => None
  | Some value =>
      match Atoi value with
      | None => None
      | Some metric => Some (float64_div (float64_of_int metric) (float64_of_int (mr_threshold r)))
      end
  end.

(** go: pkg/codesignal/metric_rules.go#signalMagnitude *)
Definition signalMagnitude (s : Signal) : option float64 :=
  match List.find (λ r, mr_ruleID r == sig_RuleID s) metricRules with
  | Some r => magnitude r s
  | None => None
  end.

(** go: pkg/codesignal/rule_branch_density.go#branchSum *)
Definition branchSum (m : StructuralMetrics) : Z :=
  int64_wrap (met_Ifs m + met_Fors m + met_ExprSwitches m + met_TypeSwitches m + met_Selects m).

(** go: pkg/codesignal/rule_branch_density.go#newBranchDensitySignal *)
Definition newBranchDensitySignal (path : string) (m : StructuralMetrics) : option Signal :=
  let sum := branchSum m in
  if negb (reaches branchDensityRule sum) then None else
  Some (rule_signal (mr_ruleID branchDensityRule) "branch_density" "complexity"
    (metric_severity branchDensityRule sum) "medium" path "" zero_Location
    (metric_evidence branchDensityRule sum)
    branchDensityWhyItMatters branchDensityRecommendation "" codesignal_provenance).

(** go: pkg/codesignal/rule_max_nesting_depth.go#newMaxNestingDepthSignal *)
Definition newMaxNestingDepthSignal (path : string) (m : StructuralMetrics) : option Signal :=
  if negb (reaches maxNestingDepthRule (met_MaxNestingDepth m)) then None else
  Some (rule_signal (mr_ruleID maxNestingDepthRule) "max_nesting_depth" "complexity"
    (metric_severity maxNestingDepthRule (met_MaxNestingDepth m)) "medium" path "" zero_Location
    (metric_evidence maxNestingDepthRule (met_MaxNestingDepth m))
    maxNestingDepthWhyItMatters maxNestingDepthRecommendation "" codesignal_provenance).

(** go: pkg/codesignal/registry.go#metricsRuleRegistry *)
Definition metricsRuleRegistry : list (string → StructuralMetrics → option Signal) :=
  [newMaxNestingDepthSignal; newBranchDensitySignal].

Definition option_list {A} (o : option A) : list A :=
  match o with Some x => [x] | None => [] end.

(** go: pkg/codesignal/registry.go#signalsFromMetrics *)
Definition signalsFromMetrics (path : string) (m : StructuralMetrics) : list Signal :=
  flat_map (λ newSignal, option_list (newSignal path m)) metricsRuleRegistry.

(** go: pkg/codesignal/rule_cognitive_complexity.go#newCognitiveComplexitySignal *)
Definition newCognitiveComplexitySignal (path : string) (rec : FunctionCognitiveComplexity) : Signal :=
  rule_signal (mr_ruleID cognitiveComplexityRule) "cognitive_complexity" "complexity"
    (metric_severity cognitiveComplexityRule (fcc_Score rec)) "high" path
    (fcc_Name rec) (fcc_Location rec) (metric_evidence cognitiveComplexityRule (fcc_Score rec))
    cognitiveComplexityWhyItMatters cognitiveComplexityRecommendation "" codesignal_provenance.

(** go: pkg/codesignal/rule_cognitive_complexity.go#signalsFromCognitiveComplexity *)
Definition signalsFromCognitiveComplexity (path : string)
    (records : list FunctionCognitiveComplexity) : list Signal :=
  flat_map (λ rec, if negb (reaches cognitiveComplexityRule (fcc_Score rec)) then []
                   else [newCognitiveComplexitySignal path rec]) records.

(** ** Finding rules *)

(** [switch finding.Confidence]: a known confidence, or medium. *)
Definition known_confidence (c : string) : string :=
  if (c == "low") || (c == "medium") || (c == "high") then c else "medium".

Definition or_default (recommendation default_text : string) : string :=
  if recommendation == "" then default_text else recommendation.

(** go: pkg/codesignal/rule_hidden_input_mutation.go#newHiddenInputMutationSignal *)
Definition newHiddenInputMutationSignal (path : string) (f : Finding) : Signal :=
  rule_signal "state.hidden_input_mutation" "hidden_input_mutation" "state_management" "medium"
    (known_confidence (fnd_Confidence f)) path (fnd_Name f) (fnd_Location f) (fnd_Evidence f)
    hiddenInputMutationWhyItMatters
    (or_default (fnd_Recommendation f) defaultHiddenInputMutationRecommendation)
    (fnd_SuggestedSkill f) (semantics_provenance "mutates_input").

(** go: pkg/codesignal/rule_tight_constructor_init.go#newTightCouplingSignal *)
Definition newTightCouplingSignal (path : string) (f : Finding) : Signal :=
  rule_signal "coupling.tight_constructor_init" "tight_constructor_init" "coupling" "medium"
    "medium" path (fnd_Name f) (fnd_Location f) (fnd_Evidence f)
    tightConstructorInitWhyItMatters
    (or_default (fnd_Recommendation f) defaultTightConstructorInitRecommendation)
    (fnd_SuggestedSkill f) (semantics_provenance "tight_coupling").

(** go: pkg/codesignal/rule_constructor_density.go#newConstructorDensitySignal *)
Definition newConstructorDensitySignal (path : string) (f : Finding) : Signal :=
  rule_signal "structure.constructor_density" "constructor_density" "structure" "low"
    "medium" path (fnd_Name f) (fnd_Location f) (fnd_Evidence f)
    constructorDensityWhyItMatters
    (or_default (fnd_Recommendation f) defaultConstructorDensityRecommendation)
    (fnd_SuggestedSkill f) (semantics_provenance "constructor_func").

(** go: pkg/codesignal/rule_pointer_return_density.go#newPointerReturnDensitySignal *)
Definition newPointerReturnDensitySignal (path : string) (f : Finding) : Signal :=
  rule_signal "structure.pointer_return_density" "pointer_return_density" "structure" "low"
    "medium" path (fnd_Name f) (fnd_Location f) (fnd_Evidence f)
    pointerReturnDensityWhyItMatters
    (or_default (fnd_Recommendation f) defaultPointerReturnDensityRecommendation)
    (fnd_SuggestedSkill f) (semantics_provenance "pointer_return").

(** go: pkg/codesignal/rule_toctou_check_then_act.go#newTOCTOUCheckThenActSignal *)
Definition newTOCTOUCheckThenActSignal (path : string) (f : Finding) : Signal :=
  rule_signal "security.toctou_check_then_act" "toctou_check_then_act" "security" "medium"
    (known_confidence (fnd_Confidence f)) path (fnd_Name f) (fnd_Location f) (fnd_Evidence f)
    toctouCheckThenActWhyItMatters
    (or_default (fnd_Recommendation f) defaultTOCTOUCheckThenActRecommendation)
    (fnd_SuggestedSkill f) (semantics_provenance "toctou_check_then_act").

(** go: pkg/codesignal/registry.go#densityGateThreshold *)
Definition densityGateThreshold : Z := 2.

(** go: pkg/codesignal/registry.go#gatedFindingKinds *)
Definition gatedFindingKinds (kind : string) : bool :=
  (kind == "constructor_func") || (kind == "pointer_return").

(** go: pkg/codesignal/registry.go#ruleRegistry *)
Definition ruleRegistry (kind : string) : option (string → Finding → Signal) :=
  if kind == "mutates_input" then Some newHiddenInputMutationSignal
  else if kind == "tight_coupling" then Some newTightCouplingSignal
  else if kind == "constructor_func" then Some newConstructorDensitySignal
  else if kind == "pointer_return" then Some newPointerReturnDensitySignal
  else if kind == "toctou_check_then_act" then Some newTOCTOUCheckThenActSignal
  else None.

(** [counts[finding.Kind]++].
    go: pkg/codesignal/registry.go#findingCountsByKind *)
Definition findingCountsByKind (findings : list Finding) : gmap string Z :=
  fold_left (λ counts f, <[fnd_Kind f := (default 0 (counts !! fnd_Kind f) + 1)%Z]> counts)
    findings ∅.

(** The loop body of [signalsFromFindings]. *)
Definition finding_signal (path : string) (counts : gmap string Z) (f : Finding) : list Signal :=
  match ruleRegistry (fnd_Kind f) with
  | None => []
  | Some newSignal =>
      if gatedFindingKinds (fnd_Kind f)
         && (default 0 (counts !! fnd_Kind f) <? densityGateThreshold)%Z
      then [] else [newSignal path f]
  end.

(** go: pkg/codesignal/registry.go#signalsFromFindings *)
Definition signalsFromFindings (path : string) (findings : list Finding) (counts : gmap string Z) :
    list Signal :=
  flat_map (finding_signal path counts) findings.

(** ** Deep relative imports *)

(** go: pkg/codesignal/rule_deep_relative_import.go#deepRelativeImportDepthThreshold *)
Definition deepRelativeImportDepthThreshold : Z := 3.

(** go: pkg/codesignal/rule_deep_relative_import.go#noteDotDotSegment *)
Definition noteDotDotSegment (path : string) (start i : nat) (depth : Z) : nat * Z :=
  if (i =? String.length path)%nat
     || match String.get i path with Some c => Ascii.eqb c ch_slash | None => false end
  then ((i + 1)%nat, if String.substring start (i - start) path == ".." then (depth + 1)%Z else depth)
  else (start, depth).

(** go: pkg/codesignal/rule_deep_relative_import.go#deepRelativeImportDepth *)
Definition deepRelativeImportDepth (path : string) : Z * bool :=
  match path with
  | EmptyString => (0%Z, false)
  | String c _ =>
      if negb (Ascii.eqb c ch_dot) then (0%Z, false)
      else
        let '(_, depth) :=
          fold_left (λ st i, noteDotDotSegment path (fst st) i (snd st))
            (seq 0 (S (String.length path))) (0%nat, 0%Z) in
        (depth, true)
  end.

(** go: pkg/semantics/language.go:14-14#LanguageGo *)
Definition LanguageGo : string := "go".
(** go: pkg/semantics/language.go:15-15#LanguageTypeScript *)
Definition LanguageTypeScript : string := "typescript".
(** go: pkg/semantics/language.go:16-16#LanguageTSX *)
Definition LanguageTSX : string := "tsx".

(** go: pkg/codesignal/rule_deep_relative_import.go#newDeepRelativeImportSignal *)
Definition newDeepRelativeImportSignal (path : string) (imp : ImportFeature) : Signal :=
  rule_signal "coupling.deep_relative_import" "deep_relative_import" "coupling" "medium" "medium"
    path (imp_Path imp) (imp_Location imp) (imp_Path imp)
    deepRelativeImportWhyItMatters deepRelativeImportRecommendation "" codesignal_provenance.

(** go: pkg/codesignal/rule_deep_relative_import.go#signalsFromImports *)
Definition signalsFromImports (path language : string) (imports : list ImportFeature) : list Signal :=
  if (language != LanguageTypeScript) && (language != LanguageTSX) then []
  else flat_map (λ imp,
    let '(depth, isRelative) := deepRelativeImportDepth (imp_Path imp) in
    if negb isRelative || (depth <? deepRelativeImportDepthThreshold)%Z then []
    else [newDeepRelativeImportSignal path imp]) imports.

(** ** React orchestration density *)

(** go: pkg/codesignal/rule_react_orchestration.go:16-16#reactStateDomainMinUnique *)
Definition reactStateDomainMinUnique : Z := 3.
(** go: pkg/codesignal/rule_react_orchestration.go:17-17#reactStateDomainMinTransitions *)
Definition reactStateDomainMinTransitions : Z := 1.
(** go: pkg/codesignal/rule_react_orchestration.go:18-18#reactStateDomainMinBranches *)
Definition reactStateDomainMinBranches : Z := 3.

(** An alternation of unanchored literals and of whole-text literals, under [(?i)]. *)
Definition matches_any (contained whole : list string) (binding : string) : bool :=
  let b := fold_case binding in
  existsb (λ w, Contains w b) contained || existsb (String.eqb b) whole.

(** go: pkg/codesignal/rule_react_orchestration.go#reactStateDomainRules *)
Definition reactStateDomainRules : list (string * (string → bool)) :=
  [("navigation", matches_any []
      ["activeview"; "activetab"; "activepanel"; "activesection"; "activepage";
       "selectedview"; "selectedtab"; "currentview"; "currenttab";
       "view"; "tab"; "route"; "screen"]);
   ("selection", matches_any ["selected"; "selection"; "checked"; "highlighted"] []);
   ("hover_focus", matches_any ["hover"; "focused"; "focusable"] ["focus"]);
   ("filtering", matches_any ["filter"; "search"; "query"] []);
   ("pagination", matches_any ["pageindex"; "pagenumber"; "offset"; "cursor"; "pagelimit"]
      ["page"; "limit"]);
   ("sorting", matches_any ["sort"; "orderby"] []);
   ("modal", matches_any ["modal"; "dialog"; "drawer"; "expanded"; "collapsed"; "isopen";
                          "opened"; "isvisible"] ["open"; "visible"; "show"]);
   ("loading_error", matches_any ["loading"; "pending"; "iserror"; "fetchstatus"]
      ["error"; "err"; "status"]);
   ("other", λ _, true)].

(** go: pkg/codesignal/rule_react_orchestration.go#classifyStateDomain *)
Definition classifyStateDomain (binding : string) : string :=
  match List.find (λ rule, snd rule binding) reactStateDomainRules with
  | Some rule => fst rule
  | None => "other"
  end.

(** go: pkg/codesignal/rule_react_orchestration.go#uniqueStateDomains *)
Definition uniqueStateDomains (rec : ReactComponentFacts) : list string :=
  let seen : gset string :=
    fold_left (λ seen b, if usb_Binding b == "" then seen
                         else {[classifyStateDomain (usb_Binding b)]} ∪ seen)
      (rcf_UseState rec) ∅ in
  sort_strings (elements seen).

(** go: pkg/codesignal/rule_react_orchestration.go#reactHasSupportingTransition *)
Definition reactHasSupportingTransition (transitions : list ReactCoordinatedTransition) : bool :=
  existsb (λ t,
    let effectPair := (rct_Kind t == "effect") && (2 <=? zlen (rct_UpdatedBindings t))%Z in
    effectPair || (3 <=? zlen (rct_UpdatedBindings t))%Z) transitions.

(** go: pkg/codesignal/rule_react_orchestration.go#reactOrchestrationRequiredMet *)
Definition reactOrchestrationRequiredMet (rec : ReactComponentFacts) : bool :=
  (reactStateDomainMinUnique <=? zlen (uniqueStateDomains rec))%Z
  && (reactStateDomainMinTransitions <=? zlen (rcf_CoordinatedTransitions rec))%Z
  && (reactStateDomainMinBranches <=? zlen (rcf_WorkspaceBranches rec))%Z.

(** go: pkg/codesignal/rule_react_orchestration.go#reactOrchestrationSupportingMet *)
Definition reactOrchestrationSupportingMet (rec : ReactComponentFacts) : bool :=
  reactHasSupportingTransition (rcf_CoordinatedTransitions rec)
  || (1 <=? zlen (rcf_ImperativeUI rec))%Z
  || (1 <=? zlen (rcf_SharedPanelDeps rec))%Z.

(** go: pkg/codesignal/rule_react_orchestration.go#reactOrchestrationEvidence *)
Definition reactOrchestrationEvidence (rec : ReactComponentFacts) : string :=
  "domains=" +:+ Itoa (zlen (uniqueStateDomains rec))
  +:+ ";states=" +:+ Itoa (zlen (rcf_UseState rec))
  +:+ ";transitions=" +:+ Itoa (zlen (rcf_CoordinatedTransitions rec))
  +:+ ";branches=" +:+ Itoa (zlen (rcf_WorkspaceBranches rec))
  +:+ ";imperative=" +:+ Itoa (zlen (rcf_ImperativeUI rec))
  +:+ ";shared=" +:+ Itoa (zlen (rcf_SharedPanelDeps rec))
  +:+ ";client=" +:+ rcf_ClientKind rec.

(** go: pkg/codesignal/rule_react_orchestration.go#newReactOrchestrationSignal *)
Definition newReactOrchestrationSignal (path : string) (rec : ReactComponentFacts) : Signal :=
  rule_signal "structure.react_component_orchestration_density"
    "react_component_orchestration_density" "structure" "medium" "high"
    path (rcf_Name rec) (rcf_Location rec) (reactOrchestrationEvidence rec)
    reactOrchestrationWhyItMatters reactOrchestrationRecommendation "" codesignal_provenance.

(** go: pkg/codesignal/rule_react_orchestration.go#signalsFromReactOrchestration *)
Definition signalsFromReactOrchestration (path : string) (records : list ReactComponentFacts) :
    list Signal :=
  flat_map (λ rec,
    if negb (reactOrchestrationRequiredMet rec) || negb (reactOrchestrationSupportingMet rec)
    then [] else [newReactOrchestrationSignal path rec]) records.

(** ** Lemmas *)

Lemma in_int64_wrap z : in_int64 (int64_wrap z) = true.
Proof.
  unfold in_int64, int64_wrap. pose proof (Z.mod_pos_bound (z + 2 ^ 63) (2 ^ 64) eq_refl) as H.
  apply andb_true_iff. rewrite Z.leb_le, Z.ltb_lt.
  change (2 ^ 64)%Z with (2 * 2 ^ 63)%Z in *. lia.
Qed.

Lemma find_metricRule r :
  In r metricRules → List.find (λ r', mr_ruleID r' == mr_ruleID r) metricRules = Some r.
Proof. intros [<-|[<-|[<-|[]]]]; reflexivity. Qed.

(** The evidence a rule writes is the metric its magnitude reads back. *)
Lemma signalMagnitude_evidence r metric s :
  In r metricRules → sig_RuleID s = mr_ruleID r → sig_Evidence s = metric_evidence r metric →
  in_int64 metric = true →
  signalMagnitude s
  = Some (float64_div (float64_of_int metric) (float64_of_int (mr_threshold r))).
Proof.
  intros Hr Hid He Hm. unfold signalMagnitude. rewrite Hid, find_metricRule by done.
  unfold magnitude. rewrite He. unfold metric_evidence. by rewrite CutPrefix_app, Atoi_Itoa.
Qed.

Lemma metric_severity_high r metric :
  metric_severity r metric = "high" ↔
  mr_escalates r = true ∧ (2 * mr_threshold r <= metric)%Z.
Proof.
  unfold metric_severity, highSeverityThresholdMultiple. destruct (mr_escalates r); simpl.
  - destruct (Z.leb_spec (2 * mr_threshold r) metric); naive_solver lia.
  - naive_solver.
Qed.

(** A signal of rule [r] for the value [metric] its evidence records. *)
Definition measured_by (r : metricRule) (metric : Z) (s : Signal) : Prop :=
  sig_RuleID s = mr_ruleID r ∧ (mr_threshold r <= metric)%Z
  ∧ sig_Severity s = metric_severity r metric ∧ sig_Evidence s = metric_evidence r metric.

Lemma signalsFromMetrics_eq path m :
  signalsFromMetrics path m
  = option_list (newMaxNestingDepthSignal path m) ++ option_list (newBranchDensitySignal path m).
Proof. unfold signalsFromMetrics. simpl. by rewrite app_nil_r. Qed.

Lemma signalsFromMetrics_measured path m s :
  In s (signalsFromMetrics path m) →
  measured_by maxNestingDepthRule (met_MaxNestingDepth m) s
  ∨ measured_by branchDensityRule (branchSum m) s.
Proof.
  rewrite signalsFromMetrics_eq, in_app_iff.
  unfold newMaxNestingDepthSignal, newBranchDensitySignal, reaches.
  intros [H|H]; [left|right]; [destruct (mr_threshold maxNestingDepthRule <=? met_MaxNestingDepth m)%Z eqn:E
    |destruct (mr_threshold branchDensityRule <=? branchSum m)%Z eqn:E]; try done;
    destruct H as [<-|[]]; apply Z.leb_le in E; by repeat split.
Qed.

Lemma signalsFromCognitiveComplexity_measured path records s :
  In s (signalsFromCognitiveComplexity path records) →
  ∃ rec, In rec records ∧ measured_by cognitiveComplexityRule (fcc_Score rec) s.
Proof.
  unfold signalsFromCognitiveComplexity. rewrite in_flat_map. intros (rec & Hrec & H).
  exists rec. split; [done|]. unfold reaches in H.
  destruct (mr_threshold cognitiveComplexityRule <=? fcc_Score rec)%Z eqn:E; [|done].
  destruct H as [<-|[]]. apply Z.leb_le in E. by repeat split.
Qed.

Lemma signalsFromCognitiveComplexity_map path records :
  signalsFromCognitiveComplexity path records
  = map (newCognitiveComplexitySignal path)
      (List.filter (λ rec, reaches cognitiveComplexityRule (fcc_Score rec)) records).
Proof.
  induction records as [|rec records IH]; simpl; [done|].
  rewrite IH. by destruct (reaches _ _).
Qed.

Lemma findingCountsByKind_lookup findings kind :
  default 0%Z (findingCountsByKind findings !! kind)
  = zlen (List.filter (λ f, fnd_Kind f == kind) findings).
Proof.
  unfold findingCountsByKind.
  enough (∀ m, default 0%Z (fold_left (λ counts f,
      <[fnd_Kind f := (default 0 (counts !! fnd_Kind f) + 1)%Z]> counts) findings m !! kind)
    = (default 0 (m !! kind) + zlen (List.filter (λ f, fnd_Kind f == kind) findings))%Z) as H
    by (by rewrite H, lookup_empty).
  unfold zlen. induction findings as [|f fs IH]; intros m; cbn [fold_left List.filter]; [simpl; lia|].
  rewrite IH. destruct (String.eqb_spec (fnd_Kind f) kind) as [->|Hne].
  - rewrite lookup_insert_eq. simpl. lia.
  - by rewrite lookup_insert_ne.
Qed.

(** The provenance of a finding signal names the finding's kind. *)
Lemma ruleRegistry_kind kind new path f :
  ruleRegistry kind = Some new →
  prov_FindingKind (sig_Provenance (new path f)) = kind ∧ sig_Subject (new path f) = fnd_Name f.
Proof.
  unfold ruleRegistry. intros H.
  repeat match type of H with
  | (if ?a == ?b then _ else _) = _ => destruct (String.eqb_spec a b) as [->|]; [by simplify_eq|]
  end. done.
Qed.

(** One step of the scan inside the path, [seg] being the segment so far. *)
Lemma noteDotDotSegment_inside pre seg c rest d :
  noteDotDotSegment (pre +:+ seg +:+ String c rest) (String.length pre)
    (String.length pre + String.length seg) d
  = if Ascii.eqb c ch_slash
    then ((String.length pre + String.length seg + 1)%nat,
          if seg == ".." then (d + 1)%Z else d)
    else (String.length pre, d).
Proof.
  unfold noteDotDotSegment.
  destruct (Nat.eqb_spec (String.length pre + String.length seg)
    (String.length (pre +:+ seg +:+ String c rest))) as [E|_].
  { exfalso. rewrite !length_append in E. cbn [String.length] in E. lia. }
  replace (String.get _ _) with (Some c)
    by (rewrite <- append_assoc_str, <- length_append; symmetry; apply get_app).
  destruct (Ascii.eqb c ch_slash); [|done]. cbn [orb].
  replace (_ - _)%nat with (String.length seg) by lia. by rewrite substring_app.
Qed.

Lemma noteDotDotSegment_end pre seg d :
  noteDotDotSegment (pre +:+ seg) (String.length pre) (String.length pre + String.length seg) d
  = ((String.length pre + String.length seg + 1)%nat, if seg == ".." then (d + 1)%Z else d).
Proof.
  unfold noteDotDotSegment. rewrite length_append, Nat.eqb_refl. cbn [orb].
  replace (_ - _)%nat with (String.length seg) by lia.
  pose proof (substring_app pre seg "") as E. rewrite append_empty_r in E. by rewrite E.
Qed.

Lemma dot_segments_scan rest : ∀ pre seg d,
  CutLast ch_slash seg = None →
  snd (fold_left (λ st i, noteDotDotSegment (pre +:+ seg +:+ rest) (fst st) i (snd st))
    (seq (String.length pre + String.length seg) (S (String.length rest)))
    (String.length pre, d))
  = (d + zlen (List.filter (λ x, x == "..") (SplitByte ch_slash (seg +:+ rest))))%Z.
Proof.
  induction rest as [|c rest IH]; intros pre seg d Hseg;
    rewrite <- cons_seq; cbn [fold_left fst snd].
  - rewrite append_empty_r, noteDotDotSegment_end, SplitByte_last by done.
    unfold zlen. cbn. destruct (seg == ".."); cbn; lia.
  - rewrite noteDotDotSegment_inside. destruct (Ascii.eqb_spec c ch_slash) as [->|Hc].
    + rewrite SplitByte_app by done. cbn [List.filter].
      specialize (IH (pre +:+ seg +:+ "/") "" (if seg == ".." then (d + 1)%Z else d) eq_refl).
      rewrite !length_append, !append_assoc_str in IH.
      change (String.length "/") with 1 in IH. change (String.length "") with 0 in IH.
      rewrite Nat.add_0_r, Nat.add_assoc in IH. rewrite <- Nat.add_1_r.
      etransitivity; [exact IH|].
      unfold zlen. destruct (seg == ".."); cbn [length]; change ("" +:+ rest) with rest; lia.
    + specialize (IH pre (seg +:+ String c "") d).
      rewrite length_append, !append_assoc_str in IH.
      change (String.length (String c "")) with 1 in IH.
      rewrite Nat.add_assoc, Nat.add_1_r in IH.
      apply IH, CutLast_snoc; [done|]. by apply Ascii.eqb_neq.
Qed.

Lemma reactHasSupportingTransition_spec ts :
  reactHasSupportingTransition ts = true ↔
  ∃ t, In t ts ∧ ((3 <= zlen (rct_UpdatedBindings t))%Z
                  ∨ rct_Kind t = "effect" ∧ (2 <= zlen (rct_UpdatedBindings t))%Z).
Proof.
  unfold reactHasSupportingTransition. rewrite existsb_exists. split.
  - intros (t & Ht & H). exists t. split; [done|]. breflect.
    destruct H as [H|H]; breflect; auto.
  - intros (t & Ht & H). exists t. split; [done|].
    rewrite orb_true_iff, andb_true_iff, !Z.leb_le, String.eqb_eq. tauto.
Qed.

(** The domains of the named state bindings, as a set. *)
Definition state_domains (rec : ReactComponentFacts) : gset string :=
  list_to_set (map (λ b, classifyStateDomain (usb_Binding b))
    (List.filter (λ b, usb_Binding b != "") (rcf_UseState rec))).

Lemma state_domains_seen rec :
  fold_left (λ seen b, if usb_Binding b == "" then seen
                       else {[classifyStateDomain (usb_Binding b)]} ∪ seen)
    (rcf_UseState rec) (∅ : gset string) = state_domains rec.
Proof.
  unfold state_domains. generalize (rcf_UseState rec) as bs. intros bs.
  enough (∀ X : gset string, fold_left (λ seen b, if usb_Binding b == "" then seen
      else {[classifyStateDomain (usb_Binding b)]} ∪ seen) bs X
    = list_to_set (map (λ b, classifyStateDomain (usb_Binding b))
        (List.filter (λ b, usb_Binding b != "") bs)) ∪ X) as H by (rewrite H; set_solver).
  induction bs as [|b bs IH]; intros X; cbn [fold_left List.filter]; [set_solver|].
  rewrite IH. destruct (usb_Binding b == ""); simpl; set_solver.
Qed.

Lemma uniqueStateDomains_length rec : zlen (uniqueStateDomains rec) = Z.of_nat (size (state_domains rec)).
Proof.
  unfold zlen, uniqueStateDomains, sort_strings. by rewrite stable_sort_length, state_domains_seen.
Qed.

(** ** Properties *)

(** C39: every signal a metric rule emits has the rule's ID, a metric at or above
    the threshold, a magnitude equal to that metric over the threshold, read back
    from the evidence text, and severity high exactly when an escalating rule's
    metric reaches twice its threshold. *)
Theorem metric_signals_measured path m records s :
  in_int64 (met_MaxNestingDepth m) = true →
  Forall (λ rec, in_int64 (fcc_Score rec) = true) records →
  In s (signalsFromMetrics path m ++ signalsFromCognitiveComplexity path records) →
  ∃ r metric, In r metricRules ∧ sig_RuleID s = mr_ruleID r
    ∧ (mr_threshold r <= metric)%Z
    ∧ signalMagnitude s
      = Some (float64_div (float64_of_int metric) (float64_of_int (mr_threshold r)))
    ∧ (sig_Severity s = "high" ↔ mr_escalates r = true ∧ (2 * mr_threshold r <= metric)%Z).
Proof.
  intros Hm Hr Hs.
  assert (∃ r metric, In r metricRules ∧ in_int64 metric = true ∧ measured_by r metric s)
    as (r & metric & Hin & Hi & Hid & Hge & Hsev & Hev).
  { apply in_app_iff in Hs as [[H|H]%signalsFromMetrics_measured|H].
    - exists maxNestingDepthRule, (met_MaxNestingDepth m). simpl. auto.
    - exists branchDensityRule, (branchSum m). simpl. eauto using in_int64_wrap.
    - apply signalsFromCognitiveComplexity_measured in H as (rec & Hrec & H).
      exists cognitiveComplexityRule, (fcc_Score rec).
      rewrite List.Forall_forall in Hr. simpl. auto. }
  exists r, metric. rewrite Hsev, metric_severity_high.
  repeat split; try tauto. by apply signalMagnitude_evidence.
Qed.

(** Which metric signals a file gets: nesting first, then branches, each
    when its metric reaches the threshold, and one per function whose cognitive
    complexity reaches 15, in the order of the functions. *)
Theorem metric_signals_exact path m records :
  map sig_Kind (signalsFromMetrics path m)
  = (if (4 <=? met_MaxNestingDepth m)%Z then ["max_nesting_depth"] else [])
    ++ (if (12 <=? branchSum m)%Z then ["branch_density"] else [])
  ∧ map (λ s, (sig_Subject s, sig_Location s)) (signalsFromCognitiveComplexity path records)
    = map (λ rec, (fcc_Name rec, fcc_Location rec))
        (List.filter (λ rec, (15 <=? fcc_Score rec)%Z) records).
Proof.
  split.
  - rewrite signalsFromMetrics_eq, map_app.
    unfold newMaxNestingDepthSignal, newBranchDensitySignal, reaches. cbn [mr_threshold
      maxNestingDepthRule branchDensityRule].
    by destruct (4 <=? met_MaxNestingDepth m)%Z, (12 <=? branchSum m)%Z.
  - by rewrite signalsFromCognitiveComplexity_map, map_map.
Qed.

(** Findings of one kind become signals all together or not at all, in
    order: never for an unregistered kind, always for an ungated one, and for a
    gated kind exactly when the file has at least two of them. *)
Theorem density_gate path findings kind :
  map sig_Subject
    (List.filter (λ s, prov_FindingKind (sig_Provenance s) == kind)
      (signalsFromFindings path findings (findingCountsByKind findings)))
  = let matching := List.filter (λ f, fnd_Kind f == kind) findings in
    match ruleRegistry kind with
    | None => []
    | Some _ => if gatedFindingKinds kind && (zlen matching <? 2)%Z then []
                else map fnd_Name matching
    end.
Proof.
  cbv zeta. rewrite <- findingCountsByKind_lookup.
  unfold signalsFromFindings. generalize (findingCountsByKind findings) as counts. intros counts.
  induction findings as [|f fs IH]; cbn [flat_map List.filter].
  - cbn [map List.filter]. destruct (ruleRegistry kind); [|done]. by destruct (_ && _).
  - rewrite List.filter_app, map_app, IH. clear IH. unfold finding_signal at 1.
    destruct (String.eqb_spec (fnd_Kind f) kind) as [<-|Hne].
    + destruct (ruleRegistry (fnd_Kind f)) as [new|] eqn:E; [|done].
      unfold densityGateThreshold. destruct (gatedFindingKinds _ && _); [done|].
      destruct (ruleRegistry_kind _ _ path f E) as [Hk Hs]. cbn [List.filter].
      rewrite Hk, String.eqb_refl. cbn [map]. by rewrite Hs.
    + destruct (ruleRegistry (fnd_Kind f)) as [new|] eqn:E; [|done].
      destruct (gatedFindingKinds (fnd_Kind f) && _); [done|].
      destruct (ruleRegistry_kind _ _ path f E) as [Hk _]. cbn [List.filter].
      rewrite Hk. by apply String.eqb_neq in Hne as ->.
Qed.

(** The hand-written scan of an import path computes the number of [..]
    segments between slashes, and only a path starting with a dot is relative. *)
Theorem deep_relative_import_depth path :
  deepRelativeImportDepth path
  = if HasPrefix "." path
    then (zlen (List.filter (λ seg, seg == "..") (SplitByte ch_slash path)), true)
    else (0%Z, false).
Proof.
  destruct path as [|c path]; [done|].
  assert (HasPrefix "." (String c path) = Ascii.eqb c ch_dot) as ->.
  { unfold HasPrefix, CutPrefix, ch_dot. rewrite Ascii.eqb_sym. by destruct (Ascii.eqb c _). }
  unfold deepRelativeImportDepth. destruct (Ascii.eqb c ch_dot); [|done].
  pose proof (dot_segments_scan (String c path) "" "" 0 eq_refl) as H.
  rewrite Z.add_0_l in H. cbn [negb].
  assert (∀ p : nat * Z, (let '(_, depth) := p in (depth, true)) = (snd p, true)) as Hp
    by (by intros []).
  rewrite Hp. f_equal. exact H.
Qed.

(** A React component gets a signal exactly when its named state spans at
    least three domains, it has a transition and three branches, and at least one
    supporting fact: a transition updating three bindings (two in an effect), an
    imperative UI call, or a dependency shared between panels. *)
Theorem react_orchestration_exact path records :
  signalsFromReactOrchestration path records
  = map (newReactOrchestrationSignal path)
      (List.filter (λ rec, reactOrchestrationRequiredMet rec
                           && reactOrchestrationSupportingMet rec) records)
  ∧ ∀ rec, In rec records →
    reactOrchestrationRequiredMet rec && reactOrchestrationSupportingMet rec = true ↔
    3 ≤ size (state_domains rec)
    ∧ rcf_CoordinatedTransitions rec ≠ [] ∧ 3 ≤ length (rcf_WorkspaceBranches rec)
    ∧ ((∃ t, In t (rcf_CoordinatedTransitions rec)
             ∧ ((3 <= zlen (rct_UpdatedBindings t))%Z
                ∨ rct_Kind t = "effect" ∧ (2 <= zlen (rct_UpdatedBindings t))%Z))
       ∨ rcf_ImperativeUI rec ≠ [] ∨ rcf_SharedPanelDeps rec ≠ []).
Proof.
  split.
  - unfold signalsFromReactOrchestration. induction records as [|rec records IH]; simpl; [done|].
    rewrite IH. by destruct (reactOrchestrationRequiredMet rec), (reactOrchestrationSupportingMet rec).
  - intros rec _. unfold reactOrchestrationRequiredMet, reactOrchestrationSupportingMet.
    assert (∀ A (l : list A), (1 <= zlen l)%Z ↔ l ≠ []) as Hne.
    { intros A [|x l]; unfold zlen; simpl; split; intros; try done; lia. }
    rewrite !andb_true_iff, !orb_true_iff, uniqueStateDomains_length, reactHasSupportingTransition_spec.
    unfold reactStateDomainMinUnique, reactStateDomainMinTransitions, reactStateDomainMinBranches.
    rewrite !Z.leb_le, !Hne. unfold zlen.
    split; intros H; intuition lia.
Qed.

(** ** Witnesses *)

Definition example_metrics : StructuralMetrics := mkStructuralMetrics 6 6 0 0 0 1 0 8 0 0.

Definition example_nesting_signal : Signal :=
  List.hd zero_Signal
    (signalsFromMetrics "a.go" example_metrics ++ signalsFromCognitiveComplexity "a.go" []).

Lemma metric_signals_measured_witness :
  ∃ r metric, In r metricRules ∧ sig_RuleID example_nesting_signal = mr_ruleID r
    ∧ (mr_threshold r <= metric)%Z
    ∧ signalMagnitude example_nesting_signal
      = Some (float64_div (float64_of_int metric) (float64_of_int (mr_threshold r)))
    ∧ (sig_Severity example_nesting_signal = "high" ↔
       mr_escalates r = true ∧ (2 * mr_threshold r <= metric)%Z).
Proof.
  apply (metric_signals_measured "a.go" example_metrics []).
  - reflexivity.
  - constructor.
  - apply hd_In. vm_compute. discriminate.
Defined.

Lemma react_orchestration_exact_witness :
  let rec := mkReactComponentFacts "Panel" zero_Location "react"
    [mkReactUseStateBinding "activeTab" "setActiveTab" zero_Location;
     mkReactUseStateBinding "selectedId" "setSelectedId" zero_Location;
     mkReactUseStateBinding "isOpen" "setIsOpen" zero_Location]
    [mkReactCoordinatedTransition "reset" "effect" zero_Location ["activeTab"; "isOpen"]]
    [mkReactWorkspaceBranch "a" zero_Location; mkReactWorkspaceBranch "b" zero_Location;
     mkReactWorkspaceBranch "c" zero_Location] [] [] in
  3 ≤ size (state_domains rec).
Proof.
  intros rec. apply (proj2 (react_orchestration_exact "a.tsx" [rec]) rec).
  - left. reflexivity.
  - vm_compute. reflexivity.
Defined.
