(* ===== verification/FileSignals.v ===== *)
(** * Per-file pipeline

    From the changed files of a comparison to classified signals: the signals of
    each side, validation, changed ranges, and the lifecycle each signal gets by
    matching head occurrences against base occurrences ([file_signals.go],
    [file_change.go], [changed_ranges.go], [lifecycle.go]). *)

From S2P Require Import Prelude GoOrder GoText GoHash Semantics Domain Signals Rules.

(** ** Signals of one side *)

(** The five rule families, in the order both sides append them. *)
Definition result_signals (path : string) (r : Result) : list Signal :=
  signalsFromFindings path (res_Findings r) (findingCountsByKind (res_Findings r))
  ++ signalsFromMetrics path (res_Metrics r)
  ++ signalsFromImports path (res_Language r) (res_Imports r)
  ++ signalsFromCognitiveComplexity path (res_CognitiveComplexity r)
  ++ signalsFromReactOrchestration path (res_ReactComponents r).

(** go: pkg/codesignal/file_signals.go#processHeadResult *)
Definition processHeadResult (fc : FileChange) : list Diagnostic * list Signal :=
  match fc_Head fc with
  | None =>
      if (fc_Status fc == "modified") || (fc_Status fc == "added")
      then ([file_diagnostic (fc_Path fc) "missing_head_result"
               ("file change status " +:+ dq +:+ fc_Status fc +:+ dq
                +:+ " has no head analysis result")], [])
      else ([], [])
  | Some head =>
      if res_ParseStatus head == "ok" then ([], result_signals (fc_Path fc) head)
      else if res_ParseStatus head == "syntax_errors" then
        (map (λ issue,
           {| dg_Path := fc_Path fc; dg_Kind := "syntax_errors";
              dg_Message := "head analysis found a syntax issue of kind "
                            +:+ dq +:+ iss_Kind issue +:+ dq;
              dg_Location := Some (iss_Location issue); dg_Side := ""; dg_Revision := "" |})
           (res_SyntaxErrors head), [])
      else
        ([file_diagnostic (fc_Path fc) "unsupported_parse_status"
            ("head analysis result has unsupported parse status "
             +:+ dq +:+ res_ParseStatus head +:+ dq)], [])
  end.

(** go: pkg/codesignal/file_change.go#baseUsableForLifecycle *)
Definition baseUsableForLifecycle (fc : FileChange) : bool :=
  match fc_Base fc with
  | None => false
  | Some base => (res_Path base == "") || (res_Path base == fc_Path fc)
  end.

(** go: pkg/codesignal/file_signals.go#extractBaseSignals *)
Definition extractBaseSignals (fc : FileChange) : list Signal :=
  match fc_Base fc with
  | Some base =>
      if negb (baseUsableForLifecycle fc) || (res_ParseStatus base != "ok") then []
      else result_signals (fc_Path fc) base
  | None => []
  end.

(** ** Validation *)

Definition path_mismatch (side : string) (fc : FileChange) (r : Result) : Diagnostic :=
  file_diagnostic (fc_Path fc) "invalid_file_change"
    (side +:+ " result path " +:+ dq +:+ res_Path r +:+ dq
     +:+ " does not match file change path " +:+ dq +:+ fc_Path fc +:+ dq).

(** go: pkg/codesignal/file_change.go#validateFileChange *)
Definition validateFileChange (fc : FileChange) : list Diagnostic :=
  match fc_Base fc with
  | Some base =>
      if (res_Path base != "") && (res_Path base != fc_Path fc)
      then [path_mismatch "base" fc base] else []
  | None => []
  end ++
  match fc_Head fc with
  | Some head =>
      if (res_Path head != "") && (res_Path head != fc_Path fc)
      then [path_mismatch "head" fc head] else []
  | None => []
  end.

(** go: pkg/codesignal/file_change.go#eligibleForLifecycleClassification *)
Definition eligibleForLifecycleClassification (fc : FileChange) : bool :=
  match fc_Head fc with
  | Some head => res_ParseStatus head == "ok"
  | None => fc_Status fc == "removed"
  end.

(** ** Changed ranges *)

Definition invalid_range_diagnostic (path : string) (r : LineRange) : Diagnostic :=
  file_diagnostic path "invalid_changed_range"
    ("changed range start_row " +:+ FormatUint (lr_StartRow r)
     +:+ " is greater than end_row " +:+ FormatUint (lr_EndRow r)).

(** go: pkg/codesignal/changed_ranges.go#validateChangedRanges *)
Definition validateChangedRanges (fc : FileChange) : list Diagnostic * list LineRange :=
  fold_left (λ '(diagnostics, valid) r,
    if (lr_EndRow r <? lr_StartRow r)%N
    then (diagnostics ++ [invalid_range_diagnostic (fc_Path fc) r], valid)
    else (diagnostics, valid ++ [r])) (fc_ChangedRanges fc) ([], []).

(** go: pkg/codesignal/changed_ranges.go#overlapsAny *)
Fixpoint overlapsAny (loc : Location) (ranges : list LineRange) : bool :=
  match ranges with
  | [] => false
  | r :: rest =>
      if (loc_StartRow loc <=? lr_EndRow r)%N && (lr_StartRow r <=? loc_EndRow loc)%N
      then true else overlapsAny loc rest
  end.

(** go: pkg/codesignal/changed_ranges.go#markChanged *)
Definition markChanged (signals : list Signal) (validRanges : list LineRange) : list Signal :=
  map (λ s, if sig_Lifecycle s == "resolved" then with_changed false s
            else with_changed (overlapsAny (sig_Location s) validRanges) s) signals.

(** ** Lifecycle *)

(** go: pkg/codesignal/lifecycle.go#lifecycleWithoutBase *)
Definition lifecycleWithoutBase (baseline : bool) : string :=
  if baseline then "baseline" else "unknown".

(** go: pkg/codesignal/lifecycle.go#noBaseLifecycleForFile *)
Definition noBaseLifecycleForFile (fc : FileChange) (noBaseLifecycle : string) : string :=
  if (fc_Status fc == "added") && (noBaseLifecycle != "baseline") then "introduced"
  else noBaseLifecycle.

(** The occurrence [i] of a group gets its fingerprint and ID. *)
Definition identify (i : nat) (s : Signal) : Signal :=
  with_identity
    (computeFingerprint (sig_RuleID s) (sig_Path s) (sig_Subject s) (sig_Evidence s) i)
    (computeSignalID (sig_RuleID s) (sig_Path s) (sig_Subject s) (sig_Evidence s)
       (loc_StartRow (sig_Location s)) (loc_StartCol (sig_Location s)) i) s.

(** The lifecycle of head occurrence [i] when the base has [nb] occurrences. *)
Definition head_lifecycle (hasBase : bool) (noBaseLifecycle : string) (nb i : nat) : string :=
  if negb hasBase then noBaseLifecycle
  else if (i <? nb)%nat then "existing"
  else if (nb =? 0)%nat then "introduced"
  else "unknown".

(** go: pkg/codesignal/lifecycle.go#appendResolvedBaseSignals *)
Definition appendResolvedBaseSignals (result baseGroup headGroup : list Signal) : list Signal :=
  let nh := length headGroup in
  result ++ concat (imap (λ i s,
    if (nh <=? i)%nat then [identify i (with_lifecycle "resolved" s)] else []) baseGroup).

(** go: pkg/codesignal/lifecycle.go#classifyFileSignals *)
Definition classifyFileSignals (hasBase : bool) (headSignals baseSignals : list Signal)
    (noBaseLifecycle : string) : list Signal :=
  let headGroups := groupAndOrder headSignals in
  let baseGroups := groupAndOrder baseSignals in
  let result :=
    flat_map (λ k,
      let headGroup := default [] (headGroups !! k) in
      let nb := length (default [] (baseGroups !! k)) in
      imap (λ i s, identify i (with_lifecycle (head_lifecycle hasBase noBaseLifecycle nb i) s))
        headGroup)
      (sortedKeys headGroups) in
  fold_left (λ result k,
      appendResolvedBaseSignals result (default [] (baseGroups !! k)) (default [] (headGroups !! k)))
    (sortedKeys baseGroups) result.

(** ** The file loop *)

(** One iteration: the diagnostics and signals the file adds. *)
Definition processFileChange (noBaseLifecycle : string) (fc : FileChange) :
    list Diagnostic * list Signal :=
  let '(fileDiagnostics, fileSignals) := processHeadResult fc in
  let '(rangeDiagnostics, validRanges) := validateChangedRanges fc in
  let diagnostics := validateFileChange fc ++ fileDiagnostics ++ rangeDiagnostics in
  if negb (eligibleForLifecycleClassification fc) then (diagnostics, [])
  else
    let classified :=
      classifyFileSignals (baseUsableForLifecycle fc) fileSignals (extractBaseSignals fc)
        (noBaseLifecycleForFile fc noBaseLifecycle) in
    (diagnostics, markChanged (map (with_source_scope (fc_SourceScope fc)) classified) validRanges).

(** go: pkg/codesignal/file_change.go#processFileChanges *)
Definition processFileChanges (files : list FileChange) (seed : list Diagnostic)
    (noBaseLifecycle : string) : list Diagnostic * list Signal :=
  fold_left (λ '(diagnostics, signals) fc,
    let '(d, s) := processFileChange noBaseLifecycle fc in (diagnostics ++ d, signals ++ s))
    files (seed, []).

(** ** Lemmas *)

(** What one key contributes: its head occurrences, then its leftover base
    occurrences. *)
Definition head_out (hasBase : bool) (nl : string) (nb : nat) (group : list Signal) : list Signal :=
  imap (λ i s, identify i (with_lifecycle (head_lifecycle hasBase nl nb i) s)) group.

Definition resolved_out (nh : nat) (group : list Signal) : list Signal :=
  concat (imap (λ i s,
    if (nh <=? i)%nat then [identify i (with_lifecycle "resolved" s)] else []) group).

Definition group_of (signals : list Signal) (k : signalKey) : list Signal :=
  default [] (groupAndOrder signals !! k).

Lemma classifyFileSignals_parts hb H B nl :
  classifyFileSignals hb H B nl =
  flat_map (λ k, head_out hb nl (length (group_of B k)) (group_of H k))
    (sortedKeys (groupAndOrder H))
  ++ flat_map (λ k, resolved_out (length (group_of H k)) (group_of B k))
    (sortedKeys (groupAndOrder B)).
Proof.
  assert (∀ ks acc, fold_left (λ result k, appendResolvedBaseSignals result
      (group_of B k) (group_of H k)) ks acc
    = acc ++ flat_map (λ k, resolved_out (length (group_of H k)) (group_of B k)) ks) as E.
  { induction ks as [|k ks IH]; intros acc; simpl; [by rewrite app_nil_r|].
    rewrite IH. unfold appendResolvedBaseSignals, resolved_out. by rewrite <- app_assoc. }
  apply E.
Qed.

Lemma keyOf_identify i l s : keyOf (identify i (with_lifecycle l s)) = keyOf s.
Proof. done. Qed.

Lemma in_group s signals k : In s (group_of signals k) ↔ In s signals ∧ keyOf s = k.
Proof.
  unfold group_of. rewrite groupAndOrder_default, stable_sort_In, filter_In.
  by rewrite bool_decide_eq_true.
Qed.

Lemma in_imap {A B} (f : nat → A → B) l y :
  In y (imap f l) ↔ ∃ i x, l !! i = Some x ∧ y = f i x.
Proof.
  rewrite <- list_elem_of_In, list_elem_of_lookup. setoid_rewrite list_lookup_imap_Some.
  split; [intros (i & x & ? & ?)|intros (i & x & ? & ?)]; eauto.
Qed.

Lemma lookup_In {A} (l : list A) i x : l !! i = Some x → In x l.
Proof. intros H. apply list_elem_of_In. by eapply list_elem_of_lookup_2. Qed.

Lemma in_head_out hb nl nb g y :
  In y (head_out hb nl nb g) ↔
  ∃ i s, g !! i = Some s ∧ y = identify i (with_lifecycle (head_lifecycle hb nl nb i) s).
Proof. apply in_imap. Qed.

Lemma in_resolved_out nh g y :
  In y (resolved_out nh g) ↔
  ∃ i s, g !! i = Some s ∧ nh ≤ i ∧ y = identify i (with_lifecycle "resolved" s).
Proof.
  unfold resolved_out. rewrite in_concat. setoid_rewrite in_imap. split.
  - intros (l & (i & s & Hs & ->) & Hy). destruct (Nat.leb_spec nh i); [|done].
    destruct Hy as [<-|[]]. eauto.
  - intros (i & s & Hs & Hi & ->).
    exists [identify i (with_lifecycle "resolved" s)]. split; [|by left].
    exists i, s. apply Nat.leb_le in Hi. by rewrite Hi.
Qed.

Lemma head_out_key hb nl nb signals k y :
  In y (head_out hb nl nb (group_of signals k)) → keyOf y = k.
Proof.
  rewrite in_head_out. intros (i & s & Hs & ->). rewrite keyOf_identify.
  apply lookup_In, in_group in Hs. tauto.
Qed.

Lemma resolved_out_key nh signals k y :
  In y (resolved_out nh (group_of signals k)) → keyOf y = k.
Proof.
  rewrite in_resolved_out. intros (i & s & Hs & _ & ->). rewrite keyOf_identify.
  apply lookup_In, in_group in Hs. tauto.
Qed.

(** Selecting a key from a concatenation over distinct keys. *)
Lemma filter_flat_map_key (g : signalKey → list Signal) ks k :
  NoDup ks → (∀ k' s, In s (g k') → keyOf s = k') →
  List.filter (λ s, bool_decide (keyOf s = k)) (flat_map g ks)
  = if bool_decide (k ∈ ks) then g k else [].
Proof.
  intros Hnd Hg. induction Hnd as [|k' ks Hk Hnd IH]; simpl; [done|].
  rewrite List.filter_app, IH. destruct (decide (k' = k)) as [->|Hne].
  - rewrite (bool_decide_false (k ∈ ks)), bool_decide_true by set_solver.
    rewrite app_nil_r. apply filter_id. intros s Hs. by apply bool_decide_eq_true, Hg.
  - rewrite filter_nil.
    + simpl. by rewrite (bool_decide_ext (k ∈ k' :: ks) (k ∈ ks)) by set_solver.
    + intros s Hs. apply bool_decide_eq_false. apply Hg in Hs. by subst.
Qed.

Lemma group_of_absent signals k :
  k ∉ sortedKeys (groupAndOrder signals) → group_of signals k = [].
Proof.
  intros Hk. unfold group_of. rewrite list_elem_of_In, sortedKeys_elem in Hk.
  destruct (groupAndOrder signals !! k) eqn:E; [|done]. destruct Hk. by eexists.
Qed.

(** The output restricted to one key. *)
Lemma classify_at_key hb H B nl k :
  List.filter (λ s, bool_decide (keyOf s = k)) (classifyFileSignals hb H B nl)
  = head_out hb nl (length (group_of B k)) (group_of H k)
    ++ resolved_out (length (group_of H k)) (group_of B k).
Proof.
  rewrite classifyFileSignals_parts, List.filter_app.
  rewrite !filter_flat_map_key;
    eauto using sortedKeys_NoDup, head_out_key, resolved_out_key.
  f_equal; case_bool_decide as Hk; try done; by rewrite (group_of_absent _ _ Hk).
Qed.

Lemma filter_imap_count {A B} (p : B → bool) (q : nat → bool) (f : nat → A → B) l :
  (∀ i x, p (f i x) = q i) →
  length (List.filter p (imap f l)) = length (List.filter q (seq 0 (length l))).
Proof.
  assert (∀ n f, (∀ i x, p (f i x) = q (n + i)%nat) →
    length (List.filter p (imap f l)) = length (List.filter q (seq n (length l)))) as Hgen.
  { induction l as [|x l IH]; intros n g Hg; simpl; [done|].
    rewrite (Hg 0 x), Nat.add_0_r.
    pose proof (IH (S n) (g ∘ S)) as IH'. simpl in IH'.
    destruct (q n); simpl; rewrite IH'; try done; intros i y; simpl; rewrite Hg; f_equal; lia. }
  intros Hf. by apply (Hgen 0 f).
Qed.

Lemma filter_concat_imap_count {A B} (p : B → bool) (q : nat → bool) (f : nat → A → B) l :
  (∀ i x, p (f i x) = true) →
  length (List.filter p (concat (imap (λ i x, if q i then [f i x] else []) l)))
  = length (List.filter q (seq 0 (length l))).
Proof.
  assert (∀ n g, (∀ i x, p (g i x) = true) →
    length (List.filter p (concat (imap (λ i x, if q (n + i)%nat then [g i x] else []) l)))
    = length (List.filter q (seq n (length l)))) as Hgen.
  { induction l as [|x l IH]; intros n g Hg; simpl; [done|].
    rewrite List.filter_app, length_app, Nat.add_0_r.
    specialize (IH (S n) (λ i, g (S i)) (λ i, Hg (S i))).
    assert (imap ((λ i x, if q (n + i)%nat then [g i x] else []) ∘ S) l
      = imap (λ i x, if q (S n + i)%nat then [g (S i) x] else []) l) as ->.
    { apply imap_ext. intros i y _. unfold compose. by rewrite Nat.add_succ_r. }
    rewrite IH. destruct (q n); simpl; [by rewrite Hg|done]. }
  apply (Hgen 0 f).
Qed.

Lemma count_leb nh b : length (List.filter (λ i, (nh <=? i)%nat) (seq 0 b)) = b - nh.
Proof.
  induction b as [|b IH]; [done|]. rewrite seq_S, List.filter_app, length_app, IH, Nat.add_0_l.
  cbn [List.filter]. destruct (Nat.leb_spec nh b); cbn [length]; lia.
Qed.

Lemma count_split (p q : bool) b h :
  length (List.filter (λ i, if (i <? b)%nat then p else q) (seq 0 h))
  = (if p then min h b else 0) + (if q then h - b else 0).
Proof.
  induction h as [|h IH]; [by destruct p, q|].
  rewrite seq_S, List.filter_app, length_app, IH, Nat.add_0_l.
  cbn [List.filter]. destruct (Nat.ltb_spec h b), p, q; cbn [length]; lia.
Qed.

Lemma count_head_lifecycle nl b h l :
  length (List.filter (λ i, head_lifecycle true nl b i == l) (seq 0 h))
  = (if "existing" == l then min h b else 0)
    + (if (if (b =? 0)%nat then "introduced" else "unknown") == l then h - b else 0).
Proof.
  rewrite <- count_split. f_equal. apply filter_ext_In. intros i _. unfold head_lifecycle.
  by destruct (i <? b)%nat, (b =? 0)%nat.
Qed.

Lemma group_of_length signals k :
  length (group_of signals k)
  = length (List.filter (λ s, bool_decide (keyOf s = k)) signals).
Proof. unfold group_of. by rewrite groupAndOrder_default, stable_sort_length. Qed.

Lemma resolved_out_length nh g : length (resolved_out nh g) = length g - nh.
Proof.
  unfold resolved_out. pose proof (filter_concat_imap_count (λ _, true) (λ i, nh <=? i)%nat
    (λ i s, identify i (with_lifecycle "resolved" s)) g (λ _ _, eq_refl)) as H.
  rewrite filter_id, count_leb in H by done. done.
Qed.

(** The number of signals of key [k] with lifecycle [l]. *)
Definition count_at (k : signalKey) (l : string) (out : list Signal) : nat :=
  length (List.filter (λ s, bool_decide (keyOf s = k) && (sig_Lifecycle s == l)) out).

Definition occurrences (k : signalKey) (signals : list Signal) : nat :=
  length (List.filter (λ s, bool_decide (keyOf s = k)) signals).

Lemma count_at_classify hb H B nl k l :
  count_at k l (classifyFileSignals hb H B nl)
  = length (List.filter (λ i, head_lifecycle hb nl (occurrences k B) i == l)
      (seq 0 (occurrences k H)))
    + (if l == "resolved" then occurrences k B - occurrences k H else 0).
Proof.
  unfold count_at, occurrences.
  rewrite filter_andb, classify_at_key, List.filter_app, length_app, <- !group_of_length.
  f_equal.
  - by apply filter_imap_count.
  - destruct (String.eqb_spec l "resolved") as [->|Hne].
    + unfold resolved_out. rewrite (filter_concat_imap_count _
        (λ i, length (group_of H k) <=? i)%nat (λ i s, identify i (with_lifecycle "resolved" s)));
        [apply count_leb|done].
    + rewrite filter_nil; [done|]. intros y Hy. apply in_resolved_out in Hy as (i & s & _ & _ & ->).
      apply String.eqb_neq. simpl. congruence.
Qed.

(** What identity and lifecycle leave untouched. *)
Definition erase (s : Signal) : Signal := with_identity "" "" (with_lifecycle "" s).

Lemma erase_identify i l s : erase (identify i (with_lifecycle l s)) = erase s.
Proof. done. Qed.

(** [s] carries the identity of occurrence [i] of its key. *)
Definition identified (i : nat) (s : Signal) : Prop :=
  sig_Fingerprint s
    = computeFingerprint (sig_RuleID s) (sig_Path s) (sig_Subject s) (sig_Evidence s) i
  ∧ sig_ID s
    = computeSignalID (sig_RuleID s) (sig_Path s) (sig_Subject s) (sig_Evidence s)
        (loc_StartRow (sig_Location s)) (loc_StartCol (sig_Location s)) i.

Lemma map_imap_same {A B} (g : A → B) (f : nat → A → A) l :
  (∀ i x, g (f i x) = g x) → map g (imap f l) = map g l.
Proof.
  revert f. induction l as [|x l IH]; intros f Hf; simpl; [done|].
  rewrite Hf, IH; [done|]. intros i y. apply Hf.
Qed.

(** The head part and the resolved part of a classification. *)
Definition head_part (hb : bool) (H B : list Signal) (nl : string) : list Signal :=
  flat_map (λ k, head_out hb nl (length (group_of B k)) (group_of H k))
    (sortedKeys (groupAndOrder H)).
Definition resolved_part (H B : list Signal) : list Signal :=
  flat_map (λ k, resolved_out (length (group_of H k)) (group_of B k))
    (sortedKeys (groupAndOrder B)).

Lemma head_part_erase hb H B nl : map erase (head_part hb H B nl) ≡ₚ map erase H.
Proof.
  rewrite <- (groups_partition H) at 2. unfold head_part. fold (group_of H).
  generalize (sortedKeys (groupAndOrder H)) as ks. intros ks.
  induction ks as [|k ks IH]; simpl; [done|]. rewrite !map_app, IH.
  unfold head_out. by rewrite map_imap_same.
Qed.

Lemma in_head_part hb H B nl y :
  In y (head_part hb H B nl) →
  ∃ i s, group_of H (keyOf y) !! i = Some s ∧
    y = identify i (with_lifecycle
          (head_lifecycle hb nl (length (group_of B (keyOf y))) i) s).
Proof.
  unfold head_part. rewrite in_flat_map. intros (k & _ & Hy).
  pose proof (head_out_key _ _ _ _ _ _ Hy) as Hk.
  apply in_head_out in Hy as (i & s & Hs & Hy). exists i, s. by rewrite Hk.
Qed.

Lemma in_resolved_part H B y :
  In y (resolved_part H B) →
  ∃ i s, group_of B (keyOf y) !! i = Some s ∧ length (group_of H (keyOf y)) ≤ i
    ∧ y = identify i (with_lifecycle "resolved" s).
Proof.
  unfold resolved_part. rewrite in_flat_map. intros (k & _ & Hy).
  pose proof (resolved_out_key _ _ _ _ Hy) as Hk.
  apply in_resolved_out in Hy as (i & s & Hs & Hi & Hy). exists i, s. by rewrite Hk.
Qed.

(** *** Occurrence ordinals *)

Lemma identified_Forall2 f g :
  Forall2 identified (seq 0 (length g)) (imap (λ i s, identify i (with_lifecycle (f i) s)) g).
Proof.
  apply Forall2_same_length_lookup_2; [by rewrite length_seq, length_imap|].
  intros i n y [-> _]%lookup_seq Hy%list_lookup_imap_Some.
  by destruct Hy as (s & _ & ->).
Qed.

Lemma identified_resolved nh g :
  Forall2 identified (List.filter (λ i, (nh <=? i)%nat) (seq 0 (length g))) (resolved_out nh g).
Proof.
  assert (∀ n, Forall2 identified (List.filter (λ i, (nh <=? i)%nat) (seq n (length g)))
    (concat (imap (λ i s, if (nh <=? n + i)%nat
       then [identify (n + i) (with_lifecycle "resolved" s)] else []) g))) as Hgen; [|apply (Hgen 0)].
  induction g as [|s g IH]; intros n; simpl; [constructor|]. rewrite Nat.add_0_r.
  specialize (IH (S n)).
  assert (imap ((λ i s, if (nh <=? n + i)%nat
       then [identify (n + i) (with_lifecycle "resolved" s)] else []) ∘ S) g
    = imap (λ i s, if (nh <=? S n + i)%nat
       then [identify (S n + i) (with_lifecycle "resolved" s)] else []) g) as ->.
  { apply imap_ext. intros i y _. unfold compose. by rewrite Nat.add_succ_r. }
  destruct (nh <=? n)%nat; simpl; [by constructor|done].
Qed.

(** An enumeration by key and ordinal, built one key at a time. *)
Lemma enumerate_keys (g : signalKey → list Signal) (os : signalKey → list nat) ks :
  (∀ k, Forall2 identified (os k) (g k)) → (∀ k y, In y (g k) → keyOf y = k) →
  Forall2 identified (flat_map os ks) (flat_map g ks)
  ∧ zip (map keyOf (flat_map g ks)) (flat_map os ks) = flat_map (λ k, map (pair k) (os k)) ks.
Proof.
  intros Hid Hk. induction ks as [|k ks [IH1 IH2]]; simpl; [split; [constructor|done]|].
  split; [by apply Forall2_app|].
  rewrite map_app, zip_with_app, IH2 by (rewrite length_map; symmetry; eapply Forall2_length, Hid).
  f_equal. specialize (Hid k). specialize (Hk k).
  induction Hid as [|o y os' g' ? ? IH]; simpl; [done|].
  rewrite (Hk y) by (by left). f_equal. apply IH. intros. apply Hk. by right.
Qed.

Lemma in_pairs {A} (os : A → list nat) ks k o :
  In (k, o) (flat_map (λ k, map (pair k) (os k)) ks) ↔ In k ks ∧ In o (os k).
Proof.
  rewrite in_flat_map. setoid_rewrite in_map_iff. split.
  - by intros (k' & Hk & o' & [= -> ->] & Ho).
  - intros [Hk Ho]. exists k. eauto.
Qed.

Lemma pairs_NoDup {A} (os : A → list nat) ks :
  NoDup ks → (∀ k, NoDup (os k)) → NoDup (flat_map (λ k, map (pair k) (os k)) ks).
Proof.
  intros Hks Hos. induction Hks as [|k ks Hk _ IH]; simpl; [constructor|].
  apply list.NoDup_app. split; [|split; [|done]].
  - apply NoDup_fmap_2; [by intros ? ? [=]|apply Hos].
  - intros [k' o] Hin Hin'. rewrite list_elem_of_In in Hin. apply in_map_iff in Hin as (? & [= <- <-] & _).
    apply list_elem_of_In, in_pairs in Hin' as [? _]. apply Hk. by apply list_elem_of_In.
Qed.

Lemma ordinals_enumerate hb H B nl :
  ∃ os, Forall2 identified os (classifyFileSignals hb H B nl)
        ∧ NoDup (zip (map keyOf (classifyFileSignals hb H B nl)) os).
Proof.
  set (oh k := seq 0 (length (group_of H k))).
  set (ob k := List.filter (λ i, (length (group_of H k) <=? i)%nat) (seq 0 (length (group_of B k)))).
  destruct (enumerate_keys (λ k, head_out hb nl (length (group_of B k)) (group_of H k)) oh
    (sortedKeys (groupAndOrder H))) as [Hh1 Hh2];
    [intros k; apply identified_Forall2|intros k y; apply head_out_key|].
  destruct (enumerate_keys (λ k, resolved_out (length (group_of H k)) (group_of B k)) ob
    (sortedKeys (groupAndOrder B))) as [Hb1 Hb2];
    [intros k; apply identified_resolved|intros k y; apply resolved_out_key|].
  exists (flat_map oh (sortedKeys (groupAndOrder H)) ++ flat_map ob (sortedKeys (groupAndOrder B))).
  rewrite classifyFileSignals_parts. split; [by apply Forall2_app|].
  rewrite map_app, zip_with_app, Hh2, Hb2
    by (rewrite length_map; symmetry; by eapply Forall2_length).
  apply list.NoDup_app. split; [|split].
  - apply pairs_NoDup; [apply sortedKeys_NoDup|]. intros k. apply NoDup_seq.
  - intros [k o] Hin Hin'. apply list_elem_of_In, in_pairs in Hin as [_ Hin].
    apply list_elem_of_In, in_pairs in Hin' as [_ Hin']. apply in_seq in Hin.
    apply filter_In in Hin' as [_ Hin']. apply Nat.leb_le in Hin'. lia.
  - apply pairs_NoDup; [apply sortedKeys_NoDup|]. intros k.
    apply NoDup_ListNoDup, List.NoDup_filter, NoDup_ListNoDup, NoDup_seq.
Qed.

Lemma nl_not_resolved fc baseline :
  noBaseLifecycleForFile fc (lifecycleWithoutBase baseline) ≠ "resolved".
Proof.
  unfold noBaseLifecycleForFile, lifecycleWithoutBase.
  by destruct baseline, (fc_Status fc == "added").
Qed.

Lemma head_lifecycle_not_resolved hb nl nb i :
  nl ≠ "resolved" → head_lifecycle hb nl nb i ≠ "resolved".
Proof. intros. unfold head_lifecycle. by repeat case_match. Qed.

Lemma in_classify hb H B nl y :
  In y (classifyFileSignals hb H B nl) ↔ In y (head_part hb H B nl) ∨ In y (resolved_part H B).
Proof. rewrite classifyFileSignals_parts. apply in_app_iff. Qed.

Lemma head_part_lifecycle hb H B nl y :
  nl ≠ "resolved" → In y (head_part hb H B nl) → sig_Lifecycle y ≠ "resolved".
Proof.
  intros Hnl Hy. apply in_head_part in Hy as (i & s & _ & ->).
  simpl. by apply head_lifecycle_not_resolved.
Qed.

Lemma resolved_part_lifecycle H B y : In y (resolved_part H B) → sig_Lifecycle y = "resolved".
Proof. intros Hy. by apply in_resolved_part in Hy as (i & s & _ & _ & ->). Qed.

(** With an empty base nothing is resolved. *)
Lemma resolved_part_nil H : resolved_part H [] = [].
Proof. reflexivity. Qed.

Lemma group_of_key signals s : In s signals → In s (group_of signals (keyOf s)).
Proof. intros. by apply in_group. Qed.

(** The signals a file contributes, before and after the two final passes. *)
Definition file_classified (noBaseLifecycle : string) (fc : FileChange) : list Signal :=
  classifyFileSignals (baseUsableForLifecycle fc) (snd (processHeadResult fc))
    (extractBaseSignals fc) (noBaseLifecycleForFile fc noBaseLifecycle).

Lemma file_signals_eq nl fc :
  snd (processFileChange nl fc) =
  if eligibleForLifecycleClassification fc
  then markChanged (map (with_source_scope (fc_SourceScope fc)) (file_classified nl fc))
         (snd (validateChangedRanges fc))
  else [].
Proof.
  unfold processFileChange, file_classified.
  destruct (processHeadResult fc) as [d s], (validateChangedRanges fc) as [rd v].
  by destruct (eligibleForLifecycleClassification fc).
Qed.

(** A signal of the file comes from a classified one; only the scope and the
    changed mark differ. *)
Lemma in_file_signals nl fc y :
  In y (snd (processFileChange nl fc)) →
  eligibleForLifecycleClassification fc = true ∧
  ∃ s, In s (file_classified nl fc) ∧ sig_Lifecycle y = sig_Lifecycle s
    ∧ sig_Location y = sig_Location s ∧ sig_SourceScope y = fc_SourceScope fc
    ∧ sig_Changed y = negb (sig_Lifecycle s == "resolved")
                      && overlapsAny (sig_Location s) (snd (validateChangedRanges fc)).
Proof.
  rewrite file_signals_eq. destruct (eligibleForLifecycleClassification fc); [|done].
  unfold markChanged. rewrite map_map, in_map_iff. intros (s & <- & Hs). split; [done|].
  exists s. split; [done|]. change (sig_Lifecycle (with_source_scope _ s)) with (sig_Lifecycle s).
  by destruct (sig_Lifecycle s == "resolved").
Qed.

Lemma file_signals_lifecycles nl fc :
  map sig_Lifecycle (snd (processFileChange nl fc)) =
  if eligibleForLifecycleClassification fc
  then map sig_Lifecycle (file_classified nl fc) else [].
Proof.
  rewrite file_signals_eq. case_match; [|done]. unfold markChanged. rewrite !map_map.
  apply map_ext. intros s. by destruct (_ == "resolved").
Qed.

Lemma overlapsAny_spec loc ranges :
  overlapsAny loc ranges = true ↔
  ∃ r, In r ranges ∧ (loc_StartRow loc <= lr_EndRow r)%N ∧ (lr_StartRow r <= loc_EndRow loc)%N.
Proof.
  induction ranges as [|r ranges IH]; simpl; [naive_solver|].
  destruct ((loc_StartRow loc <=? lr_EndRow r)%N && (lr_StartRow r <=? loc_EndRow loc)%N) eqn:E.
  - breflect. split; [|done]. intros _. exists r. auto.
  - rewrite IH. split; [naive_solver|]. intros (r' & [<-|Hr] & H1 & H2); [|eauto].
    apply N.leb_le in H1, H2. by rewrite H1, H2 in E.
Qed.

Lemma validateChangedRanges_valid fc :
  snd (validateChangedRanges fc)
  = List.filter (λ r, (lr_StartRow r <=? lr_EndRow r)%N) (fc_ChangedRanges fc).
Proof.
  unfold validateChangedRanges.
  enough (∀ rs d v, snd (fold_left (λ '(diagnostics, valid) r,
      if (lr_EndRow r <? lr_StartRow r)%N
      then (diagnostics ++ [invalid_range_diagnostic (fc_Path fc) r], valid)
      else (diagnostics, valid ++ [r])) rs (d, v))
    = v ++ List.filter (λ r, (lr_StartRow r <=? lr_EndRow r)%N) rs) as H by apply H.
  induction rs as [|r rs IH]; intros d v; simpl; [by rewrite app_nil_r|].
  rewrite N.ltb_antisym. destruct (lr_StartRow r <=? lr_EndRow r)%N; simpl; rewrite IH; [|done].
  by rewrite <- app_assoc.
Qed.

Lemma extractBaseSignals_unusable fc :
  baseUsableForLifecycle fc = false → extractBaseSignals fc = [].
Proof. unfold extractBaseSignals. intros ->. by destruct (fc_Base fc). Qed.

Lemma processFileChanges_app files seed nl acc :
  fold_left (λ '(diagnostics, signals) fc,
    let '(d, s) := processFileChange nl fc in (diagnostics ++ d, signals ++ s)) files (seed, acc)
  = (seed ++ flat_map (λ fc, fst (processFileChange nl fc)) files,
     acc ++ flat_map (λ fc, snd (processFileChange nl fc)) files).
Proof.
  revert seed acc. induction files as [|fc files IH]; intros; simpl; [by rewrite !app_nil_r|].
  destruct (processFileChange nl fc) as [d s] eqn:E. simpl.
  by rewrite IH, <- !app_assoc.
Qed.

(** The same signals on both sides pair off completely. *)
Lemma classify_same S nl :
  Forall (λ s, sig_Lifecycle s = "existing") (classifyFileSignals true S S nl).
Proof.
  apply List.Forall_forall. intros s [Hs|Hs]%in_classify.
  - apply in_head_part in Hs as (i & x & Hx & E). apply (f_equal sig_Lifecycle) in E.
    simpl in E. rewrite E. unfold head_lifecycle. apply lookup_lt_Some, Nat.ltb_lt in Hx.
    by rewrite Hx.
  - apply in_resolved_part in Hs as (i & x & Hx & Hi & _). apply lookup_lt_Some in Hx. lia.
Qed.

Lemma classify_length hb H B nl :
  length (classifyFileSignals hb H B nl) = length H + length (resolved_part H B).
Proof.
  rewrite classifyFileSignals_parts, length_app.
  f_equal. change (flat_map _ _) with (head_part hb H B nl).
  rewrite <- (length_map erase), head_part_erase. apply length_map.
Qed.

Lemma resolved_part_same H : resolved_part H H = [].
Proof.
  destruct (resolved_part H H) as [|s l] eqn:E; [done|].
  assert (In s (resolved_part H H)) as Hs by (rewrite E; by left).
  apply in_resolved_part in Hs as (i & x & Hx & Hi & _). apply lookup_lt_Some in Hx. lia.
Qed.

(** Against an empty head every base signal is left over. *)
Lemma resolved_part_all B : map erase (resolved_part [] B) ≡ₚ map erase B.
Proof.
  rewrite <- (groups_partition B) at 2. unfold resolved_part. fold (group_of B).
  generalize (sortedKeys (groupAndOrder B)) as ks. intros ks.
  induction ks as [|k ks IH]; simpl; [done|]. rewrite !map_app, IH.
  apply Permutation_app_tail. change (length (group_of [] k)) with 0. unfold resolved_out.
  generalize (group_of B k) as g. intros g. simpl.
  assert (∀ n, map erase (concat (imap (λ i s, [identify (n + i) (with_lifecycle "resolved" s)]) g))
    = map erase g) as E; [|apply reflexive_eq, (E 0)].
  induction g as [|s g IHg]; intros n; simpl; [done|]. f_equal.
  rewrite <- (IHg (S n)). do 2 f_equal. apply imap_ext. intros i x _. unfold compose.
  by rewrite Nat.add_succ_r.
Qed.

(** What every signal of a file looks like before it is classified. *)
Definition rule_shaped (path : string) (s : Signal) : Prop :=
  sig_Path s = path ∧ sig_Lifecycle s = "" ∧ sig_Changed s = false
  ∧ In (sig_Severity s) ["low"; "medium"; "high"]
  ∧ In (sig_Confidence s) ["low"; "medium"; "high"]
  ∧ (sig_Severity s = "high" →
     In (sig_RuleID s) ["complexity.cognitive_complexity"; "complexity.max_nesting_depth"])
  ∧ (In (sig_Category s) ["security"; "state_management"] → sig_Severity s = "medium").

Lemma known_confidence_In c : In (known_confidence c) ["low"; "medium"; "high"].
Proof.
  unfold known_confidence. destruct (_ || _) eqn:E; [|simpl; auto].
  rewrite !orb_true_iff, !String.eqb_eq in E. simpl. intuition.
Qed.

Lemma metric_severity_cases r metric :
  metric_severity r metric = "medium" ∨ metric_severity r metric = "high".
Proof. unfold metric_severity. case_match; auto. Qed.

Lemma finding_signal_shaped path counts f s :
  In s (finding_signal path counts f) → rule_shaped path s.
Proof.
  unfold finding_signal. destruct (ruleRegistry (fnd_Kind f)) as [new|] eqn:E; [|done].
  destruct (_ && _); [done|]. intros [<-|[]]. unfold ruleRegistry in E.
  pose proof (known_confidence_In (fnd_Confidence f)).
  repeat match type of E with
  | (if ?a == ?b then _ else _) = _ =>
      destruct (String.eqb_spec a b); [injection E as <-|]
  end; try done; unfold rule_shaped; simpl; intuition congruence.
Qed.

Lemma result_signals_shaped path r s : In s (result_signals path r) → rule_shaped path s.
Proof.
  unfold result_signals. rewrite !in_app_iff.
  intros [H|[H|[H|[H|H]]]].
  - apply in_flat_map in H as (f & _ & H). by eapply finding_signal_shaped.
  - rewrite signalsFromMetrics_eq, in_app_iff in H.
    unfold newMaxNestingDepthSignal, newBranchDensitySignal in H.
    destruct H as [H|H].
    + destruct (reaches maxNestingDepthRule _); [|done]. destruct H as [<-|[]].
      unfold rule_shaped. cbn -[In metric_severity].
      destruct (metric_severity_cases maxNestingDepthRule (met_MaxNestingDepth (res_Metrics r)))
        as [-> | ->]; simpl; intuition congruence.
    + destruct (reaches branchDensityRule _); [|done]. destruct H as [<-|[]].
      unfold rule_shaped, metric_severity. simpl. intuition congruence.
  - unfold signalsFromImports in H. destruct (_ && _); [done|].
    apply in_flat_map in H as (imp & _ & H). destruct (deepRelativeImportDepth _) as [d rel].
    destruct (_ || _); [done|]. destruct H as [<-|[]].
    unfold rule_shaped; simpl; intuition congruence.
  - rewrite signalsFromCognitiveComplexity_map in H. apply in_map_iff in H as (rec & <- & _).
    unfold rule_shaped. cbn -[In metric_severity].
    destruct (metric_severity_cases cognitiveComplexityRule (fcc_Score rec)) as [-> | ->];
      simpl; intuition congruence.
  - apply in_flat_map in H as (rec & _ & H). destruct (_ || _); [done|]. destruct H as [<-|[]].
    unfold rule_shaped; simpl; intuition congruence.
Qed.

(** ** Properties *)

(** With a usable base, the lifecycles of one signal key are determined by
    how often it occurs on each side.  Head occurrences pair off with base
    occurrences as existing; surplus head occurrences are introduced when the base
    has none and unknown otherwise; surplus base occurrences are resolved. *)
Theorem lifecycle_counts head base noBaseLifecycle k :
  let h := occurrences k head in
  let b := occurrences k base in
  let out := classifyFileSignals true head base noBaseLifecycle in
  count_at k "existing" out = min h b
  ∧ count_at k "introduced" out = (if (b =? 0)%nat then h else 0)
  ∧ count_at k "unknown" out = (if (b =? 0)%nat then 0 else h - b)
  ∧ count_at k "resolved" out = b - h
  ∧ occurrences k out = max h b.
Proof.
  simpl. rewrite !count_at_classify.
  repeat split;
    try (rewrite count_head_lifecycle; destruct (Nat.eqb_spec (occurrences k base) 0); simpl; lia).
  unfold occurrences. rewrite classify_at_key, length_app, <- !group_of_length.
  unfold head_out. rewrite length_imap, resolved_out_length. lia.
Qed.

(** Classification invents and loses nothing.  The signals that are not
    resolved are the head signals up to identity and lifecycle, and every resolved
    one is a base signal; nothing is resolved when the base cannot be used. *)
Theorem classification_preserves_content fc baseline :
  let nl := lifecycleWithoutBase baseline in
  let out := file_classified nl fc in
  map erase (List.filter (λ s, sig_Lifecycle s != "resolved") out)
    ≡ₚ map erase (snd (processHeadResult fc))
  ∧ (∀ s, In s out → sig_Lifecycle s = "resolved" →
       baseUsableForLifecycle fc = true
       ∧ ∃ b, In b (extractBaseSignals fc) ∧ erase b = erase s).
Proof.
  simpl. set (H := snd (processHeadResult fc)). set (B := extractBaseSignals fc).
  pose proof (nl_not_resolved fc baseline) as Hnl.
  unfold file_classified. fold H B. split.
  - rewrite classifyFileSignals_parts, List.filter_app.
    fold (head_part (baseUsableForLifecycle fc) H B
      (noBaseLifecycleForFile fc (lifecycleWithoutBase baseline))) (resolved_part H B).
    rewrite filter_id, filter_nil, app_nil_r; [apply head_part_erase|..].
    + intros s Hs. by rewrite (resolved_part_lifecycle _ _ _ Hs).
    + intros s Hs. apply negb_true_iff, String.eqb_neq. eauto using head_part_lifecycle.
  - intros s [Hs|Hs]%in_classify Hl; [by apply head_part_lifecycle in Hs|].
    apply in_resolved_part in Hs as (i & b & Hb & _ & ->). apply lookup_In, in_group in Hb as [Hb _].
    split; [|by exists b].
    destruct (baseUsableForLifecycle fc) eqn:E; [done|].
    unfold B in Hb. by rewrite extractBaseSignals_unusable in Hb.
Qed.

(** Each signal of a classification carries the fingerprint and ID of an
    occurrence ordinal, and no two signals share both key and ordinal. *)
Theorem classification_identities hasBase head base noBaseLifecycle :
  let out := classifyFileSignals hasBase head base noBaseLifecycle in
  ∃ ordinals : list nat,
    Forall2 (λ i s,
      sig_Fingerprint s
        = computeFingerprint (sig_RuleID s) (sig_Path s) (sig_Subject s) (sig_Evidence s) i
      ∧ sig_ID s
        = computeSignalID (sig_RuleID s) (sig_Path s) (sig_Subject s) (sig_Evidence s)
            (loc_StartRow (sig_Location s)) (loc_StartCol (sig_Location s)) i) ordinals out
    ∧ NoDup (zip (map keyOf out) ordinals).
Proof. apply ordinals_enumerate. Qed.

(** A file without a usable base gets one lifecycle for all its signals:
    baseline in a baseline run, otherwise introduced when the file was added and
    unknown when it was not. *)
Theorem no_base_lifecycle fc (baseline : bool) :
  baseUsableForLifecycle fc = false →
  Forall (λ s, sig_Lifecycle s =
      (if baseline then "baseline"
      else if fc_Status fc == "added" then "introduced" else "unknown"))
    (snd (processFileChange (lifecycleWithoutBase baseline) fc)).
Proof.
  intros Hb. apply List.Forall_forall. intros s Hs.
  apply in_file_signals in Hs as (_ & x & Hx & -> & _).
  unfold file_classified in Hx. rewrite (extractBaseSignals_unusable _ Hb), Hb in Hx.
  apply in_classify in Hx as [Hx|[]]. apply in_head_part in Hx as (i & y & _ & ->). simpl.
  unfold noBaseLifecycleForFile, lifecycleWithoutBase.
  by destruct baseline, (fc_Status fc == "added").
Qed.

(** A file analysed to the same result on both sides has exactly the
    signals of that result, all of them existing. *)
Theorem unchanged_file_existing noBaseLifecycle fc r :
  fc_Base fc = Some r → fc_Head fc = Some r →
  (res_Path r = "" ∨ res_Path r = fc_Path fc) → res_ParseStatus r = "ok" →
  let signals := snd (processFileChange noBaseLifecycle fc) in
  Forall (λ s, sig_Lifecycle s = "existing") signals
  ∧ length signals = length (result_signals (fc_Path fc) r).
Proof.
  intros Hb Hh Hp Hok.
  assert (baseUsableForLifecycle fc = true) as Hu.
  { unfold baseUsableForLifecycle. rewrite Hb. apply orb_true_iff.
    rewrite !String.eqb_eq. done. }
  assert (eligibleForLifecycleClassification fc = true) as He.
  { unfold eligibleForLifecycleClassification. by rewrite Hh, Hok. }
  assert (file_classified noBaseLifecycle fc =
    classifyFileSignals true (result_signals (fc_Path fc) r) (result_signals (fc_Path fc) r)
      (noBaseLifecycleForFile fc noBaseLifecycle)) as E.
  { unfold file_classified, processHeadResult, extractBaseSignals. by rewrite Hu, Hb, Hh, Hok. }
  simpl. split.
  - apply List.Forall_forall. intros s Hs. apply in_file_signals in Hs as (_ & x & Hx & -> & _).
    rewrite E in Hx. by eapply (proj1 (List.Forall_forall _ _) (classify_same _ _)).
  - rewrite <- (length_map sig_Lifecycle), file_signals_lifecycles, He, E, length_map.
    rewrite classify_length, resolved_part_same. simpl. lia.
Qed.

(** A removed file turns every signal of its usable base into a resolved,
    unchanged one, and reports nothing else. *)
Theorem removed_file_resolved noBaseLifecycle fc :
  fc_Head fc = None → fc_Status fc = "removed" →
  let signals := snd (processFileChange noBaseLifecycle fc) in
  length signals = length (extractBaseSignals fc)
  ∧ Forall (λ s, sig_Lifecycle s = "resolved" ∧ sig_Changed s = false) signals.
Proof.
  intros Hh Hst.
  assert (eligibleForLifecycleClassification fc = true) as He.
  { unfold eligibleForLifecycleClassification. rewrite Hh. by apply String.eqb_eq. }
  assert (snd (processHeadResult fc) = []) as Hp.
  { unfold processHeadResult. rewrite Hh. by destruct (_ || _). }
  assert (∀ s, In s (file_classified noBaseLifecycle fc) → sig_Lifecycle s = "resolved") as Hall.
  { unfold file_classified. rewrite Hp. intros s [[]|Hs]%in_classify.
    by eapply resolved_part_lifecycle. }
  simpl. split.
  - rewrite <- (length_map sig_Lifecycle), file_signals_lifecycles, He, length_map.
    unfold file_classified. rewrite Hp, classify_length. simpl.
    rewrite <- (length_map erase), resolved_part_all. apply length_map.
  - apply List.Forall_forall. intros s Hs.
    apply in_file_signals in Hs as (_ & x & Hx & -> & _ & _ & ->).
    rewrite (Hall _ Hx). done.
Qed.

(** A reported signal is marked changed exactly when it is not resolved and
    some row of its location lies in a well-formed changed range of its file. *)
Theorem changed_mark_spec noBaseLifecycle fc s :
  In s (snd (processFileChange noBaseLifecycle fc)) →
  (loc_StartRow (sig_Location s) <= loc_EndRow (sig_Location s))%N →
  sig_Changed s = true ↔
  sig_Lifecycle s ≠ "resolved" ∧
  ∃ r row, In r (fc_ChangedRanges fc)
    ∧ (lr_StartRow r <= row <= lr_EndRow r)%N
    ∧ (loc_StartRow (sig_Location s) <= row <= loc_EndRow (sig_Location s))%N.
Proof.
  intros Hs Hloc. apply in_file_signals in Hs as (_ & x & Hx & Hl & Hloc' & _ & ->).
  rewrite andb_true_iff, negb_true_iff, String.eqb_neq, overlapsAny_spec, Hl, <- Hloc'.
  rewrite validateChangedRanges_valid. setoid_rewrite filter_In. setoid_rewrite N.leb_le.
  apply and_iff_compat_l. split.
  - intros (r & [Hr Hv] & H1 & H2).
    exists r, (N.max (lr_StartRow r) (loc_StartRow (sig_Location s))). split; [done|lia].
  - intros (r & row & Hr & H1 & H2). exists r. split; [split; [done|lia]|lia].
Qed.

(** Before classification every signal of a file carries the file's path,
    no lifecycle, one of three severities and one of three confidences.  Only the
    cognitive-complexity and nesting rules ever reach high severity; security and
    state-management signals are always medium. *)
Theorem result_signals_severity path r s :
  In s (result_signals path r) →
  sig_Path s = path ∧ sig_Lifecycle s = "" ∧ sig_Changed s = false
  ∧ In (sig_Severity s) ["low"; "medium"; "high"]
  ∧ In (sig_Confidence s) ["low"; "medium"; "high"]
  ∧ (sig_Severity s = "high" →
     In (sig_RuleID s) ["complexity.cognitive_complexity"; "complexity.max_nesting_depth"])
  ∧ (In (sig_Category s) ["security"; "state_management"] → sig_Severity s = "medium").
Proof. apply result_signals_shaped. Qed.

(** The file loop treats files independently and in order, and a file whose
    head is missing without being removed, or did not parse, reports no signal. *)
Theorem file_loop files seed noBaseLifecycle :
  processFileChanges files seed noBaseLifecycle
  = (seed ++ flat_map (λ fc, fst (processFileChange noBaseLifecycle fc)) files,
     flat_map (λ fc, snd (processFileChange noBaseLifecycle fc)) files)
  ∧ ∀ fc, (match fc_Head fc with
           | None => fc_Status fc ≠ "removed"
           | Some head => res_ParseStatus head ≠ "ok"
           end) → snd (processFileChange noBaseLifecycle fc) = [].
Proof.
  split; [apply processFileChanges_app|]. intros fc H. rewrite file_signals_eq.
  unfold eligibleForLifecycleClassification. destruct (fc_Head fc) as [head|];
    apply String.eqb_neq in H; by rewrite H.
Qed.

(** ** Witnesses *)

(** A Go file with deep nesting and many branches: two metric signals. *)
Definition example_result : Result :=
  mkResult "a.go" "go" "ok" [] [] (mkStructuralMetrics 6 6 0 0 0 1 0 8 0 0) [] [] [].

Definition example_change (status : string) (base head : option Result) : FileChange :=
  mkFileChange "a.go" status "production" base head [mkLineRange 4 2; mkLineRange 0 3].

Definition example_introduced : Signal :=
  List.hd zero_Signal
    (snd (processFileChange "unknown" (example_change "added" None (Some example_result)))).

Lemma no_base_lifecycle_witness :
  length (snd (processFileChange "unknown" (example_change "added" None (Some example_result)))) = 2
  ∧ Forall (λ s, sig_Lifecycle s = "introduced")
      (snd (processFileChange "unknown" (example_change "added" None (Some example_result)))).
Proof.
  split; [vm_compute; reflexivity|].
  exact (no_base_lifecycle (example_change "added" None (Some example_result)) false eq_refl).
Defined.

Lemma unchanged_file_existing_witness :
  let fc := example_change "modified" (Some example_result) (Some example_result) in
  length (result_signals "a.go" example_result) = 2
  ∧ Forall (λ s, sig_Lifecycle s = "existing") (snd (processFileChange "unknown" fc))
  ∧ length (snd (processFileChange "unknown" fc)) = length (result_signals "a.go" example_result).
Proof.
  split; [reflexivity|].
  apply (unchanged_file_existing "unknown"
    (example_change "modified" (Some example_result) (Some example_result)) example_result);
    [reflexivity|reflexivity|right; reflexivity|reflexivity].
Defined.

Lemma removed_file_resolved_witness :
  let fc := example_change "removed" (Some example_result) None in
  length (extractBaseSignals fc) = 2
  ∧ length (snd (processFileChange "unknown" fc)) = length (extractBaseSignals fc)
  ∧ Forall (λ s, sig_Lifecycle s = "resolved" ∧ sig_Changed s = false)
      (snd (processFileChange "unknown" fc)).
Proof.
  split; [reflexivity|].
  apply (removed_file_resolved "unknown" (example_change "removed" (Some example_result) None));
    reflexivity.
Defined.

Lemma changed_mark_spec_witness :
  sig_Lifecycle example_introduced ≠ "resolved" ∧
  ∃ r row, In r [mkLineRange 4 2; mkLineRange 0 3]
    ∧ (lr_StartRow r <= row <= lr_EndRow r)%N
    ∧ (loc_StartRow (sig_Location example_introduced) <= row
       <= loc_EndRow (sig_Location example_introduced))%N.
Proof.
  apply (changed_mark_spec "unknown" (example_change "added" None (Some example_result))).
  - apply hd_In. vm_compute. discriminate.
  - vm_compute. discriminate.
  - vm_compute. reflexivity.
Defined.

Lemma file_loop_witness :
  snd (processFileChange "unknown" (example_change "modified" (Some example_result) None)) = [].
Proof.
  apply (proj2 (file_loop [] [] "unknown")). simpl. discriminate.
Defined.

Lemma result_signals_severity_witness :
  In (sig_Severity example_nesting_signal) ["low"; "medium"; "high"].
Proof.
  apply (result_signals_severity "a.go" example_result). left. vm_compute. reflexivity.
Defined.
