(* ===== verification/Positions.v ===== *)
(** * Writing classes back to their positions

    A list is partitioned by an optional class; each class is rearranged over the
    positions it occupies, one class at a time.  The outcome does not depend on
    the order in which the classes are visited, is a permutation of the list, and
    leaves unclassified elements where they were. *)

From S2P Require Import Prelude.

(** [for i, x := range xs { out[positions[i]] = x }] *)
Definition write_positions {A} (out : list A) (positions : list nat) (xs : list A) : list A :=
  fold_left (λ out '(p, x), <[p := x]> out) (zip positions xs) out.

(** [xs[p]] for each position. *)
Definition at_positions {A} (l : list A) (positions : list nat) : list A :=
  omap (λ p, l !! p) positions.

Section Writing.
Context {A : Type}.
Implicit Types (l out xs : list A) (ps : list nat).

Lemma write_length out ps xs : length (write_positions out ps xs) = length out.
Proof.
  revert out xs. induction ps as [|p ps IH]; intros out [|x xs]; simpl; try done.
  unfold write_positions in *. simpl. by rewrite IH, length_insert.
Qed.

Lemma write_notin out ps xs p : p ∉ ps → write_positions out ps xs !! p = out !! p.
Proof.
  revert out xs. induction ps as [|q ps IH]; intros out [|x xs]; simpl; try done.
  intros Hp. unfold write_positions in *. simpl. rewrite IH by set_solver.
  apply list_lookup_insert_ne. set_solver.
Qed.

Lemma write_in out ps xs j p x :
  NoDup ps → ps !! j = Some p → xs !! j = Some x → p < length out →
  write_positions out ps xs !! p = Some x.
Proof.
  intros Hnd. revert out xs j. induction Hnd as [|q ps Hq Hnd IH]; intros out [|y xs] [|j];
    simpl; try done.
  - intros [= ->] [= ->] Hp. unfold write_positions. simpl.
    fold (write_positions (<[p:=x]> out) ps xs). rewrite write_notin by done.
    by apply list_lookup_insert_eq.
  - intros Hj Hx Hp. unfold write_positions in *. simpl. apply (IH _ _ j); [done|done|].
    by rewrite length_insert.
Qed.

Lemma at_positions_all l : at_positions l (seq 0 (length l)) = l.
Proof.
  unfold at_positions.
  enough (∀ pre, omap (λ p, (pre ++ l) !! p) (seq (length pre) (length l)) = l) as H
    by apply (H []).
  induction l as [|x l IH]; intros pre; simpl; [done|].
  rewrite list_lookup_middle by done. f_equal.
  specialize (IH (pre ++ [x])). rewrite length_app, <- app_assoc, Nat.add_1_r in IH. apply IH.
Qed.

Lemma at_positions_app l ps qs : at_positions l (ps ++ qs) = at_positions l ps ++ at_positions l qs.
Proof. apply omap_app. Qed.

Lemma at_positions_perm l ps qs : ps ≡ₚ qs → at_positions l ps ≡ₚ at_positions l qs.
Proof.
  unfold at_positions. induction 1; simpl; repeat case_match; eauto using Permutation.
Qed.

Lemma at_positions_ext l l' ps :
  (∀ p, p ∈ ps → l !! p = l' !! p) → at_positions l ps = at_positions l' ps.
Proof.
  intros H. unfold at_positions. induction ps as [|p ps IH]; [done|].
  specialize (IH ltac:(set_solver)). specialize (H p ltac:(set_solver)).
  cbn [omap list_omap]. rewrite H. destruct (l' !! p); [by f_equal|done].
Qed.

Lemma at_positions_lookup l ps j p :
  (∀ p, p ∈ ps → p < length l) → ps !! j = Some p → at_positions l ps !! j = l !! p.
Proof.
  unfold at_positions. revert j. induction ps as [|q ps IH]; intros j Hlt; [done|].
  simpl. destruct (lookup_lt_is_Some_2 l q) as [x Hx]; [apply Hlt; set_solver|]. rewrite Hx.
  destruct j as [|j]; simpl; [by intros [= ->]|]. apply IH. intros. apply Hlt. set_solver.
Qed.

Lemma at_positions_length l ps :
  (∀ p, p ∈ ps → p < length l) → length (at_positions l ps) = length ps.
Proof.
  unfold at_positions. induction ps as [|q ps IH]; intros Hlt; [done|].
  simpl. destruct (lookup_lt_is_Some_2 l q) as [x Hx]; [apply Hlt; set_solver|]. rewrite Hx.
  simpl. f_equal. apply IH. intros. apply Hlt. set_solver.
Qed.

Lemma at_written out ps xs :
  NoDup ps → (∀ p, p ∈ ps → p < length out) → length xs = length ps →
  at_positions (write_positions out ps xs) ps = xs.
Proof.
  intros Hnd Hlt Hlen.
  assert (∀ p, p ∈ ps → p < length (write_positions out ps xs)) as Hlt'
    by (intros; rewrite write_length; auto).
  apply list_eq. intros j. destruct (ps !! j) as [p|] eqn:Hp.
  - rewrite (at_positions_lookup _ _ _ _ Hlt' Hp).
    destruct (lookup_lt_is_Some_2 xs j) as [x Hx];
      [rewrite Hlen; by eapply lookup_lt_Some|].
    rewrite Hx. eapply write_in; eauto. apply Hlt. by eapply list_elem_of_lookup_2.
  - apply lookup_ge_None in Hp. rewrite (proj2 (lookup_ge_None xs j)) by lia.
    apply lookup_ge_None. by rewrite at_positions_length.
Qed.

(** Writing a rearrangement of what the positions hold rearranges the list. *)
Lemma write_perm out ps xs :
  NoDup ps → (∀ p, p ∈ ps → p < length out) → xs ≡ₚ at_positions out ps →
  write_positions out ps xs ≡ₚ out.
Proof.
  intros Hnd Hlt Hxs.
  set (rest := List.filter (λ p, negb (bool_decide (p ∈ ps))) (seq 0 (length out))).
  assert (seq 0 (length out) ≡ₚ ps ++ rest) as Hseq.
  { rewrite <- (Permutation_split_filter (λ p, bool_decide (p ∈ ps)) (seq 0 (length out))).
    apply Permutation_app_tail, NoDup_Permutation; [..|intros p].
    - apply NoDup_ListNoDup, List.NoDup_filter, NoDup_ListNoDup, NoDup_seq.
    - done.
    - rewrite list_elem_of_In, filter_In, in_seq, bool_decide_eq_true. split; [tauto|].
      intros Hp. specialize (Hlt p Hp). split; [lia|done]. }
  rewrite <- (at_positions_all (write_positions out ps xs)), write_length.
  rewrite <- (at_positions_all out) at 3.
  rewrite !(at_positions_perm _ _ _ Hseq), !at_positions_app.
  rewrite at_written; [|done|done|].
  - apply Permutation_app; [done|]. apply reflexive_eq, at_positions_ext.
    intros p Hp. apply write_notin. intros Hin. apply list_elem_of_In, filter_In in Hp as [_ Hp].
    by rewrite bool_decide_true in Hp.
  - rewrite (Permutation_length Hxs). by apply at_positions_length.
Qed.
End Writing.

Section Classes.
Context {A K : Type} `{EqDecision K} (key : A → option K) (l : list A).

(** The positions of the elements of class [k], ascending. *)
Definition class_positions (k : K) : list nat :=
  List.filter (λ p, bool_decide (l !! p ≫= key = Some k)) (seq 0 (length l)).

Lemma class_positions_spec k p : p ∈ class_positions k ↔ l !! p ≫= key = Some k.
Proof.
  unfold class_positions. rewrite list_elem_of_In, filter_In, in_seq, bool_decide_eq_true.
  split; [tauto|]. intros H. split; [|done].
  destruct (l !! p) as [x|] eqn:E; [|done]. apply lookup_lt_Some in E. lia.
Qed.

Lemma class_positions_NoDup k : NoDup (class_positions k).
Proof. apply NoDup_ListNoDup, List.NoDup_filter, NoDup_ListNoDup, NoDup_seq. Qed.

Lemma class_positions_lt k p : p ∈ class_positions k → p < length l.
Proof.
  rewrite class_positions_spec. destruct (l !! p) eqn:E; [|done]. by apply lookup_lt_Some in E.
Qed.

Context (rank : list A → list A).

Definition write_class (out : list A) (k : K) : list A :=
  write_positions out (class_positions k) (rank (at_positions l (class_positions k))).

Lemma write_class_length out k : length (write_class out k) = length out.
Proof. apply write_length. Qed.

Lemma write_classes_length out ks : length (fold_left write_class ks out) = length out.
Proof.
  revert out. induction ks as [|k ks IH]; intros out; simpl; [done|].
  by rewrite IH, write_class_length.
Qed.

(** A position no visited class holds keeps its element. *)
Lemma write_classes_other out ks p :
  (∀ k, k ∈ ks → p ∉ class_positions k) → fold_left write_class ks out !! p = out !! p.
Proof.
  revert out. induction ks as [|k ks IH]; intros out Hp; simpl; [done|].
  rewrite IH by set_solver. apply write_notin. apply Hp. set_solver.
Qed.

Context (Hrank : ∀ xs, rank xs ≡ₚ xs).

Lemma rank_length xs : length (rank xs) = length xs.
Proof. apply Permutation_length, Hrank. Qed.

Lemma write_classes_at out ks k :
  length out = length l → NoDup ks → k ∈ ks →
  at_positions (fold_left write_class ks out) (class_positions k)
  = rank (at_positions l (class_positions k)).
Proof.
  intros Hlen Hnd Hk. revert out Hlen. induction Hnd as [|k' ks Hk' Hnd IH]; intros out Hlen; [set_solver|].
  simpl. destruct (decide (k = k')) as [->|Hne].
  - rewrite (at_positions_ext _ (write_class out k')).
    + apply at_written.
      * apply class_positions_NoDup.
      * rewrite Hlen. apply class_positions_lt.
      * rewrite rank_length. apply at_positions_length, class_positions_lt.
    + intros p Hp. apply write_classes_other. intros k Hk2 Hp'.
      apply class_positions_spec in Hp, Hp'. rewrite Hp in Hp'. by simplify_eq.
  - apply IH; [set_solver|]. by rewrite write_class_length.
Qed.

Lemma write_classes_perm ks : NoDup ks → fold_left write_class ks l ≡ₚ l.
Proof.
  intros Hnd.
  enough (∀ out, length out = length l →
      (∀ k, k ∈ ks → at_positions out (class_positions k) = at_positions l (class_positions k)) →
      fold_left write_class ks out ≡ₚ out) as H by (apply H; done).
  induction Hnd as [|k ks Hk Hnd IH]; intros out Hlen Hat; simpl; [done|].
  rewrite IH.
  - apply write_perm.
    + apply class_positions_NoDup.
    + rewrite Hlen. apply class_positions_lt.
    + rewrite Hrank, Hat; [done|set_solver].
  - by rewrite write_class_length.
  - intros k' Hk'. rewrite <- Hat by set_solver. apply at_positions_ext. intros p Hp.
    apply write_notin. intros Hp'. apply class_positions_spec in Hp, Hp'.
    rewrite Hp in Hp'. simplify_eq. done.
Qed.

(** The class at each position is unchanged. *)
Lemma write_classes_key ks p :
  NoDup ks → fold_left write_class ks l !! p ≫= key = l !! p ≫= key.
Proof.
  intros Hnd. destruct (l !! p ≫= key) as [k|] eqn:E.
  - destruct (decide (k ∈ ks)) as [Hk|Hk].
    + pose proof (write_classes_at l ks k eq_refl Hnd Hk) as Hat.
      pose proof E as Hp. apply class_positions_spec, list_elem_of_lookup in Hp as [j Hj].
      assert (at_positions (fold_left write_class ks l) (class_positions k) !! j
        = fold_left write_class ks l !! p) as Hjp.
      { apply at_positions_lookup; [|done]. intros q Hq. rewrite write_classes_length.
        by eapply class_positions_lt. }
      rewrite Hat in Hjp. rewrite <- Hjp.
      destruct (lookup_lt_is_Some_2 (rank (at_positions l (class_positions k))) j) as [x Hx].
      { rewrite rank_length, at_positions_length; [by eapply lookup_lt_Some|apply class_positions_lt]. }
      rewrite Hx. simpl.
      assert (x ∈ at_positions l (class_positions k)) as Hin.
      { rewrite <- (Hrank (at_positions l (class_positions k))). by eapply list_elem_of_lookup_2. }
      unfold at_positions in Hin. apply list_elem_of_omap in Hin as (q & Hq & Hx').
      apply class_positions_spec in Hq. by rewrite Hx' in Hq.
    + rewrite write_classes_other, E; [done|]. intros k' Hk' Hp.
      apply class_positions_spec in Hp. rewrite Hp in E. by simplify_eq.
  - rewrite write_classes_other, E; [done|]. intros k' Hk' Hp.
    apply class_positions_spec in Hp. by rewrite Hp in E.
Qed.

(** The order in which the classes are visited is immaterial. *)
Lemma write_classes_order ks ks' :
  NoDup ks → ks ≡ₚ ks' → fold_left write_class ks l = fold_left write_class ks' l.
Proof.
  intros Hnd Hks. assert (NoDup ks') as Hnd' by (by rewrite <- Hks).
  apply list_eq. intros p. destruct (l !! p ≫= key) as [k|] eqn:E.
  - destruct (decide (k ∈ ks)) as [Hk|Hk].
    + assert (k ∈ ks') as Hk' by (by rewrite <- Hks).
      pose proof E as Hp. apply class_positions_spec, list_elem_of_lookup in Hp as [j Hj].
      assert (∀ ks, NoDup ks → k ∈ ks → fold_left write_class ks l !! p
        = rank (at_positions l (class_positions k)) !! j) as H; [|by rewrite !H].
      intros ks2 Hn2 Hk2. rewrite <- (write_classes_at l ks2 k eq_refl Hn2 Hk2).
      symmetry. apply at_positions_lookup; [|done]. intros q Hq.
      rewrite write_classes_length. by eapply class_positions_lt.
    + assert (k ∉ ks') as Hk' by (by rewrite <- Hks).
      rewrite !write_classes_other; [done|..]; intros k' Hin Hp;
        apply class_positions_spec in Hp; rewrite Hp in E; by simplify_eq.
  - rewrite !write_classes_other; [done|..]; intros k' Hin Hp;
      apply class_positions_spec in Hp; by rewrite Hp in E.
Qed.
End Classes.
