(* ===== verification/SignalOrder.v ===== *)
(** * Report order and summary

    The order signals are reported in ([sort.go]) and the counters of the report
    summary ([signal_summary.go]). *)

From stdpp Require Import sorting.
From S2P Require Import Prelude GoOrder GoText GoFloat Semantics Domain Signals Rules Positions.

(** ** Order *)

(** go: pkg/codesignal/sort.go#signalPriorityGroup *)
Definition signalPriorityGroup (sig : Signal) : Z :=
  if sig_Lifecycle sig == "introduced" then (if sig_Changed sig then 0 else 2)
  else if sig_Lifecycle sig == "existing" then (if sig_Changed sig then 1 else 3)
  else if sig_Lifecycle sig == "resolved" then 4
  else 5.

(** go: pkg/codesignal/sort.go#compareSignals *)
Definition compareSignals (a b : Signal) : comparison :=
  then_cmp (signalPriorityGroup a ?= signalPriorityGroup b)%Z
  (then_cmp (severityRank (sig_Severity b) ?= severityRank (sig_Severity a))%Z
  (then_cmp (confidenceRank (sig_Confidence b) ?= confidenceRank (sig_Confidence a))%Z
  (then_cmp (String.compare (sig_Path a) (sig_Path b))
  (then_cmp (loc_StartRow (sig_Location a) ?= loc_StartRow (sig_Location b))%N
  (then_cmp (loc_StartCol (sig_Location a) ?= loc_StartCol (sig_Location b))%N
  (then_cmp (String.compare (sig_RuleID a) (sig_RuleID b))
            (String.compare (sig_ID a) (sig_ID b)))))))).

(** go: pkg/codesignal/sort.go#peerKey *)
Record peerKey := mkPeerKey {
  peer_group : Z; peer_severity : Z; peer_confidence : Z; peer_ruleID : string
}.

#[export] Instance peerKey_eq_dec : EqDecision peerKey.
Proof. solve_decision. Defined.
#[export] Instance peerKey_countable : Countable peerKey.
Proof.
  refine (inj_countable'
    (λ k, (peer_group k, peer_severity k, peer_confidence k, peer_ruleID k))
    (λ t, mkPeerKey t.1.1.1 t.1.1.2 t.1.2 t.2) _). by intros [].
Defined.

(** The key a signal with a magnitude is filed under. *)
Definition peer_key (signal : Signal) : peerKey :=
  mkPeerKey (signalPriorityGroup signal) (severityRank (sig_Severity signal))
    (confidenceRank (sig_Confidence signal)) (sig_RuleID signal).

(** go: pkg/codesignal/sort.go#rankedSignal *)
Record rankedSignal := mkRankedSignal { rk_signal : Signal; rk_ratio : float64 }.

(** go: pkg/codesignal/sort.go#rankedByMagnitude *)
Definition rankedByMagnitude (signals : list Signal) (positions : list nat) : list Signal :=
  let ranked :=
    map (λ signal, mkRankedSignal signal (default float64_zero (signalMagnitude signal)))
      (at_positions signals positions) in
  map rk_signal (sort_func (λ a b, float64_compare (rk_ratio b) (rk_ratio a)) ranked).

(** The map [positions]. *)
Definition peer_positions (signals : list Signal) : gmap peerKey (list nat) :=
  fold_left (λ positions '(i, signal),
    match signalMagnitude signal with
    | None => positions
    | Some _ => group_append (peer_key signal) i positions
    end) (imap pair signals) ∅.

(** The second loop, over the entries in the order the map yields them. *)
Definition rank_entries (signals : list Signal) (entries : list (peerKey * list nat)) : list Signal :=
  fold_left (λ reordered '(_, peers),
    write_positions reordered peers (rankedByMagnitude signals peers)) entries signals.

(** go: pkg/codesignal/sort.go#rankMetricRulesWithinTiers *)
Definition rankMetricRulesWithinTiers (signals : list Signal) : list Signal :=
  rank_entries signals (map_to_list (peer_positions signals)).

(** go: pkg/codesignal/sort.go#sortSignals *)
Definition sortSignals (signals : list Signal) : list Signal :=
  rankMetricRulesWithinTiers (sort_func compareSignals signals).

(** ** Summary *)

(** go: pkg/codesignal/report.go#Summary *)
Record Summary := mkSummary {
  sum_FilesAnalyzed : Z; sum_FilesWithDiagnostics : Z; sum_FilesUnanalyzed : Z;
  sum_ActiveSignals : Z; sum_IntroducedSignals : Z; sum_ExistingSignals : Z;
  sum_ResolvedSignals : Z; sum_BaselineSignals : Z; sum_UnknownSignals : Z
}.

(** go: pkg/codesignal/diagnostics.go#DiagKindProjectImportUnresolved *)
Definition DiagKindProjectImportUnresolved : string := "project_import_unresolved".
(** go: pkg/codesignal/diagnostics.go#DiagKindProjectImportNonLiteral *)
Definition DiagKindProjectImportNonLiteral : string := "project_import_non_literal".
(** go: pkg/codesignal/diagnostics.go#DiagKindProjectExternalImportsNotEvaluated *)
Definition DiagKindProjectExternalImportsNotEvaluated : string :=
  "project_external_imports_not_evaluated".

(** go: pkg/codesignal/rule_layer_violation_ts_unevaluated.go#isProjectEdgeDiagnosticKind *)
Definition isProjectEdgeDiagnosticKind (kind : string) : bool :=
  let k := TrimPrefix "base_" kind in
  (k == DiagKindProjectImportUnresolved) || (k == DiagKindProjectImportNonLiteral)
  || (k == DiagKindProjectExternalImportsNotEvaluated).

(** go: pkg/codesignal/signal_summary.go#withoutProjectEdgeDiagnostics *)
Definition withoutProjectEdgeDiagnostics (diagnostics : list Diagnostic) : list Diagnostic :=
  List.filter (λ d, negb (isProjectEdgeDiagnosticKind (dg_Kind d))) diagnostics.

(** go: pkg/codesignal/signal_summary.go#distinctDiagnosticPaths *)
Definition distinctDiagnosticPaths (diagnostics : list Diagnostic) : gset string :=
  fold_left (λ paths d, if dg_Path d != "" then {[dg_Path d]} ∪ paths else paths) diagnostics ∅.

(** go: pkg/codesignal/signal_summary.go#countFilesWithDiagnostics *)
Definition countFilesWithDiagnostics (files : list FileChange) (diagnostics : list Diagnostic) : Z :=
  Z.of_nat (size (distinctDiagnosticPaths diagnostics)).

(** go: pkg/codesignal/signal_summary.go#countUnanalyzedFiles *)
Definition countUnanalyzedFiles (files : list FileChange) (diagnostics : list Diagnostic) : Z :=
  let inFiles : gset string :=
    fold_left (λ paths fc, if fc_Path fc != "" then {[fc_Path fc]} ∪ paths else paths) files ∅ in
  fold_left (λ count path, if bool_decide (path ∈ inFiles) then count else (count + 1)%Z)
    (elements (distinctDiagnosticPaths (withoutProjectEdgeDiagnostics diagnostics))) 0%Z.

(** go: pkg/codesignal/signal_summary.go#omitResolvedSignals *)
Definition omitResolvedSignals (signals : list Signal) : list Signal :=
  List.filter (λ sig, sig_Lifecycle sig != "resolved") signals.

(** The switch on one signal's lifecycle. *)
Definition count_signal (s : Summary) (sig : Signal) : Summary :=
  let 'mkSummary fa fd fu act int exi rsv bas unk := s in
  let l := sig_Lifecycle sig in
  if l == "introduced" then mkSummary fa fd fu act (int + 1) exi rsv bas unk
  else if l == "existing" then mkSummary fa fd fu act int (exi + 1) rsv bas unk
  else if l == "resolved" then mkSummary fa fd fu act int exi (rsv + 1) bas unk
  else if l == "baseline" then mkSummary fa fd fu act int exi rsv (bas + 1) unk
  else if l == "unknown" then mkSummary fa fd fu act int exi rsv bas (unk + 1)
  else s.

Definition with_active (n : Z) (s : Summary) : Summary :=
  let 'mkSummary fa fd fu _ int exi rsv bas unk := s in mkSummary fa fd fu n int exi rsv bas unk.

(** go: pkg/codesignal/signal_summary.go#finalizeSignals *)
Definition finalizeSignals (signals : list Signal) (filesAnalyzed : Z) (files : list FileChange)
    (diagnostics : list Diagnostic) (includeResolved : bool) : list Signal * Summary :=
  let summary :=
    mkSummary filesAnalyzed (countFilesWithDiagnostics files diagnostics)
      (countUnanalyzedFiles files diagnostics) 0 0 0 0 0 0 in
  let summary := fold_left count_signal signals summary in
  let signals := if negb includeResolved then omitResolvedSignals signals else signals in
  let signals := sortSignals signals in
  (signals, with_active (zlen signals) summary).

(** ** Lemmas *)

#[export] Instance compareSignals_laws : CmpLaws compareSignals.
Proof.
  unfold compareSignals.
  apply then_cmp_laws; [apply (on_cmp_laws signalPriorityGroup Z.compare)|].
  apply then_cmp_laws;
    [apply (on_cmp_desc_laws (λ s, severityRank (sig_Severity s)) Z.compare)|].
  apply then_cmp_laws;
    [apply (on_cmp_desc_laws (λ s, confidenceRank (sig_Confidence s)) Z.compare)|].
  repeat (apply then_cmp_laws).
  - apply (on_cmp_laws sig_Path String.compare).
  - apply (on_cmp_laws (λ s, loc_StartRow (sig_Location s)) N.compare).
  - apply (on_cmp_laws (λ s, loc_StartCol (sig_Location s)) N.compare).
  - apply (on_cmp_laws sig_RuleID String.compare).
  - apply (on_cmp_laws sig_ID String.compare).
Qed.

(** The tier of a signal: lifecycle group, then severity and confidence,
    descending. *)
Definition compare_tiers (a b : Signal) : comparison :=
  then_cmp (signalPriorityGroup a ?= signalPriorityGroup b)%Z
  (then_cmp (severityRank (sig_Severity b) ?= severityRank (sig_Severity a))%Z
            (confidenceRank (sig_Confidence b) ?= confidenceRank (sig_Confidence a))%Z).

Lemma compareSignals_tiers a b : compare_tiers a b = Gt → compareSignals a b = Gt.
Proof.
  unfold compare_tiers, compareSignals.
  destruct (signalPriorityGroup a ?= _)%Z, (severityRank (sig_Severity b) ?= _)%Z,
    (confidenceRank (sig_Confidence b) ?= _)%Z; done.
Qed.

Lemma compareSignals_id a b : compareSignals a b = Eq → sig_ID a = sig_ID b.
Proof.
  unfold compareSignals. intros H. repeat apply then_cmp_Eq in H as [_ H].
  by apply (cmp_eq (cmp:=String.compare)).
Qed.

(** The class a signal is ranked in. *)
Definition peer_class (signal : Signal) : option peerKey :=
  match signalMagnitude signal with Some _ => Some (peer_key signal) | None => None end.

Definition ratio_of (signal : Signal) : float64 := default float64_zero (signalMagnitude signal).

Definition ratio_less (a b : Signal) : bool := is_lt (float64_compare (ratio_of b) (ratio_of a)).

Definition by_ratio : list Signal → list Signal := stable_sort ratio_less.

#[export] Instance ratio_less_sw : StrictWeak ratio_less.
Proof.
  pose proof (on_cmp_desc_laws ratio_of float64_compare).
  apply (cmp_strict_weak (λ a b, float64_compare (ratio_of b) (ratio_of a))).
Qed.

Lemma rankedByMagnitude_eq signals ps :
  rankedByMagnitude signals ps = by_ratio (at_positions signals ps).
Proof.
  unfold rankedByMagnitude, sort_func. rewrite stable_sort_map, map_map.
  apply map_id.
Qed.

Lemma class_positions_snoc {A K} `{EqDecision K} (key : A → option K) l x k :
  class_positions key (l ++ [x]) k
  = class_positions key l k ++ (if bool_decide (key x = Some k) then [length l] else []).
Proof.
  unfold class_positions. rewrite length_app, Nat.add_1_r, seq_S, List.filter_app. f_equal.
  - apply filter_ext_In. intros p Hp. apply in_seq in Hp. by rewrite lookup_app_l by lia.
  - cbn [List.filter Nat.add]. rewrite lookup_app_r, Nat.sub_diag by done. simpl.
    by case_bool_decide.
Qed.

Lemma peer_positions_snoc l x :
  peer_positions (l ++ [x])
  = match signalMagnitude x with
    | None => peer_positions l
    | Some _ => group_append (peer_key x) (length l) (peer_positions l)
    end.
Proof.
  unfold peer_positions. rewrite imap_app, fold_left_app. simpl. by rewrite Nat.add_0_r.
Qed.

Lemma peer_positions_lookup l k :
  peer_positions l !! k
  = match class_positions peer_class l k with [] => None | ps => Some ps end.
Proof.
  revert k. induction l as [|x l IH] using rev_ind; intros k; [done|].
  rewrite peer_positions_snoc, class_positions_snoc.
  destruct (signalMagnitude x) as [r|] eqn:Er.
  - replace (peer_class x) with (Some (peer_key x)) by (unfold peer_class; by rewrite Er).
    unfold group_append. case_bool_decide as Hk.
    + injection Hk as Hk. rewrite Hk, lookup_insert_eq, IH.
      by destruct (class_positions peer_class l k).
    + rewrite lookup_insert_ne by congruence. by rewrite IH, app_nil_r.
  - replace (peer_class x) with (@None peerKey) by (unfold peer_class; by rewrite Er).
    rewrite bool_decide_false, app_nil_r by done. apply IH.
Qed.

Lemma rank_entries_classes signals entries :
  (∀ e, e ∈ entries → peer_positions signals !! e.1 = Some e.2) →
  rank_entries signals entries
  = fold_left (write_class peer_class signals by_ratio) (map fst entries) signals.
Proof.
  unfold rank_entries. generalize signals at 3 5 as out.
  induction entries as [|[k ps] entries IH]; intros out He; [done|].
  cbn [fold_left map fst]. rewrite IH by set_solver. f_equal.
  specialize (He (k, ps) ltac:(set_solver)). simpl in He.
  rewrite peer_positions_lookup in He. unfold write_class. rewrite rankedByMagnitude_eq.
  destruct (class_positions peer_class signals k); [done|]. by simplify_eq.
Qed.

Lemma by_ratio_perm xs : by_ratio xs ≡ₚ xs.
Proof. apply stable_sort_perm. Qed.

(** Ranking as an operation on the classes of the list. *)
Lemma rank_classes signals entries :
  entries ≡ₚ map_to_list (peer_positions signals) →
  rank_entries signals entries
    = fold_left (write_class peer_class signals by_ratio) (map fst entries) signals
  ∧ NoDup (map fst entries)
  ∧ ∀ k, k ∈ map fst entries ↔ class_positions peer_class signals k ≠ [].
Proof.
  intros He. split; [|split].
  - apply rank_entries_classes. intros [k ps] Hin. rewrite He in Hin.
    by apply elem_of_map_to_list in Hin.
  - change (NoDup (entries.*1)). rewrite He. apply NoDup_fst_map_to_list.
  - intros k. change (k ∈ entries.*1 ↔ class_positions peer_class signals k ≠ []). rewrite He.
    rewrite list_elem_of_fmap. split.
    + intros ([k' ps] & -> & Hin). apply elem_of_map_to_list in Hin.
      rewrite peer_positions_lookup in Hin. simpl. by destruct (class_positions _ _ _).
    + intros Hne. destruct (class_positions peer_class signals k) as [|p ps] eqn:E; [done|].
      exists (k, p :: ps). split; [done|]. apply elem_of_map_to_list.
      by rewrite peer_positions_lookup, E.
Qed.

(** Sorting as an operation on the classes of the path-ordered list. *)
Lemma sortSignals_classes signals :
  let base := sort_func compareSignals signals in
  ∃ ks, sortSignals signals = fold_left (write_class peer_class base by_ratio) ks base
    ∧ NoDup ks ∧ ∀ k, k ∈ ks ↔ class_positions peer_class base k ≠ [].
Proof.
  simpl. eexists. unfold sortSignals, rankMetricRulesWithinTiers. apply rank_classes. done.
Qed.

Lemma sortSignals_perm signals : sortSignals signals ≡ₚ signals.
Proof.
  destruct (sortSignals_classes signals) as (ks & -> & Hnd & _).
  rewrite write_classes_perm; [apply stable_sort_perm|apply by_ratio_perm|done].
Qed.

Lemma sortSignals_length signals : length (sortSignals signals) = length signals.
Proof. apply Permutation_length, sortSignals_perm. Qed.

Lemma sortSignals_perm_eq l l' : NoDup (map sig_ID l) → l ≡ₚ l' → sortSignals l = sortSignals l'.
Proof.
  intros Hnd Hp. unfold sortSignals. f_equal. apply sort_func_perm_eq; [apply _| |done].
  intros x y Hx Hy He%compareSignals_id.
  by apply (NoDup_map_inj sig_ID l).
Qed.

Lemma peer_class_tiers x y : peer_class x = peer_class y → peer_class x ≠ None →
  compare_tiers x y = Eq.
Proof.
  unfold peer_class, compare_tiers.
  destruct (signalMagnitude x), (signalMagnitude y); try done. unfold peer_key.
  intros [= -> -> -> _] _. by rewrite !Z.compare_refl.
Qed.

(** The signal at a position has the tier of the path-ordered one there. *)
Lemma sorted_position_tier signals p x y :
  sort_func compareSignals signals !! p = Some x → sortSignals signals !! p = Some y →
  x = y ∨ compare_tiers x y = Eq.
Proof.
  destruct (sortSignals_classes signals) as (ks & -> & Hnd & Hks). intros Hx Hy.
  set (base := sort_func compareSignals signals) in *.
  pose proof (write_classes_key peer_class base by_ratio by_ratio_perm ks p Hnd) as Hk.
  rewrite Hx, Hy in Hk. simpl in Hk.
  destruct (peer_class x) as [k|] eqn:E.
  - right. assert (peer_class x = peer_class y) by congruence.
    apply peer_class_tiers; congruence.
  - left. rewrite (write_classes_other peer_class base by_ratio) in Hy; [congruence|].
    intros k' _ Hp. apply class_positions_spec in Hp. rewrite Hx in Hp. simpl in Hp. congruence.
Qed.

#[export] Instance compare_tiers_laws : CmpLaws compare_tiers.
Proof.
  unfold compare_tiers.
  apply then_cmp_laws; [apply (on_cmp_laws signalPriorityGroup Z.compare)|].
  apply then_cmp_laws.
  - apply (on_cmp_desc_laws (λ s, severityRank (sig_Severity s)) Z.compare).
  - apply (on_cmp_desc_laws (λ s, confidenceRank (sig_Confidence s)) Z.compare).
Qed.

Lemma base_tiers signals p q x y :
  p < q → sort_func compareSignals signals !! p = Some x →
  sort_func compareSignals signals !! q = Some y → compare_tiers x y ≠ Gt.
Proof.
  intros Hpq Hx Hy Hgt. pose proof (stable_sort_sorted (λ a b, is_lt (compareSignals a b)) signals) as Hs.
  pose proof (StronglySorted_lookup _ _ _ _ _ _ Hs Hpq Hx Hy) as H. unfold not_after in H.
  apply compareSignals_tiers in Hgt.
  rewrite (cmp_antisym (cmp:=compareSignals) x y), Hgt in H. done.
Qed.

Lemma class_positions_sorted {A K} `{EqDecision K} (key : A → option K) l k :
  StronglySorted lt (class_positions key l k).
Proof.
  apply StronglySorted_bfilter. generalize 0 as n. induction (length l) as [|m IH]; intros n;
    simpl; constructor; [done|]. apply List.Forall_forall. intros p Hp. apply in_seq in Hp. lia.
Qed.

(** Positions of one class appear in order in its position list. *)
Lemma class_positions_index {A K} `{EqDecision K} (key : A → option K) l k p q :
  p ∈ class_positions key l k → q ∈ class_positions key l k → p < q →
  ∃ i j, i < j ∧ class_positions key l k !! i = Some p ∧ class_positions key l k !! j = Some q.
Proof.
  intros [i Hi]%list_elem_of_lookup [j Hj]%list_elem_of_lookup Hpq. exists i, j.
  split; [|done]. pose proof (class_positions_sorted key l k) as Hs.
  destruct (lt_eq_lt_dec i j) as [[Hij| ->]|Hji]; [done| |].
  - rewrite Hi in Hj. simplify_eq. lia.
  - pose proof (StronglySorted_lookup _ _ _ _ _ _ Hs Hji Hj Hi). lia.
Qed.

Lemma sorted_ratio signals p q x y :
  p < q → sortSignals signals !! p = Some x → sortSignals signals !! q = Some y →
  peer_class x = peer_class y → peer_class x ≠ None → ratio_less y x = false.
Proof.
  destruct (sortSignals_classes signals) as (ks & -> & Hnd & Hks). intros Hpq Hx Hy Hxy Hne.
  set (base := sort_func compareSignals signals) in *.
  destruct (peer_class x) as [k|] eqn:E; [|done]. clear Hne. symmetry in Hxy.
  pose proof (λ p, write_classes_key peer_class base by_ratio by_ratio_perm ks p Hnd) as Hk.
  assert (p ∈ class_positions peer_class base k) as Hp.
  { apply class_positions_spec. rewrite <- Hk, Hx. done. }
  assert (q ∈ class_positions peer_class base k) as Hq.
  { apply class_positions_spec. rewrite <- Hk, Hy. done. }
  assert (k ∈ ks) as Hin.
  { apply Hks. by destruct (class_positions peer_class base k); [set_solver|]. }
  destruct (class_positions_index _ _ _ _ _ Hp Hq Hpq) as (i & j & Hij & Hi & Hj).
  pose proof (write_classes_at peer_class base by_ratio by_ratio_perm base ks k eq_refl Hnd Hin) as Hat.
  assert (∀ r, r ∈ class_positions peer_class base k →
    r < length (fold_left (write_class peer_class base by_ratio) ks base)) as Hlt.
  { intros r Hr. rewrite write_classes_length. by eapply class_positions_lt. }
  pose proof (at_positions_lookup _ _ _ _ Hlt Hi) as Hi'.
  pose proof (at_positions_lookup _ _ _ _ Hlt Hj) as Hj'.
  rewrite Hat, Hx in Hi'. rewrite Hat, Hy in Hj'.
  exact (StronglySorted_lookup _ _ _ _ _ _ (stable_sort_sorted ratio_less _) Hij Hi' Hj').
Qed.

(** The number of signals with lifecycle [l]. *)
Definition count_lifecycle (l : string) (signals : list Signal) : Z :=
  zlen (List.filter (λ sig, sig_Lifecycle sig == l) signals).

Lemma count_lifecycle_cons l x signals :
  count_lifecycle l (x :: signals)
  = ((if sig_Lifecycle x == l then 1 else 0) + count_lifecycle l signals)%Z.
Proof. unfold count_lifecycle, zlen. cbn [List.filter]. destruct (_ == l); cbn [length]; lia. Qed.

Lemma count_signal_fold signals s :
  fold_left count_signal signals s =
  mkSummary (sum_FilesAnalyzed s) (sum_FilesWithDiagnostics s) (sum_FilesUnanalyzed s)
    (sum_ActiveSignals s)
    (sum_IntroducedSignals s + count_lifecycle "introduced" signals)
    (sum_ExistingSignals s + count_lifecycle "existing" signals)
    (sum_ResolvedSignals s + count_lifecycle "resolved" signals)
    (sum_BaselineSignals s + count_lifecycle "baseline" signals)
    (sum_UnknownSignals s + count_lifecycle "unknown" signals).
Proof.
  revert s. induction signals as [|x l IH]; intros [fa fd fu act i e r b u]; cbn [fold_left].
  - unfold count_lifecycle, zlen. simpl. by rewrite !Z.add_0_r.
  - rewrite IH, !count_lifecycle_cons. cbn [count_signal]. cbv zeta.
    generalize (sig_Lifecycle x) as c. intros c.
    destruct (String.eqb_spec c "introduced") as [->|_]; [simpl; f_equal; lia|].
    destruct (String.eqb_spec c "existing") as [->|_]; [simpl; f_equal; lia|].
    destruct (String.eqb_spec c "resolved") as [->|_]; [simpl; f_equal; lia|].
    destruct (String.eqb_spec c "baseline") as [->|_]; [simpl; f_equal; lia|].
    destruct (String.eqb_spec c "unknown") as [->|_]; simpl; f_equal; lia.
Qed.

Lemma distinctDiagnosticPaths_elem ds p :
  p ∈ distinctDiagnosticPaths ds ↔ p ≠ "" ∧ ∃ d, In d ds ∧ dg_Path d = p.
Proof.
  unfold distinctDiagnosticPaths.
  enough (∀ X : gset string, p ∈ fold_left (λ paths d, if dg_Path d != "" then {[dg_Path d]} ∪ paths
      else paths) ds X ↔ p ∈ X ∨ p ≠ "" ∧ ∃ d, In d ds ∧ dg_Path d = p) as H
    by (rewrite H; set_solver).
  induction ds as [|d ds IH]; intros X; cbn [fold_left In]; [naive_solver|].
  rewrite IH. destruct (String.eqb_spec (dg_Path d) ""); simpl; set_solver.
Qed.

Lemma count_not_in (S : gset string) l n :
  fold_left (λ count path, if bool_decide (path ∈ S) then count else (count + 1)%Z) l n
  = (n + zlen (List.filter (λ p, negb (bool_decide (p ∈ S))) l))%Z.
Proof.
  unfold zlen. revert n. induction l as [|p l IH]; intros n; cbn [fold_left List.filter];
    [simpl; lia|]. rewrite IH. case_bool_decide; simpl; lia.
Qed.

(** The five counted lifecycles. *)
Definition lifecycles : list string := ["introduced"; "existing"; "resolved"; "baseline"; "unknown"].

Definition counted (signals : list Signal) : Z :=
  (count_lifecycle "introduced" signals + count_lifecycle "existing" signals
   + count_lifecycle "resolved" signals + count_lifecycle "baseline" signals
   + count_lifecycle "unknown" signals)%Z.

Lemma counted_eq signals :
  counted signals = zlen (List.filter (λ s, existsb (String.eqb (sig_Lifecycle s)) lifecycles) signals).
Proof.
  unfold counted. induction signals as [|x l IH]; [done|].
  rewrite !count_lifecycle_cons. cbn [List.filter].
  transitivity ((if existsb (String.eqb (sig_Lifecycle x)) lifecycles then 1 else 0)
    + zlen (List.filter (λ s, existsb (String.eqb (sig_Lifecycle s)) lifecycles) l))%Z.
  - rewrite <- IH. generalize (sig_Lifecycle x) as c. intros c. unfold lifecycles. cbn [existsb].
    destruct (String.eqb_spec c "introduced") as [->|_]; [simpl; lia|].
    destruct (String.eqb_spec c "existing") as [->|_]; [simpl; lia|].
    destruct (String.eqb_spec c "resolved") as [->|_]; [simpl; lia|].
    destruct (String.eqb_spec c "baseline") as [->|_]; [simpl; lia|].
    destruct (c == "unknown"); cbn [orb]; lia.
  - unfold zlen. destruct (existsb _ _); cbn [length]; lia.
Qed.

(** ** Properties *)

(** C28: reporting order.  The output is a rearrangement of the signals; tiers
    (lifecycle group, then severity and confidence, descending) never interleave;
    a signal without a magnitude keeps the place the path order gives it; and
    within a tier the signals of one metric rule descend by magnitude. *)
Theorem report_order signals :
  let base := sort_func compareSignals signals in
  let out := sortSignals signals in
  out ≡ₚ signals
  ∧ (∀ p q x y, p < q → out !! p = Some x → out !! q = Some y → compare_tiers x y ≠ Gt)
  ∧ (∀ p x, base !! p = Some x → signalMagnitude x = None → out !! p = Some x)
  ∧ (∀ p q x y rx ry, p < q → out !! p = Some x → out !! q = Some y →
       peer_key x = peer_key y → signalMagnitude x = Some rx → signalMagnitude y = Some ry →
       float64_compare rx ry ≠ Lt).
Proof.
  cbv zeta. repeat split.
  - apply sortSignals_perm.
  - intros p q x y Hpq Hx Hy.
    assert (∃ x' y', sort_func compareSignals signals !! p = Some x'
      ∧ sort_func compareSignals signals !! q = Some y') as (x' & y' & Hx' & Hy').
    { assert (length (sort_func compareSignals signals) = length (sortSignals signals)) as Hlen
        by (rewrite sortSignals_length; apply stable_sort_length).
      apply lookup_lt_Some in Hx, Hy. rewrite <- Hlen in Hx, Hy.
      apply lookup_lt_is_Some_2 in Hx as [x' ?], Hy as [y' ?]. eauto. }
    pose proof (base_tiers _ _ _ _ _ Hpq Hx' Hy') as Hb.
    destruct (sorted_position_tier _ _ _ _ Hx' Hx) as [->|Ex],
      (sorted_position_tier _ _ _ _ Hy' Hy) as [->|Ey]; try done.
    + by rewrite <- (cmp_eq_r compare_tiers _ _ x Ey).
    + by rewrite <- (cmp_eq_l x' x y Ex).
    + by rewrite <- (cmp_eq_l x' x y Ex), <- (cmp_eq_r compare_tiers _ _ x' Ey).
  - intros p x Hx Hm. destruct (sortSignals_classes signals) as (ks & -> & _).
    rewrite write_classes_other; [done|]. intros k _ Hp%class_positions_spec.
    rewrite Hx in Hp. simpl in Hp. unfold peer_class in Hp. by rewrite Hm in Hp.
  - intros p q x y rx ry Hpq Hx Hy Hk Hrx Hry Hlt.
    assert (ratio_less y x = false) as H.
    { apply (sorted_ratio signals p q); try done; unfold peer_class; rewrite Hrx, ?Hry; by rewrite ?Hk. }
    unfold ratio_less, ratio_of in H. rewrite Hrx, Hry in H. simpl in H. by rewrite Hlt in H.
Qed.

(** Ranking visits the peer groups in Go's unspecified map order; every
    order gives the same report. *)
Theorem rank_map_order_independent signals entries :
  entries ≡ₚ map_to_list (peer_positions (sort_func compareSignals signals)) →
  rank_entries (sort_func compareSignals signals) entries = sortSignals signals.
Proof.
  intros He. destruct (rank_classes _ _ He) as (-> & Hnd & _).
  unfold sortSignals, rankMetricRulesWithinTiers.
  destruct (rank_classes (sort_func compareSignals signals) _ (reflexivity _)) as (-> & _).
  apply write_classes_order; [apply by_ratio_perm|done|].
  change (entries.*1 ≡ₚ (map_to_list (peer_positions (sort_func compareSignals signals))).*1).
  by rewrite He.
Qed.

(** Signals with distinct IDs are reported in one order whatever order they
    arrive in, so sorting a sorted report changes nothing. *)
Theorem sort_order_insensitive signals signals' :
  NoDup (map sig_ID signals) → signals ≡ₚ signals' →
  sortSignals signals' = sortSignals signals
  ∧ sortSignals (sortSignals signals) = sortSignals signals.
Proof.
  intros Hnd Hp. split; symmetry; apply sortSignals_perm_eq; try done.
  symmetry. apply sortSignals_perm.
Qed.

(** The summary counts each lifecycle over all signals, before resolved
    signals are left out; the counters add up to the number of signals with a known
    lifecycle; the active count is the length of the reported list, which is the
    signals minus the resolved ones when those are not asked for; and the files
    counted unanalyzed are among the files with diagnostics. *)
Theorem summary_counts signals filesAnalyzed files diagnostics includeResolved :
  let '(out, s) := finalizeSignals signals filesAnalyzed files diagnostics includeResolved in
  out ≡ₚ (if includeResolved then signals
          else List.filter (λ sig, sig_Lifecycle sig != "resolved") signals)
  ∧ sum_ActiveSignals s = zlen out
  ∧ (sum_IntroducedSignals s, sum_ExistingSignals s, sum_ResolvedSignals s,
     sum_BaselineSignals s, sum_UnknownSignals s)
    = (count_lifecycle "introduced" signals, count_lifecycle "existing" signals,
       count_lifecycle "resolved" signals, count_lifecycle "baseline" signals,
       count_lifecycle "unknown" signals)
  ∧ (sum_IntroducedSignals s + sum_ExistingSignals s + sum_ResolvedSignals s
     + sum_BaselineSignals s + sum_UnknownSignals s)%Z
    = zlen (List.filter (λ sig, existsb (String.eqb (sig_Lifecycle sig))
        ["introduced"; "existing"; "resolved"; "baseline"; "unknown"]) signals)
  ∧ (0 <= sum_FilesUnanalyzed s <= sum_FilesWithDiagnostics s)%Z.
Proof.
  unfold finalizeSignals. rewrite count_signal_fold. cbn -[countUnanalyzedFiles zlen].
  split; [rewrite sortSignals_perm; by destruct includeResolved|].
  split; [done|]. split; [done|]. split; [apply counted_eq|].
  unfold countUnanalyzedFiles, countFilesWithDiagnostics. rewrite count_not_in, Z.add_0_l.
  unfold zlen. split; [lia|]. apply inj_le.
  etransitivity; [apply List.filter_length_le|].
  change (size (distinctDiagnosticPaths (withoutProjectEdgeDiagnostics diagnostics))
    ≤ size (distinctDiagnosticPaths diagnostics)).
  apply subseteq_size. intros p. rewrite !distinctDiagnosticPaths_elem.
  intros [Hp (d & Hd & Hdp)]. apply filter_In in Hd as [Hd _]. eauto.
Qed.

(** ** Witnesses *)

Definition example_sorted_input : list Signal :=
  map (λ '(path, depth), with_identity "" path (with_lifecycle "existing"
    (rule_signal "complexity.max_nesting_depth" "max_nesting_depth" "complexity" "medium" "medium"
       path "" zero_Location ("max_nesting_depth=" +:+ depth) "" "" "" codesignal_provenance)))
  [("a.go", "5"); ("b.go", "7"); ("c.go", "6")].

Example example_sorted : map sig_Path (sortSignals example_sorted_input) = ["b.go"; "c.go"; "a.go"].
Proof. vm_compute. reflexivity. Qed.

Lemma report_order_witness :
  compare_tiers (List.nth 0 (sortSignals example_sorted_input) zero_Signal)
    (List.nth 1 (sortSignals example_sorted_input) zero_Signal) ≠ Gt.
Proof.
  apply (proj1 (proj2 (report_order example_sorted_input)) 0 1); [lia|vm_compute; reflexivity..].
Defined.

Lemma rank_map_order_independent_witness :
  rank_entries (sort_func compareSignals example_sorted_input)
    (reverse (map_to_list (peer_positions (sort_func compareSignals example_sorted_input))))
  = sortSignals example_sorted_input.
Proof. apply rank_map_order_independent, reverse_Permutation. Defined.

Lemma sort_order_insensitive_witness :
  sortSignals (reverse example_sorted_input) = sortSignals example_sorted_input
  ∧ sortSignals (sortSignals example_sorted_input) = sortSignals example_sorted_input.
Proof.
  apply sort_order_insensitive.
  - apply (bool_decide_unpack _). vm_compute. reflexivity.
  - symmetry. apply reverse_Permutation.
Defined.
