(* ===== verification/Report.v ===== *)
(** * Report and input data

    The records a [Build] reads and writes ([report.go], [input.go],
    [options.go], [project_report.go], [project_provenance.go],
    [project_scope_report.go], [layer_membership_report.go],
    [signals_withheld.go]).  A nil slice and an empty one are the same list. *)

From S2P Require Import Prelude GoText Semantics Domain Signals SignalOrder.

(** go: pkg/codesignal/input.go#Scope *)
Record Scope := mkScope {
  scope_Repository : string; scope_Revision : string; scope_Base : string;
  scope_AppliedScope : string; scope_Baseline : bool
}.

(** go: pkg/codesignal/coverage_types.go#CoverageGroup *)
Record CoverageGroup := mkCoverageGroup { cg_Reason : string; cg_Language : string; cg_Count : Z }.

(** go: pkg/codesignal/coverage_types.go#Coverage *)
Record Coverage := mkCoverage {
  cov_TrackedFilesDiscovered : Z; cov_FilesAnalyzed : Z; cov_FilesUnanalyzable : Z;
  cov_Unsupported : list CoverageGroup; cov_Excluded : list CoverageGroup
}.

(** go: pkg/codesignal/input.go#PathContinuity *)
Record PathContinuity := mkPathContinuity { pcn_Path : string; pcn_PreviousPath : string }.

(** go: pkg/codesignal/options.go#Options *)
Record Options := mkOptions {
  opt_IncludeResolved : bool; opt_Baseline : bool; opt_ProjectEnabled : bool
}.

(** go: pkg/codesignal/input.go#Input *)
Record Input := mkInput {
  in_Scope : Scope; in_Files : list FileChange; in_Diagnostics : list Diagnostic;
  in_Coverage : option Coverage;
  in_ProjectChanges : list ProjectChange; in_BaseProjectChanges : list ProjectChange;
  in_ProjectFacts : list ProjectFact;
  in_ProjectCoverage : option ProjCoverage; in_BaseProjectCoverage : option ProjCoverage;
  in_ProjectBaseAnalyzed : bool;
  in_UndeterminedContinuity : list PathContinuity;
  in_RuntimeKind : string; in_RuntimeVersion : string; in_RuntimeOrigin : string;
  in_CompilerVersion : string; in_CompilerOrigin : string;
  in_Language : string; in_ConfigDigest : string; in_SelectedRoots : list string;
  in_AnalyzerProtocolVersion : Z; in_AnalyzerVersion : string; in_AnalyzerDigest : string;
  in_PackageManagerKind : string; in_PackageManagerVersion : string;
  in_PackageManagerOrigin : string;
  in_HeadProjectScope : option ProjectScope; in_BaseProjectScope : option ProjectScope;
  in_HeadLayerMembership : option LayerMembership;
  in_BaseLayerMembership : option LayerMembership;
  in_LayerForbiddenImportsDeclared : bool;
  in_HeadModelCoverage : option ProjCoverage; in_BaseModelCoverage : option ProjCoverage;
  in_HeadBypassCoverage : option ProjCoverage; in_BaseBypassCoverage : option ProjCoverage;
  in_HeadReachabilityCoverage : option ProjCoverage;
  in_BaseReachabilityCoverage : option ProjCoverage
}.

(** go: pkg/codesignal/project_report.go#ProjectSummary *)
Record ProjectSummary := mkProjectSummary {
  psum_ActiveChanges : Z; psum_IntroducedChanges : Z; psum_ExistingChanges : Z;
  psum_ResolvedChanges : Z; psum_BaselineChanges : Z
}.

(** go: pkg/codesignal/project_provenance.go#ProvenanceAnalyzer *)
Record ProvenanceAnalyzer := mkProvenanceAnalyzer {
  pa_Version : string; pa_Digest : string; pa_ProtocolVersion : Z
}.

(** go: pkg/codesignal/project_provenance.go#ProvenanceRuntime *)
Record ProvenanceRuntime := mkProvenanceRuntime {
  pr_Kind : string; pr_Version : string; pr_Origin : string;
  pr_CompilerVersion : string; pr_CompilerOrigin : string; pr_DeclaredVersion : string
}.

(** go: pkg/codesignal/project_provenance.go#ProvenancePackageManager *)
Record ProvenancePackageManager := mkProvenancePackageManager {
  pm_Kind : string; pm_Version : string; pm_Origin : string
}.

(** go: pkg/codesignal/project_provenance.go#ProvenanceCoverage *)
Record ProvenanceCoverage := mkProvenanceCoverage {
  pcov_Model : string; pcov_Bypass : string; pcov_Reachability : string
}.

(** go: pkg/codesignal/project_provenance.go#ProvenanceRevision *)
Record ProvenanceRevision := mkProvenanceRevision {
  prev_Revision : string; prev_Coverage : ProvenanceCoverage
}.

(** go: pkg/codesignal/project_provenance.go#ProjectProvenance *)
Record ProjectProvenance := mkProjectProvenance {
  pp_Language : string; pp_ConfigDigest : string; pp_SelectedRoots : list string;
  pp_Analyzer : ProvenanceAnalyzer; pp_Runtime : ProvenanceRuntime;
  pp_PackageManager : option ProvenancePackageManager;
  pp_Head : ProvenanceRevision; pp_Base : option ProvenanceRevision
}.

(** go: pkg/codesignal/project_scope_report.go#ProjectScopeRevisionReport *)
Record ProjectScopeRevisionReport := mkProjectScopeRevisionReport {
  psrr_Revision : string; psrr_Roots : list ProjectScopeRoot;
  psrr_MatchedLayers : list string; psrr_UnmatchedLayers : list string
}.

(** go: pkg/codesignal/project_scope_report.go#ProjectScopeReport *)
Record ProjectScopeReport := mkProjectScopeReport {
  psr_InclusionRule : string; psr_PatternSet : string;
  psr_Head : ProjectScopeRevisionReport; psr_Base : option ProjectScopeRevisionReport
}.

(** A next action is its [Kind].
    go: pkg/codesignal/project_scope_report.go#ProjectNextAction *)
Definition ProjectNextAction : Type := string.

(** go: pkg/codesignal/layer_membership_report.go#LayerMembershipRevisionReport *)
Record LayerMembershipRevisionReport := mkLayerMembershipRevisionReport {
  lmr_Revision : string; lmr_AnalyzedFiles : Z; lmr_FilesOutsideLayers : Z
}.

(** go: pkg/codesignal/layer_membership_report.go#LayerMembershipReport *)
Record LayerMembershipReport := mkLayerMembershipReport {
  lmrep_Head : LayerMembershipRevisionReport; lmrep_Base : option LayerMembershipRevisionReport;
  lmrep_ForbiddenImportsDeclared : bool; lmrep_KeyedByPackageDirectory : bool
}.

(** go: pkg/codesignal/signals_withheld.go#SignalsWithheld *)
Record SignalsWithheld := mkSignalsWithheld {
  wh_MinSeverity : string; wh_BelowMinSeverity : Z; wh_Top : Z; wh_BeyondTop : Z
}.

(** go: pkg/codesignal/report.go#Report *)
Record Report := mkReport {
  rep_SchemaVersion : string; rep_Scope : Scope; rep_Summary : Summary;
  rep_Signals : list Signal; rep_Diagnostics : list Diagnostic; rep_Coverage : option Coverage;
  rep_SignalsWithheld : option SignalsWithheld;
  rep_ProjectChanges : list ProjectChange; rep_ProjectFacts : list ProjectFact;
  rep_ProjectSummary : option ProjectSummary; rep_ProjectCoverage : option ProjCoverage;
  rep_ProjectProvenance : option ProjectProvenance;
  rep_ProjectScope : option ProjectScopeReport;
  rep_ProjectNextActions : list ProjectNextAction;
  rep_LayerMembership : option LayerMembershipReport
}.
