(* ===== verification/Narrow.v ===== *)
(** * Presentation views of a report

    [Report.Narrow] and the record of what it withheld ([signal_view.go],
    [signals_withheld.go]). *)

From S2P Require Import Prelude GoOrder GoText Semantics Domain Signals Rules SignalOrder Report.

(** ** The withheld record *)

(** The reasons [validate] refuses a record, in the order it tests them. *)
Inductive WithheldError :=
  | NegativeCapOrCount
  | FloorNotASeverity (floor : string)
  | FloorCountWithoutFloor
  | CapCountWithoutCap
  | NoNarrowingNamed.

(** go: pkg/codesignal/signals_withheld.go#validate *)
Definition validateWithheld (w : SignalsWithheld) : option WithheldError :=
  if (wh_Top w <? 0)%Z || (wh_BelowMinSeverity w <? 0)%Z || (wh_BeyondTop w <? 0)%Z
  then Some NegativeCapOrCount
  else if (wh_MinSeverity w != "")
          && match ParseSeverityFloor (wh_MinSeverity w) with Some _ => false | None => true end
  then Some (FloorNotASeverity (wh_MinSeverity w))
  else if (wh_MinSeverity w == "") && negb (wh_BelowMinSeverity w =? 0)%Z
  then Some FloorCountWithoutFloor
  else if (wh_Top w =? 0)%Z && negb (wh_BeyondTop w =? 0)%Z then Some CapCountWithoutCap
  else if (wh_MinSeverity w == "") && (wh_Top w =? 0)%Z then Some NoNarrowingNamed
  else None.

(** The JSON object: each pair is present while its narrowing is in effect. *)
Record WithheldWire := mkWithheldWire {
  ww_floor : option (string * Z); ww_cap : option (Z * Z)
}.

(** go: pkg/codesignal/signals_withheld.go#MarshalJSON *)
Definition marshalWithheld (w : SignalsWithheld) : WithheldError + WithheldWire :=
  match validateWithheld w with
  | Some err => inl err
  | None =>
      inr (mkWithheldWire
        (if wh_MinSeverity w != "" then Some (wh_MinSeverity w, wh_BelowMinSeverity w) else None)
        (if (0 <? wh_Top w)%Z then Some (wh_Top w, wh_BeyondTop w) else None))
  end.

(** What a reader of the object recovers. *)
Definition unmarshalWithheld (wire : WithheldWire) : SignalsWithheld :=
  let '(floor, below) := default ("", 0%Z) (ww_floor wire) in
  let '(top, beyond) := default (0%Z, 0%Z) (ww_cap wire) in
  mkSignalsWithheld floor below top beyond.

(** ** Narrowing *)

(** go: pkg/codesignal/signal_view.go#NarrowOptions *)
Record NarrowOptions := mkNarrowOptions { no_MinSeverity : string; no_Top : Z }.

(** go: pkg/codesignal/signal_view.go:8-19#ErrNilReport *)
Inductive NarrowError := ErrNilReport | ErrUnknownSeverityFloor | ErrNegativeTop | ErrAlreadyNarrowed.

(** go: pkg/codesignal/signal_view.go#validateNarrowing *)
Definition validateNarrowing (r : option Report) (opts : NarrowOptions) : option NarrowError :=
  match r with
  | None => Some ErrNilReport
  | Some r =>
      match rep_SignalsWithheld r with
      | Some _ => Some ErrAlreadyNarrowed
      | None =>
          if (no_Top opts <? 0)%Z then Some ErrNegativeTop
          else match ParseSeverityFloor (no_MinSeverity opts) with
          | Some _ => None
          | None => if no_MinSeverity opts != "" then Some ErrUnknownSeverityFloor else None
          end
      end
  end.

(** go: pkg/codesignal/signal_view.go#atOrAboveFloor *)
Definition atOrAboveFloor (signals : list Signal) (floor : string) : list Signal * Z :=
  let floorRank := severityRank floor in
  let kept := List.filter (λ signal, negb (severityRank (sig_Severity signal) <? floorRank)%Z) signals in
  (kept, zlen signals - zlen kept)%Z.

(** go: pkg/codesignal/signal_view.go#leading *)
Definition leading (signals : list Signal) (n : Z) : list Signal * Z :=
  let kept := Z.min n (zlen signals) in
  (take (Z.to_nat kept) signals, zlen signals - kept)%Z.

(** go: pkg/codesignal/signal_view.go#followSignals *)
Definition followSignals (changes : list ProjectChange) (kept : list Signal) : list ProjectChange :=
  let keptIDs : gset string := list_to_set (map sig_ID kept) in
  List.filter (λ change, bool_decide (pch_ID change ∈ keptIDs)) changes.

(** The three fields a view replaces. *)
Definition with_view (signals : list Signal) (changes : list ProjectChange) (w : SignalsWithheld)
    (r : Report) : Report :=
  mkReport (rep_SchemaVersion r) (rep_Scope r) (rep_Summary r) signals (rep_Diagnostics r)
    (rep_Coverage r) (Some w) changes (rep_ProjectFacts r) (rep_ProjectSummary r)
    (rep_ProjectCoverage r) (rep_ProjectProvenance r) (rep_ProjectScope r)
    (rep_ProjectNextActions r) (rep_LayerMembership r).

(** go: pkg/codesignal/signal_view.go#Narrow *)
Definition Narrow (r : option Report) (opts : NarrowOptions) : NarrowError + Report :=
  match validateNarrowing r opts, r with
  | Some err, _ => inl err
  | None, None => inl ErrNilReport
  | None, Some r =>
      if (no_MinSeverity opts == "") && (no_Top opts =? 0)%Z then inr r else
      let kept := sortSignals (rep_Signals r) in
      let '(kept, floor, below) :=
        if no_MinSeverity opts != ""
        then let '(kept, below) := atOrAboveFloor kept (no_MinSeverity opts) in
             (kept, no_MinSeverity opts, below)
        else (kept, "", 0%Z) in
      let '(kept, top, beyond) :=
        if (0 <? no_Top opts)%Z
        then let '(kept, beyond) := leading kept (no_Top opts) in (kept, no_Top opts, beyond)
        else (kept, 0%Z, 0%Z) in
      inr (with_view kept (followSignals (rep_ProjectChanges r) kept)
             (mkSignalsWithheld floor below top beyond) r)
  end.

(** ** Lemmas *)

Lemma ParseSeverityFloor_empty : ParseSeverityFloor "" = None.
Proof. reflexivity. Qed.

Lemma floor_known floor :
  (floor != "") && match ParseSeverityFloor floor with Some _ => false | None => true end = false ↔
  floor = "" ∨ In floor severityOrder.
Proof.
  destruct (ParseSeverityFloor floor) as [f|] eqn:E.
  - apply ParseSeverityFloor_Some in E as [_ H]. rewrite andb_false_r. tauto.
  - rewrite andb_true_r, negb_false_iff, String.eqb_eq. split; [auto|]. intros [H|H]; [done|].
    assert (ParseSeverityFloor floor = Some floor) as E' by (by apply ParseSeverityFloor_Some).
    congruence.
Qed.

(** The records [validate] accepts. *)
Lemma validateWithheld_None w :
  validateWithheld w = None ↔
  (0 <= wh_Top w ∧ 0 <= wh_BelowMinSeverity w ∧ 0 <= wh_BeyondTop w)%Z
  ∧ (wh_MinSeverity w = "" ∨ In (wh_MinSeverity w) severityOrder)
  ∧ (wh_MinSeverity w = "" → wh_BelowMinSeverity w = 0%Z)
  ∧ (wh_Top w = 0%Z → wh_BeyondTop w = 0%Z)
  ∧ ¬ (wh_MinSeverity w = "" ∧ wh_Top w = 0%Z).
Proof.
  unfold validateWithheld. rewrite <- floor_known.
  destruct (Z.ltb_spec (wh_Top w) 0), (Z.ltb_spec (wh_BelowMinSeverity w) 0),
    (Z.ltb_spec (wh_BeyondTop w) 0); cbn [orb]; try (split; [done|lia]).
  destruct (_ && match ParseSeverityFloor _ with _ => _ end); [split; [done|naive_solver]|].
  destruct (String.eqb_spec (wh_MinSeverity w) ""), (Z.eqb_spec (wh_BelowMinSeverity w) 0),
    (Z.eqb_spec (wh_Top w) 0), (Z.eqb_spec (wh_BeyondTop w) 0); cbn; naive_solver lia.
Qed.

Lemma validateNarrowing_Some r opts :
  validateNarrowing (Some r) opts = None ↔
  rep_SignalsWithheld r = None ∧ (0 <= no_Top opts)%Z
  ∧ (no_MinSeverity opts = "" ∨ In (no_MinSeverity opts) severityOrder).
Proof.
  unfold validateNarrowing. rewrite <- floor_known.
  destruct (rep_SignalsWithheld r); [naive_solver|].
  destruct (Z.ltb_spec (no_Top opts) 0); [split; [done|lia]|].
  destruct (ParseSeverityFloor _), (_ != ""); cbn; naive_solver.
Qed.

(** The signals a view keeps above its floor, and the view itself. *)
Definition above_floor (floor : string) (signals : list Signal) : list Signal :=
  if floor == "" then signals
  else List.filter (λ s, (severityRank floor <=? severityRank (sig_Severity s))%Z) signals.

Definition capped (top : Z) (signals : list Signal) : list Signal :=
  if (0 <? top)%Z then take (Z.to_nat top) signals else signals.

Lemma atOrAboveFloor_eq signals floor :
  floor ≠ "" →
  atOrAboveFloor signals floor
  = (above_floor floor signals, zlen signals - zlen (above_floor floor signals))%Z.
Proof.
  intros H%String.eqb_neq. unfold atOrAboveFloor, above_floor. rewrite H.
  rewrite (filter_ext_In _ (λ s, (severityRank floor <=? severityRank (sig_Severity s))%Z)); [done|].
  intros s _. by rewrite Z.ltb_antisym, negb_involutive.
Qed.

Lemma leading_eq signals n :
  (0 < n)%Z →
  leading signals n = (capped n signals, zlen signals - zlen (capped n signals))%Z.
Proof.
  intros H. unfold leading, capped, zlen. apply Z.ltb_lt in H as E. rewrite E. f_equal.
  - destruct (Z.le_gt_cases n (Z.of_nat (length signals))).
    + by rewrite Z.min_l.
    + rewrite Z.min_r, Nat2Z.id, !take_ge; [done|lia|done|lia].
  - rewrite length_take. lia.
Qed.

Lemma above_floor_length floor signals : length (above_floor floor signals) ≤ length signals.
Proof. unfold above_floor. case_match; [done|]. apply List.filter_length_le. Qed.

Lemma capped_length top signals : length (capped top signals) ≤ length signals.
Proof. unfold capped. case_match; [|done]. rewrite length_take. lia. Qed.

Lemma above_floor_sublist floor signals : above_floor floor signals `sublist_of` signals.
Proof.
  unfold above_floor. case_match; [reflexivity|]. induction signals as [|s l IH]; simpl; [done|].
  case_match; by constructor.
Qed.

Lemma capped_sublist top signals : capped top signals `sublist_of` signals.
Proof. unfold capped. case_match; [apply sublist_take|reflexivity]. Qed.

Lemma sublist_In {A} (l l' : list A) x : l `sublist_of` l' → In x l → In x l'.
Proof. rewrite <- !list_elem_of_In. intros H. by apply sublist_subseteq. Qed.

Lemma above_floor_rank floor signals s :
  floor ≠ "" → In s (above_floor floor signals) →
  (severityRank floor <= severityRank (sig_Severity s))%Z.
Proof.
  intros H%String.eqb_neq. unfold above_floor. rewrite H, filter_In. intros [_ Hs].
  by apply Z.leb_le.
Qed.

(** What a successful narrowing returns. *)
Lemma Narrow_inr r opts v :
  Narrow (Some r) opts = inr v →
  validateNarrowing (Some r) opts = None ∧
  (no_MinSeverity opts = "" ∧ no_Top opts = 0%Z ∧ v = r ∨
   ¬ (no_MinSeverity opts = "" ∧ no_Top opts = 0%Z) ∧
   let all := sortSignals (rep_Signals r) in
   let floored := above_floor (no_MinSeverity opts) all in
   let shown := capped (no_Top opts) floored in
   v = with_view shown (followSignals (rep_ProjectChanges r) shown)
         (mkSignalsWithheld (no_MinSeverity opts) (zlen all - zlen floored)
            (no_Top opts) (zlen floored - zlen shown)) r).
Proof.
  unfold Narrow. destruct (validateNarrowing (Some r) opts) eqn:Ev; [done|].
  apply validateNarrowing_Some in Ev as (_ & Htop & _). intros H. split; [done|].
  destruct opts as [floor top]. cbn [no_MinSeverity no_Top] in *.
  destruct (String.eqb_spec floor "") as [->|Hf], (Z.eqb_spec top 0) as [->|Ht]; cbn [andb] in H.
  - left. by simplify_eq.
  - right. split; [naive_solver|]. assert (0 < top)%Z as Hp by lia. apply Z.ltb_lt in Hp as E.
    rewrite E in H. cbn [negb] in H. cbv beta iota in H. rewrite leading_eq in H by done.
    injection H as <-. cbv zeta. change (above_floor "" ?l) with l. by rewrite Z.sub_diag.
  - right. split; [naive_solver|]. cbn [negb] in H. rewrite atOrAboveFloor_eq in H by done.
    injection H as <-. cbv zeta. change (capped 0 ?l) with l. by rewrite Z.sub_diag.
  - right. split; [naive_solver|]. assert (0 < top)%Z as Hp by lia. apply Z.ltb_lt in Hp as E.
    rewrite E in H. cbn [negb] in H. rewrite atOrAboveFloor_eq in H by done.
    cbv beta iota in H. rewrite leading_eq in H by done. by injection H as <-.
Qed.

(** Validation decides between an error and a view. *)
Lemma Narrow_validated r opts :
  match validateNarrowing r opts with
  | Some err => Narrow r opts = inl err
  | None => ∃ v, Narrow r opts = inr v
  end.
Proof.
  unfold Narrow. destruct (validateNarrowing r opts) eqn:E; [done|].
  destruct r as [r|]; [|done]. destruct (_ && _); [by eexists|].
  destruct (if no_MinSeverity opts != "" then _ else _) as [[? ?] ?].
  destruct (if (0 <? no_Top opts)%Z then _ else _) as [[? ?] ?]. by eexists.
Qed.

(** The same report with its signals listed differently. *)
Definition with_signals (signals : list Signal) (r : Report) : Report :=
  mkReport (rep_SchemaVersion r) (rep_Scope r) (rep_Summary r) signals (rep_Diagnostics r)
    (rep_Coverage r) (rep_SignalsWithheld r) (rep_ProjectChanges r) (rep_ProjectFacts r)
    (rep_ProjectSummary r) (rep_ProjectCoverage r) (rep_ProjectProvenance r) (rep_ProjectScope r)
    (rep_ProjectNextActions r) (rep_LayerMembership r).

(** ** Properties *)

(** A narrowed view accounts for every signal: what it shows plus what the
    record says it withheld is what the report held.  The shown signals are in
    report order, at or above the floor and no more than the cap; when the cap
    withheld anything it is reached exactly; and only the signals, the project
    changes and the record differ from the report. *)
Theorem narrow_accounting r opts v w :
  Narrow (Some r) opts = inr v → rep_SignalsWithheld v = Some w →
  (zlen (rep_Signals v) + wh_BelowMinSeverity w + wh_BeyondTop w = zlen (rep_Signals r))%Z
  ∧ rep_Signals v `sublist_of` sortSignals (rep_Signals r)
  ∧ (no_MinSeverity opts ≠ "" →
     Forall (λ s, severityRank (no_MinSeverity opts) <= severityRank (sig_Severity s))%Z (rep_Signals v))
  ∧ ((0 < no_Top opts)%Z → (zlen (rep_Signals v) <= no_Top opts)%Z)
  ∧ ((0 < wh_BeyondTop w)%Z → zlen (rep_Signals v) = no_Top opts)
  ∧ wh_MinSeverity w = no_MinSeverity opts ∧ wh_Top w = no_Top opts
  ∧ rep_Summary v = rep_Summary r ∧ rep_Diagnostics v = rep_Diagnostics r
  ∧ rep_Coverage v = rep_Coverage r ∧ rep_ProjectSummary v = rep_ProjectSummary r.
Proof.
  intros H Hw. apply Narrow_inr in H as [Hv [(_ & _ & ->)|[Hz H]]].
  { apply validateNarrowing_Some in Hv as [Hn _]. congruence. }
  apply validateNarrowing_Some in Hv as (_ & Htop & _). cbv zeta in H. subst v.
  injection Hw as <-. cbn [rep_Signals with_view wh_BelowMinSeverity wh_BeyondTop wh_MinSeverity wh_Top].
  set (all := sortSignals (rep_Signals r)). set (floored := above_floor (no_MinSeverity opts) all).
  assert (zlen all = zlen (rep_Signals r)) as Hall by (unfold zlen, all; by rewrite sortSignals_length).
  assert (zlen (capped (no_Top opts) floored)
    = if (0 <? no_Top opts)%Z then Z.min (no_Top opts) (zlen floored) else zlen floored) as Hc.
  { unfold capped, zlen. destruct (Z.ltb_spec 0 (no_Top opts)); [rewrite length_take; lia|done]. }
  split_and!; try done.
  - lia.
  - etransitivity; [apply capped_sublist|apply above_floor_sublist].
  - intros Hf. apply List.Forall_forall. intros s Hs.
    apply (sublist_In _ _ _ (capped_sublist _ _)) in Hs. by apply (above_floor_rank _ all).
  - intros Hp%Z.ltb_lt. rewrite Hc, Hp. lia.
  - intros Hb. rewrite Hc in Hb |- *. destruct (Z.ltb_spec 0 (no_Top opts)); lia.
Qed.

(** A narrowing fails exactly on a missing report, an already narrowed one,
    a negative cap or a floor outside the severities, each reported by its own
    error in that order of precedence; in every other case it returns a view. *)
Theorem narrow_errors r opts :
  let outcome := Narrow r opts in
  let known := In (no_MinSeverity opts) ("" :: SeverityFloors) in
  (outcome = inl ErrNilReport ↔ r = None) ∧
  ∀ rep, r = Some rep →
    let fresh := rep_SignalsWithheld rep = None in
    (outcome = inl ErrAlreadyNarrowed ↔ ¬ fresh)
    ∧ (outcome = inl ErrNegativeTop ↔ fresh ∧ (no_Top opts < 0)%Z)
    ∧ (outcome = inl ErrUnknownSeverityFloor ↔ fresh ∧ (0 <= no_Top opts)%Z ∧ ¬ known)
    ∧ ((∃ v, outcome = inr v) ↔ fresh ∧ (0 <= no_Top opts)%Z ∧ known).
Proof.
  cbv zeta.
  assert (In (no_MinSeverity opts) ("" :: SeverityFloors) ↔
    (no_MinSeverity opts != "") &&
    match ParseSeverityFloor (no_MinSeverity opts) with Some _ => false | None => true end = false)
    as Hk by (rewrite floor_known; cbn; naive_solver).
  setoid_rewrite Hk. clear Hk. pose proof (Narrow_validated r opts) as Hv.
  split; [|intros rep ->].
  - destruct r as [rep|]; [|by rewrite Hv]. split; [|done].
    unfold validateNarrowing in Hv. intros E. rewrite E in Hv.
    destruct (rep_SignalsWithheld rep), (no_Top opts <? 0)%Z, (ParseSeverityFloor (no_MinSeverity opts)),
      (no_MinSeverity opts != ""); naive_solver.
  - unfold validateNarrowing in Hv. destruct (rep_SignalsWithheld rep).
    { rewrite Hv. naive_solver. }
    destruct (Z.ltb_spec (no_Top opts) 0).
    { rewrite Hv. naive_solver lia. }
    destruct (ParseSeverityFloor _), (no_MinSeverity opts != ""); cbn [andb];
      first [rewrite Hv | destruct Hv as [v ->]]; split_and!; split; intros H';
      try discriminate H'; destruct_and?; try congruence; try lia; try (split_and!; congruence);
      eauto; by destruct H'.
Qed.

(** A view does not depend on the order the report lists its signals in,
    provided their IDs are distinct and the options narrow anything. *)
Theorem narrow_order_insensitive r signals opts v :
  NoDup (map sig_ID (rep_Signals r)) → signals ≡ₚ rep_Signals r →
  ¬ (no_MinSeverity opts = "" ∧ no_Top opts = 0%Z) →
  Narrow (Some r) opts = inr v →
  Narrow (Some (with_signals signals r)) opts = inr v.
Proof.
  intros Hnd Hp Hz H. pose proof (Narrow_validated (Some (with_signals signals r)) opts) as Hv.
  change (validateNarrowing (Some (with_signals signals r)) opts)
    with (validateNarrowing (Some r) opts) in Hv.
  apply Narrow_inr in H as [Hval [(? & ? & _)|[_ ->]]]; [tauto|].
  rewrite Hval in Hv. destruct Hv as [v' Hv']. rewrite Hv'.
  apply Narrow_inr in Hv' as [_ [(? & ? & _)|[_ ->]]]; [tauto|].
  cbn [rep_Signals rep_ProjectChanges with_signals].
  rewrite <- (sortSignals_perm_eq (rep_Signals r) signals); [done|done|by symmetry].
Qed.

(** A view keeps a project change exactly when it shows a signal with the
    same ID, in the report's order. *)
Theorem narrow_project_changes r opts v :
  ¬ (no_MinSeverity opts = "" ∧ no_Top opts = 0%Z) → Narrow (Some r) opts = inr v →
  rep_ProjectChanges v `sublist_of` rep_ProjectChanges r
  ∧ ∀ change, In change (rep_ProjectChanges v) ↔
      In change (rep_ProjectChanges r) ∧ ∃ s, In s (rep_Signals v) ∧ sig_ID s = pch_ID change.
Proof.
  intros Hz H. apply Narrow_inr in H as [_ [(? & ? & _)|[_ ->]]]; [tauto|].
  cbn [rep_ProjectChanges rep_Signals with_view]. split.
  - unfold followSignals. generalize (rep_ProjectChanges r) as l. intros l.
    induction l as [|c l IH]; simpl; [done|]. case_match; by constructor.
  - intros change. unfold followSignals. rewrite filter_In, bool_decide_eq_true.
    rewrite elem_of_list_to_set, list_elem_of_In, in_map_iff. naive_solver.
Qed.

(** Every record a narrowing writes is one [validate] accepts, and encoding
    it loses nothing: a reader of the object recovers the record. *)
Theorem withheld_record_valid r opts v w :
  Narrow (Some r) opts = inr v → rep_SignalsWithheld v = Some w →
  validateWithheld w = None
  ∧ ∃ wire, marshalWithheld w = inr wire ∧ unmarshalWithheld wire = w.
Proof.
  intros H Hw. apply Narrow_inr in H as [Hv [(_ & _ & ->)|[Hz ->]]];
    apply validateNarrowing_Some in Hv as (Hn & Htop & Hf); [congruence|].
  injection Hw as <-.
  set (all := sortSignals (rep_Signals r)). set (floored := above_floor (no_MinSeverity opts) all).
  assert (validateWithheld (mkSignalsWithheld (no_MinSeverity opts) (zlen all - zlen floored)
    (no_Top opts) (zlen floored - zlen (capped (no_Top opts) floored))) = None) as Hok.
  { apply validateWithheld_None. cbn.
    pose proof (above_floor_length (no_MinSeverity opts) all).
    pose proof (capped_length (no_Top opts) floored). unfold zlen, floored in *.
    split_and!; try lia; try done.
    - intros ->. change (above_floor "" all) with all. lia.
    - intros ->. change (capped 0 ?l) with l. lia. }
  split; [done|]. unfold marshalWithheld. rewrite Hok. eexists. split; [done|].
  apply validateWithheld_None in Hok as (_ & _ & Hb & Hc & _). cbn in Hb, Hc. cbn.
  destruct (String.eqb_spec (no_MinSeverity opts) "") as [E|_], (Z.ltb_spec 0 (no_Top opts));
    cbn; f_equal; try done; try (by symmetry; auto); try lia; symmetry; apply Hc; lia.
Qed.

(** ** Witnesses *)

Definition example_report : Report :=
  mkReport "1" (mkScope "" "" "" "" false) (mkSummary 3 0 0 3 0 3 0 0 0) example_sorted_input []
    None None [] [] None None None None [] None.

Definition example_view : Report :=
  match Narrow (Some example_report) (mkNarrowOptions "medium" 2) with
  | inr v => v
  | inl _ => example_report
  end.

Lemma narrow_accounting_witness :
  (zlen (rep_Signals example_view) + 0 + 1 = zlen (rep_Signals example_report))%Z.
Proof.
  apply (narrow_accounting example_report (mkNarrowOptions "medium" 2) example_view
    (mkSignalsWithheld "medium" 0 2 1)); vm_compute; reflexivity.
Defined.

Lemma narrow_errors_witness :
  Narrow (Some example_report) (mkNarrowOptions "urgent" 0) = inl ErrUnknownSeverityFloor.
Proof.
  apply (proj2 (narrow_errors (Some example_report) (mkNarrowOptions "urgent" 0)) example_report eq_refl).
  repeat split; [cbn; lia|]. vm_compute. intuition discriminate.
Defined.

Lemma narrow_order_insensitive_witness :
  Narrow (Some (with_signals (reverse example_sorted_input) example_report)) (mkNarrowOptions "medium" 2)
  = inr example_view.
Proof.
  apply (narrow_order_insensitive example_report).
  - apply (bool_decide_unpack _). vm_compute. reflexivity.
  - apply reverse_Permutation.
  - intros [? _]. discriminate.
  - vm_compute. reflexivity.
Defined.

Lemma narrow_project_changes_witness :
  rep_ProjectChanges example_view `sublist_of` rep_ProjectChanges example_report.
Proof.
  apply (narrow_project_changes example_report (mkNarrowOptions "medium" 2)).
  - intros [? _]. discriminate.
  - vm_compute. reflexivity.
Defined.

Lemma withheld_record_valid_witness : validateWithheld (mkSignalsWithheld "medium" 0 2 1) = None.
Proof.
  apply (withheld_record_valid example_report (mkNarrowOptions "medium" 2) example_view);
    vm_compute; reflexivity.
Defined.
