(* ===== verification/LayerRules.v ===== *)
(** * Layer rules

    The two architecture rules over project facts: forbidden imports between
    declared layers ([rule_layer_violation*.go]) and statically resolved call paths
    that skip a required layer ([rule_layer_bypass*.go]). *)

From Stdlib Require Import Ascii.
From S2P Require Import Prelude GoOrder GoText GoHash Semantics Domain Signals SignalOrder.

(** ** Policy *)

(** go: pkg/codesignal/rule_layer_violation.go#ruleLayerViolationID *)
Definition ruleLayerViolationID : string := "architecture.layer_violation".

(** go: pkg/codesignal/rule_layer_violation.go#layerViolationWhyItMatters *)
Definition layerViolationWhyItMatters : string :=
  "Import edges that cross a configured layer boundary erode the architecture the team claims to follow, so drift compounds across packages that look fine in isolation.".

(** go: pkg/codesignal/rule_layer_violation.go#layerViolationRecommendation *)
Definition layerViolationRecommendation : string :=
  "Move the dependency behind an allowed boundary (interface in the lower layer, invert the import, or relocate the shared type), or update the explicit layer policy if the edge is intentional.".

(** go: pkg/codesignal/rule_layer_violation.go#ArchitectureLayer *)
Record ArchitectureLayer := mkArchitectureLayer { al_Name : string; al_Prefixes : list string }.

(** go: pkg/codesignal/rule_layer_violation.go#ForbiddenLayerImport *)
Record ForbiddenLayerImport := mkForbiddenLayerImport { fli_From : string; fli_To : string }.

(** go: pkg/codesignal/rule_layer_violation.go#LayerPolicy *)
Record LayerPolicy := mkLayerPolicy {
  lp_Layers : list ArchitectureLayer;
  lp_ForbiddenImports : list ForbiddenLayerImport;
  lp_ExcludeTypeOnlyEdges : bool
}.

(** ** Matching *)

(** go: pkg/codesignal/rule_layer_violation_match.go#layerPairKey *)
Record layerPairKey := mkLayerPairKey { lpk_importer : string; lpk_importee : string }.

#[export] Instance layerPairKey_eq_dec : EqDecision layerPairKey.
Proof. solve_decision. Defined.
#[export] Instance layerPairKey_countable : Countable layerPairKey.
Proof.
  refine (inj_countable' (λ k, (lpk_importer k, lpk_importee k))
    (λ t, mkLayerPairKey t.1 t.2) _). by intros [].
Defined.

(** go: pkg/codesignal/rule_layer_violation_match.go#buildForbiddenLayerPairSet *)
Definition buildForbiddenLayerPairSet (policy : LayerPolicy) : gset (string * string) :=
  fold_left (λ forbidden f, {[(fli_From f, fli_To f)]} ∪ forbidden) (lp_ForbiddenImports policy) ∅.

(** The loop over one layer's prefixes. *)
Fixpoint prefixes_contain (prefixes : list string) (dir : string) : bool :=
  match prefixes with
  | [] => false
  | prefix :: rest => if LayerPrefixContains prefix dir then true else prefixes_contain rest dir
  end.

(** go: pkg/codesignal/rule_layer_violation_match.go#layerContainsDir *)
Definition layerContainsDir (layer : ArchitectureLayer) (dir : string) : bool :=
  prefixes_contain (al_Prefixes layer) dir.

(** go: pkg/codesignal/rule_layer_violation_match.go#matchLayer *)
Fixpoint matchLayer (layers : list ArchitectureLayer) (dir : string) : option ArchitectureLayer :=
  match layers with
  | [] => None
  | layer :: rest => if layerContainsDir layer dir then Some layer else matchLayer rest dir
  end.

Definition layer_pair_less (a b : layerPairKey) : bool :=
  if lpk_importer a != lpk_importer b then str_less (lpk_importer a) (lpk_importer b)
  else str_less (lpk_importee a) (lpk_importee b).

(** go: pkg/codesignal/rule_layer_violation_match.go#sortedLayerPairKeys *)
Definition sortedLayerPairKeys (groups : gmap layerPairKey (list ImportEdge)) : list layerPairKey :=
  stable_sort layer_pair_less (map fst (map_to_list groups)).

(** The common tail of both pair functions. *)
Definition forbidden_pair (layers : list ArchitectureLayer) (forbidden : gset (string * string))
    (importer importee : string) : option (layerPairKey * (string * string)) :=
  match matchLayer layers importer, matchLayer layers importee with
  | Some layerFrom, Some layerTo =>
      if bool_decide ((al_Name layerFrom, al_Name layerTo) ∈ forbidden)
      then Some (mkLayerPairKey importer importee, (al_Name layerFrom, al_Name layerTo))
      else None
  | _, _ => None
  end.

(** go: pkg/codesignal/rule_layer_violation_go_edges.go#forbiddenInternalPair *)
Definition forbiddenInternalPair (edge : ImportEdge) (layers : list ArchitectureLayer)
    (forbidden : gset (string * string)) : option (layerPairKey * (string * string)) :=
  if edge_Kind edge != "internal" then None
  else forbidden_pair layers forbidden (TrimPrefix "package:" (edge_From edge))
         (TrimPrefix "package:" (edge_To edge)).

(** go: pkg/codesignal/rule_layer_violation_ts_edges.go#evaluatedTSEdgeKind *)
Definition evaluatedTSEdgeKind (kind : string) (excludeTypeOnly : bool) : bool :=
  if (kind == "import") || (kind == "reexport") || (kind == "commonjs_require")
     || (kind == "dynamic_import") then true
  else if kind == "type_only" then negb excludeTypeOnly else false.

(** go: pkg/codesignal/rule_layer_violation_ts_edges.go#forbiddenTSPair *)
Definition forbiddenTSPair (edge : ImportEdge) (layers : list ArchitectureLayer)
    (forbidden : gset (string * string)) (excludeTypeOnly : bool) :
    option (layerPairKey * (string * string)) :=
  if negb (evaluatedTSEdgeKind (edge_Kind edge) excludeTypeOnly) then None
  else match CutPrefix "file:" (edge_From edge), CutPrefix "file:" (edge_To edge) with
  | Some importerFile, Some importeeFile => forbidden_pair layers forbidden importerFile importeeFile
  | _, _ => None
  end.

Definition layer_groups : Type :=
  gmap layerPairKey (list ImportEdge) * gmap layerPairKey (string * string).

(** The grouping loop, for either pair function. *)
Definition group_forbidden (pair : ImportEdge → option (layerPairKey * (string * string)))
    (edges : list ImportEdge) : layer_groups :=
  fold_left (λ '(groups, groupLayers) edge,
    match pair edge with
    | None => (groups, groupLayers)
    | Some (key, layers) => (group_append key edge groups, <[key := layers]> groupLayers)
    end) edges (∅, ∅).

(** go: pkg/codesignal/rule_layer_violation_go_edges.go#groupForbiddenInternalEdges *)
Definition groupForbiddenInternalEdges (edges : list ImportEdge) (policy : LayerPolicy) : layer_groups :=
  let forbidden := buildForbiddenLayerPairSet policy in
  group_forbidden (λ edge, forbiddenInternalPair edge (lp_Layers policy) forbidden) edges.

(** go: pkg/codesignal/rule_layer_violation_ts_edges.go#groupForbiddenTSEdges *)
Definition groupForbiddenTSEdges (edges : list ImportEdge) (policy : LayerPolicy) : layer_groups :=
  let forbidden := buildForbiddenLayerPairSet policy in
  group_forbidden (λ edge,
    forbiddenTSPair edge (lp_Layers policy) forbidden (lp_ExcludeTypeOnlyEdges policy)) edges.

(** ** Changes *)

Definition zero_ProjectLocation : ProjectLocation := mkProjectLocation "" zero_Location.

(** A location with only a start row. *)
Definition row_location (row : N) : Location := mkLocation 0 0 row 0 0 0.

(** go: pkg/codesignal/rule_layer_violation.go#parseSiteLocation *)
Definition parseSiteLocation (site : string) : ProjectLocation :=
  match CutLast ch_colon site with
  | None => mkProjectLocation site zero_Location
  | Some (path, line) =>
      match Atoi line with
      | Some row => if (row <=? 0)%Z then mkProjectLocation path zero_Location
                    else mkProjectLocation path (row_location (Z.to_N (row - 1)))
      | None => mkProjectLocation path zero_Location
      end
  end.

(** go: pkg/codesignal/rule_layer_violation.go#allEdgesTypeOnly *)
Definition allEdgesTypeOnly (edges : list ImportEdge) : bool :=
  forallb (λ edge, edge_Kind edge == "type_only") edges && (0 <? zlen edges)%Z.

(** go: pkg/codesignal/rule_layer_violation.go#layerViolationChange *)
Definition layerViolationChange (key : layerPairKey) (edges : list ImportEdge)
    (layerFromName layerToName ruleVersion backendVersion configDigest language : string) :
    ProjectChange :=
  let sites := sort_strings (map edge_Site edges) in
  let machineEvidence : gmap string string :=
    <["importer" := lpk_importer key]> (<["importee" := lpk_importee key]>
    (<["layer_from" := layerFromName]> (<["layer_to" := layerToName]>
    (<["rule" := layerFromName +:+ "->" +:+ layerToName]> ∅)))) in
  let machineEvidence :=
    if language != "" then <["language" := language]> machineEvidence else machineEvidence in
  let machineEvidence :=
    if allEdgesTypeOnly edges
    then <["removed_if_set" := "exclude_type_only_edges"]> machineEvidence else machineEvidence in
  {| pch_SemanticKey := "architecture.layer_violation:" +:+ lpk_importer key +:+ "->"
                        +:+ lpk_importee key;
     pch_ID := ""; pch_Fingerprint := "";
     pch_RuleID := ruleLayerViolationID; pch_RuleVersion := ruleVersion;
     pch_BackendVersion := backendVersion; pch_AlgorithmVersion := "";
     pch_ConfigDigest := configDigest; pch_Kind := "architecture.layer_violation";
     pch_Category := "architecture"; pch_Severity := "advisory"; pch_Confidence := "high";
     pch_Lifecycle := ""; pch_Changed := false; pch_CausalEvidenceDigest := "";
     pch_PrimaryAnchor := match sites with
                          | site :: _ => parseSiteLocation site
                          | [] => zero_ProjectLocation
                          end;
     pch_RelatedLocations := map parseSiteLocation (tail sites);
     pch_PathSteps := []; pch_CoverageRefs := [];
     pch_Evidence := lpk_importer key +:+ " imports " +:+ lpk_importee key +:+ " (layer "
                     +:+ layerFromName +:+ " -> " +:+ layerToName +:+ " is forbidden)";
     pch_MachineEvidence := machineEvidence;
     pch_WhyItMatters := layerViolationWhyItMatters;
     pch_Recommendation := layerViolationRecommendation; pch_SuggestedSkill := "";
     pch_Provenance := mkProvenance "projectmodel" "architecture.layer_violation" "" |}.

(** The loop over the sorted keys. *)
Definition violation_changes (ruleVersion backendVersion configDigest language : string)
    (gl : layer_groups) : list ProjectChange :=
  let '(groups, groupLayers) := gl in
  map (λ key,
    let '(layerFrom, layerTo) := default ("", "") (groupLayers !! key) in
    layerViolationChange key (default [] (groups !! key)) layerFrom layerTo
      ruleVersion backendVersion configDigest language) (sortedLayerPairKeys groups).

Definition no_policy (policy : LayerPolicy) : bool :=
  (zlen (lp_Layers policy) =? 0)%Z || (zlen (lp_ForbiddenImports policy) =? 0)%Z.

(** go: pkg/codesignal/rule_layer_violation.go#EvaluateGoLayerViolations *)
Definition EvaluateGoLayerViolations (model : Model) (policy : LayerPolicy)
    (ruleVersion backendVersion configDigest : string) : list ProjectChange * list Diagnostic :=
  if no_policy policy then ([], []) else
  (violation_changes ruleVersion backendVersion configDigest ""
     (groupForbiddenInternalEdges (m_ImportEdges model) policy), []).

(** ** Edges the rules cannot place *)

(** go: pkg/codesignal/rule_layer_violation_ts_unevaluated.go#nonSourceExtensions *)
Definition nonSourceExtensions : list string :=
  [".json"; ".css"; ".scss"; ".sass"; ".less"; ".styl";
   ".svg"; ".png"; ".jpg"; ".jpeg"; ".gif"; ".webp"; ".avif"; ".ico"; ".bmp";
   ".woff"; ".woff2"; ".ttf"; ".otf"; ".eot";
   ".mp3"; ".mp4"; ".webm"; ".ogg"; ".wav";
   ".html"; ".md"; ".mdx"; ".txt"; ".csv"; ".yaml"; ".yml"; ".toml";
   ".graphql"; ".gql"; ".wasm"].

(** go: pkg/codesignal/rule_layer_violation_ts_unevaluated.go#isNonSourceSpecifier *)
Definition isNonSourceSpecifier (specifier : string) : bool :=
  let specifier := UntilAny (λ c, Ascii.eqb c "?"%char || Ascii.eqb c "#"%char) specifier in
  existsb (String.eqb (ToLower (Ext specifier))) nonSourceExtensions.

(** go: pkg/codesignal/rule_layer_violation_ts_unevaluated.go#notEvaluatedImportsDiagnostic *)
Definition notEvaluatedImportsDiagnostic (external nonSource : Z) : Diagnostic :=
  let message :=
    if (nonSource =? 0)%Z && (external =? 1)%Z
    then "1 import edge to an external package was not evaluated by layer rules"
    else if (nonSource =? 0)%Z
    then Itoa external +:+ " import edges to external packages were not evaluated by layer rules"
    else if (external =? 0)%Z && (nonSource =? 1)%Z
    then "1 import edge to a non-source file was not evaluated by layer rules"
    else if (external =? 0)%Z
    then Itoa nonSource +:+ " import edges to non-source files were not evaluated by layer rules"
    else Itoa (external + nonSource)
      +:+ " import edges to external packages or non-source files were not evaluated by layer rules" in
  file_diagnostic "" DiagKindProjectExternalImportsNotEvaluated message.

Definition start_row_of (d : Diagnostic) : N := loc_StartRow (default zero_Location (dg_Location d)).

Definition unevaluated_less (a b : Diagnostic) : bool :=
  if dg_Path a != dg_Path b then str_less (dg_Path a) (dg_Path b)
  else if negb (start_row_of a =? start_row_of b)%N then (start_row_of a <? start_row_of b)%N
  else str_less (dg_Message a) (dg_Message b).

(** What one edge contributes: a diagnostic, or one of the two counts. *)
Inductive unevaluated := Reported (d : Diagnostic) | ExternalEdge | NonSourceEdge.

(** [%q] consults [unicode.IsPrint]. *)
Section Unevaluated.
Variable isPrint : N → bool.

(** go: pkg/codesignal/rule_layer_violation_ts_unevaluated.go#unresolvedImportDiagnostic *)
Definition unresolvedImportDiagnostic (importer specifier site : string) : Diagnostic :=
  mkDiagnostic importer DiagKindProjectImportUnresolved
    ("import of " +:+ Quote isPrint specifier +:+ " from " +:+ importer
     +:+ " did not resolve within the snapshot, so layer rules cannot tell whether it crosses a layer; the layer verdict is incomplete")
    (Some (pl_Location (parseSiteLocation site))) "" "".

(** go: pkg/codesignal/rule_layer_violation_ts_unevaluated.go#nonLiteralLoadDiagnostic *)
Definition nonLiteralLoadDiagnostic (importer kind expression site : string) : Diagnostic :=
  let callee := if kind == "commonjs_require" then "require()" else "import()" in
  mkDiagnostic importer DiagKindProjectImportNonLiteral
    (callee +:+ " in " +:+ importer +:+ " takes a non-literal specifier ("
     +:+ Quote isPrint expression
     +:+ "), so layer rules did not evaluate it and cannot tell whether it crosses a layer; the layer verdict is incomplete")
    (Some (pl_Location (parseSiteLocation site))) "" "".

(** The loop body of [unevaluatedTSEdgeDiagnostics]. *)
Definition unevaluated_edge (policy : LayerPolicy) (edge : ImportEdge) : option unevaluated :=
  if negb (evaluatedTSEdgeKind (edge_Kind edge) (lp_ExcludeTypeOnlyEdges policy)) then None else
  match CutPrefix "file:" (edge_From edge) with
  | None => None
  | Some importer =>
      match matchLayer (lp_Layers policy) importer with
      | None => None
      | Some _ =>
          match CutPrefix "nonliteral:" (edge_To edge) with
          | Some expression =>
              Some (Reported (nonLiteralLoadDiagnostic importer (edge_Kind edge) expression
                                (edge_Site edge)))
          | None =>
              match CutPrefix "unresolved:" (edge_To edge) with
              | Some specifier =>
                  if isNonSourceSpecifier specifier then Some NonSourceEdge
                  else Some (Reported (unresolvedImportDiagnostic importer specifier (edge_Site edge)))
              | None => if HasPrefix "external:" (edge_To edge) then Some ExternalEdge else None
              end
          end
      end
  end.

(** go: pkg/codesignal/rule_layer_violation_ts_unevaluated.go#unevaluatedTSEdgeDiagnostics *)
Definition unevaluatedTSEdgeDiagnostics (edges : list ImportEdge) (policy : LayerPolicy) :
    list Diagnostic :=
  let '(diagnostics, externalEdges, nonSourceEdges) :=
    fold_left (λ '(diagnostics, externalEdges, nonSourceEdges) edge,
      match unevaluated_edge policy edge with
      | Some (Reported d) => (diagnostics ++ [d], externalEdges, nonSourceEdges)
      | Some NonSourceEdge => (diagnostics, externalEdges, (nonSourceEdges + 1)%Z)
      | Some ExternalEdge => (diagnostics, (externalEdges + 1)%Z, nonSourceEdges)
      | None => (diagnostics, externalEdges, nonSourceEdges)
      end) edges ([], 0%Z, 0%Z) in
  let diagnostics := stable_sort unevaluated_less diagnostics in
  if (0 <? externalEdges + nonSourceEdges)%Z
  then diagnostics ++ [notEvaluatedImportsDiagnostic externalEdges nonSourceEdges]
  else diagnostics.

(** go: pkg/codesignal/rule_layer_violation.go#EvaluateTypeScriptLayerViolations *)
Definition EvaluateTypeScriptLayerViolations (model : Model) (policy : LayerPolicy)
    (ruleVersion backendVersion configDigest : string) : list ProjectChange * list Diagnostic :=
  if no_policy policy then ([], []) else
  let diagnostics := unevaluatedTSEdgeDiagnostics (m_ImportEdges model) policy in
  (violation_changes ruleVersion backendVersion configDigest "typescript"
     (groupForbiddenTSEdges (m_ImportEdges model) policy), diagnostics).
End Unevaluated.

(** ** Layer bypass *)

(** go: pkg/codesignal/rule_layer_bypass.go#diagLayerBypassCoverageIncomplete *)
Definition diagLayerBypassCoverageIncomplete : string := "project_layer_bypass_coverage_incomplete".

(** go: pkg/codesignal/rule_layer_bypass.go#ruleLayerBypassID *)
Definition ruleLayerBypassID : string := "architecture.layer_bypass".

(** go: pkg/codesignal/rule_layer_bypass.go#layerBypassWhyItMatters *)
Definition layerBypassWhyItMatters : string :=
  "A statically resolved call path from a handler-shaped source to a pinned sink that structurally never passes through a required intermediate layer means that layer's invariants (validation, authorization, caching, ...) can be silently skipped by this route, even if a separate compliant path also exists.".

(** go: pkg/codesignal/rule_layer_bypass.go#layerBypassRecommendation *)
Definition layerBypassRecommendation : string :=
  "Route the call through the required layer, or add an explicit exception/allowlist entry if the bypass is intentional so it stops surfacing as drift.".

(** go: pkg/codesignal/rule_layer_bypass_path.go#layerBypassStepLocation *)
Definition layerBypassStepLocation (step : LayerBypassStep) : option ProjectLocation :=
  if lbs_Path step == "" then None
  else if (lbs_Line step <=? 0)%Z then Some (mkProjectLocation (lbs_Path step) zero_Location)
  else Some (mkProjectLocation (lbs_Path step) (row_location (Z.to_N (lbs_Line step - 1)))).

(** go: pkg/codesignal/rule_layer_bypass_path.go#layerBypassPrimaryAnchor *)
Fixpoint layerBypassPrimaryAnchor (steps : list LayerBypassStep) : ProjectLocation :=
  match steps with
  | [] => zero_ProjectLocation
  | step :: rest =>
      match layerBypassStepLocation step with
      | Some loc => loc
      | None => layerBypassPrimaryAnchor rest
      end
  end.

(** go: pkg/codesignal/rule_layer_bypass_path.go#layerBypassStepSourceLocations *)
Definition layerBypassStepSourceLocations (step : LayerBypassStep) : list ProjectLocation :=
  match layerBypassStepLocation step with
  | None => []
  | Some loc => [loc]
  end.

(** go: pkg/codesignal/rule_layer_bypass_path.go#layerBypassCausalDigest *)
Definition layerBypassCausalDigest (nodeIDs : list string) : string :=
  "cev_" +:+ hex_sum (encode_fields nodeIDs).

Definition witness_less (a b : LayerBypassWitness) : bool :=
  if lbw_Source a != lbw_Source b then str_less (lbw_Source a) (lbw_Source b)
  else str_less (lbw_Sink a) (lbw_Sink b).

(** go: pkg/codesignal/rule_layer_bypass.go#highConfidenceWitnessesBySourceSink *)
Definition highConfidenceWitnessesBySourceSink (all : list LayerBypassWitness) :
    list LayerBypassWitness :=
  stable_sort witness_less
    (List.filter (λ witness, lbw_Confidence witness == LayerBypassConfidenceHigh) all).

(** go: pkg/codesignal/rule_layer_bypass.go#layerBypassChange *)
Definition layerBypassChange (witness : LayerBypassWitness)
    (ruleVersion backendVersion configDigest language : string) : ProjectChange :=
  let nodeIDs := map lbs_NodeID (lbw_Path witness) in
  let pathSteps :=
    map (λ step, mkProjectPathStep (lbs_NodeID step) "" "" "high"
                   (layerBypassStepSourceLocations step)) (lbw_Path witness) in
  let machineEvidence : gmap string string :=
    <["source" := lbw_Source witness]> (<["sink" := lbw_Sink witness]>
    (<["required_layer" := lbw_RequiredLayer witness]>
    (<["path" := Join nodeIDs "->"]> ∅))) in
  let machineEvidence :=
    if language != "" then <["language" := language]> machineEvidence else machineEvidence in
  {| pch_SemanticKey := "architecture.layer_bypass:" +:+ lbw_RequiredLayer witness +:+ ":"
                        +:+ lbw_Source witness +:+ "->" +:+ lbw_Sink witness;
     pch_ID := ""; pch_Fingerprint := "";
     pch_RuleID := ruleLayerBypassID; pch_RuleVersion := ruleVersion;
     pch_BackendVersion := backendVersion; pch_AlgorithmVersion := lbw_AlgorithmVersion witness;
     pch_ConfigDigest := configDigest; pch_Kind := ruleLayerBypassID;
     pch_Category := "architecture"; pch_Severity := "advisory"; pch_Confidence := "high";
     pch_Lifecycle := ""; pch_Changed := false;
     pch_CausalEvidenceDigest := layerBypassCausalDigest nodeIDs;
     pch_PrimaryAnchor := layerBypassPrimaryAnchor (lbw_Path witness);
     pch_RelatedLocations := []; pch_PathSteps := pathSteps; pch_CoverageRefs := [];
     pch_Evidence := lbw_Source witness +:+ " reaches " +:+ lbw_Sink witness
       +:+ " via a statically resolved path that never passes through required layer "
       +:+ dq +:+ lbw_RequiredLayer witness +:+ dq;
     pch_MachineEvidence := machineEvidence;
     pch_WhyItMatters := layerBypassWhyItMatters; pch_Recommendation := layerBypassRecommendation;
     pch_SuggestedSkill := "";
     pch_Provenance := mkProvenance "projectmodel" ruleLayerBypassID "" |}.

(** The body the two evaluators share but for the message and the language. *)
Definition evaluate_bypass (message language : string) (result : LayerBypassResult)
    (ruleVersion backendVersion configDigest : string) : list ProjectChange * list Diagnostic :=
  let diagnostics :=
    if negb (pc_Complete (lbr_Coverage result))
    then [file_diagnostic "" diagLayerBypassCoverageIncomplete message] else [] in
  (map (λ witness, layerBypassChange witness ruleVersion backendVersion configDigest language)
     (highConfidenceWitnessesBySourceSink (lbr_Witnesses result)), diagnostics).

(** go: pkg/codesignal/rule_layer_bypass.go#EvaluateGoLayerBypass *)
Definition EvaluateGoLayerBypass : LayerBypassResult → string → string → string →
    list ProjectChange * list Diagnostic :=
  evaluate_bypass
    "go layer-bypass search coverage is incomplete; absence of a witness for a source/sink pair in this run does not mean no bypass exists"
    "".

(** go: pkg/codesignal/rule_layer_bypass.go#EvaluateTypeScriptLayerBypass *)
Definition EvaluateTypeScriptLayerBypass : LayerBypassResult → string → string → string →
    list ProjectChange * list Diagnostic :=
  evaluate_bypass
    "typescript layer-bypass search coverage is incomplete; absence of a witness for a source/sink pair in this run does not mean no bypass exists"
    "typescript".

(** ** Lemmas *)

Lemma parseSiteLocation_site path line :
  (0 < line)%Z → in_int64 line = true →
  parseSiteLocation (path +:+ ":" +:+ Itoa line)
  = mkProjectLocation path (row_location (Z.to_N (line - 1))).
Proof.
  intros Hp Hi. unfold parseSiteLocation.
  change (path +:+ ":" +:+ Itoa line) with (path +:+ String ch_colon (Itoa line)).
  rewrite CutLast_app by apply Itoa_no_colon. rewrite Atoi_Itoa by done.
  destruct (Z.leb_spec line 0); [lia|done].
Qed.

Lemma forbidden_set policy a b :
  (a, b) ∈ buildForbiddenLayerPairSet policy ↔
  In (mkForbiddenLayerImport a b) (lp_ForbiddenImports policy).
Proof.
  unfold buildForbiddenLayerPairSet.
  enough (∀ fs (X : gset (string * string)),
    (a, b) ∈ fold_left (λ forbidden f, {[(fli_From f, fli_To f)]} ∪ forbidden) fs X
    ↔ (a, b) ∈ X ∨ In (mkForbiddenLayerImport a b) fs) as H by (rewrite H; set_solver).
  induction fs as [|[a' b'] fs IH]; intros X; simpl; [tauto|]. rewrite IH.
  rewrite elem_of_union, elem_of_singleton. split.
  - intros [[[= -> ->]|H]|H]; auto.
  - intros [H|[[= -> ->]|H]]; auto.
Qed.

Lemma forbidden_pair_Some layers forbidden importer importee k l :
  forbidden_pair layers forbidden importer importee = Some (k, l) ↔
  k = mkLayerPairKey importer importee ∧
  ∃ from to, matchLayer layers importer = Some from ∧ matchLayer layers importee = Some to
    ∧ l = (al_Name from, al_Name to) ∧ l ∈ forbidden.
Proof.
  unfold forbidden_pair.
  destruct (matchLayer layers importer) as [from|], (matchLayer layers importee) as [to|];
    try naive_solver.
  case_bool_decide; naive_solver.
Qed.

(** *** Grouping *)

Section Grouping.
Context (pair : ImportEdge → option (layerPairKey * (string * string))).
Context (Hfun : ∀ e e' k l l', pair e = Some (k, l) → pair e' = Some (k, l') → l = l').

(** The edges filed under [k]. *)
Definition edges_of (k : layerPairKey) (edges : list ImportEdge) : list ImportEdge :=
  List.filter (λ e, match pair e with Some (k', _) => bool_decide (k' = k) | None => false end) edges.

Lemma group_forbidden_snoc edges e :
  group_forbidden pair (edges ++ [e]) =
  let '(groups, groupLayers) := group_forbidden pair edges in
  match pair e with
  | None => (groups, groupLayers)
  | Some (key, layers) => (group_append key e groups, <[key := layers]> groupLayers)
  end.
Proof.
  unfold group_forbidden. rewrite fold_left_app. cbn [fold_left].
  by destruct (fold_left _ edges _).
Qed.

Lemma group_forbidden_groups edges k :
  fst (group_forbidden pair edges) !! k
  = match edges_of k edges with [] => None | es => Some es end.
Proof.
  induction edges as [|e edges IH] using rev_ind; [done|].
  rewrite group_forbidden_snoc. unfold edges_of in *. rewrite List.filter_app. simpl.
  destruct (group_forbidden pair edges) as [g gl]. simpl in *.
  destruct (pair e) as [[k' l]|]; simpl; [|by rewrite app_nil_r].
  unfold group_append. case_bool_decide as Hk; simpl.
  - subst. rewrite lookup_insert_eq, IH. by destruct (List.filter _ edges).
  - by rewrite lookup_insert_ne, app_nil_r.
Qed.

Lemma group_forbidden_layers edges k e l :
  In e edges → pair e = Some (k, l) → snd (group_forbidden pair edges) !! k = Some l.
Proof.
  induction edges as [|x edges IH] using rev_ind; [done|].
  rewrite in_app_iff, group_forbidden_snoc. intros Hin He.
  destruct (group_forbidden pair edges) as [g gl]. simpl in *.
  destruct (pair x) as [[k' l']|] eqn:Ex; simpl.
  - destruct (decide (k' = k)) as [->|Hk].
    + rewrite lookup_insert_eq. by rewrite (Hfun _ _ _ _ _ Ex He).
    + rewrite lookup_insert_ne by done. destruct Hin as [Hin|[<-|[]]]; [by apply IH|congruence].
  - destruct Hin as [Hin|[<-|[]]]; [by apply IH|congruence].
Qed.

Lemma edges_of_spec k edges e :
  In e (edges_of k edges) ↔ In e edges ∧ ∃ l, pair e = Some (k, l).
Proof.
  unfold edges_of. rewrite filter_In. destruct (pair e) as [[k' l]|]; [|naive_solver].
  rewrite bool_decide_eq_true. naive_solver.
Qed.

Lemma sorted_keys_elem edges k :
  In k (sortedLayerPairKeys (fst (group_forbidden pair edges))) ↔
  ∃ e l, In e edges ∧ pair e = Some (k, l).
Proof.
  unfold sortedLayerPairKeys. rewrite stable_sort_In, in_map_iff. split.
  - intros ([k' es] & <- & Hin). simpl. apply list_elem_of_In, elem_of_map_to_list in Hin.
    rewrite group_forbidden_groups in Hin. destruct (edges_of k' edges) as [|e es'] eqn:E; [done|].
    assert (In e (edges_of k' edges)) as He by (rewrite E; by left).
    apply edges_of_spec in He as [? [l ?]]. eauto.
  - intros (e & l & Hin & He).
    assert (In e (edges_of k edges)) as Hes by (apply edges_of_spec; eauto).
    exists (k, edges_of k edges). split; [done|].
    apply list_elem_of_In, elem_of_map_to_list. rewrite group_forbidden_groups.
    by destruct (edges_of k edges).
Qed.

Lemma sorted_keys_NoDup groups : NoDup (sortedLayerPairKeys groups).
Proof. unfold sortedLayerPairKeys. rewrite stable_sort_perm. apply NoDup_fst_map_to_list. Qed.

(** The change of each key carries that key's edges and layers. *)
Lemma violation_changes_eq rv bv cd lang edges :
  violation_changes rv bv cd lang (group_forbidden pair edges)
  = map (λ k, layerViolationChange k (edges_of k edges)
           (fst (default ("", "") (snd (group_forbidden pair edges) !! k)))
           (snd (default ("", "") (snd (group_forbidden pair edges) !! k))) rv bv cd lang)
      (sortedLayerPairKeys (fst (group_forbidden pair edges))).
Proof.
  unfold violation_changes. destruct (group_forbidden pair edges) as [g gl] eqn:E.
  apply map_ext_in. intros k Hk. simpl.
  pose proof (group_forbidden_groups edges k) as Hg. rewrite E in Hg. simpl in Hg. rewrite Hg.
  destruct (default ("", "") (gl !! k)) as [lf lt]. simpl.
  by destruct (edges_of k edges).
Qed.
End Grouping.

#[export] Instance layer_pair_sw : StrictWeak layer_pair_less.
Proof. lex_strict_weak [lpk_importer; lpk_importee]. Qed.

Lemma layer_pair_sort_perm l l' :
  l ≡ₚ l' → stable_sort layer_pair_less l = stable_sort layer_pair_less l'.
Proof.
  apply (lex_sort_perm_eq _ [lpk_importer; lpk_importee]).
  - intros. repeat (apply less_chain_string). apply str_less_lex.
  - intros [] [] H. decompose_Forall_hyps. by simplify_eq/=.
Qed.

(** The pair a change reports in its machine evidence. *)
Definition reported_pair (c : ProjectChange) : option layerPairKey :=
  match pch_MachineEvidence c !! "importer", pch_MachineEvidence c !! "importee" with
  | Some importer, Some importee => Some (mkLayerPairKey importer importee)
  | _, _ => None
  end.

Lemma reported_pair_change k es lf lt rv bv cd lang :
  reported_pair (layerViolationChange k es lf lt rv bv cd lang) = Some k.
Proof.
  unfold reported_pair, layerViolationChange. cbn [pch_MachineEvidence]. destruct k as [a b].
  destruct (lang != ""), (allEdgesTypeOnly es); cbv zeta iota; by simplify_map_eq.
Qed.

Lemma change_removed_if_set k es lf lt rv bv cd lang :
  pch_MachineEvidence (layerViolationChange k es lf lt rv bv cd lang) !! "removed_if_set"
  = if allEdgesTypeOnly es then Some "exclude_type_only_edges" else None.
Proof.
  unfold layerViolationChange. cbn [pch_MachineEvidence].
  destruct (lang != ""), (allEdgesTypeOnly es); cbv zeta iota; by simplify_map_eq.
Qed.

Lemma forbidden_pair_functional layers forbidden a b a' b' k l l' :
  forbidden_pair layers forbidden a b = Some (k, l) →
  forbidden_pair layers forbidden a' b' = Some (k, l') → l = l'.
Proof. rewrite !forbidden_pair_Some. naive_solver. Qed.

Lemma go_pair_functional layers forbidden e e' k l l' :
  forbiddenInternalPair e layers forbidden = Some (k, l) →
  forbiddenInternalPair e' layers forbidden = Some (k, l') → l = l'.
Proof.
  unfold forbiddenInternalPair. destruct (_ != "internal"), (edge_Kind e' != "internal"); try done.
  apply forbidden_pair_functional.
Qed.

(** The files of a TypeScript edge. *)
Definition ts_edge_files (e : ImportEdge) : option (string * string) :=
  match CutPrefix "file:" (edge_From e), CutPrefix "file:" (edge_To e) with
  | Some a, Some b => Some (a, b)
  | _, _ => None
  end.

Lemma forbiddenTSPair_Some layers forbidden excl e k l :
  forbiddenTSPair e layers forbidden excl = Some (k, l) ↔
  evaluatedTSEdgeKind (edge_Kind e) excl = true ∧
  ∃ a b, edge_From e = "file:" +:+ a ∧ edge_To e = "file:" +:+ b
    ∧ forbidden_pair layers forbidden a b = Some (k, l).
Proof.
  unfold forbiddenTSPair. destruct (evaluatedTSEdgeKind _ _); simpl; [|naive_solver].
  destruct (CutPrefix "file:" (edge_From e)) as [a|] eqn:Ea;
    [apply CutPrefix_Some in Ea|rewrite CutPrefix_None in Ea;
      split; [intros [=]|intros (_ & a & b & H & _); by destruct (Ea a)]].
  destruct (CutPrefix "file:" (edge_To e)) as [b|] eqn:Eb;
    [apply CutPrefix_Some in Eb|rewrite CutPrefix_None in Eb;
      split; [intros [=]|intros (_ & a' & b & _ & H & _); by destruct (Eb b)]].
  split; [intros Hp; split; [reflexivity|]; exists a, b; auto|]. intros (_ & a' & b' & Ea' & Eb' & H). rewrite Ea in Ea'. rewrite Eb in Eb'.
  apply (append_inj_l "file:") in Ea', Eb'. by subst.
Qed.

Lemma ts_pair_functional layers forbidden excl e e' k l l' :
  forbiddenTSPair e layers forbidden excl = Some (k, l) →
  forbiddenTSPair e' layers forbidden excl = Some (k, l') → l = l'.
Proof.
  rewrite !forbiddenTSPair_Some. intros (_ & a & b & _ & _ & H) (_ & a' & b' & _ & _ & H').
  by eapply forbidden_pair_functional.
Qed.

(** Without layers or forbidden imports no pair is forbidden. *)
Lemma no_policy_pair policy a b :
  no_policy policy = true →
  forbidden_pair (lp_Layers policy) (buildForbiddenLayerPairSet policy) a b = None.
Proof.
  unfold no_policy, zlen. rewrite orb_true_iff, !Z.eqb_eq. intros [H|H].
  - destruct (lp_Layers policy) eqn:E; [done|]. simpl in H. lia.
  - destruct (forbidden_pair _ _ a b) as [[k l]|] eqn:E; [|done].
    apply forbidden_pair_Some in E as (_ & from & to & _ & _ & -> & Hin).
    apply forbidden_set in Hin. destruct (lp_ForbiddenImports policy); [done|]. simpl in H. lia.
Qed.

Lemma group_forbidden_none pair edges :
  (∀ e, pair e = None) → group_forbidden pair edges = (∅, ∅).
Proof.
  intros H. induction edges as [|e edges IH] using rev_ind; [done|].
  by rewrite group_forbidden_snoc, IH, H.
Qed.

Lemma go_changes model policy rv bv cd :
  fst (EvaluateGoLayerViolations model policy rv bv cd)
  = violation_changes rv bv cd "" (groupForbiddenInternalEdges (m_ImportEdges model) policy).
Proof.
  unfold EvaluateGoLayerViolations. destruct (no_policy policy) eqn:E; [|done].
  unfold groupForbiddenInternalEdges. rewrite group_forbidden_none; [done|].
  intros e. unfold forbiddenInternalPair. case_match; [done|]. by apply no_policy_pair.
Qed.

Lemma ts_changes isPrint model policy rv bv cd :
  fst (EvaluateTypeScriptLayerViolations isPrint model policy rv bv cd)
  = violation_changes rv bv cd "typescript" (groupForbiddenTSEdges (m_ImportEdges model) policy).
Proof.
  unfold EvaluateTypeScriptLayerViolations. destruct (no_policy policy) eqn:E; [|done].
  unfold groupForbiddenTSEdges. rewrite group_forbidden_none; [done|].
  intros e. unfold forbiddenTSPair. case_match; [done|]. repeat case_match; try done.
  by apply no_policy_pair.
Qed.

Section Reported.
Context (pair : ImportEdge → option (layerPairKey * (string * string))).
Context (rv bv cd lang : string) (edges : list ImportEdge).
Let changes := violation_changes rv bv cd lang (group_forbidden pair edges).

Lemma reported_pairs :
  map reported_pair changes = map Some (sortedLayerPairKeys (fst (group_forbidden pair edges))).
Proof.
  unfold changes. rewrite violation_changes_eq, map_map. apply map_ext. intros k.
  apply reported_pair_change.
Qed.

Lemma reported_NoDup : NoDup (map reported_pair changes).
Proof.
  rewrite reported_pairs. apply NoDup_fmap_2; [by intros ? ? [=]|apply sorted_keys_NoDup].
Qed.

Lemma reported_elem k :
  In (Some k) (map reported_pair changes) ↔ ∃ e l, In e edges ∧ pair e = Some (k, l).
Proof.
  rewrite reported_pairs, in_map_iff, <- sorted_keys_elem. naive_solver.
Qed.

Lemma reported_sites c k :
  In c changes → reported_pair c = Some k →
  pch_PrimaryAnchor c :: pch_RelatedLocations c
  = map parseSiteLocation (sort_strings (map edge_Site (edges_of pair k edges))).
Proof.
  unfold changes. rewrite violation_changes_eq, in_map_iff. intros (k' & <- & Hk').
  rewrite reported_pair_change. intros [= ->].
  apply sorted_keys_elem in Hk' as (e & l & Hin & He).
  assert (In (edge_Site e) (sort_strings (map edge_Site (edges_of pair k edges)))) as Hs.
  { apply stable_sort_In, in_map, edges_of_spec. eauto. }
  unfold layerViolationChange. cbn [pch_PrimaryAnchor pch_RelatedLocations].
  by destruct (sort_strings _).
Qed.
End Reported.

Lemma unevaluated_fold isPrint policy edges acc n m :
  fold_left (λ '(diagnostics, externalEdges, nonSourceEdges) edge,
    match unevaluated_edge isPrint policy edge with
    | Some (Reported d) => (diagnostics ++ [d], externalEdges, nonSourceEdges)
    | Some NonSourceEdge => (diagnostics, externalEdges, (nonSourceEdges + 1)%Z)
    | Some ExternalEdge => (diagnostics, (externalEdges + 1)%Z, nonSourceEdges)
    | None => (diagnostics, externalEdges, nonSourceEdges)
    end) edges (acc, n, m)
  = (acc ++ omap (λ e, match unevaluated_edge isPrint policy e with
                       | Some (Reported d) => Some d | _ => None end) edges,
     (n + zlen (List.filter (λ e, match unevaluated_edge isPrint policy e with
                       | Some ExternalEdge => true | _ => false end) edges))%Z,
     (m + zlen (List.filter (λ e, match unevaluated_edge isPrint policy e with
                       | Some NonSourceEdge => true | _ => false end) edges))%Z).
Proof.
  unfold zlen. revert acc n m. induction edges as [|e edges IH]; intros acc n m;
    cbn [fold_left List.filter omap list_omap].
  - simpl. by rewrite app_nil_r, !Z.add_0_r.
  - destruct (unevaluated_edge isPrint policy e) as [[d| |]|]; rewrite IH; cbn [length];
      rewrite <- ?app_assoc; (apply pair_eq; split; [apply pair_eq; split|]); first [done|lia].
Qed.

Lemma unevaluated_violation isPrint policy e k l :
  forbiddenTSPair e (lp_Layers policy) (buildForbiddenLayerPairSet policy)
    (lp_ExcludeTypeOnlyEdges policy) = Some (k, l) →
  unevaluated_edge isPrint policy e = None.
Proof.
  rewrite forbiddenTSPair_Some. intros (He & a & b & Ea & Eb & _).
  unfold unevaluated_edge. rewrite He, Ea, CutPrefix_app, Eb. cbn [negb].
  by destruct (matchLayer (lp_Layers policy) a).
Qed.

Lemma evaluated_kinds kind :
  evaluatedTSEdgeKind kind true = evaluatedTSEdgeKind kind false && negb (kind == "type_only").
Proof.
  unfold evaluatedTSEdgeKind.
  destruct (String.eqb_spec kind "type_only") as [->|_]; [done|]. by rewrite andb_true_r.
Qed.

Lemma unevaluated_edge_kind isPrint policy e d :
  match unevaluated_edge isPrint policy e with Some (Reported d) => Some d | _ => None end = Some d →
  dg_Kind d = DiagKindProjectImportNonLiteral ∨ dg_Kind d = DiagKindProjectImportUnresolved.
Proof.
  unfold unevaluated_edge. destruct (negb _); [done|]. destruct (CutPrefix "file:" _); [|done].
  destruct (matchLayer _ _); [|done]. destruct (CutPrefix "nonliteral:" _); [intros [= <-]; by left|].
  destruct (CutPrefix "unresolved:" _); [|by destruct (HasPrefix _ _)].
  destruct (isNonSourceSpecifier _); [done|]. intros [= <-]. by right.
Qed.

(** ** Properties *)

(** The Go layer rule is sound and complete for its edges.  It reports a
    (importer, importee) pair exactly once, and does so precisely when some internal
    edge runs between directories whose first matching layers form a forbidden
    import; the change anchors every site of that pair, sorted. *)
Theorem go_layer_violations_exact model policy rv bv cd :
  let '(changes, diagnostics) := EvaluateGoLayerViolations model policy rv bv cd in
  let matches importer importee edge :=
    edge_Kind edge = "internal" ∧ TrimPrefix "package:" (edge_From edge) = importer
    ∧ TrimPrefix "package:" (edge_To edge) = importee
    ∧ ∃ from to, matchLayer (lp_Layers policy) importer = Some from
        ∧ matchLayer (lp_Layers policy) importee = Some to
        ∧ In (mkForbiddenLayerImport (al_Name from) (al_Name to)) (lp_ForbiddenImports policy) in
  diagnostics = [] ∧ NoDup (map reported_pair changes)
  ∧ (∀ importer importee,
       In (Some (mkLayerPairKey importer importee)) (map reported_pair changes) ↔
       ∃ edge, In edge (m_ImportEdges model) ∧ matches importer importee edge)
  ∧ (∀ c importer importee, In c changes → reported_pair c = Some (mkLayerPairKey importer importee) →
       ∃ edges, (∀ edge, In edge edges ↔ In edge (m_ImportEdges model) ∧ matches importer importee edge)
       ∧ edges `sublist_of` m_ImportEdges model
       ∧ pch_PrimaryAnchor c :: pch_RelatedLocations c
         = map parseSiteLocation (sort_strings (map edge_Site edges))).
Proof.
  destruct (EvaluateGoLayerViolations model policy rv bv cd) as [changes ds] eqn:E.
  pose proof (go_changes model policy rv bv cd) as Hc. rewrite E in Hc. simpl in Hc. subst changes.
  set (pair := λ edge, forbiddenInternalPair edge (lp_Layers policy) (buildForbiddenLayerPairSet policy)).
  assert (∀ e a b, (∃ l, pair e = Some (mkLayerPairKey a b, l)) ↔
    edge_Kind e = "internal" ∧ TrimPrefix "package:" (edge_From e) = a
    ∧ TrimPrefix "package:" (edge_To e) = b
    ∧ ∃ from to, matchLayer (lp_Layers policy) a = Some from
        ∧ matchLayer (lp_Layers policy) b = Some to
        ∧ In (mkForbiddenLayerImport (al_Name from) (al_Name to)) (lp_ForbiddenImports policy)) as Hpair.
  { intros e a b. unfold pair, forbiddenInternalPair.
    destruct (String.eqb_spec (edge_Kind e) "internal"); simpl; [|naive_solver].
    setoid_rewrite forbidden_pair_Some. setoid_rewrite <- forbidden_set. naive_solver. }
  cbv zeta. split; [|split; [|split]].
  - unfold EvaluateGoLayerViolations in E. destruct (no_policy policy); by simplify_eq.
  - apply (reported_NoDup pair).
  - intros a b. change (groupForbiddenInternalEdges (m_ImportEdges model) policy)
      with (group_forbidden pair (m_ImportEdges model)). rewrite (reported_elem pair).
    setoid_rewrite <- Hpair. naive_solver.
  - intros c a b Hin Hr. exists (edges_of pair (mkLayerPairKey a b) (m_ImportEdges model)).
    split; [|split].
    + intros e. rewrite edges_of_spec. by rewrite Hpair.
    + apply bfilter_sublist.
    + by apply (reported_sites pair rv bv cd "" (m_ImportEdges model)).
Qed.

(** The TypeScript layer rule reports a (importer, importee) pair of files
    exactly once, and does so precisely when some evaluated edge links the two files
    and their first matching layers form a forbidden import. *)
Theorem ts_layer_violations_exact isPrint model policy rv bv cd :
  let changes := fst (EvaluateTypeScriptLayerViolations isPrint model policy rv bv cd) in
  NoDup (map reported_pair changes)
  ∧ ∀ importer importee,
    In (Some (mkLayerPairKey importer importee)) (map reported_pair changes) ↔
    ∃ edge from to, In edge (m_ImportEdges model)
      ∧ evaluatedTSEdgeKind (edge_Kind edge) (lp_ExcludeTypeOnlyEdges policy) = true
      ∧ edge_From edge = "file:" +:+ importer ∧ edge_To edge = "file:" +:+ importee
      ∧ matchLayer (lp_Layers policy) importer = Some from
      ∧ matchLayer (lp_Layers policy) importee = Some to
      ∧ In (mkForbiddenLayerImport (al_Name from) (al_Name to)) (lp_ForbiddenImports policy).
Proof.
  cbv zeta. rewrite ts_changes. unfold groupForbiddenTSEdges. cbv zeta.
  split; [apply reported_NoDup|]. intros a b. rewrite reported_elem.
  setoid_rewrite forbiddenTSPair_Some. setoid_rewrite forbidden_pair_Some.
  setoid_rewrite <- forbidden_set. split.
  - intros (e & l & Hin & He & a' & b' & Ea & Eb & [= <- <-] & from & to & H1 & H2 & -> & H3).
    naive_solver.
  - intros (e & from & to & Hin & He & Ea & Eb & H1 & H2 & H3).
    exists e, (al_Name from, al_Name to). naive_solver.
Qed.

(** An edge site printed as a file and a 1-based line is read back as that
    file and the 0-based row, whatever colons the file name holds. *)
Theorem site_roundtrip path line :
  (0 < line)%Z → in_int64 line = true →
  parseSiteLocation (path +:+ ":" +:+ Itoa line)
  = mkProjectLocation path (mkLocation 0 0 (Z.to_N (line - 1)) 0 0 0).
Proof. apply parseSiteLocation_site. Qed.

(** Excluding type-only edges removes exactly the findings the default run
    marks as removed by that option, and keeps the order of the others. *)
Theorem type_only_option isPrint model layers forbidden rv bv cd :
  let run excl := fst (EvaluateTypeScriptLayerViolations isPrint model
                         (mkLayerPolicy layers forbidden excl) rv bv cd) in
  map reported_pair (run true)
  = map reported_pair
      (List.filter (λ c, bool_decide (pch_MachineEvidence c !! "removed_if_set" = None)) (run false)).
Proof.
  cbv beta zeta. rewrite !ts_changes. unfold groupForbiddenTSEdges. cbv zeta. cbn [lp_Layers lp_ExcludeTypeOnlyEdges].
  set (F := buildForbiddenLayerPairSet (mkLayerPolicy layers forbidden false)).
  change (buildForbiddenLayerPairSet (mkLayerPolicy layers forbidden true)) with F.
  set (pt := λ e, forbiddenTSPair e layers F true). set (pf := λ e, forbiddenTSPair e layers F false).
  set (edges := m_ImportEdges model).
  assert (∀ e r, pt e = Some r ↔ pf e = Some r ∧ edge_Kind e ≠ "type_only") as Hpt.
  { intros e [k l]. unfold pt, pf. rewrite !forbiddenTSPair_Some, (evaluated_kinds (edge_Kind e)).
    rewrite andb_true_iff, negb_true_iff, String.eqb_neq. tauto. }
  rewrite (reported_pairs pt), (violation_changes_eq pf), bfilter_map, map_map.
  transitivity (map Some (List.filter (λ k, negb (allEdgesTypeOnly (edges_of pf k edges)))
    (sortedLayerPairKeys (group_forbidden pf edges).1))).
  2:{ rewrite (filter_ext_In (λ k, negb (allEdgesTypeOnly (edges_of pf k edges)))
        (λ k, bool_decide (pch_MachineEvidence (layerViolationChange k (edges_of pf k edges)
           (fst (default ("", "") (snd (group_forbidden pf edges) !! k)))
           (snd (default ("", "") (snd (group_forbidden pf edges) !! k))) rv bv cd "typescript")
           !! "removed_if_set" = None))).
      - apply map_ext. intros k. symmetry. apply reported_pair_change.
      - intros k _. rewrite change_removed_if_set. by destruct (allEdgesTypeOnly _). }
  f_equal.
  unfold sortedLayerPairKeys. rewrite (stable_sort_filter layer_pair_less).
  apply layer_pair_sort_perm, NoDup_Permutation.
  - apply NoDup_fst_map_to_list.
  - apply NoDup_ListNoDup, List.NoDup_filter, NoDup_ListNoDup, NoDup_fst_map_to_list.
  - intros k. rewrite !list_elem_of_In, filter_In.
    pose proof (sorted_keys_elem pt edges k) as H1. pose proof (sorted_keys_elem pf edges k) as H2.
    unfold sortedLayerPairKeys in H1, H2. rewrite stable_sort_In in H1, H2. rewrite H1, H2.
    rewrite negb_true_iff. split.
    + intros (e & l & Hin & He). apply Hpt in He as [He Hk]. split; [eauto|].
      apply not_true_is_false. unfold allEdgesTypeOnly. rewrite andb_true_iff, forallb_forall.
      intros [Hall _]. apply Hk, String.eqb_eq, Hall, edges_of_spec. eauto.
    + intros [(e & l & Hin & He) Hall].
      destruct (forallb (λ edge, edge_Kind edge == "type_only") (edges_of pf k edges)) eqn:Ea.
      * exfalso. unfold allEdgesTypeOnly in Hall. rewrite Ea in Hall. cbn [andb] in Hall.
        assert (In e (edges_of pf k edges)) as Hi by (apply edges_of_spec; eauto).
        destruct (edges_of pf k edges); [done|]. unfold zlen in Hall. simpl in Hall. done.
      * apply forallb_false in Ea as (x & Hx & Hk%String.eqb_neq). apply edges_of_spec in Hx as [Hx [l' Hl']]. exists x, l'. split; [done|]. by apply Hpt.
Qed.

(** The diagnostics of the TypeScript layer rule account for every edge it
    cannot place: one per unresolved source import or non-literal load, sorted, and
    one trailing summary exactly when some edge was only counted.  An edge that
    makes a violation is never among them, and every diagnostic is of a kind that
    does not mark its file as unanalyzed. *)
Theorem ts_unevaluated_accounting isPrint edges policy :
  let reported := omap (λ e, match unevaluated_edge isPrint policy e with
                             | Some (Reported d) => Some d | _ => None end) edges in
  let counted k := zlen (List.filter (λ e, match unevaluated_edge isPrint policy e with
                     | Some ExternalEdge => k | Some NonSourceEdge => negb k | _ => false end) edges) in
  let out := unevaluatedTSEdgeDiagnostics isPrint edges policy in
  (∃ sorted, sorted ≡ₚ reported
    ∧ out = sorted ++ (if (0 <? counted true + counted false)%Z
                       then [notEvaluatedImportsDiagnostic (counted true) (counted false)] else []))
  ∧ (∀ e k l, In e edges →
       forbiddenTSPair e (lp_Layers policy) (buildForbiddenLayerPairSet policy)
         (lp_ExcludeTypeOnlyEdges policy) = Some (k, l) → unevaluated_edge isPrint policy e = None)
  ∧ Forall (λ d, isProjectEdgeDiagnosticKind (dg_Kind d) = true) out.
Proof.
  cbv zeta. split; [|split].
  - eexists. split; [apply stable_sort_perm|]. unfold unevaluatedTSEdgeDiagnostics.
    rewrite unevaluated_fold, !Z.add_0_l. cbn [app negb]. case_match; [done|].
    by rewrite app_nil_r.
  - intros e k l _. apply unevaluated_violation.
  - unfold unevaluatedTSEdgeDiagnostics. rewrite unevaluated_fold. apply List.Forall_forall.
    intros d Hd.
    assert (In d (omap (λ e, match unevaluated_edge isPrint policy e with
      | Some (Reported d) => Some d | _ => None end) edges)
      ∨ dg_Kind d = DiagKindProjectExternalImportsNotEvaluated) as [Hr|Hk].
    { destruct (0 <? _)%Z; [apply in_app_iff in Hd as [Hd|[<-|[]]]; [|by right]|];
        apply stable_sort_In in Hd; by left. }
    + apply list_elem_of_In, list_elem_of_omap in Hr as (e & _ & He).
      by apply unevaluated_edge_kind in He as [-> | ->].
    + by rewrite Hk.
Qed.

(** The bypass rule reports one change per high-confidence witness, sorted
    by source and sink, and nothing for any other witness; it warns exactly when the
    search was incomplete; and two witnesses get the same causal digest only if
    their paths have the same nodes or SHA-256 collides. *)
Theorem layer_bypass_exact result rv bv cd :
  let '(changes, diagnostics) := EvaluateGoLayerBypass result rv bv cd in
  let high := List.filter (λ w, lbw_Confidence w == LayerBypassConfidenceHigh) (lbr_Witnesses result) in
  changes ≡ₚ map (λ w, layerBypassChange w rv bv cd "") high
  ∧ (diagnostics = [] ↔ pc_Complete (lbr_Coverage result) = true)
  ∧ (∀ ids ids', forallb fits_uint32 ids = true → forallb fits_uint32 ids' = true →
       layerBypassCausalDigest ids = layerBypassCausalDigest ids' →
       ids = ids' ∨ (encode_fields ids ≠ encode_fields ids'
                     ∧ Sum256 (encode_fields ids) = Sum256 (encode_fields ids'))).
Proof.
  cbn. split; [|split].
  - apply Permutation_map, stable_sort_perm.
  - by destruct (pc_Complete _).
  - intros ids ids' H1 H2 H. unfold layerBypassCausalDigest in H.
    apply append_inj_l, hex_sum_inj in H.
    destruct (decide (encode_fields ids = encode_fields ids')) as [E|E]; [left|by right].
    by apply encode_fields_inj_any.
Qed.

(** ** Witnesses *)

Definition example_policy : LayerPolicy :=
  mkLayerPolicy [mkArchitectureLayer "domain" ["pkg/domain"]; mkArchitectureLayer "cli" ["cmd"]]
    [mkForbiddenLayerImport "domain" "cli"] false.

Definition example_model (edges : list ImportEdge) : Model :=
  mkModel "1" "repo" (mkSnapshot "r" "t" "" "" "" []) [] [] [] [] edges None None []
    (mkProjCoverage "model" true ∅ ∅ []).

Definition example_go_edges : list ImportEdge :=
  [mkImportEdge "package:pkg/domain/x" "package:cmd/coach" "internal" "pkg/domain/x/b.go:9" "";
   mkImportEdge "package:cmd/coach" "package:pkg/domain/x" "internal" "cmd/coach/main.go:3" "";
   mkImportEdge "package:pkg/domain/x" "package:cmd/coach" "internal" "pkg/domain/x/a.go:12" ""].

Definition example_ts_edges : list ImportEdge :=
  [mkImportEdge "file:pkg/domain/x.ts" "file:cmd/main.ts" "import" "pkg/domain/x.ts:4" "snapshot";
   mkImportEdge "file:pkg/domain/y.ts" "unresolved:@/missing" "import" "pkg/domain/y.ts:1" "";
   mkImportEdge "file:pkg/domain/y.ts" "external:react" "import" "pkg/domain/y.ts:2" "";
   mkImportEdge "file:pkg/domain/y.ts" "file:cmd/main.ts" "type_only" "pkg/domain/y.ts:3" "snapshot"].

Example go_violation_example :
  map (λ c, (pch_SemanticKey c, map pl_Path (pch_PrimaryAnchor c :: pch_RelatedLocations c)))
    (fst (EvaluateGoLayerViolations (example_model example_go_edges) example_policy "1" "" ""))
  = [("architecture.layer_violation:pkg/domain/x->cmd/coach",
      ["pkg/domain/x/a.go"; "pkg/domain/x/b.go"])].
Proof. vm_compute. reflexivity. Qed.

Lemma go_layer_violations_exact_witness :
  In (Some (mkLayerPairKey "pkg/domain/x" "cmd/coach"))
    (map reported_pair (fst (EvaluateGoLayerViolations (example_model example_go_edges)
       example_policy "1" "" ""))).
Proof.
  pose proof (go_layer_violations_exact (example_model example_go_edges) example_policy "1" "" "") as H.
  apply (proj1 (proj2 (proj2 H))).
  exists (List.hd (mkImportEdge "" "" "" "" "") example_go_edges). split; [by left|].
  repeat split. exists (mkArchitectureLayer "domain" ["pkg/domain"]), (mkArchitectureLayer "cli" ["cmd"]).
  repeat split. by left.
Defined.

Lemma ts_layer_violations_exact_witness :
  In (Some (mkLayerPairKey "pkg/domain/y.ts" "cmd/main.ts"))
    (map reported_pair (fst (EvaluateTypeScriptLayerViolations (λ _, true)
       (example_model example_ts_edges) example_policy "1" "" ""))).
Proof.
  apply (proj2 (ts_layer_violations_exact (λ _, true) (example_model example_ts_edges) example_policy "1" "" "")).
  exists (List.nth 3 example_ts_edges (mkImportEdge "" "" "" "" "")),
    (mkArchitectureLayer "domain" ["pkg/domain"]), (mkArchitectureLayer "cli" ["cmd"]).
  repeat split; simpl; auto.
Defined.

Lemma site_roundtrip_witness :
  parseSiteLocation ("a:b.go" +:+ ":" +:+ Itoa 7) = mkProjectLocation "a:b.go" (mkLocation 0 0 6 0 0 0).
Proof. apply (site_roundtrip "a:b.go" 7); reflexivity. Defined.

Lemma ts_unevaluated_accounting_witness :
  unevaluated_edge (λ _, true) example_policy (List.hd (mkImportEdge "" "" "" "" "") example_ts_edges)
  = None.
Proof.
  apply (proj1 (proj2 (ts_unevaluated_accounting (λ _, true) example_ts_edges example_policy)) _
    (mkLayerPairKey "pkg/domain/x.ts" "cmd/main.ts") ("domain", "cli")).
  - by left.
  - vm_compute. reflexivity.
Defined.

Lemma layer_bypass_exact_witness :
  let result := mkLayerBypassResult
    [mkLayerBypassWitness "w" "h" "sql" "svc" [mkLayerBypassStep "h" "a.go" 3] "high" "1";
     mkLayerBypassWitness "v" "g" "sql" "svc" [mkLayerBypassStep "g" "a.go" 9] "low" "1"] [] ""
    (mkProjCoverage "bypass" true ∅ ∅ []) in
  snd (EvaluateGoLayerBypass result "1" "" "") = [].
Proof.
  intros result. apply (proj1 (proj2 (layer_bypass_exact result "1" "" ""))). reflexivity.
Defined.
