(* ===== verification/ProjectOrder.v ===== *)
(** * Canonical order of project observations

    The comparisons of path steps, string lists and facts, and the canonical
    forms that make project output independent of producer order
    ([string_slice_order.go], [project_path_step_order.go], [project_fact_order.go],
    [project_order.go]). *)

From stdpp Require Import sorting.
From S2P Require Import Prelude GoOrder GoText Semantics Domain Signals.

(** ** Comparing slices *)

(** Element by element over the common length, then the shorter slice first. *)
Fixpoint compare_slices {A} (cmp : A → A → comparison) (a b : list A) : comparison :=
  match a, b with
  | [], [] => Eq
  | [], _ :: _ => Lt
  | _ :: _, [] => Gt
  | x :: a', y :: b' => then_cmp (cmp x y) (compare_slices cmp a' b')
  end.

(** go: pkg/codesignal/string_slice_order.go#compareStringSlices *)
Definition compareStringSlices : list string → list string → comparison :=
  compare_slices String.compare.

(** go: pkg/codesignal/string_slice_order.go#canonicalStringSlice *)
Definition canonicalStringSlice (l : list string) : list string := sort_strings l.

Definition compare_project_locations (a b : ProjectLocation) : comparison :=
  then_cmp (String.compare (pl_Path a) (pl_Path b))
    (compareLocationValue (pl_Location a) (pl_Location b)).

(** go: pkg/codesignal/project_path_step_order.go#comparePathSteps *)
Definition comparePathSteps (a b : ProjectPathStep) : comparison :=
  then_cmp (String.compare (ps_NodeID a) (ps_NodeID b))
  (then_cmp (String.compare (ps_DisplayName a) (ps_DisplayName b))
  (then_cmp (String.compare (ps_Resolution a) (ps_Resolution b))
  (then_cmp (String.compare (ps_Confidence a) (ps_Confidence b))
     (compare_slices compare_project_locations (ps_SourceLocations a) (ps_SourceLocations b))))).

(** go: pkg/codesignal/project_fact_order.go#comparePathStepSlices *)
Definition comparePathStepSlices : list ProjectPathStep → list ProjectPathStep → comparison :=
  compare_slices comparePathSteps.

(** go: pkg/codesignal/project_fact_order.go#compareProjectFacts *)
Definition compareProjectFacts (a b : ProjectFact) : comparison :=
  then_cmp (String.compare (pf_Kind a) (pf_Kind b))
  (then_cmp (String.compare (pf_SemanticKey a) (pf_SemanticKey b))
  (then_cmp (String.compare (pf_Evidence a) (pf_Evidence b))
  (then_cmp (String.compare (prov_Producer (pf_Provenance a)) (prov_Producer (pf_Provenance b)))
  (then_cmp (String.compare (prov_FindingKind (pf_Provenance a)) (prov_FindingKind (pf_Provenance b)))
  (then_cmp (compareStringSlices (pf_CoverageRefs a) (pf_CoverageRefs b))
     (comparePathStepSlices (pf_PathSteps a) (pf_PathSteps b))))))).

(** ** Canonical forms *)

Definition project_location_less (a b : ProjectLocation) : bool :=
  if pl_Path a != pl_Path b then str_less (pl_Path a) (pl_Path b)
  else is_lt (compareLocationValue (pl_Location a) (pl_Location b)).

(** go: pkg/codesignal/project_order.go#canonicalProjectLocations *)
Definition canonicalProjectLocations (l : list ProjectLocation) : list ProjectLocation :=
  stable_sort project_location_less l.

(** go: pkg/codesignal/project_order.go#canonicalPathSteps *)
Definition canonicalPathSteps (l : list ProjectPathStep) : list ProjectPathStep :=
  map (λ s, mkProjectPathStep (ps_NodeID s) (ps_DisplayName s) (ps_Resolution s) (ps_Confidence s)
              (canonicalProjectLocations (ps_SourceLocations s))) l.

(** go: pkg/codesignal/project_order.go#withCanonicalProjectChangeArrays *)
Definition withCanonicalProjectChangeArrays (c : ProjectChange) : ProjectChange :=
  {| pch_SemanticKey := pch_SemanticKey c; pch_ID := pch_ID c; pch_Fingerprint := pch_Fingerprint c;
     pch_RuleID := pch_RuleID c; pch_RuleVersion := pch_RuleVersion c;
     pch_BackendVersion := pch_BackendVersion c; pch_AlgorithmVersion := pch_AlgorithmVersion c;
     pch_ConfigDigest := pch_ConfigDigest c; pch_Kind := pch_Kind c; pch_Category := pch_Category c;
     pch_Severity := pch_Severity c; pch_Confidence := pch_Confidence c;
     pch_Lifecycle := pch_Lifecycle c; pch_Changed := pch_Changed c;
     pch_CausalEvidenceDigest := pch_CausalEvidenceDigest c;
     pch_PrimaryAnchor := pch_PrimaryAnchor c;
     pch_RelatedLocations := canonicalProjectLocations (pch_RelatedLocations c);
     pch_PathSteps := canonicalPathSteps (pch_PathSteps c);
     pch_CoverageRefs := canonicalStringSlice (pch_CoverageRefs c);
     pch_Evidence := pch_Evidence c; pch_MachineEvidence := pch_MachineEvidence c;
     pch_WhyItMatters := pch_WhyItMatters c; pch_Recommendation := pch_Recommendation c;
     pch_SuggestedSkill := pch_SuggestedSkill c; pch_Provenance := pch_Provenance c |}.

(** go: pkg/codesignal/project_order.go#withCanonicalProjectFactArrays *)
Definition withCanonicalProjectFactArrays (f : ProjectFact) : ProjectFact :=
  mkProjectFact (pf_Kind f) (pf_SemanticKey f) (canonicalPathSteps (pf_PathSteps f))
    (canonicalStringSlice (pf_CoverageRefs f)) (pf_Evidence f) (pf_Provenance f).

Definition project_change_less (a b : ProjectChange) : bool :=
  if pch_SemanticKey a != pch_SemanticKey b then str_less (pch_SemanticKey a) (pch_SemanticKey b)
  else str_less (pch_RuleID a) (pch_RuleID b).

(** go: pkg/codesignal/project_order.go#sortProjectChanges *)
Definition sortProjectChanges (changes : list ProjectChange) : list ProjectChange :=
  stable_sort project_change_less (map withCanonicalProjectChangeArrays changes).

(** go: pkg/codesignal/project_order.go#sortProjectFacts *)
Definition sortProjectFacts (facts : list ProjectFact) : list ProjectFact :=
  sort_func compareProjectFacts (map withCanonicalProjectFactArrays facts).

(** ** Lemmas *)

#[export] Instance compare_slices_laws {A} (cmp : A → A → comparison) `{!CmpLaws cmp} :
  CmpLaws (compare_slices cmp).
Proof.
  split.
  - intros l. induction l as [|x l IH]; simpl; [done|]. by rewrite cmp_refl.
  - intros l. induction l as [|x l IH]; intros [|y l']; simpl; try done.
    rewrite IH, (cmp_antisym x y). by destruct (cmp x y).
  - intros l. induction l as [|x l IH]; intros [|y l'] [|z l'']; simpl; try done.
    destruct (cmp x y) eqn:E1; try done.
    + rewrite (cmp_eq_l x y z E1). destruct (cmp y z); try done. apply IH.
    + intros _. destruct (cmp y z) eqn:E2; try done.
      * by rewrite <- (cmp_eq_r cmp y z x E2), E1.
      * by rewrite (cmp_lt_trans x y z E1 E2).
  - intros l. induction l as [|x l IH]; intros [|y l'] [|z l'']; simpl; try done.
    destruct (cmp x y) eqn:E1; try done. intros E2. rewrite (cmp_eq_l x y z E1).
    by rewrite (IH l' l'' E2).
Qed.

#[export] Instance compare_slices_eq {A} (cmp : A → A → comparison) `{!CmpEq cmp} :
  CmpEq (compare_slices cmp).
Proof.
  intros l. induction l as [|x l IH]; intros [|y l']; simpl; try done.
  intros [E1%cmp_eq E2%IH]%then_cmp_Eq. by subst.
Qed.

#[export] Instance compare_project_locations_laws : CmpLaws compare_project_locations.
Proof.
  apply then_cmp_laws; [apply (on_cmp_laws pl_Path String.compare)|].
  apply (on_cmp_laws pl_Location compareLocationValue).
Qed.

#[export] Instance compare_project_locations_eq : CmpEq compare_project_locations.
Proof.
  intros [p l] [p' l'] [E1 E2]%then_cmp_Eq. simpl in *.
  apply (cmp_eq (cmp:=String.compare)) in E1. apply (cmp_eq (cmp:=compareLocationValue)) in E2.
  by subst.
Qed.

#[export] Instance comparePathSteps_laws : CmpLaws comparePathSteps.
Proof.
  repeat (apply then_cmp_laws).
  - apply (on_cmp_laws ps_NodeID String.compare).
  - apply (on_cmp_laws ps_DisplayName String.compare).
  - apply (on_cmp_laws ps_Resolution String.compare).
  - apply (on_cmp_laws ps_Confidence String.compare).
  - apply (on_cmp_laws ps_SourceLocations (compare_slices compare_project_locations)).
Qed.

#[export] Instance comparePathSteps_eq : CmpEq comparePathSteps.
Proof.
  intros [] [] H. unfold comparePathSteps in H. simpl in H.
  repeat match goal with
  | H : then_cmp _ _ = Eq |- _ => apply then_cmp_Eq in H as [? ?]
  | H : String.compare _ _ = Eq |- _ => apply (cmp_eq (cmp:=String.compare)) in H
  | H : compare_slices _ _ _ = Eq |- _ =>
      apply (cmp_eq (cmp:=compare_slices compare_project_locations)) in H
  end. by subst.
Qed.

#[export] Instance compareProjectFacts_laws : CmpLaws compareProjectFacts.
Proof.
  repeat (apply then_cmp_laws).
  - apply (on_cmp_laws pf_Kind String.compare).
  - apply (on_cmp_laws pf_SemanticKey String.compare).
  - apply (on_cmp_laws pf_Evidence String.compare).
  - apply (on_cmp_laws (λ f, prov_Producer (pf_Provenance f)) String.compare).
  - apply (on_cmp_laws (λ f, prov_FindingKind (pf_Provenance f)) String.compare).
  - apply (on_cmp_laws pf_CoverageRefs (compare_slices String.compare)).
  - apply (on_cmp_laws pf_PathSteps (compare_slices comparePathSteps)).
Qed.

Lemma project_location_less_cmp a b :
  project_location_less a b = is_lt (compare_project_locations a b).
Proof. by apply less_chain_string. Qed.

#[export] Instance project_location_sw : StrictWeak project_location_less.
Proof. eapply strict_weak_of_cmp; [apply project_location_less_cmp|apply _]. Qed.

#[export] Instance project_change_sw : StrictWeak project_change_less.
Proof. lex_strict_weak [pch_SemanticKey; pch_RuleID]. Qed.

Lemma canonicalProjectLocations_perm l l' :
  l ≡ₚ l' → canonicalProjectLocations l = canonicalProjectLocations l'.
Proof.
  intros H. unfold canonicalProjectLocations.
  rewrite !(stable_sort_ext project_location_less (λ a b, is_lt (compare_project_locations a b)))
    by (intros; apply project_location_less_cmp).
  apply (sort_func_perm_eq compare_project_locations); [|done].
  intros x y _ _. apply cmp_eq.
Qed.

Lemma canonicalProjectLocations_idemp l :
  canonicalProjectLocations (canonicalProjectLocations l) = canonicalProjectLocations l.
Proof. apply stable_sort_idemp, _. Qed.

Lemma canonicalPathSteps_idemp l : canonicalPathSteps (canonicalPathSteps l) = canonicalPathSteps l.
Proof.
  unfold canonicalPathSteps. rewrite map_map. apply map_ext. intros s. simpl.
  by rewrite canonicalProjectLocations_idemp.
Qed.

Lemma withCanonicalProjectChangeArrays_idemp c :
  withCanonicalProjectChangeArrays (withCanonicalProjectChangeArrays c)
  = withCanonicalProjectChangeArrays c.
Proof.
  unfold withCanonicalProjectChangeArrays, canonicalStringSlice. simpl.
  by rewrite canonicalProjectLocations_idemp, canonicalPathSteps_idemp, sort_strings_idemp.
Qed.

Lemma withCanonicalProjectFactArrays_idemp f :
  withCanonicalProjectFactArrays (withCanonicalProjectFactArrays f)
  = withCanonicalProjectFactArrays f.
Proof.
  unfold withCanonicalProjectFactArrays, canonicalStringSlice. simpl.
  by rewrite canonicalPathSteps_idemp, sort_strings_idemp.
Qed.

(** Facts that differ only in the order of nested arrays. *)
Definition step_equiv (a b : ProjectPathStep) : Prop :=
  ps_NodeID a = ps_NodeID b ∧ ps_DisplayName a = ps_DisplayName b
  ∧ ps_Resolution a = ps_Resolution b ∧ ps_Confidence a = ps_Confidence b
  ∧ ps_SourceLocations a ≡ₚ ps_SourceLocations b.

Definition fact_equiv (a b : ProjectFact) : Prop :=
  pf_Kind a = pf_Kind b ∧ pf_SemanticKey a = pf_SemanticKey b ∧ pf_Evidence a = pf_Evidence b
  ∧ pf_Provenance a = pf_Provenance b ∧ pf_CoverageRefs a ≡ₚ pf_CoverageRefs b
  ∧ Forall2 step_equiv (pf_PathSteps a) (pf_PathSteps b).

Lemma canonical_steps_equiv l l' :
  Forall2 step_equiv l l' → canonicalPathSteps l = canonicalPathSteps l'.
Proof.
  induction 1 as [|a b l l' (H1 & H2 & H3 & H4 & H5) _ IH]; [done|].
  unfold canonicalPathSteps in *. cbn [map]. f_equal; [|exact IH].
  by rewrite H1, H2, H3, H4, (canonicalProjectLocations_perm _ _ H5).
Qed.

Lemma canonical_fact_equiv a b :
  fact_equiv a b → withCanonicalProjectFactArrays a = withCanonicalProjectFactArrays b.
Proof.
  intros (H1 & H2 & H3 & H4 & H5 & H6). unfold withCanonicalProjectFactArrays, canonicalStringSlice.
  by rewrite H1, H2, H3, H4, (canonical_steps_equiv _ _ H6), (sort_strings_perm_eq _ _ H5).
Qed.

(** A fact of one language is determined by what the comparison looks at. *)
Lemma compareProjectFacts_eq a b :
  prov_Language (pf_Provenance a) = prov_Language (pf_Provenance b) →
  compareProjectFacts a b = Eq → a = b.
Proof.
  destruct a as [? ? ? ? ? []], b as [? ? ? ? ? []]. unfold compareProjectFacts, compareStringSlices,
    comparePathStepSlices. simpl. intros -> H.
  repeat match goal with
  | H : then_cmp _ _ = Eq |- _ => apply then_cmp_Eq in H as [? ?]
  | H : String.compare _ _ = Eq |- _ => apply (cmp_eq (cmp:=String.compare)) in H
  | H : compare_slices String.compare _ _ = Eq |- _ =>
      apply (cmp_eq (cmp:=compare_slices String.compare)) in H
  | H : compare_slices comparePathSteps _ _ = Eq |- _ =>
      apply (cmp_eq (cmp:=compare_slices comparePathSteps)) in H
  end. by subst.
Qed.

(** ** Properties *)

(** Facts of one language sort to one list however the producer ordered the
    facts, their coverage references and the locations inside their path steps;
    sorting again changes nothing. *)
Theorem project_facts_canonical language facts facts' arranged :
  Forall (λ f, prov_Language (pf_Provenance f) = language) facts →
  facts ≡ₚ arranged → Forall2 fact_equiv arranged facts' →
  sortProjectFacts facts' = sortProjectFacts facts
  ∧ sortProjectFacts (sortProjectFacts facts) = sortProjectFacts facts.
Proof.
  intros Hl Hp He. split.
  - unfold sortProjectFacts.
    assert (map withCanonicalProjectFactArrays facts' = map withCanonicalProjectFactArrays arranged) as ->.
    { clear Hp. induction He as [|a b l l' Hab _ IH]; simpl; [done|].
      by rewrite IH, (canonical_fact_equiv _ _ Hab). }
    symmetry. apply sort_func_perm_eq; [apply _| |by apply Permutation_map].
    rewrite List.Forall_forall in Hl.
    intros x y (a & <- & Ha)%in_map_iff (b & <- & Hb)%in_map_iff. apply compareProjectFacts_eq. simpl.
    by rewrite (Hl _ Ha), (Hl _ Hb).
  - apply (sort_map_idemp (λ a b, is_lt (compareProjectFacts a b))).
    apply withCanonicalProjectFactArrays_idemp.
Qed.

(** Project changes with distinct semantic keys sort to one list whatever
    the producer order, every change present once in canonical form. *)
Theorem project_changes_canonical changes changes' :
  NoDup (map pch_SemanticKey changes) → changes ≡ₚ changes' →
  sortProjectChanges changes' = sortProjectChanges changes
  ∧ sortProjectChanges changes ≡ₚ map withCanonicalProjectChangeArrays changes
  ∧ sortProjectChanges (sortProjectChanges changes) = sortProjectChanges changes.
Proof.
  intros Hnd Hp. split; [|split].
  - symmetry. unfold sortProjectChanges. apply stable_sort_perm_eq; [apply _| |by apply Permutation_map].
    intros x y (a & <- & Ha)%in_map_iff (b & <- & Hb)%in_map_iff He. f_equal.
    apply (NoDup_map_inj pch_SemanticKey changes); [done|done|done|].
    unfold equiv_to, project_change_less in He. cbn [pch_SemanticKey withCanonicalProjectChangeArrays] in He.
    destruct (String.eqb_spec (pch_SemanticKey a) (pch_SemanticKey b)) as [E|E]; [done|].
    cbn [negb] in He. rewrite (proj2 (String.eqb_neq _ _)) in He by congruence. cbn [negb] in He.
    apply andb_true_iff in He as [H1%negb_true_iff H2%negb_true_iff]. unfold str_less in H1, H2.
    rewrite (cmp_antisym (cmp:=String.compare) (pch_SemanticKey a)) in H2.
    destruct (String.compare _ _) eqn:Ec; try done. by apply (cmp_eq (cmp:=String.compare)) in Ec.
  - apply stable_sort_perm.
  - apply sort_map_idemp; [apply _|apply withCanonicalProjectChangeArrays_idemp].
Qed.

(** The comparison leaves out the provenance language: two facts that differ only
    there keep the order the producer gave them. *)
Lemma project_facts_language_tie :
  let fact language := mkProjectFact "k" "s" [] [] "e" (mkProvenance "p" "k" language) in
  sortProjectFacts [fact "go"; fact "typescript"] ≠ sortProjectFacts [fact "typescript"; fact "go"].
Proof. cbv zeta beta. vm_compute. discriminate. Qed.

(** ** Witnesses *)

Definition example_location (path : string) (row : N) : ProjectLocation :=
  mkProjectLocation path (mkLocation 0 0 row 0 0 0).

Definition example_fact (key : string) (refs : list string) (locs : list ProjectLocation) : ProjectFact :=
  mkProjectFact "possible_call_reachability" key [mkProjectPathStep "n" "" "" "high" locs] refs ""
    (mkProvenance "projectmodel" "possible_call_reachability" "go").

Lemma project_facts_canonical_witness :
  sortProjectFacts
    [example_fact "b" ["r1"; "r2"] [example_location "x.go" 1; example_location "x.go" 9];
     example_fact "a" [] []]
  = sortProjectFacts
    [example_fact "a" [] [];
     example_fact "b" ["r2"; "r1"] [example_location "x.go" 9; example_location "x.go" 1]].
Proof.
  apply (project_facts_canonical "go" _ _
    [example_fact "b" ["r2"; "r1"] [example_location "x.go" 9; example_location "x.go" 1];
     example_fact "a" [] []]).
  - repeat constructor.
  - apply perm_swap.
  - repeat constructor.
Defined.

Definition example_change (key rule : string) : ProjectChange :=
  mkProjectChange key "" "" rule "1" "" "" "" rule "architecture" "advisory" "high" "" false ""
    (example_location "a.go" 3) [] [] [] "" ∅ "" "" "" (mkProvenance "projectmodel" rule "").

Lemma project_changes_canonical_witness :
  sortProjectChanges [example_change "b" "r"; example_change "a" "r"]
  = sortProjectChanges [example_change "a" "r"; example_change "b" "r"].
Proof.
  apply project_changes_canonical; [|apply perm_swap].
  apply (bool_decide_unpack _). vm_compute. reflexivity.
Defined.
