(* ===== verification/ProjectLifecycle.v ===== *)
(** * Lifecycle of project changes

    Identity hashes, rename/copy continuity, the indeterminacy of a comparison, and
    the classification of every project change on either side
    ([project_fingerprint.go], [project_continuity.go],
    [project_lifecycle_state.go], [project_lifecycle.go]). *)

From S2P Require Import Prelude GoOrder GoText GoHash Semantics Domain Signals Report ProjectOrder.

(** ** Identity *)

(** The values [appendProjectIdentity] appends, in order. *)
Definition project_identity (change : ProjectChange) : list string :=
  [pch_SemanticKey change; pch_RuleID change; pch_RuleVersion change;
   pch_BackendVersion change; pch_AlgorithmVersion change; pch_ConfigDigest change].

(** go: pkg/codesignal/project_fingerprint.go#appendProjectIdentity *)
Definition appendProjectIdentity (buf : string) (change : ProjectChange) : string :=
  fold_left appendLengthPrefixed (project_identity change) buf.

(** go: pkg/codesignal/project_fingerprint.go#computeProjectFingerprint *)
Definition computeProjectFingerprint (change : ProjectChange) : string :=
  "pfp_" +:+ hex_sum (appendProjectIdentity "" change).

(** go: pkg/codesignal/project_fingerprint.go#computeProjectChangeID *)
Definition computeProjectChangeID (change : ProjectChange) : string :=
  "pchg_" +:+ hex_sum (appendProjectIdentity "" change).

(** Assignments to the classified fields. *)
Definition with_classification (lifecycle : string) (changed : bool) (evidence : string)
    (c : ProjectChange) : ProjectChange :=
  mkProjectChange (pch_SemanticKey c) (pch_ID c) (pch_Fingerprint c) (pch_RuleID c)
    (pch_RuleVersion c) (pch_BackendVersion c) (pch_AlgorithmVersion c) (pch_ConfigDigest c)
    (pch_Kind c) (pch_Category c) (pch_Severity c) (pch_Confidence c) lifecycle changed
    (pch_CausalEvidenceDigest c) (pch_PrimaryAnchor c) (pch_RelatedLocations c) (pch_PathSteps c)
    (pch_CoverageRefs c) evidence (pch_MachineEvidence c) (pch_WhyItMatters c)
    (pch_Recommendation c) (pch_SuggestedSkill c) (pch_Provenance c).

Definition with_project_identity (fingerprint id : string) (c : ProjectChange) : ProjectChange :=
  mkProjectChange (pch_SemanticKey c) id fingerprint (pch_RuleID c)
    (pch_RuleVersion c) (pch_BackendVersion c) (pch_AlgorithmVersion c) (pch_ConfigDigest c)
    (pch_Kind c) (pch_Category c) (pch_Severity c) (pch_Confidence c) (pch_Lifecycle c)
    (pch_Changed c) (pch_CausalEvidenceDigest c) (pch_PrimaryAnchor c) (pch_RelatedLocations c)
    (pch_PathSteps c) (pch_CoverageRefs c) (pch_Evidence c) (pch_MachineEvidence c)
    (pch_WhyItMatters c) (pch_Recommendation c) (pch_SuggestedSkill c) (pch_Provenance c).

(** ** Diagnostics *)

(** go: pkg/codesignal/diagnostics.go#DiagKindProjectCoverageIncomplete *)
Definition DiagKindProjectCoverageIncomplete : string := "project_coverage_incomplete".
(** go: pkg/codesignal/diagnostics.go#DiagKindProjectLifecycleIndeterminate *)
Definition DiagKindProjectLifecycleIndeterminate : string := "project_lifecycle_indeterminate".
(** go: pkg/codesignal/project_lifecycle.go#DiagKindProjectChangeLifecycleIndeterminate *)
Definition DiagKindProjectChangeLifecycleIndeterminate : string :=
  "project_change_lifecycle_indeterminate".

(** go: pkg/codesignal/project_lifecycle.go#indeterminateLifecycleEvidenceNote *)
Definition indeterminateLifecycleEvidenceNote : string :=
  " (lifecycle is " +:+ dq +:+ "unknown" +:+ dq
  +:+ ": see the project_lifecycle_indeterminate diagnostic for why)".

(** go: pkg/codesignal/project_continuity.go#undeterminedContinuityEvidenceNote *)
Definition undeterminedContinuityEvidenceNote : string :=
  " (lifecycle is " +:+ dq +:+ "unknown" +:+ dq +:+ ": see the "
  +:+ DiagKindProjectChangeLifecycleIndeterminate +:+ " diagnostic for why)".

(** go: pkg/codesignal/project_continuity.go#sideRevisionLabel *)
Definition sideRevisionLabel (side revision : string) : string :=
  if revision == "" then side +:+ " revision" else side +:+ " revision " +:+ revision.

#[export] Instance Diagnostic_eq_dec : EqDecision Diagnostic.
Proof. solve_decision. Defined.

(** Every diagnostic filtered here has a nil location, so comparing the struct
    values and comparing the pointers agree.
    go: pkg/codesignal/project_continuity.go#appendDistinctDiagnostics *)
Definition appendDistinctDiagnostics (diagnostics seen candidates : list Diagnostic) :
    list Diagnostic * list Diagnostic :=
  fold_left (λ '(diagnostics, seen) d,
    if bool_decide (d ∈ seen) then (diagnostics, seen)
    else (diagnostics ++ [d], seen ++ [d])) candidates (diagnostics, seen).

(** ** Continuity *)

(** go: pkg/codesignal/project_continuity.go#undeterminedContinuity *)
Record undeterminedContinuity := mkUndeterminedContinuity {
  uc_head : gset string; uc_base : gset string
}.

(** go: pkg/codesignal/project_continuity.go#newUndeterminedContinuity *)
Definition newUndeterminedContinuity (pairs : list PathContinuity) : undeterminedContinuity :=
  fold_left (λ c pair,
    let head := if pcn_Path pair != "" then {[pcn_Path pair]} ∪ uc_head c else uc_head c in
    let base :=
      if pcn_PreviousPath pair != "" then {[pcn_PreviousPath pair]} ∪ uc_base c else uc_base c in
    mkUndeterminedContinuity head base) pairs (mkUndeterminedContinuity ∅ ∅).

(** go: pkg/codesignal/project_continuity.go#projectChangeLocationPaths *)
Definition projectChangeLocationPaths (change : ProjectChange) : list string :=
  pl_Path (pch_PrimaryAnchor change)
  :: map pl_Path (pch_RelatedLocations change)
  ++ flat_map (λ step, map pl_Path (ps_SourceLocations step)) (pch_PathSteps change).

(** go: pkg/codesignal/project_continuity.go#projectChangeIdentityPaths *)
Definition projectChangeIdentityPaths (change : ProjectChange) : list string :=
  List.filter (λ p, p != "")
    (map (λ key, default "" (pch_MachineEvidence change !! key)) ["importer"; "importee"]).

(** go: pkg/codesignal/project_continuity.go#sortedPaths *)
Definition sortedPaths (set : gset string) : list string := sort_strings (elements set).

(** go: pkg/codesignal/project_continuity.go#firstMovedPathTouchedBy *)
Definition firstMovedPathTouchedBy (change : ProjectChange) (moved : gset string) : option string :=
  if bool_decide (size moved = 0%nat) then None else
  match List.find (λ p, bool_decide (p ∈ moved)) (projectChangeLocationPaths change) with
  | Some p => Some p
  | None =>
      let identities := projectChangeIdentityPaths change in
      List.find (λ p, existsb (λ identity, (identity == p) || (identity == Dir p)) identities)
        (sortedPaths moved)
  end.

(** go: pkg/codesignal/project_continuity.go#headPath *)
Definition headPath (c : undeterminedContinuity) (change : ProjectChange) : option string :=
  firstMovedPathTouchedBy change (uc_head c).

(** go: pkg/codesignal/project_continuity.go#basePath *)
Definition basePath (c : undeterminedContinuity) (change : ProjectChange) : option string :=
  firstMovedPathTouchedBy change (uc_base c).

(** go: pkg/codesignal/project_continuity.go#continuityDegradedDiagnostic *)
Definition continuityDegradedDiagnostic (path side revision : string) : Diagnostic :=
  mkDiagnostic path DiagKindProjectChangeLifecycleIndeterminate
    ("project change lifecycle is " +:+ dq +:+ "unknown" +:+ dq
     +:+ ": rename/copy continuity of this path was not determined at "
     +:+ sideRevisionLabel side revision) None side revision.

(** ** Indeterminacy *)

(** go: pkg/codesignal/project_lifecycle_state.go#projectLifecycleIndeterminacy *)
Record projectLifecycleIndeterminacy := mkIndeterminacy {
  ind_headIncomplete : bool; ind_baseIncomplete : bool; ind_inconsistentBase : bool;
  ind_headRevision : string; ind_baseRevision : string
}.

(** go: pkg/codesignal/project_lifecycle_state.go#any *)
Definition indeterminate (s : projectLifecycleIndeterminacy) : bool :=
  ind_headIncomplete s || ind_baseIncomplete s || ind_inconsistentBase s.

Definition degraded_diagnostic (path side revision reason : string) : Diagnostic :=
  mkDiagnostic path DiagKindProjectChangeLifecycleIndeterminate
    ("project change lifecycle is " +:+ dq +:+ "unknown" +:+ dq +:+ ": "
     +:+ sideRevisionLabel side revision +:+ reason) None side revision.

(** go: pkg/codesignal/project_lifecycle_state.go#degradedProjectChangeDiagnostics *)
Definition degradedProjectChangeDiagnostics (path : string) (state : projectLifecycleIndeterminacy) :
    list Diagnostic :=
  (if ind_headIncomplete state
   then [degraded_diagnostic path "head" (ind_headRevision state)
           " project analysis coverage is incomplete"] else [])
  ++ (if ind_baseIncomplete state
      then [degraded_diagnostic path "base" (ind_baseRevision state)
              " project analysis coverage is incomplete"] else [])
  ++ (if ind_inconsistentBase state
      then [degraded_diagnostic path "base" (ind_baseRevision state)
              " supplied project observations without a completed base analysis"] else []).

(** go: pkg/codesignal/project_lifecycle_state.go#completeProjectCoverage *)
Definition completeProjectCoverage (coverage : option ProjCoverage) : bool :=
  match coverage with Some c => pc_Complete c | None => false end.

(** The reasons a lifecycle diagnostic lists. *)
Definition lifecycle_reasons (input : Input) : list string :=
  let head :=
    match in_ProjectCoverage input with
    | None => ["head coverage unavailable"]
    | Some c => if negb (pc_Complete c) then ["head coverage incomplete"] else []
    end in
  let baseSideExpected :=
    in_ProjectBaseAnalyzed input || (0 <? zlen (in_BaseProjectChanges input))%Z in
  let base :=
    if baseSideExpected then
      match in_ProjectBaseAnalyzed input, in_BaseProjectCoverage input with
      | true, Some c => if negb (pc_Complete c) then ["base coverage incomplete"] else []
      | _, _ => ["base coverage unavailable"]
      end
    else [] in
  head ++ base.

(** go: pkg/codesignal/project_lifecycle_state.go#projectLifecycleDiagnosticMessage *)
Definition projectLifecycleDiagnosticMessage (input : Input) : string :=
  match lifecycle_reasons input with
  | [] => "project lifecycle is indeterminate"
  | reasons => "project lifecycle is indeterminate: " +:+ Join reasons "; "
  end.

(** go: pkg/codesignal/project_lifecycle_state.go#projectLifecycleState *)
Definition projectLifecycleState (input : Input) : projectLifecycleIndeterminacy * list Diagnostic :=
  let state :=
    mkIndeterminacy
      (negb (completeProjectCoverage (in_ProjectCoverage input)))
      (in_ProjectBaseAnalyzed input && negb (completeProjectCoverage (in_BaseProjectCoverage input)))
      (negb (in_ProjectBaseAnalyzed input) && (0 <? zlen (in_BaseProjectChanges input))%Z)
      (scope_Revision (in_Scope input)) (scope_Base (in_Scope input)) in
  (state,
   match in_ProjectCoverage input with
   | Some c =>
       if negb (pc_Complete c)
       then [file_diagnostic "" DiagKindProjectCoverageIncomplete
               "project analysis coverage is incomplete; project observations may be partial"]
       else []
   | None => []
   end
   ++ (if indeterminate state
       then [file_diagnostic "" DiagKindProjectLifecycleIndeterminate
               (projectLifecycleDiagnosticMessage input)]
       else [])).

(** ** Classification *)

Definition duplicate_key_diagnostic (change : ProjectChange) : Diagnostic :=
  file_diagnostic (pl_Path (pch_PrimaryAnchor change)) "project_duplicate_semantic_key"
    ("duplicate project observation semantic_key " +:+ dq +:+ pch_SemanticKey change +:+ dq
     +:+ "; keeping the first occurrence").

(** go: pkg/codesignal/project_lifecycle.go#indexProjectChangesByKey *)
Definition indexProjectChangesByKey (changes : list ProjectChange) :
    gmap string ProjectChange * list Diagnostic :=
  fold_left (λ '(byKey, diagnostics) change,
    match byKey !! pch_SemanticKey change with
    | Some _ => (byKey, diagnostics ++ [duplicate_key_diagnostic change])
    | None => (<[pch_SemanticKey change := change]> byKey, diagnostics)
    end) changes (∅, []).

(** go: pkg/codesignal/project_lifecycle.go#sortedProjectKeys *)
Definition sortedProjectKeys (byKey : gmap string ProjectChange) : list string :=
  sort_strings (map fst (map_to_list byKey)).

#[export] Instance ProjectLocation_eq_dec : EqDecision ProjectLocation.
Proof. solve_decision. Defined.

(** go: pkg/codesignal/project_lifecycle.go#projectChangeChanged *)
Definition projectChangeChanged (head base : ProjectChange) : bool :=
  if (pch_CausalEvidenceDigest head != "") || (pch_CausalEvidenceDigest base != "")
  then pch_CausalEvidenceDigest head != pch_CausalEvidenceDigest base
  else bool_decide (pch_PrimaryAnchor head ≠ pch_PrimaryAnchor base).

(** [change.Fingerprint = ...; change.ID = ...]. *)
Definition identify_change (change : ProjectChange) : ProjectChange :=
  with_project_identity (computeProjectFingerprint change) (computeProjectChangeID change) change.

(** The body of the loop over head keys: the change and the diagnostics to add. *)
Definition classify_head (hasBase : bool) (state : projectLifecycleIndeterminacy)
    (continuity : undeterminedContinuity) (inBase : option ProjectChange)
    (noBaseLifecycle : string) (change : ProjectChange) : ProjectChange * list Diagnostic :=
  let evidence := pch_Evidence change in
  let '(classified, candidates) :=
    if indeterminate state then
      (with_classification "unknown" false (evidence +:+ indeterminateLifecycleEvidenceNote) change,
       degradedProjectChangeDiagnostics (pl_Path (pch_PrimaryAnchor change)) state)
    else if negb hasBase then (with_classification noBaseLifecycle false evidence change, [])
    else match inBase, headPath continuity change with
    | Some baseChange, _ =>
        (with_classification "existing" (projectChangeChanged change baseChange) evidence change, [])
    | None, Some movedPath =>
        (with_classification "unknown" false (evidence +:+ undeterminedContinuityEvidenceNote) change,
         [continuityDegradedDiagnostic movedPath "head" (ind_headRevision state)])
    | None, None => (with_classification "introduced" true evidence change, [])
    end in
  (identify_change classified, candidates).

(** The body of the loop over base keys absent from the head. *)
Definition classify_base (hasBase : bool) (state : projectLifecycleIndeterminacy)
    (continuity : undeterminedContinuity) (change : ProjectChange) : ProjectChange * list Diagnostic :=
  let evidence := pch_Evidence change in
  let '(classified, candidates) :=
    if indeterminate state || negb hasBase then
      (with_classification "unknown" false (evidence +:+ indeterminateLifecycleEvidenceNote) change,
       degradedProjectChangeDiagnostics (pl_Path (pch_PrimaryAnchor change)) state)
    else match basePath continuity change with
    | Some movedPath =>
        (with_classification "unknown" false (evidence +:+ undeterminedContinuityEvidenceNote) change,
         [continuityDegradedDiagnostic movedPath "base" (ind_baseRevision state)])
    | None => (with_classification "resolved" false evidence change, [])
    end in
  (identify_change classified, candidates).

Definition classify_state : Type := list ProjectChange * list Diagnostic * list Diagnostic.

Definition append_classified (st : classify_state) (r : ProjectChange * list Diagnostic) :
    classify_state :=
  let '(result, diagnostics, seen) := st in
  let '(change, candidates) := r in
  let '(diagnostics, seen) := appendDistinctDiagnostics diagnostics seen candidates in
  (result ++ [change], diagnostics, seen).

(** go: pkg/codesignal/project_lifecycle.go#classifyProjectChanges *)
Definition classifyProjectChanges (hasBase : bool) (state : projectLifecycleIndeterminacy)
    (continuity : undeterminedContinuity) (headChanges baseChanges : list ProjectChange)
    (noBaseLifecycle : string) : list ProjectChange * list Diagnostic :=
  let '(headByKey, headDiags) := indexProjectChangesByKey headChanges in
  let '(baseByKey, baseDiags) := indexProjectChangesByKey baseChanges in
  let st : classify_state := ([], headDiags ++ baseDiags, []) in
  let st :=
    fold_left (λ st key,
      match headByKey !! key with
      | Some change =>
          append_classified st
            (classify_head hasBase state continuity (baseByKey !! key) noBaseLifecycle change)
      | None => st
      end) (sortedProjectKeys headByKey) st in
  let '(result, diagnostics, _) :=
    fold_left (λ st key,
      match headByKey !! key, baseByKey !! key with
      | Some _, _ => st
      | None, Some change => append_classified st (classify_base hasBase state continuity change)
      | None, None => st
      end) (sortedProjectKeys baseByKey) st in
  (result, diagnostics).

(** ** Lemmas *)

(** The first observation of a key. *)
Definition first_of (changes : list ProjectChange) (key : string) : option ProjectChange :=
  List.find (λ c, pch_SemanticKey c == key) changes.

Lemma find_snoc {A} (f : A → bool) l x :
  List.find f (l ++ [x]) = match List.find f l with
                           | Some y => Some y | None => if f x then Some x else None end.
Proof. induction l as [|y l IH]; simpl; [done|]. by destruct (f y). Qed.

Lemma index_snoc changes c :
  indexProjectChangesByKey (changes ++ [c]) =
  let '(byKey, diagnostics) := indexProjectChangesByKey changes in
  match byKey !! pch_SemanticKey c with
  | Some _ => (byKey, diagnostics ++ [duplicate_key_diagnostic c])
  | None => (<[pch_SemanticKey c := c]> byKey, diagnostics)
  end.
Proof.
  unfold indexProjectChangesByKey. rewrite fold_left_app. cbn [fold_left].
  by destruct (fold_left _ changes _).
Qed.

Lemma index_lookup changes key : fst (indexProjectChangesByKey changes) !! key = first_of changes key.
Proof.
  induction changes as [|c changes IH] using rev_ind; [done|].
  rewrite index_snoc. unfold first_of in *. rewrite find_snoc, <- IH.
  destruct (indexProjectChangesByKey changes) as [m d]. cbn [fst].
  destruct (String.eqb_spec (pch_SemanticKey c) key) as [<-|Hne].
  - destruct (m !! pch_SemanticKey c) eqn:E; cbn [fst]; [by rewrite E|]. by rewrite lookup_insert_eq.
  - destruct (m !! pch_SemanticKey c); cbn [fst]; [by destruct (m !! key)|].
    rewrite lookup_insert_ne by done. by destruct (m !! key).
Qed.

Lemma first_of_Some changes key c :
  first_of changes key = Some c → In c changes ∧ pch_SemanticKey c = key.
Proof. intros [H1 H2%String.eqb_eq]%find_some. done. Qed.

Lemma first_of_None changes key :
  first_of changes key = None ↔ ¬ In key (map pch_SemanticKey changes).
Proof.
  unfold first_of. rewrite in_map_iff. split.
  - intros H (c & <- & Hc). pose proof (find_none _ _ H c Hc) as E. simpl in E.
    by rewrite String.eqb_refl in E.
  - intros H. destruct (List.find _ _) eqn:E; [|done]. apply first_of_Some in E. naive_solver.
Qed.

Lemma sortedProjectKeys_elem byKey key : In key (sortedProjectKeys byKey) ↔ is_Some (byKey !! key).
Proof.
  unfold sortedProjectKeys, sort_strings. rewrite stable_sort_In, in_map_iff. split.
  - intros ([k c] & <- & Hin). apply list_elem_of_In, elem_of_map_to_list in Hin. by eexists.
  - intros [c Hc]. exists (key, c). split; [done|]. by apply list_elem_of_In, elem_of_map_to_list.
Qed.

Lemma sortedProjectKeys_NoDup byKey : NoDup (sortedProjectKeys byKey).
Proof. unfold sortedProjectKeys, sort_strings. rewrite stable_sort_perm. apply NoDup_fst_map_to_list. Qed.

(** *** Distinct diagnostics *)

Lemma appendDistinct_app diagnostics seen cs cs' :
  appendDistinctDiagnostics diagnostics seen (cs ++ cs')
  = let '(d, s) := appendDistinctDiagnostics diagnostics seen cs in appendDistinctDiagnostics d s cs'.
Proof.
  unfold appendDistinctDiagnostics. rewrite fold_left_app. by destruct (fold_left _ cs _).
Qed.

Lemma appendDistinct_spec cs : ∀ diagnostics seen,
  ∃ fresh, appendDistinctDiagnostics diagnostics seen cs = (diagnostics ++ fresh, seen ++ fresh)
    ∧ NoDup fresh ∧ ∀ d, d ∈ fresh ↔ d ∈ cs ∧ d ∉ seen.
Proof.
  induction cs as [|c cs IH]; intros diagnostics seen.
  - exists []. rewrite !app_nil_r. split; [done|]. split; [constructor|]. set_solver.
  - unfold appendDistinctDiagnostics. cbn [fold_left]. case_bool_decide as Hc.
    + destruct (IH diagnostics seen) as (fresh & E & Hnd & Hin). exists fresh.
      split; [exact E|]. split; [done|]. intros d. rewrite Hin. set_solver.
    + destruct (IH (diagnostics ++ [c]) (seen ++ [c])) as (fresh & E & Hnd & Hin).
      exists (c :: fresh). rewrite <- !app_assoc in E. split; [exact E|].
      split; [constructor; [rewrite Hin; set_solver|done]|].
      intros d. rewrite !elem_of_cons, Hin, elem_of_app, list_elem_of_singleton.
      destruct (decide (d = c)) as [->|]; tauto.
Qed.

(** *** Shape of a classification *)

Lemma fold_append_classified rs : ∀ result diagnostics seen,
  fold_left append_classified rs (result, diagnostics, seen)
  = (result ++ map fst rs,
     fst (appendDistinctDiagnostics diagnostics seen (flat_map snd rs)),
     snd (appendDistinctDiagnostics diagnostics seen (flat_map snd rs))).
Proof.
  induction rs as [|[c ds] rs IH]; intros result diagnostics seen; cbn [fold_left map flat_map].
  - by rewrite app_nil_r.
  - cbn [append_classified fst snd]. rewrite appendDistinct_app.
    destruct (appendDistinctDiagnostics diagnostics seen ds) as [d s].
    rewrite IH. by rewrite <- app_assoc.
Qed.

Lemma fold_skip {A B S} (f : A → option B) (g : S → B → S) ks st :
  fold_left (λ st k, match f k with Some x => g st x | None => st end) ks st
  = fold_left g (omap f ks) st.
Proof.
  revert st. induction ks as [|k ks IH]; intros st; [done|].
  cbn [fold_left omap list_omap]. destruct (f k); apply IH.
Qed.

Section Shape.
Context (hasBase : bool) (state : projectLifecycleIndeterminacy)
  (continuity : undeterminedContinuity) (head base : list ProjectChange) (nl : string).

(** The outcome for one key. *)
Definition head_row (key : string) : option (ProjectChange * list Diagnostic) :=
  match first_of head key with
  | Some c => Some (classify_head hasBase state continuity (first_of base key) nl c)
  | None => None
  end.

Definition base_row (key : string) : option (ProjectChange * list Diagnostic) :=
  match first_of head key, first_of base key with
  | None, Some c => Some (classify_base hasBase state continuity c)
  | _, _ => None
  end.

Definition rows : list (ProjectChange * list Diagnostic) :=
  omap head_row (sortedProjectKeys (fst (indexProjectChangesByKey head)))
  ++ omap base_row (sortedProjectKeys (fst (indexProjectChangesByKey base))).

Lemma classify_shape :
  classifyProjectChanges hasBase state continuity head base nl
  = (map fst rows,
     fst (appendDistinctDiagnostics
       (snd (indexProjectChangesByKey head) ++ snd (indexProjectChangesByKey base)) []
       (flat_map snd rows))).
Proof.
  unfold classifyProjectChanges, rows.
  pose proof (index_lookup head) as Hh. pose proof (index_lookup base) as Hb.
  destruct (indexProjectChangesByKey head) as [hm hd], (indexProjectChangesByKey base) as [bm bd].
  cbn [fst snd] in *.
  set (init := ([], hd ++ bd, []) : classify_state).
  transitivity (let '(result, diagnostics, _) :=
    fold_left append_classified (omap base_row (sortedProjectKeys bm))
      (fold_left append_classified (omap head_row (sortedProjectKeys hm)) init) in
    (result, diagnostics)).
  - rewrite <- !fold_skip.
    assert (∀ ks st, fold_left (λ st key, match hm !! key with
        | Some change => append_classified st
            (classify_head hasBase state continuity (bm !! key) nl change)
        | None => st end) ks st
      = fold_left (λ st k, match head_row k with
          | Some x => append_classified st x | None => st end) ks st) as E1.
    { induction ks as [|k ks IH]; intros st; [done|]. cbn [fold_left]. rewrite IH. f_equal.
      unfold head_row. rewrite Hh, Hb. by destruct (first_of head k). }
    rewrite E1. clear E1.
    generalize (fold_left (λ st k, match head_row k with
          | Some x => append_classified st x | None => st end) (sortedProjectKeys hm) init) as st.
    intros st. f_equal. revert st. induction (sortedProjectKeys bm) as [|k ks IH]; intros st; [done|].
    cbn [fold_left]. rewrite IH. f_equal. unfold base_row. rewrite Hh, Hb.
    by destruct (first_of head k), (first_of base k).
  - rewrite <- fold_left_app. unfold init. by rewrite fold_append_classified.
Qed.

Lemma in_rows r :
  In r rows ↔ ∃ key, head_row key = Some r ∨ base_row key = Some r.
Proof.
  unfold rows. rewrite in_app_iff, <- !list_elem_of_In, !list_elem_of_omap.
  setoid_rewrite list_elem_of_In. split.
  - intros [(k & _ & H)|(k & _ & H)]; eauto.
  - intros (k & [H|H]); [left|right]; exists k; (split; [|done]);
      apply sortedProjectKeys_elem; rewrite index_lookup; unfold head_row, base_row in H;
      destruct (first_of head k), (first_of base k); done || by eexists.
Qed.
End Shape.

Lemma classify_head_key hb st co ib nl c :
  pch_SemanticKey (fst (classify_head hb st co ib nl c)) = pch_SemanticKey c.
Proof.
  unfold classify_head. by destruct (indeterminate st), (negb hb), ib, (headPath co c).
Qed.

Lemma classify_base_key hb st co c :
  pch_SemanticKey (fst (classify_base hb st co c)) = pch_SemanticKey c.
Proof. unfold classify_base. by destruct (indeterminate st), (negb hb), (basePath co c). Qed.

(** What classification leaves untouched. *)
Definition erase_change (c : ProjectChange) : ProjectChange :=
  with_project_identity "" "" (with_classification "" false "" c).

Lemma classify_head_erase hb st co ib nl c :
  erase_change (fst (classify_head hb st co ib nl c)) = erase_change c.
Proof.
  unfold classify_head. by destruct (indeterminate st), (negb hb), ib, (headPath co c).
Qed.

Lemma classify_base_erase hb st co c :
  erase_change (fst (classify_base hb st co c)) = erase_change c.
Proof. unfold classify_base. by destruct (indeterminate st), (negb hb), (basePath co c). Qed.

(** A change of the result is the row of its key. *)
Lemma in_result hb st co head base nl c :
  In c (fst (classifyProjectChanges hb st co head base nl)) →
  ∃ ds, match first_of head (pch_SemanticKey c), first_of base (pch_SemanticKey c) with
        | Some h, b => (c, ds) = classify_head hb st co b nl h
        | None, Some b => (c, ds) = classify_base hb st co b
        | None, None => False
        end ∧ In (c, ds) (rows hb st co head base nl).
Proof.
  rewrite classify_shape. cbn [fst]. rewrite in_map_iff. intros ([c' ds] & <- & Hin).
  exists ds. split; [|done]. apply in_rows in Hin as [k [H|H]].
  - unfold head_row in H. destruct (first_of head k) as [h|] eqn:Eh; [|done]. injection H as H.
    assert (pch_SemanticKey c' = k) as Hk.
    { change c' with (fst (c', ds)). rewrite <- H, classify_head_key. apply (first_of_Some _ _ _ Eh). }
    cbn [fst]. by rewrite Hk, Eh.
  - unfold base_row in H. destruct (first_of head k) eqn:Eh; [done|].
    destruct (first_of base k) as [b|] eqn:Eb; [|done]. injection H as H.
    assert (pch_SemanticKey c' = k) as Hk.
    { change c' with (fst (c', ds)). rewrite <- H, classify_base_key. apply (first_of_Some _ _ _ Eb). }
    cbn [fst]. by rewrite Hk, Eh, Eb.
Qed.

Lemma map_omap_keys {A} (f : string → option A) (key : A → string) ks :
  (∀ k x, f k = Some x → key x = k) →
  map key (omap f ks) = List.filter (λ k, match f k with Some _ => true | None => false end) ks.
Proof.
  intros H. induction ks as [|k ks IH]; [done|]. cbn [omap list_omap List.filter].
  destruct (f k) as [x|] eqn:E; [|done]. cbn [map]. by rewrite IH, (H k x E).
Qed.

Lemma row_key hb st co head base nl k r :
  head_row hb st co head base nl k = Some r ∨ base_row hb st co head base k = Some r →
  pch_SemanticKey (fst r) = k.
Proof.
  unfold head_row, base_row. destruct (first_of head k) as [h|] eqn:Eh,
    (first_of base k) as [b|] eqn:Eb; intros [H|H]; try done; injection H as <-.
  - rewrite classify_head_key. apply (first_of_Some _ _ _ Eh).
  - rewrite classify_head_key. apply (first_of_Some _ _ _ Eh).
  - rewrite classify_base_key. apply (first_of_Some _ _ _ Eb).
Qed.

Lemma result_keys hb st co head base nl :
  map pch_SemanticKey (fst (classifyProjectChanges hb st co head base nl))
  = List.filter (λ k, match head_row hb st co head base nl k with Some _ => true | None => false end)
      (sortedProjectKeys (fst (indexProjectChangesByKey head)))
    ++ List.filter (λ k, match base_row hb st co head base k with Some _ => true | None => false end)
      (sortedProjectKeys (fst (indexProjectChangesByKey base))).
Proof.
  rewrite classify_shape. cbn [fst]. unfold rows. rewrite map_map, map_app.
  f_equal; apply (map_omap_keys _ (λ r, pch_SemanticKey (fst r))); intros k r H;
    apply (row_key hb st co head base nl); auto.
Qed.

Lemma bfilter_NoDup {A} (f : A → bool) l : NoDup l → NoDup (List.filter f l).
Proof. intros H. apply NoDup_ListNoDup, List.NoDup_filter. by apply NoDup_ListNoDup. Qed.

Lemma result_keys_NoDup hb st co head base nl :
  NoDup (map pch_SemanticKey (fst (classifyProjectChanges hb st co head base nl))).
Proof.
  rewrite result_keys. apply list.NoDup_app. split; [|split].
  - apply bfilter_NoDup, sortedProjectKeys_NoDup.
  - intros k H1 H2. apply list_elem_of_In, filter_In in H1 as [_ H1], H2 as [_ H2].
    unfold head_row, base_row in *. by destruct (first_of head k).
  - apply bfilter_NoDup, sortedProjectKeys_NoDup.
Qed.

Lemma result_keys_elem hb st co head base nl k :
  In k (map pch_SemanticKey (fst (classifyProjectChanges hb st co head base nl))) ↔
  In k (map pch_SemanticKey head) ∨ In k (map pch_SemanticKey base).
Proof.
  assert (∀ l, In k (map pch_SemanticKey l) ↔ is_Some (first_of l k)) as Hl.
  { intros l. destruct (first_of l k) eqn:E.
    - split; [by eexists|]. intros _. apply first_of_Some in E as [? <-]. by apply in_map.
    - apply first_of_None in E. split; [done|]. by intros []. }
  rewrite result_keys, in_app_iff, !Hl, !filter_In, !sortedProjectKeys_elem, !index_lookup.
  unfold head_row, base_row.
  destruct (first_of head k), (first_of base k); naive_solver.
Qed.

Lemma classify_diagnostics hb st co head base nl :
  let '(result, diagnostics) := classifyProjectChanges hb st co head base nl in
  let duplicates := snd (indexProjectChangesByKey head) ++ snd (indexProjectChangesByKey base) in
  ∃ degraded, diagnostics = duplicates ++ degraded ∧ NoDup degraded
    ∧ ∀ d, In d degraded ↔ ∃ r, In r (rows hb st co head base nl) ∧ In d (snd r).
Proof.
  rewrite classify_shape. cbv zeta.
  destruct (appendDistinct_spec (flat_map snd (rows hb st co head base nl))
    (snd (indexProjectChangesByKey head) ++ snd (indexProjectChangesByKey base)) [])
    as (fresh & -> & Hnd & Hin).
  exists fresh. split; [done|]. split; [done|]. intros d.
  rewrite <- list_elem_of_In, Hin, list_elem_of_In, in_flat_map. set_solver.
Qed.

Lemma projectIdentity_encoded c : appendProjectIdentity "" c = encode_fields (project_identity c).
Proof. reflexivity. Qed.

(** Classification does not touch the identity fields. *)
Lemma classify_identity hb st co head base nl c :
  In c (fst (classifyProjectChanges hb st co head base nl)) →
  pch_Fingerprint c = computeProjectFingerprint c ∧ pch_ID c = computeProjectChangeID c.
Proof.
  intros H. apply in_result in H as (ds & H & _).
  destruct (first_of head _) as [h|].
  - unfold classify_head in H.
    destruct (indeterminate st), (negb hb), (first_of base (pch_SemanticKey c)), (headPath co h); by injection H as -> _.
  - destruct (first_of base _) as [b|]; [|done]. unfold classify_base in H.
    destruct (indeterminate st), (negb hb), (basePath co b); by injection H as -> _.
Qed.

Lemma firstMoved_Some change moved p :
  firstMovedPathTouchedBy change moved = Some p →
  p ∈ moved ∧ (In p (projectChangeLocationPaths change) ∨
    ∃ identity, In identity (projectChangeIdentityPaths change)
                ∧ (identity = p ∨ identity = Dir p)).
Proof.
  unfold firstMovedPathTouchedBy. case_bool_decide; [done|].
  destruct (List.find _ (projectChangeLocationPaths change)) as [q|] eqn:E.
  - intros [= ->]. apply find_some in E as [? ?%bool_decide_eq_true]. auto.
  - intros [Hin Hex]%find_some. unfold sortedPaths, sort_strings in Hin.
    apply stable_sort_In, list_elem_of_In, elem_of_elements in Hin. split; [done|]. right.
    apply existsb_exists in Hex as (i & Hi & Hor). exists i. split; [done|].
    apply orb_true_iff in Hor. by rewrite !String.eqb_eq in Hor.
Qed.

Lemma firstMoved_None change moved p :
  firstMovedPathTouchedBy change moved = None → p ∈ moved →
  ¬ In p (projectChangeLocationPaths change)
  ∧ ∀ identity, In identity (projectChangeIdentityPaths change) → identity ≠ p ∧ identity ≠ Dir p.
Proof.
  unfold firstMovedPathTouchedBy. case_bool_decide as Hs.
  { apply size_empty_iff in Hs. set_solver. }
  destruct (List.find _ (projectChangeLocationPaths change)) as [q|] eqn:E; [done|].
  intros H Hp. split.
  - intros Hin. pose proof (find_none _ _ E p Hin) as Hf. simpl in Hf.
    by rewrite bool_decide_true in Hf.
  - intros i Hi.
    assert (In p (sortedPaths moved)) as Hin.
    { unfold sortedPaths, sort_strings. apply stable_sort_In, list_elem_of_In. set_solver. }
    pose proof (find_none _ _ H p Hin) as Hf. cbv beta in Hf.
    apply not_true_iff_false in Hf. rewrite existsb_exists in Hf.
    split; intros E'; apply Hf; exists i; (split; [done|]); apply orb_true_iff; rewrite !String.eqb_eq;
      auto.
Qed.

(** A comparison is determinate exactly when both sides are completely covered. *)
Lemma determinate_iff input :
  indeterminate (fst (projectLifecycleState input)) = false ↔
  completeProjectCoverage (in_ProjectCoverage input) = true
  ∧ (if in_ProjectBaseAnalyzed input
     then completeProjectCoverage (in_BaseProjectCoverage input) = true
     else in_BaseProjectChanges input = []).
Proof.
  unfold projectLifecycleState, indeterminate. cbn.
  rewrite !orb_false_iff, negb_false_iff.
  destruct (in_ProjectBaseAnalyzed input); cbn.
  - rewrite negb_false_iff. tauto.
  - unfold zlen. rewrite Z.ltb_ge. destruct (in_BaseProjectChanges input); simpl; naive_solver lia.
Qed.

(** ** Properties *)

(** Classification keeps one change per semantic key of either side, no
    more and no less; each is the first observation of its key on the head, or on
    the base when the head has none, with nothing but identity, lifecycle, the
    changed mark and evidence altered. *)
Theorem project_classification_complete hasBase state continuity head base nl :
  let result := fst (classifyProjectChanges hasBase state continuity head base nl) in
  NoDup (map pch_SemanticKey result)
  ∧ (∀ k, In k (map pch_SemanticKey result) ↔
          In k (map pch_SemanticKey head) ∨ In k (map pch_SemanticKey base))
  ∧ (∀ c, In c result →
       Some (erase_change c)
       = option_map erase_change
           (match first_of head (pch_SemanticKey c) with
            | Some h => Some h | None => first_of base (pch_SemanticKey c) end)).
Proof.
  cbv zeta. split; [apply result_keys_NoDup|]. split; [apply result_keys_elem|].
  intros c H. apply in_result in H as (ds & H & _).
  destruct (first_of head _) as [h|]; cbn [option_map]; f_equal.
  - change c with (fst (c, ds)). rewrite H. apply classify_head_erase.
  - destruct (first_of base _) as [b|]; [|done]. cbn [option_map]. f_equal.
    change c with (fst (c, ds)). rewrite H. apply classify_base_erase.
Qed.

(** Between two complete sides a change on both is existing, and changed
    exactly when its causal digest (its anchor when neither side has a digest)
    differs; a change only on the head is introduced and a change only on the base
    resolved, except that a change touching a rename or copy whose continuity is
    undetermined is unknown. *)
Theorem project_lifecycle_determinate state continuity head base nl c :
  indeterminate state = false →
  In c (fst (classifyProjectChanges true state continuity head base nl)) →
  (pch_Lifecycle c, pch_Changed c) =
  match first_of head (pch_SemanticKey c), first_of base (pch_SemanticKey c) with
  | Some h, Some b => ("existing", projectChangeChanged h b)
  | Some h, None => match headPath continuity h with
                    | None => ("introduced", true) | Some _ => ("unknown", false) end
  | None, Some b => match basePath continuity b with
                    | None => ("resolved", false) | Some _ => ("unknown", false) end
  | None, None => ("", false)
  end.
Proof.
  intros Hst H. apply in_result in H as (ds & H & _).
  destruct (first_of head _) as [h|].
  - unfold classify_head in H. rewrite Hst in H. cbn [negb] in H.
    destruct (first_of base (pch_SemanticKey c)), (headPath continuity h); by injection H as -> _.
  - destruct (first_of base _) as [b|]; [|done]. unfold classify_base in H.
    rewrite Hst in H. cbn [negb orb] in H. destruct (basePath continuity b); by injection H as -> _.
Qed.

(** While either side is incomplete or inconsistent no lifecycle is
    claimed: every change is unknown and unchanged, says so in its evidence, and has
    a diagnostic at its anchor for each responsible side. *)
Theorem project_lifecycle_indeterminate hasBase state continuity head base nl :
  indeterminate state = true →
  let '(result, diagnostics) := classifyProjectChanges hasBase state continuity head base nl in
  Forall (λ c, pch_Lifecycle c = "unknown" ∧ pch_Changed c = false
    ∧ (∃ evidence, pch_Evidence c = evidence +:+ indeterminateLifecycleEvidenceNote)
    ∧ degradedProjectChangeDiagnostics (pl_Path (pch_PrimaryAnchor c)) state ≠ []
    ∧ ∀ d, In d (degradedProjectChangeDiagnostics (pl_Path (pch_PrimaryAnchor c)) state) →
           In d diagnostics) result.
Proof.
  intros Hst. pose proof (in_result hasBase state continuity head base nl) as Hres.
  pose proof (classify_diagnostics hasBase state continuity head base nl) as Hd.
  destruct (classifyProjectChanges _ _ _ _ _ _) as [result diagnostics]. cbn [fst] in Hres.
  destruct Hd as (fresh & -> & _ & Hfresh). apply List.Forall_forall. intros c Hc.
  apply Hres in Hc as (ds & Hrow & Hin). clear Hres.
  assert (∃ x, c = identify_change (with_classification "unknown" false
      (pch_Evidence x +:+ indeterminateLifecycleEvidenceNote) x)
    ∧ ds = degradedProjectChangeDiagnostics (pl_Path (pch_PrimaryAnchor x)) state) as (x & Hc & ->).
  { destruct (first_of head _) as [h|].
    - unfold classify_head in Hrow. rewrite Hst in Hrow. injection Hrow as Hc Hds. by exists h.
    - destruct (first_of base _) as [b|]; [|done]. unfold classify_base in Hrow.
      rewrite Hst in Hrow. cbn [orb] in Hrow. injection Hrow as Hc Hds. by exists b. }
  assert (pch_PrimaryAnchor c = pch_PrimaryAnchor x) as Ha by (by rewrite Hc).
  rewrite Ha. split; [by rewrite Hc|]. split; [by rewrite Hc|].
  split; [exists (pch_Evidence x); by rewrite Hc|]. split.
  - unfold degradedProjectChangeDiagnostics, indeterminate in *.
    by destruct (ind_headIncomplete state), (ind_baseIncomplete state), (ind_inconsistentBase state).
  - intros d Hd. apply in_app_iff. right. apply Hfresh. eauto.
Qed.

(** A change's fingerprint and ID are functions of its six identity fields:
    moving its anchor or rewording its evidence keeps them, and two changes share a
    fingerprint only when the six fields agree or SHA-256 collides. *)
Theorem project_identity_exact c c' :
  forallb fits_uint32 (project_identity c) = true →
  forallb fits_uint32 (project_identity c') = true →
  let collision := appendProjectIdentity "" c ≠ appendProjectIdentity "" c'
                   ∧ Sum256 (appendProjectIdentity "" c) = Sum256 (appendProjectIdentity "" c') in
  (computeProjectFingerprint c = computeProjectFingerprint c' ↔
   project_identity c = project_identity c' ∨ collision)
  ∧ (computeProjectChangeID c = computeProjectChangeID c' ↔
     project_identity c = project_identity c' ∨ collision).
Proof.
  intros Hc Hc'. cbv zeta.
  assert (Sum256 (appendProjectIdentity "" c) = Sum256 (appendProjectIdentity "" c') ↔
    project_identity c = project_identity c' ∨
    (appendProjectIdentity "" c ≠ appendProjectIdentity "" c'
     ∧ Sum256 (appendProjectIdentity "" c) = Sum256 (appendProjectIdentity "" c'))) as H.
  { split.
    - intros Hs. destruct (decide (appendProjectIdentity "" c = appendProjectIdentity "" c'))
        as [E|E]; [left|by right]. by apply encode_fields_inj_any.
    - intros [E|[_ H]]; [|done]. unfold appendProjectIdentity. by rewrite E. }
  split; rewrite <- H; unfold computeProjectFingerprint, computeProjectChangeID;
    (split; [intros E; apply append_inj_l, hex_sum_inj in E; done
            |intros E; f_equal; by apply hex_sum_inj]).
Qed.

(** The continuity check answers exactly whether a change touches a moved
    path: through one of its locations, or through an importer or importee that is
    the path or its directory; and the path it names is one of those. *)
Theorem continuity_touch_exact change moved :
  let touches p := In p (projectChangeLocationPaths change) ∨
    ∃ identity, In identity (projectChangeIdentityPaths change) ∧ (identity = p ∨ identity = Dir p) in
  (firstMovedPathTouchedBy change moved = None ↔ ∀ p, p ∈ moved → ¬ touches p)
  ∧ (∀ p, firstMovedPathTouchedBy change moved = Some p → p ∈ moved ∧ touches p).
Proof.
  cbv zeta. split; [|apply firstMoved_Some]. split.
  - intros H p Hp. destruct (firstMoved_None _ _ _ H Hp) as [H1 H2].
    intros [?|(i & Hi & Hor)]; [done|]. specialize (H2 i Hi). tauto.
  - intros H. destruct (firstMovedPathTouchedBy change moved) as [p|] eqn:E; [|done].
    apply firstMoved_Some in E as [Hp Ht]. by destruct (H p Hp).
Qed.

(** A comparison is determinate exactly when the head is completely covered
    and the base is completely covered or not expected.  An indeterminate one always
    says why: the diagnostic names at least one reason, the causes of the base side
    exclude each other, and a base change never meets a missing base while the
    comparison counts as determinate. *)
Theorem lifecycle_state_exact input :
  let '(state, diagnostics) := projectLifecycleState input in
  (indeterminate state = false ↔
   completeProjectCoverage (in_ProjectCoverage input) = true
   ∧ (if in_ProjectBaseAnalyzed input
      then completeProjectCoverage (in_BaseProjectCoverage input) = true
      else in_BaseProjectChanges input = []))
  ∧ (indeterminate state = true →
     lifecycle_reasons input ≠ []
     ∧ In (file_diagnostic "" DiagKindProjectLifecycleIndeterminate
             ("project lifecycle is indeterminate: " +:+ Join (lifecycle_reasons input) "; ")) diagnostics)
  ∧ (indeterminate state = false → diagnostics = [])
  ∧ ind_baseIncomplete state && ind_inconsistentBase state = false
  ∧ (in_ProjectBaseAnalyzed input = false → in_BaseProjectChanges input ≠ [] →
     indeterminate state = true).
Proof.
  pose proof (determinate_iff input) as Hdet.
  destruct (projectLifecycleState input) as [state diagnostics] eqn:E. cbn [fst] in Hdet.
  assert (indeterminate state = true → lifecycle_reasons input ≠ []) as Hreason.
  { intros Hi Hr. apply not_false_iff_true in Hi. apply Hi, Hdet. clear - Hr.
    unfold lifecycle_reasons in Hr. apply app_nil in Hr as [Hh Hb].
    unfold completeProjectCoverage in *.
    destruct (in_ProjectCoverage input) as [c|]; [|done]. destruct (pc_Complete c); [|done].
    split; [done|]. destruct (in_ProjectBaseAnalyzed input); cbn in Hb.
    - destruct (in_BaseProjectCoverage input) as [b|]; [|done]. by destruct (pc_Complete b).
    - unfold zlen in Hb. by destruct (in_BaseProjectChanges input). }
  injection E as <- <-. split; [exact Hdet|]. split; [|split; [|split]].
  - intros Hi. split; [by apply Hreason|]. rewrite Hi. apply in_app_iff. right. left.
    unfold projectLifecycleDiagnosticMessage. specialize (Hreason Hi).
    by destruct (lifecycle_reasons input).
  - intros Hi. rewrite Hi, app_nil_r. apply Hdet in Hi as [Hi _].
    unfold completeProjectCoverage in Hi. destruct (in_ProjectCoverage input); [|done]. by rewrite Hi.
  - cbn -[completeProjectCoverage]. destruct (in_ProjectBaseAnalyzed input); cbn -[completeProjectCoverage];
      [by rewrite andb_false_r|done].
  - intros Hb Hne. apply not_false_iff_true. rewrite Hdet, Hb. tauto.
Qed.

(** ** Witnesses *)

Definition example_state : projectLifecycleIndeterminacy := mkIndeterminacy false false false "h" "b".

Definition example_head : list ProjectChange :=
  [example_change "both" "r"; example_change "new" "r"; example_change "new" "r2"].
Definition example_base : list ProjectChange := [example_change "both" "r"; example_change "gone" "r"].

Definition example_classified : list ProjectChange :=
  fst (classifyProjectChanges true example_state (newUndeterminedContinuity []) example_head
         example_base "unknown").

Example example_lifecycles :
  map (λ c, (pch_SemanticKey c, pch_Lifecycle c, pch_Changed c)) example_classified
  = [("both", "existing", false); ("new", "introduced", true); ("gone", "resolved", false)].
Proof. vm_compute. reflexivity. Qed.

Definition example_gone : ProjectChange := List.nth 2 example_classified (example_change "" "").

Lemma project_classification_complete_witness :
  Some (erase_change example_gone) = Some (erase_change (example_change "gone" "r")).
Proof.
  change (Some (erase_change (example_change "gone" "r"))) with
    (option_map erase_change
       (match first_of example_head "gone" with
        | Some h => Some h | None => first_of example_base "gone" end)).
  replace "gone" with (pch_SemanticKey example_gone) by (vm_compute; reflexivity).
  apply (project_classification_complete true example_state (newUndeterminedContinuity []) example_head
    example_base "unknown").
  apply nth_In. vm_compute. lia.
Defined.

Lemma project_lifecycle_determinate_witness :
  (pch_Lifecycle example_gone, pch_Changed example_gone) = ("resolved", false).
Proof.
  rewrite (project_lifecycle_determinate example_state (newUndeterminedContinuity []) example_head
    example_base "unknown" example_gone).
  - vm_compute. reflexivity.
  - reflexivity.
  - apply nth_In. vm_compute. lia.
Defined.

Lemma project_lifecycle_indeterminate_witness :
  Forall (λ c, pch_Lifecycle c = "unknown")
    (fst (classifyProjectChanges true (mkIndeterminacy true false false "h" "b")
       (newUndeterminedContinuity []) example_head example_base "unknown")).
Proof.
  pose proof (project_lifecycle_indeterminate true (mkIndeterminacy true false false "h" "b")
    (newUndeterminedContinuity []) example_head example_base "unknown" eq_refl) as H.
  destruct (classifyProjectChanges _ _ _ _ _ _) as [result diagnostics].
  eapply List.Forall_impl; [|exact H]. intros c Hc. apply Hc.
Defined.

Lemma project_identity_exact_witness :
  computeProjectFingerprint example_gone = computeProjectFingerprint (example_change "gone" "r").
Proof.
  apply (project_identity_exact example_gone (example_change "gone" "r")).
  - vm_compute. reflexivity.
  - vm_compute. reflexivity.
  - left. vm_compute. reflexivity.
Defined.

Lemma continuity_touch_exact_witness :
  "a.go" ∈ ({["a.go"]} : gset string).
Proof.
  apply (proj2 (continuity_touch_exact (example_change "k" "r") {["a.go"]}) "a.go").
  vm_compute. reflexivity.
Defined.
