(* ===== verification/ProjectReport.v ===== *)
(** * Building a report

    The project surface of a report, its provenance, scope, coverage and
    next-action blocks, and [Builder.Build] itself ([project_report_surface.go],
    [project_coverage_*.go], [project_model_coverage_diagnostics.go],
    [project_facts_reachability.go], [project_scope_report.go],
    [layer_membership_report.go], [project_complete_no_match.go],
    [report_assembly.go], [codesignal.go]). *)

From S2P Require Import Prelude GoOrder GoText Semantics Domain Signals Rules FileSignals.
From S2P Require Import SignalOrder Report LayerRules ProjectOrder ProjectLifecycle.

(** ** Coverage phases *)

(** go: pkg/codesignal/project_coverage_mapping.go#hasDiagCode *)
Definition hasDiagCode (cov : ProjCoverage) (code : string) : bool :=
  existsb (λ d, dd_Code d == code) (pc_Diagnostics cov).

(** go: pkg/codesignal/project_coverage_mapping.go#mapCoveragePhase *)
Definition mapCoveragePhase (cov : option ProjCoverage) (scopeNil : bool) : string :=
  match cov with
  | None => "not_run"
  | Some cov =>
      if pc_Phase cov == "not_requested" then "not_requested"
      else if scopeNil && hasDiagCode cov DiagBackendUnavailable then "not_run"
      else if pc_Complete cov then "complete"
      else "incomplete"
  end.

Definition is_nil {A} (o : option A) : bool := match o with None => true | Some _ => false end.

(** go: pkg/codesignal/project_coverage_mapping.go#buildProjectProvenance *)
Definition buildProjectProvenance (input : Input) (opts : Options) : option ProjectProvenance :=
  if negb (opt_ProjectEnabled opts) || (in_Language input != "typescript") then None else
  let headScopeNil := is_nil (in_HeadProjectScope input) in
  let headCov :=
    mkProvenanceCoverage (mapCoveragePhase (in_HeadModelCoverage input) headScopeNil)
      (mapCoveragePhase (in_HeadBypassCoverage input) headScopeNil)
      (mapCoveragePhase (in_HeadReachabilityCoverage input) headScopeNil) in
  let analyzerProtocolVersion :=
    if (in_AnalyzerProtocolVersion input =? 0)%Z then 1%Z else in_AnalyzerProtocolVersion input in
  let packageManager :=
    if in_PackageManagerKind input != ""
    then Some (mkProvenancePackageManager (in_PackageManagerKind input)
                 (in_PackageManagerVersion input) (in_PackageManagerOrigin input))
    else None in
  Some {| pp_Language := "typescript";
          pp_ConfigDigest := in_ConfigDigest input;
          pp_SelectedRoots := in_SelectedRoots input;
          pp_Analyzer := mkProvenanceAnalyzer (in_AnalyzerVersion input) (in_AnalyzerDigest input)
                           analyzerProtocolVersion;
          pp_Runtime := mkProvenanceRuntime (in_RuntimeKind input) (in_RuntimeVersion input)
                          (in_RuntimeOrigin input) (in_CompilerVersion input)
                          (in_CompilerOrigin input) "";
          pp_PackageManager := packageManager;
          pp_Head := mkProvenanceRevision (scope_Revision (in_Scope input)) headCov;
          pp_Base :=
            if in_ProjectBaseAnalyzed input then
              let baseScopeNil := is_nil (in_BaseProjectScope input) in
              Some (mkProvenanceRevision (scope_Base (in_Scope input))
                (mkProvenanceCoverage (mapCoveragePhase (in_BaseModelCoverage input) baseScopeNil)
                   (mapCoveragePhase (in_BaseBypassCoverage input) baseScopeNil)
                   (mapCoveragePhase (in_BaseReachabilityCoverage input) baseScopeNil)))
            else None |}.

(** go: pkg/codesignal/project_coverage_complete.go#requiredSideComplete *)
Definition requiredSideComplete (model bypass : string) : bool :=
  (model == "complete") && ((bypass == "complete") || (bypass == "not_requested")).

(** go: pkg/codesignal/project_coverage_complete.go#isRequiredCoverageComplete *)
Definition isRequiredCoverageComplete (headModel headBypass baseModel baseBypass : string)
    (projectBaseAnalyzed : bool) : bool :=
  if negb (requiredSideComplete headModel headBypass) then false
  else if negb projectBaseAnalyzed then true
  else requiredSideComplete baseModel baseBypass.

(** The base side's model and bypass phases, empty when there is no base. *)
Definition base_phases (prov : ProjectProvenance) : string * string :=
  match pp_Base prov with
  | Some b => (pcov_Model (prev_Coverage b), pcov_Bypass (prev_Coverage b))
  | None => ("", "")
  end.

(** go: pkg/codesignal/project_coverage_complete.go#requiredProvenanceComplete *)
Definition requiredProvenanceComplete (prov : ProjectProvenance) : bool :=
  let '(baseModel, baseBypass) := base_phases prov in
  isRequiredCoverageComplete (pcov_Model (prev_Coverage (pp_Head prov)))
    (pcov_Bypass (prev_Coverage (pp_Head prov))) baseModel baseBypass (negb (is_nil (pp_Base prov))).

(** go: pkg/codesignal/project_coverage_complete.go#hasProjectBackendUnavailable *)
Definition hasProjectBackendUnavailable (diags : list Diagnostic) : bool :=
  existsb (λ d, dg_Kind d == "project_backend_unavailable") diags.

(** go: pkg/codesignal/project_coverage_complete.go#HasProjectCoverageDiagnostic *)
Definition HasProjectCoverageDiagnostic (diags : list Diagnostic) : bool :=
  existsb (λ d, (dg_Kind d == DiagKindProjectCoverageIncomplete)
                || (dg_Kind d == DiagKindProjectLifecycleIndeterminate)) diags.

(** go: pkg/codesignal/project_coverage_complete.go#provenanceFreeCoverageIncomplete *)
Definition provenanceFreeCoverageIncomplete (report : Report) : bool :=
  match rep_ProjectCoverage report with
  | Some c => if negb (pc_Complete c) then true
              else HasProjectCoverageDiagnostic (rep_Diagnostics report)
  | None => HasProjectCoverageDiagnostic (rep_Diagnostics report)
  end.

(** go: pkg/codesignal/project_coverage_complete.go#RequiredCoverageIncomplete *)
Definition RequiredCoverageIncomplete (report : option Report) : bool :=
  match report with
  | None => false
  | Some report =>
      match rep_ProjectProvenance report with
      | Some prov => negb (requiredProvenanceComplete prov)
      | None => hasProjectBackendUnavailable (rep_Diagnostics report)
                || provenanceFreeCoverageIncomplete report
      end
  end.

(** go: pkg/codesignal/project_coverage_clone.go#diagnosticLess *)
Definition diagnosticLess (a b : DomainDiagnostic) : bool :=
  if dd_Code a != dd_Code b then str_less (dd_Code a) (dd_Code b)
  else if dd_Path a != dd_Path b then str_less (dd_Path a) (dd_Path b)
  else str_less (dd_Message a) (dd_Message b).

(** go: pkg/codesignal/project_coverage_clone.go#cloneProjectCoverage *)
Definition cloneProjectCoverage (c : option ProjCoverage) : option ProjCoverage :=
  option_map (λ c, mkProjCoverage (pc_Phase c) (pc_Complete c) (pc_Counts c) (pc_Budgets c)
                     (stable_sort diagnosticLess (pc_Diagnostics c))) c.

(** go: pkg/codesignal/project_model_coverage_diagnostics.go#sideModelCoverageDiagnostics *)
Definition sideModelCoverageDiagnostics (coverage : option ProjCoverage) (side revision : string) :
    list Diagnostic :=
  match coverage with
  | None => []
  | Some coverage =>
      flat_map (λ d,
        if dd_Code d != DiagRootScopeIncomplete then [] else
        let kind := if side == "base" then "base_" +:+ dd_Code d else dd_Code d in
        [mkDiagnostic (dd_Path d) kind
           (sideRevisionLabel side revision +:+ " project model coverage: " +:+ dd_Message d)
           None side revision]) (pc_Diagnostics coverage)
  end.

(** go: pkg/codesignal/project_model_coverage_diagnostics.go#modelCoverageDiagnostics *)
Definition modelCoverageDiagnostics (input : Input) : list Diagnostic :=
  sideModelCoverageDiagnostics (in_HeadModelCoverage input) "head" (scope_Revision (in_Scope input))
  ++ (if in_ProjectBaseAnalyzed input
      then sideModelCoverageDiagnostics (in_BaseModelCoverage input) "base" (scope_Base (in_Scope input))
      else []).

(** ** Reachability facts *)

(** go: pkg/codesignal/project_facts_reachability.go#reachabilityFactSemanticKey *)
Definition reachabilityFactSemanticKey (fact : ReachabilityFact) : string :=
  rf_Kind fact +:+ ":" +:+ rf_Source fact +:+ "->" +:+ rf_Sink fact.

(** go: pkg/codesignal/project_facts_reachability.go#reachabilityStepConfidence *)
Definition reachabilityStepConfidence (c : string) : string :=
  if c == ReachabilityConfidenceResolvedDirect then "high" else c.

(** go: pkg/codesignal/project_facts_reachability.go#reachabilityFactPathSteps *)
Definition reachabilityFactPathSteps (fact : ReachabilityFact) : list ProjectPathStep :=
  let confidence := reachabilityStepConfidence (rf_Confidence fact) in
  map (λ node, mkProjectPathStep node "" "" confidence []) (rf_Path fact).

(** go: pkg/codesignal/project_facts_reachability.go#reachabilityFactEvidence *)
Definition reachabilityFactEvidence (fact : ReachabilityFact) : string :=
  rf_Source fact +:+ " has a possible call path to " +:+ rf_Sink fact.

(** go: pkg/codesignal/project_facts_reachability.go#ReachabilityProjectFacts *)
Definition ReachabilityProjectFacts (result : ReachabilityResult) (language : string) :
    list ProjectFact :=
  map (λ fact, mkProjectFact (rf_Kind fact) (reachabilityFactSemanticKey fact)
                 (reachabilityFactPathSteps fact) [] (reachabilityFactEvidence fact)
                 (mkProvenance "projectmodel" (rf_Kind fact) language)) (rr_Facts result).

(** ** Scope and layer blocks *)

Definition scope_revision (revision : string) (s : ProjectScope) : ProjectScopeRevisionReport :=
  mkProjectScopeRevisionReport revision (psc_Roots s) (psc_MatchedLayers s) (psc_UnmatchedLayers s).

(** go: pkg/codesignal/project_scope_report.go#buildProjectScope *)
Definition buildProjectScope (input : Input) : option ProjectScopeReport :=
  if in_Language input != "typescript" then None else
  match in_HeadProjectScope input with
  | None => None
  | Some head =>
      Some (mkProjectScopeReport (psc_InclusionRule head) (psc_PatternSet head)
        (scope_revision (scope_Revision (in_Scope input)) head)
        (if in_ProjectBaseAnalyzed input
         then option_map (scope_revision (scope_Base (in_Scope input))) (in_BaseProjectScope input)
         else None))
  end.

(** go: pkg/codesignal/layer_membership_report.go#layerMembershipRevision *)
Definition layerMembershipRevision (revision : string) (membership : LayerMembership) :
    LayerMembershipRevisionReport :=
  mkLayerMembershipRevisionReport revision (lm_AnalyzedFiles membership)
    (lm_FilesOutsideLayers membership).

(** go: pkg/codesignal/layer_membership_report.go#buildLayerMembership *)
Definition buildLayerMembership (input : Input) : option LayerMembershipReport :=
  match in_HeadLayerMembership input with
  | None => None
  | Some head =>
      Some (mkLayerMembershipReport
        (layerMembershipRevision (scope_Revision (in_Scope input)) head)
        (if in_ProjectBaseAnalyzed input
         then option_map (layerMembershipRevision (scope_Base (in_Scope input)))
                (in_BaseLayerMembership input)
         else None)
        (in_LayerForbiddenImportsDeclared input) (in_Language input == "go"))
  end.

(** ** Project surface *)

(** go: pkg/codesignal/project_report_surface.go#signalFromProjectChange *)
Definition signalFromProjectChange (change : ProjectChange) : Signal :=
  {| sig_ID := pch_ID change; sig_Fingerprint := pch_Fingerprint change;
     sig_RuleID := pch_RuleID change; sig_RuleVersion := pch_RuleVersion change;
     sig_Kind := pch_Kind change; sig_Category := pch_Category change;
     sig_Severity := pch_Severity change; sig_Confidence := pch_Confidence change;
     sig_Lifecycle := pch_Lifecycle change; sig_Changed := pch_Changed change;
     sig_Path := pl_Path (pch_PrimaryAnchor change); sig_SourceScope := "";
     sig_Subject := pch_SemanticKey change;
     sig_Location := pl_Location (pch_PrimaryAnchor change);
     sig_Evidence := pch_Evidence change; sig_WhyItMatters := pch_WhyItMatters change;
     sig_Recommendation := pch_Recommendation change; sig_SuggestedSkill := pch_SuggestedSkill change;
     sig_Provenance := pch_Provenance change;
     sig_MachineEvidence := pch_MachineEvidence change;
     sig_RelatedLocations := pch_RelatedLocations change;
     sig_PathSteps := pch_PathSteps change; sig_CoverageRefs := pch_CoverageRefs change |}.

Definition anchorless_diagnostic (change : ProjectChange) : Diagnostic :=
  file_diagnostic "" "project_observation_missing_primary_path"
    ("project observation semantic_key " +:+ dq +:+ pch_SemanticKey change +:+ dq
     +:+ " omitted from active project findings: primary_anchor.path is empty").

(** go: pkg/codesignal/project_report_surface.go#filterAnchorlessProjectChanges *)
Definition filterAnchorlessProjectChanges (changes : list ProjectChange) :
    list ProjectChange * list Diagnostic :=
  (List.filter (λ c, pl_Path (pch_PrimaryAnchor c) != "") changes,
   map anchorless_diagnostic (List.filter (λ c, pl_Path (pch_PrimaryAnchor c) == "") changes)).

(** go: pkg/codesignal/project_report_surface.go#withoutResolvedProjectChanges *)
Definition withoutResolvedProjectChanges (changes : list ProjectChange) : list ProjectChange :=
  List.filter (λ c, pch_Lifecycle c != "resolved") changes.

(** The switch on one change's lifecycle. *)
Definition count_change (s : ProjectSummary) (c : ProjectChange) : ProjectSummary :=
  let 'mkProjectSummary act int exi rsv bas := s in
  let l := pch_Lifecycle c in
  if l == "introduced" then mkProjectSummary act (int + 1) exi rsv bas
  else if l == "existing" then mkProjectSummary act int (exi + 1) rsv bas
  else if l == "resolved" then mkProjectSummary act int exi (rsv + 1) bas
  else if l == "baseline" then mkProjectSummary act int exi rsv (bas + 1)
  else s.

Definition with_active_changes (n : Z) (s : ProjectSummary) : ProjectSummary :=
  let 'mkProjectSummary _ int exi rsv bas := s in mkProjectSummary n int exi rsv bas.

Record project_surface := mkProjectSurface {
  surf_Changes : list ProjectChange; surf_Facts : list ProjectFact;
  surf_Summary : ProjectSummary; surf_Coverage : option ProjCoverage;
  surf_Signals : list Signal; surf_Diagnostics : list Diagnostic
}.

(** go: pkg/codesignal/project_report_surface.go#buildProjectReportSurface *)
Definition buildProjectReportSurface (input : Input) (noBaseLifecycle : string)
    (includeResolved : bool) : project_surface :=
  let '(lifecycleState, diagnostics) := projectLifecycleState input in
  let diagnostics := diagnostics ++ modelCoverageDiagnostics input in
  let '(projectChanges, classifyDiags) :=
    classifyProjectChanges (in_ProjectBaseAnalyzed input) lifecycleState
      (newUndeterminedContinuity (in_UndeterminedContinuity input))
      (in_ProjectChanges input) (in_BaseProjectChanges input) noBaseLifecycle in
  let diagnostics := diagnostics ++ classifyDiags in
  let '(projectChanges, missingPathDiags) := filterAnchorlessProjectChanges projectChanges in
  let diagnostics := diagnostics ++ missingPathDiags in
  let summaryCounts := fold_left count_change projectChanges (mkProjectSummary 0 0 0 0 0) in
  let projectSignals :=
    map (λ c, signalFromProjectChange (withCanonicalProjectChangeArrays c)) projectChanges in
  let projectChanges :=
    if negb includeResolved then withoutResolvedProjectChanges projectChanges else projectChanges in
  let projectChanges := sortProjectChanges projectChanges in
  {| surf_Changes := projectChanges;
     surf_Facts := sortProjectFacts (in_ProjectFacts input);
     surf_Summary := with_active_changes (zlen projectChanges) summaryCounts;
     surf_Coverage := cloneProjectCoverage (in_ProjectCoverage input);
     surf_Signals := projectSignals;
     surf_Diagnostics := diagnostics |}.

(** ** Complete no-match *)

(** go: pkg/codesignal/project_complete_no_match.go#hasActiveLayerFinding *)
Definition hasActiveLayerFinding (changes : list ProjectChange) : bool :=
  existsb (λ c, (pch_RuleID c == ruleLayerViolationID) || (pch_RuleID c == ruleLayerBypassID)) changes.

(** go: pkg/codesignal/project_complete_no_match.go#hasUnknownProjectChange *)
Definition hasUnknownProjectChange (changes : list ProjectChange) : bool :=
  existsb (λ c, pch_Lifecycle c == "unknown") changes.

(** go: pkg/codesignal/project_complete_no_match.go#hasPreFilterProjectChanges *)
Definition hasPreFilterProjectChanges (summary : option ProjectSummary) : bool :=
  match summary with
  | None => false
  | Some s => (0 <? psum_IntroducedChanges s)%Z || (0 <? psum_ExistingChanges s)%Z
              || (0 <? psum_ResolvedChanges s)%Z
  end.

(** go: pkg/codesignal/project_complete_no_match.go#isCompleteNoMatch *)
Definition isCompleteNoMatch (opts : Options) (prov : option ProjectProvenance) (input : Input)
    (projectSummary : option ProjectSummary) (projectChanges : list ProjectChange) : bool :=
  match prov with
  | None => false
  | Some prov =>
      let '(baseModel, baseBypass) := base_phases prov in
      if negb (isRequiredCoverageComplete (pcov_Model (prev_Coverage (pp_Head prov)))
                 (pcov_Bypass (prev_Coverage (pp_Head prov))) baseModel baseBypass
                 (in_ProjectBaseAnalyzed input)) then false
      else if hasActiveLayerFinding projectChanges || hasUnknownProjectChange projectChanges then false
      else if negb (opt_Baseline opts) && hasPreFilterProjectChanges projectSummary then false
      else true
  end.

(** go: pkg/codesignal/project_complete_no_match.go#buildNextActions *)
Definition buildNextActions (opts : Options) (completeNoMatch : bool) (diagnostics : list Diagnostic) :
    list ProjectNextAction :=
  if negb completeNoMatch then [] else
  (if opt_Baseline opts then ["record_baseline"] else [])
  ++ ["review_policy_coverage"]
  ++ (if (0 <? zlen diagnostics)%Z then ["inspect_diagnostics"] else []).

(** ** Assembly *)

Definition with_baseline (b : bool) (s : Scope) : Scope :=
  mkScope (scope_Repository s) (scope_Revision s) (scope_Base s) (scope_AppliedScope s) b.

(** go: pkg/codesignal/report_assembly.go#assembleReport *)
Definition assembleReport (options : Options) (input : Input) (signals : list Signal)
    (diagnostics : list Diagnostic) (summary : Summary) (projectChanges : list ProjectChange)
    (projectFacts : list ProjectFact) (projectSummary : option ProjectSummary)
    (projectCoverage : option ProjCoverage) : Report :=
  let scope := with_baseline (opt_Baseline options) (in_Scope input) in
  if opt_ProjectEnabled options then
    let prov := buildProjectProvenance input options in
    let cnm := isCompleteNoMatch options prov input projectSummary projectChanges in
    {| rep_SchemaVersion := "2"; rep_Scope := scope; rep_Summary := summary;
       rep_Signals := signals; rep_Diagnostics := diagnostics; rep_Coverage := in_Coverage input;
       rep_SignalsWithheld := None;
       rep_ProjectChanges := projectChanges; rep_ProjectFacts := projectFacts;
       rep_ProjectSummary := projectSummary; rep_ProjectCoverage := projectCoverage;
       rep_ProjectProvenance := prov; rep_ProjectScope := buildProjectScope input;
       rep_ProjectNextActions := buildNextActions options cnm diagnostics;
       rep_LayerMembership := buildLayerMembership input |}
  else
    mkReport "1" scope summary signals diagnostics (in_Coverage input) None [] [] None None None None
      [] None.

(** [Build] past its context check.  The project variables keep their zero values
    unless [ProjectEnabled] is set. *)
Definition build_report (options : Options) (input : Input) : Report :=
  let noBaseLifecycle := lifecycleWithoutBase (opt_Baseline options) in
  let '(fileDiagnostics, signals) :=
    processFileChanges (in_Files input) (in_Diagnostics input) noBaseLifecycle in
  let '(projectChanges, projectFacts, projectSummary, projectCoverage, projectSignals, projectDiags) :=
    if opt_ProjectEnabled options
    then let s := buildProjectReportSurface input noBaseLifecycle (opt_IncludeResolved options) in
         (surf_Changes s, surf_Facts s, Some (surf_Summary s), surf_Coverage s, surf_Signals s,
          surf_Diagnostics s)
    else ([], [], None, None, [], []) in
  let diagnostics := sortDiagnostics (fileDiagnostics ++ projectDiags) in
  let '(signals, summary) :=
    finalizeSignals (signals ++ projectSignals) (zlen (in_Files input)) (in_Files input)
      fileDiagnostics (opt_IncludeResolved options) in
  assembleReport options input signals diagnostics summary projectChanges projectFacts
    projectSummary projectCoverage.

(** [ctxErr] is what [ctx.Err()] returns.
    go: pkg/codesignal/codesignal.go#Build *)
Definition Build {E} (ctxErr : option E) (options : Options) (input : Input) : E + Report :=
  match ctxErr with
  | Some err => inl err
  | None => inr (build_report options input)
  end.

(** ** Lemmas *)

(** The unfiltered project changes of a report. *)
Definition classified_changes (options : Options) (input : Input) : list ProjectChange :=
  fst (filterAnchorlessProjectChanges (fst
    (classifyProjectChanges (in_ProjectBaseAnalyzed input) (fst (projectLifecycleState input))
      (newUndeterminedContinuity (in_UndeterminedContinuity input))
      (in_ProjectChanges input) (in_BaseProjectChanges input)
      (lifecycleWithoutBase (opt_Baseline options))))).

(** What a report keeps of its changes. *)
Definition reported_changes (options : Options) (changes : list ProjectChange) : list ProjectChange :=
  if opt_IncludeResolved options then changes
  else List.filter (λ c, pch_Lifecycle c != "resolved") changes.

Lemma surface_eq options input :
  let surface := buildProjectReportSurface input (lifecycleWithoutBase (opt_Baseline options))
                   (opt_IncludeResolved options) in
  surf_Changes surface = sortProjectChanges (reported_changes options (classified_changes options input))
  ∧ surf_Summary surface
    = with_active_changes (zlen (surf_Changes surface))
        (fold_left count_change (classified_changes options input) (mkProjectSummary 0 0 0 0 0))
  ∧ surf_Signals surface
    = map (λ c, signalFromProjectChange (withCanonicalProjectChangeArrays c))
        (classified_changes options input).
Proof.
  cbv zeta. unfold buildProjectReportSurface, classified_changes, reported_changes.
  destruct (projectLifecycleState input) as [st ds].
  destruct (classifyProjectChanges _ _ _ _ _ _) as [cs cds]. cbn.
  by destruct (opt_IncludeResolved options).
Qed.

Lemma build_signals_eq options input :
  rep_Signals (build_report options input) =
  sortSignals (
    let all := flat_map (λ fc, snd (processFileChange (lifecycleWithoutBase (opt_Baseline options)) fc))
                 (in_Files input)
               ++ (if opt_ProjectEnabled options
                   then map (λ c, signalFromProjectChange (withCanonicalProjectChangeArrays c))
                          (classified_changes options input)
                   else []) in
    if opt_IncludeResolved options then all
    else List.filter (λ sig, sig_Lifecycle sig != "resolved") all).
Proof.
  unfold build_report, processFileChanges, assembleReport. rewrite processFileChanges_app.
  destruct (opt_ProjectEnabled options).
  - destruct (surface_eq options input) as (_ & _ & E). cbv zeta in E. cbn -[buildProjectReportSurface].
    rewrite E. by destruct (opt_IncludeResolved options).
  - cbn. by destruct (opt_IncludeResolved options).
Qed.

Lemma build_changes_eq options input :
  rep_ProjectChanges (build_report options input) =
  if opt_ProjectEnabled options
  then sortProjectChanges (reported_changes options (classified_changes options input)) else [].
Proof.
  unfold build_report, assembleReport. destruct (processFileChanges _ _ _) as [ds ss].
  destruct (opt_ProjectEnabled options).
  - destruct (surface_eq options input) as (E & _ & _). cbv zeta in E.
    destruct (finalizeSignals _ _ _ _ _) as [sigs sum]. exact E.
  - by destruct (finalizeSignals _ _ _ _ _) as [sigs sum].
Qed.

(** The number of changes with lifecycle [l]. *)
Definition count_changes (l : string) (changes : list ProjectChange) : Z :=
  zlen (List.filter (λ c, pch_Lifecycle c == l) changes).

Lemma count_changes_cons l x changes :
  count_changes l (x :: changes)
  = ((if pch_Lifecycle x == l then 1 else 0) + count_changes l changes)%Z.
Proof. unfold count_changes, zlen. cbn [List.filter]. destruct (_ == l); cbn [length]; lia. Qed.

Lemma count_change_fold changes s :
  fold_left count_change changes s =
  mkProjectSummary (psum_ActiveChanges s)
    (psum_IntroducedChanges s + count_changes "introduced" changes)
    (psum_ExistingChanges s + count_changes "existing" changes)
    (psum_ResolvedChanges s + count_changes "resolved" changes)
    (psum_BaselineChanges s + count_changes "baseline" changes).
Proof.
  revert s. induction changes as [|x l IH]; intros [a i e r b]; cbn [fold_left].
  - unfold count_changes, zlen. simpl. by rewrite !Z.add_0_r.
  - rewrite IH, !count_changes_cons. cbn [count_change]. cbv zeta.
    generalize (pch_Lifecycle x) as c. intros c.
    destruct (String.eqb_spec c "introduced") as [->|_]; [simpl; f_equal; lia|].
    destruct (String.eqb_spec c "existing") as [->|_]; [simpl; f_equal; lia|].
    destruct (String.eqb_spec c "resolved") as [->|_]; [simpl; f_equal; lia|].
    destruct (String.eqb_spec c "baseline") as [->|_]; simpl; f_equal; lia.
Qed.

Lemma existsb_false_Forall {A} (f : A → bool) l :
  existsb f l = false ↔ Forall (λ x, f x = false) l.
Proof.
  induction l as [|x l IH]; simpl; [split; [constructor|done]|].
  rewrite orb_false_iff, IH, List.Forall_cons_iff. done.
Qed.

Lemma mapCoveragePhase_complete cov scopeNil :
  mapCoveragePhase cov scopeNil = "complete" ↔
  ∃ c, cov = Some c ∧ pc_Complete c = true ∧ pc_Phase c ≠ "not_requested"
       ∧ (scopeNil = true → hasDiagCode c DiagBackendUnavailable = false).
Proof.
  unfold mapCoveragePhase. destruct cov as [c|].
  2: { split; [discriminate | intros (? & ? & _); discriminate]. }
  split.
  - destruct (String.eqb_spec (pc_Phase c) "not_requested"); [discriminate|].
    destruct (scopeNil && _) eqn:E; [discriminate|].
    destruct (pc_Complete c) eqn:C; [|discriminate]. intros _.
    exists c. repeat split; try done. intros ->. exact E.
  - intros (c' & [= <-] & C & P & D). apply String.eqb_neq in P. rewrite P, C.
    destruct scopeNil; [|done]. by rewrite (D eq_refl).
Qed.

(** *** Order of the observations *)

Lemma first_of_In l c : NoDup (map pch_SemanticKey l) → In c l → first_of l (pch_SemanticKey c) = Some c.
Proof.
  intros Hnd Hin. destruct (first_of l (pch_SemanticKey c)) as [c'|] eqn:E.
  - apply first_of_Some in E as [Hin' Hk]. f_equal.
    by apply (NoDup_map_inj pch_SemanticKey l).
  - apply first_of_None in E. by destruct (E (in_map _ _ _ Hin)).
Qed.

Lemma first_of_perm l l' k : NoDup (map pch_SemanticKey l) → l ≡ₚ l' → first_of l' k = first_of l k.
Proof.
  intros Hnd Hp. destruct (first_of l k) as [c|] eqn:E.
  - apply first_of_Some in E as [Hin <-]. apply first_of_In.
    + by rewrite <- Hp.
    + by rewrite <- Hp.
  - apply first_of_None. apply first_of_None in E. by rewrite <- Hp.
Qed.

Lemma index_distinct l : NoDup (map pch_SemanticKey l) → snd (indexProjectChangesByKey l) = [].
Proof.
  induction l as [|c l IH] using rev_ind; [done|]. rewrite map_app. intros Hnd.
  apply list.NoDup_app in Hnd as (Hl & Hdis & _). specialize (IH Hl).
  pose proof (index_lookup l (pch_SemanticKey c)) as Hk. rewrite index_snoc.
  destruct (indexProjectChangesByKey l) as [m d]. cbn [fst snd] in *. rewrite Hk.
  destruct (first_of l (pch_SemanticKey c)) as [c'|] eqn:E; [|done].
  apply first_of_Some in E as [Hin Hkey]. destruct (Hdis (pch_SemanticKey c)).
  - rewrite <- Hkey. by apply list_elem_of_In, in_map.
  - simpl. set_solver.
Qed.

Lemma omap_ext_eq {A B} (f g : A → option B) (l : list A) : (∀ x, f x = g x) → omap f l = omap g l.
Proof. intros H. induction l as [|x l IH]; [done|]. cbn [omap list_omap]. by rewrite H, IH. Qed.

Lemma classify_order_insensitive hb st co head head' base base' nl :
  NoDup (map pch_SemanticKey head) → NoDup (map pch_SemanticKey base) →
  head ≡ₚ head' → base ≡ₚ base' →
  classifyProjectChanges hb st co head' base' nl = classifyProjectChanges hb st co head base nl.
Proof.
  intros Hh Hb Ph Pb. rewrite !classify_shape.
  assert (NoDup (map pch_SemanticKey head')) as Hh' by by rewrite <- Ph.
  assert (NoDup (map pch_SemanticKey base')) as Hb' by by rewrite <- Pb.
  rewrite !index_distinct by done.
  assert (rows hb st co head' base' nl = rows hb st co head base nl) as ->; [|done].
  unfold rows.
  assert (fst (indexProjectChangesByKey head') = fst (indexProjectChangesByKey head)) as ->.
  { apply map_eq. intros k. rewrite !index_lookup. by apply first_of_perm. }
  assert (fst (indexProjectChangesByKey base') = fst (indexProjectChangesByKey base)) as ->.
  { apply map_eq. intros k. rewrite !index_lookup. by apply first_of_perm. }
  f_equal; apply omap_ext_eq; intros k; unfold head_row, base_row;
    rewrite (first_of_perm head head'), (first_of_perm base base') by done; reflexivity.
Qed.

(** *** Lifecycles of classified changes *)

Lemma classified_lifecycle hb st co head base nl c :
  In c (fst (classifyProjectChanges hb st co head base nl)) →
  pch_Lifecycle c = "unknown" ∨ pch_Lifecycle c = "introduced" ∨ pch_Lifecycle c = "existing"
  ∨ pch_Lifecycle c = "resolved" ∨ (hb = false ∧ pch_Lifecycle c = nl).
Proof.
  intros H. apply in_result in H as (ds & H & _).
  destruct (first_of head _) as [h|].
  - unfold classify_head in H. destruct (indeterminate st); [injection H as -> _; auto|].
    destruct hb; cbn [negb] in H; [|injection H as -> _; simpl; tauto].
    destruct (first_of base _); [injection H as -> _; simpl; tauto|].
    destruct (headPath co h); injection H as -> _; simpl; tauto.
  - destruct (first_of base _) as [b|]; [|done]. unfold classify_base in H.
    destruct (indeterminate st || negb hb); [injection H as -> _; auto|].
    destruct (basePath co b); injection H as -> _; simpl; tauto.
Qed.

Lemma classified_lifecycle_build options input c :
  In c (classified_changes options input) →
  In (pch_Lifecycle c) ["unknown"; "introduced"; "existing"; "resolved"]
  ∨ (opt_Baseline options = true ∧ pch_Lifecycle c = "baseline").
Proof.
  unfold classified_changes. cbn [fst filterAnchorlessProjectChanges]. intros [H _]%filter_In.
  apply classified_lifecycle in H as [->|[->|[->|[->|[_ ->]]]]]; try (left; simpl; tauto).
  unfold lifecycleWithoutBase. destruct (opt_Baseline options); [by right|left; simpl; tauto].
Qed.

(** *** The parts of a report *)

Definition surface_of (options : Options) (input : Input) : project_surface :=
  buildProjectReportSurface input (lifecycleWithoutBase (opt_Baseline options))
    (opt_IncludeResolved options).

Lemma build_enabled options input :
  opt_ProjectEnabled options = true →
  let report := build_report options input in
  let s := surface_of options input in
  rep_SchemaVersion report = "2"
  ∧ rep_ProjectChanges report = surf_Changes s
  ∧ rep_ProjectSummary report = Some (surf_Summary s)
  ∧ rep_ProjectProvenance report = buildProjectProvenance input options
  ∧ rep_ProjectCoverage report = cloneProjectCoverage (in_ProjectCoverage input)
  ∧ rep_Diagnostics report
    = sortDiagnostics (fst (processFileChanges (in_Files input) (in_Diagnostics input)
        (lifecycleWithoutBase (opt_Baseline options))) ++ surf_Diagnostics s)
  ∧ rep_ProjectNextActions report
    = buildNextActions options
        (isCompleteNoMatch options (buildProjectProvenance input options) input
           (Some (surf_Summary s)) (surf_Changes s)) (rep_Diagnostics report).
Proof.
  intros He. cbv zeta. unfold build_report, assembleReport, surface_of. rewrite He.
  destruct (processFileChanges _ _ _) as [ds ss]. destruct (finalizeSignals _ _ _ _ _) as [sigs sum].
  cbn -[buildProjectReportSurface isCompleteNoMatch buildProjectProvenance].
  repeat split. unfold buildProjectReportSurface.
  destruct (projectLifecycleState input). by destruct (classifyProjectChanges _ _ _ _ _ _).
Qed.

Lemma surface_diagnostics options input :
  let classified := classifyProjectChanges (in_ProjectBaseAnalyzed input)
    (fst (projectLifecycleState input)) (newUndeterminedContinuity (in_UndeterminedContinuity input))
    (in_ProjectChanges input) (in_BaseProjectChanges input)
    (lifecycleWithoutBase (opt_Baseline options)) in
  surf_Diagnostics (surface_of options input)
  = ((snd (projectLifecycleState input) ++ modelCoverageDiagnostics input) ++ snd classified)
    ++ map anchorless_diagnostic
         (List.filter (λ c, pl_Path (pch_PrimaryAnchor c) == "") (fst classified)).
Proof.
  cbv zeta. unfold surface_of, buildProjectReportSurface.
  destruct (projectLifecycleState input) as [st ds].
  by destruct (classifyProjectChanges _ _ _ _ _ _) as [cs cds].
Qed.

Lemma in_diagnostics options input d :
  opt_ProjectEnabled options = true →
  In d (surf_Diagnostics (surface_of options input)) →
  In d (rep_Diagnostics (build_report options input)).
Proof.
  intros He H. destruct (build_enabled options input He) as (_ & _ & _ & _ & _ & -> & _).
  unfold sortDiagnostics. apply stable_sort_In, in_app_iff. by right.
Qed.

(** Sorting keeps each change, in canonical form. *)
Lemma sorted_changes_perm changes :
  sortProjectChanges changes ≡ₚ map withCanonicalProjectChangeArrays changes.
Proof. apply stable_sort_perm. Qed.

Lemma sorted_changes_filter (f : string → bool) changes :
  List.filter (λ c, f (pch_Lifecycle c)) (sortProjectChanges changes)
  ≡ₚ map withCanonicalProjectChangeArrays (List.filter (λ c, f (pch_Lifecycle c)) changes).
Proof.
  rewrite (Permutation_bfilter _ _ _ (sorted_changes_perm changes)).
  induction changes as [|c l IH]; simpl; [done|]. destruct (f (pch_Lifecycle c)); simpl; by rewrite IH.
Qed.

Lemma count_sorted l changes :
  count_changes l (sortProjectChanges changes) = count_changes l changes.
Proof.
  unfold count_changes, zlen. rewrite (sorted_changes_filter (λ x, x == l) changes).
  by rewrite length_map.
Qed.

Lemma count_kept l changes :
  l ≠ "resolved" →
  count_changes l (List.filter (λ c, pch_Lifecycle c != "resolved") changes) = count_changes l changes.
Proof.
  intros Hl. induction changes as [|c cs IH]; [done|]. cbn [List.filter].
  destruct (String.eqb_spec (pch_Lifecycle c) "resolved") as [E|E]; cbn [negb];
    rewrite !count_changes_cons, IH; [|done].
  destruct (String.eqb_spec (pch_Lifecycle c) l); [congruence|lia].
Qed.

Lemma count_reported options l changes :
  l ≠ "resolved" → count_changes l (reported_changes options changes) = count_changes l changes.
Proof.
  intros Hl. unfold reported_changes. destruct (opt_IncludeResolved options); [done|].
  by apply count_kept.
Qed.

Lemma count_zero l changes :
  count_changes l changes = 0%Z ↔ ∀ c, In c changes → pch_Lifecycle c ≠ l.
Proof.
  induction changes as [|c cs IH]; [split; [done|reflexivity]|].
  rewrite count_changes_cons.
  assert (0 <= count_changes l cs)%Z as Hp by (unfold count_changes, zlen; lia).
  destruct (String.eqb_spec (pch_Lifecycle c) l) as [E|E].
  - split; [lia|]. intros H. by destruct (H c (or_introl eq_refl)).
  - rewrite Z.add_0_l, IH. split; intros H c' Hc'.
    + destruct Hc' as [<-|Hc']; auto.
    + apply H. by right.
Qed.

(** Every change is counted under the lifecycle it has. *)
Lemma count_total changes :
  (∀ c, In c changes → In (pch_Lifecycle c) ["unknown"; "introduced"; "existing"; "resolved"; "baseline"]) →
  zlen changes = (count_changes "unknown" changes + count_changes "introduced" changes
    + count_changes "existing" changes + count_changes "resolved" changes
    + count_changes "baseline" changes)%Z.
Proof.
  induction changes as [|c cs IH]; [done|]. intros H. rewrite !count_changes_cons.
  assert (zlen (c :: cs) = 1 + zlen cs)%Z as -> by (unfold zlen; cbn [length]; lia).
  rewrite IH by (intros c' Hc'; apply H; by right).
  destruct (H c (or_introl eq_refl)) as [<-|[<-|[<-|[<-|[<-|[]]]]]]; simpl; lia.
Qed.

(** *** Coverage phases and no-match *)

Lemma mapCoveragePhase_not_requested cov scopeNil :
  mapCoveragePhase cov scopeNil = "not_requested" ↔
  ∃ c, cov = Some c ∧ pc_Phase c = "not_requested".
Proof.
  unfold mapCoveragePhase. destruct cov as [c|].
  2: { split; [discriminate | intros (? & ? & _); discriminate]. }
  destruct (String.eqb_spec (pc_Phase c) "not_requested") as [E|E].
  - split; [|done]. intros _. by exists c.
  - split.
    + by destruct (scopeNil && _), (pc_Complete c).
    + by intros (c' & [= <-] & ?).
Qed.

(** The coverage one side of a TypeScript run needs: a completed model, and a
    bypass analysis that completed or was never requested. *)
Definition phase_completed (cov : option ProjCoverage) (scope : option ProjectScope) : Prop :=
  ∃ c, cov = Some c ∧ pc_Complete c = true ∧ pc_Phase c ≠ "not_requested"
       ∧ (scope = None → hasDiagCode c DiagBackendUnavailable = false).

Definition side_covered (model bypass : option ProjCoverage) (scope : option ProjectScope) : Prop :=
  phase_completed model scope
  ∧ (phase_completed bypass scope ∨ ∃ c, bypass = Some c ∧ pc_Phase c = "not_requested").

Lemma requiredSideComplete_iff model bypass scope :
  requiredSideComplete (mapCoveragePhase model (is_nil scope)) (mapCoveragePhase bypass (is_nil scope))
  = true ↔ side_covered model bypass scope.
Proof.
  assert (∀ cov, mapCoveragePhase cov (is_nil scope) = "complete" ↔ phase_completed cov scope) as Hc.
  { intros cov. rewrite mapCoveragePhase_complete. unfold phase_completed.
    assert (is_nil scope = true ↔ scope = None) as Hs by (by destruct scope).
    split; intros (c & ? & ? & ? & Hd); exists c; repeat split; try done; intros Hn; apply Hd;
      by apply Hs. }
  unfold requiredSideComplete, side_covered.
  by rewrite andb_true_iff, orb_true_iff, !String.eqb_eq, !Hc, mapCoveragePhase_not_requested.
Qed.

Lemma provenance_complete_iff options input prov :
  buildProjectProvenance input options = Some prov →
  negb (is_nil (pp_Base prov)) = in_ProjectBaseAnalyzed input
  ∧ (requiredProvenanceComplete prov = true ↔
     side_covered (in_HeadModelCoverage input) (in_HeadBypassCoverage input) (in_HeadProjectScope input)
     ∧ (in_ProjectBaseAnalyzed input = true →
        side_covered (in_BaseModelCoverage input) (in_BaseBypassCoverage input)
          (in_BaseProjectScope input))).
Proof.
  unfold buildProjectProvenance. destruct (_ || _); [done|]. intros [= <-].
  unfold requiredProvenanceComplete, isRequiredCoverageComplete, base_phases.
  rewrite <- !requiredSideComplete_iff.
  destruct (in_ProjectBaseAnalyzed input);
    cbn -[requiredSideComplete mapCoveragePhase]; (split; [done|]);
    destruct (requiredSideComplete _ _); cbn -[requiredSideComplete mapCoveragePhase];
    split; try done; try (by intros [? _]); try (by intros [_ H]; apply H); auto.
Qed.

Lemma isCompleteNoMatch_spec options input summary changes prov :
  buildProjectProvenance input options = Some prov →
  isCompleteNoMatch options (Some prov) input summary changes
  = requiredProvenanceComplete prov
    && negb (hasActiveLayerFinding changes || hasUnknownProjectChange changes)
    && negb (negb (opt_Baseline options) && hasPreFilterProjectChanges summary).
Proof.
  intros Hp. destruct (provenance_complete_iff _ _ _ Hp) as [Hb _].
  unfold isCompleteNoMatch, requiredProvenanceComplete. rewrite Hb.
  destruct (base_phases prov) as [bm bb]. destruct (isRequiredCoverageComplete _ _ _ _ _); [|done].
  destruct (hasActiveLayerFinding changes || hasUnknownProjectChange changes); [done|].
  by destruct (negb (opt_Baseline options) && hasPreFilterProjectChanges summary).
Qed.

(** Without a baseline recording, nothing counted and nothing unknown means
    nothing was classified. *)
Lemma no_counted_changes options input :
  opt_Baseline options = false →
  let changes := classified_changes options input in
  hasPreFilterProjectChanges (Some (surf_Summary (surface_of options input))) = false ∧
  hasUnknownProjectChange (surf_Changes (surface_of options input)) = false
  ↔ changes = [].
Proof.
  intros Hb. cbv zeta. unfold surface_of.
  destruct (surface_eq options input) as (Ec & Es & _). rewrite Es, Ec, count_change_fold.
  cbn [hasPreFilterProjectChanges with_active_changes psum_IntroducedChanges psum_ExistingChanges psum_ResolvedChanges].
  rewrite !Z.add_0_l.
  assert (∀ cs, hasUnknownProjectChange cs = false ↔ count_changes "unknown" cs = 0%Z) as Hu.
  { intros cs. unfold hasUnknownProjectChange. rewrite existsb_false_Forall, List.Forall_forall, count_zero.
    by setoid_rewrite String.eqb_neq. }
  rewrite Hu, count_sorted, count_reported by done.
  rewrite !orb_false_iff, !Z.ltb_ge. split.
  - pose proof (count_total (classified_changes options input)) as Ht.
    assert (count_changes "baseline" (classified_changes options input) = 0%Z) as Hz.
    { apply count_zero. intros c Hc E. apply classified_lifecycle_build in Hc as [Hc|[Hc _]]; [|congruence].
      rewrite E in Hc. simpl in Hc. naive_solver. }
    assert (∀ l, 0 <= count_changes l (classified_changes options input))%Z as Hpos
      by (intros; unfold count_changes, zlen; lia).
    intros [[[H1 H2] H3] H4].
    pose proof (Hpos "introduced"). pose proof (Hpos "existing"). pose proof (Hpos "resolved").
    assert (zlen (classified_changes options input) = 0)%Z as Hl.
    { rewrite Ht; [lia|]. intros c Hc.
      apply classified_lifecycle_build in Hc as [Hc|[_ ->]]; simpl in *; tauto. }
    unfold zlen in Hl. by destruct (classified_changes options input).
  - intros ->. unfold count_changes, zlen. simpl. lia.
Qed.

(** Replaces what the producers observed. *)
Definition with_observations (files : list FileChange) (head base : list ProjectChange)
    (i : Input) : Input :=
  mkInput (in_Scope i) files (in_Diagnostics i) (in_Coverage i) head base (in_ProjectFacts i)
    (in_ProjectCoverage i) (in_BaseProjectCoverage i) (in_ProjectBaseAnalyzed i)
    (in_UndeterminedContinuity i) (in_RuntimeKind i) (in_RuntimeVersion i) (in_RuntimeOrigin i)
    (in_CompilerVersion i) (in_CompilerOrigin i) (in_Language i) (in_ConfigDigest i)
    (in_SelectedRoots i) (in_AnalyzerProtocolVersion i) (in_AnalyzerVersion i)
    (in_AnalyzerDigest i) (in_PackageManagerKind i) (in_PackageManagerVersion i)
    (in_PackageManagerOrigin i) (in_HeadProjectScope i) (in_BaseProjectScope i)
    (in_HeadLayerMembership i) (in_BaseLayerMembership i) (in_LayerForbiddenImportsDeclared i)
    (in_HeadModelCoverage i) (in_BaseModelCoverage i) (in_HeadBypassCoverage i)
    (in_BaseBypassCoverage i) (in_HeadReachabilityCoverage i) (in_BaseReachabilityCoverage i).

Lemma surface_observations options input files head base :
  NoDup (map pch_SemanticKey (in_ProjectChanges input)) →
  NoDup (map pch_SemanticKey (in_BaseProjectChanges input)) →
  in_ProjectChanges input ≡ₚ head → in_BaseProjectChanges input ≡ₚ base →
  surface_of options (with_observations files head base input) = surface_of options input.
Proof.
  intros Hh Hb Ph Pb. unfold surface_of, buildProjectReportSurface.
  assert (projectLifecycleState (with_observations files head base input)
          = projectLifecycleState input) as ->.
  { unfold projectLifecycleState, projectLifecycleDiagnosticMessage, lifecycle_reasons, zlen.
    cbn -[Z.ltb Z.of_nat]. by rewrite (Permutation_length Pb). }
  destruct (projectLifecycleState input) as [st ds]. cbn -[classifyProjectChanges].
  by rewrite (classify_order_insensitive _ _ _ (in_ProjectChanges input) head (in_BaseProjectChanges input) base) by done.
Qed.

(** ** Properties *)

(** The report lists every project finding twice, once as a project change
    and once as a signal, and the two agree: past the signals of the files, the
    signals of a report are exactly its project changes, one signal for each, with
    the change's identity, rule, lifecycle, evidence and location. *)
Theorem build_project_signals options input :
  let report := build_report options input in
  let file_signals :=
    flat_map (λ fc, snd (processFileChange (lifecycleWithoutBase (opt_Baseline options)) fc))
      (in_Files input) in
  rep_Signals report ≡ₚ
    (if opt_IncludeResolved options then file_signals
     else List.filter (λ s, sig_Lifecycle s != "resolved") file_signals)
    ++ map signalFromProjectChange (rep_ProjectChanges report).
Proof.
  cbv zeta. rewrite build_signals_eq, build_changes_eq. cbv zeta. rewrite sortSignals_perm.
  destruct (opt_ProjectEnabled options).
  2: { rewrite !app_nil_r. done. }
  rewrite sorted_changes_perm, map_map. unfold reported_changes.
  destruct (opt_IncludeResolved options); [done|].
  rewrite List.filter_app. apply Permutation_app_head.
  induction (classified_changes options input) as [|c cs IH]; [done|].
  cbn [map List.filter sig_Lifecycle signalFromProjectChange pch_Lifecycle withCanonicalProjectChangeArrays].
  destruct (pch_Lifecycle c != "resolved"); cbn [map]; by rewrite IH.
Qed.

(** With distinct semantic keys the report does not depend on the order in
    which the producers listed their project changes: permuting the head's and the
    base's observations leaves every field of the report as it was. *)
Theorem build_order_insensitive options input head base :
  NoDup (map pch_SemanticKey (in_ProjectChanges input)) →
  NoDup (map pch_SemanticKey (in_BaseProjectChanges input)) →
  in_ProjectChanges input ≡ₚ head → in_BaseProjectChanges input ≡ₚ base →
  build_report options (with_observations (in_Files input) head base input)
  = build_report options input.
Proof.
  intros Hh Hb Ph Pb.
  pose proof (surface_observations options input (in_Files input) head base Hh Hb Ph Pb) as Hs.
  unfold surface_of in Hs. unfold build_report, assembleReport. rewrite Hs.
  cbn -[buildProjectReportSurface finalizeSignals processFileChanges].
  destruct (processFileChanges _ _ _) as [ds ss], (opt_ProjectEnabled options);
    cbv iota beta zeta; by destruct (finalizeSignals _ _ _ _ _).
Qed.


Lemma no_active_finding changes :
  negb (hasActiveLayerFinding changes || hasUnknownProjectChange changes) = true ↔
  ∀ c, In c changes → pch_RuleID c ≠ ruleLayerViolationID ∧ pch_RuleID c ≠ ruleLayerBypassID
                      ∧ pch_Lifecycle c ≠ "unknown".
Proof.
  unfold hasActiveLayerFinding, hasUnknownProjectChange.
  rewrite negb_true_iff, orb_false_iff, !existsb_false_Forall, !List.Forall_forall.
  setoid_rewrite orb_false_iff. setoid_rewrite String.eqb_neq. split.
  - intros [H1 H2] c Hc. split; [apply H1, Hc|]. split; [apply H1, Hc|apply H2, Hc].
  - intros H. split; intros c Hc; [split|]; apply H, Hc.
Qed.

Lemma nothing_reported options input :
  (surf_Changes (surface_of options input) = []
   ∧ ∃ s, Some (surf_Summary (surface_of options input)) = Some s ∧ psum_ResolvedChanges s = 0%Z)
  ↔ classified_changes options input = [].
Proof.
  destruct (surface_eq options input) as (Ec & Es & _). fold (surface_of options input) in Ec, Es.
  rewrite Es, Ec, count_change_fold. set (cs := classified_changes options input). split.
  - intros (Hnil & s & [= <-] & Hz).
    cbn [with_active_changes psum_ResolvedChanges] in Hz. rewrite Z.add_0_l, count_zero in Hz.
    pose proof (sorted_changes_perm (reported_changes options cs)) as P. rewrite Hnil in P.
    apply Permutation_nil, map_eq_nil in P. unfold reported_changes in P.
    destruct (opt_IncludeResolved options); [done|]. rewrite filter_id in P; [done|].
    intros c Hc. apply negb_true_iff, String.eqb_neq, Hz, Hc.
  - intros ->. unfold reported_changes. destruct (opt_IncludeResolved options); (split; [done|by eexists]).
Qed.

(** C10: when a report suggests next actions.  It does exactly for a TypeScript
    project run whose required coverage the report itself calls complete, and which
    found nothing: recording a baseline it lists no layer finding and no unknown
    lifecycle; otherwise it lists no project change at all and hides no resolved
    one.  The actions are then the baseline recording if asked for, the policy
    review, and the diagnostics' inspection if there are any. *)
Theorem next_actions_exact options input :
  let report := build_report options input in
  let changes := rep_ProjectChanges report in
  let found_nothing :=
    opt_ProjectEnabled options = true ∧ in_Language input = "typescript"
    ∧ RequiredCoverageIncomplete (Some report) = false
    ∧ (if opt_Baseline options
       then ∀ c, In c changes → pch_RuleID c ≠ ruleLayerViolationID ∧ pch_RuleID c ≠ ruleLayerBypassID
                                ∧ pch_Lifecycle c ≠ "unknown"
       else changes = [] ∧ ∃ s, rep_ProjectSummary report = Some s ∧ psum_ResolvedChanges s = 0%Z) in
  (found_nothing →
   rep_ProjectNextActions report
   = (if opt_Baseline options then ["record_baseline"] else [])
     ++ ["review_policy_coverage"]
     ++ match rep_Diagnostics report with [] => [] | _ => ["inspect_diagnostics"] end)
  ∧ (rep_ProjectNextActions report ≠ [] → found_nothing).
Proof.
  cbv zeta. destruct (opt_ProjectEnabled options) eqn:He.
  2: { unfold build_report, assembleReport. rewrite He. destruct (processFileChanges _ _ _).
       by destruct (finalizeSignals _ _ _ _ _) as [? ?]; split; [intros [? _]|]. }
  pose proof (build_enabled options input He) as Hr. cbv zeta in Hr.
  destruct Hr as (_ & Hch & Hsum & Hprov & _ & _ & Hact).
  unfold RequiredCoverageIncomplete. rewrite Hprov, Hact, Hch, Hsum.
  destruct (buildProjectProvenance input options) as [prov|] eqn:Ep.
  2: { assert (in_Language input ≠ "typescript") as Hl.
       { unfold buildProjectProvenance in Ep. rewrite He in Ep. intros E. rewrite E in Ep. done. }
       split; [tauto|]. by unfold isCompleteNoMatch, buildNextActions. }
  assert (in_Language input = "typescript") as Hl.
  { unfold buildProjectProvenance in Ep. rewrite He in Ep. cbn [negb orb] in Ep.
    by destruct (String.eqb_spec (in_Language input) "typescript"). }
  rewrite (isCompleteNoMatch_spec _ _ _ _ _ Ep).
  set (cond := _ && _ && _).
  assert (cond = true ↔ requiredProvenanceComplete prov = true
    ∧ if opt_Baseline options
      then ∀ c, In c (surf_Changes (surface_of options input)) →
             pch_RuleID c ≠ ruleLayerViolationID ∧ pch_RuleID c ≠ ruleLayerBypassID
             ∧ pch_Lifecycle c ≠ "unknown"
      else surf_Changes (surface_of options input) = []
           ∧ ∃ s, Some (surf_Summary (surface_of options input)) = Some s
                  ∧ psum_ResolvedChanges s = 0%Z) as Hcond.
  { subst cond. rewrite andb_true_iff, andb_true_iff, no_active_finding.
    destruct (opt_Baseline options) eqn:Eb; [cbn [negb andb]; tauto|].
    pose proof (no_counted_changes options input Eb) as Hn. cbv zeta in Hn.
    pose proof (nothing_reported options input) as Hr. cbn [negb andb]. rewrite negb_true_iff.
    split.
    - intros [[Hp Hu] Hh]. split; [done|]. apply Hr, Hn. split; [done|].
      unfold hasUnknownProjectChange. apply existsb_false_Forall, List.Forall_forall.
      intros c Hc. by apply String.eqb_neq, Hu.
    - intros [Hp H]. pose proof (proj1 H) as Hnil. apply Hr, Hn in H as [Hh _].
      rewrite Hnil. split; [split; [done|]|done]. by intros c []. }
  clearbody cond. rewrite negb_false_iff. split.
  - intros (_ & _ & H1 & H2). rewrite (proj2 Hcond (conj H1 H2)). unfold buildNextActions. cbn [negb].
    f_equal. f_equal. by destruct (rep_Diagnostics _).
  - destruct cond; [|done]. intros _. destruct (proj1 Hcond eq_refl). tauto.
Qed.

(** The single predicate behind the gate on incomplete coverage, against the
    input of a project run.  For TypeScript it is false exactly when each analysed
    side has a completed model and a bypass analysis that completed or was not
    requested, a missing scope only tolerated when the backend was available.  For
    any other language an indeterminate comparison always raises it: it is false
    only if every expected side is completely covered. *)
Theorem required_coverage_exact options input :
  opt_ProjectEnabled options = true →
  let report := build_report options input in
  if in_Language input == "typescript" then
    RequiredCoverageIncomplete (Some report) = false ↔
    side_covered (in_HeadModelCoverage input) (in_HeadBypassCoverage input) (in_HeadProjectScope input)
    ∧ (in_ProjectBaseAnalyzed input = true →
       side_covered (in_BaseModelCoverage input) (in_BaseBypassCoverage input) (in_BaseProjectScope input))
  else
    RequiredCoverageIncomplete (Some report) = false →
    completeProjectCoverage (in_ProjectCoverage input) = true
    ∧ (if in_ProjectBaseAnalyzed input
       then completeProjectCoverage (in_BaseProjectCoverage input) = true
       else in_BaseProjectChanges input = []).
Proof.
  intros He. cbv zeta. pose proof (build_enabled options input He) as Hr. cbv zeta in Hr.
  destruct Hr as (_ & _ & _ & Hprov & _ & _ & _).
  unfold RequiredCoverageIncomplete. rewrite Hprov.
  destruct (String.eqb_spec (in_Language input) "typescript") as [Hl|Hl].
  - destruct (buildProjectProvenance input options) as [prov|] eqn:Ep.
    + rewrite negb_false_iff. apply (provenance_complete_iff _ _ _ Ep).
    + unfold buildProjectProvenance in Ep. by rewrite He, Hl in Ep.
  - apply String.eqb_neq in Hl.
    assert (buildProjectProvenance input options = None) as ->.
    { unfold buildProjectProvenance. by rewrite He, Hl. }
    intros [_ Hp]%orb_false_iff. apply determinate_iff.
    assert (HasProjectCoverageDiagnostic (rep_Diagnostics (build_report options input)) = false) as Hd.
    { unfold provenanceFreeCoverageIncomplete in Hp.
      destruct (rep_ProjectCoverage _) as [c|]; [by destruct (negb (pc_Complete c))|done]. }
    apply not_true_iff_false. intros Hi.
    unfold HasProjectCoverageDiagnostic in Hd.
    apply existsb_false_Forall in Hd. rewrite List.Forall_forall in Hd.
    assert (In (file_diagnostic "" DiagKindProjectLifecycleIndeterminate
                 (projectLifecycleDiagnosticMessage input))
               (rep_Diagnostics (build_report options input))) as Hin.
    { apply in_diagnostics; [done|]. rewrite surface_diagnostics. rewrite !in_app_iff. do 3 left.
      unfold projectLifecycleState in *. cbn [fst snd] in *. rewrite Hi. apply in_app_iff. right. by left. }
    apply Hd in Hin. discriminate Hin.
Qed.

(** The project summary of a report adds up: the active count is the number of
    project changes the report lists, each other counter is the number of its
    changes of that lifecycle (the resolved ones counted before they are left out),
    and, unless the options leave resolved changes out and there are some, the
    counters and the unknown changes make up the active count. *)
Theorem project_summary_counts options input s :
  let report := build_report options input in
  let count l := count_changes l (rep_ProjectChanges report) in
  rep_ProjectSummary report = Some s →
  psum_ActiveChanges s = zlen (rep_ProjectChanges report)
  ∧ psum_IntroducedChanges s = count "introduced" ∧ psum_ExistingChanges s = count "existing"
  ∧ psum_BaselineChanges s = count "baseline"
  ∧ (if opt_IncludeResolved options then psum_ResolvedChanges s = count "resolved"
     else count "resolved" = 0%Z)
  ∧ psum_ActiveChanges s
    = (psum_IntroducedChanges s + psum_ExistingChanges s + psum_BaselineChanges s
       + count "resolved" + count "unknown")%Z.
Proof.
  cbv zeta. destruct (opt_ProjectEnabled options) eqn:He.
  2: { unfold build_report, assembleReport. rewrite He. destruct (processFileChanges _ _ _).
       by destruct (finalizeSignals _ _ _ _ _) as [? ?]. }
  pose proof (build_enabled options input He) as Hr. cbv zeta in Hr.
  destruct Hr as (_ & -> & -> & _). intros [= <-].
  destruct (surface_eq options input) as (Ec & Es & _). fold (surface_of options input) in Ec, Es.
  rewrite Es, count_change_fold. cbn [with_active_changes psum_ActiveChanges psum_IntroducedChanges
    psum_ExistingChanges psum_ResolvedChanges psum_BaselineChanges]. rewrite !Z.add_0_l.
  set (cs := classified_changes options input) in *. rewrite Ec, !count_sorted.
  assert (∀ l, l ≠ "resolved" → count_changes l (reported_changes options cs) = count_changes l cs) as Hcr
    by (intros; by apply count_reported).
  rewrite (Hcr "introduced"), (Hcr "existing"), (Hcr "baseline"), (Hcr "unknown") by done.
  assert (zlen (sortProjectChanges (reported_changes options cs))
          = zlen (reported_changes options cs)) as ->.
  { unfold zlen. by rewrite sorted_changes_perm, length_map. }
  do 4 (split; [done|]). split.
  - unfold reported_changes. destruct (opt_IncludeResolved options); [done|].
    apply count_zero. intros c [_ Hc]%filter_In. by apply negb_true_iff, String.eqb_neq in Hc.
  - rewrite count_total.
    + rewrite (Hcr "introduced"), (Hcr "existing"), (Hcr "baseline"), (Hcr "unknown") by done. lia.
    + intros c Hc. assert (In c cs) as Hin.
      { unfold reported_changes in Hc. destruct (opt_IncludeResolved options); [done|].
        by apply filter_In in Hc as [? _]. }
      apply classified_lifecycle_build in Hin as [Hin|[_ ->]]; simpl in *; tauto.
Qed.

(** What [Build] returns.  A cancelled context gives its error and no report.
    Otherwise a report comes back: a run without the project surface is a
    version 1 report with nothing of a project in it, a run with it a version 2
    report that always has a project summary. *)
Theorem build_outcome {E} (ctxErr : option E) options input :
  match ctxErr, Build ctxErr options input with
  | Some err, inl err' => err' = err
  | None, inr report =>
      rep_SchemaVersion report = (if opt_ProjectEnabled options then "2" else "1")
      ∧ (opt_ProjectEnabled options = true ↔ is_Some (rep_ProjectSummary report))
      ∧ (opt_ProjectEnabled options = false →
         rep_ProjectChanges report = [] ∧ rep_ProjectFacts report = []
         ∧ rep_ProjectCoverage report = None ∧ rep_ProjectProvenance report = None
         ∧ rep_ProjectScope report = None ∧ rep_ProjectNextActions report = []
         ∧ rep_LayerMembership report = None)
  | _, _ => False
  end.
Proof.
  unfold Build. destruct ctxErr as [err|]; [done|]. destruct (opt_ProjectEnabled options) eqn:He.
  - pose proof (build_enabled options input He) as Hr. cbv zeta in Hr.
    destruct Hr as (-> & _ & -> & _). by repeat split.
  - unfold build_report, assembleReport. rewrite He. destruct (processFileChanges _ _ _).
    destruct (finalizeSignals _ _ _ _ _) as [? ?]. cbn. split; [done|]. split; [|done].
    split; [done|by intros []].
Qed.

(** ** Witnesses *)

Definition example_coverage (phase : string) (complete : bool) : ProjCoverage :=
  mkProjCoverage phase complete ∅ ∅ [].

Definition example_input (language : string) (head base : list ProjectChange) (complete : bool) : Input :=
  let cov := Some (example_coverage "model" complete) in
  mkInput (mkScope "r" "h" "b" "" false) [] [] None head base [] cov cov true [] "" "" "" "" ""
    language "d" ["src"] 0 "" "" "" "" "" None None None None false
    cov cov (Some (example_coverage "not_requested" false)) cov cov cov.

Definition example_options : Options := mkOptions false false true.

Definition example_report : Report :=
  build_report example_options (example_input "typescript" example_head example_base true).

Example example_report_changes :
  map (λ c, (pch_SemanticKey c, pch_Lifecycle c)) (rep_ProjectChanges example_report)
  = [("both", "existing"); ("new", "introduced")]
  ∧ map sig_Subject (rep_Signals example_report) = ["new"; "both"]
  ∧ option_map psum_ResolvedChanges (rep_ProjectSummary example_report) = Some 1%Z.
Proof. vm_compute. auto. Qed.

Lemma build_order_insensitive_witness :
  build_report example_options
    (example_input "typescript" [example_change "a" "r"; example_change "b" "r"] [] true)
  = build_report example_options
      (example_input "typescript" [example_change "b" "r"; example_change "a" "r"] [] true).
Proof.
  apply (build_order_insensitive example_options
    (example_input "typescript" [example_change "b" "r"; example_change "a" "r"] [] true)
    [example_change "a" "r"; example_change "b" "r"] []).
  - apply (bool_decide_unpack _). vm_compute. reflexivity.
  - constructor.
  - apply perm_swap.
  - constructor.
Defined.


Lemma next_actions_exact_witness :
  rep_ProjectNextActions (build_report example_options (example_input "typescript" [] [] true))
  = ["review_policy_coverage"].
Proof.
  rewrite (proj1 (next_actions_exact example_options (example_input "typescript" [] [] true))).
  - vm_compute. reflexivity.
  - split; [reflexivity|]. split; [reflexivity|]. split; [vm_compute; reflexivity|].
    split; [vm_compute; reflexivity|]. eexists. split; vm_compute; reflexivity.
Defined.

Lemma required_coverage_exact_witness :
  RequiredCoverageIncomplete (Some example_report) = false.
Proof.
  apply (required_coverage_exact example_options
    (example_input "typescript" example_head example_base true) eq_refl).
  assert (∀ scope, side_covered (Some (example_coverage "model" true))
            (Some (example_coverage "not_requested" false)) scope) as H.
  { intros scope. split; [|right; by eexists].
    exists (example_coverage "model" true). repeat split; done. }
  split; [apply H|]. intros _. split.
  - exists (example_coverage "model" true). repeat split; done.
  - left. exists (example_coverage "model" true). repeat split; done.
Defined.

Lemma project_summary_counts_witness :
  ∃ s, rep_ProjectSummary example_report = Some s
  ∧ psum_ActiveChanges s = zlen (rep_ProjectChanges example_report).
Proof.
  eexists. split; [vm_compute; reflexivity|].
  apply (project_summary_counts example_options
    (example_input "typescript" example_head example_base true)).
  vm_compute. reflexivity.
Defined.

Lemma build_outcome_witness :
  rep_ProjectChanges (build_report (mkOptions false false false)
    (example_input "go" example_head example_base true)) = [].
Proof.
  apply (build_outcome (None : option string) (mkOptions false false false)
    (example_input "go" example_head example_base true)). reflexivity.
Defined.
