(* ===== verification/Json.v ===== *)
(** * JSON

    What the modelled code uses of Go's [encoding/json]: scanning a message into its
    syntax tree, compacting, indenting and marshalling it, and reading a struct's
    fields from it.  A string literal of the tree is kept as written between its
    quotes, a number as its literal, so that printing a tree is what [json.Compact]
    makes of the message.  [parse_print] is the round trip. *)

From Stdlib Require Import Ascii SpecFloat.
From S2P Require Import Prelude GoText GoFloat.

Inductive json :=
  | JNull
  | JBool (b : bool)
  | JNumber (lit : string)
  | JString (raw : string)
  | JArray (elems : list json)
  | JObject (members : list (string * json)).

(** A [json.RawMessage] is its bytes, the empty one [nil]. *)
Definition RawMessage : Type := string.

(** ** Scanning *)

Definition is_ws (c : ascii) : bool :=
  let n := code c in ((n =? 32) || (n =? 9) || (n =? 10) || (n =? 13))%N.

Fixpoint skip_ws (s : string) : string :=
  match s with
  | String c t => if is_ws c then skip_ws t else s
  | EmptyString => EmptyString
  end.

Definition is_digit (c : ascii) : bool := in_range 48 57 (code c).
Definition is_hex (c : ascii) : bool :=
  is_digit c || in_range 97 102 (code c) || in_range 65 70 (code c).

Definition cons_fst {B} (c : ascii) (p : string * B) : string * B := (String c p.1, p.2).

(** The characters one backslash may precede, besides [u]. *)
Definition is_escaped (c : ascii) : bool :=
  let n := code c in
  ((n =? 34) || (n =? 92) || (n =? 47) || (n =? 98) || (n =? 102) || (n =? 110) || (n =? 114)
   || (n =? 116))%N.

(** After the opening quote: the literal up to the closing quote, and what follows. *)
Fixpoint scan_string (s : string) : option (string * string) :=
  match s with
  | EmptyString => None
  | String c t =>
      if (code c =? 34)%N then Some (EmptyString, t)
      else if (code c =? 92)%N then
        match t with
        | String e u =>
            if is_escaped e then option_map (λ p, cons_fst c (cons_fst e p)) (scan_string u)
            else if (code e =? 117)%N then
              match u with
              | String h1 (String h2 (String h3 (String h4 v))) =>
                  if is_hex h1 && is_hex h2 && is_hex h3 && is_hex h4 then
                    option_map (λ p, cons_fst c (cons_fst e (cons_fst h1 (cons_fst h2
                      (cons_fst h3 (cons_fst h4 p)))))) (scan_string v)
                  else None
              | _ => None
              end
            else None
        | EmptyString => None
        end
      else if (code c <? 32)%N then None
      else option_map (cons_fst c) (scan_string t)
  end.

(** The longest run of decimal digits. *)
Fixpoint scan_digits (s : string) : string * string :=
  match s with
  | String c t => if is_digit c then cons_fst c (scan_digits t) else (EmptyString, s)
  | EmptyString => (EmptyString, EmptyString)
  end.

Definition scan_int (s : string) : option (string * string) :=
  match s with
  | String c t =>
      if (code c =? 48)%N then Some (String c EmptyString, t)
      else if is_digit c then Some (cons_fst c (scan_digits t)) else None
  | EmptyString => None
  end.

(** A fraction or an exponent needs a digit. *)
Definition scan_digits1 (s : string) : option (string * string) :=
  match scan_digits s with
  | (EmptyString, _) => None
  | p => Some p
  end.

Definition scan_frac (s : string) : option (string * string) :=
  match s with
  | String c t => if (code c =? 46)%N then option_map (cons_fst c) (scan_digits1 t)
                  else Some (EmptyString, s)
  | EmptyString => Some (EmptyString, s)
  end.

Definition scan_exp (s : string) : option (string * string) :=
  match s with
  | String c t =>
      if ((code c =? 101) || (code c =? 69))%N then
        match t with
        | String d u =>
            if ((code d =? 43) || (code d =? 45))%N
            then option_map (λ p, cons_fst c (cons_fst d p)) (scan_digits1 u)
            else option_map (cons_fst c) (scan_digits1 t)
        | EmptyString => None
        end
      else Some (EmptyString, s)
  | EmptyString => Some (EmptyString, s)
  end.

Definition scan_unsigned (s : string) : option (string * string) :=
  match scan_int s with
  | Some (a, s1) =>
      match scan_frac s1 with
      | Some (b, s2) =>
          match scan_exp s2 with
          | Some (c, s3) => Some (a +:+ b +:+ c, s3)
          | None => None
          end
      | None => None
      end
  | None => None
  end.

Definition scan_number (s : string) : option (string * string) :=
  match s with
  | String c t => if (code c =? 45)%N then option_map (cons_fst c) (scan_unsigned t) else scan_unsigned s
  | EmptyString => None
  end.

(** The scanner gives up below this many open arrays and objects. *)
Definition maxNestingDepth : N := 10000.

(** Structure characters. *)
Definition is_char (n : N) (s : string) : option string :=
  match s with
  | String c t => if (code c =? n)%N then Some t else None
  | EmptyString => None
  end.

(** A value at the start of [s], and what follows it.  One unit of fuel per value or
    member: each consumes a character, so the length of the message is enough. *)
Fixpoint scan_value (fuel : nat) (depth : N) (s : string) {struct fuel} : option (json * string) :=
  match fuel with
  | O => None
  | S fuel =>
      match is_char 123 s with
      | Some t =>
          if (maxNestingDepth <=? depth)%N then None else
          match is_char 125 (skip_ws t) with
          | Some r => Some (JObject [], r)
          | None => option_map (λ p, (JObject p.1, p.2)) (scan_members fuel (depth + 1) (skip_ws t))
          end
      | None =>
      match is_char 91 s with
      | Some t =>
          if (maxNestingDepth <=? depth)%N then None else
          match is_char 93 (skip_ws t) with
          | Some r => Some (JArray [], r)
          | None => option_map (λ p, (JArray p.1, p.2)) (scan_elems fuel (depth + 1) (skip_ws t))
          end
      | None =>
      match is_char 34 s with
      | Some t => option_map (λ p, (JString p.1, p.2)) (scan_string t)
      | None =>
          match CutPrefix "null" s, CutPrefix "true" s, CutPrefix "false" s with
          | Some r, _, _ => Some (JNull, r)
          | _, Some r, _ => Some (JBool true, r)
          | _, _, Some r => Some (JBool false, r)
          | _, _, _ => option_map (λ p, (JNumber p.1, p.2)) (scan_number s)
          end
      end end end
  end
with scan_members (fuel : nat) (depth : N) (s : string) {struct fuel} :
    option (list (string * json) * string) :=
  match fuel with
  | O => None
  | S fuel =>
      match is_char 34 s with
      | None => None
      | Some t =>
      match scan_string t with
      | None => None
      | Some (key, r1) =>
      match is_char 58 (skip_ws r1) with
      | None => None
      | Some r2 =>
      match scan_value fuel depth (skip_ws r2) with
      | None => None
      | Some (v, r3) =>
          match is_char 44 (skip_ws r3), is_char 125 (skip_ws r3) with
          | Some r4, _ => option_map (λ p, ((key, v) :: p.1, p.2)) (scan_members fuel depth (skip_ws r4))
          | None, Some r4 => Some ([(key, v)], r4)
          | None, None => None
          end
      end end end end
  end
with scan_elems (fuel : nat) (depth : N) (s : string) {struct fuel} :
    option (list json * string) :=
  match fuel with
  | O => None
  | S fuel =>
      match scan_value fuel depth s with
      | None => None
      | Some (v, r1) =>
          match is_char 44 (skip_ws r1), is_char 93 (skip_ws r1) with
          | Some r2, _ => option_map (λ p, (v :: p.1, p.2)) (scan_elems fuel depth (skip_ws r2))
          | None, Some r2 => Some ([v], r2)
          | None, None => None
          end
      end
  end.

(** The message's tree, if it is valid JSON. *)
Definition parse (s : string) : option json :=
  match scan_value (S (2 * String.length s)) 0 (skip_ws s) with
  | Some (j, r) => match skip_ws r with EmptyString => Some j | _ => None end
  | None => None
  end.

(** [json.Valid]. *)
Definition Valid (s : string) : bool := match parse s with Some _ => true | None => false end.

(** ** Printing *)

Fixpoint print (j : json) : string :=
  match j with
  | JNull => "null"
  | JBool true => "true"
  | JBool false => "false"
  | JNumber lit => lit
  | JString raw => dq +:+ raw +:+ dq
  | JArray elems => "[" +:+ Join (map print elems) "," +:+ "]"
  | JObject members =>
      "{" +:+ Join (map (λ m, dq +:+ m.1 +:+ dq +:+ ":" +:+ print m.2) members) "," +:+ "}"
  end.

Definition newline : string := String (byte_of 10) "".

Fixpoint spaces (n : nat) : string :=
  match n with O => "" | S n => String " " (spaces n) end.

(** [json.Indent(&buf, raw, "", "  ")] on a tree, at nesting [d]. *)
Fixpoint indent (d : nat) (j : json) : string :=
  let nl d := newline +:+ spaces (2 * d) in
  match j with
  | JArray [] => "[]"
  | JArray elems =>
      "[" +:+ Join (map (λ x, nl (S d) +:+ indent (S d) x) elems) "," +:+ nl d +:+ "]"
  | JObject [] => "{}"
  | JObject members =>
      "{" +:+ Join (map (λ m, nl (S d) +:+ dq +:+ m.1 +:+ dq +:+ ": " +:+ indent (S d) m.2) members) ","
      +:+ nl d +:+ "}"
  | _ => print j
  end.

(** The escaping of HTML that [json.Marshal] applies to a [RawMessage]. *)
Fixpoint escape_html (raw : string) : string :=
  match raw with
  | EmptyString => EmptyString
  | String a t =>
      if ((code a =? 60) || (code a =? 62) || (code a =? 38))%N
      then escape ("u00" +:+ hex_digits 2 (code a)) +:+ escape_html t
      else match t with
      | String b (String c u) =>
          if ((code a =? 226) && (code b =? 128))%N && in_range 168 169 (code c)
          then escape ("u202" +:+ hex_digits 1 (code c - 160)) +:+ escape_html u
          else String a (escape_html t)
      | _ => String a (escape_html t)
      end
  end.

Fixpoint escape_json (j : json) : json :=
  match j with
  | JString raw => JString (escape_html raw)
  | JArray l => JArray (map escape_json l)
  | JObject ms => JObject (map (λ m, (escape_html m.1, escape_json m.2)) ms)
  | _ => j
  end.

(** ** Strings *)

Definition json_raw (s : string) : string := json_body (String.length s) s.

(** A Go string as a tree. *)
Definition JStr (s : string) : json := JString (json_raw s).

Definition hex_value (c : ascii) : N :=
  let n := code c in
  if (n <=? 57)%N then n - 48 else if (n <=? 70)%N then n - 55 else n - 87.

Definition hex4 (a b c d : ascii) : N :=
  ((hex_value a * 16 + hex_value b) * 16 + hex_value c) * 16 + hex_value d.

(** [utf8.AppendRune]; a surrogate half is replaced by U+FFFD. *)
Definition encode_rune (r : N) : string :=
  let r := if in_range 55296 57343 r then 65533%N else r in
  let low (n : N) := byte_of (128 + n `mod` 64) in
  if (r <? 128)%N then String (byte_of r) ""
  else if (r <? 2048)%N then String (byte_of (192 + r / 64)%N) (String (low r) "")
  else if (r <? 65536)%N then
    String (byte_of (224 + r / 4096)%N) (String (low (r / 64)%N) (String (low r) ""))
  else String (byte_of (240 + r / 262144)%N) (String (low (r / 4096)%N)
         (String (low (r / 64)%N) (String (low r) ""))).

Definition unescape_byte (c : ascii) : ascii :=
  let n := code c in
  if (n =? 98)%N then byte_of 8 else if (n =? 102)%N then byte_of 12
  else if (n =? 110)%N then byte_of 10 else if (n =? 114)%N then byte_of 13
  else if (n =? 116)%N then byte_of 9 else c.

(** The low half of a surrogate pair, when one follows. *)
Definition low_surrogate (s : string) : option (N * string) :=
  match s with
  | String b (String e (String h1 (String h2 (String h3 (String h4 v))))) =>
      if ((code b =? 92) && (code e =? 117))%N && in_range 56320 57343 (hex4 h1 h2 h3 h4)
      then Some (hex4 h1 h2 h3 h4, v) else None
  | _ => None
  end.

(** The Go string a literal denotes ([unquote]); every step consumes a character. *)
Fixpoint unquote_body (fuel : nat) (raw : string) : string :=
  match fuel, raw with
  | S fuel, String c t =>
      if (code c =? 92)%N then
        match t with
        | String e u =>
            if (code e =? 117)%N then
              match u with
              | String h1 (String h2 (String h3 (String h4 v))) =>
                  let r := hex4 h1 h2 h3 h4 in
                  if in_range 55296 56319 r then
                    match low_surrogate v with
                    | Some (lo, w) =>
                        encode_rune (65536 + (r - 55296) * 1024 + (lo - 56320))
                        +:+ unquote_body fuel w
                    | None => encode_rune r +:+ unquote_body fuel v
                    end
                  else encode_rune r +:+ unquote_body fuel v
              | _ => ""
              end
            else String (unescape_byte e) (unquote_body fuel u)
        | EmptyString => ""
        end
      else if (code c <? 128)%N then String c (unquote_body fuel t)
      else match decode_rune raw with
      | Some (_, bytes, rest) => bytes +:+ unquote_body fuel rest
      | None => encode_rune 65533 +:+ unquote_body fuel t
      end
  | _, _ => ""
  end.

Definition unquote (raw : string) : string := unquote_body (String.length raw) raw.

(** ** Numbers *)

Definition digits_Z (s : string) : Z := default 0%Z (digits_value s).

(** The value of a number literal: [m * 10^e]. *)
Definition number_parts (lit : string) : Z * Z :=
  let '(neg, s) := match lit with
    | String c t => if (code c =? 45)%N then (true, t) else (false, lit)
    | EmptyString => (false, lit)
    end in
  let '(ip, s1) := scan_digits s in
  let '(fp, s2) := match s1 with
    | String c t => if (code c =? 46)%N then scan_digits t else (EmptyString, s1)
    | EmptyString => (EmptyString, s1)
    end in
  let e := match s2 with
    | String _ (String c t) =>
        if (code c =? 43)%N then digits_Z t
        else if (code c =? 45)%N then (- digits_Z t)%Z else digits_Z (String c t)
    | _ => 0%Z
    end in
  let m := digits_Z (ip +:+ fp) in
  ((if neg then - m else m)%Z, (e - Z.of_nat (String.length fp))%Z).

(** [strconv.ParseFloat(lit, 64)]: the nearest float64. *)
Definition ParseFloat (lit : string) : float64 :=
  let '(m, e) := number_parts lit in
  if (0 <=? e)%Z then binary_normalize 53 1024 (m * 10 ^ e) 0 false
  else match m with
  | Z0 => float64_zero
  | Zpos p => SFdiv 53 1024 (S754_finite false p 0) (S754_finite false (Z.to_pos (10 ^ (- e))) 0)
  | Zneg p => SFdiv 53 1024 (S754_finite true p 0) (S754_finite false (Z.to_pos (10 ^ (- e))) 0)
  end.

(** [int64(f)] on amd64: a value that does not fit becomes the least integer. *)
Definition int64_of_float64 (f : float64) : Z :=
  match f with
  | S754_zero _ => 0
  | S754_finite s m e =>
      let z := if (0 <=? e)%Z then Z.pos m * 2 ^ e else Z.pos m / 2 ^ (- e) in
      let z := if s then - z else z in
      if in_int64 z then z else - 2 ^ 63
  | _ => - 2 ^ 63
  end%Z.

Definition float64_eqb (a b : float64) : bool :=
  match SFcompare a b with Some Eq => true | _ => false end.

(** ** Reading structs

    [json.Unmarshal] into a struct visits the members in order; a key selects the
    field it equals up to case.  A later member overwrites an earlier one, [null]
    leaves a value that is not a pointer, slice or map as it is, and a value of the
    wrong type makes the whole call fail. *)

Definition key_is (name : string) (m : string * json) : bool :=
  fold_case (unquote m.1) == fold_case name.

Definition members_of (name : string) (ms : list (string * json)) : list json :=
  map snd (List.filter (key_is name) ms).

(** A decoder takes the value the target holds. *)
Definition Decoder (A : Type) : Type := A → json → option A.

Definition field {A} (dec : Decoder A) (init : A) (name : string) (ms : list (string * json)) :
    option A :=
  fold_left (λ acc j, match acc with Some a => dec a j | None => None end)
    (members_of name ms) (Some init).

Definition dec_string : Decoder string := λ cur j,
  match j with JNull => Some cur | JString raw => Some (unquote raw) | _ => None end.

(** A [RawMessage] is kept without the white space between its tokens, which every later
    use of one drops or replaces.  *)
Definition dec_raw : Decoder RawMessage := λ _ j, Some (print j).

Definition dec_ptr {A} (zero : A) (dec : Decoder A) : Decoder (option A) := λ cur j,
  match j with
  | JNull => Some None
  | _ => option_map Some (dec (default zero cur) j)
  end.

Fixpoint dec_elems {A} (zero : A) (dec : Decoder A) (cur : list A) (l : list json) : option (list A) :=
  match l with
  | [] => Some []
  | j :: l =>
      match dec (List.hd zero cur) j, dec_elems zero dec (List.tl cur) l with
      | Some x, Some xs => Some (x :: xs)
      | _, _ => None
      end
  end.

(** A slice, [None] for the nil one. *)
Definition dec_slice {A} (zero : A) (dec : Decoder A) : Decoder (option (list A)) := λ cur j,
  match j with
  | JNull => Some None
  | JArray l => option_map Some (dec_elems zero dec (default [] cur) l)
  | _ => None
  end.

(** A struct: [null] changes nothing, anything but an object fails. *)
Definition dec_struct {A} (fields : A → list (string * json) → option A) : Decoder A := λ cur j,
  match j with
  | JNull => Some cur
  | JObject ms => fields cur ms
  | _ => None
  end.

(** [json.Unmarshal(raw, &v)] for a zero [v]; [None] is an error. *)
Definition Unmarshal {A} (dec : Decoder A) (zero : A) (raw : RawMessage) : option A :=
  match parse raw with Some j => dec zero j | None => None end.

(** [json.Marshal] of a [RawMessage] member; [None] when it is not valid JSON. *)
Definition marshal_raw (raw : RawMessage) : option json :=
  if raw == "" then Some JNull else option_map escape_json (parse raw).

Definition opt_JStr (o : option string) : json :=
  match o with Some s => JStr s | None => JNull end.

(** A JSON text written with apostrophes for its double quotes. *)
Definition jtext (s : string) : string :=
  map_string (λ c, if (code c =? 39)%N then byte_of 34 else c) s.

(** What [encoding/json] says of an input it rejects, for a target type: the text is
    not modelled. *)
Class JsonErrors := json_error_text : string → RawMessage → string.

(** ** Printing and scanning *)

Section JsonInd.
Variable P : json → Prop.
Hypotheses (Hnull : P JNull) (Hbool : ∀ b, P (JBool b)) (Hnum : ∀ lit, P (JNumber lit))
  (Hstr : ∀ raw, P (JString raw)) (Harr : ∀ l, Forall P l → P (JArray l))
  (Hobj : ∀ ms, Forall (λ m, P m.2) ms → P (JObject ms)).

Fixpoint json_induction (j : json) : P j :=
  match j with
  | JNull => Hnull
  | JBool b => Hbool b
  | JNumber lit => Hnum lit
  | JString raw => Hstr raw
  | JArray l => Harr l ((fix go (l : list json) : Forall P l :=
      match l with [] => Forall_nil_2 _ | x :: l => Forall_cons_2 _ x l (json_induction x) (go l) end) l)
  | JObject ms => Hobj ms ((fix go (ms : list (string * json)) : Forall (λ m, P m.2) ms :=
      match ms with
      | [] => Forall_nil_2 _
      | m :: ms => Forall_cons_2 _ m ms (json_induction m.2) (go ms)
      end) ms)
  end.
End JsonInd.

(** A literal as the scanner accepts it. *)
Definition wf_raw (raw : string) : Prop := scan_string (raw +:+ dq) = Some (raw, "").
Definition wf_number (lit : string) : Prop := scan_number lit = Some (lit, "").

Fixpoint wf (j : json) : Prop :=
  match j with
  | JNumber lit => wf_number lit
  | JString raw => wf_raw raw
  | JArray l => foldr (λ x P, wf x ∧ P) True l
  | JObject ms => foldr (λ m P, wf_raw m.1 ∧ wf m.2 ∧ P) True ms
  | _ => True
  end.

Lemma wf_array l : wf (JArray l) ↔ Forall wf l.
Proof. simpl. induction l; simpl; [done|]. by rewrite IHl, list.Forall_cons. Qed.

Lemma wf_object ms : wf (JObject ms) ↔ Forall (λ m, wf_raw m.1 ∧ wf m.2) ms.
Proof. simpl. induction ms; simpl; [done|]. rewrite IHms, list.Forall_cons. tauto. Qed.

(** Arrays and objects open at the deepest point. *)
Fixpoint depth (j : json) : N :=
  match j with
  | JArray l => 1 + foldr (λ x d, N.max (depth x) d) 0 l
  | JObject ms => 1 + foldr (λ m d, N.max (depth m.2) d) 0 ms
  | _ => 0
  end%N.

(** The fuel a value takes. *)
Fixpoint size (j : json) : nat :=
  match j with
  | JArray l => S (S (foldr (λ x n, S (size x + n)) 0 l))
  | JObject ms => S (S (foldr (λ m n, S (size m.2 + n)) 0 ms))
  | _ => 1
  end.

#[local] Arguments String.append : simpl nomatch.

(** *** String literals *)

(** One step of the scanner over a literal: the characters it takes. *)
Inductive literal : string → Prop :=
  | literal_nil : literal ""
  | literal_char c s : (code c =? 34)%N = false → (code c =? 92)%N = false →
      (code c <? 32)%N = false → literal s → literal (String c s)
  | literal_escape c e s : (code c =? 92)%N = true → is_escaped e = true →
      literal s → literal (String c (String e s))
  | literal_unicode c e h1 h2 h3 h4 s : (code c =? 92)%N = true → (code e =? 117)%N = true →
      is_hex h1 && is_hex h2 && is_hex h3 && is_hex h4 = true →
      literal s → literal (String c (String e (String h1 (String h2 (String h3 (String h4 s)))))).

Lemma is_escaped_u e : (code e =? 117)%N = true → is_escaped e = false.
Proof. intros H%N.eqb_eq. unfold is_escaped. by rewrite H. Qed.

Lemma code_34_92 c : (code c =? 92)%N = true → (code c =? 34)%N = false.
Proof. intros ->%N.eqb_eq. done. Qed.

Lemma scan_string_literal raw rest : literal raw → scan_string (raw +:+ dq +:+ rest) = Some (raw, rest).
Proof.
  induction 1 as [|c s H1 H2 H3 _ IH|c e s H1 H2 _ IH|c e h1 h2 h3 h4 s H1 H2 H3 _ IH].
  - reflexivity.
  - cbn [String.append scan_string]. by rewrite H1, H2, H3, IH.
  - cbn [String.append scan_string]. by rewrite (code_34_92 _ H1), H1, H2, IH.
  - cbn [String.append scan_string].
    by rewrite (code_34_92 _ H1), H1, (is_escaped_u _ H2), H2, H3, IH.
Qed.

Lemma scan_string_sound n s raw rest : String.length s ≤ n →
  scan_string s = Some (raw, rest) → literal raw ∧ s = raw +:+ dq +:+ rest.
Proof.
  revert s raw rest. induction n as [|n IH]; intros s raw rest Hn.
  { destruct s; [done|]. simpl in Hn. lia. }
  destruct s as [|c t]; [done|]. cbn [scan_string]. simpl in Hn.
  destruct (code c =? 34)%N eqn:E1.
  { intros [= <- <-]. split; [constructor|]. cbn. f_equal. apply N.eqb_eq in E1.
    unfold code in E1. rewrite <- (ascii_N_embedding c), E1. reflexivity. }
  destruct (code c =? 92)%N eqn:E2.
  - destruct t as [|e u]; [done|]. simpl in Hn. destruct (is_escaped e) eqn:E3.
    + destruct (scan_string u) as [[r1 r2]|] eqn:Eu; [|done]. intros [= <- <-].
      destruct (IH u r1 r2) as [Hl ->]; [lia|done|]. split; [by apply literal_escape|reflexivity].
    + destruct (code e =? 117)%N eqn:E4; [|done].
      destruct u as [|h1 [|h2 [|h3 [|h4 v]]]]; try done. simpl in Hn.
      destruct (_ && _) eqn:E5; [|done].
      destruct (scan_string v) as [[r1 r2]|] eqn:Eu; [|done]. intros [= <- <-].
      destruct (IH v r1 r2) as [Hl ->]; [lia|done|]. split; [by apply literal_unicode|reflexivity].
  - destruct (code c <? 32)%N eqn:E3; [done|].
    destruct (scan_string t) as [[r1 r2]|] eqn:Eu; [|done]. intros [= <- <-].
    destruct (IH t r1 r2) as [Hl ->]; [lia|done|]. split; [by apply literal_char|reflexivity].
Qed.

Lemma wf_raw_literal raw : wf_raw raw ↔ literal raw.
Proof.
  unfold wf_raw. split.
  - intros H. by apply (scan_string_sound _ _ _ _ (le_n _)) in H as [? _].
  - intros H. by apply (scan_string_literal raw "") in H.
Qed.

Lemma literal_app a b : literal a → literal b → literal (a +:+ b).
Proof.
  induction 1; intros; cbn;
    [done|by apply literal_char; auto|by apply literal_escape; auto|by apply literal_unicode; auto].
Qed.

(** *** Numbers *)

(** What may follow digits, an integer part, a whole number. *)
Definition no_digit (s : string) : Prop :=
  match s with EmptyString => True | String c _ => is_digit c = false end.
Definition no_frac (s : string) : Prop :=
  no_digit s ∧ match s with EmptyString => True | String c _ => (code c =? 46)%N = false end.
Definition delim (s : string) : Prop :=
  no_frac s ∧ match s with
    EmptyString => True | String c _ => ((code c =? 101) || (code c =? 69))%N = false end.

Lemma scan_digits_app s a r rest :
  scan_digits s = (a, r) → no_digit rest → scan_digits (s +:+ rest) = (a, r +:+ rest).
Proof.
  revert a. induction s as [|c s IH]; intros a; cbn [String.append scan_digits].
  - intros [= <- <-] Hd. destruct rest as [|c t]; [done|]. cbn in *. by rewrite Hd.
  - destruct (is_digit c); [|by intros [= <- <-]]. destruct (scan_digits s) as [b r'] eqn:E.
    intros [= <- ->] Hd. by rewrite (IH b).
Qed.

Lemma scan_digits_sound s a r : scan_digits s = (a, r) → s = a +:+ r ∧ scan_digits a = (a, "").
Proof.
  revert a r. induction s as [|d s IH]; intros a r; cbn [scan_digits]; [by intros [= <- <-]|].
  destruct (is_digit d) eqn:E; [|by intros [= <- <-]].
  destruct (scan_digits s) as [b r'] eqn:Es. intros [= <- <-]. destruct (IH b r') as [-> H]; [done|].
  split; [done|]. cbn. by rewrite E, H.
Qed.

Lemma scan_digits1_app s a r rest :
  scan_digits1 s = Some (a, r) → no_digit rest → scan_digits1 (s +:+ rest) = Some (a, r +:+ rest).
Proof.
  unfold scan_digits1. destruct (scan_digits s) as [b r'] eqn:E. destruct b as [|c b]; [done|].
  intros [= <- <-] H. by rewrite (scan_digits_app _ _ _ _ E H).
Qed.

Lemma scan_digits1_sound s a r :
  scan_digits1 s = Some (a, r) → s = a +:+ r ∧ scan_digits1 a = Some (a, "").
Proof.
  unfold scan_digits1. destruct (scan_digits s) as [b r'] eqn:E. destruct b as [|c b]; [done|].
  intros [= <- <-]. destruct (scan_digits_sound _ _ _ E) as [-> H]. by rewrite H.
Qed.

Lemma scan_int_app s a r rest :
  scan_int s = Some (a, r) → no_digit rest → scan_int (s +:+ rest) = Some (a, r +:+ rest).
Proof.
  destruct s as [|c s]; [done|]. cbn [String.append scan_int].
  destruct (_ =? _)%N; [by intros [= <- <-]|]. destruct (is_digit c); [|done].
  destruct (scan_digits s) as [b r'] eqn:E. intros [= <- <-] H.
  by rewrite (scan_digits_app _ _ _ _ E H).
Qed.

Lemma scan_int_sound s a r : scan_int s = Some (a, r) → s = a +:+ r ∧ scan_int a = Some (a, "").
Proof.
  destruct s as [|c s]; [done|]. cbn [scan_int].
  destruct (_ =? _)%N eqn:E0; [intros [= <- <-]; cbn; by rewrite E0|].
  destruct (is_digit c) eqn:E1; [|done]. destruct (scan_digits s) as [b r'] eqn:E. intros [= <- <-].
  destruct (scan_digits_sound _ _ _ E) as [-> H]. cbn. by rewrite E0, E1, H.
Qed.

Lemma scan_frac_app s a r rest :
  scan_frac s = Some (a, r) → no_frac rest → scan_frac (s +:+ rest) = Some (a, r +:+ rest).
Proof.
  intros H [Hd Hf]. destruct s as [|c s]; cbn [String.append scan_frac] in *.
  - injection H as <- <-. destruct rest; [done|]. cbn. by rewrite Hf.
  - destruct (_ =? _)%N; [|by injection H as <- <-].
    destruct (scan_digits1 s) as [[b r']|] eqn:E; [|done]. injection H as <- <-.
    by rewrite (scan_digits1_app _ _ _ _ E Hd).
Qed.

Lemma scan_frac_sound s a r :
  scan_frac s = Some (a, r) → s = a +:+ r ∧ scan_frac a = Some (a, "") ∧ no_digit a.
Proof.
  destruct s as [|c s]; cbn [scan_frac]; [by intros [= <- <-]|].
  destruct (_ =? _)%N eqn:E0; [|by intros [= <- <-]].
  destruct (scan_digits1 s) as [[b r']|] eqn:E; [|done]. intros [= <- <-].
  destruct (scan_digits1_sound _ _ _ E) as [-> H]. cbn. rewrite E0, H. repeat split.
  apply N.eqb_eq in E0. unfold is_digit. by rewrite E0.
Qed.

Lemma scan_exp_app s a r rest :
  scan_exp s = Some (a, r) → delim rest → scan_exp (s +:+ rest) = Some (a, r +:+ rest).
Proof.
  intros H [[Hd _] He]. destruct s as [|c s]; cbn [String.append scan_exp] in *.
  - injection H as <- <-. destruct rest; [done|]. cbn. by rewrite He.
  - destruct (_ || _); [|by injection H as <- <-].
    destruct s as [|d s]; [done|]. cbn [String.append]. destruct (_ || _).
    + destruct (scan_digits1 s) as [[b r']|] eqn:E; [|done]. injection H as <- <-.
      by rewrite (scan_digits1_app _ _ _ _ E Hd).
    + destruct (scan_digits1 (String d s)) as [[b r']|] eqn:E; [|done]. injection H as <- <-.
      change (String d (s +:+ rest)) with (String d s +:+ rest).
      by rewrite (scan_digits1_app _ _ _ _ E Hd).
Qed.

Lemma scan_exp_sound s a r :
  scan_exp s = Some (a, r) → s = a +:+ r ∧ scan_exp a = Some (a, "") ∧ no_frac a.
Proof.
  destruct s as [|c s]; cbn [scan_exp]; [by intros [= <- <-]|].
  destruct (_ || _) eqn:E0; [|by intros [= <- <-]]. destruct s as [|d s]; [done|].
  assert (∀ t, no_frac (String c t)) as Hn.
  { intros t. apply orb_true_iff in E0 as [H%N.eqb_eq|H%N.eqb_eq]; split; cbn; unfold is_digit;
      by rewrite H. }
  destruct ((code d =? 43)%N || (code d =? 45)%N) eqn:E1.
  - destruct (scan_digits1 s) as [[b r']|] eqn:E; [|done]. intros [= <- <-].
    destruct (scan_digits1_sound _ _ _ E) as [-> H].
    split; [done|]. split; [|apply Hn]. cbn [fst snd cons_fst scan_exp]. by rewrite E0, E1, H.
  - destruct (scan_digits1 (String d s)) as [[b r']|] eqn:E; [|done]. intros [= <- <-].
    destruct (scan_digits1_sound _ _ _ E) as [Hs H]. destruct b as [|d' b].
    { by unfold scan_digits1 in H. }
    injection Hs as <- ->. split; [done|]. split; [|apply Hn].
    cbn [fst snd cons_fst scan_exp]. by rewrite E0, E1, H.
Qed.

Lemma no_digit_app a b : no_digit a → no_digit b → no_digit (a +:+ b).
Proof. by destruct a. Qed.

Lemma scan_unsigned_app s a r rest :
  scan_unsigned s = Some (a, r) → delim rest → scan_unsigned (s +:+ rest) = Some (a, r +:+ rest).
Proof.
  unfold scan_unsigned. intros H Hd. destruct (scan_int s) as [[x s1]|] eqn:E1; [|done].
  rewrite (scan_int_app _ _ _ rest E1) by apply Hd.
  destruct (scan_frac s1) as [[y s2]|] eqn:E2; [|done].
  rewrite (scan_frac_app _ _ _ rest E2) by apply Hd.
  destruct (scan_exp s2) as [[z s3]|] eqn:E3; [|done].
  rewrite (scan_exp_app _ _ _ rest E3) by apply Hd. by injection H as <- <-.
Qed.

Lemma scan_unsigned_sound s a r :
  scan_unsigned s = Some (a, r) → s = a +:+ r ∧ scan_unsigned a = Some (a, "").
Proof.
  unfold scan_unsigned. intros H. destruct (scan_int s) as [[x s1]|] eqn:E1; [|done].
  destruct (scan_frac s1) as [[y s2]|] eqn:E2; [|done].
  destruct (scan_exp s2) as [[z s3]|] eqn:E3; [|done]. injection H as <- <-.
  destruct (scan_int_sound _ _ _ E1) as (-> & Hx).
  destruct (scan_frac_sound _ _ _ E2) as (-> & Hy & Hyd).
  destruct (scan_exp_sound _ _ _ E3) as (-> & Hz & Hzd). split; [by rewrite !append_assoc_str|].
  rewrite (scan_int_app _ _ _ (y +:+ z) Hx) by (apply no_digit_app; [done|apply Hzd]).
  cbn [String.append]. rewrite (scan_frac_app _ _ _ z Hy) by done. cbn [String.append].
  by rewrite Hz.
Qed.

Lemma scan_number_app s a r rest :
  scan_number s = Some (a, r) → delim rest → scan_number (s +:+ rest) = Some (a, r +:+ rest).
Proof.
  destruct s as [|c s]; [done|]. cbn [String.append scan_number]. destruct (_ =? _)%N.
  - destruct (scan_unsigned s) as [[b r']|] eqn:E; [|done]. intros [= <- <-] H.
    by rewrite (scan_unsigned_app _ _ _ _ E H).
  - intros E H. by apply (scan_unsigned_app (String c s)).
Qed.

Lemma scan_number_sound s a r : scan_number s = Some (a, r) → s = a +:+ r ∧ wf_number a.
Proof.
  unfold wf_number. destruct s as [|c s]; [done|]. cbn [scan_number]. destruct (_ =? _)%N eqn:E0.
  - destruct (scan_unsigned s) as [[b r']|] eqn:E; [|done]. intros [= <- <-].
    destruct (scan_unsigned_sound _ _ _ E) as [-> H]. split; [done|]. cbn. by rewrite E0, H.
  - intros E. destruct (scan_unsigned_sound _ _ _ E) as [Hs H]. split; [done|].
    destruct a as [|d a]; [done|]. injection Hs as <- ->. cbn [scan_number]. by rewrite E0.
Qed.

(** *** Values *)

Lemma skip_ws_char c s : is_ws c = false → skip_ws (String c s) = String c s.
Proof. intros H. cbn. by rewrite H. Qed.

Lemma is_char_hit n c s : code c = n → is_char n (String c s) = Some s.
Proof. intros <-. cbn. by rewrite N.eqb_refl. Qed.

(** The first character of a value tells which kind it is. *)
Lemma wf_number_head lit : wf_number lit →
  ∃ c t, lit = String c t ∧ (is_digit c = true ∨ code c = 45%N).
Proof.
  unfold wf_number. destruct lit as [|c t]; [done|]. cbn. intros H. exists c, t. split; [done|].
  destruct (code c =? 45)%N eqn:E; [right; by apply N.eqb_eq|]. left.
  unfold scan_unsigned in H. cbn in H. destruct (code c =? 48)%N eqn:E0.
  - apply N.eqb_eq in E0. unfold is_digit. by rewrite E0.
  - by destruct (is_digit c).
Qed.

(** A value neither starts with a space nor closes an array. *)
Definition value_head (s : string) : Prop :=
  match s with EmptyString => False | String c _ => is_ws c = false ∧ (code c =? 93)%N = false end.

Lemma digit_range c : is_digit c = true ∨ code c = 45%N → (45 <= code c <= 57)%N.
Proof.
  unfold is_digit, in_range. intros [H|H]; [|lia]. breflect. lia.
Qed.

Lemma print_head j rest : wf j → value_head (print j +:+ rest).
Proof.
  destruct j as [|[]| | | |]; try done. cbn [wf print]. intros (c & t & -> & Hc)%wf_number_head.
  apply digit_range in Hc. cbn. unfold is_ws. split; [|apply N.eqb_neq; lia].
  repeat (apply orb_false_iff; split); apply N.eqb_neq; lia.
Qed.

Lemma value_head_skip s : value_head s → skip_ws s = s.
Proof. destruct s as [|c s]; [done|]. intros [H _]. by apply skip_ws_char. Qed.

Lemma value_head_char s : value_head s → is_char 93 s = None.
Proof. destruct s as [|c s]; [done|]. intros [_ H]. cbn. by rewrite H. Qed.

Lemma CutPrefix_head p c s : (∀ d q, p = String d q → d ≠ c) → p ≠ "" → CutPrefix p (String c s) = None.
Proof.
  intros H Hp. destruct p as [|d q]; [done|]. unfold CutPrefix.
  destruct (Ascii.eqb_spec d c); [by destruct (H d q eq_refl)|done].
Qed.

(** A printed value is read back, whatever delimiter follows. *)
Definition reads (j : json) : Prop := ∀ fuel d rest,
  wf j → (d + depth j <= maxNestingDepth)%N → size j ≤ fuel → delim rest →
  scan_value fuel d (print j +:+ rest) = Some (j, rest).

Lemma reads_number lit : reads (JNumber lit).
Proof.
  intros [|fuel] d rest Hwf _ Hf Hr; [simpl in Hf; lia|]. cbn [wf print] in *.
  pose proof (scan_number_app _ _ _ rest Hwf Hr) as E. cbn [String.append] in E.
  destruct (wf_number_head _ Hwf) as (c & t & -> & Hc%digit_range).
  cbn [String.append] in *. cbn [scan_value is_char].
  replace (code c =? 123)%N with false by (symmetry; apply N.eqb_neq; lia).
  replace (code c =? 91)%N with false by (symmetry; apply N.eqb_neq; lia).
  replace (code c =? 34)%N with false by (symmetry; apply N.eqb_neq; lia).
  rewrite !CutPrefix_head, E; try done; intros x q [= <- <-] <-; unfold code in Hc; simpl in Hc; lia.
Qed.

Lemma reads_array l : Forall reads l → reads (JArray l).
Proof.
  intros Hl [|[|fuel]] d rest Hwf Hd Hf Hr; [simpl in Hf; lia..|].
  rewrite wf_array in Hwf. cbn [depth size] in Hd, Hf. cbn [print].
  assert (Hx : (maxNestingDepth <=? d)%N = false) by (apply N.leb_gt; lia).
  destruct l as [|x l].
  { cbn. by rewrite Hx. }
  assert (∀ l x fuel, Forall reads (x :: l) → Forall wf (x :: l) →
    (d + 1 + foldr (λ x d, N.max (depth x) d) 0 (x :: l) <= maxNestingDepth)%N →
    foldr (λ x n, S (size x + n)) 0 (x :: l) ≤ fuel →
    scan_elems fuel (d + 1) (Join (map print (x :: l)) "," +:+ "]" +:+ rest) = Some (x :: l, rest)) as Hgo.
  { clear -Hr. induction l as [|y l IH]; intros x [|fuel] Hl Hwf Hd Hf; try (simpl in Hf; lia).
    - cbn [map Join String.concat scan_elems]. apply list.Forall_cons in Hl as [Hx _].
      apply list.Forall_cons in Hwf as [Hwx _]. simpl in Hd, Hf.
      rewrite Hx; [reflexivity|done|lia|lia|by repeat split].
    - apply list.Forall_cons in Hl as [Hx Hl], Hwf as [Hwx Hwf]. cbn [foldr] in Hd, Hf.
      change (Join (map print (x :: y :: l)) ",") with (print x +:+ "," +:+ Join (map print (y :: l)) ",").
      rewrite !append_assoc_str. cbn [scan_elems].
      rewrite Hx; [|done|lia|lia|by repeat split]. cbn [String.append skip_ws is_char].
      change (is_ws ",") with false. cbn [is_char]. change (code "," =? 44)%N with true. cbv iota.
      assert (Hh : value_head (Join (map print (y :: l)) "," +:+ "]" +:+ rest)).
      { apply list.Forall_cons in Hwf as [Hwy _]. destruct l; [by apply print_head|].
        change (Join (map print (y :: j :: l)) ",") with (print y +:+ "," +:+ Join (map print (j :: l)) ",").
        rewrite append_assoc_str. by apply print_head. }
      cbn [String.append] in *.
      rewrite (value_head_skip _ Hh), IH; [done|done|done|cbn [foldr]; lia|cbn [foldr]; lia]. }
  assert (Hh : value_head (Join (map print (x :: l)) "," +:+ "]" +:+ rest)).
  { apply list.Forall_cons in Hwf as [Hwx _]. destruct l; [by apply print_head|].
    change (Join (map print (x :: j :: l)) ",") with (print x +:+ "," +:+ Join (map print (j :: l)) ",").
    rewrite append_assoc_str. by apply print_head. }
  rewrite !append_assoc_str. cbn [String.append] in *. cbn [scan_value is_char].
  change (code "[" =? 123)%N with false. change (code "[" =? 91)%N with true. cbv iota.
  rewrite Hx, (value_head_skip _ Hh), (value_head_char _ Hh), Hgo; [done|done|done|lia|lia].
Qed.

Lemma is_char_dq n s : is_char n (dq +:+ s) = if (34 =? n)%N then Some s else None.
Proof. reflexivity. Qed.

Lemma reads_object ms : Forall (λ m, reads m.2) ms → reads (JObject ms).
Proof.
  intros Hl [|[|fuel]] d rest Hwf Hd Hf Hr; [simpl in Hf; lia..|].
  rewrite wf_object in Hwf. cbn [depth size] in Hd, Hf. cbn [print].
  assert (Hx : (maxNestingDepth <=? d)%N = false) by (apply N.leb_gt; lia).
  destruct ms as [|[k x] ms].
  { cbn. by rewrite Hx. }
  set (pm := λ m : string * json, dq +:+ m.1 +:+ dq +:+ ":" +:+ print m.2).
  assert (∀ ms k x fuel, Forall (λ m, reads m.2) ((k, x) :: ms) →
    Forall (λ m, wf_raw m.1 ∧ wf m.2) ((k, x) :: ms) →
    (d + 1 + foldr (λ m d, N.max (depth m.2) d) 0 ((k, x) :: ms) <= maxNestingDepth)%N →
    foldr (λ m n, S (size m.2 + n)) 0 ((k, x) :: ms) ≤ fuel →
    scan_members fuel (d + 1) (Join (map pm ((k, x) :: ms)) "," +:+ "}" +:+ rest)
      = Some ((k, x) :: ms, rest)) as Hgo.
  { clear -Hr. induction ms as [|[k' y] ms IH]; intros k x [|fuel] Hl Hwf Hd Hf; try (simpl in Hf; lia).
    - cbn [map Join String.concat]. unfold pm; cbn [fst snd]. apply list.Forall_cons in Hl as [Hx _].
      apply list.Forall_cons in Hwf as [[Hk Hwx] _]. simpl in Hd, Hf.
      rewrite !append_assoc_str. cbn [String.append scan_members].
      rewrite is_char_dq. cbn [N.eqb Pos.eqb]. apply wf_raw_literal in Hk.
      rewrite (scan_string_literal k _ Hk). cbn [String.append skip_ws].
      change (is_ws ":") with false. cbv iota. rewrite (is_char_hit 58) by done.
      rewrite value_head_skip by by apply print_head.
      rewrite Hx; [reflexivity|done|simpl; lia|simpl; lia|by repeat split].
    - apply list.Forall_cons in Hl as [Hx Hl], Hwf as [[Hk Hwx] Hwf]. cbn [foldr fst snd] in Hd, Hf, Hk, Hwx, Hx.
      change (Join (map pm ((k, x) :: (k', y) :: ms)) ",")
        with (pm (k, x) +:+ "," +:+ Join (map pm ((k', y) :: ms)) ",").
      unfold pm at 1; cbn [fst snd]. rewrite !append_assoc_str. cbn [String.append scan_members].
      rewrite is_char_dq. cbn [N.eqb Pos.eqb]. apply wf_raw_literal in Hk.
      rewrite (scan_string_literal k _ Hk). cbn [String.append skip_ws].
      change (is_ws ":") with false. cbv iota. rewrite (is_char_hit 58) by done.
      rewrite value_head_skip by by apply print_head.
      rewrite Hx; [|done|lia|lia|by repeat split]. cbn [String.append skip_ws is_char].
      change (is_ws ",") with false. cbn [is_char]. change (code "," =? 44)%N with true. cbv iota.
      assert (Hh : ∃ t, Join (map pm ((k', y) :: ms)) "," +:+ "}" +:+ rest = dq +:+ t)
        by (destruct ms; by eexists).
      rewrite value_head_skip by (destruct Hh as [t Hh]; cbn [String.append] in *; by rewrite Hh).
      cbn [String.append] in *. rewrite IH; [done|done|done|cbn [foldr snd]; lia|cbn [foldr snd]; lia]. }
  assert (Hh : ∃ t, Join (map pm ((k, x) :: ms)) "," +:+ "}" +:+ rest = dq +:+ t)
    by (destruct ms; by eexists).
  rewrite !append_assoc_str. cbn [String.append] in *. cbn [scan_value is_char].
  change (code "{" =? 123)%N with true. cbv iota. rewrite Hx.
  rewrite value_head_skip by (destruct Hh as [t ->]; done).
  replace (is_char 125 _) with (@None string) by (destruct Hh as [t ->]; done).
  rewrite Hgo; [done|done|done|cbn [foldr snd] in *; lia|cbn [foldr snd] in *; lia].
Qed.

Lemma reads_all j : reads j.
Proof.
  induction j as [|b|lit|raw|l IH|ms IH] using json_induction.
  - intros [|f] d rest ? ? ? ?; [simpl in *; lia|reflexivity].
  - intros [|f] d rest ? ? ? ?; [simpl in *; lia|]. by destruct b.
  - apply reads_number.
  - intros [|f] d rest Hwf ? ? ?; [simpl in *; lia|]. cbn [print wf] in *.
    rewrite !append_assoc_str. cbn [scan_value]. rewrite !is_char_dq. cbn [N.eqb Pos.eqb].
    apply wf_raw_literal in Hwf. by rewrite (scan_string_literal raw rest Hwf).
  - by apply reads_array.
  - by apply reads_object.
Qed.

Lemma size_print j : wf j → size j ≤ 2 * String.length (print j).
Proof.
  induction j as [|b|lit|raw|l IH|ms IH] using json_induction; intros Hwf; cbn [print size].
  - simpl; lia.
  - destruct b; simpl; lia.
  - destruct (wf_number_head _ Hwf) as (c & t & -> & _). simpl; lia.
  - simpl. lia.
  - rewrite wf_array in Hwf. rewrite !length_append. cbn [String.length].
    enough (foldr (λ x n, S (size x + n)) 0 l ≤ 2 * String.length (Join (map print l) ",") + 2) by lia.
    induction l as [|x [|y l] IHl]; cbn [foldr]; [lia|..].
    + apply list.Forall_cons in IH as [Hx _], Hwf as [Hwx _]. specialize (Hx Hwx). cbn. lia.
    + apply list.Forall_cons in IH as [Hx IH], Hwf as [Hwx Hwf]. specialize (Hx Hwx).
      change (Join (map print (x :: y :: l)) ",") with (print x +:+ "," +:+ Join (map print (y :: l)) ",").
      rewrite !length_append. cbn [String.length]. specialize (IHl IH Hwf). cbn [foldr] in IHl. lia.
  - rewrite wf_object in Hwf. rewrite !length_append. cbn [String.length].
    set (pm := λ m : string * json, dq +:+ m.1 +:+ dq +:+ ":" +:+ print m.2).
    enough (foldr (λ m n, S (size m.2 + n)) 0 ms ≤ 2 * String.length (Join (map pm ms) ",") + 2) by lia.
    induction ms as [|x [|y l] IHl]; cbn [foldr]; [lia|..].
    + apply list.Forall_cons in IH as [Hx _], Hwf as [[_ Hwx] _]. specialize (Hx Hwx).
      change (Join (map pm [x]) ",") with (pm x). unfold pm. rewrite !length_append. lia.
    + apply list.Forall_cons in IH as [Hx IH], Hwf as [[_ Hwx] Hwf]. specialize (Hx Hwx).
      change (Join (map pm (x :: y :: l)) ",") with (pm x +:+ "," +:+ Join (map pm (y :: l)) ",").
      unfold pm at 1. rewrite !length_append. cbn [String.length]. specialize (IHl IH Hwf).
      cbn [foldr] in IHl. lia.
Qed.

(** Scanning what was printed gives the tree back. *)
Lemma parse_print j : wf j → (depth j <= maxNestingDepth)%N → parse (print j) = Some j.
Proof.
  intros Hwf Hd. unfold parse. pose proof (print_head j "" Hwf) as Hh. rewrite append_empty_r in Hh.
  rewrite (value_head_skip _ Hh).
  pose proof (reads_all j (S (2 * String.length (print j))) 0%N "" Hwf Hd) as E.
  rewrite append_empty_r in E. rewrite E; [done| |by repeat split].
  pose proof (size_print j Hwf). lia.
Qed.

(** What the scanner accepts is well formed. *)
Lemma scan_sound fuel :
  (∀ d s j r, scan_value fuel d s = Some (j, r) →
     wf j ∧ (d + depth j <= N.max d maxNestingDepth)%N) ∧
  (∀ d s ms r, scan_members fuel d s = Some (ms, r) → (d <= maxNestingDepth)%N →
     Forall (λ m, wf_raw m.1 ∧ wf m.2) ms
     ∧ (d + foldr (λ m d, N.max (depth m.2) d) 0 ms <= maxNestingDepth)%N) ∧
  (∀ d s l r, scan_elems fuel d s = Some (l, r) → (d <= maxNestingDepth)%N →
     Forall wf l ∧ (d + foldr (λ x d, N.max (depth x) d) 0 l <= maxNestingDepth)%N).
Proof.
  induction fuel as [|fuel (IHv & IHm & IHe)]; [done|]. split; [|split].
  - intros d s j r. cbn [scan_value].
    destruct (is_char 123 s) as [t|].
    { destruct (maxNestingDepth <=? d)%N eqn:Hd; [done|]. apply N.leb_gt in Hd.
      destruct (is_char 125 _); [intros [= <- <-]; split; [done|cbn [depth foldr]; lia]|].
      destruct (scan_members _ _ _) as [[ms r']|] eqn:E; [|done]. intros [= <- <-].
      apply IHm in E as [H1 H2]; [|lia]. rewrite wf_object. split; [done|]. cbn [depth]. lia. }
    destruct (is_char 91 s) as [t|].
    { destruct (maxNestingDepth <=? d)%N eqn:Hd; [done|]. apply N.leb_gt in Hd.
      destruct (is_char 93 _); [intros [= <- <-]; split; [done|cbn [depth foldr]; lia]|].
      destruct (scan_elems _ _ _) as [[l r']|] eqn:E; [|done]. intros [= <- <-].
      apply IHe in E as [H1 H2]; [|lia]. rewrite wf_array. split; [done|]. cbn [depth]. lia. }
    destruct (is_char 34 s) as [t|].
    { destruct (scan_string t) as [[a b]|] eqn:E; [|done]. intros [= <- <-].
      apply (scan_string_sound _ _ _ _ (le_n _)) in E as [E _]. split; [by apply wf_raw_literal|].
      cbn [depth]. lia. }
    destruct (CutPrefix "null" s); [intros [= <- <-]; split; [done|cbn [depth]; lia]|].
    destruct (CutPrefix "true" s); [intros [= <- <-]; split; [done|cbn [depth]; lia]|].
    destruct (CutPrefix "false" s); [intros [= <- <-]; split; [done|cbn [depth]; lia]|].
    destruct (scan_number s) as [[a b]|] eqn:E; [|done]. intros [= <- <-].
    apply scan_number_sound in E as [_ E]. split; [done|cbn [depth]; lia].
  - intros d s ms r. cbn [scan_members]. destruct (is_char 34 s) as [t|]; [|done].
    destruct (scan_string t) as [[k r1]|] eqn:Ek; [|done].
    apply (scan_string_sound _ _ _ _ (le_n _)) in Ek as [Ek _]. apply wf_raw_literal in Ek.
    destruct (is_char 58 _) as [r2|]; [|done].
    destruct (scan_value _ _ _) as [[v r3]|] eqn:Ev; [|done]. apply IHv in Ev as [Hv Hdv].
    destruct (is_char 44 _) as [r4|].
    + destruct (scan_members _ _ _) as [[ms' r5]|] eqn:E; [|done]. intros [= <- <-] Hd.
      apply IHm in E as [H1 H2]; [|done]. split; [by apply list.Forall_cons|]. cbn [foldr snd]. lia.
    + destruct (is_char 125 _) as [r4|]; [|done]. intros [= <- <-] Hd.
      split; [by apply list.Forall_singleton|]. cbn [foldr snd]. lia.
  - intros d s l r. cbn [scan_elems].
    destruct (scan_value _ _ _) as [[v r1]|] eqn:Ev; [|done]. apply IHv in Ev as [Hv Hdv].
    destruct (is_char 44 _) as [r4|].
    + destruct (scan_elems _ _ _) as [[l' r5]|] eqn:E; [|done]. intros [= <- <-] Hd.
      apply IHe in E as [H1 H2]; [|done]. split; [by apply list.Forall_cons|]. cbn [foldr]. lia.
    + destruct (is_char 93 _) as [r4|]; [|done]. intros [= <- <-] Hd.
      split; [by apply list.Forall_singleton|]. cbn [foldr]. lia.
Qed.

Lemma parse_wf s j : parse s = Some j → wf j ∧ (depth j <= maxNestingDepth)%N.
Proof.
  unfold parse. destruct (scan_value _ _ _) as [[j' r]|] eqn:E; [|done].
  destruct (skip_ws r); [|done]. intros [= <-]. apply scan_sound in E as [H1 H2]. split; [done|lia].
Qed.

(** *** Marshalled trees *)

Lemma escape_html_plain a t :
  ((code a =? 60) || (code a =? 62) || (code a =? 38) || (code a =? 226))%N = false →
  escape_html (String a t) = String a (escape_html t).
Proof.
  intros H. apply orb_false_iff in H as [H1 H2]. cbn [escape_html]. rewrite H1.
  destruct t as [|b [|c u]]; try done. by rewrite H2.
Qed.

Lemma literal_hex c :
  ((code c =? 60) || (code c =? 62) || (code c =? 38))%N = true →
  literal (escape ("u00" +:+ hex_digits 2 (code c))).
Proof.
  intros H. apply wf_raw_literal. unfold wf_raw.
  repeat (apply orb_true_iff in H as [H|H]); apply N.eqb_eq in H; rewrite H; reflexivity.
Qed.

Lemma is_hex_plain c : is_hex c = true →
  ((code c =? 60) || (code c =? 62) || (code c =? 38) || (code c =? 226))%N = false.
Proof.
  unfold is_hex, is_digit, in_range. intros H.
  destruct (_ || _) eqn:E in |- *; [|done]. exfalso.
  repeat (apply orb_true_iff in E as [E|E]); apply N.eqb_eq in E; by rewrite E in H.
Qed.

Lemma is_escaped_plain c : is_escaped c = true →
  ((code c =? 60) || (code c =? 62) || (code c =? 38) || (code c =? 226))%N = false.
Proof.
  unfold is_escaped. intros H.
  destruct (_ || _) eqn:E in |- *; [|done]. exfalso.
  repeat (apply orb_true_iff in E as [E|E]); apply N.eqb_eq in E; by rewrite E in H.
Qed.

Lemma code_plain n c : code c = n →
  ((n =? 60) || (n =? 62) || (n =? 38) || (n =? 226))%N = false →
  ((code c =? 60) || (code c =? 62) || (code c =? 38) || (code c =? 226))%N = false.
Proof. by intros ->. Qed.

Lemma literal_char_inv c s :
  literal (String c s) → (code c =? 92)%N = false → literal s.
Proof. intros H. inversion H; subst; [done|congruence|congruence]. Qed.

(** Escaping what HTML could misread keeps a literal well formed. *)
Lemma literal_escape_html n raw : String.length raw ≤ n → literal raw → literal (escape_html raw).
Proof.
  revert raw. induction n as [|n IH]; intros raw Hn Hl.
  { destruct raw; [constructor|simpl in Hn; lia]. }
  destruct Hl as [|a t H1 H2 H3 Hl|a e t H1 H2 Hl|a e h1 h2 h3 h4 t H1 H2 H3 Hl]; [constructor|..];
    cbn [String.length] in Hn.
  - cbn [escape_html]. destruct (_ || _) eqn:E.
    { apply literal_app; [by apply literal_hex|]. apply IH; [lia|done]. }
    assert (Hplain : literal (String a (escape_html t)))
      by (apply literal_char; [done..|]; apply IH; [lia|done]).
    destruct t as [|b [|c u]]; [done..|]. destruct (_ && _) eqn:E2; [|done].
    apply andb_true_iff in E2 as [E2 Hc]. apply andb_true_iff in E2 as [_ Hb]. apply N.eqb_eq in Hb.
    unfold in_range in Hc. breflect.
    apply literal_char_inv in Hl; [|by rewrite Hb].
    apply literal_char_inv in Hl; [|apply N.eqb_neq; lia].
    apply literal_app; [|apply IH; [simpl in *; lia|done]].
    assert (code c = 168 ∨ code c = 169)%N as [-> | ->] by lia; by apply wf_raw_literal.
  - apply N.eqb_eq in H1. rewrite (escape_html_plain a) by (by apply (code_plain 92)).
    rewrite escape_html_plain by by apply is_escaped_plain.
    apply literal_escape; [by rewrite H1|done|apply IH; [lia|done]].
  - apply N.eqb_eq in H1, H2. rewrite (escape_html_plain a) by (by apply (code_plain 92)).
    rewrite (escape_html_plain e) by (by apply (code_plain 117)).
    repeat rewrite andb_true_iff in H3. destruct H3 as [[[Ha Hb] Hc] Hd].
    rewrite !escape_html_plain by by apply is_hex_plain.
    apply literal_unicode; [by rewrite H1|by rewrite H2|by rewrite Ha, Hb, Hc, Hd|apply IH; [lia|done]].
Qed.

Lemma wf_raw_escape raw : wf_raw raw → wf_raw (escape_html raw).
Proof. rewrite !wf_raw_literal. by apply (literal_escape_html _ _ (le_n _)). Qed.

Lemma wf_escape_json j : wf j → wf (escape_json j) ∧ depth (escape_json j) = depth j.
Proof.
  induction j as [|b|lit|raw|l IH|ms IH] using json_induction; intros Hwf; cbn [escape_json]; try done.
  - split; [by apply wf_raw_escape|done].
  - rewrite wf_array in *. cbn [depth]. split.
    + apply list.Forall_fmap. rewrite list.Forall_forall in *. intros x Hx. by apply IH, Hwf.
    + f_equal. induction l as [|x l IHl]; [done|]. apply list.Forall_cons in IH as [Hx IH], Hwf as [Hwx Hwf].
      cbn [map foldr]. rewrite IHl by done. by rewrite (proj2 (Hx Hwx)).
  - rewrite wf_object in *. cbn [depth]. split.
    + apply list.Forall_fmap. rewrite list.Forall_forall in *. intros m Hm.
      split; [by apply wf_raw_escape, Hwf|by apply IH, Hwf].
    + f_equal. induction ms as [|[k x] l IHl]; [done|].
      apply list.Forall_cons in IH as [Hx IH], Hwf as [[_ Hwx] Hwf].
      cbn [map foldr]. rewrite IHl by done. cbn [snd] in *. by rewrite (proj2 (Hx Hwx)).
Qed.

(** *** Go strings through JSON *)

(** A string of whole runes. *)
Inductive valid_utf8 : string → Prop :=
  | utf8_nil : valid_utf8 ""
  | utf8_ascii c s : (code c <? 128)%N = true → valid_utf8 s → valid_utf8 (String c s)
  | utf8_rune s r bytes rest : (∀ c t, s = String c t → (code c <? 128)%N = false) →
      decode_rune s = Some (r, bytes, rest) → valid_utf8 rest → valid_utf8 s.

Lemma decode_rune_split s r bytes rest :
  decode_rune s = Some (r, bytes, rest) → s = bytes +:+ rest ∧ String.length rest < String.length s.
Proof.
  intros H. destruct s as [|a [|b u]]; try done. cbn [decode_rune] in H.
  destruct (_ && _); [injection H as <- <- <-; split; [done|simpl; lia]|].
  destruct u as [|c v]; [done|].
  destruct (_ && _); [injection H as <- <- <-; split; [done|simpl; lia]|].
  destruct v as [|d w]; [done|].
  destruct (_ && _); [|done]. injection H as <- <- <-. split; [done|simpl; lia].
Qed.

Ltac all_bytes c := destruct c as [[] [] [] [] [] [] [] []].

Lemma json_ascii_literal c : (code c <? 128)%N = true → literal (json_ascii c).
Proof. intros H. apply wf_raw_literal. all_bytes c; solve [discriminate H|reflexivity]. Qed.

Lemma json_ascii_unquote c f rest : (code c <? 128)%N = true →
  unquote_body (S f) (json_ascii c +:+ rest) = String c (unquote_body f rest).
Proof. intros H. all_bytes c; solve [discriminate H|reflexivity]. Qed.

Lemma json_ascii_length c : (code c <? 128)%N = true → 1 ≤ String.length (json_ascii c).
Proof. intros H. all_bytes c; solve [discriminate H|apply le_n_S, Nat.le_0_l]. Qed.

Lemma literal_high c s : (128 <=? code c)%N = true → literal s → literal (String c s).
Proof.
  intros H%N.leb_le Hs. apply literal_char; [apply N.eqb_neq; lia|apply N.eqb_neq; lia|apply N.ltb_ge; lia|done].
Qed.

Lemma cont_high c : cont c = true → (128 <=? code c)%N = true.
Proof. unfold cont, in_range. intros. breflect. by apply N.leb_le. Qed.

(** The bytes of a decoded rune, and the decoding of the same bytes before another
    rest. *)
Lemma decode_rune_bytes s r bytes rest :
  decode_rune s = Some (r, bytes, rest) →
  literal bytes ∧ (∀ t, decode_rune (bytes +:+ t) = Some (r, bytes, t)) ∧
  ∃ a b, bytes = String a b ∧ (128 <=? code a)%N = true.
Proof.
  intros H. destruct s as [|a [|b u]]; try done. cbn [decode_rune] in H.
  assert (Hlead : ∀ lo hi, in_range lo hi (code a) = true → (128 <= lo)%N → (128 <=? code a)%N = true).
  { intros lo hi Hr Hlo. unfold in_range in Hr. breflect. apply N.leb_le. lia. }
  destruct (in_range 194 223 (code a) && cont b) eqn:E1.
  { injection H as <- <- <-. pose proof E1 as [Ha Hb]%andb_true_iff.
    apply Hlead in Ha; [|done]. apply cont_high in Hb.
    split; [by repeat apply literal_high; [..|constructor]|]. split; [|by do 2 eexists].
    intros t. cbn [String.append decode_rune]. by rewrite E1. }
  destruct u as [|c v]; [done|].
  destruct (in_range 224 239 (code a) && cont b && cont c && _ && _) eqn:E2 in H.
  { injection H as <- <- <-. pose proof E2 as E3. repeat rewrite andb_true_iff in E3.
    destruct E3 as [[[[Ha Hb%cont_high] Hc%cont_high] _] _]. apply Hlead in Ha; [|done].
    split; [by repeat apply literal_high; [..|constructor]|]. split; [|by do 2 eexists].
    intros t. cbn [String.append decode_rune]. by rewrite E1, E2. }
  destruct v as [|d w]; [done|].
  destruct (in_range 240 244 (code a) && cont b && cont c && cont d && _ && _) eqn:E3 in H; [|done].
  injection H as <- <- <-. pose proof E3 as E4. repeat rewrite andb_true_iff in E4.
  destruct E4 as [[[[[Ha Hb%cont_high] Hc%cont_high] Hd%cont_high] _] _]. apply Hlead in Ha; [|done].
  split; [by repeat apply literal_high; [..|constructor]|]. split; [|by do 2 eexists].
  intros t. cbn [String.append decode_rune]. by rewrite E1, E2, E3.
Qed.

(** The two runes JSON escapes beyond ASCII have one encoding each. *)
Lemma decode_rune_separator s r bytes rest :
  decode_rune s = Some (r, bytes, rest) → ((r =? 8232) || (r =? 8233))%N = true →
  bytes = encode_rune r.
Proof.
  intros H Hr. assert (Hr' : r = 8232%N ∨ r = 8233%N) by (apply orb_true_iff in Hr as [Hr|Hr]; apply N.eqb_eq in Hr; auto).
  destruct s as [|a [|b u]]; try done. cbn [decode_rune] in H.
  unfold low6, cont, in_range in H.
  destruct (_ && _) eqn:E1 in H.
  { injection H as <- <- <-. breflect. lia. }
  clear E1. destruct u as [|c v]; [done|]. destruct (_ && _) eqn:E2 in H.
  { injection H as <- <- <-. repeat rewrite andb_true_iff in E2.
    destruct E2 as [[[[[Ha Ha'] [Hb Hb']] [Hc Hc']] _] _].
    apply N.leb_le in Ha, Ha', Hb, Hb', Hc, Hc'. unfold code in *.
    assert (N_of_ascii a = 226%N) as Ea by lia. assert (N_of_ascii b = 128%N) as Eb by lia.
    assert (N_of_ascii c = 168%N ∨ N_of_ascii c = 169%N) as Ec by lia.
    rewrite <- (ascii_N_embedding a), <- (ascii_N_embedding b), <- (ascii_N_embedding c), Ea, Eb.
    by destruct Ec as [-> | ->]. }
  destruct v as [|d w]; [done|]. destruct (_ && _) eqn:E3 in H; [|done].
  injection H as <- <- <-. repeat rewrite andb_true_iff in E3.
  destruct E3 as [[[[[[Ha _] [Hb _]] _] _] Hab] _]. exfalso.
  apply N.leb_le in Ha, Hb. apply orb_true_iff in Hab as [Hab|Hab].
  - apply negb_true_iff, N.eqb_neq in Hab. lia.
  - apply N.leb_le in Hab. lia.
Qed.

Lemma json_body_literal n s : literal (json_body n s).
Proof.
  revert s. induction n as [|n IH]; intros s; [by destruct s; constructor|].
  destruct s as [|c s]; [constructor|]. cbn [json_body].
  destruct (code c <? 128)%N eqn:E; [by apply literal_app; [apply json_ascii_literal|]|].
  destruct (decode_rune _) as [[[r bytes] rest]|] eqn:Ed.
  - apply literal_app; [|apply IH]. apply decode_rune_bytes in Ed as (Hb & _).
    destruct (_ || _) eqn:Er; [|done].
    apply wf_raw_literal; unfold wf_raw.
    apply orb_true_iff in Er as [Er|Er]; apply N.eqb_eq in Er; by rewrite Er.
  - apply literal_app; [by apply wf_raw_literal|apply IH].
Qed.

Lemma json_body_roundtrip s : valid_utf8 s → ∀ n f, String.length s ≤ n → String.length s ≤ f →
  unquote_body f (json_body n s) = s ∧ String.length s ≤ String.length (json_body n s).
Proof.
  induction 1 as [|c s Hc Hs IH|s r bytes rest Hs Hd Hv IH]; intros n f Hn Hf.
  - destruct n, f; by (split; [done|simpl; lia]).
  - destruct n as [|n], f as [|f]; [simpl in *; lia..|]. cbn [json_body]. rewrite Hc.
    destruct (IH n f) as [IH1 IH2]; [simpl in *; lia..|].
    rewrite json_ascii_unquote, IH1, length_append by done. split; [done|].
    pose proof (json_ascii_length c Hc). simpl. lia.
  - pose proof (decode_rune_split _ _ _ _ Hd) as [Es Hlen].
    pose proof (decode_rune_bytes _ _ _ _ Hd) as (_ & Hany & a & b & Hb & Ha).
    destruct s as [|c t]; [done|]. specialize (Hs c t eq_refl).
    destruct n as [|n], f as [|f]; [simpl in *; lia..|]. cbn [json_body]. rewrite Hs, Hd.
    destruct (IH n f) as [IH1 IH2]; [simpl in *; lia..|].
    pose proof (f_equal String.length Es) as El. rewrite length_append in El.
    destruct (_ || _) eqn:Er.
    + pose proof (decode_rune_separator _ _ _ _ Hd Er) as Hsep.
      clear Hb Ha a b. rewrite Es, Hsep.
      assert (∀ P : string → Prop, P (unquote_body f (json_body n rest)) → P rest) as Hrest
        by (intros P; by rewrite IH1).
      apply orb_true_iff in Er as [Er|Er]; apply N.eqb_eq in Er; subst r bytes;
        (split; [apply (Hrest (λ x, _ = _ +:+ x)); reflexivity|rewrite !length_append; cbn in *; lia]).
    + rewrite Hb in *. cbn [String.append unquote_body].
      replace (code a =? 92)%N with false by (symmetry; apply N.eqb_neq; apply N.leb_le in Ha; lia).
      replace (code a <? 128)%N with false by (symmetry; apply N.ltb_ge; by apply N.leb_le in Ha).
      specialize (Hany (json_body n rest)). cbn [String.append] in Hany. rewrite Hany, IH1.
      split; [by rewrite Es|]. rewrite Es. simpl in *. rewrite !length_append. lia.
Qed.

(** Writing a Go string and reading it back. *)
Lemma unquote_json_raw s : valid_utf8 s → unquote (json_raw s) = s.
Proof.
  intros H. unfold unquote, json_raw.
  destruct (json_body_roundtrip s H (String.length s) (String.length s)) as [_ Hl]; [done..|].
  by apply json_body_roundtrip.
Qed.

Lemma wf_JStr s : wf (JStr s).
Proof. apply wf_raw_literal, json_body_literal. Qed.

Lemma decode_rune_app s r bytes rest t :
  decode_rune s = Some (r, bytes, rest) → decode_rune (s +:+ t) = Some (r, bytes, rest +:+ t).
Proof.
  intros H. destruct s as [|a [|b u]]; try done. cbn [String.append decode_rune] in *.
  destruct (_ && _); [by injection H as <- <- <-|].
  destruct u as [|c v]; [done|]. cbn [String.append].
  destruct (_ && _); [by injection H as <- <- <-|].
  destruct v as [|d w]; [done|]. cbn [String.append].
  destruct (_ && _); [by injection H as <- <- <-|done].
Qed.

Lemma valid_utf8_app a b : valid_utf8 a → valid_utf8 b → valid_utf8 (a +:+ b).
Proof.
  intros Ha Hb. induction Ha as [|c s Hc Hs IH|s r bytes rest Hn Hd Hs IH]; [done|by apply utf8_ascii|].
  eapply utf8_rune; [|by apply decode_rune_app|done].
  intros c t E. destruct s as [|c' s]; [done|]. injection E as <- _. by apply (Hn c' s).
Qed.

(** Identifiers and hexadecimal digests are ASCII. *)
Fixpoint ascii_only (s : string) : bool :=
  match s with EmptyString => true | String c s => (code c <? 128)%N && ascii_only s end.

Lemma ascii_valid s : ascii_only s = true → valid_utf8 s.
Proof.
  induction s as [|c s IH]; cbn; [constructor|]. intros [H1 H2]%andb_true_iff.
  apply utf8_ascii; auto.
Qed.

#[export] Hint Resolve wf_JStr ascii_valid valid_utf8_app : coach.

(** *** Reading fields *)

Lemma field_nil {A} (dec : Decoder A) init name : field dec init name [] = Some init.
Proof. reflexivity. Qed.

Lemma field_skip {A} (dec : Decoder A) init name k v ms :
  key_is name (k, JNull) = false → field dec init name ((k, v) :: ms) = field dec init name ms.
Proof. intros H. unfold field, members_of. cbn [List.filter]. change (key_is name (k, v)) with (key_is name (k, JNull)). by rewrite H. Qed.

Lemma field_hit {A} (dec : Decoder A) init name k v ms :
  key_is name (k, JNull) = true →
  field dec init name ((k, v) :: ms) =
  match dec init v with Some a => field dec a name ms | None => None end.
Proof.
  intros H. unfold field, members_of. cbn [List.filter]. change (key_is name (k, v)) with (key_is name (k, JNull)).
  rewrite H. cbn [map fold_left snd]. destruct (dec init v); [done|].
  by induction (map snd (List.filter (key_is name) ms)).
Qed.

(** Reads the members of an object whose keys are literals. *)
Ltac read_fields :=
  repeat first
    [ rewrite field_nil
    | rewrite field_skip by (vm_compute; reflexivity)
    | rewrite field_hit by (vm_compute; reflexivity)
    | progress cbn [mbind option_bind dec_string dec_ptr dec_raw JStr opt_JStr option_map default] ].

Lemma dec_JStr cur s : valid_utf8 s → dec_string cur (JStr s) = Some s.
Proof. intros H. cbn [dec_string JStr]. by rewrite unquote_json_raw. Qed.

Lemma wf_opt_JStr o : wf (opt_JStr o).
Proof. destruct o; [apply wf_JStr|done]. Qed.

Lemma depth_opt_JStr o : depth (opt_JStr o) = 0%N.
Proof. by destruct o. Qed.

#[export] Hint Resolve wf_opt_JStr : coach.

Lemma depth_array_le l n : Forall (λ j, (depth j <= n)%N) l → (depth (JArray l) <= 1 + n)%N.
Proof.
  intros H. cbn [depth]. assert (foldr (λ x d, N.max (depth x) d) 0%N l <= n)%N as ?; [|lia].
  induction H; cbn; lia.
Qed.

Lemma depth_object_le ms n : Forall (λ m, (depth m.2 <= n)%N) ms → (depth (JObject ms) <= 1 + n)%N.
Proof.
  intros H. cbn [depth]. assert (foldr (λ m d, N.max (depth m.2) d) 0%N ms <= n)%N as ?; [|lia].
  induction H; cbn; lia.
Qed.

(** An array decodes element by element. *)
Lemma dec_elems_map {A} (zero : A) (dec : Decoder A) js xs :
  Forall2 (λ j x, dec zero j = Some x) js xs → dec_elems zero dec [] js = Some xs.
Proof. induction 1 as [|j x js xs Hj _ IH]; cbn; [done|]. by rewrite Hj, IH. Qed.

(** A marshalled raw message reads back as the same tree. *)
Lemma marshal_raw_wf raw j : marshal_raw raw = Some j → wf j ∧ (depth j <= maxNestingDepth)%N.
Proof.
  unfold marshal_raw. destruct (_ == _); [by intros [= <-]|].
  destruct (parse raw) as [j0|] eqn:E; [|done]. intros [= <-]. apply parse_wf in E as [Hw Hd].
  apply wf_escape_json in Hw as [? Heq]. by rewrite Heq.
Qed.
