(* ===== verification/Jsonc.v ===== *)
(** * JSON with comments

    [internal/codesignalcli/sourcescope/jsonc_*.go]: a [tsconfig.json] is read by
    removing its comments, then its trailing commas, and handing the rest to
    [encoding/json].  [jsonc_reads] says that this reads every way of writing a JSON
    value with white space, comments and trailing commas back as that value. *)

From Stdlib Require Import Ascii.
From S2P Require Import Prelude GoText Json.

#[local] Arguments String.append : simpl nomatch.

(** ** Comments *)

(** Inside a string the byte is kept; whether the string, and an escape, go on.

    go: internal/codesignalcli/sourcescope/jsonc_comments.go#advanceInsideJSONString *)
Definition advanceInsideJSONString (b : ascii) (escaped : bool) : bool * bool :=
  if escaped then (true, false)
  else if (code b =? 92)%N then (true, true)
  else if (code b =? 34)%N then (false, false)
  else (true, false).

(** What is left from the line's end on.

    go: internal/codesignalcli/sourcescope/jsonc_comments.go#skipJSONCLineComment *)
Fixpoint skipJSONCLineComment (data : string) : string :=
  match data with
  | String c t => if (code c =? 10)%N then data else skipJSONCLineComment t
  | EmptyString => EmptyString
  end.

(** After [/*]: what follows the first [*/]. *)
Fixpoint after_block (data : string) : option string :=
  match data with
  | String c t =>
      match t with
      | String d u => if (code c =? 42)%N && (code d =? 47)%N then Some u else after_block t
      | EmptyString => None
      end
  | EmptyString => None
  end.

(** go: internal/codesignalcli/sourcescope/jsonc_comments.go#skipJSONCBlockComment *)
Definition skipJSONCBlockComment (data : string) : option string :=
  match data with String _ (String _ t) => after_block t | _ => None end.

Definition next_is (n : N) (s : string) : bool :=
  match s with String c _ => (code c =? n)%N | EmptyString => false end.

(** The loop of [stripJSONCComments]: what it writes, [None] at a block comment without
    an end.  A turn of the loop consumes a byte at least. *)
Fixpoint strip_loop (fuel : nat) (inString escaped : bool) (data : string) : option string :=
  match fuel, data with
  | S fuel, String b t =>
      if inString then
        let '(inString, escaped) := advanceInsideJSONString b escaped in
        String b <$> strip_loop fuel inString escaped t
      else if (code b =? 34)%N then String b <$> strip_loop fuel true escaped t
      else if (code b =? 47)%N && next_is 47 t then
        match skipJSONCLineComment data with
        | String _ r => String (byte_of 10) <$> strip_loop fuel inString escaped r
        | EmptyString => Some EmptyString
        end
      else if (code b =? 47)%N && next_is 42 t then
        match skipJSONCBlockComment data with
        | Some r => strip_loop fuel inString escaped r
        | None => None
        end
      else String b <$> strip_loop fuel inString escaped t
  | _, _ => Some EmptyString
  end.

(** ** Trailing commas *)

(** What follows the comma.

    go: internal/codesignalcli/sourcescope/jsonc_trailing_commas.go#trailingCommaFollowedByClose *)
Definition trailingCommaFollowedByClose (rest : string) : bool :=
  let r := skip_ws rest in next_is 125 r || next_is 93 r.

Fixpoint commas_loop (inString escaped : bool) (data : string) : string :=
  match data with
  | EmptyString => EmptyString
  | String b t =>
      if inString then
        let '(inString, escaped) := advanceInsideJSONString b escaped in
        String b (commas_loop inString escaped t)
      else if (code b =? 34)%N then String b (commas_loop true escaped t)
      else if (code b =? 44)%N && trailingCommaFollowedByClose t then commas_loop inString escaped t
      else String b (commas_loop inString escaped t)
  end.

(** go: internal/codesignalcli/sourcescope/jsonc_trailing_commas.go#stripTrailingCommas *)
Definition stripTrailingCommas (data : string) : string := commas_loop false false data.

Definition uncommented (data : string) : option string := strip_loop (String.length data) false false data.

(** go: internal/codesignalcli/sourcescope/jsonc_comments.go#stripJSONCComments *)
Definition stripJSONCComments (data : string) : string :=
  match uncommented data with Some out => stripTrailingCommas out | None => data end.

Example strip_examples :
  map (λ s, stripJSONCComments (jtext s)) [
    "{'a': [1, 2], // tail" +:+ newline +:+ "}"; "{'a': '// no, */ ,]' /* x */ ,}"; "[1] /* open"]
  = map jtext ["{'a': [1, 2] " +:+ newline +:+ "}"; "{'a': '// no, */ ,]'  }"; "[1] /* open"].
Proof. vm_compute. reflexivity. Qed.

(** ** The ways of writing a value *)

(** What may stand between two tokens. *)
Inductive trivia :=
  | TSpace (c : ascii)
  | TLine (body : string)
  | TBlock (body : string).

Definition gap : Type := list trivia.

Definition line_body (body : string) : Prop := skipJSONCLineComment body = "".
Definition block_body (body : string) : Prop := Contains "*/" (body +:+ "*") = false.

Definition trivia_ok (t : trivia) : Prop :=
  match t with TSpace c => is_ws c = true | TLine body => line_body body | TBlock body => block_body body end.

Definition write_trivia (t : trivia) : string :=
  match t with
  | TSpace c => String c ""
  | TLine body => "//" +:+ body +:+ newline
  | TBlock body => "/*" +:+ body +:+ "*/"
  end.

Definition write_gap (g : gap) : string := Join (map write_trivia g) "".

(** A line comment leaves its newline, a block comment nothing. *)
Definition bare (t : trivia) : list trivia :=
  match t with TSpace c => [TSpace c] | TLine _ => [TSpace (byte_of 10)] | TBlock _ => [] end.

(** A concrete syntax tree: a value with the gaps between its tokens.  An element stands
    between two gaps; a member is a gap, a key, a gap, a colon, a gap, a value and a gap.
    What follows the last element: with no elements the gap between the brackets,
    otherwise a trailing comma and a gap, if there is one. *)
Inductive cst :=
  | CAtom (j : json)
  | CArray (elems : list (gap * cst * gap)) (trail : option gap)
  | CObject (members : list (gap * string * gap * gap * cst * gap)) (trail : option gap).

Fixpoint value (c : cst) : json :=
  match c with
  | CAtom j => j
  | CArray elems _ => JArray (map (λ '(_, c, _), value c) elems)
  | CObject members _ => JObject (map (λ '(_, k, _, _, c, _), (k, value c)) members)
  end.

Definition quoted_raw (raw : string) : string := dq +:+ raw +:+ dq.

(** [commas] tells whether the trailing commas are written. *)
Definition write_trail {A} (commas : bool) (items : list A) (trail : option gap) : string :=
  match trail with
  | None => ""
  | Some g => (match items with [] => "" | _ => if commas then "," else "" end) +:+ write_gap g
  end.

Fixpoint write (commas : bool) (c : cst) : string :=
  match c with
  | CAtom j => print j
  | CArray elems trail =>
      "[" +:+ Join (map (λ '(a, c, b), write_gap a +:+ write commas c +:+ write_gap b) elems) ","
      +:+ write_trail commas elems trail +:+ "]"
  | CObject members trail =>
      "{" +:+ Join (map (λ '(a, k, b, d, c, e), write_gap a +:+ quoted_raw k +:+ write_gap b +:+ ":"
                         +:+ write_gap d +:+ write commas c +:+ write_gap e) members) ","
      +:+ write_trail commas members trail +:+ "}"
  end.

(** The tree without its comments. *)
Definition bare_gap (g : gap) : gap := List.flat_map bare g.

Fixpoint bare_cst (c : cst) : cst :=
  match c with
  | CAtom j => CAtom j
  | CArray elems trail =>
      CArray (map (λ '(a, c, b), (bare_gap a, bare_cst c, bare_gap b)) elems) (bare_gap <$> trail)
  | CObject members trail =>
      CObject (map (λ '(a, k, b, d, c, e), (bare_gap a, k, bare_gap b, bare_gap d, bare_cst c, bare_gap e)) members)
              (bare_gap <$> trail)
  end.

Definition atomic (j : json) : Prop := match j with JArray _ | JObject _ => False | _ => True end.

Definition gap_ok (g : gap) : Prop := Forall trivia_ok g.
Definition trail_ok (trail : option gap) : Prop := match trail with Some g => gap_ok g | None => True end.

(** Gaps hold white space and comments, atoms are atoms. *)
Fixpoint cst_ok (c : cst) : Prop :=
  match c with
  | CAtom j => atomic j
  | CArray elems trail =>
      foldr (λ '(a, c, b) P, gap_ok a ∧ cst_ok c ∧ gap_ok b ∧ P) (trail_ok trail) elems
  | CObject members trail =>
      foldr (λ '(a, k, b, d, c, e) P, gap_ok a ∧ gap_ok b ∧ gap_ok d ∧ cst_ok c ∧ gap_ok e ∧ P)
        (trail_ok trail) members
  end.

Section CstInd.
Variable P : cst → Prop.
Hypotheses (Hatom : ∀ j, P (CAtom j))
  (Harr : ∀ l trail, Forall (λ '(_, c, _), P c) l → P (CArray l trail))
  (Hobj : ∀ l trail, Forall (λ '(_, _, _, _, c, _), P c) l → P (CObject l trail)).

Fixpoint cst_induction (c : cst) : P c :=
  match c with
  | CAtom j => Hatom j
  | CArray l trail => Harr l trail ((fix go (l : list (gap * cst * gap)) : Forall (λ '(_, c, _), P c) l :=
      match l with [] => Forall_nil_2 _ | (a, c, b) :: l => Forall_cons_2 _ (a, c, b) l (cst_induction c) (go l) end) l)
  | CObject l trail => Hobj l trail ((fix go (l : list (gap * string * gap * gap * cst * gap)) :
      Forall (λ '(_, _, _, _, c, _), P c) l :=
      match l with
      | [] => Forall_nil_2 _
      | (a, k, b, d, c, e) :: l => Forall_cons_2 _ (a, k, b, d, c, e) l (cst_induction c) (go l)
      end) l)
  end.
End CstInd.

(** ** Comments are removed *)

Lemma after_block_length s r : after_block s = Some r → String.length r < String.length s.
Proof.
  induction s as [|c t IH]; [done|]. cbn [after_block]. destruct t as [|d u]; [done|].
  destruct (_ && _); [intros [= <-]; simpl; lia|]. intros H%IH. simpl in *. lia.
Qed.

Lemma line_length s : String.length (skipJSONCLineComment s) ≤ String.length s.
Proof. induction s as [|c s IH]; cbn; [done|]. destruct (_ =? _)%N; simpl; lia. Qed.

(** More fuel than bytes changes nothing. *)
Lemma strip_fuel n m i e s : String.length s ≤ n → String.length s ≤ m →
  strip_loop n i e s = strip_loop m i e s.
Proof.
  revert m i e s. induction n as [|n IH]; intros [|m] i e [|b t]; try done; simpl; try lia. intros Hn Hm.
  assert (∀ i e s, String.length s ≤ String.length t → strip_loop n i e s = strip_loop m i e s) as Hs
    by (intros; apply IH; lia).
  destruct i; [destruct (advanceInsideJSONString b e); by rewrite Hs|].
  destruct (code b =? 34)%N; [by rewrite Hs|]. pose proof (line_length t) as Hline.
  destruct ((code b =? 47)%N && next_is 47 t) eqn:E1.
  - apply andb_true_iff in E1 as [Eb _]. apply N.eqb_eq in Eb. rewrite Eb. cbn [N.eqb Pos.eqb].
    destruct (skipJSONCLineComment t) as [|x r]; [done|]. rewrite Hs; [done|]. simpl in Hline. lia.
  - destruct ((code b =? 47)%N && next_is 42 t); [|by rewrite Hs]. destruct t as [|d u]; [done|].
    destruct (after_block u) as [r|] eqn:Er; [|done]. apply after_block_length in Er. apply Hs. simpl. lia.
Qed.

Lemma uncommented_fuel n s : String.length s ≤ n → strip_loop n false false s = uncommented s.
Proof. intros H. by apply strip_fuel. Qed.

(** [s] stands for [s'], whatever comes next. *)
Definition passes (s s' : string) : Prop := ∀ rest,
  uncommented (s +:+ rest) = String.append s' <$> uncommented rest.

Lemma passes_nil : passes "" "".
Proof. intros rest. change (uncommented rest = String.append "" <$> uncommented rest). by destruct (uncommented rest). Qed.

Lemma passes_app a a' b b' : passes a a' → passes b b' → passes (a +:+ b) (a' +:+ b').
Proof.
  intros Ha Hb rest. rewrite append_assoc_str, Ha, Hb. destruct (uncommented rest); [|done].
  cbn. by rewrite append_assoc_str.
Qed.

Lemma passes_char c : (code c =? 34)%N = false → (code c =? 47)%N = false → passes (String c "") (String c "").
Proof.
  intros H1 H2 rest. unfold uncommented. cbn. by rewrite H1, H2.
Qed.

Lemma passes_concat sep xs ys : Forall2 passes xs ys → passes sep sep → passes (Join xs sep) (Join ys sep).
Proof.
  unfold Join. intros H Hsep. induction H as [|x y xs ys Hx H IH]; [apply passes_nil|].
  destruct H as [|x' y' xs ys Hx' H]; [done|].
  change (passes (x +:+ sep +:+ String.concat sep (x' :: xs)) (y +:+ sep +:+ String.concat sep (y' :: ys))).
  repeat apply passes_app; done.
Qed.

(** *** Strings *)

(** Reading these bytes leaves neither the string nor an escape open or closed. *)
Fixpoint stays (escaped : bool) (s : string) : bool :=
  match s with
  | EmptyString => negb escaped
  | String c t => let '(i, e) := advanceInsideJSONString c escaped in i && stays e t
  end.

Lemma stays_plain c s : (code c =? 92)%N = false → (code c =? 34)%N = false → stays false (String c s) = stays false s.
Proof. intros H1 H2. cbn [stays]. unfold advanceInsideJSONString. by rewrite H1, H2. Qed.

Lemma stays_escape c e s : (code c =? 92)%N = true → stays false (String c (String e s)) = stays false s.
Proof. intros H. cbn [stays]. unfold advanceInsideJSONString. by rewrite H. Qed.

Lemma hex_not_quote c : is_hex c = true → (code c =? 92)%N = false ∧ (code c =? 34)%N = false.
Proof.
  intros H. split; apply N.eqb_neq; intros E; unfold is_hex, is_digit in H; by rewrite E in H.
Qed.

Lemma literal_stays raw : literal raw → stays false raw = true.
Proof.
  induction 1 as [|c s H1 H2 _ _ IH|c e s H1 _ _ IH|c e h1 h2 h3 h4 s H1 H2 H3 _ IH]; [done|..].
  - by rewrite stays_plain.
  - by rewrite stays_escape.
  - breflect. rewrite stays_escape, !stays_plain; try done; by apply hex_not_quote.
Qed.

Lemma strip_in_string raw e rest : stays e raw = true →
  strip_loop (String.length (raw +:+ rest)) true e (raw +:+ rest)
  = String.append raw <$> strip_loop (String.length rest) true false rest.
Proof.
  revert e. induction raw as [|c raw IH]; intros e; cbn [stays String.append].
  - destruct e; [done|]. intros _. by destruct (strip_loop _ _ _ rest).
  - cbn [String.length strip_loop]. destruct (advanceInsideJSONString c e) as [i e'].
    intros [-> H]%andb_true_iff. rewrite (IH _ H). by destruct (strip_loop _ _ _ rest).
Qed.

Lemma passes_string raw : literal raw → passes (quoted_raw raw) (quoted_raw raw).
Proof.
  intros H%literal_stays rest. unfold quoted_raw, uncommented. rewrite !append_assoc_str.
  change (dq +:+ ?x) with (String (byte_of 34) x). cbn [String.length strip_loop]. change (code (byte_of 34) =? 34)%N with true.
  cbv iota. rewrite strip_in_string by done.
  change (dq +:+ rest) with (String (byte_of 34) rest). cbn [String.length strip_loop].
  change (advanceInsideJSONString (byte_of 34) false) with (false, false). cbv iota beta.
  destruct (strip_loop _ _ _ rest); [|done]. cbn. by rewrite append_assoc_str.
Qed.

(** *** Gaps *)

(** The turns of the loop at a comment. *)
Lemma uncommented_line x : uncommented ("//" +:+ x) =
  match skipJSONCLineComment x with String _ r => String (byte_of 10) <$> uncommented r | EmptyString => Some "" end.
Proof.
  pose proof (line_length x) as Hl. unfold uncommented at 1. cbn [String.append String.length].
  assert (String.length x ≤ S (String.length x)) as Hn by lia. revert Hn.
  generalize (S (String.length x)) as n. intros n Hn. cbn [strip_loop].
  change (code "/" =? 34)%N with false. change (code "/" =? 47)%N with true. change (next_is 47 (String "/" x)) with true.
  change (skipJSONCLineComment (String "/" (String "/" x))) with (skipJSONCLineComment x). cbn [andb].
  destruct (skipJSONCLineComment x) as [|c r]; [done|]. rewrite uncommented_fuel; [done|]. simpl in Hl. lia.
Qed.

Lemma uncommented_block x : uncommented ("/*" +:+ x) = r ← after_block x; uncommented r.
Proof.
  unfold uncommented at 1. cbn [String.append String.length].
  assert (String.length x ≤ S (String.length x)) as Hn by lia. revert Hn.
  generalize (S (String.length x)) as n. intros n Hn. cbn [strip_loop].
  change (code "/" =? 34)%N with false. change (code "/" =? 47)%N with true.
  change (next_is 47 (String "*" x)) with false. change (next_is 42 (String "*" x)) with true.
  cbn [andb skipJSONCBlockComment]. destruct (after_block x) as [r|] eqn:E; [|done].
  apply after_block_length in E. rewrite uncommented_fuel; [done|lia].
Qed.

Lemma passes_line body : line_body body → passes ("//" +:+ body +:+ newline) newline.
Proof.
  intros H rest. rewrite !append_assoc_str, uncommented_line.
  assert (skipJSONCLineComment (body +:+ newline +:+ rest) = String (byte_of 10) rest) as ->; [|by destruct (uncommented rest)].
  unfold line_body in H. induction body as [|c body IH]; [done|]. cbn in H |- *.
  destruct (_ =? _)%N; [done|]. by apply IH.
Qed.

Lemma after_block_body body rest : block_body body → after_block (body +:+ "*/" +:+ rest) = Some rest.
Proof.
  unfold block_body. induction body as [|c body IH]; [done|]. intros H.
  cbn [String.append Contains] in H. apply orb_false_iff in H as [H1 H2]. specialize (IH H2).
  cbn [String.append after_block].
  assert (∃ d u u', body +:+ "*/" +:+ rest = String d u ∧ body +:+ "*" = String d u') as (d & u & u' & E & E')
    by (destruct body; by do 3 eexists).
  cbn [String.append] in E, IH |- *. rewrite E in IH |- *. rewrite E' in H1.
  destruct ((code c =? 42)%N && (code d =? 47)%N) eqn:Ecd; [|done]. exfalso. breflect.
  apply N.eqb_eq in H, H0. unfold code in H, H0.
  assert (c = "*"%char) as -> by (rewrite <- (ascii_N_embedding c), H; done).
  assert (d = "/"%char) as -> by (rewrite <- (ascii_N_embedding d), H0; done). done.
Qed.

Lemma passes_block body : block_body body → passes ("/*" +:+ body +:+ "*/") "".
Proof.
  intros H rest. rewrite !append_assoc_str, uncommented_block, after_block_body by done.
  cbn [mbind option_bind]. by destruct (uncommented rest).
Qed.

Lemma is_ws_plain c : is_ws c = true → (code c =? 34)%N = false ∧ (code c =? 47)%N = false.
Proof. intros H. split; apply N.eqb_neq; intros E; unfold is_ws in H; by rewrite E in H. Qed.

Lemma write_gap_cons t g : write_gap (t :: g) = write_trivia t +:+ write_gap g.
Proof. unfold write_gap. destruct g; [cbn; by rewrite append_empty_r|done]. Qed.

Lemma write_gap_app g g' : write_gap (g ++ g') = write_gap g +:+ write_gap g'.
Proof. induction g as [|t g IH]; [done|]. cbn [app]. by rewrite !write_gap_cons, IH, append_assoc_str. Qed.

Lemma passes_gap g : gap_ok g → passes (write_gap g) (write_gap (bare_gap g)).
Proof.
  induction 1 as [|t g Ht _ IH]; [apply passes_nil|]. cbn [bare_gap List.flat_map].
  rewrite write_gap_cons, write_gap_app. apply passes_app; [|done].
  destruct t as [c|body|body]; cbn in Ht |- *.
  - apply is_ws_plain in Ht as [H1 H2]. by apply passes_char.
  - by apply passes_line.
  - by apply passes_block.
Qed.

(** *** Values *)

Definition chars (P : ascii → Prop) (s : string) : Prop := Forall P (String.list_ascii_of_string s).

Lemma chars_cons P c s : chars P (String c s) ↔ P c ∧ chars P s.
Proof. apply list.Forall_cons. Qed.

Lemma chars_app P a b : chars P a → chars P b → chars P (a +:+ b).
Proof.
  intros H Hb. unfold chars in *. induction a as [|c a IH]; [done|]. cbn in H |- *.
  apply list.Forall_cons in H as [H1 H2]. constructor; auto.
Qed.

(** A byte that means nothing to either loop. *)
Definition dull (c : ascii) : Prop := (code c =? 34)%N = false ∧ (code c =? 47)%N = false ∧ (code c =? 44)%N = false.

Lemma digit_dull c : is_digit c = true → dull c.
Proof. intros H. repeat split; apply N.eqb_neq; intros E; unfold is_digit in H; by rewrite E in H. Qed.

Lemma code_dull n c : (code c =? n)%N = true → (n ≠ 34 ∧ n ≠ 47 ∧ n ≠ 44)%N → dull c.
Proof. intros H%N.eqb_eq (? & ? & ?). subst n. repeat split; by apply N.eqb_neq. Qed.

Lemma scan_digits_dull s : chars dull (scan_digits s).1.
Proof.
  induction s as [|c s IH]; [constructor|]. cbn [scan_digits].
  destruct (is_digit c) eqn:E; [|constructor]. apply chars_cons. split; [by apply digit_dull|done].
Qed.

Lemma scan_digits1_dull s a r : scan_digits1 s = Some (a, r) → chars dull a.
Proof.
  unfold scan_digits1. pose proof (scan_digits_dull s) as H. destruct (scan_digits s) as [[|c x] y]; [done|].
  by intros [= <- <-].
Qed.

Lemma scan_number_dull s a r : scan_number s = Some (a, r) → chars dull a.
Proof.
  assert (∀ s a r, scan_unsigned s = Some (a, r) → chars dull a) as Hu.
  { clear. intros s a r. unfold scan_unsigned. destruct (scan_int s) as [[x s1]|] eqn:E1; [|done].
    destruct (scan_frac s1) as [[y s2]|] eqn:E2; [|done]. destruct (scan_exp s2) as [[z s3]|] eqn:E3; [|done].
    intros [= <- <-]. apply chars_app; [|apply chars_app].
    - destruct s as [|c t]; [done|]. cbn [scan_int] in E1.
      destruct (code c =? 48)%N eqn:Ec; [injection E1 as <- <-; apply chars_cons; split; [by apply (code_dull 48)|constructor]|].
      destruct (is_digit c) eqn:Ed; [|done]. injection E1 as <- <-. apply chars_cons.
      split; [by apply digit_dull|apply scan_digits_dull].
    - destruct s1 as [|c t]; cbn [scan_frac] in E2; [injection E2 as <- <-; constructor|].
      destruct (code c =? 46)%N eqn:Ec; [|injection E2 as <- <-; constructor].
      destruct (scan_digits1 t) as [[u v]|] eqn:Ed; [|done]. injection E2 as <- <-. apply chars_cons.
      split; [by apply (code_dull 46)|by eapply scan_digits1_dull].
    - destruct s2 as [|c t]; cbn [scan_exp] in E3; [injection E3 as <- <-; constructor|].
      destruct (_ || _) eqn:Ec; [|injection E3 as <- <-; constructor].
      assert (dull c) as Hc by (apply orb_true_iff in Ec as [Ec|Ec]; by eapply code_dull).
      destruct t as [|d u]; [done|]. destruct ((code d =? 43) || (code d =? 45))%N eqn:Es.
      + assert (dull d) as Hd by (apply orb_true_iff in Es as [Es|Es]; by eapply code_dull).
        destruct (scan_digits1 u) as [[w v]|] eqn:Ed; [|done]. injection E3 as <- <-.
        apply chars_cons; split; [done|]. apply chars_cons; split; [done|by eapply scan_digits1_dull].
      + destruct (scan_digits1 _) as [[w v]|] eqn:Ed; [|done]. injection E3 as <- <-.
        apply chars_cons; split; [done|by eapply scan_digits1_dull]. }
  unfold scan_number. destruct s as [|c t]; [done|]. destruct (code c =? 45)%N eqn:Ec; [|apply Hu].
  destruct (scan_unsigned t) as [[x y]|] eqn:E; [|done]. intros [= <- <-].
  apply chars_cons; split; [by apply (code_dull 45)|by eapply Hu].
Qed.

(** An atom is a string or dull. *)
Lemma atom_dull j : atomic j → wf j → (∃ raw, literal raw ∧ print j = quoted_raw raw) ∨ chars dull (print j).
Proof.
  destruct j as [|[]|lit|raw| |]; cbn; try done; intros _ H.
  - right. repeat constructor.
  - right. repeat constructor.
  - right. repeat constructor.
  - right. by eapply scan_number_dull.
  - left. exists raw. split; [by apply wf_raw_literal|done].
Qed.

Lemma passes_dull s : chars dull s → passes s s.
Proof.
  induction s as [|c s IH]; [intros; apply passes_nil|]. intros [(H1 & H2 & _) H]%chars_cons.
  change (String c s) with (String c "" +:+ s). apply passes_app; [by apply passes_char|auto].
Qed.

Lemma passes_trail {A B} (items : list A) (items' : list B) trail : length items = length items' → trail_ok trail →
  passes (write_trail true items trail) (write_trail true items' (bare_gap <$> trail)).
Proof.
  destruct trail as [g|]; [|intros; apply passes_nil]. intros Hl Hg. cbn [write_trail fmap option_fmap option_map].
  destruct items, items'; try done; apply passes_app; try by apply passes_gap.
  - apply passes_nil.
  - by apply passes_char.
Qed.

Lemma ok_array l trail : cst_ok (CArray l trail) ↔
  Forall (λ '(a, c, b), gap_ok a ∧ cst_ok c ∧ gap_ok b) l ∧ trail_ok trail.
Proof.
  cbn [cst_ok]. induction l as [|[[a c] b] l IH]; cbn [foldr]; [split; [done|tauto]|]. rewrite IH, list.Forall_cons. tauto.
Qed.

Lemma ok_object l trail : cst_ok (CObject l trail) ↔
  Forall (λ '(a, k, b, d, c, e), gap_ok a ∧ gap_ok b ∧ gap_ok d ∧ cst_ok c ∧ gap_ok e) l ∧ trail_ok trail.
Proof.
  cbn [cst_ok]. induction l as [|[[[[[a k] b] d] c] e] l IH]; cbn [foldr]; [split; [done|tauto]|].
  rewrite IH, list.Forall_cons. tauto.
Qed.

Lemma wf_values l trail : wf (value (CArray l trail)) ↔ Forall (λ '(_, c, _), wf (value c)) l.
Proof. cbn [value]. rewrite wf_array, List.Forall_map. apply list.Forall_iff. by intros [[??]?]. Qed.

Lemma wf_members l trail : wf (value (CObject l trail)) ↔ Forall (λ '(_, k, _, _, c, _), literal k ∧ wf (value c)) l.
Proof.
  cbn [value]. rewrite wf_object, List.Forall_map. apply list.Forall_iff. intros [[[[[??]?]?]?]?]. cbn.
  by rewrite wf_raw_literal.
Qed.

(** Every gap, key, atom and bracket passes. *)
Lemma passes_write c : cst_ok c → wf (value c) → passes (write true c) (write true (bare_cst c)).
Proof.
  induction c as [j|l trail IH|l trail IH] using cst_induction; intros Hok Hwf.
  - cbn in *. destruct (atom_dull j Hok Hwf) as [(raw & Hr & ->)|H]; [by apply passes_string|by apply passes_dull].
  - apply ok_array in Hok as [Hok Htrail]. apply wf_values in Hwf.
    cbn [write bare_cst]. repeat apply passes_app; try by apply passes_char.
    + rewrite map_map. apply passes_concat; [|by apply passes_char].
      apply Forall2_fmap, Forall_Forall2_diag.
      apply list.Forall_forall. intros [[a c] b] Hin.
      rewrite list.Forall_forall in IH, Hok, Hwf.
      destruct (Hok _ Hin) as (Ha & Hc & Hb). specialize (IH _ Hin Hc (Hwf _ Hin)).
      repeat apply passes_app; try done; by apply passes_gap.
    + apply passes_trail; [by rewrite length_map|done].
  - apply ok_object in Hok as [Hok Htrail]. apply wf_members in Hwf.
    cbn [write bare_cst]. repeat apply passes_app; try by apply passes_char.
    + rewrite map_map. apply passes_concat; [|by apply passes_char].
      apply Forall2_fmap, Forall_Forall2_diag.
      apply list.Forall_forall. intros [[[[[a k] b] d] c] e] Hin.
      rewrite list.Forall_forall in IH, Hok, Hwf.
      destruct (Hok _ Hin) as (Ha & Hb & Hd & Hc & He), (Hwf _ Hin) as [Hk Hv]. specialize (IH _ Hin Hc Hv).
      apply passes_app; [by apply passes_gap|]. apply passes_app; [by apply passes_string|].
      repeat apply passes_app; try done; try by apply passes_gap.
    + apply passes_trail; [by rewrite length_map|done].
Qed.

(** ** Trailing commas are dropped *)

(** [s] stands for [s'], whatever comes next. *)
Definition keeps (s s' : string) : Prop := ∀ rest,
  stripTrailingCommas (s +:+ rest) = s' +:+ stripTrailingCommas rest.

Lemma keeps_nil : keeps "" "".
Proof. by intros rest. Qed.

Lemma keeps_app a a' b b' : keeps a a' → keeps b b' → keeps (a +:+ b) (a' +:+ b').
Proof. intros Ha Hb rest. by rewrite !append_assoc_str, Ha, Hb. Qed.

Lemma keeps_char c : (code c =? 34)%N = false → (code c =? 44)%N = false → keeps (String c "") (String c "").
Proof. intros H1 H2 rest. unfold stripTrailingCommas. cbn. by rewrite H1, H2. Qed.

Lemma keeps_dull s : chars dull s → keeps s s.
Proof.
  induction s as [|c s IH]; [intros; apply keeps_nil|]. intros [(H1 & _ & H2) H]%chars_cons.
  change (String c s) with (String c "" +:+ s). apply keeps_app; [by apply keeps_char|auto].
Qed.

Lemma commas_in_string raw e rest : stays e raw = true →
  commas_loop true e (raw +:+ rest) = raw +:+ commas_loop true false rest.
Proof.
  revert e. induction raw as [|c raw IH]; intros e; cbn [stays String.append]; [by destruct e|].
  cbn [commas_loop]. destruct (advanceInsideJSONString c e) as [i e'].
  intros [-> H]%andb_true_iff. by rewrite (IH _ H).
Qed.

Lemma keeps_string raw : literal raw → keeps (quoted_raw raw) (quoted_raw raw).
Proof.
  intros H%literal_stays rest. unfold quoted_raw, stripTrailingCommas. rewrite !append_assoc_str.
  change (dq +:+ ?x) with (String (byte_of 34) x). cbn [commas_loop]. change (code (byte_of 34) =? 34)%N with true.
  cbv iota. by rewrite commas_in_string.
Qed.

(** Only white space is left in the gaps. *)
Definition blank (g : gap) : Prop := Forall (λ t, match t with TSpace c => is_ws c = true | _ => False end) g.

Lemma bare_blank g : gap_ok g → blank (bare_gap g).
Proof.
  intros H. unfold blank, bare_gap. apply list.Forall_forall. intros t (x & Hx & Ht)%list_elem_of_In%in_flat_map.
  unfold gap_ok in H. rewrite list.Forall_forall in H. specialize (H x). rewrite list_elem_of_In in H. specialize (H Hx).
  destruct x as [c|b|b]; cbn in Ht; [destruct Ht as [<-|[]]|destruct Ht as [<-|[]]|done]; done.
Qed.

Lemma blank_cons t g : blank (t :: g) → ∃ c, t = TSpace c ∧ is_ws c = true ∧ blank g.
Proof. intros [H Hg]%list.Forall_cons. destruct t; [by eexists|done..]. Qed.

Lemma write_space c g s : write_gap (TSpace c :: g) +:+ s = String c (write_gap g +:+ s).
Proof. by rewrite write_gap_cons. Qed.

Lemma skip_blank g s : blank g → skip_ws (write_gap g +:+ s) = skip_ws s.
Proof.
  induction g as [|t g IH]; [done|]. intros (c & -> & Hc & Hg)%blank_cons. rewrite write_space. cbn. rewrite Hc. auto.
Qed.

Lemma keeps_blank g : blank g → keeps (write_gap g) (write_gap g).
Proof.
  induction g as [|t g IH]; [intros; apply keeps_nil|]. intros (c & -> & Hc & Hg)%blank_cons.
  rewrite write_gap_cons. apply keeps_app; [|auto]. cbn.
  apply keeps_char; apply N.eqb_neq; intros E; unfold is_ws in Hc; by rewrite E in Hc.
Qed.

(** A comma before a value stays, one before a bracket goes. *)
Lemma comma_kept s : trailingCommaFollowedByClose s = false →
  stripTrailingCommas ("," +:+ s) = "," +:+ stripTrailingCommas s.
Proof. intros H. unfold stripTrailingCommas. cbn. by rewrite H. Qed.

Lemma comma_dropped s : trailingCommaFollowedByClose s = true →
  stripTrailingCommas ("," +:+ s) = stripTrailingCommas s.
Proof. intros H. unfold stripTrailingCommas. cbn. by rewrite H. Qed.

(** What begins a value or a key: no space and no closing bracket. *)
Definition opening (s : string) : Prop :=
  match s with
  | EmptyString => False
  | String c _ => is_ws c = false ∧ (code c =? 93)%N = false ∧ (code c =? 125)%N = false
  end.

Lemma opening_open g s : blank g → opening s → trailingCommaFollowedByClose (write_gap g +:+ s) = false.
Proof.
  intros Hg Hs. unfold trailingCommaFollowedByClose. rewrite skip_blank by done.
  destruct s as [|c s]; [done|]. destruct Hs as (H1 & H2 & H3). rewrite skip_ws_char by done. cbn. by rewrite H2, H3.
Qed.

Lemma atom_opening j rest : wf j → opening (print j +:+ rest).
Proof.
  destruct j as [|[]| | | |]; try done. intros (c & t & -> & Hc)%wf_number_head. apply digit_range in Hc.
  cbn. unfold is_ws. repeat split; try (apply N.eqb_neq; lia).
  repeat (apply orb_false_iff; split); apply N.eqb_neq; lia.
Qed.

Lemma write_opening commas c rest : wf (value c) → opening (write commas c +:+ rest).
Proof. destruct c; [apply atom_opening|done..]. Qed.

Definition opens (s : string) : Prop := ∀ rest, trailingCommaFollowedByClose (s +:+ rest) = false.

Lemma keeps_join xs ys : Forall2 keeps xs ys → Forall opens xs → keeps (Join xs ",") (Join ys ",").
Proof.
  unfold Join. intros H. induction H as [|x y xs ys Hx H IH]; intros Ho; [apply keeps_nil|].
  apply list.Forall_cons in Ho as [_ Ho]. specialize (IH Ho).
  destruct H as [|x' y' xs ys Hx' H]; [done|]. apply list.Forall_cons in Ho as [Ho' _].
  change (keeps (x +:+ "," +:+ String.concat "," (x' :: xs)) (y +:+ "," +:+ String.concat "," (y' :: ys))).
  intros rest. rewrite !append_assoc_str, Hx. f_equal. rewrite comma_kept, IH; [done|].
  destruct xs as [|x2 xs]; [apply Ho'|].
  change (String.concat "," (x' :: x2 :: xs)) with (x' +:+ "," +:+ String.concat "," (x2 :: xs)).
  rewrite append_assoc_str. apply Ho'.
Qed.

Lemma keeps_close {A} (items : list A) trail c : match trail with Some g => blank g | None => True end →
  (code c =? 93)%N || (code c =? 125)%N = true →
  keeps (write_trail true items trail +:+ String c "") (write_trail false items trail +:+ String c "").
Proof.
  intros Ht Hc. assert (is_ws c = false ∧ (code c =? 34)%N = false ∧ (code c =? 44)%N = false) as (Hws & H1 & H2).
  { unfold is_ws. apply orb_true_iff in Hc as [E%N.eqb_eq|E%N.eqb_eq]; rewrite E; done. }
  destruct trail as [g|]; cbn [write_trail]; [|by apply keeps_char].
  destruct items as [|x items].
  { repeat apply keeps_app; [apply keeps_nil|by apply keeps_blank|by apply keeps_char]. }
  assert (keeps (write_gap g +:+ String c "") (write_gap g +:+ String c "")) as Hk
    by (apply keeps_app; [by apply keeps_blank|by apply keeps_char]).
  intros rest. rewrite !append_assoc_str, comma_dropped; [specialize (Hk rest); by rewrite !append_assoc_str in Hk|].
  unfold trailingCommaFollowedByClose. rewrite skip_blank by done. cbn [String.append].
  rewrite skip_ws_char by done. cbn [next_is]. by rewrite orb_comm.
Qed.

Lemma bare_trail_blank trail : trail_ok trail → match bare_gap <$> trail with Some g => blank g | None => True end.
Proof. destruct trail; [apply bare_blank|done]. Qed.

Lemma opens_item g s : gap_ok g → (∀ rest, opening (s +:+ rest)) → opens (write_gap (bare_gap g) +:+ s).
Proof. intros Hg Hs rest. rewrite append_assoc_str. apply opening_open; [by apply bare_blank|done]. Qed.

Lemma value_bare c : value (bare_cst c) = value c.
Proof.
  induction c as [j|l trail IH|l trail IH] using cst_induction; [done|..]; cbn [bare_cst value]; rewrite map_map; f_equal;
    rewrite list.Forall_forall in IH; apply map_ext_in.
  - intros [[a c] b] Hin%list_elem_of_In. exact (IH _ Hin).
  - intros [[[[[a k] b] d] c] e] Hin%list_elem_of_In. by rewrite (IH _ Hin).
Qed.

Lemma keeps_write c : cst_ok c → wf (value c) → keeps (write true (bare_cst c)) (write false (bare_cst c)).
Proof.
  induction c as [j|l trail IH|l trail IH] using cst_induction; intros Hok Hwf.
  - cbn in *. destruct (atom_dull j Hok Hwf) as [(raw & Hr & ->)|H]; [by apply keeps_string|by apply keeps_dull].
  - apply ok_array in Hok as [Hok Htrail]. apply wf_values in Hwf. rewrite list.Forall_forall in IH, Hok, Hwf.
    cbn [write bare_cst]. rewrite !map_map. apply keeps_app; [by apply keeps_char|]. apply keeps_app.
    + apply keeps_join; [apply Forall2_fmap, Forall_Forall2_diag|apply List.Forall_map];
        apply list.Forall_forall; intros [[a c] b] Hin; destruct (Hok _ Hin) as (Ha & Hc & Hb);
        pose proof (Hwf _ Hin) as Hv; cbn in Hv.
      * specialize (IH _ Hin Hc Hv). repeat apply keeps_app; try done; by apply keeps_blank, bare_blank.
      * apply opens_item; [done|]. intros rest. rewrite append_assoc_str. apply write_opening. by rewrite value_bare.
    + apply keeps_close; [by apply bare_trail_blank|done].
  - apply ok_object in Hok as [Hok Htrail]. apply wf_members in Hwf. rewrite list.Forall_forall in IH, Hok, Hwf.
    cbn [write bare_cst]. rewrite !map_map. apply keeps_app; [by apply keeps_char|]. apply keeps_app.
    + apply keeps_join; [apply Forall2_fmap, Forall_Forall2_diag|apply List.Forall_map];
        apply list.Forall_forall; intros [[[[[a k] b] d] c] e] Hin; destruct (Hok _ Hin) as (Ha & Hb & Hd & Hc & He);
        destruct (Hwf _ Hin) as [Hk Hv].
      * specialize (IH _ Hin Hc Hv). apply keeps_app; [by apply keeps_blank, bare_blank|].
        apply keeps_app; [by apply keeps_string|].
        repeat apply keeps_app; try done; try by apply keeps_blank, bare_blank.
      * by apply opens_item.
    + apply keeps_close; [by apply bare_trail_blank|done].
Qed.

(** ** What is left is the value *)

Lemma ws_delim c s : is_ws c = true → delim (String c s).
Proof.
  unfold is_ws. intros H. repeat split; cbn; unfold is_digit, in_range;
    (repeat (apply orb_true_iff in H as [H|H]); apply N.eqb_eq in H; rewrite H; done).
Qed.

Lemma delim_gap g s : blank g → delim s → delim (write_gap g +:+ s).
Proof. intros Hg Hs. destruct g as [|t g]; [done|]. apply blank_cons in Hg as (c & -> & Hc & _). rewrite write_space. by apply ws_delim. Qed.

Lemma skip_gap_char g c s : blank g → is_ws c = false → skip_ws (write_gap g +:+ String c s) = String c s.
Proof. intros Hg Hc. rewrite skip_blank by done. by apply skip_ws_char. Qed.

Lemma opening_skip s : opening s → skip_ws s = s.
Proof. destruct s as [|c s]; [done|]. intros (H & _). by apply skip_ws_char. Qed.

Lemma opening_not n s : opening s → n = 93%N ∨ n = 125%N → is_char n s = None.
Proof. destruct s as [|c s]; [done|]. intros (_ & H1 & H2) [->| ->]; cbn; by rewrite ?H1, ?H2. Qed.

(** A written tree is read, whatever delimiter follows. *)
Definition reads_cst (c : cst) : Prop := ∀ fuel d rest, cst_ok c → wf (value c) →
  (d + depth (value c) <= maxNestingDepth)%N → Json.size (value c) ≤ fuel → delim rest →
  scan_value fuel d (write false (bare_cst c) +:+ rest) = Some (value c, rest).

Definition bare_elem : gap * cst * gap → gap * cst * gap := λ '(a, c, b), (bare_gap a, bare_cst c, bare_gap b).
Definition write_elem : gap * cst * gap → string := λ '(a, c, b), write_gap a +:+ write false c +:+ write_gap b.
Definition elem_value : gap * cst * gap → json := λ '(_, c, _), value c.

Definition elem_text (x : gap * cst * gap) : string := write_elem (bare_elem x).

Lemma trail_skips {A} (items : list A) trail c rest : trail_ok trail → is_ws c = false →
  skip_ws (write_trail false items (bare_gap <$> trail) +:+ String c rest) = String c rest.
Proof.
  intros Ht Hc. destruct trail as [g|]; [|by apply skip_ws_char].
  replace (write_trail false items (bare_gap <$> Some g)) with (write_gap (bare_gap g)) by by destruct items.
  by apply skip_gap_char, Hc; apply bare_blank.
Qed.

Lemma trail_delim {A} (items : list A) trail c rest : trail_ok trail → delim (String c rest) →
  delim (write_trail false items (bare_gap <$> trail) +:+ String c rest).
Proof.
  intros Ht Hc. destruct trail as [g|]; [|done].
  replace (write_trail false items (bare_gap <$> Some g)) with (write_gap (bare_gap g)) by by destruct items.
  by apply delim_gap, Hc; apply bare_blank.
Qed.

Lemma reads_elems l : ∀ x fuel d t rest, Forall (λ '(_, c, _), reads_cst c) (x :: l) →
  Forall (λ '(a, c, b), gap_ok a ∧ cst_ok c ∧ gap_ok b) (x :: l) → Forall wf (map elem_value (x :: l)) →
  (d + foldr (λ x d, N.max (depth x) d) 0 (map elem_value (x :: l)) <= maxNestingDepth)%N →
  foldr (λ x n, S (Json.size x + n)) 0 (map elem_value (x :: l)) ≤ fuel →
  delim t → skip_ws t = String "]" rest →
  scan_elems fuel d (skip_ws (Join (map elem_text (x :: l)) "," +:+ t))
  = Some (map elem_value (x :: l), rest).
Proof.
  induction l as [|y l IH]; intros [[a c] b] [|fuel] d t rest Hr Hok Hwf Hd Hf Ht Hs; try (simpl in Hf; lia).
  all: apply list.Forall_cons in Hr as [Hx Hr], Hok as [(Ha & Hc & Hb) Hok], Hwf as [Hwx Hwf].
  all: cbn [map foldr elem_value] in Hd, Hf, Hwx.
  - cbn [map]. unfold Join. cbn [String.concat elem_text bare_elem write_elem].
    rewrite !append_assoc_str, skip_blank by by apply bare_blank.
    rewrite opening_skip by (apply write_opening; by rewrite value_bare). cbn [scan_elems].
    rewrite Hx; [|done|done|lia|lia|apply delim_gap; [by apply bare_blank|done]].
    rewrite skip_blank by by apply bare_blank. by rewrite Hs.
  - change (Join (map ?f ((a, c, b) :: y :: l)) ",") with (f (a, c, b) +:+ "," +:+ Join (map f (y :: l)) ",").
    cbn [elem_text bare_elem write_elem]. rewrite !append_assoc_str, skip_blank by by apply bare_blank.
    rewrite opening_skip by (apply write_opening; by rewrite value_bare). cbn [scan_elems].
    rewrite Hx; [|done|done|lia|lia|apply delim_gap; [by apply bare_blank|by repeat split]].
    change ("," +:+ ?s) with (String "," s).
    rewrite skip_gap_char by (by apply bare_blank || done). cbn [is_char].
    change (code "," =? 44)%N with true. cbv iota.
    rewrite (IH y fuel d t rest) by (done || (cbn [map foldr elem_value]; lia)). done.
Qed.

Lemma join_head {A} (f : A → string) x l t : ∃ r, Join (map f (x :: l)) "," +:+ t = f x +:+ r.
Proof.
  destruct l as [|y l]; [by exists t|].
  change (Join (map f (x :: y :: l)) ",") with (f x +:+ "," +:+ Join (map f (y :: l)) ",").
  rewrite append_assoc_str. by eexists.
Qed.

Lemma write_array l trail : write false (bare_cst (CArray l trail))
  = "[" +:+ Join (map elem_text l) "," +:+ write_trail false l (bare_gap <$> trail) +:+ "]".
Proof.
  cbn [bare_cst write]. rewrite map_map. erewrite map_ext; [by destruct trail, l|]. by intros [[a c] b].
Qed.

Lemma elem_opening x r : (let '(a, c, b) := x in gap_ok a ∧ cst_ok c ∧ gap_ok b) → wf (elem_value x) →
  opening (skip_ws (elem_text x +:+ r)).
Proof.
  destruct x as [[a c] b]. intros (Ha & _) Hwf. cbn [elem_text bare_elem write_elem].
  rewrite !append_assoc_str, skip_blank by by apply bare_blank.
  rewrite opening_skip; apply write_opening; by rewrite value_bare.
Qed.

Lemma reads_cst_array l trail : Forall (λ '(_, c, _), reads_cst c) l → reads_cst (CArray l trail).
Proof.
  intros Hl [|fuel] d rest Hok Hwf Hd Hf Hrest; [simpl in Hf; lia|].
  apply ok_array in Hok as [Hok Htrail]. change (value (CArray l trail)) with (JArray (map elem_value l)) in *.
  rewrite wf_array in Hwf. cbn [depth Json.size] in Hd, Hf. rewrite write_array, !append_assoc_str.
  assert (Hx : (maxNestingDepth <=? d)%N = false) by (apply N.leb_gt; lia).
  change ("[" +:+ ?s) with (String "[" s). cbn [scan_value is_char].
  change (code "[" =? 123)%N with false. change (code "[" =? 91)%N with true. cbv iota. rewrite Hx.
  change ("]" +:+ rest) with (String "]" rest).
  destruct l as [|x l].
  { change (Join (map elem_text []) ",") with "". change ("" +:+ ?s) with s. by rewrite (trail_skips _ trail). }
  assert (delim (String "]" rest)) as Hclose by by repeat split.
  rewrite (opening_not 93); [..|by left].
  - rewrite (reads_elems l x fuel (d + 1) _ rest Hl Hok Hwf); [done|lia|lia| |]; [by apply trail_delim|by apply trail_skips].
  - match goal with |- opening (skip_ws (_ +:+ ?t)) => destruct (join_head elem_text x l t) as [r ->] end.
    apply list.Forall_cons in Hok as [Hok _], Hwf as [Hwf _]. by apply elem_opening.
Qed.

Definition member : Type := gap * string * gap * gap * cst * gap.

Definition member_text : member → string := λ '(a, k, b, d, c, e),
  write_gap (bare_gap a) +:+ quoted_raw k +:+ write_gap (bare_gap b) +:+ ":" +:+ write_gap (bare_gap d)
  +:+ write false (bare_cst c) +:+ write_gap (bare_gap e).

Definition member_value : member → string * json := λ '(_, k, _, _, c, _), (k, value c).

Definition member_ok : member → Prop := λ '(a, k, b, d, c, e),
  gap_ok a ∧ gap_ok b ∧ gap_ok d ∧ cst_ok c ∧ gap_ok e.

Lemma write_object l trail : write false (bare_cst (CObject l trail))
  = "{" +:+ Join (map member_text l) "," +:+ write_trail false l (bare_gap <$> trail) +:+ "}".
Proof.
  cbn [bare_cst write]. rewrite map_map. erewrite map_ext; [by destruct trail, l|]. by intros [[[[[a k] b] d] c] e].
Qed.

Lemma reads_members l : ∀ x fuel d t rest, Forall (λ '(_, _, _, _, c, _), reads_cst c) (x :: l) →
  Forall member_ok (x :: l) → Forall (λ m, wf_raw m.1 ∧ wf m.2) (map member_value (x :: l)) →
  (d + foldr (λ m d, N.max (depth m.2) d) 0 (map member_value (x :: l)) <= maxNestingDepth)%N →
  foldr (λ m n, S (Json.size m.2 + n)) 0 (map member_value (x :: l)) ≤ fuel →
  delim t → skip_ws t = String "}" rest →
  scan_members fuel d (skip_ws (Join (map member_text (x :: l)) "," +:+ t)) = Some (map member_value (x :: l), rest).
Proof.
  induction l as [|y l IH]; intros [[[[[a k] b] g] c] e] [|fuel] d t rest Hr Hok Hwf Hd Hf Ht Hs;
    try (simpl in Hf; lia).
  all: apply list.Forall_cons in Hr as [Hx Hr], Hok as [(Ha & Hb & Hg & Hc & He) Hok], Hwf as [[Hk Hwx] Hwf].
  all: cbn [map foldr member_value fst snd] in Hd, Hf, Hwx, Hk; apply wf_raw_literal in Hk.
  all: assert (∀ r, delim r → scan_members (S fuel) d (skip_ws (member_text (a, k, b, g, c, e) +:+ r)) =
    match is_char 44 (skip_ws r), is_char 125 (skip_ws r) with
    | Some r4, _ => option_map (λ p, ((k, value c) :: p.1, p.2)) (scan_members fuel d (skip_ws r4))
    | None, Some r4 => Some ([(k, value c)], r4)
    | None, None => None
    end) as Hm.
  1, 3: intros r Hdel; cbn [member_text]; rewrite !append_assoc_str, skip_blank by (by apply bare_blank);
    unfold quoted_raw; rewrite !append_assoc_str; change (dq +:+ ?s) with (String (byte_of 34) s);
    rewrite skip_ws_char by done; cbn [scan_members is_char]; change (code (byte_of 34) =? 34)%N with true; cbv iota;
    change (String (byte_of 34) ?s) with (dq +:+ s); rewrite scan_string_literal by done;
    change (":" +:+ ?s) with (String ":" s); rewrite skip_gap_char by (by apply bare_blank || done);
    cbn [is_char]; change (code ":" =? 58)%N with true; cbv iota;
    rewrite skip_blank by (by apply bare_blank);
    rewrite opening_skip by (apply write_opening; by rewrite value_bare);
    rewrite Hx; [|done|done|lia|lia|apply delim_gap; [by apply bare_blank|done]];
    by rewrite skip_blank by by apply bare_blank.
  - cbn [map]. unfold Join. cbn [String.concat]. rewrite Hm, Hs by done. reflexivity.
  - change (Join (map member_text ((a, k, b, g, c, e) :: y :: l)) ",")
      with (member_text (a, k, b, g, c, e) +:+ "," +:+ Join (map member_text (y :: l)) ",").
    rewrite !append_assoc_str, Hm by by repeat split.
    change ("," +:+ ?s) with (String "," s). rewrite skip_ws_char by done. cbn [is_char].
    change (code "," =? 44)%N with true. cbv iota.
    rewrite (IH y fuel d t rest) by (done || (cbn [map foldr]; lia)). done.
Qed.

Lemma reads_cst_object l trail : Forall (λ '(_, _, _, _, c, _), reads_cst c) l → reads_cst (CObject l trail).
Proof.
  intros Hl [|fuel] d rest Hok Hwf Hd Hf Hrest; [simpl in Hf; lia|].
  apply ok_object in Hok as [Hok Htrail]. change (value (CObject l trail)) with (JObject (map member_value l)) in *.
  rewrite wf_object in Hwf. cbn [depth Json.size] in Hd, Hf. rewrite write_object, !append_assoc_str.
  assert (Hx : (maxNestingDepth <=? d)%N = false) by (apply N.leb_gt; lia).
  change ("{" +:+ ?s) with (String "{" s). cbn [scan_value is_char].
  change (code "{" =? 123)%N with true. cbv iota. rewrite Hx. change ("}" +:+ rest) with (String "}" rest).
  destruct l as [|x l].
  { change (Join (map member_text []) ",") with "". change ("" +:+ ?s) with s. by rewrite (trail_skips _ trail). }
  assert (delim (String "}" rest)) as Hclose by by repeat split.
  rewrite (opening_not 125); [..|by right].
  - rewrite (reads_members l x fuel (d + 1) _ rest Hl Hok Hwf); [done|lia|lia| |]; [by apply trail_delim|by apply trail_skips].
  - match goal with |- opening (skip_ws (_ +:+ ?t)) => destruct (join_head member_text x l t) as [r Er] end.
    eapply (eq_ind_r (λ s, opening (skip_ws s))); [|exact Er].
    destruct x as [[[[[a k] b] g] c] e]. apply list.Forall_cons in Hok as [(Ha & _) _].
    cbn [member_text]. rewrite !append_assoc_str, skip_blank by by apply bare_blank. done.
Qed.

Lemma reads_cst_all c : reads_cst c.
Proof.
  induction c as [j|l trail IH|l trail IH] using cst_induction.
  - intros fuel d rest Hok Hwf Hd Hf Hrest. by apply reads_all.
  - by apply reads_cst_array.
  - by apply reads_cst_object.
Qed.

(** ** Documents *)

(** A document: a gap, a value, a gap, and perhaps a line comment that ends the file. *)
Record document := mkDocument { doc_before : gap; doc_value : cst; doc_after : gap; doc_end : option string }.

Definition write_end (o : option string) : string := match o with Some body => "//" +:+ body | None => "" end.

Definition document_text (doc : document) : string :=
  write_gap (doc_before doc) +:+ write true (doc_value doc) +:+ write_gap (doc_after doc) +:+ write_end (doc_end doc).

Definition document_ok (doc : document) : Prop :=
  gap_ok (doc_before doc) ∧ cst_ok (doc_value doc) ∧ gap_ok (doc_after doc)
  ∧ match doc_end doc with Some body => line_body body | None => True end.

Lemma end_dropped o : match o with Some body => line_body body | None => True end → uncommented (write_end o) = Some "".
Proof. destruct o as [body|]; [|done]. unfold line_body. intros H. cbn [write_end]. by rewrite uncommented_line, H. Qed.

Lemma join_longer xs ys : Forall2 (λ x y, String.length x ≤ String.length y) xs ys →
  String.length (Join xs ",") ≤ String.length (Join ys ",").
Proof.
  unfold Join. induction 1 as [|x y xs ys Hx H IH]; [done|]. destruct H as [|x' y' xs ys Hx' H]; [done|].
  change (String.length (x +:+ "," +:+ String.concat "," (x' :: xs)) ≤
          String.length (y +:+ "," +:+ String.concat "," (y' :: ys))).
  rewrite !length_append. lia.
Qed.

(** A layout is no shorter than the compact form. *)
Lemma write_longer c : String.length (print (value c)) ≤ String.length (write false (bare_cst c)).
Proof.
  induction c as [j|l trail IH|l trail IH] using cst_induction; [done|..].
  - rewrite write_array. change (value (CArray l trail)) with (JArray (map elem_value l)). cbn [print].
    rewrite !length_append, map_map.
    enough (String.length (Join (map (λ x, print (elem_value x)) l) ",") ≤ String.length (Join (map elem_text l) ","))
      by (cbn [String.length]; lia).
    apply join_longer, Forall2_fmap, Forall_Forall2_diag. eapply list.Forall_impl; [exact IH|].
    intros [[a c] b] H. cbn. rewrite !length_append. lia.
  - rewrite write_object. change (value (CObject l trail)) with (JObject (map member_value l)). cbn [print].
    rewrite !length_append, map_map. apply Nat.add_le_mono_l, Nat.add_le_mono; [|cbn; lia].
    apply join_longer, Forall2_fmap, Forall_Forall2_diag. eapply list.Forall_impl; [exact IH|].
    intros [[[[[a k] b] d] c] e] H. cbn [member_value member_text fst snd]. unfold quoted_raw. rewrite !length_append. lia.
Qed.

(** C38: Reading a configuration with comments reads every way of writing it.  Take any
    JSON value, any layout of it with white space, line comments and block comments
    between its tokens, and trailing commas after the last elements and members of its
    arrays and objects; what the two passes leave of the text is JSON, of that value. *)
Theorem jsonc_reads doc : document_ok doc → wf (value (doc_value doc)) →
  (depth (value (doc_value doc)) <= maxNestingDepth)%N →
  parse (stripJSONCComments (document_text doc)) = Some (value (doc_value doc)).
Proof.
  destruct doc as [a c b o]. intros (Ha & Hc & Hb & Ho) Hwf Hd. cbn [doc_before doc_value doc_after doc_end] in *.
  unfold stripJSONCComments, document_text. cbn [doc_before doc_value doc_after doc_end].
  pose proof (passes_app _ _ _ _ (passes_gap a Ha) (passes_app _ _ _ _ (passes_write c Hc Hwf) (passes_gap b Hb))
    (write_end o)) as E. rewrite !append_assoc_str in E. rewrite E, (end_dropped o Ho).
  cbn [fmap option_fmap option_map]. rewrite append_empty_r.
  pose proof (keeps_app _ _ _ _ (keeps_blank _ (bare_blank a Ha)) (keeps_app _ _ _ _ (keeps_write c Hc Hwf)
    (keeps_blank _ (bare_blank b Hb))) "") as K. rewrite !append_empty_r in K. rewrite K.
  unfold parse. rewrite skip_blank by by apply bare_blank.
  rewrite opening_skip by (apply write_opening; by rewrite value_bare).
  rewrite (reads_cst_all c _ 0%N (write_gap (bare_gap b))); try done.
  - rewrite <- (append_empty_r (write_gap _)), skip_blank by by apply bare_blank. done.
  - pose proof (size_print _ Hwf). pose proof (write_longer c). rewrite !length_append. lia.
  - rewrite <- (append_empty_r (write_gap _)). apply delim_gap; [by apply bare_blank|by repeat split].
Qed.

(** ** Plain JSON is left alone *)

(** [p] goes through both passes as it is. *)
Definition stable (p : string) : Prop := passes p p ∧ keeps p p.

Lemma stable_app a b : stable a → stable b → stable (a +:+ b).
Proof. intros [] []. split; [by apply passes_app|by apply keeps_app]. Qed.

Lemma stable_dull s : chars dull s → stable s.
Proof. intros H. split; [by apply passes_dull|by apply keeps_dull]. Qed.

Lemma stable_string raw : literal raw → stable (quoted_raw raw).
Proof. intros H. split; [by apply passes_string|by apply keeps_string]. Qed.

Lemma stable_char c : dull c → stable (String c "").
Proof. intros H. apply stable_dull, chars_cons. split; [done|constructor]. Qed.

Lemma stable_ws s : ∃ w, s = w +:+ skip_ws s ∧ stable w ∧ ∀ t, skip_ws (w +:+ t) = skip_ws t.
Proof.
  induction s as [|c s (w & E & H & Hw)]; [exists ""; split; [done|split; [by apply stable_dull; constructor|done]]|].
  cbn [skip_ws]. destruct (is_ws c) eqn:Ec.
  - exists (String c w). split; [by rewrite E at 1|]. split; [|intros t; cbn; by rewrite Ec].
    change (String c w) with (String c "" +:+ w). apply stable_app; [|done]. apply stable_char.
    repeat split; apply N.eqb_neq; intros X; unfold is_ws in Ec; by rewrite X in Ec.
  - exists "". split; [done|split; [by apply stable_dull; constructor|done]].
Qed.

(** What a scan has consumed: stable text with a value or a key at its head. *)
Definition consumed (s r : string) : Prop := ∃ p, s = p +:+ r ∧ stable p ∧ opening p.

Lemma opening_app p r : opening p → opening (p +:+ r).
Proof. by destruct p. Qed.

Lemma consumed_atom j s r : s = print j +:+ r → atomic j → wf j → consumed s r.
Proof.
  intros -> Ha Hwf. exists (print j). split; [done|]. split.
  - destruct (atom_dull j Ha Hwf) as [(raw & Hr & ->)|H]; [by apply stable_string|by apply stable_dull].
  - pose proof (atom_opening j "" Hwf) as H. by rewrite append_empty_r in H.
Qed.

(** A comma, white space and more items: the comma is not before a bracket. *)
Lemma stable_comma p w q : stable p → stable w → (∀ t, skip_ws (w +:+ t) = skip_ws t) → stable q → opening q →
  stable (p +:+ "," +:+ w +:+ q).
Proof.
  intros [Hp1 Hp2] [Hw1 Hw2] Hskip [Hq1 Hq2] Ho. split.
  - repeat apply passes_app; done || by apply passes_char.
  - apply keeps_app; [done|]. intros rest. rewrite !append_assoc_str, comma_kept, Hw2, Hq2; [done|].
    unfold trailingCommaFollowedByClose. rewrite Hskip, opening_skip by by apply opening_app.
    destruct q as [|c q]; [done|]. destruct Ho as (_ & H1 & H2). cbn. by rewrite H1, H2.
Qed.

Lemma is_char_inv n s r : is_char n s = Some r → ∃ c, s = String c r ∧ code c = n.
Proof. destruct s as [|c t]; [done|]. cbn. destruct (code c =? n)%N eqn:E; [|done]. intros [= <-]. exists c. split; [done|by apply N.eqb_eq]. Qed.

Lemma code_byte c n : code c = n → c = byte_of n.
Proof. intros <-. unfold byte_of, code. by rewrite ascii_N_embedding. Qed.


(** More stable text after what was consumed. *)
Lemma consumed_then s q r : consumed s (q +:+ r) → stable q → consumed s r.
Proof.
  intros (p & -> & Hp & Ho) Hq. exists (p +:+ q). rewrite append_assoc_str. split; [done|].
  split; [by apply stable_app|by apply opening_app].
Qed.

Lemma consumed_ws s r : consumed s r → consumed s (skip_ws r).
Proof. destruct (stable_ws r) as (w & E & Hw & _). rewrite E at 1. intros H. by apply (consumed_then s w). Qed.

Lemma consumed_char n s r r' : consumed s r → is_char n (skip_ws r) = Some r' → (n ≠ 34 ∧ n ≠ 47 ∧ n ≠ 44)%N →
  consumed s r'.
Proof.
  intros H%consumed_ws (c & E & Ec)%is_char_inv Hn. rewrite E in H.
  apply (consumed_then s (String c "")); [done|]. by apply stable_char, (code_dull n), Hn; apply N.eqb_eq.
Qed.

Lemma consumed_comma s r r' t : consumed s r → is_char 44 (skip_ws r) = Some r' → consumed (skip_ws r') t → consumed s t.
Proof.
  intros (p & -> & Hp & Ho)%consumed_ws (c & E & ->%code_byte)%is_char_inv (q & Eq & Hq & Hoq). rewrite E.
  destruct (stable_ws r') as (w & Ew & Hw & Hskip). rewrite Ew, Eq.
  exists (p +:+ "," +:+ w +:+ q). rewrite !append_assoc_str. split; [done|].
  split; [by apply stable_comma|by apply opening_app].
Qed.

(** A bracket, white space, and what follows. *)
Lemma consumed_open n s t r : is_char n s = Some t → n = 123%N ∨ n = 91%N → consumed (skip_ws t) r → consumed s r.
Proof.
  intros (c & -> & ->%code_byte)%is_char_inv Hn (p & E & Hp & Ho).
  destruct (stable_ws t) as (w & Ew & Hw & _). exists (String (byte_of n) (w +:+ p)). rewrite Ew, E.
  split; [by rewrite <- append_assoc_str|]. split; [|by destruct Hn as [->| ->]].
  change (String (byte_of n) (w +:+ p)) with (String (byte_of n) "" +:+ w +:+ p).
  repeat apply stable_app; try done. apply stable_char. by destruct Hn as [->| ->].
Qed.

Lemma consumed_empty n m s t r : is_char n s = Some t → n = 123%N ∨ n = 91%N →
  is_char m (skip_ws t) = Some r → (m ≠ 34 ∧ m ≠ 47 ∧ m ≠ 44)%N → consumed s r.
Proof.
  intros (c & -> & ->%code_byte)%is_char_inv Hn H Hm. apply (consumed_char m _ t); [|done|done].
  exists (String (byte_of n) ""). split; [done|]. split; [|by destruct Hn as [->| ->]].
  apply stable_char. by destruct Hn as [->| ->].
Qed.

Lemma consumed_string s t k r : is_char 34 s = Some t → scan_string t = Some (k, r) → consumed s r.
Proof.
  intros (c & -> & ->%code_byte)%is_char_inv (Hk & ->)%(scan_string_sound _ _ _ _ (le_n _)).
  exists (quoted_raw k). unfold quoted_raw. rewrite !append_assoc_str. split; [done|].
  split; [by apply stable_string|done].
Qed.

Lemma scan_consumes fuel :
  (∀ d s j r, scan_value fuel d s = Some (j, r) → consumed s r) ∧
  (∀ d s ms r, scan_members fuel d s = Some (ms, r) → consumed s r) ∧
  (∀ d s l r, scan_elems fuel d s = Some (l, r) → consumed s r).
Proof.
  induction fuel as [|fuel (IHv & IHm & IHe)]; [done|]. split; [|split].
  - intros d s j r. cbn [scan_value].
    destruct (is_char 123 s) as [t|] eqn:E0.
    { destruct (maxNestingDepth <=? d)%N; [done|].
      destruct (is_char 125 _) eqn:E1; [intros [= <- <-]; by eapply consumed_empty; eauto|].
      destruct (scan_members _ _ _) as [[ms r']|] eqn:E; [|done]. intros [= <- <-].
      eapply consumed_open; [done|by left|by eapply IHm]. }
    destruct (is_char 91 s) as [t|] eqn:E1.
    { destruct (maxNestingDepth <=? d)%N; [done|].
      destruct (is_char 93 _) eqn:E2; [intros [= <- <-]; by eapply consumed_empty; eauto|].
      destruct (scan_elems _ _ _) as [[l r']|] eqn:E; [|done]. intros [= <- <-].
      eapply consumed_open; [done|by right|by eapply IHe]. }
    destruct (is_char 34 s) as [t|] eqn:E2.
    { destruct (scan_string t) as [[a b]|] eqn:E; [|done]. intros [= <- <-]. by eapply consumed_string. }
    destruct (CutPrefix "null" s) eqn:E3; [intros [= <- <-]; apply CutPrefix_Some in E3; by apply (consumed_atom JNull)|].
    destruct (CutPrefix "true" s) eqn:E4; [intros [= <- <-]; apply CutPrefix_Some in E4; by apply (consumed_atom (JBool true))|].
    destruct (CutPrefix "false" s) eqn:E5; [intros [= <- <-]; apply CutPrefix_Some in E5; by apply (consumed_atom (JBool false))|].
    destruct (scan_number s) as [[a b]|] eqn:E; [|done]. intros [= <- <-].
    apply scan_number_sound in E as [-> E]. by apply (consumed_atom (JNumber a)).
  - intros d s ms r. cbn [scan_members]. destruct (is_char 34 s) as [t|] eqn:E0; [|done].
    destruct (scan_string t) as [[k r1]|] eqn:E1; [|done]. pose proof (consumed_string _ _ _ _ E0 E1) as H.
    destruct (is_char 58 _) as [r2|] eqn:E2; [|done]. apply (consumed_char 58 _ _ r2) in H; [|done|done].
    destruct (scan_value _ _ _) as [[v r3]|] eqn:E3; [|done]. apply IHv in E3.
    assert (consumed s r3) as H3.
    { apply consumed_ws in H. destruct E3 as (p & E & Hp & _). rewrite E in H. by apply (consumed_then s p). }
    destruct (is_char 44 _) as [r4|] eqn:E4.
    + destruct (scan_members _ _ _) as [[ms' r5]|] eqn:E5; [|done]. intros [= <- <-].
      eapply consumed_comma; [done|done|by eapply IHm].
    + destruct (is_char 125 _) as [r4|] eqn:E5; [|done]. intros [= <- <-]. by eapply consumed_char.
  - intros d s l r. cbn [scan_elems].
    destruct (scan_value _ _ _) as [[v r1]|] eqn:E1; [|done]. apply IHv in E1.
    destruct (is_char 44 _) as [r4|] eqn:E4.
    + destruct (scan_elems _ _ _) as [[l' r5]|] eqn:E5; [|done]. intros [= <- <-].
      eapply consumed_comma; [done|done|by eapply IHe].
    + destruct (is_char 93 _) as [r4|] eqn:E5; [|done]. intros [= <- <-]. by eapply consumed_char.
Qed.

(** Plain JSON goes through as it is. *)
Lemma jsonc_plain s j : parse s = Some j → uncommented s = Some s ∧ stripJSONCComments s = s.
Proof.
  unfold parse. intros H. enough (stable s) as [Hp Hk].
  { specialize (Hp ""). specialize (Hk ""). rewrite !append_empty_r in Hp, Hk.
    assert (uncommented s = Some s) as E by (rewrite Hp; cbn; by rewrite append_empty_r).
    split; [done|]. unfold stripJSONCComments. rewrite E, Hk. change (stripTrailingCommas "") with "". by rewrite append_empty_r. }
  destruct (stable_ws s) as (w & E & Hw & _). rewrite E. apply stable_app; [done|].
  destruct (scan_value _ _ _) as [[j' r]|] eqn:Es; [|done]. apply scan_consumes in Es as (p & -> & Hp & _).
  apply stable_app; [done|]. destruct (stable_ws r) as (w' & E' & Hw' & _).
  destruct (skip_ws r); [|done]. by rewrite E', append_empty_r.
Qed.

(** A text with a block comment that has no end is not accepted. *)
Lemma unterminated_rejected s : uncommented s = None → parse (stripJSONCComments s) = None.
Proof.
  intros H. unfold stripJSONCComments. rewrite H. destruct (parse s) as [j|] eqn:E; [|done].
  apply jsonc_plain in E as [E _]. congruence.
Qed.

(** A layout with every kind of gap. *)
Module Example.

Definition strings : cst := CArray [
  ([TSpace (byte_of 10); TLine " first"], CAtom (JString "test/**/*.ts"), []);
  ([TBlock " second **"], CAtom (JString "a // b"), [TSpace " "%char])] (Some [TLine ", none left"]).

Definition tsconfig : document :=
  mkDocument [TBlock ""] (CObject [
    ([], "exclude", [TSpace " "%char], [TBlock "x"], strings, []);
    ([TSpace (byte_of 9)], "strict", [], [], CAtom (JBool true), [])] (Some [TSpace (byte_of 13)])) [] (Some " eof").

Lemma jsonc_reads_witness :
  document_ok tsconfig ∧ parse (stripJSONCComments (document_text tsconfig)) = Some (value (doc_value tsconfig)).
Proof.
  assert (document_ok tsconfig) as H.
  { repeat split; repeat constructor. }
  split; [exact H|]. apply (jsonc_reads tsconfig H); vm_compute; [repeat split|discriminate].
Defined.

End Example.
