(* ===== verification/Utf8.v ===== *)
(** * UTF-8 strings through trimming and JSON

    What [strings.TrimSpace] and the reading of a JSON string keep: the text stays
    valid UTF-8, and trimming twice is trimming once. *)

From Stdlib Require Import Ascii.
From S2P Require Import Prelude GoText GoHash Json.

#[local] Arguments String.append : simpl nomatch.

(** ** Reversal *)

Lemma append_cons_str c s t : String c s +:+ t = String c (s +:+ t).
Proof. done. Qed.

Lemma rev_string_acc_app s acc : rev_string_acc s acc = rev_string s +:+ acc.
Proof.
  unfold rev_string. revert acc. induction s as [|c s IH]; intros acc; [done|]. cbn.
  rewrite (IH (String c acc)), (IH (String c "")). by rewrite append_assoc_str.
Qed.

Lemma rev_string_cons c s : rev_string (String c s) = rev_string s +:+ String c "".
Proof. unfold rev_string. cbn. by rewrite rev_string_acc_app. Qed.

Lemma rev_string_app a b : rev_string (a +:+ b) = rev_string b +:+ rev_string a.
Proof.
  induction a as [|c a IH]; [by rewrite append_empty_r|].
  change (String c a +:+ b) with (String c (a +:+ b)). by rewrite !rev_string_cons, IH, append_assoc_str.
Qed.

Lemma rev_string_involutive s : rev_string (rev_string s) = s.
Proof. induction s as [|c s IH]; [done|]. by rewrite rev_string_cons, rev_string_app, IH. Qed.

(** ** Trimming *)

Section Trim.
Context (sp2 : ascii → ascii → bool) (sp3 : ascii → ascii → ascii → bool).

(** Nothing to trim at the front. *)
Definition trimmed (s : string) : Prop := trim_runes sp2 sp3 s = s.

(** What the trimming drops is a sequence of spaces. *)
Inductive spaces_then : string → string → Prop :=
  | spaces_done s : spaces_then s s
  | spaces_1 a t s : space1 a = true → spaces_then t s → spaces_then (String a t) s
  | spaces_2 a b t s : sp2 a b = true → spaces_then t s → spaces_then (String a (String b t)) s
  | spaces_3 a b c t s : sp3 a b c = true → spaces_then t s →
      spaces_then (String a (String b (String c t))) s.

Lemma trim_spaces n s : String.length s ≤ n → spaces_then s (trim_runes sp2 sp3 s).
Proof.
  revert s. induction n as [|n IH]; intros s Hn; [destruct s; [constructor|simpl in Hn; lia]|].
  destruct s as [|a t]; [constructor|]. cbn [trim_runes]. simpl in Hn.
  destruct (space1 a) eqn:E1; [apply spaces_1; [done|apply IH; lia]|].
  destruct t as [|b u]; [constructor|]. simpl in Hn.
  destruct (sp2 a b) eqn:E2; [apply spaces_2; [done|apply IH; lia]|].
  destruct u as [|c v]; [constructor|]. simpl in Hn.
  destruct (sp3 a b c) eqn:E3; [apply spaces_3; [done|apply IH; lia]|constructor].
Qed.

Lemma spaces_then_split s t : spaces_then s t → ∃ p, s = p +:+ t.
Proof.
  induction 1 as [|a t s _ _ [p ->]|a b t s _ _ [p ->]|a b c t s _ _ [p ->]];
    [by exists ""|by exists (String a p)|by exists (String a (String b p))
    |by exists (String a (String b (String c p)))].
Qed.

Lemma trim_suffix s : ∃ p, s = p +:+ trim_runes sp2 sp3 s.
Proof. eapply spaces_then_split, trim_spaces, le_n. Qed.

Lemma trim_shorter s : String.length (trim_runes sp2 sp3 s) ≤ String.length s.
Proof. destruct (trim_suffix s) as [p E]. rewrite E at 2. rewrite length_append. lia. Qed.

Lemma trim_idem n s : String.length s ≤ n → trimmed (trim_runes sp2 sp3 s).
Proof.
  unfold trimmed. revert s. induction n as [|n IH]; intros s Hn; [destruct s; [done|simpl in Hn; lia]|].
  destruct s as [|a t]; [done|]. cbn [trim_runes]. simpl in Hn.
  destruct (space1 a) eqn:E1; [apply IH; lia|].
  destruct t as [|b u]; [by cbn; rewrite E1|]. simpl in Hn.
  destruct (sp2 a b) eqn:E2; [apply IH; lia|].
  destruct u as [|c v]; [by cbn; rewrite E1, E2|]. simpl in Hn.
  destruct (sp3 a b c) eqn:E3; [apply IH; lia|]. cbn [trim_runes]. by rewrite E1, E2, E3.
Qed.

(** A prefix of a text with nothing to trim has nothing to trim. *)
Lemma trimmed_prefix p q : trimmed (p +:+ q) → trimmed p.
Proof.
  unfold trimmed. destruct p as [|a t]; [done|]. change (String a t +:+ q) with (String a (t +:+ q)).
  assert (∀ u x, trim_runes sp2 sp3 u = x → String.length u < String.length x → False) as Hshort.
  { intros u x <- Hl. pose proof (trim_shorter u). lia. }
  cbn [trim_runes]. destruct (space1 a); [intros H; exfalso; eapply Hshort; [exact H|simpl; lia]|].
  destruct t as [|b u]; [done|]. change (String b u +:+ q) with (String b (u +:+ q)). cbv beta iota.
  destruct (sp2 a b); [intros H; exfalso; eapply Hshort; [exact H|simpl; lia]|].
  destruct u as [|c v]; [done|]. change (String c v +:+ q) with (String c (v +:+ q)). cbv beta iota.
  destruct (sp3 a b c); [intros H; exfalso; eapply Hshort; [exact H|simpl; lia]|done].
Qed.
End Trim.

Lemma TrimRight_prefix s : ∃ q, s = TrimRightSpace s +:+ q.
Proof.
  unfold TrimRightSpace. destruct (trim_suffix (λ b a, space2 a b) (λ c b a, space3 a b c) (rev_string s)) as [p E].
  exists (rev_string p). by rewrite <- rev_string_app, <- E, rev_string_involutive.
Qed.

Lemma TrimSpace_idem s : TrimSpace (TrimSpace s) = TrimSpace s.
Proof.
  unfold TrimSpace. assert (TrimLeftSpace (TrimRightSpace (TrimLeftSpace s)) = TrimRightSpace (TrimLeftSpace s)) as ->.
  { destruct (TrimRight_prefix (TrimLeftSpace s)) as [q E]. apply (trimmed_prefix _ _ _ q).
    unfold trimmed. rewrite <- E. by apply (trim_idem _ _ (String.length s)). }
  generalize (TrimLeftSpace s). intros t. unfold TrimRightSpace. rewrite rev_string_involutive. f_equal.
  by apply (trim_idem _ _ (String.length (rev_string t))).
Qed.

(** ** Rune boundaries *)

(** The bytes after the first of a rune are continuation bytes. *)
Fixpoint all_cont (s : string) : bool :=
  match s with EmptyString => true | String c t => cont c && all_cont t end.

Lemma decode_rune_conts s r bytes rest : decode_rune s = Some (r, bytes, rest) →
  ∃ a t, bytes = String a t ∧ all_cont t = true.
Proof.
  intros H. destruct s as [|a [|b u]]; try done. cbn [decode_rune] in H.
  destruct (_ && _) eqn:E1 in H.
  { injection H as <- <- <-. do 2 eexists. split; [done|]. cbn. by apply andb_true_iff in E1 as [_ ->]. }
  destruct u as [|c v]; [done|]. destruct (_ && _) eqn:E2 in H.
  { injection H as <- <- <-. do 2 eexists. split; [done|]. cbn. repeat rewrite andb_true_iff in E2.
    by destruct E2 as [[[[_ ->] ->] _] _]. }
  destruct v as [|d w]; [done|]. destruct (_ && _) eqn:E3 in H; [|done].
  injection H as <- <- <-. do 2 eexists. split; [done|]. cbn. repeat rewrite andb_true_iff in E3.
  by destruct E3 as [[[[[_ ->] ->] ->] _] _].
Qed.

Lemma app_split_string a b p q : a +:+ b = p +:+ q →
  (∃ p', p = a +:+ p' ∧ b = p' +:+ q) ∨ (∃ a', a' ≠ "" ∧ a = p +:+ a' ∧ q = a' +:+ b).
Proof.
  revert p. induction a as [|c a IH]; intros p E.
  { left. by exists p. }
  destruct p as [|d p]; [right; exists (String c a); split_and!; [done|done|by symmetry]|].
  rewrite !append_cons_str in *. injection E as -> E.
  destruct (IH p E) as [(p' & Hp & Hb)|(a' & Hn & Ha & Hq)]; [left|right].
  - exists p'. by rewrite Hp.
  - exists a'. by rewrite Ha.
Qed.

Lemma all_cont_app_r a c b : all_cont (a +:+ String c b) = true → cont c = true.
Proof. induction a as [|d a IH]; [|rewrite append_cons_str]; cbn; intros [H1 H2]%andb_true_iff; auto. Qed.

(** A cut before a byte that begins a rune leaves whole runes. *)
Lemma valid_utf8_cut s : valid_utf8 s → ∀ p c q, s = p +:+ String c q → cont c = false → valid_utf8 p.
Proof.
  induction 1 as [|d s Hd Hs IH|s r bytes rest Hn Hd Hs IH]; intros p c q E Hc.
  - by destruct p.
  - destruct p as [|e p]; [constructor|]. injection E as <- E. apply utf8_ascii; [done|]. by eapply IH.
  - pose proof (decode_rune_split _ _ _ _ Hd) as [Es _]. rewrite Es in E.
    destruct (app_split_string _ _ _ _ E) as [(p' & -> & E')|(a' & Ha & Eb & Eq)].
    + pose proof (decode_rune_bytes _ _ _ _ Hd) as (_ & Hany & a & t & -> & Ha).
      eapply utf8_rune; [|apply Hany|by eapply IH].
      intros x y [= <- _]. apply N.ltb_ge. by apply N.leb_le in Ha.
    + destruct (decode_rune_conts _ _ _ _ Hd) as (a & t & -> & Ht). destruct p as [|b p]; [constructor|].
      exfalso. destruct a' as [|x a']; [done|]. injection Eq as <- _. injection Eb as _ ->.
      by rewrite (all_cont_app_r _ _ _ Ht) in Hc.
Qed.

Lemma valid_utf8_tail c s : valid_utf8 (String c s) → (code c <? 128)%N = true → valid_utf8 s.
Proof. inversion 1; subst; [done|]. intros Hc. by rewrite (H0 _ _ eq_refl) in Hc. Qed.

Lemma space1_ascii a : space1 a = true → (code a <? 128)%N = true ∧ cont a = false.
Proof.
  unfold space1, cont, in_range. intros H. rewrite orb_true_iff, andb_true_iff, !N.leb_le, N.eqb_eq in H.
  split; [apply N.ltb_lt; lia|]. apply andb_false_iff. left. apply N.leb_gt. lia.
Qed.

(** [unicode.IsSpace] holds of whole runes. *)
Lemma space2_rune a b t : space2 a b = true →
  cont a = false ∧ (code a <? 128)%N = false ∧ ∃ r, decode_rune (String a (String b t)) = Some (r, String a (String b ""), t).
Proof.
  unfold space2. intros [Ha Hb]%andb_true_iff. apply N.eqb_eq in Ha. cbn [decode_rune].
  unfold cont, in_range. rewrite Ha. split; [done|]. split; [done|].
  apply orb_true_iff in Hb as [Hb|Hb]; apply N.eqb_eq in Hb; rewrite Hb; by eexists.
Qed.

Lemma space3_rune a b c t : space3 a b c = true →
  cont a = false ∧ (code a <? 128)%N = false
  ∧ ∃ r, decode_rune (String a (String b (String c t))) = Some (r, String a (String b (String c "")), t).
Proof.
  unfold space3. intros H. cbn [decode_rune]. unfold cont, in_range in *.
  rewrite !orb_true_iff, !andb_true_iff, !orb_true_iff, !andb_true_iff, !N.leb_le, !N.eqb_eq in H.
  assert ((code a = 225 ∨ code a = 226 ∨ code a = 227) ∧ (128 <= code b <= 191) ∧ (128 <= code c <= 191))%N
    as (Ha & [Hb Hb'] & [Hc Hc']) by lia.
  apply N.leb_le in Hb, Hb', Hc, Hc'. rewrite Hb, Hb', Hc, Hc'.
  destruct Ha as [Ha|[Ha|Ha]]; rewrite Ha; (split; [done|]; split; [done|]; by eexists).
Qed.

Lemma valid_utf8_after s r bytes rest : valid_utf8 s → decode_rune s = Some (r, bytes, rest) →
  (∀ c t, s = String c t → (code c <? 128)%N = false) → valid_utf8 rest.
Proof.
  intros Hv Hd Hn. inversion Hv as [|c s' Hc|s' r' bytes' rest' _ Hd' Hr]; subst; [done| |congruence].
  by rewrite (Hn _ _ eq_refl) in Hc.
Qed.

Lemma TrimLeftSpace_valid s : valid_utf8 s → valid_utf8 (TrimLeftSpace s).
Proof.
  unfold TrimLeftSpace. pose proof (trim_spaces space2 space3 _ s (le_n _)) as H. revert H.
  generalize (trim_runes space2 space3 s). intros t Ht. induction Ht as [|a t s Ha _ IH|a b t s Ha _ IH|a b c t s Ha _ IH]; intros Hv; [done|..].
  - apply IH. eapply valid_utf8_tail; [done|]. by apply space1_ascii.
  - apply IH. destruct (space2_rune a b t Ha) as (_ & Hn & r & Hd). eapply valid_utf8_after; [done..|]. by intros ?? [= <- _].
  - apply IH. destruct (space3_rune a b c t Ha) as (_ & Hn & r & Hd). eapply valid_utf8_after; [done..|]. by intros ?? [= <- _].
Qed.

Lemma TrimRightSpace_valid s : valid_utf8 s → valid_utf8 (TrimRightSpace s).
Proof.
  unfold TrimRightSpace. rewrite <- (rev_string_involutive s) at 1. generalize (rev_string s). clear s. intros x.
  pose proof (trim_spaces (λ b a, space2 a b) (λ c b a, space3 a b c) _ x (le_n _)) as H. revert H.
  generalize (trim_runes (λ b a, space2 a b) (λ c b a, space3 a b c) x). intros t Ht.
  induction Ht as [|a t s Ha _ IH|a b t s Ha _ IH|a b c t s Ha _ IH]; intros Hv; [done|..]; apply IH;
    rewrite !rev_string_cons in Hv; rewrite ?append_assoc_str in Hv; cbn in Hv.
  - eapply valid_utf8_cut; [done|done|]. by apply space1_ascii.
  - eapply valid_utf8_cut; [done|done|]. by apply (space2_rune b a "").
  - eapply valid_utf8_cut; [done|done|]. by apply (space3_rune c b a "").
Qed.

Lemma TrimSpace_valid s : valid_utf8 s → valid_utf8 (TrimSpace s).
Proof. intros H. by apply TrimRightSpace_valid, TrimLeftSpace_valid. Qed.

(** ** Reading a JSON string *)

Lemma is_hex_bound c : is_hex c = true → (hex_value c < 16)%N.
Proof. intros H. all_bytes c; solve [discriminate H|reflexivity]. Qed.

Lemma hex4_bound a b c d :
  is_hex a && is_hex b && is_hex c && is_hex d = true → (hex4 a b c d < 65536)%N.
Proof.
  intros [[[Ha%is_hex_bound Hb%is_hex_bound]%andb_true_iff Hc%is_hex_bound]%andb_true_iff Hd%is_hex_bound]%andb_true_iff.
  unfold hex4. lia.
Qed.


Lemma cont_low n : cont (byte_of (128 + n `mod` 64)) = true.
Proof.
  unfold cont, in_range. pose proof (N.mod_upper_bound n 64 ltac:(done)) as H.
  revert H. generalize (n `mod` 64)%N. intros k H. rewrite code_byte_of by lia.
  apply andb_true_iff. split; apply N.leb_le; lia.
Qed.

Ltac n_div_lia := zify; Z.to_euclidean_division_equations; lia.
Ltac bytes_lia := repeat rewrite code_byte_of by n_div_lia;
  repeat rewrite andb_true_iff; repeat rewrite orb_true_iff; repeat rewrite negb_true_iff;
  repeat rewrite N.leb_le; repeat rewrite N.eqb_neq; n_div_lia.

(** A rune is written as one rune. *)
Lemma encode_rune_valid r s : (r < 1114112)%N → valid_utf8 s → valid_utf8 (encode_rune r +:+ s).
Proof.
  unfold encode_rune. intros Hr Hs.
  assert ((if in_range 55296 57343 r then 65533 else r) < 1114112
    ∧ ¬ (55296 <= (if in_range 55296 57343 r then 65533 else r) <= 57343))%N as [Hlt Hsur].
  { unfold in_range. destruct (N.leb_spec 55296 r), (N.leb_spec r 57343); cbn; lia. }
  revert Hlt Hsur. generalize (if in_range 55296 57343 r then 65533%N else r). clear r Hr. intros r Hr Hsur.
  destruct (N.ltb_spec r 128).
  { apply utf8_ascii; [|done]. rewrite code_byte_of by lia. by apply N.ltb_lt. }
  assert (∀ b t, (128 <=? b)%N = true → (b < 256)%N → ∀ c u, String (byte_of b) t = String c u → (code c <? 128)%N = false) as Hlead.
  { intros b t Hb Hb2 c u [= <- _]. rewrite code_byte_of by done. apply N.ltb_ge. by apply N.leb_le. }
  destruct (N.ltb_spec r 2048); [|destruct (N.ltb_spec r 65536)]; cbn [String.append].
  - eapply utf8_rune; [apply Hlead; [apply N.leb_le; n_div_lia|]| |exact Hs].
    { n_div_lia. }
    cbn [decode_rune]. rewrite cont_low.
    replace (in_range 194 223 _) with true; [done|]. symmetry. unfold in_range. bytes_lia.
  - eapply utf8_rune; [apply Hlead; [apply N.leb_le; n_div_lia|]| |exact Hs].
    { n_div_lia. }
    cbn [decode_rune]. rewrite !cont_low.
    replace (in_range 194 223 _) with false; cbn [andb].
    2:{ symmetry. unfold in_range. apply andb_false_iff. right. apply N.leb_gt. bytes_lia. }
    replace (in_range 224 239 _) with true; cbn [andb].
    2:{ symmetry. unfold in_range. bytes_lia. }
    match goal with |- context [if ?b then _ else _] => replace b with true; [done|] end.
    symmetry. bytes_lia.
  - eapply utf8_rune; [apply Hlead; [apply N.leb_le; n_div_lia|]| |exact Hs].
    { n_div_lia. }
    cbn [decode_rune]. rewrite !cont_low.
    replace (in_range 194 223 _) with false; cbn [andb].
    2:{ symmetry. unfold in_range. apply andb_false_iff. right. apply N.leb_gt. bytes_lia. }
    replace (in_range 224 239 _) with false; cbn [andb].
    2:{ symmetry. unfold in_range. apply andb_false_iff. right. apply N.leb_gt. bytes_lia. }
    replace (in_range 240 244 _) with true; cbn [andb].
    2:{ symmetry. unfold in_range. bytes_lia. }
    match goal with |- context [if ?b then _ else _] => replace b with true; [done|] end.
    symmetry. bytes_lia.
Qed.

Lemma literal_tail_high c s : literal (String c s) → (128 <=? code c)%N = true → literal s.
Proof.
  intros H Hc%N.leb_le.
  inversion H; subst; [done|..];
    match goal with He : (code c =? 92)%N = true |- _ => apply N.eqb_eq in He; rewrite He in Hc; by destruct Hc end.
Qed.

Lemma literal_after_conts p s : all_cont p = true → literal (p +:+ s) → literal s.
Proof.
  induction p as [|c p IH]; [done|]. cbn [all_cont]. intros [Hc Hp]%andb_true_iff H. apply IH; [done|].
  eapply literal_tail_high; [exact H|by apply cont_high].
Qed.

Lemma literal_hex_inv c e h1 h2 h3 h4 s :
  literal (String c (String e (String h1 (String h2 (String h3 (String h4 s)))))) →
  (code c =? 92)%N = true → (code e =? 117)%N = true →
  is_hex h1 && is_hex h2 && is_hex h3 && is_hex h4 = true ∧ literal s.
Proof.
  intros H Hc He. inversion H; subst; [congruence| |done].
  match goal with Hx : is_escaped e = true |- _ => by rewrite (is_escaped_u _ He) in Hx end.
Qed.

Lemma unescape_ascii e : is_escaped e = true → (code (unescape_byte e) <? 128)%N = true.
Proof. intros H. all_bytes e; solve [discriminate H|reflexivity]. Qed.

(** Whatever a literal says, the Go string it denotes is valid UTF-8. *)
Lemma unquote_body_valid n raw : literal raw → valid_utf8 (unquote_body n raw).
Proof.
  revert raw. induction n as [|n IH]; intros raw Hl; [constructor|].
  destruct raw as [|c t]; [constructor|]. cbn [unquote_body].
  destruct (code c =? 92)%N eqn:Ec.
  - destruct t as [|e u]; [constructor|]. destruct (code e =? 117)%N eqn:Ee.
    + destruct u as [|h1 [|h2 [|h3 [|h4 v]]]]; try constructor.
      destruct (literal_hex_inv _ _ _ _ _ _ _ Hl Ec Ee) as [Hh Hv]. apply hex4_bound in Hh.
      destruct (in_range 55296 56319 _) eqn:Er; [|apply encode_rune_valid; [by eapply N.lt_trans|auto]].
      destruct (low_surrogate v) as [[lo w]|] eqn:Es; [|apply encode_rune_valid; [by eapply N.lt_trans|auto]].
      unfold low_surrogate in Es. destruct v as [|b [|f [|k1 [|k2 [|k3 [|k4 x]]]]]]; try done.
      destruct (_ && _) eqn:Ef in Es; [|done]. injection Es as <- <-.
      apply andb_true_iff in Ef as [[Eb Ef]%andb_true_iff Elo].
      destruct (literal_hex_inv _ _ _ _ _ _ _ Hv Eb Ef) as [_ Hw].
      apply encode_rune_valid; [|auto]. unfold in_range in Er, Elo.
      rewrite andb_true_iff, !N.leb_le in Er, Elo. lia.
    + inversion Hl; subst; [congruence| |congruence]. apply utf8_ascii; [by apply unescape_ascii|auto].
  - destruct (code c <? 128)%N eqn:E1.
    { inversion Hl; subst; try congruence. apply utf8_ascii; auto. }
    assert ((128 <=? code c)%N = true) as Eh by (apply N.leb_le; by apply N.ltb_ge in E1).
    destruct (decode_rune _) as [[[r bytes] rest]|] eqn:Ed.
    + pose proof (decode_rune_split _ _ _ _ Ed) as [Es _].
      pose proof (decode_rune_bytes _ _ _ _ Ed) as (_ & Hany & a & b & Eb & Ha).
      destruct (decode_rune_conts _ _ _ _ Ed) as (a' & t' & Eb' & Ht). rewrite Eb' in *. injection Eb as <- <-.
      eapply utf8_rune; [|apply Hany|].
      * intros x y [= <- _]. apply N.ltb_ge. by apply N.leb_le in Ha.
      * apply IH. injection Es as -> ->. apply (literal_after_conts t'); [done|].
        eapply literal_tail_high; [exact Hl|done].
    + apply encode_rune_valid; [done|]. apply IH. by eapply literal_tail_high.
Qed.

Lemma unquote_valid raw : wf_raw raw → valid_utf8 (unquote raw).
Proof. intros H. by apply unquote_body_valid, wf_raw_literal. Qed.
