(* ===== verification/GoErr.v ===== *)
(** * Go errors and times

    What the job platform uses of [errors], [fmt.Errorf] and [time].  An error
    value is its message and the sentinels [errors.Is] and [errors.As] find along
    its unwrap chain.  A [time.Time] is the nanoseconds since the zero time, a
    [time.Duration] the nanoseconds of a 64-bit integer. *)

From S2P Require Import Prelude GoText.

(** The sentinel values and marker types the platform looks for. *)
Inductive sentinel :=
  | ErrJobNotFound | ErrClaimLost | ErrNotClaimable
  | RetryableMarker | Canceled | DeadlineExceeded
  | ErrUnknownTool | ErrBudgetExceeded | ErrInvalidArgs
  | ErrSchemaValidation | ErrUnavailable
  | ErrNotAuthorized
  | ErrUnauthenticated | ErrDenylistStore
  | GhErrAuth | GhErrNotFound | GhErrUnsupportedContent | GhErrEmptyContent | GhErrTooLarge
  | TokenMintMarker
  | SemErrEmptyContent | SemErrUnsupportedLanguage | SemErrSyntax | SemErrFileTooLarge | SemErrBinaryContent
  | SemErrParseFailure.

#[export] Instance sentinel_eq_dec : EqDecision sentinel.
Proof. solve_decision. Defined.

Record error := mkError { err_Error : string; err_chain : list sentinel }.

(** [errors.New]. *)
Definition errors_New (msg : string) : error := mkError msg [].

(** [errors.Is(err, s)], for a non-nil [err]. *)
Definition errors_Is (err : error) (s : sentinel) : bool := bool_decide (s ∈ err_chain err).

(** [fmt.Errorf(prefix + "%w", err)]. *)
Definition Errorf (prefix : string) (err : error) : error :=
  mkError (prefix +:+ err_Error err) (err_chain err).

Definition sentinel_message (s : sentinel) : string :=
  match s with
  | ErrJobNotFound => "coachapi: job not found"
  | ErrClaimLost => "coachapi: claim lost"
  | ErrNotClaimable => "coachapi: job not claimable"
  | RetryableMarker => ""
  | Canceled => "context canceled"
  | DeadlineExceeded => "context deadline exceeded"
  | ErrUnknownTool => "agentloop: unknown tool"
  | ErrBudgetExceeded => "agentloop: budget exceeded"
  | ErrInvalidArgs => "agentloop: invalid tool arguments"
  | ErrSchemaValidation => "modelgateway: schema validation failed"
  | ErrUnavailable => "modelgateway: unavailable"
  | ErrNotAuthorized => "authz: principal not authorized for repository"
  | ErrUnauthenticated => "authn: unauthenticated"
  | ErrDenylistStore => "authn: denylist store error"
  | GhErrAuth => "githubingest: authentication failed"
  | GhErrNotFound => "githubingest: file not found"
  | GhErrUnsupportedContent => "githubingest: unsupported content type"
  | GhErrEmptyContent => "githubingest: file content is empty"
  | GhErrTooLarge => "githubingest: file exceeds maximum supported size"
  | TokenMintMarker => ""
  | SemErrEmptyContent => "semantics: empty content"
  | SemErrUnsupportedLanguage => "semantics: unsupported language"
  | SemErrSyntax => "semantics: syntax error"
  | SemErrFileTooLarge => "semantics: file too large"
  | SemErrBinaryContent => "semantics: binary content"
  | SemErrParseFailure => "semantics: parse failure"
  end.

(** The sentinel itself as an error value. *)
Definition sentinel_error (s : sentinel) : error := mkError (sentinel_message s) [s].

(** [fmt.Errorf("%w" + suffix, s)] for a sentinel [s]. *)
Definition Errorw (s : sentinel) (suffix : string) : error :=
  mkError (sentinel_message s +:+ suffix) [s].

Lemma errors_Is_Errorw s t s' : errors_Is (Errorw s t) s' = bool_decide (s = s').
Proof.
  unfold errors_Is. cbn. apply bool_decide_ext. rewrite list_elem_of_singleton. naive_solver.
Qed.

Lemma errors_Is_sentinel s s' : errors_Is (sentinel_error s) s' = bool_decide (s = s').
Proof.
  unfold errors_Is. cbn. apply bool_decide_ext. rewrite list_elem_of_singleton. naive_solver.
Qed.

Lemma errors_Is_Errorf p e s : errors_Is (Errorf p e) s = errors_Is e s.
Proof. reflexivity. Qed.

#[export] Hint Rewrite errors_Is_sentinel errors_Is_Errorf errors_Is_Errorw : coach.

(** [%q] quotes beyond ASCII by [unicode.IsPrint], a table of the Unicode database:
    the table in use is an implicit argument of what formats an error. *)
Class IsPrint := is_print : N → bool.

Definition quoted {table : IsPrint} (s : string) : string := Quote is_print s.

(** The printable ASCII characters only. *)
Definition ascii_table : IsPrint := λ r, in_range 32 126 r.

(** ** Time *)

Definition Time : Type := Z.
Definition Duration : Type := Z.
Definition Second : Duration := 1000000000%Z.

(** [t.Sub(u)] saturates at the bounds of a [Duration]. *)
Definition Sub (t u : Time) : Duration := Z.max (- 2 ^ 63) (Z.min (2 ^ 63 - 1) (t - u)).

(** [t.Before(u)], [t.Add(d)], [t.IsZero()]. *)
Definition Before (t u : Time) : bool := (t <? u)%Z.
Definition Add (t : Time) (d : Duration) : Time := (t + d)%Z.
Definition IsZero (t : Time) : bool := (t =? 0)%Z.

(** [fmtFrac]: the decimal fraction of [v / 10^prec] without trailing zeros, and the
    decimal point if any digit is left. *)
Fixpoint fmtFrac (prec : nat) (v : N) (print : bool) (acc : string) : string :=
  match prec with
  | O => if print then "." +:+ acc else acc
  | S p =>
      let digit := (v `mod` 10)%N in
      let print := print || negb (digit =? 0)%N in
      fmtFrac p (v / 10)%N print (if print then Itoa (Z.of_N digit) +:+ acc else acc)
  end.

(** [d.String()]. *)
Definition Duration_String (d : Duration) : string :=
  let u := Z.to_N (Z.abs d) in
  let sign := if (d <? 0)%Z then "-" else "" in
  if (u =? 0)%N then "0s"
  else if (u <? 1000)%N then sign +:+ FormatUint u +:+ "ns"
  else if (u <? 1000000)%N then sign +:+ FormatUint (u / 1000) +:+ fmtFrac 3 u false "" +:+ "µs"
  else if (u <? 1000000000)%N then sign +:+ FormatUint (u / 1000000) +:+ fmtFrac 6 u false "" +:+ "ms"
  else
    let s := (u / 1000000000)%N in
    let hours := (s / 3600)%N in
    let minutes := (s / 60)%N in
    sign +:+ (if (0 <? hours)%N then FormatUint hours +:+ "h" else "")
    +:+ (if (0 <? minutes)%N then FormatUint (minutes `mod` 60) +:+ "m" else "")
    +:+ FormatUint (s `mod` 60) +:+ fmtFrac 9 u false "" +:+ "s".

Example Duration_String_examples :
  map Duration_String [15 * Second; 90 * Second; 3600 * Second; 1500000; -2500000000]%Z
  = ["15s"; "1m30s"; "1h0m0s"; "1.5ms"; "-2.5s"].
Proof. vm_compute. reflexivity. Qed.

(** ** Contexts

    What a goroutine sees of a [context.Context]: the answer of [ctx.Err()] at each
    moment of the run, [None] while it is live.  A moment is the number of calls to the
    outside made so far. *)
Definition Context : Type := nat → option sentinel.

Definition ctx_Err (ctx : Context) (t : nat) : option error := option_map sentinel_error (ctx t).

(** [context.Background()]. *)
Definition Background : Context := λ _, None.

(** A context stays done, and for one reason. *)
Definition ctx_stable (ctx : Context) : Prop := ∀ t t' e, ctx t = Some e → t ≤ t' → ctx t' = Some e.

(** It is done because it was cancelled or because its deadline passed. *)
Definition ctx_proper (ctx : Context) : Prop := ∀ t e, ctx t = Some e → e = Canceled ∨ e = DeadlineExceeded.

(** The first reason met from moment [t] on, over [n] more moments. *)
Fixpoint first_done (f : nat → option sentinel) (t n : nat) : option sentinel :=
  match f t with
  | Some e => Some e
  | None => match n with O => None | S n => first_done f (S t) n end
  end.

(** [context.WithTimeout(parent, d)] at moment [t], under a clock: done when the parent
    is, or when the clock has advanced by [d]. *)
Definition WithTimeout (clock : nat → Time) (parent : Context) (t : nat) (d : Duration) : Context := λ t',
  first_done (λ s, match parent s with
    | Some e => Some e
    | None => if (d <=? Sub (clock s) (clock t))%Z then Some DeadlineExceeded else None
    end) t (t' - t).

Lemma first_done_later f n : ∀ t k e, first_done f t n = Some e → first_done f t (n + k) = Some e.
Proof.
  induction n as [|n IH]; intros t k e; cbn [first_done Nat.add].
  - destruct (f t) eqn:E; [|done]. intros [= <-]. destruct k; cbn; by rewrite E.
  - destruct (f t); [done|]. apply IH.
Qed.

Lemma WithTimeout_proper clock parent t d : ctx_proper parent → ctx_proper (WithTimeout clock parent t d).
Proof.
  intros Hp t' e. unfold WithTimeout. generalize (t' - t). intros n. revert t.
  enough (∀ t0 s, first_done (λ s, match parent s with
    | Some e => Some e
    | None => if (d <=? Sub (clock s) (clock t0))%Z then Some DeadlineExceeded else None end) s n = Some e →
    e = Canceled ∨ e = DeadlineExceeded) as H by (intros t; apply H).
  intros t0. induction n as [|n IH]; intros s; cbn [first_done].
  - destruct (parent s) eqn:E; [intros [= <-]; by eapply Hp|]. destruct (_ <=? _)%Z; [|done]. intros [= <-]. by right.
  - destruct (parent s) eqn:E; [intros [= <-]; by eapply Hp|].
    destruct (_ <=? _)%Z; [intros [= <-]; by right|]. apply IH.
Qed.

