(* ===== verification/JobStore.v ===== *)
(** * The job platform's store

    The job domain of [internal/coachapi] ([job.go], [claim.go], [store.go],
    [report.go], [report_assembly.go]), the persistence port as a type class, and
    the in-memory store of [store/memory] as the step functions of a state.  Each
    method runs under the store's mutex, so a history of the store is a list of
    whole method calls, in any interleaving of their callers.  The store copies
    what it takes and returns ([clone.go]); values here are immutable, so a copy is
    the value. *)

From S2P Require Import Prelude GoText GoErr.

(** ** Job domain *)

(** go: internal/coachapi/job.go#JobStatusQueued *)
Definition JobStatusQueued : string := "queued".
(** go: internal/coachapi/job.go#JobStatusRunning *)
Definition JobStatusRunning : string := "running".
(** go: internal/coachapi/job.go#JobStatusCompleted *)
Definition JobStatusCompleted : string := "completed".
(** go: internal/coachapi/job.go#JobStatusFailed *)
Definition JobStatusFailed : string := "failed".

(** go: internal/coachapi/job.go#FindingSourceDeterministic *)
Definition FindingSourceDeterministic : string := "deterministic".
(** go: internal/coachapi/job.go#FindingSourceAgent *)
Definition FindingSourceAgent : string := "agent".

(** go: internal/coachapi/job.go#Job *)
Record Job := mkJob {
  job_ID : string; job_Kind : string; job_Params : string; job_Status : string;
  job_Error : option string; job_CreatedAt : Time; job_StartedAt : option Time;
  job_FinishedAt : option Time; job_ClaimedBy : option string; job_HeartbeatAt : option Time;
  job_Attempt : Z; job_CreatedByProvider : string; job_CreatedBySubject : string;
  job_CreatedByLogin : string
}.

(** go: internal/coachapi/job.go#JobFinding *)
Record JobFinding := mkJobFinding {
  jf_ID : string; jf_JobID : string; jf_Attempt : Z; jf_Source : string;
  jf_RubricID : option string; jf_RubricVersion : option string;
  jf_ModelIdentity : option string; jf_Payload : string; jf_PayloadHash : string;
  jf_CreatedAt : Time
}.

(** go: internal/coachapi/job.go#JobDiagnostic *)
Record JobDiagnostic := mkJobDiagnostic {
  jd_ID : string; jd_JobID : string; jd_Attempt : Z; jd_Scope : string; jd_Message : string;
  jd_CreatedAt : Time
}.

(** go: internal/coachapi/report.go#ReportVersions *)
Record ReportVersions := mkReportVersions { rv_Analyzer : string; rv_Rubrics : gmap string string }.

(** go: internal/coachapi/report.go#ReportSummary *)
Record ReportSummary := mkReportSummary {
  rs_FindingCounts : gmap string (gmap string Z); rs_PRCount : option Z; rs_PRFailedCount : option Z
}.

(** go: internal/coachapi/report.go#Finding *)
Record Finding := mkFinding {
  fd_Source : string; fd_RubricID : option string; fd_RubricVersion : option string;
  fd_ModelIdentity : option string; fd_Payload : string
}.

(** go: internal/coachapi/report.go#Diagnostic *)
Record Diagnostic := mkDiagnostic { dia_Scope : string; dia_Message : string }.

(** go: internal/coachapi/report.go#Report *)
Record Report := mkReport {
  jr_ReportVersion : string; jr_JobID : string; jr_Kind : string; jr_Params : string;
  jr_CommitSHA : string; jr_Summary : ReportSummary; jr_Findings : list Finding;
  jr_Diagnostics : list Diagnostic; jr_Error : option string; jr_Versions : ReportVersions;
  jr_GeneratedAt : Time
}.

(** go: internal/coachapi/report.go#ReportVersion1 *)
Definition ReportVersion1 : string := "1".

(** go: internal/coachapi/store.go#Completion *)
Record Completion := mkCompletion {
  cp_Attempt : Z; cp_CommitSHA : string; cp_Findings : list JobFinding;
  cp_Diagnostics : list JobDiagnostic; cp_Versions : ReportVersions;
  cp_FinishedAt : Time; cp_GeneratedAt : Time
}.

(** go: internal/coachapi/claim.go#ClaimLease *)
Record ClaimLease := mkClaimLease {
  lease_JobID : string; lease_WorkerID : string; lease_Attempt : Z; lease_StartedAt : Time
}.

(** ** Persistence port *)

(** The methods of the two store interfaces, over a store state [S].  A method
    returns the store it leaves and an error or a value.
    go: internal/coachapi/claim.go#WorkerJobStore *)
Class WorkerJobStore (S : Type) := {
  CreateJob : S → Job → S * option error;
  GetJob : S → string → error + Job;
  GetReport : S → string → error + Report;
  RecordCompletion : S → string → Completion → S * option error;
  RecordFailure : S → string → string → Time → S * option error;
  ClaimJob : S → string → string → Time → Duration → S * (error + ClaimLease);
  Heartbeat : S → string → string → Z → Time → S * option error;
  InsertFindings : S → string → string → Z → list JobFinding → S * option error;
  InsertDiagnostics : S → string → string → Z → list JobDiagnostic → S * option error;
  CompleteJob : S → string → string → Z → Completion → S * option error;
  FailJob : S → string → string → Z → string → Time → S * option error;
  ReleaseClaim : S → string → string → Z → S * option error;
  ListQueuedOlderThan : S → Time → error + list Job;
  ReleaseStaleRunning : S → Time → Duration → S * (error + Z)
}.

(** What a worker relies on, whatever the store: an invariant its calls keep, and
    what a successful call leaves of the job. *)
Class WorkerJobStoreLaws (S : Type) {store : WorkerJobStore S} := {
  store_inv : S → Prop;
  job_of : S → string → option Job;
  inv_ClaimJob s id w now st : store_inv s → store_inv (fst (ClaimJob s id w now st));
  inv_Heartbeat s id w a now : store_inv s → store_inv (fst (Heartbeat s id w a now));
  inv_InsertFindings s id w a fs : store_inv s → store_inv (fst (InsertFindings s id w a fs));
  inv_InsertDiagnostics s id w a ds : store_inv s → store_inv (fst (InsertDiagnostics s id w a ds));
  inv_CompleteJob s id w a c : store_inv s → store_inv (fst (CompleteJob s id w a c));
  inv_FailJob s id w a msg t : store_inv s → store_inv (fst (FailJob s id w a msg t));
  inv_ReleaseClaim s id w a : store_inv s → store_inv (fst (ReleaseClaim s id w a));
  GetJob_found s id j : store_inv s → GetJob s id = inr j → job_of s id = Some j ∧ job_ID j = id;
  GetJob_missing s id e :
    GetJob s id = inl e → errors_Is e ErrJobNotFound = true → job_of s id = None;
  ClaimJob_lease s id w now st s' l : ClaimJob s id w now st = (s', inr l) → lease_JobID l = id;
  CompleteJob_done s id w a c s' :
    CompleteJob s id w a c = (s', None) →
    ∃ j, job_of s' id = Some j ∧ job_Status j = JobStatusCompleted ∧ job_Attempt j = a;
  FailJob_done s id w a msg t s' :
    FailJob s id w a msg t = (s', None) →
    ∃ j, job_of s' id = Some j ∧ job_Status j = JobStatusFailed ∧ job_Attempt j = a
         ∧ job_Error j = Some msg;
  ReleaseClaim_done s id w a s' :
    ReleaseClaim s id w a = (s', None) →
    ∃ j, job_of s' id = Some j ∧ job_Status j = JobStatusQueued ∧ job_Attempt j = a
         ∧ job_ClaimedBy j = None
}.

(** ** Report assembly *)

Section Assembly.
(** The [rule_id] that [json.Unmarshal] finds in a finding's payload, if the
    payload decodes. *)
Context (unmarshalRuleID : string → option string).

(** go: internal/coachapi/report_assembly.go#findingRuleID *)
Definition findingRuleID (payload : string) : string := default "" (unmarshalRuleID payload).

(** go: internal/coachapi/report_assembly.go#findingSummaryKey *)
Definition findingSummaryKey (f : JobFinding) : string :=
  if jf_Source f == FindingSourceAgent then default "" (jf_RubricID f)
  else findingRuleID (jf_Payload f).

Definition count_finding (counts : gmap string (gmap string Z)) (f : JobFinding) :
    gmap string (gmap string Z) :=
  let key := findingSummaryKey f in
  if key == "" then counts else
  let inner := default ∅ (counts !! jf_Source f) in
  <[jf_Source f := <[key := (default 0 (inner !! key) + 1)%Z]> inner]> counts.

(** go: internal/coachapi/report_assembly.go#SummarizeFindings *)
Definition SummarizeFindings (findings : list JobFinding) : ReportSummary :=
  mkReportSummary (fold_left count_finding findings ∅) None None.
End Assembly.

(** go: internal/coachapi/report_assembly.go#ReportFindings *)
Definition ReportFindings (jobFindings : list JobFinding) : list Finding :=
  map (λ f, mkFinding (jf_Source f) (jf_RubricID f) (jf_RubricVersion f) (jf_ModelIdentity f)
              (jf_Payload f)) jobFindings.

(** go: internal/coachapi/report_assembly.go#ReportDiagnostics *)
Definition ReportDiagnostics (jobDiagnostics : list JobDiagnostic) : list Diagnostic :=
  map (λ d, mkDiagnostic (jd_Scope d) (jd_Message d)) jobDiagnostics.

(** ** The in-memory store *)

(** go: internal/coachapi/store/memory/store.go#jobRecord *)
Record jobRecord := mkJobRecord {
  rec_job : Job; rec_completed : bool; rec_commitSHA : string;
  rec_findings : list JobFinding; rec_diagnostics : list JobDiagnostic;
  rec_versions : ReportVersions; rec_generatedAt : Time
}.

(** The [jobs] map.
    go: internal/coachapi/store/memory/store.go#Store *)
Definition Store : Type := gmap string jobRecord.

(** go: internal/coachapi/store/memory/store.go#NewStore *)
Definition NewStore : Store := ∅.

Definition job_quoted {table : IsPrint} (id : string) : string := "coachapi: job " +:+ quoted id.

(** [fmt.Errorf("coachapi: job %q: %w", id, s)]. *)
Definition job_error {table : IsPrint} (id : string) (s : sentinel) : error :=
  Errorf (job_quoted id +:+ ": ") (sentinel_error s).

Definition no_versions : ReportVersions := mkReportVersions "" ∅.

(** Replaces the job of a record. *)
Definition with_job (j : Job) (r : jobRecord) : jobRecord :=
  mkJobRecord j (rec_completed r) (rec_commitSHA r) (rec_findings r) (rec_diagnostics r)
    (rec_versions r) (rec_generatedAt r).

Definition with_findings (fs : list JobFinding) (r : jobRecord) : jobRecord :=
  mkJobRecord (rec_job r) (rec_completed r) (rec_commitSHA r) fs (rec_diagnostics r)
    (rec_versions r) (rec_generatedAt r).

Definition with_diagnostics (ds : list JobDiagnostic) (r : jobRecord) : jobRecord :=
  mkJobRecord (rec_job r) (rec_completed r) (rec_commitSHA r) (rec_findings r) ds
    (rec_versions r) (rec_generatedAt r).

(** The assignments [job.Status], [job.Error], [job.FinishedAt], [job.Attempt]. *)
Definition finish_job (status : string) (err : option string) (finishedAt : Time) (attempt : Z)
    (j : Job) : Job :=
  mkJob (job_ID j) (job_Kind j) (job_Params j) status err (job_CreatedAt j) (job_StartedAt j)
    (Some finishedAt) (job_ClaimedBy j) (job_HeartbeatAt j) attempt (job_CreatedByProvider j)
    (job_CreatedBySubject j) (job_CreatedByLogin j).

(** [job.Status = queued; job.ClaimedBy = nil; job.HeartbeatAt = nil]. *)
Definition requeue_job (j : Job) : Job :=
  mkJob (job_ID j) (job_Kind j) (job_Params j) JobStatusQueued (job_Error j) (job_CreatedAt j)
    (job_StartedAt j) (job_FinishedAt j) None None (job_Attempt j) (job_CreatedByProvider j)
    (job_CreatedBySubject j) (job_CreatedByLogin j).

Definition beat_job (now : Time) (j : Job) : Job :=
  mkJob (job_ID j) (job_Kind j) (job_Params j) (job_Status j) (job_Error j) (job_CreatedAt j)
    (job_StartedAt j) (job_FinishedAt j) (job_ClaimedBy j) (Some now) (job_Attempt j)
    (job_CreatedByProvider j) (job_CreatedBySubject j) (job_CreatedByLogin j).

(** The claim's assignments to the job. *)
Definition claim_job (workerID : string) (now : Time) (j : Job) : Job :=
  mkJob (job_ID j) (job_Kind j) (job_Params j) JobStatusRunning None (job_CreatedAt j)
    (Some now) None (Some workerID) (Some now) (job_Attempt j + 1) (job_CreatedByProvider j)
    (job_CreatedBySubject j) (job_CreatedByLogin j).

Module Memory.
Section Methods.
Context {table : IsPrint}.

(** go: internal/coachapi/store/memory/store.go#CreateJob *)
Definition CreateJob (m : Store) (job : Job) : Store * option error :=
  match m !! job_ID job with
  | Some _ => (m, Some (errors_New (job_quoted (job_ID job) +:+ " already exists")))
  | None => (<[job_ID job := mkJobRecord job false "" [] [] no_versions 0%Z]> m, None)
  end.

(** go: internal/coachapi/store/memory/store.go#GetJob *)
Definition GetJob (m : Store) (id : string) : error + Job :=
  match m !! id with
  | None => inl (job_error id ErrJobNotFound)
  | Some record => inr (rec_job record)
  end.

(** go: internal/coachapi/store/memory/store.go#findingsForAttempt *)
Definition findingsForAttempt (findings : list JobFinding) (attempt : Z) : list JobFinding :=
  List.filter (λ f, (jf_Attempt f =? attempt)%Z) findings.

(** go: internal/coachapi/store/memory/store.go#diagnosticsForAttempt *)
Definition diagnosticsForAttempt (diagnostics : list JobDiagnostic) (attempt : Z) :
    list JobDiagnostic :=
  List.filter (λ d, (jd_Attempt d =? attempt)%Z) diagnostics.

(** go: internal/coachapi/store/memory/store.go#GetReport *)
Definition GetReport (unmarshalRuleID : string → option string) (m : Store) (id : string) :
    error + Report :=
  let missing :=
    Errorf ("coachapi: report for job " +:+ quoted id +:+ ": ") (sentinel_error ErrJobNotFound) in
  match m !! id with
  | None => inl missing
  | Some record =>
      if negb (rec_completed record) then inl missing else
      let job := rec_job record in
      let findings := findingsForAttempt (rec_findings record) (job_Attempt job) in
      let diagnostics := diagnosticsForAttempt (rec_diagnostics record) (job_Attempt job) in
      inr {| jr_ReportVersion := ReportVersion1; jr_JobID := job_ID job; jr_Kind := job_Kind job;
             jr_Params := job_Params job; jr_CommitSHA := rec_commitSHA record;
             jr_Summary := SummarizeFindings unmarshalRuleID findings;
             jr_Findings := ReportFindings findings;
             jr_Diagnostics := ReportDiagnostics diagnostics;
             jr_Error := job_Error job; jr_Versions := rec_versions record;
             jr_GeneratedAt := rec_generatedAt record |}
  end.

(** go: internal/coachapi/store/memory/store.go#RecordCompletion *)
Definition RecordCompletion (m : Store) (jobID : string) (completion : Completion) :
    Store * option error :=
  match m !! jobID with
  | None => (m, Some (job_error jobID ErrJobNotFound))
  | Some record =>
      (<[jobID := mkJobRecord
           (finish_job JobStatusCompleted None (cp_FinishedAt completion) (cp_Attempt completion)
              (rec_job record))
           true (cp_CommitSHA completion) (cp_Findings completion) (cp_Diagnostics completion)
           (cp_Versions completion) (cp_GeneratedAt completion)]> m, None)
  end.

(** go: internal/coachapi/store/memory/store.go#RecordFailure *)
Definition RecordFailure (m : Store) (jobID errMsg : string) (finishedAt : Time) :
    Store * option error :=
  match m !! jobID with
  | None => (m, Some (job_error jobID ErrJobNotFound))
  | Some record =>
      let j := rec_job record in
      (<[jobID := with_job (finish_job JobStatusFailed (Some errMsg) finishedAt (job_Attempt j) j)
                    record]> m, None)
  end.

(** [HeartbeatAt != nil && now.Sub( *HeartbeatAt ) < staleAfter]. *)
Definition heartbeat_live (j : Job) (now : Time) (staleAfter : Duration) : bool :=
  match job_HeartbeatAt j with
  | Some hb => (Sub now hb <? staleAfter)%Z
  | None => false
  end.

(** go: internal/coachapi/store/memory/claim.go#ClaimJob *)
Definition ClaimJob (m : Store) (jobID workerID : string) (now : Time) (staleAfter : Duration) :
    Store * (error + ClaimLease) :=
  match m !! jobID with
  | None => (m, inl (job_error jobID ErrJobNotFound))
  | Some record =>
      let j := rec_job record in
      let claimable :=
        if job_Status j == JobStatusQueued then true
        else if job_Status j == JobStatusRunning then negb (heartbeat_live j now staleAfter)
        else false in
      if negb claimable then (m, inl (job_error jobID ErrNotClaimable)) else
      let j' := claim_job workerID now j in
      (<[jobID := mkJobRecord j' false "" [] [] no_versions 0%Z]> m,
       inr (mkClaimLease jobID workerID (job_Attempt j') now))
  end.

(** go: internal/coachapi/store/memory/claim.go#fenceMatches *)
Definition fenceMatches (job : Job) (workerID : string) (attempt : Z) : bool :=
  (job_Status job == JobStatusRunning)
  && match job_ClaimedBy job with Some w => w == workerID | None => false end
  && (job_Attempt job =? attempt)%Z.

(** The prologue of every fenced method: look the job up, check the lease, then
    write the record. *)
Definition fenced (m : Store) (jobID workerID : string) (attempt : Z) (f : jobRecord → jobRecord) :
    Store * option error :=
  match m !! jobID with
  | None => (m, Some (job_error jobID ErrJobNotFound))
  | Some record =>
      if negb (fenceMatches (rec_job record) workerID attempt)
      then (m, Some (job_error jobID ErrClaimLost))
      else (<[jobID := f record]> m, None)
  end.

(** go: internal/coachapi/store/memory/claim.go#Heartbeat *)
Definition Heartbeat (m : Store) (jobID workerID : string) (attempt : Z) (now : Time) :
    Store * option error :=
  fenced m jobID workerID attempt (λ record, with_job (beat_job now (rec_job record)) record).

(** go: internal/coachapi/store/memory/claim.go#ReleaseClaim *)
Definition ReleaseClaim (m : Store) (jobID workerID : string) (attempt : Z) : Store * option error :=
  fenced m jobID workerID attempt (λ record, with_job (requeue_job (rec_job record)) record).

Definition stamp_finding (jobID : string) (attempt : Z) (f : JobFinding) : JobFinding :=
  mkJobFinding (jf_ID f) jobID attempt (jf_Source f) (jf_RubricID f) (jf_RubricVersion f)
    (jf_ModelIdentity f) (jf_Payload f) (jf_PayloadHash f) (jf_CreatedAt f).

Definition stamp_diagnostic (jobID : string) (attempt : Z) (d : JobDiagnostic) : JobDiagnostic :=
  mkJobDiagnostic (jd_ID d) jobID attempt (jd_Scope d) (jd_Message d) (jd_CreatedAt d).

(** go: internal/coachapi/store/memory/attempt_rows.go#InsertFindings *)
Definition InsertFindings (m : Store) (jobID workerID : string) (attempt : Z)
    (findings : list JobFinding) : Store * option error :=
  fenced m jobID workerID attempt
    (λ record, with_findings (rec_findings record ++ map (stamp_finding jobID attempt) findings) record).

(** go: internal/coachapi/store/memory/attempt_rows.go#InsertDiagnostics *)
Definition InsertDiagnostics (m : Store) (jobID workerID : string) (attempt : Z)
    (diagnostics : list JobDiagnostic) : Store * option error :=
  fenced m jobID workerID attempt
    (λ record, with_diagnostics
       (rec_diagnostics record ++ map (stamp_diagnostic jobID attempt) diagnostics) record).

(** go: internal/coachapi/store/memory/terminal.go#CompleteJob *)
Definition CompleteJob (m : Store) (jobID workerID : string) (attempt : Z) (completion : Completion) :
    Store * option error :=
  fenced m jobID workerID attempt (λ record,
    mkJobRecord
      (finish_job JobStatusCompleted None (cp_FinishedAt completion) attempt (rec_job record))
      true (cp_CommitSHA completion)
      (if (0 <? zlen (cp_Findings completion))%Z
       then rec_findings record ++ map (stamp_finding jobID attempt) (cp_Findings completion)
       else rec_findings record)
      (if (0 <? zlen (cp_Diagnostics completion))%Z
       then rec_diagnostics record ++ map (stamp_diagnostic jobID attempt) (cp_Diagnostics completion)
       else rec_diagnostics record)
      (cp_Versions completion) (cp_GeneratedAt completion)).

(** go: internal/coachapi/store/memory/terminal.go#FailJob *)
Definition FailJob (m : Store) (jobID workerID : string) (attempt : Z) (errMsg : string)
    (finishedAt : Time) : Store * option error :=
  fenced m jobID workerID attempt (λ record,
    let j := rec_job record in
    with_job (finish_job JobStatusFailed (Some errMsg) finishedAt (job_Attempt j) j) record).

(** The map's iteration order is left to [map_to_list].
    go: internal/coachapi/store/memory/reconcile.go#ListQueuedOlderThan *)
Definition ListQueuedOlderThan (m : Store) (olderThan : Time) : error + list Job :=
  inr (List.filter (λ j, (job_Status j == JobStatusQueued) && Before (job_CreatedAt j) olderThan)
         (map (λ kv, rec_job (snd kv)) (map_to_list m))).

(** The two conditions that skip a record. *)
Definition stale_running (now : Time) (staleAfter : Duration) (j : Job) : bool :=
  (job_Status j == JobStatusRunning) && negb (heartbeat_live j now staleAfter).

(** go: internal/coachapi/store/memory/reconcile.go#ReleaseStaleRunning *)
Definition ReleaseStaleRunning (m : Store) (now : Time) (staleAfter : Duration) :
    Store * (error + Z) :=
  ((λ record : jobRecord,
      if stale_running now staleAfter (rec_job record)
      then with_job (requeue_job (rec_job record)) record else record) <$> m,
   inr (zlen (List.filter (λ kv : string * jobRecord, stale_running now staleAfter (rec_job (snd kv)))
                (map_to_list m)))).

End Methods.
End Memory.

(** ** Histories *)

Section Histories.
Context {table : IsPrint}.

(** The calls that can change a store. *)
Inductive op :=
  | OpCreateJob (job : Job)
  | OpRecordCompletion (jobID : string) (completion : Completion)
  | OpRecordFailure (jobID errMsg : string) (finishedAt : Time)
  | OpClaimJob (jobID workerID : string) (now : Time) (staleAfter : Duration)
  | OpHeartbeat (jobID workerID : string) (attempt : Z) (now : Time)
  | OpInsertFindings (jobID workerID : string) (attempt : Z) (findings : list JobFinding)
  | OpInsertDiagnostics (jobID workerID : string) (attempt : Z) (diagnostics : list JobDiagnostic)
  | OpCompleteJob (jobID workerID : string) (attempt : Z) (completion : Completion)
  | OpFailJob (jobID workerID : string) (attempt : Z) (errMsg : string) (finishedAt : Time)
  | OpReleaseClaim (jobID workerID : string) (attempt : Z)
  | OpReleaseStaleRunning (now : Time) (staleAfter : Duration).

(** The store a call leaves. *)
Definition apply_op (m : Store) (o : op) : Store :=
  match o with
  | OpCreateJob j => fst (Memory.CreateJob m j)
  | OpRecordCompletion id c => fst (Memory.RecordCompletion m id c)
  | OpRecordFailure id msg t => fst (Memory.RecordFailure m id msg t)
  | OpClaimJob id w now st => fst (Memory.ClaimJob m id w now st)
  | OpHeartbeat id w a now => fst (Memory.Heartbeat m id w a now)
  | OpInsertFindings id w a fs => fst (Memory.InsertFindings m id w a fs)
  | OpInsertDiagnostics id w a ds => fst (Memory.InsertDiagnostics m id w a ds)
  | OpCompleteJob id w a c => fst (Memory.CompleteJob m id w a c)
  | OpFailJob id w a msg t => fst (Memory.FailJob m id w a msg t)
  | OpReleaseClaim id w a => fst (Memory.ReleaseClaim m id w a)
  | OpReleaseStaleRunning now st => fst (Memory.ReleaseStaleRunning m now st)
  end.

Definition run_ops (m : Store) (ops : list op) : Store := fold_left apply_op ops m.

(** The error a lease-checked call answers with, none for the other calls. *)
Definition fenced_result (m : Store) (o : op) : option (option error) :=
  match o with
  | OpHeartbeat id w a now => Some (snd (Memory.Heartbeat m id w a now))
  | OpInsertFindings id w a fs => Some (snd (Memory.InsertFindings m id w a fs))
  | OpInsertDiagnostics id w a ds => Some (snd (Memory.InsertDiagnostics m id w a ds))
  | OpCompleteJob id w a c => Some (snd (Memory.CompleteJob m id w a c))
  | OpFailJob id w a msg t => Some (snd (Memory.FailJob m id w a msg t))
  | OpReleaseClaim id w a => Some (snd (Memory.ReleaseClaim m id w a))
  | _ => None
  end.

(** The lease a lease-checked call presents. *)
Definition presented_lease (o : op) : option (string * string * Z) :=
  match o with
  | OpHeartbeat id w a _ | OpInsertFindings id w a _ | OpInsertDiagnostics id w a _
  | OpCompleteJob id w a _ | OpFailJob id w a _ _ | OpReleaseClaim id w a => Some (id, w, a)
  | _ => None
  end.

(** What such a call writes when its lease holds. *)
Definition fenced_write (o : op) (r : jobRecord) : jobRecord :=
  match o with
  | OpHeartbeat _ _ _ now => with_job (beat_job now (rec_job r)) r
  | OpInsertFindings id _ a fs =>
      with_findings (rec_findings r ++ map (Memory.stamp_finding id a) fs) r
  | OpInsertDiagnostics id _ a ds =>
      with_diagnostics (rec_diagnostics r ++ map (Memory.stamp_diagnostic id a) ds) r
  | OpCompleteJob id _ a c =>
      mkJobRecord (finish_job JobStatusCompleted None (cp_FinishedAt c) a (rec_job r)) true
        (cp_CommitSHA c) (rec_findings r ++ map (Memory.stamp_finding id a) (cp_Findings c))
        (rec_diagnostics r ++ map (Memory.stamp_diagnostic id a) (cp_Diagnostics c))
        (cp_Versions c) (cp_GeneratedAt c)
  | OpFailJob _ _ a msg t =>
      with_job (finish_job JobStatusFailed (Some msg) t (job_Attempt (rec_job r)) (rec_job r)) r
  | OpReleaseClaim _ _ _ => with_job (requeue_job (rec_job r)) r
  | _ => r
  end.

(** A job a claim may take. *)
Definition claimable (j : Job) (now : Time) (staleAfter : Duration) : bool :=
  (job_Status j == JobStatusQueued) || Memory.stale_running now staleAfter j.

Definition fresh_record (j : Job) : jobRecord := mkJobRecord j false "" [] [] no_versions 0%Z.

(** How one call can change the record of one job: the platform's job state
    machine. *)
Inductive transition (id : string) : op → option jobRecord → option jobRecord → Prop :=
  | t_none o r : transition id o r r
  | t_create j : job_ID j = id → transition id (OpCreateJob j) None (Some (fresh_record j))
  | t_record_completion c r :
      transition id (OpRecordCompletion id c) (Some r)
        (Some (mkJobRecord (finish_job JobStatusCompleted None (cp_FinishedAt c) (cp_Attempt c)
                              (rec_job r)) true (cp_CommitSHA c) (cp_Findings c) (cp_Diagnostics c)
                 (cp_Versions c) (cp_GeneratedAt c)))
  | t_record_failure msg t r :
      transition id (OpRecordFailure id msg t) (Some r)
        (Some (with_job (finish_job JobStatusFailed (Some msg) t (job_Attempt (rec_job r)) (rec_job r)) r))
  | t_claim w now st r :
      claimable (rec_job r) now st = true →
      transition id (OpClaimJob id w now st) (Some r) (Some (fresh_record (claim_job w now (rec_job r))))
  | t_fenced o w a r :
      presented_lease o = Some (id, w, a) → Memory.fenceMatches (rec_job r) w a = true →
      transition id o (Some r) (Some (fenced_write o r))
  | t_release_stale now st r :
      Memory.stale_running now st (rec_job r) = true →
      transition id (OpReleaseStaleRunning now st) (Some r) (Some (with_job (requeue_job (rec_job r)) r)).

(** ** Lemmas *)

Lemma store_eq (m : Store) id r : (<[id := r]> m : Store) !! id = Some r.
Proof. unfold Store in *. apply lookup_insert_eq. Qed.

Lemma store_ne (m : Store) id id' r : id ≠ id' → (<[id := r]> m : Store) !! id' = m !! id'.
Proof. unfold Store in *. apply lookup_insert_ne. Qed.

Lemma app_if_nonempty {A B} (f : A → B) (l : list B) (xs : list A) :
  (if (0 <? zlen xs)%Z then l ++ map f xs else l) = l ++ map f xs.
Proof. destruct xs; [by rewrite app_nil_r|done]. Qed.

(** A lease-checked call, at once. *)
Lemma fenced_op_eq m o id w a :
  presented_lease o = Some (id, w, a) →
  (apply_op m o, fenced_result m o)
  = let '(m', e) := Memory.fenced m id w a (fenced_write o) in (m', Some e).
Proof.
  destruct o; try discriminate; intros [= -> -> ->]; cbn [apply_op fenced_result];
    unfold Memory.Heartbeat, Memory.InsertFindings, Memory.InsertDiagnostics, Memory.CompleteJob,
      Memory.FailJob, Memory.ReleaseClaim, Memory.fenced;
    destruct (m !! id) as [r|]; [|done| |done| |done| |done| |done| |done];
    destruct (Memory.fenceMatches (rec_job r) w a); cbn [negb fst snd fenced_write];
    rewrite ?app_if_nonempty; reflexivity.
Qed.

Lemma claim_eq m id w now st :
  Memory.ClaimJob m id w now st =
  match m !! id with
  | None => (m, inl (job_error id ErrJobNotFound))
  | Some r =>
      if claimable (rec_job r) now st
      then (<[id := fresh_record (claim_job w now (rec_job r))]> m,
            inr (mkClaimLease id w (job_Attempt (rec_job r) + 1) now))
      else (m, inl (job_error id ErrNotClaimable))
  end.
Proof.
  unfold Memory.ClaimJob, claimable, Memory.stale_running. destruct (m !! id) as [r|]; [|done].
  destruct (job_Status (rec_job r) == JobStatusQueued); [done|].
  destruct (job_Status (rec_job r) == JobStatusRunning); [|done]. cbn [orb andb].
  by destruct (negb (Memory.heartbeat_live _ _ _)).
Qed.

(** Every call is a step of the state machine, job by job. *)
Lemma apply_transition m o id : transition id o (m !! id) (apply_op m o !! id).
Proof.
  destruct (presented_lease o) as [[[id' w] a]|] eqn:Hl.
  { pose proof (fenced_op_eq m o id' w a Hl) as E. unfold Memory.fenced in E.
    destruct (m !! id') as [r|] eqn:Hr; [|injection E as -> _; constructor].
    destruct (Memory.fenceMatches (rec_job r) w a) eqn:Hf; cbn [negb] in E; injection E as -> _;
      [|constructor].
    destruct (decide (id' = id)) as [->|Hne]; [|rewrite store_ne by done; constructor].
    rewrite Hr, store_eq. by apply (t_fenced id o w a). }
  destruct o; try discriminate; clear Hl; cbn [apply_op].
  - unfold Memory.CreateJob. destruct (m !! job_ID job) eqn:Hr; cbn [fst]; [constructor|].
    destruct (decide (job_ID job = id)) as [<-|Hne]; [|rewrite store_ne by done; constructor].
    rewrite Hr, store_eq. by apply t_create.
  - unfold Memory.RecordCompletion. destruct (m !! jobID) as [r|] eqn:Hr; cbn [fst]; [|constructor].
    destruct (decide (jobID = id)) as [->|Hne]; [|rewrite store_ne by done; constructor].
    rewrite Hr, store_eq. apply t_record_completion.
  - unfold Memory.RecordFailure. destruct (m !! jobID) as [r|] eqn:Hr; cbn [fst]; [|constructor].
    destruct (decide (jobID = id)) as [->|Hne]; [|rewrite store_ne by done; constructor].
    rewrite Hr, store_eq. apply t_record_failure.
  - rewrite claim_eq. destruct (m !! jobID) as [r|] eqn:Hr; cbn [fst]; [|constructor].
    destruct (claimable (rec_job r) now staleAfter) eqn:Hc; cbn [fst]; [|constructor].
    destruct (decide (jobID = id)) as [->|Hne]; [|rewrite store_ne by done; constructor].
    rewrite Hr, store_eq. by apply t_claim.
  - cbn [Memory.ReleaseStaleRunning fst]. unfold Store in *. rewrite lookup_fmap.
    destruct (m !! id) as [r|]; cbn; [|constructor].
    destruct (Memory.stale_running now staleAfter (rec_job r)) eqn:Hs; [by apply t_release_stale|constructor].
Qed.

Lemma run_ops_snoc m ops o : run_ops m (ops ++ [o]) = apply_op (run_ops m ops) o.
Proof. unfold run_ops. by rewrite fold_left_app. Qed.

(** An invariant of one job's record holds along every history. *)
Lemma run_ops_ind (P : option jobRecord → Prop) (ok : op → Prop) id :
  (∀ o r r', ok o → P r → transition id o r r' → P r') →
  ∀ m ops, Forall ok ops → P (m !! id) → P (run_ops m ops !! id).
Proof.
  intros Hstep m ops. induction ops as [|o ops IH] using rev_ind; [done|].
  rewrite Forall_app, Forall_singleton. intros [Hops Ho] Hm. rewrite run_ops_snoc.
  eapply Hstep; [exact Ho|by apply IH|apply apply_transition].
Qed.

(** *** Leases *)

Definition terminal (j : Job) : bool :=
  (job_Status j == JobStatusCompleted) || (job_Status j == JobStatusFailed).

(** The lease no longer is, and can no longer become, the job's claim. *)
Definition lost (w : string) (a : Z) (r : option jobRecord) : Prop :=
  match r with
  | None => False
  | Some r => Memory.fenceMatches (rec_job r) w a = false
              ∧ (a ≤ job_Attempt (rec_job r) ∨ terminal (rec_job r) = true)%Z
  end.

Lemma fence_running j w a :
  Memory.fenceMatches j w a = true →
  job_Status j = JobStatusRunning ∧ job_ClaimedBy j = Some w ∧ job_Attempt j = a.
Proof.
  unfold Memory.fenceMatches. intros H. breflect. destruct (job_ClaimedBy j) as [w'|]; [|done].
  breflect. by subst.
Qed.

Lemma fence_refl j w a :
  job_Status j = JobStatusRunning → job_ClaimedBy j = Some w → job_Attempt j = a →
  Memory.fenceMatches j w a = true.
Proof.
  unfold Memory.fenceMatches. intros -> -> ->. by rewrite !String.eqb_refl, Z.eqb_refl.
Qed.

Lemma claimable_not_terminal j now st : claimable j now st = true → terminal j = false.
Proof.
  unfold claimable, terminal, Memory.stale_running.
  destruct (String.eqb_spec (job_Status j) JobStatusQueued) as [->|_]; [done|].
  destruct (String.eqb_spec (job_Status j) JobStatusRunning) as [->|_]; done.
Qed.

Lemma stale_is_running now st j : Memory.stale_running now st j = true → job_Status j = JobStatusRunning.
Proof. unfold Memory.stale_running. by intros [H%String.eqb_eq _]%andb_true_iff. Qed.

(** What a lease-checked write leaves of the job: a heartbeat or rows leave the
    claim as it is, the others end it. *)
Lemma fenced_write_job o id w a r :
  presented_lease o = Some (id, w, a) → Memory.fenceMatches (rec_job r) w a = true →
  let j := rec_job r in
  let j' := rec_job (fenced_write o r) in
  job_Attempt j' = job_Attempt j ∧ job_ID j' = job_ID j
  ∧ ((job_Status j' = job_Status j ∧ job_ClaimedBy j' = job_ClaimedBy j)
     ∨ (job_Status j' = JobStatusQueued ∧ job_ClaimedBy j' = None)
     ∨ terminal j' = true).
Proof.
  intros Hl (_ & _ & Ha)%fence_running. cbv zeta.
  destruct o; try discriminate; injection Hl as -> -> ->; cbn; repeat split; auto.
Qed.

Lemma lost_step w a o id r r' : transition id o r r' → lost w a r → lost w a r'.
Proof.
  intros Ht. destruct Ht as [| | | |w' now st r Hc|o w' a' r Hl Hf|now st r Hs]; cbn [lost]; try done.
  - intros _. split; [|by right]. by unfold Memory.fenceMatches.
  - intros _. split; [|by right]. by unfold Memory.fenceMatches.
  - intros [_ [Ha|Ht]]; [|by rewrite (claimable_not_terminal _ _ _ Hc) in Ht]. cbn.
    split; [|left; lia]. unfold Memory.fenceMatches. cbn.
    destruct (Z.eqb_spec (job_Attempt (rec_job r) + 1) a); [lia|]. by rewrite andb_false_r.
  - intros [Hn Hor]. destruct (fenced_write_job o id w' a' r Hl Hf) as (Ea & _ & Hs).
    destruct (fence_running _ _ _ Hf) as (Er & _ & _).
    assert (a ≤ job_Attempt (rec_job r))%Z as Ha.
    { destruct Hor as [|Ht]; [done|]. unfold terminal in Ht. by rewrite Er in Ht. }
    rewrite Ea. split; [|by left]. destruct Hs as [[E1 E2]|[[E1 E2]|E]].
    + unfold Memory.fenceMatches in *. by rewrite E1, E2, Ea.
    + unfold Memory.fenceMatches. by rewrite E1.
    + unfold terminal in E. unfold Memory.fenceMatches.
      destruct (String.eqb_spec (job_Status (rec_job (fenced_write o r))) JobStatusRunning) as [E'|];
        [by rewrite E' in E|done].
  - intros [_ [Ha|Ht]]; (split; [done|]).
    + by left.
    + apply stale_is_running in Hs. unfold terminal in Ht. by rewrite Hs in Ht.
Qed.

Lemma lost_run m ops id w a : lost w a (m !! id) → lost w a (run_ops m ops !! id).
Proof.
  apply (run_ops_ind (lost w a) (λ _, True)); [|by apply Forall_forall].
  intros o r r' _ H Ht. by eapply lost_step.
Qed.

(** A lost lease is refused by every call that presents it. *)
Lemma lost_refused m o id w a :
  presented_lease o = Some (id, w, a) → lost w a (m !! id) →
  apply_op m o = m ∧ fenced_result m o = Some (Some (job_error id ErrClaimLost)).
Proof.
  intros Hl Hlost. pose proof (fenced_op_eq m o id w a Hl) as E. unfold Memory.fenced in E.
  destruct (m !! id) as [r|]; [|done]. destruct Hlost as [Hf _].
  rewrite Hf in E. by injection E as -> ->.
Qed.

(** Once claimed, a job's attempt only grows until it ends. *)
Definition claimed_since (a : Z) (r : option jobRecord) : Prop :=
  match r with
  | None => False
  | Some r => (a ≤ job_Attempt (rec_job r) ∨ terminal (rec_job r) = true)%Z
  end.

Lemma claimed_since_step a o id r r' : transition id o r r' → claimed_since a r → claimed_since a r'.
Proof.
  intros Ht. destruct Ht as [| | | |w' now st r Hc|o w' a' r Hl Hf|now st r Hs]; cbn; try done.
  - by right.
  - by right.
  - intros [Ha|Ht]; [left; lia|]. by rewrite (claimable_not_terminal _ _ _ Hc) in Ht.
  - destruct (fenced_write_job o id w' a' r Hl Hf) as (-> & _ & _).
    destruct (fence_running _ _ _ Hf) as (Er & _ & _). intros [Ha|Ht]; [by left|].
    unfold terminal in Ht. by rewrite Er in Ht.
  - intros [Ha|Ht]; [by left|]. apply stale_is_running in Hs.
    unfold terminal in Ht. by rewrite Hs in Ht.
Qed.

(** A successful claim. *)
Lemma claim_success m m' id w now st l :
  Memory.ClaimJob m id w now st = (m', inr l) →
  ∃ r, m !! id = Some r ∧ claimable (rec_job r) now st = true
    ∧ l = mkClaimLease id w (job_Attempt (rec_job r) + 1) now
    ∧ m' = <[id := fresh_record (claim_job w now (rec_job r))]> m.
Proof.
  rewrite claim_eq. destruct (m !! id) as [r|]; [|done].
  destruct (claimable (rec_job r) now st) eqn:Hc; [|done]. intros [= <- <-]. by exists r.
Qed.

(** *** Rows of an attempt *)

(** The rows a call appends under a lease. *)
Definition inserted_findings (id w : string) (a : Z) (o : op) : list JobFinding :=
  match o with
  | OpInsertFindings id' w' a' fs => if bool_decide ((id', w', a') = (id, w, a)) then fs else []
  | _ => []
  end.

Definition inserted_diagnostics (id w : string) (a : Z) (o : op) : list JobDiagnostic :=
  match o with
  | OpInsertDiagnostics id' w' a' ds => if bool_decide ((id', w', a') = (id, w, a)) then ds else []
  | _ => []
  end.

(** The record of a job under a lease that still holds, with the rows so far. *)
Definition held (id w : string) (a : Z) (fs : list JobFinding) (ds : list JobDiagnostic)
    (r : option jobRecord) : Prop :=
  match r with
  | None => False
  | Some r => Memory.fenceMatches (rec_job r) w a = true
              ∧ rec_findings r = map (Memory.stamp_finding id a) fs
              ∧ rec_diagnostics r = map (Memory.stamp_diagnostic id a) ds
  end.

Lemma inserted_none id w a o :
  presented_lease o ≠ Some (id, w, a) →
  inserted_findings id w a o = [] ∧ inserted_diagnostics id w a o = [].
Proof.
  intros H. destruct o; cbn in *; try done; rewrite bool_decide_false; try done; congruence.
Qed.

Lemma held_step id w a fs ds m o :
  held id w a fs ds (m !! id) →
  lost w a (apply_op m o !! id)
  ∨ held id w a (fs ++ inserted_findings id w a o) (ds ++ inserted_diagnostics id w a o)
      (apply_op m o !! id).
Proof.
  destruct (decide (presented_lease o = Some (id, w, a))) as [Hl|Hl].
  - pose proof (fenced_op_eq m o id w a Hl) as E. unfold Memory.fenced in E.
    destruct (m !! id) as [r|]; [|done]. intros (Hf & Ef & Ed). rewrite Hf in E.
    injection E as -> _. rewrite store_eq. destruct (fence_running _ _ _ Hf) as (E1 & E2 & E3).
    destruct o; try discriminate; injection Hl as -> -> ->; cbn [inserted_findings inserted_diagnostics];
      rewrite ?bool_decide_true, ?app_nil_r by done; cbn [held lost fenced_write];
      try (right; cbn; rewrite ?map_app; split; [by apply fence_refl|split; congruence]);
      left; (split; [by unfold Memory.fenceMatches|left; cbn; lia]).
  - destruct (inserted_none id w a o Hl) as [-> ->]. rewrite !app_nil_r.
    destruct (apply_transition m o id) as [| | | |w' now st r Hc|o w' a' r Hl' Hf'|now st r Hs];
      cbn [held lost]; try done.
    + auto.
    + intros _. left. split; [by unfold Memory.fenceMatches|by right].
    + intros _. left. split; [by unfold Memory.fenceMatches|by right].
    + intros (Hf & _). apply fence_running in Hf as (_ & _ & Ha). left. cbn. split; [|left; lia].
      unfold Memory.fenceMatches. cbn. destruct (Z.eqb_spec (job_Attempt (rec_job r) + 1) a); [lia|].
      by rewrite andb_false_r.
    + intros (Hf & _). destruct Hl. rewrite Hl'.
      apply fence_running in Hf as (_ & E2 & E3), Hf' as (_ & E2' & E3'). congruence.
    + intros (Hf & _). apply fence_running in Hf as (_ & _ & Ha). left. split; [done|left; cbn; lia].
Qed.

Lemma held_run id w a m ops :
  held id w a [] [] (m !! id) →
  lost w a (run_ops m ops !! id)
  ∨ held id w a (flat_map (inserted_findings id w a) ops) (flat_map (inserted_diagnostics id w a) ops)
      (run_ops m ops !! id).
Proof.
  intros H0. induction ops as [|o ops IH] using rev_ind; [by right|].
  rewrite run_ops_snoc, !flat_map_app. cbn [flat_map]. rewrite !app_nil_r.
  destruct IH as [IH|IH]; [|by apply held_step].
  left. eapply lost_step; [apply apply_transition|done].
Qed.

Lemma claim_held m m' id w now st l :
  Memory.ClaimJob m id w now st = (m', inr l) → held id w (lease_Attempt l) [] [] (m' !! id).
Proof.
  intros (r & _ & _ & -> & ->)%claim_success. rewrite store_eq. cbn.
  split; [by apply fence_refl|done].
Qed.

Lemma findingsForAttempt_stamped id a fs :
  Memory.findingsForAttempt (map (Memory.stamp_finding id a) fs) a
  = map (Memory.stamp_finding id a) fs.
Proof.
  apply filter_id. intros x (f & <- & _)%in_map_iff. cbn. apply Z.eqb_refl.
Qed.

Lemma diagnosticsForAttempt_stamped id a ds :
  Memory.diagnosticsForAttempt (map (Memory.stamp_diagnostic id a) ds) a
  = map (Memory.stamp_diagnostic id a) ds.
Proof.
  apply filter_id. intros x (d & <- & _)%in_map_iff. cbn. apply Z.eqb_refl.
Qed.

(** *** Well-formed records *)

(** What the port's contract asks of a caller. *)
Definition op_ok (o : op) : Prop :=
  match o with
  | OpCreateJob j =>
      job_Status j = JobStatusQueued ∧ job_Attempt j = 0%Z ∧ job_ClaimedBy j = None
      ∧ job_HeartbeatAt j = None
  | OpRecordCompletion _ c =>
      Forall (λ f, jf_Attempt f = cp_Attempt c) (cp_Findings c)
      ∧ Forall (λ d, jd_Attempt d = cp_Attempt c) (cp_Diagnostics c)
  | _ => True
  end.

Definition job_wf (j : Job) (completed : bool) : Prop :=
  (job_Status j = JobStatusQueued ∧ job_ClaimedBy j = None ∧ job_HeartbeatAt j = None
   ∧ (0 ≤ job_Attempt j)%Z ∧ completed = false)
  ∨ (job_Status j = JobStatusRunning ∧ is_Some (job_ClaimedBy j) ∧ is_Some (job_HeartbeatAt j)
     ∧ is_Some (job_StartedAt j) ∧ job_FinishedAt j = None ∧ job_Error j = None
     ∧ (1 ≤ job_Attempt j)%Z ∧ completed = false)
  ∨ (job_Status j = JobStatusCompleted ∧ job_Error j = None ∧ is_Some (job_FinishedAt j)
     ∧ completed = true)
  ∨ (job_Status j = JobStatusFailed ∧ is_Some (job_Error j) ∧ is_Some (job_FinishedAt j)).

Definition record_wf (id : string) (r : jobRecord) : Prop :=
  job_ID (rec_job r) = id ∧ job_wf (rec_job r) (rec_completed r)
  ∧ Forall (λ f, jf_Attempt f = job_Attempt (rec_job r)) (rec_findings r)
  ∧ Forall (λ d, jd_Attempt d = job_Attempt (rec_job r)) (rec_diagnostics r).

Lemma stamped_attempts id a fs l :
  Forall (λ f, jf_Attempt f = a) l → Forall (λ f, jf_Attempt f = a) (l ++ map (Memory.stamp_finding id a) fs).
Proof. intros H. apply Forall_app. split; [done|]. by induction fs; constructor. Qed.

Lemma stamped_diagnostics id a ds l :
  Forall (λ d, jd_Attempt d = a) l →
  Forall (λ d, jd_Attempt d = a) (l ++ map (Memory.stamp_diagnostic id a) ds).
Proof. intros H. apply Forall_app. split; [done|]. by induction ds; constructor. Qed.

Lemma claimable_attempt j b now st : job_wf j b → claimable j now st = true → (0 ≤ job_Attempt j)%Z.
Proof.
  intros H Hc%claimable_not_terminal. unfold terminal in Hc.
  destruct H as [H|[H|[(E & _)|(E & _)]]]; [lia|lia|by rewrite E in Hc|by rewrite E in Hc].
Qed.

Lemma running_wf j b : job_wf j b → job_Status j = JobStatusRunning →
  is_Some (job_ClaimedBy j) ∧ is_Some (job_HeartbeatAt j)
  ∧ is_Some (job_StartedAt j) ∧ job_FinishedAt j = None ∧ job_Error j = None
  ∧ (1 ≤ job_Attempt j)%Z ∧ b = false.
Proof.
  intros H E. destruct H as [(E' & _)|[(_ & H)|[(E' & _)|(E' & _)]]]; [|done| |];
    rewrite E in E'; discriminate.
Qed.

Lemma fenced_write_wf o id w a r :
  presented_lease o = Some (id, w, a) → Memory.fenceMatches (rec_job r) w a = true →
  record_wf id r → record_wf id (fenced_write o r).
Proof.
  intros Hl Hf (Hid & Hj & Hfs & Hds). apply fence_running in Hf as (E1 & E2 & E3).
  pose proof (running_wf _ _ Hj E1) as (R1 & R2 & R3 & R4 & R5 & R6 & R7).
  rewrite E3 in Hfs, Hds. unfold record_wf.
  destruct o; try discriminate; injection Hl as -> -> ->; cbn; rewrite ?E3;
    (split; [done|]); (split; [|split; auto using stamped_attempts, stamped_diagnostics]); unfold job_wf; cbn.
  - right. left. repeat split; eauto; lia.
  - exact Hj.
  - exact Hj.
  - right. right. left. repeat split. by eexists.
  - right. right. right. split; [done|]. split; by eexists.
  - left. repeat split; [lia|done].
Qed.

Lemma record_wf_step id o r r' :
  op_ok o → (∀ x, r = Some x → record_wf id x) → transition id o r r' → ∀ x, r' = Some x → record_wf id x.
Proof.
  intros Ho Hr Ht. destruct Ht as [|j Hj|c r|msg t r|w' now st r Hc|o w' a' r Hl Hf|now st r Hs];
    [done|..]; intros x [= <-].
  - destruct Ho as (E1 & E2 & E3 & E4). repeat split; [done| |done|done].
    left. cbn. repeat split; try done. lia.
  - destruct (Hr _ eq_refl) as (Hid & _), Ho as [H1 H2]. repeat split; try done.
    right. right. left. cbn. repeat split. by eexists.
  - destruct (Hr _ eq_refl) as (Hid & _ & H1 & H2). repeat split; try done.
    right. right. right. cbn. split; [done|]. split; by eexists.
  - destruct (Hr _ eq_refl) as (Hid & Hj & _). pose proof (claimable_attempt _ _ _ _ Hj Hc).
    repeat split; try done. right. left. cbn. repeat split; try (by eexists). lia.
  - eapply fenced_write_wf; eauto.
  - destruct (Hr _ eq_refl) as (Hid & Hj & H1 & H2). apply stale_is_running in Hs.
    destruct (running_wf _ _ Hj Hs) as (_ & _ & _ & _ & _ & R & Rc).
    repeat split; try done. left. cbn. repeat split; [lia|done].
Qed.

Lemma Sub_ltb t u d : (- 2 ^ 63 < d < 2 ^ 63)%Z → (Sub t u <? d)%Z = (t - u <? d)%Z.
Proof. intros H. unfold Sub. destruct (Z.ltb_spec (t - u) d), (Z.ltb_spec (Z.max (- 2 ^ 63) (Z.min (2 ^ 63 - 1) (t - u))) d); lia. Qed.

(** The concrete store answers for the port. *)
#[export] Instance memory_store (unmarshalRuleID : string → option string) : WorkerJobStore Store := {
  CreateJob := Memory.CreateJob;
  GetJob := Memory.GetJob;
  GetReport := Memory.GetReport unmarshalRuleID;
  RecordCompletion := Memory.RecordCompletion;
  RecordFailure := Memory.RecordFailure;
  ClaimJob := Memory.ClaimJob;
  Heartbeat := Memory.Heartbeat;
  InsertFindings := Memory.InsertFindings;
  InsertDiagnostics := Memory.InsertDiagnostics;
  CompleteJob := Memory.CompleteJob;
  FailJob := Memory.FailJob;
  ReleaseClaim := Memory.ReleaseClaim;
  ListQueuedOlderThan := Memory.ListQueuedOlderThan;
  ReleaseStaleRunning := Memory.ReleaseStaleRunning
}.

(** Every job is stored under its own id. *)
Definition ids_match (m : Store) : Prop := ∀ id r, m !! id = Some r → job_ID (rec_job r) = id.

Lemma ids_match_apply m o : ids_match m → ids_match (apply_op m o).
Proof.
  intros H id r Hr. pose proof (apply_transition m o id) as Ht. rewrite Hr in Ht.
  inversion Ht as [| |c r0 E|msg t r0 E|w now st r0 Hcl|o' w a r0 Hl Hf E|now st r0 Hs]; subst; cbn; eauto.
  destruct (fenced_write_job o id w a r0 Hl Hf) as (_ & E' & _). cbv zeta in E'. rewrite E'. eauto.
Qed.

Lemma ids_match_run m ops : ids_match m → ids_match (run_ops m ops).
Proof.
  intros H. induction ops as [|o ops IH] using rev_ind; [done|]. rewrite run_ops_snoc.
  by apply ids_match_apply.
Qed.

(** A successful lease-checked write. *)
Lemma fenced_success m id w a f m' :
  Memory.fenced m id w a f = (m', None) →
  ∃ r, m !! id = Some r ∧ Memory.fenceMatches (rec_job r) w a = true ∧ m' !! id = Some (f r).
Proof.
  unfold Memory.fenced. destruct (m !! id) as [r|]; [|done].
  destruct (Memory.fenceMatches (rec_job r) w a) eqn:Hf; [|done]. intros [= <-].
  exists r. rewrite store_eq. done.
Qed.

(** The in-memory store keeps the laws of the port. *)
#[export] Program Instance memory_laws (unmarshalRuleID : string → option string) :
    @WorkerJobStoreLaws Store (memory_store unmarshalRuleID) := {
  store_inv := ids_match;
  job_of s id := rec_job <$> (s !! id)
}.
Next Obligation. intros. by apply (ids_match_apply s (OpClaimJob id w now st)). Qed.
Next Obligation. intros. by apply (ids_match_apply s (OpHeartbeat id w a now)). Qed.
Next Obligation. intros. by apply (ids_match_apply s (OpInsertFindings id w a fs)). Qed.
Next Obligation. intros. by apply (ids_match_apply s (OpInsertDiagnostics id w a ds)). Qed.
Next Obligation. intros. by apply (ids_match_apply s (OpCompleteJob id w a c)). Qed.
Next Obligation. intros. by apply (ids_match_apply s (OpFailJob id w a msg t)). Qed.
Next Obligation. intros. by apply (ids_match_apply s (OpReleaseClaim id w a)). Qed.
Next Obligation.
  cbn. unfold Memory.GetJob. intros ? s id j H. destruct (s !! id) as [r|] eqn:E; [|done].
  intros [= <-]. split; [done|by apply H].
Qed.
Next Obligation. cbn. unfold Memory.GetJob. intros ? s id e. by destruct (s !! id). Qed.
Next Obligation. intros ? s id w now st s' l H. cbn in H. by apply claim_success in H as (r & _ & _ & -> & _). Qed.
Next Obligation.
  intros ? s id w a c s' H. cbn in H. apply fenced_success in H as (r & _ & _ & E).
  rewrite E. eexists. split; [reflexivity|]. done.
Qed.
Next Obligation.
  intros ? s id w a msg t s' H. cbn in H. apply fenced_success in H as (r & _ & Hf & E).
  apply fence_running in Hf as (_ & _ & Ha). rewrite E. eexists. split; [reflexivity|]. done.
Qed.
Next Obligation.
  intros ? s id w a s' H. cbn in H. apply fenced_success in H as (r & _ & Hf & E).
  apply fence_running in Hf as (_ & _ & Ha). rewrite E. eexists. split; [reflexivity|]. done.
Qed.

(** ** Properties *)

(** C35: the invariant of the job store.  After any sequence of calls, of any
    callers, that keep the port's contract, every stored job is under its own id
    and in one of four shapes: queued and unclaimed; running with a claimant, a
    heartbeat, a start and no error; completed without an error; or failed with
    one.  All its findings and diagnostics are of its current attempt. *)
Theorem store_invariant ops id r :
  Forall op_ok ops → run_ops NewStore ops !! id = Some r → record_wf id r.
Proof.
  intros Hops. apply (run_ops_ind (λ o, ∀ x, o = Some x → record_wf id x) op_ok id);
    [|done|intros x Hx; unfold NewStore, Store in Hx; by rewrite lookup_empty in Hx].
  intros o r0 r' Ho H Ht. by eapply record_wf_step.
Qed.

(** When a claim succeeds.  [ClaimJob] grants a lease exactly when the job is
    queued, or runs with no heartbeat or one that is at least [staleAfter] old.  The
    lease then carries the next attempt, the job is running under it with a fresh
    heartbeat, the rows and report of earlier attempts are gone, and no other job is
    touched.  Otherwise the store is unchanged and the error tells a missing job
    from one that cannot be claimed. *)
Theorem claim_exact m id w now staleAfter :
  (- 2 ^ 63 < staleAfter < 2 ^ 63)%Z →
  let '(m', result) := Memory.ClaimJob m id w now staleAfter in
  match m !! id with
  | None => m' = m ∧ result = inl (job_error id ErrJobNotFound)
  | Some r =>
      let j := rec_job r in
      let free := job_Status j = JobStatusQueued
        ∨ job_Status j = JobStatusRunning
          ∧ (∀ hb, job_HeartbeatAt j = Some hb → (staleAfter ≤ now - hb)%Z) in
      (free → result = inr (mkClaimLease id w (job_Attempt j + 1) now)
              ∧ ∃ r', m' = <[id := r']> m
                  ∧ Memory.fenceMatches (rec_job r') w (job_Attempt j + 1) = true
                  ∧ job_HeartbeatAt (rec_job r') = Some now ∧ rec_completed r' = false
                  ∧ rec_findings r' = [] ∧ rec_diagnostics r' = [])
      ∧ (¬ free → m' = m ∧ result = inl (job_error id ErrNotClaimable))
  end.
Proof.
  intros Hst. rewrite claim_eq. destruct (m !! id) as [r|]; [|done].
  assert (claimable (rec_job r) now staleAfter = true ↔
    job_Status (rec_job r) = JobStatusQueued ∨ job_Status (rec_job r) = JobStatusRunning
    ∧ (∀ hb, job_HeartbeatAt (rec_job r) = Some hb → (staleAfter ≤ now - hb)%Z)) as Hc.
  { unfold claimable, Memory.stale_running, Memory.heartbeat_live.
    rewrite orb_true_iff, andb_true_iff, negb_true_iff, !String.eqb_eq.
    destruct (job_HeartbeatAt (rec_job r)) as [hb|].
    - rewrite Sub_ltb, Z.ltb_ge by done. split.
      + intros [?|[? ?]]; [by left|right]. split; [done|]. by intros ? [= <-].
      + intros [?|[? H]]; [by left|right]. split; [done|]. by apply H.
    - split; [intros [?|[? _]]; [by left|by right]|intros [?|[? _]]; [by left|by right]]. }
  destruct (claimable (rec_job r) now staleAfter); (split; [intros Hf|intros Hf]).
  - split; [done|]. eexists. split; [done|]. split; [by apply fence_refl|done].
  - destruct Hf. by apply Hc.
  - apply Hc in Hf. discriminate.
  - done.
Qed.

(** C3: a lost lease stays lost.  Once a worker's lease no longer is the job's
    claim, because it was released, reclaimed, finished or found stale, no sequence
    of calls, by whatever workers and administrators, makes it valid again: every
    later call that presents it fails with [ErrClaimLost] and changes nothing, in
    this job or another. *)
Theorem lost_lease_stays_lost m id w a ops o :
  lost w a (m !! id) → presented_lease o = Some (id, w, a) →
  let m' := run_ops m ops in
  apply_op m' o = m' ∧ fenced_result m' o = Some (Some (job_error id ErrClaimLost)).
Proof. intros Hl Ho. cbv zeta. by apply (lost_refused _ _ id w a), lost_run. Qed.

(** Claims exclude each other.  When a job is claimed, and after any further
    calls claimed again, by the same worker or another, the second lease has a later
    attempt and the first one is lost from then on; nobody else's call between them
    could have had the first attempt either. *)
Theorem claims_exclude m0 m1 m2 id w1 w2 now1 now2 stale1 stale2 l1 l2 ops :
  Memory.ClaimJob m0 id w1 now1 stale1 = (m1, inr l1) →
  Memory.ClaimJob (run_ops m1 ops) id w2 now2 stale2 = (m2, inr l2) →
  (lease_Attempt l1 < lease_Attempt l2)%Z
  ∧ lost w1 (lease_Attempt l1) (m2 !! id)
  ∧ (∀ w, w ≠ w1 → lost w (lease_Attempt l1) (m1 !! id)).
Proof.
  intros H1 H2. apply claim_success in H1 as (r1 & E1 & Hc1 & -> & ->).
  apply claim_success in H2 as (r2 & E2 & Hc2 & -> & ->). cbn [lease_Attempt].
  set (a := (job_Attempt (rec_job r1) + 1)%Z).
  assert (claimed_since a (run_ops (<[id := fresh_record (claim_job w1 now1 (rec_job r1))]> m0) ops !! id))
    as Hs.
  { apply (run_ops_ind (claimed_since a) (λ _, True)); [|by apply Forall_forall|].
    - intros o r r' _ H Ht. by eapply claimed_since_step.
    - rewrite store_eq. left. cbn. lia. }
  rewrite E2 in Hs. destruct Hs as [Hs|Hs]; [|by rewrite (claimable_not_terminal _ _ _ Hc2) in Hs].
  split; [lia|]. rewrite !store_eq. cbn. split; [|intros w Hw]; (split; [|left; subst a; lia]);
    unfold Memory.fenceMatches; cbn.
  - destruct (Z.eqb_spec (job_Attempt (rec_job r2) + 1) a); [lia|]. by rewrite andb_false_r.
  - destruct (String.eqb_spec w1 w); [congruence|done].
Qed.

(** C15: the report of a completed job holds exactly the rows of the attempt that
    completed it.  After a claim, whatever anybody does, if the lease's [CompleteJob]
    still succeeds, then the report has the findings the lease inserted since, in
    order, followed by those of the completion, all under the lease's attempt, and
    the same for its diagnostics; rows of other leases and attempts are not in it. *)
Theorem report_rows_exact unmarshalRuleID m0 m1 m2 id w now stale l ops c :
  Memory.ClaimJob m0 id w now stale = (m1, inr l) →
  Memory.CompleteJob (run_ops m1 ops) id w (lease_Attempt l) c = (m2, None) →
  let a := lease_Attempt l in
  let findings := map (Memory.stamp_finding id a)
    (flat_map (inserted_findings id w a) ops ++ cp_Findings c) in
  let diagnostics := map (Memory.stamp_diagnostic id a)
    (flat_map (inserted_diagnostics id w a) ops ++ cp_Diagnostics c) in
  ∃ report, Memory.GetReport unmarshalRuleID m2 id = inr report
    ∧ jr_Findings report = ReportFindings findings
    ∧ jr_Diagnostics report = ReportDiagnostics diagnostics
    ∧ jr_Summary report = SummarizeFindings unmarshalRuleID findings
    ∧ jr_Error report = None ∧ jr_CommitSHA report = cp_CommitSHA c
    ∧ jr_Versions report = cp_Versions c ∧ jr_GeneratedAt report = cp_GeneratedAt c.
Proof.
  intros H1 H2. cbv zeta. pose proof (claim_held _ _ _ _ _ _ _ H1) as Hh.
  apply (held_run id w _ m1 ops) in Hh.
  set (o := OpCompleteJob id w (lease_Attempt l) c).
  destruct Hh as [Hl|Hh].
  { destruct (lost_refused _ o id w _ eq_refl Hl) as [_ E]. cbn in E. rewrite H2 in E. discriminate. }
  pose proof (fenced_op_eq (run_ops m1 ops) o id w _ eq_refl) as E. unfold Memory.fenced in E.
  destruct (run_ops m1 ops !! id) as [r|]; [|done]. destruct Hh as (Hf & Ef & Ed).
  rewrite Hf in E. cbn [negb] in E. injection E as E _. cbn [apply_op o] in E.
  rewrite H2 in E. cbn [fst] in E. subst m2.
  apply fence_running in Hf as (_ & _ & Ea).
  eexists. unfold Memory.GetReport. rewrite store_eq. cbn -[Memory.findingsForAttempt Memory.diagnosticsForAttempt].
  rewrite Ef, Ed, <- !map_app, findingsForAttempt_stamped, diagnosticsForAttempt_stamped.
  split; [reflexivity|]. done.
Qed.

(** The job state machine.  No call removes a job.  A worker's call or the
    reconciler's moves a job's status only from queued to running and from running
    back to queued, to completed or to failed, or leaves it; and a completed or
    failed job it leaves exactly as it was. *)
Theorem status_edges m o id r :
  m !! id = Some r →
  (∀ i c, o ≠ OpRecordCompletion i c) → (∀ i msg t, o ≠ OpRecordFailure i msg t) →
  ∃ r', apply_op m o !! id = Some r'
    ∧ (terminal (rec_job r) = true → r' = r)
    ∧ (job_Status (rec_job r') = job_Status (rec_job r)
       ∨ In (job_Status (rec_job r), job_Status (rec_job r'))
            [(JobStatusQueued, JobStatusRunning); (JobStatusRunning, JobStatusQueued);
             (JobStatusRunning, JobStatusCompleted); (JobStatusRunning, JobStatusFailed)]).
Proof.
  intros Hr Hc Hf. pose proof (apply_transition m o id) as Ht. rewrite Hr in Ht.
  revert Ht. generalize (apply_op m o !! id). intros after Ht.
  inversion Ht as [| |c ? E|msg t ? E|w now st ? Hcl|? w a ? Hl Hfe|now st ? Hs]; subst;
    eexists; (split; [reflexivity|]); cbn.
  - auto.
  - by destruct (Hc id c).
  - by destruct (Hf id msg t).
  - pose proof (claimable_not_terminal _ _ _ Hcl) as Hn. split; [by rewrite Hn|].
    unfold claimable in Hcl. apply orb_true_iff in Hcl as [E%String.eqb_eq|E%stale_is_running].
    + right. left. by rewrite E.
    + left. by rewrite E.
  - apply fence_running in Hfe as (E & _ & _). unfold terminal. rewrite E. split; [done|].
    destruct o; try discriminate; cbn; rewrite ?E; tauto.
  - apply stale_is_running in Hs. unfold terminal. rewrite Hs. split; [done|]. tauto.
Qed.

Lemma count_finding_lookup f counts x s k :
  k ≠ "" →
  default 0%Z (default ∅ (count_finding f counts x !! s) !! k)
  = (default 0 (default (∅ : gmap string Z) (counts !! s) !! k)
     + (if (jf_Source x == s) && (findingSummaryKey f x == k) then 1 else 0))%Z.
Proof.
  intros Hk. unfold count_finding. cbv zeta.
  destruct (String.eqb_spec (findingSummaryKey f x) "") as [E|E].
  { rewrite E. destruct (String.eqb_spec "" k) as [<-|_]; [done|]. rewrite andb_false_r. lia. }
  destruct (String.eqb_spec (jf_Source x) s) as [<-|Hs].
  - rewrite lookup_insert_eq. cbn [default from_option id].
    destruct (String.eqb_spec (findingSummaryKey f x) k) as [->|Hk'].
    + rewrite lookup_insert_eq. done.
    + rewrite lookup_insert_ne by done. cbn. lia.
  - rewrite lookup_insert_ne by done. cbn. lia.
Qed.

(** The finding counts of a report.  For each source and each rule or rubric
    key, the count is the number of findings of that source and key: a deterministic
    finding's key is the rule id of its payload, an agent's its rubric id, and
    findings without a key are not counted anywhere. *)
Theorem summary_counts_exact unmarshalRuleID findings source key :
  let counts := rs_FindingCounts (SummarizeFindings unmarshalRuleID findings) in
  default 0%Z (default ∅ (counts !! source) !! key) =
  (if key == "" then 0
   else zlen (List.filter (λ f, (jf_Source f == source)
                                && (findingSummaryKey unmarshalRuleID f == key)) findings))%Z.
Proof.
  cbv zeta. unfold SummarizeFindings. cbn [rs_FindingCounts].
  destruct (String.eqb_spec key "") as [->|Hk].
  - induction findings as [|x l IH] using rev_ind; [done|]. rewrite fold_left_app. cbn [fold_left].
    unfold count_finding at 1. cbv zeta.
    destruct (String.eqb_spec (findingSummaryKey unmarshalRuleID x) "") as [E|E]; [done|].
    destruct (String.eqb_spec (jf_Source x) source) as [<-|Hs].
    + rewrite lookup_insert_eq. cbn [default from_option id]. by rewrite lookup_insert_ne.
    + by rewrite lookup_insert_ne.
  - induction findings as [|x l IH] using rev_ind; [done|].
    rewrite fold_left_app, List.filter_app. cbn [fold_left List.filter].
    rewrite count_finding_lookup, IH by done. unfold zlen. rewrite length_app.
    destruct (_ && _); cbn [length]; lia.
Qed.

End Histories.

(** ** Witnesses *)

#[local] Existing Instance ascii_table.

Definition example_job (id : string) : Job :=
  mkJob id "repo_baseline_scan" "{}" JobStatusQueued None 5%Z None None None None 0%Z "github" "1" "octo".

Definition example_finding (id : string) : JobFinding :=
  mkJobFinding id "" 0%Z FindingSourceAgent (Some "rubric") None None "{}" "" 0%Z.

Definition example_completion : Completion :=
  mkCompletion 1%Z "abc" [example_finding "f2"] [] no_versions 30%Z 30%Z.

Definition example_history : list op :=
  [OpCreateJob (example_job "j"); OpClaimJob "j" "w1" 10%Z 60%Z;
   OpInsertFindings "j" "w1" 1%Z [example_finding "f0"];
   OpClaimJob "j" "w2" 100%Z 60%Z;
   OpInsertFindings "j" "w1" 1%Z [example_finding "f1"];
   OpInsertFindings "j" "w2" 2%Z [example_finding "f3"]].

Definition example_store : Store := run_ops NewStore example_history.

(** The first worker's lease is lost to the second, and its late rows with it. *)
Example example_store_rows :
  option_map (λ r, (map jf_ID (rec_findings r), job_ClaimedBy (rec_job r), job_Attempt (rec_job r)))
    (example_store !! "j") = Some (["f3"], Some "w2", 2%Z).
Proof. vm_compute. reflexivity. Qed.

Definition example_record : jobRecord :=
  default (fresh_record (example_job "j")) (example_store !! "j").

Lemma store_invariant_witness : record_wf "j" example_record.
Proof.
  apply (store_invariant example_history).
  - repeat constructor.
  - vm_compute. reflexivity.
Defined.

Lemma claim_exact_witness :
  ∃ l, snd (Memory.ClaimJob example_store "j" "w3" 200%Z 60%Z) = inr l ∧ lease_Attempt l = 3%Z.
Proof.
  pose proof (claim_exact example_store "j" "w3" 200%Z 60%Z ltac:(lia)) as H.
  assert (example_store !! "j" = Some example_record) as E by (vm_compute; reflexivity).
  rewrite E in H. destruct (Memory.ClaimJob _ _ _ _ _) as [m' result]. destruct H as [H _].
  destruct H as [-> _].
  - right. split; [vm_compute; reflexivity|]. intros hb Hhb. vm_compute in Hhb.
    injection Hhb as <-. lia.
  - eexists. split; [reflexivity|]. vm_compute. reflexivity.
Defined.

Lemma lost_lease_stays_lost_witness :
  fenced_result (run_ops example_store [OpReleaseClaim "j" "w2" 2%Z])
    (OpCompleteJob "j" "w1" 1%Z example_completion) = Some (Some (job_error "j" ErrClaimLost)).
Proof.
  apply (lost_lease_stays_lost example_store "j" "w1" 1%Z [OpReleaseClaim "j" "w2" 2%Z]
    (OpCompleteJob "j" "w1" 1%Z example_completion)).
  - vm_compute. split; [reflexivity|]. left. discriminate.
  - reflexivity.
Defined.

Definition example_queued : Store := run_ops NewStore [OpCreateJob (example_job "j")].

Lemma claims_exclude_witness :
  let m1 := fst (Memory.ClaimJob example_queued "j" "w1" 10%Z 60%Z) in
  lost "w1" 1%Z (fst (Memory.ClaimJob (run_ops m1 [OpReleaseClaim "j" "w1" 1%Z]) "j" "w2" 11%Z 60%Z) !! "j").
Proof.
  apply (claims_exclude example_queued (fst (Memory.ClaimJob example_queued "j" "w1" 10%Z 60%Z))
    (fst (Memory.ClaimJob (run_ops (fst (Memory.ClaimJob example_queued "j" "w1" 10%Z 60%Z))
       [OpReleaseClaim "j" "w1" 1%Z]) "j" "w2" 11%Z 60%Z)) "j" "w1" "w2" 10%Z 11%Z 60%Z 60%Z
    (mkClaimLease "j" "w1" 1%Z 10%Z) (mkClaimLease "j" "w2" 2%Z 11%Z) [OpReleaseClaim "j" "w1" 1%Z]);
    vm_compute; reflexivity.
Defined.

Lemma report_rows_exact_witness :
  ∃ report,
    Memory.GetReport (λ _, None)
      (run_ops example_queued [OpClaimJob "j" "w1" 10%Z 60%Z;
         OpInsertFindings "j" "w1" 1%Z [example_finding "f0"];
         OpCompleteJob "j" "w1" 1%Z example_completion]) "j" = inr report
    ∧ length (jr_Findings report) = 2%nat ∧ jr_Error report = None.
Proof.
  destruct (report_rows_exact (λ _, None) example_queued
    (run_ops example_queued [OpClaimJob "j" "w1" 10%Z 60%Z])
    (run_ops example_queued [OpClaimJob "j" "w1" 10%Z 60%Z;
       OpInsertFindings "j" "w1" 1%Z [example_finding "f0"];
       OpCompleteJob "j" "w1" 1%Z example_completion])
    "j" "w1" 10%Z 60%Z (mkClaimLease "j" "w1" 1%Z 10%Z)
    [OpInsertFindings "j" "w1" 1%Z [example_finding "f0"]] example_completion)
    as (report & E & Ef & _ & _ & Ee & _).
  - vm_compute. reflexivity.
  - vm_compute. reflexivity.
  - exists report. split; [exact E|]. split; [|exact Ee]. rewrite Ef. reflexivity.
Defined.

Lemma status_edges_witness :
  ∃ r', apply_op example_store (OpReleaseClaim "j" "w2" 2%Z) !! "j" = Some r'
    ∧ (terminal (rec_job example_record) = true → r' = example_record).
Proof.
  destruct (status_edges example_store (OpReleaseClaim "j" "w2" 2%Z) "j" example_record)
    as (r' & E & H & _); [vm_compute; reflexivity|discriminate|discriminate|].
  exists r'. split; [exact E|exact H].
Defined.
