(* ===== verification/Worker.v ===== *)
(** * The job worker

    [internal/coachapi/worker]: claiming a queue message, running the job's
    handler under a heartbeat, settling the message, and the requeue reconciler;
    with the queue port of [internal/coachapi/queue].

    The worker is written against the two ports: any store [S] with
    [WorkerJobStore], any queue [Q] with [TaskQueue].  Its code runs in a state monad
    over the world: the store, the queue, a clock giving the successive readings of
    [Now], and an environment, which says what other workers, the API and the
    reconciler did to the store before each of this worker's own store calls.
    What runs beside the worker while a job's handler runs (the handler's own writes,
    the heartbeat timer, the cancellation of the context) is a script of events, in
    any order, and the [select] at the end of it picks any channel that is ready. *)

From S2P Require Import Prelude GoText GoErr JobStore.

(** ** Queue port *)

(** go: internal/coachapi/queue/queue.go#Task *)
Record Task := mkTask { task_ID : string; task_Payload : string }.

(** go: internal/coachapi/queue/queue.go#Claim *)
Record Claim := mkClaim { claim_TaskID : string; claim_Attempt : Z; claim_Token : string }.

(** go: internal/coachapi/queue/queue.go#TaskQueue *)
Class TaskQueue (Q : Type) := {
  Enqueue : Q → Task → Q * option error;
  ClaimTask : Q → Q * (error + option Claim);
  Complete : Q → Claim → Q * option error;
  Nack : Q → Claim → bool → Q * option error
}.

(** go: internal/coachapi/queue/queue.go#Capabilities *)
Record Capabilities := mkCapabilities {
  NativeDeadLetterQueue : bool; DelayedDelivery : bool; OrderedDelivery : bool;
  LeaseExtension : bool; NativeFanOut : bool
}.

(** [%v] of a slice of strings. *)
Definition format_slice (l : list string) : string := "[" +:+ Join l " " +:+ "]".

Definition missing_capabilities (have want : Capabilities) : list string :=
  (if NativeDeadLetterQueue want && negb (NativeDeadLetterQueue have)
   then ["NativeDeadLetterQueue"] else [])
  ++ (if DelayedDelivery want && negb (DelayedDelivery have) then ["DelayedDelivery"] else [])
  ++ (if OrderedDelivery want && negb (OrderedDelivery have) then ["OrderedDelivery"] else [])
  ++ (if LeaseExtension want && negb (LeaseExtension have) then ["LeaseExtension"] else [])
  ++ (if NativeFanOut want && negb (NativeFanOut have) then ["NativeFanOut"] else []).

(** go: internal/coachapi/queue/queue.go#RequireCapabilities *)
Definition RequireCapabilities (have want : Capabilities) : option error :=
  match missing_capabilities have want with
  | [] => None
  | missing =>
      Some (errors_New ("queue: required capabilities unavailable on configured backend: "
                        +:+ format_slice missing))
  end.

(** ** Configuration and errors *)

(** go: internal/coachapi/worker/config.go#Config *)
Record Config := mkConfig {
  cfg_WorkerID : string; cfg_HeartbeatInterval : Duration; cfg_StaleAfter : Duration;
  cfg_ReconcileInterval : Duration; cfg_QueuedAgeThreshold : Duration; cfg_MaxAttempts : Z
}.

(** go: internal/coachapi/worker/config.go#defaultHeartbeatInterval *)
Definition defaultHeartbeatInterval : Duration := (15 * Second)%Z.
(** go: internal/coachapi/worker/config.go#defaultStaleAfter *)
Definition defaultStaleAfter : Duration := (60 * Second)%Z.
(** go: internal/coachapi/worker/config.go#defaultReconcileInterval *)
Definition defaultReconcileInterval : Duration := (30 * Second)%Z.
(** go: internal/coachapi/worker/config.go#defaultQueuedAgeThreshold *)
Definition defaultQueuedAgeThreshold : Duration := (30 * Second)%Z.
(** go: internal/coachapi/worker/config.go#defaultMaxAttempts *)
Definition defaultMaxAttempts : Z := 5%Z.

Definition or_default (z d : Z) : Z := if (z <=? 0)%Z then d else z.

(** The product [3*c.HeartbeatInterval] is an [int64].
    go: internal/coachapi/worker/config.go#withDefaults *)
Definition withDefaults (c : Config) : error + Config :=
  if cfg_WorkerID c == "" then inl (errors_New "worker: Config.WorkerID is required") else
  let c := mkConfig (cfg_WorkerID c)
    (or_default (cfg_HeartbeatInterval c) defaultHeartbeatInterval)
    (or_default (cfg_StaleAfter c) defaultStaleAfter)
    (or_default (cfg_ReconcileInterval c) defaultReconcileInterval)
    (or_default (cfg_QueuedAgeThreshold c) defaultQueuedAgeThreshold)
    (or_default (cfg_MaxAttempts c) defaultMaxAttempts) in
  if (cfg_StaleAfter c <? int64_wrap (3 * cfg_HeartbeatInterval c))%Z
  then inl (errors_New ("worker: StaleAfter (" +:+ Duration_String (cfg_StaleAfter c)
              +:+ ") must be >= 3× HeartbeatInterval ("
              +:+ Duration_String (cfg_HeartbeatInterval c) +:+ ")"))
  else inr c.

(** go: internal/coachapi/worker/config.go#Retryable *)
Definition Retryable (err : error) : error := mkError (err_Error err) (RetryableMarker :: err_chain err).

(** go: internal/coachapi/worker/config.go#IsRetryable *)
Definition IsRetryable (err : error) : bool := errors_Is err RetryableMarker.

(** go: internal/coachapi/task_payload.go#MarshalTaskPayload *)
Definition MarshalTaskPayload (jobID : string) : string :=
  "{" +:+ dq +:+ "schema_version" +:+ dq +:+ ":1," +:+ dq +:+ "job_id" +:+ dq +:+ ":"
  +:+ json_string jobID +:+ "}".

Example MarshalTaskPayload_example :
  MarshalTaskPayload "j1" = "{" +:+ dq +:+ "schema_version" +:+ dq +:+ ":1," +:+ dq +:+ "job_id"
    +:+ dq +:+ ":" +:+ dq +:+ "j1" +:+ dq +:+ "}".
Proof. reflexivity. Qed.

(** ** The worker's world *)

Section Worker.
Context {table : IsPrint} {S Q : Type} {store : WorkerJobStore S} {queue : TaskQueue Q}.

Record world := mkWorld {
  w_store : S; w_queue : Q;
  w_clock : nat → Time; w_ticks : nat;      (* readings of Now, and how many were taken *)
  w_env : nat → S → S; w_calls : nat        (* the others' calls before each store call *)
}.

(** The state monad over the world. *)
Definition M (A : Type) : Type := world → world * A.
#[local] Instance M_ret : MRet M := λ A x w, (w, x).
#[local] Instance M_bind : MBind M := λ A B f m w, let '(w', x) := m w in f x w'.

Definition Now : M Time := λ w,
  (mkWorld (w_store w) (w_queue w) (w_clock w) (Datatypes.S (w_ticks w)) (w_env w) (w_calls w),
   w_clock w (w_ticks w)).

(** One call of the store, after whatever the others did to it. *)
Definition on_store {A} (f : S → S * A) : M A := λ w,
  let '(s, x) := f (w_env w (w_calls w) (w_store w)) in
  (mkWorld s (w_queue w) (w_clock w) (w_ticks w) (w_env w) (Datatypes.S (w_calls w)), x).

Definition read_store {A} (f : S → A) : M A := on_store (λ s, (s, f s)).

(** One call of the queue. *)
Definition on_queue {A} (f : Q → Q * A) : M A := λ w,
  let '(q, x) := f (w_queue w) in
  (mkWorld (w_store w) q (w_clock w) (w_ticks w) (w_env w) (w_calls w), x).

Context (cfg : Config).

(** *** Settling a message *)

(** go: internal/coachapi/worker/settle.go#settleMode *)
Inductive settleMode := settleForClaim | settleForDuplicate.

(** go: internal/coachapi/worker/settle.go#hasLiveHeartbeat *)
Definition hasLiveHeartbeat (job : Job) (now : Time) (staleAfter : Duration) : bool :=
  match job_HeartbeatAt job with
  | None => false
  | Some hb => (Sub now hb <? staleAfter)%Z
  end.

(** go: internal/coachapi/worker/settle.go#settleRunning *)
Definition settleRunning (qclaim : Claim) (job : Job) (now : Time) (mode : settleMode) :
    M (bool * option error) :=
  if hasLiveHeartbeat job now (cfg_StaleAfter cfg)
  then err ← on_queue (λ q, Complete q qclaim); mret (true, err)
  else match mode with
  | settleForDuplicate => mret (true, None)
  | settleForClaim => mret (false, None)
  end.

(** go: internal/coachapi/worker/settle.go#settleQueueClaim *)
Definition settleQueueClaim (qclaim : Claim) (job : Job) (mode : settleMode) :
    M (bool * option error) :=
  now ← Now;
  if job_Status job == JobStatusCompleted
  then err ← on_queue (λ q, Complete q qclaim); mret (true, err)
  else if job_Status job == JobStatusFailed
  then err ← on_queue (λ q, Nack q qclaim true); mret (true, err)
  else if job_Status job == JobStatusRunning then settleRunning qclaim job now mode
  else if job_Status job == JobStatusQueued then
    match mode with
    | settleForDuplicate => mret (true, None)
    | settleForClaim => mret (false, None)
    end
  else
    match mode with
    | settleForClaim => err ← on_queue (λ q, Complete q qclaim); mret (true, err)
    | settleForDuplicate => mret (true, None)
    end.

(** *** Outcomes of a handler *)

Definition worker_error (what id : string) (err : error) : error :=
  Errorf ("worker: " +:+ what +:+ " " +:+ quoted id +:+ ": ") err.

(** The common error tail of the worker's lease-checked store calls. *)
Definition lease_call_error (what : string) (lease : ClaimLease) (err : error) : error :=
  if errors_Is err ErrClaimLost then sentinel_error ErrClaimLost
  else worker_error what (lease_JobID lease) err.

(** go: internal/coachapi/worker/disposition.go#releaseForRetry *)
Definition releaseForRetry (qclaim : Claim) (lease : ClaimLease) : M (option error) :=
  r ← on_store (λ s, ReleaseClaim s (lease_JobID lease) (lease_WorkerID lease) (lease_Attempt lease));
  match r with
  | Some err => mret (Some (lease_call_error "release claim" lease err))
  | None =>
      r ← on_queue (λ q, Nack q qclaim false);
      mret (option_map (worker_error "nack retryable" (lease_JobID lease)) r)
  end.

(** go: internal/coachapi/worker/disposition.go#failPermanently *)
Definition failPermanently (qclaim : Claim) (lease : ClaimLease) (handlerErr : error) :
    M (option error) :=
  finishedAt ← Now;
  r ← on_store (λ s, FailJob s (lease_JobID lease) (lease_WorkerID lease) (lease_Attempt lease)
                       (err_Error handlerErr) finishedAt);
  match r with
  | Some err => mret (Some (lease_call_error "fail job" lease err))
  | None =>
      r ← on_queue (λ q, Nack q qclaim true);
      mret (option_map (worker_error "nack permanent" (lease_JobID lease)) r)
  end.

(** go: internal/coachapi/worker/disposition.go#dispositionHandlerError *)
Definition dispositionHandlerError (qclaim : Claim) (lease : ClaimLease) (handlerErr : error) :
    M (option error) :=
  if IsRetryable handlerErr && (lease_Attempt lease <? cfg_MaxAttempts cfg)%Z
  then releaseForRetry qclaim lease
  else failPermanently qclaim lease handlerErr.

(** go: internal/coachapi/worker/run.go#completeClaimed *)
Definition completeClaimed (qclaim : Claim) (lease : ClaimLease) (completion : Completion) :
    M (option error) :=
  let attempt := if (cp_Attempt completion =? 0)%Z then lease_Attempt lease
                 else cp_Attempt completion in
  finishedAt ← (if IsZero (cp_FinishedAt completion) then Now else mret (cp_FinishedAt completion));
  let generatedAt := if IsZero (cp_GeneratedAt completion) then finishedAt
                     else cp_GeneratedAt completion in
  let completion :=
    mkCompletion attempt (cp_CommitSHA completion) (cp_Findings completion)
      (cp_Diagnostics completion) (cp_Versions completion) finishedAt generatedAt in
  r ← on_store (λ s, CompleteJob s (lease_JobID lease) (lease_WorkerID lease) (lease_Attempt lease)
                       completion);
  match r with
  | Some err => mret (Some (lease_call_error "complete job" lease err))
  | None => on_queue (λ q, Complete q qclaim)
  end.

(** go: internal/coachapi/worker/run.go#handlerOutcome *)
Record handlerOutcome := mkHandlerOutcome { out_completion : option Completion; out_err : option error }.

(** go: internal/coachapi/worker/run.go#finishHandlerOutcome *)
Definition finishHandlerOutcome (qclaim : Claim) (lease : ClaimLease) (out : handlerOutcome) :
    M (option error) :=
  match out_err out, out_completion out with
  | Some err, _ =>
      if errors_Is err ErrClaimLost then mret (Some (sentinel_error ErrClaimLost))
      else dispositionHandlerError qclaim lease err
  | None, None =>
      dispositionHandlerError qclaim lease (errors_New "handler returned nil completion")
  | None, Some completion => completeClaimed qclaim lease completion
  end.

(** *** Running a claimed job *)

(** What may happen, one event at a time, while a job's attempt runs. *)
Inductive run_event :=
  | EvHeartbeat                                          (* the heartbeat timer fires *)
  | EvInsertFindings (findings : list JobFinding)        (* the handler writes rows *)
  | EvInsertDiagnostics (diagnostics : list JobDiagnostic)
  | EvHandlerDone (out : handlerOutcome)                 (* the handler returns *)
  | EvCtxDone (err : error).                             (* the context ends *)

(** The channels of the [select] that are ready. *)
Inductive ready_channel :=
  | CtxDone (err : error) | FenceLost | HandlerDone (out : handlerOutcome).

(** go: internal/coachapi/worker/heartbeat.go#beatOnce *)
Definition beatOnce (lease : ClaimLease) : M (bool * list ready_channel) :=
  now ← Now;
  r ← on_store (λ s, Heartbeat s (lease_JobID lease) (lease_WorkerID lease) (lease_Attempt lease) now);
  mret match r with
  | None => (false, [])
  | Some err =>
      if errors_Is err ErrClaimLost then (true, [FenceLost])
      else if errors_Is err Canceled || errors_Is err DeadlineExceeded then (true, [])
      else (false, [])
  end.

(** The handler's writer stamps each row with the lease, then so does the store.
    go: internal/coachapi/worker/handler.go:32-39#InsertFindings *)
Definition writeFindings (lease : ClaimLease) (findings : list JobFinding) : M (option error) :=
  on_store (λ s, InsertFindings s (lease_JobID lease) (lease_WorkerID lease) (lease_Attempt lease)
    (map (Memory.stamp_finding (lease_JobID lease) (lease_Attempt lease)) findings)).

(** go: internal/coachapi/worker/handler.go:41-48#InsertDiagnostics *)
Definition writeDiagnostics (lease : ClaimLease) (diagnostics : list JobDiagnostic) :
    M (option error) :=
  on_store (λ s, InsertDiagnostics s (lease_JobID lease) (lease_WorkerID lease) (lease_Attempt lease)
    (map (Memory.stamp_diagnostic (lease_JobID lease) (lease_Attempt lease)) diagnostics)).

(** One event, given whether the heartbeat loop has exited.
    go: internal/coachapi/worker/heartbeat.go#heartbeatLoop *)
Definition run_one (lease : ClaimLease) (exited : bool) (ev : run_event) :
    M (bool * list ready_channel) :=
  match ev with
  | EvHeartbeat => if exited then mret (exited, []) else beatOnce lease
  | EvInsertFindings fs => _ ← writeFindings lease fs; mret (exited, [])
  | EvInsertDiagnostics ds => _ ← writeDiagnostics lease ds; mret (exited, [])
  | EvHandlerDone out => mret (exited, [HandlerDone out])
  | EvCtxDone err => mret (exited, [CtxDone err])
  end.

(** The events of a run, in the order they happen. *)
Fixpoint run_events (lease : ClaimLease) (exited : bool) (script : list run_event) :
    M (list ready_channel) :=
  match script with
  | [] => mret []
  | ev :: script =>
      r ← run_one lease exited ev;
      rest ← run_events lease (fst r) script;
      mret (snd r ++ rest)
  end.

(** [None]: no channel is ready yet at the end of the script.
    go: internal/coachapi/worker/run.go#runClaimed *)
Definition runClaimed (script : list run_event) (pick : nat) (qclaim : Claim) (lease : ClaimLease) :
    M (option (option error)) :=
  ready ← run_events lease false script;
  match ready !! pick with
  | None => mret None
  | Some (CtxDone err) => mret (Some (Some err))
  | Some FenceLost => mret (Some (Some (sentinel_error ErrClaimLost)))
  | Some (HandlerDone out) => err ← finishHandlerOutcome qclaim lease out; mret (Some err)
  end.

(** *** Processing a message *)

(** What the job's handler, and what runs beside it, will do: a script and the
    [select]'s choice, for the job and lease at hand. *)
Context (handler : Job → ClaimLease → list run_event * nat).

(** go: internal/coachapi/worker/claim.go#ackIfDuplicateOrTerminal *)
Definition ackIfDuplicateOrTerminal (qclaim : Claim) : M (option error) :=
  r ← read_store (λ s, GetJob s (claim_TaskID qclaim));
  match r with
  | inl err =>
      if errors_Is err ErrJobNotFound then on_queue (λ q, Complete q qclaim) else mret (Some err)
  | inr job => res ← settleQueueClaim qclaim job settleForDuplicate; mret (snd res)
  end.

(** go: internal/coachapi/worker/claim.go#claimAndRun *)
Definition claimAndRun (qclaim : Claim) (job : Job) : M (option (option error)) :=
  now ← Now;
  r ← on_store (λ s, ClaimJob s (job_ID job) (cfg_WorkerID cfg) now (cfg_StaleAfter cfg));
  match r with
  | inl err =>
      if errors_Is err ErrNotClaimable
      then e ← ackIfDuplicateOrTerminal qclaim; mret (Some e)
      else mret (Some (Some (worker_error "claim job" (job_ID job) err)))
  | inr lease =>
      r ← read_store (λ s, GetJob s (lease_JobID lease));
      match r with
      | inl err =>
          mret (Some (Some (Errorf ("worker: reload job " +:+ quoted (lease_JobID lease)
                                    +:+ " after claim: ") err)))
      | inr job =>
          let '(script, pick) := handler job lease in
          runClaimed script pick qclaim lease
      end
  end.

(** go: internal/coachapi/worker/process.go#loadJobForClaim *)
Definition loadJobForClaim (qclaim : Claim) : M (option error + option Job) :=
  r ← read_store (λ s, GetJob s (claim_TaskID qclaim));
  match r with
  | inl err =>
      if errors_Is err ErrJobNotFound
      then e ← on_queue (λ q, Complete q qclaim);
           mret (match e with Some e => inl (Some e) | None => inr None end)
      else mret (inl (Some (worker_error "get job" (claim_TaskID qclaim) err)))
  | inr job => mret (inr (Some job))
  end.

(** go: internal/coachapi/worker/process.go#processQueueClaim *)
Definition processQueueClaim (qclaim : Claim) : M (option (option error)) :=
  r ← loadJobForClaim qclaim;
  match r with
  | inl err => mret (Some err)
  | inr None => mret (Some None)
  | inr (Some job) =>
      res ← settleQueueClaim qclaim job settleForClaim;
      let '(settled, err) := res in
      match err, settled with
      | None, false => claimAndRun qclaim job
      | _, _ => mret (Some err)
      end
  end.

(** The answer is [ok] and the error.
    go: internal/coachapi/worker/process.go#ProcessNext *)
Definition ProcessNext : M (option (bool * option error)) :=
  r ← on_queue ClaimTask;
  match r with
  | inl err => mret (Some (false, Some (Errorf "worker: queue claim: " err)))
  | inr None => mret (Some (false, None))
  | inr (Some qclaim) =>
      e ← processQueueClaim qclaim;
      mret (option_map (λ err, (true, err)) e)
  end.

(** *** Reconciler *)

(** go: internal/coachapi/worker/reconcile.go#enqueueJob *)
Definition enqueueJob (jobID : string) : M (option error) :=
  on_queue (λ q, Enqueue q (mkTask jobID (MarshalTaskPayload jobID))).

(** go: internal/coachapi/worker/reconcile.go#reenqueueQueued *)
Fixpoint reenqueueQueued (jobs : list Job) (firstErr : option error) : M (option error) :=
  match jobs with
  | [] => mret firstErr
  | job :: jobs =>
      err ← enqueueJob (job_ID job);
      reenqueueQueued jobs (match firstErr with Some e => Some e | None => err end)
  end.

(** go: internal/coachapi/worker/reconcile.go#ReconcileOnce *)
Definition ReconcileOnce : M (option error) :=
  now ← Now;
  r ← on_store (λ s, ReleaseStaleRunning s now (cfg_StaleAfter cfg));
  match r with
  | inl err => mret (Some (Errorf "worker: release stale running: " err))
  | inr _ =>
      let olderThan := Add now (int64_wrap (- cfg_QueuedAgeThreshold cfg)) in
      r ← read_store (λ s, ListQueuedOlderThan s olderThan);
      match r with
      | inl err => mret (Some (Errorf "worker: list queued: " err))
      | inr jobs => reenqueueQueued jobs None
      end
  end.
End Worker.
