(* ===== verification/WorkerSafety.v ===== *)
(** * What the worker guarantees

    A small Hoare logic for the worker's state monad, and with it the worker's
    contract with its queue: a message is acknowledged, refused or put back only
    when the store says so.  Proved for every store with the port's laws and every
    queue, whatever the other workers do in between; then, for the in-memory store,
    what a run that lost its lease does, what each outcome of a handler does, and
    what the reconciler enqueues. *)

From S2P Require Import Prelude GoText GoErr JobStore Worker.

#[local] Existing Instance M_ret.
#[local] Existing Instance M_bind.

(** ** Hoare triples *)

Section Hoare.
Context {S Q : Type}.
Notation world := (@world S Q).
Notation M := (@M S Q).

Definition hoare {A} (P : world → Prop) (m : M A) (post : A → world → Prop) : Prop :=
  ∀ w, P w → post (snd (m w)) (fst (m w)).

Lemma hoare_ret {A} (P : world → Prop) (x : A) (post : A → world → Prop) :
  (∀ w, P w → post x w) → hoare P (mret (MRet := M_ret) x) post.
Proof. intros H w Hw. by apply H. Qed.

Lemma hoare_bind {A B} (P : world → Prop) (m : M A) (f : A → M B) mid post :
  hoare P m mid → (∀ x, hoare (mid x) (f x) post) → hoare P (mbind (MBind := M_bind) f m) post.
Proof.
  intros Hm Hf w Hw. specialize (Hm w Hw). unfold mbind, M_bind.
  destruct (m w) as [w' x]. by apply Hf.
Qed.

Lemma hoare_conseq {A} (P P' : world → Prop) (m : M A) (post post' : A → world → Prop) :
  (∀ w, P w → P' w) → (∀ x w, post' x w → post x w) → hoare P' m post' → hoare P m post.
Proof. intros HP HQ Hm w Hw. apply HQ, Hm, HP, Hw. Qed.

Lemma hoare_pre {A} (P P' : world → Prop) (m : M A) (post : A → world → Prop) :
  (∀ w, P w → P' w) → hoare P' m post → hoare P m post.
Proof. intros HP Hm w Hw. apply Hm, HP, Hw. Qed.

(** A fact about the value already at hand. *)
Lemma hoare_pure {A} (P : world → Prop) (φ : Prop) (m : M A) (post : A → world → Prop) :
  (φ → hoare P m post) → hoare (λ w, P w ∧ φ) m post.
Proof. intros H w [Hw Hφ]. by apply (H Hφ). Qed.
End Hoare.

(** ** Settling *)

Section Settles.
Context {table : IsPrint} {S Q : Type} {store : WorkerJobStore S} {queue : TaskQueue Q}
  {laws : WorkerJobStoreLaws S}.
Context (cfg : Config).

(** A world of this history: the clock [c], the queue still [q]; the store keeps
    its invariant whatever the others do. *)
Definition at0 (c : nat → Time) (q : Q) (w : @world S Q) : Prop :=
  store_inv (w_store w) ∧ (∀ n s, store_inv s → store_inv (w_env w n s))
  ∧ w_clock w = c ∧ w_queue w = q.

(** The job of a message is finished, is being worked on by a live claim, does not
    exist, or has no status the worker knows. *)
Definition ack_due (c : nat → Time) (s : S) (id : string) : Prop :=
  job_of s id = None ∨ ∃ j, job_of s id = Some j ∧
    (job_Status j = JobStatusCompleted
     ∨ (job_Status j = JobStatusRunning ∧ ∃ n, hasLiveHeartbeat j (c n) (cfg_StaleAfter cfg) = true)
     ∨ ¬ In (job_Status j)
           [JobStatusQueued; JobStatusRunning; JobStatusCompleted; JobStatusFailed]).

(** What became of the message: the queue after processing, from the queue before
    and the store after. *)
Inductive queue_outcome (c : nat → Time) (qclaim : Claim) (q : Q) (s : S) : Q → Prop :=
  | q_left : queue_outcome c qclaim q s q
  | q_acked :
      ack_due c s (claim_TaskID qclaim) →
      queue_outcome c qclaim q s (fst (Complete q qclaim))
  | q_poisoned :
      (∃ j, job_of s (claim_TaskID qclaim) = Some j ∧ job_Status j = JobStatusFailed) →
      queue_outcome c qclaim q s (fst (Nack q qclaim true))
  | q_retried :
      (∃ j, job_of s (claim_TaskID qclaim) = Some j ∧ job_Status j = JobStatusQueued
            ∧ (job_Attempt j < cfg_MaxAttempts cfg)%Z) →
      queue_outcome c qclaim q s (fst (Nack q qclaim false)).

Definition settled (c : nat → Time) (qclaim : Claim) (q : Q) (w : @world S Q) : Prop :=
  queue_outcome c qclaim q (w_store w) (w_queue w).

Lemma at0_settled c qclaim q w : at0 c q w → settled c qclaim q w.
Proof. intros (_ & _ & _ & E). unfold settled. rewrite E. constructor. Qed.

Lemma hoare_now c q :
  hoare (at0 c q) Now (λ now w, at0 c q w ∧ ∃ n, now = c n).
Proof. intros w (H1 & H2 & <- & H4). split; [done|by eexists]. Qed.

Lemma hoare_now_with c q (P : S → Prop) :
  hoare (λ w, at0 c q w ∧ P (w_store w)) Now
    (λ now w, (at0 c q w ∧ P (w_store w)) ∧ ∃ n, now = c n).
Proof. intros w ((H1 & H2 & <- & H4) & HP). split; [done|by eexists]. Qed.

(** A store call that keeps the invariant, and what its result says. *)
Lemma hoare_on_store {A} c q (f : S → S * A) (post : A → S → Prop) :
  (∀ s, store_inv s → store_inv (fst (f s))) →
  (∀ s s' x, store_inv s → f s = (s', x) → post x s') →
  hoare (at0 c q) (on_store f) (λ x w, at0 c q w ∧ post x (w_store w)).
Proof.
  intros Hinv Hpost w (H1 & H2 & H3 & H4). unfold on_store.
  specialize (H2 (w_calls w) (w_store w) H1) as Hs.
  specialize (Hinv _ Hs). destruct (f (w_env w (w_calls w) (w_store w))) as [s' x] eqn:E. cbn in *.
  split; [done|]. by eapply Hpost.
Qed.

Lemma hoare_read c q {A} (f : S → A) (post : A → S → Prop) :
  (∀ s, store_inv s → post (f s) s) →
  hoare (at0 c q) (read_store f) (λ x w, at0 c q w ∧ post x (w_store w)).
Proof.
  intros H. apply hoare_on_store; [done|]. intros s s' x Hs [= <- <-]. by apply H.
Qed.

(** A queue call that ends the processing. *)
Lemma hoare_on_queue {A} c q qclaim (P : world → Prop) (f : Q → Q * A) :
  (∀ w, P w → at0 c q w ∧ queue_outcome c qclaim q (w_store w) (fst (f q))) →
  hoare P (on_queue f) (λ _ w, settled c qclaim q w).
Proof.
  intros H w HP. destruct (H w HP) as ((_ & _ & _ & E) & Ho). unfold on_queue. rewrite E.
  destruct (f q) as [q' x]. exact Ho.
Qed.

(** Returns after such a call. *)
Lemma hoare_ret_settled {A} c qclaim q (x : A) :
  hoare (settled c qclaim q) (mret (MRet := M_ret) x) (λ _ w, settled c qclaim q w).
Proof. by apply hoare_ret. Qed.

Lemma hoare_ret_left {A} c qclaim q (P : world → Prop) (x : A) :
  (∀ w, P w → at0 c q w) → hoare P (mret (MRet := M_ret) x) (λ _ w, settled c qclaim q w).
Proof. intros H. apply hoare_ret. intros w Hw. by apply at0_settled, H. Qed.

(** The job read for the message. *)
Definition job_read (qclaim : Claim) (job : Job) (s : S) : Prop :=
  job_of s (claim_TaskID qclaim) = Some job ∧ job_ID job = claim_TaskID qclaim.

(** Settling either settles the message or leaves it to a claim. *)
Definition settle_post c qclaim q (r : bool * option error) (w : @world S Q) : Prop :=
  match r with (false, None) => at0 c q w | _ => settled c qclaim q w end.

Lemma settled_post c qclaim q err w : settled c qclaim q w → settle_post c qclaim q (true, err) w.
Proof. done. Qed.

Lemma ret_settled c qclaim q (err : option error) :
  hoare (settled c qclaim q) (mret (MRet := M_ret) (true, err)) (settle_post c qclaim q).
Proof. by apply hoare_ret. Qed.

Lemma settle_running_ok c qclaim q job now mode :
  job_Status job = JobStatusRunning → (∃ n, now = c n) →
  hoare (λ w, at0 c q w ∧ job_read qclaim job (w_store w))
    (settleRunning cfg qclaim job now mode) (settle_post c qclaim q).
Proof.
  intros Er [n ->]. unfold settleRunning.
  destruct (hasLiveHeartbeat job (c n) (cfg_StaleAfter cfg)) eqn:Hl.
  - eapply hoare_bind; [|intros err; apply ret_settled].
    apply hoare_on_queue. intros w [Hw [Hj _]]. split; [done|]. apply q_acked. right. exists job. split; [done|].
    right. left. split; [done|by exists n].
  - destruct mode; apply hoare_ret; intros w [H _]; [exact H|by apply at0_settled].
Qed.

Lemma settle_ok c qclaim q job mode :
  hoare (λ w, at0 c q w ∧ job_read qclaim job (w_store w))
    (settleQueueClaim cfg qclaim job mode) (settle_post c qclaim q).
Proof.
  unfold settleQueueClaim. eapply hoare_bind; [apply hoare_now_with|]. intros now.
  destruct (String.eqb_spec (job_Status job) JobStatusCompleted) as [E1|E1].
  { eapply hoare_bind; [|intros err; apply ret_settled].
    apply hoare_on_queue. intros w [[Hw [Hj _]] _]. split; [done|]. apply q_acked. right. exists job. auto. }
  destruct (String.eqb_spec (job_Status job) JobStatusFailed) as [E2|E2].
  { eapply hoare_bind; [|intros err; apply ret_settled].
    apply hoare_on_queue. intros w [[Hw [Hj _]] _]. split; [done|]. apply q_poisoned. exists job. auto. }
  destruct (String.eqb_spec (job_Status job) JobStatusRunning) as [E3|E3].
  { intros w [Hw Hn]. by apply settle_running_ok. }
  destruct (String.eqb_spec (job_Status job) JobStatusQueued) as [E4|E4].
  { destruct mode; apply hoare_ret; intros w [[H _] _]; [exact H|by apply at0_settled]. }
  destruct mode; [|apply hoare_ret; intros w [[H _] _]; by apply at0_settled].
  eapply hoare_bind; [|intros err; apply ret_settled].
  apply hoare_on_queue. intros w [[Hw [Hj _]] _]. split; [done|]. apply q_acked. right. exists job. split; [done|].
  right. right. simpl. intros [?|[?|[?|[?|[]]]]]; congruence.
Qed.

(** *** Handler outcomes *)

Context (qclaim : Claim) (lease : ClaimLease) (Hlease : lease_JobID lease = claim_TaskID qclaim).

Lemma release_ok c q :
  (lease_Attempt lease < cfg_MaxAttempts cfg)%Z →
  hoare (at0 c q) (releaseForRetry qclaim lease) (λ _ w, settled c qclaim q w).
Proof.
  intros Hmax. unfold releaseForRetry. eapply hoare_bind.
  - apply (hoare_on_store c q _ (λ r s, r = None →
      ∃ j, job_of s (claim_TaskID qclaim) = Some j ∧ job_Status j = JobStatusQueued
           ∧ (job_Attempt j < cfg_MaxAttempts cfg)%Z)).
    + intros s. apply inv_ReleaseClaim.
    + intros s s' x _ E ->. apply ReleaseClaim_done in E as (j & Ej & Es & Ea & _).
      rewrite Hlease in Ej. exists j. by rewrite Ea.
  - intros [err|]; [apply hoare_ret_left; by intros w [? _]|].
    eapply hoare_bind; [|intros r; apply hoare_ret_settled].
    apply hoare_on_queue. intros w [Hw H]. split; [done|]. apply q_retried. by apply H.
Qed.

Lemma fail_ok c q err :
  hoare (at0 c q) (failPermanently qclaim lease err) (λ _ w, settled c qclaim q w).
Proof.
  unfold failPermanently. eapply hoare_bind; [apply hoare_now|]. intros now.
  apply (hoare_pre _ (at0 c q)); [by intros w [? _]|]. eapply hoare_bind.
  - apply (hoare_on_store c q _ (λ r s, r = None →
      ∃ j, job_of s (claim_TaskID qclaim) = Some j ∧ job_Status j = JobStatusFailed)).
    + intros s. apply inv_FailJob.
    + intros s s' x _ E ->. apply FailJob_done in E as (j & Ej & Es & _).
      rewrite Hlease in Ej. by exists j.
  - intros [e|]; [apply hoare_ret_left; by intros w [? _]|].
    eapply hoare_bind; [|intros r; apply hoare_ret_settled].
    apply hoare_on_queue. intros w [Hw H]. split; [done|]. apply q_poisoned. by apply H.
Qed.

Lemma disposition_ok c q err :
  hoare (at0 c q) (dispositionHandlerError cfg qclaim lease err) (λ _ w, settled c qclaim q w).
Proof.
  unfold dispositionHandlerError. destruct (_ && _) eqn:E; [|apply fail_ok].
  apply andb_true_iff in E as [_ E%Z.ltb_lt]. by apply release_ok.
Qed.

Lemma complete_ok c q completion :
  hoare (at0 c q) (completeClaimed qclaim lease completion) (λ _ w, settled c qclaim q w).
Proof.
  unfold completeClaimed.
  apply (hoare_bind _ _ _ (λ _, at0 c q)).
  { destruct (IsZero _); [|by apply hoare_ret].
    apply (hoare_conseq _ (at0 c q) _ _ (λ now w, at0 c q w ∧ ∃ n, now = c n)); [done|by intros ? ? [? _]|].
    apply hoare_now. }
  intros finishedAt. eapply hoare_bind.
  - apply (hoare_on_store c q _ (λ r s, r = None → ack_due c s (claim_TaskID qclaim))).
    + intros s. apply inv_CompleteJob.
    + intros s s' x _ E ->. apply CompleteJob_done in E as (j & Ej & Es & _).
      rewrite Hlease in Ej. right. exists j. auto.
  - intros [e|]; [apply hoare_ret_left; by intros w [? _]|].
    apply hoare_on_queue. intros w [Hw H]. split; [done|]. apply q_acked. by apply H.
Qed.

Lemma finish_ok c q out :
  hoare (at0 c q) (finishHandlerOutcome cfg qclaim lease out) (λ _ w, settled c qclaim q w).
Proof.
  unfold finishHandlerOutcome. destruct (out_err out) as [err|].
  - destruct (errors_Is err ErrClaimLost); [by apply hoare_ret_left|apply disposition_ok].
  - destruct (out_completion out); [apply complete_ok|apply disposition_ok].
Qed.

(** *** The run *)

Lemma store_call_at0 {A} c q (f : S → S * A) :
  (∀ s, store_inv s → store_inv (fst (f s))) → hoare (at0 c q) (on_store f) (λ _, at0 c q).
Proof.
  intros H. apply (hoare_conseq _ (at0 c q) _ _ (λ x w, at0 c q w ∧ True)); [done|by intros ? ? [? _]|].
  by apply (hoare_on_store c q f (λ _ _, True)).
Qed.

Lemma run_one_ok c q exited ev :
  hoare (at0 c q) (run_one lease exited ev) (λ _, at0 c q).
Proof.
  destruct ev; cbn [run_one]; [|eapply hoare_bind; [apply store_call_at0|]..| |];
    try (intros; by apply hoare_ret); try (by apply hoare_ret).
  - destruct exited; [by apply hoare_ret|]. unfold beatOnce.
    eapply hoare_bind; [apply hoare_now|]. intros now.
    apply (hoare_pre _ (at0 c q)); [by intros w [? _]|].
    eapply hoare_bind; [apply store_call_at0; intros s; apply inv_Heartbeat|].
    intros r. by apply hoare_ret.
  - intros s. apply inv_InsertFindings.
  - intros s. apply inv_InsertDiagnostics.
Qed.

Lemma run_events_ok c q script : ∀ exited,
  hoare (at0 c q) (run_events lease exited script) (λ _, at0 c q).
Proof.
  induction script as [|ev script IH]; intros exited; cbn [run_events]; [by apply hoare_ret|].
  eapply hoare_bind; [apply run_one_ok|]. intros r.
  eapply hoare_bind; [apply IH|]. intros rest. by apply hoare_ret.
Qed.

Lemma run_ok c q script pick :
  hoare (at0 c q) (runClaimed cfg script pick qclaim lease) (λ _ w, settled c qclaim q w).
Proof.
  unfold runClaimed. eapply hoare_bind; [apply run_events_ok|]. intros ready.
  destruct (ready !! pick) as [[err| |out]|]; try (by apply hoare_ret_left).
  eapply hoare_bind; [apply finish_ok|]. intros e. apply hoare_ret_settled.
Qed.
End Settles.

Section Processing.
Context {table : IsPrint} {S Q : Type} {store : WorkerJobStore S} {queue : TaskQueue Q}
  {laws : WorkerJobStoreLaws S}.
Context (cfg : Config) (handler : Job → ClaimLease → list run_event * nat).

Lemma read_job_ok c q qclaim :
  hoare (S:=S) (Q:=Q) (at0 c q) (read_store (λ s, GetJob s (claim_TaskID qclaim)))
    (λ r w, at0 c q w ∧ match r with
      | inl err => errors_Is err ErrJobNotFound = true → job_of (w_store w) (claim_TaskID qclaim) = None
      | inr job => job_read qclaim job (w_store w)
      end).
Proof.
  apply (hoare_read c q _ (λ r s, match r with
      | inl err => errors_Is err ErrJobNotFound = true → job_of s (claim_TaskID qclaim) = None
      | inr job => job_read qclaim job s end)).
  intros s Hs. destruct (GetJob s (claim_TaskID qclaim)) as [err|job] eqn:E.
  - intros H. by eapply GetJob_missing.
  - by apply GetJob_found.
Qed.

Lemma duplicate_ok c q qclaim :
  hoare (S:=S) (at0 c q) (ackIfDuplicateOrTerminal cfg qclaim) (λ _ w, settled cfg c qclaim q w).
Proof.
  unfold ackIfDuplicateOrTerminal. eapply hoare_bind; [apply read_job_ok|]. intros [err|job].
  - destruct (errors_Is err ErrJobNotFound) eqn:E; [|apply hoare_ret_left; by intros w [? _]].
    apply hoare_on_queue. intros w [Hw H]. split; [done|]. apply q_acked. left. by apply H.
  - eapply hoare_bind; [apply settle_ok|]. intros [[] [e|]].
    all: apply hoare_ret; intros w Hw; try exact Hw. by apply at0_settled.
Qed.

Lemma claim_and_run_ok c q qclaim job :
  job_ID job = claim_TaskID qclaim →
  hoare (S:=S) (at0 c q) (claimAndRun cfg handler qclaim job) (λ _ w, settled cfg c qclaim q w).
Proof.
  intros Hid. unfold claimAndRun. eapply hoare_bind; [apply hoare_now|]. intros now.
  apply (hoare_pre _ (at0 c q)); [by intros w [? _]|]. eapply hoare_bind.
  { apply (hoare_on_store c q _ (λ r s, ∀ l, r = inr l → lease_JobID l = claim_TaskID qclaim)).
    - intros s. apply inv_ClaimJob.
    - intros s s' x _ E l ->. rewrite <- Hid. by eapply ClaimJob_lease. }
  intros [err|lease].
  - apply (hoare_pre _ (at0 c q)); [by intros w [? _]|].
    destruct (errors_Is err ErrNotClaimable); [|by apply hoare_ret_left].
    eapply hoare_bind; [apply duplicate_ok|]. intros e. apply hoare_ret_settled.
  - intros w [Hw Hl]. specialize (Hl lease eq_refl). revert w Hw.
    change (hoare (at0 c q) (r ← read_store (λ s, GetJob s (lease_JobID lease));
      match r with
      | inl err => mret (Some (Some (Errorf ("worker: reload job " +:+ quoted (lease_JobID lease)
                                    +:+ " after claim: ") err)))
      | inr job => let '(script, pick) := handler job lease in runClaimed cfg script pick qclaim lease
      end) (λ _ w, settled cfg c qclaim q w)).
    eapply hoare_bind; [by apply store_call_at0|]. intros [err|j]; [by apply hoare_ret_left|].
    destruct (handler j lease) as [script pick]. by apply run_ok.
Qed.

Lemma process_ok c q qclaim :
  hoare (S:=S) (at0 c q) (processQueueClaim cfg handler qclaim) (λ _ w, settled cfg c qclaim q w).
Proof.
  unfold processQueueClaim, loadJobForClaim.
  apply (hoare_bind _ _ _ (λ r w, match r with
    | inr (Some job) => at0 c q w ∧ job_read qclaim job (w_store w)
    | _ => settled cfg c qclaim q w end)).
  - eapply hoare_bind; [apply read_job_ok|]. intros [err|job]; [|by apply hoare_ret].
    destruct (errors_Is err ErrJobNotFound) eqn:E.
    + eapply hoare_bind.
      * apply hoare_on_queue. intros w [Hw H]. split; [done|]. apply q_acked. left. by apply H.
      * intros [e|]; by apply hoare_ret.
    + apply hoare_ret. intros w [Hw _]. by apply at0_settled.
  - intros [err|[job|]]; [by apply hoare_ret| |by apply hoare_ret].
    intros w [Hw Hj]. assert (job_ID job = claim_TaskID qclaim) as Hid by apply Hj. revert w Hw Hj.
    assert (hoare (λ w, at0 c q w ∧ job_read qclaim job (w_store w))
      (res ← settleQueueClaim cfg qclaim job settleForClaim;
       let '(settled, err) := res in
       match err, settled with
       | None, false => claimAndRun cfg handler qclaim job
       | _, _ => mret (Some err)
       end) (λ _ w, settled cfg c qclaim q w)) as H.
    { eapply hoare_bind; [apply settle_ok|]. intros [[] [e|]]; try (by apply hoare_ret).
      by apply claim_and_run_ok. }
    intros w Hw Hj. by apply H.
Qed.
End Processing.

(** ** The in-memory store *)

Section InMemory.
Context {table : IsPrint} {Q : Type} {queue : TaskQueue Q} (unmarshalRuleID : string → option string).
#[local] Instance mem : WorkerJobStore Store := memory_store unmarshalRuleID.
Context (cfg : Config).

(** The others act on the store by its methods only. *)
Definition env_by_calls (env : nat → Store → Store) : Prop := ∀ n s, ∃ ops, env n s = run_ops s ops.

(** A lost lease: the store has given the claim up, the queue is still [q]. *)
Definition lost_at (lease : ClaimLease) (q : Q) (w : @world Store Q) : Prop :=
  lost (lease_WorkerID lease) (lease_Attempt lease) (w_store w !! lease_JobID lease)
  ∧ env_by_calls (w_env w) ∧ w_queue w = q.

(** A call that presents the lost lease is refused. *)
Lemma lost_call lease q o (f : Store → Store * option error) :
  presented_lease o = Some (lease_JobID lease, lease_WorkerID lease, lease_Attempt lease) →
  (∀ s, f s = (apply_op s o, default None (fenced_result s o))) →
  hoare (lost_at lease q) (on_store f)
    (λ r w, lost_at lease q w ∧ r = Some (job_error (lease_JobID lease) ErrClaimLost)).
Proof.
  intros Ho Hf w (Hl & He & Hq). unfold on_store. destruct (He (w_calls w) (w_store w)) as [ops ->].
  pose proof (lost_run _ ops _ _ _ Hl) as Hl'.
  destruct (lost_refused _ o _ _ _ Ho Hl') as [E1 E2]. rewrite Hf, E1, E2. cbn. done.
Qed.

Lemma lost_now lease q : hoare (lost_at lease q) Now (λ _, lost_at lease q).
Proof. by intros w Hw. Qed.

(** How a run that lost its lease may end. *)
Definition abandoned (lease : ClaimLease) (q : Q) (e : option error) (w : @world Store Q) : Prop :=
  lost_at lease q w ∧ ∃ err, e = Some err ∧ errors_Is err ErrClaimLost = true.

Lemma lost_answer lease q o what (k : M (option error)) (f : Store → Store * option error) :
  presented_lease o = Some (lease_JobID lease, lease_WorkerID lease, lease_Attempt lease) →
  (∀ s, f s = (apply_op s o, default None (fenced_result s o))) →
  hoare (lost_at lease q)
    (r ← on_store f;
     match r with Some err => mret (Some (lease_call_error what lease err)) | None => k end)
    (abandoned lease q).
Proof.
  intros Ho Hf. eapply hoare_bind; [by apply (lost_call lease q o)|]. intros r.
  intros w [Hw ->]. unfold abandoned. split; [exact Hw|]. eexists. split; [reflexivity|].
  unfold lease_call_error, job_error. rewrite errors_Is_Errorf, errors_Is_sentinel. done.
Qed.

Lemma lost_disposition lease q qclaim err :
  hoare (lost_at lease q) (dispositionHandlerError cfg qclaim lease err) (abandoned lease q).
Proof.
  unfold dispositionHandlerError, releaseForRetry, failPermanently. destruct (_ && _).
  - apply (lost_answer lease q (OpReleaseClaim (lease_JobID lease) (lease_WorkerID lease)
      (lease_Attempt lease))); [done|intros s; apply surjective_pairing].
  - eapply hoare_bind; [apply lost_now|]. intros now.
    apply (lost_answer lease q (OpFailJob (lease_JobID lease) (lease_WorkerID lease)
      (lease_Attempt lease) (err_Error err) now)); [done|intros s; apply surjective_pairing].
Qed.

Lemma lost_finish lease q qclaim out :
  hoare (lost_at lease q) (finishHandlerOutcome cfg qclaim lease out) (abandoned lease q).
Proof.
  unfold finishHandlerOutcome. destruct (out_err out) as [err|].
  - destruct (errors_Is err ErrClaimLost); [|apply lost_disposition].
    apply hoare_ret. intros w Hw. split; [done|]. by eexists.
  - destruct (out_completion out) as [c|]; [|apply lost_disposition].
    unfold completeClaimed. eapply hoare_bind.
    { instantiate (1 := λ _, lost_at lease q). destruct (IsZero _); [apply lost_now|by apply hoare_ret]. }
    intros finishedAt. set (c' := mkCompletion _ _ _ _ _ _ _).
    apply (lost_answer lease q (OpCompleteJob (lease_JobID lease) (lease_WorkerID lease)
      (lease_Attempt lease) c')); [done|intros s; apply surjective_pairing].
Qed.

Lemma lost_run_one lease q exited ev :
  hoare (lost_at lease q) (run_one lease exited ev)
    (λ r w, lost_at lease q w ∧ ∀ e, In (CtxDone e) (snd r) → ev = EvCtxDone e).
Proof.
  destruct ev as [|fs|ds|out|err]; cbn [run_one].
  - destruct exited; [by apply hoare_ret|]. unfold beatOnce.
    eapply hoare_bind; [apply lost_now|]. intros now.
    eapply hoare_bind.
    { apply (lost_call lease q (OpHeartbeat (lease_JobID lease) (lease_WorkerID lease)
        (lease_Attempt lease) now)); [done|intros s; apply surjective_pairing]. }
    intros r. apply hoare_ret. intros w [Hw ->]. split; [done|].
    unfold job_error. rewrite !errors_Is_Errorf, !errors_Is_sentinel. simpl. by intros e [|[]].
  - unfold writeFindings. set (fs' := map _ fs). eapply hoare_bind.
    { apply (lost_call lease q (OpInsertFindings (lease_JobID lease) (lease_WorkerID lease)
        (lease_Attempt lease) fs')); [done|intros s; apply surjective_pairing]. }
    intros r. apply hoare_ret. by intros w [Hw _].
  - unfold writeDiagnostics. set (ds' := map _ ds). eapply hoare_bind.
    { apply (lost_call lease q (OpInsertDiagnostics (lease_JobID lease) (lease_WorkerID lease)
        (lease_Attempt lease) ds')); [done|intros s; apply surjective_pairing]. }
    intros r. apply hoare_ret. by intros w [Hw _].
  - apply hoare_ret. intros w Hw. split; [done|]. by intros e [|[]].
  - apply hoare_ret. intros w Hw. split; [done|]. by intros e [[= ->]|[]].
Qed.

Lemma lost_run_events lease q script : ∀ exited,
  hoare (lost_at lease q) (run_events lease exited script)
    (λ r w, lost_at lease q w ∧ ∀ e, In (CtxDone e) r → In (EvCtxDone e) script).
Proof.
  induction script as [|ev script IH]; intros exited; cbn [run_events]; [by apply hoare_ret|].
  eapply hoare_bind; [apply lost_run_one|]. intros r.
  apply hoare_pure. intros Hr.
  eapply hoare_bind; [apply IH|]. intros rest. apply hoare_ret. intros w [Hw Hrest].
  split; [done|]. intros e [H|H]%in_app_iff; [left; by apply Hr|right; by apply Hrest].
Qed.
End InMemory.

(** ** The reconciler *)

Section Reconciler.
Context {table : IsPrint} {S Q : Type} {queue : TaskQueue Q}.

Definition enqueue_id (q : Q) (id : string) : Q := fst (Enqueue q (mkTask id (MarshalTaskPayload id))).

Lemma reenqueue_eq (jobs : list Job) : ∀ firstErr (w : @world S Q),
  let w' := fst (reenqueueQueued jobs firstErr w) in
  w_store w' = w_store w ∧ w_queue w' = fold_left enqueue_id (map job_ID jobs) (w_queue w).
Proof.
  induction jobs as [|j jobs IH]; intros firstErr w; [done|].
  cbn [reenqueueQueued map fold_left]. unfold enqueueJob, mbind, M_bind, on_queue.
  unfold enqueue_id at 2. destruct (Enqueue _ _) as [q' x].
  match goal with |- context [reenqueueQueued jobs ?e ?w1] => destruct (IH e w1) as [E1 E2] end.
  split; [exact E1|exact E2].
Qed.
End Reconciler.

(** The ids of the listed jobs. *)
Lemma listed_ids (m : Store) (f : Job → bool) :
  ids_match m →
  let ids := map job_ID (List.filter f (map (λ kv, rec_job (snd kv)) (map_to_list m))) in
  NoDup ids ∧ ∀ id, In id ids ↔ ∃ r, m !! id = Some r ∧ f (rec_job r) = true.
Proof.
  intros Hm. cbv zeta. rewrite bfilter_map, map_map.
  assert (∀ l, (∀ kv, In kv l → In kv (map_to_list m)) →
    map (λ kv : string * jobRecord, job_ID (rec_job (snd kv))) l = map fst l) as Hfst.
  { induction l as [|[k r] l IH]; intros H; [done|]. cbn [map]. rewrite IH by (intros; apply H; by right).
    f_equal. cbn. apply Hm. apply elem_of_map_to_list, list_elem_of_In, H. by left. }
  rewrite Hfst by (by intros kv [? _]%filter_In). split.
  - eapply sublist_NoDup; [apply (NoDup_fst_map_to_list (M:=gmap string) m)|]. apply (fmap_sublist fst), bfilter_sublist.
  - intros id. rewrite in_map_iff. split.
    + intros ([k r] & <- & [Hin Hf]%filter_In). exists r. split; [|done].
      by apply elem_of_map_to_list, list_elem_of_In.
    + intros (r & Hr & Hf). exists (id, r). split; [done|]. apply filter_In. split; [|done].
      by apply list_elem_of_In, elem_of_map_to_list.
Qed.

(** ** Properties *)

(** C2: the worker's contract with its queue.  Whatever the store behind the port,
    the queue, the handler and the other workers do, processing a message leaves the
    queue alone or makes one call on it, and the call is due: it acknowledges a
    message only if its job is completed, does not exist, is being run under a live
    heartbeat, or has a status no worker knows; it refuses one for good only if the
    job is failed; it puts one back only if the job is queued again with attempts
    left. *)
Theorem worker_settles {table : IsPrint} {S Q : Type} {store : WorkerJobStore S}
    {queue : TaskQueue Q} {laws : WorkerJobStoreLaws S} cfg handler qclaim (w : @world S Q) :
  store_inv (w_store w) → (∀ n s, store_inv s → store_inv (w_env w n s)) →
  let w' := fst (processQueueClaim cfg handler qclaim w) in
  queue_outcome cfg (w_clock w) qclaim (w_queue w) (w_store w') (w_queue w').
Proof.
  intros H1 H2. cbv zeta.
  apply (process_ok cfg handler (w_clock w) (w_queue w) qclaim w). by repeat split.
Qed.

(** A worker that has lost its claim does nothing more.  If its lease was lost
    before the run, or is lost at any point of it, then whatever the handler does or
    returns, however often the heartbeat fires and whatever the other workers do, the
    queue is never called, and the run can end only with [ErrClaimLost], or with the
    error of the context if that ends first. *)
Theorem lost_run_abandons {table : IsPrint} {Q : Type} {queue : TaskQueue Q} unmarshalRuleID cfg
    script pick qclaim lease (w : @world Store Q) :
  lost (lease_WorkerID lease) (lease_Attempt lease) (w_store w !! lease_JobID lease) →
  env_by_calls (w_env w) →
  let '(w', result) := runClaimed (store:=memory_store unmarshalRuleID) cfg
                         script pick qclaim lease w in
  w_queue w' = w_queue w
  ∧ match result with
    | None => True
    | Some None => False
    | Some (Some err) => errors_Is err ErrClaimLost = true ∨ In (EvCtxDone err) script
    end.
Proof.
  intros Hl He.
  assert (hoare (lost_at lease (w_queue w))
    (runClaimed (store:=memory_store unmarshalRuleID) cfg script pick qclaim lease)
    (λ result w', w_queue w' = w_queue w ∧ match result with
      | None => True
      | Some None => False
      | Some (Some err) => errors_Is err ErrClaimLost = true ∨ In (EvCtxDone err) script
      end)) as H.
  { unfold runClaimed. eapply hoare_bind; [apply lost_run_events|]. intros ready.
    apply hoare_pure. intros Hctx.
    destruct (ready !! pick) as [[err| |out]|] eqn:E.
    - apply hoare_ret. intros w' (_ & _ & Hq). split; [done|]. right. apply Hctx.
      by eapply list_elem_of_In, list_elem_of_lookup_2.
    - apply hoare_ret. intros w' (_ & _ & Hq). split; [done|]. by left.
    - eapply hoare_bind; [apply lost_finish|]. intros e. apply hoare_ret.
      intros w' ((_ & _ & Hq) & err & -> & Herr). split; [done|]. by left.
    - apply hoare_ret. by intros w' (_ & _ & Hq). }
  specialize (H w). destruct (runClaimed cfg script pick qclaim lease w) as [w' result].
  by apply H.
Qed.

(** What an outcome calls for. *)
Inductive disposition := Abandon | Retry | Poison (msg : string) | Ack.

Definition disposition_of (cfg : Config) (lease : ClaimLease) (out : handlerOutcome) : disposition :=
  match out_err out, out_completion out with
  | Some err, _ =>
      if errors_Is err ErrClaimLost then Abandon
      else if errors_Is err RetryableMarker && (lease_Attempt lease <? cfg_MaxAttempts cfg)%Z
      then Retry else Poison (err_Error err)
  | None, None => Poison "handler returned nil completion"
  | None, Some _ => Ack
  end.


(** The handler returns, or the context ends, at some point of the script. *)
Definition finishes (script : list run_event) : Prop :=
  (∃ out, In (EvHandlerDone out) script) ∨ (∃ err, In (EvCtxDone err) script).

(** A run ends.  Once the handler has returned or the context has ended, the
    run gives an answer: no order of events blocks it. *)
Theorem run_ends {table : IsPrint} {S Q : Type} {store : WorkerJobStore S} {queue : TaskQueue Q} cfg
    script qclaim lease (w : @world S Q) :
  finishes script → is_Some (snd (runClaimed cfg script 0 qclaim lease w)).
Proof.
  unfold finishes. intros H.
  assert (∀ exited (w' : @world S Q), snd (run_events lease exited script w') ≠ []) as Hne.
  { revert H. induction script as [|ev script IH]; intros H exited w'; [naive_solver|].
    cbn [run_events]. unfold mbind, M_bind, mret, M_ret.
    destruct (run_one lease exited ev w') as [w1 r] eqn:E1.
    destruct (run_events lease r.1 script w1) as [w2 rest] eqn:E2. cbn.
    assert (ev = EvHeartbeat ∨ (∃ fs, ev = EvInsertFindings fs) ∨ (∃ ds, ev = EvInsertDiagnostics ds)
            ∨ snd r ≠ []) as Hev.
    { destruct ev; cbn in E1; eauto; injection E1 as _ <-; do 3 right; done. }
    destruct (snd r) eqn:Er; [|done]. cbn.
    specialize (IH ltac:(destruct Hev as [->|[[? ->]|[[? ->]|?]]]; [..|done]; simpl in H; naive_solver)
      r.1 w1). by rewrite E2 in IH. }
  unfold runClaimed, mbind, M_bind. specialize (Hne false w).
  destruct (run_events lease false script w) as [w1 [|c ready]]; [done|]. cbn.
  destruct c; [by eexists|by eexists|]. destruct (finishHandlerOutcome _ _ _ _ _). by eexists.
Qed.

(** What the reconciler does to the store and the queue.  It puts every running
    job without a live heartbeat back in the queue state, leaving no stale run
    behind, and enqueues each job that is queued, or was stale, and was created
    before the age threshold: each such job once, no other, and each even if
    enqueueing an earlier one failed. *)
Theorem reconcile_exact {table : IsPrint} {Q : Type} {queue : TaskQueue Q} unmarshalRuleID cfg
    (w : @world Store Q) :
  ids_match (w_store w) → (∀ n s, w_env w n s = s) → (0 < cfg_QueuedAgeThreshold cfg < 2 ^ 63)%Z →
  let now := w_clock w (w_ticks w) in
  let '(w', _) := ReconcileOnce (store:=memory_store unmarshalRuleID) cfg w in
  let stale j := Memory.stale_running now (cfg_StaleAfter cfg) j in
  (∃ ids, NoDup ids
     ∧ (∀ id, In id ids ↔ ∃ r, w_store w !! id = Some r
          ∧ (job_Status (rec_job r) = JobStatusQueued ∨ stale (rec_job r) = true)
          ∧ (job_CreatedAt (rec_job r) < now - cfg_QueuedAgeThreshold cfg)%Z)
     ∧ w_queue w' = fold_left enqueue_id ids (w_queue w))
  ∧ (∀ id, w_store w' !! id
           = (λ r, if stale (rec_job r) then with_job (requeue_job (rec_job r)) r else r)
               <$> (w_store w !! id))
  ∧ (∀ id r, w_store w' !! id = Some r → stale (rec_job r) = false).
Proof.
  intros Hids He Hq. cbv zeta. unfold ReconcileOnce, Now, read_store, on_store, mbind, M_bind. cbn. rewrite !He.
  set (now := w_clock w (w_ticks w)). set (m' := fmap _ (w_store w)).
  rewrite int64_wrap_small by lia. unfold Add, Before.
  assert (∀ id, (m' : Store) !! id
    = (λ r, if Memory.stale_running now (cfg_StaleAfter cfg) (rec_job r)
            then with_job (requeue_job (rec_job r)) r else r) <$> (w_store w !! id)) as Hm'.
  { intros id. unfold m', Store. apply lookup_fmap. }
  assert (ids_match m') as Hids'.
  { intros id r. rewrite Hm'. destruct (w_store w !! id) as [r0|] eqn:E; [|done]. cbn. intros [= <-].
    apply Hids in E. by destruct (Memory.stale_running _ _ _). }
  set (f := λ j, (job_Status j == JobStatusQueued)
                 && (job_CreatedAt j <? now + - cfg_QueuedAgeThreshold cfg)%Z).
  destruct (listed_ids m' f Hids') as [Hnd Hin].
  match goal with |- context [reenqueueQueued ?jobs None ?w1] =>
    pose proof (reenqueue_eq jobs None w1) as Hre; destruct (reenqueueQueued jobs None w1) as [w2 e] end.
  cbn in Hre. destruct Hre as [Es Eq]. rewrite Es. cbn in Eq. split; [|split; [done|]].
  - eexists. split; [exact Hnd|]. split; [|exact Eq]. intros id. rewrite Hin. unfold f. split.
    + intros (r & Hr & [H1%String.eqb_eq H2%Z.ltb_lt]%andb_true_iff). rewrite Hm' in Hr.
      destruct (w_store w !! id) as [r0|]; [|done]. exists r0. split; [done|]. cbn in Hr.
      injection Hr as <-. destruct (Memory.stale_running now (cfg_StaleAfter cfg) (rec_job r0)); cbn in *;
        (split; [auto|lia]).
    + intros (r0 & Hr & Hor & Hlt). rewrite Hm', Hr. eexists. split; [reflexivity|].
      apply andb_true_iff. rewrite Z.ltb_lt, String.eqb_eq.
      destruct (Memory.stale_running now (cfg_StaleAfter cfg) (rec_job r0)); cbn in *;
        (split; [by destruct Hor|lia]).
  - intros id r Hr. rewrite Hm' in Hr. destruct (w_store w !! id) as [r0|]; [|done].
    injection Hr as <-. by destruct (Memory.stale_running now (cfg_StaleAfter cfg) (rec_job r0)) eqn:E.
Qed.

(** An identity, positive intervals and attempts, and three heartbeats before a run
    is stale, as long as three heartbeat intervals fit in a duration. *)
Definition sound_config (c : Config) : Prop :=
  cfg_WorkerID c ≠ ""
  ∧ (0 < cfg_HeartbeatInterval c ∧ 0 < cfg_StaleAfter c ∧ 0 < cfg_ReconcileInterval c
     ∧ 0 < cfg_QueuedAgeThreshold c ∧ 0 < cfg_MaxAttempts c)%Z
  ∧ (3 * cfg_HeartbeatInterval c < 2 ^ 63 → 3 * cfg_HeartbeatInterval c ≤ cfg_StaleAfter c)%Z.

(** A configuration the worker accepts.  Its identity is not empty, every
    interval and the attempt limit are positive, what was already positive is kept,
    and a run is declared stale only after three missed heartbeats, as long as three
    heartbeat intervals fit in a duration; accepting it again changes nothing. *)
Theorem config_accepted c c' :
  withDefaults c = inr c' →
  sound_config c'
  ∧ ((0 < cfg_StaleAfter c)%Z → cfg_StaleAfter c' = cfg_StaleAfter c)
  ∧ ((0 < cfg_HeartbeatInterval c)%Z → cfg_HeartbeatInterval c' = cfg_HeartbeatInterval c)
  ∧ withDefaults c' = inr c'.
Proof.
  unfold withDefaults. destruct (String.eqb_spec (cfg_WorkerID c) "") as [|Hw]; [done|]. cbn.
  assert (∀ z d, (0 < d)%Z → (0 < or_default z d)%Z) as Hpos.
  { intros z d Hd. unfold or_default. destruct (Z.leb_spec z 0); lia. }
  assert (∀ z d, (0 < d)%Z → or_default (or_default z d) d = or_default z d) as Hid.
  { intros z d Hd. unfold or_default at 1. specialize (Hpos z d Hd).
    destruct (Z.leb_spec (or_default z d) 0); lia. }
  destruct (Z.ltb_spec (or_default (cfg_StaleAfter c) defaultStaleAfter)
    (int64_wrap (3 * or_default (cfg_HeartbeatInterval c) defaultHeartbeatInterval))) as [|Hlt]; [done|].
  intros [= <-]. unfold sound_config. cbn. split; [|split; [|split]].
  - split; [done|]. split; [repeat split; by apply Hpos|].
    intros Hb. rewrite int64_wrap_small in Hlt; [done|].
    pose proof (Hpos (cfg_HeartbeatInterval c) defaultHeartbeatInterval ltac:(done)). lia.
  - intros Hs. unfold or_default. destruct (Z.leb_spec (cfg_StaleAfter c) 0); lia.
  - intros Hs. unfold or_default. destruct (Z.leb_spec (cfg_HeartbeatInterval c) 0); lia.
  - apply String.eqb_neq in Hw. rewrite Hw, !Hid by done.
    apply Z.ltb_ge in Hlt. by rewrite Hlt.
Qed.

(** The comparison is made in 64 bits: an interval three times which does not fit
    passes it with any stale threshold. *)
Lemma config_overflow :
  let c := mkConfig "w" (2 ^ 62)%Z 1%Z 1%Z 1%Z 1%Z in
  withDefaults c = inr c ∧ (cfg_StaleAfter c < 3 * cfg_HeartbeatInterval c)%Z.
Proof. cbv zeta. split; [vm_compute; reflexivity|cbn; lia]. Qed.

(** Startup is refused exactly when a wanted capability is missing, and the error
    lists each missing one. *)
Lemma require_capabilities_exact have want :
  RequireCapabilities have want
  = match missing_capabilities have want with
    | [] => None
    | missing => Some (errors_New ("queue: required capabilities unavailable on configured backend: ["
                         +:+ Join missing " " +:+ "]"))
    end
  ∧ (missing_capabilities have want = [] ↔
     (NativeDeadLetterQueue want = true → NativeDeadLetterQueue have = true)
     ∧ (DelayedDelivery want = true → DelayedDelivery have = true)
     ∧ (OrderedDelivery want = true → OrderedDelivery have = true)
     ∧ (LeaseExtension want = true → LeaseExtension have = true)
     ∧ (NativeFanOut want = true → NativeFanOut have = true)).
Proof.
  split.
  - unfold RequireCapabilities. by destruct (missing_capabilities have want).
  - assert (∀ (a b : bool) (s : string),
      (if a && negb b then [s] else []) = [] ↔ (a = true → b = true)) as H.
    { intros [] [] s; cbn; split; try done. intros H. by specialize (H eq_refl). }
    unfold missing_capabilities.
    assert (∀ l1 l2 : list string, l1 ++ l2 = [] ↔ l1 = [] ∧ l2 = []) as Happ.
    { intros l1 l2. split; [apply app_nil|by intros [-> ->]]. }
    by rewrite !Happ, !H.
Qed.

(** ** Witnesses *)

(** A queue that keeps the calls made on it. *)
Inductive queue_call :=
  | CEnqueue (task : Task) | CComplete (c : Claim) | CNack (c : Claim) (permanent : bool).

#[local] Instance log_queue : TaskQueue (list queue_call) := {
  Enqueue q t := (q ++ [CEnqueue t], None);
  ClaimTask q := (q, inr None);
  Complete q c := (q ++ [CComplete c], None);
  Nack q c b := (q ++ [CNack c b], None)
}.

#[local] Existing Instance ascii_table.
#[local] Instance example_mem : WorkerJobStore Store := memory_store (λ _, None).
#[local] Instance example_laws : WorkerJobStoreLaws Store := memory_laws (λ _, None).

Definition example_cfg : Config := mkConfig "w9" 10%Z 60%Z 30%Z 30%Z 3%Z.
Definition example_message : Claim := mkClaim "j" 1%Z "t".

Definition example_world (s : Store) (env : nat → Store → Store) : @world Store (list queue_call) :=
  mkWorld s [] (λ n, (100 + Z.of_nat n)%Z) 0 env 0.

Definition alone : nat → Store → Store := λ _ s, s.

(** The handler writes a row under a heartbeat and completes. *)
Definition example_handler (j : Job) (l : ClaimLease) : list run_event * nat :=
  ([EvHeartbeat; EvInsertFindings [example_finding "f"];
    EvHandlerDone (mkHandlerOutcome (Some example_completion) None)], 0).

Lemma example_queued_ids : ids_match example_queued.
Proof. apply (ids_match_run NewStore). intros id r H. unfold NewStore, Store in H. by rewrite lookup_empty in H. Qed.

Lemma worker_settles_witness :
  let w' := fst (processQueueClaim example_cfg example_handler example_message
                   (example_world example_queued alone)) in
  w_queue w' = [CComplete example_message]
  ∧ queue_outcome example_cfg (λ n, (100 + Z.of_nat n)%Z) example_message [] (w_store w')
      (w_queue w').
Proof.
  split; [vm_compute; reflexivity|].
  apply (worker_settles example_cfg example_handler example_message (example_world example_queued alone)).
  - apply example_queued_ids.
  - intros n s H. exact H.
Defined.

Definition lost_lease : ClaimLease := mkClaimLease "j" "w1" 1%Z 10%Z.

Lemma lost_run_abandons_witness :
  w_queue (fst (runClaimed example_cfg
    [EvHandlerDone (mkHandlerOutcome (Some example_completion) None)] 0 example_message lost_lease
    (example_world example_store alone))) = [].
Proof.
  pose proof (lost_run_abandons (λ _, None) example_cfg
    [EvHandlerDone (mkHandlerOutcome (Some example_completion) None)] 0 example_message lost_lease
    (example_world example_store alone)) as H.
  unfold example_mem. destruct (runClaimed _ _ _ _ _ _) as [w' result]. apply H.
  - vm_compute. split; [reflexivity|]. left. discriminate.
  - intros n s. exists []. reflexivity.
Defined.

Definition held_lease : ClaimLease := mkClaimLease "j" "w2" 2%Z 100%Z.

Definition transient : handlerOutcome :=
  mkHandlerOutcome None (Some (Retryable (errors_New "timeout"))).


Lemma run_ends_witness :
  is_Some (snd (runClaimed example_cfg (fst (example_handler (example_job "j") held_lease)) 0
    example_message held_lease (example_world example_store alone))).
Proof.
  apply run_ends. left. eexists. right. right. left. reflexivity.
Defined.

Lemma reconcile_exact_witness :
  ∃ ids, NoDup ids
    ∧ w_queue (fst (ReconcileOnce example_cfg (example_world example_queued alone)))
      = fold_left enqueue_id ids [].
Proof.
  pose proof (reconcile_exact (λ _, None) example_cfg (example_world example_queued alone)) as H.
  cbv zeta in H. unfold example_mem. destruct (ReconcileOnce _ _) as [w' e].
  destruct H as ((ids & Hnd & _ & E) & _).
  - apply example_queued_ids.
  - reflexivity.
  - cbn. lia.
  - exists ids. split; [exact Hnd|exact E].
Defined.

Example reconcile_example :
  w_queue (fst (ReconcileOnce example_cfg (example_world example_queued alone)))
  = [CEnqueue (mkTask "j" (MarshalTaskPayload "j"))].
Proof. vm_compute. reflexivity. Qed.

Lemma config_accepted_witness :
  ∃ c, withDefaults (mkConfig "w" 0%Z 0%Z 0%Z 0%Z 0%Z) = inr c
       ∧ (3 * cfg_HeartbeatInterval c ≤ cfg_StaleAfter c)%Z.
Proof.
  eexists. split; [vm_compute; reflexivity|].
  refine (proj2 (proj2 (proj1 (config_accepted (mkConfig "w" 0%Z 0%Z 0%Z 0%Z 0%Z) _ _))) _);
    vm_compute; reflexivity.
Defined.
