(* ===== verification/Reconciler.v ===== *)
(** * The reconciler's slot

    [StartReconciler], [StopReconciler] and [clearReconcilerSlot] of
    [internal/coachapi/worker/reconcile.go]: one slot under the worker's mutex that
    holds the cancel function of the running reconciler and a generation counter, and
    the goroutines that were started.  Each method runs under the mutex, a goroutine
    clears the slot when its loop returns, so a history is a list of these events.
    The counter is not wrapped: it would take 2^64 starts and stops. *)

From S2P Require Import Prelude.

(** A started goroutine: its generation, and whether its context was cancelled
    through the slot. *)
Record goroutine := mkGoroutine { g_gen : N; g_cancelled : bool }.

#[export] Instance goroutine_eq_dec : EqDecision goroutine.
Proof. solve_decision. Defined.

(** The mutable fields of a [Worker] and the goroutines not yet returned.  The slot
    holds a cancel function by the generation of the goroutine it cancels.
    go: internal/coachapi/worker/worker.go:22-24#Worker *)
Record slot := mkSlot {
  stopReconcile : option N; reconcileGen : N; goroutines : list goroutine
}.

Definition new_slot : slot := mkSlot None 0 [].

(** go: internal/coachapi/worker/reconcile.go#StartReconciler *)
Definition StartReconciler (s : slot) : slot :=
  match stopReconcile s with
  | Some _ => s
  | None =>
      let gen := (reconcileGen s + 1)%N in
      mkSlot (Some gen) gen (goroutines s ++ [mkGoroutine gen false])
  end.

(** go: internal/coachapi/worker/reconcile.go#clearReconcilerSlot *)
Definition clearReconcilerSlot (gen : N) (s : slot) : slot :=
  if (reconcileGen s =? gen)%N then mkSlot None (reconcileGen s) (goroutines s) else s.

Definition cancel (gen : N) (g : goroutine) : goroutine :=
  if (g_gen g =? gen)%N then mkGoroutine (g_gen g) true else g.

(** go: internal/coachapi/worker/reconcile.go#StopReconciler *)
Definition StopReconciler (s : slot) : slot :=
  match stopReconcile s with
  | None => s
  | Some gen => mkSlot None (reconcileGen s + 1) (map (cancel gen) (goroutines s))
  end.

Inductive slot_event :=
  | Start | Stop
  | Return (gen : N).   (* the loop of a goroutine returns: it, or its parent, was cancelled *)

(** A returning goroutine is gone, and clears the slot on its way out. *)
Definition slot_step (s : slot) (e : slot_event) : slot :=
  match e with
  | Start => StartReconciler s
  | Stop => StopReconciler s
  | Return gen =>
      if existsb (λ g, (g_gen g =? gen)%N) (goroutines s)
      then clearReconcilerSlot gen
             (mkSlot (stopReconcile s) (reconcileGen s)
                (List.filter (λ g, negb (g_gen g =? gen)%N) (goroutines s)))
      else s
  end.

Definition slot_run (events : list slot_event) : slot := fold_left slot_step events new_slot.

(** The reconcilers still at work. *)
Definition running (s : slot) : list goroutine := List.filter (λ g, negb (g_cancelled g)) (goroutines s).

(** ** Lemmas *)

(** Generations are unique and past, and the slot holds exactly the goroutine at
    work. *)
Definition slot_inv (s : slot) : Prop :=
  NoDup (map g_gen (goroutines s))
  ∧ (∀ g, In g (goroutines s) → (g_gen g ≤ reconcileGen s)%N)
  ∧ running s = match stopReconcile s with Some gen => [mkGoroutine gen false] | None => [] end
  ∧ (∀ gen, stopReconcile s = Some gen → gen = reconcileGen s).

Lemma start_slot_inv s : slot_inv s → slot_inv (StartReconciler s).
Proof.
  intros (Hnd & Hle & Hrun & Hgen). unfold StartReconciler.
  destruct (stopReconcile s) as [gen|] eqn:E; [split; [done|]; split; [done|]; rewrite E; done|].
  split; [|split; [|split]]; cbn [goroutines reconcileGen stopReconcile].
  - rewrite map_app. apply list.NoDup_app. split; [done|]. split; [|apply NoDup_singleton].
    intros x Hx Hx'. apply list_elem_of_singleton in Hx' as ->.
    apply list_elem_of_In, in_map_iff in Hx as (g & Hg & Hin). specialize (Hle g Hin). cbn in Hg. lia.
  - intros g [Hin|[<-|[]]]%in_app_iff; [specialize (Hle g Hin); lia|]. cbn. lia.
  - unfold running in *. cbn [goroutines]. by rewrite List.filter_app, Hrun.
  - by intros gen [= <-].
Qed.

Lemma running_cancel gen l :
  List.filter (λ g, negb (g_cancelled g)) (map (cancel gen) l)
  = List.filter (λ g, negb (g_gen g =? gen)%N) (List.filter (λ g, negb (g_cancelled g)) l).
Proof.
  induction l as [|g l IH]; [done|]. cbn [map List.filter]. unfold cancel at 1 2.
  destruct (N.eqb_spec (g_gen g) gen) as [E|E].
  - cbn. rewrite IH. destruct (negb (g_cancelled g)); [|done]. cbn. apply N.eqb_eq in E. by rewrite E.
  - rewrite IH. destruct (negb (g_cancelled g)); [|done]. cbn. apply N.eqb_neq in E. by rewrite E.
Qed.

Lemma stop_inv s : slot_inv s → slot_inv (StopReconciler s).
Proof.
  intros (Hnd & Hle & Hrun & Hgen). unfold StopReconciler.
  destruct (stopReconcile s) as [gen|] eqn:E; [|split; [done|]; split; [done|]; rewrite E; done].
  split; [|split; [|split]]; cbn [goroutines reconcileGen stopReconcile]; [| | |done].
  - rewrite map_map.
    assert (map (λ g, g_gen (cancel gen g)) (goroutines s) = map g_gen (goroutines s)) as ->; [|done].
    apply map_ext. intros g. unfold cancel. by destruct (_ =? _)%N.
  - intros g (g' & <- & Hin)%in_map_iff. specialize (Hle g' Hin). unfold cancel.
    destruct (_ =? _)%N; cbn; lia.
  - unfold running in *. cbn [goroutines]. rewrite running_cancel, Hrun. cbn. by rewrite N.eqb_refl.
Qed.

Lemma return_inv gen s : slot_inv s → slot_inv (slot_step s (Return gen)).
Proof.
  intros (Hnd & Hle & Hrun & Hgen). cbn [slot_step]. destruct (existsb _ _); [|done].
  set (rest := List.filter (λ g, negb (g_gen g =? gen)%N) (goroutines s)).
  assert (NoDup (map g_gen rest) ∧ (∀ g, In g rest → (g_gen g ≤ reconcileGen s)%N)) as [Hnd' Hle'].
  { split; [|by intros g [Hin _]%filter_In; auto].
    eapply sublist_NoDup; [exact Hnd|]. apply (fmap_sublist g_gen), bfilter_sublist. }
  assert (List.filter (λ g, negb (g_cancelled g)) rest
          = List.filter (λ g, negb (g_gen g =? gen)%N) (running s)) as Hrest.
  { unfold rest, running. apply filter_comm. }
  rewrite Hrun in Hrest. unfold clearReconcilerSlot. cbn [reconcileGen goroutines stopReconcile].
  destruct (N.eqb_spec (reconcileGen s) gen) as [E|E].
  - split; [done|]. split; [done|]. split; [|done]. unfold running. cbn [goroutines stopReconcile].
    rewrite Hrest. destruct (stopReconcile s) as [g0|] eqn:Eg; [|done].
    cbn. rewrite (Hgen g0 eq_refl), E, N.eqb_refl. done.
  - split; [done|]. split; [done|]. split; [|done]. unfold running. cbn [goroutines stopReconcile].
    rewrite Hrest. destruct (stopReconcile s) as [g0|] eqn:Eg; [|done].
    cbn. rewrite (Hgen g0 eq_refl). apply N.eqb_neq in E. by rewrite E.
Qed.

Lemma slot_run_inv events : slot_inv (slot_run events).
Proof.
  unfold slot_run. induction events as [|e events IH] using rev_ind.
  - split; [constructor|]. split; [by intros g []|]. done.
  - rewrite fold_left_app. cbn [fold_left]. destruct e; [by apply start_slot_inv|by apply stop_inv|].
    by apply return_inv.
Qed.

(** ** Properties *)

(** At most one reconciler is at work.  After any sequence of starts, stops and
    returning loops, however late a stopped loop returns, the reconcilers at work are
    exactly the one the slot can cancel, or none when the slot is empty.  So starting
    makes one run and only one, stopping leaves none, and a loop that returned on its
    own frees the slot for a new start. *)
Theorem reconciler_single events :
  let s := slot_run events in
  length (running s) = (match stopReconcile s with Some _ => 1 | None => 0 end)
  ∧ length (running (StartReconciler s)) = 1
  ∧ running (StopReconciler s) = []
  ∧ (∀ gen, stopReconcile s = Some gen → stopReconcile (slot_step s (Return gen)) = None).
Proof.
  cbv zeta. generalize (slot_run_inv events). generalize (slot_run events). intros s Hs.
  pose proof (start_slot_inv _ Hs) as (_ & _ & Hstart & _). pose proof (stop_inv _ Hs) as (_ & _ & Hstop & _).
  destruct Hs as (_ & _ & Hrun & Hgen).
  split; [|split; [|split]].
  - rewrite Hrun. by destruct (stopReconcile s).
  - rewrite Hstart. unfold StartReconciler. destruct (stopReconcile s) eqn:E; [by rewrite E|done].
  - rewrite Hstop. unfold StopReconciler. destruct (stopReconcile s) eqn:E; [done|by rewrite E].
  - intros gen E. cbn [slot_step].
    assert (existsb (λ g, (g_gen g =? gen)%N) (goroutines s) = true) as ->.
    { apply existsb_exists. exists (mkGoroutine gen false). split; [|apply N.eqb_refl].
      assert (In (mkGoroutine gen false) (running s)) as Hin by (rewrite Hrun, E; by left).
      by apply filter_In in Hin as [? _]. }
    unfold clearReconcilerSlot. cbn [reconcileGen]. by rewrite (Hgen gen E), N.eqb_refl.
Qed.

(** ** Witnesses *)

(** A stop, a new start, and only then the return of the stopped loop. *)
Lemma reconciler_single_witness :
  stopReconcile (slot_step (slot_run [Start; Stop; Start; Return 1]) (Return 3)) = None.
Proof. apply (reconciler_single [Start; Stop; Start; Return 1]). vm_compute. reflexivity. Defined.
