(* ===== verification/CallGraph.v ===== *)
(** * Searching the call graph

    The graph routines of [pkg/projectmodel] that run over an already built call
    graph: the adjacency map, the bounded breadth-first search and the walk back along
    its parents ([callgraph_*.go]), reachability from handlers to database calls
    ([go_reachability*.go], [ts_reachability.go]) and the search for routes that avoid
    a required layer ([go_layer_bypass*.go], [ts_layer_bypass*.go], [layer_bypass_*.go]).
    The call graph itself, its sources and the positions of its nodes come from SSA and
    are arguments.

    A [context.Context] is polled by [ctx.Err()] and, once done, stays done: it is
    modelled as the number of polls still to be answered with a live context, threaded
    through the search, so every instant at which a deadline can strike is a value. *)

From stdpp Require Import sorting fin_sets fin_maps.
From S2P Require Import Prelude GoOrder GoText Domain.

(** ** Contexts *)

(** [None]: never done; [Some n]: the next [n] polls find it live. *)
Definition Ctx : Type := option nat.

(** [ctx.Err() != nil], and the context as the next poll finds it. *)
Definition ctx_done (ctx : Ctx) : bool * Ctx :=
  match ctx with
  | None => (false, None)
  | Some O => (true, Some O)
  | Some (S n) => (false, Some n)
  end.

(** ** The graph *)

Notation Adjacency := (gmap string (list string)).

(** A set of strings, [map[string]bool] holding [true], as its sorted keys.
    go: pkg/projectmodel/sorted_keys.go#mapKeysSorted *)
Definition mapKeysSorted (m : gset string) : list string := sort_strings (elements m).

(** go: pkg/projectmodel/callgraph_adjacency.go#buildCallGraphAdjacency *)
Definition buildCallGraphAdjacency (facts : list CallFact) : Adjacency :=
  let tmp := fold_left (λ (tmp : gmap string (gset string)) f,
    <[cf_From f := {[cf_To f]} ∪ default ∅ (tmp !! cf_From f)]> tmp) facts ∅ in
  mapKeysSorted <$> tmp.

(** go: pkg/projectmodel/callgraph_adjacency.go#keptNeighbors *)
Fixpoint keptNeighbors (tos : list string) (removed : gset string) : list string :=
  match tos with
  | [] => []
  | to :: rest =>
      if bool_decide (to ∈ removed) then keptNeighbors rest removed
      else to :: keptNeighbors rest removed
  end.

(** go: pkg/projectmodel/callgraph_adjacency.go#removeLayerNodesFromAdjacency *)
Definition removeLayerNodesFromAdjacency (adjacency : Adjacency) (removed : gset string) : Adjacency :=
  map_imap (λ from tos,
    if bool_decide (from ∈ removed) then None
    else match keptNeighbors tos removed with [] => None | kept => Some kept end) adjacency.

(** ** Breadth-first search *)

(** go: pkg/projectmodel/callgraph_shortest_paths.go#bfsBudget *)
Record bfsBudget := mkBfsBudget { bb_visited : Z; bb_max : Z }.

(** go: pkg/projectmodel/callgraph_shortest_paths.go#bfsFrontier *)
Record bfsFrontier := mkBfsFrontier {
  bf_parents : gmap string string; bf_visited : gset string; bf_queue : list string
}.

(** go: pkg/projectmodel/callgraph_shortest_paths.go#enqueue *)
Fixpoint enqueue (f : bfsFrontier) (nexts : list string) (node : string) : bfsFrontier :=
  match nexts with
  | [] => f
  | next :: rest =>
      if bool_decide (next ∈ bf_visited f) then enqueue f rest node
      else enqueue (mkBfsFrontier (<[next := node]> (bf_parents f)) ({[next]} ∪ bf_visited f)
                      (bf_queue f ++ [next])) rest node
  end.

(** [adjacency[node]]. *)
Definition neighbors (adjacency : Adjacency) (node : string) : list string :=
  default [] (adjacency !! node).

(** The loop of [shortestPaths]; [None] when the fuel ran out.  The result holds the
    parents, whether the search was stopped, the budget and the context. *)
Fixpoint bfs_loop (fuel : nat) (ctx : Ctx) (b : bfsBudget) (adjacency : Adjacency) (f : bfsFrontier) :
    option (gmap string string * bool * bfsBudget * Ctx) :=
  match bf_queue f with
  | [] => Some (bf_parents f, false, b, ctx)
  | node :: queue =>
      match fuel with
      | O => None
      | S fuel =>
          let '(done, ctx) := ctx_done ctx in
          if done then Some (bf_parents f, true, b, ctx)
          else if (0 <? bb_max b)%Z && (bb_max b <=? bb_visited b)%Z
          then Some (bf_parents f, true, b, ctx)
          else bfs_loop fuel ctx (mkBfsBudget (bb_visited b + 1) (bb_max b)) adjacency
                 (enqueue (mkBfsFrontier (bf_parents f) (bf_visited f) queue)
                    (neighbors adjacency node) node)
      end
  end.

(** Every node the search can meet: the ends of edges. *)
Definition targets (adjacency : Adjacency) : gset string :=
  map_fold (λ _ tos acc, list_to_set tos ∪ acc) ∅ adjacency.

(** One iteration per node at most: the source and the ends of edges. *)
Definition bfs_fuel (adjacency : Adjacency) : nat := S (size (targets adjacency)).

Definition start_frontier (source : string) : bfsFrontier :=
  mkBfsFrontier {[source := ""]} {[source]} [source].

(** The fuel always suffices ([bfs_loop_enough]), so the default is never taken.
    go: pkg/projectmodel/callgraph_shortest_paths.go#shortestPaths *)
Definition shortestPaths (ctx : Ctx) (b : bfsBudget) (source : string) (adjacency : Adjacency) :
    gmap string string * bool * bfsBudget * Ctx :=
  default (∅, true, b, ctx) (bfs_loop (bfs_fuel adjacency) ctx b adjacency (start_frontier source)).

(** The walk back from [cur]; [None] when the fuel ran out. *)
Fixpoint walk_back (fuel : nat) (parents : gmap string string) (source cur : string)
    (nodes : list string) : option (list string) :=
  match fuel with
  | O => None
  | S fuel =>
      let nodes := nodes ++ [cur] in
      if cur == source then Some nodes
      else walk_back fuel parents source (default "" (parents !! cur)) nodes
  end.

(** The walk visits each node of the tree once ([reconstruct_exact]).  The steps are
    the reverse of the nodes collected.
    go: pkg/projectmodel/callgraph_shortest_paths.go#reconstructReachabilityPath *)
Definition reconstructReachabilityPath (parents : gmap string string) (source sink : string) :
    option (list string) :=
  match parents !! sink with
  | None => None
  | Some _ => option_map (@reverse string) (walk_back (S (size parents)) parents source sink [])
  end.

(** ** Routes *)

Definition edge (adjacency : Adjacency) (a b : string) : Prop := In b (neighbors adjacency a).

(** Each node of [p] is a neighbor of the one before. *)
Fixpoint links (adjacency : Adjacency) (p : list string) : Prop :=
  match p with
  | a :: (b :: _) as rest => edge adjacency a b ∧ links adjacency rest
  | _ => True
  end.

(** [p] leads from [source] to [sink] along edges. *)
Definition route (adjacency : Adjacency) (source sink : string) (p : list string) : Prop :=
  hd_error p = Some source ∧ list.last p = Some sink ∧ links adjacency p.

Section Routes.
Context (adjacency : Adjacency).
Implicit Types (a b source sink : string) (p : list string).

Lemma route_single a : route adjacency a a [a].
Proof. done. Qed.

Lemma links_snoc p a b :
  links adjacency (p ++ [a; b]) ↔ links adjacency (p ++ [a]) ∧ edge adjacency a b.
Proof.
  induction p as [|x p IH]; [cbn; tauto|].
  destruct p as [|y p]; cbn in *; tauto.
Qed.

Lemma links_prefix p a : links adjacency (p ++ [a]) → links adjacency p.
Proof.
  induction p as [|x p IH]; [done|]. destruct p as [|y p]; [done|]. cbn. intros [? ?]. split; [done|]. by apply IH.
Qed.

Lemma route_snoc source a b p :
  route adjacency source a p → edge adjacency a b → route adjacency source b (p ++ [b]).
Proof.
  intros (Hh & Hl & Hp) He. destruct p as [|a' p _] using rev_ind; [done|].
  rewrite last_snoc in Hl. injection Hl as ->. split; [|split].
  - by destruct p.
  - apply last_snoc.
  - rewrite <- app_assoc. by apply links_snoc.
Qed.

Lemma route_last source b p :
  route adjacency source b p →
  (p = [source] ∧ source = b)
  ∨ ∃ p' a, p = p' ++ [b] ∧ route adjacency source a p' ∧ edge adjacency a b.
Proof.
  intros (Hh & Hl & Hp). destruct p as [|b' p _] using rev_ind; [done|].
  rewrite last_snoc in Hl. injection Hl as ->.
  destruct p as [|a p _] using rev_ind; [left; by simplify_eq/=|right].
  exists (p ++ [a]), a. rewrite <- app_assoc in Hp. apply links_snoc in Hp as [Hp He].
  split; [done|]. split; [|done]. split; [|split; [apply last_snoc|done]].
  by destruct p.
Qed.
End Routes.

(** ** What the search keeps true *)

(** The parents form a tree of edges, and [d] counts the steps back to the source. *)
Record bfs_tree (adjacency : Adjacency) (source : string) (f : bfsFrontier) (d : string → nat) : Prop := {
  tree_dom : dom (bf_parents f) = bf_visited f;
  tree_source : source ∈ bf_visited f;
  tree_root : d source = 0;
  tree_parent : ∀ n p, bf_parents f !! n = Some p → n ≠ source →
    p ∈ bf_visited f ∧ edge adjacency p n ∧ d n = S (d p);
  tree_queue : ∀ n, n ∈ bf_queue f → n ∈ bf_visited f
}.

(** The neighbors of [n] were met, one step further at most. *)
Definition closed_at (adjacency : Adjacency) (f : bfsFrontier) (d : string → nat) (n : string) : Prop :=
  ∀ m, edge adjacency n m → m ∈ bf_visited f ∧ d m ≤ S (d n).

(** Between two iterations: the queue is in order of depth, nothing met is deeper than
    one step past its head, and what left the queue is closed. *)
Record bfs_inv (adjacency : Adjacency) (source : string) (f : bfsFrontier) (d : string → nat) : Prop := {
  inv_tree : bfs_tree adjacency source f d;
  inv_sorted : StronglySorted (λ a b, d a ≤ d b) (bf_queue f);
  inv_deep : ∀ q n, hd_error (bf_queue f) = Some q → n ∈ bf_visited f → d n ≤ S (d q);
  inv_closed : ∀ n, n ∈ bf_visited f → n ∉ bf_queue f → closed_at adjacency f d n
}.

(** While the neighbors of [u] are enqueued. *)
Record bfs_mid (adjacency : Adjacency) (source u : string) (f : bfsFrontier) (d : string → nat) : Prop := {
  mid_tree : bfs_tree adjacency source f d;
  mid_node : u ∈ bf_visited f;
  mid_sorted : StronglySorted (λ a b, d a ≤ d b) (bf_queue f);
  mid_queue : ∀ n, n ∈ bf_queue f → d u ≤ d n;
  mid_deep : ∀ n, n ∈ bf_visited f → d n ≤ S (d u);
  mid_closed : ∀ n, n ∈ bf_visited f → n ∉ bf_queue f → n ≠ u → closed_at adjacency f d n
}.

Lemma StronglySorted_snoc {A} (R : A → A → Prop) l x :
  StronglySorted R l → (∀ y, y ∈ l → R y x) → StronglySorted R (l ++ [x]).
Proof.
  induction 1 as [|y l Hl IH Hy]; intros Hx; [repeat constructor|]. cbn. constructor.
  - apply IH. intros z Hz. apply Hx. by right.
  - apply Forall_app. split; [done|]. constructor; [|done]. apply Hx. by left.
Qed.

Lemma sorted_by_ext {A} (d d' : A → nat) l :
  StronglySorted (λ a b, d a ≤ d b) l → (∀ x, x ∈ l → d' x = d x) →
  StronglySorted (λ a b, d' a ≤ d' b) l.
Proof.
  induction 1 as [|x l Hl IH Hx]; intros E; constructor.
  - apply IH. intros. apply E. by right.
  - apply list.Forall_forall. intros y Hy. rewrite (E x), (E y) by (rewrite elem_of_cons; tauto).
    by eapply list.Forall_forall in Hx.
Qed.

Section Search.
Context (adjacency : Adjacency) (source : string).

(** Meeting a fresh neighbor of [u]. *)
Definition meet (f : bfsFrontier) (u m : string) : bfsFrontier :=
  mkBfsFrontier (<[m := u]> (bf_parents f)) ({[m]} ∪ bf_visited f) (bf_queue f ++ [m]).

Definition set_depth (d : string → nat) (m : string) (k : nat) : string → nat :=
  λ x, if decide (x = m) then k else d x.

Lemma set_depth_old d m k f x : m ∉ bf_visited f → x ∈ bf_visited f → set_depth d m k x = d x.
Proof. intros Hm Hx. unfold set_depth. by rewrite decide_False by (intros ->; done). Qed.

Lemma meet_tree u m f d :
  bfs_tree adjacency source f d → u ∈ bf_visited f → m ∉ bf_visited f → edge adjacency u m →
  bfs_tree adjacency source (meet f u m) (set_depth d m (S (d u))).
Proof.
  intros [Hdom Hsrc Hroot Hpar Hq] Hu Hm He. pose proof (set_depth_old d m (S (d u)) f) as Hold.
  split; cbn [meet bf_parents bf_visited bf_queue].
  - by rewrite dom_insert_L, Hdom.
  - set_solver.
  - by rewrite Hold.
  - intros n p. destruct (decide (n = m)) as [->|Hne].
    + rewrite lookup_insert_eq. intros [= <-] _. split; [set_solver|]. split; [done|].
      rewrite (Hold u) by done. unfold set_depth. by rewrite decide_True.
    + rewrite lookup_insert_ne by done. intros Hp Hs. destruct (Hpar n p Hp Hs) as (Hv & Hedge & Hd).
      split; [set_solver|]. split; [done|]. rewrite !Hold; [done|done|done|done|].
      rewrite <- Hdom. by eapply elem_of_dom_2.
  - set_solver.
Qed.

Lemma meet_mid u m f d :
  bfs_mid adjacency source u f d → m ∉ bf_visited f → edge adjacency u m →
  bfs_mid adjacency source u (meet f u m) (set_depth d m (S (d u))).
Proof.
  intros [Ht Hu Hs Hq Hdeep Hcl] Hm He. pose proof (set_depth_old d m (S (d u)) f) as Hold.
  assert (set_depth d m (S (d u)) m = S (d u)) as Hnew by (unfold set_depth; by rewrite decide_True).
  pose proof (tree_queue _ _ _ _ Ht) as Hqv.
  split; cbn [meet bf_parents bf_visited bf_queue].
  - by apply meet_tree.
  - set_solver.
  - apply StronglySorted_snoc.
    + eapply sorted_by_ext; [exact Hs|auto].
    + intros y Hy. rewrite Hnew, Hold by auto. auto.
  - intros n [Hn|Hn%list_elem_of_singleton]%elem_of_app.
    + rewrite !Hold by auto. auto.
    + subst. rewrite Hnew, Hold by done. lia.
  - intros n [Hn%elem_of_singleton|Hn]%elem_of_union.
    + subst. by rewrite Hnew, Hold.
    + rewrite !Hold by done. auto.
  - intros n [Hn%elem_of_singleton|Hn]%elem_of_union Hnq Hne; [set_solver|].
    intros x Hx. assert (n ∉ bf_queue f) as Hnq' by set_solver.
    destruct (Hcl n Hn Hnq' Hne x Hx) as [Hv Hd]. split; [set_solver|]. by rewrite !Hold.
Qed.

Lemma enqueue_mid u nexts f d :
  bfs_mid adjacency source u f d → (∀ m, In m nexts → edge adjacency u m) →
  ∃ d', bfs_mid adjacency source u (enqueue f nexts u) d' ∧ d' u = d u
    ∧ bf_visited f ⊆ bf_visited (enqueue f nexts u)
    ∧ ∀ m, In m nexts → m ∈ bf_visited (enqueue f nexts u).
Proof.
  revert f d. induction nexts as [|m nexts IH]; intros f d Hf Hn.
  { exists d. split; [done|]. split; [done|]. split; [done|]. intros ? []. }
  cbn [enqueue]. case_bool_decide as Hm.
  - destruct (IH f d Hf) as (d' & ? & ? & Hsub & Hall); [intros; apply Hn; by right|].
    exists d'. split; [done|]. split; [done|]. split; [done|]. intros x [<-|Hx]; auto.
  - change (mkBfsFrontier _ _ _) with (meet f u m).
    destruct (IH (meet f u m) (set_depth d m (S (d u)))) as (d' & Hmid & Hdu & Hsub & Hall).
    + apply meet_mid; [done|done|]. apply Hn. by left.
    + intros; apply Hn; by right.
    + exists d'. split; [done|]. split; [|split].
      * rewrite Hdu. by apply (set_depth_old _ _ _ f), (mid_node _ _ _ _ _ Hf).
      * cbn in Hsub. set_solver.
      * intros x [<-|Hx]; [cbn in Hsub; set_solver|auto].
Qed.

(** One iteration. *)
Lemma step_inv u queue f d :
  bfs_inv adjacency source f d → bf_queue f = u :: queue →
  ∃ d', bfs_inv adjacency source
    (enqueue (mkBfsFrontier (bf_parents f) (bf_visited f) queue) (neighbors adjacency u) u) d'.
Proof.
  intros [Ht Hs Hdeep Hcl] Eq. rewrite Eq in Hs. inversion Hs as [|? ? Hs' Hu]; subst.
  destruct Ht as [Hdom Hsrc Hroot Hpar Hq].
  assert (bfs_mid adjacency source u (mkBfsFrontier (bf_parents f) (bf_visited f) queue) d) as Hmid.
  { split; cbn [bf_parents bf_visited bf_queue].
    - split; try done. intros n Hn. apply Hq. rewrite Eq. by right.
    - apply Hq. rewrite Eq. by left.
    - done.
    - intros n Hn. by eapply list.Forall_forall in Hu.
    - intros n Hn. apply Hdeep; [by rewrite Eq|done].
    - intros n Hn Hnq Hne. apply Hcl; [done|]. rewrite Eq. set_solver. }
  destruct (enqueue_mid u (neighbors adjacency u) _ d Hmid (λ _ H, H)) as (d' & [Ht' Hu' Hs'' Hq' Hd' Hc'] & _ & _ & Hall).
  exists d'. split; [done|done|..].
  - intros q n Hhd Hn. transitivity (S (d' u)); [by apply Hd'|]. apply le_n_S, Hq'.
    by apply head_Some_elem_of.
  - intros n Hn Hnq. destruct (decide (n = u)) as [->|Hne]; [|by apply Hc'].
    intros m Hm. split; [by apply Hall|]. by apply Hd', Hall.
Qed.
End Search.

(** ** The loop *)

Section Loop.
Context (adjacency : Adjacency) (source : string).

Lemma start_inv : bfs_inv adjacency source (start_frontier source) (λ _, 0).
Proof.
  split; cbn.
  - split; cbn; try set_solver.
    intros n p [<- <-]%lookup_singleton_Some Hne. done.
  - repeat constructor.
  - intros. lia.
  - set_solver.
Qed.

(** What is still to be done: nodes not met, and nodes met but not expanded. *)
Definition work (f : bfsFrontier) : nat :=
  size (targets adjacency ∖ bf_visited f) + length (bf_queue f).

Lemma targets_spec m : m ∈ targets adjacency ↔ ∃ n, edge adjacency n m.
Proof.
  unfold targets, edge, neighbors.
  apply (map_fold_weak_ind (λ (X : gset string) (adj : gmap string (list string)),
    m ∈ X ↔ ∃ n, In m (default [] (adj !! n)))).
  - split; [set_solver|]. intros [n Hn]. by rewrite lookup_empty in Hn.
  - intros k tos adj X Hk IH. rewrite elem_of_union, elem_of_list_to_set, IH, list_elem_of_In. split.
    + intros [H|[n H]]; [exists k; by rewrite lookup_insert_eq|]. exists n.
      rewrite lookup_insert_ne; [done|]. intros <-. by rewrite Hk in H.
    + intros [n H]. destruct (decide (n = k)) as [->|Hne].
      * rewrite lookup_insert_eq in H. by left.
      * rewrite lookup_insert_ne in H by done. right. by exists n.
Qed.

Lemma enqueue_work nexts u f :
  (∀ m, In m nexts → m ∈ targets adjacency) → work (enqueue f nexts u) = work f.
Proof.
  revert f. induction nexts as [|m nexts IH]; intros f Hn; [done|]. cbn [enqueue].
  case_bool_decide as Hm; [apply IH; intros; apply Hn; by right|].
  rewrite IH by (intros; apply Hn; by right). unfold work. cbn [bf_visited bf_queue].
  assert (targets adjacency ∖ bf_visited f
          = {[m]} ∪ targets adjacency ∖ ({[m]} ∪ bf_visited f)) as ->.
  { assert (m ∈ targets adjacency) by (apply Hn; by left). apply set_eq. intros x.
    destruct (decide (x = m)); set_solver. }
  pose proof (size_union {[m]} (targets adjacency ∖ ({[m]} ∪ bf_visited f))) as E.
  pose proof (size_singleton (C := gset string) m) as E1.
  rewrite E by set_solver. rewrite E1, length_app. cbn. lia.
Qed.

(** The fuel [shortestPaths] gives always suffices: the loop ends. *)
Lemma bfs_loop_enough fuel ctx b f :
  work f ≤ fuel → ∃ r, bfs_loop fuel ctx b adjacency f = Some r.
Proof.
  revert ctx b f. induction fuel as [|fuel IH]; intros ctx b f Hw; cbn [bfs_loop];
    destruct (bf_queue f) as [|u queue] eqn:Eq; eauto.
  - unfold work in Hw. rewrite Eq in Hw. cbn in Hw. lia.
  - destruct (ctx_done ctx) as [[] ctx']; [eauto|]. case_match; [eauto|]. apply IH.
    rewrite enqueue_work; [|intros m Hm; apply targets_spec; by exists u].
    unfold work in *. rewrite Eq in Hw. cbn [bf_queue bf_visited length] in *. lia.
Qed.

Lemma start_work : work (start_frontier source) ≤ bfs_fuel adjacency.
Proof.
  unfold work, bfs_fuel. cbn.
  assert (size (targets adjacency ∖ {[source]}) ≤ size (targets adjacency)); [|lia].
  apply subseteq_size. set_solver.
Qed.

Lemma shortestPaths_loop ctx b :
  bfs_loop (bfs_fuel adjacency) ctx b adjacency (start_frontier source)
  = Some (shortestPaths ctx b source adjacency).
Proof.
  unfold shortestPaths.
  by destruct (bfs_loop_enough (bfs_fuel adjacency) ctx b _ start_work) as [r ->].
Qed.

(** When the loop runs to its end the tree is whole: whatever was met is closed. *)
Lemma bfs_loop_result fuel ctx b f d parents b' ctx' :
  bfs_inv adjacency source f d →
  bfs_loop fuel ctx b adjacency f = Some (parents, false, b', ctx') →
  ∃ f' d', parents = bf_parents f' ∧ bfs_tree adjacency source f' d'
    ∧ ∀ n, n ∈ bf_visited f' → closed_at adjacency f' d' n.
Proof.
  revert ctx b f d. induction fuel as [|fuel IH]; intros ctx b f d Hf Hl; cbn [bfs_loop] in Hl;
    destruct (bf_queue f) as [|u queue] eqn:Eq; simplify_eq.
  1, 2: exists f, d; split; [done|]; split; [by apply inv_tree|];
        intros n Hn; apply Hf; [done|]; rewrite Eq; apply not_elem_of_nil.
  destruct (ctx_done ctx) as [[] ctx1]; [done|]. case_match; [done|].
  destruct (step_inv adjacency source u queue f d Hf Eq) as [d1 Hf1]. by eapply IH.
Qed.

(** The budget counts nodes, and is never overrun. *)
Lemma bfs_loop_budget fuel ctx b f parents stopped b' ctx' :
  bfs_loop fuel ctx b adjacency f = Some (parents, stopped, b', ctx') →
  bb_max b' = bb_max b ∧ (bb_visited b ≤ bb_visited b')%Z
  ∧ ((0 < bb_max b)%Z → (bb_visited b' ≤ Z.max (bb_visited b) (bb_max b))%Z).
Proof.
  revert ctx b f. induction fuel as [|fuel IH]; intros ctx b f Hl; cbn [bfs_loop] in Hl;
    destruct (bf_queue f) as [|u queue]; simplify_eq; try (split; [done|lia]).
  destruct (ctx_done ctx) as [[] ctx1]; simplify_eq; [split; [done|lia]|].
  destruct (_ && _) eqn:E; simplify_eq; [split; [done|lia]|].
  apply IH in Hl as (-> & Hv & Hm). cbn in *. split; [done|]. split; [lia|].
  intros Hpos. specialize (Hm Hpos). apply andb_false_iff in E as [E|E]; breflect; lia.
Qed.
End Loop.

(** ** The way back *)

Section Way_back.
Context (adjacency : Adjacency) (source : string) (f : bfsFrontier) (d : string → nat).
Context (Htree : bfs_tree adjacency source f d).

(** From every node met, the parents lead back along a route whose length is the
    node's depth, and the walk collects it. *)
Lemma tree_route k n :
  d n = k → n ∈ bf_visited f →
  ∃ p, route adjacency source n p ∧ length p = S k ∧ NoDup p
    ∧ (∀ x, x ∈ p → x ∈ bf_visited f ∧ d x ≤ k)
    ∧ ∀ fuel acc, k < fuel →
        walk_back fuel (bf_parents f) source n acc = Some (acc ++ reverse p).
Proof.
  destruct Htree as [Hdom Hsrc Hroot Hpar _].
  revert n. induction k as [k IH] using lt_wf_ind. intros n Hk Hn.
  destruct (decide (n = source)) as [->|Hne].
  - exists [source]. split; [apply route_single|]. split; [cbn; lia|]. split; [apply NoDup_singleton|].
    split; [intros x ->%list_elem_of_singleton; split; [done|lia]|].
    intros [|fuel] acc Hf; [lia|]. cbn. by rewrite String.eqb_refl.
  - rewrite <- Hdom in Hn. apply elem_of_dom in Hn as [p Hp].
    destruct (Hpar n p Hp Hne) as (Hv & He & Hd).
    destruct (IH (d p)) with (n := p) as (r & Hr & Hlen & Hnd & Hin & Hwalk); [lia|done|done|].
    exists (r ++ [n]). split; [by eapply route_snoc|]. rewrite length_app. split; [cbn; lia|].
    split; [|split].
    + apply list.NoDup_app. split; [done|]. split; [|apply NoDup_singleton].
      intros x [_ Hx]%Hin Hx'%list_elem_of_singleton. subst x. lia.
    + intros x [Hx|Hx%list_elem_of_singleton]%elem_of_app.
      * destruct (Hin x Hx). split; [done|lia].
      * subst x. split; [|lia]. rewrite <- Hdom. by eapply elem_of_dom_2.
    + intros [|fuel] acc Hf; [lia|]. cbn [walk_back].
      destruct (String.eqb_spec n source); [done|]. rewrite Hp. cbn [default from_option id].
      rewrite Hwalk by lia. rewrite reverse_snoc. by rewrite <- app_assoc.
Qed.

(** Walking back from a node met ends within the fuel, with the node's route. *)
Lemma reconstruct_met n :
  n ∈ bf_visited f →
  ∃ p, reconstructReachabilityPath (bf_parents f) source n = Some p
    ∧ route adjacency source n p ∧ length p = S (d n).
Proof.
  intros Hn. destruct (tree_route (d n) n eq_refl Hn) as (p & Hr & Hlen & Hnd & Hin & Hwalk).
  exists p. split; [|done]. unfold reconstructReachabilityPath.
  pose proof (tree_dom _ _ _ _ Htree) as Hdom. rewrite <- Hdom in Hn.
  apply elem_of_dom in Hn as [? ->]. rewrite Hwalk;
    [unfold option_map; by rewrite app_nil_l, reverse_involutive|].
  assert (length p ≤ size (bf_parents f)); [|lia].
  pose proof (size_dom (D := gset string) (bf_parents f)) as <-. rewrite Hdom.
  pose proof (size_list_to_set (C := gset string) p Hnd) as <-.
  apply subseteq_size. intros y. rewrite elem_of_list_to_set. by intros []%Hin.
Qed.

Lemma reconstruct_unmet n :
  n ∉ bf_visited f → reconstructReachabilityPath (bf_parents f) source n = None.
Proof.
  intros Hn. unfold reconstructReachabilityPath. rewrite <- (tree_dom _ _ _ _ Htree) in Hn.
  by apply not_elem_of_dom in Hn as ->.
Qed.

(** A closed tree has met whatever a route reaches, at no greater depth. *)
Lemma closed_routes n p :
  (∀ n, n ∈ bf_visited f → closed_at adjacency f d n) →
  route adjacency source n p → n ∈ bf_visited f ∧ S (d n) ≤ length p.
Proof.
  intros Hcl. revert n. induction p as [|x p IH] using rev_ind; intros n Hr; [by destruct Hr|].
  apply route_last in Hr as [[Ep ->]|(p' & a & Ep & Hr & He)].
  - rewrite Ep. destruct Htree as [_ Hsrc Hroot _ _]. rewrite Hroot. by split.
  - apply app_inj_tail in Ep as [<- <-]. destruct (IH a Hr) as [Ha Hd].
    destruct (Hcl a Ha x He) as [Hx Hd']. rewrite length_app. cbn. split; [done|lia].
Qed.
End Way_back.

(** ** The adjacency map *)

Lemma mapKeysSorted_elem X x : In x (mapKeysSorted X) ↔ x ∈ X.
Proof. unfold mapKeysSorted, sort_strings. by rewrite stable_sort_In, <- list_elem_of_In, elem_of_elements. Qed.

Lemma adjacency_lookup facts a :
  ∃ X : gset string, neighbors (buildCallGraphAdjacency facts) a = mapKeysSorted X
    ∧ ∀ b, b ∈ X ↔ In (mkCallFact a b) facts.
Proof.
  unfold neighbors, buildCallGraphAdjacency.
  set (tmp := fold_left _ facts ∅). exists (default ∅ (tmp !! a)). split.
  { rewrite lookup_fmap. by destruct (tmp !! a). }
  intros b. unfold tmp. clear tmp. induction facts as [|[from to] facts IH] using rev_ind.
  { cbn. rewrite lookup_empty. cbn. set_solver. }
  rewrite fold_left_app, in_app_iff. cbn [fold_left cf_From cf_To].
  destruct (decide (from = a)) as [->|Hne].
  - rewrite lookup_insert_eq. cbn [default from_option id].
    rewrite elem_of_union, elem_of_singleton, IH. cbn. naive_solver.
  - rewrite lookup_insert_ne, IH by done. cbn. naive_solver.
Qed.

Lemma adjacency_edge facts a b :
  edge (buildCallGraphAdjacency facts) a b ↔ In (mkCallFact a b) facts.
Proof.
  destruct (adjacency_lookup facts a) as (X & HX & Hin). unfold edge.
  by rewrite HX, mapKeysSorted_elem.
Qed.

Lemma keptNeighbors_spec tos removed m :
  In m (keptNeighbors tos removed) ↔ In m tos ∧ m ∉ removed.
Proof.
  induction tos as [|to tos IH]; cbn; [tauto|]. case_bool_decide; cbn; rewrite IH; naive_solver.
Qed.

(** Removing nodes removes exactly the edges that touch them. *)
Lemma removed_edge adjacency removed a b :
  edge (removeLayerNodesFromAdjacency adjacency removed) a b
  ↔ edge adjacency a b ∧ a ∉ removed ∧ b ∉ removed.
Proof.
  unfold edge, neighbors, removeLayerNodesFromAdjacency. rewrite map_lookup_imap.
  destruct (adjacency !! a) as [tos|]; cbn; [|tauto].
  pose proof (keptNeighbors_spec tos removed b) as Hk. case_bool_decide as Ha; cbn; [tauto|].
  destruct (keptNeighbors tos removed); cbn in *; tauto.
Qed.

Lemma links_mono adjacency adjacency' p :
  (∀ a b, edge adjacency a b → edge adjacency' a b) →
  links adjacency p → links adjacency' p.
Proof.
  intros H. induction p as [|a p IH]; [done|]. destruct p as [|b p]; [done|].
  cbn. intros [? ?]. split; [auto|]. by apply IH.
Qed.

(** A route of more than one node through the reduced graph touches no removed node. *)
Lemma removed_links adjacency removed p x :
  links (removeLayerNodesFromAdjacency adjacency removed) p → 2 ≤ length p → x ∈ p → x ∉ removed.
Proof.
  revert x. induction p as [|a p IH]; intros x; [cbn; lia|]. destruct p as [|b p]; [cbn; lia|].
  cbn [links]. intros [He Hl] _ Hx. apply removed_edge in He as (_ & Ha & Hb).
  apply elem_of_cons in Hx as [->|Hx]; [done|]. destruct p as [|c p].
  - by apply list_elem_of_singleton in Hx as ->.
  - by apply IH; [..|cbn; lia|].
Qed.

Lemma links_removed adjacency removed p :
  links adjacency p → (∀ x, x ∈ p → x ∉ removed) →
  links (removeLayerNodesFromAdjacency adjacency removed) p.
Proof.
  induction p as [|a p IH]; [done|]. destruct p as [|b p]; [done|]. cbn [links]. intros [He Hl] Hx.
  split; [|apply IH; [done|]; intros; apply Hx; by right].
  apply removed_edge. split; [done|]. split; apply Hx; set_solver.
Qed.

(** What an uninterrupted search from [source] knows about [sink]. *)
Definition exact_answer (adjacency : Adjacency) (source sink : string) (answer : option (list string)) : Prop :=
  match answer with
  | Some p => route adjacency source sink p ∧ ∀ p', route adjacency source sink p' → length p ≤ length p'
  | None => ∀ p', ¬ route adjacency source sink p'
  end.

Lemma search_exact ctx b source adjacency parents b' ctx' :
  shortestPaths ctx b source adjacency = (parents, false, b', ctx') →
  ∀ sink, exact_answer adjacency source sink (reconstructReachabilityPath parents source sink).
Proof.
  intros H sink. pose proof (shortestPaths_loop adjacency source ctx b) as Hl. rewrite H in Hl.
  destruct (bfs_loop_result _ _ _ _ _ _ _ _ _ _ (start_inv adjacency source) Hl) as (f & d & -> & Ht & Hc).
  destruct (decide (sink ∈ bf_visited f)) as [Hs|Hs].
  - destruct (reconstruct_met _ _ _ _ Ht sink Hs) as (p & -> & Hr & Hlen). split; [done|].
    intros p' Hp'. rewrite Hlen. by apply (closed_routes _ _ _ _ Ht sink p' Hc).
  - rewrite (reconstruct_unmet _ _ _ _ Ht sink Hs). intros p' Hp'.
    by apply Hs, (closed_routes _ _ _ _ Ht sink p' Hc).
Qed.

Lemma search_budget ctx b source adjacency :
  let '(_, _, b', _) := shortestPaths ctx b source adjacency in
  bb_max b' = bb_max b ∧ (bb_visited b ≤ bb_visited b')%Z
  ∧ ((0 < bb_max b)%Z → (bb_visited b' ≤ Z.max (bb_visited b) (bb_max b))%Z).
Proof.
  pose proof (shortestPaths_loop adjacency source ctx b) as Hl.
  destruct (shortestPaths ctx b source adjacency) as [[[parents stopped] b'] ctx'].
  by eapply bfs_loop_budget.
Qed.

(** Without a bound and without a deadline the search is never stopped. *)
Lemma unbounded_loop fuel b adjacency f r :
  (bb_max b ≤ 0)%Z → bfs_loop fuel None b adjacency f = Some r →
  snd (fst (fst r)) = false ∧ snd r = None.
Proof.
  revert b f. induction fuel as [|fuel IH]; intros b f Hb Hl; cbn [bfs_loop ctx_done] in Hl;
    destruct (bf_queue f) as [|u queue]; simplify_eq; try done.
  destruct (Z.ltb_spec 0 (bb_max b)); [lia|]. cbn in Hl. by eapply IH in Hl.
Qed.

Lemma search_unbounded b source adjacency :
  (bb_max b ≤ 0)%Z →
  ∃ parents b', shortestPaths None b source adjacency = (parents, false, b', None).
Proof.
  intros Hb. pose proof (unbounded_loop _ _ _ _ _ Hb (shortestPaths_loop adjacency source None b)) as [H1 H2].
  destruct (shortestPaths None b source adjacency) as [[[parents stopped] b'] ctx']. cbn in *. subst. eauto.
Qed.

(** ** Properties *)

(** C26: Breadth-first search is exact.  A search from [source] that neither the budget
    nor the context stopped answers, for every [sink], with a shortest route along the
    call graph from [source] to [sink] when there is one, and with nothing only when
    there is none; the walk back along the parents ends within its fuel. *)
Theorem shortest_paths_exact ctx b source adjacency parents b' ctx' :
  shortestPaths ctx b source adjacency = (parents, false, b', ctx') →
  ∀ sink,
    match reconstructReachabilityPath parents source sink with
    | Some p => route adjacency source sink p
                ∧ ∀ p', route adjacency source sink p' → length p ≤ length p'
    | None => ∀ p', ¬ route adjacency source sink p'
    end.
Proof. apply search_exact. Qed.

(** The search ends and stays inside its budget.  On every graph, cycles included,
    whenever the context strikes, the loop ends after at most one iteration per node;
    the shared count of visited nodes only grows and, when a maximum is set, never
    passes it; without a maximum and a deadline nothing stops the search. *)
Theorem shortest_paths_bounded ctx b source adjacency :
  bfs_loop (bfs_fuel adjacency) ctx b adjacency (start_frontier source)
    = Some (shortestPaths ctx b source adjacency)
  ∧ (let '(_, _, b', _) := shortestPaths ctx b source adjacency in
     bb_max b' = bb_max b ∧ (bb_visited b ≤ bb_visited b')%Z
     ∧ ((0 < bb_max b)%Z → (bb_visited b' ≤ Z.max (bb_visited b) (bb_max b))%Z))
  ∧ (ctx = None → (bb_max b ≤ 0)%Z →
     ∃ parents b', shortestPaths ctx b source adjacency = (parents, false, b', None)).
Proof.
  split; [apply shortestPaths_loop|]. split; [apply search_budget|].
  intros ->. apply search_unbounded.
Qed.

(** The graph, and so every answer of a search over it, depends only on which calls
    there are: not on the order of the facts, nor on how often one is repeated. *)
Theorem adjacency_order_insensitive facts facts' a :
  (∀ f, In f facts ↔ In f facts') →
  neighbors (buildCallGraphAdjacency facts) a = neighbors (buildCallGraphAdjacency facts') a.
Proof.
  intros H. destruct (adjacency_lookup facts a) as (X & -> & HX), (adjacency_lookup facts' a) as (Y & -> & HY).
  assert (X = Y) as ->; [|done]. apply set_eq. intros b. by rewrite HX, HY.
Qed.

(** ** Witnesses *)

(** A cycle [a -> b -> c -> a] with a shortcut from [a] to [c], and [d] after [c]. *)
Definition example_facts : list CallFact :=
  [mkCallFact "b" "c"; mkCallFact "a" "b"; mkCallFact "c" "a"; mkCallFact "a" "c"; mkCallFact "c" "d";
   mkCallFact "a" "b"].

Example search_example :
  let '(parents, stopped, b, _) :=
    shortestPaths None (mkBfsBudget 0 0) "a" (buildCallGraphAdjacency example_facts) in
  (reconstructReachabilityPath parents "a" "d", reconstructReachabilityPath parents "a" "z", stopped, bb_visited b)
  = (Some ["a"; "c"; "d"], None, false, 4%Z).
Proof. vm_compute. reflexivity. Qed.

Lemma shortest_paths_exact_witness :
  reconstructReachabilityPath (<["a" := "c"]> (<["d" := "c"]> (<["c" := "b"]> {["b" := ""]}))) "b" "d"
    = Some ["b"; "c"; "d"]
  ∧ route (buildCallGraphAdjacency example_facts) "b" "d" ["b"; "c"; "d"].
Proof.
  split; [vm_compute; reflexivity|].
  pose proof (shortest_paths_exact None (mkBfsBudget 0 0) "b" (buildCallGraphAdjacency example_facts)
    (<["a" := "c"]> (<["d" := "c"]> (<["c" := "b"]> {["b" := ""]}))) (mkBfsBudget 4 0) None) as H.
  exact (proj1 (H ltac:(vm_compute; reflexivity) "d")).
Defined.

(** Three nodes may be visited: the search from [a] stops. *)
Lemma shortest_paths_bounded_witness :
  let '(_, stopped, b, _) :=
    shortestPaths None (mkBfsBudget 0 3) "a" (buildCallGraphAdjacency example_facts) in
  stopped = true ∧ (bb_visited b ≤ 3)%Z.
Proof.
  pose proof (proj1 (proj2 (shortest_paths_bounded None (mkBfsBudget 0 3) "a"
    (buildCallGraphAdjacency example_facts)))) as H.
  split; [vm_compute; reflexivity|]. exact (proj2 (proj2 H) eq_refl).
Defined.

Lemma adjacency_order_insensitive_witness :
  neighbors (buildCallGraphAdjacency (reverse example_facts)) "a" = ["b"; "c"].
Proof.
  rewrite (adjacency_order_insensitive (reverse example_facts) example_facts "a").
  - vm_compute. reflexivity.
  - intros f. by rewrite <- !list_elem_of_In, elem_of_reverse.
Defined.
