(* ===== verification/Reachability.v ===== *)
(** * Reachability and layer bypass

    What [pkg/projectmodel] concludes from the call graph: which handlers reach a
    database call ([go_reachability*.go], [ts_reachability.go]), and which do so on a
    route that avoids a required layer ([go_layer_bypass*.go], [ts_layer_bypass*.go],
    [layer_bypass_*.go]).  The loaded SSA programs are data: for each root its
    directory, its load error, and its local functions in the order they are walked;
    the measured time and memory are arguments of the counts. *)

From stdpp Require Import sorting fin_sets fin_maps.
From S2P Require Import Prelude GoOrder GoText Domain Signals Report LayerRules CallGraph.

(** ** Codes and registries *)

(** go: pkg/domain/reachability.go#ReachabilityAlgorithm *)
Definition ReachabilityAlgorithm : string := "go-source-sink-registry@1".

(** go: pkg/domain/reachability.go#TSReachabilityAlgorithm *)
Definition TSReachabilityAlgorithm : string := "ts-source-sink-registry@1".

(** go: pkg/domain/reachability.go#KindPossibleCallReachability *)
Definition KindPossibleCallReachability : string := "possible_call_reachability".

(** go: pkg/domain/reachability.go#DiagReachabilityBudgetExceeded *)
Definition DiagReachabilityBudgetExceeded : string := "project_reachability_budget_exceeded".

(** go: pkg/domain/reachability.go#DiagReachabilitySourceLoadFailed *)
Definition DiagReachabilitySourceLoadFailed : string := "project_reachability_source_load_failed".

(** go: pkg/domain/layer_bypass.go#LayerBypassAlgorithm *)
Definition LayerBypassAlgorithm : string := "go-layer-bypass-registry@1".

(** go: pkg/domain/layer_bypass.go#TSLayerBypassAlgorithm *)
Definition TSLayerBypassAlgorithm : string := "ts-layer-bypass-registry@1".

(** go: pkg/domain/layer_bypass.go#DiagLayerBypassBudgetExceeded *)
Definition DiagLayerBypassBudgetExceeded : string := "project_layer_bypass_budget_exceeded".

(** go: pkg/domain/layer_bypass.go#DiagLayerBypassSourceLoadFailed *)
Definition DiagLayerBypassSourceLoadFailed : string := "project_layer_bypass_source_load_failed".

(** go: pkg/domain/layer_bypass.go#DiagLayerBypassAmbiguousLayer *)
Definition DiagLayerBypassAmbiguousLayer : string := "project_layer_bypass_ambiguous_layer".

(** go: pkg/projectmodel/go_reachability.go#ReachabilitySinkPatterns *)
Definition ReachabilitySinkPatterns : list string :=
  ["(*database/sql.DB).Exec"; "(*database/sql.DB).ExecContext";
   "(*database/sql.DB).Query"; "(*database/sql.DB).QueryContext"].

(** go: pkg/domain/layer_bypass.go#BypassLayer *)
Record BypassLayer := mkBypassLayer { bl_Name : string; bl_Prefixes : list string }.

(** Durations in nanoseconds.
    go: pkg/projectmodel/go_budgets.go#GoBudgets *)
Record GoBudgets := mkGoBudgets {
  gb_WallTime : Z; gb_MaxInputFiles : Z; gb_MaxInputBytes : Z;
  gb_MaxGraphNodes : Z; gb_MaxGraphEdges : Z; gb_MaxWorkingSetBytes : Z
}.

(** go: pkg/projectmodel/go_budgets.go#EffectiveGoBudgets *)
Definition EffectiveGoBudgets (b : GoBudgets) : gmap string Z :=
  list_to_map
    [("wall_time_ms", Z.quot (gb_WallTime b) 1000000);
     ("input_files", gb_MaxInputFiles b);
     ("input_bytes", gb_MaxInputBytes b);
     ("graph_nodes", gb_MaxGraphNodes b);
     ("graph_edges", gb_MaxGraphEdges b);
     ("working_set_bytes", gb_MaxWorkingSetBytes b);
     ("stderr_bytes", 0%Z)].

(** A diagnostic of a code alone, or with a path and a message. *)
Definition code_diagnostic (code : string) : DomainDiagnostic := mkDomainDiagnostic code "" "".

(** go: pkg/projectmodel/diagnostic_codes.go#containsDiagnosticCode *)
Fixpoint containsDiagnosticCode (diags : list DomainDiagnostic) (code : string) : bool :=
  match diags with
  | [] => false
  | d :: rest => if dd_Code d == code then true else containsDiagnosticCode rest code
  end.

(** go: pkg/projectmodel/diagnostic_codes.go#remapDiagnosticCodes *)
Definition remapDiagnosticCodes (diags : list DomainDiagnostic) (codes : gmap string string) :
    list DomainDiagnostic :=
  map (λ d, match codes !! dd_Code d with
            | Some mapped => mkDomainDiagnostic mapped (dd_Message d) (dd_Path d)
            | None => d
            end) diags.

(** [m[key]] of a map of counts. *)
Definition count (counts : gmap string Z) (key : string) : Z := default 0%Z (counts !! key).

(** go: pkg/projectmodel/go_callgraph_classify.go#unresolvedCallSiteCount *)
Definition unresolvedCallSiteCount (counts : gmap string Z) : Z :=
  count counts "unresolved_interface" + count counts "unresolved_function_value"
  + count counts "unresolved_reflection" + count counts "unresolved_framework_registration"
  + count counts "unresolved_synthetic_wrapper".

(** go: pkg/projectmodel/go_callgraph.go#CallGraphResult *)
Record CallGraphResult := mkCallGraphResult {
  cg_CallFacts : list CallFact; cg_Algorithm : string; cg_Coverage : ProjCoverage
}.

(** ** Loaded programs *)

(** go: pkg/projectmodel/layer_bypass_witness_path.go#layerBypassNodePosition *)
Record layerBypassNodePosition := mkNodePosition { np_Dir : string; np_File : string; np_Line : Z }.

(** A local function: its identity, whether its signature is the handler's, and its
    resolved position. *)
Record localFunction := mkLocalFunction {
  fn_ID : string; fn_IsHandler : bool; fn_Position : option layerBypassNodePosition
}.

(** One root of the loaded snapshot: [lg_PkgErrors] tells whether a package has type
    errors, [lg_HasHandlerSig] whether net/http was part of the build. *)
Record loadedGoRoot := mkLoadedGoRoot {
  lg_Dir : string; lg_LoadErr : option string; lg_PkgErrors : bool;
  lg_HasHandlerSig : bool; lg_Functions : list localFunction
}.

(** go: pkg/projectmodel/go_reachability_sources.go#goReachabilitySourceSearch *)
Record goReachabilitySourceSearch := mkSourceSearch {
  ss_seen : gset string; ss_diagnostics : list DomainDiagnostic; ss_complete : bool
}.

(** The loop of [collectRoot] over the functions of a root: the flag tells to stop. *)
Fixpoint collect_handlers (ctx : Ctx) (dir : string) (fns : list localFunction)
    (s : goReachabilitySourceSearch) : bool * goReachabilitySourceSearch * Ctx :=
  match fns with
  | [] => (false, s, ctx)
  | fn :: rest =>
      let '(done, ctx) := ctx_done ctx in
      if done
      then (true, mkSourceSearch (ss_seen s)
                    (ss_diagnostics s ++ [mkDomainDiagnostic DiagReachabilityBudgetExceeded "" dir]) false, ctx)
      else collect_handlers ctx dir rest
             (if fn_IsHandler fn
              then mkSourceSearch ({[fn_ID fn]} ∪ ss_seen s) (ss_diagnostics s) (ss_complete s)
              else s)
  end.

(** go: pkg/projectmodel/go_reachability_sources.go#collectRoot *)
Definition collectRoot (ctx : Ctx) (root : loadedGoRoot) (s : goReachabilitySourceSearch) :
    bool * goReachabilitySourceSearch * Ctx :=
  let '(done, ctx) := ctx_done ctx in
  if done
  then (true, mkSourceSearch (ss_seen s)
                (ss_diagnostics s ++ [mkDomainDiagnostic DiagReachabilityBudgetExceeded "" (lg_Dir root)]) false, ctx)
  else match lg_LoadErr root with
  | Some message =>
      (false, mkSourceSearch (ss_seen s)
                (ss_diagnostics s ++ [mkDomainDiagnostic DiagReachabilitySourceLoadFailed message (lg_Dir root)]) false, ctx)
  | None =>
      let s := if lg_PkgErrors root then mkSourceSearch (ss_seen s) (ss_diagnostics s) false else s in
      if lg_HasHandlerSig root then collect_handlers ctx (lg_Dir root) (lg_Functions root) s
      else (false, s, ctx)
  end.

Fixpoint collect_roots (ctx : Ctx) (roots : list loadedGoRoot) (s : goReachabilitySourceSearch) :
    goReachabilitySourceSearch * Ctx :=
  match roots with
  | [] => (s, ctx)
  | root :: rest =>
      let '(stop, s, ctx) := collectRoot ctx root s in
      if stop then (s, ctx) else collect_roots ctx rest s
  end.

(** The sources, whether they are complete, and the diagnostics.
    go: pkg/projectmodel/go_reachability_sources.go#findGoReachabilitySourcesFromLoaded *)
Definition findGoReachabilitySourcesFromLoaded (ctx : Ctx) (discovery_complete : bool)
    (roots : list loadedGoRoot) : list string * bool * list DomainDiagnostic * Ctx :=
  let '(done, ctx) := ctx_done ctx in
  if done then ([], false, [code_diagnostic DiagReachabilityBudgetExceeded], ctx)
  else
    let '(s, ctx) := collect_roots ctx roots (mkSourceSearch ∅ [] discovery_complete) in
    (mapKeysSorted (ss_seen s), ss_complete s, ss_diagnostics s, ctx).

Notation Positions := (gmap string layerBypassNodePosition).

(** go: pkg/projectmodel/go_layer_bypass_positions.go#layerBypassPositionAcc *)
Record layerBypassPositionAcc := mkPositionAcc {
  pa_positions : Positions; pa_diagnostics : list DomainDiagnostic; pa_complete : bool
}.

(** go: pkg/projectmodel/go_layer_bypass_positions.go#addFunctions *)
Fixpoint addFunctions (ctx : Ctx) (dir : string) (fns : list localFunction)
    (a : layerBypassPositionAcc) : layerBypassPositionAcc * Ctx :=
  match fns with
  | [] => (a, ctx)
  | fn :: rest =>
      let '(done, ctx) := ctx_done ctx in
      if done
      then (mkPositionAcc (pa_positions a)
              (pa_diagnostics a ++ [mkDomainDiagnostic DiagLayerBypassBudgetExceeded "" dir]) false, ctx)
      else match fn_Position fn with
      | None => addFunctions ctx dir rest a
      | Some pos =>
          addFunctions ctx dir rest
            (mkPositionAcc (<[fn_ID fn := pos]> (pa_positions a)) (pa_diagnostics a) (pa_complete a))
      end
  end.

Fixpoint position_roots (ctx : Ctx) (roots : list loadedGoRoot) (a : layerBypassPositionAcc) :
    layerBypassPositionAcc * Ctx :=
  match roots with
  | [] => (a, ctx)
  | root :: rest =>
      let '(done, ctx) := ctx_done ctx in
      if done
      then (mkPositionAcc (pa_positions a)
              (pa_diagnostics a ++ [mkDomainDiagnostic DiagLayerBypassBudgetExceeded "" (lg_Dir root)]) false, ctx)
      else match lg_LoadErr root with
      | Some message =>
          position_roots ctx rest
            (mkPositionAcc (pa_positions a)
               (pa_diagnostics a ++ [mkDomainDiagnostic DiagLayerBypassSourceLoadFailed message (lg_Dir root)]) false)
      | None =>
          let '(a, ctx) := addFunctions ctx (lg_Dir root) (lg_Functions root) a in
          position_roots ctx rest a
      end
  end.

(** go: pkg/projectmodel/go_layer_bypass_positions.go#layerBypassNodePackageDirsFromLoaded *)
Definition layerBypassNodePackageDirsFromLoaded (ctx : Ctx) (discovery_complete : bool)
    (roots : list loadedGoRoot) : Positions * bool * list DomainDiagnostic * Ctx :=
  let '(done, ctx) := ctx_done ctx in
  if done then (∅, false, [code_diagnostic DiagLayerBypassBudgetExceeded], ctx)
  else
    let '(a, ctx) := position_roots ctx roots (mkPositionAcc ∅ [] discovery_complete) in
    (pa_positions a, pa_complete a, pa_diagnostics a, ctx).

(** ** The loop over the sources *)

(** The three searches loop over the sources in the same way: break off when the context
    is done, search from the source with what is left of the budget, poll the context
    again unless the budget was hit, and count what the source contributes.  [stop] and
    [visit] are the parts that differ; [visit] learns the source, its parents, whether the
    budget was hit, and whether that or the context made the source untrustworthy. *)
Section Over_sources.
Context {S : Type} (stop : S → S) (visit : string → gmap string string → bool → bool → S → S).
Context (adjacency : Adjacency).

Fixpoint over_sources (ctx : Ctx) (budget : bfsBudget) (sources : list string) (s : S) :
    S * bfsBudget * Ctx :=
  match sources with
  | [] => (s, budget, ctx)
  | source :: rest =>
      let '(done, ctx) := ctx_done ctx in
      if done then (stop s, budget, ctx)
      else
        let '(parents, hitBudget, budget, ctx) := shortestPaths ctx budget source adjacency in
        let '(done, ctx) := if hitBudget then (true, ctx) else ctx_done ctx in
        over_sources ctx budget rest (visit source parents hitBudget done s)
  end.
End Over_sources.

(** ** Reachability *)

(** go: pkg/projectmodel/go_reachability_search.go#reachabilitySearch *)
Record reachabilitySearch := mkReachabilitySearch {
  rs_facts : list ReachabilityFact; rs_evaluated : Z; rs_truncatedPairs : Z;
  rs_nodesVisited : Z; rs_truncatedSearch : bool
}.

(** The fact of a pair with a path. *)
Definition reachability_fact (source sink : string) (path : list string) : ReachabilityFact :=
  {| rf_ID := "reach:" +:+ source +:+ "->" +:+ sink +:+ "@" +:+ ReachabilityAlgorithm;
     rf_Kind := KindPossibleCallReachability;
     rf_Confidence := ReachabilityConfidenceResolvedDirect;
     rf_Source := source; rf_Sink := sink; rf_Path := path;
     rf_AlgorithmVersion := ReachabilityAlgorithm |}.

(** go: pkg/projectmodel/go_reachability_search.go#reachabilityFactsForSource *)
Fixpoint reachabilityFactsForSource (source : string) (sinks : list string)
    (parents : gmap string string) (skip : bool) : list ReachabilityFact * Z * Z :=
  match sinks with
  | [] => ([], 0%Z, 0%Z)
  | sink :: rest =>
      let '(facts, evaluated, truncated) := reachabilityFactsForSource source rest parents skip in
      if skip then (facts, evaluated, truncated + 1)%Z
      else match reconstructReachabilityPath parents source sink with
      | None => (facts, evaluated + 1, truncated)%Z
      | Some path => (reachability_fact source sink path :: facts, evaluated + 1, truncated)%Z
      end
  end.

(** The body of the loop. *)
Definition search_source (sinks : list string) (callGraphIncomplete : bool) (source : string)
    (parents : gmap string string) (hitBudget done : bool) (search : reachabilitySearch) :
    reachabilitySearch :=
  let '(facts, evaluated, truncated) :=
    reachabilityFactsForSource source sinks parents (done || callGraphIncomplete) in
  mkReachabilitySearch (rs_facts search ++ facts) (rs_evaluated search + evaluated)
    (rs_truncatedPairs search + truncated) (rs_nodesVisited search)
    (rs_truncatedSearch search || hitBudget).

Definition stop_search (search : reachabilitySearch) : reachabilitySearch :=
  mkReachabilitySearch (rs_facts search) (rs_evaluated search) (rs_truncatedPairs search)
    (rs_nodesVisited search) true.

(** go: pkg/projectmodel/go_reachability_search.go#searchReachabilityFacts *)
Definition searchReachabilityFacts (ctx : Ctx) (sources sinks : list string) (adjacency : Adjacency)
    (maxSearchNodes : Z) (callGraphIncomplete : bool) : reachabilitySearch * Ctx :=
  let '(search, budget, ctx) :=
    over_sources stop_search (search_source sinks callGraphIncomplete) adjacency
      ctx (mkBfsBudget 0 maxSearchNodes) sources (mkReachabilitySearch [] 0 0 0 false) in
  let '(done, ctx) := if rs_truncatedSearch search then (true, ctx) else ctx_done ctx in
  (mkReachabilitySearch (rs_facts search) (rs_evaluated search) (rs_truncatedPairs search)
     (bb_visited budget) (rs_truncatedSearch search || done), ctx).

(** The order [sort.Slice] is given; the pairs are distinct. *)
Definition fact_less (a b : ReachabilityFact) : bool :=
  if rf_Source a != rf_Source b then str_less (rf_Source a) (rf_Source b)
  else str_less (rf_Sink a) (rf_Sink b).

(** What a run measures: time in milliseconds, and memory. *)
Record measured := mkMeasured { me_programs : Z; me_runtime_ms : Z; me_memory_bytes : Z }.

(** go: pkg/projectmodel/go_reachability.go#ReachabilityOptions *)
Record ReachabilityOptions := mkReachabilityOptions {
  ro_Roots : list string; ro_Budgets : GoBudgets; ro_MaxSearchNodes : Z
}.

(** go: pkg/projectmodel/go_reachability.go#effectiveReachabilityBudgets *)
Definition effectiveReachabilityBudgets (opts : ReachabilityOptions) : gmap string Z :=
  <["search_nodes" := ro_MaxSearchNodes opts]> (EffectiveGoBudgets (ro_Budgets opts)).

(** From the loaded snapshot and its call graph on.
    go: pkg/projectmodel/go_reachability.go:86-154#BuildGoReachability *)
Definition BuildGoReachability (ctx : Ctx) (discovery_complete : bool) (roots : list loadedGoRoot)
    (callGraph : CallGraphResult) (opts : ReachabilityOptions) (me : measured) : ReachabilityResult * Ctx :=
  let '(sources, sourcesComplete, sourceDiagnostics, ctx) :=
    findGoReachabilitySourcesFromLoaded ctx discovery_complete roots in
  let adjacency := buildCallGraphAdjacency (cg_CallFacts callGraph) in
  let sinks := sort_strings ReachabilitySinkPatterns in
  let callGraphIncomplete := negb (pc_Complete (cg_Coverage callGraph)) in
  let '(search, ctx) :=
    searchReachabilityFacts ctx sources sinks adjacency (ro_MaxSearchNodes opts) callGraphIncomplete in
  let diagnostics := pc_Diagnostics (cg_Coverage callGraph) ++ sourceDiagnostics in
  let diagnostics :=
    if rs_truncatedSearch search && negb (containsDiagnosticCode diagnostics DiagReachabilityBudgetExceeded)
    then diagnostics ++ [code_diagnostic DiagReachabilityBudgetExceeded] else diagnostics in
  let complete :=
    pc_Complete (cg_Coverage callGraph) && sourcesComplete && negb (rs_truncatedSearch search) in
  let facts := stable_sort fact_less (rs_facts search) in
  let counts : gmap string Z := list_to_map
    [("sources_identified", zlen sources);
     ("sinks_pinned", zlen sinks);
     ("source_sink_pairs_total", zlen sources * zlen sinks)%Z;
     ("source_sink_pairs_evaluated", rs_evaluated search);
     ("source_sink_pairs_truncated", rs_truncatedPairs search);
     ("reachable_pairs", zlen (rs_facts search));
     ("underlying_call_sites_seen", count (pc_Counts (cg_Coverage callGraph)) "call_sites_seen");
     ("underlying_unresolved_call_sites", unresolvedCallSiteCount (pc_Counts (cg_Coverage callGraph)));
     ("ssa_programs_built", me_programs me);
     ("runtime_ms", me_runtime_ms me);
     ("memory_bytes", me_memory_bytes me)] in
  (mkReachabilityResult facts sources ReachabilityAlgorithm
     (CanonicalCoverage (mkProjCoverage "go_reachability" complete counts
        (effectiveReachabilityBudgets opts) diagnostics)), ctx).

(** go: pkg/projectmodel/ts_reachability.go#tsReachabilityGapDiagnosticCodes *)
Definition tsReachabilityGapDiagnosticCodes : list string :=
  ["ts_reachability_dynamic_import_gap"; "ts_reachability_unresolved_handler_gap";
   "ts_reachability_local_call_not_followed_gap"; "ts_reachability_type_only_gap";
   "ts_reachability_unresolved_type_gap"].

(** go: pkg/projectmodel/ts_reachability.go#tsReachabilityHasGap *)
Definition tsReachabilityHasGap (diagnostics : list DomainDiagnostic) : bool :=
  existsb (λ d, bool_decide (dd_Code d ∈ tsReachabilityGapDiagnosticCodes)) diagnostics.

(** go: pkg/projectmodel/ts_reachability.go#tsReachabilityCoverage *)
Definition tsReachabilityCoverage (c : ProjCoverage) : ProjCoverage :=
  mkProjCoverage (pc_Phase c) (pc_Complete c && negb (tsReachabilityHasGap (pc_Diagnostics c)))
    (pc_Counts c) (pc_Budgets c) (pc_Diagnostics c).

(** go: pkg/projectmodel/ts_reachability.go#tsReachabilitySourcesReachedASink *)
Definition tsReachabilitySourcesReachedASink (facts : list ReachabilityFact) : list string :=
  mapKeysSorted (list_to_set (map rf_Source facts)).

(** go: pkg/projectmodel/ts_reachability.go#BuildTypeScriptReachabilityFromModel *)
Definition BuildTypeScriptReachabilityFromModel (model : Model) : ReachabilityResult :=
  let facts := default [] (m_ReachabilityFacts model) in
  mkReachabilityResult facts (tsReachabilitySourcesReachedASink facts) TSReachabilityAlgorithm
    (tsReachabilityCoverage (m_Coverage model)).

(** ** Layer bypass *)

(** go: pkg/projectmodel/layer_bypass_membership.go#layerBypassContainsDir *)
Definition layerBypassContainsDir (layer : BypassLayer) (dir : string) : bool :=
  existsb (λ prefix, LayerPrefixContains prefix dir) (bl_Prefixes layer).

(** go: pkg/projectmodel/layer_bypass_membership.go#requiredLayerNodeSet *)
Definition requiredLayerNodeSet (layer : BypassLayer) (nodePositions : Positions) : gset string :=
  dom (filter (λ kv, layerBypassContainsDir layer (np_Dir (snd kv)) = true) nodePositions).

(** go: pkg/projectmodel/layer_bypass_witness_path.go#stepPathFullyClassified *)
Definition stepPathFullyClassified (stepPath : list string) (nodePositions : Positions) : bool :=
  forallb (λ node, bool_decide (is_Some (nodePositions !! node))) (removelast stepPath).

(** go: pkg/projectmodel/layer_bypass_witness_path.go#layerBypassSteps *)
Definition layerBypassSteps (stepPath : list string) (nodePositions : Positions) : list LayerBypassStep :=
  map (λ node, match nodePositions !! node with
               | Some pos => mkLayerBypassStep node (np_File pos) (np_Line pos)
               | None => mkLayerBypassStep node "" 0
               end) stepPath.

(** go: pkg/projectmodel/go_layer_bypass_search.go#layerBypassSearch *)
Record layerBypassSearch := mkLayerBypassSearch {
  lbs_witnesses : list LayerBypassWitness; lbs_evaluated : Z; lbs_truncatedPairs : Z;
  lbs_nodesVisited : Z; lbs_truncatedSearch : bool; lbs_unclassifiedNodeSeen : bool
}.

(** The witness of a pair, under the algorithm that found it. *)
Definition bypass_witness (algorithm requiredLayer source sink : string) (steps : list LayerBypassStep) :
    LayerBypassWitness :=
  {| lbw_ID := "bypass:" +:+ requiredLayer +:+ ":" +:+ source +:+ "->" +:+ sink +:+ "@" +:+ algorithm;
     lbw_Source := source; lbw_Sink := sink; lbw_RequiredLayer := requiredLayer;
     lbw_Path := steps; lbw_Confidence := LayerBypassConfidenceHigh;
     lbw_AlgorithmVersion := algorithm |}.

(** One sink of a source: the body of the loop of both searches. *)
Definition collect_sink (algorithm source : string) (parents : gmap string string)
    (nodePositions : Positions) (requiredLayer : string) (skip : bool)
    (s : layerBypassSearch) (sink : string) : layerBypassSearch :=
  if skip
  then mkLayerBypassSearch (lbs_witnesses s) (lbs_evaluated s) (lbs_truncatedPairs s + 1)
         (lbs_nodesVisited s) (lbs_truncatedSearch s) (lbs_unclassifiedNodeSeen s)
  else match reconstructReachabilityPath parents source sink with
  | None => mkLayerBypassSearch (lbs_witnesses s) (lbs_evaluated s + 1) (lbs_truncatedPairs s)
              (lbs_nodesVisited s) (lbs_truncatedSearch s) (lbs_unclassifiedNodeSeen s)
  | Some stepPath =>
      if stepPathFullyClassified stepPath nodePositions
      then mkLayerBypassSearch
             (lbs_witnesses s ++ [bypass_witness algorithm requiredLayer source sink
                                    (layerBypassSteps stepPath nodePositions)])
             (lbs_evaluated s + 1) (lbs_truncatedPairs s)
             (lbs_nodesVisited s) (lbs_truncatedSearch s) (lbs_unclassifiedNodeSeen s)
      else mkLayerBypassSearch (lbs_witnesses s) (lbs_evaluated s + 1) (lbs_truncatedPairs s)
             (lbs_nodesVisited s) (lbs_truncatedSearch s) true
  end.

(** go: pkg/projectmodel/go_layer_bypass_search.go#collectWitnesses *)
Definition collectWitnesses (source : string) (sinks : list string) (parents : gmap string string)
    (nodePositions : Positions) (requiredLayer : string) (skip : bool) (s : layerBypassSearch) :
    layerBypassSearch :=
  fold_left (collect_sink LayerBypassAlgorithm source parents nodePositions requiredLayer skip) sinks s.

Definition set_truncated (s : layerBypassSearch) (truncated : bool) : layerBypassSearch :=
  mkLayerBypassSearch (lbs_witnesses s) (lbs_evaluated s) (lbs_truncatedPairs s)
    (lbs_nodesVisited s) (lbs_truncatedSearch s || truncated) (lbs_unclassifiedNodeSeen s).

Definition set_visited (s : layerBypassSearch) (visited : Z) : layerBypassSearch :=
  mkLayerBypassSearch (lbs_witnesses s) (lbs_evaluated s) (lbs_truncatedPairs s)
    visited (lbs_truncatedSearch s) (lbs_unclassifiedNodeSeen s).

Definition no_search : layerBypassSearch := mkLayerBypassSearch [] 0 0 0 false false.

(** What an ambiguous layer leaves: every pair truncated. *)
Definition ambiguous_search (sources sinks : list string) : layerBypassSearch :=
  mkLayerBypassSearch [] 0 (zlen sources * zlen sinks)%Z 0 true false.

(** The last poll of a search: [!truncatedSearch && ctx.Err() != nil]. *)
Definition last_poll (s : layerBypassSearch) (ctx : Ctx) : layerBypassSearch * Ctx :=
  if lbs_truncatedSearch s then (s, ctx)
  else let '(done, ctx) := ctx_done ctx in (set_truncated s done, ctx).

(** go: pkg/projectmodel/go_layer_bypass.go#LayerBypassOptions *)
Record LayerBypassOptions := mkLayerBypassOptions {
  lbo_RequiredLayer : BypassLayer; lbo_Roots : list string;
  lbo_Budgets : GoBudgets; lbo_MaxSearchNodes : Z
}.

(** go: pkg/projectmodel/go_layer_bypass.go#searchLayerBypassWitnesses *)
Definition searchLayerBypassWitnesses (ctx : Ctx) (sources sinks : list string)
    (bypassAdjacency : Adjacency) (nodePositions : Positions) (opts : LayerBypassOptions)
    (callGraphIncomplete dirsComplete ambiguousLayer : bool) : layerBypassSearch * Ctx :=
  if ambiguousLayer then (ambiguous_search sources sinks, ctx)
  else
    let '(s, budget, ctx) :=
      over_sources (λ s, set_truncated s true)
        (λ source parents hitBudget done s,
          collectWitnesses source sinks parents nodePositions (bl_Name (lbo_RequiredLayer opts))
            (done || callGraphIncomplete || negb dirsComplete) (set_truncated s hitBudget))
        bypassAdjacency ctx (mkBfsBudget 0 (lbo_MaxSearchNodes opts)) sources no_search in
    let '(s, ctx) := last_poll s ctx in
    (set_visited s (bb_visited budget), ctx).

(** go: pkg/projectmodel/go_layer_bypass.go#effectiveLayerBypassBudgets *)
Definition effectiveLayerBypassBudgets (opts : LayerBypassOptions) : gmap string Z :=
  <["search_nodes" := lbo_MaxSearchNodes opts]> (EffectiveGoBudgets (lbo_Budgets opts)).

(** The order of witnesses; the pairs are distinct. *)
Definition witness_pair_less (a b : LayerBypassWitness) : bool :=
  if lbw_Source a != lbw_Source b then str_less (lbw_Source a) (lbw_Source b)
  else str_less (lbw_Sink a) (lbw_Sink b).

(** The markers both languages add to a search's diagnostics.
    go: pkg/projectmodel/ts_layer_bypass.go#tsLayerBypassDiagnostics *)
Definition tsLayerBypassDiagnostics (base : list DomainDiagnostic)
    (ambiguousLayer unclassifiedNodeSeen truncatedSearch : bool) : list DomainDiagnostic :=
  let diagnostics :=
    if ambiguousLayer then base ++ [code_diagnostic DiagLayerBypassAmbiguousLayer]
    else if unclassifiedNodeSeen && negb (containsDiagnosticCode base DiagLayerBypassAmbiguousLayer)
    then base ++ [code_diagnostic DiagLayerBypassAmbiguousLayer] else base in
  if truncatedSearch && negb (containsDiagnosticCode diagnostics DiagLayerBypassBudgetExceeded)
  then diagnostics ++ [code_diagnostic DiagLayerBypassBudgetExceeded] else diagnostics.

(** go: pkg/projectmodel/go_layer_bypass_result.go#assembleLayerBypassResult *)
Definition assembleLayerBypassResult (callGraph : CallGraphResult) (sources sinks : list string)
    (requiredLayerNodes : gset string) (search : layerBypassSearch)
    (sourceDiagnostics dirDiagnostics : list DomainDiagnostic)
    (sourcesComplete dirsComplete ambiguousLayer : bool) (opts : LayerBypassOptions) (me : measured) :
    LayerBypassResult :=
  let diagnostics :=
    tsLayerBypassDiagnostics
      (pc_Diagnostics (cg_Coverage callGraph) ++ sourceDiagnostics ++ dirDiagnostics)
      ambiguousLayer (lbs_unclassifiedNodeSeen search) (lbs_truncatedSearch search) in
  let counts : gmap string Z := list_to_map
    [("sources_identified", zlen sources);
     ("sinks_pinned", zlen sinks);
     ("source_sink_pairs_total", zlen sources * zlen sinks)%Z;
     ("source_sink_pairs_evaluated", lbs_evaluated search);
     ("source_sink_pairs_truncated", lbs_truncatedPairs search);
     ("witnesses_found", zlen (lbs_witnesses search));
     ("required_layer_nodes_matched", Z.of_nat (size requiredLayerNodes));
     ("underlying_call_sites_seen", count (pc_Counts (cg_Coverage callGraph)) "call_sites_seen");
     ("underlying_unresolved_call_sites", unresolvedCallSiteCount (pc_Counts (cg_Coverage callGraph)));
     ("ssa_programs_built", me_programs me);
     ("search_nodes_visited", lbs_nodesVisited search);
     ("runtime_ms", me_runtime_ms me);
     ("memory_bytes", me_memory_bytes me)] in
  mkLayerBypassResult (stable_sort witness_pair_less (lbs_witnesses search)) sources LayerBypassAlgorithm
    (CanonicalCoverage (mkProjCoverage "go_layer_bypass"
       (pc_Complete (cg_Coverage callGraph) && sourcesComplete && dirsComplete
        && negb (lbs_truncatedSearch search))
       counts (effectiveLayerBypassBudgets opts) diagnostics)).

(** The renaming of the source search's codes. *)
Definition bypass_source_codes : gmap string string := list_to_map
  [(DiagReachabilityBudgetExceeded, DiagLayerBypassBudgetExceeded);
   (DiagReachabilitySourceLoadFailed, DiagLayerBypassSourceLoadFailed)].

(** [len(layer.Prefixes) == 0 || nothing matched]. *)
Definition ambiguous (layer : BypassLayer) (matched : bool) : bool :=
  match bl_Prefixes layer with [] => true | _ => negb matched end.

(** From the loaded snapshot and its call graph on.
    go: pkg/projectmodel/go_layer_bypass.go:69-104#BuildGoLayerBypass *)
Definition BuildGoLayerBypass (ctx : Ctx) (discovery_complete : bool) (roots : list loadedGoRoot)
    (callGraph : CallGraphResult) (opts : LayerBypassOptions) (me : measured) : LayerBypassResult * Ctx :=
  let '(sources, sourcesComplete, rawSourceDiagnostics, ctx) :=
    findGoReachabilitySourcesFromLoaded ctx discovery_complete roots in
  let sourceDiagnostics := remapDiagnosticCodes rawSourceDiagnostics bypass_source_codes in
  let '(nodePositions, dirsComplete, dirDiagnostics, ctx) :=
    layerBypassNodePackageDirsFromLoaded ctx discovery_complete roots in
  let adjacency := buildCallGraphAdjacency (cg_CallFacts callGraph) in
  let sinks := sort_strings ReachabilitySinkPatterns in
  let callGraphIncomplete := negb (pc_Complete (cg_Coverage callGraph)) in
  let requiredLayerNodes := requiredLayerNodeSet (lbo_RequiredLayer opts) nodePositions in
  let ambiguousLayer :=
    ambiguous (lbo_RequiredLayer opts) (negb (bool_decide (requiredLayerNodes = ∅))) in
  let bypassAdjacency :=
    if ambiguousLayer then adjacency else removeLayerNodesFromAdjacency adjacency requiredLayerNodes in
  let '(search, ctx) :=
    searchLayerBypassWitnesses ctx sources sinks bypassAdjacency nodePositions opts
      callGraphIncomplete dirsComplete ambiguousLayer in
  (assembleLayerBypassResult callGraph sources sinks requiredLayerNodes search
     sourceDiagnostics dirDiagnostics sourcesComplete dirsComplete ambiguousLayer opts me, ctx).

(** *** TypeScript *)

(** go: pkg/projectmodel/ts_layer_bypass_nodes.go#tsLayerBypassNodePosition *)
Definition tsLayerBypassNodePosition (nodeID : string) : option layerBypassNodePosition :=
  match CutPrefix "file:" nodeID with
  | None => None
  | Some rest =>
      if negb (Contains "#" rest) then None
      else
        let filePath := UntilAny (Ascii.eqb (byte_of 35)) rest in
        if filePath == "" then None else Some (mkNodePosition (Dir filePath) filePath 0)
  end.

(** [set.addPair] on one of the two ends.
    go: pkg/projectmodel/ts_layer_bypass_nodes.go#addPair *)
Definition addPair (from to : string) (positions : Positions) : Positions :=
  fold_left (λ positions nodeID,
    match positions !! nodeID with
    | Some _ => positions
    | None => match tsLayerBypassNodePosition nodeID with
              | Some pos => <[nodeID := pos]> positions
              | None => positions
              end
    end) [from; to] positions.

(** go: pkg/projectmodel/ts_layer_bypass_nodes.go#tsLayerBypassNodePositions *)
Definition tsLayerBypassNodePositions (facts : list CallFact) : Positions :=
  fold_left (λ positions f, addPair (cf_From f) (cf_To f) positions) facts ∅.

(** go: pkg/projectmodel/ts_layer_bypass_nodes.go#tsLayerBypassLayerMatchesFiles *)
Definition tsLayerBypassLayerMatchesFiles (files : list File) (layer : BypassLayer) : bool :=
  existsb (λ f, layerBypassContainsDir layer (Dir (file_Path f))) files.

(** go: pkg/projectmodel/ts_layer_bypass_nodes.go#tsLayerBypassRequiredLayerNodes *)
Definition tsLayerBypassRequiredLayerNodes (snapshotFiles : list File)
    (callGraphNodePositions : Positions) (requiredLayer : BypassLayer) : gset string * bool :=
  (requiredLayerNodeSet requiredLayer callGraphNodePositions,
   ambiguous requiredLayer (tsLayerBypassLayerMatchesFiles snapshotFiles requiredLayer)).

(** One source's contribution added to the total, as [searchSources] adds it. *)
Definition add_source (s r : layerBypassSearch) : layerBypassSearch :=
  mkLayerBypassSearch (lbs_witnesses s ++ lbs_witnesses r) (lbs_evaluated s + lbs_evaluated r)
    (lbs_truncatedPairs s + lbs_truncatedPairs r) (lbs_nodesVisited s)
    (lbs_truncatedSearch s || lbs_truncatedSearch r)
    (lbs_unclassifiedNodeSeen s || lbs_unclassifiedNodeSeen r).

(** What follows the search from one source.
    go: pkg/projectmodel/ts_layer_bypass_search.go:63-103#tsLayerBypassSearchFromSource *)
Definition tsLayerBypassSearchFromSource (source : string) (sinks : list string)
    (parents : gmap string string) (nodePositions : Positions) (requiredLayer : BypassLayer)
    (hitBudget skip : bool) : layerBypassSearch :=
  fold_left (collect_sink TSLayerBypassAlgorithm source parents nodePositions (bl_Name requiredLayer) skip)
    sinks (set_truncated no_search hitBudget).

(** The search has no node budget.
    go: pkg/projectmodel/ts_layer_bypass_search.go#searchSources *)
Definition searchSources (ctx : Ctx) (sources sinks : list string) (adjacency : Adjacency)
    (nodePositions : Positions) (requiredLayer : BypassLayer) : layerBypassSearch * Ctx :=
  let '(s, budget, ctx) :=
    over_sources (λ s, set_truncated s true)
      (λ source parents hitBudget done s,
        add_source s (tsLayerBypassSearchFromSource source sinks parents nodePositions requiredLayer
                        hitBudget done))
      adjacency ctx (mkBfsBudget 0 0) sources no_search in
  (set_visited s (bb_visited budget), ctx).

(** go: pkg/projectmodel/ts_layer_bypass_search.go#tsLayerBypassRunSearch *)
Definition tsLayerBypassRunSearch (ctx : Ctx) (sources sinks : list string) (adjacency : Adjacency)
    (nodePositions : Positions) (requiredLayer : BypassLayer) (ambiguousLayer : bool) :
    layerBypassSearch * Ctx :=
  let '(s, ctx) :=
    if ambiguousLayer then (ambiguous_search sources sinks, ctx)
    else searchSources ctx sources sinks adjacency nodePositions requiredLayer in
  last_poll s ctx.

(** go: pkg/projectmodel/ts_layer_bypass.go#tsLayerBypassSinks *)
Definition tsLayerBypassSinks (facts : list ReachabilityFact) : list string :=
  mapKeysSorted (list_to_set (map rf_Sink facts)).

(** go: pkg/projectmodel/ts_layer_bypass.go#BuildTypeScriptLayerBypassFromModel *)
Definition BuildTypeScriptLayerBypassFromModel (ctx : Ctx) (model : Model) (requiredLayer : BypassLayer) :
    LayerBypassResult * Ctx :=
  let reached := default [] (m_ReachabilityFacts model) in
  let calls := default [] (m_CallFacts model) in
  let sources := tsReachabilitySourcesReachedASink reached in
  let sinks := tsLayerBypassSinks reached in
  let adjacency := buildCallGraphAdjacency calls in
  let nodePositions := tsLayerBypassNodePositions calls in
  let '(requiredLayerNodes, ambiguousLayer) :=
    tsLayerBypassRequiredLayerNodes (m_Files model) nodePositions requiredLayer in
  let bypassAdjacency :=
    if ambiguousLayer then adjacency else removeLayerNodesFromAdjacency adjacency requiredLayerNodes in
  let '(search, ctx) :=
    tsLayerBypassRunSearch ctx sources sinks bypassAdjacency nodePositions requiredLayer ambiguousLayer in
  let diagnostics :=
    tsLayerBypassDiagnostics (pc_Diagnostics (m_Coverage model)) ambiguousLayer
      (lbs_unclassifiedNodeSeen search) (lbs_truncatedSearch search) in
  let complete :=
    pc_Complete (m_Coverage model) && negb (tsReachabilityHasGap (pc_Diagnostics (m_Coverage model)))
    && negb (lbs_truncatedSearch search) in
  let counts : gmap string Z := list_to_map
    [("sources_identified", zlen sources);
     ("sinks_identified", zlen sinks);
     ("source_sink_pairs_total", zlen sources * zlen sinks)%Z;
     ("source_sink_pairs_evaluated", lbs_evaluated search);
     ("source_sink_pairs_truncated", lbs_truncatedPairs search);
     ("witnesses_found", zlen (lbs_witnesses search));
     ("required_layer_nodes_matched", Z.of_nat (size requiredLayerNodes));
     ("search_nodes_visited", lbs_nodesVisited search)] in
  (mkLayerBypassResult (stable_sort witness_pair_less (lbs_witnesses search)) sources TSLayerBypassAlgorithm
     (CanonicalCoverage (mkProjCoverage "ts_layer_bypass" complete counts ∅ diagnostics)), ctx).

(** ** The visits of a search *)

(** What one iteration learned. *)
Record visit := mkVisit {
  v_source : string; v_parents : gmap string string; v_hit : bool; v_done : bool
}.

(** The visits of the loop, and whether it broke off. *)
Fixpoint visits (adjacency : Adjacency) (ctx : Ctx) (budget : bfsBudget) (sources : list string) :
    list visit * bool * bfsBudget * Ctx :=
  match sources with
  | [] => ([], false, budget, ctx)
  | source :: rest =>
      let '(done, ctx) := ctx_done ctx in
      if done then ([], true, budget, ctx)
      else
        let '(parents, hitBudget, budget, ctx) := shortestPaths ctx budget source adjacency in
        let '(done, ctx) := if hitBudget then (true, ctx) else ctx_done ctx in
        let '(vs, broken, budget, ctx) := visits adjacency ctx budget rest in
        (mkVisit source parents hitBudget done :: vs, broken, budget, ctx)
  end.

(** What a visit that can be trusted knows of every sink. *)
Definition trusted (adjacency : Adjacency) (v : visit) : Prop :=
  ∀ sink, exact_answer adjacency (v_source v) sink
            (reconstructReachabilityPath (v_parents v) (v_source v) sink).

(** The context is not done at the next poll. *)
Definition live (ctx : Ctx) : Prop := fst (ctx_done ctx) = false.

Lemma over_sources_visits {S} stop visit adjacency ctx budget sources (s : S) :
  over_sources stop visit adjacency ctx budget sources s =
  let '(vs, broken, budget', ctx') := visits adjacency ctx budget sources in
  let s' := fold_left (λ s v, visit (v_source v) (v_parents v) (v_hit v) (v_done v) s) vs s in
  (if broken then stop s' else s', budget', ctx').
Proof.
  revert ctx budget s. induction sources as [|source rest IH]; intros ctx budget s; [done|].
  cbn [over_sources visits]. destruct (ctx_done ctx) as [[] ctx1]; [done|].
  destruct (shortestPaths ctx1 budget source adjacency) as [[[parents hit] budget1] ctx2].
  destruct (if hit then _ else _) as [done ctx3]. rewrite IH.
  by destruct (visits adjacency ctx3 budget1 rest) as [[[vs broken] budget4] ctx4].
Qed.

(** A context that is done stays done. *)
Lemma ctx_done_again ctx : fst (ctx_done ctx) = true → ctx_done ctx = (true, ctx).
Proof. by destruct ctx as [[|n]|]. Qed.

Lemma poll_dead ctx ctx' : ctx_done ctx = (true, ctx') → ctx_done ctx' = (true, ctx').
Proof. destruct ctx as [[|n]|]; cbn; intros [=]; by subst. Qed.

Lemma loop_live adjacency fuel ctx b f r :
  bfs_loop fuel ctx b adjacency f = Some r → live (snd r) → live ctx.
Proof.
  unfold live. revert ctx b f. induction fuel as [|fuel IH]; intros ctx b f Hl Hr;
    cbn [bfs_loop] in Hl; destruct (bf_queue f) as [|u queue]; simplify_eq; try done.
  destruct (fst (ctx_done ctx)) eqn:E; [|done].
  rewrite (ctx_done_again ctx E) in Hl. simplify_eq. cbn in Hr. congruence.
Qed.

Lemma search_live adjacency ctx b source :
  live (snd (shortestPaths ctx b source adjacency)) → live ctx.
Proof. eapply loop_live, shortestPaths_loop. Qed.

Section Visits.
Context (adjacency : Adjacency).

(** Unfolds one iteration. *)
Local Ltac visit_step H :=
  cbn [visits] in H;
  let done := fresh "done" in let ctx := fresh "ctx" in let E := fresh "Edone" in
  match type of H with context[match ctx_done ?c with _ => _ end] =>
    destruct (ctx_done c) as [done ctx] eqn:E end; destruct done;
  [|destruct (shortestPaths ctx _ _ adjacency) as [[[?parents ?hit] ?b] ?ctx] eqn:?Hsp;
    match type of H with context[if ?hit then (true, ?c) else ctx_done ?c] =>
      destruct (if hit then (true, c) else ctx_done c) as [?done ?ctx] eqn:?Hpoll end;
    match type of H with context[visits adjacency ?c ?b ?rest] =>
      destruct (visits adjacency c b rest) as [[[?vs ?broken] ?b] ?ctx] eqn:?Hrest end];
  simplify_eq.

Lemma visits_trusted ctx b sources vs broken b' ctx' v :
  visits adjacency ctx b sources = (vs, broken, b', ctx') →
  In v vs → In (v_source v) sources ∧ (v_hit v = true → v_done v = true) ∧ (v_done v = false → trusted adjacency v).
Proof.
  revert ctx b vs. induction sources as [|source rest IH]; intros ctx b vs H Hv;
    [by cbn in H; simplify_eq|].
  visit_step H; [done|]. destruct Hv as [<-|Hv].
  - cbn. split; [by left|]. destruct hit; simplify_eq; [done|]. split; [done|].
    intros _ sink. by eapply search_exact.
  - destruct (IH _ _ _ Hrest Hv) as (? & ?). split; [by right|done].
Qed.

Lemma visits_sources ctx b sources vs broken b' ctx' :
  visits adjacency ctx b sources = (vs, broken, b', ctx') →
  map v_source vs `prefix_of` sources ∧ (broken = false → map v_source vs = sources).
Proof.
  revert ctx b vs. induction sources as [|source rest IH]; intros ctx b vs H;
    [by cbn in H; simplify_eq|].
  visit_step H; [split; [apply prefix_nil|done]|].
  destruct (IH _ _ _ Hrest) as [Hp Heq]. cbn. split; [by apply prefix_cons|].
  intros Hb. by rewrite Heq.
Qed.

Lemma visits_live ctx b sources vs broken b' ctx' :
  visits adjacency ctx b sources = (vs, broken, b', ctx') →
  live ctx' → live ctx ∧ ∀ v, In v vs → v_hit v = false → v_done v = false.
Proof.
  unfold live. revert ctx b vs. induction sources as [|source rest IH]; intros ctx b vs H Hl.
  { cbn in H. by simplify_eq. }
  visit_step H.
  - apply poll_dead in Edone. by rewrite Edone in Hl.
  - destruct (IH _ _ _ Hrest Hl) as [Hl1 Hv]. split; [done|].
    intros v [<-|Hin]; [|by apply Hv]. cbn. intros ->. cbn in Hpoll.
    match type of Hpoll with _ = (?d, _) => destruct d; [|done] end.
    apply poll_dead in Hpoll. by rewrite Hpoll in Hl1.
Qed.

Lemma visits_broken ctx b sources vs b' ctx' :
  visits adjacency ctx b sources = (vs, true, b', ctx') → ¬ live ctx'.
Proof.
  unfold live. revert ctx b vs. induction sources as [|source rest IH]; intros ctx b vs H;
    [by cbn in H; simplify_eq|].
  visit_step H; [|by eapply IH]. apply poll_dead in Edone. by rewrite Edone.
Qed.

Lemma visits_budget ctx b sources vs broken b' ctx' :
  visits adjacency ctx b sources = (vs, broken, b', ctx') →
  bb_max b' = bb_max b ∧ (bb_visited b ≤ bb_visited b')%Z
  ∧ ((0 < bb_max b)%Z → (bb_visited b' ≤ Z.max (bb_visited b) (bb_max b))%Z).
Proof.
  revert ctx b vs. induction sources as [|source rest IH]; intros ctx b vs H;
    [cbn in H; simplify_eq; split; [done|]; lia|].
  visit_step H; [split; [done|]; lia|].
  match type of Hsp with shortestPaths ?c _ _ _ = _ =>
    pose proof (search_budget c b source adjacency) as Hb end.
  rewrite Hsp in Hb. destruct Hb as (Hm & Hv & Hx), (IH _ _ _ Hrest) as (Hm' & Hv' & Hx').
  rewrite Hm in *. split; [done|]. split; [lia|]. intros Hp. specialize (Hx Hp). specialize (Hx' Hp). lia.
Qed.

Lemma visits_unbounded b sources vs broken b' ctx' :
  visits adjacency None b sources = (vs, broken, b', ctx') → (bb_max b ≤ 0)%Z →
  broken = false ∧ ctx' = None ∧ ∀ v, In v vs → v_hit v = false ∧ v_done v = false.
Proof.
  revert b vs. induction sources as [|source rest IH]; intros b vs H Hb.
  { cbn in H. by simplify_eq. }
  cbn [visits ctx_done] in H.
  destruct (search_unbounded b source adjacency Hb) as (parents & b1 & Hsp). rewrite Hsp in H.
  pose proof (search_budget None b source adjacency) as Hm. rewrite Hsp in Hm.
  cbn in H. destruct (visits adjacency None b1 rest) as [[[vs1 broken1] b2] ctx2] eqn:Hrest. simplify_eq.
  destruct (IH _ _ Hrest) as (-> & -> & Hv); [lia|]. split; [done|]. split; [done|].
  intros v [<-|Hin]; [done|by apply Hv].
Qed.
End Visits.

(** ** What the visits add up to *)

Lemma existsb_false {A} (f : A → bool) l : existsb f l = false ↔ ∀ x, In x l → f x = false.
Proof.
  induction l as [|x l IH]; cbn; [split; [by intros _ ? []|done]|].
  rewrite orb_false_iff, IH. naive_solver.
Qed.

Lemma In_concat_map {A B} (f : A → list B) l y : In y (concat (map f l)) ↔ ∃ x, In x l ∧ In y (f x).
Proof. rewrite <- flat_map_concat_map. apply in_flat_map. Qed.

Lemma In_omap {A B} (f : A → option B) l y : In y (omap f l) ↔ ∃ x, In x l ∧ f x = Some y.
Proof.
  rewrite <- list_elem_of_In, list_elem_of_omap. by setoid_rewrite list_elem_of_In.
Qed.

(** *** Reachability *)

Definition facts_of (sinks : list string) (v : visit) : list ReachabilityFact :=
  omap (λ sink, reachability_fact (v_source v) sink
                  <$> reconstructReachabilityPath (v_parents v) (v_source v) sink) sinks.

Lemma factsForSource_eq source sinks parents skip :
  reachabilityFactsForSource source sinks parents skip =
  if skip then ([], 0%Z, zlen sinks)
  else (omap (λ sink, reachability_fact source sink
                <$> reconstructReachabilityPath parents source sink) sinks, zlen sinks, 0%Z).
Proof.
  unfold zlen. induction sinks as [|sink sinks IH]; [by destruct skip|].
  cbn [reachabilityFactsForSource length]. rewrite IH, Nat2Z.inj_succ. destruct skip; cbn.
  - f_equal; lia.
  - destruct (reconstructReachabilityPath parents source sink); cbn; f_equal; f_equal; lia.
Qed.

Section Reach_fold.
Context (sinks : list string) (incomplete : bool).
Let body (s : reachabilitySearch) (v : visit) : reachabilitySearch :=
  search_source sinks incomplete (v_source v) (v_parents v) (v_hit v) (v_done v) s.

Lemma reach_fold vs s :
  let s' := fold_left body vs s in
  rs_facts s' = rs_facts s
    ++ concat (map (λ v, if v_done v || incomplete then [] else facts_of sinks v) vs)
  ∧ rs_evaluated s' = (rs_evaluated s
      + zlen (List.filter (λ v, negb (v_done v || incomplete)) vs) * zlen sinks)%Z
  ∧ (rs_evaluated s' + rs_truncatedPairs s'
     = rs_evaluated s + rs_truncatedPairs s + zlen vs * zlen sinks)%Z
  ∧ rs_truncatedSearch s' = rs_truncatedSearch s || existsb v_hit vs.
Proof.
  revert s. induction vs as [|v vs IH]; intros s; cbn [fold_left map concat existsb List.filter].
  - rewrite app_nil_r, orb_false_r. unfold zlen. cbn. repeat split; lia.
  - destruct (IH (body s v)) as (-> & He & Ht & ->).
    unfold body, search_source in *. rewrite factsForSource_eq in *.
    destruct (v_done v || incomplete); cbn in *; rewrite <- ?app_assoc, ?orb_assoc;
      (split; [done|]); unfold zlen in *; cbn [length] in *; rewrite ?Nat2Z.inj_succ; split; [lia| |lia|];
      split; [lia|done|lia|done].
Qed.
End Reach_fold.

Lemma reconstruct_sound adjacency v sink p :
  trusted adjacency v → reconstructReachabilityPath (v_parents v) (v_source v) sink = Some p →
  exact_answer adjacency (v_source v) sink (Some p).
Proof. intros H E. specialize (H sink). by rewrite E in H. Qed.

(** Every fact of a visit is right. *)
Lemma facts_of_sound adjacency sinks v f :
  trusted adjacency v → In f (facts_of sinks v) →
  ∃ sink p, In sink sinks ∧ f = reachability_fact (v_source v) sink p
    ∧ exact_answer adjacency (v_source v) sink (Some p).
Proof.
  intros Htr Hin. apply In_omap in Hin as (sink & Hsink & Hfact).
  destruct (reconstructReachabilityPath _ _ _) as [p|] eqn:Hp; [|done]. cbn in Hfact. simplify_eq.
  exists sink, p. split; [done|]. split; [done|]. by apply reconstruct_sound.
Qed.

Lemma facts_of_complete adjacency sinks v sink p :
  trusted adjacency v → In sink sinks → route adjacency (v_source v) sink p →
  ∃ q, In (reachability_fact (v_source v) sink q) (facts_of sinks v).
Proof.
  intros Htr Hsink Hr. specialize (Htr sink).
  destruct (reconstructReachabilityPath _ _ sink) as [q|] eqn:Eq; [|by destruct (Htr p)].
  exists q. apply In_omap. exists sink. by rewrite Eq.
Qed.

(** Visits none of which was cut short are worth all they say. *)
Definition all_done (vs : list visit) : Prop := ∀ v, In v vs → v_done v = false.

Lemma completed_visits adjacency ctx b sources vs broken b' ctx' :
  visits adjacency ctx b sources = (vs, broken, b', ctx') →
  live ctx' → existsb v_hit vs = false →
  all_done vs ∧ map v_source vs = sources ∧ ∀ v, In v vs → trusted adjacency v.
Proof.
  intros Hv Hl Hh. destruct (visits_live _ _ _ _ _ _ _ _ Hv Hl) as [_ Hd].
  assert (all_done vs) as Had by (intros v Hin; apply Hd; [done|]; by eapply existsb_false in Hh).
  split; [done|]. split.
  - destruct broken; [by apply visits_broken in Hv|]. by eapply visits_sources.
  - intros v Hin. eapply visits_trusted; [done|done|by apply Had].
Qed.

Section Search_facts.
Context (ctx : Ctx) (sources sinks : list string) (adjacency : Adjacency) (max : Z) (incomplete : bool).

(** The search as its visits and the totals of [reach_fold]. *)
Lemma search_visits :
  let '(s, _) := searchReachabilityFacts ctx sources sinks adjacency max incomplete in
  ∃ vs broken b' ctx',
    visits adjacency ctx (mkBfsBudget 0 max) sources = (vs, broken, b', ctx')
    ∧ rs_facts s = concat (map (λ v, if v_done v || incomplete then [] else facts_of sinks v) vs)
    ∧ rs_evaluated s = (zlen (List.filter (λ v, negb (v_done v || incomplete)) vs) * zlen sinks)%Z
    ∧ (rs_evaluated s + rs_truncatedPairs s = zlen vs * zlen sinks)%Z
    ∧ rs_nodesVisited s = bb_visited b'
    ∧ (rs_truncatedSearch s = false → live ctx' ∧ existsb v_hit vs = false).
Proof.
  unfold searchReachabilityFacts. rewrite over_sources_visits.
  destruct (visits adjacency ctx (mkBfsBudget 0 max) sources) as [[[vs broken] b'] ctx'] eqn:Hv.
  cbv zeta. destruct (reach_fold sinks incomplete vs (mkReachabilitySearch [] 0 0 0 false)) as (Hf & He & Ht & Hc).
  set (s' := fold_left _ vs _) in *. clearbody s'. cbn in Hf, He, Ht, Hc.
  destruct (if rs_truncatedSearch (if broken then _ else _) then _ else _) as [done ctx''] eqn:Hpoll.
  exists vs, broken, b', ctx'. cbn [rs_facts rs_evaluated rs_truncatedPairs rs_truncatedSearch rs_nodesVisited].
  split; [done|]. destruct broken; cbn in *;
    (split; [done|]; split; [lia|]; split; [lia|]; split; [done|]); [done|].
  intros [Htr Hd]%orb_false_iff. rewrite Htr in Hpoll. subst done.
  split; [unfold live; by rewrite Hpoll|congruence].
Qed.

Lemma search_sound :
  let '(s, _) := searchReachabilityFacts ctx sources sinks adjacency max incomplete in
  (∀ f, In f (rs_facts s) → ∃ source sink p, In source sources ∧ In sink sinks
     ∧ f = reachability_fact source sink p ∧ exact_answer adjacency source sink (Some p))
  ∧ (incomplete = true → rs_facts s = [])
  ∧ (rs_evaluated s + rs_truncatedPairs s ≤ zlen sources * zlen sinks)%Z.
Proof.
  pose proof search_visits as H.
  destruct (searchReachabilityFacts ctx sources sinks adjacency max incomplete) as [s ctx0].
  destruct H as (vs & broken & b' & ctx' & Hv & Hf & He & Ht & _). split; [|split].
  - intros f Hin. rewrite Hf in Hin. apply In_concat_map in Hin as (v & Hvin & Hin).
    destruct (v_done v || incomplete) eqn:Hd; [done|]. apply orb_false_iff in Hd as [Hd _].
    destruct (visits_trusted _ _ _ _ _ _ _ _ v Hv Hvin) as (Hsrc & _ & Htr).
    destruct (facts_of_sound _ _ _ _ (Htr Hd) Hin) as (sink & p & ? & ? & ?). by exists (v_source v), sink, p.
  - intros ->. rewrite Hf. clear. induction vs as [|v vs IH]; [done|]. cbn. by rewrite orb_true_r.
  - rewrite Ht. apply visits_sources in Hv as [Hp%prefix_length _]. rewrite length_map in Hp.
    unfold zlen. nia.
Qed.

(** A search that was not cut off has a fact for every pair joined by a route. *)
Lemma search_complete :
  let '(s, _) := searchReachabilityFacts ctx sources sinks adjacency max incomplete in
  rs_truncatedSearch s = false → incomplete = false →
  rs_evaluated s = (zlen sources * zlen sinks)%Z
  ∧ ∀ source sink p, In source sources → In sink sinks → route adjacency source sink p →
      ∃ q, In (reachability_fact source sink q) (rs_facts s).
Proof.
  pose proof search_visits as H.
  destruct (searchReachabilityFacts ctx sources sinks adjacency max incomplete) as [s ctx0].
  destruct H as (vs & broken & b' & ctx' & Hv & Hf & He & Ht & _ & Hcut). intros Htr ->.
  destruct (Hcut Htr) as [Hlive Hhit].
  destruct (completed_visits _ _ _ _ _ _ _ _ Hv Hlive Hhit) as (Hdone & Hall & Htrust). split.
  - rewrite He, filter_id; [|intros v Hin; by rewrite Hdone]. rewrite <- Hall. unfold zlen. by rewrite length_map.
  - intros source sink p Hsrc Hsink Hr. rewrite <- Hall in Hsrc. apply in_map_iff in Hsrc as (v & <- & Hin).
    destruct (facts_of_complete _ _ _ _ _ (Htrust v Hin) Hsink Hr) as [q Hq]. exists q.
    rewrite Hf. apply In_concat_map. exists v. split; [done|]. by rewrite (Hdone v Hin).
Qed.
End Search_facts.

(** *** Layer bypass *)

Lemma last_poll_truncated s ctx :
  lbs_truncatedSearch (fst (last_poll s ctx)) = lbs_truncatedSearch s || fst (ctx_done ctx).
Proof.
  unfold last_poll. destruct (lbs_truncatedSearch s) eqn:E; [done|].
  destruct (ctx_done ctx) as [done ?]. cbn. by rewrite E.
Qed.

Section Bypass.
Context (algorithm layer : string) (sinks : list string) (nodePositions : Positions).

(** What a visit says of one sink. *)
Definition sink_witness (v : visit) (sink : string) : option LayerBypassWitness :=
  match reconstructReachabilityPath (v_parents v) (v_source v) sink with
  | Some p => if stepPathFullyClassified p nodePositions
              then Some (bypass_witness algorithm layer (v_source v) sink (layerBypassSteps p nodePositions))
              else None
  | None => None
  end.

Definition sink_unclassified (v : visit) (sink : string) : bool :=
  match reconstructReachabilityPath (v_parents v) (v_source v) sink with
  | Some p => negb (stepPathFullyClassified p nodePositions)
  | None => false
  end.

Definition collect_all (v : visit) (skip : bool) (s : layerBypassSearch) : layerBypassSearch :=
  fold_left (collect_sink algorithm (v_source v) (v_parents v) nodePositions layer skip) sinks s.

Lemma collect_all_eq v skip s :
  collect_all v skip s =
  mkLayerBypassSearch (lbs_witnesses s ++ if skip then [] else omap (sink_witness v) sinks)
    (lbs_evaluated s + if skip then 0 else zlen sinks)%Z
    (lbs_truncatedPairs s + if skip then zlen sinks else 0)%Z
    (lbs_nodesVisited s) (lbs_truncatedSearch s)
    (lbs_unclassifiedNodeSeen s || (negb skip && existsb (sink_unclassified v) sinks)).
Proof.
  unfold collect_all, zlen. revert s. induction sinks as [|sink rest IH]; intros [w e t n ts u]; cbn.
  - rewrite andb_false_r, orb_false_r. destruct skip; rewrite ?app_nil_r, !Z.add_0_r; done.
  - rewrite IH. unfold collect_sink, sink_witness, sink_unclassified.
    destruct skip; cbn [lbs_witnesses lbs_evaluated lbs_truncatedPairs lbs_nodesVisited
      lbs_truncatedSearch lbs_unclassifiedNodeSeen negb andb]; [f_equal; lia|].
    destruct (reconstructReachabilityPath _ _ sink) as [p|]; cbn; [|f_equal; lia].
    destruct (stepPathFullyClassified p nodePositions); cbn; rewrite <- ?app_assoc; f_equal; try lia;
      by rewrite ?orb_true_r.
Qed.

(** The loop over the sources; [skipped] tells from whether the source was cut short
    whether its pairs are skipped. *)
Context (skipped : bool → bool) (Hskipped : skipped true = true).

Definition bypass_visit (source : string) (parents : gmap string string) (hit done : bool)
    (s : layerBypassSearch) : layerBypassSearch :=
  collect_all (mkVisit source parents hit done) (skipped done) (set_truncated s hit).

Lemma bypass_fold vs s :
  fold_left (λ s v, bypass_visit (v_source v) (v_parents v) (v_hit v) (v_done v) s) vs s =
  mkLayerBypassSearch
    (lbs_witnesses s ++ concat (map (λ v, if skipped (v_done v) then [] else omap (sink_witness v) sinks) vs))
    (lbs_evaluated s + zlen (List.filter (λ v, negb (skipped (v_done v))) vs) * zlen sinks)%Z
    (lbs_truncatedPairs s + zlen (List.filter (λ v, skipped (v_done v)) vs) * zlen sinks)%Z
    (lbs_nodesVisited s) (lbs_truncatedSearch s || existsb v_hit vs)
    (lbs_unclassifiedNodeSeen s
     || existsb (λ v, negb (skipped (v_done v)) && existsb (sink_unclassified v) sinks) vs).
Proof.
  revert s. induction vs as [|v vs IH]; intros [w e t n ts u].
  - cbn. unfold zlen. cbn. by rewrite app_nil_r, !orb_false_r, !Z.add_0_r.
  - cbn [fold_left]. rewrite IH. unfold bypass_visit. rewrite collect_all_eq.
    unfold set_truncated, zlen. cbn [map concat existsb List.filter lbs_witnesses lbs_evaluated
      lbs_truncatedPairs lbs_nodesVisited lbs_truncatedSearch lbs_unclassifiedNodeSeen].
    rewrite <- app_assoc, !orb_assoc.
    destruct v as [source parents hit done]. cbn [v_done v_hit v_source v_parents].
    destruct (skipped done); cbn [negb length]; rewrite ?Nat2Z.inj_succ; f_equal; lia.
Qed.

Context (adjacency : Adjacency) (ctx : Ctx) (max : Z) (sources : list string).

Definition bypass_run : layerBypassSearch * bfsBudget * Ctx :=
  over_sources (λ s, set_truncated s true) bypass_visit adjacency ctx (mkBfsBudget 0 max) sources no_search.

(** A witness comes from a trusted visit: its path is a shortest route of the searched
    graph whose nodes before the sink are all classified. *)
Lemma bypass_run_sound :
  let '(s, _, _) := bypass_run in
  (∀ w, In w (lbs_witnesses s) → ∃ source sink p, In source sources ∧ In sink sinks
     ∧ w = bypass_witness algorithm layer source sink (layerBypassSteps p nodePositions)
     ∧ stepPathFullyClassified p nodePositions = true
     ∧ exact_answer adjacency source sink (Some p))
  ∧ (skipped false = true → lbs_witnesses s = [])
  ∧ (lbs_evaluated s + lbs_truncatedPairs s ≤ zlen sources * zlen sinks)%Z.
Proof.
  unfold bypass_run. rewrite over_sources_visits.
  destruct (visits adjacency ctx (mkBfsBudget 0 max) sources) as [[[vs broken] b'] ctx'] eqn:Hv.
  cbv zeta. rewrite bypass_fold.
  assert (∀ (P : layerBypassSearch → Prop) s, P s → P (set_truncated s true) →
    P (if broken then set_truncated s true else s)) as Hcase by (by destruct broken).
  apply Hcase; clear Hcase; cbn [set_truncated lbs_witnesses lbs_evaluated lbs_truncatedPairs no_search app].
  all: split; [|split].
  all: try (intros Hs; clear -Hs Hskipped; induction vs as [|v vs IH]; [done|]; cbn; rewrite IH;
            destruct (v_done v); by rewrite ?Hs, ?Hskipped).
  all: try (pose proof (filter_length_split (λ v, skipped (v_done v)) vs) as Hlen;
            apply visits_sources in Hv as [Hp%prefix_length _]; rewrite length_map in Hp;
            unfold zlen; nia).
  all: intros w Hin; apply In_concat_map in Hin as (v & Hvin & Hin);
    destruct (skipped (v_done v)) eqn:Hd; [done|];
    apply In_omap in Hin as (sink & Hsink & Hw); unfold sink_witness in Hw;
    destruct (reconstructReachabilityPath _ _ sink) as [p|] eqn:Hp; [|done];
    destruct (stepPathFullyClassified p nodePositions) eqn:Hcl; simplify_eq;
    destruct (visits_trusted _ _ _ _ _ _ _ _ v Hv Hvin) as (Hsrc & _ & Htr);
    exists (v_source v), sink, p; split; [done|]; split; [done|]; split; [done|]; split; [done|];
    apply reconstruct_sound; [|done]; apply Htr; destruct (v_done v); [congruence|done].
Qed.

(** A search that was not cut off has, for every pair joined by a route, a witness, or
    it has met a route with an unclassified node. *)
Lemma bypass_run_complete :
  let '(s, _, ctx') := bypass_run in
  lbs_truncatedSearch (fst (last_poll s ctx')) = false → skipped false = false →
  lbs_evaluated s = (zlen sources * zlen sinks)%Z
  ∧ ∀ source sink p, In source sources → In sink sinks → route adjacency source sink p →
      lbs_unclassifiedNodeSeen s = true
      ∨ ∃ w, In w (lbs_witnesses s) ∧ lbw_Source w = source ∧ lbw_Sink w = sink.
Proof.
  unfold bypass_run. rewrite over_sources_visits.
  destruct (visits adjacency ctx (mkBfsBudget 0 max) sources) as [[[vs broken] b'] ctx'] eqn:Hv.
  cbv zeta. rewrite bypass_fold. intros Htr Hs.
  assert (live ctx' ∧ existsb v_hit vs = false ∧ broken = false) as (Hlive & Hhit & ->).
  { rewrite last_poll_truncated in Htr. apply orb_false_iff in Htr as [Htr Hl].
    destruct broken; cbn in Htr; [by rewrite orb_true_r in Htr|done]. }
  destruct (completed_visits _ _ _ _ _ _ _ _ Hv Hlive Hhit) as (Hdone & Hall & Htrust).
  cbn [lbs_witnesses lbs_evaluated lbs_unclassifiedNodeSeen no_search orb app]. split.
  - rewrite filter_id; [|intros v Hin; by rewrite (Hdone v Hin), Hs]. rewrite <- Hall. unfold zlen. by rewrite length_map.
  - intros source sink p Hsrc Hsink Hr. rewrite <- Hall in Hsrc. apply in_map_iff in Hsrc as (v & <- & Hin).
    specialize (Htrust v Hin sink).
    destruct (reconstructReachabilityPath _ _ sink) as [q|] eqn:Eq; [|by destruct (Htrust p)].
    destruct (stepPathFullyClassified q nodePositions) eqn:Hcl.
    + right. exists (bypass_witness algorithm layer (v_source v) sink (layerBypassSteps q nodePositions)).
      split; [|done]. apply In_concat_map. exists v. split; [done|]. rewrite (Hdone v Hin), Hs.
      apply In_omap. exists sink. split; [done|]. unfold sink_witness. by rewrite Eq, Hcl.
    + left. apply existsb_exists. exists v. split; [done|]. rewrite (Hdone v Hin), Hs. cbn.
      apply existsb_exists. exists sink. split; [done|]. unfold sink_unclassified. by rewrite Eq, Hcl.
Qed.
End Bypass.

(** Both languages run this search. *)
Lemma over_sources_ext {S} (stop : S → S) f g adjacency ctx b sources s :
  (∀ source parents hit done s, f source parents hit done s = g source parents hit done s) →
  over_sources stop f adjacency ctx b sources s = over_sources stop g adjacency ctx b sources s.
Proof.
  intros H. revert ctx b s. induction sources as [|source rest IH]; intros ctx b s; [done|].
  cbn [over_sources]. destruct (ctx_done ctx) as [[] ctx1]; [done|].
  destruct (shortestPaths ctx1 b source adjacency) as [[[parents hit] b1] ctx2].
  destruct (if hit then (true, ctx2) else ctx_done ctx2) as [done ctx3]. by rewrite IH, H.
Qed.

Lemma go_search_eq ctx sources sinks adjacency nodePositions opts incomplete dirsComplete :
  searchLayerBypassWitnesses ctx sources sinks adjacency nodePositions opts incomplete dirsComplete false
  = let '(s, b, ctx') := bypass_run LayerBypassAlgorithm (bl_Name (lbo_RequiredLayer opts)) sinks nodePositions
        (λ done, done || incomplete || negb dirsComplete) adjacency ctx (lbo_MaxSearchNodes opts) sources in
    let '(s, ctx') := last_poll s ctx' in (set_visited s (bb_visited b), ctx').
Proof. reflexivity. Qed.

Lemma ts_search_eq ctx sources sinks adjacency nodePositions layer :
  tsLayerBypassRunSearch ctx sources sinks adjacency nodePositions layer false
  = let '(s, b, ctx') := bypass_run TSLayerBypassAlgorithm (bl_Name layer) sinks nodePositions
        (λ done, done) adjacency ctx 0 sources in
    let '(s, ctx') := last_poll s ctx' in (set_visited s (bb_visited b), ctx').
Proof.
  unfold tsLayerBypassRunSearch, searchSources, bypass_run.
  erewrite (over_sources_ext _ _ (bypass_visit TSLayerBypassAlgorithm (bl_Name layer) sinks nodePositions
    (λ done, done))).
  - destruct (over_sources _ _ _ _ _ _ _) as [[[w e t n [] u] b] ctx']; [done|].
    unfold last_poll, set_visited, set_truncated. cbn. by destruct (ctx_done ctx') as [[] ctx''].
  - intros source parents hit done [w e t n ts u]. unfold tsLayerBypassSearchFromSource, bypass_visit.
    change (fold_left _ sinks (set_truncated no_search hit)) with
      (collect_all TSLayerBypassAlgorithm (bl_Name layer) sinks nodePositions (mkVisit source parents hit done)
         done (set_truncated no_search hit)).
    rewrite !collect_all_eq. unfold add_source, set_truncated. cbn.
    rewrite ?Z.add_0_r. done.
Qed.

Lemma removelast_snoc_In {A} (p : list A) x : In x (removelast p) → In x p.
Proof.
  induction p as [|y p IH]; [done|]. destruct p as [|z p]; [done|].
  intros [<-|Hx]; [by left|]. right. by apply IH.
Qed.

Lemma last_In {A} (p : list A) x : list.last p = Some x → In x p.
Proof. intros H. by apply list_elem_of_In, last_Some_elem_of. Qed.

Lemma requiredLayerNodeSet_spec layer positions node :
  node ∈ requiredLayerNodeSet layer positions ↔
  ∃ pos, positions !! node = Some pos ∧ layerBypassContainsDir layer (np_Dir pos) = true.
Proof.
  unfold requiredLayerNodeSet. rewrite elem_of_dom. unfold is_Some.
  setoid_rewrite map_lookup_filter_Some. naive_solver.
Qed.

(** The path of a witness by its node identities. *)
Definition witness_nodes (w : LayerBypassWitness) : list string := map lbs_NodeID (lbw_Path w).

Lemma witness_nodes_steps algorithm layer source sink p positions :
  witness_nodes (bypass_witness algorithm layer source sink (layerBypassSteps p positions)) = p.
Proof.
  unfold witness_nodes. cbn. unfold layerBypassSteps. rewrite map_map. apply map_fixed.
  intros x _. by destruct (positions !! x).
Qed.

(** What a witness proves: its path is a route of the call graph from source to sink,
    every node of it before the sink has a known position, and none lies in the layer
    (the source itself may when it is the sink, since then no call was followed). *)
Definition avoids_layer (calls : list CallFact) (positions : Positions) (layer : BypassLayer)
    (w : LayerBypassWitness) : Prop :=
  route (buildCallGraphAdjacency calls) (lbw_Source w) (lbw_Sink w) (witness_nodes w)
  ∧ (∀ node, In node (removelast (witness_nodes w)) →
      ∃ pos, positions !! node = Some pos ∧ layerBypassContainsDir layer (np_Dir pos) = false)
  ∧ (lbw_Source w ≠ lbw_Sink w → ∀ node, In node (witness_nodes w) → node ∉ requiredLayerNodeSet layer positions).

Lemma route_removed calls removed source sink p :
  route (removeLayerNodesFromAdjacency (buildCallGraphAdjacency calls) removed) source sink p →
  route (buildCallGraphAdjacency calls) source sink p
  ∧ (2 ≤ length p → ∀ x, x ∈ p → x ∉ removed).
Proof.
  intros (Hh & Hl & Hp). split.
  - split; [done|]. split; [done|]. eapply links_mono; [|exact Hp]. intros a b He.
    by destruct (proj1 (removed_edge _ _ _ _) He).
  - intros Hlen x Hx. by eapply removed_links.
Qed.

Lemma route_short adjacency source sink p : route adjacency source sink p → ¬ 2 ≤ length p → source = sink ∧ p = [source].
Proof.
  intros (Hh & Hl & _) Hlen. destruct p as [|x [|y p]]; [done| |cbn in Hlen; lia].
  cbn in Hh, Hl. by simplify_eq.
Qed.

Lemma bypass_avoids algorithm calls positions layer source sink p :
  stepPathFullyClassified p positions = true →
  route (removeLayerNodesFromAdjacency (buildCallGraphAdjacency calls) (requiredLayerNodeSet layer positions))
    source sink p →
  avoids_layer calls positions layer
    (bypass_witness algorithm (bl_Name layer) source sink (layerBypassSteps p positions)).
Proof.
  intros Hcl Hr. destruct (route_removed _ _ _ _ _ Hr) as [Hroute Havoid]. unfold avoids_layer.
  rewrite witness_nodes_steps. cbn [bypass_witness lbw_Source lbw_Sink]. split; [done|].
  assert (source ≠ sink → ∀ node, In node p → node ∉ requiredLayerNodeSet layer positions) as Hne.
  { intros Hns node Hin. apply Havoid; [|by apply list_elem_of_In].
    destruct (decide (2 ≤ length p)) as [|Hlen]; [done|]. by destruct (route_short _ _ _ _ Hr Hlen). }
  split; [|done]. intros node Hin. unfold stepPathFullyClassified in Hcl.
  rewrite forallb_forall in Hcl. pose proof (Hcl node Hin) as [pos Hpos]%bool_decide_eq_true.
  exists pos. split; [done|]. destruct (layerBypassContainsDir layer (np_Dir pos)) eqn:Ed; [|done].
  destruct (decide (2 ≤ length p)) as [Hlen|Hlen].
  - exfalso. apply (Havoid Hlen node); [by apply list_elem_of_In, removelast_snoc_In|].
    apply requiredLayerNodeSet_spec. eauto.
  - destruct (route_short _ _ _ _ Hr Hlen) as [_ ->]. done.
Qed.

Lemma containsDiagnosticCode_spec diags c :
  containsDiagnosticCode diags c = true ↔ ∃ d, In d diags ∧ dd_Code d = c.
Proof.
  induction diags as [|d diags IH]; cbn; [split; [done|by intros (? & [] & _)]|].
  destruct (String.eqb_spec (dd_Code d) c) as [E|E]; [split; [eauto|done]|]. rewrite IH. split.
  - intros (d' & ? & ?). eauto.
  - intros (d' & [<-|?] & ?); [done|eauto].
Qed.

(** A code among the diagnostics of a canonical coverage. *)
Definition reports (c : ProjCoverage) (code : string) : Prop :=
  ∃ d, In d (pc_Diagnostics c) ∧ dd_Code d = code.

Lemma reports_canonical c code :
  reports (CanonicalCoverage c) code ↔ containsDiagnosticCode (pc_Diagnostics c) code = true.
Proof.
  unfold reports. cbn. setoid_rewrite stable_sort_In. by rewrite containsDiagnosticCode_spec.
Qed.

Lemma contains_app diags d :
  containsDiagnosticCode (diags ++ [d]) (dd_Code d) = true.
Proof. apply containsDiagnosticCode_spec. exists d. split; [apply in_app_iff; right; by left|done]. Qed.

Lemma contains_more diags d c :
  containsDiagnosticCode diags c = true → containsDiagnosticCode (diags ++ [d]) c = true.
Proof.
  intros (d' & ? & ?)%containsDiagnosticCode_spec. apply containsDiagnosticCode_spec.
  exists d'. split; [apply in_app_iff; by left|done].
Qed.

(** An unclassified node, or an ambiguous layer, is always reported as such, and a
    search that was cut off as a budget exceeded. *)
Lemma bypass_diagnostics_spec base ambig unclassified truncated :
  (ambig || unclassified = true →
   containsDiagnosticCode (tsLayerBypassDiagnostics base ambig unclassified truncated)
     DiagLayerBypassAmbiguousLayer = true)
  ∧ (truncated = true →
   containsDiagnosticCode (tsLayerBypassDiagnostics base ambig unclassified truncated)
     DiagLayerBypassBudgetExceeded = true).
Proof.
  unfold tsLayerBypassDiagnostics.
  set (diags := if ambig then _ else _).
  assert (ambig || unclassified = true → containsDiagnosticCode diags DiagLayerBypassAmbiguousLayer = true) as H.
  { unfold diags. destruct ambig, unclassified; cbn; try done; intros _;
      try apply (contains_app base (code_diagnostic DiagLayerBypassAmbiguousLayer)).
    destruct (containsDiagnosticCode base _) eqn:E; [done|].
    apply (contains_app base (code_diagnostic DiagLayerBypassAmbiguousLayer)). }
  clearbody diags. destruct truncated; cbn; [|by split].
  destruct (containsDiagnosticCode diags DiagLayerBypassBudgetExceeded) eqn:E; cbn; split; try done.
  - intros Hu. by apply contains_more, H.
  - intros _. apply (contains_app diags (code_diagnostic DiagLayerBypassBudgetExceeded)).
Qed.

Lemma ambiguous_true layer matched : ambiguous layer matched = false → matched = true.
Proof. unfold ambiguous. destruct (bl_Prefixes layer); [done|]. by intros ?%negb_false_iff. Qed.

Lemma links_avoiding adjacency removed source sink p :
  route adjacency source sink p → (∀ x, x ∈ p → x ∉ removed) →
  route (removeLayerNodesFromAdjacency adjacency removed) source sink p.
Proof. intros (Hh & Hl & Hp) Hx. split; [done|]. split; [done|]. by apply links_removed. Qed.

(** What a layer-bypass result means, for both languages. *)
Definition bypass_result_exact (calls : list CallFact) (positions : Positions) (layer : BypassLayer)
    (sinks : list string) (r : LayerBypassResult) : Prop :=
  (∀ w, In w (lbr_Witnesses r) →
     avoids_layer calls positions layer w ∧ In (lbw_Source w) (lbr_Sources r) ∧ In (lbw_Sink w) sinks
     ∧ lbw_Confidence w = LayerBypassConfidenceHigh)
  ∧ (pc_Complete (lbr_Coverage r) = true → ¬ reports (lbr_Coverage r) DiagLayerBypassAmbiguousLayer →
     ∀ source sink p, In source (lbr_Sources r) → In sink sinks →
       route (buildCallGraphAdjacency calls) source sink p →
       (∀ x, x ∈ p → x ∉ requiredLayerNodeSet layer positions) →
       ∃ w, In w (lbr_Witnesses r) ∧ lbw_Source w = source ∧ lbw_Sink w = sink).

(** A search over the graph without the layer's nodes, assembled with its markers. *)
Lemma bypass_assembled algorithm calls positions layer sinks sources skipped ctx max
    (complete : bool) phase counts budgets base s b ctx' :
  skipped true = true →
  bypass_run algorithm (bl_Name layer) sinks positions skipped
    (removeLayerNodesFromAdjacency (buildCallGraphAdjacency calls) (requiredLayerNodeSet layer positions))
    ctx max sources = (s, b, ctx') →
  let s' := fst (last_poll s ctx') in
  (complete = true → skipped false = false ∧ lbs_truncatedSearch s' = false) →
  bypass_result_exact calls positions layer sinks
    (mkLayerBypassResult (stable_sort witness_pair_less (lbs_witnesses s')) sources algorithm
       (CanonicalCoverage (mkProjCoverage phase complete counts budgets
          (tsLayerBypassDiagnostics base false (lbs_unclassifiedNodeSeen s') (lbs_truncatedSearch s'))))).
Proof.
  intros Hskip Hrun s' Hcomplete.
  pose proof (bypass_run_sound algorithm (bl_Name layer) sinks positions skipped Hskip
    (removeLayerNodesFromAdjacency (buildCallGraphAdjacency calls) (requiredLayerNodeSet layer positions))
    ctx max sources) as Hsound.
  pose proof (bypass_run_complete algorithm (bl_Name layer) sinks positions skipped
    (removeLayerNodesFromAdjacency (buildCallGraphAdjacency calls) (requiredLayerNodeSet layer positions))
    ctx max sources) as Hfull.
  rewrite Hrun in Hsound, Hfull. fold s' in Hfull. destruct Hsound as (Hsound & _ & _).
  assert (lbs_witnesses s' = lbs_witnesses s ∧ lbs_unclassifiedNodeSeen s' = lbs_unclassifiedNodeSeen s)
    as [Ew Eu].
  { unfold s', last_poll. destruct (lbs_truncatedSearch s); [done|]. by destruct (ctx_done ctx'). }
  split; cbn [lbr_Witnesses lbr_Sources lbr_Coverage].
  - intros w. rewrite stable_sort_In, Ew. intros Hw.
    destruct (Hsound w Hw) as (source & sink & p & Hsrc & Hsink & -> & Hcl & Hr & _).
    split; [by apply bypass_avoids|]. done.
  - intros Hc Hamb source sink p Hsrc Hsink Hr Hx. cbn in Hc. destruct (Hcomplete Hc) as [Hs Ht].
    destruct (Hfull Ht Hs) as [_ Hpairs].
    destruct (Hpairs source sink p Hsrc Hsink (links_avoiding _ _ _ _ _ Hr Hx)) as [Hu|(w & Hw & ? & ?)].
    + destruct Hamb. apply reports_canonical. cbn.
      apply (proj1 (bypass_diagnostics_spec base false _ _)). by rewrite Eu, Hu.
    + exists w. by rewrite stable_sort_In, Ew.
Qed.

Lemma ambiguous_exact calls positions layer sinks sources algorithm phase counts budgets diags :
  bypass_result_exact calls positions layer sinks
    (mkLayerBypassResult (stable_sort witness_pair_less (lbs_witnesses (ambiguous_search sources sinks)))
       sources algorithm (CanonicalCoverage (mkProjCoverage phase false counts budgets diags))).
Proof. split; [by intros w []|done]. Qed.

(** ** Properties *)

(** The call graph as a graph. *)
Definition calls_of (callGraph : CallGraphResult) : Adjacency :=
  buildCallGraphAdjacency (cg_CallFacts callGraph).

(** A reachability fact is a shortest route through the call graph from a handler
    to a pinned database call, whatever was cut short; and when the coverage is complete
    there is a fact for a pair exactly when a route joins it, every pair was evaluated,
    and a call graph that is incomplete yields no fact at all. *)
Theorem go_reachability_exact ctx discovery roots callGraph opts me :
  let r := fst (BuildGoReachability ctx discovery roots callGraph opts me) in
  (∀ f, In f (rr_Facts r) →
     In (rf_Source f) (rr_Sources r) ∧ In (rf_Sink f) ReachabilitySinkPatterns
     ∧ route (calls_of callGraph) (rf_Source f) (rf_Sink f) (rf_Path f)
     ∧ ∀ p, route (calls_of callGraph) (rf_Source f) (rf_Sink f) p → length (rf_Path f) ≤ length p)
  ∧ (pc_Complete (cg_Coverage callGraph) = false → rr_Facts r = [])
  ∧ (pc_Complete (rr_Coverage r) = true →
     count (pc_Counts (rr_Coverage r)) "source_sink_pairs_evaluated"
       = count (pc_Counts (rr_Coverage r)) "source_sink_pairs_total"
     ∧ ∀ source sink, In source (rr_Sources r) → In sink ReachabilitySinkPatterns →
         (∃ f, In f (rr_Facts r) ∧ rf_Source f = source ∧ rf_Sink f = sink)
         ↔ ∃ p, route (calls_of callGraph) source sink p).
Proof.
  cbv zeta. unfold BuildGoReachability.
  destruct (findGoReachabilitySourcesFromLoaded _ _ _) as [[[sources sc] sd] ctx1].
  set (sinks := sort_strings ReachabilitySinkPatterns).
  pose proof (search_sound ctx1 sources sinks (calls_of callGraph) (ro_MaxSearchNodes opts)
    (negb (pc_Complete (cg_Coverage callGraph)))) as Hsound.
  pose proof (search_complete ctx1 sources sinks (calls_of callGraph) (ro_MaxSearchNodes opts)
    (negb (pc_Complete (cg_Coverage callGraph)))) as Hfull.
  fold (calls_of callGraph).
  destruct (searchReachabilityFacts _ _ _ _ _ _) as [s ctx2]. destruct Hsound as (Hs & Hi & _).
  assert (∀ x, In x sinks ↔ In x ReachabilitySinkPatterns) as Hsinks by (intros; apply stable_sort_In).
  cbn [fst rr_Facts rr_Sources rr_Coverage CanonicalCoverage pc_Complete pc_Counts].
  setoid_rewrite stable_sort_In. split; [|split].
  - intros f Hf. destruct (Hs f Hf) as (source & sink & p & ? & ?%Hsinks & -> & Hr & Hmin). done.
  - intros E. rewrite E in Hi. by rewrite Hi.
  - intros [[Hc _]%andb_true_iff Ht%negb_true_iff]%andb_true_iff. rewrite Hc in Hfull.
    destruct (Hfull Ht eq_refl) as [He Hall]. split; [exact He|].
    intros source sink Hsrc Hsink. split.
    + intros (f & Hf & <- & <-). destruct (Hs f Hf) as (? & ? & p & _ & _ & -> & Hr & _). by exists p.
    + intros [p Hr]. destruct (Hall source sink p Hsrc) as [q Hq]; [by apply Hsinks|done|]. by eexists.
Qed.

(** The positions a Go bypass run classifies nodes by. *)
Definition go_positions (ctx : Ctx) (discovery : bool) (roots : list loadedGoRoot) : Positions :=
  let '(_, _, _, ctx) := findGoReachabilitySourcesFromLoaded ctx discovery roots in
  fst (fst (fst (layerBypassNodePackageDirsFromLoaded ctx discovery roots))).

Lemma go_bypass_search_exact ctx discovery roots callGraph opts me :
  bypass_result_exact (cg_CallFacts callGraph) (go_positions ctx discovery roots)
    (lbo_RequiredLayer opts) (sort_strings ReachabilitySinkPatterns)
    (fst (BuildGoLayerBypass ctx discovery roots callGraph opts me)).
Proof.
  unfold BuildGoLayerBypass, go_positions.
  destruct (findGoReachabilitySourcesFromLoaded _ _ _) as [[[sources sc] sd] ctx1].
  destruct (layerBypassNodePackageDirsFromLoaded _ _ _) as [[[positions dc] dd] ctx2]. cbn [fst].
  set (sinks := sort_strings ReachabilitySinkPatterns).
  destruct (ambiguous _ _) eqn:Hamb.
  - cbn [searchLayerBypassWitnesses fst]. unfold assembleLayerBypassResult.
    cbn [ambiguous_search lbs_truncatedSearch negb]. rewrite andb_false_r. apply ambiguous_exact.
  - rewrite go_search_eq.
    destruct (bypass_run _ _ _ _ _ _ _ _) as [[s b] ctx3] eqn:Hrun.
    destruct (last_poll s ctx3) as [s' ctx4] eqn:Hpoll. cbn [fst]. unfold assembleLayerBypassResult.
    replace s' with (fst (last_poll s ctx3)) by (by rewrite Hpoll). clear Hpoll.
    unfold set_visited. cbn [lbs_witnesses lbs_truncatedSearch lbs_unclassifiedNodeSeen].
    eapply bypass_assembled; [|exact Hrun|]; [done|].
    intros [[[-> _]%andb_true_iff ->]%andb_true_iff Ht%negb_true_iff]%andb_true_iff. done.
Qed.


(** The same for TypeScript models. *)
Theorem ts_layer_bypass_exact ctx model layer :
  let reached := default [] (m_ReachabilityFacts model) in
  let calls := default [] (m_CallFacts model) in
  bypass_result_exact calls (tsLayerBypassNodePositions calls) layer (tsLayerBypassSinks reached)
    (fst (BuildTypeScriptLayerBypassFromModel ctx model layer)).
Proof.
  cbv zeta. unfold BuildTypeScriptLayerBypassFromModel, tsLayerBypassRequiredLayerNodes.
  set (sources := tsReachabilitySourcesReachedASink _). set (sinks := tsLayerBypassSinks _).
  set (positions := tsLayerBypassNodePositions _).
  destruct (ambiguous _ _) eqn:Hamb.
  - cbn [tsLayerBypassRunSearch fst last_poll ambiguous_search lbs_truncatedSearch negb].
    rewrite andb_false_r. apply ambiguous_exact.
  - rewrite ts_search_eq.
    destruct (bypass_run _ _ _ _ _ _ _ _) as [[s b] ctx3] eqn:Hrun.
    destruct (last_poll s ctx3) as [s' ctx4] eqn:Hpoll. cbn [fst].
    replace s' with (fst (last_poll s ctx3)) by (by rewrite Hpoll). clear Hpoll.
    unfold set_visited. cbn [lbs_witnesses lbs_truncatedSearch lbs_unclassifiedNodeSeen].
    eapply bypass_assembled; [|exact Hrun|]; [done|].
    intros [_ Ht%negb_true_iff]%andb_true_iff. done.
Qed.

(** From the search to the report.  Every layer-bypass change that is reported for
    Go comes from a witness that avoids the layer, and when the search was complete and
    unambiguous and no change is reported, then no route around the layer joins a
    handler to a database call. *)
Theorem reported_bypass_real ctx discovery roots callGraph opts me rv bv cd :
  let r := fst (BuildGoLayerBypass ctx discovery roots callGraph opts me) in
  let changes := fst (EvaluateGoLayerBypass r rv bv cd) in
  (∀ c, In c changes → ∃ w, c = layerBypassChange w rv bv cd ""
     ∧ avoids_layer (cg_CallFacts callGraph) (go_positions ctx discovery roots) (lbo_RequiredLayer opts) w)
  ∧ (changes = [] → pc_Complete (lbr_Coverage r) = true →
     ¬ reports (lbr_Coverage r) DiagLayerBypassAmbiguousLayer →
     ∀ source sink p, In source (lbr_Sources r) → In sink ReachabilitySinkPatterns →
       route (calls_of callGraph) source sink p →
       ∃ x, x ∈ p ∧ x ∈ requiredLayerNodeSet (lbo_RequiredLayer opts) (go_positions ctx discovery roots)).
Proof.
  cbv zeta. destruct (go_bypass_search_exact ctx discovery roots callGraph opts me) as [Hs Hf].
  destruct (BuildGoLayerBypass ctx discovery roots callGraph opts me) as [r ctx']. cbn [fst] in *.
  assert (∀ w, In w (highConfidenceWitnessesBySourceSink (lbr_Witnesses r)) ↔ In w (lbr_Witnesses r)) as Hhigh.
  { intros w. unfold highConfidenceWitnessesBySourceSink. rewrite stable_sort_In, filter_In. split; [tauto|].
    intros Hw. split; [done|]. destruct (Hs w Hw) as (_ & _ & _ & ->). done. }
  cbn [EvaluateGoLayerBypass evaluate_bypass fst]. split.
  - intros c (w & <- & Hw%Hhigh)%in_map_iff. exists w. split; [done|]. destruct (Hs w Hw) as [H _]. exact H.
  - intros Hnil Hc Hamb source sink p Hsrc Hsink Hr. apply map_eq_nil in Hnil.
    destruct (Exists_dec (λ x, x ∈ requiredLayerNodeSet (lbo_RequiredLayer opts) (go_positions ctx discovery roots)) p)
      as [Hx|Hx]; [intros; apply decide; apply _|by apply list.Exists_exists in Hx|].
    destruct (Hf Hc Hamb source sink p Hsrc) as (w & Hw & _); [by apply stable_sort_In|done| |].
    + intros x Hin Hin'. apply Hx. apply list.Exists_exists. eauto.
    + apply Hhigh in Hw. by rewrite Hnil in Hw.
Qed.

(** ** Witnesses *)

(** A handler that reaches the database twice: through the service, and around it. *)
Definition example_graph : CallGraphResult :=
  mkCallGraphResult
    [mkCallFact "app.Handler" "svc.Load"; mkCallFact "svc.Load" "(*database/sql.DB).Query";
     mkCallFact "app.Handler" "app.helper"; mkCallFact "app.helper" "(*database/sql.DB).Exec";
     mkCallFact "app.helper" "app.Handler"] "go-callgraph"
    (mkProjCoverage "go_callgraph" true ∅ ∅ []).

Definition example_root : loadedGoRoot :=
  mkLoadedGoRoot "." None false true
    [mkLocalFunction "app.Handler" true (Some (mkNodePosition "app" "app/handler.go" 10));
     mkLocalFunction "app.helper" false (Some (mkNodePosition "app" "app/helper.go" 3));
     mkLocalFunction "svc.Load" false (Some (mkNodePosition "service" "service/load.go" 7))].

Definition example_budgets : GoBudgets := mkGoBudgets 0 0 0 0 0 0.
Definition example_measured : measured := mkMeasured 1 0 0.
Definition example_opts : LayerBypassOptions :=
  mkLayerBypassOptions (mkBypassLayer "service" ["service"]) [] example_budgets 0.

Example reachability_example :
  let r := fst (BuildGoReachability None true [example_root] example_graph
                  (mkReachabilityOptions [] example_budgets 0) example_measured) in
  (map (λ f, (rf_Sink f, rf_Path f)) (rr_Facts r), pc_Complete (rr_Coverage r))
  = ([("(*database/sql.DB).Exec", ["app.Handler"; "app.helper"; "(*database/sql.DB).Exec"]);
      ("(*database/sql.DB).Query", ["app.Handler"; "svc.Load"; "(*database/sql.DB).Query"])], true).
Proof. vm_compute. reflexivity. Qed.

Example bypass_example :
  let r := fst (BuildGoLayerBypass None true [example_root] example_graph example_opts example_measured) in
  (map (λ w, (lbw_Sink w, map (λ s, (lbs_Path s, lbs_Line s)) (lbw_Path w))) (lbr_Witnesses r),
   pc_Complete (lbr_Coverage r), count (pc_Counts (lbr_Coverage r)) "source_sink_pairs_evaluated")
  = ([("(*database/sql.DB).Exec", [("app/handler.go", 10); ("app/helper.go", 3); ("", 0)])], true, 4)%Z.
Proof. vm_compute. reflexivity. Qed.

(** A search cut off at its second poll finds nothing and says so. *)
Example bypass_cut_off :
  let r := fst (BuildGoLayerBypass (Some 10) true [example_root] example_graph example_opts example_measured) in
  (lbr_Witnesses r, pc_Complete (lbr_Coverage r), map dd_Code (pc_Diagnostics (lbr_Coverage r)))
  = ([], false, [DiagLayerBypassBudgetExceeded]).
Proof. vm_compute. reflexivity. Qed.

(** Without the bypass, nothing is reported: then every route passes the layer. *)
Definition compliant_graph : CallGraphResult :=
  mkCallGraphResult
    [mkCallFact "app.Handler" "svc.Load"; mkCallFact "svc.Load" "(*database/sql.DB).Query"] "go-callgraph"
    (mkProjCoverage "go_callgraph" true ∅ ∅ []).

Lemma go_reachability_exact_witness :
  ∃ p, route (calls_of example_graph) "app.Handler" "(*database/sql.DB).Exec" p.
Proof.
  pose proof (go_reachability_exact None true [example_root] example_graph
    (mkReachabilityOptions [] example_budgets 0) example_measured) as H.
  destruct (proj2 (proj2 H)) as [_ Hpairs]; [vm_compute; reflexivity|].
  apply (Hpairs "app.Handler" "(*database/sql.DB).Exec").
  - vm_compute. by left.
  - by left.
  - exists (reachability_fact "app.Handler" "(*database/sql.DB).Exec"
      ["app.Handler"; "app.helper"; "(*database/sql.DB).Exec"]).
    split; [vm_compute; by left|done].
Defined.


(** The same graph of TypeScript nodes, where [src/service] is the required layer. *)
Definition example_ts_model : Model :=
  {| m_SchemaVersion := ""; m_Repository := "";
     m_Snapshot := mkSnapshot "" "" "" "" "" []; m_Workspaces := []; m_Modules := []; m_Packages := [];
     m_Files := [mkFile "" "src/service/load.ts" "" "" ""]; m_ImportEdges := [];
     m_CallFacts := Some [mkCallFact "file:src/app.ts#GET" "(PrismaClient).findMany"];
     m_ReachabilityFacts := Some [mkReachabilityFact "" "" "" "file:src/app.ts#GET" "(PrismaClient).findMany" [] ""];
     m_RootScopes := []; m_Coverage := mkProjCoverage "ts" true ∅ ∅ [] |}.

Lemma ts_layer_bypass_exact_witness :
  ∃ w, In w (lbr_Witnesses (fst (BuildTypeScriptLayerBypassFromModel None example_ts_model
                                  (mkBypassLayer "service" ["src/service"]))))
    ∧ lbw_Source w = "file:src/app.ts#GET" ∧ lbw_Sink w = "(PrismaClient).findMany".
Proof.
  destruct (ts_layer_bypass_exact None example_ts_model (mkBypassLayer "service" ["src/service"])) as [_ H].
  apply (H ltac:(vm_compute; reflexivity)) with (p := ["file:src/app.ts#GET"; "(PrismaClient).findMany"]).
  - intros (d & Hd & _). vm_compute in Hd. exact Hd.
  - vm_compute. by left.
  - vm_compute. by left.
  - vm_compute. repeat split; by left.
  - intros x Hx Hin. apply requiredLayerNodeSet_spec in Hin as (pos & Hpos & Hdir).
    apply list_elem_of_In in Hx. destruct Hx as [<-|[<-|[]]]; vm_compute in Hpos; simplify_eq;
      vm_compute in Hdir; done.
Defined.

(** The compliant handler passes the service on its way to the database. *)
Lemma reported_bypass_real_witness :
  ∃ x, x ∈ ["app.Handler"; "svc.Load"; "(*database/sql.DB).Query"]
    ∧ x ∈ requiredLayerNodeSet (lbo_RequiredLayer example_opts) (go_positions None true [example_root]).
Proof.
  apply (proj2 (reported_bypass_real None true [example_root] compliant_graph example_opts example_measured "" "" ""))
    with (source := "app.Handler") (sink := "(*database/sql.DB).Query").
  - vm_compute. reflexivity.
  - vm_compute. reflexivity.
  - intros (d & Hd & _). vm_compute in Hd. exact Hd.
  - vm_compute. by left.
  - right; right; by left.
  - vm_compute. repeat split; by left.
Defined.
