(* ===== verification/JudgmentPack.v ===== *)
(** * Which findings are judged, and in which batches

    The selection of findings for judgment under a cap
    ([internal/coachapi/baseline/judgment_priority*.go]) and their packing into gateway
    calls ([internal/rubrics/pack*.go]), with the excerpt of source a finding is shown
    with ([span.go]).  A map whose iteration order the code makes irrelevant by sorting
    is a [gmap] read through its list of keys. *)

From Stdlib Require Import Ascii.
From stdpp Require Import sorting.
From S2P Require Import Prelude GoOrder GoText.

(** go: internal/rubrics/pack.go#PackCandidate *)
Record PackCandidate := mkPackCandidate {
  pc_FindingRef : string;
  pc_Path : string;
  pc_StartRow : Z;
  pc_Severity : string;
  pc_Confidence : string;
  pc_PayloadJSON : string;
  pc_EvidenceChars : Z
}.

(** go: internal/rubrics/pack.go#JudgmentPack *)
Record JudgmentPack := mkJudgmentPack { jp_FindingRefs : list string }.

(** go: internal/rubrics/pack_config.go#PackConfig *)
Record PackConfig := mkPackConfig {
  MaxFindingsPerJudgmentPack : Z;
  MaxJudgmentPromptTokens : Z;
  JudgmentFileAffinityMinFindings : Z;
  EvidenceWindowLines : Z
}.

(** go: internal/rubrics/pack_config.go#DefaultMaxFindingsPerJudgmentPack *)
Definition DefaultMaxFindingsPerJudgmentPack : Z := 4.
(** go: internal/rubrics/pack_config.go#DefaultMaxJudgmentPromptTokens *)
Definition DefaultMaxJudgmentPromptTokens : Z := 3500.
(** go: internal/rubrics/pack_config.go#DefaultJudgmentFileAffinityMinFindings *)
Definition DefaultJudgmentFileAffinityMinFindings : Z := 5.
(** go: internal/rubrics/pack_config.go#DefaultEvidenceWindowLines *)
Definition DefaultEvidenceWindowLines : Z := 15.

Definition or_default (n d : Z) : Z := if (n =? 0)%Z then d else n.

(** go: internal/rubrics/pack_config.go#ApplyPackConfigDefaults *)
Definition ApplyPackConfigDefaults (cfg : PackConfig) : PackConfig :=
  mkPackConfig
    (or_default (MaxFindingsPerJudgmentPack cfg) DefaultMaxFindingsPerJudgmentPack)
    (or_default (MaxJudgmentPromptTokens cfg) DefaultMaxJudgmentPromptTokens)
    (or_default (JudgmentFileAffinityMinFindings cfg) DefaultJudgmentFileAffinityMinFindings)
    (or_default (EvidenceWindowLines cfg) DefaultEvidenceWindowLines).

(** ** Packing *)

(** go: internal/rubrics/pack_greedy.go#packPromptOverheadTokens *)
Definition packPromptOverheadTokens : Z := 64.

(** The quotient of a positive dividend.
    go: internal/rubrics/pack_greedy.go#estimateCandidateTokens *)
Definition estimateCandidateTokens (c : PackCandidate) : Z :=
  let chars := (Z.of_nat (String.length (pc_PayloadJSON c)) + pc_EvidenceChars c)%Z in
  if (chars <=? 0)%Z then 0%Z else ((chars + 3) / 4)%Z.

(** The variables of [packGreedy]: the packs written, the open one and its estimate. *)
Record PackState := mkPackState {
  ps_packs : list JudgmentPack; ps_cur : list PackCandidate; ps_curTokens : Z
}.

(** go: internal/rubrics/pack_greedy.go:16-27#packGreedy *)
Definition flush (st : PackState) : PackState :=
  match ps_cur st with
  | [] => st
  | cur => mkPackState (ps_packs st ++ [mkJudgmentPack (map pc_FindingRef cur)]) []
             packPromptOverheadTokens
  end.

(** [cur = append(cur, c); curTokens += itemTokens]. *)
Definition add_candidate (c : PackCandidate) (st : PackState) : PackState :=
  mkPackState (ps_packs st) (ps_cur st ++ [c]) (ps_curTokens st + estimateCandidateTokens c).

(** One iteration of the loop.
    go: internal/rubrics/pack_greedy.go:29-45#packGreedy *)
Definition pack_step (cfg : PackConfig) (st : PackState) (c : PackCandidate) : PackState :=
  let itemTokens := estimateCandidateTokens c in
  match ps_cur st with
  | [] => add_candidate c st
  | _ =>
      if (MaxFindingsPerJudgmentPack cfg <? zlen (ps_cur st) + 1)%Z
         || (MaxJudgmentPromptTokens cfg <? ps_curTokens st + itemTokens)%Z
      then add_candidate c (flush st)
      else add_candidate c st
  end.

(** go: internal/rubrics/pack_greedy.go#packGreedy *)
Definition packGreedy (cands : list PackCandidate) (cfg : PackConfig) : list JudgmentPack :=
  match cands with
  | [] => []
  | _ => ps_packs (flush (fold_left (pack_step cfg) cands (mkPackState [] [] packPromptOverheadTokens)))
  end.

(** The comparison [PackJudgmentCandidates] sorts by.
    go: internal/rubrics/pack.go:37-46#PackJudgmentCandidates *)
Definition pack_order (a b : PackCandidate) : bool :=
  if pc_Path a != pc_Path b then str_less (pc_Path a) (pc_Path b)
  else if negb (pc_StartRow a =? pc_StartRow b)%Z then (pc_StartRow a <? pc_StartRow b)%Z
  else str_less (pc_FindingRef a) (pc_FindingRef b).

(** The paths in the order they are first seen.
    go: internal/rubrics/pack.go:53-63#PackJudgmentCandidates *)
Definition first_seen_paths (sorted : list PackCandidate) : list string :=
  fold_left (λ order c, if bool_decide (pc_Path c ∈ order) then order else order ++ [pc_Path c])
    sorted [].

(** [pathCounts[path]] is the length of [byPath[path]].
    go: internal/rubrics/pack.go#PackJudgmentCandidates *)
Definition PackJudgmentCandidates (cands : list PackCandidate) (cfg : PackConfig) : list JudgmentPack :=
  let cfg := ApplyPackConfigDefaults cfg in
  match cands with
  | [] => []
  | _ =>
      let sorted := stable_sort pack_order cands in
      let byPath := group_by pc_Path sorted in
      let '(packs, mergeable) :=
        fold_left (λ acc path,
          let '(packs, mergeable) := acc in
          let group := default [] (byPath !! path) in
          if (JudgmentFileAffinityMinFindings cfg <=? zlen group)%Z
          then (packs ++ packGreedy group cfg, mergeable)
          else (packs, mergeable ++ group)) (first_seen_paths sorted) ([], []) in
      match mergeable with
      | [] => packs
      | _ => packs ++ packGreedy mergeable cfg
      end
  end.

(** ** Selection under the cap *)

(** go: internal/coachapi/baseline/judgment_priority_order.go#severityRankString *)
Definition severityRankString (s : string) : Z :=
  if s == "high" then 3 else if s == "medium" then 2 else if s == "low" then 1 else 0.

(** go: internal/coachapi/baseline/judgment_priority_order.go#confidenceRankString *)
Definition confidenceRankString (c : string) : Z :=
  if c == "high" then 3 else if c == "medium" then 2 else if c == "low" then 1 else 0.

(** go: internal/coachapi/baseline/judgment_priority_order.go#judgmentCandidateLess *)
Definition judgmentCandidateLess (a b : PackCandidate) : bool :=
  let ra := severityRankString (pc_Severity a) in
  let rb := severityRankString (pc_Severity b) in
  if negb (ra =? rb)%Z then (rb <? ra)%Z else
  let ra := confidenceRankString (pc_Confidence a) in
  let rb := confidenceRankString (pc_Confidence b) in
  if negb (ra =? rb)%Z then (rb <? ra)%Z
  else if negb (pc_StartRow a =? pc_StartRow b)%Z then (pc_StartRow a <? pc_StartRow b)%Z
  else str_less (pc_FindingRef a) (pc_FindingRef b).

Notation Buckets := (gmap string (list PackCandidate)).

(** go: internal/coachapi/baseline/judgment_priority_order.go#groupCandidatesByPath *)
Definition groupCandidatesByPath (cands : list PackCandidate) : Buckets :=
  stable_sort judgmentCandidateLess <$> group_by pc_Path cands.

(** [byPath[path]]. *)
Definition bucket (byPath : Buckets) (path : string) : list PackCandidate :=
  default [] (byPath !! path).

Definition path_less (byPath : Buckets) (p q : string) : bool :=
  if negb (zlen (bucket byPath p) =? zlen (bucket byPath q))%Z
  then (zlen (bucket byPath q) <? zlen (bucket byPath p))%Z else str_less p q.

(** go: internal/coachapi/baseline/judgment_priority_order.go#pathsByFindingCount *)
Definition pathsByFindingCount (byPath : Buckets) : list string :=
  stable_sort (path_less byPath) (map fst (map_to_list byPath)).

(** The candidates still to be picked are behind the indices.
    go: internal/coachapi/baseline/judgment_priority.go#roundRobinPick *)
Record roundRobinPick := mkRoundRobinPick {
  rr_idx : gmap string nat;
  rr_selected : list PackCandidate;
  rr_max : Z;
  rr_byPath : Buckets
}.

(** go: internal/coachapi/baseline/judgment_priority.go#sweep *)
Fixpoint sweep (p : roundRobinPick) (progress : bool) (paths : list string) : roundRobinPick * bool :=
  match paths with
  | [] => (p, progress)
  | path :: rest =>
      if (rr_max p <=? zlen (rr_selected p))%Z then (p, progress) else
      let i := default 0 (rr_idx p !! path) in
      match bucket (rr_byPath p) path !! i with
      | None => sweep p progress rest
      | Some item =>
          sweep (mkRoundRobinPick (<[path := S i]> (rr_idx p)) (rr_selected p ++ [item])
                   (rr_max p) (rr_byPath p)) true rest
      end
  end.

(** The outer loop; [None] when the fuel ran out. *)
Fixpoint round_robin_loop (fuel : nat) (paths : list string) (p : roundRobinPick) :
    option (list PackCandidate) :=
  if (zlen (rr_selected p) <? rr_max p)%Z then
    match fuel with
    | O => None
    | S fuel =>
        let '(p', progress) := sweep p false paths in
        if progress then round_robin_loop fuel paths p' else Some (rr_selected p')
    end
  else Some (rr_selected p).

(** Each sweep but the last picks a candidate ([round_robin_enough]), so the default is
    never taken.
    go: internal/coachapi/baseline/judgment_priority.go#prioritizeRoundRobin *)
Definition prioritizeRoundRobin (cands : list PackCandidate) (max : Z) : list PackCandidate :=
  let byPath := groupCandidatesByPath cands in
  let paths := pathsByFindingCount byPath in
  default [] (round_robin_loop (S (length cands)) paths (mkRoundRobinPick ∅ [] max byPath)).

(** go: internal/coachapi/baseline/judgment_priority.go#prioritizeAllRoundRobin *)
Definition prioritizeAllRoundRobin (cands : list PackCandidate) : list PackCandidate :=
  prioritizeRoundRobin cands (zlen cands).

(** The selection, and how many candidates it leaves out.
    go: internal/coachapi/baseline/judgment_priority.go#PrioritizeJudgmentCandidates *)
Definition PrioritizeJudgmentCandidates (cands : list PackCandidate) (max : Z) :
    list PackCandidate * Z :=
  match cands with
  | [] => ([], 0%Z)
  | _ =>
      if (max <? 0)%Z then (prioritizeAllRoundRobin cands, 0%Z)
      else if (max =? 0)%Z then ([], zlen cands)
      else if (zlen cands <=? max)%Z then (prioritizeAllRoundRobin cands, 0%Z)
      else let selected := prioritizeRoundRobin cands max in
           (selected, zlen cands - zlen selected)%Z
  end.

(** go: internal/coachapi/baseline/scan.go#DefaultMaxHiddenMutationJudgments *)
Definition DefaultMaxHiddenMutationJudgments : Z := 16.

(** go: internal/coachapi/baseline/judgment_priority.go#resolveMaxHiddenMutationJudgments *)
Definition resolveMaxHiddenMutationJudgments (n : Z) : Z :=
  if (n <? 0)%Z then (-1)%Z else if (n =? 0)%Z then DefaultMaxHiddenMutationJudgments else n.

(** ** Greedy packing *)

Section Packing.
Variable cfg : PackConfig.

(** The estimate of a pack's prompt. *)
Definition pack_tokens (g : list PackCandidate) : Z :=
  foldr (λ c n, estimateCandidateTokens c + n)%Z packPromptOverheadTokens g.

Definition pack_of (g : list PackCandidate) : JudgmentPack := mkJudgmentPack (map pc_FindingRef g).

(** Within both caps, or alone. *)
Definition pack_fits (g : list PackCandidate) : Prop :=
  g ≠ [] ∧ (length g = 1 ∨ (zlen g <= MaxFindingsPerJudgmentPack cfg)%Z
                          ∧ (pack_tokens g <= MaxJudgmentPromptTokens cfg)%Z).

(** [c] would not have fitted. *)
Definition pack_full (g : list PackCandidate) (c : PackCandidate) : Prop :=
  (MaxFindingsPerJudgmentPack cfg < zlen g + 1)%Z
  ∨ (MaxJudgmentPromptTokens cfg < pack_tokens g + estimateCandidateTokens c)%Z.

(** Every pack but the last was closed because the next candidate did not fit. *)
Fixpoint closed_full (G : list (list PackCandidate)) : Prop :=
  match G with
  | g :: (((c :: _) :: _) as G) => pack_full g c ∧ closed_full G
  | g :: ([] :: _) => False
  | _ => True
  end.

Lemma pack_tokens_snoc g c : pack_tokens (g ++ [c]) = (pack_tokens g + estimateCandidateTokens c)%Z.
Proof. induction g as [|x g IH]; cbn; [lia|]. fold (pack_tokens g). fold (pack_tokens (g ++ [c])). rewrite IH. lia. Qed.

Lemma closed_full_extend G cur c : cur ≠ [] →
  closed_full (G ++ [cur]) → closed_full (G ++ [cur ++ [c]]).
Proof.
  intros Hc. induction G as [|g G IH]; [done|].
  destruct G as [|g' G]; cbn [app].
  - destruct cur as [|x cur]; [done|]. cbn. tauto.
  - destruct g' as [|y g']; [done|]. cbn [app closed_full] in *. intros [? ?]. split; [done|]. by apply IH.
Qed.

Lemma closed_full_snoc G cur c : closed_full (G ++ [cur]) → pack_full cur c →
  closed_full ((G ++ [cur]) ++ [[c]]).
Proof.
  intros H Hf. induction G as [|g G IH]; [done|].
  destruct G as [|g' G]; cbn [app] in *.
  - destruct cur as [|x cur]; [done|]. cbn in *. tauto.
  - destruct g' as [|y g']; [done|]. cbn [app closed_full] in *. destruct H. split; [done|]. by apply IH.
Qed.

(** What the loop has after the candidates [done]. *)
Definition pack_inv (past : list PackCandidate) (st : PackState) : Prop :=
  ∃ G, ps_packs st = map pack_of G ∧ concat G ++ ps_cur st = past
    ∧ ps_curTokens st = pack_tokens (ps_cur st)
    ∧ (past = [] ↔ ps_cur st = [])
    ∧ (past ≠ [] → Forall pack_fits (G ++ [ps_cur st]) ∧ closed_full (G ++ [ps_cur st]))
    ∧ (past = [] → G = []).

Lemma pack_step_inv past st c : pack_inv past st → pack_inv (past ++ [c]) (pack_step cfg st c).
Proof.
  intros (G & Hp & Hc & Ht & Hn & HG & H0).
  destruct (ps_cur st) as [|x cur] eqn:Ecur.
  - assert (past = []) as -> by tauto. rewrite (H0 eq_refl) in *.
    exists []. unfold pack_step. rewrite Ecur. unfold add_candidate. cbn. rewrite Ecur, Hp, Ht.
    repeat split; try done. + by rewrite Z.add_comm. + apply list.Forall_singleton. split; [done|by left].
  - assert (past ≠ []) as Hne by (intros E; by apply Hn in E). destruct (HG Hne) as [HF Hcl].
    assert (pack_step cfg st c = if (MaxFindingsPerJudgmentPack cfg <? zlen (ps_cur st) + 1)%Z
         || (MaxJudgmentPromptTokens cfg <? ps_curTokens st + estimateCandidateTokens c)%Z
      then add_candidate c (flush st) else add_candidate c st) as -> by (unfold pack_step; by rewrite Ecur).
    assert (flush st = mkPackState (ps_packs st ++ [pack_of (ps_cur st)]) [] packPromptOverheadTokens)
      as -> by (unfold flush; by rewrite Ecur).
    rewrite Ecur. set (cur' := x :: cur) in *. assert (cur' ≠ []) as Hcur by done. clearbody cur'.
    destruct (_ || _) eqn:Efull.
    + exists (G ++ [cur']). unfold add_candidate. cbn.
      rewrite map_app, Hp, concat_app. cbn. rewrite app_nil_r, Hc.
      repeat split; try done; try (by destruct past); try (by destruct cur').
      * by rewrite Z.add_comm.
      * apply list.Forall_app. split; [done|]. apply list.Forall_singleton. split; [done|by left].
      * apply closed_full_snoc; [done|]. unfold pack_full. rewrite <- Ht.
        apply orb_true_iff in Efull as [E|E]; breflect; [by left|by right].
    + exists G. unfold add_candidate. cbn. rewrite Ecur.
      rewrite app_assoc, Hc, Ht, pack_tokens_snoc. breflect.
      apply list.Forall_app in HF as [HF Hfit]. rewrite list.Forall_singleton in Hfit.
      repeat split; try done; try (by destruct past); try (by destruct cur').
      * apply list.Forall_app. split; [done|]. apply list.Forall_singleton. split; [by destruct cur'|].
        right. rewrite pack_tokens_snoc, <- Ht. unfold zlen in *. rewrite length_app. cbn [length] in *. lia.
      * by apply closed_full_extend.
Qed.

Lemma packGreedy_spec cands : ∃ G,
  packGreedy cands cfg = map pack_of G ∧ concat G = cands ∧ Forall pack_fits G ∧ closed_full G.
Proof.
  destruct cands as [|c cands]; [by exists []|].
  assert (∀ l past st, pack_inv past st → pack_inv (past ++ l) (fold_left (pack_step cfg) l st)) as Hgo.
  { induction l as [|x l IH]; intros past st H; cbn [fold_left]; [by rewrite app_nil_r|].
    rewrite cons_middle, app_assoc. by apply IH, pack_step_inv. }
  destruct (Hgo (c :: cands) [] (mkPackState [] [] packPromptOverheadTokens)) as (G & Hp & Hc & Ht & Hn & HG & _).
  { by exists []. }
  cbn [app] in *. destruct HG as [HF Hcl]; [done|]. unfold packGreedy.
  set (st := fold_left _ _ _) in *. clearbody st. exists (G ++ [ps_cur st]). repeat split; [|by (rewrite concat_app; cbn; rewrite app_nil_r)|done|done].
  unfold flush. destruct (ps_cur st) as [|x cur] eqn:E; [discriminate (proj2 Hn eq_refl)|].
  cbn. by rewrite map_app, Hp.
Qed.
End Packing.

(** ** Packs of all candidates *)

Lemma zlen_app {A} (l k : list A) : zlen (l ++ k) = (zlen l + zlen k)%Z.
Proof. unfold zlen. rewrite length_app. lia. Qed.

Definition pack_order_cmp (a b : PackCandidate) : comparison :=
  then_cmp (String.compare (pc_Path a) (pc_Path b))
    (then_cmp (pc_StartRow a ?= pc_StartRow b)%Z (String.compare (pc_FindingRef a) (pc_FindingRef b))).

(** The candidates of a path. *)
Definition of_path (path : string) (l : list PackCandidate) : list PackCandidate :=
  List.filter (λ c, bool_decide (pc_Path c = path)) l.

Lemma first_seen_spec l acc : NoDup acc →
  let order := fold_left (λ order c, if bool_decide (pc_Path c ∈ order) then order else order ++ [pc_Path c]) l acc in
  NoDup order ∧ ∀ p, p ∈ order ↔ p ∈ acc ∨ ∃ c, In c l ∧ pc_Path c = p.
Proof.
  revert acc. induction l as [|c l IH]; intros acc Hacc; cbn.
  { split; [done|]. intros p. split; [by left|]. by intros [?|(? & [] & _)]. }
  case_bool_decide as Hc.
  - destruct (IH acc Hacc) as [H1 H2]. split; [done|]. intros p. rewrite H2. split.
    + intros [?|(d & ? & ?)]; [by left|right; exists d; auto].
    + intros [?|(d & [<-|?] & <-)]; [by left|by left|right; by exists d].
  - destruct (IH (acc ++ [pc_Path c])) as [H1 H2].
    { apply list.NoDup_app. split; [done|]. split; [|apply NoDup_singleton].
      intros p Hp ->%list_elem_of_singleton. done. }
    split; [done|]. intros p. rewrite H2, elem_of_app, list_elem_of_singleton. split.
    + intros [[?| ->]|(d & ? & ?)]; [by left|right; exists c; auto|right; exists d; auto].
    + intros [?|(d & [<-|?] & <-)]; [by left; left|by left; right|right; by exists d].
Qed.

Section PackAll.
Variables (cands : list PackCandidate) (cfg : PackConfig).

(** A path with enough findings for packs of its own. *)
Definition hot (path : string) : bool :=
  (JudgmentFileAffinityMinFindings cfg <=? zlen (of_path path cands))%Z.

(** Why a pack ends where it does: full, or the last of a hot path. *)
Definition boundary (g g' : list PackCandidate) : Prop :=
  match g' with
  | [] => False
  | c :: _ => pack_full cfg g c
      ∨ ∃ path, hot path = true ∧ (∀ d, In d g → pc_Path d = path) ∧ ∀ d, In d g' → pc_Path d ≠ path
  end.

Fixpoint boundaries (G : list (list PackCandidate)) : Prop :=
  match G with
  | g :: ((g' :: _) as G) => boundary g g' ∧ boundaries G
  | _ => True
  end.

Lemma closed_full_boundaries G : closed_full cfg G → boundaries G.
Proof.
  induction G as [|g [|[|c g'] G] IH]; cbn; try done. intros [? ?]. split; [by left|]. by apply IH.
Qed.

Lemma boundaries_app G G' : boundaries G → boundaries G' →
  (∀ g g', In g G → hd_error G' = Some g' → boundary g g') → boundaries (G ++ G').
Proof.
  induction G as [|g [|g2 G] IH]; cbn [app]; [done|..]; intros H1 H2 H.
  - destruct G' as [|g' G']; [done|]. split; [|done]. by apply H; [left|].
  - destruct H1 as [H0 H1]. split; [done|]. apply IH; [done|done|].
    intros g0 g' Hg. apply H. by right.
Qed.

(** A pack of one path belongs wholly to it. *)
Definition whole (G : list (list PackCandidate)) : Prop :=
  ∀ g c d, In g G → In c g → In d g → hot (pc_Path c) = true → pc_Path d = pc_Path c.

Lemma In_groups {A} (G : list (list A)) g x : In g G → In x g → In x (concat G).
Proof. intros H1 H2. apply in_concat. by exists g. Qed.

Lemma PackJudgmentCandidates_loop sorted ps :
  (∀ p, default [] (group_by pc_Path sorted !! p) = of_path p sorted) →
  (∀ p, zlen (of_path p sorted) = zlen (of_path p cands)) →
  NoDup ps →
  ∃ G mergeable,
    fold_left (λ acc path,
          let '(packs, mergeable) := acc in
          let group := default [] (group_by pc_Path sorted !! path) in
          if (JudgmentFileAffinityMinFindings cfg <=? zlen group)%Z
          then (packs ++ packGreedy group cfg, mergeable)
          else (packs, mergeable ++ group)) ps ([], []) = (map pack_of G, mergeable)
    ∧ concat G ++ mergeable ≡ₚ concat (map (λ p, of_path p sorted) ps)
    ∧ Forall (pack_fits cfg) G ∧ boundaries G
    ∧ (∀ g, In g G → ∃ p, p ∈ ps ∧ hot p = true ∧ ∀ d, In d g → pc_Path d = p)
    ∧ (∀ c, In c mergeable → hot (pc_Path c) = false).
Proof.
  intros Hgrp Hlen. induction ps as [|p ps IH] using rev_ind; intros Hnd.
  { exists [], []. cbn. repeat split; try done. }
  apply list.NoDup_app in Hnd as (Hnd & Hp & _). destruct (IH Hnd) as (G & mg & E & Hperm & HF & Hb & HG & Hm).
  rewrite fold_left_app, E, map_app, concat_app. cbn [fold_left map concat]. rewrite Hgrp, app_nil_r.
  assert (Hhot : (JudgmentFileAffinityMinFindings cfg <=? zlen (of_path p sorted))%Z = hot p)
    by (unfold hot; by rewrite Hlen).
  rewrite Hhot. destruct (hot p) eqn:Hph.
  - destruct (packGreedy_spec cfg (of_path p sorted)) as (G' & -> & Hc & HF' & Hcl).
    assert (Hpath : ∀ g d, In g G' → In d g → pc_Path d = p).
    { intros g d Hg Hd. pose proof (In_groups _ _ _ Hg Hd) as Hin. rewrite Hc in Hin.
      apply filter_In in Hin as [_ Hin]. by breflect. }
    exists (G ++ G'), mg. rewrite map_app, concat_app, Hc, <- Hperm. split; [done|].
    split; [by rewrite <- !app_assoc, (Permutation_app_comm mg)|].
    split; [by apply list.Forall_app|]. split; [|split; [|done]].
    + apply boundaries_app; [done|by apply closed_full_boundaries|].
      intros g [|c g'] Hg Hg'; destruct G' as [|g2 G']; try done; injection Hg' as ->.
      { apply list.Forall_cons in HF' as [[? _] _]. done. }
      right. destruct (HG g Hg) as (q & Hq & Hqh & Hqd). exists q. split; [done|]. split; [done|].
      intros d Hd. rewrite (Hpath (c :: g') d); [|by left|done]. intros ->.
      apply (Hp q Hq). by apply list_elem_of_singleton.
    + intros g [Hg|Hg]%in_app_iff.
      * destruct (HG g Hg) as (q & Hq & ?). exists q. split; [|done]. apply elem_of_app. by left.
      * exists p. split; [apply elem_of_app; right; by apply list_elem_of_singleton|]. split; [done|].
        intros d. by apply Hpath.
  - exists G, (mg ++ of_path p sorted). rewrite <- Hperm. split; [done|]. split; [by rewrite app_assoc|].
    split; [done|]. split; [done|]. split.
    + intros g Hg. destruct (HG g Hg) as (q & Hq & ?). exists q. split; [|done]. apply elem_of_app. by left.
    + intros c [Hc|Hc]%in_app_iff; [by apply Hm|]. apply filter_In in Hc as [_ Hc]. breflect. by subst.
Qed.
End PackAll.

Lemma pack_order_cmp_laws : CmpLaws pack_order_cmp.
Proof.
  pose proof (on_cmp_laws pc_Path String.compare). pose proof (on_cmp_laws pc_StartRow Z.compare).
  pose proof (on_cmp_laws pc_FindingRef String.compare). unfold pack_order_cmp. apply _.
Qed.

#[local] Instance pack_order_strict : StrictWeak pack_order.
Proof.
  apply (strict_weak_of_cmp _ pack_order_cmp); [|apply pack_order_cmp_laws].
  intros a b. by apply less_chain_string, less_chain_Z.
Qed.

(** Packing loses and invents no finding: the packs are, up to order, a partition
    of the candidates' references.  Every pack is within both caps of the
    configuration or holds one finding; a pack ends only because the next candidate did
    not fit, or because the findings of a path with packs of its own ended; and a pack
    with a finding of such a path holds findings of that path only. *)
Theorem packs_exact cands cfg :
  let cfg' := ApplyPackConfigDefaults cfg in
  ∃ G, PackJudgmentCandidates cands cfg = map pack_of G
    ∧ concat G ≡ₚ cands
    ∧ Forall (pack_fits cfg') G
    ∧ boundaries cands cfg' G
    ∧ whole cands cfg' G.
Proof.
  intros cfg'. unfold PackJudgmentCandidates. fold cfg'.
  destruct cands as [|c0 cs]; [exists []; repeat split; [done..|intros ? ? ? []]|].
  set (cands := c0 :: cs).
  set (sorted := stable_sort pack_order cands).
  assert (Hs : sorted ≡ₚ cands) by apply stable_sort_perm.
  destruct (first_seen_spec sorted [] (NoDup_nil_2)) as [Hnd Hin]. fold (first_seen_paths sorted) in *.
  destruct (PackJudgmentCandidates_loop cands cfg' sorted (first_seen_paths sorted))
    as (G & mg & E & Hperm & HF & Hb & HG & Hm); [apply group_by_default|intros p|done|].
  { unfold zlen, of_path. by rewrite (Permutation_bfilter _ _ _ Hs). }
  cbv zeta in E |- *. rewrite E. clear E.
  assert (Hall : concat G ++ mg ≡ₚ cands).
  { rewrite Hperm, <- Hs. apply concat_classes; [done|]. intros c Hc. apply Hin. right. by exists c. }
  assert (Hwhole : whole cands cfg' G).
  { intros g c d Hg Hc Hd _. destruct (HG g Hg) as (p & _ & _ & Hp). by rewrite !Hp. }
  destruct mg as [|m mg'] eqn:Emg; [exists G; by rewrite app_nil_r in Hall|]. rewrite <- Emg in *.
  destruct (packGreedy_spec cfg' mg) as (G' & -> & Hc & HF' & Hcl).
  assert (Hcold : ∀ g d, In g G' → In d g → hot cands cfg' (pc_Path d) = false)
    by (intros g d Hg Hd; apply Hm; rewrite <- Hc; by apply (In_groups _ g)).
  exists (G ++ G'). rewrite map_app, concat_app, Hc. split; [done|]. split; [done|].
  split; [by apply list.Forall_app|]. split.
  - apply boundaries_app; [done|by apply closed_full_boundaries|].
    intros g [|c g'] Hg Hg'; destruct G' as [|g2 G']; try done; injection Hg' as ->.
    { apply list.Forall_cons in HF' as [[? _] _]. done. }
    right. destruct (HG g Hg) as (q & Hq & Hqh & Hqd). exists q. split; [done|]. split; [done|].
    intros d Hd <-. specialize (Hcold (c :: g') d (or_introl eq_refl) Hd). congruence.
  - intros g c d [Hg|Hg]%in_app_iff Hcg Hdg Hh; [by eapply Hwhole|].
    specialize (Hcold g c Hg Hcg). congruence.
Qed.

(** ** Round robin *)

(** What round [r] picks: the [r]-th candidate of each path that has one. *)
Definition round (byPath : Buckets) (paths : list string) (r : nat) : list PackCandidate :=
  omap (λ path, bucket byPath path !! r) paths.

(** The first [n] rounds. *)
Definition rounds (byPath : Buckets) (paths : list string) (n : nat) : list PackCandidate :=
  concat (map (round byPath paths) (seq 0 n)).

Section RoundRobin.
Variables (byPath : Buckets) (max : Z) (paths : list string).
Hypothesis paths_nodup : NoDup paths.

Lemma rounds_S n : rounds byPath paths (S n) = rounds byPath paths n ++ round byPath paths n.
Proof. unfold rounds. rewrite seq_S, map_app, concat_app. cbn. by rewrite app_nil_r. Qed.

(** The index of a path after [r] rounds. *)
Definition at_round (r : nat) (p : roundRobinPick) (ps : list string) : Prop :=
  ∀ path, path ∈ ps → default 0 (rr_idx p !! path) = r `min` length (bucket byPath path).

Lemma take_zlen {A} (l : list A) : (zlen l <= max)%Z → take (Z.to_nat max) l = l.
Proof. intros H. apply take_ge. unfold zlen in H. lia. Qed.

Lemma sweep_spec r ps : ∀ idx sel prog, NoDup ps → (zlen sel <= max)%Z →
  at_round r (mkRoundRobinPick idx sel max byPath) ps →
  let p' := fst (sweep (mkRoundRobinPick idx sel max byPath) prog ps) in
  rr_max p' = max ∧ rr_byPath p' = byPath
  ∧ rr_selected p' = take (Z.to_nat max) (sel ++ round byPath ps r)
  ∧ (∀ path, path ∉ ps → rr_idx p' !! path = idx !! path)
  ∧ ((zlen (rr_selected p') < max)%Z → at_round (S r) p' ps)
  ∧ snd (sweep (mkRoundRobinPick idx sel max byPath) prog ps)
    = prog || (zlen sel <? zlen (rr_selected p'))%Z.
Proof.
  induction ps as [|path ps IH]; intros idx sel prog Hnd Hmax Hat.
  - cbn. rewrite app_nil_r, Z.ltb_irrefl, orb_false_r.
    repeat split; [by rewrite take_zlen|]. intros _ path Hp. by apply elem_of_nil in Hp.
  - apply list.NoDup_cons in Hnd as [Hp Hnd]. cbn [sweep]. cbn [rr_max rr_selected rr_idx rr_byPath].
    destruct (max <=? zlen sel)%Z eqn:Efull.
    { apply Z.leb_le in Efull. cbn. rewrite Z.ltb_irrefl, orb_false_r.
      repeat split; [|lia]. rewrite take_app_le by (unfold zlen in *; lia).
      by rewrite take_zlen. }
    apply Z.leb_gt in Efull.
    assert (Hi : default 0 (idx !! path) = r `min` length (bucket byPath path)) by (apply (Hat path); by left).
    rewrite Hi. unfold round; cbn [omap list_omap]; fold (round byPath ps r).
    destruct (bucket byPath path !! r) as [item|] eqn:Er.
    + pose proof (lookup_lt_Some _ _ _ Er). rewrite Nat.min_l, Er by lia.
      assert (Hmax' : (zlen (sel ++ [item]) <= max)%Z) by (rewrite zlen_app; unfold zlen in *; cbn; lia).
      destruct (IH (<[path := S r]> idx) (sel ++ [item]) true Hnd Hmax') as (H1 & H2 & H3 & H4 & H5 & H6).
      { intros q Hq. cbn. rewrite lookup_insert_ne by (intros <-; done). apply Hat. by right. }
      split; [done|]. split; [done|]. split; [by rewrite H3, <- app_assoc|]. split; [|split].
      * intros q [Hq1 Hq2]%not_elem_of_cons. by rewrite H4, lookup_insert_ne.
      * intros Hlt q [->|Hq]%elem_of_cons; [|by apply H5].
        rewrite H4, lookup_insert_eq by done.
        change (S r = S r `min` length (bucket byPath path)). lia.
      * rewrite H6. symmetry. cbn [orb]. apply orb_true_iff. right.
        apply Z.ltb_lt. unfold zlen in *. rewrite H3, length_take, !length_app.
        rewrite length_app in Hmax'. cbn [length] in *. lia.
    + apply lookup_ge_None in Er as Hlen. rewrite Nat.min_r by lia.
      rewrite (proj2 (lookup_ge_None (bucket byPath path) (length (bucket byPath path)))) by lia.
      destruct (IH idx sel prog Hnd Hmax) as (H1 & H2 & H3 & H4 & H5 & H6).
      { intros q Hq. apply Hat. by right. }
      split; [done|]. split; [done|]. split; [done|]. split; [|split; [|done]].
      * intros q [_ Hq]%not_elem_of_cons. by apply H4.
      * intros Hlt q [->|Hq]%elem_of_cons; [|by apply H5].
        rewrite H4, Hi by done. lia.
Qed.

Variable n : nat.
Hypothesis bucket_bound : ∀ path, length (bucket byPath path) ≤ n.

Lemma round_nil r ps :
  round byPath ps r = [] ↔ ∀ path, path ∈ ps → length (bucket byPath path) ≤ r.
Proof.
  unfold round. induction ps as [|p ps IH]; cbn [omap list_omap]; [by split; [intros _ q ?%elem_of_nil|]|].
  destruct (bucket byPath p !! r) as [x|] eqn:E.
  - apply lookup_lt_Some in E. split; [done|]. intros H. specialize (H p (list_elem_of_here _ _)). lia.
  - apply lookup_ge_None in E. rewrite IH. split; [|intros H q Hq; apply H; by right].
    intros H q [->|Hq]%elem_of_cons; [done|by apply H].
Qed.

Lemma rounds_past r k : round byPath paths r = [] → r ≤ k →
  rounds byPath paths k = rounds byPath paths r.
Proof.
  intros H Hk. induction k as [|k IH]; [by replace r with 0 by lia|].
  destruct (decide (r = S k)) as [->|]; [done|]. rewrite rounds_S.
  rewrite (proj2 (round_nil k paths)), app_nil_r; [apply IH; lia|].
  intros q Hq. pose proof (proj1 (round_nil r paths) H q Hq). lia.
Qed.

Lemma rounds_app r k : r ≤ k → ∃ later, rounds byPath paths k = rounds byPath paths r ++ later.
Proof.
  intros Hk. induction k as [|k IH]; [exists []; replace r with 0 by lia; done|].
  destruct (decide (r = S k)) as [->|]; [exists []; by rewrite app_nil_r|].
  destruct IH as [l E]; [lia|]. exists (l ++ round byPath paths k). by rewrite rounds_S, E, app_assoc.
Qed.

Lemma round_robin_loop_exact fuel : ∀ r p, r + fuel = S n → r ≤ n →
  rr_max p = max → rr_byPath p = byPath →
  rr_selected p = take (Z.to_nat max) (rounds byPath paths r) → (zlen (rr_selected p) <= max)%Z →
  ((zlen (rr_selected p) < max)%Z → at_round r p paths) →
  round_robin_loop fuel paths p = Some (take (Z.to_nat max) (rounds byPath paths (S n))).
Proof.
  induction fuel as [|fuel IH]; intros r [idx sel m b] Hr Hrn Hm Hb Hsel Hle Hat; [lia|].
  cbn [rr_max rr_byPath rr_selected rr_idx] in *; subst m b; unfold round_robin_loop; fold round_robin_loop;
    cbn [rr_max rr_byPath rr_selected rr_idx].
  destruct (zlen sel <? max)%Z eqn:E.
  - apply Z.ltb_lt in E. pose proof (sweep_spec r paths idx sel false paths_nodup Hle (Hat E)) as Hsw.
    destruct (sweep _ _ _) as [p' prog]. cbn [fst snd] in Hsw.
    destruct Hsw as (H1 & H2 & H3 & _ & H5 & ->). cbn [orb].
    assert (Hshort : take (Z.to_nat max) (rounds byPath paths r) = rounds byPath paths r).
    { apply take_ge. rewrite Hsel in E. unfold zlen in E. rewrite length_take in E. lia. }
    rewrite Hsel, Hshort, <- rounds_S in H3. rewrite Hsel, Hshort in E |- *.
    destruct (_ <? _)%Z eqn:Ep.
    + apply Z.ltb_lt in Ep. assert (round byPath paths r ≠ []) as Hne.
      { intros H0. rewrite H3, rounds_S, H0, app_nil_r, Hshort in Ep. lia. }
      apply (IH (S r)); try done; [lia| |rewrite H3; unfold zlen in *; rewrite length_take; lia].
      destruct (decide (r < n)); [lia|]. destruct Hne. apply round_nil.
      intros q _. pose proof (bucket_bound q). lia.
    + f_equal. rewrite H3. apply Z.ltb_ge in Ep. rewrite H3 in Ep. unfold zlen in E, Ep.
      rewrite length_take, rounds_S, length_app in Ep.
      assert (round byPath paths r = []) as Hr0 by (apply length_zero_iff_nil; lia).
      by rewrite rounds_S, Hr0, app_nil_r, (rounds_past r (S n)) by (done || lia).
  - apply Z.ltb_ge in E. f_equal. rewrite Hsel. destruct (rounds_app r (S n)) as [later ->]; [lia|].
    rewrite take_app_le; [done|]. rewrite Hsel in E. unfold zlen in E. rewrite length_take in E. lia.
Qed.
End RoundRobin.

(** *** The order of selection *)

Definition judgment_cmp (a b : PackCandidate) : comparison :=
  then_cmp (severityRankString (pc_Severity b) ?= severityRankString (pc_Severity a))%Z
    (then_cmp (confidenceRankString (pc_Confidence b) ?= confidenceRankString (pc_Confidence a))%Z
      (then_cmp (pc_StartRow a ?= pc_StartRow b)%Z
        (String.compare (pc_FindingRef a) (pc_FindingRef b)))).

Lemma bucket_of_path cands path :
  bucket (groupCandidatesByPath cands) path = stable_sort judgmentCandidateLess (of_path path cands).
Proof.
  unfold bucket, groupCandidatesByPath. rewrite lookup_fmap, group_by_lookup. unfold of_path.
  by destruct (List.filter _ cands).
Qed.

Lemma paths_spec cands :
  NoDup (pathsByFindingCount (groupCandidatesByPath cands)) ∧
  ∀ c, In c cands → pc_Path c ∈ pathsByFindingCount (groupCandidatesByPath cands).
Proof.
  unfold pathsByFindingCount. set (m := groupCandidatesByPath cands). split.
  - rewrite stable_sort_perm. apply NoDup_fst_map_to_list.
  - intros c Hc. apply list_elem_of_In, stable_sort_In, list_elem_of_In.
    assert (is_Some (m !! pc_Path c)) as [l Hl].
    { unfold m, groupCandidatesByPath. rewrite lookup_fmap, fmap_is_Some. apply group_by_is_Some. by exists c. }
    apply elem_of_map_to_list in Hl. apply list_elem_of_fmap. by exists (pc_Path c, l).
Qed.

Lemma concat_round_perm byPath ps n :
  (∀ path, path ∈ ps → length (bucket byPath path) ≤ n) →
  rounds byPath ps n ≡ₚ concat (map (bucket byPath) ps).
Proof.
  intros H. induction ps as [|p ps IH].
  - unfold rounds. clear. induction (seq 0 n); [done|]. cbn in *. done.
  - assert (∀ k, rounds byPath (p :: ps) k ≡ₚ take k (bucket byPath p) ++ rounds byPath ps k) as Hk.
    { induction k as [|k IHk]; [done|]. rewrite !rounds_S, IHk. unfold round at 1.
      cbn [omap list_omap]. fold (round byPath ps k).
      destruct (bucket byPath p !! k) as [x|] eqn:E.
      - rewrite (take_S_r _ _ _ E). rewrite <- !app_assoc. apply Permutation_app_head.
        cbn. by rewrite Permutation_middle.
      - apply lookup_ge_None in E. rewrite !take_ge by lia. by rewrite <- app_assoc. }
    rewrite Hk, take_ge by (apply H; by left). cbn. apply Permutation_app_head, IH.
    intros q Hq. apply H. by right.
Qed.

Lemma bucket_length cands path : length (bucket (groupCandidatesByPath cands) path) ≤ length cands.
Proof. rewrite bucket_of_path, stable_sort_length. apply List.filter_length_le. Qed.

(** The order in which candidates are picked when nothing stops the rounds. *)
Definition pick_order (cands : list PackCandidate) : list PackCandidate :=
  let byPath := groupCandidatesByPath cands in
  rounds byPath (pathsByFindingCount byPath) (S (length cands)).

(** The loop ends with the first [max] picks of the rounds. *)
Lemma round_robin_enough cands max : (0 <= max)%Z →
  prioritizeRoundRobin cands max = take (Z.to_nat max) (pick_order cands).
Proof.
  intros Hm. unfold prioritizeRoundRobin.
  erewrite (round_robin_loop_exact (groupCandidatesByPath cands) max _ (proj1 (paths_spec cands))
    (length cands) (bucket_length cands) _ 0);
    [reflexivity|lia|lia|done|done|by destruct (Z.to_nat max)|done|].
  intros _ path _. cbn [rr_idx]. by rewrite lookup_empty.
Qed.

Lemma pick_order_perm cands : pick_order cands ≡ₚ cands.
Proof.
  unfold pick_order. destruct (paths_spec cands) as [Hnd Hin].
  rewrite concat_round_perm by (intros; pose proof (bucket_length cands path); lia).
  rewrite <- (concat_classes pc_Path (pathsByFindingCount (groupCandidatesByPath cands)) cands) at 3 by done.
  generalize (pathsByFindingCount (groupCandidatesByPath cands)). intros ps.
  induction ps as [|p ps IH]; [done|]. cbn [map concat]. rewrite IH. apply Permutation_app_tail.
  rewrite bucket_of_path. apply stable_sort_perm.
Qed.

Lemma prioritize_takes cands max :
  let n := if (max <? 0)%Z then length cands else Z.to_nat max `min` length cands in
  PrioritizeJudgmentCandidates cands max = (take n (pick_order cands), (zlen cands - Z.of_nat n)%Z)
  ∧ pick_order cands ≡ₚ cands.
Proof.
  intros n. split; [|apply pick_order_perm]. unfold PrioritizeJudgmentCandidates.
  pose proof (Permutation_length (pick_order_perm cands)) as Hl.
  assert (Hall : prioritizeAllRoundRobin cands = take (length cands) (pick_order cands)).
  { unfold prioritizeAllRoundRobin. rewrite round_robin_enough by (unfold zlen; lia).
    f_equal. unfold zlen. lia. }
  subst n. destruct cands as [|c cs] eqn:Ec; [by destruct (max <? 0)%Z; rewrite ?Nat.min_0_r|].
  rewrite <- Ec in *. clear Ec. unfold zlen in *.
  destruct (max <? 0)%Z eqn:E1; [rewrite Hall; f_equal; lia|]. apply Z.ltb_ge in E1.
  destruct (max =? 0)%Z eqn:E2; [apply Z.eqb_eq in E2; subst max; cbn; by rewrite Z.sub_0_r|]. apply Z.eqb_neq in E2.
  destruct (_ <=? max)%Z eqn:E3.
  - apply Z.leb_le in E3. rewrite Hall, Nat.min_r by lia. f_equal. lia.
  - apply Z.leb_gt in E3. rewrite round_robin_enough by lia. rewrite Nat.min_l by lia.
    f_equal. rewrite length_take. lia.
Qed.

(** Selection under the cap takes, in rounds over the paths from the one with the
    most findings on (ties by path), the next most urgent finding of each path, until
    the cap or the end: it is a prefix of an order that is a permutation of all
    findings, the whole of it when the cap is negative or not reached, and the count of
    omitted findings is exact. *)
Theorem prioritize_exact cands max :
  let n := if (max <? 0)%Z then length cands else Z.to_nat max `min` length cands in
  PrioritizeJudgmentCandidates cands max = (take n (pick_order cands), (zlen cands - Z.of_nat n)%Z)
  ∧ pick_order cands ≡ₚ cands.
Proof. apply prioritize_takes. Qed.

(** *** Independence of the order findings come in *)

Lemma judgment_cmp_laws : CmpLaws judgment_cmp.
Proof.
  pose proof (on_cmp_desc_laws (λ c, severityRankString (pc_Severity c)) Z.compare).
  pose proof (on_cmp_desc_laws (λ c, confidenceRankString (pc_Confidence c)) Z.compare).
  pose proof (on_cmp_laws pc_StartRow Z.compare). pose proof (on_cmp_laws pc_FindingRef String.compare).
  unfold judgment_cmp. apply _.
Qed.

#[local] Instance judgmentCandidateLess_strict : StrictWeak judgmentCandidateLess.
Proof.
  apply (strict_weak_of_cmp _ judgment_cmp); [|apply judgment_cmp_laws].
  intros a b. by apply less_chain_Z_desc, less_chain_Z_desc, less_chain_Z.
Qed.

#[local] Instance path_less_strict byPath : StrictWeak (path_less byPath).
Proof.
  pose proof (on_cmp_desc_laws (λ p, zlen (bucket byPath p)) Z.compare).
  pose (cmp := λ p q, then_cmp (zlen (bucket byPath q) ?= zlen (bucket byPath p))%Z (String.compare p q)).
  assert (CmpLaws cmp) by (unfold cmp; apply _). apply (strict_weak_of_cmp _ cmp); [|done].
  intros p q. by apply less_chain_Z_desc.
Qed.

(** A reference identifies its finding. *)
Definition refs_distinct (cands : list PackCandidate) : Prop := NoDup (map pc_FindingRef cands).

Lemma same_ref cands a b : refs_distinct cands → In a cands → In b cands →
  pc_FindingRef a = pc_FindingRef b → a = b.
Proof. unfold refs_distinct. intros H Ha Hb. by apply (NoDup_map_inj pc_FindingRef cands). Qed.

(** A chain that ends with the reference tells findings apart. *)
Lemma less_tells_apart (cmp : PackCandidate → PackCandidate → comparison) less cands a b :
  (∀ a b, less a b = is_lt (cmp a b)) → CmpLaws cmp →
  (∀ a b, cmp a b = Eq → pc_FindingRef a = pc_FindingRef b) → refs_distinct cands →
  In a cands → In b cands → equiv_to less a b = true → a = b.
Proof.
  intros Hl Hc Heq Hd Ha Hb. unfold equiv_to. rewrite !Hl. intros He.
  apply (same_ref cands); [done..|]. apply Heq.
  rewrite (cmp_antisym a b) in He. by destruct (cmp a b).
Qed.

Lemma buckets_perm cands cands' : cands ≡ₚ cands' → refs_distinct cands →
  groupCandidatesByPath cands = groupCandidatesByPath cands'.
Proof.
  intros Hp Hd. apply map_eq. intros path. unfold groupCandidatesByPath.
  rewrite !lookup_fmap, !group_by_lookup. fold (of_path path cands) (of_path path cands').
  assert (Hq : of_path path cands ≡ₚ of_path path cands') by by apply Permutation_bfilter.
  assert (Hs : stable_sort judgmentCandidateLess (of_path path cands)
             = stable_sort judgmentCandidateLess (of_path path cands')).
  { apply stable_sort_perm_eq; [apply _| |done].
    intros x y [Hx _]%filter_In [Hy _]%filter_In. apply (less_tells_apart judgment_cmp _ cands); try done.
    - intros a b. apply less_chain_Z_desc, less_chain_Z_desc, less_chain_Z. done.
    - apply judgment_cmp_laws.
    - intros a b H. repeat apply then_cmp_Eq in H as [_ H]. by apply cmp_eq. }
  destruct (of_path path cands) eqn:E1, (of_path path cands') eqn:E2; try done.
  - by apply Permutation_nil_l in Hq.
  - by apply Permutation_nil_r in Hq.
  - cbn [fmap option_fmap option_map]. by rewrite Hs.
Qed.

(** With distinct references, neither the selection nor the packs depend on the
    order the findings come in, and the order of the paths does not depend on the
    order in which the code meets the keys of its map. *)
Theorem selection_order_independent cands cands' max cfg :
  cands ≡ₚ cands' → refs_distinct cands →
  PrioritizeJudgmentCandidates cands max = PrioritizeJudgmentCandidates cands' max
  ∧ PackJudgmentCandidates cands cfg = PackJudgmentCandidates cands' cfg
  ∧ ∀ keys, keys ≡ₚ map fst (map_to_list (groupCandidatesByPath cands)) →
      stable_sort (path_less (groupCandidatesByPath cands)) keys
      = pathsByFindingCount (groupCandidatesByPath cands').
Proof.
  intros Hp Hd. pose proof (buckets_perm _ _ Hp Hd) as Hb.
  pose proof (Permutation_length Hp) as Hl. split; [|split].
  - destruct (prioritize_takes cands max) as [-> _], (prioritize_takes cands' max) as [-> _].
    unfold pick_order, zlen. by rewrite Hb, Hl.
  - assert (stable_sort pack_order cands = stable_sort pack_order cands') as Hs.
    { apply stable_sort_perm_eq; [apply _| |done].
      intros x y Hx Hy. apply (less_tells_apart pack_order_cmp _ cands); try done.
      - intros a b. by apply less_chain_string, less_chain_Z.
      - apply pack_order_cmp_laws.
      - intros a b H. repeat apply then_cmp_Eq in H as [_ H]. by apply cmp_eq. }
    unfold PackJudgmentCandidates. rewrite Hs. destruct cands, cands'; done.
  - intros keys Hk. rewrite <- Hb. unfold pathsByFindingCount.
    apply stable_sort_perm_eq; [apply _| |done]. intros p q _ _. unfold equiv_to, path_less.
    rewrite Z.eqb_sym. destruct (_ =? _)%Z eqn:E; cbn [negb].
    + intros He. destruct (String.eqb_spec p q) as [|Hne]; [done|]. unfold str_less in He.
      rewrite (cmp_antisym (cmp:=String.compare) p q) in He.
      destruct (String.compare p q) eqn:Ec; try done. by apply cmp_eq in Ec.
    + intros [H1 H2]%andb_true_iff. apply negb_true_iff in H1, H2. breflect. lia.
Qed.

(** ** The excerpt around a finding *)

(** go: internal/rubrics/span.go#splitContentLines *)
Definition splitContentLines (content : string) : list string :=
  if content == "" then [] else
  let lines := SplitByte (byte_of 10) content in
  match list.last lines with
  | Some last => if last == "" then take (length lines - 1) lines else lines
  | None => lines
  end.

(** [%*d]. *)
Fixpoint pad_left (n : nat) (s : string) : string :=
  match n with O => s | S n => String " " (pad_left n s) end.
Definition format_width (width : nat) (z : Z) : string :=
  let s := Itoa z in pad_left (width - String.length s) s.

(** One line of the excerpt; [None] is an index out of range, which panics. *)
Definition span_line (lines : list string) (startRow : Z) (width : nat) (i : Z) : option string :=
  match (if (i <? 0)%Z then None else lines !! Z.to_nat i) with
  | Some text =>
      Some ((if (i =? startRow)%Z then ">" else " ") +:+ " " +:+ format_width width (i + 1)
            +:+ "|" +:+ text +:+ String (byte_of 10) "")
  | None => None
  end.

Fixpoint concat_lines (l : list (option string)) : option string :=
  match l with
  | [] => Some ""
  | x :: l =>
      match x, concat_lines l with
      | Some a, Some b => Some (a +:+ b)
      | _, _ => None
      end
  end.

(** The rows shown: the first, the last and the marked one.  [startRow + radius] is an
    addition of [int]s.
    go: internal/rubrics/span.go:14-34#FormatSpanWindow *)
Definition span_rows (count startRow radius : Z) : Z * Z * Z :=
  let radius := if (radius <=? 0)%Z then DefaultEvidenceWindowLines else radius in
  let startRow := if (startRow <? 0)%Z then 0%Z else startRow in
  let startRow := if (count <=? startRow)%Z then (count - 1)%Z else startRow in
  let lo := (startRow - radius)%Z in
  let lo := if (lo <? 0)%Z then 0%Z else lo in
  let hi := int64_wrap (startRow + radius) in
  let hi := if (count <=? hi)%Z then (count - 1)%Z else hi in
  (lo, hi, startRow).

(** The numbered lines; the last number sets the width.
    go: internal/rubrics/span.go:36-46#FormatSpanWindow *)
Definition span_text (lines : list string) (rows : Z * Z * Z) : option string :=
  let '(lo, hi, startRow) := rows in
  let width := String.length (Itoa (hi + 1)) in
  concat_lines (map (λ k, span_line lines startRow width (lo + Z.of_nat k)%Z)
                    (seq 0 (Z.to_nat (hi + 1 - lo)))).

(** go: internal/rubrics/span.go#FormatSpanWindow *)
Definition FormatSpanWindow (content : string) (startRow radius : Z) : option string :=
  let lines := splitContentLines content in
  match lines with
  | [] => Some ""
  | _ => span_text lines (span_rows (zlen lines) startRow radius)
  end.

Lemma concat_lines_Some {A} (f : A → option string) l :
  (∀ x, In x l → is_Some (f x)) → is_Some (concat_lines (map f l)).
Proof.
  induction l as [|x l IH]; intros H; cbn; [by eexists|].
  destruct (H x) as [a ->]; [by left|]. destruct IH as [b ->]; [intros; apply H; by right|]. by eexists.
Qed.

Lemma span_text_safe lines lo hi row :
  (0 <= lo)%Z → (hi < zlen lines)%Z → is_Some (span_text lines (lo, hi, row)).
Proof.
  intros Hlo Hhi. apply concat_lines_Some. intros k Hk. apply in_seq in Hk.
  unfold span_line. rewrite (proj2 (Z.ltb_ge _ _)) by lia.
  destruct (lookup_lt_is_Some_2 lines (Z.to_nat (lo + Z.of_nat k))) as [text ->]; [|by eexists].
  unfold zlen in *. lia.
Qed.

Lemma span_rows_inside count startRow radius :
  let '(lo, hi, _) := span_rows count startRow radius in (0 <= lo ∧ hi < count)%Z.
Proof.
  assert (∀ z, 0 <= if (z <? 0)%Z then 0 else z)%Z as Hlow by (intros z; destruct (Z.ltb_spec z 0); lia).
  assert (∀ z, (if (count <=? z)%Z then (count - 1)%Z else z) < count)%Z as Hhigh
    by (intros z; destruct (Z.leb_spec count z); lia).
  unfold span_rows. split; [apply Hlow|apply Hhigh].
Qed.

(** The window around row [s] of [count] lines. *)
Definition clamp (lo hi z : Z) : Z := Z.max lo (Z.min hi z).

Lemma span_rows_exact count startRow radius :
  let r := if (radius <=? 0)%Z then DefaultEvidenceWindowLines else radius in
  let s := clamp 0 (count - 1) startRow in
  (0 < count)%Z → (s + r < 2 ^ 63)%Z →
  span_rows count startRow radius = (Z.max 0 (s - r), Z.min (count - 1) (s + r), s).
Proof.
  intros r s Hc Hr. unfold span_rows. fold r.
  assert (0 < r)%Z as Hr0.
  { unfold r. destruct (radius <=? 0)%Z eqn:E; [unfold DefaultEvidenceWindowLines; lia|]. by apply Z.leb_gt in E. }
  assert ((let startRow := if (startRow <? 0)%Z then 0%Z else startRow in
           if (count <=? startRow)%Z then (count - 1)%Z else startRow) = s) as Hs.
  { unfold s, clamp. cbv zeta. destruct (startRow <? 0)%Z eqn:E; [apply Z.ltb_lt in E|apply Z.ltb_ge in E].
    - rewrite (proj2 (Z.leb_gt _ _)) by lia. lia.
    - destruct (count <=? startRow)%Z eqn:E'; [apply Z.leb_le in E'|apply Z.leb_gt in E']; lia. }
  cbv zeta in Hs |- *. rewrite Hs. rewrite int64_wrap_small.
  - f_equal. f_equal.
    + destruct (s - r <? 0)%Z eqn:E; [apply Z.ltb_lt in E|apply Z.ltb_ge in E]; lia.
    + destruct (count <=? s + r)%Z eqn:E; [apply Z.leb_le in E|apply Z.leb_gt in E]; lia.
  - unfold s, clamp in *. lia.
Qed.

(** The excerpt of a finding never reads a line that is not there, whatever the row
    and radius.  Unless the radius is astronomical it is made of the rows from
    [s - r] to [s + r] that exist, where [s] is the row moved into the file, and the
    marked row is among them. *)
Theorem span_window_safe content startRow radius :
  let count := zlen (splitContentLines content) in
  let r := if (radius <=? 0)%Z then DefaultEvidenceWindowLines else radius in
  let s := clamp 0 (count - 1) startRow in
  is_Some (FormatSpanWindow content startRow radius)
  ∧ ((0 < count)%Z → (s + r < 2 ^ 63)%Z →
     let '(lo, hi, row) := span_rows count startRow radius in
     lo = Z.max 0 (s - r) ∧ hi = Z.min (count - 1) (s + r) ∧ row = s ∧ (lo <= row <= hi)%Z).
Proof.
  intros count r s. split.
  - unfold FormatSpanWindow. destruct (splitContentLines content) as [|l0 ls] eqn:E; [by eexists|].
    rewrite <- E. pose proof (span_rows_inside (zlen (splitContentLines content)) startRow radius) as Hin.
    destruct (span_rows _ _ _) as [[lo hi] row]. destruct Hin. by apply span_text_safe.
  - intros Hc Hr. pose proof (span_rows_exact count startRow radius Hc Hr) as E. cbv zeta in E.
    fold r s in E. rewrite E. unfold s, clamp. repeat split; try lia.
    all: unfold r; destruct (radius <=? 0)%Z eqn:E'; [unfold DefaultEvidenceWindowLines|apply Z.leb_gt in E']; lia.
Qed.

(** ** Examples *)

Definition example_cand (ref path : string) (row : Z) (severity : string) : PackCandidate :=
  mkPackCandidate ref path row severity "high" "{}" 400.

Definition example_cands : list PackCandidate :=
  [example_cand "f1" "a.go" 10 "low"; example_cand "f2" "b.go" 3 "high";
   example_cand "f3" "a.go" 4 "high"; example_cand "f4" "a.go" 2 "high";
   example_cand "f5" "c.go" 1 "medium"].

Example example_selection :
  (map pc_FindingRef (fst (PrioritizeJudgmentCandidates example_cands 4)),
   snd (PrioritizeJudgmentCandidates example_cands 4)) = (["f4"; "f2"; "f5"; "f3"], 1%Z).
Proof. vm_compute. reflexivity. Qed.

Example example_packs :
  map jp_FindingRefs (PackJudgmentCandidates example_cands (mkPackConfig 2 0 3 0))
  = [["f4"; "f3"]; ["f1"]; ["f2"; "f5"]].
Proof. vm_compute. reflexivity. Qed.

Lemma selection_order_independent_witness :
  PrioritizeJudgmentCandidates example_cands 3 = PrioritizeJudgmentCandidates (reverse example_cands) 3.
Proof.
  apply (selection_order_independent example_cands (reverse example_cands) 3 (mkPackConfig 0 0 0 0)).
  - by rewrite reverse_Permutation.
  - unfold refs_distinct. apply (bool_decide_unpack _). vm_compute. exact I.
Defined.

Lemma span_window_safe_witness :
  span_rows (zlen (splitContentLines ("a" +:+ String (byte_of 10) "b"))) 7 0 = (0, 1, 1)%Z
  ∧ is_Some (FormatSpanWindow ("a" +:+ String (byte_of 10) "b") 7 0).
Proof.
  destruct (span_window_safe ("a" +:+ String (byte_of 10) "b") 7 0) as [H1 H2]. split; [|exact H1].
  destruct H2 as (-> & -> & -> & _); [reflexivity|reflexivity|reflexivity].
Defined.

Example example_window :
  FormatSpanWindow ("a" +:+ String (byte_of 10) "b" +:+ String (byte_of 10) "") 1 3
  = Some ("  1|a" +:+ String (byte_of 10) "> 2|b" +:+ String (byte_of 10) "").
Proof. vm_compute. reflexivity. Qed.
