(* ===== verification/Gateway.v ===== *)
(** * The model gateway

    [internal/modelgateway]: structured judgments from a language model behind an
    OpenAI-compatible endpoint.  The endpoint is a parameter: what it answers at each
    moment.  The schema language is the subset the rubrics use; [Gateway] is the
    contract the rubrics rely on, and [openai_gateway] shows that the client meets it. *)

From Stdlib Require Import Ascii.
From S2P Require Import Prelude GoText GoFloat Json GoErr.

(** ** Requests and errors *)

(** go: internal/modelgateway/gateway.go#Message *)
Record Message := mkMessage { msg_Role : string; msg_Content : string }.

(** go: internal/modelgateway/gateway.go#JudgmentRequest *)
Record JudgmentRequest := mkJudgmentRequest {
  jr_RubricID : string;
  jr_RubricVersion : string;
  jr_Messages : list Message;
  jr_OutputSchema : RawMessage;
  jr_LogicalModel : string
}.

(** go: internal/modelgateway/gateway.go#JudgmentResponse *)
Record JudgmentResponse := mkJudgmentResponse {
  resp_JudgmentJSON : RawMessage;
  resp_LogicalModelID : string;
  resp_ServedModelID : string
}.

(** go: internal/modelgateway/gateway.go#DefaultLogicalModel *)
Definition DefaultLogicalModel : string := "coach-default".

(** go: internal/modelgateway/errors.go#formatPrefixedError *)
Definition formatPrefixedError (s : sentinel) (detail : string) : string :=
  if detail == "" then sentinel_message s else sentinel_message s +:+ ": " +:+ detail.

(** go: internal/modelgateway/errors_unavailable.go#joinDetailCause *)
Definition joinDetailCause (detail : string) (cause : option error) : string :=
  match cause with
  | None => detail
  | Some c => if detail == "" then err_Error c else detail +:+ ": " +:+ err_Error c
  end.

(** Its message and what it wraps.
    go: internal/modelgateway/errors_unavailable.go:14-30#NewUnavailableError *)
Definition NewUnavailableError (detail : string) (cause : option error) : error :=
  mkError (formatPrefixedError ErrUnavailable (joinDetailCause detail cause))
    (ErrUnavailable :: match cause with Some c => err_chain c | None => [] end).

(** go: internal/modelgateway/errors_validation.go:9-24#NewValidationError *)
Definition NewValidationError (detail : string) : error :=
  mkError (formatPrefixedError ErrSchemaValidation detail) [ErrSchemaValidation].

(** ** Output schemas *)

(** A property; [items] holds the type, required names and properties of an array's
    elements.
    go: internal/modelgateway/validate_schema_doc.go#propSchema *)
Inductive propSchema :=
  | mkPropSchema (types enum : list string)
      (items : option (string * list string * list (string * propSchema))).

(** go: internal/modelgateway/validate_schema_doc.go#schemaDoc *)
Definition schemaDoc : Type := string * list string * list (string * propSchema).

Definition prop_types (p : propSchema) : list string := let 'mkPropSchema t _ _ := p in t.
Definition prop_enum (p : propSchema) : list string := let 'mkPropSchema _ e _ := p in e.
Definition prop_items (p : propSchema) : option schemaDoc := let 'mkPropSchema _ _ i := p in i.
Definition doc_type (d : schemaDoc) : string := d.1.1.
Definition doc_required (d : schemaDoc) : list string := d.1.2.
Definition doc_properties (d : schemaDoc) : list (string * propSchema) := d.2.

(** A Go map from names as an association list with one entry per name. *)
Fixpoint assoc_set {A} (k : string) (v : A) (l : list (string * A)) : list (string * A) :=
  match l with
  | [] => [(k, v)]
  | (k', v') :: l => if k == k' then (k, v) :: l else (k', v') :: assoc_set k v l
  end.

(** The element type of [Required] and [Enum]. *)
Definition dec_strings (cur : list string) (j : json) : option (list string) :=
  option_map (default []) (dec_slice "" dec_string (Some cur) j).

(** [None] among the types is an error; an absent type is no types.
    go: internal/modelgateway/validate_schema_doc.go#parsePropTypes *)
Definition parsePropTypes (raw : option json) : option (list string) :=
  match raw with
  | None => Some []
  | Some j =>
      match dec_string "" j with
      | Some single => Some [single]
      | None => dec_strings [] j
      end
  end.

(** Decoding a schema and its properties; a property is decoded from scratch, its items
    onto what an earlier member of the same name left.
    go: internal/modelgateway/validate_schema_doc.go:24-37#UnmarshalJSON *)
Fixpoint dec_schema (cur : schemaDoc) (j : json) {struct j} : option schemaDoc :=
  match j with
  | JNull => Some cur
  | JObject ms =>
      (fix go (cur : schemaDoc) (ms : list (string * json)) : option schemaDoc :=
         match ms with
         | [] => Some cur
         | (k, v) :: ms =>
             let key := fold_case (unquote k) in
             let '(t, req, props) := cur in
             let next :=
               if key == "type" then option_map (λ t, (t, req, props)) (dec_string t v)
               else if key == "required" then option_map (λ r, (t, r, props)) (dec_strings req v)
               else if key == "properties" then
                 match v with
                 | JNull => Some (t, req, [])
                 | JObject ps =>
                     option_map (λ props, (t, req, props))
                       ((fix gop (acc : list (string * propSchema)) (ps : list (string * json)) :=
                           match ps with
                           | [] => Some acc
                           | (pk, pv) :: ps =>
                               match dec_prop pv with
                               | Some p => gop (assoc_set (unquote pk) p acc) ps
                               | None => None
                               end
                           end) props ps)
                 | _ => None
                 end
               else Some cur in
             match next with Some cur => go cur ms | None => None end
         end) cur ms
  | _ => None
  end
with dec_prop (j : json) {struct j} : option propSchema :=
  match j with
  | JNull => Some (mkPropSchema [] [] None)
  | JObject ms =>
      (fix go (ty : option json) (enum : list string) (items : option schemaDoc)
           (ms : list (string * json)) : option propSchema :=
         match ms with
         | [] => option_map (λ types, mkPropSchema types enum items) (parsePropTypes ty)
         | (k, v) :: ms =>
             let key := fold_case (unquote k) in
             if key == "type" then go (Some v) enum items ms
             else if key == "enum" then
               match dec_strings enum v with Some enum => go ty enum items ms | None => None end
             else if key == "items" then
               match v with
               | JNull => go ty enum None ms
               | _ => match dec_schema (default ("", [], []) items) v with
                      | Some d => go ty enum (Some d) ms
                      | None => None
                      end
               end
             else go ty enum items ms
         end) None [] None ms
  | _ => None
  end.

Definition zero_schema : schemaDoc := ("", [], []).

(** A [ValidationError] is its detail.
    go: internal/modelgateway/validate_schema_doc.go#parseSchemaDoc *)
Definition parseSchemaDoc (schema : RawMessage) : string + schemaDoc :=
  match Unmarshal dec_schema zero_schema schema with
  | None => inl "output schema is not valid JSON"
  | Some sch =>
      if (doc_type sch != "") && (doc_type sch != "object")
      then inl "output schema type must be object" else inr sch
  end.

(** The first error met; the code ranges over a map, so which of several is met first
    is not determined. *)
Definition first_error {A} (f : A → option string) : list A → option string :=
  fix go l := match l with
    | [] => None
    | x :: l => match f x with Some e => Some e | None => go l end
    end.

(** go: internal/modelgateway/validate_schema_support.go#supportedLeafPropType *)
Definition supportedLeafPropType (t : string) : bool := (ToLower t == "string") || (ToLower t == "null").

(** go: internal/modelgateway/validate_schema_support.go#unsupportedLeafType *)
Definition unsupportedLeafType (types : list string) : option string :=
  List.find (λ t, negb (supportedLeafPropType t)) types.

Definition EqualFold (s t : string) : bool := fold_case s == fold_case t.

(** go: internal/modelgateway/validate_property_scalar.go#hasType *)
Definition hasType (types : list string) (want : string) : bool := existsb (λ t, EqualFold t want) types.

(** go: internal/modelgateway/validate_schema_array.go#ensureSupportedArrayProp *)
Definition ensureSupportedArrayProp (name : string) (prop : propSchema) : option string :=
  match prop_items prop with
  | None => Some (name +:+ " array schema requires object items")
  | Some items =>
      if (doc_type items != "") && negb (EqualFold (doc_type items) "object")
      then Some (name +:+ " array items must be object")
      else first_error (λ e : string * propSchema,
        match unsupportedLeafType (prop_types e.2) with
        | Some t => Some (name +:+ " items." +:+ e.1 +:+ " has unsupported schema type: " +:+ t)
        | None =>
            match prop_items e.2 with
            | Some _ => Some (name +:+ " items." +:+ e.1 +:+ " has unsupported nested array")
            | None => None
            end
        end) (doc_properties items)
  end.

(** go: internal/modelgateway/validate_schema_support.go#ensureSupportedPropSchema *)
Definition ensureSupportedPropSchema (name : string) (prop : propSchema) : option string :=
  first_error (λ t,
    if supportedLeafPropType t then None
    else if ToLower t == "array" then ensureSupportedArrayProp name prop
    else Some (name +:+ " has unsupported schema type: " +:+ t)) (prop_types prop).

(** go: internal/modelgateway/validate_schema_support.go#ensureSupportedProperties *)
Definition ensureSupportedProperties (sch : schemaDoc) : option string :=
  first_error (λ e, ensureSupportedPropSchema e.1 e.2) (doc_properties sch).

(** go: internal/modelgateway/validate.go#validateOutputSchema *)
Definition validateOutputSchema (schema : RawMessage) : option string :=
  if schema == "" then None else
  match parseSchemaDoc schema with
  | inl e => Some e
  | inr sch => ensureSupportedProperties sch
  end.

(** ** Judgments *)

(** Decoding into [any]: a number must fit a float64. *)
Definition number_fits (lit : string) : bool :=
  match ParseFloat lit with SpecFloat.S754_infinity _ => false | _ => true end.

Fixpoint any_fits (j : json) : bool :=
  match j with
  | JNumber lit => number_fits lit
  | JArray l => forallb any_fits l
  | JObject ms => forallb (λ m, any_fits m.2) ms
  | _ => true
  end.

Definition Unmarshal_any (raw : RawMessage) : option json :=
  match parse raw with Some j => if any_fits j then Some j else None | None => None end.

(** [obj[key]] of a decoded object: the last member of that name. *)
Definition any_get (ms : list (string * json)) (key : string) : option json :=
  fold_left (λ acc m, if unquote m.1 == key then Some m.2 else acc) ms None.

(** go: internal/modelgateway/validate.go#parseJudgmentObject *)
Definition parseJudgmentObject (judgment : RawMessage) : string + list (string * json) :=
  match Unmarshal_any judgment with
  | None => inl "judgment is not valid JSON"
  | Some (JObject ms) => inr ms
  | Some _ => inl "judgment must be a JSON object"
  end.

(** go: internal/modelgateway/validate_properties.go#requireProperties *)
Definition requireProperties (obj : list (string * json)) (required : list string) : option string :=
  first_error (λ key, match any_get obj key with
    | Some _ => None
    | None => Some ("missing required property: " +:+ key)
    end) required.

(** go: internal/modelgateway/validate_property_scalar.go#checkEnumProperty *)
Definition checkEnumProperty (name : string) (raw : json) (allowed : list string) : option string :=
  match raw with
  | JString s => if bool_decide (unquote s ∈ allowed) then None else Some (name +:+ " value not in enum")
  | _ => Some (name +:+ " must be a string enum value")
  end.

(** go: internal/modelgateway/validate_property_scalar.go#jsonValueKind *)
Definition jsonValueKind (raw : json) : string :=
  match raw with
  | JString _ => "string" | JNumber _ => "number" | JBool _ => "boolean"
  | JObject _ => "object" | JArray _ => "array" | JNull => ""
  end.

(** go: internal/modelgateway/validate_property_scalar.go#checkTypedProperty *)
Definition checkTypedProperty (name : string) (raw : json) (types : list string) : option string :=
  match raw with
  | JNull => if hasType types "null" then None else Some (name +:+ " must not be null")
  | JString _ => if hasType types "string" then None else Some (name +:+ " must not be a string")
  | _ => Some (name +:+ " must not be a " +:+ jsonValueKind raw)
  end.

(** go: internal/modelgateway/validate_property_array.go#validationDetail *)
Definition validationDetail (e : string) : string :=
  if e == "" then sentinel_message ErrSchemaValidation else e.

(** The checks of one property: by array, enumeration or type.
    go: internal/modelgateway/validate_properties.go#checkProperty *)
Fixpoint checkProperty (prop : propSchema) (name : string) (raw : json) {struct prop} : option string :=
  let 'mkPropSchema types enum items := prop in
  if hasType types "array" then
    match raw with
    | JNull => Some (name +:+ " must not be null")
    | JArray arr =>
        match items with
        | None => Some (name +:+ " array schema requires object items")
        | Some (_, required, properties) =>
            first_error (λ ie : nat * json,
              let elemPath := name +:+ "[" +:+ Itoa (Z.of_nat ie.1) +:+ "]" in
              match ie.2 with
              | JObject obj =>
                  match requireProperties obj required with
                  | Some e => Some (elemPath +:+ ": " +:+ validationDetail e)
                  | None =>
                      option_map (λ e, elemPath +:+ ": " +:+ validationDetail e)
                        (first_error (λ np : string * propSchema,
                           match any_get obj np.1 with
                           | None => None
                           | Some v => checkProperty np.2 np.1 v
                           end) properties)
                  end
              | _ => Some (elemPath +:+ " must be an object")
              end) (imap pair arr)
        end
    | _ => Some (name +:+ " must be an array")
    end
  else match enum with
  | _ :: _ => checkEnumProperty name raw enum
  | [] => match types with [] => None | _ => checkTypedProperty name raw types end
  end.

(** go: internal/modelgateway/validate_properties.go#checkPresentProperties *)
Definition checkPresentProperties (obj : list (string * json)) (properties : list (string * propSchema)) :
    option string :=
  first_error (λ np : string * propSchema,
    match any_get obj np.1 with
    | None => None
    | Some v => checkProperty np.2 np.1 v
    end) properties.

(** The array branch of [checkProperty] as a function of its own.
    go: internal/modelgateway/validate_property_array.go#checkArrayProperty *)
Definition checkArrayProperty (name : string) (raw : json) (prop : propSchema) : option string :=
  match raw with
  | JNull => Some (name +:+ " must not be null")
  | JArray arr =>
      match prop_items prop with
      | None => Some (name +:+ " array schema requires object items")
      | Some items =>
          first_error (λ ie : nat * json,
            let elemPath := name +:+ "[" +:+ Itoa (Z.of_nat ie.1) +:+ "]" in
            match ie.2 with
            | JObject obj =>
                match requireProperties obj (doc_required items) with
                | Some e => Some (elemPath +:+ ": " +:+ validationDetail e)
                | None => option_map (λ e, elemPath +:+ ": " +:+ validationDetail e)
                            (checkPresentProperties obj (doc_properties items))
                end
            | _ => Some (elemPath +:+ " must be an object")
            end) (imap pair arr)
      end
  | _ => Some (name +:+ " must be an array")
  end.

(** go: internal/modelgateway/validate.go#validateJudgmentJSON *)
Definition validateJudgmentJSON (judgment schema : RawMessage) : option string :=
  match parseJudgmentObject judgment with
  | inl e => Some e
  | inr obj =>
      if schema == "" then None else
      match parseSchemaDoc schema with
      | inl e => Some e
      | inr sch =>
          match ensureSupportedProperties sch with
          | Some e => Some e
          | None =>
              match requireProperties obj (doc_required sch) with
              | Some e => Some e
              | None => checkPresentProperties obj (doc_properties sch)
              end
          end
      end
  end.

(** ** The client *)

(** What the transport makes of a request: it cannot be built, the call or the reading
    of the body fails, or a status and a body. *)
Inductive HttpOutcome :=
  | HttpNotBuilt (e : error)
  | HttpFailed (e : error)
  | HttpReadFailed (e : error)
  | HttpResponse (status : Z) (body : string).

(** go: internal/modelgateway/openaicompat.go#OpenAICompatClient *)
Record OpenAICompatClient := mkOpenAICompatClient {
  baseURL : string;
  logicalModel : string;
  apiKey : string;
  authHeader : string;
  extraHeaders : list (string * string);
  schemaValidationAttempts : Z;
  disableThinking : bool
}.

(** The request the transport sees. *)
Record UpstreamRequest := mkUpstreamRequest {
  up_URL : string;
  up_Authorization : option string;
  up_Extra : list (string * string);
  up_Body : string
}.

(** go: internal/modelgateway/openaicompat_config.go#DefaultSchemaValidationAttempts *)
Definition DefaultSchemaValidationAttempts : Z := 3.

(** go: internal/modelgateway/openaicompat_config.go#resolveSchemaAttempts *)
Definition resolveSchemaAttempts (n : Z) : Z :=
  if (n <=? 0)%Z then DefaultSchemaValidationAttempts else n.

(** go: internal/modelgateway/openaicompat_config.go#resolveLogicalModel *)
Definition resolveLogicalModel (requestModel clientDefault : string) : string :=
  let m := TrimSpace requestModel in
  if m != "" then m else
  let m := TrimSpace clientDefault in
  if m != "" then m else DefaultLogicalModel.

(** go: internal/modelgateway/openaicompat_wire.go#marshalChatCompletionRequest *)
Definition marshalChatCompletionRequest (model : string) (messages : list Message) (noThink : bool) : string :=
  let wire (m : Message) := JObject [("role", JStr (msg_Role m)); ("content", JStr (msg_Content m))] in
  print (JObject ([("model", JStr model); ("messages", JArray (map wire messages)); ("stream", JBool false)]
    ++ if noThink then [("think", JBool false)] else [])).

(** go: internal/modelgateway/openaicompat_http.go#applyAuthHeaders *)
Definition applyAuthHeaders (c : OpenAICompatClient) : option string :=
  if authHeader c != "" then Some (authHeader c)
  else if apiKey c != "" then Some ("Bearer " +:+ apiKey c) else None.

(** go: internal/modelgateway/openaicompat_http.go#newChatCompletionsRequest *)
Definition newChatCompletionsRequest (c : OpenAICompatClient) (body : string) : UpstreamRequest :=
  mkUpstreamRequest (baseURL c +:+ "/v1/chat/completions") (applyAuthHeaders c) (extraHeaders c) body.

(** go: internal/modelgateway/openaicompat_http.go#classifyUpstreamStatus *)
Definition classifyUpstreamStatus (status : Z) : option error :=
  if (200 <=? status)%Z && (status <? 300)%Z then None
  else Some (NewUnavailableError ("upstream HTTP " +:+ Itoa status) None).

(** go: internal/modelgateway/openaicompat_http.go#maxUpstreamResponseBytes *)
Definition maxUpstreamResponseBytes : N := 8388608.

(** [io.LimitReader]. *)
Fixpoint limit_bytes (n : N) (s : string) : string :=
  match s with
  | String c t => if (n =? 0)%N then "" else String c (limit_bytes (n - 1) t)
  | EmptyString => ""
  end.

(** One choice: the role and content of its message, and why it ended. *)
Record chatChoice := mkChatChoice { cc_Role : string; cc_Content : string; cc_FinishReason : string }.

Definition dec_choice : Decoder chatChoice := dec_struct (λ cur ms,
  match field (dec_struct (λ rc ms,
           match field dec_string rc.1 "role" ms, field dec_string rc.2 "content" ms with
           | Some r, Some c => Some (r, c)
           | _, _ => None
           end)) (cc_Role cur, cc_Content cur) "message" ms,
        field dec_string (cc_FinishReason cur) "finish_reason" ms with
  | Some (r, c), Some f => Some (mkChatChoice r c f)
  | _, _ => None
  end).

(** The decoded model and choices.
    go: internal/modelgateway/openaicompat_wire.go#chatCompletionResponse *)
Definition dec_chat_response : Decoder (string * option (list chatChoice)) := dec_struct (λ cur ms,
  match field dec_string cur.1 "model" ms,
        field (dec_slice (mkChatChoice "" "" "") dec_choice) cur.2 "choices" ms with
  | Some m, Some cs => Some (m, cs)
  | _, _ => None
  end).

(** The pieces of an endpoint's answer that [encoding/json] rejects are reported with
    its own text. *)
Section Client.
Context `{JsonErrors}.

Definition json_error (target : string) (raw : RawMessage) : error :=
  errors_New (json_error_text target raw).

(** go: internal/modelgateway/openaicompat_wire.go#parseChatCompletionBody *)
Definition parseChatCompletionBody (respBody : string) : error + string * string :=
  match Unmarshal dec_chat_response ("", None) respBody with
  | None => inl (NewUnavailableError "decode upstream response"
                   (Some (json_error "chatCompletionResponse" respBody)))
  | Some (_, None) | Some (_, Some []) =>
      inl (NewUnavailableError "upstream response missing choices" None)
  | Some (model, Some (c :: _)) => inr (model, cc_Content c)
  end.

(** go: internal/modelgateway/openaicompat_http.go#callChatCompletions *)
Definition callChatCompletions (c : OpenAICompatClient) (http : UpstreamRequest → HttpOutcome)
    (model : string) (messages : list Message) : error + string * string :=
  let body := marshalChatCompletionRequest model messages (disableThinking c) in
  match http (newChatCompletionsRequest c body) with
  | HttpNotBuilt e => inl (NewUnavailableError "build request" (Some e))
  | HttpFailed e => inl (NewUnavailableError "upstream request failed" (Some e))
  | HttpReadFailed e => inl (NewUnavailableError "read upstream response" (Some e))
  | HttpResponse status body =>
      match classifyUpstreamStatus status with
      | Some e => inl e
      | None => parseChatCompletionBody (limit_bytes maxUpstreamResponseBytes body)
      end
  end.

(** go: internal/modelgateway/openaicompat_content.go#unwrapJSONStringOnce *)
Definition unwrapJSONStringOnce (raw : RawMessage) : string + RawMessage :=
  match Unmarshal dec_string "" raw with
  | None => inr raw
  | Some s =>
      let s := TrimSpace s in
      if s == "" then inl "assistant content is empty"
      else if Valid s then inr s else inl "assistant content is not valid JSON"
  end.

(** go: internal/modelgateway/openaicompat_content.go#parseAssistantContentJSON *)
Definition parseAssistantContentJSON (content : string) : string + RawMessage :=
  let content := TrimSpace content in
  if content == "" then inl "assistant content is empty"
  else if Valid content then unwrapJSONStringOnce content
  else inl "assistant content is not valid JSON".

(** go: internal/modelgateway/openaicompat_content.go#extractAndValidateJudgment *)
Definition extractAndValidateJudgment (content : string) (schema : RawMessage) : string + RawMessage :=
  match parseAssistantContentJSON content with
  | inl e => inl e
  | inr raw => match validateJudgmentJSON raw schema with Some e => inl e | None => inr raw end
  end.

(** The context and the endpoint, at each moment; every call takes one. *)
Variables (ctx : Context) (http : nat → UpstreamRequest → HttpOutcome).

(** The loop over attempts, and the moment it ends at.
    go: internal/modelgateway/openaicompat.go#judgeWithRetries *)
Fixpoint judgeWithRetries (c : OpenAICompatClient) (attempts t : nat) (lastValErr : option string)
    (logical : string) (req : JudgmentRequest) : (error + JudgmentResponse) * nat :=
  match attempts with
  | O => (inl (NewValidationError (default "schema validation failed after retries" lastValErr)), t)
  | S attempts =>
      match ctx_Err ctx t with
      | Some e => (inl (NewUnavailableError "context done" (Some e)), t)
      | None =>
          match callChatCompletions c (http t) logical (jr_Messages req) with
          | inl e => (inl e, S t)
          | inr (servedModel, content) =>
              match extractAndValidateJudgment content (jr_OutputSchema req) with
              | inl valErr => judgeWithRetries c attempts (S t) (Some valErr) logical req
              | inr judgment => (inr (mkJudgmentResponse judgment logical servedModel), S t)
              end
          end
      end
  end.

(** For a client, not the nil one.
    go: internal/modelgateway/openaicompat.go#Judge *)
Definition Judge (c : OpenAICompatClient) (t : nat) (req : JudgmentRequest) :
    (error + JudgmentResponse) * nat :=
  match ctx_Err ctx t with
  | Some e => (inl (NewUnavailableError "context done" (Some e)), t)
  | None =>
      let logical := resolveLogicalModel (jr_LogicalModel req) (logicalModel c) in
      match validateOutputSchema (jr_OutputSchema req) with
      | Some e => (inl (NewValidationError e), t)
      | None => judgeWithRetries c (Z.to_nat (schemaValidationAttempts c)) t None logical req
      end
  end.
End Client.

(** ** What a schema accepts *)

(** The value every property of the list that the object has is accepted. *)
Fixpoint prop_accepts (p : propSchema) (v : json) {struct p} : Prop :=
  let 'mkPropSchema types enum items := p in
  if hasType types "array" then
    ∃ arr, v = JArray arr ∧
      match items with
      | None => False
      | Some (_, required, properties) =>
          ∀ e, In e arr → ∃ obj, e = JObject obj
            ∧ (∀ key, In key required → is_Some (any_get obj key))
            ∧ foldr (λ (np : string * propSchema) P,
                (∀ v', any_get obj np.1 = Some v' → prop_accepts np.2 v') ∧ P) True properties
      end
  else match enum with
  | _ :: _ => ∃ s, v = JString s ∧ unquote s ∈ enum
  | [] => types = [] ∨ (v = JNull ∧ hasType types "null" = true)
          ∨ ∃ s, v = JString s ∧ hasType types "string" = true
  end.

(** An object has the required members, and the members a property describes are
    accepted. *)
Definition object_accepted (required : list string) (properties : list (string * propSchema))
    (obj : list (string * json)) : Prop :=
  (∀ key, In key required → is_Some (any_get obj key)) ∧
  ∀ name p v, In (name, p) properties → any_get obj name = Some v → prop_accepts p v.

(** A message the gateway may return for an output schema. *)
Definition judgment_accepted (schema judgment : RawMessage) : Prop :=
  ∃ obj, parse judgment = Some (JObject obj) ∧ any_fits (JObject obj) = true ∧
    (schema ≠ "" → ∃ sch, parseSchemaDoc schema = inr sch ∧ ensureSupportedProperties sch = None
       ∧ object_accepted (doc_required sch) (doc_properties sch) obj).

Lemma first_error_None {A} (f : A → option string) l :
  first_error f l = None ↔ ∀ x, In x l → f x = None.
Proof.
  induction l as [|x l IH]; cbn; [by split|]. destruct (f x) eqn:E.
  - split; [done|]. intros H. by rewrite (H x (or_introl eq_refl)) in E.
  - rewrite IH. split; [intros H y [<-|Hy]; auto|auto].
Qed.

Lemma requireProperties_None obj required :
  requireProperties obj required = None ↔ ∀ key, In key required → is_Some (any_get obj key).
Proof.
  unfold requireProperties. rewrite first_error_None. split; intros H k Hk; specialize (H k Hk).
  - destruct (any_get obj k); [by eexists|done].
  - by destruct H as [? ->].
Qed.

Section PropInd.
Variable P : propSchema → Prop.
Hypotheses (Hleaf : ∀ types enum, P (mkPropSchema types enum None))
  (Hitems : ∀ types enum t req props, Forall (λ np, P np.2) props →
     P (mkPropSchema types enum (Some (t, req, props)))).

Fixpoint prop_induction (p : propSchema) : P p :=
  match p with
  | mkPropSchema types enum None => Hleaf types enum
  | mkPropSchema types enum (Some (t, req, props)) =>
      Hitems types enum t req props ((fix go (l : list (string * propSchema)) : Forall (λ np, P np.2) l :=
        match l with
        | [] => Forall_nil_2 _
        | np :: l => Forall_cons_2 _ np l (prop_induction np.2) (go l)
        end) props)
  end.
End PropInd.

Lemma foldr_and {A} (Q : A → Prop) l : foldr (λ x P, Q x ∧ P) True l ↔ ∀ x, In x l → Q x.
Proof. induction l; cbn; [by split|]. rewrite IHl. naive_solver. Qed.

Lemma in_imap_pair {A} (l : list A) (f : nat → nat) e :
  (∃ i, In (i, e) (imap (λ n x, (f n, x)) l)) ↔ In e l.
Proof.
  revert f. induction l as [|x l IH]; intros f; cbn.
  - split; [by intros [i []]|done].
  - split.
    + intros [i [[= _ ->]|H]]; [by left|]. right. apply (IH (λ n, f (S n))). by exists i.
    + intros [->|H]; [exists (f 0); by left|].
      destruct (proj2 (IH (λ n, f (S n))) H) as [i Hi]. exists i. by right.
Qed.

Lemma scalar_None types enum name v :
  (match enum with
   | _ :: _ => checkEnumProperty name v enum
   | [] => match types with [] => None | _ => checkTypedProperty name v types end
   end) = None ↔
  match enum with
  | _ :: _ => ∃ s, v = JString s ∧ unquote s ∈ enum
  | [] => types = [] ∨ (v = JNull ∧ hasType types "null" = true)
          ∨ ∃ s, v = JString s ∧ hasType types "string" = true
  end.
Proof.
  destruct enum as [|x enum].
  - destruct types as [|t types]; [split; [by left|done]|]. unfold checkTypedProperty.
    destruct v; try (split; [done|intros [?|[[? ?]|(? & ? & ?)]]; done]).
    + destruct (hasType _ _); split; try done; [by right; left|]. intros [?|[[_ ?]|(? & ? & ?)]]; done.
    + destruct (hasType _ _); split; try done; [by right; right; eexists|].
      intros [?|[[? _]|(? & _ & ?)]]; done.
  - unfold checkEnumProperty. destruct v; try (split; [done|by intros (? & ? & ?)]).
    case_bool_decide; split; try done; [by eexists|]. by intros (? & [= ->] & ?).
Qed.

(** The checks of a property accept what its schema says. *)
Lemma checkProperty_None p : ∀ name v, checkProperty p name v = None ↔ prop_accepts p v.
Proof.
  induction p as [types enum|types enum t req props IH] using prop_induction; intros name v;
    cbn [checkProperty prop_accepts].
  - destruct (hasType types "array"); [|apply scalar_None].
    destruct v; split; try done; by intros (? & _ & ?).
  - destruct (hasType types "array"); [|apply scalar_None].
    destruct v as [| | | |arr|]; try (split; [done|by intros (? & ? & _)]).
    rewrite first_error_None. split.
    + intros H. exists arr. split; [done|]. intros e He.
      apply (in_imap_pair arr (λ n, n)) in He as [i Hi]. specialize (H (i, e) Hi). cbn in H.
      destruct e as [| | | | |obj]; try done. exists obj. split; [done|].
      destruct (requireProperties obj req) eqn:Er; [done|].
      split; [by apply requireProperties_None|]. apply foldr_and. intros [n p'] Hnp v' Hv'.
      destruct (first_error _ props) eqn:Ef in H; [done|]. rewrite first_error_None in Ef.
      specialize (Ef (n, p') Hnp). cbn in Ef, Hv'. rewrite Hv' in Ef.
      rewrite list.Forall_forall in IH. apply (IH (n, p')) in Ef; [done|by apply list_elem_of_In].
    + intros (arr' & [= <-] & H) [i e] Hi. cbn.
      destruct (H e) as (obj & -> & Hr & Hp). { apply (in_imap_pair arr (λ n, n)). by exists i. }
      rewrite (proj2 (requireProperties_None obj req) Hr).
      enough (first_error (λ np : string * propSchema,
                match any_get obj np.1 with None => None | Some v => checkProperty np.2 np.1 v end) props
              = None) as -> by done.
      apply first_error_None. intros [n p'] Hnp. cbn. destruct (any_get obj n) as [v'|] eqn:Ev; [|done].
      rewrite foldr_and in Hp. specialize (Hp (n, p') Hnp v' Ev).
      rewrite list.Forall_forall in IH. apply (IH (n, p')); [by apply list_elem_of_In|done].
Qed.

Lemma extractAndValidate_iff judgment schema :
  validateJudgmentJSON judgment schema = None ↔ judgment_accepted schema judgment.
Proof.
  unfold validateJudgmentJSON, judgment_accepted, parseJudgmentObject, Unmarshal_any.
  destruct (parse judgment) as [j|]; [|by split; [|intros (? & ? & ?)]].
  destruct (any_fits j) eqn:Ef; [|split; [done|intros (obj & [= ->] & ? & _); congruence]].
  destruct j as [| | | | |obj]; try (split; [done|by intros (? & ? & ?)]).
  destruct (String.eqb_spec schema "") as [->|Hne]; [split; [|done]; intros _; by exists obj|].
  destruct (parseSchemaDoc schema) as [e|sch] eqn:Es.
  { split; [done|]. intros (obj' & _ & _ & H). by destruct (H Hne) as (? & ? & _). }
  destruct (ensureSupportedProperties sch) eqn:Ep.
  { split; [done|]. intros (obj' & _ & _ & H). destruct (H Hne) as (? & [= <-] & ? & _). congruence. }
  assert (checkPresentProperties obj (doc_properties sch) = None ↔
          ∀ name p v, In (name, p) (doc_properties sch) → any_get obj name = Some v → prop_accepts p v) as Hc.
  { unfold checkPresentProperties. rewrite first_error_None. split.
    - intros H name p v Hin Hv. specialize (H (name, p) Hin). cbn in H. rewrite Hv in H.
      by apply checkProperty_None in H.
    - intros H [name p] Hin. cbn. destruct (any_get obj name) as [v|] eqn:Ev; [|done].
      apply checkProperty_None. by eapply H. }
  split.
  - intros H. exists obj. split; [done|]. split; [done|]. intros _. exists sch. split; [done|]. split; [done|].
    destruct (requireProperties obj (doc_required sch)) eqn:Er; [done|].
    split; [by apply requireProperties_None|by apply Hc].
  - intros (obj' & [= <-] & _ & H). destruct (H Hne) as (sch' & [= <-] & _ & Hr & Hp).
    rewrite (proj2 (requireProperties_None _ _) Hr). by apply Hc.
Qed.


(** ** The contract *)

(** go: internal/modelgateway/gateway.go#Gateway *)
Class Gateway := { gw_Judge : Context → nat → JudgmentRequest → (error + JudgmentResponse) * nat }.

(** What the rubrics rely on: time goes forward, a failure is one of the two typed
    errors, and a judgment is an object the request's schema accepts, with a model. *)
Class GatewayLaws `{Gateway} : Prop := {
  gw_time ctx t req : t ≤ snd (gw_Judge ctx t req);
  gw_failure ctx t req e : fst (gw_Judge ctx t req) = inl e →
    errors_Is e ErrSchemaValidation = true ∨ errors_Is e ErrUnavailable = true;
  gw_judgment ctx t req resp : fst (gw_Judge ctx t req) = inr resp →
    judgment_accepted (jr_OutputSchema req) (resp_JudgmentJSON resp) ∧ resp_LogicalModelID resp ≠ ""
}.

Lemma resolveLogicalModel_nonempty a b : resolveLogicalModel a b ≠ "".
Proof.
  unfold resolveLogicalModel.
  destruct (String.eqb_spec (TrimSpace a) ""); cbn; [|done].
  by destruct (String.eqb_spec (TrimSpace b) "").
Qed.

Lemma NewValidationError_Is d : errors_Is (NewValidationError d) ErrSchemaValidation = true.
Proof. reflexivity. Qed.

Lemma NewUnavailableError_Is d c : errors_Is (NewUnavailableError d c) ErrUnavailable = true.
Proof. unfold errors_Is. apply bool_decide_eq_true. cbn. by left. Qed.

#[export] Hint Resolve NewValidationError_Is NewUnavailableError_Is : coach.

Section ClientProofs.
Context `{JsonErrors}.
Variables (c : OpenAICompatClient) (ctx : Context) (http : nat → UpstreamRequest → HttpOutcome).

Lemma callChatCompletions_unavailable up model messages e :
  callChatCompletions c up model messages = inl e → errors_Is e ErrUnavailable = true.
Proof.
  unfold callChatCompletions, classifyUpstreamStatus, parseChatCompletionBody.
  repeat case_match; intros [= <-]; simplify_eq; auto with coach.
Qed.

Lemma extract_accepted content schema raw :
  extractAndValidateJudgment content schema = inr raw → judgment_accepted schema raw.
Proof.
  unfold extractAndValidateJudgment. repeat case_match; intros [= <-]. by apply extractAndValidate_iff.
Qed.

(** The attempts: how many, what ends them, and that only a rejected judgment leads to
    another. *)
Lemma judgeWithRetries_spec attempts : ∀ t lastValErr logical req,
  let r := judgeWithRetries ctx http c attempts t lastValErr logical req in
  t ≤ snd r ≤ t + attempts
  ∧ (∀ e, fst r = inl e → errors_Is e ErrSchemaValidation = true ∨ errors_Is e ErrUnavailable = true)
  ∧ (∀ resp, fst r = inr resp → judgment_accepted (jr_OutputSchema req) (resp_JudgmentJSON resp)
       ∧ resp_LogicalModelID resp = logical)
  ∧ ∀ k, t ≤ k → S k < snd r → ∃ served content valErr,
      callChatCompletions c (http k) logical (jr_Messages req) = inr (served, content)
      ∧ extractAndValidateJudgment content (jr_OutputSchema req) = inl valErr.
Proof.
  induction attempts as [|n IH]; intros t lastValErr logical req; cbn [judgeWithRetries].
  - cbn. split; [lia|]. split; [intros e [= <-]; left; auto with coach|]. split; [done|lia].
  - destruct (ctx_Err ctx t) as [e0|].
    { cbn. split; [lia|]. split; [intros e [= <-]; right; auto with coach|]. split; [done|lia]. }
    destruct (callChatCompletions c (http t) logical (jr_Messages req)) as [e0|[served content]] eqn:Ec.
    { cbn. apply callChatCompletions_unavailable in Ec.
      split; [lia|]. split; [intros e [= <-]; by right|]. split; [done|lia]. }
    destruct (extractAndValidateJudgment content (jr_OutputSchema req)) as [valErr|judgment] eqn:Ev.
    + destruct (IH (S t) (Some valErr) logical req) as (H1 & H2 & H3 & H4).
      split; [lia|]. split; [done|]. split; [done|]. intros k Hk Hlt.
      destruct (decide (k = t)) as [->|]; [by do 3 eexists|]. apply H4; [lia|done].
    + cbn. apply extract_accepted in Ev. split; [lia|]. split; [done|]. split; [by intros resp [= <-]|lia].
Qed.

Lemma Extract_contract t req :
  let r := Judge ctx http c t req in
  t ≤ snd r ≤ t + Z.to_nat (schemaValidationAttempts c)
  ∧ (is_Some (ctx t) ∨ is_Some (validateOutputSchema (jr_OutputSchema req)) → snd r = t)
  ∧ (∀ e, fst r = inl e → errors_Is e ErrSchemaValidation = true ∨ errors_Is e ErrUnavailable = true)
  ∧ (∀ resp, fst r = inr resp → judgment_accepted (jr_OutputSchema req) (resp_JudgmentJSON resp)
       ∧ resp_LogicalModelID resp ≠ "")
  ∧ ∀ k, t ≤ k → S k < snd r → ∃ served content valErr,
      callChatCompletions c (http k) (resolveLogicalModel (jr_LogicalModel req) (logicalModel c))
        (jr_Messages req) = inr (served, content)
      ∧ extractAndValidateJudgment content (jr_OutputSchema req) = inl valErr.
Proof.
  unfold Judge, ctx_Err. destruct (ctx t) as [s|]; cbn [option_map].
  { cbn. split; [lia|]. split; [done|]. split; [intros e [= <-]; right; auto with coach|].
    split; [done|lia]. }
  destruct (validateOutputSchema _) as [e0|].
  { cbn. split; [lia|]. split; [done|]. split; [intros e [= <-]; left; auto with coach|].
    split; [done|lia]. }
  destruct (judgeWithRetries_spec (Z.to_nat (schemaValidationAttempts c)) t None
    (resolveLogicalModel (jr_LogicalModel req) (logicalModel c)) req) as (H1 & H2 & H3 & H4).
  split; [done|]. split; [by intros [[? ?]|[? ?]]|]. split; [done|]. split; [|done].
  intros resp Hr. destruct (H3 resp Hr) as [? ->]. split; [done|]. apply resolveLogicalModel_nonempty.
Qed.

(** The client meets the gateway's contract within its bound: at most the configured
    number of calls, none at all when the context is done or the schema is not
    supported; a further call is made only after a judgment was rejected; every failure
    is a schema failure or an unavailability, and a returned judgment is accepted by
    the request's schema. *)
Theorem client_contract t req :
  let r := Judge ctx http c t req in
  t ≤ snd r ≤ t + Z.to_nat (schemaValidationAttempts c)
  ∧ (is_Some (ctx t) ∨ is_Some (validateOutputSchema (jr_OutputSchema req)) → snd r = t)
  ∧ (∀ e, fst r = inl e → errors_Is e ErrSchemaValidation = true ∨ errors_Is e ErrUnavailable = true)
  ∧ (∀ resp, fst r = inr resp → judgment_accepted (jr_OutputSchema req) (resp_JudgmentJSON resp)
       ∧ resp_LogicalModelID resp ≠ "")
  ∧ ∀ k, t ≤ k → S k < snd r → ∃ served content valErr,
      callChatCompletions c (http k) (resolveLogicalModel (jr_LogicalModel req) (logicalModel c))
        (jr_Messages req) = inr (served, content)
      ∧ extractAndValidateJudgment content (jr_OutputSchema req) = inl valErr.
Proof. apply Extract_contract. Qed.
End ClientProofs.

(** The client as a gateway. *)
#[export] Instance openai_gateway `{JsonErrors} (c : OpenAICompatClient)
  (http : nat → UpstreamRequest → HttpOutcome) : Gateway :=
  { gw_Judge ctx t req := Judge ctx http c t req }.

#[export] Instance openai_gateway_laws `{JsonErrors} c http : GatewayLaws (H:=openai_gateway c http).
Proof.
  split; intros ctx t req; pose proof (Extract_contract c ctx http t req) as (H1 & _ & H3 & H4 & _); cbn; auto with lia.
Qed.

(** ** Examples *)

#[local] Instance no_text : JsonErrors := λ _ _, "".

Definition leaf_schema : string := jtext "{'type':'object','required':['judgment'],
  'properties':{'judgment':{'type':'string','enum':['concern','acceptable','unclear']},
                'suggested_focus':{'type':['string','null']}}}".

Example leaf_schema_judgments :
  map (λ j, validateJudgmentJSON (jtext j) leaf_schema)
    ["{'judgment':'acceptable','suggested_focus':null}"; "{'judgment':'maybe'}"; "{}"; "[]";
     "{'judgment':'unclear','suggested_focus':3}"; "{'judgment':"]
  = [None; Some "judgment value not in enum"; Some "missing required property: judgment";
     Some "judgment must be a JSON object"; Some "suggested_focus must not be a number";
     Some "judgment is not valid JSON"].
Proof. vm_compute. reflexivity. Qed.

Definition example_client : OpenAICompatClient := mkOpenAICompatClient "http://gw" "" "k" "" [] 3 false.
Definition example_request : JudgmentRequest := mkJudgmentRequest "r" "1" [mkMessage "user" "?"] leaf_schema "".

(** A bad answer, then a good one. *)
Definition example_http (t : nat) (_ : UpstreamRequest) : HttpOutcome :=
  HttpResponse 200 (jtext match t with
    | O => "{'model':'m','choices':[{'message':{'content':'nonsense'}}]}"
    | _ => "{'model':'m','choices':[{'message':{'content':'{\u0022judgment\u0022:\u0022unclear\u0022}'}}]}"
    end).

Example example_judge :
  Judge Background example_http example_client 0 example_request
  = (inr (mkJudgmentResponse (jtext "{'judgment':'unclear'}") "coach-default" "m"), 2).
Proof. vm_compute. reflexivity. Qed.
