(* ===== verification/ToolArgs.v ===== *)
(** * Tool arguments

    The argument schemas of the agent loop's tools ([internal/agentloop/schema*.go]):
    a JSON Schema subset, its decoding, its checks, and the schemas of the core tools
    and of the rubric tools. *)

From Stdlib Require Import Ascii SpecFloat.
From S2P Require Import Prelude GoText GoFloat Json GoErr Gateway.

(** A property is its types and the schema of its items; [items] that of an array's
    elements.
    go: internal/agentloop/schema.go#argsSchemaDoc *)
Inductive argsSchemaDoc :=
  | mkArgsSchema (ty : string) (required : list string)
      (properties : list (string * (list string * option argsSchemaDoc)))
      (items : option argsSchemaDoc).

(** go: internal/agentloop/schema.go#argsPropSchema *)
Definition argsPropSchema : Type := list string * option argsSchemaDoc.

Definition args_type (d : argsSchemaDoc) : string := let 'mkArgsSchema t _ _ _ := d in t.
Definition args_required (d : argsSchemaDoc) : list string := let 'mkArgsSchema _ r _ _ := d in r.
Definition args_properties (d : argsSchemaDoc) : list (string * argsPropSchema) :=
  let 'mkArgsSchema _ _ p _ := d in p.
Definition args_items (d : argsSchemaDoc) : option argsSchemaDoc := let 'mkArgsSchema _ _ _ i := d in i.

Definition zero_args : argsSchemaDoc := mkArgsSchema "" [] [] None.

(** go: internal/agentloop/schema.go#parseJSONTypes *)
Definition parseJSONTypes (raw : option json) : option (list string) :=
  match raw with
  | None => Some []
  | Some j =>
      match dec_string "" j with
      | Some single => Some [single]
      | None => dec_strings [] j
      end
  end.

(** go: internal/agentloop/schema.go:21-38#UnmarshalJSON *)
Fixpoint dec_args (cur : argsSchemaDoc) (j : json) {struct j} : option argsSchemaDoc :=
  match j with
  | JNull => Some cur
  | JObject ms =>
      (fix go (cur : argsSchemaDoc) (ms : list (string * json)) : option argsSchemaDoc :=
         match ms with
         | [] => Some cur
         | (k, v) :: ms =>
             let key := fold_case (unquote k) in
             let 'mkArgsSchema t req props items := cur in
             let next :=
               if key == "type" then option_map (λ t, mkArgsSchema t req props items) (dec_string t v)
               else if key == "required" then
                 option_map (λ r, mkArgsSchema t r props items) (dec_strings req v)
               else if key == "properties" then
                 match v with
                 | JNull => Some (mkArgsSchema t req [] items)
                 | JObject ps =>
                     option_map (λ props, mkArgsSchema t req props items)
                       ((fix gop (acc : list (string * argsPropSchema)) (ps : list (string * json)) :=
                           match ps with
                           | [] => Some acc
                           | (pk, pv) :: ps =>
                               match dec_args_prop pv with
                               | Some p => gop (assoc_set (unquote pk) p acc) ps
                               | None => None
                               end
                           end) props ps)
                 | _ => None
                 end
               else if key == "items" then
                 match v with
                 | JNull => Some (mkArgsSchema t req props None)
                 | _ => option_map (λ d, mkArgsSchema t req props (Some d))
                          (dec_args (default zero_args items) v)
                 end
               else Some cur in
             match next with Some cur => go cur ms | None => None end
         end) cur ms
  | _ => None
  end
with dec_args_prop (j : json) {struct j} : option argsPropSchema :=
  match j with
  | JNull => Some ([], None)
  | JObject ms =>
      (fix go (ty : option json) (items : option argsSchemaDoc) (ms : list (string * json)) :
           option argsPropSchema :=
         match ms with
         | [] => option_map (λ types, (types, items)) (parseJSONTypes ty)
         | (k, v) :: ms =>
             let key := fold_case (unquote k) in
             if key == "type" then go (Some v) items ms
             else if key == "items" then
               match v with
               | JNull => go ty None ms
               | _ => match dec_args (default zero_args items) v with
                      | Some d => go ty (Some d) ms
                      | None => None
                      end
               end
             else go ty items ms
         end) None None ms
  | _ => None
  end.

Section Validate.
Context {table : IsPrint}.

(** go: internal/agentloop/schema_object.go#qualifiedLabel *)
Definition qualifiedLabel (path name : string) : string :=
  if path == "" then name else path +:+ "." +:+ name.

(** go: internal/agentloop/schema_object.go#rootLabel *)
Definition rootLabel (path : string) : string := if path == "" then "args" else path.

(** go: internal/agentloop/schema_types.go#jsonTypeOf *)
Definition jsonTypeOf (v : json) : string :=
  match v with
  | JNull => "null" | JBool _ => "boolean" | JNumber _ => "number"
  | JString _ => "string" | JArray _ => "array" | JObject _ => "object"
  end.

(** go: internal/agentloop/schema_types.go#wholeJSONNumber *)
Definition wholeJSONNumber (v : json) : bool :=
  match v with
  | JNumber lit =>
      let f := ParseFloat lit in float64_eqb f (float64_of_int (int64_of_float64 f))
  | _ => false
  end.

Definition type_matches (v : json) (t : string) : bool :=
  EqualFold t (jsonTypeOf v)
  || (EqualFold t "integer" && (jsonTypeOf v == "number") && wholeJSONNumber v).

(** go: internal/agentloop/schema_types.go#checkPropType *)
Definition checkPropType (name : string) (v : json) (types : list string) : option error :=
  match types with
  | [] => None
  | _ =>
      if existsb (type_matches v) types then None
      else Some (Errorw ErrInvalidArgs (": property " +:+ quoted name +:+ " has type " +:+ jsonTypeOf v
                   +:+ ", expected " +:+ Join types "|"))
  end.

(** An object is checked member by member against these schemas. *)
Definition is_object_schema (s : argsSchemaDoc) : bool :=
  (args_type s == "object") || (args_type s == "")
  || match args_required s with [] => false | _ => true end
  || match args_properties s with [] => false | _ => true end.

(** [self] is [validateAgainstSchema] for the item schema.
    go: internal/agentloop/schema_array.go#validateSchemaItem *)
Definition validateSchemaItem (self : string → json → option error) (itemSchema : argsSchemaDoc)
    (itemPath : string) (item : json) : option error :=
  if is_object_schema itemSchema then self itemPath item
  else checkPropType itemPath item [args_type itemSchema].

(** The first error met. *)
Definition first_err {A} (f : A → option error) : list A → option error :=
  fix go l := match l with
    | [] => None
    | x :: l => match f x with Some e => Some e | None => go l end
    end.

(** go: internal/agentloop/schema_array.go#validateArrayItems *)
Definition validateArrayItems (self : string → json → option error) (itemSchema : argsSchemaDoc)
    (path : string) (v : json) : option error :=
  match v with
  | JArray arr =>
      first_err (λ ie : nat * json,
        validateSchemaItem self itemSchema (path +:+ "[" +:+ Itoa (Z.of_nat ie.1) +:+ "]") ie.2)
        (imap pair arr)
  | _ => Some (Errorw ErrInvalidArgs (": " +:+ rootLabel path +:+ " must be a JSON array"))
  end.

(** The object branch is [validateObjectAgainstSchema]; which of several failing
    properties is met first is up to the map.
    go: internal/agentloop/schema_object.go:7-45#validateAgainstSchema *)
Fixpoint validateAgainstSchema (sch : argsSchemaDoc) (path : string) (v : json) {struct sch} : option error :=
  let 'mkArgsSchema ty required properties items := sch in
  if (ty == "") || (ty == "object") then
    match v with
    | JObject obj =>
        match first_err (λ req, match any_get obj req with
                | Some _ => None
                | None => Some (Errorw ErrInvalidArgs (": missing required property "
                                  +:+ quoted (qualifiedLabel path req)))
                end) required with
        | Some e => Some e
        | None =>
            first_err (λ np : string * argsPropSchema,
              match any_get obj np.1 with
              | None => None
              | Some raw =>
                  let propPath := qualifiedLabel path np.1 in
                  match checkPropType propPath raw np.2.1 with
                  | Some e => Some e
                  | None =>
                      match np.2.2 with
                      | None => None
                      | Some it => validateArrayItems (λ p x, validateAgainstSchema it p x) it propPath raw
                      end
                  end
              end) properties
        end
    | _ => Some (Errorw ErrInvalidArgs (": " +:+ rootLabel path +:+ " must be a JSON object"))
    end
  else if ty == "array" then
    match items with
    | None => None
    | Some it => validateArrayItems (λ p x, validateAgainstSchema it p x) it path v
    end
  else None.

(** go: internal/agentloop/schema.go#validateToolArgs *)
Definition validateToolArgs (schema args : RawMessage) : option error :=
  if schema == "" then
    if args == "" then None
    else match Unmarshal_any args with
    | Some _ => None
    | None => Some (Errorw ErrInvalidArgs ": args are not valid JSON")
    end
  else match Unmarshal dec_args zero_args schema with
  | None => Some (Errorw ErrInvalidArgs ": tool schema is not valid JSON")
  | Some sch =>
      if args == "" then Some (Errorw ErrInvalidArgs ": args must be a JSON object")
      else match Unmarshal_any args with
      | None => Some (Errorw ErrInvalidArgs ": args are not valid JSON")
      | Some v => validateAgainstSchema sch "" v
      end
  end.
End Validate.

(** ** What a schema accepts *)

(** A value of one of the types; no types accept everything. *)
Definition type_accepts (types : list string) (v : json) : Prop :=
  types = [] ∨ ∃ t, t ∈ types ∧ type_matches v t = true.

Fixpoint args_accepts (sch : argsSchemaDoc) (v : json) {struct sch} : Prop :=
  let 'mkArgsSchema ty required properties items := sch in
  let item_accepts (it : argsSchemaDoc) (accepts : json → Prop) (x : json) :=
    ∃ arr, x = JArray arr ∧ ∀ e, In e arr →
      if is_object_schema it then accepts e else type_accepts [args_type it] e in
  if (ty == "") || (ty == "object") then
    ∃ obj, v = JObject obj
      ∧ (∀ req, In req required → is_Some (any_get obj req))
      ∧ foldr (λ (np : string * argsPropSchema) P,
          (∀ raw, any_get obj np.1 = Some raw →
             type_accepts np.2.1 raw
             ∧ match np.2.2 with
               | None => True
               | Some it => item_accepts it (λ x, args_accepts it x) raw
               end) ∧ P) True properties
  else if ty == "array" then
    match items with None => True | Some it => item_accepts it (λ x, args_accepts it x) v end
  else True.

(** Arguments a tool may be called with. *)
Definition tool_accepts (schema args : RawMessage) : Prop :=
  if schema == "" then args = "" ∨ is_Some (Unmarshal_any args)
  else ∃ sch v, Unmarshal dec_args zero_args schema = Some sch
    ∧ args ≠ "" ∧ Unmarshal_any args = Some v ∧ args_accepts sch v.

Section ArgsInd.
Variable P : argsSchemaDoc → Prop.
Definition opt_holds (o : option argsSchemaDoc) : Prop :=
  match o with Some it => P it | None => True end.
Hypothesis H : ∀ ty required properties items,
  Forall (λ np : string * argsPropSchema, opt_holds np.2.2) properties →
  opt_holds items → P (mkArgsSchema ty required properties items).

Fixpoint args_induction (d : argsSchemaDoc) : P d :=
  match d with
  | mkArgsSchema ty required properties items =>
      H ty required properties items
        ((fix go (l : list (string * argsPropSchema)) :
            Forall (λ np : string * argsPropSchema, opt_holds np.2.2) l :=
            match l with
            | [] => Forall_nil_2 _
            | (n, (types, o)) :: l =>
                Forall_cons_2 _ (n, (types, o)) l
                  (match o return opt_holds o with Some it => args_induction it | None => I end) (go l)
            end) properties)
        (match items return opt_holds items with Some it => args_induction it | None => I end)
  end.
End ArgsInd.

Section ValidateProofs.
Context {table : IsPrint}.

Lemma first_err_None {A} (f : A → option error) l :
  first_err f l = None ↔ ∀ x, In x l → f x = None.
Proof.
  induction l as [|x l IH]; cbn; [by split|]. destruct (f x) eqn:E.
  - split; [done|]. intros H. by rewrite (H x (or_introl eq_refl)) in E.
  - rewrite IH. split; [intros H y [<-|Hy]; auto|auto].
Qed.

Lemma checkPropType_None name v types : checkPropType name v types = None ↔ type_accepts types v.
Proof.
  unfold checkPropType, type_accepts. destruct types as [|t types]; [split; [by left|done]|].
  destruct (existsb _ _) eqn:E.
  - apply existsb_exists in E as (t' & Hin & Ht). split; [|done]. intros _. right. exists t'.
    by rewrite list_elem_of_In.
  - split; [done|]. intros [?|(t' & Hin & Ht)]; [done|].
    rewrite list_elem_of_In in Hin. assert (existsb (type_matches v) (t :: types) = true) as E'
      by (apply existsb_exists; by exists t'). congruence.
Qed.

Lemma validateArrayItems_None self it (accepts : json → Prop) path v :
  (∀ p x, self p x = None ↔ accepts x) →
  validateArrayItems self it path v = None ↔
  ∃ arr, v = JArray arr ∧ ∀ e, In e arr →
    if is_object_schema it then accepts e else type_accepts [args_type it] e.
Proof.
  intros Hself. unfold validateArrayItems. destruct v as [| | | |arr|]; try (split; [done|by intros (? & ? & _)]).
  rewrite first_err_None. unfold validateSchemaItem. split.
  - intros H. exists arr. split; [done|]. intros e He.
    apply (in_imap_pair arr (λ n, n)) in He as [i Hi]. specialize (H (i, e) Hi). cbn [fst snd] in H.
    destruct (is_object_schema it); [by apply Hself in H|by apply checkPropType_None in H].
  - intros (arr' & [= <-] & H) [i e] Hi. cbn [fst snd].
    assert (In e arr) as He by (apply (in_imap_pair arr (λ n, n)); by exists i). specialize (H e He).
    destruct (is_object_schema it); [by apply Hself|by apply checkPropType_None].
Qed.

Lemma validateAgainstSchema_None sch : ∀ path v,
  validateAgainstSchema sch path v = None ↔ args_accepts sch v.
Proof.
  induction sch as [ty required properties items IHp IHi] using args_induction; intros path v.
  cbn [validateAgainstSchema args_accepts]. destruct (_ || _).
  - destruct v as [| | | | |obj]; try (split; [done|by intros (? & ? & _)]).
    assert (first_err (λ req, match any_get obj req with
                | Some _ => None
                | None => Some (Errorw ErrInvalidArgs (": missing required property "
                                  +:+ quoted (qualifiedLabel path req)))
                end) required = None ↔ ∀ req, In req required → is_Some (any_get obj req)) as Hreq.
    { rewrite first_err_None. split; intros H r Hr; specialize (H r Hr).
      - destruct (any_get obj r); [by eexists|done].
      - by destruct H as [? ->]. }
    destruct (first_err _ required).
    { split; [done|]. intros (obj' & [= <-] & H & _). by apply Hreq in H. }
    rewrite first_err_None. split.
    + intros H. exists obj. split; [done|]. split; [by apply Hreq|]. apply foldr_and.
      intros [n [types o]] Hnp raw Hraw. specialize (H _ Hnp). cbn in H, Hraw |- *. rewrite Hraw in H.
      rewrite list.Forall_forall in IHp. specialize (IHp _ (proj2 (list_elem_of_In _ _) Hnp)). cbn in IHp.
      destruct (checkPropType _ raw types) eqn:Et; [done|]. apply checkPropType_None in Et. split; [done|].
      destruct o as [it|]; [|done]. by apply (validateArrayItems_None _ _ (λ x, args_accepts it x)) in H.
    + intros (obj' & [= <-] & _ & H) [n [types o]] Hnp. cbn. rewrite foldr_and in H.
      specialize (H _ Hnp). cbn in H. destruct (any_get obj n) as [raw|]; [|done].
      destruct (H raw eq_refl) as [H1 H2].
      rewrite list.Forall_forall in IHp. specialize (IHp _ (proj2 (list_elem_of_In _ _) Hnp)). cbn in IHp.
      rewrite (proj2 (checkPropType_None _ _ _) H1).
      destruct o as [it|]; [|done]. by apply (validateArrayItems_None _ _ (λ x, args_accepts it x)).
  - destruct (ty == "array"); [|done]. destruct items as [it|]; [|done].
    by apply (validateArrayItems_None _ _ (λ x, args_accepts it x)).
Qed.

(** *** Failures are typed *)

Definition typed (o : option error) : Prop := ∀ e, o = Some e → errors_Is e ErrInvalidArgs = true.

Lemma typed_None : typed None.
Proof. done. Qed.

Lemma typed_Errorw t : typed (Some (Errorw ErrInvalidArgs t)).
Proof. by intros e [= <-]. Qed.

Lemma typed_first_err {A} (f : A → option error) l : (∀ x, In x l → typed (f x)) → typed (first_err f l).
Proof.
  induction l as [|x l IH]; intros H; cbn; [done|]. destruct (f x) eqn:E; [|by apply IH; auto with datatypes].
  intros e' [= <-]. eapply (H x); [by left|done].
Qed.

Lemma typed_checkPropType name v types : typed (checkPropType name v types).
Proof. unfold checkPropType. repeat case_match; auto using typed_None, typed_Errorw. Qed.

Lemma typed_items self it path v : (∀ p x, typed (self p x)) → typed (validateArrayItems self it path v).
Proof.
  intros H. unfold validateArrayItems, validateSchemaItem. destruct v; try apply typed_Errorw.
  apply typed_first_err. intros x _. case_match; [apply H|apply typed_checkPropType].
Qed.

Lemma typed_schema sch : ∀ path v, typed (validateAgainstSchema sch path v).
Proof.
  induction sch as [ty required properties items IHp IHi] using args_induction; intros path v.
  cbn [validateAgainstSchema]. destruct (_ || _).
  - destruct v; try apply typed_Errorw. case_match eqn:E.
    + intros e' [= <-]. revert E. apply (typed_first_err _ _). intros r _. case_match; [done|apply typed_Errorw].
    + apply typed_first_err. intros [n [types o]] Hnp. cbn.
      rewrite list.Forall_forall in IHp. specialize (IHp _ (proj2 (list_elem_of_In _ _) Hnp)). cbn in IHp.
      destruct (any_get _ n); [|done]. case_match eqn:Et; [rewrite <- Et; apply typed_checkPropType|].
      destruct o; [|done]. by apply typed_items.
  - destruct (ty == "array"); [|done]. destruct items; [|done]. by apply typed_items.
Qed.

Lemma validateToolArgs_exact schema args :
  (validateToolArgs schema args = None ↔ tool_accepts schema args)
  ∧ ∀ e, validateToolArgs schema args = Some e → errors_Is e ErrInvalidArgs = true.
Proof.
  unfold validateToolArgs, tool_accepts. destruct (schema == "").
  - destruct (String.eqb_spec args "") as [->|Hne]; [split; [split; [by left|done]|done]|].
    destruct (Unmarshal_any args) as [v|]; (split; [|apply typed_None || apply typed_Errorw]).
    + split; [intros _; right; by eexists|done].
    + split; [done|]. intros [?|[? ?]]; done.
  - destruct (Unmarshal dec_args zero_args schema) as [sch|];
      [|split; [split; [done|by intros (? & ? & ? & _)]|apply typed_Errorw]].
    destruct (String.eqb_spec args "") as [->|Hne];
      [split; [split; [done|by intros (? & ? & _ & ? & _)]|apply typed_Errorw]|].
    destruct (Unmarshal_any args) as [v|];
      [|split; [split; [done|by intros (? & ? & _ & _ & ? & _)]|apply typed_Errorw]].
    split; [|apply typed_schema]. rewrite validateAgainstSchema_None. split.
    + intros H. by exists sch, v.
    + by intros (sch' & v' & [= <-] & _ & [= <-] & ?).
Qed.

End ValidateProofs.
