(* ===== verification/AgentLoop.v ===== *)
(** * The agent loop

    [internal/agentloop]: a broker of tool calls under three budgets (tool calls, model
    turns, wall time).  Handlers of tools, the model and the clock are the
    environment.  Calls run concurrently: the loop's state is shared, every section
    under its mutex is atomic, and between two sections of one call the others may have
    taken any number of theirs, which the world's [lw_others] stands for. *)

From stdpp Require Import relations.
From S2P Require Import Prelude GoText Json GoErr Gateway ToolArgs.

(** ** Data *)

(** go: internal/agentloop/loop.go#CallSource *)
Inductive CallSource := CallSourceHandler | CallSourceModel.

(** go: internal/agentloop/budget.go#Budget *)
Record Budget := mkBudget { MaxToolCalls : Z; MaxModelCalls : Z; MaxWallTime : Duration }.

(** go: internal/agentloop/budget.go#DefaultMaxToolCalls *)
Definition DefaultMaxToolCalls : Z := 50.
(** go: internal/agentloop/budget.go#DefaultMaxModelCalls *)
Definition DefaultMaxModelCalls : Z := 20.
(** go: internal/agentloop/budget.go#DefaultMaxWallTime *)
Definition DefaultMaxWallTime : Duration := (300 * Second)%Z.

Definition positive_or (n d : Z) : Z := if (n <=? 0)%Z then d else n.

(** go: internal/agentloop/budget.go#applyBudgetDefaults *)
Definition applyBudgetDefaults (b : Budget) : Budget :=
  mkBudget (positive_or (MaxToolCalls b) DefaultMaxToolCalls)
    (positive_or (MaxModelCalls b) DefaultMaxModelCalls)
    (positive_or (MaxWallTime b) DefaultMaxWallTime).

(** A handler runs under a context from a moment on; it ends at a moment with a result,
    an error, or both.
    go: internal/agentloop/tools.go#ToolHandler *)
Definition ToolHandler : Type := nat → Context → RawMessage → (RawMessage * option error) * nat.

(** [None] is the nil handler.
    go: internal/agentloop/tools.go#ToolSpec *)
Record ToolSpec := mkToolSpec {
  spec_Name : string; spec_ArgsSchema : RawMessage; spec_Handler : option ToolHandler
}.

(** go: internal/agentloop/tools.go#registeredTool *)
Record registeredTool := mkRegisteredTool { rt_schema : RawMessage; rt_handler : ToolHandler }.

(** go: internal/agentloop/loop_call.go#RecordedCall *)
Record RecordedCall := mkRecordedCall {
  rc_Name : string; rc_Source : CallSource; rc_Args : RawMessage;
  rc_Result : RawMessage; rc_Err : option error
}.

(** The clock is the environment's.
    go: internal/agentloop/loop.go#Loop *)
Record Loop := mkLoop {
  l_tools : gmap string registeredTool;
  l_budget : Budget;
  l_start : Time;
  l_toolCalls : Z;
  l_modelCalls : Z;
  l_calls : list RecordedCall
}.

(** ** Core tools *)

(** go: internal/agentloop/tools.go#ToolSemanticsAnalyze *)
Definition ToolSemanticsAnalyze : string := "semantics_analyze".
(** go: internal/agentloop/tools.go#ToolCodeSignalReport *)
Definition ToolCodeSignalReport : string := "codesignal_report".

(** go: internal/agentloop/core_tools.go#coreSemanticsSchema *)
Definition coreSemanticsSchema : RawMessage := jtext "{
  'type':'object',
  'required':['path','language','content'],
  'properties':{
    'path':{'type':'string'},
    'language':{'type':'string'},
    'content':{'type':'string'}
  }
}".

(** go: internal/agentloop/core_tools.go#coreCodeSignalSchema *)
Definition coreCodeSignalSchema : RawMessage := jtext "{
  'type':'object',
  'required':['files'],
  'properties':{
    'files':{
      'type':'array',
      'items':{
        'type':'object',
        'required':['path'],
        'properties':{
          'path':{'type':'string'}
        }
      }
    },
    'baseline':{'type':'boolean'},
    'repository':{'type':'string'},
    'revision':{'type':'string'},
    'include_resolved':{'type':'boolean'},
    'diagnostics':{'type':'array'}
  }
}".

(** The injected core handlers, or the package's.
    go: internal/agentloop/loop.go#Options *)
Record Options := mkOptions {
  opt_Budget : Budget;
  opt_SemanticsAnalyze : option ToolHandler;
  opt_CodeSignalReport : option ToolHandler
}.

(** A core tool's name, schema and choice of handler.
    go: internal/agentloop/tools.go#coreToolDef *)
Record coreToolDef := mkCoreToolDef {
  def_name : string; def_schema : RawMessage; def_pick : Options → ToolHandler
}.

Section Loop.
Context {table : IsPrint} `{JsonErrors}.

(** The package's own handlers of the two core tools. *)
Variables (DefaultSemanticsAnalyze DefaultCodeSignalReport : ToolHandler).

(** go: internal/agentloop/tools.go#coreToolDefs *)
Definition coreToolDefs : list coreToolDef :=
  [mkCoreToolDef ToolSemanticsAnalyze coreSemanticsSchema
     (λ o, default DefaultSemanticsAnalyze (opt_SemanticsAnalyze o));
   mkCoreToolDef ToolCodeSignalReport coreCodeSignalSchema
     (λ o, default DefaultCodeSignalReport (opt_CodeSignalReport o))].

(** go: internal/agentloop/tools.go#isCoreToolName *)
Definition isCoreToolName (name : string) : bool := existsb (λ d, def_name d == name) coreToolDefs.

(** go: internal/agentloop/tools.go#newCoreToolRegistry *)
Definition newCoreToolRegistry (opts : Options) : gmap string registeredTool :=
  fold_left (λ tools d, <[def_name d := mkRegisteredTool (def_schema d) (def_pick d opts)]> tools)
    coreToolDefs ∅.

(** go: internal/agentloop/tools.go#rejectCoreToolRegister *)
Definition rejectCoreToolRegister (name : string) : option error :=
  if negb (isCoreToolName name) then None
  else Some (errors_New ("agentloop: cannot replace core tool " +:+ quoted name
               +:+ " via Register; inject via Options")).

(** [now] is the clock's reading.
    go: internal/agentloop/loop.go#New *)
Definition New (opts : Options) (now : Time) : Loop :=
  mkLoop (newCoreToolRegistry opts) (applyBudgetDefaults (opt_Budget opts)) now 0 0 [].

(** ** Sections under the mutex *)

Definition wall_error (b : Budget) : error :=
  Errorw ErrBudgetExceeded (": max_wall_time " +:+ Duration_String (MaxWallTime b)).

(** go: internal/agentloop/budget.go#checkWallLocked *)
Definition checkWallLocked (now : Time) (l : Loop) : option error :=
  if (MaxWallTime (l_budget l) <=? Sub now (l_start l))%Z then Some (wall_error (l_budget l)) else None.

(** [l.calls = append(l.calls, rec)]. *)
Definition append_call (rec : RecordedCall) (l : Loop) : Loop :=
  mkLoop (l_tools l) (l_budget l) (l_start l) (l_toolCalls l) (l_modelCalls l) (l_calls l ++ [rec]).

(** The first section of [Call].
    go: internal/agentloop/loop_call.go:25-47#Call *)
Definition admitCall (source : CallSource) (name : string) (args : RawMessage) (now : Time) (l : Loop) :
    Loop * (error + registeredTool) :=
  match checkWallLocked now l with
  | Some e => (l, inl e)
  | None =>
      if (MaxToolCalls (l_budget l) <=? l_toolCalls l)%Z
      then (l, inl (Errorw ErrBudgetExceeded (": max_tool_calls " +:+ Itoa (MaxToolCalls (l_budget l)))))
      else match l_tools l !! name with
      | None =>
          (append_call (mkRecordedCall name source args "" (Some (sentinel_error ErrUnknownTool))) l,
           inl (sentinel_error ErrUnknownTool))
      | Some tool =>
          (mkLoop (l_tools l) (l_budget l) (l_start l) (l_toolCalls l + 1) (l_modelCalls l) (l_calls l),
           inr tool)
      end
  end.

(** go: internal/agentloop/loop_call.go#reserveModelCall *)
Definition reserveModelCall (now : Time) (l : Loop) : Loop * option error :=
  match checkWallLocked now l with
  | Some e => (l, Some e)
  | None =>
      if (MaxModelCalls (l_budget l) <=? l_modelCalls l)%Z
      then (l, Some (Errorw ErrBudgetExceeded (": max_model_calls " +:+ Itoa (MaxModelCalls (l_budget l)))))
      else (mkLoop (l_tools l) (l_budget l) (l_start l) (l_toolCalls l) (l_modelCalls l + 1) (l_calls l), None)
  end.

(** go: internal/agentloop/loop.go#Register *)
Definition Register (spec : ToolSpec) (l : Loop) : Loop * option error :=
  if spec_Name spec == "" then (l, Some (errors_New "agentloop: tool name is required")) else
  match spec_Handler spec with
  | None => (l, Some (errors_New "agentloop: tool handler is required"))
  | Some handler =>
      match rejectCoreToolRegister (spec_Name spec) with
      | Some e => (l, Some e)
      | None =>
          (mkLoop (<[spec_Name spec := mkRegisteredTool (spec_ArgsSchema spec) handler]> (l_tools l))
             (l_budget l) (l_start l) (l_toolCalls l) (l_modelCalls l) (l_calls l), None)
      end
  end.

(** One atomic section of anyone. *)
Inductive loop_step : Loop → Loop → Prop :=
  | step_admit source name args now l : loop_step l (fst (admitCall source name args now l))
  | step_record rec l : loop_step l (append_call rec l)
  | step_model now l : loop_step l (fst (reserveModelCall now l))
  | step_register spec l : loop_step l (fst (Register spec l)).

(** ** The world of one call *)

(** The shared loop, the moment, and what the environment does: the others' sections
    before each of ours, the loop's clock, and the runtime's timers.  [lw_runs] notes
    which handlers this goroutine ran. *)
Record LoopWorld := mkLoopWorld {
  lw_loop : Loop;
  lw_moment : nat;
  lw_others : nat → Loop → Loop;
  lw_clock : nat → Time;
  lw_timer : nat → Time;
  lw_runs : list (string * registeredTool * RawMessage)
}.

Definition M (A : Type) : Type := LoopWorld → LoopWorld * A.
#[local] Instance M_ret : MRet M := λ A x w, (w, x).
#[local] Instance M_bind : MBind M := λ A B f m w, let '(w', x) := m w in f x w'.

(** A section under the mutex: after the others', with two readings of the clock. *)
Definition locked {A} (f : Time → Time → Loop → Loop * A) : M A := λ w,
  let m := lw_moment w in
  let '(l, x) := f (lw_clock w m) (lw_clock w (S m)) (lw_others w m (lw_loop w)) in
  (mkLoopWorld l (S (S m)) (lw_others w) (lw_clock w) (lw_timer w) (lw_runs w), x).

(** [ctx.Err()]. *)
Definition poll (ctx : Context) : M (option error) := λ w, (w, ctx_Err ctx (lw_moment w)).

(** go: internal/agentloop/loop_call.go#record *)
Definition record (name : string) (source : CallSource) (args result : RawMessage) (err : option error) :
    M unit := locked (λ _ _ l, (append_call (mkRecordedCall name source args result err) l, tt)).

(** go: internal/agentloop/budget.go#checkWall *)
Definition checkWall : M (option error) := locked (λ now _ l, (l, checkWallLocked now l)).

(** The child context carries what is left of the wall budget.
    go: internal/agentloop/budget.go#wallBudgetContext *)
Definition wallBudgetContext (ctx : Context) : M (error + Context) :=
  err ← poll ctx;
  match err with
  | Some e => mret (inl e)
  | None => λ w,
      let m := lw_moment w in
      locked (λ now1 now2 l,
        (l, match checkWallLocked now1 l with
            | Some e => inl e
            | None =>
                let remaining := int64_wrap (MaxWallTime (l_budget l) - Sub now2 (l_start l)) in
                if (remaining <=? 0)%Z then inl (wall_error (l_budget l))
                else inr (WithTimeout (lw_timer w) ctx (S (S m)) remaining)
            end)) w
  end.

(** The budget never changes, so it is read without the mutex.
    go: internal/agentloop/budget.go#mapWallErr *)
Definition mapWallErr (parent opCtx : Context) (err : option error) : M (option error) := λ w,
  (w, match err with
      | None => None
      | Some e =>
          match ctx_Err parent (lw_moment w) with
          | Some _ => Some e
          | None =>
              match ctx_Err opCtx (lw_moment w) with
              | None => Some e
              | Some opErr =>
                  if errors_Is e DeadlineExceeded || errors_Is e Canceled
                     || errors_Is opErr DeadlineExceeded || errors_Is opErr Canceled
                  then Some (wall_error (l_budget (lw_loop w))) else Some e
              end
          end
      end).

(** Running a handler takes at least a moment. *)
Definition run_handler (name : string) (tool : registeredTool) (opCtx : Context) (args : RawMessage) :
    M (RawMessage * option error) := λ w,
  let '(outcome, ended) := rt_handler tool (lw_moment w) opCtx args in
  (mkLoopWorld (lw_loop w) (S (lw_moment w) `max` ended) (lw_others w) (lw_clock w) (lw_timer w)
     (lw_runs w ++ [(name, tool, args)]),
   outcome).

(** go: internal/agentloop/loop_call.go#Call *)
Definition Call (ctx : Context) (source : CallSource) (name : string) (args : RawMessage) :
    M (RawMessage * option error) :=
  err ← poll ctx;
  match err with
  | Some e => mret ("", Some e)
  | None =>
      admitted ← locked (λ now _ l, admitCall source name args now l);
      match admitted with
      | inl e => mret ("", Some e)
      | inr tool =>
          match validateToolArgs (rt_schema tool) args with
          | Some e => _ ← record name source args "" (Some e); mret ("", Some e)
          | None =>
              child ← wallBudgetContext ctx;
              match child with
              | inl e => _ ← record name source args "" (Some e); mret ("", Some e)
              | inr opCtx =>
                  outcome ← run_handler name tool opCtx args;
                  err ← mapWallErr ctx opCtx (snd outcome);
                  _ ← record name source args (fst outcome) err;
                  mret (fst outcome, err)
              end
          end
      end
  end.

(** ** Turns of a model *)

(** go: internal/agentloop/loop_run.go#ToolCall *)
Record ToolCall := mkToolCall { tc_Name : string; tc_Args : RawMessage }.

(** go: internal/agentloop/loop_run.go#TurnResponse *)
Record TurnResponse := mkTurnResponse { tr_Text : string; tr_ToolCalls : list ToolCall }.

(** What the model answers at each moment.
    go: internal/agentloop/loop_run.go#TurnGateway *)
Definition TurnGateway : Type := nat → Context → string → error + TurnResponse.

(** [json.Marshal] of a slice of raw messages. *)
Definition marshal_raws (raws : list RawMessage) : error + string :=
  match mapM marshal_raw raws with
  | Some js => inr (print (JArray js))
  | None => inl (errors_New (json_error_text "[]json.RawMessage" ""))
  end.

(** go: internal/agentloop/loop_call.go#runModelToolCalls *)
Fixpoint runModelToolCalls (ctx : Context) (calls : list ToolCall) (toolResults : list RawMessage) :
    M (error + string) :=
  match calls with
  | [] => mret (marshal_raws toolResults)
  | tc :: calls =>
      out ← Call ctx CallSourceModel (tc_Name tc) (tc_Args tc);
      match snd out with
      | Some e => mret (inl e)
      | None => runModelToolCalls ctx calls (toolResults ++ [fst out])
      end
  end.

(** One turn of the model takes a moment. *)
Definition generate (gw : TurnGateway) (opCtx : Context) (prompt : string) : M (error + TurnResponse) :=
  λ w, (mkLoopWorld (lw_loop w) (S (lw_moment w)) (lw_others w) (lw_clock w) (lw_timer w) (lw_runs w),
        gw (lw_moment w) opCtx prompt).

(** go: internal/agentloop/loop_run.go#nextTurn *)
Definition nextTurn (ctx : Context) (gw : TurnGateway) (prompt : string) : M (error + TurnResponse) :=
  err ← poll ctx;
  match err with
  | Some e => mret (inl e)
  | None =>
      err ← locked (λ now _ l, reserveModelCall now l);
      match err with
      | Some e => mret (inl e)
      | None =>
          child ← wallBudgetContext ctx;
          match child with
          | inl e => mret (inl e)
          | inr opCtx =>
              resp ← generate gw opCtx prompt;
              err ← mapWallErr ctx opCtx (match resp with inl e => Some e | inr _ => None end);
              match err with
              | Some e => mret (inl e)
              | None =>
                  err ← checkWall;
                  match err, resp with
                  | Some e, _ => mret (inl e)
                  | None, inr resp => mret (inr resp)
                  | None, inl e => mret (inl e)
                  end
              end
          end
      end
  end.

(** The loop of [Run]; [None] when the fuel ran out. *)
Fixpoint run_turns (fuel : nat) (ctx : Context) (gw : TurnGateway) (prompt : string) :
    M (option (error + string)) :=
  match fuel with
  | O => mret None
  | S fuel =>
      resp ← nextTurn ctx gw prompt;
      match resp with
      | inl e => mret (Some (inl e))
      | inr resp =>
          match tr_ToolCalls resp with
          | [] => mret (Some (inr (tr_Text resp)))
          | calls =>
              next ← runModelToolCalls ctx calls [];
              match next with
              | inl e => mret (Some (inl e))
              | inr prompt => run_turns fuel ctx gw prompt
              end
          end
      end
  end.

(** The final text of a run, [None] for the nil gateway.  Each turn takes a model call,
    so the calls left and one more are fuel enough.
    go: internal/agentloop/loop_run.go#Run *)
Definition Run (ctx : Context) (gw : option TurnGateway) (prompt : string) :
    M (option (error + string)) :=
  match gw with
  | None => mret (Some (inl (errors_New "agentloop: TurnGateway is required")))
  | Some gw => λ w,
      run_turns (S (Z.to_nat (MaxModelCalls (l_budget (lw_loop w)) - l_modelCalls (lw_loop w)))) ctx gw prompt w
  end.
End Loop.

(** ** Invariants of the shared loop *)

#[local] Arguments isCoreToolName : simpl never.

Section Invariants.
Context {table : IsPrint} `{JsonErrors}.
Variables (ds dc : ToolHandler).
Notation loop_step := (loop_step ds dc).

(** What no section undoes. *)
Record grows (l l' : Loop) : Prop := {
  grows_budget : l_budget l' = l_budget l;
  grows_start : l_start l' = l_start l;
  grows_tool_calls : (l_toolCalls l <= l_toolCalls l')%Z;
  grows_model_calls : (l_modelCalls l <= l_modelCalls l')%Z;
  grows_tools : ∀ name, is_Some (l_tools l !! name) → is_Some (l_tools l' !! name);
  grows_core : ∀ name, isCoreToolName ds dc name = true → l_tools l' !! name = l_tools l !! name;
  grows_calls : l_calls l `prefix_of` l_calls l'
}.

#[local] Instance grows_refl : Reflexive grows.
Proof. intros l. split; auto; lia. Qed.

#[local] Instance grows_trans : Transitive grows.
Proof.
  intros a b c [] []. split; try congruence; try lia; auto.
  - intros name Hn. rewrite grows_core1, grows_core0; done.
  - by etrans.
Qed.

(** The budgets hold. *)
Definition within (l : Loop) : Prop :=
  (0 <= l_toolCalls l <= MaxToolCalls (l_budget l))%Z ∧
  (0 <= l_modelCalls l <= MaxModelCalls (l_budget l))%Z.

Lemma step_grows l l' : loop_step l l' → grows l l' ∧ (within l → within l').
Proof.
  intros [source name args now l0|rec l0|now l0|spec l0].
  - unfold admitCall. destruct (checkWallLocked now l0); [done|].
    destruct (_ <=? _)%Z eqn:E; [done|]. apply Z.leb_gt in E. destruct (l_tools l0 !! name).
    + unfold within. cbn. split; [split; cbn; auto; lia|lia].
    + split; [split; cbn; auto; [lia|lia|by eexists]|done].
  - split; [split; cbn; auto; [lia|lia|by eexists]|done].
  - unfold reserveModelCall. destruct (checkWallLocked now l0); [done|].
    destruct (_ <=? _)%Z eqn:E; [done|]. apply Z.leb_gt in E.
    unfold within. cbn. split; [split; cbn; auto; lia|lia].
  - unfold Register, rejectCoreToolRegister. destruct (_ == _); [done|].
    destruct (spec_Handler spec) as [h|]; [|done].
    destruct (isCoreToolName ds dc (spec_Name spec)) eqn:E; [done|]. cbn.
    split; [|done]. split; cbn; auto; [lia|lia|..].
    + intros name Hn. destruct (decide (spec_Name spec = name)) as [->|];
        [rewrite lookup_insert_eq; by eexists|by rewrite lookup_insert_ne].
    + intros name Hn. rewrite lookup_insert_ne; [done|]. by intros <-; rewrite Hn in E.
Qed.

Lemma steps_grow l l' : rtc loop_step l l' → grows l l' ∧ (within l → within l').
Proof.
  induction 1 as [|a b c [H1 H2]%step_grows _ [H3 H4]]; [done|]. split; [by etrans|auto].
Qed.

Lemma New_within opts now : within (New ds dc opts now).
Proof.
  unfold within, New, applyBudgetDefaults, positive_or, DefaultMaxToolCalls, DefaultMaxModelCalls. cbn.
  split; destruct (_ <=? 0)%Z eqn:E; try lia; apply Z.leb_gt in E; lia.
Qed.

(** C6: Whatever calls, turns and registrations run against a loop, in any order and
    interleaved section by section, neither counter exceeds its budget, the budget and
    start stay as they were made, the two core tools stay what they were, and no
    record of a call is lost. *)
Theorem budgets_hold opts now l :
  rtc loop_step (New ds dc opts now) l →
  (0 <= l_toolCalls l <= MaxToolCalls (l_budget l))%Z
  ∧ (0 <= l_modelCalls l <= MaxModelCalls (l_budget l))%Z
  ∧ l_budget l = applyBudgetDefaults (opt_Budget opts) ∧ l_start l = now
  ∧ (∀ d, In d (coreToolDefs ds dc) →
       l_tools l !! def_name d = Some (mkRegisteredTool (def_schema d) (def_pick d opts)))
  ∧ ∀ l', rtc loop_step l l' → l_calls l `prefix_of` l_calls l'.
Proof.
  intros Hl. destruct (steps_grow _ _ Hl) as [G W]. destruct (W (New_within opts now)) as [W1 W2].
  repeat split; try apply W1; try apply W2; try apply G.
  - intros d Hd. rewrite (grows_core _ _ G).
    + destruct Hd as [<-|[<-|[]]]; reflexivity.
    + unfold isCoreToolName. apply existsb_exists. exists d. split; [done|]. apply String.eqb_refl.
  - intros l' Hl'. apply steps_grow in Hl' as [G' _]. apply G'.
Qed.

(** ** One call among others *)

(** The others take sections of the loop's. *)
Definition fair_world (w : LoopWorld) : Prop := ∀ m l, rtc loop_step l (lw_others w m l).

(** A handler that was run: its tool was registered under the name, and the arguments
    were accepted. *)
Definition valid_run (l : Loop) (run : string * registeredTool * RawMessage) : Prop :=
  let '(name, tool, args) := run in
  tool_accepts (rt_schema tool) args ∧ ∃ l', rtc loop_step l l' ∧ l_tools l' !! name = Some tool.

(** From one world to a later one of the same goroutine, with the handlers run on the
    way: each was charged to the tool budget. *)
Definition progress (w w' : LoopWorld) (runs : list (string * registeredTool * RawMessage)) : Prop :=
  rtc loop_step (lw_loop w) (lw_loop w') ∧ lw_others w' = lw_others w
  ∧ lw_runs w' = lw_runs w ++ runs
  ∧ (Z.of_nat (length runs) <= l_toolCalls (lw_loop w') - l_toolCalls (lw_loop w))%Z
  ∧ Forall (valid_run (lw_loop w)) runs.

Lemma progress_refl w : progress w w [].
Proof. split; [done|]. split; [done|]. rewrite app_nil_r. split; [done|]. split; [cbn; lia|done]. Qed.

Lemma valid_run_earlier l l' run : rtc loop_step l l' → valid_run l' run → valid_run l run.
Proof. destruct run as [[name tool] args]. intros Hl [H1 (l2 & H2 & H3)]. split; [done|]. exists l2. split; [by etrans|done]. Qed.

Lemma progress_trans w1 w2 w3 r1 r2 : progress w1 w2 r1 → progress w2 w3 r2 → progress w1 w3 (r1 ++ r2).
Proof.
  intros (S1 & O1 & R1 & N1 & V1) (S2 & O2 & R2 & N2 & V2). split; [by etrans|].
  split; [congruence|]. split; [by rewrite R2, R1, app_assoc|]. split; [rewrite length_app; lia|].
  apply list.Forall_app. split; [done|]. eapply list.Forall_impl; [exact V2|]. intros. by eapply valid_run_earlier.
Qed.

Lemma progress_fair w w' r : fair_world w → progress w w' r → fair_world w'.
Proof. intros Hf (_ & Ho & _) m l. rewrite Ho. apply Hf. Qed.

Lemma progress_step w1 w2 w3 r : progress w1 w2 [] → progress w2 w3 r → progress w1 w3 r.
Proof. intros H1 H2. apply (progress_trans _ _ _ _ _ H1 H2). Qed.

(** A section of ours that is one of the loop's. *)
Lemma locked_progress {A} (f : Time → Time → Loop → Loop * A) w :
  fair_world w → (∀ n1 n2 l, rtc loop_step l (fst (f n1 n2 l))) →
  progress w (fst (locked f w)) [].
Proof.
  intros Hf Hs. unfold locked. specialize (Hf (lw_moment w) (lw_loop w)).
  specialize (Hs (lw_clock w (lw_moment w)) (lw_clock w (S (lw_moment w))) (lw_others w (lw_moment w) (lw_loop w))).
  destruct (f _ _ _) as [l x]. cbn in *. assert (rtc loop_step (lw_loop w) l) as Hl by by etrans.
  split; [done|]. split; [done|]. cbn. rewrite app_nil_r. split; [done|]. split; [|done].
  apply steps_grow in Hl as [G _]. pose proof (grows_tool_calls _ _ G). lia.
Qed.

Lemma record_progress w name source args result err : fair_world w →
  progress w (fst (record name source args result err w)) []
  ∧ In (mkRecordedCall name source args result err) (l_calls (lw_loop (fst (record name source args result err w)))).
Proof.
  intros Hf. split.
  - apply locked_progress; [done|]. intros. cbn. apply rtc_once. constructor.
  - cbn. apply in_or_app. right. by left.
Qed.

Lemma wallBudgetContext_progress w ctx : fair_world w →
  progress w (fst (wallBudgetContext ctx w)) []
  ∧ ∀ e, snd (wallBudgetContext ctx w) = inl e →
      ctx_Err ctx (lw_moment w) = Some e ∨ errors_Is e ErrBudgetExceeded = true.
Proof.
  intros Hf. unfold wallBudgetContext, mbind, M_bind, poll.
  destruct (ctx_Err ctx (lw_moment w)) as [e|] eqn:E.
  - cbn. split; [apply progress_refl|]. intros ? [= <-]. by left.
  - split.
    + apply locked_progress; [done|]. intros. cbn. done.
    + intros e. unfold locked, checkWallLocked. cbn [snd fst].
      destruct (_ <=? _)%Z; [intros [= <-]; by right|]. destruct (_ <=? 0)%Z; [intros [= <-]; by right|done].
Qed.
(** A failure the loop itself reports. *)
Definition loop_error (ctx : Context) (e : error) : Prop :=
  (∃ m, ctx_Err ctx m = Some e)
  ∨ errors_Is e ErrBudgetExceeded = true ∨ errors_Is e ErrUnknownTool = true ∨ errors_Is e ErrInvalidArgs = true.

Lemma admit_fate source name args now l :
  match snd (admitCall source name args now l) with
  | inl e => errors_Is e ErrBudgetExceeded = true
      ∨ (e = sentinel_error ErrUnknownTool
         ∧ In (mkRecordedCall name source args "" (Some e)) (l_calls (fst (admitCall source name args now l))))
  | inr tool => l_tools l !! name = Some tool
      ∧ l_toolCalls (fst (admitCall source name args now l)) = (l_toolCalls l + 1)%Z
  end.
Proof.
  unfold admitCall, checkWallLocked. destruct (_ <=? _)%Z; [by left|].
  destruct (_ <=? _)%Z; [by left|]. destruct (l_tools l !! name); [done|].
  right. split; [done|]. cbn. apply in_or_app. right. by left.
Qed.

(** The first section of a call. *)
Lemma admit_locked source name args w : fair_world w →
  let r := locked (λ now _ l, admitCall source name args now l) w in
  progress w (fst r) [] ∧
  match snd r with
  | inl e => errors_Is e ErrBudgetExceeded = true
      ∨ (e = sentinel_error ErrUnknownTool
         ∧ In (mkRecordedCall name source args "" (Some e)) (l_calls (lw_loop (fst r))))
  | inr tool => (∃ l, rtc loop_step (lw_loop w) l ∧ l_tools l !! name = Some tool)
      ∧ (l_toolCalls (lw_loop w) + 1 <= l_toolCalls (lw_loop (fst r)))%Z
  end.
Proof.
  intros Hf r. split.
  { apply locked_progress; [done|]. intros. apply rtc_once. constructor. }
  subst r. unfold locked. pose proof (Hf (lw_moment w) (lw_loop w)) as Hs.
  set (l := lw_others w (lw_moment w) (lw_loop w)) in *. clearbody l.
  pose proof (admit_fate source name args (lw_clock w (lw_moment w)) l) as H1.
  destruct (admitCall _ _ _ _ _) as [l' [e|tool]]; cbn in *; [done|]. destruct H1 as [H1 H2].
  split; [by exists l|]. apply steps_grow in Hs as [G _]. pose proof (grows_tool_calls _ _ G). lia.
Qed.

(** How a call can end. *)
Inductive call_outcome (ctx : Context) (source : CallSource) (name : string) (args : RawMessage)
    (w w' : LoopWorld) : RawMessage * option error → Prop :=
  | call_refused e : progress w w' [] →
      (∃ m, ctx_Err ctx m = Some e) ∨ errors_Is e ErrBudgetExceeded = true →
      call_outcome ctx source name args w w' ("", Some e)
  | call_rejected e : progress w w' [] → loop_error ctx e →
      In (mkRecordedCall name source args "" (Some e)) (l_calls (lw_loop w')) →
      call_outcome ctx source name args w w' ("", Some e)
  | call_ran tool result err : progress w w' [(name, tool, args)] →
      In (mkRecordedCall name source args result err) (l_calls (lw_loop w')) →
      call_outcome ctx source name args w w' (result, err).

(** The run of a handler, charged before. *)
Lemma run_progress w w1 w2 name tool opCtx args :
  progress w w1 [] → (l_toolCalls (lw_loop w) + 1 <= l_toolCalls (lw_loop w1))%Z →
  tool_accepts (rt_schema tool) args → (∃ l, rtc loop_step (lw_loop w) l ∧ l_tools l !! name = Some tool) →
  progress w1 w2 [] →
  progress w (fst (run_handler name tool opCtx args w2)) [(name, tool, args)].
Proof.
  intros (S1 & O1 & R1 & N1 & V1) Hc Ha Ht (S2 & O2 & R2 & N2 & V2). rewrite app_nil_r in R1, R2.
  cbn [length] in N2. unfold run_handler. destruct (rt_handler _ _ _ _) as [outcome ended]. cbn.
  split; [by etrans|]. split; [cbn; congruence|]. cbn. rewrite R2, R1. split; [done|].
  split; [lia|]. by apply list.Forall_singleton.
Qed.

Lemma Call_outcome ctx source name args w :
  fair_world w →
  call_outcome ctx source name args w (fst (Call ctx source name args w))
    (snd (Call ctx source name args w)).
Proof.
  intros Hf. unfold Call, mbind, M_bind, poll.
  destruct (ctx_Err ctx (lw_moment w)) as [e|] eqn:Ectx.
  { apply call_refused; [apply progress_refl|]. left. by eexists. }
  pose proof (admit_locked source name args w Hf) as [P1 Hadm].
  destruct (locked _ w) as [w1 [e|tool]]; cbn [fst snd] in *.
  { destruct Hadm as [?|[-> ?]]; [apply call_refused; auto|].
    apply call_rejected; [done| |done]. by right; right; left. }
  destruct Hadm as [Ht Hc]. pose proof (progress_fair _ _ _ Hf P1) as Hf1.
  pose proof (validateToolArgs_exact (rt_schema tool) args) as [Hargs Htyped].
  destruct (validateToolArgs (rt_schema tool) args) as [e|].
  { pose proof (record_progress w1 name source args "" (Some e) Hf1) as [P2 Hin].
    destruct (record _ _ _ _ _ w1) as [w2 []]. apply call_rejected; [|by right; right; right; apply Htyped|done].
    by apply (progress_step _ w1). }
  pose proof (wallBudgetContext_progress w1 ctx Hf1) as [P2 Hw].
  destruct (wallBudgetContext ctx w1) as [w2 [e|opCtx]]; cbn [fst snd] in *;
    pose proof (progress_fair _ _ _ Hf1 P2) as Hf2.
  { pose proof (record_progress w2 name source args "" (Some e) Hf2) as [P3 Hin].
    destruct (record _ _ _ _ _ w2) as [w3 []]. apply call_rejected; [| |done].
    - by apply (progress_step _ w1), (progress_step _ w2).
    - destruct (Hw e eq_refl); [left; by eexists|by right; left]. }
  pose proof (run_progress w w1 w2 name tool opCtx args P1 Hc (proj1 Hargs eq_refl) Ht P2) as P3.
  destruct (run_handler _ _ _ _ w2) as [w3 [result err]]. cbn [fst snd] in *.
  pose proof (progress_fair _ _ _ Hf P3) as Hf3. unfold mapWallErr.
  set (err' := match err with None => None | Some _ => _ end).
  pose proof (record_progress w3 name source args result err' Hf3) as [P4 Hin].
  destruct (record _ _ _ _ _ w3) as [w4 []]. apply (call_ran _ _ _ _ _ _ tool); [|done].
  apply (progress_trans _ _ _ _ _ P3 P4).
Qed.


(** ** The wall budget's errors *)

(** A failure of a handler or of the model that comes after the wall budget ran out,
    while the caller's own context is live, is reported as a spent budget; any other
    failure, and one that comes after the caller's context ended, is passed on as it
    is. *)
Theorem wall_expiry_is_budget parent timer t d err w :
  ctx_proper parent →
  mapWallErr parent (WithTimeout timer parent t d) err w =
  (w, match err with
      | Some e =>
          if bool_decide (parent (lw_moment w) = None)
             && negb (bool_decide (WithTimeout timer parent t d (lw_moment w) = None))
          then Some (wall_error (l_budget (lw_loop w))) else Some e
      | None => None
      end).
Proof.
  intros Hp. unfold mapWallErr, ctx_Err. destruct err as [e|]; [|done]. f_equal.
  destruct (parent (lw_moment w)) eqn:E; [by rewrite bool_decide_eq_false_2|].
  rewrite bool_decide_eq_true_2 by done. cbn [andb option_map].
  pose proof (WithTimeout_proper timer parent t d Hp (lw_moment w)) as Ho.
  destruct (WithTimeout timer parent t d (lw_moment w)) as [s|]; cbn [option_map].
  - rewrite bool_decide_eq_false_2 by done. cbn [negb].
    destruct (Ho s eq_refl) as [-> | ->]; rewrite !errors_Is_sentinel; cbn; by rewrite ?orb_true_r.
  - by rewrite bool_decide_eq_true_2.
Qed.

(** ** A run of the model *)

Lemma Call_progress ctx source name args w : fair_world w →
  ∃ runs, progress w (fst (Call ctx source name args w)) runs.
Proof. intros Hf. destruct (Call_outcome ctx source name args w Hf); by eexists. Qed.

Lemma runModelToolCalls_progress ctx calls : ∀ toolResults w, fair_world w →
  ∃ runs, progress w (fst (runModelToolCalls ctx calls toolResults w)) runs.
Proof.
  induction calls as [|tc calls IH]; intros acc w Hf; cbn [runModelToolCalls].
  - exists []. apply progress_refl.
  - unfold mbind, M_bind. destruct (Call_progress ctx CallSourceModel (tc_Name tc) (tc_Args tc) w Hf) as [r1 P1].
    destruct (Call ctx CallSourceModel (tc_Name tc) (tc_Args tc) w) as [w1 [res [e|]]]; cbn [fst snd] in *;
      [by exists r1|].
    destruct (IH (acc ++ [res]) w1 (progress_fair _ _ _ Hf P1)) as [r2 P2].
    exists (r1 ++ r2). by eapply progress_trans.
Qed.

(** A turn that ends in an answer took a model call. *)
Lemma nextTurn_progress ctx gw prompt w : fair_world w →
  let r := nextTurn ctx gw prompt w in
  progress w (fst r) [] ∧
  ((∃ resp, snd r = inr resp) →
   (l_modelCalls (lw_loop w) + 1 <= l_modelCalls (lw_loop (fst r)))%Z
   ∧ (l_modelCalls (lw_loop w) < MaxModelCalls (l_budget (lw_loop w)))%Z).
Proof.
  intros Hf r. subst r. unfold nextTurn, mbind, M_bind, poll.
  destruct (ctx_Err ctx (lw_moment w)) as [e|]; [split; [apply progress_refl|by intros [? [=]]]|].
  assert (progress w (fst (locked (λ now _ l, reserveModelCall now l) w)) []) as P1
    by (apply locked_progress; [done|]; intros; apply rtc_once; constructor).
  assert (snd (locked (λ now _ l, reserveModelCall now l) w) = None →
    (l_modelCalls (lw_loop w) + 1 <= l_modelCalls (lw_loop (fst (locked (λ now _ l, reserveModelCall now l) w))))%Z
    ∧ (l_modelCalls (lw_loop w) < MaxModelCalls (l_budget (lw_loop w)))%Z) as Hres.
  { unfold locked. pose proof (Hf (lw_moment w) (lw_loop w)) as Hs. apply steps_grow in Hs as [G _].
    set (l := lw_others w (lw_moment w) (lw_loop w)) in *. clearbody l. destruct G as [Gb _ _ Gm _ _ _].
    unfold reserveModelCall. destruct (checkWallLocked _ l); [done|].
    destruct (_ <=? _)%Z eqn:E; [done|]. apply Z.leb_gt in E. cbn. intros _. rewrite Gb in E. lia. }
  destruct (locked _ w) as [w1 [e|]]; cbn [fst snd] in *; [split; [done|by intros [? [=]]]|].
  specialize (Hres eq_refl) as [Hm1 Hm2]. pose proof (progress_fair _ _ _ Hf P1) as Hf1.
  pose proof (wallBudgetContext_progress w1 ctx Hf1) as [P2 _].
  destruct (wallBudgetContext ctx w1) as [w2 [e|opCtx]]; cbn [fst snd] in *;
    [split; [by apply (progress_step _ w1)|by intros [? [=]]]|].
  pose proof (progress_fair _ _ _ Hf1 P2) as Hf2.
  assert (P3 : progress w2 (fst (generate gw opCtx prompt w2)) []) by (apply (progress_refl w2)).
  assert (E3 : lw_loop (fst (generate gw opCtx prompt w2)) = lw_loop w2) by done.
  destruct (generate gw opCtx prompt w2) as [w3 resp]. cbn [fst snd] in *.
  pose proof (progress_fair _ _ _ Hf2 P3) as Hf3. unfold mapWallErr.
  assert (P13 : progress w w3 []) by by apply (progress_step _ w1), (progress_step _ w2).
  destruct (match match resp with inl e => Some e | inr _ => None end with None => None | Some _ => _ end)
    as [e|]; cbn [fst snd]; [split; [done|by intros [? [=]]]|].
  assert (progress w3 (fst (checkWall w3)) []) as P4 by (apply locked_progress; [done|]; done).
  destruct (checkWall w3) as [w4 [e|]]; cbn [fst snd] in *;
    [split; [by apply (progress_step _ w3)|by intros [? [=]]]|].
  assert (P14 : progress w w4 []) by by apply (progress_step _ w3).
  destruct resp; cbn [fst snd]; (split; [done|]); [by intros [? [=]]|]. intros _. split; [|done].
  destruct P2 as [S2 _], P4 as [S4 _]. apply steps_grow in S2 as [G2 _], S4 as [G4 _].
  pose proof (grows_model_calls _ _ G2). pose proof (grows_model_calls _ _ G4).
  rewrite E3 in *. cbn. lia.
Qed.

(** An answer is the text of a turn that asks for no tool. *)
Definition final_answer (gw : TurnGateway) (text : string) : Prop :=
  ∃ m ctx prompt, gw m ctx prompt = inr (mkTurnResponse text []).

Lemma nextTurn_answer ctx gw prompt w resp :
  snd (nextTurn ctx gw prompt w) = inr resp → ∃ m c, gw m c prompt = inr resp.
Proof.
  unfold nextTurn, mbind, M_bind, poll. destruct (ctx_Err ctx _); [done|].
  destruct (locked _ w) as [w1 [e|]]; [done|].
  destruct (wallBudgetContext ctx w1) as [w2 [e|opCtx]]; [done|].
  unfold generate. cbn [fst snd]. destruct (mapWallErr _ _ _ _) as [w3 [e|]]; [done|].
  destruct (checkWall w3) as [w4 [e|]]; [done|].
  destruct (gw (lw_moment w2) opCtx prompt) eqn:E; [done|]. intros [= <-]. by repeat eexists.
Qed.

Lemma run_turns_total ctx gw : ∀ fuel prompt w, fair_world w →
  (MaxModelCalls (l_budget (lw_loop w)) - l_modelCalls (lw_loop w) < Z.of_nat fuel)%Z →
  (0 < fuel)%nat →
  ∃ w' r runs, run_turns fuel ctx gw prompt w = (w', Some r) ∧ progress w w' runs
    ∧ ∀ text, r = inr text → final_answer gw text.
Proof.
  induction fuel as [|fuel IH]; intros prompt w Hf Hfuel Hpos; [lia|]. cbn [run_turns].
  unfold mbind, M_bind. pose proof (nextTurn_progress ctx gw prompt w Hf) as [P1 Hc].
  pose proof (nextTurn_answer ctx gw prompt w) as Ha.
  destruct (nextTurn ctx gw prompt w) as [w1 [e|resp]]; cbn [fst snd] in *;
    [exists w1, (inl e), []; done|].
  destruct (Hc (ex_intro _ _ eq_refl)) as [Hm1 Hm2]. clear Hc.
  destruct (Ha _ eq_refl) as (m & c & Hgw). pose proof (progress_fair _ _ _ Hf P1) as Hf1.
  destruct resp as [text calls]. cbn [tr_ToolCalls tr_Text]. destruct calls as [|tc calls].
  { exists w1, (inr text), []. split; [done|]. split; [done|]. intros ? [= ->]. by exists m, c, prompt. }
  destruct (runModelToolCalls_progress ctx (tc :: calls) [] w1 Hf1) as [r1 P2].
  destruct (runModelToolCalls ctx (tc :: calls) [] w1) as [w2 [e|next]]; cbn [fst snd] in *.
  { exists w2, (inl e), r1. split; [done|]. split; [by apply (progress_step _ w1)|done]. }
  pose proof (progress_step _ _ _ _ P1 P2) as P12.
  assert (l_budget (lw_loop w2) = l_budget (lw_loop w)) as Eb.
  { destruct P12 as [S _]. apply steps_grow in S as [G _]. apply G. }
  assert (l_modelCalls (lw_loop w1) <= l_modelCalls (lw_loop w2))%Z as Hm3.
  { destruct P2 as [S _]. apply steps_grow in S as [G _]. apply G. }
  destruct (IH next w2 (progress_fair _ _ _ Hf P12)) as (w3 & r & r2 & E & P3 & Hr);
    [rewrite Eb; lia|lia|].
  exists w3, r, (r1 ++ r2). split; [done|]. split; [|done]. by eapply progress_trans.
Qed.

(** C37: A run ends, whatever the model and the handlers answer and whatever others do
    to the loop meanwhile: the budget of model calls bounds its turns.  The handlers it
    ran were registered, given accepted arguments and charged to the budget of tool
    calls, which they cannot exceed.  A text it returns is the model's, from a turn
    that asks for no tool. *)
Theorem run_terminates ctx gw prompt w :
  fair_world w →
  ∃ w' r runs, Run ctx gw prompt w = (w', Some r) ∧ progress w w' runs
    ∧ (within (lw_loop w) →
       Z.of_nat (length runs) <= MaxToolCalls (l_budget (lw_loop w)) - l_toolCalls (lw_loop w))%Z
    ∧ ∀ text, r = inr text → ∃ g, gw = Some g ∧ final_answer g text.
Proof.
  intros Hf. assert (∃ w' r runs, Run ctx gw prompt w = (w', Some r) ∧ progress w w' runs
    ∧ ∀ text, r = inr text → ∃ g, gw = Some g ∧ final_answer g text) as (w' & r & runs & E & P & Hr).
  { destruct gw as [gw|]; cbn [Run].
    - edestruct (run_turns_total ctx gw) as (w' & r & runs & E & P & Hr); [done| | |].
      3: { exists w', r, runs. split; [exact E|]. split; [done|]. eauto. }
      all: lia.
    - eexists w, _, []. split; [done|]. split; [apply progress_refl|done]. }
  exists w', r, runs. split; [done|]. split; [done|]. split; [|done].
  intros W. destruct P as (S & _ & _ & N & _). apply steps_grow in S as [G W'].
  destruct (W' W) as [[_ Hmax] _]. rewrite (grows_budget _ _ G) in Hmax. lia.
Qed.
End Invariants.

(** ** Examples *)

Section Examples.
#[local] Existing Instance ascii_table.
#[local] Instance plain_errors : JsonErrors := λ _ _, "invalid".

(** A handler that returns its arguments. *)
Definition echo : ToolHandler := λ t _ args, ((args, None), t).

Definition demo_loop : Loop := fst (Register echo echo
  (mkToolSpec "echo" (jtext "{'type':'object','required':['q'],'properties':{'q':{'type':'string'}}}") (Some echo))
  (New echo echo (mkOptions (mkBudget 2 2 0%Z) None None) 0%Z)).

(** Another goroutine asks for a model call before each section of ours. *)
Definition demo_world (others : nat → Loop → Loop) : LoopWorld :=
  mkLoopWorld demo_loop 0 others (λ m, Z.of_nat m) (λ m, Z.of_nat m) [].

Definition alone : nat → Loop → Loop := λ _ l, l.
Definition busy : nat → Loop → Loop := λ m l, fst (reserveModelCall (Z.of_nat m) l).

(** The model asks for the tool until it sees a result. *)
Definition demo_gateway : TurnGateway := λ _ _ prompt,
  if prompt == "go" then inr (mkTurnResponse "" [mkToolCall "echo" (jtext "{'q':'x'}")])
  else inr (mkTurnResponse prompt []).

Definition result_of {A} (r : LoopWorld * A) : A := snd r.
Definition loop_of {A} (r : LoopWorld * A) : Loop := lw_loop (fst r).

Example demo_call :
  let r := Call Background CallSourceHandler "echo" (jtext "{'q':'x'}") (demo_world alone) in
  result_of r = (jtext "{'q':'x'}", None) ∧ l_toolCalls (loop_of r) = 1%Z ∧ length (l_calls (loop_of r)) = 1.
Proof. vm_compute. done. Qed.

Example demo_rejected :
  let r := Call Background CallSourceHandler "echo" "{}" (demo_world alone) in
  option_map (λ e, errors_Is e ErrInvalidArgs) (snd (result_of r)) = Some true ∧ l_toolCalls (loop_of r) = 1%Z.
Proof. vm_compute. done. Qed.

Example demo_run :
  let r := Run Background (Some demo_gateway) "go" (demo_world alone) in
  result_of r = Some (inr (jtext "[{'q':'x'}]")) ∧ l_modelCalls (loop_of r) = 2%Z.
Proof. vm_compute. done. Qed.

(** The other goroutine takes both model calls. *)
Example demo_busy :
  result_of (Run Background (Some demo_gateway) "go" (demo_world busy))
  = Some (inl (Errorw ErrBudgetExceeded ": max_model_calls 2")).
Proof. vm_compute. done. Qed.

Lemma busy_fair : fair_world echo echo (demo_world busy).
Proof. intros m l. apply rtc_once, step_model. Qed.

Lemma budgets_hold_witness : l_toolCalls (fst (admitCall CallSourceModel "echo" "" 1%Z demo_loop)) = 1%Z
  ∧ (0 <= l_toolCalls (fst (admitCall CallSourceModel "echo" "" 1%Z demo_loop)) <= 2)%Z.
Proof.
  split; [vm_compute; reflexivity|].
  apply (budgets_hold echo echo (mkOptions (mkBudget 2 2 0%Z) None None) 0%Z).
  eapply rtc_l; [apply step_register|]. eapply rtc_l; [apply step_admit|]. apply rtc_refl.
Defined.


Lemma wall_expiry_is_budget_witness :
  mapWallErr Background (WithTimeout (λ m, Z.of_nat m) Background 0 0%Z) (Some (errors_New "x")) (demo_world alone)
  = (demo_world alone, Some (wall_error (l_budget demo_loop))).
Proof. rewrite wall_expiry_is_budget; [vm_compute; reflexivity|intros ? ? [=]]. Defined.

Lemma run_terminates_witness :
  ∃ w' r runs, Run Background (Some demo_gateway) "go" (demo_world busy) = (w', Some r)
    ∧ progress echo echo (demo_world busy) w' runs.
Proof.
  destruct (run_terminates echo echo Background (Some demo_gateway) "go" (demo_world busy) busy_fair)
    as (w' & r & runs & E & P & _).
  exists w', r, runs. split; [exact E|exact P].
Defined.
End Examples.
