(* ===== verification/Stub.v ===== *)
(** * The stub gateway

    [internal/modelgateway/stub*.go]: the default gateway, which judges without a model.
    For one finding it answers a fixed judgment per rubric; for a pack, one item per
    reference it reads out of the prompt with the regular expression
    [(?m)(?:^|\s)finding_ref:\s*(\S+)], which [find_refs] is. *)

From Stdlib Require Import Ascii.
From S2P Require Import Prelude GoText Json GoErr Gateway.

(** ** References in a prompt *)

(** [\s]. *)
Definition is_s (c : ascii) : bool :=
  let n := code c in ((n =? 9) || (n =? 10) || (n =? 12) || (n =? 13) || (n =? 32))%N.

Fixpoint skip_s (s : string) : string :=
  match s with
  | String c t => if is_s c then skip_s t else s
  | EmptyString => ""
  end.

(** The longest run of [\S]. *)
Fixpoint span_S (s : string) : string * string :=
  match s with
  | String c t => if is_s c then ("", s) else cons_fst c (span_S t)
  | EmptyString => ("", "")
  end.

(** [finding_ref:\s*(\S+)] at the front: the word and what follows. *)
Definition match_ref (s : string) : option (string * string) :=
  match CutPrefix "finding_ref:" s with
  | None => None
  | Some rest => match span_S (skip_s rest) with ("", _) => None | p => Some p end
  end.

(** [FindAllStringSubmatch], at a place that is the beginning of a line or not.  Every
    step takes a byte at least. *)
Fixpoint find_refs (fuel : nat) (bol : bool) (s : string) : list string :=
  match fuel, s with
  | S fuel, String c t =>
      match (if bol then match_ref s else None) with
      | Some (ref, rest) => ref :: find_refs fuel false rest
      | None =>
          match (if is_s c then match_ref t else None) with
          | Some (ref, rest) => ref :: find_refs fuel false rest
          | None => find_refs fuel (code c =? 10)%N t
          end
      end
  | _, _ => []
  end.

Definition findingRefLine (content : string) : list string := find_refs (String.length content) true content.

(** go: internal/modelgateway/stub_finding_refs.go#containsFindingRef *)
Definition containsFindingRef (refs : list string) (ref : string) : bool := existsb (λ r, r == ref) refs.

(** go: internal/modelgateway/stub_finding_refs.go#appendUniqueFindingRefs *)
Definition appendUniqueFindingRefs (refs : list string) (content : string) : list string :=
  fold_left (λ refs m,
    let ref := TrimSpace m in
    if (ref == "") || containsFindingRef refs ref then refs else refs ++ [ref])
    (findingRefLine content) refs.

(** go: internal/modelgateway/stub_finding_refs.go#extractFindingRefsFromMessages *)
Definition extractFindingRefsFromMessages (msgs : list Message) : list string :=
  fold_left (λ refs m, appendUniqueFindingRefs refs (msg_Content m)) msgs [].

(** ** Judgments *)

(** go: internal/modelgateway/gateway.go#LogicalModelStub *)
Definition LogicalModelStub : string := "stub".

(** [map[string]json.RawMessage]. *)
Definition dec_raw_map : Decoder (gmap string RawMessage) := λ cur j,
  match j with
  | JNull => Some ∅
  | JObject ms => Some (fold_left (λ acc m, <[unquote m.1 := print m.2]> acc) ms cur)
  | _ => None
  end.

(** go: internal/modelgateway/stub_judgments.go#isBatchItemsOutputSchema *)
Definition isBatchItemsOutputSchema (schema : RawMessage) : bool :=
  if schema == "" then false else
  match Unmarshal (dec_struct (λ cur ms, field dec_raw_map cur "properties" ms)) ∅ schema with
  | None => false
  | Some properties =>
      match properties !! "items" with
      | None => false
      | Some raw =>
          if raw == "" then false else
          match Unmarshal (dec_struct (λ cur ms, field dec_string cur "type" ms)) "" raw with
          | None => false
          | Some t => EqualFold t "array"
          end
      end
  end.

Definition stub_item (ref : string) : json := JObject
  [("finding_ref", JStr ref); ("judgment", JStr "acceptable");
   ("rationale", JStr ("stub: batch item for " +:+ ref)); ("confidence", JStr "high");
   ("suggested_focus", JNull)].

(** go: internal/modelgateway/stub_judgments.go#stubBatchJudgment *)
Definition stubBatchJudgment (req : JudgmentRequest) : RawMessage :=
  let refs := match extractFindingRefsFromMessages (jr_Messages req) with
    | [] => ["stub-item-1"]
    | refs => refs
    end in
  print (JObject [("items", JArray (map stub_item refs))]).

(** go: internal/modelgateway/stub_judgments.go#stubJudgmentForRubric *)
Definition stubJudgmentForRubric (rubricID : string) : option RawMessage :=
  if (rubricID == "hidden_mutation") || (rubricID == "hidden_mutation_contextualization") then
    Some (jtext "{
			'judgment': 'acceptable',
			'rationale': 'stub: no hidden mutation signals in fixture judgment',
			'confidence': 'high',
			'suggested_focus': null
		}")
  else if rubricID == "change_cohesion" then
    Some (jtext "{
			'judgment': 'focused',
			'rationale': 'stub: change appears cohesive in fixture judgment',
			'confidence': 'medium',
			'suggested_focus': null
		}")
  else None.

(** The injected error, if any.
    go: internal/modelgateway/stub.go#StubGateway *)
Record StubGateway := mkStubGateway { judgeErr : option error }.

(** go: internal/modelgateway/stub.go#NewStubGateway *)
Definition NewStubGateway (opts : list (option error)) : StubGateway :=
  match opts with [] => mkStubGateway None | e :: _ => mkStubGateway e end.

(** A call takes no time.
    go: internal/modelgateway/stub.go:31-59#Judge *)
Definition stub_Judge (g : StubGateway) (ctx : Context) (t : nat) (req : JudgmentRequest) :
    (error + JudgmentResponse) * nat :=
  (match ctx_Err ctx t with
   | Some e => inl (NewUnavailableError "context done" (Some e))
   | None =>
       match judgeErr g with
       | Some e => inl e
       | None =>
           if isBatchItemsOutputSchema (jr_OutputSchema req)
           then inr (mkJudgmentResponse (stubBatchJudgment req) LogicalModelStub "")
           else match stubJudgmentForRubric (jr_RubricID req) with
           | None => inl (NewValidationError ("unknown rubric_id: " +:+ jr_RubricID req))
           | Some judgment =>
               match validateJudgmentJSON judgment (jr_OutputSchema req) with
               | Some e => inl (NewValidationError e)
               | None => inr (mkJudgmentResponse judgment LogicalModelStub "")
               end
           end
       end
   end, t).

#[export] Instance stub_gateway (g : StubGateway) : Gateway := { gw_Judge := stub_Judge g }.

Example findingRefLine_examples :
  map findingRefLine
    ["finding_ref: a" +:+ newline +:+ "x finding_ref:  b c" +:+ newline +:+ "finding_ref:c finding_ref";
     "xfinding_ref: a"; "finding_ref: finding_ref: a"; "finding_ref:  "; " finding_ref:" +:+ newline +:+ "z"]
  = [["a"; "b"; "c"]; []; ["finding_ref:"]; []; ["z"]].
Proof. vm_compute. reflexivity. Qed.
