(* ===== verification/Rubrics.v ===== *)
(** * Rubric judgments

    [internal/rubrics]: versioned rubrics judged by a model behind the gateway, as tools
    of the agent loop.  One finding is judged per call, or a pack of several, whose
    answer is one envelope with an item per finding.  A model that fails or answers
    nonsense degrades to a diagnostic; a cancelled context and a spent wall budget
    abort. *)

From Stdlib Require Import Ascii.
From S2P Require Import Prelude GoText Json GoErr Gateway ToolArgs AgentLoop.

(** ** Rubrics and their evidence *)

(** go: internal/rubrics/rubrics.go#IDHiddenMutationContextualization *)
Definition IDHiddenMutationContextualization : string := "hidden_mutation_contextualization".
(** go: internal/rubrics/rubrics.go#IDChangeCohesion *)
Definition IDChangeCohesion : string := "change_cohesion".
(** go: internal/rubrics/rubrics.go#Version1 *)
Definition Version1 : string := "1".

(** go: internal/rubrics/rubrics.go#Definition *)
Record rubric := mkRubric { rub_ID : string; rub_Version : string; rub_OutputSchema : RawMessage }.

(** go: internal/rubrics/rubrics.go#FileContext *)
Record FileContext := mkFileContext { fc_Path : string; fc_Language : string; fc_Content : string }.

(** go: internal/rubrics/rubrics.go#FileMeta *)
Record FileMeta := mkFileMeta { fm_Path : string; fm_Language : string }.

(** go: internal/rubrics/rubrics.go#HiddenMutationEvidence *)
Record HiddenMutationEvidence := mkHiddenMutationEvidence { hme_Finding : RawMessage; hme_File : FileContext }.

(** go: internal/rubrics/rubrics.go#ChangeCohesionEvidence *)
Record ChangeCohesionEvidence := mkChangeCohesionEvidence {
  cce_Findings : RawMessage; cce_Files : list FileMeta
}.

(** go: internal/rubrics/rubrics.go#Diagnostic *)
Record RubricDiagnostic := mkRubricDiagnostic { rdg_Scope : string; rdg_Message : string }.

(** go: internal/rubrics/rubrics.go#Judgment *)
Record Judgment := mkJudgment {
  jm_RubricID : string; jm_RubricVersion : string; jm_ModelIdentity : string;
  jm_LogicalModelID : string; jm_ServedModelID : string; jm_JudgmentJSON : RawMessage
}.

(** go: internal/rubrics/rubrics.go#Result *)
Record Result := mkResult { res_Judgment : option Judgment; res_Diagnostic : option RubricDiagnostic }.

(** go: internal/rubrics/rubrics.go#ToolResult *)
Record ToolResult := mkToolResult {
  tres_FindingRef : string;
  tres_RubricID : string;
  tres_RubricVersion : string;
  tres_ModelIdentity : option string;
  tres_LogicalModelID : option string;
  tres_ServedModelID : option string;
  tres_Judgment : RawMessage;
  tres_Diagnostic : option RubricDiagnostic
}.

(** go: internal/rubrics/rubrics.go#HasJudgment *)
Definition HasJudgment (r : ToolResult) : bool :=
  if tres_Judgment r == "" then false else tres_Judgment r != "null".

(** The embedded [schemas/*.json]; white space aside. *)
Definition leaf_properties (judgments : string) : string :=
  "'judgment':{'type':'string','enum':[" +:+ judgments +:+ "]},
   'rationale':{'type':'string'},
   'confidence':{'type':'string','enum':['high','medium','low']},
   'suggested_focus':{'type':['string','null']}".

Definition schemaHiddenMutationV1 : RawMessage := jtext ("{'type':'object',
  'required':['judgment','rationale','confidence','suggested_focus'],
  'properties':{" +:+ leaf_properties "'concern','acceptable','unclear'" +:+ "}}").

Definition schemaChangeCohesionV1 : RawMessage := jtext ("{'type':'object',
  'required':['judgment','rationale','confidence','suggested_focus'],
  'properties':{" +:+ leaf_properties "'focused','diffuse','unclear'" +:+ "}}").

Definition schemaHiddenMutationBatchV1 : RawMessage := jtext ("{'type':'object','required':['items'],
  'properties':{'items':{'type':'array','items':{'type':'object',
    'required':['finding_ref','judgment','rationale','confidence','suggested_focus'],
    'properties':{'finding_ref':{'type':'string'}," +:+
    leaf_properties "'concern','acceptable','unclear'" +:+ "}}}}}").

(** [None] is a panic.
    go: internal/rubrics/rubrics.go#mustSchema *)
Definition mustSchema (raw : RawMessage) : option RawMessage := if Valid raw then Some raw else None.

Lemma seed_schemas_valid :
  Forall (λ s, mustSchema s = Some s ∧ validateOutputSchema s = None)
    [schemaHiddenMutationV1; schemaChangeCohesionV1; schemaHiddenMutationBatchV1].
Proof. repeat constructor. Qed.

(** The schemas do not make [mustSchema] panic ([seed_schemas_valid]).
    go: internal/rubrics/rubrics.go#Seed *)
Definition Seed : list rubric :=
  [mkRubric IDHiddenMutationContextualization Version1 (default "" (mustSchema schemaHiddenMutationV1));
   mkRubric IDChangeCohesion Version1 (default "" (mustSchema schemaChangeCohesionV1))].

(** go: internal/rubrics/batch.go#HiddenMutationBatchOutputSchema *)
Definition HiddenMutationBatchOutputSchema : RawMessage := default "" (mustSchema schemaHiddenMutationBatchV1).

(** go: internal/rubrics/rubrics.go#DefinitionByID *)
Definition DefinitionByID (id : string) : option rubric := List.find (λ d, rub_ID d == id) Seed.

(** go: internal/rubrics/rubrics.go#diagnosticScope *)
Definition diagnosticScope (rubricID : string) : string := "rubric:" +:+ rubricID.

(** go: internal/rubrics/rubrics.go#FormatModelIdentity *)
Definition FormatModelIdentity (logical served : string) : string :=
  if logical == "" then served
  else if (served == "") || (served == logical) then logical
  else logical +:+ "/" +:+ served.

(** ** Envelopes *)

(** go: internal/rubrics/batch.go#ToolPackResult *)
Record ToolPackResult := mkToolPackResult { tpr_Results : list ToolResult }.

(** go: internal/rubrics/batch.go#HiddenMutationPackItem *)
Record HiddenMutationPackItem := mkPackItem {
  pi_FindingRef : string; pi_Finding : RawMessage; pi_File : FileContext
}.

(** A member that is left out when empty. *)
Definition omit_empty (name s : string) : list (string * json) :=
  if s == "" then [] else [(name, JStr s)].
Definition omit_nil (name : string) (o : option string) : list (string * json) :=
  match o with Some s => [(name, JStr s)] | None => [] end.

Definition diagnostic_json (d : RubricDiagnostic) : json :=
  JObject [("scope", JStr (rdg_Scope d)); ("message", JStr (rdg_Message d))].

(** The members, the judgment's tree given. *)
Definition tool_result_members (r : ToolResult) (judgment : json) : list (string * json) :=
  omit_empty "finding_ref" (tres_FindingRef r)
  ++ [("rubric_id", JStr (tres_RubricID r)); ("rubric_version", JStr (tres_RubricVersion r));
      ("model_identity", opt_JStr (tres_ModelIdentity r))]
  ++ omit_nil "logical_model_id" (tres_LogicalModelID r)
  ++ omit_nil "served_model_id" (tres_ServedModelID r)
  ++ [("judgment", judgment);
      ("diagnostic", match tres_Diagnostic r with Some d => diagnostic_json d | None => JNull end)].

(** [None] when the judgment is not valid JSON; an absent one is [null]. *)
Definition tool_result_json (r : ToolResult) : option json :=
  option_map (λ j, JObject (tool_result_members r j)) (marshal_raw (tres_Judgment r)).

(** go: internal/rubrics/tool_result.go#marshalToolResult *)
Definition marshalToolResult (r : ToolResult) : option RawMessage := option_map print (tool_result_json r).

(** go: internal/rubrics/batch.go#marshalToolPackResult *)
Definition marshalToolPackResult (p : ToolPackResult) : option RawMessage :=
  option_map (λ js, print (JObject [("results", JArray js)])) (mapM tool_result_json (tpr_Results p)).

Definition dec_diagnostic : Decoder RubricDiagnostic := dec_struct (λ cur ms,
  match field dec_string (rdg_Scope cur) "scope" ms, field dec_string (rdg_Message cur) "message" ms with
  | Some s, Some m => Some (mkRubricDiagnostic s m)
  | _, _ => None
  end).

Definition zero_result : ToolResult := mkToolResult "" "" "" None None None "" None.

(** [json.Unmarshal] into a [ToolResult]. *)
Definition dec_tool_result : Decoder ToolResult := dec_struct (λ cur ms,
  ref ← field dec_string (tres_FindingRef cur) "finding_ref" ms;
  id ← field dec_string (tres_RubricID cur) "rubric_id" ms;
  version ← field dec_string (tres_RubricVersion cur) "rubric_version" ms;
  identity ← field (dec_ptr "" dec_string) (tres_ModelIdentity cur) "model_identity" ms;
  logical ← field (dec_ptr "" dec_string) (tres_LogicalModelID cur) "logical_model_id" ms;
  served ← field (dec_ptr "" dec_string) (tres_ServedModelID cur) "served_model_id" ms;
  judgment ← field dec_raw (tres_Judgment cur) "judgment" ms;
  diag ← field (dec_ptr (mkRubricDiagnostic "" "") dec_diagnostic) (tres_Diagnostic cur) "diagnostic" ms;
  Some (mkToolResult ref id version identity logical served judgment diag)).

(** [results] absent or [null] is the nil slice. *)
Definition dec_pack : Decoder (option (list ToolResult)) := dec_struct (λ cur ms,
  field (dec_slice zero_result dec_tool_result) cur "results" ms).

(** The probe keeps the member's text; an array of anything marks a pack.
    go: internal/rubrics/batch.go#IsToolPackResult *)
Definition IsToolPackResult (raw : RawMessage) : bool :=
  if raw == "" then false else
  match Unmarshal (dec_struct (λ cur ms, field dec_raw cur "results" ms)) "" raw with
  | None => false
  | Some results =>
      if results == "" then false
      else match Unmarshal (dec_slice "" dec_raw) None results with Some _ => true | None => false end
  end.

(** ** Prompts *)

Definition code_fence : string := "```" +:+ newline.

(** go: internal/rubrics/prompts.go#shortRationaleGuidance *)
Definition shortRationaleGuidance : string :=
  "Keep each rationale short: at most 2 sentences and at most 400 characters.".

(** go: internal/rubrics/prompts.go:14-20#hiddenMutationSystemPrompt *)
Definition hiddenMutationSystemPrompt : string := Join
  ["You are a code-quality judge for the Coach platform.";
   "Evaluate one deterministic hidden_input_mutation finding in baseline file context.";
   "Question: Does the mutation hide input state in a way that will surprise a reviewer or complicate future changes?";
   "Distinguish benign constructor wiring from hidden state mutation.";
   shortRationaleGuidance;
   "Respond only with JSON matching the provided output schema.";
   "Do not modify, suppress, or restate deterministic findings as if they were yours to alter."] newline.

(** go: internal/rubrics/prompts.go:22-28#hiddenMutationPackSystemPrompt *)
Definition hiddenMutationPackSystemPrompt : string := Join
  ["You are a code-quality judge for the Coach platform.";
   "Evaluate multiple deterministic hidden_input_mutation findings in one batch.";
   "Question per item: Does the mutation hide input state in a way that will surprise a reviewer or complicate future changes?";
   "Distinguish benign constructor wiring from hidden state mutation.";
   shortRationaleGuidance;
   "Respond only with JSON matching the provided batch output schema (items array keyed by finding_ref).";
   "Do not modify, suppress, or restate deterministic findings as if they were yours to alter."] newline.

(** go: internal/rubrics/prompts.go:30-35#changeCohesionSystemPrompt *)
Definition changeCohesionSystemPrompt : string := Join
  ["You are a code-quality judge for the Coach platform.";
   "Evaluate whether deterministic findings and analyzed files form a cohesive unit of concern.";
   "Question (baseline): Do the analyzed files and findings cluster into coherent areas of concern, or is structural risk scattered across unrelated packages/modules?";
   "Flag tangled imports and cross-file coupling spikes in the snapshot.";
   "Respond only with JSON matching the provided output schema.";
   "Do not modify, suppress, or restate deterministic findings as if they were yours to alter."] newline.

(** [json.Indent] keeps the white space after the value. *)
Fixpoint leading_ws (s : string) : string :=
  match s with
  | String c s => if is_ws c then String c (leading_ws s) else ""
  | EmptyString => ""
  end.
Definition trailing_ws (s : string) : string := rev_string (leading_ws (rev_string s)).

(** go: internal/rubrics/prompts.go#formatJSONEvidence *)
Definition formatJSONEvidence (raw : RawMessage) : string :=
  if raw == "" then "null" else
  match parse raw with
  | Some j => indent 0 j +:+ trailing_ws raw
  | None => raw
  end.

(** The end of a finding's evidence, its content under a title. *)
Definition file_evidence (file : FileContext) (title : string) : string :=
  newline +:+ newline +:+ "## Baseline file context" +:+ newline
  +:+ "path: " +:+ fc_Path file +:+ newline +:+ "language: " +:+ fc_Language file +:+ newline
  +:+ if fc_Content file == "" then ""
      else title +:+ newline +:+ code_fence +:+ fc_Content file
           +:+ (if HasSuffix newline (fc_Content file) then "" else newline) +:+ code_fence.

(** go: internal/rubrics/prompts.go#AssembleHiddenMutationMessages *)
Definition AssembleHiddenMutationMessages (ev : HiddenMutationEvidence) : list Message :=
  [mkMessage "system" hiddenMutationSystemPrompt;
   mkMessage "user" ("## Deterministic finding (hidden_input_mutation)" +:+ newline
     +:+ formatJSONEvidence (hme_Finding ev) +:+ file_evidence (hme_File ev) "content:")].

(** go: internal/rubrics/prompts.go#writeHiddenMutationItem *)
Definition writeHiddenMutationItem (it : HiddenMutationPackItem) : string :=
  newline +:+ "### Item" +:+ newline +:+ "finding_ref: " +:+ pi_FindingRef it +:+ newline
  +:+ "## Deterministic finding (hidden_input_mutation)" +:+ newline
  +:+ formatJSONEvidence (pi_Finding it) +:+ file_evidence (pi_File it) "content (span window):".

(** go: internal/rubrics/prompts.go#AssembleHiddenMutationPackMessages *)
Definition AssembleHiddenMutationPackMessages (items : list HiddenMutationPackItem) : list Message :=
  [mkMessage "system" hiddenMutationPackSystemPrompt;
   mkMessage "user" ("## Hidden-mutation judgment pack" +:+ newline
     +:+ "Judge each item independently. Map every input finding_ref to exactly one output item." +:+ newline
     +:+ shortRationaleGuidance +:+ newline +:+ String.concat "" (map writeHiddenMutationItem items))].

(** go: internal/rubrics/prompts.go#AssembleChangeCohesionMessages *)
Definition AssembleChangeCohesionMessages (ev : ChangeCohesionEvidence) : list Message :=
  [mkMessage "system" changeCohesionSystemPrompt;
   mkMessage "user" ("## Deterministic findings" +:+ newline +:+ formatJSONEvidence (cce_Findings ev)
     +:+ newline +:+ newline +:+ "## File metadata" +:+ newline
     +:+ match cce_Files ev with
         | [] => "(none)" +:+ newline
         | files => String.concat "" (map (λ f,
             "- path: " +:+ fm_Path f +:+ ", language: " +:+ fm_Language f +:+ newline) files)
         end)].

(** ** The answer to a pack *)

(** go: internal/rubrics/batch.go#batchItemJudgment *)
Record batchItemJudgment := mkBatchItem {
  bi_FindingRef : string; bi_Judgment : string; bi_Rationale : string; bi_Confidence : string;
  bi_SuggestedFocus : RawMessage
}.

Definition dec_batch_item : Decoder batchItemJudgment := dec_struct (λ cur ms,
  ref ← field dec_string (bi_FindingRef cur) "finding_ref" ms;
  judgment ← field dec_string (bi_Judgment cur) "judgment" ms;
  rationale ← field dec_string (bi_Rationale cur) "rationale" ms;
  confidence ← field dec_string (bi_Confidence cur) "confidence" ms;
  focus ← field dec_raw (bi_SuggestedFocus cur) "suggested_focus" ms;
  Some (mkBatchItem ref judgment rationale confidence focus)).

Definition dec_batch : Decoder (option (list batchItemJudgment)) := dec_struct (λ cur ms,
  field (dec_slice (mkBatchItem "" "" "" "" "") dec_batch_item) cur "items" ms).

Notation ItemMaps := (gmap string batchItemJudgment * gmap string string)%type.

(** One item of the answer, into the items by reference and the repeated references. *)
Definition batch_step (maps : ItemMaps) (it : batchItemJudgment) : ItemMaps :=
  let '(byRef, dup) := maps in
  let ref := bi_FindingRef it in
  if ref == "" then maps else
  match byRef !! ref with
  | Some _ => (delete ref byRef, <[ref := "batch response has duplicate finding_ref"]> dup)
  | None =>
      match dup !! ref with
      | Some _ => maps
      | None => (<[ref := it]> byRef, dup)
      end
  end.

(** go: internal/rubrics/batch_items_parse.go#parseBatchItems *)
Definition parseBatchItems (raw : RawMessage) : ItemMaps :=
  match Unmarshal dec_batch None raw with
  | Some (Some items) => fold_left batch_step items (∅, ∅)
  | _ => (∅, ∅)
  end.

(** The message of the error, if any.
    go: internal/rubrics/batch_items_parse.go#validateBatchItem *)
Definition validateBatchItem (it : batchItemJudgment) : option string :=
  if negb (bool_decide (bi_Judgment it ∈ ["concern"; "acceptable"; "unclear"]))
  then Some "schema validation failed: judgment value not in enum"
  else if negb (bool_decide (bi_Confidence it ∈ ["high"; "medium"; "low"]))
  then Some "schema validation failed: confidence value not in enum"
  else if TrimSpace (bi_Rationale it) == ""
  then Some "schema validation failed: rationale must be a non-empty string"
  else if bi_SuggestedFocus it == ""
  then Some "schema validation failed: missing required property: suggested_focus"
  else if bi_SuggestedFocus it != "null" then
    match Unmarshal dec_string "" (bi_SuggestedFocus it) with
    | Some _ => None
    | None => Some "schema validation failed: suggested_focus must be string or null"
    end
  else None.

(** go: internal/rubrics/batch_judgment_map.go#marshalBatchItemJudgment *)
Definition marshalBatchItemJudgment (it : batchItemJudgment) : option RawMessage :=
  option_map (λ focus, print (JObject
    [("judgment", JStr (bi_Judgment it)); ("rationale", JStr (bi_Rationale it));
     ("confidence", JStr (bi_Confidence it)); ("suggested_focus", focus)]))
    (marshal_raw (bi_SuggestedFocus it)).

(** go: internal/rubrics/batch_judgment_map.go#packItemDiagnostic *)
Definition packItemDiagnostic (def : rubric) (ref message : string) : ToolResult :=
  mkToolResult ref (rub_ID def) (rub_Version def) None None None ""
    (Some (mkRubricDiagnostic (diagnosticScope (rub_ID def)) message)).

(** A judged item. *)
Definition item_result (def : rubric) (ref : string) (resp : JudgmentResponse) (judgment : RawMessage) :
    ToolResult :=
  mkToolResult ref (rub_ID def) (rub_Version def)
    (Some (FormatModelIdentity (resp_LogicalModelID resp) (resp_ServedModelID resp)))
    (Some (resp_LogicalModelID resp))
    (if resp_ServedModelID resp == "" then None else Some (resp_ServedModelID resp))
    judgment None.

(** The result of the first mention of a reference. *)
Definition ref_result (def : rubric) (resp : JudgmentResponse) (maps : ItemMaps) (ref : string) : ToolResult :=
  match maps.2 !! ref with
  | Some msg => packItemDiagnostic def ref msg
  | None =>
      match maps.1 !! ref with
      | None => packItemDiagnostic def ref "batch response missing finding_ref"
      | Some item =>
          match validateBatchItem item with
          | Some e => packItemDiagnostic def ref e
          | None =>
              match marshalBatchItemJudgment item with
              | None => packItemDiagnostic def ref "failed to encode item judgment"
              | Some judgmentJSON => item_result def ref resp judgmentJSON
              end
          end
      end
  end.

(** One expected reference, given those seen and the results so far. *)
Definition map_step (def : rubric) (resp : JudgmentResponse) (maps : ItemMaps)
    (st : gset string * list ToolResult) (ref : string) : gset string * list ToolResult :=
  let '(seen, results) := st in
  if ref == "" then st
  else if bool_decide (ref ∈ seen)
  then (seen, results ++ [packItemDiagnostic def ref "duplicate finding_ref in pack args"])
  else ({[ref]} ∪ seen, results ++ [ref_result def resp maps ref]).

(** go: internal/rubrics/batch_judgment_map.go#mapBatchJudgmentToPackResult *)
Definition mapBatchJudgmentToPackResult (def : rubric) (expectedRefs : list string)
    (resp : JudgmentResponse) : ToolPackResult :=
  mkToolPackResult (snd (fold_left
    (map_step def resp (parseBatchItems (resp_JudgmentJSON resp))) expectedRefs (∅, []))).

(** go: internal/rubrics/batch_judgment_map.go#packResultsForGatewayDegrade *)
Definition packResultsForGatewayDegrade (def : rubric) (refs : list string) (r : Result) : ToolPackResult :=
  let msg := match res_Diagnostic r with
    | Some d => if rdg_Message d != "" then rdg_Message d else "judgment failed: empty result"
    | None => "judgment failed: empty result"
    end in
  mkToolPackResult (map (λ ref, packItemDiagnostic def ref msg) refs).

(** ** One judgment *)

(** go: internal/rubrics/run.go#lifecycleAbortErr *)
Definition lifecycleAbortErr (err : option error) : option error :=
  match err with
  | None => None
  | Some e => if errors_Is e Canceled then Some (sentinel_error Canceled) else None
  end.

(** go: internal/rubrics/run.go#firstLifecycleAbort *)
Fixpoint firstLifecycleAbort (errs : list (option error)) : option error :=
  match errs with
  | [] => None
  | err :: errs =>
      match lifecycleAbortErr err with
      | Some abort => Some abort
      | None => firstLifecycleAbort errs
      end
  end.

(** go: internal/rubrics/run.go#isOpDeadlineExceeded *)
Definition isOpDeadlineExceeded (ctx : Context) (t : nat) : bool :=
  match ctx_Err ctx t with Some e => errors_Is e DeadlineExceeded | None => false end.

(** go: internal/rubrics/run.go#degrade *)
Definition degrade (rubricID message : string) : Result :=
  mkResult None (Some (mkRubricDiagnostic (diagnosticScope rubricID) message)).

(** go: internal/rubrics/run.go#degradeFromErr *)
Definition degradeFromErr (rubricID : string) (err : error) : Result :=
  if errors_Is err ErrSchemaValidation
  then degrade rubricID ("schema validation failed: " +:+ err_Error err)
  else if errors_Is err ErrUnavailable
  then degrade rubricID ("model gateway unavailable: " +:+ err_Error err)
  else degrade rubricID ("judgment failed: " +:+ err_Error err).

(** The abort or failure that a call to the gateway leaves to its caller, at the moment
    it returned. *)
Definition abort_after (ctx : Context) (t : nat) (err : option error) : option error :=
  match firstLifecycleAbort [err; ctx_Err ctx t] with
  | Some abort => Some abort
  | None =>
      match err with
      | Some e => if isOpDeadlineExceeded ctx t then Some e else None
      | None => None
      end
  end.

Definition left_of {A B} (x : A + B) : option A := match x with inl a => Some a | inr _ => None end.

(** At a moment, with the moment it ends; [None] is the nil gateway.
    go: internal/rubrics/run.go#Run *)
Definition Run (ctx : Context) (t : nat) (gw : option Gateway) (def : rubric) (messages : list Message) :
    (error + Result) * nat :=
  match lifecycleAbortErr (ctx_Err ctx t) with
  | Some e => (inl e, t)
  | None =>
      if rub_ID def == "" then (inr (degrade "unknown" "rubric definition id is required"), t) else
      match gw with
      | None => (inr (degrade (rub_ID def) "model gateway is nil"), t)
      | Some gw =>
          let '(resp, t) := gw_Judge ctx t
            (mkJudgmentRequest (rub_ID def) (rub_Version def) messages (rub_OutputSchema def) "") in
          match abort_after ctx t (left_of resp) with
          | Some abort => (inl abort, t)
          | None =>
              match resp with
              | inl err => (inr (degradeFromErr (rub_ID def) err), t)
              | inr resp =>
                  (inr (mkResult (Some (mkJudgment (rub_ID def) (rub_Version def)
                     (FormatModelIdentity (resp_LogicalModelID resp) (resp_ServedModelID resp))
                     (resp_LogicalModelID resp) (resp_ServedModelID resp) (resp_JudgmentJSON resp))) None), t)
              end
          end
      end
  end.

(** go: internal/rubrics/tool_result.go#toolResultFromRun *)
Definition toolResultFromRun (def : rubric) (r : Result) : ToolResult :=
  let empty diag := mkToolResult "" (rub_ID def) (rub_Version def) None None None "" (Some diag) in
  match res_Diagnostic r with
  | Some d => empty d
  | None =>
      match res_Judgment r with
      | None => empty (mkRubricDiagnostic (diagnosticScope (rub_ID def)) "judgment failed: empty result")
      | Some j =>
          mkToolResult "" (rub_ID def) (rub_Version def) (Some (jm_ModelIdentity j)) (Some (jm_LogicalModelID j))
            (if jm_ServedModelID j == "" then None else Some (jm_ServedModelID j)) (jm_JudgmentJSON j) None
      end
  end.

(** ** The tools *)

(** go: internal/rubrics/tool_args.go#hiddenMutationArgs *)
Record hiddenMutationArgs := mkHiddenMutationArgs {
  hma_Finding : RawMessage; hma_File : FileContext; hma_Items : list HiddenMutationPackItem
}.

Definition zero_file : FileContext := mkFileContext "" "" "".

Definition dec_file_context : Decoder FileContext := dec_struct (λ cur ms,
  path ← field dec_string (fc_Path cur) "path" ms;
  language ← field dec_string (fc_Language cur) "language" ms;
  content ← field dec_string (fc_Content cur) "content" ms;
  Some (mkFileContext path language content)).

Definition dec_pack_item : Decoder HiddenMutationPackItem := dec_struct (λ cur ms,
  ref ← field dec_string (pi_FindingRef cur) "finding_ref" ms;
  finding ← field dec_raw (pi_Finding cur) "finding" ms;
  file ← field dec_file_context (pi_File cur) "file" ms;
  Some (mkPackItem ref finding file)).

Definition dec_hidden_mutation_args : Decoder hiddenMutationArgs := dec_struct (λ cur ms,
  finding ← field dec_raw (hma_Finding cur) "finding" ms;
  file ← field dec_file_context (hma_File cur) "file" ms;
  items ← field (dec_slice (mkPackItem "" "" zero_file) dec_pack_item) (Some (hma_Items cur)) "items" ms;
  Some (mkHiddenMutationArgs finding file (default [] items))).

(** go: internal/rubrics/tool_args.go#validateHiddenMutationItems *)
Definition validateHiddenMutationItems (items : list HiddenMutationPackItem) : option error :=
  first_err (λ ie : nat * HiddenMutationPackItem,
    let at_item member := Errorw ErrInvalidArgs
      (": items[" +:+ Itoa (Z.of_nat ie.1) +:+ "]." +:+ member +:+ " is required") in
    if pi_FindingRef ie.2 == "" then Some (at_item "finding_ref")
    else if pi_Finding ie.2 == "" then Some (at_item "finding")
    else None) (imap pair items).

Section Rubrics.
Context {table : IsPrint} `{JsonErrors}.

(** go: internal/rubrics/batch.go#ParseToolPackResult *)
Definition ParseToolPackResult (raw : RawMessage) : error + ToolPackResult :=
  if negb (IsToolPackResult raw) then inl (errors_New "rubrics: not a tool pack result envelope") else
  match Unmarshal dec_pack None raw with
  | None => inl (Errorf "rubrics: decoding tool pack result: " (json_error "ToolPackResult" raw))
  | Some results => inr (mkToolPackResult (default [] results))
  end.

(** go: internal/rubrics/tool_args.go#parseHiddenMutationArgs *)
Definition parseHiddenMutationArgs (args : RawMessage) : error + hiddenMutationArgs :=
  match Unmarshal dec_hidden_mutation_args (mkHiddenMutationArgs "" zero_file []) args with
  | None => inl (Errorw ErrInvalidArgs (": " +:+ json_error_text "hiddenMutationArgs" args))
  | Some a =>
      match hma_Items a with
      | _ :: _ =>
          match validateHiddenMutationItems (hma_Items a) with
          | Some e => inl e
          | None => inr (mkHiddenMutationArgs "" zero_file (hma_Items a))
          end
      | [] =>
          if hma_Finding a == "" then inl (Errorw ErrInvalidArgs ": finding or items is required")
          else inr (mkHiddenMutationArgs (hma_Finding a) (hma_File a) [])
      end
  end.

(** go: internal/rubrics/tool_args.go#assembleHiddenMutationArgs *)
Definition assembleHiddenMutationArgs (args : RawMessage) : error + list Message :=
  match parseHiddenMutationArgs args with
  | inl e => inl e
  | inr a =>
      inr (match hma_Items a with
           | [] => AssembleHiddenMutationMessages (mkHiddenMutationEvidence (hma_Finding a) (hma_File a))
           | items => AssembleHiddenMutationPackMessages items
           end)
  end.

Definition dec_file_meta : Decoder FileMeta := dec_struct (λ cur ms,
  path ← field dec_string (fm_Path cur) "path" ms;
  language ← field dec_string (fm_Language cur) "language" ms;
  Some (mkFileMeta path language)).

(** go: internal/rubrics/tool_args.go#assembleChangeCohesionArgs *)
Definition assembleChangeCohesionArgs (args : RawMessage) : error + list Message :=
  match Unmarshal (dec_struct (λ cur ms,
          findings ← field dec_raw cur.1 "findings" ms;
          files ← field (dec_slice (mkFileMeta "" "") dec_file_meta) cur.2 "files" ms;
          Some (findings, files))) ("", None) args with
  | None => inl (Errorw ErrInvalidArgs (": " +:+ json_error_text "changeCohesionArgs" args))
  | Some (findings, files) =>
      inr (AssembleChangeCohesionMessages (mkChangeCohesionEvidence findings (default [] files)))
  end.

(** A marshalled envelope as a handler's outcome. *)
Definition marshalled (raw : option RawMessage) : RawMessage * option error :=
  match raw with
  | Some raw => (raw, None)
  | None => ("", Some (json_error "json.RawMessage" ""))
  end.

(** go: internal/rubrics/tools_hidden_mutation.go#packRefs *)
Definition packRefs (items : list HiddenMutationPackItem) : list string := map pi_FindingRef items.

(** go: internal/rubrics/tools_hidden_mutation.go#runHiddenMutationPack *)
Definition runHiddenMutationPack (t : nat) (ctx : Context) (gw : option Gateway) (def : rubric)
    (items : list HiddenMutationPackItem) : (RawMessage * option error) * nat :=
  let refs := packRefs items in
  match lifecycleAbortErr (ctx_Err ctx t) with
  | Some e => (("", Some e), t)
  | None =>
      match gw with
      | None => (marshalled (marshalToolPackResult (packResultsForGatewayDegrade def refs
                   (degrade (rub_ID def) "model gateway is nil"))), t)
      | Some gw =>
          let '(resp, t) := gw_Judge ctx t (mkJudgmentRequest (rub_ID def) (rub_Version def)
            (AssembleHiddenMutationPackMessages items) HiddenMutationBatchOutputSchema "") in
          match abort_after ctx t (left_of resp) with
          | Some abort => (("", Some abort), t)
          | None =>
              match resp with
              | inl err => (marshalled (marshalToolPackResult
                  (packResultsForGatewayDegrade def refs (degradeFromErr (rub_ID def) err))), t)
              | inr resp => (marshalled (marshalToolPackResult (mapBatchJudgmentToPackResult def refs resp)), t)
              end
          end
      end
  end.

(** One judgment and its envelope, for the finding a reference names, if any. *)
Definition run_single (t : nat) (ctx : Context) (gw : option Gateway) (def : rubric) (ref : string)
    (messages : list Message) : (RawMessage * option error) * nat :=
  match Run ctx t gw def messages with
  | (inl e, t) => (("", Some e), t)
  | (inr result, t) =>
      let tr := toolResultFromRun def result in
      (marshalled (marshalToolResult (mkToolResult ref (tres_RubricID tr) (tres_RubricVersion tr)
         (tres_ModelIdentity tr) (tres_LogicalModelID tr) (tres_ServedModelID tr) (tres_Judgment tr)
         (tres_Diagnostic tr))), t)
  end.

(** go: internal/rubrics/tools_hidden_mutation.go#hiddenMutationToolHandler *)
Definition hiddenMutationToolHandler (gw : option Gateway) (def : rubric) : ToolHandler := λ t ctx args,
  match parseHiddenMutationArgs args with
  | inl e => (("", Some e), t)
  | inr a =>
      match hma_Items a with
      | [] => run_single t ctx gw def ""
          (AssembleHiddenMutationMessages (mkHiddenMutationEvidence (hma_Finding a) (hma_File a)))
      | [it] => run_single t ctx gw def (pi_FindingRef it)
          (AssembleHiddenMutationMessages (mkHiddenMutationEvidence (pi_Finding it) (pi_File it)))
      | items => runHiddenMutationPack t ctx gw def items
      end
  end.

(** go: internal/rubrics/tools.go#seedToolConfig *)
Record seedToolConfig := mkSeedToolConfig {
  cfg_id : string; cfg_argsSchema : RawMessage; cfg_packAware : bool;
  cfg_assemble : RawMessage → error + list Message
}.

Definition file_schema : string := "{'type':'object','required':['path'],'properties':{
  'path':{'type':'string'},'language':{'type':'string'},'content':{'type':'string'}}}".

(** go: internal/rubrics/tool_args.go#hiddenMutationArgsSchema *)
Definition hiddenMutationArgsSchema : RawMessage := jtext ("{'type':'object','properties':{
  'finding':{'type':'object'},'file':" +:+ file_schema +:+ ",
  'items':{'type':'array','items':{'type':'object','required':['finding_ref','finding','file'],
    'properties':{'finding_ref':{'type':'string'},'finding':{'type':'object'},'file':" +:+ file_schema +:+ "}}}}}").

(** go: internal/rubrics/tool_args.go#changeCohesionArgsSchema *)
Definition changeCohesionArgsSchema : RawMessage := jtext "{'type':'object','required':['findings','files'],
  'properties':{'findings':{'type':'array'},'files':{'type':'array','items':{'type':'object',
    'required':['path'],'properties':{'path':{'type':'string'},'language':{'type':'string'}}}}}}".

(** go: internal/rubrics/tools.go#seedToolConfigs *)
Definition seedToolConfigs : list seedToolConfig :=
  [mkSeedToolConfig IDHiddenMutationContextualization hiddenMutationArgsSchema true assembleHiddenMutationArgs;
   mkSeedToolConfig IDChangeCohesion changeCohesionArgsSchema false assembleChangeCohesionArgs].

(** go: internal/rubrics/tools.go#seedJudgmentTool *)
Definition seedJudgmentTool (gw : option Gateway) (cfg : seedToolConfig) : error + ToolSpec :=
  match DefinitionByID (cfg_id cfg) with
  | None => inl (errors_New ("rubrics: missing seed definition " +:+ quoted (cfg_id cfg)))
  | Some def =>
      inr (mkToolSpec (cfg_id cfg) (cfg_argsSchema cfg) (Some
        (if cfg_packAware cfg then hiddenMutationToolHandler gw def
         else λ t ctx args,
           match cfg_assemble cfg args with
           | inl e => (("", Some e), t)
           | inr msgs => run_single t ctx gw def "" msgs
           end)))
  end.

(** The specifications in order, or the first failure. *)
Fixpoint judgment_tools (gw : option Gateway) (cfgs : list seedToolConfig) : error + list ToolSpec :=
  match cfgs with
  | [] => inr []
  | cfg :: cfgs =>
      match seedJudgmentTool gw cfg, judgment_tools gw cfgs with
      | inl e, _ | inr _, inl e => inl e
      | inr spec, inr specs => inr (spec :: specs)
      end
  end.

(** go: internal/rubrics/tools.go#ToolSpecs *)
Definition ToolSpecs (gw : option Gateway) : error + list ToolSpec :=
  match gw with
  | None => inl (errors_New "rubrics: gateway is required")
  | Some _ => judgment_tools gw seedToolConfigs
  end.

(** The package's handlers of the core tools, which the loop's registry names. *)
Variables (ds dc : ToolHandler).

Fixpoint register_all (specs : list ToolSpec) (l : Loop) : Loop * option error :=
  match specs with
  | [] => (l, None)
  | spec :: specs =>
      match Register ds dc spec l with
      | (l, Some e) => (l, Some e)
      | (l, None) => register_all specs l
      end
  end.

(** For a loop, not the nil one.
    go: internal/rubrics/tools.go#RegisterTools *)
Definition RegisterTools (loop : Loop) (gw : option Gateway) : Loop * option error :=
  match ToolSpecs gw with
  | inl e => (loop, Some e)
  | inr specs => register_all specs loop
  end.
End Rubrics.

(** ** What the answer to a pack says *)

Section Batch.

(** The items of an answer; none when it is not the envelope asked for. *)
Definition answer_items (raw : RawMessage) : list batchItemJudgment :=
  match Unmarshal dec_batch None raw with Some (Some items) => items | _ => [] end.

Definition mentions (ref : string) (items : list batchItemJudgment) : list batchItemJudgment :=
  List.filter (λ it, bi_FindingRef it == ref) items.

(** An item the rubric's schema accepts. *)
Definition item_valid (it : batchItemJudgment) : Prop :=
  bi_Judgment it ∈ ["concern"; "acceptable"; "unclear"]
  ∧ bi_Confidence it ∈ ["high"; "medium"; "low"]
  ∧ TrimSpace (bi_Rationale it) ≠ ""
  ∧ ∃ j, parse (bi_SuggestedFocus it) = Some j ∧ (j = JNull ∨ ∃ s, j = JString s).

Lemma validateBatchItem_None it : validateBatchItem it = None ↔ item_valid it.
Proof.
  unfold validateBatchItem, item_valid.
  repeat (case_bool_decide; cbn [negb]; [|split; [done|naive_solver]]).
  destruct (String.eqb_spec (TrimSpace (bi_Rationale it)) ""); [split; [done|naive_solver]|].
  destruct (String.eqb_spec (bi_SuggestedFocus it) "") as [E|].
  { rewrite E. split; [done|]. by intros (_ & _ & _ & ? & [=] & _). }
  destruct (String.eqb_spec (bi_SuggestedFocus it) "null") as [->|]; cbn [negb].
  - split; [|done]. intros _. do 3 (split; [done|]). exists JNull. split; [reflexivity|by left].
  - unfold Unmarshal. destruct (parse (bi_SuggestedFocus it)) as [j|]; [|naive_solver].
    destruct j; cbn; naive_solver.
Qed.

(** A valid item has a judgment to show. *)
Lemma item_valid_marshals it : item_valid it →
  ∃ ms, marshalBatchItemJudgment it = Some (print (JObject ms)).
Proof.
  intros (_ & _ & _ & j & Hj & _). unfold marshalBatchItemJudgment, marshal_raw. rewrite Hj.
  destruct (_ == _); by eexists.
Qed.

(** The items by reference: the only item of a reference, or the mark of several. *)
Lemma batch_maps items ref : ref ≠ "" →
  let maps := fold_left batch_step items (∅, ∅) in
  match mentions ref items with
  | [] => maps.1 !! ref = None ∧ maps.2 !! ref = None
  | [it] => maps.1 !! ref = Some it ∧ maps.2 !! ref = None
  | _ => maps.1 !! ref = None ∧ maps.2 !! ref = Some "batch response has duplicate finding_ref"
  end.
Proof.
  intros Href. cbn zeta. induction items as [|it items IH] using rev_ind; [done|].
  rewrite fold_left_app. unfold mentions in *. rewrite List.filter_app. cbn [fold_left List.filter].
  destruct (fold_left batch_step items (∅, ∅)) as [byRef dup]. cbn [fst snd] in *. unfold batch_step.
  destruct (String.eqb_spec (bi_FindingRef it) ref) as [->|Hne].
  - destruct (String.eqb_spec ref "") as [|_]; [done|].
    destruct (List.filter _ items) as [|i1 [|i2 more]] eqn:E; cbn [app]; destruct IH as [H1 H2]; rewrite H1; try rewrite H2; cbn [fst snd].
    + by rewrite lookup_insert_eq.
    + by rewrite lookup_delete_eq, lookup_insert_eq.
    + done.
  - rewrite app_nil_r. destruct (String.eqb_spec (bi_FindingRef it) "") as [|_]; [done|].
    destruct (byRef !! bi_FindingRef it); [cbn [fst snd]; by rewrite lookup_delete_ne, lookup_insert_ne by done|].
    destruct (dup !! bi_FindingRef it); [done|]. cbn [fst snd]. by rewrite lookup_insert_ne by done.
Qed.

(** A result that judges a finding, or explains why it does not. *)
Definition judged (r : ToolResult) : Prop := HasJudgment r = true ∧ tres_Diagnostic r = None.
Definition diagnosed (r : ToolResult) : Prop := HasJudgment r = false ∧ is_Some (tres_Diagnostic r).

(** A diagnostic of one finding, in the rubric's own words. *)
Definition explained (def : rubric) (ref : string) (r : ToolResult) : Prop :=
  ∃ msg, ascii_only msg = true ∧ r = packItemDiagnostic def ref msg.

Lemma validateBatchItem_ascii it e : validateBatchItem it = Some e → ascii_only e = true.
Proof. unfold validateBatchItem. repeat case_match; intros [= <-]; reflexivity. Qed.

(** The finding's item in the answer decides. *)
Lemma ref_result_spec def resp ref : ref ≠ "" →
  let r := ref_result def resp (parseBatchItems (resp_JudgmentJSON resp)) ref in
  tres_FindingRef r = ref ∧
  ((∃ it judgment, mentions ref (answer_items (resp_JudgmentJSON resp)) = [it] ∧ item_valid it
      ∧ marshalBatchItemJudgment it = Some judgment ∧ r = item_result def ref resp judgment ∧ judged r)
   ∨ (¬ ∃ it, mentions ref (answer_items (resp_JudgmentJSON resp)) = [it] ∧ item_valid it) ∧ explained def ref r).
Proof.
  intros Href. cbn zeta. pose proof (batch_maps (answer_items (resp_JudgmentJSON resp)) ref Href) as Hm.
  assert (parseBatchItems (resp_JudgmentJSON resp)
    = fold_left batch_step (answer_items (resp_JudgmentJSON resp)) (∅, ∅)) as ->.
  { unfold parseBatchItems, answer_items. by destruct (Unmarshal _ _ _) as [[]|]. }
  cbn zeta in Hm. revert Hm. generalize (fold_left batch_step (answer_items (resp_JudgmentJSON resp)) (∅, ∅)) as maps.
  intros maps Hm. unfold ref_result.
  assert (∀ msg, ascii_only msg = true → (¬ ∃ it, mentions ref (answer_items (resp_JudgmentJSON resp)) = [it] ∧ item_valid it) →
    tres_FindingRef (packItemDiagnostic def ref msg) = ref ∧
    ((∃ it judgment, mentions ref (answer_items (resp_JudgmentJSON resp)) = [it] ∧ item_valid it
        ∧ marshalBatchItemJudgment it = Some judgment
        ∧ packItemDiagnostic def ref msg = item_result def ref resp judgment ∧ judged (packItemDiagnostic def ref msg))
     ∨ (¬ ∃ it, mentions ref (answer_items (resp_JudgmentJSON resp)) = [it] ∧ item_valid it)
       ∧ explained def ref (packItemDiagnostic def ref msg))) as Hdiag.
  { intros msg Hmsg Hno. split; [done|]. right. split; [done|]. by exists msg. }
  destruct (mentions ref _) as [|it [|it2 more]] eqn:E; destruct Hm as [-> ->].
  - apply Hdiag; [done|]. naive_solver.
  - destruct (validateBatchItem it) as [e|] eqn:V.
    + apply Hdiag; [by eapply validateBatchItem_ascii|]. intros (it' & [= <-] & Hv). apply validateBatchItem_None in Hv. congruence.
    + apply validateBatchItem_None in V. destruct (item_valid_marshals it V) as [ms Hms].
      rewrite Hms. split; [done|]. left. exists it, (print (JObject ms)).
      do 4 (split; [done|]). split; reflexivity.
  - apply Hdiag; [done|]. naive_solver.
Qed.

(** The references that are there. *)
Definition present (refs : list string) : list string := List.filter (λ r, r != "") refs.

(** What the result at a place must be, given the references before it. *)
Definition result_exact (def : rubric) (resp : JudgmentResponse) (earlier : list string) (ref : string)
    (r : ToolResult) : Prop :=
  tres_FindingRef r = ref ∧
  ((∃ it judgment, ref ∉ earlier ∧ mentions ref (answer_items (resp_JudgmentJSON resp)) = [it] ∧ item_valid it
      ∧ marshalBatchItemJudgment it = Some judgment ∧ r = item_result def ref resp judgment ∧ judged r)
   ∨ (¬ (ref ∉ earlier ∧ ∃ it, mentions ref (answer_items (resp_JudgmentJSON resp)) = [it] ∧ item_valid it))
     ∧ explained def ref r).

Lemma map_step_spec def resp refs : ∀ earlier seen results,
  (∀ ref, ref ∈ seen ↔ ref ∈ earlier) →
  ∃ more, snd (fold_left (map_step def resp (parseBatchItems (resp_JudgmentJSON resp))) refs (seen, results))
          = results ++ more
    ∧ length more = length (present refs)
    ∧ ∀ i ref r, present refs !! i = Some ref → more !! i = Some r →
        result_exact def resp (earlier ++ take i (present refs)) ref r.
Proof.
  induction refs as [|ref refs IH]; intros earlier seen results Hseen; cbn [fold_left].
  { exists []. by rewrite app_nil_r. }
  unfold map_step at 2. unfold present. cbn [List.filter].
  destruct (String.eqb_spec ref "") as [->|Hne]; cbn [negb]; [by apply IH|]. fold (present refs).
  assert (∀ seen' r, (∀ x, x ∈ seen' ↔ x ∈ earlier ++ [ref]) → result_exact def resp earlier ref r →
    ∃ more, snd (fold_left (map_step def resp (parseBatchItems (resp_JudgmentJSON resp))) refs (seen', results ++ [r]))
          = results ++ more
    ∧ length more = length (ref :: present refs)
    ∧ ∀ i x r', (ref :: present refs) !! i = Some x → more !! i = Some r' →
        result_exact def resp (earlier ++ take i (ref :: present refs)) x r') as Hgo.
  { intros seen' r Hs Hr. destruct (IH (earlier ++ [ref]) seen' (results ++ [r]) Hs) as (more & -> & Hl & Hm).
    exists (r :: more). rewrite <-app_assoc. split; [done|]. split; [by cbn; rewrite Hl|].
    intros [|i] x r' Hx Hr'; cbn in Hx, Hr'.
    - simplify_eq. cbn. by rewrite app_nil_r.
    - specialize (Hm i x r' Hx Hr'). cbn [take]. by rewrite <-app_assoc in Hm. }
  case_bool_decide as Hin.
  - apply Hgo.
    + intros x. rewrite Hseen, elem_of_app, list_elem_of_singleton. split; [by left|].
      intros [Hx| ->]; [done|]. by apply Hseen.
    + split; [done|]. right. split; [|by exists "duplicate finding_ref in pack args"]. intros [Hni _]. by apply Hni, Hseen.
  - apply Hgo.
    + intros x. rewrite elem_of_union, elem_of_singleton, elem_of_app, list_elem_of_singleton, Hseen. tauto.
    + destruct (ref_result_spec def resp ref Hne) as [Hf [(it & j & H1 & H2 & H3 & H4 & H5)|[H1 H2]]]; (split; [done|]).
      * left. exists it, j. rewrite <-Hseen. done.
      * right. split; [|done]. tauto.
Qed.

Lemma batch_results def refs resp :
  let results := tpr_Results (mapBatchJudgmentToPackResult def refs resp) in
  map tres_FindingRef results = present refs
  ∧ ∀ i ref r, present refs !! i = Some ref → results !! i = Some r →
      result_exact def resp (take i (present refs)) ref r.
Proof.
  cbn zeta. unfold mapBatchJudgmentToPackResult. cbn [tpr_Results].
  destruct (map_step_spec def resp refs [] ∅ []) as (more & -> & Hl & Hm); [set_solver|].
  cbn [app] in *. split; [|done]. apply list_eq_same_length with (n := length more); [by rewrite Hl|by rewrite length_map|].
  intros i x y _ Hx Hy. rewrite list_lookup_fmap in Hx. apply fmap_Some in Hx as (r & Hr & ->).
  by destruct (Hm i y r Hy Hr).
Qed.

(** A pack's answer becomes one result per reference asked for, in the order asked.
    A result carries a judgment exactly if its reference is asked for the first time
    and the answer has exactly one item for it, which the rubric accepts; the judgment
    is that item's, under the rubric's version and the model that served it.  Every
    other result is a diagnostic: an answer that omits, repeats or garbles an item
    loses that item alone. *)
Theorem pack_results_exact def refs resp :
  let results := tpr_Results (mapBatchJudgmentToPackResult def refs resp) in
  map tres_FindingRef results = present refs
  ∧ ∀ i ref r, present refs !! i = Some ref → results !! i = Some r →
      result_exact def resp (take i (present refs)) ref r.
Proof. apply batch_results. Qed.
End Batch.

(** ** Envelopes read back *)

Section Envelope.
Context `{JsonErrors}.

Definition opt_valid (o : option string) : Prop := match o with Some s => valid_utf8 s | None => True end.

(** A result whose texts are UTF-8 and whose judgment, if any, is JSON that is not
    nested to the decoder's limit: an envelope adds three levels. *)
Record result_wf (r : ToolResult) : Prop := {
  rwf_ref : valid_utf8 (tres_FindingRef r);
  rwf_id : valid_utf8 (tres_RubricID r);
  rwf_version : valid_utf8 (tres_RubricVersion r);
  rwf_identity : opt_valid (tres_ModelIdentity r);
  rwf_logical : opt_valid (tres_LogicalModelID r);
  rwf_served : opt_valid (tres_ServedModelID r);
  rwf_diagnostic : match tres_Diagnostic r with
    | Some d => valid_utf8 (rdg_Scope d) ∧ valid_utf8 (rdg_Message d) | None => True end;
  rwf_judgment : ∃ j, marshal_raw (tres_Judgment r) = Some j ∧ (depth j <= 9997)%N
}.

(** What is left of a result: its judgment compacted, [null] for none. *)
Definition compacted (r : ToolResult) : ToolResult :=
  mkToolResult (tres_FindingRef r) (tres_RubricID r) (tres_RubricVersion r) (tres_ModelIdentity r)
    (tres_LogicalModelID r) (tres_ServedModelID r)
    (match marshal_raw (tres_Judgment r) with Some j => print j | None => "" end)
    (tres_Diagnostic r).

Lemma dec_ptr_JStr zero s : valid_utf8 s → dec_ptr "" dec_string zero (JStr s) = Some (Some s).
Proof. intros Hs. cbn [dec_ptr JStr]. change (JString (json_raw s)) with (JStr s). by rewrite dec_JStr. Qed.

Lemma dec_diagnostic_json d : valid_utf8 (rdg_Scope d) → valid_utf8 (rdg_Message d) →
  dec_diagnostic (mkRubricDiagnostic "" "") (diagnostic_json d) = Some d.
Proof.
  intros H1 H2. destruct d as [scope msg]. cbn [rdg_Scope rdg_Message] in *.
  unfold dec_diagnostic, diagnostic_json. cbn [dec_struct rdg_Scope rdg_Message].
  rewrite field_hit by (vm_compute; reflexivity). rewrite dec_JStr by done.
  rewrite field_skip by (vm_compute; reflexivity). rewrite field_nil.
  rewrite field_skip by (vm_compute; reflexivity). rewrite field_hit by (vm_compute; reflexivity).
  by rewrite dec_JStr, field_nil by done.
Qed.

(** A member that is well formed and not nested too deep. *)
Definition member_ok (n : N) (m : string * json) : Prop :=
  (wf_raw m.1 ∧ wf m.2) ∧ (depth m.2 <= n)%N.

Lemma member_string n k s : wf_raw k → member_ok n (k, JStr s).
Proof. intros Hk. split; [split; [done|apply wf_JStr]|]. cbn. lia. Qed.

Lemma member_opt n k o : wf_raw k → member_ok n (k, opt_JStr o).
Proof. intros Hk. split; [split; [done|apply wf_opt_JStr]|]. cbn [snd]. rewrite depth_opt_JStr. lia. Qed.

Lemma omit_empty_ok n k s : wf_raw k → Forall (member_ok n) (omit_empty k s).
Proof. intros Hk. unfold omit_empty. destruct (_ == _); constructor; [by apply member_string|constructor]. Qed.

Lemma omit_nil_ok n k o : wf_raw k → Forall (member_ok n) (omit_nil k o).
Proof. intros Hk. destruct o; constructor; [by apply member_string|constructor]. Qed.

Lemma members_ok n ms : Forall (member_ok n) ms → wf (JObject ms) ∧ (depth (JObject ms) <= 1 + n)%N.
Proof.
  intros Hms. split.
  - apply wf_object. eapply list.Forall_impl; [exact Hms|]. by intros m [? _].
  - apply depth_object_le. eapply list.Forall_impl; [exact Hms|]. by intros m [_ ?].
Qed.

Lemma result_json_wf r j : marshal_raw (tres_Judgment r) = Some j → (depth j <= 9997)%N →
  wf (JObject (tool_result_members r j)) ∧ (depth (JObject (tool_result_members r j)) <= 9998)%N.
Proof.
  intros Hj Hd. apply marshal_raw_wf in Hj as [Hj _]. apply (members_ok 9997). unfold tool_result_members.
  apply list.Forall_app. split; [by apply omit_empty_ok|].
  apply list.Forall_app. split.
  { constructor; [by apply member_string|]. constructor; [by apply member_string|].
    constructor; [by apply member_opt|constructor]. }
  apply list.Forall_app. split; [by apply omit_nil_ok|].
  apply list.Forall_app. split; [by apply omit_nil_ok|].
  constructor; [by repeat split|]. constructor; [|constructor].
  destruct (tres_Diagnostic r) as [d|]; [|split; [by repeat split|done]].
  assert (wf (diagnostic_json d) ∧ (depth (diagnostic_json d) <= 1 + 0)%N) as [Hw Hdd].
  { apply members_ok. constructor; [by apply member_string|]. constructor; [by apply member_string|constructor]. }
  split; [by split|]. cbn [snd]. lia.
Qed.

Lemma dec_tool_result_members r j : result_wf r → marshal_raw (tres_Judgment r) = Some j →
  dec_tool_result zero_result (JObject (tool_result_members r j)) = Some (compacted r).
Proof.
  intros [] Hj. unfold compacted. rewrite Hj. destruct r as [ref id version identity logical served raw diag].
  cbn [tres_FindingRef tres_RubricID tres_RubricVersion tres_ModelIdentity tres_LogicalModelID
       tres_ServedModelID tres_Judgment tres_Diagnostic] in *.
  unfold dec_tool_result, tool_result_members, zero_result.
  cbn [dec_struct tres_FindingRef tres_RubricID tres_RubricVersion tres_ModelIdentity tres_LogicalModelID
       tres_ServedModelID tres_Judgment tres_Diagnostic].
  unfold omit_empty, omit_nil.
  assert (dec_ptr (mkRubricDiagnostic "" "") dec_diagnostic None
    (match diag with Some d => diagnostic_json d | None => JNull end) = Some diag) as Hdiag.
  { destruct diag as [d|]; [|done]. destruct rwf_diagnostic0.
    change (option_map Some (dec_diagnostic (mkRubricDiagnostic "" "") (diagnostic_json d)) = Some (Some d)).
    by rewrite dec_diagnostic_json. }
  revert Hdiag. generalize (match diag with Some d => diagnostic_json d | None => JNull end) as jd. intros jd Hdiag.
  destruct (String.eqb_spec ref "") as [->|_]; destruct identity, logical, served; cbn [app opt_valid opt_JStr] in *;
    repeat (progress (repeat first
      [ rewrite field_nil | rewrite field_skip by (vm_compute; reflexivity)
      | rewrite field_hit by (vm_compute; reflexivity)
      | rewrite dec_JStr by done | rewrite dec_ptr_JStr by done | rewrite Hdiag ]);
      cbn [mbind option_bind dec_raw dec_ptr]); done.
Qed.

Lemma results_json rs : Forall result_wf rs →
  ∃ js, mapM tool_result_json rs = Some js
    ∧ Forall (λ j, wf j ∧ (depth j <= 9998)%N) js
    ∧ Forall2 (λ j r, dec_tool_result zero_result j = Some (compacted r)) js rs.
Proof.
  induction 1 as [|r rs Hr _ (js & E & Hw & Hd)]; [by exists []|].
  destruct (rwf_judgment r Hr) as (j & Hj & Hdepth).
  assert (tool_result_json r = Some (JObject (tool_result_members r j))) as Er
    by (unfold tool_result_json; by rewrite Hj).
  exists (JObject (tool_result_members r j) :: js). split.
  { unfold mapM in *. cbn [mbind option_bind]. rewrite Er. cbn [option_bind mbind]. by rewrite E. }
  split.
  - constructor; [|done]. by apply result_json_wf.
  - constructor; [by apply dec_tool_result_members|done].
Qed.

Lemma field_results {A} (dec : Decoder A) init j a :
  dec init j = Some a → field dec init "results" [("results", j)] = Some a.
Proof. intros Hd. rewrite field_hit by (vm_compute; reflexivity). by rewrite Hd. Qed.

Lemma pack_reads_back p : Forall result_wf (tpr_Results p) →
  ∃ raw, marshalToolPackResult p = Some raw ∧ IsToolPackResult raw = true
    ∧ ParseToolPackResult raw = inr (mkToolPackResult (map compacted (tpr_Results p))).
Proof.
  intros Hp. destruct (results_json _ Hp) as (js & Hjs & Hw & Hd). unfold marshalToolPackResult.
  rewrite Hjs. cbn [option_map]. eexists. split; [done|].
  set (inner := JArray js). set (tree := JObject [("results", inner)]).
  assert (wf inner ∧ (depth inner <= 9999)%N) as [Hwi Hdi].
  { split; [apply wf_array|apply (depth_array_le _ 9998)]; (eapply list.Forall_impl; [exact Hw|]); by intros ? []. }
  assert (parse (print inner) = Some inner) as Hpi by (apply parse_print; [done|]; unfold maxNestingDepth; lia).
  assert (parse (print tree) = Some tree) as Hpt.
  { assert (wf tree ∧ (depth tree <= 1 + 9999)%N) as [? ?] by (apply members_ok; by repeat constructor).
    apply parse_print; [done|]. unfold maxNestingDepth. lia. }
  assert (print tree ≠ "" ∧ print inner ≠ "") as [Ht Hi] by done.
  assert (IsToolPackResult (print tree) = true) as His.
  { unfold IsToolPackResult. apply String.eqb_neq in Ht, Hi. rewrite Ht. unfold Unmarshal at 1.
    rewrite Hpt. cbn [dec_struct tree]. rewrite (field_results _ _ _ (print inner)) by done. rewrite Hi.
    unfold Unmarshal. rewrite Hpi. cbn [dec_slice inner default option_map].
    rewrite (dec_elems_map _ _ _ (map print js)); [done|]. clear. induction js; constructor; auto. }
  split; [done|]. unfold ParseToolPackResult. rewrite His. cbn [negb]. unfold Unmarshal. rewrite Hpt.
  unfold dec_pack. cbn [dec_struct tree].
  rewrite (field_results _ _ _ (Some (map compacted (tpr_Results p)))); [done|].
  cbn [dec_slice inner default option_map]. rewrite (dec_elems_map _ _ _ (map compacted (tpr_Results p))); [done|].
  clear -Hd. induction Hd; constructor; auto.
Qed.

(** A pack's envelope is read back as it was: for results whose texts are UTF-8 and
    whose judgments are valid JSON, it can be encoded, is told apart from the envelope
    of a single result, and decodes to the same results in the same order, judgments
    compacted. *)
Theorem pack_envelope_roundtrip p :
  Forall result_wf (tpr_Results p) →
  ∃ raw, marshalToolPackResult p = Some raw ∧ IsToolPackResult raw = true
    ∧ ParseToolPackResult raw = inr (mkToolPackResult (map compacted (tpr_Results p))).
Proof. apply pack_reads_back. Qed.

Lemma print_null j : wf j → print j = "null" → j = JNull.
Proof.
  intros Hw E. assert (depth j <= maxNestingDepth)%N as Hd.
  { destruct j; try (cbn; unfold maxNestingDepth; lia); cbn [print] in E; discriminate. }
  pose proof (parse_print j Hw Hd) as Hp. rewrite E in Hp. by injection Hp.
Qed.

(** A judgment as an envelope shows it keeps its standing in the next one. *)
Lemma compacted_again r : result_wf r → result_wf (compacted r) ∧
  (HasJudgment (compacted r) = true → HasJudgment (compacted (compacted r)) = true)
  ∧ (HasJudgment (compacted r) = false → HasJudgment (compacted (compacted r)) = false).
Proof.
  intros Hr. destruct (rwf_judgment r Hr) as (j & Hj & Hd). pose proof (marshal_raw_wf _ _ Hj) as [Hw Hdm].
  assert (marshal_raw (print j) = Some (escape_json j)) as Hm.
  { unfold marshal_raw. rewrite parse_print by done. destruct (String.eqb_spec (print j) "") as [E|]; [|done].
    pose proof (parse_print j Hw Hdm) as Hp. by rewrite E in Hp. }
  destruct (wf_escape_json j Hw) as [Hwe Hde].
  assert (compacted r = mkToolResult (tres_FindingRef r) (tres_RubricID r) (tres_RubricVersion r)
    (tres_ModelIdentity r) (tres_LogicalModelID r) (tres_ServedModelID r) (print j) (tres_Diagnostic r)) as E
    by (unfold compacted; by rewrite Hj).
  rewrite E. split.
  { destruct Hr. split; try done. cbn. exists (escape_json j). split; [done|]. by rewrite Hde. }
  unfold HasJudgment, compacted. cbn [tres_Judgment]. rewrite Hm.
  assert (∀ k, wf k → (depth k <= maxNestingDepth)%N → (print k == "") = false) as Hne.
  { intros k Hk Hkd. destruct (String.eqb_spec (print k) "") as [Ek|]; [|done].
    pose proof (parse_print k Hk Hkd) as Hp. by rewrite Ek in Hp. }
  rewrite !Hne by (done || by rewrite Hde).
  split; destruct (String.eqb_spec (print j) "null") as [Ej|Ej]; try done; intros _.
  - destruct (String.eqb_spec (print (escape_json j)) "null") as [Ee|]; [|done].
    apply print_null in Ee; [|done]. destruct Ej. by destruct j.
  - by rewrite (print_null j Hw Ej).
Qed.

(** The envelope of a single result reads back, and is no pack's. *)
Lemma single_reads_back r : result_wf r →
  ∃ raw, marshalToolResult r = Some raw ∧ IsToolPackResult raw = false
    ∧ Unmarshal dec_tool_result zero_result raw = Some (compacted r).
Proof.
  intros Hr. destruct (rwf_judgment r Hr) as (j & Hj & Hdepth). unfold marshalToolResult, tool_result_json.
  rewrite Hj. cbn [option_map]. eexists. split; [done|].
  destruct (result_json_wf r j Hj Hdepth) as [Hw Hd].
  assert (parse (print (JObject (tool_result_members r j))) = Some (JObject (tool_result_members r j))) as Hp
    by (apply parse_print; [done|]; unfold maxNestingDepth; lia).
  unfold IsToolPackResult, Unmarshal. rewrite Hp. split; [|by apply dec_tool_result_members].
  destruct (_ == _); [done|]. cbn [dec_struct]. unfold tool_result_members, omit_empty, omit_nil.
  assert (field dec_raw "" "results" (tool_result_members r j) = Some "") as E.
  { unfold tool_result_members, omit_empty, omit_nil.
    destruct (_ == _); destruct (tres_LogicalModelID r), (tres_ServedModelID r); cbn [app]; by read_fields. }
  unfold tool_result_members, omit_empty, omit_nil in E. by rewrite E.
Qed.

End Envelope.

(** ** Degrading and aborting *)

Section Degrade.
Context {table : IsPrint} `{JsonErrors} {gw : Gateway} {laws : GatewayLaws}.

(** What may abort a judgment: a cancellation, or the deadline of the operation's own
    context once the gateway has failed. *)
Definition aborts (ctx : Context) (t t' : nat) (failure : option error) (e : error) : Prop :=
  (e = sentinel_error Canceled
   ∧ (ctx t = Some Canceled ∨ ctx t' = Some Canceled ∨ ∃ f, failure = Some f ∧ errors_Is f Canceled = true))
  ∨ (failure = Some e ∧ ctx t' = Some DeadlineExceeded).

Lemma lifecycleAbort_ctx ctx t e : lifecycleAbortErr (ctx_Err ctx t) = Some e →
  e = sentinel_error Canceled ∧ ctx t = Some Canceled.
Proof.
  unfold lifecycleAbortErr, ctx_Err. destruct (ctx t) as [s|]; [|done]. cbn [option_map].
  rewrite errors_Is_sentinel. case_bool_decide; [|done]. intros [= <-]. by subst s.
Qed.

Lemma abort_after_aborts ctx t t' failure e : abort_after ctx t' failure = Some e → aborts ctx t t' failure e.
Proof.
  unfold abort_after, firstLifecycleAbort, aborts.
  destruct (lifecycleAbortErr failure) as [a|] eqn:E1.
  { intros [= <-]. left. unfold lifecycleAbortErr in E1. destruct failure as [f|]; [|done].
    destruct (errors_Is f Canceled) eqn:Ef; [|done]. injection E1 as <-. split; [done|].
    right. right. by exists f. }
  destruct (lifecycleAbortErr (ctx_Err ctx t')) as [a|] eqn:E2.
  { intros [= <-]. left. apply lifecycleAbort_ctx in E2 as [-> ?]. auto. }
  destruct failure as [f|]; [|done]. unfold isOpDeadlineExceeded, ctx_Err.
  destruct (ctx t') as [s|]; [|done]. cbn [option_map]. rewrite errors_Is_sentinel.
  case_bool_decide; [|done]. intros [= <-]. right. by subst s.
Qed.

(** While the context lives and the failure is no cancellation, nothing aborts. *)
Lemma abort_after_live ctx t failure :
  ctx t = None → (∀ f, failure = Some f → errors_Is f Canceled = false) → abort_after ctx t failure = None.
Proof.
  intros Hc Hf. unfold abort_after, firstLifecycleAbort, lifecycleAbortErr, isOpDeadlineExceeded, ctx_Err.
  rewrite Hc. cbn [option_map]. destruct failure as [f|]; [|done]. by rewrite (Hf f eq_refl).
Qed.

(** What a run of one judgment may return. *)
Definition run_outcome (ctx : Context) (t : nat) (def : rubric) (failure : option error)
    (r : (error + Result) * nat) : Prop :=
  match r.1 with
  | inl e => aborts ctx t r.2 failure e
  | inr res =>
      match res_Judgment res, res_Diagnostic res with
      | Some j, None => failure = None ∧ judgment_accepted (rub_OutputSchema def) (jm_JudgmentJSON j)
          ∧ jm_RubricID j = rub_ID def ∧ jm_RubricVersion j = rub_Version def ∧ jm_ModelIdentity j ≠ ""
      | None, Some d => rdg_Scope d = diagnosticScope (rub_ID def)
          ∧ ∃ f, failure = Some f ∧ rdg_Message d ≠ "" ∧
              (errors_Is f ErrSchemaValidation = true ∨ errors_Is f ErrUnavailable = true)
      | _, _ => False
      end
  end.

Lemma FormatModelIdentity_nonempty logical served : logical ≠ "" → FormatModelIdentity logical served ≠ "".
Proof.
  intros Hl. unfold FormatModelIdentity. destruct (String.eqb_spec logical ""); [done|].
  destruct (_ || _); [done|]. by destruct logical.
Qed.

Lemma Run_outcome ctx t def messages :
  rub_ID def ≠ "" →
  let asked := gw_Judge ctx t
    (mkJudgmentRequest (rub_ID def) (rub_Version def) messages (rub_OutputSchema def) "") in
  let r := Run ctx t (Some gw) def messages in
  run_outcome ctx t def (left_of asked.1) r ∧ t ≤ r.2
  ∧ (ctx t = None → ctx r.2 = None → (∀ f, asked.1 = inl f → errors_Is f Canceled = false) → ∃ res, r.1 = inr res).
Proof.
  intros Hid. cbn zeta. unfold Run.
  destruct (lifecycleAbortErr (ctx_Err ctx t)) as [e|] eqn:E0.
  { apply lifecycleAbort_ctx in E0 as [-> Hc]. cbn. split; [left; auto|]. split; [done|]. congruence. }
  apply String.eqb_neq in Hid. rewrite Hid.
  set (req := mkJudgmentRequest _ _ _ _ _).
  pose proof (gw_time ctx t req) as Ht. pose proof (λ e, gw_failure ctx t req e) as Hfail.
  pose proof (λ e, gw_judgment ctx t req e) as Hok.
  destruct (gw_Judge ctx t req) as [resp t']. cbn [fst snd] in *.
  destruct (abort_after ctx t' (left_of resp)) as [e|] eqn:Ea.
  { cbn. split; [by apply abort_after_aborts|]. split; [done|]. intros _ Hc Hf.
    rewrite abort_after_live in Ea; [done|done|]. intros f. destruct resp; [|done]. intros [= ->]. by apply Hf. }
  destruct resp as [err|resp]; cbn [left_of].
  - split; [|split; [done|intros; by eexists]]. specialize (Hfail err eq_refl). unfold run_outcome, degradeFromErr.
    destruct (errors_Is err ErrSchemaValidation) eqn:E1; cbn; [split; [done|exists err; auto]|].
    destruct Hfail as [|E2]; [done|]. rewrite E2. cbn. split; [done|exists err; auto].
  - split; [|split; [done|intros; by eexists]]. destruct (Hok resp eq_refl) as [Hacc Hl]. cbn.
    do 4 (split; [done|]). by apply FormatModelIdentity_nonempty.
Qed.

(** A judgment either succeeds, degrades or aborts, and each for its own reasons.  A
    judgment is returned only if the gateway gave one that the rubric's schema accepts,
    under the rubric's id and version and with the model's identity; a failed gateway
    becomes a diagnostic, not an error, so that a scan completes with what it has; an
    error is returned only for a cancellation or for a gateway failure after the
    operation's own deadline.  While the context lives, no failure of the gateway but a
    cancellation aborts. *)
Theorem rubric_run_degrades ctx t def messages :
  rub_ID def ≠ "" →
  let asked := gw_Judge ctx t
    (mkJudgmentRequest (rub_ID def) (rub_Version def) messages (rub_OutputSchema def) "") in
  let r := Run ctx t (Some gw) def messages in
  run_outcome ctx t def (left_of asked.1) r ∧ t ≤ r.2
  ∧ (ctx t = None → ctx r.2 = None → (∀ f, asked.1 = inl f → errors_Is f Canceled = false) → ∃ res, r.1 = inr res).
Proof. apply Run_outcome. Qed.

(** *** A pack as a whole *)

(** The texts that answers to a rubric's requests put into results are UTF-8. *)
Definition utf8_answers (ctx : Context) (def : rubric) : Prop := ∀ t messages schema,
  match (gw_Judge ctx t (mkJudgmentRequest (rub_ID def) (rub_Version def) messages schema "")).1 with
  | inl e => valid_utf8 (err_Error e)
  | inr resp => valid_utf8 (resp_LogicalModelID resp) ∧ valid_utf8 (resp_ServedModelID resp)
  end.

Definition utf8_rubric (def : rubric) : Prop := valid_utf8 (rub_ID def) ∧ valid_utf8 (rub_Version def).

Lemma packItemDiagnostic_wf def ref msg :
  utf8_rubric def → valid_utf8 ref → valid_utf8 msg → result_wf (packItemDiagnostic def ref msg).
Proof.
  intros [? ?] ? ?. split; try done; [|by exists JNull].
  split; [|done]. cbn. apply valid_utf8_app; auto with coach.
Qed.

Lemma item_judgment_depth it judgment : item_valid it → marshalBatchItemJudgment it = Some judgment →
  ∃ ms, marshal_raw judgment = Some (JObject ms) ∧ (depth (JObject ms) <= 1)%N.
Proof.
  intros (_ & _ & _ & j & Hj & Hleaf) Hm. unfold marshalBatchItemJudgment in Hm.
  destruct (marshal_raw (bi_SuggestedFocus it)) as [focus|] eqn:Ef; [|done].
  set (ms := [("judgment", JStr (bi_Judgment it)); ("rationale", JStr (bi_Rationale it));
              ("confidence", JStr (bi_Confidence it)); ("suggested_focus", focus)]).
  set (tree := JObject ms). assert (judgment = print tree) as -> by by injection Hm. clear Hm.
  assert (depth focus = 0%N) as Hd.
  { unfold marshal_raw in Ef. destruct (_ == _); [by injection Ef as <-|]. rewrite Hj in Ef.
    injection Ef as <-. by destruct Hleaf as [->|[? ->]]. }
  apply marshal_raw_wf in Ef as [Hw _]. unfold marshal_raw.
  assert (wf tree ∧ (depth tree <= 1 + 0)%N) as [Hwt Hdt].
  { apply members_ok. repeat (constructor; [by apply member_string|]).
    constructor; [|constructor]. split; [by split|]. cbn [snd]. lia. }
  assert (print tree == "" = false) as -> by done.
  rewrite parse_print by (done || (unfold maxNestingDepth; lia)). cbn [option_map].
  destruct (wf_escape_json tree Hwt) as [_ He].
  rewrite <-He in Hdt. exists (map (λ m, (escape_html m.1, escape_json m.2)) ms). split; [done|exact Hdt].
Qed.

Lemma item_result_wf def ref resp it judgment :
  utf8_rubric def → valid_utf8 ref → valid_utf8 (resp_LogicalModelID resp) → valid_utf8 (resp_ServedModelID resp) →
  item_valid it → marshalBatchItemJudgment it = Some judgment →
  result_wf (item_result def ref resp judgment) ∧ judged (compacted (item_result def ref resp judgment)).
Proof.
  intros [H1 H2] Hr Hl Hs Hv Hm. destruct (item_judgment_depth it judgment Hv Hm) as (ms & Hms & Hd).
  split.
  - split; try done; cbn.
    + unfold FormatModelIdentity. destruct (_ == _); [done|]. destruct (_ || _); [done|].
      apply valid_utf8_app; [done|]. apply valid_utf8_app; auto with coach.
    + by destruct (_ == _).
    + exists (JObject ms). split; [done|lia].
  - split; [|done]. unfold HasJudgment. cbn [compacted tres_Judgment item_result]. by rewrite Hms.
Qed.

Lemma explained_wf def ref r : utf8_rubric def → valid_utf8 ref → explained def ref r →
  result_wf r ∧ diagnosed (compacted r).
Proof.
  intros Hd Hr (msg & Hm & ->). split; [apply packItemDiagnostic_wf; auto with coach|]. by split; [|eexists].
Qed.

Definition settled (r : ToolResult) : Prop := judged r ∨ diagnosed r.

(** What a handler's outcome for a pack must be: an envelope of settled results, one per
    reference. *)
Definition pack_outcome (refs : list string) (raw : option RawMessage) : Prop :=
  ∃ originals, option_map ParseToolPackResult raw = Some (inr (mkToolPackResult (map compacted originals)))
    ∧ map tres_FindingRef originals = refs
    ∧ Forall (λ r, result_wf r ∧ settled (compacted r)) originals.

Lemma pack_outcome_of refs results :
  map tres_FindingRef results = refs → Forall (λ r, result_wf r ∧ settled (compacted r)) results →
  pack_outcome refs (marshalToolPackResult (mkToolPackResult results)).
Proof.
  intros Hr Hw. destruct (pack_reads_back (mkToolPackResult results)) as (raw & -> & _ & Hp).
  { eapply list.Forall_impl; [exact Hw|]. by intros ? []. }
  exists results. cbn [option_map]. by rewrite Hp.
Qed.

Lemma degraded_pack def refs res :
  utf8_rubric def → Forall valid_utf8 refs →
  (∀ d, res_Diagnostic res = Some d → valid_utf8 (rdg_Message d)) →
  pack_outcome refs (marshalToolPackResult (packResultsForGatewayDegrade def refs res)).
Proof.
  intros Hd Hr Hm. apply pack_outcome_of.
  - rewrite map_map. apply map_id.
  - apply list.Forall_fmap. eapply list.Forall_impl; [exact Hr|]. intros ref Href. split.
    + apply packItemDiagnostic_wf; [done..|]. destruct (res_Diagnostic res) as [d|]; [|by apply ascii_valid].
      destruct (_ != _); [by apply Hm|by apply ascii_valid].
    + right. by split; [|eexists].
Qed.

Lemma judged_pack def refs resp :
  utf8_rubric def → Forall valid_utf8 refs → Forall (λ r, r ≠ "") refs →
  valid_utf8 (resp_LogicalModelID resp) → valid_utf8 (resp_ServedModelID resp) →
  pack_outcome refs (marshalToolPackResult (mapBatchJudgmentToPackResult def refs resp)).
Proof.
  intros Hd Hr Hne Hl Hs. pose proof (batch_results def refs resp) as [Hrefs Hres].
  destruct (mapBatchJudgmentToPackResult def refs resp) as [results]. cbn [tpr_Results] in *.
  assert (present refs = refs) as Hp.
  { clear -Hne. unfold present. induction Hne as [|ref refs Hn _ IH]; [done|]. cbn. apply String.eqb_neq in Hn.
    rewrite Hn. cbn. by rewrite IH. }
  rewrite Hp in *. apply pack_outcome_of; [done|]. apply list.Forall_lookup_2. intros i r Hi.
  assert (∃ ref, refs !! i = Some ref) as [ref Href].
  { exists (tres_FindingRef r). rewrite <-Hrefs. rewrite list_lookup_fmap.
    by rewrite Hi. }
  pose proof (list.Forall_lookup_1 _ _ _ _ Hr Href) as Hu.
  destruct (Hres i ref r Href Hi) as [_ [(it & j & _ & _ & Hv & Hm & -> & _)|[_ He]]].
  - destruct (item_result_wf def ref resp it j) as [? ?]; [done..|]. split; [done|by left].
  - destruct (explained_wf def ref r) as [? ?]; [done..|]. split; [done|by right].
Qed.

Lemma pack_call ctx t def items :
  utf8_answers ctx def → utf8_rubric def →
  Forall (λ it, pi_FindingRef it ≠ "" ∧ valid_utf8 (pi_FindingRef it)) items →
  match (runHiddenMutationPack t ctx (Some gw) def items).1 with
  | (raw, Some e) => raw = "" ∧ ∃ failure, aborts ctx t (runHiddenMutationPack t ctx (Some gw) def items).2 failure e
  | (raw, None) => pack_outcome (packRefs items) (Some raw)
  end.
Proof.
  intros Hu Hd Hi. unfold runHiddenMutationPack.
  assert (Forall valid_utf8 (packRefs items) ∧ Forall (λ r, r ≠ "") (packRefs items)) as [Hr Hne].
  { split; apply list.Forall_fmap; (eapply list.Forall_impl; [exact Hi|]); by intros ? []. }
  destruct (lifecycleAbortErr (ctx_Err ctx t)) as [e|] eqn:E0.
  { apply lifecycleAbort_ctx in E0 as [-> Hc]. cbn. split; [done|]. exists None. left. auto. }
  specialize (Hu t (AssembleHiddenMutationPackMessages items) HiddenMutationBatchOutputSchema).
  revert Hu. set (req := mkJudgmentRequest _ _ _ _ _). intros Hu.
  destruct (gw_Judge ctx t req) as [resp t']. cbn [fst] in Hu.
  destruct (abort_after ctx t' (left_of resp)) as [e|] eqn:Ea.
  { cbn. split; [done|]. eexists. by apply abort_after_aborts. }
  assert (∀ m, pack_outcome (packRefs items) m →
    match (marshalled m, t').1 with
    | (raw, Some e) => raw = "" ∧ ∃ failure, aborts ctx t (marshalled m, t').2 failure e
    | (raw, None) => pack_outcome (packRefs items) (Some raw)
    end) as Hgo.
  { intros [raw|] Hm; [done|]. by destruct Hm as (? & ? & _). }
  destruct resp as [err|resp]; cbn [left_of] in *; apply Hgo.
  - apply degraded_pack; [done..|]. intros d Hdd. unfold degradeFromErr, degrade in Hdd.
    repeat case_match; cbn in Hdd; simplify_eq; cbn [rdg_Message]; apply valid_utf8_app; auto with coach.
  - destruct Hu as [Hl Hs]. by apply judged_pack.
Qed.

(** A pack never loses a finding.  Whatever the gateway answers, the call for a
    pack either aborts (for a cancellation or the operation's deadline) or returns an
    envelope that decodes to exactly one result per finding of the pack, in order, each
    a judgment or a diagnostic. *)
Theorem pack_call_accounted ctx t def items :
  utf8_answers ctx def → utf8_rubric def →
  Forall (λ it, pi_FindingRef it ≠ "" ∧ valid_utf8 (pi_FindingRef it)) items →
  match (runHiddenMutationPack t ctx (Some gw) def items).1 with
  | (raw, Some e) => raw = "" ∧ ∃ failure, aborts ctx t (runHiddenMutationPack t ctx (Some gw) def items).2 failure e
  | (raw, None) => pack_outcome (packRefs items) (Some raw)
  end.
Proof. apply pack_call. Qed.
End Degrade.

(** ** Examples *)

Section Examples.
#[local] Existing Instance ascii_table.
#[local] Instance plain_errors : JsonErrors := λ _ _, "invalid".

(** A model that judges packs, one finding of two, and nothing else. *)
Definition canned_batch : RawMessage := jtext "{'items':[
  {'finding_ref':'b','judgment':'concern','rationale':'shared','confidence':'high','suggested_focus':null},
  {'finding_ref':'a','judgment':'unclear','rationale':' ','confidence':'low','suggested_focus':'x'}]}".

Definition canned_gateway : Gateway := {| gw_Judge _ t req :=
  if jr_OutputSchema req == HiddenMutationBatchOutputSchema
  then (inr (mkJudgmentResponse canned_batch "coach" "m"), S t)
  else (inl (NewUnavailableError "down" None), S t) |}.

#[local] Existing Instance canned_gateway.

Lemma canned_laws : GatewayLaws.
Proof.
  split; intros ctx t req; cbn.
  - destruct (_ == _); cbn; lia.
  - destruct (_ == _); [done|]. intros e [= <-]. right. reflexivity.
  - destruct (String.eqb_spec (jr_OutputSchema req) HiddenMutationBatchOutputSchema) as [->|]; [|done].
    intros resp [= <-]. split; [|done]. apply extractAndValidate_iff. vm_compute. reflexivity.
Qed.

Definition hidden_mutation : rubric :=
  default (mkRubric "" "" "") (DefinitionByID IDHiddenMutationContextualization).

Definition two_items : list HiddenMutationPackItem :=
  [mkPackItem "a" "{}" (mkFileContext "a.go" "go" "x"); mkPackItem "b" "{}" (mkFileContext "b.go" "go" "")].

(** The blank rationale loses its item alone. *)
Example canned_pack :
  let raw := (runHiddenMutationPack 0 Background (Some canned_gateway) hidden_mutation two_items).1.1 in
  match ParseToolPackResult raw with
  | inr pack => map (λ r, (tres_FindingRef r, HasJudgment r, option_map rdg_Message (tres_Diagnostic r))) (tpr_Results pack)
  | inl _ => []
  end = [("a", false, Some "schema validation failed: rationale must be a non-empty string"); ("b", true, None)].
Proof. vm_compute. reflexivity. Qed.

Example registered_tools :
  match RegisterTools echo echo (New echo echo (mkOptions (mkBudget 0 0 0%Z) None None) 0%Z) (Some canned_gateway) with
  | (l, None) => map (λ name, bool_decide (is_Some (l_tools l !! name)))
      [IDHiddenMutationContextualization; IDChangeCohesion; ToolSemanticsAnalyze; "other"]
  | _ => []
  end = [true; true; true; false].
Proof. vm_compute. reflexivity. Qed.

Lemma pack_envelope_roundtrip_witness :
  ∃ raw, marshalToolPackResult (mkToolPackResult [packItemDiagnostic hidden_mutation "a" "m"]) = Some raw
    ∧ IsToolPackResult raw = true.
Proof.
  destruct (pack_envelope_roundtrip (mkToolPackResult [packItemDiagnostic hidden_mutation "a" "m"])) as (raw & ? & ? & _).
  - constructor; [|constructor]. apply packItemDiagnostic_wf; [split|..]; apply ascii_valid; reflexivity.
  - exists raw. split; assumption.
Defined.

Lemma rubric_run_degrades_witness :
  0 ≤ (Run Background 0 (Some canned_gateway) hidden_mutation []).2.
Proof.
  apply (rubric_run_degrades (laws := canned_laws) Background 0 hidden_mutation []). vm_compute. discriminate.
Defined.

Lemma pack_call_accounted_witness :
  pack_outcome ["a"; "b"]
    (Some (runHiddenMutationPack 0 Background (Some canned_gateway) hidden_mutation two_items).1.1).
Proof.
  pose proof (pack_call_accounted (gw := canned_gateway) Background 0 hidden_mutation two_items) as P.
  apply P.
  - intros t messages schema. cbn. destruct (_ == _); cbn; [split|]; apply ascii_valid; reflexivity.
  - split; apply ascii_valid; reflexivity.
  - repeat constructor; try discriminate; apply ascii_valid; reflexivity.
Defined.
End Examples.
