(* ===== verification/SignalWire.v ===== *)
(** * Signals as JSON

    A finding of the job platform carries a signal as its JSON text
    ([pkg/codesignal/report.go], struct tags and [MarshalJSON]).  The encoder and the
    decoder, and that a signal survives them. *)

From Stdlib Require Import DecimalFacts DecimalN DecimalPos DecimalString.
From S2P Require Import Prelude GoOrder GoText GoHash Json Semantics Domain Signals.

(** ** Scalars and maps *)

Definition dec_bool : Decoder bool := λ cur j,
  match j with JNull => Some cur | JBool b => Some b | _ => None end.

(** [strconv.ParseUint(lit, 10, 64)] of a number without sign, fraction and exponent. *)
Definition ParseUint (lit : string) : option N :=
  match digits_value lit with
  | Some z => if (z <? 2 ^ 64)%Z then Some (Z.to_N z) else None
  | None => None
  end.

Definition dec_uint : Decoder N := λ cur j,
  match j with JNull => Some cur | JNumber lit => ParseUint lit | _ => None end.

Definition JUint (n : N) : json := JNumber (FormatUint n).

(** [map[string]string]: the keys in order; reading adds to what is there. *)
Definition map_json (m : gmap string string) : json :=
  JObject (map (λ kv, (json_raw kv.1, JStr kv.2)) (stable_sort (λ a b, str_less a.1 b.1) (map_to_list m))).

Definition dec_string_map : Decoder (gmap string string) := λ cur j,
  match j with
  | JNull => Some ∅
  | JObject ms =>
      fold_left (λ acc m,
        match acc, dec_string "" m.2 with
        | Some acc, Some v => Some (<[unquote m.1 := v]> acc)
        | _, _ => None
        end) ms (Some cur)
  | _ => None
  end.

Definition dec_list {A} (zero : A) (dec : Decoder A) : Decoder (list A) := λ cur j,
  option_map (default []) (dec_slice zero dec (Some cur) j).

(** A string or a slice that is left out when empty. *)
Definition omit_string (name s : string) : list (string * json) :=
  if s == "" then [] else [(name, JStr s)].
Definition omit_list {A} (name : string) (f : A → json) (l : list A) : list (string * json) :=
  match l with [] => [] | _ => [(name, JArray (map f l))] end.

(** ** Structs *)

Definition location_json (l : Location) : json := JObject
  [("start_byte", JUint (loc_StartByte l)); ("end_byte", JUint (loc_EndByte l));
   ("start_row", JUint (loc_StartRow l)); ("start_col", JUint (loc_StartCol l));
   ("end_row", JUint (loc_EndRow l)); ("end_col", JUint (loc_EndCol l))].

Definition dec_location : Decoder Location := dec_struct (λ cur ms,
  sb ← field dec_uint (loc_StartByte cur) "start_byte" ms;
  eb ← field dec_uint (loc_EndByte cur) "end_byte" ms;
  sr ← field dec_uint (loc_StartRow cur) "start_row" ms;
  sc ← field dec_uint (loc_StartCol cur) "start_col" ms;
  er ← field dec_uint (loc_EndRow cur) "end_row" ms;
  ec ← field dec_uint (loc_EndCol cur) "end_col" ms;
  Some (mkLocation sb eb sr sc er ec)).

Definition provenance_json (p : Provenance) : json := JObject
  ([("producer", JStr (prov_Producer p))] ++ omit_string "finding_kind" (prov_FindingKind p)
   ++ omit_string "language" (prov_Language p)).

Definition dec_provenance : Decoder Provenance := dec_struct (λ cur ms,
  producer ← field dec_string (prov_Producer cur) "producer" ms;
  kind ← field dec_string (prov_FindingKind cur) "finding_kind" ms;
  language ← field dec_string (prov_Language cur) "language" ms;
  Some (mkProvenance producer kind language)).

Definition project_location_json (l : ProjectLocation) : json := JObject
  [("path", JStr (pl_Path l)); ("location", location_json (pl_Location l))].

Definition dec_project_location : Decoder ProjectLocation := dec_struct (λ cur ms,
  path ← field dec_string (pl_Path cur) "path" ms;
  location ← field dec_location (pl_Location cur) "location" ms;
  Some (mkProjectLocation path location)).

Definition zero_ProjectLocation : ProjectLocation := mkProjectLocation "" zero_Location.

Definition path_step_json (s : ProjectPathStep) : json := JObject
  ([("node_id", JStr (ps_NodeID s))] ++ omit_string "display_name" (ps_DisplayName s)
   ++ omit_string "resolution" (ps_Resolution s) ++ omit_string "confidence" (ps_Confidence s)
   ++ omit_list "source_locations" project_location_json (ps_SourceLocations s)).

Definition dec_path_step : Decoder ProjectPathStep := dec_struct (λ cur ms,
  id ← field dec_string (ps_NodeID cur) "node_id" ms;
  name ← field dec_string (ps_DisplayName cur) "display_name" ms;
  resolution ← field dec_string (ps_Resolution cur) "resolution" ms;
  confidence ← field dec_string (ps_Confidence cur) "confidence" ms;
  locations ← field (dec_list zero_ProjectLocation dec_project_location) (ps_SourceLocations cur) "source_locations" ms;
  Some (mkProjectPathStep id name resolution confidence locations)).

Definition zero_ProjectPathStep : ProjectPathStep := mkProjectPathStep "" "" "" "" [].

(** The members in the order of the struct; empty maps and slices are [{}] and [[]].
    go: pkg/codesignal/report.go:193-200#MarshalJSON *)
Definition signal_json (s : Signal) : json := JObject
  ([("id", JStr (sig_ID s)); ("fingerprint", JStr (sig_Fingerprint s));
    ("rule_id", JStr (sig_RuleID s)); ("rule_version", JStr (sig_RuleVersion s));
    ("kind", JStr (sig_Kind s)); ("category", JStr (sig_Category s));
    ("severity", JStr (sig_Severity s)); ("confidence", JStr (sig_Confidence s));
    ("lifecycle", JStr (sig_Lifecycle s)); ("changed", JBool (sig_Changed s)); ("path", JStr (sig_Path s))]
   ++ omit_string "source_scope" (sig_SourceScope s) ++ omit_string "subject" (sig_Subject s)
   ++ [("location", location_json (sig_Location s))] ++ omit_string "evidence" (sig_Evidence s)
   ++ [("why_it_matters", JStr (sig_WhyItMatters s)); ("recommendation", JStr (sig_Recommendation s));
       ("suggested_skill", JStr (sig_SuggestedSkill s)); ("provenance", provenance_json (sig_Provenance s));
       ("machine_evidence", map_json (sig_MachineEvidence s));
       ("related_locations", JArray (map project_location_json (sig_RelatedLocations s)));
       ("path_steps", JArray (map path_step_json (sig_PathSteps s)));
       ("coverage_refs", JArray (map JStr (sig_CoverageRefs s)))]).

Definition marshal_signal (s : Signal) : string := print (signal_json s).

Definition zero_Signal : Signal := mkSignal "" "" "" "" "" "" "" "" "" false "" "" "" zero_Location
  "" "" "" "" (mkProvenance "" "" "") ∅ [] [] [].

Definition dec_signal : Decoder Signal := dec_struct (λ cur ms,
  id ← field dec_string (sig_ID cur) "id" ms;
  fingerprint ← field dec_string (sig_Fingerprint cur) "fingerprint" ms;
  ruleID ← field dec_string (sig_RuleID cur) "rule_id" ms;
  ruleVersion ← field dec_string (sig_RuleVersion cur) "rule_version" ms;
  kind ← field dec_string (sig_Kind cur) "kind" ms;
  category ← field dec_string (sig_Category cur) "category" ms;
  severity ← field dec_string (sig_Severity cur) "severity" ms;
  confidence ← field dec_string (sig_Confidence cur) "confidence" ms;
  lifecycle ← field dec_string (sig_Lifecycle cur) "lifecycle" ms;
  changed ← field dec_bool (sig_Changed cur) "changed" ms;
  path ← field dec_string (sig_Path cur) "path" ms;
  scope ← field dec_string (sig_SourceScope cur) "source_scope" ms;
  subject ← field dec_string (sig_Subject cur) "subject" ms;
  location ← field dec_location (sig_Location cur) "location" ms;
  evidence ← field dec_string (sig_Evidence cur) "evidence" ms;
  why ← field dec_string (sig_WhyItMatters cur) "why_it_matters" ms;
  recommendation ← field dec_string (sig_Recommendation cur) "recommendation" ms;
  skill ← field dec_string (sig_SuggestedSkill cur) "suggested_skill" ms;
  provenance ← field dec_provenance (sig_Provenance cur) "provenance" ms;
  machine ← field dec_string_map (sig_MachineEvidence cur) "machine_evidence" ms;
  related ← field (dec_list zero_ProjectLocation dec_project_location) (sig_RelatedLocations cur) "related_locations" ms;
  steps ← field (dec_list zero_ProjectPathStep dec_path_step) (sig_PathSteps cur) "path_steps" ms;
  refs ← field (dec_list "" dec_string) (sig_CoverageRefs cur) "coverage_refs" ms;
  Some (mkSignal id fingerprint ruleID ruleVersion kind category severity confidence lifecycle changed
    path scope subject location evidence why recommendation skill provenance machine related steps refs)).

Definition unmarshal_signal (raw : string) : option Signal := Unmarshal dec_signal zero_Signal raw.

(** ** Numbers read back *)

Lemma nzhead_head d e : Decimal.nzhead d ≠ Decimal.D0 e.
Proof. induction d; cbn; try done. Qed.

Lemma scan_digits_uint d :
  scan_digits (NilEmpty.string_of_uint d) = (NilEmpty.string_of_uint d, "").
Proof. induction d as [|d IH|d IH|d IH|d IH|d IH|d IH|d IH|d IH|d IH|d IH]; cbn; [done|by rewrite IH..]. Qed.

Lemma FormatUint_uint n : FormatUint n = NilZero.string_of_uint (N.to_uint n).
Proof. unfold FormatUint, Itoa. by destruct n. Qed.

Lemma wf_number_digits c d : is_digit c = true → (code c =? 45)%N = false → (code c =? 48)%N = false →
  wf_number (String c (NilEmpty.string_of_uint d)).
Proof.
  intros H1 H2 H3. unfold wf_number, scan_number, scan_unsigned, scan_int.
  rewrite H2, H3, H1, scan_digits_uint. cbn. by rewrite append_empty_r.
Qed.

(** A printed unsigned number is a number of JSON. *)
Lemma wf_FormatUint n : wf_number (FormatUint n).
Proof.
  rewrite FormatUint_uint. assert (N.to_uint n = Decimal.unorm (N.to_uint n)) as E.
  { rewrite <-DecimalN.Unsigned.to_of. by rewrite DecimalN.Unsigned.of_to. }
  unfold Decimal.unorm in E. pose proof (nzhead_head (N.to_uint n)) as Hh.
  destruct (Decimal.nzhead (N.to_uint n)) as [|d|d|d|d|d|d|d|d|d|d] eqn:En; rewrite E;
    [reflexivity|by destruct (Hh d)|..]; by apply wf_number_digits.
Qed.

Lemma ParseUint_FormatUint n : (n < 2 ^ 64)%N → ParseUint (FormatUint n) = Some n.
Proof.
  intros Hn. unfold ParseUint. rewrite FormatUint_uint, digits_value_uint.
  - rewrite DecimalN.Unsigned.of_to. destruct (_ <? _)%Z eqn:E; [by rewrite N2Z.id|]. apply Z.ltb_ge in E. lia.
  - destruct n; [done|]. apply DecimalPos.Unsigned.to_uint_nonnil.
Qed.

Definition uint64 (n : N) : Prop := (n < 2 ^ 64)%N.

Lemma dec_JUint cur n : uint64 n → dec_uint cur (JUint n) = Some n.
Proof. apply ParseUint_FormatUint. Qed.

Lemma wf_JUint n : wf (JUint n).
Proof. apply wf_FormatUint. Qed.

#[export] Hint Resolve wf_JUint : coach.

(** ** Maps and slices read back *)

Lemma fold_insert (l : list (string * string)) : ∀ acc : gmap string string,
  NoDup l.*1 → (∀ k, k ∈ l.*1 → acc !! k = None) →
  fold_left (λ acc kv, <[kv.1 := kv.2]> acc) l acc = list_to_map l ∪ acc.
Proof.
  induction l as [|[k v] l IH]; intros acc Hnd Hacc; cbn; [by rewrite (left_id_L ∅ (∪))|].
  cbn in Hnd, Hacc. apply list.NoDup_cons in Hnd as [Hk Hnd]. rewrite IH; [|done|].
  - rewrite <-insert_union_l. symmetry. apply insert_union_r. by apply not_elem_of_list_to_map_1.
  - intros k' Hk'. rewrite lookup_insert_ne; [by apply Hacc; right|]. by intros <-.
Qed.

Definition utf8_map (m : gmap string string) : Prop := map_Forall (λ k v, valid_utf8 k ∧ valid_utf8 v) m.

Lemma sorted_entries (m : gmap string string) :
  stable_sort (λ a b : string * string, str_less a.1 b.1) (map_to_list m) ≡ₚ map_to_list m.
Proof. apply stable_sort_perm. Qed.

Lemma dec_map_json m : utf8_map m → dec_string_map ∅ (map_json m) = Some m.
Proof.
  intros Hm. unfold map_json. set (l := stable_sort _ _). assert (l ≡ₚ map_to_list m) as Hp by apply sorted_entries.
  clearbody l. assert (Forall (λ kv, valid_utf8 kv.1 ∧ valid_utf8 kv.2) l) as Hl.
  { rewrite list.Forall_forall. intros [k v] Hin. apply (Hm k v). rewrite Hp in Hin.
    by apply elem_of_map_to_list. }
  assert (∀ acc, dec_string_map acc (JObject (map (λ kv, (json_raw kv.1, JStr kv.2)) l))
    = Some (fold_left (λ acc kv, <[kv.1 := kv.2]> acc) l acc)) as Hfold.
  { clear Hp. intros acc. cbn [dec_string_map]. revert acc. induction Hl as [|[k v] l [H1 H2] _ IH]; intros acc; [done|].
    cbn [map fold_left fst snd]. rewrite dec_JStr by done. rewrite unquote_json_raw by done. apply IH. }
  rewrite Hfold. f_equal. assert (NoDup l.*1) as Hnd by (rewrite Hp; apply NoDup_fst_map_to_list).
  rewrite fold_insert by done. rewrite (right_id_L ∅ (∪)).
  rewrite (list_to_map_proper l (map_to_list m)) by done. apply list_to_map_to_list.
Qed.

(** Well formed and nested at most this deep. *)
Definition tree_ok (n : N) (j : json) : Prop := wf j ∧ (depth j <= n)%N.

Lemma tree_string n s : tree_ok n (JStr s).
Proof. split; [apply wf_JStr|cbn; lia]. Qed.
Lemma tree_uint n k : tree_ok n (JUint k).
Proof. split; [apply wf_JUint|cbn; lia]. Qed.
Lemma tree_bool n b : tree_ok n (JBool b).
Proof. split; [done|cbn; lia]. Qed.

Lemma tree_object n ms : Forall (λ m, wf_raw m.1 ∧ tree_ok n m.2) ms → tree_ok (1 + n) (JObject ms).
Proof.
  intros H. split.
  - apply wf_object. eapply list.Forall_impl; [exact H|]. by intros m [? [? _]].
  - apply depth_object_le. eapply list.Forall_impl; [exact H|]. by intros m [_ [_ ?]].
Qed.

Lemma tree_array {A} n (f : A → json) l : (∀ x, tree_ok n (f x)) → tree_ok (1 + n) (JArray (map f l)).
Proof.
  intros H. split; [apply wf_array|apply depth_array_le]; apply list.Forall_fmap, list.Forall_forall; intros x _; apply H.
Qed.

Lemma wf_raw_json s : wf_raw (json_raw s).
Proof. exact (wf_JStr s). Qed.

Lemma tree_map n m : tree_ok (1 + n) (map_json m).
Proof.
  apply tree_object. apply list.Forall_fmap, list.Forall_forall. intros kv _. split; [apply wf_raw_json|apply tree_string].
Qed.

Lemma tree_weaken n n' j : (n <= n')%N → tree_ok n j → tree_ok n' j.
Proof. intros Hn [Hw Hd]. split; [done|lia]. Qed.

Lemma omit_string_ok n k s : wf_raw k → Forall (λ m, wf_raw m.1 ∧ tree_ok n m.2) (omit_string k s).
Proof.
  intros Hk. unfold omit_string. destruct (_ == _); constructor; [|constructor]. split; [done|apply tree_string].
Qed.

Lemma omit_list_ok {A} n k (f : A → json) l : wf_raw k → (∀ x, tree_ok n (f x)) →
  Forall (λ m, wf_raw m.1 ∧ tree_ok (1 + n) m.2) (omit_list k f l).
Proof. intros Hk Hf. destruct l; constructor; [|constructor]. split; [done|by apply tree_array]. Qed.

Lemma dec_list_map {A B} (zero : A) (dec : Decoder A) (f : B → json) (g : B → A) l :
  Forall (λ x, dec zero (f x) = Some (g x)) l → dec_list zero dec [] (JArray (map f l)) = Some (map g l).
Proof.
  intros H. unfold dec_list, dec_slice. cbn [default].
  rewrite (dec_elems_map _ _ _ (map g l)); [done|]. induction H; constructor; auto.
Qed.

(** ** Fields by position *)

(** The places of a key among others. *)
Definition positions (name : string) (keys : list string) : list nat :=
  List.filter (λ i, match keys !! i with Some k => key_is name (k, JNull) | None => false end) (seq 0 (length keys)).

Lemma members_of_positions name ms :
  members_of name ms = omap (λ i, snd <$> ms !! i) (positions name (map fst ms)).
Proof.
  unfold members_of, positions. rewrite length_map.
  assert (∀ (pre : list (string * json)),
    map snd (List.filter (key_is name) ms)
    = omap (λ i, snd <$> (pre ++ ms) !! i)
        (List.filter (λ i, match map fst (pre ++ ms) !! i with Some k => key_is name (k, JNull) | None => false end)
           (seq (length pre) (length ms)))) as H; [|apply (H [])].
  induction ms as [|[k v] ms IH]; intros pre; [done|]. cbn [List.filter length seq].
  replace (map fst (pre ++ (k, v) :: ms) !! length pre) with (Some k).
  2: { rewrite map_app. cbn [map fst]. rewrite lookup_app_r by (by rewrite length_map). by rewrite length_map, Nat.sub_diag. }
  change (key_is name (k, v)) with (key_is name (k, JNull)).
  specialize (IH (pre ++ [(k, v)])). rewrite length_app, Nat.add_1_r, <-app_assoc in IH. cbn [app] in IH.
  destruct (key_is name (k, JNull)); cbn [map]; [|exact IH].
  cbn [omap list_omap]. rewrite lookup_app_r, Nat.sub_diag by done. cbn. by f_equal.
Qed.

Lemma field_at {A} (dec : Decoder A) init name ms i v :
  positions name (map fst ms) = [i] → ms !! i = Some v → field dec init name ms = dec init v.2.
Proof. intros Hp Hi. unfold field. rewrite members_of_positions, Hp. cbn. by rewrite Hi. Qed.

Lemma field_absent {A} (dec : Decoder A) init name ms :
  positions name (map fst ms) = [] → field dec init name ms = Some init.
Proof. intros Hp. unfold field. by rewrite members_of_positions, Hp. Qed.

Lemma bind_some {A B} (m : option A) (k : A → option B) a r : m = Some a → k a = r → (m ≫= k) = r.
Proof. by intros ->. Qed.

Lemma field_reads {A} (dec : Decoder A) init name ms i v a :
  positions name (map fst ms) = [i] → ms !! i = Some v → dec init v.2 = Some a → field dec init name ms = Some a.
Proof. intros Hp Hi Hd. by rewrite (field_at _ _ _ _ _ _ Hp Hi). Qed.

(** What decoders do on what encoders wrote. *)
Create HintDb wire.
#[export] Hint Resolve dec_JStr dec_JUint dec_map_json : wire.

(** Reads the fields of a decoder's body one after the other. *)
Ltac read_struct :=
  repeat (eapply bind_some;
    [ first [ apply field_absent; vm_compute; reflexivity
            | eapply field_reads; [vm_compute; reflexivity|reflexivity|cbn [snd]; solve [auto with wire nocore | reflexivity]] ]
    | ]); try reflexivity.

(** ** Structs read back *)

(** A location of 64-bit numbers. *)
Definition location_wf (l : Location) : Prop :=
  uint64 (loc_StartByte l) ∧ uint64 (loc_EndByte l) ∧ uint64 (loc_StartRow l)
  ∧ uint64 (loc_StartCol l) ∧ uint64 (loc_EndRow l) ∧ uint64 (loc_EndCol l).

Definition project_location_wf (l : ProjectLocation) : Prop :=
  valid_utf8 (pl_Path l) ∧ location_wf (pl_Location l).

Definition path_step_wf (s : ProjectPathStep) : Prop :=
  Forall valid_utf8 [ps_NodeID s; ps_DisplayName s; ps_Resolution s; ps_Confidence s]
  ∧ Forall project_location_wf (ps_SourceLocations s).

(** A signal whose texts are UTF-8. *)
Definition signal_wf (s : Signal) : Prop :=
  Forall valid_utf8
    [sig_ID s; sig_Fingerprint s; sig_RuleID s; sig_RuleVersion s; sig_Kind s; sig_Category s;
     sig_Severity s; sig_Confidence s; sig_Lifecycle s; sig_Path s; sig_SourceScope s; sig_Subject s;
     sig_Evidence s; sig_WhyItMatters s; sig_Recommendation s; sig_SuggestedSkill s;
     prov_Producer (sig_Provenance s); prov_FindingKind (sig_Provenance s); prov_Language (sig_Provenance s)]
  ∧ location_wf (sig_Location s) ∧ utf8_map (sig_MachineEvidence s)
  ∧ Forall project_location_wf (sig_RelatedLocations s) ∧ Forall path_step_wf (sig_PathSteps s)
  ∧ Forall valid_utf8 (sig_CoverageRefs s).

Lemma dec_location_json l : location_wf l → dec_location zero_Location (location_json l) = Some l.
Proof.
  intros (? & ? & ? & ? & ? & ?). destruct l as [sb eb sr sc er ec].
  unfold dec_location, location_json.
  cbn [dec_struct zero_Location loc_StartByte loc_EndByte loc_StartRow loc_StartCol loc_EndRow loc_EndCol] in *.
  read_struct.
Qed.
#[export] Hint Resolve dec_location_json : wire.

Lemma location_ok l : tree_ok 1 (location_json l).
Proof. apply (tree_object 0). repeat (constructor; [split; [done|apply tree_uint]|]). constructor. Qed.

Lemma dec_project_location_json l : project_location_wf l →
  dec_project_location zero_ProjectLocation (project_location_json l) = Some l.
Proof.
  intros [H1 H2]. destruct l as [path location]. cbn [pl_Path pl_Location] in *.
  unfold dec_project_location, project_location_json.
  cbn [dec_struct pl_Path pl_Location zero_ProjectLocation].
  read_struct.
Qed.
#[export] Hint Resolve dec_project_location_json : wire.

Lemma project_location_ok l : tree_ok 2 (project_location_json l).
Proof.
  apply (tree_object 1). constructor; [split; [done|apply tree_string]|].
  constructor; [split; [done|apply location_ok]|constructor].
Qed.

Lemma dec_provenance_json p : valid_utf8 (prov_Producer p) → valid_utf8 (prov_FindingKind p) →
  valid_utf8 (prov_Language p) → dec_provenance (mkProvenance "" "" "") (provenance_json p) = Some p.
Proof.
  intros H1 H2 H3. destruct p as [producer kind language]. cbn [prov_Producer prov_FindingKind prov_Language] in *.
  unfold dec_provenance, provenance_json, omit_string.
  cbn [dec_struct prov_Producer prov_FindingKind prov_Language].
  destruct (String.eqb_spec kind "") as [->|_], (String.eqb_spec language "") as [->|_]; cbn [app];
    read_struct.
Qed.
#[export] Hint Resolve dec_provenance_json : wire.

Lemma provenance_ok p : tree_ok 1 (provenance_json p).
Proof.
  apply (tree_object 0). constructor; [split; [done|apply tree_string]|].
  apply list.Forall_app. split; by apply omit_string_ok.
Qed.

Lemma dec_locations_json ls : Forall project_location_wf ls →
  dec_list zero_ProjectLocation dec_project_location [] (JArray (map project_location_json ls)) = Some ls.
Proof.
  intros H. rewrite (dec_list_map _ _ _ id), map_id; [done|].
  eapply list.Forall_impl; [exact H|]. apply dec_project_location_json.
Qed.
#[export] Hint Resolve dec_locations_json : wire.

Lemma dec_path_step_json s : path_step_wf s → dec_path_step zero_ProjectPathStep (path_step_json s) = Some s.
Proof.
  intros [Hs Hl]. destruct s as [id name resolution confidence locations].
  cbn [ps_NodeID ps_DisplayName ps_Resolution ps_Confidence ps_SourceLocations] in *.
  repeat (apply list.Forall_cons in Hs as [? Hs]). unfold dec_path_step, path_step_json, omit_string, omit_list.
  cbn [dec_struct ps_NodeID ps_DisplayName ps_Resolution ps_Confidence ps_SourceLocations zero_ProjectPathStep].
  assert (∀ ls, ls ≠ [] → match ls with [] => [] | _ => [("source_locations", JArray (map project_location_json ls))] end
    = [("source_locations", JArray (map project_location_json ls))]) as Hne by by intros [].
  destruct (String.eqb_spec name "") as [->|_], (String.eqb_spec resolution "") as [->|_],
    (String.eqb_spec confidence "") as [->|_], (decide (locations = [])) as [->|Hn];
    try rewrite (Hne _ Hn); cbn [app];
    read_struct.
Qed.
#[export] Hint Resolve dec_path_step_json : wire.

Lemma path_step_ok s : tree_ok 4 (path_step_json s).
Proof.
  apply (tree_object 3). constructor; [split; [done|apply tree_string]|].
  repeat (apply list.Forall_app; split); try by apply omit_string_ok.
  apply (omit_list_ok 2); [done|apply project_location_ok].
Qed.

Lemma dec_strings_json ls : Forall valid_utf8 ls → dec_list "" dec_string [] (JArray (map JStr ls)) = Some ls.
Proof.
  intros H. rewrite (dec_list_map _ _ _ id), map_id; [done|].
  eapply list.Forall_impl; [exact H|]. intros s. apply dec_JStr.
Qed.
#[export] Hint Resolve dec_strings_json : wire.

Lemma dec_path_steps_json ls : Forall path_step_wf ls →
  dec_list zero_ProjectPathStep dec_path_step [] (JArray (map path_step_json ls)) = Some ls.
Proof.
  intros H. rewrite (dec_list_map _ _ _ id), map_id; [done|].
  eapply list.Forall_impl; [exact H|]. apply dec_path_step_json.
Qed.
#[export] Hint Resolve dec_path_steps_json : wire.

Lemma signal_ok s : tree_ok 6 (signal_json s).
Proof.
  apply (tree_object 5).
  repeat (apply list.Forall_app; split); try by apply omit_string_ok.
  - repeat (constructor; [split; [done|first [apply tree_string|apply tree_bool]]|]). constructor.
  - constructor; [|constructor]. split; [done|]. eapply tree_weaken; [|apply location_ok]. done.
  - repeat (constructor; [split; [done|apply tree_string]|]).
    constructor; [split; [done|]; eapply tree_weaken; [|apply provenance_ok]; done|].
    constructor; [split; [done|]; eapply tree_weaken; [|apply (tree_map 0)]; done|].
    constructor; [split; [done|]; eapply tree_weaken; [|apply (tree_array 2), project_location_ok]; done|].
    constructor; [split; [done|]; eapply tree_weaken; [|apply (tree_array 4), path_step_ok]; done|].
    constructor; [split; [done|]; eapply tree_weaken; [|apply (tree_array 0); intros; apply tree_string]; done|].
    constructor.
Qed.

Lemma dec_signal_json s : signal_wf s → dec_signal zero_Signal (signal_json s) = Some s.
Proof.
  intros (Hs & Hl & Hm & Hr & Hp & Hc).
  destruct s as [id fp rule version kind category severity confidence lifecycle changed path scope subject
    location evidence why recommendation skill provenance machine related steps refs].
  cbn [sig_ID sig_Fingerprint sig_RuleID sig_RuleVersion sig_Kind
    sig_Category sig_Severity sig_Confidence sig_Lifecycle sig_Changed sig_Path sig_SourceScope sig_Subject
    sig_Location sig_Evidence sig_WhyItMatters sig_Recommendation sig_SuggestedSkill sig_Provenance
    sig_MachineEvidence sig_RelatedLocations sig_PathSteps sig_CoverageRefs] in *.
  repeat (apply list.Forall_cons in Hs as [? Hs]). unfold dec_signal, signal_json, omit_string.
  cbn [dec_struct zero_Signal sig_ID sig_Fingerprint sig_RuleID sig_RuleVersion sig_Kind
    sig_Category sig_Severity sig_Confidence sig_Lifecycle sig_Changed sig_Path sig_SourceScope sig_Subject
    sig_Location sig_Evidence sig_WhyItMatters sig_Recommendation sig_SuggestedSkill sig_Provenance
    sig_MachineEvidence sig_RelatedLocations sig_PathSteps sig_CoverageRefs].
  destruct (String.eqb_spec scope "") as [->|_], (String.eqb_spec subject "") as [->|_],
    (String.eqb_spec evidence "") as [->|_]; cbn [app];
    read_struct.
Qed.

Lemma signal_reads_back s : signal_wf s → unmarshal_signal (marshal_signal s) = Some s.
Proof.
  intros Hs. unfold unmarshal_signal, marshal_signal, Unmarshal. destruct (signal_ok s) as [Hw Hd].
  rewrite parse_print by (done || (unfold maxNestingDepth; lia)). by apply dec_signal_json.
Qed.

(** A signal survives storage: the JSON text of a signal whose strings are UTF-8 and
    whose locations are 64-bit numbers decodes to the same signal, omitted, empty and
    nested members included. *)
Theorem signal_roundtrip s : signal_wf s → unmarshal_signal (marshal_signal s) = Some s.
Proof. apply signal_reads_back. Qed.

(** ** Witness *)

(** A signal with a quote, a non-ASCII letter and one of every nested member. *)
Definition example_signal : Signal :=
  mkSignal "s1" "f00" "layer.bypass" "1" "layer_bypass" "architecture" "warning" "high" "introduced" true
    "src/a.ts" "" ("caf" +:+ String (byte_of 195) (String (byte_of 169) "")) (mkLocation 0 9 1 0 1 9)
    ("say " +:+ dq +:+ "hi" +:+ dq) "why" "do" "" (mkProvenance "rules" "" "typescript")
    {[ "hops" := "2" ]} [mkProjectLocation "src/b.ts" (mkLocation 1 2 3 4 5 6)]
    [mkProjectPathStep "n1" "" "static" "" [mkProjectLocation "src/c.ts" zero_Location]] ["ref"].

Lemma example_signal_wf : signal_wf example_signal.
Proof.
  unfold signal_wf, location_wf, uint64, utf8_map, example_signal. cbn -[N.pow]. split_and!; try reflexivity.
  - repeat (apply list.Forall_cons; split); try (by apply ascii_valid); [|constructor].
    apply valid_utf8_app; [by apply ascii_valid|]. refine (utf8_rune (String (byte_of 195) (String (byte_of 169) "")) _ _ "" _ eq_refl utf8_nil).
    intros c t E. injection E as <- _. reflexivity.
  - apply map_Forall_singleton. split; by apply ascii_valid.
  - repeat constructor; try (by apply ascii_valid); cbn -[N.pow]; reflexivity.
  - repeat constructor; try (by apply ascii_valid); cbn -[N.pow]; reflexivity.
  - repeat constructor.
Qed.

Lemma signal_roundtrip_witness :
  unmarshal_signal (marshal_signal example_signal) = Some example_signal.
Proof. apply signal_roundtrip, example_signal_wf. Defined.
