(* ===== verification/Judgment.v ===== *)
(** * The judgment phase of a baseline scan

    [internal/coachapi/baseline/judgment*.go], [findings.go], [completion.go]: the
    findings of the deterministic analysis that a rubric looks at are selected, packed
    and judged through the agent loop, pack by pack; what a pack yields is stored before
    the next one is asked for, and the scan completes with what it has when the budget or
    the model gives out.  The world is the loop's, the writer the job's handler holds,
    and the source of row identifiers. *)

From stdpp Require Import relations.
From S2P Require Import Prelude GoText GoHash GoErr Semantics Domain Signals Report SignalWire JobStore Json Gateway Stub JudgmentPack ToolArgs AgentLoop Rubrics.

(** ** Interfaces *)

(** The fenced persistence surface, over the state [W] behind it; a call sees the
    context at its moment.
    go: internal/coachapi/baseline/scan.go#JobWriter *)
Class JobWriter (W : Type) := {
  jw_Lease : W → ClaimLease;
  jw_InsertFindings : Context → nat → W → list JobFinding → W * option error;
  jw_InsertDiagnostics : Context → nat → W → list JobDiagnostic → W * option error
}.

(** [fn ConfigureLoop] as what it makes of a loop; the observer of loops has no effect
    here.
    go: internal/coachapi/baseline/scan.go#ScanConfig *)
Record ScanConfig := mkScanConfig {
  sc_SmokeFixturePath : string;
  sc_SmokeRepoOwner : string;
  sc_SmokeRepoName : string;
  sc_MaxFiles : Z;
  sc_MaxTotalBytes : Z;
  sc_Gateway : option Gateway;
  sc_ConfigureLoop : option (Loop → Loop);
  sc_PackConfig : PackConfig;
  sc_JudgmentMaxWallTime : Duration;
  sc_MaxHiddenMutationJudgments : Z;
  sc_Now : nat → Time
}.

(** go: internal/coachapi/baseline/scan.go#baselineAnalyzerVersion *)
Definition baselineAnalyzerVersion : string := "codesignal@1".
(** go: internal/coachapi/baseline/scan.go#DefaultJudgmentMaxWallTime *)
Definition DefaultJudgmentMaxWallTime : Duration := (600 * Second)%Z.

(** go: internal/coachapi/baseline/analysis.go#loadedBaselineFile *)
Record loadedBaselineFile := mkLoadedFile {
  lbf_Path : string; lbf_Language : string; lbf_Content : string; lbf_Result : option Semantics.Result
}.

(** go: internal/coachapi/baseline/prepare.go#preparedRepoBaseline *)
Record preparedRepoBaseline := mkPrepared {
  prb_loaded : list loadedBaselineFile;
  prb_report : option Report.Report;
  prb_findings : list JobFinding;
  prb_commitSHA : string
}.

(** go: internal/coachapi/baseline/judgment_hidden_mutation.go#hiddenMutationCandidate *)
Record hiddenMutationCandidate := mkCandidate { hmc_finding : JobFinding; hmc_sig : Signal }.

(** A failure of the phase, the budget's kept apart for [errors.As].
    go: internal/coachapi/baseline/judgment_budget.go#judgmentBudgetExceededError *)
Inductive judgment_error :=
  | judgmentBudgetExceeded (Judged Remaining : Z) (Err : error)
  | other_error (e : error).

(** As an error value.
    go: internal/coachapi/baseline/judgment_budget.go:17-27#judgmentBudgetExceededError *)
Definition judgment_error_value (e : judgment_error) : error :=
  match e with
  | judgmentBudgetExceeded judged remaining err =>
      Errorf ("judgment_budget_exceeded judged=" +:+ Itoa judged +:+ " remaining=" +:+ Itoa remaining +:+ ": ") err
  | other_error e => e
  end.

(** ** Pure parts *)

(** The hexadecimal SHA-256 of the parts with a NUL byte between them.
    go: internal/coachapi/baseline/findings.go#stablePayloadHash *)
Definition stablePayloadHash (parts : list string) : string := hex_sum (Join parts (String (byte_of 0) "")).

(** go: internal/coachapi/baseline/judgment_hidden_mutation_candidates.go#hiddenMutationSignal *)
Definition hiddenMutationSignal (payload : RawMessage) : option Signal :=
  match unmarshal_signal payload with
  | None => None
  | Some sig =>
      if (sig_Kind sig != "hidden_input_mutation") && (sig_RuleID sig != "state.hidden_input_mutation")
      then None else Some sig
  end.

(** go: internal/coachapi/baseline/judgment_hidden_mutation.go#countHiddenMutationFindings *)
Definition countHiddenMutationFindings (detFindings : list JobFinding) : Z :=
  zlen (List.filter (λ f, (jf_Source f == FindingSourceDeterministic)
    && match hiddenMutationSignal (jf_Payload f) with Some _ => true | None => false end) detFindings).

Notation FilesByPath := (gmap string loadedBaselineFile).

(** The loaded file of a path, or an empty one. *)
Definition file_at (byPath : FilesByPath) (path : string) : loadedBaselineFile :=
  default (mkLoadedFile path "" "" None) (byPath !! path).

(** [int(sig.Location.StartRow)]. *)
Definition start_row (sig : Signal) : Z := int64_wrap (Z.of_N (loc_StartRow (sig_Location sig))).

(** The excerpt a finding is judged with; there always is one
    ([JudgmentPack.span_window_safe]). *)
Definition evidence_window (byPath : FilesByPath) (packCfg : PackConfig) (sig : Signal) : string :=
  default "" (FormatSpanWindow (lbf_Content (file_at byPath (sig_Path sig))) (start_row sig)
    (EvidenceWindowLines packCfg)).

(** The candidate of one finding and what it came from. *)
Definition candidate_of (byPath : FilesByPath) (packCfg : PackConfig) (f : JobFinding) :
    option (PackCandidate * hiddenMutationCandidate) :=
  if jf_Source f != FindingSourceDeterministic then None else
  match hiddenMutationSignal (jf_Payload f) with
  | None => None
  | Some sig =>
      Some (mkPackCandidate (jf_PayloadHash f) (sig_Path sig) (start_row sig) (sig_Severity sig)
              (sig_Confidence sig) (jf_Payload f)
              (Z.of_nat (String.length (evidence_window byPath packCfg sig))),
            mkCandidate f sig)
  end.

(** go: internal/coachapi/baseline/judgment_hidden_mutation_candidates.go#collectHiddenMutationCandidates *)
Definition collectHiddenMutationCandidates (byPath : FilesByPath) (detFindings : list JobFinding)
    (packCfg : PackConfig) : list PackCandidate * list hiddenMutationCandidate :=
  let found := omap (candidate_of byPath packCfg) detFindings in
  (map fst found, map snd found).

(** go: internal/coachapi/baseline/judgment_hidden_mutation_pack.go#hiddenMutationPackItems *)
Definition hiddenMutationPackItems (pack : JudgmentPack) (byRef : gmap string hiddenMutationCandidate)
    (byPath : FilesByPath) (packCfg : PackConfig) : list HiddenMutationPackItem :=
  omap (λ ref,
    match byRef !! ref with
    | None => None
    | Some meta =>
        let lf := file_at byPath (sig_Path (hmc_sig meta)) in
        Some (mkPackItem ref (jf_Payload (hmc_finding meta))
          (mkFileContext (lbf_Path lf) (lbf_Language lf) (evidence_window byPath packCfg (hmc_sig meta))))
    end) (jp_FindingRefs pack).

(** A row as the phase makes it: the writer stamps the job and the attempt. *)
Definition agent_finding (id : string) (tr : ToolResult) (payload : string) (discriminators : list string) :
    JobFinding :=
  mkJobFinding id "" 0 FindingSourceAgent (Some (tres_RubricID tr)) (Some (tres_RubricVersion tr))
    (tres_ModelIdentity tr) payload
    (stablePayloadHash (["agent"; tres_RubricID tr; payload] ++ discriminators)) 0%Z.

Definition job_diagnostic (id scope message : string) : JobDiagnostic := mkJobDiagnostic id "" 0 scope message 0%Z.

(** What one envelope becomes, the fresh row's identifier given.
    go: internal/coachapi/baseline/judgment_outcome.go#jobOutcomeFromRubricTool *)
Definition jobOutcomeFromRubricTool `{JsonErrors} (id : string) (raw : RawMessage)
    (hashDiscriminators : list string) : error + (JobFinding + JobDiagnostic) :=
  match Unmarshal dec_tool_result zero_result raw with
  | None => inl (Errorf "coachapi: decoding rubric tool result: " (json_error "ToolResult" raw))
  | Some tr =>
      match tres_Diagnostic tr with
      | Some d => inr (inr (job_diagnostic id (rdg_Scope d) (rdg_Message d)))
      | None =>
          if negb (HasJudgment tr)
          then inr (inr (job_diagnostic id ("rubric:" +:+ tres_RubricID tr) "judgment failed: empty result"))
          else match marshalToolResult tr with
          | None => inl (json_error "ToolResult" raw)
          | Some payload => inr (inl (agent_finding id tr payload hashDiscriminators))
          end
      end
  end.

(** go: internal/coachapi/baseline/judgment_outcome.go#appendJobOutcome *)
Definition appendJobOutcome (findings : list JobFinding) (diags : list JobDiagnostic)
    (outcome : JobFinding + JobDiagnostic) : list JobFinding * list JobDiagnostic :=
  match outcome with
  | inl f => (findings ++ [f], diags)
  | inr d => (findings, diags ++ [d])
  end.

(** go: internal/coachapi/baseline/judgment_priority.go#judgmentCapDiagnostic *)
Definition judgmentCapDiagnostic (id : string) (selected omitted : Z) : JobDiagnostic :=
  job_diagnostic id "judgment_cap" ("judgment_cap_omitted selected=" +:+ Itoa selected +:+ " omitted=" +:+ Itoa omitted).

(** go: internal/coachapi/baseline/judgment_budget.go#judgmentBudgetDiagnostic *)
Definition judgmentBudgetDiagnostic (id : string) (judged remaining : Z) (err : error) : JobDiagnostic :=
  job_diagnostic id "judgment_budget"
    ("judgment_budget_exceeded judged=" +:+ Itoa judged +:+ " remaining=" +:+ Itoa remaining +:+ ": " +:+ err_Error err).

(** The scope and message of an analyzer's diagnostic. *)
Definition codesignal_diagnostic (id : string) (d : Signals.Diagnostic) : JobDiagnostic :=
  job_diagnostic id (if dg_Kind d != "" then "codesignal:" +:+ dg_Kind d else "codesignal")
    (if dg_Path d != "" then dg_Path d +:+ ": " +:+ dg_Message d else dg_Message d).

(** go: internal/coachapi/baseline/completion.go#seedRubricVersions *)
Definition seedRubricVersions : gmap string string :=
  fold_left (λ out def, <[rub_ID def := rub_Version def]> out) Seed ∅.

(** go: internal/coachapi/baseline/completion.go#baselineCompletion *)
Definition baselineCompletion (now : Time) (lease : ClaimLease) (commitSHA : string) : Completion :=
  mkCompletion (lease_Attempt lease) commitSHA [] [] (mkReportVersions baselineAnalyzerVersion seedRubricVersions)
    now now.

(** ** The phase *)

(** The loop and its environment, the writer's state and how many identifiers were
    drawn. *)
Record ScanWorld (W : Type) := mkScanWorld { sw_loop : LoopWorld; sw_writer : W; sw_ids : nat }.
Arguments mkScanWorld {W}.
Arguments sw_loop {W}.
Arguments sw_writer {W}.
Arguments sw_ids {W}.

Definition SM (W A : Type) : Type := ScanWorld W → ScanWorld W * A.

Section Phase.
Context {table : IsPrint} `{JsonErrors} {W : Type} {writer : JobWriter W}.

(** [watermill.NewUUID()], and the handlers of the core tools. *)
Variables (NewUUID : nat → string) (ds dc : ToolHandler).

Notation SM := (SM W).
#[local] Instance SM_ret : MRet SM := λ A x w, (w, x).
#[local] Instance SM_bind : MBind SM := λ A B f m w, let '(w', x) := m w in f x w'.

Definition on_loop {A} (m : AgentLoop.M A) : SM A := λ w,
  let '(l, x) := m (sw_loop w) in (mkScanWorld l (sw_writer w) (sw_ids w), x).

Definition fresh : SM string := λ w,
  (mkScanWorld (sw_loop w) (sw_writer w) (S (sw_ids w)), NewUUID (sw_ids w)).

(** No rows, no call.
    go: internal/coachapi/baseline/completion.go#insertBaselineFindings *)
Definition insertBaselineFindings (ctx : Context) (findings : list JobFinding) : SM (option error) := λ w,
  match findings with
  | [] => (w, None)
  | _ =>
      let '(s, err) := jw_InsertFindings ctx (lw_moment (sw_loop w)) (sw_writer w) findings in
      (mkScanWorld (sw_loop w) s (sw_ids w), err)
  end.

(** go: internal/coachapi/baseline/completion.go#insertBaselineDiagnostics *)
Definition insertBaselineDiagnostics (ctx : Context) (diagnostics : list JobDiagnostic) : SM (option error) := λ w,
  match diagnostics with
  | [] => (w, None)
  | _ =>
      let '(s, err) := jw_InsertDiagnostics ctx (lw_moment (sw_loop w)) (sw_writer w) diagnostics in
      (mkScanWorld (sw_loop w) s (sw_ids w), err)
  end.

(** The rows of an analyzer's report that are not findings; [None] is the nil report.
    go: internal/coachapi/baseline/findings.go#diagnosticsFromCodeSignal *)
Fixpoint codesignal_diagnostics (ds : list Signals.Diagnostic) : SM (list JobDiagnostic) :=
  match ds with
  | [] => mret []
  | d :: ds =>
      id ← fresh;
      rest ← codesignal_diagnostics ds;
      mret (codesignal_diagnostic id d :: rest)
  end.

Definition diagnosticsFromCodeSignal (report : option Report.Report) : SM (list JobDiagnostic) :=
  match report with
  | None => mret []
  | Some report => codesignal_diagnostics (rep_Diagnostics report)
  end.

(** An identifier is drawn where a row is made: not after a failure. *)
Definition rubric_outcome (raw : RawMessage) (discriminators : list string) :
    SM (error + (JobFinding + JobDiagnostic)) := λ w,
  match jobOutcomeFromRubricTool (NewUUID (sw_ids w)) raw discriminators with
  | inl e => (w, inl e)
  | inr outcome => (mkScanWorld (sw_loop w) (sw_writer w) (S (sw_ids w)), inr outcome)
  end.

(** Each result of a pack in turn, onto the rows so far.
    go: internal/coachapi/baseline/judgment_outcome_pack.go#jobOutcomesFromToolPack *)
Fixpoint jobOutcomesFromToolPack (results : list ToolResult) (findings : list JobFinding)
    (diags : list JobDiagnostic) : SM (error + (list JobFinding * list JobDiagnostic)) :=
  match results with
  | [] => mret (inr (findings, diags))
  | tr :: results =>
      match marshalToolResult tr with
      | None => mret (inl (json_error "ToolResult" ""))
      | Some itemRaw =>
          outcome ← rubric_outcome itemRaw [tres_FindingRef tr];
          match outcome with
          | inl e => mret (inl e)
          | inr o => let '(fs, ds) := appendJobOutcome findings diags o in jobOutcomesFromToolPack results fs ds
          end
      end
  end.

(** go: internal/coachapi/baseline/judgment_outcome_pack.go#jobOutcomeFromSingularToolResult *)
Definition jobOutcomeFromSingularToolResult (raw : RawMessage) :
    SM (error + (list JobFinding * list JobDiagnostic)) :=
  match Unmarshal dec_tool_result zero_result raw with
  | None => mret (inl (Errorf "coachapi: decoding rubric tool result: " (json_error "ToolResult" raw)))
  | Some tr =>
      outcome ← rubric_outcome raw (if tres_FindingRef tr != "" then [tres_FindingRef tr] else []);
      match outcome with
      | inl e => mret (inl e)
      | inr o => mret (inr (appendJobOutcome [] [] o))
      end
  end.

(** go: internal/coachapi/baseline/judgment_outcome_pack.go#jobOutcomesFromHiddenMutationResult *)
Definition jobOutcomesFromHiddenMutationResult (raw : RawMessage) :
    SM (error + (list JobFinding * list JobDiagnostic)) :=
  if IsToolPackResult raw then
    match ParseToolPackResult raw with
    | inl e => mret (inl e)
    | inr pack => jobOutcomesFromToolPack (tpr_Results pack) [] []
    end
  else jobOutcomeFromSingularToolResult raw.

Definition file_context_json (f : FileContext) : json := JObject
  ([("path", JStr (fc_Path f)); ("language", JStr (fc_Language f))] ++ omit_string "content" (fc_Content f)).

(** [None] when a finding is not valid JSON. *)
Definition pack_item_json (it : HiddenMutationPackItem) : option json :=
  option_map (λ finding, JObject
    [("finding_ref", JStr (pi_FindingRef it)); ("finding", finding); ("file", file_context_json (pi_File it))])
    (marshal_raw (pi_Finding it)).

(** [json.Marshal(map[string]any{items: items})]. *)
Definition marshal_items (items : list HiddenMutationPackItem) : option RawMessage :=
  option_map (λ js, print (JObject [("items", JArray js)])) (mapM pack_item_json items).

(** go: internal/coachapi/baseline/judgment_hidden_mutation_pack.go#callHiddenMutationPack *)
Definition callHiddenMutationPack (ctx : Context) (items : list HiddenMutationPackItem) (total judged : Z) :
    SM (judgment_error + (list JobFinding * list JobDiagnostic)) :=
  match marshal_items items with
  | None => mret (inl (other_error (json_error "map[string]any" "")))
  | Some args =>
      call ← on_loop (Call ctx CallSourceHandler IDHiddenMutationContextualization args);
      match call with
      | (_, Some err) =>
          mret (inl (
            if errors_Is err Canceled then other_error err
            else if errors_Is err ErrBudgetExceeded then judgmentBudgetExceeded judged (total - judged)%Z err
            else other_error (Errorf ("coachapi: rubric " +:+ IDHiddenMutationContextualization +:+ ": ") err)))
      | (raw, None) =>
          outcomes ← jobOutcomesFromHiddenMutationResult raw;
          match outcomes with
          | inl e => mret (inl (other_error e))
          | inr (packFindings, packDiags) =>
              err ← insertBaselineFindings ctx packFindings;
              match err with
              | Some e => mret (inl (other_error e))
              | None => mret (inr (packFindings, packDiags))
              end
          end
      end
  end.

Notation Rows := (list JobFinding * list JobDiagnostic * option judgment_error)%type.

(** The loop over packs, given the rows so far. *)
Fixpoint judge_packs (ctx : Context) (byRef : gmap string hiddenMutationCandidate) (byPath : FilesByPath)
    (packCfg : PackConfig) (total judged : Z) (findings : list JobFinding) (diags : list JobDiagnostic)
    (packs : list JudgmentPack) : SM Rows :=
  match packs with
  | [] => mret (findings, diags, None)
  | pack :: packs =>
      match hiddenMutationPackItems pack byRef byPath packCfg with
      | [] => judge_packs ctx byRef byPath packCfg total judged findings diags packs
      | items =>
          r ← callHiddenMutationPack ctx items total judged;
          match r with
          | inl e => mret (findings, diags, Some e)
          | inr (packFindings, packDiags) =>
              judge_packs ctx byRef byPath packCfg total (judged + zlen packFindings)%Z
                (findings ++ packFindings) (diags ++ packDiags) packs
          end
      end
  end.

Definition by_ref (cands : list PackCandidate) (metas : list hiddenMutationCandidate) :
    gmap string hiddenMutationCandidate :=
  fold_left (λ m cm, <[pc_FindingRef cm.1 := cm.2]> m) (zip cands metas) ∅.

(** go: internal/coachapi/baseline/judgment_hidden_mutation.go#judgeHiddenMutationFindings *)
Definition judgeHiddenMutationFindings (ctx : Context) (byPath : FilesByPath) (detFindings : list JobFinding)
    (packCfg : PackConfig) (maxJudgments : Z) : SM Rows :=
  let '(cands, metas) := collectHiddenMutationCandidates byPath detFindings packCfg in
  match cands with
  | [] => mret ([], [], None)
  | _ =>
      let '(selected, omitted) := PrioritizeJudgmentCandidates cands maxJudgments in
      diags ← (if (0 <? omitted)%Z
               then id ← fresh; mret [judgmentCapDiagnostic id (zlen selected) omitted]
               else mret []);
      judge_packs ctx (by_ref cands metas) byPath packCfg (zlen selected) 0 [] diags
        (PackJudgmentCandidates selected packCfg)
  end.

Definition file_meta_json (f : FileMeta) : json := JObject
  [("path", JStr (fm_Path f)); ("language", JStr (fm_Language f))].

(** go: internal/coachapi/baseline/judgment_cohesion.go#judgeChangeCohesion *)
Definition judgeChangeCohesion (ctx : Context) (fileMetas : list FileMeta) (detFindings : list JobFinding) :
    SM (error + (list JobFinding * list JobDiagnostic)) :=
  let detPayloads := map jf_Payload (List.filter (λ f, jf_Source f == FindingSourceDeterministic) detFindings) in
  match mapM marshal_raw detPayloads with
  | None => mret (inl (json_error "[]json.RawMessage" ""))
  | Some findings =>
      let cohesionArgs := print (JObject
        [("files", JArray (map file_meta_json fileMetas)); ("findings", escape_json (JArray findings))]) in
      call ← on_loop (Call ctx CallSourceHandler IDChangeCohesion cohesionArgs);
      match call with
      | (_, Some err) => mret (inl (Errorf ("coachapi: rubric " +:+ IDChangeCohesion +:+ ": ") err))
      | (raw, None) =>
          outcome ← rubric_outcome raw [];
          match outcome with
          | inl e => mret (inl e)
          | inr o => mret (inr (appendJobOutcome [] [] o))
          end
      end
  end.

(** go: internal/coachapi/baseline/judgment.go#judgeBaselineViaLoop *)
Definition judgeBaselineViaLoop (ctx : Context) (files : list loadedBaselineFile) (detFindings : list JobFinding)
    (packCfg : PackConfig) (maxHiddenMutationJudgments : Z) : SM Rows :=
  let byPath := fold_left (λ m f, <[lbf_Path f := f]> m) files ∅ in
  let fileMetas := map (λ f, mkFileMeta (lbf_Path f) (lbf_Language f)) files in
  let packCfg := ApplyPackConfigDefaults packCfg in
  rows ← judgeHiddenMutationFindings ctx byPath detFindings packCfg
           (resolveMaxHiddenMutationJudgments maxHiddenMutationJudgments);
  match rows with
  | (agentFindings, diagnostics, Some e) => mret (agentFindings, diagnostics, Some e)
  | (agentFindings, diagnostics, None) =>
      cohesion ← judgeChangeCohesion ctx fileMetas detFindings;
      match cohesion with
      | inl err =>
          mret (agentFindings, diagnostics, Some
            (if errors_Is err ErrBudgetExceeded then judgmentBudgetExceeded (zlen agentFindings) 0 err
             else other_error err))
      | inr (cohesionFindings, cohesionDiags) =>
          err ← insertBaselineFindings ctx cohesionFindings;
          match err with
          | Some e => mret (agentFindings, diagnostics, Some (other_error e))
          | None => mret (agentFindings ++ cohesionFindings, diagnostics ++ cohesionDiags, None)
          end
      end
  end.

(** A loop with the rubrics' tools.  [agentloop.New] fails on no input.
    go: internal/coachapi/baseline/judgment_loop.go#newJudgmentLoop *)
Definition newJudgmentLoop (cfg : ScanConfig) (hiddenCount : Z) : SM (option error) := λ w,
  let gw := default (stub_gateway (NewStubGateway [])) (sc_Gateway cfg) in
  let wall := positive_or (sc_JudgmentMaxWallTime cfg) DefaultJudgmentMaxWallTime in
  let tools := Z.max (int64_wrap (hiddenCount + 1 + 10)) DefaultMaxToolCalls in
  let lw := sw_loop w in
  let fresh_loop := New ds dc (mkOptions (mkBudget tools 0%Z wall) None None) (lw_clock lw (lw_moment lw)) in
  let with_loop l := mkScanWorld (mkLoopWorld l (S (lw_moment lw)) (lw_others lw) (lw_clock lw) (lw_timer lw) [])
                       (sw_writer w) (sw_ids w) in
  match RegisterTools ds dc fresh_loop (Some gw) with
  | (l, Some e) => (with_loop l, Some (Errorf "coachapi: registering rubric tools: " e))
  | (l, None) => (with_loop (default id (sc_ConfigureLoop cfg) l), None)
  end.

(** The diagnostics of a phase that completes, and its completion.
    go: internal/coachapi/baseline/judgment.go:29-33#judgePreparedBaseline *)
Definition complete_with (ctx : Context) (cfg : ScanConfig) (prepared : preparedRepoBaseline)
    (diagnostics : list JobDiagnostic) : SM (error + Completion) :=
  more ← diagnosticsFromCodeSignal (prb_report prepared);
  err ← insertBaselineDiagnostics ctx (diagnostics ++ more);
  match err with
  | Some e => mret (inl e)
  | None => λ w, (w, inr (baselineCompletion (sc_Now cfg (lw_moment (sw_loop w))) (jw_Lease (sw_writer w))
                           (prb_commitSHA prepared)))
  end.

(** go: internal/coachapi/baseline/judgment_budget.go#completeAfterJudgmentError *)
Definition completeAfterJudgmentError (ctx : Context) (cfg : ScanConfig) (prepared : preparedRepoBaseline)
    (err : judgment_error) (priorDiags : list JobDiagnostic) : SM (error + Completion) :=
  if errors_Is (judgment_error_value err) Canceled then mret (inl (judgment_error_value err)) else
  id ← fresh;
  complete_with ctx cfg prepared (priorDiags ++
    [match err with
     | judgmentBudgetExceeded judged remaining e => judgmentBudgetDiagnostic id judged remaining e
     | other_error e => job_diagnostic id "judgment" ("judgment phase failed: " +:+ err_Error e)
     end]).

(** go: internal/coachapi/baseline/judgment.go#judgePreparedBaseline *)
Definition judgePreparedBaseline (ctx : Context) (cfg : ScanConfig) (prepared : preparedRepoBaseline) :
    SM (error + Completion) :=
  failed ← newJudgmentLoop cfg (countHiddenMutationFindings (prb_findings prepared));
  match failed with
  | Some e => mret (inl e)
  | None =>
      rows ← judgeBaselineViaLoop ctx (prb_loaded prepared) (prb_findings prepared) (sc_PackConfig cfg)
               (sc_MaxHiddenMutationJudgments cfg);
      match rows with
      | (_, agentDiags, Some err) => completeAfterJudgmentError ctx cfg prepared err agentDiags
      | (_, agentDiags, None) => complete_with ctx cfg prepared agentDiags
      end
  end.
End Phase.

(** ** What is stored *)

Section Accounting.
Context {table : IsPrint} `{JsonErrors} {W : Type} {writer : JobWriter W}.
Variables (NewUUID : nat → string) (ds dc : ToolHandler) (ctx : Context).

(** Batches of rows the writer accepted, in order. *)
Inductive wrote : W → list (list JobFinding + list JobDiagnostic) → W → Prop :=
  | wrote_nil s : wrote s [] s
  | wrote_findings t s fs s' ws s'' : jw_InsertFindings ctx t s fs = (s', None) → wrote s' ws s'' →
      wrote s (inl fs :: ws) s''
  | wrote_diagnostics t s dgs s' ws s'' : jw_InsertDiagnostics ctx t s dgs = (s', None) → wrote s' ws s'' →
      wrote s (inr dgs :: ws) s''.

Lemma wrote_app s ws s' ws' s'' : wrote s ws s' → wrote s' ws' s'' → wrote s (ws ++ ws') s''.
Proof. induction 1; intros; cbn; [done|eapply wrote_findings; eauto|eapply wrote_diagnostics; eauto]. Qed.

(** A call that the writer refused, and the state it left. *)
Definition refused (s s' : W) (e : error) : Prop :=
  (∃ t fs, jw_InsertFindings ctx t s fs = (s', Some e)) ∨ (∃ t dgs, jw_InsertDiagnostics ctx t s dgs = (s', Some e)).

(** The writer's history over a step: batches of findings, then perhaps a refusal. *)
Definition stored (s s' : W) (batches : list (list JobFinding)) (failure : option error) : Prop :=
  ∃ s1, wrote s (map inl batches) s1 ∧
    match failure with None => s' = s1 | Some e => refused s1 s' e end.

Lemma stored_nil s : stored s s [] None.
Proof. exists s. split; [constructor|done]. Qed.

Lemma stored_trans s s1 s2 b1 b2 failure : stored s s1 b1 None → stored s1 s2 b2 failure →
  stored s s2 (b1 ++ b2) failure.
Proof.
  intros (x & Hw1 & ->) (y & Hw2 & Hf). exists y. split; [|done]. rewrite map_app. by eapply wrote_app.
Qed.

Lemma insertBaselineFindings_stored fs (w : ScanWorld W) :
  let r := insertBaselineFindings ctx fs w in
  match r.2 with
  | None => ∃ batches, stored (sw_writer w) (sw_writer r.1) batches None ∧ concat batches = fs
  | Some e => stored (sw_writer w) (sw_writer r.1) [] (Some e)
  end.
Proof.
  unfold insertBaselineFindings. destruct fs as [|f fs]; cbn.
  { exists []. split; [apply stored_nil|done]. }
  destruct (jw_InsertFindings _ _ _ _) as [s [e|]] eqn:E; cbn.
  - exists (sw_writer w). split; [constructor|]. left. by eexists _, _.
  - exists [f :: fs]. split; [|cbn; by rewrite app_nil_r]. exists s. split; [|done].
    eapply wrote_findings; [done|constructor].
Qed.

Lemma rubric_outcome_writer raw disc (w : ScanWorld W) : sw_writer (rubric_outcome NewUUID raw disc w).1 = sw_writer w.
Proof. unfold rubric_outcome. by destruct (jobOutcomeFromRubricTool _ _ _). Qed.

Lemma on_loop_writer {A} (m : AgentLoop.M A) (w : ScanWorld W) : sw_writer (on_loop m w).1 = sw_writer w.
Proof. unfold on_loop. by destruct (m (sw_loop w)). Qed.

(** Rows of one envelope are the agent's. *)
Definition agent_rows (fs : list JobFinding) : Prop := Forall (λ f, jf_Source f = FindingSourceAgent) fs.

Lemma rubric_outcome_agent raw disc (w : ScanWorld W) o :
  (rubric_outcome NewUUID raw disc w).2 = inr o → ∀ f, o = inl f → jf_Source f = FindingSourceAgent.
Proof.
  unfold rubric_outcome, jobOutcomeFromRubricTool. intros Ho f ->.
  destruct (Unmarshal _ _ _) as [tr|]; [|done]. destruct (tres_Diagnostic tr); [done|].
  destruct (negb _); [done|]. destruct (marshalToolResult tr); [|done]. by injection Ho as <-.
Qed.

Lemma append_agent fs dgs o : agent_rows fs → (∀ f, o = inl f → jf_Source f = FindingSourceAgent) →
  agent_rows (appendJobOutcome fs dgs o).1.
Proof.
  intros Hf Ho. destruct o as [f|d]; cbn; [|done]. apply list.Forall_app. split; [done|].
  constructor; [by apply Ho|constructor].
Qed.

Lemma pack_outcomes_spec results : ∀ fs dgs (w : ScanWorld W), agent_rows fs →
  let r := jobOutcomesFromToolPack NewUUID results fs dgs w in
  sw_writer r.1 = sw_writer w ∧ ∀ rows, r.2 = inr rows → agent_rows rows.1.
Proof.
  induction results as [|tr results IH]; intros fs dgs w Hf; cbn [jobOutcomesFromToolPack].
  { split; [done|]. by intros rows [= <-]. }
  destruct (marshalToolResult tr) as [itemRaw|]; [|done]. unfold mbind, SM_bind, mret, SM_ret.
  pose proof (rubric_outcome_writer itemRaw [tres_FindingRef tr] w) as Hw.
  pose proof (rubric_outcome_agent itemRaw [tres_FindingRef tr] w) as Ha.
  destruct (rubric_outcome NewUUID itemRaw _ w) as [w1 [e|o]]; cbn [fst snd] in *; [done|].
  specialize (Ha o eq_refl). pose proof (append_agent fs dgs o Hf Ha) as Hf1.
  destruct (appendJobOutcome fs dgs o) as [fs1 dgs1]. cbn [fst] in Hf1.
  destruct (IH fs1 dgs1 w1 Hf1) as [Hw2 Hr]. split; [congruence|done].
Qed.

Lemma hidden_mutation_outcomes raw (w : ScanWorld W) :
  let r := jobOutcomesFromHiddenMutationResult NewUUID raw w in
  sw_writer r.1 = sw_writer w ∧ ∀ rows, r.2 = inr rows → agent_rows rows.1.
Proof.
  unfold jobOutcomesFromHiddenMutationResult, jobOutcomeFromSingularToolResult.
  destruct (IsToolPackResult raw).
  - destruct (ParseToolPackResult raw) as [e|pack]; [done|]. apply pack_outcomes_spec. constructor.
  - destruct (Unmarshal _ _ _) as [tr|]; [|done]. unfold mbind, SM_bind, mret, SM_ret.
    match goal with |- context [rubric_outcome _ _ ?d _] => set (disc := d) end.
    pose proof (rubric_outcome_writer raw disc w) as Hw. pose proof (rubric_outcome_agent raw disc w) as Ha.
    destruct (rubric_outcome NewUUID raw disc w) as [w1 [e|o]]; cbn [fst snd] in *; [done|].
    split; [done|]. intros rows [= <-]. apply append_agent; [constructor|by apply Ha].
Qed.

(** One pack: its findings are stored when it succeeds, and only then. *)
Lemma callHiddenMutationPack_stored items total judged (w : ScanWorld W) :
  let r := callHiddenMutationPack NewUUID ctx items total judged w in
  match r.2 with
  | inr rows => agent_rows rows.1
      ∧ ∃ batches, stored (sw_writer w) (sw_writer r.1) batches None ∧ concat batches = rows.1
  | inl err => ∃ failure, stored (sw_writer w) (sw_writer r.1) [] failure
      ∧ (∀ e, failure = Some e → err = other_error e)
      ∧ ∀ j rem e, err = judgmentBudgetExceeded j rem e →
          j = judged ∧ rem = (total - judged)%Z ∧ errors_Is e ErrBudgetExceeded = true
          ∧ errors_Is e Canceled = false ∧ failure = None
  end.
Proof.
  unfold callHiddenMutationPack. cbn zeta.
  assert (∀ (w' : ScanWorld W) e, sw_writer w' = sw_writer w →
    ∃ failure, stored (sw_writer w) (sw_writer w') [] failure
      ∧ (∀ e', failure = Some e' → other_error e = other_error e')
      ∧ ∀ j rem e', other_error e = judgmentBudgetExceeded j rem e' →
          j = judged ∧ rem = (total - judged)%Z ∧ errors_Is e' ErrBudgetExceeded = true
          ∧ errors_Is e' Canceled = false ∧ failure = None) as Hplain.
  { intros w' e ->. exists None. split; [apply stored_nil|]. by split. }
  destruct (marshal_items items) as [args|]; [|cbn; by apply Hplain].
  unfold mbind, SM_bind, mret, SM_ret.
  pose proof (on_loop_writer (Call ctx CallSourceHandler IDHiddenMutationContextualization args) w) as Hw1.
  destruct (on_loop _ w) as [w1 [raw [err|]]]; cbn [fst snd] in *.
  { destruct (errors_Is err Canceled) eqn:Ec; [by apply Hplain|].
    destruct (errors_Is err ErrBudgetExceeded) eqn:Eb; [|by apply Hplain].
    exists None. cbn [fst snd]. rewrite Hw1. split; [apply stored_nil|]. split; [done|].
    intros j rem e He. injection He as <- <- <-. auto 6. }
  pose proof (hidden_mutation_outcomes raw w1) as [Hw2 Hrows].
  destruct (jobOutcomesFromHiddenMutationResult NewUUID raw w1) as [w2 [e|[fs dgs]]]; cbn [fst snd] in *.
  { apply Hplain. congruence. }
  pose proof (insertBaselineFindings_stored fs w2) as Hins.
  destruct (insertBaselineFindings ctx fs w2) as [w3 [e|]]; cbn [fst snd] in *.
  - exists (Some e). rewrite <-Hw1, <-Hw2. split; [done|]. by split; [intros ? [= ->]|].
  - split; [by apply (Hrows _ eq_refl)|]. by rewrite <-Hw1, <-Hw2.
Qed.

(** What a phase leaves: findings returned, findings stored, failure reported. *)
Definition rows_stored (w w' : ScanWorld W) (before : list JobFinding)
    (r : list JobFinding * list JobDiagnostic * option judgment_error) : Prop :=
  ∃ batches failure, stored (sw_writer w) (sw_writer w') batches failure
    ∧ r.1.1 = before ++ concat batches ∧ agent_rows (concat batches)
    ∧ (∀ e, failure = Some e → r.2 = Some (other_error e))
    ∧ (r.2 = None → failure = None).

Lemma judge_packs_stored byRef byPath packCfg total packs : ∀ judged fs dgs w, judged = zlen fs →
  let r := judge_packs NewUUID ctx byRef byPath packCfg total judged fs dgs packs w in
  rows_stored w r.1 fs r.2
  ∧ ∀ j rem e, r.2.2 = Some (judgmentBudgetExceeded j rem e) →
      j = zlen r.2.1.1 ∧ (j + rem = total)%Z ∧ errors_Is e ErrBudgetExceeded = true ∧ errors_Is e Canceled = false.
Proof.
  induction packs as [|pack packs IH]; intros judged fs dgs w Hj; cbn [judge_packs]; cbn zeta.
  { split; [|done]. exists [], None. split; [apply stored_nil|]. cbn. rewrite app_nil_r.
    split; [done|]. split; [constructor|done]. }
  destruct (hiddenMutationPackItems pack byRef byPath packCfg) as [|it items]; [by apply IH|].
  unfold mbind, SM_bind, mret, SM_ret.
  pose proof (callHiddenMutationPack_stored (it :: items) total judged w) as Hc. cbn zeta in Hc.
  destruct (callHiddenMutationPack NewUUID ctx (it :: items) total judged w) as [w1 [err|[pf pd]]]; cbn [fst snd] in *.
  { destruct Hc as (failure & Hs & Hf & Hb). split.
    - exists [], failure. split; [done|]. cbn. rewrite app_nil_r. split; [done|]. split; [constructor|].
      split; [|done]. intros e He. by rewrite (Hf e He).
    - cbn. intros j rem e [= ->]. destruct (Hb j rem e eq_refl) as (-> & -> & ? & ? & _).
      split; [done|]. split; [lia|done]. }
  destruct Hc as (Ha & b1 & Hs1 & Hb1).
  destruct (IH (judged + zlen pf)%Z (fs ++ pf) (dgs ++ pd) w1) as [(b2 & failure & Hs2 & Hr & Ha2 & Hf & Hn) Hb].
  { subst judged. unfold zlen. rewrite length_app. lia. }
  split; [|done]. exists (b1 ++ b2), failure. rewrite concat_app, Hb1. split; [by eapply stored_trans|].
  split; [by rewrite Hr, app_assoc|]. split; [by apply list.Forall_app|done].
Qed.

(** How many findings the cap lets through. *)
Definition selected_count (byPath : FilesByPath) (detFindings : list JobFinding) (packCfg : PackConfig) (max : Z) : Z :=
  zlen (fst (PrioritizeJudgmentCandidates (fst (collectHiddenMutationCandidates byPath detFindings packCfg)) max)).

Lemma judgeHiddenMutationFindings_stored byPath detFindings packCfg max (w : ScanWorld W) :
  let r := judgeHiddenMutationFindings NewUUID ctx byPath detFindings packCfg max w in
  rows_stored w r.1 [] r.2
  ∧ ∀ j rem e, r.2.2 = Some (judgmentBudgetExceeded j rem e) →
      j = zlen r.2.1.1 ∧ (j + rem)%Z = selected_count byPath detFindings packCfg max
      ∧ errors_Is e ErrBudgetExceeded = true ∧ errors_Is e Canceled = false.
Proof.
  unfold judgeHiddenMutationFindings, selected_count.
  destruct (collectHiddenMutationCandidates byPath detFindings packCfg) as [cands metas].
  destruct cands as [|c cands].
  { cbn. split; [|done]. exists [], None. split; [apply stored_nil|]. split; [done|]. split; [constructor|done]. }
  cbn [fst]. destruct (PrioritizeJudgmentCandidates (c :: cands) max) as [selected omitted]. cbn [fst].
  unfold mbind, SM_bind, mret, SM_ret, fresh.
  destruct (0 <? omitted)%Z; cbn [sw_writer];
    match goal with |- context [judge_packs _ _ ?r ?p ?c ?t 0%Z [] ?d ?ps ?w'] =>
      pose proof (judge_packs_stored r p c t ps 0%Z [] d w' eq_refl) as [Hs Hb] end; (split; [exact Hs|exact Hb]).
Qed.

Lemma judgeChangeCohesion_rows fileMetas detFindings (w : ScanWorld W) :
  let r := judgeChangeCohesion NewUUID ctx fileMetas detFindings w in
  sw_writer r.1 = sw_writer w ∧ ∀ rows, r.2 = inr rows → agent_rows rows.1.
Proof.
  unfold judgeChangeCohesion. cbn zeta. destruct (mapM marshal_raw _) as [js|]; [|done].
  unfold mbind, SM_bind, mret, SM_ret.
  match goal with |- context [on_loop ?m w] => pose proof (on_loop_writer m w) as Hw1 end.
  destruct (on_loop _ w) as [w1 [raw [err|]]]; cbn [fst snd] in *; [done|].
  pose proof (rubric_outcome_writer raw [] w1) as Hw2. pose proof (rubric_outcome_agent raw [] w1) as Ha.
  destruct (rubric_outcome NewUUID raw [] w1) as [w2 [e|o]]; cbn [fst snd] in *; [split; [congruence|done]|].
  split; [congruence|]. intros rows [= <-]. apply append_agent; [constructor|by apply Ha].
Qed.

(** The configuration and files a run works with. *)
Definition files_by_path (files : list loadedBaselineFile) : FilesByPath :=
  fold_left (λ m f, <[lbf_Path f := f]> m) files ∅.

Lemma judgeBaseline_stored files detFindings packCfg max (w : ScanWorld W) :
  let r := judgeBaselineViaLoop NewUUID ctx files detFindings packCfg max w in
  rows_stored w r.1 [] r.2
  ∧ ∀ j rem e, r.2.2 = Some (judgmentBudgetExceeded j rem e) →
      j = zlen r.2.1.1 ∧ errors_Is e ErrBudgetExceeded = true
      ∧ (rem = 0%Z ∨ (j + rem)%Z = selected_count (files_by_path files) detFindings
           (ApplyPackConfigDefaults packCfg) (resolveMaxHiddenMutationJudgments max)).
Proof.
  unfold judgeBaselineViaLoop. cbn zeta. fold (files_by_path files). unfold mbind, SM_bind, mret, SM_ret.
  pose proof (judgeHiddenMutationFindings_stored (files_by_path files) detFindings
    (ApplyPackConfigDefaults packCfg) (resolveMaxHiddenMutationJudgments max) w) as [Hs Hb].
  destruct (judgeHiddenMutationFindings _ _ _ _ _ _ w) as [w1 [[fs dgs] [e|]]]; cbn [fst snd] in *.
  { split; [done|]. intros j rem e' He. destruct (Hb j rem e' He) as (? & ? & ? & _). auto. }
  clear Hb. destruct Hs as (b1 & failure & Hs1 & Hr1 & Ha1 & _ & Hn1). cbn [fst snd app] in *.
  rewrite (Hn1 eq_refl) in Hs1. clear failure Hn1.
  match goal with |- context [judgeChangeCohesion _ _ ?m _ w1] =>
    pose proof (judgeChangeCohesion_rows m detFindings w1) as [Hw2 Hrows] end.
  destruct (judgeChangeCohesion _ _ _ _ w1) as [w2 [err|[cfs cdgs]]]; cbn [fst snd] in *.
  { split.
    - exists b1, None. rewrite Hw2. cbn. done.
    - intros j rem e. destruct (errors_Is err ErrBudgetExceeded) eqn:Eb; [|done]. intros [= <- <- <-]. auto. }
  pose proof (insertBaselineFindings_stored cfs w2) as Hins.
  destruct (insertBaselineFindings ctx cfs w2) as [w3 [e|]]; cbn [fst snd] in *; (split; [|done]).
  - exists b1, (Some e). rewrite <-(app_nil_r b1) at 1. split; [eapply stored_trans; [exact Hs1|by rewrite <-Hw2]|].
    cbn. split; [done|]. split; [done|]. split; [|done]. by intros e' [= ->].
  - destruct Hins as (b2 & Hs2 & Hb2). exists (b1 ++ b2), None. rewrite Hw2 in Hs2.
    split; [by eapply stored_trans|]. cbn. rewrite concat_app, <-Hr1, Hb2. split; [done|].
    split; [|done]. apply list.Forall_app. split; [by rewrite Hr1|by apply (Hrows _ eq_refl)].
Qed.


(** ** The phase completes *)

Lemma codesignal_diagnostics_writer l : ∀ (w : ScanWorld W),
  sw_writer (codesignal_diagnostics NewUUID l w).1 = sw_writer w.
Proof.
  induction l as [|d l IH]; intros w; cbn; [done|]. unfold mbind, SM_bind, fresh, mret, SM_ret.
  match goal with |- context [codesignal_diagnostics NewUUID l ?w'] => pose proof (IH w') as Hw;
    destruct (codesignal_diagnostics NewUUID l w') end. done.
Qed.

(** No rows, no batch. *)
Definition diagnostic_batches (dgs : list JobDiagnostic) : list (list JobFinding + list JobDiagnostic) :=
  match dgs with [] => [] | _ => [inr dgs] end.

(** The end of a phase: the diagnostics given are stored, then the completion is the
    lease's for the commit analyzed. *)
Lemma complete_with_spec cfg prepared diagnostics (w : ScanWorld W) :
  let r := complete_with NewUUID ctx cfg prepared diagnostics w in
  match r.2 with
  | inl e => refused (sw_writer w) (sw_writer r.1) e
  | inr c => ∃ more, wrote (sw_writer w) (diagnostic_batches (diagnostics ++ more)) (sw_writer r.1)
      ∧ ∃ now, c = baselineCompletion now (jw_Lease (sw_writer r.1)) (prb_commitSHA prepared)
  end.
Proof.
  unfold complete_with, mbind, SM_bind, mret, SM_ret.
  assert (sw_writer (diagnosticsFromCodeSignal NewUUID (prb_report prepared) w).1 = sw_writer w) as Hw.
  { unfold diagnosticsFromCodeSignal. destruct (prb_report prepared); [apply codesignal_diagnostics_writer|done]. }
  destruct (diagnosticsFromCodeSignal _ _ w) as [w1 more]. cbn [fst] in Hw.
  unfold insertBaselineDiagnostics. destruct (diagnostics ++ more) as [|d dgs] eqn:E.
  { cbn. exists more. rewrite E, Hw. split; [constructor|by eexists]. }
  rewrite Hw. destruct (jw_InsertDiagnostics _ _ _ _) as [s [e|]] eqn:Ei; cbn.
  - right. by eexists _, _.
  - exists more. rewrite E. split; [eapply wrote_diagnostics; [exact Ei|constructor]|by eexists].
Qed.

Lemma register_all_seed (specs : list ToolSpec) : ∀ l,
  Forall (λ spec, spec_Name spec ≠ "" ∧ is_Some (spec_Handler spec) ∧ isCoreToolName ds dc (spec_Name spec) = false) specs →
  (register_all ds dc specs l).2 = None.
Proof.
  induction specs as [|spec specs IH]; intros l Hs; [done|].
  apply list.Forall_cons in Hs as [(Hn & [h Hh] & Hc) Hs]. cbn [register_all]. unfold Register, rejectCoreToolRegister.
  apply String.eqb_neq in Hn. rewrite Hn, Hh, Hc. cbn [negb]. by apply IH.
Qed.

(** The rubrics' tools can always be registered. *)
Lemma newJudgmentLoop_ok cfg n (w : ScanWorld W) :
  (newJudgmentLoop ds dc cfg n w).2 = None ∧ sw_writer (newJudgmentLoop ds dc cfg n w).1 = sw_writer w.
Proof.
  unfold newJudgmentLoop. cbn zeta. unfold RegisterTools.
  match goal with |- context [ToolSpecs ?g] => destruct (ToolSpecs g) as [e|specs] eqn:Es end; [done|].
  match goal with |- context [register_all ds dc specs ?l] => pose proof (register_all_seed specs l) as Hr;
    destruct (register_all ds dc specs l) as [l' err] end.
  rewrite (Hr : err = None) || (cbn [snd] in Hr; rewrite Hr); [done|].
  injection Es as <-. repeat constructor; try done; by eexists.
Qed.

(** The scope of the diagnostic a failed phase leaves. *)
Definition failure_scope (e : judgment_error) : string :=
  match e with judgmentBudgetExceeded _ _ _ => "judgment_budget" | other_error _ => "judgment" end.

End Accounting.

(** ** From a model's answer to rows *)

Section Rows.
Context {table : IsPrint} `{JsonErrors} {W : Type} {writer : JobWriter W}.
Variables (NewUUID : nat → string).

(** A row that comes from the finding of a reference: the reference is part of what its
    hash is of. *)
Definition row_of_ref (ref : string) (f : JobFinding) : Prop :=
  ∃ rubric payload, jf_PayloadHash f = stablePayloadHash ["agent"; rubric; payload; ref]
    ∧ jf_Payload f = payload ∧ jf_RubricID f = Some rubric.

(** One settled result becomes one row: a finding if it judges, a diagnostic if not. *)
Lemma settled_row x (w : ScanWorld W) : result_wf x → settled (compacted x) →
  ∃ itemRaw o w', marshalToolResult (compacted x) = Some itemRaw
    ∧ rubric_outcome NewUUID itemRaw [tres_FindingRef (compacted x)] w = (w', inr o)
    ∧ sw_writer w' = sw_writer w
    ∧ match o with
      | inl f => judged (compacted x) ∧ row_of_ref (tres_FindingRef x) f
      | inr d => diagnosed (compacted x)
      end.
Proof.
  intros Hx Hs. destruct (compacted_again x Hx) as (Hc & Hyes & Hno).
  destruct (single_reads_back (compacted x) Hc) as (raw & Hraw & _ & Hread). exists raw.
  unfold rubric_outcome, jobOutcomeFromRubricTool. rewrite Hread.
  destruct Hs as [[Hj Hd]|[Hj [d Hd]]].
  - change (tres_Diagnostic (compacted (compacted x))) with (tres_Diagnostic (compacted x)).
    rewrite Hd, (Hyes Hj). cbn [negb].
    destruct (single_reads_back (compacted (compacted x))) as (payload & Hp & _); [by apply compacted_again|].
    rewrite Hp. do 2 eexists. split; [done|]. split; [done|]. split; [done|]. split; [done|].
    exists (tres_RubricID x), payload. by repeat split.
  - change (tres_Diagnostic (compacted (compacted x))) with (tres_Diagnostic (compacted x)). rewrite Hd.
    do 2 eexists. split; [done|]. split; [done|]. split; [done|]. by split; [|exists d].
Qed.

Lemma settled_rows xs : ∀ fs dgs (w : ScanWorld W),
  Forall (λ x, result_wf x ∧ settled (compacted x)) xs →
  ∃ w' F D, jobOutcomesFromToolPack NewUUID (map compacted xs) fs dgs w = (w', inr (fs ++ F, dgs ++ D))
    ∧ sw_writer w' = sw_writer w ∧ (length F + length D)%nat = length xs
    ∧ length F = length (List.filter (λ x, HasJudgment (compacted x)) xs)
    ∧ Forall (λ f, ∃ x, In x xs ∧ row_of_ref (tres_FindingRef x) f) F.
Proof.
  induction xs as [|x xs IH]; intros fs dgs w Hxs.
  { exists w, [], []. rewrite !app_nil_r. split; [done|]. split; [done|]. split; [done|]. split; [done|constructor]. }
  apply list.Forall_cons in Hxs as [[Hx Hs] Hxs]. cbn [map jobOutcomesFromToolPack].
  destruct (settled_row x w Hx Hs) as (raw & o & w1 & -> & Ho & Hw1 & Hrow). unfold mbind, SM_bind, mret, SM_ret. rewrite Ho.
  destruct o as [f|d]; cbn [appendJobOutcome].
  - destruct (IH (fs ++ [f]) dgs w1 Hxs) as (w2 & F & D & -> & Hw2 & Hl & Hlf & HF). destruct Hrow as [[Hj _] Hrow].
    exists w2, (f :: F), D. rewrite <-app_assoc. split; [done|]. split; [congruence|]. cbn [length List.filter].
    rewrite Hj. cbn [length]. split; [lia|]. split; [lia|].
    constructor; [exists x; split; [by left|done]|]. eapply list.Forall_impl; [exact HF|].
    intros g (y & Hy & Hg). exists y. split; [by right|done].
  - destruct (IH fs (dgs ++ [d]) w1 Hxs) as (w2 & F & D & -> & Hw2 & Hl & Hlf & HF). destruct Hrow as [Hj _].
    exists w2, F, (d :: D). rewrite <-app_assoc. split; [done|]. split; [congruence|]. cbn [length List.filter].
    rewrite Hj. split; [lia|]. split; [lia|]. eapply list.Forall_impl; [exact HF|].
    intros g (y & Hy & Hg). exists y. split; [by right|done].
Qed.

(** From the gateway to rows, nothing is lost and nothing doubled.  When the call for
    a pack returns, whatever the model answered, its text is read back into exactly one
    row per finding of the pack, the judged ones as findings and the others as
    diagnostics, and each finding's hash is taken over the reference of a finding of
    the pack. *)
Theorem pack_to_rows {gw : Gateway} ctx t def items (w : ScanWorld W) raw :
  utf8_answers ctx def → utf8_rubric def →
  Forall (λ it, pi_FindingRef it ≠ "" ∧ valid_utf8 (pi_FindingRef it)) items →
  (runHiddenMutationPack t ctx (Some gw) def items).1 = (raw, None) →
  ∃ w' F D, jobOutcomesFromHiddenMutationResult NewUUID raw w = (w', inr (F, D))
    ∧ sw_writer w' = sw_writer w ∧ (length F + length D)%nat = length items
    ∧ Forall (λ f, ∃ ref, In ref (packRefs items) ∧ row_of_ref ref f) F.
Proof.
  intros Hu Hd Hi Hraw. pose proof (pack_call (gw := gw) ctx t def items Hu Hd Hi) as Hc. rewrite Hraw in Hc.
  destruct Hc as (xs & Hp & Hrefs & Hxs). cbn [option_map] in Hp. injection Hp as Hp.
  assert (IsToolPackResult raw = true) as Hpack.
  { unfold ParseToolPackResult in Hp. by destruct (IsToolPackResult raw). }
  unfold jobOutcomesFromHiddenMutationResult. rewrite Hpack, Hp. cbn [tpr_Results].
  destruct (settled_rows xs [] [] w Hxs) as (w' & F & D & -> & Hw & Hl & _ & HF).
  exists w', F, D. split; [done|]. split; [done|]. split.
  - rewrite Hl. rewrite <-(length_map tres_FindingRef xs), Hrefs. unfold packRefs. apply length_map.
  - eapply list.Forall_impl; [exact HF|]. intros f (x & Hx & Hrow). exists (tres_FindingRef x).
    split; [|done]. rewrite <-Hrefs. by apply in_map.
Qed.
End Rows.

(** ** Examples *)

Section Examples.
#[local] Existing Instance ascii_table.
#[local] Instance plain_errors : JsonErrors := λ _ _, "invalid".

(** A writer that keeps what it is given. *)
#[local] Instance keeping_writer : JobWriter (list JobFinding * list JobDiagnostic) := {|
  jw_Lease _ := mkClaimLease "job" "worker" 1 0%Z;
  jw_InsertFindings _ _ s fs := ((s.1 ++ fs, s.2), None);
  jw_InsertDiagnostics _ _ s dgs := ((s.1, s.2 ++ dgs), None)
|}.

Definition numbered (n : nat) : string := "id" +:+ Itoa (Z.of_nat n).

Definition mutation_signal (path fingerprint : string) : Signal :=
  mkSignal "s" fingerprint "state.hidden_input_mutation" "1" "hidden_input_mutation" "state" "warning" "high"
    "introduced" true path "" "f" (mkLocation 0 1 0 0 0 1) "e" "w" "r" "" (mkProvenance "rules" "" "") ∅ [] [] [].

Definition det_finding (path fingerprint : string) : JobFinding :=
  mkJobFinding "" "" 0 FindingSourceDeterministic None None None (marshal_signal (mutation_signal path fingerprint))
    fingerprint 0%Z.

Definition example_prepared : preparedRepoBaseline :=
  mkPrepared [mkLoadedFile "a.go" "go" "x = 1" None; mkLoadedFile "b.go" "go" "" None] None
    [det_finding "a.go" "h1"; det_finding "b.go" "h2"; det_finding "a.go" "h3"] "c0ffee".

Definition example_config (wall max : Z) : ScanConfig :=
  mkScanConfig "" "" "" 0 0 None None (mkPackConfig 0 0 0 0) wall max (λ _, 7%Z).

Definition scan_world : ScanWorld (list JobFinding * list JobDiagnostic) :=
  mkScanWorld (demo_world alone) ([], []) 0.

Definition judged_rows (r : ScanWorld (list JobFinding * list JobDiagnostic) * (error + Completion)) :
    list (option string) * list string * bool :=
  (map jf_RubricID (sw_writer r.1).1, map jd_Scope (sw_writer r.1).2,
   match r.2 with inl _ => false | inr _ => true end).

(** The stub judges every finding, then the change as a whole. *)
Example stub_judges :
  judged_rows (judgePreparedBaseline numbered echo echo Background (example_config 0 0) example_prepared scan_world)
  = ([Some IDHiddenMutationContextualization; Some IDHiddenMutationContextualization;
      Some IDHiddenMutationContextualization; Some IDChangeCohesion], [], true).
Proof. vm_compute. reflexivity. Qed.

(** A cap of one omits two findings, and a wall of two ticks ends the phase early; the
    scan completes. *)
Example cap_and_wall :
  judged_rows (judgePreparedBaseline numbered echo echo Background (example_config 0 1) example_prepared scan_world)
  = ([Some IDHiddenMutationContextualization; Some IDChangeCohesion], ["judgment_cap"], true)
  ∧ judged_rows (judgePreparedBaseline numbered echo echo Background (example_config 2 0) example_prepared scan_world)
  = ([], ["judgment_budget"], true).
Proof. vm_compute. done. Qed.

Lemma pack_to_rows_witness :
  ∃ w' F D, jobOutcomesFromHiddenMutationResult numbered
      (runHiddenMutationPack 0 Background (Some canned_gateway) hidden_mutation two_items).1.1 scan_world
      = (w', inr (F, D))
    ∧ (length F + length D)%nat = 2.
Proof.
  destruct (pack_to_rows numbered (gw := canned_gateway) Background 0 hidden_mutation two_items scan_world
    (runHiddenMutationPack 0 Background (Some canned_gateway) hidden_mutation two_items).1.1) as (w' & F & D & E & _ & L & _).
  - intros t messages schema. cbn. destruct (_ == _); cbn; [split|]; apply ascii_valid; reflexivity.
  - split; apply ascii_valid; reflexivity.
  - repeat constructor; try discriminate; apply ascii_valid; reflexivity.
  - vm_compute. reflexivity.
  - exists w', F, D. split; [exact E|exact L].
Defined.
End Examples.
