(* ===== verification/Ingest.v ===== *)
(** * Reading repositories through the GitHub API

    [pkg/githubingest]: the tree of a repository at a commit is listed by walking the
    Contents API under budgets, files are read one by one, and no symbolic link or
    submodule is followed.  The API client is go-github: what it answers at each moment
    is a parameter. *)

From Stdlib Require Import Ascii.
From S2P Require Import Prelude GoText GoErr.

(** ** The client *)

(** What the code reads of go-github's [RepositoryContent]; the getters give the zero
    value for an absent field. *)
Record RepositoryContent := mkContent {
  gc_Type : string; gc_Path : string; gc_Name : string; gc_SHA : string;
  gc_Size : Z; gc_Content : option string
}.

(** A failed call: the error and the response's status, if there was a response. *)
Definition ApiFailure : Type := error * option Z.

(** The calls of go-github that are used, at a moment: a file, a directory or neither;
    a default branch; a commit; an installation; a token; a permission level. *)
Class GitHubClient := {
  GetContents : nat → string → string → string → string →
    ApiFailure + (option RepositoryContent * option (list RepositoryContent));
  GetDefaultBranch : nat → string → string → ApiFailure + string;
  GetCommitSHA : nat → string → string → string → ApiFailure + string;
  GetRepositoryInstallation : nat → string → string → ApiFailure + Z;
  CreateInstallationToken : nat → Z → ApiFailure + string;
  GetPermissionLevel : nat → string → string → string → ApiFailure + string
}.

(** ** Errors *)

(** The sentinel the error is, under a message. *)
Definition Wrap (msg : string) (e : error) : error := Errorf (msg +:+ ": ") e.

(** go: pkg/githubingest/errors.go#isTokenMintFailure *)
Definition isTokenMintFailure (err : error) : bool := errors_Is err TokenMintMarker.

(** go: pkg/githubingest/errors.go#mapContentsAPIError *)
Definition mapContentsAPIError (failure : ApiFailure) (action : string) : error :=
  let '(err, resp) := failure in
  match resp with
  | Some status =>
      if (status =? 404)%Z then Wrap ("githubingest: " +:+ action) (sentinel_error GhErrNotFound)
      else if (status =? 401)%Z || (status =? 403)%Z
      then Wrap ("githubingest: " +:+ action +:+ " rejected with status " +:+ Itoa status) (sentinel_error GhErrAuth)
      else Wrap ("githubingest: " +:+ action) err
  | None =>
      if isTokenMintFailure err
      then Wrap ("githubingest: authenticating GitHub App installation while " +:+ action) (sentinel_error GhErrAuth)
      else Wrap ("githubingest: " +:+ action) err
  end.

(** go: pkg/githubingest/credentials.go#mapCredentialAPIError *)
Definition mapCredentialAPIError (failure : ApiFailure) (action : string) : error :=
  let '(err, resp) := failure in
  match resp with
  | Some status =>
      if (status =? 404)%Z then Wrap ("githubingest: " +:+ action) (sentinel_error GhErrNotFound)
      else if (status =? 401)%Z || (status =? 403)%Z
      then Wrap ("githubingest: " +:+ action +:+ " rejected with status " +:+ Itoa status) (sentinel_error GhErrAuth)
      else Wrap ("githubingest: " +:+ action) err
  | None => Wrap ("githubingest: " +:+ action) err
  end.

(** ** Configuration *)

(** go: pkg/githubingest/reader.go#GitHubAppConfig *)
Record GitHubAppConfig := mkGitHubAppConfig {
  ga_AppID : Z; ga_InstallationID : Z; ga_PrivateKey : string; ga_BaseURL : string
}.

(** The checks before the transports are built; [None] when they pass.
    go: pkg/githubingest/reader.go:35-44#NewGitHubFileReader *)
Definition checkGitHubAppConfig (cfg : GitHubAppConfig) : option error :=
  if (ga_AppID cfg <=? 0)%Z
  then Some (errors_New ("githubingest: GitHubAppConfig.AppID must be a positive ID, got " +:+ Itoa (ga_AppID cfg)))
  else if (ga_InstallationID cfg <=? 0)%Z
  then Some (errors_New ("githubingest: GitHubAppConfig.InstallationID must be a positive ID, got "
               +:+ Itoa (ga_InstallationID cfg)))
  else if ga_PrivateKey cfg == "" then Some (errors_New "githubingest: GitHubAppConfig.PrivateKey must be set")
  else None.

(** go: pkg/githubingest/credentials.go#CredentialResolverConfig *)
Record CredentialResolverConfig := mkCredentialResolverConfig {
  cr_AppID : Z; cr_PrivateKey : string; cr_BaseURL : string
}.

(** The same for the resolver.
    go: pkg/githubingest/credentials.go:38-44#NewCredentialResolver *)
Definition checkCredentialResolverConfig (cfg : CredentialResolverConfig) : option error :=
  if (cr_AppID cfg <=? 0)%Z
  then Some (errors_New ("githubingest: CredentialResolverConfig.AppID must be a positive ID, got "
               +:+ Itoa (cr_AppID cfg)))
  else if cr_PrivateKey cfg == ""
  then Some (errors_New "githubingest: CredentialResolverConfig.PrivateKey must be set")
  else None.

(** The check of a token before a client is built with it.
    go: pkg/githubingest/reader_from_token.go:13-16#NewGitHubFileReaderFromToken *)
Definition checkReaderToken (token : string) : option error :=
  if token == "" then Some (errors_New "githubingest: installation access token must be set") else None.

(** ** Base64 *)

(** The value of a character of the standard alphabet. *)
Definition base64_value (c : ascii) : option N :=
  let n := code c in
  if in_range 65 90 n then Some (n - 65)%N
  else if in_range 97 122 n then Some (n - 71)%N
  else if in_range 48 57 n then Some (n + 4)%N
  else if (n =? 43)%N then Some 62%N
  else if (n =? 47)%N then Some 63%N
  else None.

Definition is_pad (c : ascii) : bool := (code c =? 61)%N.

Fixpoint drop_newlines (s : string) : string :=
  match s with
  | String c t => if ((code c =? 10) || (code c =? 13))%N then drop_newlines t else String c (drop_newlines t)
  | EmptyString => ""
  end.

(** Four characters at a time; padding only at the very end. *)
Fixpoint decode_quanta (s : string) : option string :=
  match s with
  | EmptyString => Some ""
  | String a (String b (String c (String d t))) =>
      match base64_value a, base64_value b with
      | Some x, Some y =>
          let first := byte_of ((x * 4 + y / 16) `mod` 256) in
          if is_pad c then
            if is_pad d then match t with EmptyString => Some (String first "") | _ => None end else None
          else match base64_value c with
          | None => None
          | Some z =>
              let second := byte_of ((y * 16 + z / 4) `mod` 256) in
              if is_pad d then match t with EmptyString => Some (String first (String second "")) | _ => None end
              else match base64_value d, decode_quanta t with
              | Some u, Some rest =>
                  Some (String first (String second (String (byte_of ((z * 64 + u) `mod` 256)) rest)))
              | _, _ => None
              end
          end
      | _, _ => None
      end
  | _ => None
  end.

(** What [encoding/base64] says of an input it rejects: the text is not modelled. *)
Class Base64Errors := base64_error_text : string → string.

(** [base64.StdEncoding.DecodeString]: line ends are skipped. *)
Definition DecodeString (s : string) : option string := decode_quanta (drop_newlines s).

Example DecodeString_examples :
  map DecodeString [""; "Zg=="; "Zm8="; "Zm9v" +:+ String (byte_of 10) "YmFy"; "Zg"; "Zg==Zg=="; "Z===" ]
  = [Some ""; Some "f"; Some "fo"; Some "foobar"; None; None; None].
Proof. vm_compute. reflexivity. Qed.

(** ** Listing a tree *)

(** go: pkg/githubingest/tree.go#GitHubTreeRef *)
Record GitHubTreeRef := mkTreeRef { tref_Owner : string; tref_Repo : string; tref_Ref : string }.

(** go: pkg/githubingest/tree.go#TreeEntry *)
Record TreeEntry := mkTreeEntry { te_Path : string; te_SHA : string; te_Size : Z }.

(** [None] is the nil filter; a budget of zero is none.
    go: pkg/githubingest/tree.go#TreeListOptions *)
Record TreeListOptions := mkTreeListOptions {
  tl_Filter : option (string → bool); tl_MaxFiles : Z; tl_MaxTotalBytes : Z
}.

(** The entries so far and their size; the moment of the next call.
    go: pkg/githubingest/tree.go#treeWalk *)
Record treeWalk := mkTreeWalk { tw_entries : list TreeEntry; tw_totalBytes : Z; tw_moment : nat }.

(** go: pkg/githubingest/tree.go#dirLabel *)
Definition dirLabel (ref : GitHubTreeRef) (dir : string) : string :=
  if dir == "" then tref_Owner ref +:+ "/" +:+ tref_Repo ref +:+ " root" else dir.

Definition tree_label (ref : GitHubTreeRef) : string :=
  "githubingest: tree listing for " +:+ tref_Owner ref +:+ "/" +:+ tref_Repo ref +:+ " at ref " +:+ tref_Ref ref.

(** go: pkg/githubingest/tree.go#appendFile *)
Definition appendFile (ref : GitHubTreeRef) (opts : TreeListOptions) (entry : RepositoryContent) (w : treeWalk) :
    treeWalk * option error :=
  if match tl_Filter opts with Some f => negb (f (gc_Path entry)) | None => false end then (w, None)
  else if (0 <? tl_MaxFiles opts)%Z && (tl_MaxFiles opts <? zlen (tw_entries w) + 1)%Z
  then (w, Some (Wrap (tree_label ref +:+ " exceeds the configured file-count budget of " +:+ Itoa (tl_MaxFiles opts))
              (sentinel_error GhErrTooLarge)))
  else
    let newTotal := int64_wrap (tw_totalBytes w + gc_Size entry) in
    if (0 <? tl_MaxTotalBytes opts)%Z && (tl_MaxTotalBytes opts <? newTotal)%Z
    then (w, Some (Wrap (tree_label ref +:+ " exceeds the configured byte budget of "
                +:+ Itoa (tl_MaxTotalBytes opts) +:+ " bytes") (sentinel_error GhErrTooLarge)))
    else (mkTreeWalk (tw_entries w ++ [mkTreeEntry (gc_Path entry) (gc_SHA entry) (gc_Size entry)])
            newTotal (tw_moment w), None).

Section Reader.
Context {client : GitHubClient} `{Base64Errors}.

(** The recursion follows the tree the API serves, however deep; the fuel is the depth
    allowed, and [None] is running out of it.
    go: pkg/githubingest/tree.go:69-95#walk *)
Fixpoint walk (fuel : nat) (ref : GitHubTreeRef) (dir : string) (opts : TreeListOptions) (w : treeWalk) :
    option (treeWalk * option error) :=
  match fuel with
  | O => None
  | S fuel =>
      let called := mkTreeWalk (tw_entries w) (tw_totalBytes w) (S (tw_moment w)) in
      match GetContents (tw_moment w) (tref_Owner ref) (tref_Repo ref) dir (tref_Ref ref) with
      | inl failure =>
          Some (called, Some (mapContentsAPIError failure
            ("listing " +:+ dirLabel ref dir +:+ " at ref " +:+ tref_Ref ref)))
      | inr (_, dirEntries) =>
          (fix visit (w : treeWalk) (entries : list RepositoryContent) : option (treeWalk * option error) :=
             match entries with
             | [] => Some (w, None)
             | entry :: entries =>
                 match (if gc_Type entry == "dir" then walk fuel ref (gc_Path entry) opts w
                        else if gc_Type entry == "file" then Some (appendFile ref opts entry w)
                        else Some (w, None)) with
                 | Some (w, None) => visit w entries
                 | other => other
                 end
             end) called (default [] dirEntries)
      end
  end.

(** go: pkg/githubingest/tree.go#ListFiles *)
Definition ListFiles (fuel : nat) (ref : GitHubTreeRef) (opts : TreeListOptions) (t : nat) :
    option ((error + list TreeEntry) * nat) :=
  match walk fuel ref "" opts (mkTreeWalk [] 0 t) with
  | None => None
  | Some (w, Some e) => Some (inl e, tw_moment w)
  | Some (w, None) => Some (inr (tw_entries w), tw_moment w)
  end.

(** ** Reading a file *)

(** go: pkg/githubingest/read_file.go#maxContentSize *)
Definition maxContentSize : Z := 1048576.

(** go: pkg/githubingest/read_file.go#GitHubFileRef *)
Record GitHubFileRef := mkFileRef { fref_Owner : string; fref_Repo : string; fref_Ref : string; fref_Path : string }.

(** go: pkg/githubingest/read_file.go#FileMetadata *)
Record FileMetadata := mkFileMetadata { md_Path : string; md_Ref : string; md_SHA : string; md_Size : Z }.

(** [path.Base]. *)
Definition Base (p : string) : string :=
  if p == "" then "." else
  let s := rev_string (TrimLeftByte ch_slash (rev_string p)) in
  if s == "" then "/" else match CutLast ch_slash s with Some (_, b) => b | None => s end.

Definition file_label (ref : GitHubFileRef) : string := fref_Path ref +:+ " at ref " +:+ fref_Ref ref.

(** go: pkg/githubingest/read_file_symlink.go#rejectIfPathIsSymlink *)
Definition rejectIfPathIsSymlink (ref : GitHubFileRef) (t : nat) : option error :=
  let dir := Dir (fref_Path ref) in
  let dir := if dir == "." then "" else dir in
  match GetContents t (fref_Owner ref) (fref_Repo ref) dir (fref_Ref ref) with
  | inl failure => Some (mapContentsAPIError failure ("listing the directory containing " +:+ file_label ref))
  | inr (_, dirEntries) =>
      if existsb (λ entry, (gc_Name entry == Base (fref_Path ref)) && (gc_Type entry == "symlink")) (default [] dirEntries)
      then Some (Wrap ("githubingest: " +:+ file_label ref +:+ " is a symlink") (sentinel_error GhErrUnsupportedContent))
      else None
  end.

(** Two calls, the file and then its directory.
    go: pkg/githubingest/read_file.go#ReadFile *)
Definition ReadFile (ref : GitHubFileRef) (t : nat) : (error + string * FileMetadata) * nat :=
  match GetContents t (fref_Owner ref) (fref_Repo ref) (fref_Path ref) (fref_Ref ref) with
  | inl failure => (inl (mapContentsAPIError failure ("fetching " +:+ file_label ref)), S t)
  | inr (None, _) | inr (_, Some _) =>
      (inl (Wrap ("githubingest: " +:+ file_label ref +:+ " is a directory listing")
         (sentinel_error GhErrUnsupportedContent)), S t)
  | inr (Some file, None) =>
      if bool_decide (gc_Type file ∈ ["dir"; "symlink"; "submodule"])
      then (inl (Wrap ("githubingest: " +:+ file_label ref +:+ " is a " +:+ gc_Type file +:+ ", not a regular file")
             (sentinel_error GhErrUnsupportedContent)), S t)
      else match rejectIfPathIsSymlink ref (S t) with
      | Some e => (inl e, S (S t))
      | None =>
          (if (maxContentSize <? gc_Size file)%Z
           then inl (Wrap ("githubingest: " +:+ file_label ref +:+ " is " +:+ Itoa (gc_Size file)
                  +:+ " bytes, exceeding the " +:+ Itoa maxContentSize +:+ " byte limit") (sentinel_error GhErrTooLarge))
           else match gc_Content file with
           | None => inl (errors_New ("githubingest: " +:+ file_label ref +:+ ": response had no content field"))
           | Some content =>
               match DecodeString content with
               | None => inl (errors_New ("githubingest: decoding content for " +:+ file_label ref
                           +:+ ": " +:+ base64_error_text content))
               | Some "" => inl (Wrap ("githubingest: " +:+ file_label ref +:+ " decoded to empty content")
                                   (sentinel_error GhErrEmptyContent))
               | Some decoded =>
                   inr (decoded, mkFileMetadata (gc_Path file) (fref_Ref ref) (gc_SHA file) (gc_Size file))
               end
           end, S (S t))
      end
  end.

(** ** Commits and credentials *)

(** go: pkg/githubingest/resolve_commit.go#ResolveCommitSHA *)
Definition ResolveCommitSHA (owner repo ref : string) (t : nat) : (error + string) * nat :=
  let commit (ref : string) (t : nat) : (error + string) * nat :=
    let where_ := owner +:+ "/" +:+ repo +:+ " at ref " +:+ ref in
    match GetCommitSHA t owner repo ref with
    | inl failure => (inl (mapContentsAPIError failure ("resolving commit SHA for " +:+ where_)), S t)
    | inr sha =>
        if sha == "" then (inl (errors_New ("githubingest: resolved empty commit SHA for " +:+ where_)), S t)
        else (inr sha, S t)
    end in
  let ref := TrimSpace ref in
  if ref != "" then commit ref t else
  match GetDefaultBranch t owner repo with
  | inl failure =>
      (inl (mapContentsAPIError failure ("resolving default branch for " +:+ owner +:+ "/" +:+ repo)), S t)
  | inr branch =>
      let ref := TrimSpace branch in
      if ref == ""
      then (inl (errors_New ("githubingest: " +:+ owner +:+ "/" +:+ repo +:+ " has an empty default branch")), S t)
      else commit ref (S t)
  end.

(** go: pkg/githubingest/credentials.go#ResolveInstallationID *)
Definition ResolveInstallationID (owner repo : string) (t : nat) : (error + Z) * nat :=
  (match GetRepositoryInstallation t owner repo with
   | inl failure => inl (mapCredentialAPIError failure ("resolving installation for " +:+ owner +:+ "/" +:+ repo))
   | inr id => inr id
   end, S t).

(** go: pkg/githubingest/credentials.go#InstallationToken *)
Definition InstallationToken (installationID : Z) (t : nat) : (error + string) * nat :=
  (match CreateInstallationToken t installationID with
   | inl failure =>
       inl (mapCredentialAPIError failure ("minting installation token for installation " +:+ Itoa installationID))
   | inr token => inr token
   end, S t).
End Reader.

(** ** The listing's guarantees *)

Section Listing.
Context {client : GitHubClient}.
Variables (ref : GitHubTreeRef) (opts : TreeListOptions).

(** The filter's verdict. *)
Definition passes (path : string) : bool := match tl_Filter opts with Some f => f path | None => true end.

(** An entry of a listing the API served: a regular file that passes the filter. *)
Definition served_file (e : TreeEntry) : Prop :=
  ∃ t dir file l c, GetContents t (tref_Owner ref) (tref_Repo ref) dir (tref_Ref ref) = inr (file, Some l)
    ∧ In c l ∧ gc_Type c = "file" ∧ passes (gc_Path c) = true
    ∧ e = mkTreeEntry (gc_Path c) (gc_SHA c) (gc_Size c).

(** The size the walk accounts, at the width it counts in. *)
Definition wrapped_size (l : list TreeEntry) (s : Z) : Z := fold_left (λ s e, int64_wrap (s + te_Size e)) l s.

Definition total_size (l : list TreeEntry) : Z := foldr (λ e n, te_Size e + n)%Z 0%Z l.

(** Both budgets hold so far, and held at every entry. *)
Record walk_inv (w : treeWalk) : Prop := {
  wi_served : Forall served_file (tw_entries w);
  wi_count : (0 < tl_MaxFiles opts → zlen (tw_entries w) <= tl_MaxFiles opts)%Z;
  wi_bytes : (0 < tl_MaxTotalBytes opts)%Z → ∀ k, (wrapped_size (take k (tw_entries w)) 0 <= tl_MaxTotalBytes opts)%Z;
  wi_total : tw_totalBytes w = wrapped_size (tw_entries w) 0
}.

Lemma appendFile_inv entry w :
  walk_inv w → (passes (gc_Path entry) = true → served_file (mkTreeEntry (gc_Path entry) (gc_SHA entry) (gc_Size entry))) →
  walk_inv (fst (appendFile ref opts entry w))
  ∧ ∀ e, snd (appendFile ref opts entry w) = Some e → errors_Is e GhErrTooLarge = true.
Proof.
  intros [Hs Hc Hb Ht] He. unfold appendFile.
  assert ((match tl_Filter opts with Some f => negb (f (gc_Path entry)) | None => false end) = negb (passes (gc_Path entry))) as ->
    by (unfold passes; by destruct (tl_Filter opts)).
  destruct (passes (gc_Path entry)) eqn:Ep; cbn [negb]; [|done].
  destruct ((0 <? tl_MaxFiles opts)%Z && _) eqn:Ef; [split; [done|by intros e [= <-]]|].
  destruct ((0 <? tl_MaxTotalBytes opts)%Z && _) eqn:Eb; [split; [done|by intros e [= <-]]|]. split; [|done]. split; cbn.
  - apply list.Forall_app. split; [done|]. constructor; [by apply He|constructor].
  - intros Hpos. apply andb_false_iff in Ef as [Ef|Ef]; [apply Z.ltb_ge in Ef; lia|]. apply Z.ltb_ge in Ef.
    unfold zlen in *. rewrite length_app. cbn. lia.
  - intros Hpos k. apply andb_false_iff in Eb as [Eb|Eb]; apply Z.ltb_ge in Eb; [lia|].
    destruct (decide (k <= length (tw_entries w))); [rewrite take_app_le by done; auto|].
    rewrite take_ge by (rewrite length_app; cbn; lia). unfold wrapped_size in *. rewrite fold_left_app. cbn. by rewrite <- Ht.
  - unfold wrapped_size in *. rewrite fold_left_app. cbn. by rewrite Ht.
Qed.

Lemma walk_keeps fuel : ∀ dir w w' err, walk_inv w → walk fuel ref dir opts w = Some (w', err) → walk_inv w'.
Proof.
  induction fuel as [|fuel IH]; intros dir w w' err Hw; cbn [walk]; [done|].
  set (called := mkTreeWalk _ _ _). assert (walk_inv called) as Hc by (destruct Hw; by split).
  destruct (GetContents _ _ _ _ _) as [failure|[file l]] eqn:Eg; [by intros [= <- <-]|].
  assert (∀ c, In c (default [] l) → gc_Type c = "file" → passes (gc_Path c) = true →
    served_file (mkTreeEntry (gc_Path c) (gc_SHA c) (gc_Size c))) as Hserved.
  { intros c Hin Ht Hp. destruct l as [l|]; [|done]. by repeat eexists. }
  clear Eg Hw. clearbody called. revert called Hc. induction (default [] l) as [|c cs IHl]; intros called Hc.
  { by intros [= <- <-]. }
  assert (∀ c', In c' cs → gc_Type c' = "file" → passes (gc_Path c') = true →
    served_file (mkTreeEntry (gc_Path c') (gc_SHA c') (gc_Size c'))) as Hs' by (intros; apply Hserved; auto; by right).
  destruct (gc_Type c == "dir").
  { destruct (walk fuel ref (gc_Path c) opts called) as [[w1 [e|]]|] eqn:Ew; [|apply IHl; [done|]|done].
    - intros [= <- <-]. by eapply IH.
    - by eapply IH. }
  destruct (gc_Type c == "file") eqn:Ef; [|by apply IHl].
  destruct (appendFile_inv c called Hc) as [Ha _]; [intros; apply Hserved; [by left|by apply String.eqb_eq|done]|].
  destruct (appendFile ref opts c called) as [w1 [e|]]; [by intros [= <- <-]|by apply IHl].
Qed.

Lemma walk_inv_start t : walk_inv (mkTreeWalk [] 0 t).
Proof. split; cbn; [constructor|unfold zlen; cbn; lia|intros ? [|k]; cbn; lia|done]. Qed.

Lemma sum_bounded (l : list TreeEntry) : ∀ s m, (0 <= s <= m)%Z → (m < 2 ^ 62)%Z →
  Forall (λ e, 0 <= te_Size e < 2 ^ 62)%Z l → (∀ k, wrapped_size (take k l) s <= m)%Z →
  wrapped_size l s = (s + total_size l)%Z ∧ (0 <= s + total_size l <= m)%Z.
Proof.
  induction l as [|e l IH]; intros s m Hs Hm Hl Hk; [cbn; lia|].
  apply list.Forall_cons in Hl as [He Hl]. cbn beta in He.
  assert (int64_wrap (s + te_Size e) = s + te_Size e)%Z as Ew by (apply int64_wrap_small; lia).
  pose proof (Hk 1) as H1. cbn in H1. rewrite Ew, take_0 in H1. cbn in H1.
  destruct (IH (s + te_Size e)%Z m) as [E1 E2]; [lia|done|done| |].
  { intros k. specialize (Hk (S k)). cbn in Hk. by rewrite Ew in Hk. }
  change (wrapped_size (e :: l) s) with (wrapped_size l (int64_wrap (s + te_Size e))).
  change (total_size (e :: l)) with (te_Size e + total_size l)%Z. rewrite Ew, E1. lia.
Qed.

(** A listing that succeeds holds, whatever the API answers, only regular files it
    served in the listing of some directory at the requested ref and that pass the
    filter, as many as the file budget allows at most, and of a total size, as the API
    states it, within the byte budget, as long as the sizes are below 2^62. *)
Theorem listing_budgeted fuel t l t' :
  ListFiles fuel ref opts t = Some (inr l, t') →
  Forall served_file l
  ∧ ((0 < tl_MaxFiles opts)%Z → (zlen l <= tl_MaxFiles opts)%Z)
  ∧ ((0 < tl_MaxTotalBytes opts < 2 ^ 62)%Z → Forall (λ e, 0 <= te_Size e < 2 ^ 62)%Z l →
     (total_size l <= tl_MaxTotalBytes opts)%Z).
Proof.
  unfold ListFiles. destruct (walk _ _ _ _ _) as [[w [e|]]|] eqn:Ew; [done| |done]. intros [= <- <-].
  apply walk_keeps in Ew as [Hs Hc Hb]; [|apply walk_inv_start]. split_and!; [done..|]. intros Hm Hl.
  apply (sum_bounded _ 0 (tl_MaxTotalBytes opts)); [lia|lia|done|apply Hb; lia].
Qed.

End Listing.

(** ** The listing of a repository that does not change *)

Section Exact.
Context {client : GitHubClient}.
Variables (ref : GitHubTreeRef) (opts : TreeListOptions).

(** The API gives the same answer at every moment. *)
Definition unchanging : Prop :=
  ∀ t t' dir, GetContents t (tref_Owner ref) (tref_Repo ref) dir (tref_Ref ref)
    = GetContents t' (tref_Owner ref) (tref_Repo ref) dir (tref_Ref ref).

(** The regular files below the directory, depth first in the order served; [None] when
    a call fails or the tree is deeper than the fuel. *)
Fixpoint files_below (depth : nat) (dir : string) : option (list RepositoryContent) :=
  match depth with
  | O => None
  | S depth =>
      match GetContents 0 (tref_Owner ref) (tref_Repo ref) dir (tref_Ref ref) with
      | inl _ => None
      | inr (_, entries) =>
          foldr (λ entry acc,
            files ← (if gc_Type entry == "dir" then files_below depth (gc_Path entry)
                     else if gc_Type entry == "file" then Some [entry] else Some []);
            rest ← acc; Some (files ++ rest)) (Some []) (default [] entries)
      end
  end.

Definition entry_of (c : RepositoryContent) : TreeEntry := mkTreeEntry (gc_Path c) (gc_SHA c) (gc_Size c).

Definition tree_files (depth : nat) : option (list TreeEntry) :=
  files ← files_below depth ""; Some (map entry_of (filter (λ c, passes opts (gc_Path c) = true) files)).

(** A number of files and a size within the budgets. *)
Definition fits (n total : Z) : bool :=
  ((tl_MaxFiles opts <=? 0)%Z || (n <=? tl_MaxFiles opts)%Z)
  && ((tl_MaxTotalBytes opts <=? 0)%Z || (total <=? tl_MaxTotalBytes opts)%Z).

Definition within_budgets (l : list TreeEntry) : bool := fits (zlen l) (total_size l).

(** The appends of a list of files, up to the first that is refused. *)
Fixpoint append_all (cs : list RepositoryContent) (w : treeWalk) : treeWalk * option error :=
  match cs with
  | [] => (w, None)
  | c :: cs => match appendFile ref opts c w with (w, None) => append_all cs w | other => other end
  end.

(** A walk with the moment set. *)
Definition at_moment (t : nat) (w : treeWalk) : treeWalk := mkTreeWalk (tw_entries w) (tw_totalBytes w) t.

Lemma appendFile_at_moment c t w :
  appendFile ref opts c (at_moment t w)
  = (at_moment t (fst (appendFile ref opts c w)), snd (appendFile ref opts c w)).
Proof. unfold appendFile, at_moment. cbn. repeat case_match; done. Qed.

Lemma append_all_at_moment cs : ∀ t w,
  append_all cs (at_moment t w) = (at_moment t (fst (append_all cs w)), snd (append_all cs w)).
Proof.
  induction cs as [|c cs IH]; intros t w; cbn [append_all]; [done|].
  rewrite appendFile_at_moment. by destruct (appendFile ref opts c w) as [w1 [e|]]; cbn.
Qed.

Lemma append_all_app cs ds w :
  append_all (cs ++ ds) w
  = match append_all cs w with (w, None) => append_all ds w | other => other end.
Proof.
  revert w. induction cs as [|c cs IH]; intros w; cbn [append_all app]; [done|].
  by destruct (appendFile ref opts c w) as [w1 [e|]].
Qed.

(** The walk is the appends of the files below, whatever moment it ends at. *)
Lemma walk_is_append_all : unchanging → ∀ depth dir files w, files_below depth dir = Some files →
  ∃ t, walk depth ref dir opts w = Some (at_moment t (fst (append_all files w)), snd (append_all files w)).
Proof.
  intros Hstill. induction depth as [|depth IH]; intros dir files w; cbn [files_below walk]; [done|].
  rewrite (Hstill (tw_moment w) 0). destruct (GetContents 0 _ _ dir _) as [failure|[file l]]; [done|].
  change (mkTreeWalk _ _ _) with (at_moment (S (tw_moment w)) w).
  generalize (S (tw_moment w)). generalize (default [] l). clear l. intros l. revert files w.
  induction l as [|c l IHl]; intros files w m; cbn [foldr].
  { intros [= <-]. by exists m. }
  match goal with |- context [foldr ?f _ l] => set (rest := foldr f (Some []) l) in * end.
  destruct (gc_Type c == "dir") eqn:Ed; [|destruct (gc_Type c == "file") eqn:Ef].
  - destruct (files_below depth (gc_Path c)) as [fs|] eqn:Efs; [|done]. cbn.
    destruct rest as [ds|]; [|done]. cbn. intros [= <-].
    destruct (IH _ _ (at_moment m w) Efs) as [t ->]. rewrite append_all_at_moment, append_all_app. cbn [fst snd].
    destruct (append_all fs w) as [w1 [e|]]; cbn; [by exists t|]. by apply (IHl ds w1 t).
  - cbn. destruct rest as [ds|]; [|done]. cbn. intros [= <-]. rewrite appendFile_at_moment. cbn [append_all].
    destruct (appendFile ref opts c w) as [w1 [e|]]; cbn; [by exists m|]. by apply (IHl ds w1 m).
  - cbn. destruct rest as [ds|]; [|done]. cbn. intros [= <-]. by apply (IHl ds w m).
Qed.

Definition listed (cs : list RepositoryContent) : list TreeEntry :=
  map entry_of (filter (λ c, passes opts (gc_Path c) = true) cs).

Lemma total_size_nonneg l : Forall (λ e, 0 <= te_Size e)%Z l → (0 <= total_size l)%Z.
Proof.
  induction 1 as [|e l He _ IH]; [done|]. change (total_size (e :: l)) with (te_Size e + total_size l)%Z.
  cbn beta in He. lia.
Qed.

Lemma fits_mono n total n' total' :
  (n <= n')%Z → (total <= total')%Z → fits n' total' = true → fits n total = true.
Proof.
  unfold fits. rewrite !andb_true_iff, !orb_true_iff, !Z.leb_le. lia.
Qed.

(** One append, when the count does not wrap. *)
Lemma appendFile_exact c w : passes opts (gc_Path c) = true →
  (0 <= tw_totalBytes w)%Z → (0 <= gc_Size c)%Z → (tw_totalBytes w + gc_Size c < 2 ^ 63)%Z →
  if fits (zlen (tw_entries w) + 1) (tw_totalBytes w + gc_Size c)
  then appendFile ref opts c w
    = (mkTreeWalk (tw_entries w ++ [entry_of c]) (tw_totalBytes w + gc_Size c) (tw_moment w), None)
  else ∃ e, appendFile ref opts c w = (w, Some e) ∧ errors_Is e GhErrTooLarge = true.
Proof.
  intros Hp Ht Hs Hlt. unfold appendFile, fits.
  assert ((match tl_Filter opts with Some f => negb (f (gc_Path c)) | None => false end) = false) as ->
    by (unfold passes in Hp; destruct (tl_Filter opts); [by rewrite Hp|done]).
  rewrite int64_wrap_small by lia. rewrite !Z.leb_antisym.
  destruct (0 <? tl_MaxFiles opts)%Z, (tl_MaxFiles opts <? _)%Z; cbn; try by eexists.
  all: destruct (0 <? tl_MaxTotalBytes opts)%Z, (tl_MaxTotalBytes opts <? _)%Z; cbn; try done; by eexists.
Qed.

Lemma append_all_exact cs : ∀ w,
  (0 <= tw_totalBytes w)%Z → fits (zlen (tw_entries w)) (tw_totalBytes w) = true →
  Forall (λ e, 0 <= te_Size e)%Z (listed cs) → (tw_totalBytes w + total_size (listed cs) < 2 ^ 63)%Z →
  if fits (zlen (tw_entries w ++ listed cs)) (tw_totalBytes w + total_size (listed cs))
  then append_all cs w
    = (mkTreeWalk (tw_entries w ++ listed cs) (tw_totalBytes w + total_size (listed cs)) (tw_moment w), None)
  else ∃ w' e, append_all cs w = (w', Some e) ∧ errors_Is e GhErrTooLarge = true.
Proof.
  induction cs as [|c cs IH]; intros w Ht Hf Hs Hlt; cbn [append_all].
  { cbn. rewrite app_nil_r, Z.add_0_r, Hf. by destruct w. }
  destruct (passes opts (gc_Path c)) eqn:Ep.
  - assert (listed (c :: cs) = entry_of c :: listed cs) as E by (unfold listed; by rewrite filter_cons_True).
    rewrite E in *. apply list.Forall_cons in Hs as [Hc Hs]. pose proof (total_size_nonneg _ Hs).
    change (total_size (_ :: _)) with (gc_Size c + total_size (listed cs))%Z in *. cbn in Hc.
    pose proof (appendFile_exact c w Ep Ht Hc ltac:(lia)) as Ha.
    destruct (fits (zlen (tw_entries w) + 1) _) eqn:Ef1.
    + rewrite Ha. specialize (IH (mkTreeWalk (tw_entries w ++ [entry_of c]) (tw_totalBytes w + gc_Size c) (tw_moment w))).
      cbn [tw_entries tw_totalBytes tw_moment] in IH.
      rewrite <- app_assoc, <- Z.add_assoc in IH. apply IH; [lia| |done|lia].
      rewrite <- Ef1. f_equal. unfold zlen. rewrite length_app. cbn. lia.
    + destruct Ha as (e & -> & He). destruct (fits (zlen (_ ++ _)) _) eqn:Ef2; [|by exists w, e].
      rewrite (fits_mono _ _ (zlen (tw_entries w ++ entry_of c :: listed cs))
        (tw_totalBytes w + (gc_Size c + total_size (listed cs)))) in Ef1; [done| |lia|done].
      unfold zlen. rewrite length_app. cbn. lia.
  - assert (listed (c :: cs) = listed cs) as E by (unfold listed; rewrite filter_cons_False; [done|by rewrite Ep]).
    rewrite E in *. assert (appendFile ref opts c w = (w, None)) as ->; [|by apply IH].
    unfold appendFile, passes in *. destruct (tl_Filter opts); [by rewrite Ep|done].
Qed.

(** Of a repository that does not change while it is walked, the listing is exactly
    the regular files that pass the filter, depth first in the order the API serves them,
    when they fit both budgets, and otherwise an error that is [ErrTooLarge]: the
    budgets, checked file by file, refuse exactly the listings that exceed them. *)
Theorem listing_exact depth l t :
  unchanging → tree_files depth = Some l →
  Forall (λ e, 0 <= te_Size e)%Z l → (total_size l < 2 ^ 63)%Z →
  ∃ t', if within_budgets l then ListFiles depth ref opts t = Some (inr l, t')
    else ∃ e, ListFiles depth ref opts t = Some (inl e, t') ∧ errors_Is e GhErrTooLarge = true.
Proof.
  intros Hstill Hl Hs Ht. unfold tree_files in Hl. destruct (files_below depth "") as [files|] eqn:Ef; [|done].
  injection Hl as <-. fold (listed files) in *.
  destruct (walk_is_append_all Hstill depth "" files (mkTreeWalk [] 0 t) Ef) as [t' Hw].
  exists t'. unfold ListFiles, within_budgets. rewrite Hw.
  assert (fits 0 0 = true) as H0.
  { unfold fits. rewrite !andb_true_iff, !orb_true_iff, !Z.leb_le. lia. }
  pose proof (append_all_exact files (mkTreeWalk [] 0 t) ltac:(done) H0 Hs Ht) as Ha. cbn in Ha.
  destruct (fits (zlen (listed files)) _); [by rewrite Ha|].
  destruct Ha as (w' & e & -> & He). by exists e.
Qed.

End Exact.

(** A reader's guarantee: what is handed over is a regular file's content. *)
Section Read.
Context {client : GitHubClient} `{Base64Errors}.

(** A file is read only when the API says at that moment that it is a file that is
    no link, directory or submodule, its directory lists no symbolic link of its name at
    the next, and its stated size is at most one mebibyte; the content handed over is the
    decoding of what was served and is not empty, and the metadata is that file's. *)
Theorem read_file_sound ref t content md t' :
  ReadFile ref t = (inr (content, md), t') →
  ∃ file encoded, GetContents t (fref_Owner ref) (fref_Repo ref) (fref_Path ref) (fref_Ref ref) = inr (Some file, None)
  ∧ gc_Type file ∉ ["dir"; "symlink"; "submodule"]
  ∧ (gc_Size file <= maxContentSize)%Z
  ∧ gc_Content file = Some encoded ∧ DecodeString encoded = Some content ∧ content ≠ ""
  ∧ md = mkFileMetadata (gc_Path file) (fref_Ref ref) (gc_SHA file) (gc_Size file)
  ∧ (∃ siblings, GetContents (S t) (fref_Owner ref) (fref_Repo ref)
        (if Dir (fref_Path ref) == "." then "" else Dir (fref_Path ref)) (fref_Ref ref) = inr siblings
      ∧ ∀ entries c, siblings.2 = Some entries → In c entries → gc_Name c = Base (fref_Path ref) → gc_Type c ≠ "symlink")
  ∧ t' = S (S t).
Proof.
  unfold ReadFile. destruct (GetContents t _ _ _ _) as [?|[[file|] [l|]]] eqn:Eg; try done.
  case_bool_decide as Et; [done|]. destruct (rejectIfPathIsSymlink ref (S t)) eqn:Er; [done|].
  destruct (Z.ltb_spec maxContentSize (gc_Size file)); [done|].
  destruct (gc_Content file) as [encoded|] eqn:Ec; [|done].
  destruct (DecodeString encoded) as [[|a decoded]|] eqn:Ed; try done. intros [= <- <- <-].
  exists file, encoded. split_and!; try done; try lia. revert Er. unfold rejectIfPathIsSymlink.
  destruct (GetContents (S t) _ _ _ _) as [?|[f entries]] eqn:Es; [done|]. destruct (existsb _ _) eqn:Ex; [done|].
  intros _. exists (f, entries). split; [done|]. cbn. intros es c -> Hc Hn Ht. cbn in Ex.
  assert (existsb (λ entry, (gc_Name entry == Base (fref_Path ref)) && (gc_Type entry == "symlink")) es = true) as Hx;
    [|by rewrite Hx in Ex].
  apply existsb_exists. exists c. split; [done|]. by rewrite Hn, Ht, !String.eqb_refl.
Qed.
End Read.

(** ** Witnesses *)

Module Fixture.
Definition entry (type path : string) (size : Z) (content : option string) : RepositoryContent :=
  mkContent type path (Base path) ("sha-" +:+ path) size content.

(** A repository of two directories, a link and a submodule. *)
Definition api_client : GitHubClient := {|
  GetContents _ _ _ path _ :=
    if path == "" then inr (None, Some [entry "dir" "lib" 0 None; entry "file" "a.go" 3 None;
                                        entry "symlink" "link.go" 3 None; entry "submodule" "vendor" 0 None])
    else if path == "lib" then inr (None, Some [entry "file" "lib/b.go" 4 None; entry "file" "lib/b.md" 9 None])
    else if path == "a.go" then inr (Some (entry "file" "a.go" 3 (Some "Zm9v")), None)
    else inl (errors_New "not found", Some 404%Z);
  GetDefaultBranch _ _ _ := inr "main";
  GetCommitSHA _ _ _ ref := inr ("commit-" +:+ ref);
  GetRepositoryInstallation _ _ _ := inr 7%Z;
  CreateInstallationToken _ _ := inr "token";
  GetPermissionLevel _ _ _ user := inr (if user == "alice" then "write" else "none")
|}.

Definition tree_ref : GitHubTreeRef := mkTreeRef "acme" "app" "main".
Definition go_only : TreeListOptions := mkTreeListOptions (Some (λ p, HasPrefix "og." (rev_string p))) 2 7.
End Fixture.

Section Witnesses.
Import Fixture.
#[local] Existing Instance api_client.
#[local] Instance no_text : Base64Errors := λ _, "illegal base64 data".

Lemma listing_budgeted_witness :
  foldr (λ e n, te_Size e + n)%Z 0%Z [entry_of (entry "file" "lib/b.go" 4 None); entry_of (entry "file" "a.go" 3 None)] = 7%Z
  ∧ (total_size [entry_of (entry "file" "lib/b.go" 4 None); entry_of (entry "file" "a.go" 3 None)] <= 7)%Z.
Proof.
  split; [reflexivity|].
  refine (proj2 (proj2 (listing_budgeted tree_ref go_only 2 0 _ 2 _)) _ _).
  - vm_compute. reflexivity.
  - cbn. lia.
  - repeat constructor; cbn; lia.
Defined.

Lemma listing_exact_witness :
  ∃ t', ListFiles 2 tree_ref go_only 0
    = Some (inr [entry_of (entry "file" "lib/b.go" 4 None); entry_of (entry "file" "a.go" 3 None)], t').
Proof.
  refine (listing_exact tree_ref go_only 2
    [entry_of (entry "file" "lib/b.go" 4 None); entry_of (entry "file" "a.go" 3 None)] 0 _ _ _ _).
  - intros ???. reflexivity.
  - vm_compute. reflexivity.
  - repeat constructor; cbn; lia.
  - vm_compute. reflexivity.
Defined.

Lemma read_file_sound_witness :
  ∃ file encoded, GetContents 0 "acme" "app" "a.go" "main" = inr (Some file, None)
    ∧ gc_Content file = Some encoded ∧ DecodeString encoded = Some "foo".
Proof.
  destruct (read_file_sound (mkFileRef "acme" "app" "main" "a.go") 0 "foo" (mkFileMetadata "a.go" "main" "sha-a.go" 3) 2)
    as (file & encoded & H1 & _ & _ & H2 & H3 & _); [vm_compute; reflexivity|].
  exists file, encoded. split_and!; assumption.
Defined.
End Witnesses.
