(* ===== verification/Authz.v ===== *)
(** * Repository authorization

    [internal/authz]: a principal may submit a scan of a repository only if the GitHub
    App can read it and the principal has a role in it.  The check asks GitHub three
    times; the port [RepoAuthorizer] is what the HTTP surface knows of it. *)

From S2P Require Import Prelude GoText GoErr Ingest.

(** The port, at a moment: [None] allows.
    go: internal/authz/authz.go#RepoAuthorizer *)
Class RepoAuthorizer := Authorize : nat → string → string → string → option error * nat.

(** go: internal/authz/bypass_authorizer.go#BypassAuthorizer *)
Record BypassAuthorizer := mkBypassAuthorizer { by_inner : RepoAuthorizer; by_owner : string; by_repo : string }.

(** The bypass of one exact repository.
    go: internal/authz/bypass_authorizer.go:26-31#Authorize *)
Definition bypass_Authorize (b : BypassAuthorizer) : RepoAuthorizer := λ t login owner repo,
  if (owner == by_owner b) && (repo == by_repo b) then (None, t)
  else @Authorize (by_inner b) t login owner repo.

(** go: internal/authz/repo_authorizer.go#recognizedRepoPermissions *)
Definition recognizedRepoPermissions : list string := ["admin"; "maintain"; "write"; "triage"; "read"].

(** go: internal/authz/repo_authorizer.go#isRecognizedRepoPermission *)
Definition isRecognizedRepoPermission (permission : string) : bool :=
  bool_decide (permission ∈ recognizedRepoPermissions).

Section GitHub.
Context {table : IsPrint} {client : GitHubClient}.
(** What [github.NewClient] says of a token: an error or nothing. *)
Context (permissionClient : string → option error).

Definition repo_name (owner repo : string) : string := owner +:+ "/" +:+ repo.

(** go: internal/authz/repo_authorizer.go:49-89#Authorize *)
Definition github_Authorize : RepoAuthorizer := λ t login owner repo,
  match ResolveInstallationID owner repo t with
  | (inl err, t) =>
      (Some (Wrap ("authz: resolving installation for " +:+ repo_name owner repo)
         (if errors_Is err GhErrNotFound then sentinel_error ErrNotAuthorized else err)), t)
  | (inr installationID, t) =>
      match InstallationToken installationID t with
      | (inl err, t) => (Some (Wrap ("authz: minting installation token for " +:+ repo_name owner repo) err), t)
      | (inr token, t) =>
          match permissionClient token with
          | Some err => (Some (Wrap "authz: building permission-check client" err), t)
          | None =>
              (match GetPermissionLevel t owner repo login with
               | inl (err, resp) =>
                   if bool_decide (resp = Some 404%Z)
                   then Some (Wrap ("authz: " +:+ login +:+ " has no relationship with " +:+ repo_name owner repo)
                                (sentinel_error ErrNotAuthorized))
                   else Some (Wrap ("authz: checking permission for " +:+ login +:+ " on " +:+ repo_name owner repo) err)
               | inr level =>
                   if isRecognizedRepoPermission level then None
                   else Some (Wrap ("authz: " +:+ login +:+ " has no recognized role in " +:+ repo_name owner repo
                          +:+ " (permission " +:+ quoted level +:+ ")") (sentinel_error ErrNotAuthorized))
               end, S t)
          end
      end
  end.

(** ** The policy *)

(** What the HTTP surface makes of the answer: submit, refuse for good, or try later. *)
Inductive verdict := Allowed | Denied | Unavailable.

Definition verdict_of (answer : option error) : verdict :=
  match answer with
  | None => Allowed
  | Some e => if errors_Is e ErrNotAuthorized then Denied else Unavailable
  end.

(** The policy, over the three questions asked of GitHub. *)
Definition policy (installation : ApiFailure + Z) (token : Z → ApiFailure + string)
    (permission : ApiFailure + string) : verdict :=
  match installation with
  | inl (_, Some 404%Z) => Denied
  | inl _ => Unavailable
  | inr id =>
      match token id with
      | inl _ => Unavailable
      | inr secret =>
          match permissionClient secret with
          | Some _ => Unavailable
          | None =>
              match permission with
              | inl (_, Some 404%Z) => Denied
              | inl _ => Unavailable
              | inr level =>
                  if existsb (String.eqb level) ["admin"; "maintain"; "write"; "triage"; "read"] then Allowed else Denied
              end
          end
      end
  end.

(** The API's own errors wrap none of the program's sentinels. *)
Definition plain (e : error) : Prop := errors_Is e ErrNotAuthorized = false ∧ errors_Is e GhErrNotFound = false.

Record plain_client : Prop := {
  plain_installation t owner repo f : GetRepositoryInstallation t owner repo = inl f → plain f.1;
  plain_token t id f : CreateInstallationToken t id = inl f → plain f.1;
  plain_permission t owner repo login f : GetPermissionLevel t owner repo login = inl f → plain f.1;
  plain_build token e : permissionClient token = Some e → plain e
}.

Lemma errors_Is_Wrap msg e s : errors_Is (Wrap msg e) s = errors_Is e s.
Proof. reflexivity. Qed.

Lemma mapCredentialAPIError_Is f action : plain f.1 →
  errors_Is (mapCredentialAPIError f action) ErrNotAuthorized = false
  ∧ (errors_Is (mapCredentialAPIError f action) GhErrNotFound = true ↔ f.2 = Some 404%Z).
Proof.
  destruct f as [err [status|]]; intros [H1 H2]; cbn [fst snd] in *; unfold mapCredentialAPIError; [|by rewrite !errors_Is_Wrap, H1, H2].
  destruct (Z.eqb_spec status 404) as [-> |Hn]; [done|].
  destruct ((status =? 401)%Z || (status =? 403)%Z); rewrite !errors_Is_Wrap; [split; [done|]|rewrite H1, H2; split; [done|]];
    (split; [done|by intros [=]]).
Qed.

Lemma recognized_existsb level :
  isRecognizedRepoPermission level = existsb (String.eqb level) ["admin"; "maintain"; "write"; "triage"; "read"].
Proof.
  unfold isRecognizedRepoPermission, recognizedRepoPermissions. apply eq_true_iff_eq.
  rewrite bool_decide_eq_true, existsb_exists. split.
  - intros H. exists level. split; [by apply list_elem_of_In|apply String.eqb_refl].
  - intros (x & Hx & ->%String.eqb_eq). by apply list_elem_of_In.
Qed.

(** C33: the three-call check is the policy: it allows exactly when GitHub knows the
    installation, mints its token and reports one of the five roles; an unknown
    repository, a principal without a relationship and an unrecognized role are denied;
    every other failure, a token that is not minted even with 404 included, is neither,
    so that nothing is allowed or refused for good by an outage. *)
Theorem authorization_policy t login owner repo :
  plain_client →
  verdict_of (fst (github_Authorize t login owner repo))
  = policy (GetRepositoryInstallation t owner repo) (CreateInstallationToken (S t))
      (GetPermissionLevel (S (S t)) owner repo login).
Proof.
  intros Hp. unfold github_Authorize, ResolveInstallationID, InstallationToken, policy.
  destruct (GetRepositoryInstallation t owner repo) as [[e resp]|id] eqn:Ei.
  { pose proof (plain_installation Hp _ _ _ _ Ei) as Hpl.
    destruct (mapCredentialAPIError_Is (e, resp) ("resolving installation for " +:+ owner +:+ "/" +:+ repo) Hpl) as [H1 H2].
    cbn [fst snd verdict_of] in *. rewrite errors_Is_Wrap. destruct (errors_Is _ GhErrNotFound).
    - assert (resp = Some 404%Z) as -> by (by apply H2). reflexivity.
    - rewrite H1. assert (resp ≠ Some 404%Z) as Hn by (intros E; apply H2 in E; discriminate).
      repeat case_match; congruence. }
  destruct (CreateInstallationToken (S t) id) as [[e resp]|secret] eqn:Et.
  { pose proof (plain_token Hp _ _ _ Et) as Hpl. cbn [fst verdict_of]. rewrite errors_Is_Wrap.
    by rewrite (proj1 (mapCredentialAPIError_Is _ _ Hpl)). }
  destruct (permissionClient secret) as [e|] eqn:Eb.
  { destruct (plain_build Hp _ _ Eb) as [H1 _]. cbn [fst verdict_of]. by rewrite errors_Is_Wrap, H1. }
  destruct (GetPermissionLevel (S (S t)) owner repo login) as [[e resp]|level] eqn:El; cbn [fst].
  - destruct (plain_permission Hp _ _ _ _ _ El) as [H1 _]. cbn [fst] in H1. case_bool_decide as E; [by subst|].
    cbn [verdict_of]. rewrite errors_Is_Wrap, H1. repeat case_match; congruence.
  - rewrite recognized_existsb. by destruct (existsb _ _).
Qed.
End GitHub.

Section Witness.
#[local] Instance api : GitHubClient := Fixture.api_client.
#[local] Instance no_table : IsPrint := λ _, false.

Lemma authorization_policy_witness :
  verdict_of (fst (github_Authorize (λ _, None) 0 "alice" "acme" "app")) = Allowed
  ∧ verdict_of (fst (github_Authorize (λ _, None) 0 "bob" "acme" "app")) = Denied.
Proof.
  split; (rewrite authorization_policy; [vm_compute; reflexivity|]).
  all: split; try (intros; vm_compute in *; congruence).
Defined.
End Witness.
