(* ===== verification/JobParams.v ===== *)
(** * The parameters of a baseline scan

    Submitted as JSON, stored by the HTTP surface in a canonical form
    ([internal/coachapi/job.go]) and read again by the worker
    ([internal/coachapi/baseline/params.go]). *)

From S2P Require Import Prelude GoText GoErr Json Utf8.

(** go: internal/coachapi/job.go#RepoBaselineScanParams *)
Record RepoBaselineScanParams := mkScanParams { sp_RepoOwner : string; sp_RepoName : string; sp_Ref : string }.

Definition no_params : RepoBaselineScanParams := mkScanParams "" "" "".

(** The fields of the struct, from an object's members. *)
Definition params_fields (cur : RepoBaselineScanParams) (ms : list (string * json)) :
    option RepoBaselineScanParams :=
  owner ← field dec_string (sp_RepoOwner cur) "repo_owner" ms;
  name ← field dec_string (sp_RepoName cur) "repo_name" ms;
  ref ← field dec_string (sp_Ref cur) "ref" ms;
  Some (mkScanParams owner name ref).

Definition params_names : list string := ["repo_owner"; "repo_name"; "ref"].

(** [json.Marshal] of the struct, [ref] left out when it is empty. *)
Definition params_json (p : RepoBaselineScanParams) : json :=
  JObject ([("repo_owner", JStr (sp_RepoOwner p)); ("repo_name", JStr (sp_RepoName p))]
           ++ (if sp_Ref p == "" then [] else [("ref", JStr (sp_Ref p))])).

(** ** Reading from a stream

    A [json.Decoder] reads the first value of the stream and leaves the rest unread;
    with [DisallowUnknownFields] a member no field of the struct takes is an error. *)

Definition Decode {A} (dec : Decoder A) (zero : A) (s : string) : option A :=
  match scan_value (S (2 * String.length s)) 0 (skip_ws s) with
  | Some (j, _) => dec zero j
  | None => None
  end.

Definition known (names : list string) (ms : list (string * json)) : bool :=
  forallb (λ m, existsb (λ n, key_is n m) names) ms.

Definition dec_struct_strict {A} (names : list string) (fields : A → list (string * json) → option A) : Decoder A :=
  dec_struct (λ cur ms, if known names ms then fields cur ms else None).

(** ** The worker's reading *)

(** The keys of an object read into a [map[string]json.RawMessage]; [null] is the nil map. *)
Definition object_keys (j : json) : option (list string) :=
  match j with
  | JNull => Some []
  | JObject ms => Some (map (λ m, unquote m.1) ms)
  | _ => None
  end.

Definition forbidden_keys : list string := ["git_url"; "clone_url"].

(** go: internal/coachapi/baseline/params.go#parseBaselineParams *)
Definition parseBaselineParams `{JsonErrors} (raw : RawMessage) : error + RepoBaselineScanParams :=
  let invalid target := errors_New ("coachapi: invalid baseline params: " +:+ json_error_text target raw) in
  if raw == "" then inl (errors_New "coachapi: baseline params are required") else
  match parse raw ≫= object_keys with
  | None => inl (invalid "map[string]json.RawMessage")
  | Some keys =>
      match List.find (λ k, bool_decide (k ∈ keys)) forbidden_keys with
      | Some forbidden =>
          inl (errors_New ("coachapi: client-supplied " +:+ forbidden +:+ " is not allowed in repo_baseline_scan params"))
      | None =>
          match Unmarshal (dec_struct params_fields) no_params raw with
          | None => inl (invalid "coachapi.RepoBaselineScanParams")
          | Some p =>
              let owner := TrimSpace (sp_RepoOwner p) in
              let name := TrimSpace (sp_RepoName p) in
              if (owner == "") || (name == "")
              then inl (errors_New "coachapi: repo_owner and repo_name are required")
              else inr (mkScanParams owner name (TrimSpace (sp_Ref p)))
          end
      end
  end.

(** ** What is stored is what the worker reads *)

Definition valid_params (p : RepoBaselineScanParams) : Prop :=
  valid_utf8 (sp_RepoOwner p) ∧ valid_utf8 (sp_RepoName p) ∧ valid_utf8 (sp_Ref p).

Lemma params_json_wf p : wf (params_json p) ∧ (depth (params_json p) <= 1)%N.
Proof.
  split.
  - apply wf_object. unfold params_json. apply list.Forall_app. split; [|destruct (sp_Ref p == "")];
      repeat constructor; try apply wf_JStr; by apply wf_raw_literal.
  - apply (depth_object_le _ 0). apply list.Forall_app. split; [|destruct (sp_Ref p == "")]; by repeat constructor.
Qed.

Lemma parse_params p : parse (print (params_json p)) = Some (params_json p).
Proof. destruct (params_json_wf p) as [Hw Hd]. apply parse_print; [done|]. unfold maxNestingDepth. lia. Qed.

Lemma params_fields_json p : valid_params p →
  dec_struct params_fields no_params (params_json p) = Some p.
Proof.
  destruct p as [owner name ref]. intros (H1 & H2 & H3). cbn in H1, H2, H3.
  unfold params_json, dec_struct, params_fields. cbn [sp_RepoOwner sp_RepoName sp_Ref no_params app].
  destruct (String.eqb_spec ref "") as [-> |Hn]; cbn [app]; read_fields;
    rewrite ?unquote_json_raw by done; read_fields; rewrite ?unquote_json_raw by done; read_fields;
    rewrite ?unquote_json_raw by done; reflexivity.
Qed.

Lemma print_params_nonempty p : (print (params_json p) == "") = false.
Proof. reflexivity. Qed.

(** The worker reads the canonical form of trimmed parameters as those parameters. *)
Lemma parse_canonical `{JsonErrors} p : valid_params p →
  TrimSpace (sp_RepoOwner p) = sp_RepoOwner p → TrimSpace (sp_RepoName p) = sp_RepoName p →
  sp_RepoOwner p ≠ "" → sp_RepoName p ≠ "" →
  parseBaselineParams (print (params_json p))
  = inr (mkScanParams (sp_RepoOwner p) (sp_RepoName p) (TrimSpace (sp_Ref p))).
Proof.
  intros Hv Ho Hn Hoe Hne. unfold parseBaselineParams, Unmarshal.
  rewrite print_params_nonempty, parse_params. cbn [mbind option_bind].
  assert (∃ keys, object_keys (params_json p) = Some keys
    ∧ List.find (λ k, bool_decide (k ∈ keys)) forbidden_keys = None) as (keys & -> & ->).
  { unfold params_json, object_keys. eexists. split; [done|].
    destruct (sp_Ref p == ""); vm_compute; reflexivity. }
  rewrite params_fields_json by done. rewrite Ho, Hn.
  apply String.eqb_neq in Hoe, Hne. by rewrite Hoe, Hne.
Qed.

(** A decoded string is valid UTF-8, whatever the request held. *)
Lemma field_string_valid init name ms v : valid_utf8 init → Forall (λ m, wf m.2) ms →
  field dec_string init name ms = Some v → valid_utf8 v.
Proof.
  intros Hi Hm. unfold field, members_of. revert init Hi. induction Hm as [|m ms Hw _ IH]; intros init Hi; cbn.
  { by intros [= <-]. }
  destruct (key_is name m); [|by apply IH]. cbn [map fold_left].
  destruct (dec_string init m.2) as [a|] eqn:Ed.
  - apply IH. destruct m as [k j]. cbn in *.
    destruct j; try discriminate Ed; injection Ed as <-; first [done|by apply unquote_valid].
  - clear. induction (map snd (List.filter (key_is name) ms)) as [|j l IHl]; [done|exact IHl].
Qed.

Lemma params_fields_valid cur ms p : valid_params cur → Forall (λ m, wf m.2) ms →
  params_fields cur ms = Some p → valid_params p.
Proof.
  intros (H1 & H2 & H3) Hm. unfold params_fields.
  destruct (field _ _ "repo_owner" _) as [o|] eqn:E1; [|done]. cbn.
  destruct (field _ _ "repo_name" _) as [n|] eqn:E2; [|done]. cbn.
  destruct (field _ _ "ref" _) as [r|] eqn:E3; [|done]. intros [= <-].
  split_and!; [exact (field_string_valid _ _ _ _ H1 Hm E1)|exact (field_string_valid _ _ _ _ H2 Hm E2)
    |exact (field_string_valid _ _ _ _ H3 Hm E3)].
Qed.

Lemma no_params_valid : valid_params no_params.
Proof. split_and!; constructor. Qed.

Lemma Decode_params_valid s p :
  Decode (dec_struct_strict params_names params_fields) no_params s = Some p → valid_params p.
Proof.
  unfold Decode. destruct (scan_value _ _ _) as [[j r]|] eqn:E; [|done].
  apply (proj1 (scan_sound _)) in E. destruct j; cbn; try done; [intros [= <-]; apply no_params_valid|].
  destruct (known _ _); [|done]. apply params_fields_valid; [apply no_params_valid|].
  destruct E as [Hw _]. apply wf_object in Hw. eapply list.Forall_impl; [exact Hw|]. by intros ? [_ ?].
Qed.
