(* ===== verification/HttpApi.v ===== *)
(** * The jobs HTTP surface

    [internal/coachapi/httpapi], with the API contract and the principal of
    [internal/coachapi]: submitting a scan, and reading a job and its report, over any
    job store, any task queue and any repository authorizer.  Requests reach the
    handlers with the principal the authentication middleware attached, if any, and with
    a clean path already split into unescaped segments, as [net/http] routes them. *)

From S2P Require Import Prelude GoOrder GoText GoErr Json Utf8 JobStore Worker Authz JobParams.

(** ** Contract *)

(** go: internal/coachapi/principal.go#Principal *)
Record Principal := mkPrincipal { pr_Provider : string; pr_Subject : string; pr_Login : string }.

(** go: internal/coachapi/api_contract.go#ErrorCodeUnauthenticated *)
Definition ErrorCodeUnauthenticated : string := "unauthenticated".
(** go: internal/coachapi/api_contract.go#ErrorCodeUnauthorized *)
Definition ErrorCodeUnauthorized : string := "unauthorized".
(** go: internal/coachapi/api_contract.go#ErrorCodeInvalidRequest *)
Definition ErrorCodeInvalidRequest : string := "invalid_request".
(** go: internal/coachapi/api_contract.go#ErrorCodeJobNotFound *)
Definition ErrorCodeJobNotFound : string := "job_not_found".
(** go: internal/coachapi/api_contract.go#ErrorCodeJobNotCompleted *)
Definition ErrorCodeJobNotCompleted : string := "job_not_completed".
(** go: internal/coachapi/api_contract.go#ErrorCodeUnsupportedJobKind *)
Definition ErrorCodeUnsupportedJobKind : string := "unsupported_job_kind".
(** go: internal/coachapi/api_contract.go#ErrorCodeRepoNotAuthorized *)
Definition ErrorCodeRepoNotAuthorized : string := "repo_not_authorized".
(** go: internal/coachapi/api_contract.go#ErrorCodeNotFound *)
Definition ErrorCodeNotFound : string := "not_found".
(** go: internal/coachapi/api_contract.go#ErrorCodeInternalError *)
Definition ErrorCodeInternalError : string := "internal_error".

(** go: internal/coachapi/job.go#JobKindRepoBaselineScan *)
Definition JobKindRepoBaselineScan : string := "repo_baseline_scan".

(** go: internal/coachapi/api_contract.go#CreateJobRequest *)
Record CreateJobRequest := mkCreateJobRequest { cjr_Kind : string; cjr_Params : RawMessage }.

(** go: internal/coachapi/api_contract.go#CreateJobResponse *)
Definition create_response_json (id : string) : json := JObject [("id", JStr id)].

(** go: internal/coachapi/api_contract.go#ErrorEnvelope *)
Definition envelope_json (code message : string) : json :=
  JObject [("error", JObject [("code", JStr code); ("message", JStr message)])].

(** go: internal/coachapi/api_contract.go#JobStatusResponse *)
Record JobStatusResponse := mkJobStatusResponse {
  jsr_ID : string; jsr_Kind : string; jsr_Status : string; jsr_Attempt : Z;
  jsr_Error : option string; jsr_ReportURL : string
}.

Definition status_response_json (r : JobStatusResponse) : json :=
  JObject ([("id", JStr (jsr_ID r)); ("kind", JStr (jsr_Kind r)); ("status", JStr (jsr_Status r));
            ("attempt", JNumber (Itoa (jsr_Attempt r))); ("error", opt_JStr (jsr_Error r))]
           ++ (if jsr_ReportURL r == "" then [] else [("report_url", JStr (jsr_ReportURL r))])).

(** ** Dates

    [Time.MarshalJSON] in UTC, in which the platform takes [generated_at]: years,
    months and days of the proleptic Gregorian calendar from year 1, and nanoseconds
    without their trailing zeros; a year past 9999 is an error. *)

Definition is_leap (y : Z) : bool := ((y mod 4 =? 0) && (negb (y mod 100 =? 0) || (y mod 400 =? 0)))%Z.

Definition month_lengths (leap : bool) : list Z :=
  [31; if leap then 29 else 28; 31; 30; 31; 30; 31; 31; 30; 31; 30; 31]%Z.

(** The month, from [m] on, and the day in it of day [d]. *)
Fixpoint month_day (m : Z) (lengths : list Z) (d : Z) : Z * Z :=
  match lengths with
  | [] => (m, d + 1)%Z
  | n :: lengths => if (d <? n)%Z then (m, d + 1)%Z else month_day (m + 1)%Z lengths (d - n)%Z
  end.

(** The date of day [d], counted from 1 January of year 1. *)
Definition civil (d : Z) : Z * Z * Z :=
  (let q400 := d / 146097 in let d := d mod 146097 in
   let q100 := Z.min 3 (d / 36524) in let d := d - q100 * 36524 in
   let q4 := d / 1461 in let d := d mod 1461 in
   let q1 := Z.min 3 (d / 365) in let d := d - q1 * 365 in
   let year := 400 * q400 + 100 * q100 + 4 * q4 + q1 + 1 in
   (year, fst (month_day 1 (month_lengths (is_leap year)) d), snd (month_day 1 (month_lengths (is_leap year)) d)))%Z.

(** The last [n] decimal digits of [z]. *)
Fixpoint pad (n : nat) (z : Z) : string :=
  match n with
  | O => ""
  | S n => pad n (z / 10)%Z +:+ String (byte_of (48 + Z.to_N (z mod 10))) ""
  end.

Definition fraction (nanos : Z) : string :=
  if (nanos =? 0)%Z then ""
  else "." +:+ rev_string (TrimLeftByte (byte_of 48) (rev_string (pad 9 nanos))).

Definition time_json (t : Time) : option json :=
  let secs := (t / 1000000000)%Z in
  let '(y, m, d) := civil (secs / 86400) in
  let s := (secs mod 86400)%Z in
  if (y <? 0)%Z || (9999 <? y)%Z then None
  else Some (JString (pad 4 y +:+ "-" +:+ pad 2 m +:+ "-" +:+ pad 2 d +:+ "T" +:+ pad 2 (s / 3600)%Z +:+ ":"
       +:+ pad 2 (s / 60 mod 60)%Z +:+ ":" +:+ pad 2 (s mod 60)%Z
       +:+ fraction (t mod 1000000000)%Z +:+ "Z")).

Example time_json_examples :
  map time_json [0; 63887529296500000000; 315537897600000000000]%Z
  = [Some (JString "0001-01-01T00:00:00Z"); Some (JString "2025-07-07T23:54:56.5Z"); None].
Proof. vm_compute. reflexivity. Qed.

(** ** The report on the wire *)

Definition opt_JInt (o : option Z) : json := match o with Some z => JNumber (Itoa z) | None => JNull end.

(** [json.Marshal] of a map sorts its keys. *)
Definition map_json {A} (f : A → json) (m : gmap string A) : json :=
  JObject (map (λ k, (json_raw k, default JNull (f <$> m !! k))) (sort_strings (map fst (map_to_list m)))).

Definition omit_none {A} (key : string) (f : A → json) (o : option A) : list (string * json) :=
  match o with Some x => [(key, f x)] | None => [] end.

(** go: internal/coachapi/report.go#ReportSummary *)
Definition summary_json (s : ReportSummary) : json :=
  JObject (("finding_counts", map_json (map_json (λ n, JNumber (Itoa n))) (rs_FindingCounts s))
    :: omit_none "pr_count" (λ n, JNumber (Itoa n)) (rs_PRCount s)
    ++ omit_none "pr_failed_count" (λ n, JNumber (Itoa n)) (rs_PRFailedCount s)).

(** go: internal/coachapi/report.go#ReportVersions *)
Definition versions_json (v : ReportVersions) : json :=
  JObject (("analyzer", JStr (rv_Analyzer v))
    :: (if decide (rv_Rubrics v = ∅) then [] else [("rubrics", map_json JStr (rv_Rubrics v))])).

(** go: internal/coachapi/report.go#Finding *)
Definition finding_json (f : Finding) : option json :=
  payload ← marshal_raw (fd_Payload f);
  Some (JObject [("source", JStr (fd_Source f)); ("rubric_id", opt_JStr (fd_RubricID f));
                 ("rubric_version", opt_JStr (fd_RubricVersion f)); ("model_identity", opt_JStr (fd_ModelIdentity f));
                 ("payload", payload)]).

(** go: internal/coachapi/report.go#Diagnostic *)
Definition diagnostic_json (d : Diagnostic) : json :=
  JObject [("scope", JStr (dia_Scope d)); ("message", JStr (dia_Message d))].

(** The lists and the counts are never null: they are values here.
    go: internal/coachapi/report.go#MarshalJSON *)
Definition Report_MarshalJSON (r : Report) : option json :=
  params ← marshal_raw (jr_Params r);
  findings ← mapM finding_json (jr_Findings r);
  at_ ← time_json (jr_GeneratedAt r);
  Some (JObject [("report_version", JStr (jr_ReportVersion r)); ("job_id", JStr (jr_JobID r));
                 ("kind", JStr (jr_Kind r)); ("params", params); ("commit_sha", JStr (jr_CommitSHA r));
                 ("summary", summary_json (jr_Summary r)); ("findings", JArray findings);
                 ("diagnostics", JArray (map diagnostic_json (jr_Diagnostics r)));
                 ("error", opt_JStr (jr_Error r)); ("versions", versions_json (jr_Versions r));
                 ("generated_at", at_)]).

(** ** Responses *)

Record Response := mkResponse { rs_Status : Z; rs_ContentType : string; rs_Body : string }.

(** [json.Encoder.Encode] writes the value and a line end, or nothing when the value
    cannot be marshalled; its error is dropped.
    go: internal/coachapi/httpapi/server.go#writeJSON *)
Definition writeJSON (status : Z) (v : option json) : Response :=
  mkResponse status "application/json" (match v with Some j => print j +:+ newline | None => "" end).

(** go: internal/coachapi/httpapi/server.go#writeAPIError *)
Definition writeAPIError (status : Z) (code message : string) : Response :=
  writeJSON status (Some (envelope_json code message)).

(** go: internal/coachapi/httpapi/server.go#ownsJob *)
Definition ownsJob (principal : Principal) (job : Job) : bool :=
  (pr_Provider principal == job_CreatedByProvider job) && (pr_Subject principal == job_CreatedBySubject job).

(** What the constructor requires of its configuration.
    go: internal/coachapi/httpapi/server.go:39-48#NewServer *)
Definition checkServerConfig (store authorizer queue : bool) : option error :=
  if negb store then Some (errors_New "coachapi: ServerConfig.Store is required")
  else if negb authorizer then Some (errors_New "coachapi: ServerConfig.Authorizer is required")
  else if negb queue then Some (errors_New "coachapi: ServerConfig.Queue is required")
  else None.

(** ** Requests *)

Definition request_fields (cur : CreateJobRequest) (ms : list (string * json)) : option CreateJobRequest :=
  kind ← field dec_string (cjr_Kind cur) "kind" ms;
  params ← field dec_raw (cjr_Params cur) "params" ms;
  Some (mkCreateJobRequest kind params).

Definition read_request (body : string) : option CreateJobRequest :=
  Decode (dec_struct_strict ["kind"; "params"] request_fields) (mkCreateJobRequest "" "") body.

Definition read_params (raw : RawMessage) : option RepoBaselineScanParams :=
  Decode (dec_struct_strict params_names params_fields) no_params raw.

Record Request := mkRequest {
  rq_Method : string; rq_Segments : list string; rq_Body : string; rq_Principal : option Principal
}.

(** ** The server *)

(** go: internal/coachapi/httpapi/get_job.go:33-42#handleGetJob *)
Definition status_view (id : string) (job : Job) : JobStatusResponse :=
  mkJobStatusResponse (job_ID job) (job_Kind job) (job_Status job) (job_Attempt job) (job_Error job)
    (if job_Status job == JobStatusCompleted then "/v1/jobs/" +:+ id +:+ "/report" else "").

(** The row of a submitted job.
    go: internal/coachapi/httpapi/create_job.go:70-80#handleCreateJob *)
Definition submitted_job (id kind : string) (params : RepoBaselineScanParams) (now : Time) (principal : Principal) : Job :=
  mkJob id kind (print (params_json params)) JobStatusQueued None now None None None None 0
    (pr_Provider principal) (pr_Subject principal) (pr_Login principal).

Section Server.
Context {table : IsPrint} {S Q : Type} {store : WorkerJobStore S} {queue : TaskQueue Q} {authorizer : RepoAuthorizer}.
(** The ids the source of fresh job ids gives, one after the other. *)
Context (newJobID : nat → string).

(** The server's world: the worker's, with its store, queue and clock; the moment of the
    next question to the authorizer; and how many ids were taken. *)
Record api_world := mkApiWorld { aw_base : @world S Q; aw_moment : nat; aw_ids : nat }.

Definition A (X : Type) : Type := api_world → api_world * X.
#[local] Instance A_ret : MRet A := λ X x w, (w, x).
#[local] Instance A_bind : MBind A := λ X Y f m w, let '(w', x) := m w in f x w'.

(** A step of the worker's world. *)
Definition lift {X} (m : @M S Q X) : A X := λ w,
  let '(b, x) := m (aw_base w) in (mkApiWorld b (aw_moment w) (aw_ids w), x).

Definition authorize (login owner repo : string) : A (option error) := λ w,
  let '(answer, t) := Authorize (aw_moment w) login owner repo in (mkApiWorld (aw_base w) t (aw_ids w), answer).

Definition freshID : A string := λ w,
  (mkApiWorld (aw_base w) (aw_moment w) (Datatypes.S (aw_ids w)), newJobID (aw_ids w)).

(** The marshalling of the parameters and of the payload cannot fail: both are strings
    and numbers.
    go: internal/coachapi/httpapi/create_job.go#handleCreateJob *)
Definition handleCreateJob (principal : option Principal) (body : string) : A Response :=
  match principal with
  | None => mret (writeAPIError 401 ErrorCodeUnauthenticated "unauthenticated")
  | Some principal =>
  match read_request body with
  | None => mret (writeAPIError 400 ErrorCodeInvalidRequest "invalid request body")
  | Some req =>
  if cjr_Kind req != JobKindRepoBaselineScan
  then mret (writeAPIError 400 ErrorCodeUnsupportedJobKind ("unsupported job kind " +:+ quoted (cjr_Kind req)))
  else
  match read_params (cjr_Params req) with
  | None => mret (writeAPIError 400 ErrorCodeInvalidRequest "invalid params for repo_baseline_scan")
  | Some params =>
  let params := mkScanParams (TrimSpace (sp_RepoOwner params)) (TrimSpace (sp_RepoName params)) (sp_Ref params) in
  if (sp_RepoOwner params == "") || (sp_RepoName params == "")
  then mret (writeAPIError 400 ErrorCodeInvalidRequest "repo_owner and repo_name are required")
  else
  answer ← authorize (pr_Login principal) (sp_RepoOwner params) (sp_RepoName params);
  match answer with
  | Some err =>
      if errors_Is err ErrNotAuthorized
      then mret (writeAPIError 403 ErrorCodeRepoNotAuthorized
             ("you have no role in this repository, or the Coach GitHub App is not installed on it; "
              +:+ "public repositories with no assigned role are deliberately denied"))
      else mret (writeAPIError 503 ErrorCodeInternalError "authorization check temporarily unavailable")
  | None =>
  id ← freshID;
  now ← lift Now;
  err ← lift (on_store (λ s, CreateJob s (submitted_job id (cjr_Kind req) params now principal)));
  match err with
  | Some _ => mret (writeAPIError 503 ErrorCodeInternalError "failed to persist job")
  | None =>
  err ← lift (on_queue (λ q, Enqueue q (mkTask id (MarshalTaskPayload id))));
  match err with
  | Some _ => mret (writeAPIError 503 ErrorCodeInternalError "failed to enqueue job; it remains queued")
  | None => mret (writeJSON 202 (Some (create_response_json id)))
  end end end end end end.

(** The job, for a principal that may see it, or the response that says no.
    go: internal/coachapi/httpapi/get_job.go:11-29#handleGetJob *)
Definition load_own_job (principal : option Principal) (id : string) : A (Response + Job) :=
  match principal with
  | None => mret (inl (writeAPIError 401 ErrorCodeUnauthenticated "unauthenticated"))
  | Some principal =>
      found ← lift (read_store (λ s, GetJob s id));
      match found with
      | inl err =>
          if errors_Is err ErrJobNotFound then mret (inl (writeAPIError 404 ErrorCodeJobNotFound "job not found"))
          else mret (inl (writeAPIError 503 ErrorCodeInternalError "failed to load job"))
      | inr job =>
          if ownsJob principal job then mret (inr job)
          else mret (inl (writeAPIError 403 ErrorCodeUnauthorized "you are not authorized to view this job"))
      end
  end.

(** go: internal/coachapi/httpapi/get_job.go#handleGetJob *)
Definition handleGetJob (principal : option Principal) (id : string) : A Response :=
  loaded ← load_own_job principal id;
  match loaded with
  | inl refusal => mret refusal
  | inr job => mret (writeJSON 200 (Some (status_response_json (status_view id job))))
  end.

(** go: internal/coachapi/httpapi/get_report.go#handleGetReport *)
Definition handleGetReport (principal : option Principal) (id : string) : A Response :=
  loaded ← load_own_job principal id;
  match loaded with
  | inl refusal => mret refusal
  | inr job =>
      if job_Status job != JobStatusCompleted
      then mret (writeAPIError 409 ErrorCodeJobNotCompleted
             ("job is not yet completed (status: " +:+ job_Status job +:+ ")"))
      else
        report ← lift (read_store (λ s, GetReport s id));
        match report with
        | inl _ => mret (writeAPIError 503 ErrorCodeInternalError "failed to load report")
        | inr report => mret (writeJSON 200 (Report_MarshalJSON report))
        end
  end.

(** A [GET] pattern also takes [HEAD]; an [{id}] segment is not empty; everything else
    falls to the last pattern.
    go: internal/coachapi/httpapi/server.go#Handler *)
Definition Handler (req : Request) : A Response :=
  let get := (rq_Method req == "GET") || (rq_Method req == "HEAD") in
  let not_found := mret (writeAPIError 404 ErrorCodeNotFound "not found") in
  match rq_Segments req with
  | ["v1"; "jobs"] => if rq_Method req == "POST" then handleCreateJob (rq_Principal req) (rq_Body req) else not_found
  | ["v1"; "jobs"; id] => if get && (id != "") then handleGetJob (rq_Principal req) id else not_found
  | ["v1"; "jobs"; id; "report"] => if get && (id != "") then handleGetReport (rq_Principal req) id else not_found
  | _ => not_found
  end.
End Server.

(** ** Submitting *)

Lemma read_params_valid raw p : read_params raw = Some p → valid_params p.
Proof. apply Decode_params_valid. Qed.

(** Trimmed parameters, stored in canonical form, are what the worker reads. *)
Lemma stored_params `{JsonErrors} p : valid_params p →
  TrimSpace (sp_RepoOwner p) ≠ "" → TrimSpace (sp_RepoName p) ≠ "" →
  parseBaselineParams (print (params_json (mkScanParams (TrimSpace (sp_RepoOwner p)) (TrimSpace (sp_RepoName p)) (sp_Ref p))))
  = inr (mkScanParams (TrimSpace (sp_RepoOwner p)) (TrimSpace (sp_RepoName p)) (TrimSpace (sp_Ref p))).
Proof.
  intros (H1 & H2 & H3) Ho Hn. apply (parse_canonical (mkScanParams _ _ _)); cbn; try done.
  - split_and!; [by apply TrimSpace_valid..|done].
  - apply TrimSpace_idem.
  - apply TrimSpace_idem.
Qed.

Section Submission.
Context {table : IsPrint} {S Q : Type} {store : WorkerJobStore S} {queue : TaskQueue Q} {authorizer : RepoAuthorizer}.
Context `{JsonErrors} (newJobID : nat → string).

(** What a submission that passed every check did to the world: one job row, of the
    authorized repository, and then one message, in this order. *)
Record submitted (p : Principal) (w w' : @api_world S Q) (resp : Response) (params : RepoBaselineScanParams) : Prop := {
  su_authorized : fst (Authorize (aw_moment w) (pr_Login p) (sp_RepoOwner params) (sp_RepoName params)) = None;
  su_worker : parseBaselineParams (print (params_json params))
    = inr (mkScanParams (sp_RepoOwner params) (sp_RepoName params) (TrimSpace (sp_Ref params)));
  su_effects :
    let id := newJobID (aw_ids w) in let b := aw_base w in
    let job := submitted_job id JobKindRepoBaselineScan params (w_clock b (w_ticks b)) p in
    let '(s, failed) := CreateJob (w_env b (w_calls b) (w_store b)) job in
    w_store (aw_base w') = s
    ∧ match failed with
      | Some _ => rs_Status resp = 503%Z ∧ w_queue (aw_base w') = w_queue b
      | None =>
          let '(q, failed) := Enqueue (w_queue b) (mkTask id (MarshalTaskPayload id)) in
          w_queue (aw_base w') = q
          ∧ match failed with
            | Some _ => rs_Status resp = 503%Z
            | None => resp = writeJSON 202 (Some (create_response_json id))
            end
      end
}.

Lemma submission_outcome principal body w w' resp :
  handleCreateJob newJobID principal body w = (w', resp) →
  (aw_base w' = aw_base w ∧ rs_Status resp ∈ [400; 401; 403; 503]%Z)
  ∨ ∃ p params, principal = Some p ∧ submitted p w w' resp params.
Proof.
  unfold handleCreateJob. destruct principal as [p|].
  2:{ intros [= <- <-]. left. split; [done|]. cbn. set_solver. }
  destruct (read_request body) as [req|]; [|intros [= <- <-]; left; split; [done|cbn; set_solver]].
  destruct (cjr_Kind req != JobKindRepoBaselineScan) eqn:Ek; [intros [= <- <-]; left; split; [done|cbn; set_solver]|].
  apply negb_false_iff, String.eqb_eq in Ek.
  destruct (read_params (cjr_Params req)) as [params|] eqn:Ep; [|intros [= <- <-]; left; split; [done|cbn; set_solver]].
  cbv zeta. cbn [sp_RepoOwner sp_RepoName sp_Ref].
  destruct (_ || _) eqn:Ee; [intros [= <- <-]; left; split; [done|cbn; set_solver]|].
  apply orb_false_iff in Ee as [Eo%String.eqb_neq En%String.eqb_neq].
  unfold mbind, A_bind, authorize. destruct (Authorize _ _ _ _) as [[err|] t] eqn:Ea.
  { destruct (errors_Is err _); intros [= <- <-]; left; (split; [done|cbn; set_solver]). }
  intros E. right. exists p, (mkScanParams (TrimSpace (sp_RepoOwner params)) (TrimSpace (sp_RepoName params)) (sp_Ref params)).
  split; [done|]. split.
  - exact (f_equal fst Ea).
  - apply (stored_params params); [by eapply read_params_valid|done|done].
  - revert E. unfold freshID, lift, Now, on_store, on_queue. cbn. rewrite Ek.
    destruct (CreateJob _ _) as [s [e|]]; cbn; [by intros [= <- <-]|].
    destruct (Enqueue _ _) as [q [e|]]; cbn; by intros [= <- <-].
Qed.

End Submission.

(** ** Reading *)

Section Reading.
Context {table : IsPrint} {Q : Type} {queue : TaskQueue Q} {authorizer : RepoAuthorizer}.
Context (unmarshalRuleID : string → option string).
#[local] Instance mem : WorkerJobStore Store := memory_store unmarshalRuleID.

(** Nobody else calls the store while the request is served. *)
Definition quiet (w : @api_world Store Q) : Prop := ∀ n s, w_env (aw_base w) n s = s.

Definition stored (w : @api_world Store Q) : Store := w_store (aw_base w).

(** The answers an owner and another principal get about a job. *)
Definition view_status (p : Principal) (j : Job) : Z := if ownsJob p j then 200 else 403.
Definition report_status (p : Principal) (j : Job) : Z :=
  if ownsJob p j then if job_Status j == JobStatusCompleted then 200%Z else 409%Z else 403%Z.

Lemma load_own_job_eq p id w : quiet w → 
  ∃ w', stored w' = stored w ∧ quiet w' ∧
  load_own_job (Some p) id w =
    (w', match stored w !! id with
         | None => inl (writeAPIError 404 ErrorCodeJobNotFound "job not found")
         | Some r => if ownsJob p (rec_job r) then inr (rec_job r)
                     else inl (writeAPIError 403 ErrorCodeUnauthorized "you are not authorized to view this job")
         end).
Proof.
  intros Hq. unfold load_own_job, mbind, A_bind, lift, read_store, on_store.
  cbn [GetJob mem memory_store]. unfold Memory.GetJob. rewrite Hq. fold (stored w).
  eexists. split; [|split]; [..|destruct (stored w !! id) as [r|]; [by destruct (ownsJob p (rec_job r))|done]].
  - done.
  - intros n s. apply Hq.
Qed.

Lemma views_exact p id w r : quiet w → stored w !! id = Some r →
  rs_Status (snd (handleGetJob (Some p) id w)) = view_status p (rec_job r)
  ∧ stored (fst (handleGetJob (Some p) id w)) = stored w.
Proof.
  intros Hq Hr. destruct (load_own_job_eq p id w Hq) as (w' & Hs & _ & E).
  unfold handleGetJob, mbind, A_bind. rewrite E, Hr. unfold view_status.
  by destruct (ownsJob p (rec_job r)).
Qed.

Lemma reports_exact p id w r : quiet w → stored w !! id = Some r →
  (job_Status (rec_job r) = JobStatusCompleted → rec_completed r = true) →
  rs_Status (snd (handleGetReport (Some p) id w)) = report_status p (rec_job r)
  ∧ stored (fst (handleGetReport (Some p) id w)) = stored w.
Proof.
  intros Hq Hr Hc. destruct (load_own_job_eq p id w Hq) as (w' & Hs & Hq' & E).
  unfold handleGetReport, mbind, A_bind. rewrite E, Hr. unfold report_status.
  destruct (ownsJob p (rec_job r)); [|done]. destruct (String.eqb_spec (job_Status (rec_job r)) JobStatusCompleted); [|done].
  cbn [negb]. unfold lift, read_store, on_store. cbn [GetReport mem memory_store]. rewrite Hq'. fold (stored w').
  unfold Memory.GetReport. rewrite Hs, Hr, Hc by done. by split.
Qed.

Lemma completed_has_report id r : record_wf id r → job_Status (rec_job r) = JobStatusCompleted → rec_completed r = true.
Proof.
  intros (_ & Hj & _) E. destruct Hj as [(E' & _)|[(E' & _)|[(_ & _ & _ & Hc)|(E' & _)]]]; try (rewrite E in E'; discriminate). done.
Qed.

Lemma reachable_wf ops id r : Forall op_ok ops → run_ops NewStore ops !! id = Some r → record_wf id r.
Proof.
  intros Hops. apply (run_ops_ind (λ o, ∀ x, o = Some x → record_wf id x) op_ok id);
    [|done|intros x Hx; unfold NewStore, Store in Hx; by rewrite lookup_empty in Hx].
  intros o r0 r' Ho H Ht. by eapply record_wf_step.
Qed.


(** *** The submitter *)

(** What identifies a row never changes. *)
Definition same_job (j j' : Job) : Prop :=
  job_ID j' = job_ID j ∧ job_Kind j' = job_Kind j ∧ job_Params j' = job_Params j
  ∧ job_CreatedAt j' = job_CreatedAt j ∧ job_CreatedByProvider j' = job_CreatedByProvider j
  ∧ job_CreatedBySubject j' = job_CreatedBySubject j ∧ job_CreatedByLogin j' = job_CreatedByLogin j.

Lemma same_job_step id o r r' j : transition id o r r' →
  (∃ x, r = Some x ∧ same_job j (rec_job x)) → ∃ x, r' = Some x ∧ same_job j (rec_job x).
Proof.
  intros Ht (x & E & Hj). destruct Ht as [|j' Hj'|c r|msg t r|w now st r Hc|o w a r Hl Hf|now st r Hs];
    [by exists x|done|..]; injection E as ->; eexists; (split; [done|]); cbn; try done.
  destruct o; try discriminate; done.
Qed.

Lemma same_job_run m ops id r : m !! id = Some r →
  ∃ r', run_ops m ops !! id = Some r' ∧ same_job (rec_job r) (rec_job r').
Proof.
  intros Hr. apply (run_ops_ind (λ o, ∃ x, o = Some x ∧ same_job (rec_job r) (rec_job x)) (λ _, True) id).
  - intros o r0 r' _ H Ht. by eapply same_job_step.
  - by apply list.Forall_true.
  - by exists r.
Qed.

(** A submission answered with 202 can be followed by its submitter and by nobody
    else: the answer names a job, and whatever calls any workers, reconcilers and other
    requests make of the store afterwards, reading that job answers 200 to the
    principals with the submitter's provider and subject and 403 to all others, and it
    is still the scan with the parameters that were authorized. *)
Theorem submitted_job_access newJobID p body w w' resp ops q v :
  handleCreateJob newJobID (Some p) body w = (w', resp) → rs_Status resp = 202%Z →
  quiet v → stored v = run_ops (stored w') ops →
  let id := newJobID (aw_ids w) in
  resp = writeJSON 202 (Some (create_response_json id))
  ∧ ∃ params r, fst (Authorize (aw_moment w) (pr_Login p) (sp_RepoOwner params) (sp_RepoName params)) = None
    ∧ stored v !! id = Some r ∧ job_Params (rec_job r) = print (params_json params)
    ∧ rs_Status (snd (handleGetJob (Some q) id v))
      = if (pr_Provider q == pr_Provider p) && (pr_Subject q == pr_Subject p) then 200%Z else 403%Z.
Proof.
  intros Hc H202 Hq Hv. pose proof (@submission_outcome _ _ _ mem _ _ (λ _ _, "") newJobID _ _ _ _ _ Hc) as Ho.
  destruct Ho as [[_ Hin]|(p' & params & [= <-] & [Ha _ He])].
  { rewrite H202 in Hin. exfalso. revert Hin. apply (bool_decide_unpack _). vm_compute. exact I. }
  cbv zeta in He. set (id := newJobID (aw_ids w)) in *. set (job := submitted_job _ _ _ _ _) in *.
  cbn [CreateJob mem memory_store] in He. unfold Memory.CreateJob in He.
  destruct (_ !! job_ID job) eqn:El; [destruct He as (_ & H503 & _); rewrite H503 in H202; discriminate|].
  destruct He as [Hs He]. destruct (Enqueue _ _) as [q' [e|]]; [destruct He as [_ H503]; rewrite H503 in H202; discriminate|].
  destruct He as [_ Hresp]. destruct (same_job_run (stored w') ops id (fresh_record job)) as (r & Hr & Hsame).
  { unfold stored. rewrite Hs. apply store_eq. }
  rewrite <- Hv in Hr. destruct Hsame as (_ & _ & Hp & _ & E1 & E2 & _). split; [done|].
  exists params, r. split_and!; [done|done|by rewrite Hp|].
  destruct (views_exact q id v r Hq Hr) as [-> _]. unfold view_status, ownsJob. by rewrite E1, E2.
Qed.
End Reading.

(** ** Witnesses *)

Module Example.
#[local] Existing Instance ascii_table.

Definition alice : Principal := mkPrincipal "github" "1" "alice".
Definition bob : Principal := mkPrincipal "github" "2" "bob".

(** Alice may submit scans of one repository. *)
#[export] Instance one_repo : RepoAuthorizer := λ t login owner repo,
  (if (login == "alice") && (owner == "acme") && (repo == "app") then None
   else Some (sentinel_error ErrNotAuthorized), S t).

#[export] Instance task_log : TaskQueue (list Task) := {
  Enqueue q t := (q ++ [t], None);
  ClaimTask q := (q, inr None);
  Complete q _ := (q, None);
  Nack q _ _ := (q, None)
}.

#[export] Instance no_json_text : JsonErrors := λ _ _, "".
#[export] Instance memory : WorkerJobStore Store := memory_store (λ _, None).

Definition at_store (s : Store) : @api_world Store (list Task) :=
  mkApiWorld (mkWorld s [] (λ _, 5%Z) 0 (λ _ s, s) 0) 0 0.

Definition body : string :=
  jtext "{'kind':'repo_baseline_scan','params':{'Repo_Owner':' acme ','repo_name':'app'}} trailing".

Definition job_id (n : nat) : string := "job-" +:+ Itoa (Z.of_nat n).

Definition after : @api_world Store (list Task) := fst (handleCreateJob job_id (Some alice) body (at_store NewStore)).

(** The job and its one message, and the answers to requests that are refused. *)
Example submit_examples :
  (rs_Body (snd (handleCreateJob job_id (Some alice) body (at_store NewStore))), map task_ID (w_queue (aw_base after)),
   option_map (λ r, job_Params (rec_job r)) (w_store (aw_base after) !! "job-0"),
   map (λ '(p, b), rs_Status (snd (handleCreateJob job_id p b (at_store NewStore))))
     [(None, body); (Some bob, body); (Some alice, "{"); (Some alice, jtext "{'kind':'x'}");
      (Some alice, jtext "{'kind':'repo_baseline_scan','params':{'clone_url':'x'}}")])
  = (jtext "{'id':'job-0'}" +:+ newline, ["job-0"], Some (jtext "{'repo_owner':'acme','repo_name':'app'}"),
     [401; 403; 400; 400; 400]%Z).
Proof. vm_compute. reflexivity. Qed.


Definition history : list op := [OpCreateJob (example_job "j")].


Lemma submitted_job_access_witness :
  ∃ r, run_ops (w_store (aw_base after)) [OpClaimJob "job-0" "w" 9%Z 1%Z] !! "job-0" = Some r
    ∧ job_Status (rec_job r) = JobStatusRunning
    ∧ rs_Status (snd (handleGetJob (Some bob) "job-0"
        (at_store (run_ops (w_store (aw_base after)) [OpClaimJob "job-0" "w" 9%Z 1%Z])))) = 403%Z.
Proof.
  set (v := at_store (run_ops (w_store (aw_base after)) [OpClaimJob "job-0" "w" 9%Z 1%Z])).
  destruct (submitted_job_access (λ _, None) job_id alice body (at_store NewStore) after
    (writeJSON 202 (Some (create_response_json "job-0"))) [OpClaimJob "job-0" "w" 9%Z 1%Z] bob v)
    as (_ & params & r & _ & Hr & _ & Hb).
  - vm_compute. reflexivity.
  - reflexivity.
  - intros n s. reflexivity.
  - reflexivity.
  - exists r. split; [exact Hr|]. split; [|exact Hb].
    revert Hr. vm_compute. intros [= <-]. reflexivity.
Defined.
End Example.
