(* ===== verification/Authn.v ===== *)
(** * Authentication

    [internal/authn]: the tokens of the API, their revocation, the middleware that turns
    a bearer token into a principal, and the GitHub sign-in that hands tokens out.

    The denylist and the store of sign-in states are interfaces, each with the in-memory
    implementation of the package as an instance; signing and parsing a token is a library
    ([JwtLibrary]), of which [JwtLaws] states what its documentation promises.  Time,
    random bytes and the answers of GitHub are functions of a moment, which every
    question to them moves on. *)

From Stdlib Require Import Ascii.
From stdpp Require Import gmap.
From S2P Require Import Prelude GoOrder GoText GoHash GoErr Json Gateway JobParams HttpApi.

(** ** [tokens.go] *)

(** go: internal/authn/tokens.go#Claims *)
Record Claims := mkClaims {
  cl_Provider : string; cl_Subject : string; cl_Login : string; cl_Issuer : string; cl_ExpiresAt : Time; cl_ID : string
}.

(** The claims on the wire; a date that is left out is nil.

    go: internal/authn/tokens.go#coachClaims *)
Record coachClaims := mkCoachClaims {
  cc_Provider : string; cc_Login : string; cc_Issuer : string; cc_Subject : string; cc_ID : string;
  cc_IssuedAt : option Time; cc_ExpiresAt : option Time; cc_NotBefore : option Time
}.

(** The token library: dates as it writes them; a token signed by HS256 under a key; and
    the claims of a token with whether it is valid, given the algorithms allowed, when
    they are restricted, and the key for the algorithm the token names.  Its own checks of
    the claims are off. *)
Class JwtLibrary := {
  NewNumericDate : Time → Time;
  SignedString : string → coachClaims → error + string;
  ParseWithClaims : option (list string) → (string → error + string) → string → error + coachClaims * bool
}.

Definition valid_claims (c : coachClaims) : Prop :=
  valid_utf8 (cc_Provider c) ∧ valid_utf8 (cc_Login c) ∧ valid_utf8 (cc_Issuer c) ∧ valid_utf8 (cc_Subject c) ∧ valid_utf8 (cc_ID c).

(** A date the library writes back as it read it. *)
Definition whole_dates `{JwtLibrary} (c : coachClaims) : Prop :=
  ∀ d, Some d ∈ [cc_IssuedAt c; cc_ExpiresAt c; cc_NotBefore c] → NewNumericDate d = d.

Definition method_allowed (methods : option (list string)) (alg : string) : Prop :=
  match methods with Some l => alg ∈ l | None => True end.

(** Dates are cut to the second; a token is parsed back under its key; and a token that is
    said to be valid was checked ([verified alg key token claims]) under an allowed
    algorithm with the key that was given for it. *)
Class JwtLaws (lib : JwtLibrary) (verified : string → string → string → coachClaims → Prop) : Prop := {
  jwt_date t : NewNumericDate t = (t `div` Second * Second)%Z;
  jwt_parses key c token methods keyFunc :
    valid_claims c → whole_dates c → SignedString key c = inr token →
    method_allowed methods "HS256" → keyFunc "HS256" = inr key →
    ParseWithClaims methods keyFunc token = inr (c, true);
  jwt_verified methods keyFunc token c : ParseWithClaims methods keyFunc token = inr (c, true) →
    ∃ alg key, method_allowed methods alg ∧ keyFunc alg = inr key ∧ verified alg key token c
}.

(** ** [denylist.go], [oauth_state.go] *)

(** go: internal/authn/denylist.go:9-15#Denylist *)
Class Denylist (D : Type) := {
  IsRevoked : string → D → D * (error + bool);
  dl_Revoke : string → Time → D → D * option error
}.

(** go: internal/authn/denylist.go#MemoryDenylist *)
Definition MemoryDenylist : Type := gmap string Time.

(** go: internal/authn/denylist.go#NewMemoryDenylist *)
Definition NewMemoryDenylist : MemoryDenylist := ∅.

(** go: internal/authn/denylist.go:28-42#IsRevoked *)
Definition memory_denylist : Denylist MemoryDenylist := {|
  IsRevoked jti m := (m, inr (bool_decide (is_Some (m !! jti))));
  dl_Revoke jti exp m := (<[jti := exp]> m, None)
|}.

(** go: internal/authn/oauth_state.go:9-16#OAuthStateStore *)
Class OAuthStateStore (O : Type) := {
  Save : string → Time → O → O * option error;
  Consume : string → Time → O → O * (error + bool)
}.

(** go: internal/authn/oauth_state.go#MemoryOAuthState *)
Definition MemoryOAuthState : Type := gmap string Time.

(** go: internal/authn/oauth_state.go#NewMemoryOAuthState *)
Definition NewMemoryOAuthState : MemoryOAuthState := ∅.

Definition After (t u : Time) : bool := (u <? t)%Z.

(** go: internal/authn/oauth_state.go:29-50#Consume *)
Definition memory_states : OAuthStateStore MemoryOAuthState := {|
  Save state expiresAt m := (<[state := expiresAt]> m, None);
  Consume state now m :=
    match m !! state with
    | None => (m, inr false)
    | Some exp => (delete state m, inr (if negb (After exp now) then false else true))
    end
|}.

(** ** [service.go] *)

(** The transport of a configuration: its own client, or the default with its timeout. *)
Inductive Client := OwnClient | DefaultClient (timeout : Duration).

(** go: internal/authn/github_oauth.go#GitHubOAuthConfig *)
Record GitHubOAuthConfig := mkGitHubOAuthConfig {
  gc_ClientID : string; gc_ClientSecret : string; gc_BaseURL : string; gc_APIBaseURL : string;
  gc_RedirectURI : string; gc_HTTPClient : bool
}.

(** For a clock and for each store, whether one was given.

    go: internal/authn/service.go#Options *)
Record Options := mkOptions {
  op_SigningKey : string; op_Issuer : string; op_TokenTTL : Duration; op_Now : bool; op_Denylist : bool;
  op_TestMintEnabled : bool; op_GitHubOAuth : option GitHubOAuthConfig; op_OAuthState : bool; op_OAuthStateTTL : Duration
}.

(** A store of a service: none, the one that was given, or the in-memory one. *)
Inductive Chosen := NoStore | Given | InMemory.

(** go: internal/authn/service.go#Service *)
Record Service := mkService {
  sv_key : string; sv_issuer : string; sv_ttl : Duration; sv_system_clock : bool; sv_denylist : Chosen;
  sv_testMintEnabled : bool; sv_githubOAuth : option GitHubOAuthConfig; sv_oauthState : Chosen;
  sv_oauthStateTTL : Duration; sv_httpClient : option Client
}.

(** Whether [url.Parse] takes a text and finds both a scheme and a host in it. *)
Class UrlParse := absolute_url : string → bool.

Definition Hour : Duration := (3600 * Second)%Z.
Definition Minute : Duration := (60 * Second)%Z.

(** go: internal/authn/service_oauth_options.go#DefaultGitHubHTTPClientTimeout *)
Definition DefaultGitHubHTTPClientTimeout : Duration := (10 * Second)%Z.

(** go: internal/authn/service_oauth_options.go#requireAbsoluteURL *)
Definition requireAbsoluteURL {url : UrlParse} (field raw : string) : option error :=
  if absolute_url raw then None else Some (errors_New ("authn: " +:+ field +:+ " must be an absolute URL")).

(** go: internal/authn/service_oauth_options.go#githubOAuthFromOptions *)
Definition githubOAuthFromOptions {url : UrlParse} (opts : Options) :
    error + option GitHubOAuthConfig * Chosen * Duration * option Client :=
  match op_GitHubOAuth opts with
  | None => inr (None, NoStore, op_OAuthStateTTL opts, None)
  | Some gh =>
      if (gc_ClientID gh == "") || (gc_ClientSecret gh == "")
      then inl (errors_New "authn: GitHubOAuth ClientID and ClientSecret are required")
      else if gc_BaseURL gh == "" then inl (errors_New "authn: GitHubOAuth BaseURL is required")
      else match requireAbsoluteURL "GitHubOAuth.BaseURL" (gc_BaseURL gh) with
      | Some err => inl err
      | None =>
          if gc_RedirectURI gh == "" then inl (errors_New "authn: GitHubOAuth RedirectURI is required") else
          let api :=
            if gc_APIBaseURL gh == "" then inr (gc_BaseURL gh)
            else match requireAbsoluteURL "GitHubOAuth.APIBaseURL" (gc_APIBaseURL gh) with
                 | Some err => inl err | None => inr (gc_APIBaseURL gh) end in
          match api with
          | inl err => inl err
          | inr api =>
              inr (Some (mkGitHubOAuthConfig (gc_ClientID gh) (gc_ClientSecret gh) (gc_BaseURL gh) api
                           (gc_RedirectURI gh) (gc_HTTPClient gh)),
                   if op_OAuthState opts then Given else InMemory,
                   if (op_OAuthStateTTL opts <=? 0)%Z then (10 * Minute)%Z else op_OAuthStateTTL opts,
                   Some (if gc_HTTPClient gh then OwnClient else DefaultClient DefaultGitHubHTTPClientTimeout))
          end
      end
  end.

(** go: internal/authn/service.go#New *)
Definition New {url : UrlParse} (opts : Options) : error + Service :=
  if op_SigningKey opts == "" then inl (errors_New "authn: SigningKey is required")
  else if op_Issuer opts == "" then inl (errors_New "authn: Issuer is required")
  else match githubOAuthFromOptions opts with
  | inl err => inl err
  | inr (gh, oauthState, oauthTTL, httpClient) =>
      inr (mkService (op_SigningKey opts) (op_Issuer opts)
             (if (op_TokenTTL opts <=? 0)%Z then Hour else op_TokenTTL opts) (negb (op_Now opts))
             (if op_Denylist opts then Given else InMemory) (op_TestMintEnabled opts) gh oauthState oauthTTL httpClient)
  end.

(** ** Queries *)

Definition upper_hex (n : N) : ascii := if (n <? 10)%N then byte_of (48 + n) else byte_of (55 + n).

Definition unreserved (c : ascii) : bool :=
  in_range 65 90 (code c) || in_range 97 122 (code c) || in_range 48 57 (code c)
  || existsb (λ n, (code c =? n)%N) [45; 46; 95; 126]%N.

(** [url.QueryEscape]. *)
Fixpoint QueryEscape (s : string) : string :=
  match s with
  | EmptyString => ""
  | String c s =>
      if unreserved c then String c (QueryEscape s)
      else if (code c =? 32)%N then String "+"%char (QueryEscape s)
      else String "%"%char (String (upper_hex (code c / 16)) (String (upper_hex (code c mod 16)) (QueryEscape s)))
  end.

(** [url.Values.Encode], of one value for each key. *)
Definition Values_Encode (values : list (string * string)) : string :=
  Join (map (λ kv : string * string, QueryEscape kv.1 +:+ "=" +:+ QueryEscape kv.2)
          (stable_sort (λ a b : string * string, str_less a.1 b.1) values)) "&".

(** [strings.TrimRight(s, "/")]. *)
Definition TrimRightSlash (s : string) : string := rev_string (TrimLeftByte ch_slash (rev_string s)).

(** ** Requests

    A request with the parts of it that are read: its query parsed, its [Authorization]
    header, empty when it has none. *)
Record AuthRequest := mkAuthRequest {
  ar_Method : string; ar_Segments : list string; ar_Query : list (string * string); ar_Authorization : string; ar_Body : string
}.

(** [r.URL.Query().Get(key)]. *)
Definition query_Get (key : string) (r : AuthRequest) : string :=
  match List.find (λ kv, kv.1 == key) (ar_Query r) with Some kv => kv.2 | None => "" end.

(** What a handler answers: a response, or a redirection to a location. *)
Inductive Answer :=
  | Answered (r : Response)
  | Redirected (location : string).

(** go: internal/authn/http.go#writeJSON *)
Definition writeJSON (status : Z) (v : json) : Answer := Answered (HttpApi.writeJSON status (Some v)).

(** go: internal/authn/http.go#writeAPIError *)
Definition writeAPIError (status : Z) (code message : string) : Answer := writeJSON status (envelope_json code message).

(** go: internal/authn/middleware.go#bearerToken *)
Definition bearerToken (h : string) : option string :=
  if (h == "") || negb (HasPrefix "Bearer " h) then None else
  let tok := TrimSpace (TrimPrefix "Bearer " h) in
  if tok == "" then None else Some tok.

(** A request to GitHub. *)
Record GitHubRequest := mkGitHubRequest {
  gr_Method : string; gr_URL : string; gr_Headers : list (string * string); gr_Body : string
}.

(** [io.ReadAll(io.LimitReader(body, 1<<20))]. *)
Definition limited (body : string) : string := String.substring 0 (Z.to_nat (2 ^ 20)) body.

Definition dec_int64 : Decoder Z := λ cur j,
  match j with JNull => Some cur | JNumber lit => Atoi lit | _ => None end.

(** The members that are read; the other ones are strings as well.

    go: internal/authn/github_oauth_exchange.go#githubTokenResponse *)
Record githubTokenResponse := mkTokenResponse {
  tr_AccessToken : string; tr_TokenType : string; tr_Scope : string; tr_Error : string; tr_ErrorDesc : string
}.

Definition dec_token_response : Decoder githubTokenResponse := dec_struct (λ cur ms,
  token ← field dec_string (tr_AccessToken cur) "access_token" ms;
  kind ← field dec_string (tr_TokenType cur) "token_type" ms;
  scope ← field dec_string (tr_Scope cur) "scope" ms;
  err ← field dec_string (tr_Error cur) "error" ms;
  desc ← field dec_string (tr_ErrorDesc cur) "error_description" ms;
  Some (mkTokenResponse token kind scope err desc)).

(** go: internal/authn/github_oauth_user.go#githubUser *)
Record githubUser := mkGithubUser { gu_ID : Z; gu_Login : string }.

Definition dec_github_user : Decoder githubUser := dec_struct (λ cur ms,
  id ← field dec_int64 (gu_ID cur) "id" ms;
  login ← field dec_string (gu_Login cur) "login" ms;
  Some (mkGithubUser id login)).

(** go: internal/authn/http.go#testMintRequest *)
Record testMintRequest := mkTestMintRequest { tm_Subject : string; tm_Login : string }.

Definition dec_mint_request : Decoder testMintRequest := dec_struct_strict ["subject"; "login"] (λ cur ms,
  subject ← field dec_string (tm_Subject cur) "subject" ms;
  login ← field dec_string (tm_Login cur) "login" ms;
  Some (mkTestMintRequest subject login)).

(** go: internal/authn/http.go#testMintResponse *)
Definition mint_response_json (token : string) : json := JObject [("token", JStr token)].

(** go: internal/authn/github_oauth_callback.go#tokenResponse *)
Definition token_response_json (accessToken : string) : json :=
  JObject [("access_token", JStr accessToken); ("token_type", JStr "bearer")].

Definition principal_json (p : Principal) : json :=
  JObject [("provider", JStr (pr_Provider p)); ("subject", JStr (pr_Subject p)); ("login", JStr (pr_Login p))].

Definition incomplete (provider subject login : string) : bool := (provider == "") || (subject == "") || (login == "").

(** ** The service *)

Section Service.
Context {table : IsPrint} {json_errors : JsonErrors} {jwt : JwtLibrary} {D O : Type} {denylist : Denylist D} {states : OAuthStateStore O}.
(** What the clock, the source of random bytes and GitHub answer at a moment. *)
Context (clock : nat → Time) (random : nat → error + list N) (github : nat → GitHubRequest → HttpOutcome).
Context (s : Service).

Record auth_world := mkAuthWorld { au_denylist : D; au_states : O; au_moment : nat }.

Definition A (X : Type) : Type := auth_world → auth_world * X.
#[local] Instance auth_ret : MRet A := λ X x w, (w, x).
#[local] Instance auth_bind : MBind A := λ X Y f m w, let '(w', x) := m w in f x w'.

Definition ask {X} (f : nat → X) : A X := λ w, (mkAuthWorld (au_denylist w) (au_states w) (S (au_moment w)), f (au_moment w)).

Definition on_denylist {X} (f : D → D * X) : A X := λ w,
  let '(d, x) := f (au_denylist w) in (mkAuthWorld d (au_states w) (au_moment w), x).

Definition on_states {X} (f : O → O * X) : A X := λ w,
  let '(o, x) := f (au_states w) in (mkAuthWorld (au_denylist w) o (au_moment w), x).

(** [fmt.Errorf("%w: %v", sentinel, err)]. *)
Definition classified (kind : sentinel) (err : error) : error := Errorw kind (": " +:+ err_Error err).

(** go: internal/authn/tokens.go#newJTI *)
Definition newJTI : A (error + string) :=
  b ← ask random;
  mret match b with inl err => inl (Errorf "authn: generate jti: " err) | inr b => inr (EncodeToString b) end.

(** go: internal/authn/tokens.go#keyFunc *)
Definition keyFunc (alg : string) : error + string :=
  if alg != "HS256" then inl (errors_New ("unexpected signing method " +:+ alg)) else inr (sv_key s).

(** go: internal/authn/tokens.go:47-58#Issue *)
Definition issued_claims (p : Principal) (jti : string) (now : Time) : coachClaims :=
  mkCoachClaims (pr_Provider p) (pr_Login p) (sv_issuer s) (pr_Subject p) jti (Some (NewNumericDate now))
    (Some (NewNumericDate (Add now (sv_ttl s)))) None.

(** go: internal/authn/tokens.go#Issue *)
Definition Issue (p : Principal) : A (error + string) :=
  if incomplete (pr_Provider p) (pr_Subject p) (pr_Login p)
  then mret (inl (errors_New "authn: principal provider, subject, and login are required")) else
  jti ← newJTI;
  match jti with
  | inl err => mret (inl err)
  | inr jti =>
      now ← ask clock;
      mret match SignedString (sv_key s) (issued_claims p jti now) with
      | inl err => inl (Errorf "authn: sign token: " err)
      | inr signed => inr signed
      end
  end.

(** go: internal/authn/tokens.go#InspectClaims *)
Definition InspectClaims (token : string) : error + Claims :=
  match ParseWithClaims None keyFunc token with
  | inl err => inl err
  | inr (cc, valid) =>
      if negb valid then inl (errors_New "authn: invalid token")
      else if cc_Issuer cc != sv_issuer s
      then inl (errors_New ("authn: unexpected issuer " +:+ quoted (cc_Issuer cc)))
      else inr (mkClaims (cc_Provider cc) (cc_Subject cc) (cc_Login cc) (cc_Issuer cc) (default 0%Z (cc_ExpiresAt cc)) (cc_ID cc))
  end.

(** go: internal/authn/tokens_validate.go#parseClaims *)
Definition parseClaims (token : string) : A (error + coachClaims) :=
  match ParseWithClaims (Some ["HS256"]) keyFunc token with
  | inl err => mret (inl err)
  | inr (cc, valid) =>
      if negb valid then mret (inl (errors_New "invalid token"))
      else if cc_Issuer cc != sv_issuer s then mret (inl (errors_New ("unexpected issuer " +:+ quoted (cc_Issuer cc))))
      else match cc_ExpiresAt cc with
      | None => mret (inl (errors_New "missing exp"))
      | Some exp =>
          now ← ask clock;
          mret (if Before exp now || (exp =? now)%Z then inl (errors_New "token is expired")
                else if match cc_NotBefore cc with Some nbf => After nbf now | None => false end
                then inl (errors_New "token not yet valid")
                else inr cc)
      end
  end.

(** go: internal/authn/tokens_validate.go#Validate *)
Definition Validate (token : string) : A (error + Principal) :=
  claims ← parseClaims token;
  match claims with
  | inl err => mret (inl (classified ErrUnauthenticated err))
  | inr claims =>
      if cc_ID claims == "" then mret (inl (Errorw ErrUnauthenticated ": missing jti")) else
      revoked ← on_denylist (IsRevoked (cc_ID claims));
      match revoked with
      | inl err => mret (inl (classified ErrDenylistStore err))
      | inr true => mret (inl (Errorw ErrUnauthenticated ": jti denylisted"))
      | inr false =>
          mret (if incomplete (cc_Provider claims) (cc_Subject claims) (cc_Login claims)
                then inl (Errorw ErrUnauthenticated ": incomplete principal claims")
                else inr (mkPrincipal (cc_Provider claims) (cc_Subject claims) (cc_Login claims)))
      end
  end.

(** go: internal/authn/tokens_revoke.go#Revoke *)
Definition Revoke (token : string) : A (option error) :=
  claims ← parseClaims token;
  match claims with
  | inl err => mret (Some (classified ErrUnauthenticated err))
  | inr claims =>
      if cc_ID claims == "" then mret (Some (Errorw ErrUnauthenticated ": missing jti")) else
      failed ← on_denylist (dl_Revoke (cc_ID claims) (default 0%Z (cc_ExpiresAt claims)));
      mret (option_map (classified ErrDenylistStore) failed)
  end.

(** [next] is the handler behind the middleware, given the principal it attached.

    go: internal/authn/middleware.go#Middleware *)
Definition Middleware (next : Principal → A Answer) (r : AuthRequest) : A Answer :=
  match bearerToken (ar_Authorization r) with
  | None => mret (writeAPIError 401 ErrorCodeUnauthenticated "missing or invalid authorization")
  | Some raw =>
      p ← Validate raw;
      match p with
      | inl err =>
          mret (if errors_Is err ErrDenylistStore
                then writeAPIError 503 ErrorCodeInternalError "authentication temporarily unavailable"
                else writeAPIError 401 ErrorCodeUnauthenticated "unauthenticated")
      | inr p => next p
      end
  end.

(** The middleware always attaches a principal.

    go: internal/authn/http.go#handleMe *)
Definition handleMe (p : Principal) : A Answer := mret (writeJSON 200 (principal_json p)).

(** go: internal/authn/http.go#handleTestMint *)
Definition handleTestMint (r : AuthRequest) : A Answer :=
  match Decode dec_mint_request (mkTestMintRequest "" "") (ar_Body r) with
  | None => mret (writeAPIError 400 ErrorCodeInvalidRequest "invalid request body")
  | Some req =>
      let subject := TrimSpace (tm_Subject req) in
      let login := TrimSpace (tm_Login req) in
      if (subject == "") || (login == "")
      then mret (writeAPIError 400 ErrorCodeInvalidRequest "subject and login are required") else
      tok ← Issue (mkPrincipal "github" subject login);
      mret match tok with
      | inl _ => writeAPIError 500 ErrorCodeInternalError "failed to mint token"
      | inr tok => writeJSON 200 (mint_response_json tok)
      end
  end.

(** ** [github_oauth.go] *)

(** go: internal/authn/github_oauth.go#newOAuthState *)
Definition newOAuthState : A (error + string) :=
  b ← ask random;
  mret match b with inl err => inl (Errorf "authn: generate oauth state: " err) | inr b => inr (EncodeToString b) end.

(** go: internal/authn/github_oauth.go#authorizeURL *)
Definition authorizeURL (gh : GitHubOAuthConfig) (state : string) : string :=
  TrimRightSlash (gc_BaseURL gh) +:+ "/login/oauth/authorize?"
  +:+ Values_Encode [("client_id", gc_ClientID gh); ("redirect_uri", gc_RedirectURI gh); ("state", state)].

(** The service's configuration of the sign-in, when it has one and a store. *)
Definition oauth_configured : option GitHubOAuthConfig :=
  match sv_githubOAuth s, sv_oauthState s with
  | None, _ | _, NoStore => None
  | Some gh, _ => Some gh
  end.

(** go: internal/authn/github_oauth.go#handleGitHubOAuthStart *)
Definition handleGitHubOAuthStart : A Answer :=
  match oauth_configured with
  | None => mret (writeAPIError 404 ErrorCodeNotFound "not found")
  | Some gh =>
      state ← newOAuthState;
      match state with
      | inl _ => mret (writeAPIError 500 ErrorCodeInternalError "failed to start oauth")
      | inr state =>
          now ← ask clock;
          failed ← on_states (Save state (Add now (sv_oauthStateTTL s)));
          mret match failed with
          | Some _ => writeAPIError 503 ErrorCodeInternalError "oauth state store unavailable"
          | None => Redirected (authorizeURL gh state)
          end
      end
  end.

(** A response of GitHub, or the error of not getting one. *)
Definition github_body (what : string) (outcome : HttpOutcome) : error + string :=
  match outcome with
  | HttpNotBuilt err | HttpFailed err | HttpReadFailed err => inl err
  | HttpResponse status body =>
      if (status =? 200)%Z then inr (limited body)
      else inl (errors_New (what +:+ " endpoint status " +:+ Itoa status))
  end.

(** go: internal/authn/github_oauth_exchange.go:21-34#exchangeCode *)
Definition exchange_request (gh : GitHubOAuthConfig) (code : string) : GitHubRequest :=
  mkGitHubRequest "POST" (TrimRightSlash (gc_BaseURL gh) +:+ "/login/oauth/access_token")
    [("Content-Type", "application/x-www-form-urlencoded"); ("Accept", "application/json")]
    (Values_Encode [("client_id", gc_ClientID gh); ("client_secret", gc_ClientSecret gh); ("code", code);
                    ("redirect_uri", gc_RedirectURI gh)]).

(** go: internal/authn/github_oauth_exchange.go#exchangeCode *)
Definition exchangeCode (gh : GitHubOAuthConfig) (code : string) : A (error + string) :=
  outcome ← ask (λ t, github t (exchange_request gh code));
  mret match github_body "token" outcome with
  | inl err => inl err
  | inr body =>
      match Unmarshal dec_token_response (mkTokenResponse "" "" "" "" "") body with
      | None => inl (errors_New (json_error_text "authn.githubTokenResponse" body))
      | Some tr =>
          if tr_Error tr != "" then inl (errors_New ("token error: " +:+ tr_Error tr))
          else if tr_AccessToken tr == "" then inl (errors_New "empty access_token")
          else inr (tr_AccessToken tr)
      end
  end.

(** go: internal/authn/github_oauth_user.go#fetchGitHubUser *)
Definition fetchGitHubUser (gh : GitHubOAuthConfig) (accessToken : string) : A (error + githubUser) :=
  outcome ← ask (λ t, github t (mkGitHubRequest "GET" (TrimRightSlash (gc_APIBaseURL gh) +:+ "/user")
    [("Authorization", "Bearer " +:+ accessToken); ("Accept", "application/json")] ""));
  mret match github_body "user" outcome with
  | inl err => inl err
  | inr body =>
      match Unmarshal dec_github_user (mkGithubUser 0 "") body with
      | None => inl (errors_New (json_error_text "authn.githubUser" body))
      | Some u => inr u
      end
  end.

Definition bad_request (message : string) : Answer := writeAPIError 400 ErrorCodeInvalidRequest message.

(** The sign-in from the code on.

    go: internal/authn/github_oauth_callback.go:42-75#handleGitHubOAuthCallback *)
Definition sign_in (gh : GitHubOAuthConfig) (r : AuthRequest) : A Answer :=
  let code := TrimSpace (query_Get "code" r) in
  if code == "" then mret (bad_request "missing oauth code") else
  accessToken ← exchangeCode gh code;
  match accessToken with
  | inl _ => mret (bad_request "oauth code exchange failed")
  | inr accessToken =>
  user ← fetchGitHubUser gh accessToken;
  match user with
  | inl _ => mret (bad_request "oauth user fetch failed")
  | inr user =>
  if (gu_ID user =? 0)%Z || (gu_Login user == "") then mret (bad_request "oauth user incomplete") else
  token ← Issue (mkPrincipal "github" (Itoa (gu_ID user)) (gu_Login user));
  mret match token with
  | inl _ => writeAPIError 500 ErrorCodeInternalError "failed to mint token"
  | inr token => writeJSON 200 (token_response_json token)
  end end end.

(** go: internal/authn/github_oauth_callback.go#handleGitHubOAuthCallback *)
Definition handleGitHubOAuthCallback (r : AuthRequest) : A Answer :=
  match oauth_configured with
  | None => mret (writeAPIError 404 ErrorCodeNotFound "not found")
  | Some gh =>
  let ghErr := query_Get "error" r in
  if ghErr != "" then mret (bad_request ("oauth denied: " +:+ ghErr)) else
  let state := TrimSpace (query_Get "state" r) in
  if state == "" then mret (bad_request "missing oauth state") else
  now ← ask clock;
  ok ← on_states (Consume state now);
  match ok with
  | inl _ => mret (writeAPIError 503 ErrorCodeInternalError "oauth state store unavailable")
  | inr false => mret (bad_request "invalid or expired oauth state")
  | inr true => sign_in gh r
  end end.

(** A [GET] pattern also takes [HEAD]; what no pattern takes is not found, whatever its
    method.

    go: internal/authn/http.go#Handler *)
Definition Handler (r : AuthRequest) : A Answer :=
  let get := (ar_Method r == "GET") || (ar_Method r == "HEAD") in
  let not_found := mret (writeAPIError 404 ErrorCodeNotFound "not found") in
  if decide (ar_Segments r = ["v1"; "me"]) then if get then Middleware handleMe r else not_found
  else if decide (ar_Segments r = ["v1"; "auth"; "test-mint"])
  then if sv_testMintEnabled s && (ar_Method r == "POST") then handleTestMint r else not_found
  else if decide (ar_Segments r = ["oauth"; "github"; "start"])
  then if bool_decide (is_Some (sv_githubOAuth s)) && get then handleGitHubOAuthStart else not_found
  else if decide (ar_Segments r = ["oauth"; "github"; "callback"])
  then if bool_decide (is_Some (sv_githubOAuth s)) && get then handleGitHubOAuthCallback r else not_found
  else not_found.

End Service.

#[local] Existing Instances auth_ret auth_bind.

(** ** What a call leaves alone *)

Section Keeps.
Context {D O : Type}.
Notation world := (@auth_world D O).
Context (R : world → world → Prop) `{!PreOrder R}.

(** A computation that relates the world before it to the one after. *)
Definition keeps {X} (m : @A D O X) : Prop := ∀ w, R w (m w).1.

Lemma keeps_ret {X} (x : X) : keeps (mret x).
Proof. intros w. reflexivity. Qed.

Lemma keeps_bind {X Y} (m : @A D O X) (f : X → @A D O Y) : keeps m → (∀ x, keeps (f x)) → keeps (mbind f m).
Proof.
  intros Hm Hf w. unfold mbind, auth_bind. specialize (Hm w). destruct (m w) as [w' x]. etrans; [exact Hm|apply Hf].
Qed.
End Keeps.

Ltac keep_step :=
  match goal with
  | |- keeps _ (mret _) => apply keeps_ret, _
  | |- keeps _ (mbind _ _) => apply keeps_bind; [exact _| |intros]
  | |- keeps _ (match ?x with _ => _ end) => destruct x
  | _ => done
  end.

(** ** Credentials *)

Section Credentials.
Context {table : IsPrint} {json_errors : JsonErrors} {lib : JwtLibrary} {D O : Type} {denylist : Denylist D} {states : OAuthStateStore O}.
Context (verified : string → string → string → coachClaims → Prop) {laws : JwtLaws lib verified}.
Context (clock : nat → Time) (random : nat → error + list N) (github : nat → GitHubRequest → HttpOutcome) (s : Service).

(** The claims of a token the service may trust at a time. *)
Record credentials (token : string) (now : Time) (c : coachClaims) : Prop := {
  cr_parsed : ParseWithClaims (Some ["HS256"]) (keyFunc s) token = inr (c, true);
  cr_issuer : cc_Issuer c = sv_issuer s;
  cr_unexpired : ∃ exp, cc_ExpiresAt c = Some exp ∧ (now < exp)%Z;
  cr_started : ∀ nbf, cc_NotBefore c = Some nbf → (nbf ≤ now)%Z
}.

Lemma credentials_unique token now c c' : credentials token now c → credentials token now c' → c = c'.
Proof. intros [H _ _ _] [H' _ _ _]. congruence. Qed.

Lemma parseClaims_exact token (w w' : @auth_world D O) r : parseClaims clock s token w = (w', r) →
  au_denylist w' = au_denylist w ∧ au_states w' = au_states w ∧ au_moment w ≤ au_moment w' ∧
  ∀ c, r = inr c ↔ credentials token (clock (au_moment w)) c.
Proof.
  unfold parseClaims. intros H.
  destruct (ParseWithClaims (Some ["HS256"]) (keyFunc s) token) as [err|[cc valid]] eqn:E.
  { injection H as <- <-. repeat split; try done; by intros [? _ _ _]; congruence. }
  destruct valid; cbn [negb] in H; [|injection H as <- <-; repeat split; try done; by intros [? _ _ _]; congruence].
  destruct (String.eqb_spec (cc_Issuer cc) (sv_issuer s)) as [Hi|Hi]; cbn [negb] in H;
    [|injection H as <- <-; repeat split; try done; intros [? ? _ _]; congruence].
  destruct (cc_ExpiresAt cc) as [exp|] eqn:Ee;
    [|injection H as <- <-; repeat split; try done; intros [? _ (? & ? & _) _]; congruence].
  cbn in H. injection H as <- Hr. split; [done|]. split; [done|]. split; [cbn; lia|]. intros c. split.
  - intros Hc. subst r. unfold Before, After in Hc. destruct (Z.ltb_spec exp (clock (au_moment w))); [done|].
    destruct (Z.eqb_spec exp (clock (au_moment w))); [done|]. cbn [orb] in Hc.
    assert (cc = c ∧ ∀ nbf, cc_NotBefore cc = Some nbf → (nbf ≤ clock (au_moment w))%Z) as [<- Hn].
    { destruct (cc_NotBefore cc) as [nbf|]; [destruct (Z.ltb_spec (clock (au_moment w)) nbf); [done|]|]; injection Hc as ->;
        split; try done. by intros ? [= <-]. }
    split; [done|done|exists exp; split; [done|lia]|done].
  - intros [H1 H2 (exp' & H3 & H4) H5]. assert (cc = c) as -> by congruence. assert (exp' = exp) as -> by congruence.
    subst r. unfold Before, After. destruct (Z.ltb_spec exp (clock (au_moment w))); [lia|].
    destruct (Z.eqb_spec exp (clock (au_moment w))); [lia|]. cbn [orb].
    destruct (cc_NotBefore c) as [nbf|]; [|done]. specialize (H5 nbf eq_refl).
    by destruct (Z.ltb_spec (clock (au_moment w)) nbf); [lia|].
Qed.

Lemma credentials_verified token now c : credentials token now c → verified "HS256" (sv_key s) token c.
Proof.
  intros [H _ _ _]. apply jwt_verified in H as (alg & key & Ha & Hk & Hv). cbn in Ha.
  apply list_elem_of_singleton in Ha as ->. by injection Hk as <-.
Qed.

(** The claims the denylist is asked about. *)
Definition trusted (token : string) (now : Time) (c : coachClaims) : Prop :=
  credentials token now c ∧ verified "HS256" (sv_key s) token c ∧ cc_ID c ≠ "".

Lemma trusted_unique token now c c' : trusted token now c → trusted token now c' → c = c'.
Proof. intros [H _] [H' _]. by eapply credentials_unique. Qed.

(** What the answer of the denylist makes of trusted claims. *)
Definition judged (answer : error + bool) (c : coachClaims) : error + Principal :=
  match answer with
  | inl err => inl (classified ErrDenylistStore err)
  | inr true => inl (Errorw ErrUnauthenticated ": jti denylisted")
  | inr false =>
      if incomplete (cc_Provider c) (cc_Subject c) (cc_Login c)
      then inl (Errorw ErrUnauthenticated ": incomplete principal claims")
      else inr (mkPrincipal (cc_Provider c) (cc_Subject c) (cc_Login c))
  end.

Definition unauthenticated (r : error + Principal) : Prop :=
  ∃ detail, r = inl (Errorw ErrUnauthenticated detail).

Lemma Validate_cases token (w w' : @auth_world D O) r : Validate clock s token w = (w', r) →
  ((∀ c, ¬ trusted token (clock (au_moment w)) c) ∧ unauthenticated r) ∨
  (∃ c, trusted token (clock (au_moment w)) c ∧ r = judged (IsRevoked (cc_ID c) (au_denylist w)).2 c).
Proof.
  intros H. unfold Validate, mbind, auth_bind in H. destruct (parseClaims clock s token w) as [w1 c] eqn:Ec.
  pose proof (parseClaims_exact _ _ _ _ Ec) as (Hd & _ & _ & Hcr).
  destruct c as [err|c]; [injection H as _ <-; left|].
  { split; [intros c [Hc _]; by apply Hcr in Hc|by eexists]. }
  pose proof (proj1 (Hcr c) eq_refl) as Hc. pose proof (credentials_verified _ _ _ Hc) as Hv.
  destruct (String.eqb_spec (cc_ID c) "") as [Hid|Hid]; [injection H as _ <-; left|right; exists c; split; [done|]].
  { split; [|by eexists]. intros c' (H1 & _ & H2). by rewrite <- (credentials_unique _ _ _ _ Hc H1) in H2. }
  unfold on_denylist in H. rewrite Hd in H. destruct (IsRevoked (cc_ID c) (au_denylist w)) as [d a].
  by destruct a as [err|[]]; injection H as _ <-.
Qed.

(** C4: A token authenticates exactly the principal of its claims, exactly when it was
    checked under HS256 with the service's key, was issued by this service, is before its
    expiry and not before its start, has an id that is not revoked, and names a
    principal.  A failure is reported as one of the denylist exactly when the credentials
    are good and the denylist did not answer; every other failure is one of
    authentication. *)
Theorem validate_exact token (w w' : @auth_world D O) r : Validate clock s token w = (w', r) →
  let trusted c := trusted token (clock (au_moment w)) c in
  let answer c := (IsRevoked (cc_ID c) (au_denylist w)).2 in
  (∀ p, r = inr p ↔ ∃ c, trusted c ∧ answer c = inr false ∧
     cc_Provider c ≠ "" ∧ cc_Subject c ≠ "" ∧ cc_Login c ≠ "" ∧
     p = mkPrincipal (cc_Provider c) (cc_Subject c) (cc_Login c)) ∧
  (∀ err, r = inl err →
     (errors_Is err ErrDenylistStore = true ↔ ∃ c e, trusted c ∧ answer c = inl e) ∧
     errors_Is err ErrUnauthenticated = negb (errors_Is err ErrDenylistStore)).
Proof.
  intros H trusted' answer. destruct (Validate_cases _ _ _ _ H) as [[Hno [detail ->]]|(c & Hc & ->)].
  { split; [split; [done|intros (c & Hc & _); by apply Hno in Hc]|].
    intros ? [= <-]. split; [split; [done|intros (c & e & Hc & _); by apply Hno in Hc]|done]. }
  assert (Ha : ∀ c', trusted' c' → c' = c) by (intros c' Hc'; by eapply trusted_unique).
  change (IsRevoked (cc_ID c) (au_denylist w)).2 with (answer c).
  destruct (answer c) as [err|[]] eqn:Er; cbn [judged].
  - split; [split; [done|intros (c' & ->%Ha & Hn & _); congruence]|].
    intros ? [= <-]. split; [split; [intros _; by exists c, err|done]|done].
  - split; [split; [done|intros (c' & ->%Ha & Hn & _); congruence]|].
    intros ? [= <-]. split; [split; [done|intros (c' & e & ->%Ha & Hn); congruence]|done].
  - unfold incomplete.
    destruct (String.eqb_spec (cc_Provider c) ""), (String.eqb_spec (cc_Subject c) ""), (String.eqb_spec (cc_Login c) ""); cbn [orb].
    all: try (split; [split; [done|intros (c' & ->%Ha & _ & ? & ? & ? & _); done]|];
      intros ? [= <-]; split; [split; [done|intros (c' & err & ->%Ha & Hn); congruence]|done]).
    split; [|done]. intros p. split; [|by intros (c' & ->%Ha & _ & _ & _ & _ & ->)].
    intros [= <-]. exists c. exact (conj Hc (conj Er (conj n (conj n0 (conj n1 eq_refl))))).
Qed.

(** ** Tokens the service issued *)

(** Sixteen bytes at a time. *)
Definition bytes16 : Prop := ∀ t b, random t = inr b → length b = 16 ∧ ∀ x, In x b → (x < 256)%N.

Lemma hex_ascii b : (∀ x, In x b → (x < 256)%N) → ascii_only (EncodeToString b) = true.
Proof.
  assert (∀ n, (n < 16)%N → (code (hex_digit n) <? 128)%N = true) as Hd.
  { intros n Hn. unfold hex_digit. apply N.ltb_lt. destruct (n <? 10)%N; rewrite code_byte_of; lia. }
  induction b as [|x b IH]; intros H; [done|]. specialize (H x (or_introl eq_refl)) as Hx. cbn.
  rewrite !Hd, IH; [done|intros; apply H; by right|by apply N.mod_lt|apply N.Div0.div_lt_upper_bound; lia].
Qed.

Lemma Issue_inv p token (w w' : @auth_world D O) : Issue clock random s p w = (w', inr token) →
  ∃ b, random (au_moment w) = inr b ∧ incomplete (pr_Provider p) (pr_Subject p) (pr_Login p) = false ∧
  SignedString (sv_key s) (issued_claims s p (EncodeToString b) (clock (S (au_moment w)))) = inr token.
Proof.
  unfold Issue, newJTI, mbind, auth_bind, ask, mret, auth_ret. destruct (incomplete _ _ _); [done|]. cbn.
  destruct (random (au_moment w)) as [|b]; [done|]. cbn. destruct (SignedString _ _) eqn:E; [done|].
  intros [= _ <-]. by exists b.
Qed.

(** The last second in which a token issued at a moment is good. *)
Definition token_expiry (m : nat) : Time := (Add (clock (S m)) (sv_ttl s) `div` Second * Second)%Z.

(** A token that was issued authenticates the principal it was issued to, whenever it
    is used before the second its lifetime ends in, as long as its id is not revoked; and
    what it authenticates can be read from it. *)
Theorem issued_authenticates p token (w w' : @auth_world D O) :
  bytes16 → valid_utf8 (pr_Provider p) → valid_utf8 (pr_Subject p) → valid_utf8 (pr_Login p) → valid_utf8 (sv_issuer s) →
  Issue clock random s p w = (w', inr token) →
  ∃ b, random (au_moment w) = inr b ∧
  (∀ v : @auth_world D O, (clock (au_moment v) < token_expiry (au_moment w))%Z →
     (IsRevoked (EncodeToString b) (au_denylist v)).2 = inr false →
     (Validate clock s token v).2 = inr p) ∧
  InspectClaims s token = inr (mkClaims (pr_Provider p) (pr_Subject p) (pr_Login p) (sv_issuer s)
    (token_expiry (au_moment w)) (EncodeToString b)).
Proof.
  intros H16 U1 U2 U3 U4 (b & Hb & Hp & Hs)%Issue_inv. exists b. split; [done|].
  set (c := issued_claims s p (EncodeToString b) (clock (S (au_moment w)))) in Hs.
  destruct (H16 _ _ Hb) as [Hlen Hsmall].
  assert (valid_claims c) as Hvalid by (repeat split; try done; by apply ascii_valid, hex_ascii).
  assert (whole_dates c) as Hwhole.
  { assert (∀ t, NewNumericDate (NewNumericDate t) = NewNumericDate t) as Hdate
      by (intros t; rewrite !jwt_date; f_equal; by apply Z.div_mul).
    intros d. rewrite !elem_of_cons, elem_of_nil. intros [[= ->]|[[= ->]|[|]]]; done. }
  assert (∀ methods, method_allowed methods "HS256" → ParseWithClaims methods (keyFunc s) token = inr (c, true)) as Hparse
    by (intros methods Hm; by eapply jwt_parses).
  split.
  - intros v Hv Hn. destruct (Validate clock s token v) as [v' r] eqn:E. cbn [snd].
    assert (trusted token (clock (au_moment v)) c) as Hc.
    { assert (credentials token (clock (au_moment v)) c) as Hcr; [|split_and!; [done|by eapply credentials_verified|]].
      - split; [by apply Hparse; left|done| |done]. eexists. split; [reflexivity|]. by rewrite jwt_date.
      - cbn. intros He. apply (f_equal String.length) in He. rewrite EncodeToString_length, Hlen in He. done. }
    destruct (Validate_cases _ _ _ _ E) as [[Hno _]|(c' & Hc' & ->)]; [by apply Hno in Hc|].
    rewrite (trusted_unique _ _ _ _ Hc' Hc). cbn [cc_ID c issued_claims]. rewrite Hn. cbn. rewrite Hp. by destruct p.
  - unfold InspectClaims. rewrite Hparse by done. cbn. by rewrite String.eqb_refl, jwt_date.
Qed.
End Credentials.

(** ** Histories of a service with the in-memory stores *)

#[local] Existing Instances memory_denylist memory_states.

Section History.
Context {table : IsPrint} {json_errors : JsonErrors} {lib : JwtLibrary}.
Context (verified : string → string → string → coachClaims → Prop) {laws : JwtLaws lib verified}.
Context (clock : nat → Time) (random : nat → error + list N) (github : nat → GitHubRequest → HttpOutcome) (s : Service).
Notation world := (@auth_world MemoryDenylist MemoryOAuthState).

(** The order of worlds: time passes, and what is revoked stays so. *)
Definition later (w w' : world) : Prop :=
  au_moment w ≤ au_moment w' ∧ ∀ jti, is_Some (au_denylist w !! jti) → is_Some (au_denylist w' !! jti).

#[local] Instance later_preorder : PreOrder later.
Proof. split; [by intros w|]. intros w1 w2 w3 [H1 H2] [H3 H4]. split; [lia|auto]. Qed.

Lemma later_ask {X} (f : nat → X) : keeps later (ask f).
Proof. intros w. split; cbn; [lia|done]. Qed.

Lemma later_denied jti : keeps later (on_denylist (IsRevoked jti)).
Proof. by intros w. Qed.

Lemma later_revoke jti exp : keeps later (on_denylist (dl_Revoke jti exp)).
Proof.
  intros w. split; [done|]. intros jti' H. cbn. apply (lookup_insert_is_Some' (M:=gmap string)). by right.
Qed.

Lemma later_states {X} (f : MemoryOAuthState → MemoryOAuthState * X) : keeps later (on_states f).
Proof. intros w. unfold on_states. destruct (f (au_states w)). by split. Qed.

#[local] Hint Resolve later_ask later_denied later_revoke later_states : core.

Ltac keeps_later := repeat first [progress auto | keep_step].

Lemma later_parseClaims token : keeps later (parseClaims clock s token).
Proof. unfold parseClaims. keeps_later. Qed.
#[local] Hint Resolve later_parseClaims : core.

Lemma later_Validate token : keeps later (Validate clock s token).
Proof. unfold Validate. keeps_later. Qed.

Lemma later_Revoke token : keeps later (Revoke clock s token).
Proof. unfold Revoke. keeps_later. Qed.

Lemma later_Issue p : keeps later (Issue clock random s p).
Proof. unfold Issue, newJTI. keeps_later. Qed.
#[local] Hint Resolve later_Validate later_Revoke later_Issue : core.

Lemma later_Handler r : keeps later (Handler clock random github s r).
Proof.
  unfold Handler, Middleware, handleMe, handleTestMint, handleGitHubOAuthStart, handleGitHubOAuthCallback, newOAuthState,
    sign_in, exchangeCode, fetchGitHubUser. keeps_later.
Qed.
#[local] Hint Resolve later_Handler : core.

(** What callers do, in any order: library calls and requests. *)
Inductive call :=
  | CallIssue (p : Principal)
  | CallValidate (token : string)
  | CallRevoke (token : string)
  | CallRequest (r : AuthRequest).

Definition perform (c : call) (w : world) : world :=
  match c with
  | CallIssue p => (Issue clock random s p w).1
  | CallValidate token => (Validate clock s token w).1
  | CallRevoke token => (Revoke clock s token w).1
  | CallRequest r => (Handler clock random github s r w).1
  end.

Definition perform_all (calls : list call) (w : world) : world := fold_left (λ w c, perform c w) calls w.

Lemma later_perform_all calls w : later w (perform_all calls w).
Proof.
  revert w. induction calls as [|c calls IH]; intros w; [done|]. etrans; [|apply IH].
  destruct c; cbn; [apply later_Issue|apply later_Validate|apply later_Revoke|apply later_Handler].
Qed.

Definition me_request (token : string) (r : AuthRequest) : Prop :=
  ar_Method r = "GET" ∧ ar_Segments r = ["v1"; "me"] ∧ bearerToken (ar_Authorization r) = Some token.

(** C5: Once a token was revoked, no call of anybody makes it good again: after any
    history it fails to authenticate, as a failure of authentication and not of the
    denylist, and a request that carries it is answered 401. *)
Theorem revoked_forever token w w1 calls r :
  Revoke clock s token w = (w1, None) → me_request token r →
  let w2 := perform_all calls w1 in
  unauthenticated (Validate clock s token w2).2 ∧
  (Handler clock random github s r w2).2 = writeAPIError 401 ErrorCodeUnauthenticated "unauthenticated".
Proof.
  intros H (Hm & Hs & Hb) w2.
  assert (unauthenticated (Validate clock s token w2).2) as Hv.
  { unfold Revoke, mbind, auth_bind in H. destruct (parseClaims clock s token w) as [w0 c] eqn:Ec.
    pose proof (parseClaims_exact _ _ _ _ _ _ Ec) as (_ & _ & _ & Hcr). destruct c as [|c]; [done|].
    destruct (Hcr c) as [Hc _]. specialize (Hc eq_refl). destruct (cc_ID c == ""); [done|].
    assert (is_Some (au_denylist w1 !! cc_ID c)) as Hd 
      by (injection H as <-; apply (lookup_insert_is_Some' (M:=gmap string)); by left).
    apply (later_perform_all calls w1) in Hd.
    destruct (Validate clock s token w2) as [w3 a] eqn:E. cbn [snd].
    destruct (Validate_cases verified _ _ _ _ _ _ E) as [[_ Ha]|(c' & [[Hp _ _ _] _] & ->)]; [done|].
    assert (c' = c) as -> by (destruct Hc; congruence). cbn. rewrite bool_decide_eq_true_2 by exact Hd. by eexists. }
  split; [done|]. destruct Hv as [detail Hv].
  assert (Handler clock random github s r w2 = Middleware clock s handleMe r w2) as ->
    by (unfold Handler; rewrite decide_True by done; by rewrite Hm).
  unfold Middleware, mbind, auth_bind. rewrite Hb.
  destruct (Validate clock s token w2) as [w3 a]. cbn [snd] in Hv. by subst a.
Qed.

(** ** Signing in *)

Definition same_states (w w' : world) : Prop := au_states w' = au_states w ∧ au_moment w ≤ au_moment w'.

#[local] Instance same_states_preorder : PreOrder same_states.
Proof. split; [by intros w|]. intros w1 w2 w3 [H1 H2] [H3 H4]. split; [congruence|lia]. Qed.

Lemma same_ask {X} (f : nat → X) : keeps same_states (ask f).
Proof. intros w. split; cbn; [done|lia]. Qed.

Lemma same_denylist {X} (f : MemoryDenylist → MemoryDenylist * X) : keeps same_states (on_denylist f).
Proof. intros w. unfold on_denylist. destruct (f (au_denylist w)). by split. Qed.

#[local] Hint Resolve same_ask same_denylist : core.

Lemma same_Validate token : keeps same_states (Validate clock s token).
Proof. unfold Validate, parseClaims. keeps_later. Qed.

Lemma same_Revoke token : keeps same_states (Revoke clock s token).
Proof. unfold Revoke, parseClaims. keeps_later. Qed.

Lemma same_Issue p : keeps same_states (Issue clock random s p).
Proof. unfold Issue, newJTI. keeps_later. Qed.
#[local] Hint Resolve same_Validate same_Revoke same_Issue : core.

Lemma same_Middleware r : keeps same_states (Middleware clock s handleMe r).
Proof. unfold Middleware, handleMe. keeps_later. Qed.

Lemma same_test_mint r : keeps same_states (handleTestMint clock random s r).
Proof. unfold handleTestMint. keeps_later. Qed.

Lemma same_sign_in gh r : keeps same_states (sign_in clock random github s gh r).
Proof. unfold sign_in, exchangeCode, fetchGitHubUser. keeps_later. Qed.

Definition callback (r : AuthRequest) : Prop := ar_Segments r = ["oauth"; "github"; "callback"].
Definition state_of (r : AuthRequest) : string := TrimSpace (query_Get "state" r).
Definition signed_in (a : Answer) : Prop := ∃ token, a = writeJSON 200 (token_response_json token).

Lemma refused status code message : status ≠ 200%Z → ¬ signed_in (writeAPIError status code message).
Proof. intros H [token Ht]. by injection Ht. Qed.

(** What a request does to the states that wait for a sign-in. *)
Inductive effect (w : world) (r : AuthRequest) (w' : world) : Answer → Prop :=
  | effect_none a : same_states w w' → ¬ (callback r ∧ signed_in a) → effect w r w' a
  | effect_start gh b : random (au_moment w) = inr b → sv_githubOAuth s = Some gh → ¬ callback r →
      au_moment w < au_moment w' →
      au_states w' = <[EncodeToString b := Add (clock (S (au_moment w))) (sv_oauthStateTTL s)]> (au_states w) →
      effect w r w' (Redirected (authorizeURL gh (EncodeToString b)))
  | effect_callback a exp : callback r → au_states w !! state_of r = Some exp →
      au_states w' = delete (state_of r) (au_states w) → au_moment w ≤ au_moment w' →
      (signed_in a → (clock (au_moment w) < exp)%Z) → effect w r w' a.

Lemma effect_keeps (m : @A MemoryDenylist MemoryOAuthState Answer) r w w' a :
  keeps same_states m → ¬ callback r → m w = (w', a) → effect w r w' a.
Proof. intros Hk Hc E. specialize (Hk w). rewrite E in Hk. apply effect_none; [done|by intros []]. Qed.

Lemma start_effect r w w' a : ¬ callback r → handleGitHubOAuthStart clock random s w = (w', a) → effect w r w' a.
Proof.
  intros Hc. unfold handleGitHubOAuthStart, oauth_configured.
  destruct (sv_githubOAuth s) as [gh|] eqn:Eg; [|by apply effect_keeps; [apply keeps_ret, _|]].
  intros H. unfold newOAuthState, mbind, auth_bind, ask, on_states, mret, auth_ret in H.
  destruct (sv_oauthState s) eqn:Eo; [injection H as <- <-; apply effect_none; [done|by intros []]|..];
  destruct (random (au_moment w)) as [err|b] eqn:Eb; cbn in H; injection H as <- <-.
  all: try (apply effect_none; [split; cbn; [done|lia]|by intros []]).
  all: apply effect_start; cbn; try done; lia.
Qed.

Lemma callback_effect r w w' a : callback r →
  handleGitHubOAuthCallback clock random github s r w = (w', a) → effect w r w' a.
Proof.
  intros Hc. unfold handleGitHubOAuthCallback. fold (state_of r).
  assert (∀ status code message, status ≠ 200%Z → (w, writeAPIError status code message) = (w', a) → effect w r w' a) as Href.
  { intros status code message Hs [= <- <-]. apply effect_none; [done|]. intros [_ H]. by eapply refused. }
  destruct (oauth_configured s) as [gh|]; [|by apply Href].
  destruct (query_Get "error" r != ""); [by apply Href|]. destruct (state_of r == ""); [by apply Href|].
  unfold mbind at 1, auth_bind at 1, ask, mbind, auth_bind, on_states. cbn [au_states au_denylist au_moment].
  cbn [Consume memory_states].
  destruct (au_states w !! state_of r) as [exp|] eqn:E.
  - unfold After. destruct (Z.ltb_spec (clock (au_moment w)) exp) as [He|He]; cbn [negb].
    + intros H. pose proof (same_sign_in gh r (mkAuthWorld (au_denylist w) (delete (state_of r) (au_states w)) (S (au_moment w)))) as [H1 H2].
      rewrite H in H1, H2. cbn in H1, H2. apply effect_callback with exp; try done. lia.
    + intros [= <- <-]. apply effect_callback with exp; cbn; try done; [lia|]. intros Hs. by apply refused in Hs.
  - intros [= <- <-]. apply effect_none; [split; cbn; [done|lia]|]. intros [_ Hs]. by apply refused in Hs.
Qed.

Lemma Handler_effect r w w' a : Handler clock random github s r w = (w', a) → effect w r w' a.
Proof.
  unfold Handler. intros H.
  assert ((w, writeAPIError 404 ErrorCodeNotFound "not found") = (w', a) → effect w r w' a) as Hnf.
  { intros [= <- <-]. apply effect_none; [done|]. intros [_ Hs]. by apply refused in Hs. }
  assert (∀ l, ar_Segments r = l → l ≠ ["oauth"; "github"; "callback"] → ¬ callback r) as Hc by (unfold callback; congruence).
  destruct (decide (ar_Segments r = ["v1"; "me"])) as [E|_].
  { destruct (_ || _); [|by apply Hnf]. revert H. apply effect_keeps; [apply same_Middleware|by eapply Hc]. }
  destruct (decide (ar_Segments r = ["v1"; "auth"; "test-mint"])) as [E|_].
  { destruct (_ && _); [|by apply Hnf]. revert H. apply effect_keeps; [apply same_test_mint|by eapply Hc]. }
  destruct (decide (ar_Segments r = ["oauth"; "github"; "start"])) as [E|_].
  { destruct (_ && _); [|by apply Hnf]. by apply start_effect; [eapply Hc|]. }
  destruct (decide (ar_Segments r = ["oauth"; "github"; "callback"])) as [E|_]; [|by apply Hnf].
  destruct (_ && _); [by apply callback_effect|by apply Hnf].
Qed.

(** A history of a service that started with no state waiting: its requests, each with the
    world it found and its answer, among other calls. *)
Inductive requests : list (world * AuthRequest * Answer) → world → Prop :=
  | requests_none w : au_states w = ∅ → requests [] w
  | requests_call h w c : requests h w → match c with CallRequest _ => False | _ => True end → requests h (perform c w)
  | requests_one h w r w' a : requests h w → Handler clock random github s r w = (w', a) → requests (h ++ [(w, r, a)]) w'.

(** The source of random bytes repeats nothing. *)
Definition unrepeated : Prop := ∀ t t' b b',
  random t = inr b → random t' = inr b' → EncodeToString b = EncodeToString b' → t = t'.

(** The state was handed out by the [j]-th request, at a moment before [m]. *)
Definition handed_out (h : list (world * AuthRequest * Answer)) (m : nat) (state : string) (exp : Time) (j : nat) : Prop :=
  ∃ wj rj gh b, h !! j = Some (wj, rj, Redirected (authorizeURL gh state)) ∧ sv_githubOAuth s = Some gh ∧
    random (au_moment wj) = inr b ∧ state = EncodeToString b ∧ au_moment wj < m ∧
    exp = Add (clock (S (au_moment wj))) (sv_oauthStateTTL s).

Lemma handed_out_grows h h' m m' state exp j : handed_out h m state exp j → m ≤ m' → handed_out (h ++ h') m' state exp j.
Proof.
  intros (wj & rj & gh & b & H1 & H2 & H3 & H4 & H5 & H6) Hm. exists wj, rj, gh, b.
  repeat split; try done; [by apply lookup_app_l_Some|lia].
Qed.

(** What holds of the history and the waiting states at any time. *)
Record sign_in_invariant (h : list (world * AuthRequest * Answer)) (w : world) : Prop := {
  si_waiting : ∀ state exp, au_states w !! state = Some exp → ∃ j, j < length h ∧ handed_out h (au_moment w) state exp j;
  si_used : ∀ i wi ri ai, h !! i = Some (wi, ri, ai) → callback ri → signed_in ai →
    au_states w !! state_of ri = None ∧
    ∃ j exp, j < i ∧ handed_out h (au_moment w) (state_of ri) exp j ∧ (clock (au_moment wi) < exp)%Z;
  si_once : ∀ i i' e e' r r' a a', h !! i = Some (e, r, a) → h !! i' = Some (e', r', a') → callback r → callback r' →
    signed_in a → signed_in a' → state_of r = state_of r' → i = i'
}.

Lemma invariant_quiet h w w' : same_states w w' → sign_in_invariant h w → sign_in_invariant h w'.
Proof.
  intros [H1 H2] [W U O]. split; [|clear W; clear O|done].
  - intros state exp. rewrite H1. intros (j & Hj & Hh)%W. exists j. split; [done|].
    rewrite <- (app_nil_r h). by apply handed_out_grows with (au_moment w).
  - intros i wi ri ai Hi Hc Hs. destruct (U i wi ri ai Hi Hc Hs) as (Hn & j & exp & Hj & Hh & He). rewrite H1. split; [done|].
    exists j, exp. repeat split; try done. rewrite <- (app_nil_r h). by apply handed_out_grows with (au_moment w).
Qed.

(** A request that is not a successful callback adds nothing to what must hold once. *)
Lemma invariant_extend h w r a : ¬ (callback r ∧ signed_in a) → sign_in_invariant h w → sign_in_invariant (h ++ [(w, r, a)]) w.
Proof.
  intros Hno [W U O]. split.
  - intros state exp (j & Hj & Hh)%W. exists j. rewrite length_app. split; [lia|]. by apply handed_out_grows with (au_moment w).
  - intros i wi ri ai [Hi|[_ Hi]]%lookup_app_Some Hc Hs.
    + destruct (U i wi ri ai Hi Hc Hs) as (Hn & j & exp & Hj & Hh & He). split; [done|]. exists j, exp. repeat split; try done.
      by apply handed_out_grows with (au_moment w).
    + apply list_lookup_singleton_Some in Hi as [_ [= <- <- <-]]. by destruct Hno.
  - intros i i' e e' q q' b b' [Hi|[_ Hi]]%lookup_app_Some [Hi'|[_ Hi']]%lookup_app_Some C C' S S' E.
    + by eapply O.
    + apply list_lookup_singleton_Some in Hi' as [_ [= <- <- <-]]. by destruct Hno.
    + apply list_lookup_singleton_Some in Hi as [_ [= <- <- <-]]. by destruct Hno.
    + apply list_lookup_singleton_Some in Hi as [_ [= <- <- <-]]. by destruct Hno.
Qed.

Lemma invariant_start h w w' r gh b : unrepeated → random (au_moment w) = inr b → sv_githubOAuth s = Some gh → ¬ callback r →
  au_moment w < au_moment w' →
  au_states w' = <[EncodeToString b := Add (clock (S (au_moment w))) (sv_oauthStateTTL s)]> (au_states w) →
  sign_in_invariant h w → sign_in_invariant (h ++ [(w, r, Redirected (authorizeURL gh (EncodeToString b)))]) w'.
Proof.
  intros Hu Hb Hg Hc Hm Hs I. destruct (invariant_extend h w r (Redirected (authorizeURL gh (EncodeToString b)))) as [W U O]; [by intros []|done|].
  split; [| |done].
  - intros state exp. rewrite Hs. intros [[<- <-]|[Hne Hl]]%(lookup_insert_Some (M:=gmap string)).
    + exists (length h). rewrite length_app. split; [cbn; lia|]. exists w, r, gh, b. repeat split; try done.
      rewrite lookup_app_r by lia. by rewrite Nat.sub_diag.
    + destruct (W state exp Hl) as (j & Hj & Hh). exists j. split; [done|].
      rewrite <- (app_nil_r (h ++ _)). apply handed_out_grows with (au_moment w); [done|lia].
  - intros i wi ri ai Hi Hci Hsi. destruct (U i wi ri ai Hi Hci Hsi) as (Hn & j & exp & Hj & Hh & He). split.
    + rewrite Hs. apply (lookup_insert_None (M:=gmap string)). split; [done|]. intros E.
      destruct Hh as (wj & _ & _ & b' & _ & _ & Hr & Hk & Hlt & _). rewrite Hk in E.
      pose proof (Hu _ _ _ _ Hb Hr E). lia.
    + exists j, exp. repeat split; try done. rewrite <- (app_nil_r (h ++ _)). apply handed_out_grows with (au_moment w); [done|lia].
Qed.

Lemma invariant_callback h w w' r a exp : callback r → au_states w !! state_of r = Some exp →
  au_states w' = delete (state_of r) (au_states w) → au_moment w ≤ au_moment w' →
  (signed_in a → (clock (au_moment w) < exp)%Z) →
  sign_in_invariant h w → sign_in_invariant (h ++ [(w, r, a)]) w'.
Proof.
  intros Hc Hl Hs Hm He [W U O]. destruct (W _ _ Hl) as (j0 & Hj0 & Hh0). split.
  - intros state e. rewrite Hs. intros [_ Hk]%(lookup_delete_Some (M:=gmap string)). destruct (W state e Hk) as (j & Hj & Hh).
    exists j. rewrite length_app. split; [lia|]. by apply handed_out_grows with (au_moment w).
  - intros i wi ri ai [Hi|[Hle Hi]]%lookup_app_Some Hci Hsi.
    + destruct (U i wi ri ai Hi Hci Hsi) as (Hn & j & e & Hj & Hh & Hlt). rewrite Hs. split.
      * apply (lookup_delete_None (M:=gmap string)). by right.
      * exists j, e. repeat split; try done. by apply handed_out_grows with (au_moment w).
    + apply list_lookup_singleton_Some in Hi as [Hi [= <- <- <-]]. rewrite Hs. split; [apply (lookup_delete_eq (M:=gmap string))|].
      exists j0, exp. repeat split; [lia| |by apply He]. by apply handed_out_grows with (au_moment w).
  - intros i i' e e' q q' b b' [Hi|[Hle Hi]]%lookup_app_Some [Hi'|[Hle' Hi']]%lookup_app_Some C C' S S' E.
    + by eapply O.
    + apply list_lookup_singleton_Some in Hi' as [_ [= <- <- <-]]. destruct (U _ _ _ _ Hi C S) as [Hn _]. rewrite E in Hn. by pose proof (eq_trans (eq_sym Hl) Hn).
    + apply list_lookup_singleton_Some in Hi as [_ [= <- <- <-]]. destruct (U _ _ _ _ Hi' C' S') as [Hn _]. rewrite <- E in Hn. by pose proof (eq_trans (eq_sym Hl) Hn).
    + apply list_lookup_singleton_Some in Hi as [Hi _], Hi' as [Hi' _]. lia.
Qed.

Lemma sign_in_invariant_holds h w : unrepeated → requests h w → sign_in_invariant h w.
Proof.
  intros Hu. induction 1 as [w Hw|h w c H IH Hc|h w r w' a H IH Hr].
  - split; [intros ? ?; by rewrite Hw|intros i ? ? ? Hi; by rewrite lookup_nil in Hi|intros i ? ? ? ? ? ? ? Hi; by rewrite lookup_nil in Hi].
  - destruct c; try done; revert IH; apply invariant_quiet; [apply same_Issue|apply same_Validate|apply same_Revoke].
  - apply Handler_effect in Hr as [? [Hst Hmo] Hno|gh b Hb Hg Hc Hm Hs|? exp Hc Hl Hs Hm He].
    + apply (invariant_quiet _ w); [done|]. by apply invariant_extend.
    + by apply invariant_start.
    + by apply (invariant_callback h w w' r _ exp).
Qed.

(** C36: A sign-in completes only with a state that an earlier request handed out, before
    the state expires, and each state completes one sign-in at most, however requests and
    other calls follow one another. *)
Theorem sign_in_once h w i wi ri ai :
  unrepeated → requests h w → h !! i = Some (wi, ri, ai) → callback ri → signed_in ai →
  (∃ j exp, j < i ∧ handed_out h (au_moment w) (state_of ri) exp j ∧ (clock (au_moment wi) < exp)%Z) ∧
  (∀ i' w' r' a', h !! i' = Some (w', r', a') → callback r' → signed_in a' → state_of r' = state_of ri → i' = i).
Proof.
  intros Hu Hr Hi Hc Hs. destruct (sign_in_invariant_holds h w Hu Hr) as [_ U O]. split.
  - by destruct (U i wi ri ai Hi Hc Hs) as [_ H].
  - intros i' w' r' a' Hi' Hc' Hs' E. by eapply O.
Qed.
End History.

Module AuthnExample.

#[local] Instance printable : IsPrint := ascii_table.
#[local] Instance json_message : JsonErrors := λ _ _, "cannot unmarshal".

(** A token library whose tokens are the key and the claims, written in bits. *)
Fixpoint bits (p : positive) : string :=
  match p with xH => "" | xO p => String "0" (bits p) | xI p => String "1" (bits p) end.

Fixpoint unbits (s : string) : positive :=
  match s with
  | EmptyString => 1
  | String c s => if Ascii.eqb c "0" then (unbits s)~0 else (unbits s)~1
  end%positive.

Lemma unbits_bits p : unbits (bits p) = p.
Proof. induction p; cbn; congruence. Qed.

Definition token_claims (token : string) : option (string * coachClaims) :=
  match decode (A:=list string * list (option Z)) (unbits token) with
  | Some ([key; provider; login; issuer; subject; id], [iat; exp; nbf]) =>
      Some (key, mkCoachClaims provider login issuer subject id iat exp nbf)
  | _ => None
  end.

#[local] Instance library : JwtLibrary := {|
  NewNumericDate t := (t `div` Second * Second)%Z;
  SignedString key c := inr (bits (encode ([key; cc_Provider c; cc_Login c; cc_Issuer c; cc_Subject c; cc_ID c],
    [cc_IssuedAt c; cc_ExpiresAt c; cc_NotBefore c])));
  ParseWithClaims methods keyFunc token :=
    match token_claims token, keyFunc "HS256" with
    | Some (key, c), inr k =>
        if match methods with Some l => bool_decide ("HS256" ∈ l) | None => true end then
          if k == key then inr (c, true) else inl (errors_New "signature is invalid")
        else inl (errors_New "signing method HS256 is invalid")
    | None, _ => inl (errors_New "token is malformed")
    | _, inl err => inl err
    end
|}.

Definition signed_with (alg key token : string) (c : coachClaims) : Prop := alg = "HS256" ∧ token_claims token = Some (key, c).

#[local] Instance library_laws : JwtLaws library signed_with.
Proof.
  split; [done|..]; cbn.
  - intros key c token methods keyFunc _ _ [= <-] Hm Hk. unfold token_claims. rewrite unbits_bits, decode_encode, Hk.
    rewrite String.eqb_refl. destruct methods as [l|]; [rewrite (bool_decide_eq_true_2 _ Hm)|]; by destruct c.
  - intros methods keyFunc token c. unfold signed_with. destruct (token_claims token) as [[key c']|]; [|done].
    destruct (keyFunc "HS256") as [|k] eqn:Ek; [done|].
    destruct (match methods with Some l => _ | None => true end) eqn:Hm; [|done].
    destruct (String.eqb_spec k key) as [->|]; [|done]. intros [= <-]. exists "HS256", key. repeat split; try done.
    destruct methods; [by apply bool_decide_eq_true in Hm|done].
Defined.

Definition clock (t : nat) : Time := (Z.of_nat t * Second + 500)%Z.
Definition random (t : nat) : error + list N :=
  if t <? 200 then inr (N.of_nat t :: replicate 15 7%N) else inl (errors_New "no entropy").
Definition github (t : nat) (r : GitHubRequest) : HttpOutcome :=
  HttpResponse 200 (if gr_Method r == "POST" then jtext "{'access_token':'gho_1','token_type':'bearer'}"
                    else jtext "{'id':42,'login':'octocat'}").

Lemma random_bytes : bytes16 random.
Proof.
  intros t b. unfold random. destruct (Nat.ltb_spec t 200); [|done]. intros [= <-]. split; [done|].
  intros x [<-|Hx]; [lia|]. cbn in Hx. repeat (destruct Hx as [<-|Hx]; [done|]). done.
Qed.

Lemma random_unrepeated : unrepeated random.
Proof.
  intros t t' b b' H H' E. apply EncodeToString_inj in E; [|by eapply random_bytes..]. subst b'.
  unfold random in *. destruct (Nat.ltb_spec t 200), (Nat.ltb_spec t' 200); try done. injection H as <-. injection H' as H'. lia.
Qed.

Definition sign_in_config : GitHubOAuthConfig :=
  mkGitHubOAuthConfig "client" "secret" "https://github.com" "https://api.github.com" "https://coach.example/oauth/github/callback" false.

Definition service : Service :=
  mkService "signing-key" "coach" Hour true InMemory false (Some sign_in_config) InMemory (10 * Minute)%Z
    (Some (DefaultClient DefaultGitHubHTTPClientTimeout)).

Notation world := (@auth_world MemoryDenylist MemoryOAuthState).
Definition fresh (t : nat) : world := mkAuthWorld ∅ ∅ t.
Definition alice : Principal := mkPrincipal "github" "1" "alice".

Definition issued : world * (error + string) := Issue clock random service alice (fresh 3).
Definition token : string := match issued.2 with inr token => token | inl _ => "" end.

Lemma validate_exact_witness :
  let r := (Validate clock service token (fresh 9)).2 in
  r = inr alice ∧ ∃ c, trusted signed_with service token (clock 9) c ∧ cc_Login c = "alice".
Proof.
  intros r. assert (E : r = inr alice) by (vm_compute; reflexivity). split; [exact E|].
  destruct (Validate clock service token (fresh 9)) as [w' a] eqn:H. unfold r in E. cbn [snd] in E.
  destruct (validate_exact signed_with clock service token (fresh 9) w' a H) as [Hx _].
  destruct (proj1 (Hx alice) E) as (c & Hc & _ & _ & _ & _ & Hp). exists c. split; [exact Hc|].
  by injection Hp as _ _ <-.
Defined.

Lemma issued_authenticates_witness :
  (Validate clock service token (fresh 100)).2 = inr alice.
Proof.
  assert (H : Issue clock random service alice (fresh 3) = (issued.1, inr token)) by (vm_compute; reflexivity).
  assert (V : ∀ s, ascii_only s = true → valid_utf8 s) by (intros; by apply ascii_valid).
  destruct (issued_authenticates signed_with clock random service alice token (fresh 3) issued.1 random_bytes
    (V (pr_Provider alice) eq_refl) (V (pr_Subject alice) eq_refl) (V (pr_Login alice) eq_refl) (V (sv_issuer service) eq_refl) H)
    as (b & Hb & Hv & _).
  injection Hb as <-. apply Hv; vm_compute; reflexivity.
Defined.

Definition me : AuthRequest := mkAuthRequest "GET" ["v1"; "me"] [] ("Bearer " +:+ token) "".
Definition revoked : world * option error := Revoke clock service token (fresh 9).

Lemma revoked_forever_witness :
  (Handler clock random github service me (perform_all clock random github service
     [CallIssue alice; CallRequest me; CallRevoke "other"] revoked.1)).2
  = writeAPIError 401 ErrorCodeUnauthenticated "unauthenticated".
Proof.
  assert (H : Revoke clock service token (fresh 9) = (revoked.1, None)) by (vm_compute; reflexivity).
  assert (M : me_request token me) by (repeat split; vm_compute; reflexivity).
  exact (proj2 (revoked_forever signed_with clock random github service token (fresh 9) revoked.1 _ me H M)).
Defined.

Definition start : AuthRequest := mkAuthRequest "GET" ["oauth"; "github"; "start"] [] "" "".
Definition begun : world * Answer := Handler clock random github service start (fresh 0).
Definition back : AuthRequest :=
  mkAuthRequest "GET" ["oauth"; "github"; "callback"] [("state", "00070707070707070707070707070707"); ("code", "c")] "" "".
Definition finished : world * Answer := Handler clock random github service back begun.1.
Definition again : world * Answer := Handler clock random github service back finished.1.

Example replay_refused : again.2 = writeAPIError 400 ErrorCodeInvalidRequest "invalid or expired oauth state".
Proof. vm_compute. reflexivity. Qed.

(** The sign-in ends at the fifth moment. *)
Definition minted : string :=
  match (Issue clock random service (mkPrincipal "github" "42" "octocat") (fresh 5)).2 with inr token => token | inl _ => "" end.

Lemma sign_in_once_witness :
  ∃ j exp, j < 1 ∧ handed_out clock random service [(fresh 0, start, begun.2); (begun.1, back, finished.2)]
    (au_moment finished.1) (state_of back) exp j ∧ (clock (au_moment begun.1) < exp)%Z.
Proof.
  set (h := [(fresh 0, start, begun.2); (begun.1, back, finished.2)]).
  assert (R : requests clock random github service h finished.1).
  { apply (requests_one clock random github service [(fresh 0, start, begun.2)] begun.1 back finished.1 finished.2).
    - apply (requests_one clock random github service [] (fresh 0) start begun.1 begun.2); [by apply requests_none|apply surjective_pairing].
    - apply surjective_pairing. }
  assert (S : signed_in finished.2) by (exists minted; vm_compute; reflexivity).
  exact (proj1 (sign_in_once clock random github service h finished.1 1 begun.1 back finished.2
    random_unrepeated R eq_refl eq_refl S)).
Defined.

End AuthnExample.
