(* ===== verification/TreeSource.v ===== *)
(** * Where a baseline scan reads from

    [internal/coachapi/baseline/tree_source*.go], [findings.go]: the trees a scan lists
    and reads (a repository through the GitHub API, or a directory the operator
    configured), the loading of its files, and the rows its deterministic findings
    become.  The operating system's files and GitHub's client are the environment. *)

From S2P Require Import Prelude GoText Paths GoErr Json Semantics Domain Signals SignalOrder Report SignalWire JobStore JobParams Ingest Gateway AgentLoop Judgment.

(** ** Port *)

(** go: internal/coachapi/baseline/tree_source.go#FileEntry *)
Record FileEntry := mkFileEntry { fe_Path : string; fe_SHA : string; fe_Size : Z }.

(** go: internal/coachapi/baseline/tree_source.go#ListOptions *)
Record ListOptions := mkListOptions { lo_MaxFiles : Z; lo_MaxTotalBytes : Z }.

(** The methods at a moment; a listing that never ends gives [None].
    go: internal/coachapi/baseline/tree_source.go#TreeSource *)
Record TreeSource := mkTreeSource {
  ts_ResolveCommitSHA : string → string → string → nat → (error + string) * nat;
  ts_ListFiles : string → string → string → ListOptions → nat → option ((error + list FileEntry) * nat);
  ts_ReadFile : string → string → string → string → nat → (error + string * string) * nat
}.

(** go: internal/coachapi/baseline/tree_source.go#localFixtureCommitSHA *)
Definition localFixtureCommitSHA : string := "local-fixture".

(** go: pkg/semantics/language.go#LanguageForExtension *)
Definition LanguageForExtension (ext : string) : option string :=
  let ext := ToLower ext in
  if ext == ".go" then Some "go" else if ext == ".ts" then Some "typescript"
  else if ext == ".tsx" then Some "tsx" else None.

(** go: internal/coachapi/baseline/tree_source.go#supportedBaselinePath *)
Definition supportedBaselinePath (path : string) : bool :=
  match LanguageForExtension (Ext path) with Some _ => true | None => false end.

(** ** The operating system *)

Inductive FileMode := ModeRegular | ModeDir | ModeSymlink | ModeOther.

#[export] Instance FileMode_eq_dec : EqDecision FileMode.
Proof. solve_decision. Defined.

(** A failed file system call: the error, and whether [os.IsNotExist] holds of it. *)
Definition OsFailure : Type := error * bool.

(** What [filepath.WalkDir] visits: a path with the error that met it, the entry's type,
    and what [Info] says of it later (its mode then, and its size). *)
Record WalkEvent := mkWalkEvent {
  ev_Path : string; ev_Err : option error; ev_Type : FileMode; ev_Info : error + FileMode * Z
}.

Class FileSystem := {
  fs_Abs : string → error + string;
  fs_Stat : nat → string → error + FileMode;
  fs_Lstat : nat → string → OsFailure + FileMode;
  fs_ReadFile : nat → string → OsFailure + string;
  fs_WalkDir : nat → string → list WalkEvent
}.

Section Fixture.
Context {table : IsPrint} {fs : FileSystem}.

Definition not_configured : error := errors_New "coachapi: local fixture path is not configured".

(** *** Listing the fixture *)

(** go: internal/coachapi/baseline/tree_source_local_fixture_walk.go#localFixtureTreeWalker *)
Record localFixtureTreeWalker := mkWalker { wk_out : list FileEntry; wk_totalBytes : Z }.

(** go: internal/coachapi/baseline/tree_source_local_fixture_walk.go#visit *)
Definition visit (root : string) (opts : ListOptions) (w : localFixtureTreeWalker) (d : WalkEvent) :
    localFixtureTreeWalker * option error :=
  match ev_Err d with
  | Some walkErr => (w, Some walkErr)
  | None =>
      if bool_decide (ev_Type d = ModeSymlink) then (w, None)
      else if bool_decide (ev_Type d = ModeDir) then (w, None)
      else
        let rel := Rel root (ev_Path d) in
        if negb (supportedBaselinePath rel) then (w, None)
        else match ev_Info d with
        | inl err => (w, Some err)
        | inr (mode, size) =>
            if bool_decide (mode ≠ ModeRegular) then (w, None)
            else if (0 <? lo_MaxFiles opts)%Z && (lo_MaxFiles opts <? zlen (wk_out w) + 1)%Z
            then (w, Some (Wrap ("coachapi: local fixture tree exceeds the configured file-count budget of "
                     +:+ Itoa (lo_MaxFiles opts)) (sentinel_error GhErrTooLarge)))
            else
              let newTotal := int64_wrap (wk_totalBytes w + size) in
              if (0 <? lo_MaxTotalBytes opts)%Z && (lo_MaxTotalBytes opts <? newTotal)%Z
              then (w, Some (Wrap ("coachapi: local fixture tree exceeds the configured byte budget of "
                       +:+ Itoa (lo_MaxTotalBytes opts) +:+ " bytes") (sentinel_error GhErrTooLarge)))
              else (mkWalker (wk_out w ++ [mkFileEntry rel "" size]) newTotal, None)
        end
  end.

(** [filepath.WalkDir] visits until a visit returns an error. *)
Fixpoint visit_all (root : string) (opts : ListOptions) (w : localFixtureTreeWalker) (events : list WalkEvent) :
    localFixtureTreeWalker * option error :=
  match events with
  | [] => (w, None)
  | d :: events =>
      match visit root opts w d with
      | (w, None) => visit_all root opts w events
      | failed => failed
      end
  end.

(** go: internal/coachapi/baseline/tree_source_local_fixture.go#ListFiles *)
Definition fixture_ListFiles (Root : string) (opts : ListOptions) (t : nat) : (error + list FileEntry) * nat :=
  if Root == "" then (inl not_configured, t) else
  match fs_Abs Root with
  | inl err => (inl (Errorf "coachapi: resolving smoke fixture path: " err), t)
  | inr root =>
      match fs_Stat t root with
      | inl err => (inl (Errorf ("coachapi: smoke fixture path " +:+ quoted root +:+ ": ") err), S t)
      | inr mode =>
          if bool_decide (mode ≠ ModeDir)
          then (inl (errors_New ("coachapi: smoke fixture path " +:+ quoted root +:+ " is not a directory")), S t)
          else match visit_all root opts (mkWalker [] 0) (fs_WalkDir (S t) root) with
          | (_, Some err) => (inl err, S (S t))
          | (w, None) => (inr (wk_out w), S (S t))
          end
      end
  end.

(** *** Reading from the fixture *)

(** go: internal/coachapi/baseline/tree_source_local_fixture_read.go#ReadFile *)
Definition fixture_ReadFile (Root path : string) (t : nat) : (error + string * string) * nat :=
  if Root == "" then (inl not_configured, t) else
  match fs_Abs Root with
  | inl err => (inl (Errorf "coachapi: resolving smoke fixture path: " err), t)
  | inr root =>
      let full := Clean (Join2 root path) in
      let rel := Rel root full in
      let missing := Wrap ("coachapi: fixture file " +:+ quoted path) (sentinel_error GhErrNotFound) in
      if (rel == "..") || HasPrefix "../" rel
      then (inl (Wrap ("coachapi: path " +:+ quoted path +:+ " escapes smoke fixture root")
              (sentinel_error GhErrNotFound)), t)
      else match fs_Lstat t full with
      | inl (err, notExist) => (inl (if notExist then missing else err), S t)
      | inr mode =>
          if bool_decide (mode = ModeSymlink)
          then (inl (Wrap ("coachapi: fixture path " +:+ quoted path +:+ " is a symlink")
                  (sentinel_error GhErrUnsupportedContent)), S t)
          else if bool_decide (mode ≠ ModeRegular)
          then (inl (Wrap ("coachapi: fixture path " +:+ quoted path +:+ " is not a regular file")
                  (sentinel_error GhErrUnsupportedContent)), S t)
          else match fs_ReadFile (S t) full with
          | inl (err, notExist) => (inl (if notExist then missing else err), S (S t))
          | inr "" => (inl (Wrap ("coachapi: fixture file " +:+ quoted path) (sentinel_error GhErrEmptyContent)), S (S t))
          | inr content => (inr (content, "local-fixture"), S (S t))
          end
      end
  end.

(** go: internal/coachapi/baseline/tree_source_local_fixture.go#LocalFixtureTreeSource *)
Definition LocalFixtureTreeSource (Root : string) : TreeSource := {|
  ts_ResolveCommitSHA _ _ _ t := (if Root == "" then inl not_configured else inr localFixtureCommitSHA, t);
  ts_ListFiles _ _ _ opts t := Some (fixture_ListFiles Root opts t);
  ts_ReadFile _ _ _ path t := fixture_ReadFile Root path t
|}.
End Fixture.

(** ** A repository on GitHub *)

Section GitHub.
Context {client : GitHubClient} `{Base64Errors}.

(** How deep a tree a listing may be.
    go: internal/coachapi/baseline/tree_source_github.go#ListFiles *)
Definition github_ListFiles (depth : nat) (owner repo ref : string) (opts : ListOptions) (t : nat) :
    option ((error + list FileEntry) * nat) :=
  match ListFiles depth (mkTreeRef owner repo ref)
          (mkTreeListOptions (Some supportedBaselinePath) (lo_MaxFiles opts) (lo_MaxTotalBytes opts)) t with
  | None => None
  | Some (inl err, t) => Some (inl err, t)
  | Some (inr entries, t) => Some (inr (map (λ e, mkFileEntry (te_Path e) (te_SHA e) (te_Size e)) entries), t)
  end.

(** go: internal/coachapi/baseline/tree_source_github.go#ReadFile *)
Definition github_ReadFile (owner repo ref path : string) (t : nat) : (error + string * string) * nat :=
  match ReadFile (mkFileRef owner repo ref path) t with
  | (inl err, t) => (inl err, t)
  | (inr (content, meta), t) => (inr (content, md_SHA meta), t)
  end.

(** go: internal/coachapi/baseline/tree_source_github.go#GitHubTreeSource *)
Definition GitHubTreeSource (depth : nat) : TreeSource := {|
  ts_ResolveCommitSHA := ResolveCommitSHA;
  ts_ListFiles := github_ListFiles depth;
  ts_ReadFile := github_ReadFile
|}.
End GitHub.

(** *** Credentials per repository *)

Section Resolving.
(** The client of the credential resolver, the client a reader has for a token, and what
    building that reader answers. *)
Context {resolver : GitHubClient} (client_for : string → GitHubClient) (reader_error : string → option error) `{Base64Errors}.

(** go: internal/coachapi/baseline/tree_source_resolving.go#readerFor *)
Definition readerFor (InstallationID : Z) (owner repo : string) (t : nat) : (error + GitHubClient) * nat :=
  let '(resolved, t) := if (InstallationID =? 0)%Z then ResolveInstallationID owner repo t else (inr InstallationID, t) in
  match resolved with
  | inl err => (inl err, t)
  | inr id =>
      match InstallationToken id t with
      | (inl err, t) => (inl err, t)
      | (inr token, t) =>
          (match checkReaderToken token with
           | Some err => inl err
           | None => match reader_error token with Some err => inl err | None => inr (client_for token) end
           end, t)
      end
  end.

(** Each method resolves a reader of its own.
    go: internal/coachapi/baseline/tree_source_resolving.go#ResolvingGitHubTreeSource *)
Definition ResolvingGitHubTreeSource (depth : nat) (InstallationID : Z) : TreeSource := {|
  ts_ResolveCommitSHA owner repo ref t :=
    match readerFor InstallationID owner repo t with
    | (inl err, t) => (inl err, t)
    | (inr reader, t) => @ResolveCommitSHA reader owner repo ref t
    end;
  ts_ListFiles owner repo ref opts t :=
    match readerFor InstallationID owner repo t with
    | (inl err, t) => Some (inl err, t)
    | (inr reader, t) => @github_ListFiles reader depth owner repo ref opts t
    end;
  ts_ReadFile owner repo ref path t :=
    match readerFor InstallationID owner repo t with
    | (inl err, t) => (inl err, t)
    | (inr reader, t) => @github_ReadFile reader _ owner repo ref path t
    end
|}.
End Resolving.

(** ** Choosing and loading *)

(** go: internal/coachapi/baseline/tree_source.go#resolveBaselineTreeSource *)
Definition resolveBaselineTreeSource {table : IsPrint} {fs : FileSystem} (configured : option TreeSource)
    (cfg : ScanConfig) (params : RepoBaselineScanParams) : error + TreeSource :=
  if (sc_SmokeFixturePath cfg != "") && (sc_SmokeRepoOwner cfg != "") && (sc_SmokeRepoName cfg != "")
     && (sp_RepoOwner params == sc_SmokeRepoOwner cfg) && (sp_RepoName params == sc_SmokeRepoName cfg)
  then inr (LocalFixtureTreeSource (sc_SmokeFixturePath cfg))
  else match configured with
  | None => inl (errors_New ("coachapi: no tree source configured for " +:+ sp_RepoOwner params +:+ "/"
                   +:+ sp_RepoName params +:+ " (not the smoke fixture pair)"))
  | Some source => inr source
  end.

(** go: internal/coachapi/baseline/tree_source.go#mapBaselineFetchError *)
Definition mapBaselineFetchError (err : error) : error :=
  if (errors_Is err GhErrNotFound || errors_Is err GhErrAuth || errors_Is err GhErrTooLarge
      || errors_Is err GhErrUnsupportedContent || errors_Is err GhErrEmptyContent)
     && HasPrefix "coachapi:" (err_Error err)
  then err else Errorf "coachapi: baseline fetch failed: " err.

(** go: internal/coachapi/baseline/tree_source.go#loadBaselineFiles *)
Fixpoint loadBaselineFiles (source : TreeSource) (params : RepoBaselineScanParams) (ref : string)
    (entries : list FileEntry) (t : nat) : (error + list loadedBaselineFile) * nat :=
  match entries with
  | [] => (inr [], t)
  | e :: entries =>
      match LanguageForExtension (Ext (fe_Path e)) with
      | None => loadBaselineFiles source params ref entries t
      | Some lang =>
          match ts_ReadFile source (sp_RepoOwner params) (sp_RepoName params) ref (fe_Path e) t with
          | (inl err, t) => (inl (mapBaselineFetchError err), t)
          | (inr (content, _), t) =>
              match loadBaselineFiles source params ref entries t with
              | (inl err, t) => (inl err, t)
              | (inr files, t) => (inr (mkLoadedFile (fe_Path e) lang content None :: files), t)
              end
          end
      end
  end.

(** ** Rows of the deterministic findings *)

(** The row of a signal, its identifier given; a signal always marshals. *)
Definition finding_of_signal (id : string) (sig : Signal) : JobFinding :=
  mkJobFinding id "" 0 FindingSourceDeterministic None None None (marshal_signal sig)
    (if sig_Fingerprint sig == ""
     then stablePayloadHash ["deterministic"; sig_RuleID sig; sig_Path sig; sig_Subject sig; sig_Evidence sig]
     else sig_Fingerprint sig) 0%Z.

(** The rows, from identifier [n] on; [None] is the nil report.
    go: internal/coachapi/baseline/findings.go#findingsFromCodeSignalReport *)
Definition findingsFromCodeSignalReport (NewUUID : nat → string) (n : nat) (report : option Report.Report) :
    list JobFinding :=
  match report with
  | None => []
  | Some report => imap (λ i sig, finding_of_signal (NewUUID (n + i)) sig) (rep_Signals report)
  end.

(** A fresh loop with the core tools, enough calls for the files.
    go: internal/coachapi/baseline/analysis_loop.go#newAnalyzeLoop *)
Definition newAnalyzeLoop {table : IsPrint} (ds dc : ToolHandler) (cfg : ScanConfig) (fileCount : Z) (now : Time) : Loop :=
  default id (sc_ConfigureLoop cfg)
    (New ds dc (mkOptions (mkBudget (Z.max (int64_wrap (fileCount + 1 + 10)) DefaultMaxToolCalls) 0%Z 0%Z) None None) now).

(** ** Reads from the fixture *)

Section FixtureProofs.
Context {table : IsPrint} {fs : FileSystem}.

(** [filepath.Abs] gives an absolute path. *)
Class AbsRooted := abs_rooted : ∀ p root, fs_Abs p = inr root → HasPrefix "/" root = true.

(** A read from the fixture stays inside it, whatever path is asked for.  What is
    handed over is the non-empty content of a path below the root's, by elements none of
    which goes up, that was a regular file and no symbolic link when it was looked at. *)
Theorem fixture_read_contained {rooted : AbsRooted} Root path t content sha t' :
  fixture_ReadFile Root path t = (inr (content, sha), t') →
  ∃ root full down, fs_Abs Root = inr root
    ∧ segments full = segments root ++ down ∧ Forall plain_element (segments full)
    ∧ fs_Lstat t full = inr ModeRegular ∧ fs_ReadFile (S t) full = inr content ∧ content ≠ "".
Proof.
  unfold fixture_ReadFile. destruct (Root == ""); [done|]. destruct (fs_Abs Root) as [|root] eqn:Er; [done|].
  set (full := Clean (Join2 root path)). destruct (_ || _) eqn:Ee; [done|].
  apply orb_false_iff in Ee as [E1 E2]. apply String.eqb_neq in E1.
  destruct (Rel_inside _ _ E1 E2) as [down Hd].
  destruct (fs_Lstat t full) as [[]|mode] eqn:El; [done|].
  case_bool_decide as Em; [done|]. case_bool_decide as Er2; [done|].
  assert (mode = ModeRegular) as -> by (by destruct (decide (mode = ModeRegular))).
  destruct (fs_ReadFile (S t) full) as [[]|[|c rest]] eqn:Ef; try done. intros [= <- _ _].
  exists root, full, down. split_and!; try done. apply segments_Clean. apply rooted in Er.
  unfold Join2. destruct (String.eqb_spec root "") as [->|]; [done|].
  destruct (path == ""); apply HasPrefix_slash_Clean; [done|by apply HasPrefix_slash_app].
Qed.
End FixtureProofs.

(** ** The two listings *)

(** What a walk event lists: a supported file's path and size. *)
Definition listed_event (root : string) (d : WalkEvent) : option (string * Z) :=
  match ev_Type d, ev_Info d with
  | (ModeRegular | ModeOther), inr (ModeRegular, size) =>
      if supportedBaselinePath (Rel root (ev_Path d)) then Some (Rel root (ev_Path d), size) else None
  | _, _ => None
  end.

(** What an entry of the API lists. *)
Definition listed_content (c : RepositoryContent) : option (string * Z) :=
  if supportedBaselinePath (gc_Path c) then Some (gc_Path c, gc_Size c) else None.

(** The walk met no error. *)
Definition clean_event (d : WalkEvent) : Prop := ev_Err d = None ∧ ∃ info, ev_Info d = inr info.

(** Filling a listing under the budgets, one file after the other: [false] once a file
    does not fit. *)
Fixpoint fill (opts : ListOptions) (n total : Z) (l : list (string * Z)) : bool :=
  match l with
  | [] => true
  | (_, size) :: l =>
      let total' := int64_wrap (total + size) in
      if ((0 <? lo_MaxFiles opts)%Z && (lo_MaxFiles opts <? n + 1)%Z)
         || ((0 <? lo_MaxTotalBytes opts)%Z && (lo_MaxTotalBytes opts <? total')%Z)
      then false else fill opts (n + 1) total' l
  end.

Lemma zlen_snoc {A} (l : list A) x : zlen (l ++ [x]) = (zlen l + 1)%Z.
Proof. unfold zlen. rewrite length_app. cbn. lia. Qed.

(** A listing that fits is what is listed; one that does not is too large. *)
Definition fills (opts : ListOptions) (l : list (string * Z)) (n total : Z)
    (before : list (string * Z)) (after : option (list (string * Z)) * option error) : Prop :=
  if fill opts n total l then after = (Some (before ++ l), None)
  else ∃ e, snd after = Some e ∧ errors_Is e GhErrTooLarge = true.

Definition file_names (l : list FileEntry) : list (string * Z) := map (λ e, (fe_Path e, fe_Size e)) l.
Definition entry_names (l : list TreeEntry) : list (string * Z) := map (λ e, (te_Path e, te_Size e)) l.

Lemma visit_all_fills root opts events : ∀ w, Forall clean_event events →
  let r := visit_all root opts w events in
  fills opts (omap (listed_event root) events) (zlen (wk_out w)) (wk_totalBytes w) (file_names (wk_out w))
    (match r.2 with None => Some (file_names (wk_out r.1)) | Some _ => None end, r.2).
Proof.
  unfold fills. induction events as [|d events IH]; intros w Hc; cbn [visit_all omap list_omap].
  { cbn. by rewrite app_nil_r. }
  inversion Hc as [|?? [He (info & Hi)] Hr]; subst. unfold visit, listed_event. rewrite He, Hi.
  destruct info as [mode size].
  destruct (ev_Type d); cbn; rewrite ?bool_decide_true, ?bool_decide_false by done; try by apply IH.
  all: destruct (supportedBaselinePath _) eqn:Es; cbn [negb]; [|destruct mode; by apply IH].
  all: destruct mode; rewrite ?bool_decide_true, ?bool_decide_false by (done || congruence); try by apply IH.
  all: cbn [fill]; destruct (_ && _) eqn:Ef; cbn [orb]; [by eexists|].
  all: destruct ((0 <? lo_MaxTotalBytes opts)%Z && _) eqn:Eb; [by eexists|].
  all: specialize (IH (mkWalker (wk_out w ++ [mkFileEntry (Rel root (ev_Path d)) "" size])
         (int64_wrap (wk_totalBytes w + size))) Hr); cbn [wk_out wk_totalBytes] in IH.
  all: unfold file_names in *; rewrite zlen_snoc, map_app, <- app_assoc in IH; exact IH.
Qed.

Lemma append_all_fills {client : GitHubClient} ref opts cs : ∀ w,
  let r := append_all ref (mkTreeListOptions (Some supportedBaselinePath) (lo_MaxFiles opts) (lo_MaxTotalBytes opts)) cs w in
  fills opts (omap listed_content cs) (zlen (tw_entries w)) (tw_totalBytes w) (entry_names (tw_entries w))
    (match r.2 with None => Some (entry_names (tw_entries r.1)) | Some _ => None end, r.2).
Proof.
  unfold fills. induction cs as [|c cs IH]; intros w; cbn [append_all omap list_omap].
  { cbn. by rewrite app_nil_r. }
  unfold appendFile, listed_content. cbn [tl_Filter tl_MaxFiles tl_MaxTotalBytes].
  destruct (supportedBaselinePath _); cbn [negb]; [|by apply IH].
  cbn [fill]. destruct (_ && _) eqn:Ef; cbn [orb]; [by eexists|].
  destruct ((0 <? lo_MaxTotalBytes opts)%Z && _) eqn:Eb; [by eexists|].
  specialize (IH (mkTreeWalk (tw_entries w ++ [mkTreeEntry (gc_Path c) (gc_SHA c) (gc_Size c)])
    (int64_wrap (tw_totalBytes w + gc_Size c)) (tw_moment w))). cbn [tw_entries tw_totalBytes] in IH.
  unfold entry_names in *. rewrite zlen_snoc, map_app, <- app_assoc in IH. exact IH.
Qed.

(** What a caller sees of a listing: the paths and sizes, or that the tree is too large. *)
Definition outcome_of (r : error + list FileEntry) : list (string * Z) + bool :=
  match r with
  | inr l => inl (file_names l)
  | inl e => inr (errors_Is e GhErrTooLarge)
  end.

(** The fixture is listed as GitHub lists a repository: when the walk of a directory
    and the API's tree hold the same supported regular files in the same order, and
    neither meets an error, then under any budgets, sizes that overflow the count
    included, both list the same paths and sizes or both are refused as too large;
    links, submodules, directories and other files change neither. *)
Theorem listing_parity {table : IsPrint} {fs : FileSystem} {client : GitHubClient} Root root opts owner repo ref depth t t1 cs :
  Root ≠ "" → fs_Abs Root = inr root → fs_Stat t root = inr ModeDir →
  Forall clean_event (fs_WalkDir (S t) root) →
  unchanging (mkTreeRef owner repo ref) → files_below (mkTreeRef owner repo ref) depth "" = Some cs →
  omap (listed_event root) (fs_WalkDir (S t) root) = omap listed_content cs →
  ∃ r t2, github_ListFiles depth owner repo ref opts t1 = Some (r, t2)
    ∧ outcome_of (fst (fixture_ListFiles Root opts t)) = outcome_of r.
Proof.
  intros HR HA HS Hc Hstill Hcs Hsame.
  destruct (walk_is_append_all (mkTreeRef owner repo ref)
    (mkTreeListOptions (Some supportedBaselinePath) (lo_MaxFiles opts) (lo_MaxTotalBytes opts)) Hstill depth "" cs
    (mkTreeWalk [] 0 t1) Hcs) as [t2 Hw].
  pose proof (append_all_fills (mkTreeRef owner repo ref) opts cs (mkTreeWalk [] 0 t1)) as Hg.
  pose proof (visit_all_fills root opts (fs_WalkDir (S t) root) (mkWalker [] 0) Hc) as Hf.
  unfold fixture_ListFiles, github_ListFiles, ListFiles. apply String.eqb_neq in HR. rewrite HR, HA, HS.
  rewrite bool_decide_false by (by intros []). rewrite Hw. rewrite Hsame in Hf. unfold fills in *. cbn [wk_out wk_totalBytes tw_entries tw_totalBytes app file_names entry_names map] in Hf, Hg.
  change (zlen []) with 0%Z in Hf, Hg.
  destruct (append_all _ _ cs _) as [wg eg], (visit_all root opts _ _) as [wf ef]. cbn [fst snd] in *.
  destruct (fill opts 0 0 (omap listed_content cs)).
  - destruct ef as [|], eg as [|]; try done. injection Hf as Hf. injection Hg as Hg.
    do 2 eexists. split; [done|]. cbn. rewrite Hf. unfold file_names. rewrite map_map. cbn. f_equal. by rewrite <- Hg.
  - destruct Hf as (e1 & -> & H1), Hg as (e2 & -> & H2). do 2 eexists. split; [done|]. cbn. by rewrite H1, H2.
Qed.

(** ** Loading *)

(** The entries whose language is supported. *)
Definition supported_entries (entries : list FileEntry) : list FileEntry :=
  List.filter (λ e, supportedBaselinePath (fe_Path e)) entries.

(** A loaded file is what the source handed over for an entry's path at the ref. *)
Definition read_of (source : TreeSource) (params : RepoBaselineScanParams) (ref : string)
    (e : FileEntry) (f : loadedBaselineFile) : Prop :=
  lbf_Path f = fe_Path e ∧ LanguageForExtension (Ext (fe_Path e)) = Some (lbf_Language f) ∧ lbf_Result f = None
  ∧ ∃ t sha t', ts_ReadFile source (sp_RepoOwner params) (sp_RepoName params) ref (fe_Path e) t
      = (inr (lbf_Content f, sha), t').

Lemma HasPrefix_append p s : HasPrefix p (p +:+ s) = true.
Proof. unfold HasPrefix. by rewrite CutPrefix_app. Qed.

Lemma mapBaselineFetchError_spec e :
  (∀ s, errors_Is (mapBaselineFetchError e) s = errors_Is e s)
  ∧ HasPrefix "coachapi:" (err_Error (mapBaselineFetchError e)) = true.
Proof.
  unfold mapBaselineFetchError. destruct (_ && _) eqn:E; [by apply andb_true_iff in E as [_ ->]|].
  split; [done|]. exact (HasPrefix_append "coachapi:" (" baseline fetch failed: " +:+ err_Error e)).
Qed.

(** Loading is all or nothing.  It gives one file per entry of a supported language,
    in the order of the entries, each the source's content of that path at the commit
    resolved; or it stops at the first read that fails, with an error that carries the
    coachapi prefix and is every sentinel the source's error is, so that the job fails
    for the reason the source gave. *)
Theorem loading_exact source params ref entries t :
  match fst (loadBaselineFiles source params ref entries t) with
  | inr files => Forall2 (read_of source params ref) (supported_entries entries) files
  | inl err =>
      HasPrefix "coachapi:" (err_Error err) = true
      ∧ ∃ e cause t0 t1, In e (supported_entries entries)
          ∧ ts_ReadFile source (sp_RepoOwner params) (sp_RepoName params) ref (fe_Path e) t0 = (inl cause, t1)
          ∧ ∀ s, errors_Is err s = errors_Is cause s
  end.
Proof.
  revert t. induction entries as [|e entries IH]; intros t; cbn [loadBaselineFiles supported_entries List.filter]; [constructor|].
  unfold supportedBaselinePath. destruct (LanguageForExtension (Ext (fe_Path e))) as [lang|] eqn:El; [|apply IH].
  destruct (ts_ReadFile _ _ _ _ _ t) as [[cause|[content sha]] t1] eqn:Er; cbn [fst].
  - destruct (mapBaselineFetchError_spec cause) as [H1 H2]. split; [done|].
    exists e, cause, t, t1. split; [by left|]. by split.
  - specialize (IH t1). destruct (loadBaselineFiles source params ref entries t1) as [[err|files] t2]; cbn [fst] in *.
    + destruct IH as (H1 & e' & cause & t0 & t3 & Hin & Hr & Hs). split; [done|].
      exists e', cause, t0, t3. split; [by right|]. by split.
    + constructor; [|done]. split_and!; [done|done|done|]. by exists t, sha, t1.
Qed.

(** ** From findings to judgment *)

Definition is_hidden_mutation (s : Signal) : bool :=
  (sig_Kind s == "hidden_input_mutation") || (sig_RuleID s == "state.hidden_input_mutation").

Lemma finding_payload id s : signal_wf s → unmarshal_signal (jf_Payload (finding_of_signal id s)) = Some s.
Proof. apply signal_reads_back. Qed.

Lemma hidden_of_finding id s : signal_wf s →
  hiddenMutationSignal (jf_Payload (finding_of_signal id s)) = if is_hidden_mutation s then Some s else None.
Proof.
  intros H. unfold hiddenMutationSignal. rewrite finding_payload by done. unfold is_hidden_mutation.
  by destruct (sig_Kind s == _), (sig_RuleID s == _).
Qed.

(** What the analyzer reports reaches the judges unchanged.  There is one row per
    signal, in order, under distinct positions of the identifier source; each row's
    payload reads back as its signal, its hash is the signal's fingerprint when there is
    one; and the findings the judgment phase counts are exactly the signals of hidden
    mutation. *)
Theorem deterministic_rows NewUUID n report :
  Forall signal_wf (rep_Signals report) →
  let rows := findingsFromCodeSignalReport NewUUID n (Some report) in
  map (λ f, unmarshal_signal (jf_Payload f)) rows = map Some (rep_Signals report)
  ∧ map jf_ID rows = map NewUUID (seq n (length (rep_Signals report)))
  ∧ (∀ s f, In (s, f) (zip (rep_Signals report) rows) → sig_Fingerprint s ≠ "" → jf_PayloadHash f = sig_Fingerprint s)
  ∧ countHiddenMutationFindings rows = zlen (List.filter is_hidden_mutation (rep_Signals report)).
Proof.
  intros Hw. cbv zeta. unfold findingsFromCodeSignalReport, countHiddenMutationFindings. revert n.
  induction Hw as [|s l Hs _ IH]; intros n.
  { cbn. split_and!; [done|done|by intros|done]. }
  rewrite imap_cons. assert (∀ f : nat → string, imap ((λ i sig, finding_of_signal (f (n + i)) sig) ∘ S) l
    = imap (λ i sig, finding_of_signal (f (S n + i)) sig) l) as E.
  { intros f. apply imap_ext. intros i x _. cbn. by rewrite Nat.add_succ_r. }
  rewrite E. destruct (IH (S n)) as (H1 & H2 & H3 & H4). rewrite Nat.add_0_r. cbn [map zip zip_with length seq].
  split_and!.
  - rewrite finding_payload by done. by rewrite H1.
  - by rewrite H2.
  - intros s' f [[= <- <-]|Hin] Hf; [|by apply H3]. cbn. apply String.eqb_neq in Hf. by rewrite Hf.
  - cbn [List.filter]. rewrite hidden_of_finding by done. cbn [jf_Source finding_of_signal].
    unfold zlen in *. destruct (is_hidden_mutation s); cbn [andb length] in *; [|exact H4].
    change (FindingSourceDeterministic == FindingSourceDeterministic) with true. cbn [andb length]. lia.
Qed.

(** ** Witnesses *)

Module Smoke.
#[local] Existing Instance ascii_table.

(** A directory of a package, a link and a file that is no source. *)
Definition tree : list WalkEvent :=
  [mkWalkEvent "/srv/fix" None ModeDir (inr (ModeDir, 0%Z));
   mkWalkEvent "/srv/fix/a.go" None ModeRegular (inr (ModeRegular, 3%Z));
   mkWalkEvent "/srv/fix/lib" None ModeDir (inr (ModeDir, 0%Z));
   mkWalkEvent "/srv/fix/lib/b.go" None ModeRegular (inr (ModeRegular, 4%Z));
   mkWalkEvent "/srv/fix/lib/b.md" None ModeRegular (inr (ModeRegular, 9%Z));
   mkWalkEvent "/srv/fix/link.go" None ModeSymlink (inr (ModeSymlink, 3%Z))].

#[export] Instance disk : FileSystem := {|
  fs_Abs p := inr (if HasPrefix "/" p then p else "/srv/" +:+ p);
  fs_Stat _ p := inr ModeDir;
  fs_Lstat _ p := if p == "/srv/fix/a.go" then inr ModeRegular else inl (errors_New "no such file", true);
  fs_ReadFile _ p := inr "foo";
  fs_WalkDir _ _ := tree
|}.

#[export] Instance disk_rooted : AbsRooted.
Proof.
  intros p root. cbn. intros [= <-]. destruct (HasPrefix "/" p) eqn:E; [done|]. apply HasPrefix_slash. by eexists.
Qed.

(** The same tree, as GitHub serves it. *)
#[export] Instance served : GitHubClient := {|
  GetContents _ _ _ path _ :=
    if path == "" then inr (None, Some [Fixture.entry "file" "a.go" 3 None; Fixture.entry "dir" "lib" 0 None;
                                        Fixture.entry "symlink" "link.go" 3 None])
    else inr (None, Some [Fixture.entry "file" "lib/b.go" 4 None; Fixture.entry "file" "lib/b.md" 9 None]);
  GetDefaultBranch _ _ _ := inr "main";
  GetCommitSHA _ _ _ ref := inr ref;
  GetRepositoryInstallation _ _ _ := inr 7%Z;
  CreateInstallationToken _ _ := inr "token";
  GetPermissionLevel _ _ _ user := inr "read"
|}.

Lemma fixture_read_contained_witness :
  ∃ root full down, segments full = segments root ++ down ∧ fs_Lstat 0 full = inr ModeRegular.
Proof.
  destruct (fixture_read_contained "fix" "lib/../a.go" 0 "foo" "local-fixture" 2)
    as (root & full & down & _ & H1 & _ & H2 & _); [vm_compute; reflexivity|].
  exists root, full, down. split; assumption.
Defined.

Lemma listing_parity_witness :
  ∃ r t2, github_ListFiles 2 "acme" "app" "main" (mkListOptions 2 0) 0 = Some (r, t2)
    ∧ outcome_of (fst (fixture_ListFiles "fix" (mkListOptions 2 0) 0)) = outcome_of r.
Proof.
  eapply (listing_parity "fix" "/srv/fix" (mkListOptions 2 0) "acme" "app" "main" 2 0 0).
  - discriminate.
  - reflexivity.
  - reflexivity.
  - repeat constructor; by eexists.
  - intros ???. reflexivity.
  - vm_compute. reflexivity.
  - vm_compute. reflexivity.
Defined.

(** The fixture lists the two sources, and one is one too many for a budget of one. *)
Example fixture_lists :
  (outcome_of (fst (fixture_ListFiles "fix" (mkListOptions 2 0) 0)),
   outcome_of (fst (fixture_ListFiles "fix" (mkListOptions 1 0) 0)))
  = (inl [("a.go", 3%Z); ("lib/b.go", 4%Z)], inr true).
Proof. vm_compute. reflexivity. Qed.

Definition one_signal_report : Report.Report :=
  Report.mkReport "1" (mkScope "" "" "" "" false) (mkSummary 1 0 0 1 0 1 0 0 0)
    [mutation_signal "a.go" "h1"; example_signal] [] None None [] [] None None None None [] None.

Lemma deterministic_rows_witness :
  map (λ f, unmarshal_signal (jf_Payload f)) (findingsFromCodeSignalReport numbered 0 (Some one_signal_report))
    = [Some (mutation_signal "a.go" "h1"); Some example_signal]
  ∧ countHiddenMutationFindings (findingsFromCodeSignalReport numbered 0 (Some one_signal_report)) = 1%Z.
Proof.
  destruct (deterministic_rows numbered 0 one_signal_report) as (H1 & _ & _ & H2).
  - constructor; [|constructor; [apply example_signal_wf|constructor]].
    unfold signal_wf, location_wf, uint64, utf8_map, mutation_signal. cbn -[N.pow]. split_and!; try reflexivity.
    + repeat (apply list.Forall_cons; split); try (by apply ascii_valid). constructor.
    + apply map_Forall_empty.
    + constructor.
    + constructor.
    + constructor.
  - split; [exact H1|exact H2].
Defined.
End Smoke.
