(* ===== verification/Syntax.v ===== *)
(** * Syntax trees

    The seam between [pkg/semantics] and the Tree-sitter runtime
    ([pkg/semantics/internal/engine]): the extractors see a parsed file only through
    the [Node] interface, so a tree is data here, with what that interface reports of
    each node.  A [Node] is a place in a tree: the subtree at it and the way up, hence
    [Parent] is an observation of the node and two nodes are the same place exactly
    when their ways up agree.  [Utf8Text] is part of the data, the text of the node in
    the source it was parsed from, so the extractors lose their [source] argument.

    The walkers of the extractors recurse on children, on fields, on what is left of
    parentheses; [descend] runs such a recursion with the height of the tree, and
    [descend_eq] is the equation of the code for it.  [ctx_nodes] is the general form
    of a pre-order walk with inherited information, and [ctx_nodes_at] computes that
    information from the way up alone. *)

From S2P Require Import Prelude Semantics.

Record NodeInfo := mkNodeInfo {
  ni_Kind : string; ni_Text : string; ni_Span : Location;
  ni_HasError : bool; ni_IsError : bool; ni_IsMissing : bool
}.

(** A node with its children, each with the fields of the grammar it is bound to. *)
Inductive Tree := mkTree (info : NodeInfo) (subtrees : list (list string * Tree)).

Definition info (t : Tree) : NodeInfo := let (i, _) := t in i.
Definition subtrees (t : Tree) : list (list string * Tree) := let (_, cs) := t in cs.

(** The way up holds, from the parent on, each ancestor and the index of the child
    that leads down.
    go: pkg/semantics/internal/engine/engine.go#Node *)
Record Node := mkNode { n_tree : Tree; n_up : list (Tree * nat) }.

Definition Root (t : Tree) : Node := mkNode t [].

Definition Kind (n : Node) : string := ni_Kind (info (n_tree n)).
Definition Utf8Text (n : Node) : string := ni_Text (info (n_tree n)).
Definition HasError (n : Node) : bool := ni_HasError (info (n_tree n)).
Definition IsError (n : Node) : bool := ni_IsError (info (n_tree n)).
Definition IsMissing (n : Node) : bool := ni_IsMissing (info (n_tree n)).
Definition StartByte (n : Node) : N := loc_StartByte (ni_Span (info (n_tree n))).
Definition EndByte (n : Node) : N := loc_EndByte (ni_Span (info (n_tree n))).
Definition StartPoint (n : Node) : N * N :=
  (loc_StartRow (ni_Span (info (n_tree n))), loc_StartCol (ni_Span (info (n_tree n)))).
Definition EndPoint (n : Node) : N * N :=
  (loc_EndRow (ni_Span (info (n_tree n))), loc_EndCol (ni_Span (info (n_tree n)))).

Definition child_node (n : Node) (i : nat) (c : list string * Tree) : Node :=
  mkNode (snd c) ((n_tree n, i) :: n_up n).

(** What a loop over [Child(0) .. Child(ChildCount()-1)] sees. *)
Definition children (n : Node) : list Node := imap (child_node n) (subtrees (n_tree n)).

Definition ChildCount (n : Node) : Z := zlen (children n).

(** [nil] out of range. *)
Definition Child (n : Node) (i : Z) : option Node :=
  if (i <? 0)%Z then None else children n !! Z.to_nat i.

Definition has_field (name : string) (c : list string * Tree) : bool :=
  existsb (String.eqb name) (fst c).

(** The first child bound to the field; [nil] if there is none. *)
Definition ChildByFieldName (n : Node) (name : string) : option Node :=
  match list_find (λ c, has_field name c = true) (subtrees (n_tree n)) with
  | Some (i, c) => Some (child_node n i c)
  | None => None
  end.

Definition Parent (n : Node) : option Node :=
  match n_up n with
  | [] => None
  | (p, _) :: up => Some (mkNode p up)
  end.

(** A field of a field, through [nil]. *)
Definition field (n : option Node) (name : string) : option Node :=
  match n with Some n => ChildByFieldName n name | None => None end.

Definition kind_is (n : option Node) (k : string) : bool :=
  match n with Some n => Kind n == k | None => false end.

(** go: pkg/semantics/node_spans.go#locationFromNode *)
Definition locationFromNode (n : Node) : Location :=
  let (startRow, startCol) := StartPoint n in
  let (endRow, endCol) := EndPoint n in
  mkLocation (StartByte n) (EndByte n) startRow startCol endRow endCol.

(** go: pkg/semantics/node_spans.go#sameNodeSpan *)
Definition sameNodeSpan (a b : Node) : bool :=
  (StartByte a =? StartByte b)%N && (EndByte a =? EndByte b)%N && (Kind a == Kind b).

(** ** Membership in a set of names written as a Go map or switch *)

Definition one_of (names : list string) (s : string) : bool := existsb (String.eqb s) names.

Lemma one_of_In names s : one_of names s = true ↔ In s names.
Proof.
  unfold one_of. rewrite existsb_exists. split.
  - intros (x & Hx & ->%String.eqb_eq). done.
  - intros H. exists s. split; [done|apply String.eqb_refl].
Qed.

(** ** Height and recursion *)

Fixpoint height (t : Tree) : nat :=
  match t with
  | mkTree _ cs => S (fold_right (λ c m, Nat.max (height (snd c)) m) 0 cs)
  end.

Definition nheight (n : Node) : nat := height (n_tree n).
Definition oheight (n : option Node) : nat := match n with Some n => nheight n | None => 0 end.

Section descend.
Context {D A : Type} (size : D → nat) (d : D → A).

Fixpoint run (F : (D → A) → D → A) (fuel : nat) (x : D) : A :=
  match fuel with
  | O => d x
  | S k => F (run F k) x
  end.

(** Recursion with enough fuel for calls on smaller arguments. *)
Definition descend (F : (D → A) → D → A) (x : D) : A := run F (S (size x)) x.

(** The body calls itself on smaller arguments only. *)
Definition descends (F : (D → A) → D → A) : Prop :=
  ∀ g h x, (∀ y, size y < size x → g y = h y) → F g x = F h x.

Lemma run_enough F : descends F → ∀ k x, size x < k → run F k x = descend F x.
Proof.
  intros HF.
  assert (H : ∀ k k' x, size x < k → size x < k' → run F k x = run F k' x).
  { induction k as [|k IH]; intros [|k'] x Hk Hk'; try lia. simpl.
    apply HF. intros y Hy. apply IH; lia. }
  intros k x Hk. apply H; [done|lia].
Qed.

(** The equation the code writes. *)
Lemma descend_eq F : descends F → ∀ x, descend F x = F (descend F) x.
Proof.
  intros HF x. unfold descend at 1. simpl. apply HF. intros y Hy. by apply run_enough.
Qed.
End descend.

(** ** Children are smaller *)

Lemma height_le (cs : list (list string * Tree)) c :
  In c cs → height (snd c) ≤ fold_right (λ c m, Nat.max (height (snd c)) m) 0 cs.
Proof.
  induction cs as [|c' cs IH]; simpl; [done|]. intros [->|H]; [lia|]. specialize (IH H). lia.
Qed.

Lemma child_height n i c : In c (subtrees (n_tree n)) → nheight (child_node n i c) < nheight n.
Proof.
  unfold nheight. destruct n as [[j cs] up]. simpl. intros H%height_le. lia.
Qed.

Lemma children_child n m : In m (children n) →
  ∃ i c, subtrees (n_tree n) !! i = Some c ∧ m = child_node n i c.
Proof.
  intros H%list_elem_of_In. apply elem_of_lookup_imap_1 in H as (i & c & -> & Hi). eauto.
Qed.

Lemma children_height n m : In m (children n) → nheight m < nheight n.
Proof.
  intros (i & c & Hi & ->)%children_child. apply child_height, list_elem_of_In.
  by eapply list_elem_of_lookup_2.
Qed.

Lemma ChildByFieldName_In n name m : ChildByFieldName n name = Some m → In m (children n).
Proof.
  unfold ChildByFieldName, children. destruct (list_find _ _) as [[i c]|] eqn:E; [|done].
  apply list_find_Some in E as (E & _ & _). intros [= <-].
  apply list_elem_of_In. apply elem_of_lookup_imap. by exists i, c.
Qed.

Lemma Child_In n i m : Child n i = Some m → In m (children n).
Proof.
  unfold Child. destruct (i <? 0)%Z; [done|]. intros H%list_elem_of_lookup_2. by apply list_elem_of_In.
Qed.

Lemma ChildByFieldName_height n name : oheight (ChildByFieldName n name) < nheight n.
Proof.
  destruct (ChildByFieldName n name) as [m|] eqn:E; simpl.
  - by apply children_height, (ChildByFieldName_In _ name).
  - unfold nheight. destruct n as [[j cs] up]. simpl. lia.
Qed.

Lemma Child_height n i : oheight (Child n i) < nheight n.
Proof.
  destruct (Child n i) as [m|] eqn:E; simpl.
  - by apply children_height, (Child_In _ i).
  - unfold nheight. destruct n as [[j cs] up]. simpl. lia.
Qed.

Lemma child_parent n m : In m (children n) → Parent m = Some n.
Proof. intros (i & c & _ & ->)%children_child. by destruct n. Qed.

Lemma child_depth n m : In m (children n) → length (n_up m) = S (length (n_up n)).
Proof. by intros (i & c & _ & ->)%children_child. Qed.

Lemma children_lookup n i : children n !! i = child_node n i <$> (subtrees (n_tree n) !! i).
Proof. unfold children. by rewrite list_lookup_imap. Qed.

Lemma length_children n : length (children n) = length (subtrees (n_tree n)).
Proof. apply length_imap. Qed.

(** Induction on a node through its children. *)
Lemma node_ind (P : Node → Prop) :
  (∀ n, (∀ m, In m (children n) → P m) → P n) → ∀ n, P n.
Proof.
  intros H n. remember (nheight n) as k eqn:Hk. revert n Hk.
  induction k as [k IH] using lt_wf_ind. intros n ->. apply H. intros m Hm.
  eapply IH; [|done]. by apply children_height.
Qed.

(** Induction through anything smaller, for recursion on fields and unwrapping. *)
Lemma node_height_ind (P : Node → Prop) :
  (∀ n, (∀ m, nheight m < nheight n → P m) → P n) → ∀ n, P n.
Proof.
  intros H n. remember (nheight n) as k eqn:Hk. revert n Hk.
  induction k as [k IH] using lt_wf_ind. intros n ->. apply H. intros m Hm.
  by eapply IH.
Qed.

#[export] Hint Resolve children_height ChildByFieldName_height Child_height ChildByFieldName_In Child_In : coach.

(** ** The loops of a recursive body *)

Lemma fold_left_ext_In {A B} (f g : A → B → A) l : (∀ a x, In x l → f a x = g a x) →
  ∀ a, fold_left f l a = fold_left g l a.
Proof.
  induction l as [|x l IH]; intros H a; simpl; [done|].
  rewrite (H a x) by (by left). apply IH. intros. apply H. by right.
Qed.

Lemma flat_map_ext_In {A B} (f g : A → list B) l : (∀ x, In x l → f x = g x) →
  flat_map f l = flat_map g l.
Proof.
  induction l as [|x l IH]; intros H; simpl; [done|].
  rewrite (H x) by (by left). f_equal. apply IH. intros. apply H. by right.
Qed.

Lemma flat_map_nil {A B} (f : A → list B) l : (∀ x, In x l → f x = []) → flat_map f l = [].
Proof.
  induction l as [|x l IH]; intros H; simpl; [done|].
  rewrite (H x), IH; [done| |by left]. intros. apply H. by right.
Qed.

Lemma fold_left_flat_map {A B S} (f : A → list B) (g : S → B → S) l s :
  fold_left g (flat_map f l) s = fold_left (λ s x, fold_left g (f x) s) l s.
Proof. revert s. induction l as [|x l IH]; intros s; simpl; [done|]. by rewrite fold_left_app, IH. Qed.

Lemma flat_map_omap {A B D} (f : A → option B) (g : B → list D) l :
  flat_map g (omap f l) = flat_map (λ x, match f x with Some y => g y | None => [] end) l.
Proof. induction l as [|x l IH]; [done|]. cbn. destruct (f x); simpl; by rewrite IH. Qed.

Lemma flat_map_flat_map {A B C} (f : B → list C) (g : A → list B) l :
  flat_map f (flat_map g l) = flat_map (λ x, flat_map f (g x)) l.
Proof. induction l as [|x l IH]; [done|]. cbn [flat_map]. by rewrite flat_map_app, IH. Qed.

(** The first [Some] of a loop that returns early. *)
Fixpoint first_some {A B} (f : A → option B) (l : list A) : option B :=
  match l with
  | [] => None
  | x :: l => match f x with Some y => Some y | None => first_some f l end
  end.

Lemma first_some_ext_In {A B} (f g : A → option B) l : (∀ x, In x l → f x = g x) →
  first_some f l = first_some g l.
Proof.
  induction l as [|x l IH]; intros H; simpl; [done|].
  rewrite (H x) by (by left). destruct (g x); [done|]. apply IH. intros. apply H. by right.
Qed.

Lemma first_some_Some {A B} (f : A → option B) l y : first_some f l = Some y →
  ∃ x, In x l ∧ f x = Some y.
Proof.
  induction l as [|x l IH]; simpl; [done|]. destruct (f x) eqn:E.
  - intros [= ->]. eauto.
  - intros (x' & Hx & Hf)%IH. eauto.
Qed.

Lemma first_some_None {A B} (f : A → option B) l : first_some f l = None → ∀ x, In x l → f x = None.
Proof.
  induction l as [|x l IH]; simpl; [done|]. destruct (f x) eqn:E; [done|].
  intros H x' [->|Hx]; auto.
Qed.

(** ** Showing that a recursion goes down *)

Create HintDb height.
#[export] Hint Resolve ChildByFieldName_height Child_height : height.

Lemma find_child_height f n : oheight (List.find f (children n)) < nheight n.
Proof.
  destruct (List.find f (children n)) as [m|] eqn:E; simpl.
  - by apply children_height, (find_some f (children n)).
  - unfold nheight. destruct n as [[j cs] up]. simpl. lia.
Qed.

Lemma field_height n f : oheight (field n f) ≤ oheight n.
Proof. destruct n as [n|]; simpl; [|done]. pose proof (ChildByFieldName_height n f). lia. Qed.

Lemma field_height_lt n f k : oheight n ≤ k → 0 < k → oheight (field n f) < k.
Proof. destruct n as [n|]; simpl; [|done]. pose proof (ChildByFieldName_height n f). lia. Qed.

Lemma nheight_pos n : 0 < nheight n.
Proof. unfold nheight. destruct n as [[j cs] up]. simpl. lia. Qed.

#[export] Hint Resolve find_child_height field_height nheight_pos : height.

(** Collects what the hint database [height] knows of the heights of what the
    hypotheses and the goal mention. *)
Ltac bound_height e :=
  lazymatch goal with
  | _ : oheight e < _ |- _ => fail
  | _ : oheight e ≤ _ |- _ => fail
  | _ => first [ epose proof (ltac:(solve [eauto with height nocore]) : oheight e < _)
               | epose proof (ltac:(solve [eauto with height nocore]) : oheight e ≤ _) ]
  end.
Ltac heights :=
  repeat match goal with
  | H : In ?m (children ?n) |- _ =>
      lazymatch goal with
      | _ : nheight m < nheight n |- _ => fail
      | _ => pose proof (children_height n m H)
      end
  | H : ?e = Some ?m |- _ =>
      lazymatch type of m with Node =>
        lazymatch goal with
        | _ : oheight e = nheight m |- _ => fail
        | _ => assert (oheight e = nheight m) by (rewrite H; reflexivity)
        end
      end
  | |- context [oheight ?e] => bound_height e
  | _ : context [oheight ?e] |- _ => bound_height e
  end.
Ltac smaller := simpl in *; heights; simpl in *; lia.

Ltac head f := lazymatch f with ?f _ => head f | _ => f end.

(** Shows [descends]: both sides take the same branches, and meet the recursion on
    smaller nodes only. *)
Ltac descends_step H :=
  cbv beta zeta;
  lazymatch goal with
  | |- ?a = ?a => reflexivity
  | |- fold_left _ ?l _ = fold_left _ ?l _ => apply fold_left_ext_In; intros ? ? ?
  | |- flat_map _ ?l = flat_map _ ?l => apply flat_map_ext_In; intros ? ?
  | |- existsb _ ?l = existsb _ ?l => apply existsb_ext_In; intros ? ?
  | |- first_some _ ?l = first_some _ ?l => apply first_some_ext_In; intros ? ?
  | |- map _ ?l = map _ ?l => apply map_ext_in; intros ? ?
  | |- (match ?b with _ => _ end) = (match ?b with _ => _ end) => destruct b eqn:?
  | |- (match ?b with _ => _ end) _ = (match ?b with _ => _ end) _ => destruct b eqn:?
  | |- _ => first [ apply H; solve [smaller] | rewrite H by solve [smaller] | f_equal ]
  end.

Ltac descends_with H := repeat (descends_step H; try reflexivity).
Ltac descends_tac :=
  let g := fresh "g" in let h := fresh "h" in let x := fresh "x" in let H := fresh "H" in
  intros g h x H;
  lazymatch goal with |- ?f _ _ = _ => let f := head f in unfold f | _ => idtac end;
  repeat (descends_step H; try reflexivity).

(** ** The way up *)

Fixpoint ancestors_up (up : list (Tree * nat)) : list Node :=
  match up with
  | [] => []
  | (p, _) :: up => mkNode p up :: ancestors_up up
  end.

(** What repeated calls of [Parent] yield, the parent first. *)
Definition ancestors (n : Node) : list Node := ancestors_up (n_up n).

Lemma ancestors_Parent n : ancestors n = match Parent n with Some p => p :: ancestors p | None => [] end.
Proof. unfold ancestors, Parent. by destruct (n_up n) as [|[p i] up]. Qed.

Lemma child_ancestors n m : In m (children n) → ancestors m = n :: ancestors n.
Proof. intros H%child_parent. by rewrite ancestors_Parent, H. Qed.

(** ** The nodes of a subtree, in pre-order *)

Definition nodes_body (rec : Node → list Node) (n : Node) : list Node := n :: flat_map rec (children n).
Definition nodes : Node → list Node := descend nheight (λ _, []) nodes_body.

Lemma nodes_eq n : nodes n = n :: flat_map nodes (children n).
Proof. unfold nodes at 1. rewrite descend_eq; [done|descends_tac]. Qed.

Lemma nodes_In_refl n : In n (nodes n).
Proof. rewrite nodes_eq. by left. Qed.

Lemma nodes_child n m d : In m (children n) → In d (nodes m) → In d (nodes n).
Proof. intros Hm Hd. rewrite nodes_eq. right. apply in_flat_map. eauto. Qed.

Lemma nodes_trans n m d : In m (nodes n) → In d (nodes m) → In d (nodes n).
Proof.
  revert m d. induction n as [n IH] using node_ind. intros m d Hm Hd.
  rewrite nodes_eq in Hm. destruct Hm as [->|Hm]; [done|].
  apply in_flat_map in Hm as (c & Hc & Hm). apply (nodes_child n c); [done|]. by eapply IH.
Qed.

#[export] Hint Resolve nodes_In_refl nodes_child nodes_trans : coach.

Definition onodes (n : option Node) : list Node := match n with Some n => nodes n | None => [] end.

(** ** Pre-order walks with inherited information

    A walk enters a node with a value inherited from above; [down n c] is what each of
    its children inherits, [None] for a child the walk does not enter. *)
Section contexts.
Context {C : Type} (down : Node → C → list (option C)).

Definition ctx_nodes_body (rec : Node * C → list (Node * C)) (x : Node * C) : list (Node * C) :=
  let (n, c) := x in
  (n, c) :: flat_map (λ mc, match snd mc with Some c' => rec (fst mc, c') | None => [] end)
              (combine (children n) (down n c)).
Definition ctx_nodes (n : Node) (c : C) : list (Node * C) :=
  descend (λ x, nheight (fst x)) (λ _, []) ctx_nodes_body (n, c).

Lemma ctx_nodes_eq n c :
  ctx_nodes n c = (n, c) :: flat_map (λ mc, match snd mc with Some c' => ctx_nodes (fst mc) c' | None => [] end)
                              (combine (children n) (down n c)).
Proof.
  unfold ctx_nodes at 1. rewrite descend_eq; [done|].
  intros g h [m d] H. simpl. f_equal. apply flat_map_ext_In. intros [m' [d'|]] Hm; [|done].
  apply H. simpl. apply in_combine_l in Hm. by apply children_height.
Qed.

(** What the node at the end of a way up inherits, when the node [depth] levels below
    the root of the tree was entered with [c]; [None] if the walk does not get there. *)
Fixpoint ctx_along (depth : nat) (c : C) (up : list (Tree * nat)) : option C :=
  if length up <=? depth then Some c
  else match up with
       | [] => Some c
       | (p, i) :: up' =>
           d ← ctx_along depth c up'; mjoin (down (mkNode p up') d !! i)
       end.
Definition ctx_at (root : Node) (c : C) (n : Node) : option C := ctx_along (length (n_up root)) c (n_up n).

Lemma ctx_along_self c up : ctx_along (length up) c up = Some c.
Proof. destruct up; simpl; [done|]. by rewrite Nat.leb_refl. Qed.

(** The walk reaches exactly the nodes with a context, each with the context that its
    way up gives. *)
Lemma ctx_nodes_at_aux depth c0 : ∀ n c, depth ≤ length (n_up n) →
  ctx_along depth c0 (n_up n) = Some c →
  ctx_nodes n c = omap (λ m, pair m <$> ctx_along depth c0 (n_up m)) (nodes n).
Proof.
  intros n. induction n as [n IH] using node_ind. intros c Hd Hc.
  rewrite ctx_nodes_eq, nodes_eq. simpl. rewrite Hc. simpl. f_equal.
  assert (Hchild : ∀ i m, children n !! i = Some m →
    ctx_along depth c0 (n_up m) = mjoin (down n c !! i)).
  { intros i m Hi. rewrite children_lookup in Hi.
    destruct (subtrees (n_tree n) !! i) eqn:Ei; simpl in Hi; [|done]. injection Hi as <-.
    cbn [n_up child_node ctx_along length]. rewrite (proj2 (Nat.leb_gt _ _)) by lia.
    rewrite Hc. simpl. by destruct n. }
  assert (Hnone : ∀ m, ctx_along depth c0 (n_up m) = None → depth ≤ length (n_up m) →
    omap (λ d, pair d <$> ctx_along depth c0 (n_up d)) (nodes m) = []).
  { clear. intros m. induction m as [m IH] using node_ind. intros Hm Hd. rewrite nodes_eq. simpl.
    rewrite Hm. simpl. rewrite (flat_map_concat_map nodes).
    assert (H : ∀ l, (∀ x, In x l → In x (children m)) →
      omap (λ d, pair d <$> ctx_along depth c0 (n_up d)) (concat (map nodes l)) = []).
    { induction l as [|x l IHl]; [done|]. intros Hl. cbn [map concat]. rewrite omap_app, IHl; [|firstorder].
      rewrite IH; [done|firstorder| |].
      - assert (Hx : In x (children m)) by firstorder.
        apply children_child in Hx as (i & y & Hi & ->).
        cbn [n_up child_node ctx_along length]. rewrite (proj2 (Nat.leb_gt _ _)) by lia.
        by rewrite Hm.
      - rewrite (child_depth m x) by firstorder. lia. }
    by apply H. }
  rewrite flat_map_concat_map, (flat_map_concat_map nodes).
  assert (H : ∀ l k ds, (∀ i x, l !! i = Some x → children n !! (k + i) = Some x) →
    (∀ i, i < length l → ds !! i = down n c !! (k + i)) →
    concat (map (λ mc, match snd mc with Some c' => ctx_nodes (fst mc) c' | None => [] end) (combine l ds))
    = omap (λ m, pair m <$> ctx_along depth c0 (n_up m)) (concat (map nodes l))).
  { induction l as [|x l IHl]; intros k ds Hl Hds; [by destruct ds|].
    assert (Hx : children n !! k = Some x) by (rewrite <- (Nat.add_0_r k); by apply Hl).
    assert (Hin : In x (children n)) by (by apply list_elem_of_In; eapply list_elem_of_lookup_2).
    assert (Hup : depth ≤ length (n_up x)) by (rewrite (child_depth n x Hin); lia).
    assert (H0 : ds !! 0 = down n c !! k) by (rewrite (Hds 0), Nat.add_0_r; [done|simpl; lia]).
    specialize (Hchild k x Hx).
    assert (Htl : ∀ ds', ds' = tail ds →
      concat (map (λ mc, match snd mc with Some c' => ctx_nodes (fst mc) c' | None => [] end) (combine l ds'))
      = omap (λ m, pair m <$> ctx_along depth c0 (n_up m)) (concat (map nodes l))).
    { intros ds' ->. apply (IHl (S k)).
      - intros i y Hy. replace (S k + i) with (k + S i) by lia. by apply Hl.
      - intros i Hi. replace (S k + i) with (k + S i) by lia. rewrite <- (Hds (S i)) by (simpl; lia).
        by destruct ds. }
    cbn [map concat]. rewrite omap_app, <- (Htl _ eq_refl).
    destruct ds as [|d ds]; cbn [combine map concat tail].
    - rewrite (Hnone x); [by destruct l| |done]. rewrite Hchild, <- H0. done.
    - change (Some d = down n c !! k) in H0. rewrite <- H0 in Hchild. cbn in Hchild. f_equal. destruct d as [c'|]; cbn [snd fst].
      + apply (IH x Hin c' Hup). by rewrite Hchild.
      + symmetry. apply Hnone; [|done]. by rewrite Hchild. }
  apply (H (children n) 0); done.
Qed.

Lemma ctx_nodes_at root c :
  ctx_nodes root c = omap (λ m, pair m <$> ctx_at root c m) (nodes root).
Proof. apply ctx_nodes_at_aux; [done|]. apply ctx_along_self. Qed.

(** A walk that threads a state through the nodes it enters. *)
Context {St : Type} (visit : C → Node → St → St).

Lemma fold_ctx_nodes n c s :
  fold_left (λ s mc, visit (snd mc) (fst mc) s) (ctx_nodes n c) s
  = fold_left (λ s mc, match snd mc with
                       | Some c' => fold_left (λ s mc, visit (snd mc) (fst mc) s) (ctx_nodes (fst mc) c') s
                       | None => s
                       end)
      (combine (children n) (down n c)) (visit c n s).
Proof.
  rewrite ctx_nodes_eq. simpl. generalize (visit c n s) as s'. clear s.
  induction (combine _ _) as [|[m [c'|]] l IH]; intros s'; simpl; [done| |apply IH].
  by rewrite fold_left_app, IH.
Qed.
End contexts.

(** A walk whose children all inherit the same. *)
Definition all_children {C} (post : Node → C → C) (n : Node) (c : C) : list (option C) :=
  map (λ _, Some (post n c)) (children n).

Lemma fold_all_children {C St} (post : Node → C → C) (visit : C → Node → St → St) n c s :
  fold_left (λ s mc, visit (snd mc) (fst mc) s) (ctx_nodes (all_children post) n c) s
  = fold_left (λ s m, fold_left (λ s mc, visit (snd mc) (fst mc) s) (ctx_nodes (all_children post) m (post n c)) s)
      (children n) (visit c n s).
Proof.
  rewrite fold_ctx_nodes. unfold all_children at 2. generalize (visit c n s) as s'.
  induction (children n) as [|m l IH]; intros s'; simpl; [done|]. apply IH.
Qed.

Lemma all_children_total {C} (f : Node → C → C) n c i :
  i < length (children n) → all_children f n c !! i = Some (Some (f n c)).
Proof.
  intros Hi. unfold all_children. rewrite list_lookup_fmap.
  destruct (lookup_lt_is_Some_2 (children n) i Hi) as [m ->]. done.
Qed.

Lemma ctx_nodes_Some {C} (down : Node → C → list (option C)) root c0 :
  (∀ n c i, i < length (children n) → ∃ c', down n c !! i = Some (Some c')) →
  ∀ n, In n (nodes root) → length (n_up root) ≤ length (n_up n) ∧ ∃ c, ctx_at down root c0 n = Some c.
Proof.
  intros Htotal. unfold ctx_at.
  assert (H : ∀ d m c, d ≤ length (n_up m) → ctx_along down d c0 (n_up m) = Some c →
    ∀ n, In n (nodes m) → d ≤ length (n_up n) ∧ ∃ c, ctx_along down d c0 (n_up n) = Some c).
  { intros d m. induction m as [m IH] using node_ind. intros c Hd Hm n Hn.
    rewrite nodes_eq in Hn. destruct Hn as [<-|Hn]; [eauto|].
    apply in_flat_map in Hn as (x & Hx & Hn).
    pose proof Hx as Hx'. apply children_child in Hx' as (i & t & Hi & Ex).
    destruct (Htotal m c i) as [c' Hc'].
    { rewrite length_children. by eapply lookup_lt_Some. }
    eapply (IH x Hx c'); [| |done].
    - rewrite (child_depth m x Hx). lia.
    - subst x. cbn [n_up child_node ctx_along length]. rewrite (proj2 (Nat.leb_gt _ _)) by lia.
      rewrite Hm. cbn. destruct m as [mt mu]. cbn in *. by rewrite Hc'. }
  intros n Hn. eapply H; [done| |done]. apply ctx_along_self.
Qed.

#[global] Arguments nodes : simpl never.
#[global] Arguments ctx_nodes {C} down n c : simpl never.
#[global] Arguments descend {D A} size d F x : simpl never.

(** ** First occurrences of a key *)

Section keep_first.
Context {A K : Type} `{Countable K} (key : A → option K).

Fixpoint keep_first (seen : gset K) (l : list A) : list A :=
  match l with
  | [] => []
  | x :: l =>
      match key x with
      | None => x :: keep_first seen l
      | Some k => if bool_decide (k ∈ seen) then keep_first seen l
                  else x :: keep_first ({[k]} ∪ seen) l
      end
  end.

Definition keys (l : list A) : gset K := list_to_set (omap key l).

Lemma keep_first_app seen l1 l2 :
  keep_first seen (l1 ++ l2) = keep_first seen l1 ++ keep_first (keys l1 ∪ seen) l2.
Proof.
  revert seen. induction l1 as [|x l1 IH]; intros seen; unfold keys; simpl.
  - by rewrite (left_id_L ∅ (∪)).
  - destruct (key x) as [k|] eqn:E; simpl; rewrite ?E; simpl; [|by rewrite IH].
    assert (Hs : ∀ s s', s = s' → keep_first s l2 = keep_first s' l2) by (by intros ? ? ->).
    case_bool_decide as Hk; rewrite IH; simpl; f_equal; [|f_equal]; apply Hs; unfold keys; set_solver.
Qed.

Lemma keep_first_sublist seen l : keep_first seen l `sublist_of` l.
Proof.
  revert seen. induction l as [|x l IH]; intros seen; simpl; [done|].
  destruct (key x); [case_bool_decide|]; eauto using sublist_cons, sublist_skip.
Qed.

Lemma omap_step x l : omap key (x :: l) = match key x with Some k => k :: omap key l | None => omap key l end.
Proof. done. Qed.

Lemma keep_first_step seen x l : keep_first seen (x :: l)
  = match key x with
    | None => x :: keep_first seen l
    | Some k => if bool_decide (k ∈ seen) then keep_first seen l else x :: keep_first ({[k]} ∪ seen) l
    end.
Proof. done. Qed.

Lemma keep_first_keys seen l k : k ∈ omap key (keep_first seen l) ↔ k ∈ omap key l ∧ k ∉ seen.
Proof.
  revert seen. induction l as [|x l IH]; intros seen; [set_solver|].
  rewrite keep_first_step, omap_step.
  destruct (key x) as [k'|] eqn:E; [case_bool_decide|]; rewrite ?omap_step, ?E; cbv iota; [| |apply IH].
  - rewrite IH, elem_of_cons. split; [tauto|]. intros [[->|?] ?]; [done|tauto].
  - rewrite !elem_of_cons, IH, not_elem_of_union, elem_of_singleton. split.
    + intros [->|?]; tauto.
    + intros [[->|?] ?]; [by left|]. destruct (decide (k = k')); tauto.
Qed.

Lemma keep_first_NoDup seen l : NoDup (omap key (keep_first seen l)).
Proof.
  revert seen. induction l as [|x l IH]; intros seen; [constructor|].
  rewrite keep_first_step.
  destruct (key x) as [k'|] eqn:E; [case_bool_decide|]; rewrite ?omap_step, ?E; cbv iota; [done| |done].
  constructor; [|done]. rewrite keep_first_keys, not_elem_of_union, elem_of_singleton. tauto.
Qed.
End keep_first.

Lemma keep_first_none {A K} `{Countable K} (key : A → option K) l : (∀ x, In x l → key x = None) →
  ∀ seen, keep_first key seen l = l ∧ keys key l = ∅.
Proof.
  induction l as [|x l IH]; intros Hl seen; [done|].
  destruct (IH (λ y Hy, Hl y (or_intror Hy)) seen) as [E1 E2].
  rewrite keep_first_step, (Hl x (or_introl eq_refl)), E1. split; [done|].
  unfold keys in *. rewrite omap_step, (Hl x (or_introl eq_refl)). done.
Qed.

(** ** Sums over the children by field *)

Definition sumz (l : list Z) : Z := foldr Z.add 0%Z l.

Lemma sumz_app l1 l2 : sumz (l1 ++ l2) = (sumz l1 + sumz l2)%Z.
Proof. unfold sumz. induction l1 as [|x l1 IH]; simpl; lia. Qed.

(** The place of the child bound to a field. *)
Definition field_index (n : Node) (name : string) : option nat :=
  fst <$> list_find (λ c, has_field name c = true) (subtrees (n_tree n)).

Lemma ChildByFieldName_index n name :
  ChildByFieldName n name = i ← field_index n name; children n !! i.
Proof.
  unfold ChildByFieldName, field_index. destruct (list_find _ _) as [[i c]|] eqn:E; [|done]. cbn.
  apply list_find_Some in E as (E & _ & _). by rewrite children_lookup, E.
Qed.

(** In a tree of the grammars no child is bound to two fields. *)
Definition single_fields (n : Node) : Prop :=
  ∀ c, In c (subtrees (n_tree n)) → length (fst c) ≤ 1.

Lemma field_index_inj n f g i : single_fields n → field_index n f = Some i → field_index n g = Some i → f = g.
Proof.
  unfold field_index. intros H.
  destruct (list_find (λ c, has_field f c = true) _) as [[j c]|] eqn:E1; [|done]. cbn. intros [= ->].
  destruct (list_find (λ c, has_field g c = true) _) as [[k d]|] eqn:E2; [|done]. cbn. intros [= ->].
  apply list_find_Some in E1 as (Hc & Hf & _). apply list_find_Some in E2 as (Hd & Hg & _).
  rewrite Hc in Hd. injection Hd as <-.
  assert (Hin : In c (subtrees (n_tree n))) by (apply list_elem_of_In; by eapply list_elem_of_lookup_2).
  specialize (H c Hin). unfold has_field in *. destruct c as [[|x [|y l]] t]; simpl in *; try done; try lia.
  apply orb_prop in Hf as [Hf%String.eqb_eq|]; [|done].
  apply orb_prop in Hg as [Hg%String.eqb_eq|]; [|done]. congruence.
Qed.

Lemma sum_pick {A} (l : list A) (o : option nat) (a : A → Z) (b : nat → A → Z) :
  (∀ j m, o = Some j → l !! j = Some m → b j m = 0%Z) →
  sumz (imap (λ i m, if bool_decide (o = Some i) then a m else b i m) l)
  = (match i ← o; l !! i with Some m => a m | None => 0 end + sumz (imap b l))%Z.
Proof.
  revert o b. induction l as [|x l IH]; intros o b Hb.
  - by destruct o.
  - cbn [imap sumz foldr]. change (foldr Z.add 0%Z) with sumz.
    assert (E : sumz (imap ((λ i m, if bool_decide (o = Some i) then a m else b i m) ∘ S) l)
      = sumz (imap (λ i m, if bool_decide ((o ≫= λ i, match i with O => None | S j => Some j end) = Some i)
                           then a m else (b ∘ S) i m) l)).
    { f_equal. apply imap_ext. intros i m _. simpl. destruct o as [[|j]|]; simpl; repeat case_bool_decide; congruence. }
    rewrite E, IH.
    + destruct o as [[|j]|]; cbn.
      * rewrite bool_decide_true by done. rewrite (Hb 0 x) by done. lia.
      * rewrite bool_decide_false by done. destruct (l !! j); lia.
      * rewrite bool_decide_false by done. lia.
    + intros j m Hj Hm. destruct o as [[|k]|]; simpl in Hj; simplify_eq. by apply Hb.
Qed.

(** Summing over the children what the first of some fields bound to each gives is
    summing over the fields. *)
Lemma sum_fields n fs (g : string → Node → Z) : NoDup fs → single_fields n →
  sumz (imap (λ i m, match List.find (λ f, bool_decide (field_index n f = Some i)) fs with
                     | Some f => g f m | None => 0%Z end) (children n))
  = sumz (map (λ f, match ChildByFieldName n f with Some m => g f m | None => 0%Z end) fs).
Proof.
  intros Hnd Hs. induction fs as [|f fs IH].
  - cbn [List.find map]. induction (children n) as [|x l IHl]; [done|]. exact IHl.
  - cbn [map sumz foldr]. change (foldr Z.add 0%Z) with sumz. apply list.NoDup_cons in Hnd as [Hf Hnd].
    rewrite <- (IH Hnd), (ChildByFieldName_index n f).
    rewrite <- (sum_pick (children n) (field_index n f) (g f)).
    + f_equal. apply imap_ext. intros i m _. cbn [List.find]. by case_bool_decide.
    + intros j m Hj Hm. destruct (List.find _ fs) as [f'|] eqn:E; [|done]. exfalso.
      apply find_some in E as [Hin E]. apply bool_decide_eq_true in E. apply Hf.
      rewrite (field_index_inj n f f' j Hs Hj E). by apply list_elem_of_In.
Qed.

Lemma combine_imap {A B C} (F : nat → A → B) (G : A * B → C) l :
  map G (combine l (imap F l)) = imap (λ i x, G (x, F i x)) l.
Proof.
  revert F. induction l as [|x l IH]; intros F; [done|]. cbn [imap combine map]. f_equal. apply IH.
Qed.

(** ** Small trees for the examples

    A sketch gives the kinds, fields and tokens of a tree; [layout] places the tokens in
    a one-line source, a space between any two. *)

Inductive Sketch :=
| Tok (kind text : string)
| Br (kind : string) (parts : list (string * Sketch)).

Definition one_line (s e : N) : Location := mkLocation s e 0 s 0 e.

Fixpoint layout (at_ : N) (s : Sketch) : Tree :=
  match s with
  | Tok kind text =>
      mkTree (mkNodeInfo kind text (one_line at_ (at_ + N.of_nat (String.length text))) false false false) []
  | Br kind parts =>
      let cs := (fix go (at_ : N) (parts : list (string * Sketch)) : list (list string * Tree) :=
                   match parts with
                   | [] => []
                   | (fld, p) :: parts =>
                       let t := layout at_ p in
                       ((if fld == "" then [] else [fld]), t) :: go (loc_EndByte (ni_Span (info t)) + 1)%N parts
                   end) at_ parts in
      let text := String.concat " " (map (λ c, ni_Text (info (snd c))) cs) in
      mkTree (mkNodeInfo kind text (one_line at_ (at_ + N.of_nat (String.length text))) false false false) cs
  end.

Definition parsed (s : Sketch) : Node := Root (layout 0 s).

(** A token that is its own kind. *)
Definition tok (text : string) : string * Sketch := ("", Tok text text).
Definition ident (text : string) : Sketch := Tok "identifier" text.
