(* ===== verification/Nesting.v ===== *)
(** * Counting nodes and nesting

    What the metric walks of [go_features.go] and [ts_features.go] share: the counters
    of [StructuralMetrics], and a walk that counts nodes by kind and measures how many
    blocks enclose a block inside the nearest function.  A language says which kinds are
    counted, which open a function and which is a block; [fold_counts] and
    [fold_max_nesting] give the resulting metrics as counts and a maximum over the nodes
    of the tree.  The constructors of findings both use are here too. *)

From S2P Require Import Prelude GoText Semantics Syntax.

Definition zero_metrics : StructuralMetrics := mkStructuralMetrics 0 0 0 0 0 0 0 0 0 0.

(** The counters, as an index of the fields a walk increments. *)
Inductive counter := cIfs | cFors | cExprSwitches | cTypeSwitches | cSelects | cFunctions | cMethods.

#[export] Instance counter_eq_dec : EqDecision counter.
Proof. solve_decision. Defined.

Definition increment (k : counter) (m : StructuralMetrics) : StructuralMetrics :=
  let d k' := if bool_decide (k = k') then 1%Z else 0%Z in
  mkStructuralMetrics (met_Ifs m + d cIfs) (met_Fors m + d cFors) (met_ExprSwitches m + d cExprSwitches)
    (met_TypeSwitches m + d cTypeSwitches) (met_Selects m + d cSelects) (met_Functions m + d cFunctions)
    (met_Methods m + d cMethods) (met_MaxNestingDepth m) (met_MaxCognitiveComplexity m)
    (met_SumCognitiveComplexity m).

Definition set_MaxNestingDepth (d : Z) (m : StructuralMetrics) : StructuralMetrics :=
  mkStructuralMetrics (met_Ifs m) (met_Fors m) (met_ExprSwitches m) (met_TypeSwitches m) (met_Selects m)
    (met_Functions m) (met_Methods m) d (met_MaxCognitiveComplexity m) (met_SumCognitiveComplexity m).

Definition get (k : counter) (m : StructuralMetrics) : Z :=
  match k with
  | cIfs => met_Ifs m | cFors => met_Fors m | cExprSwitches => met_ExprSwitches m
  | cTypeSwitches => met_TypeSwitches m | cSelects => met_Selects m
  | cFunctions => met_Functions m | cMethods => met_Methods m
  end.

Lemma set_Max_same m : set_MaxNestingDepth (met_MaxNestingDepth m) m = m.
Proof. by destruct m. Qed.

(** [if depth > max { max = depth }] is a maximum. *)
Lemma set_Max_if d m :
  (if (met_MaxNestingDepth m <? d)%Z then set_MaxNestingDepth d m else m)
  = set_MaxNestingDepth (Z.max (met_MaxNestingDepth m) d) m.
Proof.
  destruct (Z.ltb_spec (met_MaxNestingDepth m) d).
  - by rewrite Z.max_r by lia.
  - by rewrite Z.max_l, set_Max_same by lia.
Qed.

Lemma foldr_max l a b : foldr Z.max (Z.max a b) l = Z.max b (foldr Z.max a l).
Proof. induction l as [|x l IH]; simpl; lia. Qed.

(** ** Findings *)

(** A finding without coaching metadata. *)
Definition plain_finding (kind name : string) (loc : Location) : Finding := mkFinding kind name loc "" "" "" "".

(** go: pkg/semantics/mutates_input_finding.go#newMutatesInputFinding *)
Definition newMutatesInputFinding (funcName paramName : string) (evidence : Node) : Finding :=
  mkFinding "mutates_input" (funcName +:+ ":" +:+ paramName) (locationFromNode evidence) "medium"
    (Utf8Text evidence)
    "Return a copy instead of mutating the caller's value, or document/rename this function to make the in-place mutation explicit."
    "refactor-hidden-mutation".

(** ** Nesting *)

Section nesting.
Context (counter_of : string → option counter) (opens : string → bool) (block : string).
Hypothesis block_uncounted : counter_of block = None.
Hypothesis block_not_opening : opens block = false.

(** The nesting the children of a node inherit: the blocks entered, and whether a
    function was. *)
Definition post (n : Node) (c : Z * bool) : Z * bool :=
  if opens (Kind n) then (0%Z, true)
  else if (Kind n == block) && snd c then ((fst c + 1)%Z, true) else c.

Definition met_step (c : Z * bool) (n : Node) (m : StructuralMetrics) : StructuralMetrics :=
  match counter_of (Kind n) with
  | Some k => increment k m
  | None =>
      if (Kind n == block) && snd c then set_MaxNestingDepth (Z.max (met_MaxNestingDepth m) (fst c + 1)) m else m
  end.

(** The number of blocks around a node up to the nearest enclosing function, [None]
    outside any; the list starts with the node and goes up. *)
Fixpoint blocks_to_function (l : list Node) : option Z :=
  match l with
  | [] => None
  | n :: l =>
      if opens (Kind n) then Some 0%Z
      else (λ d, if Kind n == block then (d + 1)%Z else d) <$> blocks_to_function l
  end.

Definition nest (l : list Node) : Z * bool :=
  match blocks_to_function l with Some d => (d, true) | None => (0%Z, false) end.

Lemma post_nest n l : post n (nest l) = nest (n :: l).
Proof using Type.
  unfold post, nest. cbn. destruct (opens (Kind n)); [done|].
  destruct (blocks_to_function l), (Kind n == block); done.
Qed.

Lemma nesting_at t n : In n (nodes (Root t)) →
  ctx_at (all_children post) (Root t) (0%Z, false) n = Some (nest (ancestors n)).
Proof using Type.
  intros Hn. destruct (ctx_nodes_Some (all_children post) (Root t) (0%Z, false)) with (n := n) as [_ [c Hc]]; [|done|].
  { intros m c i Hi. rewrite all_children_total by done. eauto. }
  rewrite Hc. f_equal. clear Hn. unfold ctx_at, ancestors in *. cbn [n_up Root length] in Hc.
  revert c Hc. generalize (n_up n) as up. clear n.
  induction up as [|[p i] up IH]; intros c.
  - by intros [= <-].
  - cbn [ctx_along ancestors_up length]. change (S (length up) <=? 0) with false.
    destruct (ctx_along (all_children post) 0 (0%Z, false) up) as [d|]; [|done]. cbn.
    rewrite <- post_nest, <- (IH d eq_refl). unfold all_children. rewrite list_lookup_fmap.
    by destruct (children (mkNode p up) !! i); intros [= <-].
Qed.

(** The nodes of a file with the nesting each is entered with. *)
Lemma nested_nodes t :
  ctx_nodes (all_children post) (Root t) (0%Z, false) = map (λ n, (n, nest (ancestors n))) (nodes (Root t)).
Proof using Type.
  rewrite ctx_nodes_at.
  assert (H : ∀ l, (∀ n, In n l → In n (nodes (Root t))) →
    omap (λ m, pair m <$> ctx_at (all_children post) (Root t) (0%Z, false) m) l
    = map (λ n, (n, nest (ancestors n))) l).
  { induction l as [|n l IH]; intros Hl; [done|]. cbn [map]. rewrite omap_step, nesting_at by (apply Hl; by left).
    cbn. f_equal. apply IH. intros. apply Hl. by right. }
  by apply H.
Qed.

(** The metrics after the nodes [l]. *)
Definition count_nodes (l : list (Node * (Z * bool))) (m : StructuralMetrics) : StructuralMetrics :=
  fold_left (λ m nc, met_step (snd nc) (fst nc) m) l m.

Lemma get_step k c n m :
  get k (met_step c n m) = (get k m + if bool_decide (counter_of (Kind n) = Some k) then 1 else 0)%Z.
Proof using Type.
  unfold met_step. destruct (counter_of (Kind n)) as [k'|].
  - destruct k; cbn [get increment met_Ifs met_Fors met_ExprSwitches met_TypeSwitches met_Selects met_Functions met_Methods];
      repeat case_bool_decide; congruence || lia.
  - rewrite bool_decide_false by done. destruct (_ && _), k; cbn; lia.
Qed.

Lemma max_step c n m : met_MaxNestingDepth (met_step c n m)
  = if (Kind n == block) && snd c then Z.max (met_MaxNestingDepth m) (fst c + 1) else met_MaxNestingDepth m.
Proof using block_uncounted.
  unfold met_step. destruct (String.eqb_spec (Kind n) block) as [E|E]; cbn [andb].
  - rewrite E, block_uncounted. by destruct (snd c).
  - by destruct (counter_of (Kind n)).
Qed.

Lemma rest_step c n m :
  met_MaxCognitiveComplexity (met_step c n m) = met_MaxCognitiveComplexity m
  ∧ met_SumCognitiveComplexity (met_step c n m) = met_SumCognitiveComplexity m.
Proof using Type. unfold met_step. destruct (counter_of (Kind n)); [done|]. by destruct (_ && _). Qed.

Definition node_count (k : counter) (root : Node) : Z :=
  zlen (List.filter (λ n, bool_decide (counter_of (Kind n) = Some k)) (nodes root)).

Lemma fold_get k l m :
  get k (count_nodes l m)
  = (get k m + zlen (List.filter (λ nc, bool_decide (counter_of (Kind (fst nc)) = Some k)) l))%Z.
Proof using Type.
  revert m. induction l as [|nc l IH]; intros m; cbn [count_nodes fold_left List.filter].
  - unfold zlen. simpl. lia.
  - fold (count_nodes l). rewrite IH, get_step. case_bool_decide; unfold zlen; simpl; lia.
Qed.

Lemma fold_counts k t :
  get k (count_nodes (map (λ n, (n, nest (ancestors n))) (nodes (Root t))) zero_metrics) = node_count k (Root t).
Proof using Type.
  rewrite fold_get. unfold node_count. rewrite bfilter_map. unfold zlen. rewrite length_map.
  by destruct k.
Qed.

(** The depth of the blocks inside functions. *)
Definition block_depths (l : list Node) : list Z :=
  omap (λ n, if Kind n == block then blocks_to_function (n :: ancestors n) else None) l.

Lemma fold_max_nesting l m : met_MaxNestingDepth m = 0%Z →
  met_MaxNestingDepth (count_nodes (map (λ n, (n, nest (ancestors n))) l) m) = foldr Z.max 0%Z (block_depths l).
Proof using block_uncounted block_not_opening.
  intros Hm. rewrite <- Hm at 1. clear Hm. revert m.
  induction l as [|n l IH]; intros m; [done|]. unfold count_nodes, block_depths in *. cbn [map fold_left fst snd].
  rewrite IH, max_step, omap_step. unfold nest. cbn [blocks_to_function].
  destruct (Kind n == block) eqn:E; [|done]. apply String.eqb_eq in E. rewrite E, block_not_opening.
  destruct (blocks_to_function (ancestors n)); [|done]. cbn. apply foldr_max.
Qed.

Lemma fold_rest l m : met_MaxCognitiveComplexity m = 0%Z → met_SumCognitiveComplexity m = 0%Z →
  met_MaxCognitiveComplexity (count_nodes l m) = 0%Z ∧ met_SumCognitiveComplexity (count_nodes l m) = 0%Z.
Proof using Type.
  revert m. induction l as [|nc l IH]; intros m H1 H2; [done|]. apply IH.
  - by rewrite (proj1 (rest_step _ _ _)).
  - by rewrite (proj2 (rest_step _ _ _)).
Qed.
End nesting.
