(* ===== verification/GoSyntax.v ===== *)
(** * Go syntax

    What the Go extractors of [pkg/semantics] read off a Go syntax tree: calls,
    expressions, expression lists, sets of identifiers, parameters, the names a
    statement shadows ([go_calls.go], [go_expressions.go], [go_expression_lists.go],
    [go_identifier_sets.go], [go_shadowing*.go], [go_mutates_input_*.go],
    [go_toctou_*.go]).  A Go set [map[string]bool] that only ever holds [true] is a
    [gset]. *)

From S2P Require Import Prelude GoText Semantics Syntax.

(** ** [go_expressions.go] *)

(** go: pkg/semantics/go_expressions.go#parenthesizedInner *)
Definition parenthesizedInner (paren : Node) : option Node :=
  List.find (λ child, (Kind child != "(") && (Kind child != ")")) (children paren).

Definition unwrapGoParen_body (rec : option Node → option Node) (n : option Node) : option Node :=
  match n with
  | Some p =>
      if Kind p == "parenthesized_expression"
      then match parenthesizedInner p with
           | None => n
           | Some inner => rec (Some inner)
           end
      else n
  | None => n
  end.

(** go: pkg/semantics/go_expressions.go#unwrapGoParen *)
Definition unwrapGoParen : option Node → option Node := descend oheight id unwrapGoParen_body.

(** go: pkg/semantics/go_expressions.go#goBinaryOp *)
Definition goBinaryOp (n : Node) : string :=
  match ChildByFieldName n "operator" with
  | None => ""
  | Some op => Utf8Text op
  end.

(** ** [go_calls.go] *)

(** go: pkg/semantics/go_calls.go#goSelectorCallInfo *)
Definition goSelectorCallInfo (call : option Node) : option (string * string) :=
  match call with
  | None => None
  | Some call =>
      if Kind call != "call_expression" then None
      else match ChildByFieldName call "function" with
      | None => None
      | Some fn =>
          if Kind fn != "selector_expression" then None
          else match ChildByFieldName fn "operand", ChildByFieldName fn "field" with
          | Some operand, Some fld =>
              if Kind operand != "identifier" then None
              else Some (Utf8Text operand, Utf8Text fld)
          | _, _ => None
          end
      end
  end.

Definition punctuation : list string := ["("; ")"; ","].

(** go: pkg/semantics/go_calls.go#goCallFirstArgument *)
Definition goCallFirstArgument (call : Node) : option Node :=
  match ChildByFieldName call "arguments" with
  | None => None
  | Some args => List.find (λ child, negb (one_of punctuation (Kind child))) (children args)
  end.

(** ** [go_expression_lists.go] *)

(** go: pkg/semantics/go_expression_lists.go#goExpressionListValues *)
Definition goExpressionListValues (l : Node) : list Node :=
  List.filter (λ child, negb (Kind child == ",")) (children l).

Fixpoint single_identifier (id : string) (cs : list Node) : string :=
  match cs with
  | [] => id
  | child :: cs =>
      if Kind child == "," then single_identifier id cs
      else if Kind child == "identifier" then
        if id != "" then "" else single_identifier (Utf8Text child) cs
      else ""
  end.

(** go: pkg/semantics/go_expression_lists.go#singleIdentifierName *)
Definition singleIdentifierName (l : option Node) : string :=
  match l with
  | None => ""
  | Some l => single_identifier "" (children l)
  end.

Fixpoint single_node (found : option Node) (cs : list Node) : option Node :=
  match cs with
  | [] => found
  | child :: cs =>
      if Kind child == "," then single_node found cs
      else match found with
           | Some _ => None
           | None => single_node (Some child) cs
           end
  end.

(** The loop returns false when a second node appears, which [single_node] answers
    with [None].
    go: pkg/semantics/go_expression_lists.go#expressionListIsSingleNode *)
Definition expressionListIsSingleNode (l want : option Node) : bool :=
  match l, want with
  | Some l, Some want =>
      match single_node None (children l) with
      | Some found => sameNodeSpan found want
      | None => false
      end
  | _, _ => false
  end.

(** ** [go_identifier_sets.go] *)

Definition collect_body (rec : Node * gset string → gset string) (x : Node * gset string) : gset string :=
  let (n, s) := x in
  if Kind n == "identifier" then {[Utf8Text n]} ∪ s
  else fold_left (λ s child, rec (child, s)) (children n) s.

(** go: pkg/semantics/go_identifier_sets.go#collect *)
Definition collect (s : gset string) (n : option Node) : gset string :=
  match n with
  | None => s
  | Some n => descend (λ x, nheight (fst x)) snd collect_body (n, s)
  end.

Definition param_declarations : list string := ["parameter_declaration"; "variadic_parameter_declaration"].

Definition collectParams_body (rec : Node * gset string → gset string) (x : Node * gset string) : gset string :=
  let (n, s) := x in
  if one_of param_declarations (Kind n)
  then fold_left (λ s child, if Kind child == "identifier" then {[Utf8Text child]} ∪ s else s) (children n) s
  else fold_left (λ s child, rec (child, s)) (children n) s.

(** go: pkg/semantics/go_identifier_sets.go#collectParams *)
Definition collectParams (s : gset string) (n : Node) : gset string :=
  descend (λ x, nheight (fst x)) snd collectParams_body (n, s).

(** go: pkg/semantics/go_identifier_sets.go#identifiersInNodeField *)
Definition identifiersInNodeField (n : Node) (fld : string) : gset string :=
  match ChildByFieldName n fld with
  | None => ∅
  | Some child => collect ∅ (Some child)
  end.

(** go: pkg/semantics/go_identifier_sets.go#parameterNames *)
Definition parameterNames (params : option Node) : gset string :=
  match params with
  | None => ∅
  | Some params => fold_left collectParams (children params) ∅
  end.

(** ** [go_mutates_input_params.go] *)

(** go: pkg/semantics/go_mutates_input_params.go:16-25#paramMutKind *)
Inductive paramMutKind := paramNotMutable | paramMutPointer | paramMutCollection.

#[export] Instance paramMutKind_eq_dec : EqDecision paramMutKind.
Proof. solve_decision. Defined.

(** A Go map read with [m[k]]: the zero value for a missing key. *)
Definition kind_of (m : gmap string paramMutKind) (name : string) : paramMutKind :=
  default paramNotMutable (m !! name).

Definition declared_kind (decl : Node) : paramMutKind :=
  match ChildByFieldName decl "type" with
  | None => paramNotMutable
  | Some typeNode =>
      if Kind typeNode == "pointer_type" then paramMutPointer
      else if one_of ["map_type"; "slice_type"] (Kind typeNode) then paramMutCollection
      else paramNotMutable
  end.

(** go: pkg/semantics/go_mutates_input_params.go#addDecl *)
Definition addDecl (result : gmap string paramMutKind) (decl : Node) : gmap string paramMutKind :=
  if Kind decl != "parameter_declaration" then result
  else
    let kind := declared_kind decl in
    fold_left (λ result nameChild,
        if Kind nameChild != "identifier" then result
        else <[Utf8Text nameChild := kind]> result)
      (children decl) result.

(** go: pkg/semantics/go_mutates_input_params.go#mutableParamTypes *)
Definition mutableParamTypes (params : Node) : gmap string paramMutKind :=
  fold_left addDecl (children params) ∅.

(** ** [go_shadowing*.go] *)

(** go: pkg/semantics/go_shadowing_type_switch.go#firstChildIdentifier *)
Definition firstChildIdentifier (n : Node) : option string :=
  Utf8Text <$> List.find (λ child, Kind child == "identifier") (children n).

Definition nonempty_set (s : gset string) : bool := bool_decide (s ≠ ∅).

Definition typeSwitchGuard_body (rec : Node → gset string) (n : Node) : gset string :=
  if Kind n == "type_switch_guard" then
    if negb (Contains ":=" (Utf8Text n)) then ∅
    else match firstChildIdentifier n with
         | Some name => {[name]}
         | None => ∅
         end
  else default ∅ (first_some (λ child, let names := rec child in
                                      if nonempty_set names then Some names else None) (children n)).

(** go: pkg/semantics/go_shadowing_type_switch.go#typeSwitchGuardIdentifiers *)
Definition typeSwitchGuardIdentifiers : Node → gset string := descend nheight (λ _, ∅) typeSwitchGuard_body.

Definition varDeclNames_body (rec : Node * gset string → gset string) (x : Node * gset string) : gset string :=
  let (node, names) := x in
  if Kind node == "var_spec" then
    match ChildByFieldName node "name" with
    | Some name => collect names (Some name)
    | None => names
    end
  else fold_left (λ names child, rec (child, names)) (children node) names.

(** The [collect] method of [varDeclNames].
    go: pkg/semantics/go_shadowing_var_declarations.go:18-32#varDeclNames *)
Definition varDeclNames_collect (names : gset string) (node : Node) : gset string :=
  descend (λ x, nheight (fst x)) snd varDeclNames_body (node, names).

(** go: pkg/semantics/go_shadowing_var_declarations.go#identifiersInVarDeclaration *)
Definition identifiersInVarDeclaration (n : Node) : gset string := varDeclNames_collect ∅ n.

Definition declaredInSubtree_body (rec : Node * gset string → gset string) (x : Node * gset string) : gset string :=
  let (node, names) := x in
  if Kind node == "short_var_declaration" then identifiersInNodeField node "left" ∪ names
  else if Kind node == "var_declaration" then identifiersInVarDeclaration node ∪ names
  else fold_left (λ names child, rec (child, names)) (children node) names.

(** go: pkg/semantics/go_shadowing_var_declarations.go#identifiersDeclaredInSubtree *)
Definition identifiersDeclaredInSubtree (n : Node) : gset string :=
  descend (λ x, nheight (fst x)) snd declaredInSubtree_body (n, ∅).

(** go: pkg/semantics/go_shadowing.go#reboundIdentifiersInAssignment *)
Definition reboundIdentifiersInAssignment (n : Node) : gset string :=
  match ChildByFieldName n "left" with
  | None => ∅
  | Some lhs =>
      fold_left (λ names child, if Kind child == "identifier" then {[Utf8Text child]} ∪ names else names)
        (children lhs) ∅
  end.

(** go: pkg/semantics/go_shadowing.go#shadowNames *)
Definition shadowNames (outer : gmap string paramMutKind) (names : gset string) : gmap string paramMutKind :=
  if bool_decide (outer = ∅) || bool_decide (names = ∅) then outer
  else filter (λ nk, nk.1 ∉ names) outer.

(** go: pkg/semantics/go_shadowing.go#shadowParamTypes *)
Definition shadowParamTypes (outer : gmap string paramMutKind) (literalParams : Node) : gmap string paramMutKind :=
  let ownParams := parameterNames (Some literalParams) in
  if bool_decide (ownParams = ∅) then outer
  else filter (λ nk, nk.1 ∉ ownParams) outer.

(** go: pkg/semantics/go_shadowing.go#shadowLocalDeclarations *)
Definition shadowLocalDeclarations (outer : gmap string paramMutKind) (n : Node) : gmap string paramMutKind :=
  if bool_decide (outer = ∅) then outer
  else if Kind n == "short_var_declaration" then shadowNames outer (identifiersInNodeField n "left")
  else if Kind n == "assignment_statement" then shadowNames outer (reboundIdentifiersInAssignment n)
  else if Kind n == "for_clause" then shadowNames outer (identifiersDeclaredInSubtree n)
  else if Kind n == "range_clause" then shadowNames outer (identifiersInNodeField n "left")
  else if one_of ["type_switch_header"; "type_switch_guard"] (Kind n)
       then shadowNames outer (typeSwitchGuardIdentifiers n)
  else if Kind n == "var_declaration" then shadowNames outer (identifiersInVarDeclaration n)
  else outer.

(** ** [go_mutates_input_derefs.go], [go_mutates_input_selectors.go] *)

(** go: pkg/semantics/go_mutates_input_derefs.go#derefOperand *)
Definition derefOperand (paren : Node) : option Node :=
  first_some (λ child,
      if Kind child != "unary_expression" then None
      else match ChildByFieldName child "operator" with
      | None => None
      | Some op => if Utf8Text op != "*" then None else ChildByFieldName child "operand"
      end) (children paren).

Definition base_loop_body (rec : option Node → option Node * bool) (operand : option Node) : option Node * bool :=
  match operand with
  | None => (None, false)
  | Some n =>
      if Kind n == "identifier" then (operand, true)
      else if one_of ["selector_expression"; "index_expression"] (Kind n)
           then rec (ChildByFieldName n "operand")
      else if Kind n == "parenthesized_expression" then
        match derefOperand n with
        | Some inner => rec (Some inner)
        | None => rec (parenthesizedInner n)
        end
      else (None, false)
  end.

(** The loop of [selectorBaseIdentifier]. *)
Definition base_loop : option Node → option Node * bool := descend oheight (λ _, (None, false)) base_loop_body.

(** go: pkg/semantics/go_mutates_input_selectors.go#selectorBaseIdentifier *)
Definition selectorBaseIdentifier (operand : Node) : option Node * bool :=
  let is_ident o := match o with Some i => Kind i == "identifier" | None => false end in
  if Kind operand == "identifier" then (Some operand, false)
  else if (Kind operand == "parenthesized_expression") && is_ident (derefOperand operand)
       then (derefOperand operand, false)
  else if (Kind operand == "parenthesized_expression") && is_ident (parenthesizedInner operand)
       then (parenthesizedInner operand, false)
  else base_loop (Some operand).

(** go: pkg/semantics/go_mutates_input_targets.go#updateStatementTarget *)
Definition updateStatementTarget (n : Node) : option Node :=
  List.find (λ child, one_of ["selector_expression"; "index_expression"; "unary_expression"] (Kind child))
    (children n).

(** ** [go_toctou_act_calls.go], [go_toctou_stat_gates.go] *)

(** go: pkg/semantics/go_toctou_act_calls.go#goToctouActCallNames *)
Definition goToctouActCallNames : list string := ["Open"; "OpenFile"; "Remove"; "RemoveAll"; "ReadFile"].

(** go: pkg/semantics/go_toctou_act_calls.go#goToctouActMatch *)
Definition goToctouActMatch (n : Node) (pathText : string) : bool :=
  if Kind n != "call_expression" then false
  else match goSelectorCallInfo (Some n) with
  | None => false
  | Some (pkg, name) =>
      if (pkg != "os") || negb (one_of goToctouActCallNames name) then false
      else match goCallFirstArgument n with
           | Some arg => Utf8Text arg == pathText
           | None => false
           end
  end.

Definition findGoToctouActCall_body (pathText : string) (rec : Node → option Node) (n : Node) : option Node :=
  if goToctouActMatch n pathText then Some n else first_some rec (children n).

(** go: pkg/semantics/go_toctou_act_calls.go#findGoToctouActCall *)
Definition findGoToctouActCall (n : Node) (pathText : string) : option Node :=
  descend nheight (λ _, None) (findGoToctouActCall_body pathText) n.

(** go: pkg/semantics/go_toctou_stat_gates.go#goToctouStatCallNames *)
Definition goToctouStatCallNames : list string := ["Stat"; "Lstat"].

(** [None] where the code returns a nil call.
    go: pkg/semantics/go_toctou_stat_gates.go#goStatInitializerCall *)
Definition goStatInitializerCall (ifStmt : Node) : option (Node * string) :=
  match ChildByFieldName ifStmt "initializer" with
  | None => None
  | Some init =>
      if negb (one_of ["short_var_declaration"; "assignment_statement"] (Kind init)) then None
      else match ChildByFieldName init "left", ChildByFieldName init "right" with
      | Some lhs, Some rhs =>
          match goExpressionListValues lhs, goExpressionListValues rhs with
          | [_; target], [value] =>
              if Kind target != "identifier" then None
              else match goSelectorCallInfo (Some value) with
              | None => None
              | Some (pkg, name) =>
                  if (pkg != "os") || negb (one_of goToctouStatCallNames name) then None
                  else Some (value, Utf8Text target)
              end
          | _, _ => None
          end
      | _, _ => None
      end
  end.

(** go: pkg/semantics/go_toctou_stat_gates.go#isGoErrNilGate *)
Definition isGoErrNilGate (cond : option Node) (errName : string) : bool :=
  match cond with
  | None => false
  | Some cond =>
      if (errName == "") || (Kind cond != "binary_expression") then false
      else if goBinaryOp cond != "==" then false
      else match ChildByFieldName cond "left", ChildByFieldName cond "right" with
      | Some l, Some r =>
          ((Kind l == "nil") && (Kind r == "identifier") && (Utf8Text r == errName))
          || ((Kind r == "nil") && (Kind l == "identifier") && (Utf8Text l == errName))
      | _, _ => false
      end
  end.

(** ** [go_pointer_returns.go], [go_constructor_funcs.go] *)

Definition resultHasPointerType_body (rec : Node → bool) (result : Node) : bool :=
  (Kind result == "pointer_type") || existsb rec (children result).

(** go: pkg/semantics/go_pointer_returns.go#resultHasPointerType *)
Definition resultHasPointerType : Node → bool := descend nheight (λ _, false) resultHasPointerType_body.

(** [^New([A-Z0-9_]|$)].
    go: pkg/semantics/go_constructor_funcs.go#constructorFuncNameRe *)
Definition constructorFuncNameRe (name : string) : bool :=
  match CutPrefix "New" name with
  | None => false
  | Some EmptyString => true
  | Some (String c _) => in_range 65 90 (code c) || in_range 48 57 (code c) || (code c =? 95)%N
  end.

#[global] Arguments collect : simpl never.
#[global] Arguments collectParams : simpl never.

(** ** The recursions are the ones of the code *)

Lemma derefOperand_height n : oheight (derefOperand n) < nheight n.
Proof.
  destruct (derefOperand n) as [m|] eqn:E; simpl; [|apply nheight_pos].
  unfold derefOperand in E. apply first_some_Some in E as (c & Hc%children_height & E).
  destruct (_ != _); [done|]. destruct (ChildByFieldName c "operator"); [|done].
  destruct (_ != _); [done|]. pose proof (ChildByFieldName_height c "operand") as H.
  rewrite E in H. simpl in H. lia.
Qed.

Lemma parenthesizedInner_height n : oheight (parenthesizedInner n) < nheight n.
Proof. apply find_child_height. Qed.
#[export] Hint Resolve derefOperand_height parenthesizedInner_height : height.

Lemma unwrapGoParen_eq n : unwrapGoParen n = unwrapGoParen_body unwrapGoParen n.
Proof. unfold unwrapGoParen at 1. rewrite descend_eq; [done|descends_tac]. Qed.

Lemma collect_eq n s : collect s (Some n)
  = if Kind n == "identifier" then {[Utf8Text n]} ∪ s
    else fold_left (λ s child, collect s (Some child)) (children n) s.
Proof. unfold collect at 1. rewrite descend_eq; [done|descends_tac]. Qed.

Lemma collectParams_eq n s : collectParams s n
  = collectParams_body (λ x, collectParams (snd x) (fst x)) (n, s).
Proof.
  unfold collectParams at 1. rewrite descend_eq; [|descends_tac].
  unfold collectParams_body. destruct (one_of _ _); done.
Qed.

Lemma typeSwitchGuardIdentifiers_eq n :
  typeSwitchGuardIdentifiers n = typeSwitchGuard_body typeSwitchGuardIdentifiers n.
Proof. unfold typeSwitchGuardIdentifiers at 1. rewrite descend_eq; [done|descends_tac]. Qed.

Lemma base_loop_eq n : base_loop n = base_loop_body base_loop n.
Proof. unfold base_loop at 1. rewrite descend_eq; [done|descends_tac]. Qed.

Lemma findGoToctouActCall_eq n p : findGoToctouActCall n p
  = if goToctouActMatch n p then Some n else first_some (λ c, findGoToctouActCall c p) (children n).
Proof. unfold findGoToctouActCall at 1. rewrite descend_eq; [done|descends_tac]. Qed.

Lemma resultHasPointerType_eq n :
  resultHasPointerType n = (Kind n == "pointer_type") || existsb resultHasPointerType (children n).
Proof. unfold resultHasPointerType at 1. rewrite descend_eq; [done|descends_tac]. Qed.
