(* ===== verification/GoFeatures.v ===== *)
(** * Structural metrics and findings of a Go file

    [computeGoFeatures] ([go_features.go]) walks a Go syntax tree once and collects the
    counters of [StructuralMetrics] and the findings of four detectors: constructors,
    pointer returns, hidden mutation of parameters ([go_mutates_input*.go]) and
    check-then-act races on the file system ([go_toctou.go]).

    The walk threads a collector and inherits the nesting; [go_findings_exact]
    takes it apart into counts over the nodes of the tree and one list of findings per
    node, and [mutates_input_exact] gives the writes a function is blamed for from the
    place of each node alone: the parameters still visible at a node are those that no
    enclosing function literal or type switch and no earlier sibling on the way up
    has shadowed. *)

From S2P Require Import Prelude GoText Semantics Syntax Nesting GoSyntax.

(** ** The collector *)

(** go: pkg/semantics/go_mutates_input.go#mutatesInputKey *)
Record mutatesInputKey := mkMutatesInputKey { mk_paramName : string; mk_startByte : N; mk_endByte : N }.

(** go: pkg/semantics/go_toctou.go#goToctouLocationKey *)
Record goToctouLocationKey := mkGoToctouLocationKey { tk_startByte : N; tk_endByte : N }.

#[export] Instance mutatesInputKey_eq_dec : EqDecision mutatesInputKey.
Proof. solve_decision. Defined.
#[export] Program Instance mutatesInputKey_countable : Countable mutatesInputKey :=
  inj_countable' (λ k, (mk_paramName k, mk_startByte k, mk_endByte k)) (λ t, mkMutatesInputKey t.1.1 t.1.2 t.2) _.
Next Obligation. by intros []. Qed.

#[export] Instance goToctouLocationKey_eq_dec : EqDecision goToctouLocationKey.
Proof. solve_decision. Defined.
#[export] Program Instance goToctouLocationKey_countable : Countable goToctouLocationKey :=
  inj_countable' (λ k, (tk_startByte k, tk_endByte k)) (λ t, mkGoToctouLocationKey t.1 t.2) _.
Next Obligation. by intros []. Qed.

(** go: pkg/semantics/go_features.go#featureCollector *)
Record featureCollector := mkFeatureCollector {
  fc_metrics : StructuralMetrics; fc_findings : list Finding;
  fc_goToctouActSeen : gset goToctouLocationKey; fc_mutatesSeen : gset mutatesInputKey
}.

Definition new_collector : featureCollector := mkFeatureCollector zero_metrics [] ∅ ∅.

Definition add_finding (f : Finding) (c : featureCollector) : featureCollector :=
  mkFeatureCollector (fc_metrics c) (fc_findings c ++ [f]) (fc_goToctouActSeen c) (fc_mutatesSeen c).

Definition on_metrics (f : StructuralMetrics → StructuralMetrics) (c : featureCollector) : featureCollector :=
  mkFeatureCollector (f (fc_metrics c)) (fc_findings c) (fc_goToctouActSeen c) (fc_mutatesSeen c).

(** ** Constructors and pointer returns *)

(** go: pkg/semantics/go_constructor_funcs.go#checkConstructorFunc *)
Definition checkConstructorFunc (decl : Node) (c : featureCollector) : featureCollector :=
  match ChildByFieldName decl "name" with
  | None => c
  | Some nameNode =>
      let name := Utf8Text nameNode in
      if negb (constructorFuncNameRe name) then c
      else add_finding (plain_finding "constructor_func" name (locationFromNode decl)) c
  end.

(** go: pkg/semantics/go_pointer_returns.go#checkPointerReturn *)
Definition checkPointerReturn (decl : Node) (c : featureCollector) : featureCollector :=
  match ChildByFieldName decl "name" with
  | None => c
  | Some nameNode =>
      match ChildByFieldName decl "result" with
      | None => c
      | Some result =>
          if negb (resultHasPointerType result) then c
          else add_finding (plain_finding "pointer_return" (Utf8Text nameNode) (locationFromNode decl)) c
      end
  end.

(** ** Hidden mutation *)

(** go: pkg/semantics/go_mutates_input.go#recordMutatesInput *)
Definition recordMutatesInput (funcName paramName : string) (target : Node) (c : featureCollector) : featureCollector :=
  let loc := locationFromNode target in
  let key := mkMutatesInputKey paramName (loc_StartByte loc) (loc_EndByte loc) in
  if bool_decide (key ∈ fc_mutatesSeen c) then c
  else
    let c := mkFeatureCollector (fc_metrics c) (fc_findings c) (fc_goToctouActSeen c) ({[key]} ∪ fc_mutatesSeen c) in
    add_finding (newMutatesInputFinding funcName paramName target) c.

(** go: pkg/semantics/go_mutates_input_derefs.go#recordMutableDeref *)
Definition recordMutableDeref (target : Node) (funcName : string) (mutableParams : gmap string paramMutKind)
    (c : featureCollector) : featureCollector :=
  match ChildByFieldName target "operator" with
  | None => c
  | Some op =>
      if Utf8Text op != "*" then c
      else match ChildByFieldName target "operand" with
      | None => c
      | Some operand =>
          if Kind operand != "identifier" then c
          else
            let paramName := Utf8Text operand in
            if bool_decide (kind_of mutableParams paramName ≠ paramMutPointer) then c
            else recordMutatesInput funcName paramName target c
      end
  end.

(** go: pkg/semantics/go_mutates_input_selectors.go#recordMutableSelectorOrIndex *)
Definition recordMutableSelectorOrIndex (target : Node) (funcName : string)
    (mutableParams : gmap string paramMutKind) (requiredKind : paramMutKind) (c : featureCollector) : featureCollector :=
  match ChildByFieldName target "operand" with
  | None => c
  | Some operand =>
      match selectorBaseIdentifier operand with
      | (None, _) => c
      | (Some base, nested) =>
          let paramName := Utf8Text base in
          let kind := kind_of mutableParams paramName in
          if nested : bool then
            if bool_decide (kind = paramNotMutable) then c
            else recordMutatesInput funcName paramName target c
          else if bool_decide (kind ≠ requiredKind) then c
          else recordMutatesInput funcName paramName target c
      end
  end.

Definition checkAssignmentTarget_body (funcName : string) (mutableParams : gmap string paramMutKind)
    (rec : Node * featureCollector → featureCollector) (x : Node * featureCollector) : featureCollector :=
  let (target, c) := x in
  if Kind target == "parenthesized_expression" then
    match parenthesizedInner target with
    | None => c
    | Some inner => rec (inner, c)
    end
  else if Kind target == "selector_expression"
       then recordMutableSelectorOrIndex target funcName mutableParams paramMutPointer c
  else if Kind target == "index_expression"
       then recordMutableSelectorOrIndex target funcName mutableParams paramMutCollection c
  else if Kind target == "unary_expression" then recordMutableDeref target funcName mutableParams c
  else c.

(** go: pkg/semantics/go_mutates_input_targets.go#checkAssignmentTarget *)
Definition checkAssignmentTarget (target : option Node) (funcName : string)
    (mutableParams : gmap string paramMutKind) (c : featureCollector) : featureCollector :=
  match target with
  | None => c
  | Some target =>
      descend (λ x, nheight (fst x)) snd (checkAssignmentTarget_body funcName mutableParams) (target, c)
  end.

(** go: pkg/semantics/go_mutates_input_targets.go#checkAssignmentTargets *)
Definition checkAssignmentTargets (lhs : option Node) (funcName : string)
    (mutableParams : gmap string paramMutKind) (c : featureCollector) : featureCollector :=
  match lhs with
  | None => c
  | Some lhs =>
      fold_left (λ c child, checkAssignmentTarget (Some child) funcName mutableParams c) (children lhs) c
  end.

Definition findAssignments_body (funcName : string)
    (rec : Node * gmap string paramMutKind * featureCollector → featureCollector)
    (x : Node * gmap string paramMutKind * featureCollector) : featureCollector :=
  let '(n, mutableParams, c) := x in
  let mutableParams :=
    if Kind n == "type_switch_statement" then shadowNames mutableParams (identifiersInNodeField n "alias")
    else mutableParams in
  let c :=
    if Kind n == "assignment_statement"
    then checkAssignmentTargets (ChildByFieldName n "left") funcName mutableParams c else c in
  let c :=
    if one_of ["inc_statement"; "dec_statement"] (Kind n)
    then checkAssignmentTarget (updateStatementTarget n) funcName mutableParams c else c in
  let mutableParams :=
    if Kind n == "func_literal" then
      match ChildByFieldName n "parameters" with
      | Some params => shadowParamTypes mutableParams params
      | None => mutableParams
      end
    else mutableParams in
  snd (fold_left (λ '(mutableParams, c) child,
         let c := rec (child, mutableParams, c) in
         (shadowLocalDeclarations mutableParams child, c)) (children n) (mutableParams, c)).

(** go: pkg/semantics/go_mutates_input.go#findAssignments *)
Definition findAssignments (n : Node) (funcName : string) (mutableParams : gmap string paramMutKind)
    (c : featureCollector) : featureCollector :=
  descend (λ x, nheight (fst (fst x))) snd (findAssignments_body funcName) (n, mutableParams, c).

(** go: pkg/semantics/go_mutates_input.go#checkMutatesInput *)
Definition checkMutatesInput (decl : Node) (c : featureCollector) : featureCollector :=
  match ChildByFieldName decl "name", ChildByFieldName decl "parameters", ChildByFieldName decl "body" with
  | Some nameNode, Some params, Some body =>
      let funcName := Utf8Text nameNode in
      let mutableParams := mutableParamTypes params in
      if bool_decide (mutableParams = ∅) then c
      else
        let c := mkFeatureCollector (fc_metrics c) (fc_findings c) (fc_goToctouActSeen c) ∅ in
        findAssignments body funcName mutableParams c
  | _, _, _ => c
  end.

(** ** Check-then-act races *)

(** go: pkg/semantics/go_toctou.go#newGoTOCTOUCheckThenActFinding *)
Definition newGoTOCTOUCheckThenActFinding (checkCall actCall : Node) (pathText : string) : Finding :=
  mkFinding "toctou_check_then_act" pathText (locationFromNode actCall) "medium"
    (Utf8Text checkCall +:+ " ... " +:+ Utf8Text actCall)
    "Don't gate a filesystem operation behind an os.Stat/os.Lstat check on the same path -- the file can be created, removed, or replaced between the check and the act (CWE-367/TOCTOU). Call the operation directly and handle its fs.ErrNotExist (or equivalent) error instead (EAFP-style); for stronger hardening, prefer errors.Is(err, fs.ErrNotExist) over string/type sniffing, and consider os.Root to scope filesystem access and further shrink this race."
    "find-bugs".

(** go: pkg/semantics/go_toctou.go#checkGoTOCTOUCheckThenAct *)
Definition checkGoTOCTOUCheckThenAct (n : Node) (c : featureCollector) : featureCollector :=
  match goStatInitializerCall n with
  | None => c
  | Some (statCall, errName) =>
      match goCallFirstArgument statCall with
      | None => c
      | Some checkArg =>
          if negb (isGoErrNilGate (ChildByFieldName n "condition") errName) then c
          else match ChildByFieldName n "consequence" with
          | None => c
          | Some consequence =>
              match findGoToctouActCall consequence (Utf8Text checkArg) with
              | None => c
              | Some act =>
                  let loc := locationFromNode act in
                  let key := mkGoToctouLocationKey (loc_StartByte loc) (loc_EndByte loc) in
                  if bool_decide (key ∈ fc_goToctouActSeen c) then c
                  else
                    let c := mkFeatureCollector (fc_metrics c) (fc_findings c)
                               ({[key]} ∪ fc_goToctouActSeen c) (fc_mutatesSeen c) in
                    add_finding (newGoTOCTOUCheckThenActFinding statCall act (Utf8Text checkArg)) c
              end
          end
      end
  end.

(** ** The walk *)

(** The [switch] of [walk]: the nesting below the node, and the collector. *)
Definition enter (n : Node) (blockDepth : Z) (inFunc : bool) (c : featureCollector) : Z * bool * featureCollector :=
  if Kind n == "if_statement" then
    (blockDepth, inFunc, checkGoTOCTOUCheckThenAct n (on_metrics (increment cIfs) c))
  else if Kind n == "for_statement" then (blockDepth, inFunc, on_metrics (increment cFors) c)
  else if Kind n == "expression_switch_statement" then
    (blockDepth, inFunc, on_metrics (increment cExprSwitches) c)
  else if Kind n == "type_switch_statement" then
    (blockDepth, inFunc, on_metrics (increment cTypeSwitches) c)
  else if Kind n == "select_statement" then (blockDepth, inFunc, on_metrics (increment cSelects) c)
  else if Kind n == "function_declaration" then
    let c := on_metrics (increment cFunctions) c in
    let c := checkConstructorFunc n c in
    let c := checkPointerReturn n c in
    let c := checkMutatesInput n c in
    (0%Z, true, c)
  else if Kind n == "method_declaration" then
    let c := on_metrics (increment cMethods) c in
    let c := checkPointerReturn n c in
    let c := checkMutatesInput n c in
    (0%Z, true, c)
  else if Kind n == "block" then
    if inFunc then
      let blockDepth := (blockDepth + 1)%Z in
      (blockDepth, inFunc,
       if (met_MaxNestingDepth (fc_metrics c) <? blockDepth)%Z
       then on_metrics (set_MaxNestingDepth blockDepth) c else c)
    else (blockDepth, inFunc, c)
  else (blockDepth, inFunc, c).

Definition walk_body (rec : Node * Z * bool * featureCollector → featureCollector)
    (x : Node * Z * bool * featureCollector) : featureCollector :=
  let '(n, blockDepth, inFunc, c) := x in
  let '(blockDepth, inFunc, c) := enter n blockDepth inFunc c in
  fold_left (λ c child, rec (child, blockDepth, inFunc, c)) (children n) c.

(** go: pkg/semantics/go_features.go#walk *)
Definition walk (n : Node) (blockDepth : Z) (inFunc : bool) (c : featureCollector) : featureCollector :=
  descend (λ x, nheight (fst (fst (fst x)))) snd walk_body (n, blockDepth, inFunc, c).

(** go: pkg/semantics/go_features.go#computeGoFeatures *)
Definition computeGoFeatures (root : Node) : StructuralMetrics * list Finding :=
  let c := walk root 0 false new_collector in
  (fc_metrics c, fc_findings c).

#[global] Arguments checkAssignmentTarget : simpl never.
#[global] Arguments findAssignments : simpl never.
#[global] Arguments walk : simpl never.

(** ** The recursions are the ones of the code *)

Lemma checkAssignmentTarget_eq target fn mp c :
  checkAssignmentTarget (Some target) fn mp c
  = checkAssignmentTarget_body fn mp (λ x, checkAssignmentTarget (Some (fst x)) fn mp (snd x)) (target, c).
Proof.
  unfold checkAssignmentTarget at 1. rewrite descend_eq; [|descends_tac].
  unfold checkAssignmentTarget_body. destruct (_ == _); [|done]. by destruct (parenthesizedInner target).
Qed.

Lemma findAssignments_eq n fn mp c :
  findAssignments n fn mp c
  = findAssignments_body fn (λ x, findAssignments (fst (fst x)) fn (snd (fst x)) (snd x)) (n, mp, c).
Proof. unfold findAssignments at 1. rewrite descend_eq; [done|descends_tac]. Qed.

Lemma walk_eq n bd inf c :
  walk n bd inf c
  = walk_body (λ x, walk (fst (fst (fst x))) (snd (fst (fst x))) (snd (fst x)) (snd x)) (n, bd, inf, c).
Proof. unfold walk at 1. rewrite descend_eq; [done|descends_tac]. Qed.

(** ** The writes of an assignment

    What a target is blamed for, without the collector: the parameter and the node that
    is the evidence. *)

Definition selector_write (mp : gmap string paramMutKind) (required : paramMutKind) (target : Node) : option string :=
  operand ← ChildByFieldName target "operand";
  match selectorBaseIdentifier operand with
  | (Some base, nested) =>
      let kind := kind_of mp (Utf8Text base) in
      if (if nested : bool then bool_decide (kind ≠ paramNotMutable) else bool_decide (kind = required))
      then Some (Utf8Text base) else None
  | (None, _) => None
  end.

Definition deref_write (mp : gmap string paramMutKind) (target : Node) : option string :=
  op ← ChildByFieldName target "operator";
  if Utf8Text op != "*" then None
  else
    operand ← ChildByFieldName target "operand";
    if Kind operand != "identifier" then None
    else if bool_decide (kind_of mp (Utf8Text operand) = paramMutPointer) then Some (Utf8Text operand) else None.

(** The target inside its parentheses. *)
Definition strip_parens : Node → option Node := descend nheight (λ _, None) (λ rec n,
  if Kind n == "parenthesized_expression" then
    match parenthesizedInner n with Some inner => rec inner | None => None end
  else Some n).

Lemma strip_parens_eq n : strip_parens n
  = if Kind n == "parenthesized_expression" then
      match parenthesizedInner n with Some inner => strip_parens inner | None => None end
    else Some n.
Proof. unfold strip_parens at 1. rewrite descend_eq; [done|descends_tac]. Qed.

Definition direct_write (mp : gmap string paramMutKind) (target : Node) : option string :=
  if Kind target == "selector_expression" then selector_write mp paramMutPointer target
  else if Kind target == "index_expression" then selector_write mp paramMutCollection target
  else if Kind target == "unary_expression" then deref_write mp target
  else None.

Definition target_writes (mp : gmap string paramMutKind) (target : option Node) : list (string * Node) :=
  match target ≫= strip_parens with
  | Some t => match direct_write mp t with Some p => [(p, t)] | None => [] end
  | None => []
  end.

Definition record (fn : string) (c : featureCollector) (w : string * Node) : featureCollector :=
  recordMutatesInput fn (fst w) (snd w) c.

Lemma checkAssignmentTarget_writes fn mp target c :
  checkAssignmentTarget target fn mp c = fold_left (record fn) (target_writes mp target) c.
Proof.
  destruct target as [t|]; [|done]. unfold target_writes. cbn [mbind option_bind].
  induction t as [t IH] using node_height_ind.
  rewrite checkAssignmentTarget_eq, strip_parens_eq. unfold checkAssignmentTarget_body.
  destruct (Kind t == "parenthesized_expression") eqn:Ep.
  { destruct (parenthesizedInner t) as [i|] eqn:Ei; [|done]. cbn [fst snd]. apply IH. smaller. }
  unfold direct_write.
  assert (Hsel : ∀ req, recordMutableSelectorOrIndex t fn mp req c
    = fold_left (record fn) (match selector_write mp req t with Some p => [(p, t)] | None => [] end) c).
  { intros req. unfold recordMutableSelectorOrIndex, selector_write.
    destruct (ChildByFieldName t "operand") as [o|]; simpl; [|done].
    destruct (selectorBaseIdentifier o) as [[b|] [|]]; [| |done|done]; rewrite bool_decide_not;
      by case_bool_decide. }
  cbv iota. clear Ep. destruct (Kind t == "selector_expression"); [apply Hsel|].
  destruct (Kind t == "index_expression"); [apply Hsel|]. destruct (Kind t == "unary_expression"); [|done].
  unfold recordMutableDeref, deref_write. destruct (ChildByFieldName t "operator"); simpl; [|done].
  destruct (_ != _); [done|]. destruct (ChildByFieldName t "operand") as [o|]; simpl; [|done].
  destruct (_ != _); [done|]. rewrite bool_decide_not. by case_bool_decide.
Qed.

(** ** The writes of a function body *)

Definition node_writes (mp : gmap string paramMutKind) (n : Node) : list (string * Node) :=
  (if Kind n == "assignment_statement" then
     match ChildByFieldName n "left" with
     | Some lhs => flat_map (λ t, target_writes mp (Some t)) (children lhs)
     | None => []
     end
   else [])
  ++ (if one_of ["inc_statement"; "dec_statement"] (Kind n) then target_writes mp (updateStatementTarget n) else []).

(** The parameters visible inside a node that is entered with [mp]. *)
Definition inside (n : Node) (mp : gmap string paramMutKind) : gmap string paramMutKind :=
  if Kind n == "type_switch_statement" then shadowNames mp (identifiersInNodeField n "alias") else mp.

Definition below (n : Node) (mp : gmap string paramMutKind) : gmap string paramMutKind :=
  if Kind n == "func_literal" then
    match ChildByFieldName n "parameters" with
    | Some params => shadowParamTypes (inside n mp) params
    | None => inside n mp
    end
  else inside n mp.

(** Each child sees what the statements before it have left. *)
Fixpoint after_each (mp : gmap string paramMutKind) (cs : list Node) : list (option (gmap string paramMutKind)) :=
  match cs with
  | [] => []
  | c :: cs => Some mp :: after_each (shadowLocalDeclarations mp c) cs
  end.

Definition visible_down (n : Node) (mp : gmap string paramMutKind) : list (option (gmap string paramMutKind)) :=
  after_each (below n mp) (children n).

(** The parameters visible at a node of [body], from its way up. *)
Definition visible_at (body : Node) (mp : gmap string paramMutKind) (n : Node) : option (gmap string paramMutKind) :=
  ctx_at visible_down body mp n.

Definition body_writes (body : Node) (mp : gmap string paramMutKind) : list (string * Node) :=
  flat_map (λ n, match visible_at body mp n with Some v => node_writes (inside n v) n | None => [] end) (nodes body).

Lemma checkAssignmentTargets_writes fn mp lhs c :
  checkAssignmentTargets lhs fn mp c
  = fold_left (record fn) (match lhs with
                           | Some lhs => flat_map (λ t, target_writes mp (Some t)) (children lhs)
                           | None => []
                           end) c.
Proof.
  destruct lhs as [lhs|]; simpl; [|done]. rewrite fold_left_flat_map.
  apply fold_left_ext_In. intros. apply checkAssignmentTarget_writes.
Qed.

Lemma findAssignments_writes fn n mp c :
  findAssignments n fn mp c
  = fold_left (record fn) (flat_map (λ nv, node_writes (inside (fst nv) (snd nv)) (fst nv)) (ctx_nodes visible_down n mp)) c.
Proof.
  revert mp c. induction n as [n IH] using node_ind. intros mp c.
  rewrite findAssignments_eq, ctx_nodes_eq. unfold findAssignments_body. cbn [flat_map fst snd].
  rewrite fold_left_app.
  fold (inside n mp). fold (below n mp).
  assert (Hv : ∀ c, (if one_of ["inc_statement"; "dec_statement"] (Kind n)
                  then checkAssignmentTarget (updateStatementTarget n) fn (inside n mp)
                         (if Kind n == "assignment_statement"
                          then checkAssignmentTargets (ChildByFieldName n "left") fn (inside n mp) c else c)
                  else (if Kind n == "assignment_statement"
                          then checkAssignmentTargets (ChildByFieldName n "left") fn (inside n mp) c else c))
               = fold_left (record fn) (node_writes (inside n mp) n) c).
  { intros c'. unfold node_writes. rewrite fold_left_app.
    destruct (Kind n == "assignment_statement"), (one_of _ _);
      by rewrite ?checkAssignmentTarget_writes, ?checkAssignmentTargets_writes. }
  rewrite Hv. generalize (fold_left (record fn) (node_writes (inside n mp) n) c) as c'.
  
  change (visible_down n mp) with (after_each (below n mp) (children n)). generalize (below n mp) as e.
  assert (Hl : ∀ l e c', (∀ m, In m l → In m (children n)) →
    snd (fold_left (λ '(mutableParams, c) child,
           let c := findAssignments child fn mutableParams c in
           (shadowLocalDeclarations mutableParams child, c)) l (e, c'))
    = fold_left (record fn) (flat_map (λ nv, node_writes (inside (fst nv) (snd nv)) (fst nv))
        (flat_map (λ mc, match snd mc with Some c' => ctx_nodes visible_down (fst mc) c' | None => [] end)
           (combine l (after_each e l)))) c').
  { induction l as [|m l IHl]; intros e c' Hl; [done|]. cbn [fold_left combine after_each flat_map fst snd].
    rewrite IHl by (intros; apply Hl; by right). 
    by rewrite flat_map_app, fold_left_app, (IH m (Hl m (or_introl eq_refl))). }
  intros e c'. by apply Hl.
Qed.

Lemma findAssignments_body_writes fn body mp c :
  findAssignments body fn mp c = fold_left (record fn) (body_writes body mp) c.
Proof.
  rewrite findAssignments_writes, ctx_nodes_at, flat_map_omap. f_equal. unfold body_writes.
  apply flat_map_ext_In. intros n _. unfold visible_at. by destruct (ctx_at _ _ _ _).
Qed.

(** ** The names hidden at a node *)

Notation without names := (filter (λ nk : string * paramMutKind, nk.1 ∉ (names : gset string))).

Lemma without_none names (m : gmap string paramMutKind) : names = ∅ → without names m = m.
Proof. intros ->. apply map_filter_id. intros i x _. simpl. set_solver. Qed.

Lemma without_of_empty names : without names (∅ : gmap string paramMutKind) = ∅.
Proof. apply map_filter_empty. Qed.

Lemma without_without a b (m : gmap string paramMutKind) : without b (without a m) = without (a ∪ b) m.
Proof. rewrite map_filter_filter. apply map_filter_ext. intros i x _. simpl. set_solver. Qed.

Lemma shadowNames_without outer names : shadowNames outer names = without names outer.
Proof.
  unfold shadowNames. case_bool_decide as H1; simpl; [by rewrite H1, without_of_empty|].
  case_bool_decide as H2; [by rewrite without_none|done].
Qed.

Lemma shadowParamTypes_without outer params :
  shadowParamTypes outer params = without (parameterNames (Some params)) outer.
Proof. unfold shadowParamTypes. case_bool_decide as H; [by rewrite without_none|done]. Qed.

(** The names a statement hides from the ones after it. *)
Definition hides_after (n : Node) : gset string :=
  if Kind n == "short_var_declaration" then identifiersInNodeField n "left"
  else if Kind n == "assignment_statement" then reboundIdentifiersInAssignment n
  else if Kind n == "for_clause" then identifiersDeclaredInSubtree n
  else if Kind n == "range_clause" then identifiersInNodeField n "left"
  else if one_of ["type_switch_header"; "type_switch_guard"] (Kind n) then typeSwitchGuardIdentifiers n
  else if Kind n == "var_declaration" then identifiersInVarDeclaration n
  else ∅.

(** The alias of a type switch is hidden in the statement itself, the parameters of a
    function literal only below it. *)
Definition hides_inside (n : Node) : gset string :=
  if Kind n == "type_switch_statement" then identifiersInNodeField n "alias" else ∅.
Definition hides_below (n : Node) : gset string :=
  hides_inside n
  ∪ (if Kind n == "func_literal" then parameterNames (ChildByFieldName n "parameters") else ∅).

Lemma shadowLocalDeclarations_without outer n : shadowLocalDeclarations outer n = without (hides_after n) outer.
Proof.
  unfold shadowLocalDeclarations, hides_after.
  case_bool_decide as H; [by rewrite H, without_of_empty|].
  repeat (destruct (_ == _); [apply shadowNames_without|]).
  destruct (one_of _ _); [apply shadowNames_without|].
  destruct (_ == _); [apply shadowNames_without|]. by rewrite without_none.
Qed.

Lemma inside_without n mp : inside n mp = without (hides_inside n) mp.
Proof. unfold inside, hides_inside. destruct (_ == _); [apply shadowNames_without|by rewrite without_none]. Qed.

Lemma below_without n mp : below n mp = without (hides_below n) mp.
Proof.
  unfold below, hides_below. rewrite inside_without. destruct (_ == _).
  - destruct (ChildByFieldName n "parameters") as [ps|].
    + by rewrite shadowParamTypes_without, without_without.
    + simpl. by rewrite (right_id_L ∅ (∪)).
  - by rewrite (right_id_L ∅ (∪)).
Qed.

Definition hides_all (l : list Node) : gset string := ⋃ (map hides_after l).

(** What is hidden at the end of a way up: below each ancestor, and by the siblings
    before each step. *)
Fixpoint hidden_along (depth : nat) (up : list (Tree * nat)) : gset string :=
  if length up <=? depth then ∅
  else match up with
       | [] => ∅
       | (p, i) :: up' =>
           hidden_along depth up' ∪ hides_below (mkNode p up')
           ∪ hides_all (take i (children (mkNode p up')))
       end.
Definition hidden_at (body n : Node) : gset string := hidden_along (length (n_up body)) (n_up n).

Lemma after_each_lookup l : ∀ mp i, i < length l →
  after_each mp l !! i = Some (Some (without (hides_all (take i l)) mp)).
Proof.
  induction l as [|n l IH]; intros mp [|i] Hi; simpl in *; try lia.
  - by rewrite without_none.
  - rewrite IH by lia. rewrite shadowLocalDeclarations_without, without_without. done.
Qed.

(** The parameters visible at a node are the ones nothing on the way hides. *)
Lemma visible_at_hidden body mp n : In n (nodes body) →
  visible_at body mp n = Some (without (hidden_at body n) mp).
Proof.
  intros Hn.
  destruct (ctx_nodes_Some visible_down body mp) with (n := n) as [_ [v Hv]]; [|done|].
  { intros m c i Hi. unfold visible_down. rewrite after_each_lookup by done. eauto. }
  unfold visible_at. rewrite Hv. f_equal. clear Hn. unfold ctx_at, hidden_at in *.
  revert v Hv. generalize (length (n_up body)) as d. generalize (n_up n) as up. clear n.
  induction up as [|[p i] up IH]; intros d v.
  - simpl. intros [= <-]. by rewrite without_none.
  - cbn [ctx_along hidden_along]. destruct (length ((p, i) :: up) <=? d).
    + intros [= <-]. by rewrite without_none.
    + destruct (ctx_along visible_down d mp up) as [w|] eqn:E; [|done].
      apply IH in E as ->. cbn. unfold visible_down.
      destruct (decide (i < length (children (mkNode p up)))) as [Hi|Hi].
      * rewrite after_each_lookup by done. cbn. intros [= <-].
        by rewrite below_without, !without_without, (assoc_L (∪)).
      * assert (Hl : ∀ l mp, length (after_each mp l) = length l).
        { clear. induction l; intros; simpl; auto. }
        rewrite lookup_ge_None_2; [done|]. rewrite Hl. lia.
Qed.

(** ** What each detector adds *)

Definition write_key (w : string * Node) : option mutatesInputKey :=
  Some (mkMutatesInputKey (fst w) (StartByte (snd w)) (EndByte (snd w))).

Lemma fold_record fn ws c :
  fold_left (record fn) ws c
  = mkFeatureCollector (fc_metrics c)
      (fc_findings c ++ map (λ w, newMutatesInputFinding fn (fst w) (snd w)) (keep_first write_key (fc_mutatesSeen c) ws))
      (fc_goToctouActSeen c) (keys write_key ws ∪ fc_mutatesSeen c).
Proof.
  revert c. induction ws as [|[p t] ws IH]; intros c.
  - cbn. rewrite app_nil_r. unfold keys. cbn. rewrite (left_id_L ∅ (∪)). by destruct c.
  - cbn [fold_left]. rewrite IH. unfold record, recordMutatesInput. cbn [fst snd]. rewrite keep_first_step.
    cbn [write_key fst snd].
    change (loc_StartByte (locationFromNode t)) with (StartByte t).
    change (loc_EndByte (locationFromNode t)) with (EndByte t).
    set (k := mkMutatesInputKey p (StartByte t) (EndByte t)).
    assert (Hk : keys write_key ((p, t) :: ws) = {[k]} ∪ keys write_key ws) by done. rewrite Hk.
    case_bool_decide as Hin; cbn; f_equal.
    + set_solver.
    + by rewrite <- (assoc_L (++)).
    + set_solver.
Qed.

Lemma target_writes_none t : target_writes ∅ t = [].
Proof.
  unfold target_writes. destruct (t ≫= strip_parens) as [u|]; [|done].
  assert (Hk : ∀ p, kind_of ∅ p = paramNotMutable) by done.
  assert (Hs : ∀ req, req ≠ paramNotMutable → selector_write ∅ req u = None).
  { intros req Hr. unfold selector_write. destruct (ChildByFieldName u "operand") as [o|]; cbn; [|done].
    destruct (selectorBaseIdentifier o) as [[b|] [|]]; try done; rewrite Hk; try done.
    by rewrite bool_decide_false. }
  unfold direct_write. rewrite !Hs by done.
  unfold deref_write. destruct (_ == _); [done|]. destruct (_ == _); [done|]. destruct (_ == _); [|done].
  destruct (ChildByFieldName u "operator"); cbn; [|done]. destruct (_ != _); [done|].
  destruct (ChildByFieldName u "operand"); cbn; [|done]. destruct (_ != _); [done|].
  by rewrite Hk.
Qed.

Lemma body_writes_none body : body_writes body ∅ = [].
Proof.
  apply flat_map_nil. intros n Hn. rewrite visible_at_hidden, without_of_empty by done.
  rewrite inside_without, without_of_empty. unfold node_writes. rewrite target_writes_none.
  assert (Hl : ∀ l, flat_map (λ t, target_writes ∅ (Some t)) l = []).
  { intros l. apply flat_map_nil. intros. apply target_writes_none. }
  destruct (Kind n == "assignment_statement"), (one_of _ _); try done;
    (destruct (ChildByFieldName n "left"); [by rewrite Hl|done]).
Qed.

(** The findings of [checkMutatesInput]: one per parameter and place, for the writes of
    the body through a parameter visible there. *)
Definition mutation_findings (decl : Node) : list Finding :=
  match ChildByFieldName decl "name", ChildByFieldName decl "parameters", ChildByFieldName decl "body" with
  | Some nameNode, Some params, Some body =>
      map (λ w, newMutatesInputFinding (Utf8Text nameNode) (fst w) (snd w))
        (keep_first write_key ∅ (body_writes body (mutableParamTypes params)))
  | _, _, _ => []
  end.

(** The collector after more findings, up to the keys of the last function. *)
Definition extends (c : featureCollector) (fs : list Finding) (c' : featureCollector) : Prop :=
  fc_metrics c' = fc_metrics c ∧ fc_findings c' = fc_findings c ++ fs ∧ fc_goToctouActSeen c' = fc_goToctouActSeen c.

Lemma extends_refl c : extends c [] c.
Proof. split_and!; [done|by rewrite app_nil_r|done]. Qed.

Lemma extends_trans c1 c2 c3 l1 l2 : extends c1 l1 c2 → extends c2 l2 c3 → extends c1 (l1 ++ l2) c3.
Proof.
  intros (M1 & F1 & T1) (M2 & F2 & T2). split_and!; [congruence| |congruence].
  by rewrite F2, F1, (assoc_L (++)).
Qed.

Lemma checkMutatesInput_extends decl c : extends c (mutation_findings decl) (checkMutatesInput decl c).
Proof.
  unfold checkMutatesInput, mutation_findings.
  destruct (ChildByFieldName decl "name") as [nm|]; [|apply extends_refl].
  destruct (ChildByFieldName decl "parameters") as [ps|]; [|apply extends_refl].
  destruct (ChildByFieldName decl "body") as [body|]; [|apply extends_refl].
  case_bool_decide as H.
  - rewrite H, body_writes_none. apply extends_refl.
  - rewrite findAssignments_body_writes, fold_record. by split_and!.
Qed.

Definition constructor_findings (decl : Node) : list Finding :=
  match ChildByFieldName decl "name" with
  | Some nameNode =>
      if constructorFuncNameRe (Utf8Text nameNode)
      then [plain_finding "constructor_func" (Utf8Text nameNode) (locationFromNode decl)] else []
  | None => []
  end.

Definition pointer_findings (decl : Node) : list Finding :=
  match ChildByFieldName decl "name", ChildByFieldName decl "result" with
  | Some nameNode, Some result =>
      if resultHasPointerType result
      then [plain_finding "pointer_return" (Utf8Text nameNode) (locationFromNode decl)] else []
  | _, _ => []
  end.

Lemma add_finding_extends f c : extends c [f] (add_finding f c).
Proof. by split_and!. Qed.

Lemma checkConstructorFunc_extends decl c : extends c (constructor_findings decl) (checkConstructorFunc decl c).
Proof.
  unfold checkConstructorFunc, constructor_findings.
  destruct (ChildByFieldName decl "name") as [nm|]; [|apply extends_refl].
  destruct (constructorFuncNameRe _); [apply add_finding_extends|apply extends_refl].
Qed.

Lemma checkPointerReturn_extends decl c : extends c (pointer_findings decl) (checkPointerReturn decl c).
Proof.
  unfold checkPointerReturn, pointer_findings.
  destruct (ChildByFieldName decl "name") as [nm|]; [|apply extends_refl].
  destruct (ChildByFieldName decl "result") as [r|]; [|apply extends_refl].
  destruct (resultHasPointerType r); [apply add_finding_extends|apply extends_refl].
Qed.

(** The race an [if] statement shows, before races at one act are merged. *)
Definition race_findings (n : Node) : list Finding :=
  match goStatInitializerCall n with
  | None => []
  | Some (statCall, errName) =>
      match goCallFirstArgument statCall with
      | None => []
      | Some checkArg =>
          if isGoErrNilGate (ChildByFieldName n "condition") errName then
            match ChildByFieldName n "consequence" with
            | None => []
            | Some consequence =>
                match findGoToctouActCall consequence (Utf8Text checkArg) with
                | None => []
                | Some act => [newGoTOCTOUCheckThenActFinding statCall act (Utf8Text checkArg)]
                end
            end
          else []
      end
  end.

Definition race_key (f : Finding) : option goToctouLocationKey :=
  if fnd_Kind f == "toctou_check_then_act"
  then Some (mkGoToctouLocationKey (loc_StartByte (fnd_Location f)) (loc_EndByte (fnd_Location f))) else None.

(** The collector after the findings [fs], of which the races at a known act are left
    out. *)
Definition collects (c : featureCollector) (fs : list Finding) (c' : featureCollector) : Prop :=
  fc_findings c' = fc_findings c ++ keep_first race_key (fc_goToctouActSeen c) fs
  ∧ fc_goToctouActSeen c' = keys race_key fs ∪ fc_goToctouActSeen c.

Lemma collects_trans c1 c2 c3 l1 l2 : collects c1 l1 c2 → collects c2 l2 c3 → collects c1 (l1 ++ l2) c3.
Proof.
  intros (F1 & T1) (F2 & T2). split.
  - by rewrite F2, F1, T1, keep_first_app, (assoc_L (++)).
  - rewrite T2, T1. unfold keys. rewrite omap_app. set_solver.
Qed.

Lemma extends_collects c fs c' : extends c fs c' → (∀ f, In f fs → race_key f = None) → collects c fs c'.
Proof.
  intros (_ & F & T) Hn. destruct (keep_first_none race_key fs Hn (fc_goToctouActSeen c)) as [E1 E2].
  split; [by rewrite F, E1|]. rewrite T, E2. set_solver.
Qed.

Lemma checkGoTOCTOU_collects n c : collects c (race_findings n) (checkGoTOCTOUCheckThenAct n c)
  ∧ fc_metrics (checkGoTOCTOUCheckThenAct n c) = fc_metrics c.
Proof.
  assert (H0 : collects c [] c ∧ fc_metrics c = fc_metrics c).
  { split; [|done]. apply extends_collects; [apply extends_refl|done]. }
  unfold checkGoTOCTOUCheckThenAct, race_findings.
  destruct (goStatInitializerCall n) as [[sc en]|]; [|done].
  destruct (goCallFirstArgument sc) as [arg|]; [|done].
  destruct (isGoErrNilGate _ _); [|done]. cbn [negb].
  destruct (ChildByFieldName n "consequence") as [cq|]; [|done].
  destruct (findGoToctouActCall cq _) as [act|]; [|done].
  unfold collects. rewrite keep_first_step. cbn.
  case_bool_decide; cbn; (split; [|done]); split; rewrite ?app_nil_r; try done; unfold keys; cbn; set_solver.
Qed.

(** ** The walk, taken apart *)

(** What one node contributes to the findings. *)
Definition node_findings (n : Node) : list Finding :=
  if Kind n == "if_statement" then race_findings n
  else if Kind n == "function_declaration"
       then constructor_findings n ++ pointer_findings n ++ mutation_findings n
  else if Kind n == "method_declaration" then pointer_findings n ++ mutation_findings n
  else [].

Definition counter_of (kind : string) : option counter :=
  if kind == "if_statement" then Some cIfs
  else if kind == "for_statement" then Some cFors
  else if kind == "expression_switch_statement" then Some cExprSwitches
  else if kind == "type_switch_statement" then Some cTypeSwitches
  else if kind == "select_statement" then Some cSelects
  else if kind == "function_declaration" then Some cFunctions
  else if kind == "method_declaration" then Some cMethods
  else None.

Definition is_decl_kind (kind : string) : bool := (kind == "function_declaration") || (kind == "method_declaration").
Definition is_decl (n : Node) : bool := is_decl_kind (Kind n).

Notation go_post := (post is_decl_kind "block").
Notation go_step := (met_step counter_of "block").

Lemma node_findings_race_free n f : is_decl n = true → In f (node_findings n) → race_key f = None.
Proof.
  unfold is_decl, is_decl_kind. intros Hd Hf.
  assert (Hp : ∀ f, In f (pointer_findings n) → race_key f = None).
  { unfold pointer_findings. intros g. destruct (ChildByFieldName n "name"); [|done].
    destruct (ChildByFieldName n "result"); [|done]. destruct (resultHasPointerType _); [|done].
    by intros [<-|[]]. }
  assert (Hc : ∀ f, In f (constructor_findings n) → race_key f = None).
  { unfold constructor_findings. intros g. destruct (ChildByFieldName n "name"); [|done].
    destruct (constructorFuncNameRe _); [|done]. by intros [<-|[]]. }
  assert (Hm : ∀ f, In f (mutation_findings n) → race_key f = None).
  { unfold mutation_findings. intros g. destruct (ChildByFieldName n "name"); [|done].
    destruct (ChildByFieldName n "parameters"); [|done]. destruct (ChildByFieldName n "body"); [|done].
    by intros (w & <- & _)%in_map_iff. }
  unfold node_findings in Hf. apply orb_prop in Hd as [E%String.eqb_eq|E%String.eqb_eq]; rewrite E in Hf; cbn in Hf;
    rewrite ?in_app_iff in Hf; naive_solver.
Qed.


Lemma collects_nil c c' : fc_findings c' = fc_findings c → fc_goToctouActSeen c' = fc_goToctouActSeen c →
  collects c [] c'.
Proof. intros F T. split; [by rewrite F, app_nil_r|]. rewrite T. unfold keys. cbn. set_solver. Qed.

Ltac enter_count H E :=
  apply String.eqb_eq in E; eexists; split; [by rewrite E|]; apply H; unfold node_findings; by rewrite E.

Lemma enter_spec n bd inf c : ∃ c',
  enter n bd inf c = (go_post n (bd, inf), c')
  ∧ collects c (node_findings n) c' ∧ fc_metrics c' = go_step (bd, inf) n (fc_metrics c).
Proof.
  assert (Hdecl : ∀ k l c', is_decl n = true → l = node_findings n →
    extends (on_metrics (increment k) c) l c' → counter_of (Kind n) = Some k →
    collects c (node_findings n) c' ∧ fc_metrics c' = go_step (bd, inf) n (fc_metrics c)).
  { intros k l c' Hd -> Hx Hk. split.
    - apply (collects_trans c (on_metrics (increment k) c) c' []); [by apply collects_nil|].
      apply extends_collects; [done|]. intros f. by apply node_findings_race_free.
    - destruct Hx as (-> & _). unfold met_step. by rewrite Hk. }
  assert (Hcount : ∀ k, node_findings n = [] → counter_of (Kind n) = Some k →
    collects c (node_findings n) (on_metrics (increment k) c)
    ∧ fc_metrics (on_metrics (increment k) c) = go_step (bd, inf) n (fc_metrics c)).
  { intros k -> Hk. split; [by apply collects_nil|]. unfold met_step. by rewrite Hk. }
  unfold enter, post, is_decl, is_decl_kind in *.
  destruct (Kind n == "if_statement") eqn:E1.
  { apply String.eqb_eq in E1. eexists. split; [by rewrite E1|].
    destruct (checkGoTOCTOU_collects n (on_metrics (increment cIfs) c)) as [H1 H2]. split.
    - unfold node_findings. rewrite E1. eapply (collects_trans c _ _ []); [|exact H1]. by apply collects_nil.
    - rewrite H2. unfold met_step. by rewrite E1. }
  destruct (Kind n == "for_statement") eqn:E2.
  { enter_count Hcount E2. }
  destruct (Kind n == "expression_switch_statement") eqn:E3.
  { enter_count Hcount E3. }
  destruct (Kind n == "type_switch_statement") eqn:E4.
  { enter_count Hcount E4. }
  destruct (Kind n == "select_statement") eqn:E5.
  { enter_count Hcount E5. }
  destruct (Kind n == "function_declaration") eqn:E6.
  { apply String.eqb_eq in E6. eexists. split; [by rewrite E6|]. eapply (Hdecl cFunctions).
    - by rewrite ?E6.
    - unfold node_findings. rewrite E6. cbn. reflexivity.
    - eapply extends_trans; [apply checkConstructorFunc_extends|].
      eapply extends_trans; [apply checkPointerReturn_extends|apply checkMutatesInput_extends].
    - by rewrite ?E6. }
  destruct (Kind n == "method_declaration") eqn:E7.
  { apply String.eqb_eq in E7. eexists. split; [by rewrite E7|]. eapply (Hdecl cMethods).
    - by rewrite ?E7.
    - unfold node_findings. rewrite E7. cbn. reflexivity.
    - eapply extends_trans; [apply checkPointerReturn_extends|apply checkMutatesInput_extends].
    - by rewrite ?E7. }
  assert (Hf : node_findings n = []) by (unfold node_findings; by rewrite E1, E6, E7).
  assert (Hk : counter_of (Kind n) = None) by (unfold counter_of; by rewrite E1, E2, E3, E4, E5, E6, E7).
  rewrite Hf. unfold met_step. rewrite Hk. cbn.
  destruct (Kind n == "block"); cbn; [destruct inf; cbn|]; eexists; (split; [done|]);
    try (split; [by apply collects_nil|done]).
  rewrite <- set_Max_if. destruct (_ <? _)%Z; by (split; [by apply collects_nil|]).
Qed.

Lemma walk_enter n bd inf c : ∃ c', 
  walk n bd inf c = fold_left (λ c child, walk child (fst (go_post n (bd, inf))) (snd (go_post n (bd, inf))) c) (children n) c'
  ∧ collects c (node_findings n) c' ∧ fc_metrics c' = go_step (bd, inf) n (fc_metrics c).
Proof.
  destruct (enter_spec n bd inf c) as (c' & E & H). exists c'. split; [|done].
  rewrite walk_eq. unfold walk_body. rewrite E. by destruct (go_post n (bd, inf)).
Qed.

Lemma walk_collects n bd inf c : collects c (flat_map node_findings (nodes n)) (walk n bd inf c).
Proof.
  revert bd inf c. induction n as [n IH] using node_ind. intros bd inf c.
  destruct (walk_enter n bd inf c) as (c' & -> & Hc & _). rewrite nodes_eq. cbn [flat_map].
  apply (collects_trans _ c'); [done|]. clear Hc. generalize (go_post n (bd, inf)) as p. intros p.
  assert (Hl : ∀ l c', (∀ m, In m l → In m (children n)) →
    collects c' (flat_map node_findings (flat_map nodes l)) (fold_left (λ c child, walk child (fst p) (snd p) c) l c')).
  { clear c'. induction l as [|m l IHl]; intros c' Hl.
    - by apply collects_nil.
    - cbn [flat_map fold_left]. rewrite flat_map_app. eapply collects_trans.
      + apply IH, Hl. by left.
      + apply IHl. intros. apply Hl. by right. }
  by apply Hl.
Qed.

Lemma walk_metrics n bd inf c :
  fc_metrics (walk n bd inf c)
  = count_nodes counter_of "block" (ctx_nodes (all_children go_post) n (bd, inf)) (fc_metrics c).
Proof.
  revert bd inf c. induction n as [n IH] using node_ind. intros bd inf c.
  destruct (walk_enter n bd inf c) as (c' & -> & _ & Hm).
  unfold count_nodes. rewrite (fold_all_children go_post go_step), <- Hm. clear Hm. generalize (go_post n (bd, inf)) as p. intros p.
  assert (Hl : ∀ l c', (∀ m, In m l → In m (children n)) →
    fc_metrics (fold_left (λ c child, walk child (fst p) (snd p) c) l c')
    = fold_left (λ s m, fold_left (λ m nc, go_step (snd nc) (fst nc) m) (ctx_nodes (all_children go_post) m p) s)
        l (fc_metrics c')).
  { clear c'. induction l as [|m l IHl]; intros c' Hl; [done|]. cbn [fold_left].
    rewrite IHl by (intros; apply Hl; by right). f_equal. rewrite IH by (apply Hl; by left). by destruct p. }
  by apply Hl.
Qed.

(** ** Properties *)

(** The structural metrics of a Go file are counts over its syntax tree: the number
    of [if], [for], switch and select statements, functions and methods, wherever they
    are, and as nesting depth the largest number of blocks from a block up to the
    nearest enclosing function or method, blocks outside any function not counted.  The
    cognitive-complexity fields are left to a later pass. *)
Theorem go_metrics_exact t :
  let m := fst (computeGoFeatures (Root t)) in
  (∀ k, get k m = node_count counter_of k (Root t))
  ∧ met_MaxNestingDepth m = foldr Z.max 0%Z (block_depths is_decl_kind "block" (nodes (Root t)))
  ∧ met_MaxCognitiveComplexity m = 0%Z ∧ met_SumCognitiveComplexity m = 0%Z.
Proof.
  cbn zeta. unfold computeGoFeatures. cbn [fst]. rewrite walk_metrics, nested_nodes.
  split; [|split; [by apply fold_max_nesting|by apply fold_rest]].
  intros k. apply fold_counts.
Qed.

(** C24: The findings of a Go file are, in the pre-order of its tree: for each function
    its constructor finding, its pointer-return finding and its hidden mutations, for
    each method the last two, and for each [if] statement the check-then-act race it
    opens; a race at an act that an earlier [if] already reported is left out, and
    nothing else is. *)
Theorem go_findings_exact root :
  snd (computeGoFeatures root) = keep_first race_key ∅ (flat_map node_findings (nodes root)).
Proof. destruct (walk_collects root 0%Z false new_collector) as [H _]. apply H. Qed.

(** The hidden mutations reported for a function are the writes of its body through
    its parameters, one per parameter and place in source order: at each node of the
    body, an assignment, increment or decrement target is blamed on a parameter exactly
    when [target_writes] resolves it to that parameter among those visible there, and a
    parameter is visible unless an enclosing function literal or type switch, or a
    declaration or rebinding among the earlier siblings on the way up, hides its name. *)
Theorem mutates_input_exact decl nameNode params body :
  ChildByFieldName decl "name" = Some nameNode →
  ChildByFieldName decl "parameters" = Some params →
  ChildByFieldName decl "body" = Some body →
  let declared := mutableParamTypes params in
  let visible n := filter (λ nk : string * paramMutKind, nk.1 ∉ hidden_at body n) declared in
  ∀ c, extends c
    (map (λ w, newMutatesInputFinding (Utf8Text nameNode) (fst w) (snd w))
       (keep_first write_key ∅ (flat_map (λ n, node_writes (inside n (visible n)) n) (nodes body))))
    (checkMutatesInput decl c).
Proof.
  intros E1 E2 E3 declared visible c.
  assert (Hw : flat_map (λ n, node_writes (inside n (visible n)) n) (nodes body) = body_writes body declared).
  { apply flat_map_ext_In. intros n Hn. by rewrite visible_at_hidden. }
  rewrite Hw. pose proof (checkMutatesInput_extends decl c) as H.
  unfold mutation_findings in H. rewrite E1, E2, E3 in H. exact H.
Qed.

(** ** Examples *)

Module GoExample.
Definition pointer_param (name : string) : string * Sketch :=
  ("", Br "parameter_declaration" [("name", ident name); ("type", Br "pointer_type" [tok "*"; ("", Tok "type_identifier" "T")])]).
Definition field_of (p f : string) : Sketch :=
  Br "selector_expression" [("operand", ident p); tok "."; ("field", Tok "field_identifier" f)].
Definition assign (target : Sketch) : string * Sketch :=
  ("", Br "assignment_statement" [("left", Br "expression_list" [("", target)]); ("operator", Tok "=" "=");
         ("right", Br "expression_list" [("", Tok "int_literal" "1")])]).
Definition shadow (name : string) : string * Sketch :=
  ("", Br "short_var_declaration" [("left", Br "expression_list" [("", ident name)]); ("operator", Tok ":=" ":=");
         ("right", Br "expression_list" [("", ident "other")])]).

(** [func NewT ( p * T , q * T ) * T { p.x = 1; func(q *T) { q.x = 1 }; p := other; p.y = 1; q.y = 1 }] *)
Definition decl : Sketch :=
  Br "function_declaration"
    [tok "func"; ("name", ident "NewT");
     ("parameters", Br "parameter_list" [tok "("; pointer_param "p"; tok ","; pointer_param "q"; tok ")"]);
     ("result", Br "pointer_type" [tok "*"; ("", Tok "type_identifier" "T")]);
     ("body", Br "block"
        [tok "{"; assign (field_of "p" "x");
         ("", Br "func_literal" [tok "func"; ("parameters", Br "parameter_list" [tok "("; pointer_param "q"; tok ")"]);
                ("body", Br "block" [tok "{"; assign (field_of "q" "x"); tok "}"])]);
         shadow "p"; assign (field_of "p" "y"); assign (field_of "q" "y"); tok "}"])].

Definition os_call (name : string) : Sketch :=
  Br "call_expression"
    [("function", Br "selector_expression" [("operand", ident "os"); tok "."; ("field", Tok "field_identifier" name)]);
     ("arguments", Br "argument_list" [tok "("; ("", ident "path"); tok ")"])].

(** [if _, err := os.Stat(path); err == nil { os.Open(path) }] *)
Definition gate : Sketch :=
  Br "if_statement"
    [tok "if";
     ("initializer", Br "short_var_declaration"
        [("left", Br "expression_list" [("", ident "_"); tok ","; ("", ident "err")]); tok ":=";
         ("right", Br "expression_list" [("", os_call "Stat")])]);
     tok ";";
     ("condition", Br "binary_expression" [("left", ident "err"); ("operator", Tok "==" "=="); ("right", Tok "nil" "nil")]);
     ("consequence", Br "block" [tok "{"; ("", os_call "Open"); tok "}"])].

Definition file : Node := parsed (Br "source_file" [("", decl); ("", Br "block" [("", gate)])]).

Example go_example :
  let '(m, fs) := computeGoFeatures file in
  (met_Functions m, met_Ifs m, met_MaxNestingDepth m) = (1, 1, 2)%Z
  ∧ map (λ f, (fnd_Kind f, fnd_Name f, fnd_Evidence f)) fs
    = [("constructor_func", "NewT", ""); ("pointer_return", "NewT", "");
       ("mutates_input", "NewT:p", "p . x"); ("mutates_input", "NewT:q", "q . y");
       ("toctou_check_then_act", "path", "os . Stat ( path ) ... os . Open ( path )")].
Proof. vm_compute. done. Qed.

Definition decl_node : Node := default file (Child file 0).
Definition at_field (n : Node) (f : string) : Node := default n (ChildByFieldName n f).

Definition params_node : Node := at_field decl_node "parameters".
Definition body_node : Node := at_field decl_node "body".

Lemma mutates_input_exact_witness :
  extends new_collector
    (map (λ w, newMutatesInputFinding (Utf8Text (at_field decl_node "name")) (fst w) (snd w))
       (keep_first write_key ∅ (flat_map (λ n, node_writes (inside n
           (filter (λ nk : string * paramMutKind, nk.1 ∉ hidden_at body_node n) (mutableParamTypes params_node))) n)
          (nodes body_node))))
    (checkMutatesInput decl_node new_collector)
  ∧ map fnd_Name (fc_findings (checkMutatesInput decl_node new_collector)) = ["NewT:p"; "NewT:q"].
Proof.
  split; [|by vm_compute].
  apply (mutates_input_exact decl_node (at_field decl_node "name") params_node body_node);
    vm_compute; reflexivity.
Defined.
End GoExample.
