(* ===== verification/Complexity.v ===== *)
(** * Scores over syntax trees

    What the complexity scorers of Go and TypeScript share: the search for functions with
    an explicit stack, the order of the records, the aggregates of
    [cognitive_complexity.go], and sums over the nodes a scorer meets. *)

From Stdlib Require Import Sorted.
From S2P Require Import Prelude GoOrder Semantics Syntax.

(** ** Functions shared by the scorers *)

(** The loop that compares each operator with the one before it. *)
Fixpoint count_changes (prev : string) (ops : list string) : Z :=
  match ops with
  | [] => 0
  | op :: ops => (if op != prev then 1 else 0) + count_changes op ops
  end.

(** The loop over the explicit stack, whose top is the head of the list: children are
    pushed from the last to the first. *)
Fixpoint collect_loop {T} (target : Node → list T) (fuel : nat) (stack : list Node) (out : list T) : option (list T) :=
  match stack with
  | [] => Some out
  | n :: stack =>
      match fuel with
      | O => None
      | S fuel =>
          let out := out ++ target n in
          let stack := fold_left (λ stack child, child :: stack) (rev (children n)) stack in
          collect_loop target fuel stack out
      end
  end.

Definition cc_less (a b : FunctionCognitiveComplexity) : bool :=
  let sa := loc_StartByte (fcc_Location a) in
  let sb := loc_StartByte (fcc_Location b) in
  if negb (sa =? sb)%N then (sa <? sb)%N else str_less (fcc_Name a) (fcc_Name b).

Definition func_lit : string := "<func lit>".

(** ** [cognitive_complexity.go] *)

(** The loop, with the index of the record. *)
Fixpoint aggregate (records : list FunctionCognitiveComplexity) (topLevel : option (list bool)) (i : nat)
    (max sum : Z) : Z * Z :=
  match records with
  | [] => (max, sum)
  | r :: records =>
      let max := if (max <? fcc_Score r)%Z then fcc_Score r else max in
      let include := match topLevel with
                     | None => (fcc_Kind r == "function") || (fcc_Kind r == "method")
                     | Some tl => default false (tl !! i)
                     end in
      aggregate records topLevel (S i) max (if include then (sum + fcc_Score r)%Z else sum)
  end.

(** go: pkg/semantics/cognitive_complexity.go#applyCognitiveComplexityAggregates *)
Definition applyCognitiveComplexityAggregates (metrics : StructuralMetrics)
    (records : list FunctionCognitiveComplexity) (topLevel : option (list bool)) : StructuralMetrics :=
  let (max, sum) := aggregate records topLevel 0 0 0 in
  mkStructuralMetrics (met_Ifs metrics) (met_Fors metrics) (met_ExprSwitches metrics) (met_TypeSwitches metrics)
    (met_Selects metrics) (met_Functions metrics) (met_Methods metrics) (met_MaxNestingDepth metrics) max sum.

(** ** Sums over the nodes a scorer meets *)

Lemma sumz_flat_map {A} (f : A → list Z) l : sumz (flat_map f l) = sumz (map (λ x, sumz (f x)) l).
Proof. induction l as [|x l IH]; [done|]. cbn [flat_map map]. rewrite sumz_app, IH. done. Qed.

Lemma map_flat_map {A B C} (g : B → C) (f : A → list B) l : map g (flat_map f l) = flat_map (λ x, map g (f x)) l.
Proof. induction l as [|x l IH]; [done|]. cbn. by rewrite map_app, IH. Qed.

Lemma sumz_omap {A B} (f : A → option B) (g : B → Z) l :
  sumz (map g (omap f l)) = sumz (map (λ x, match f x with Some y => g y | None => 0%Z end) l).
Proof.
  induction l as [|x l IH]; [done|]. rewrite omap_step. cbn [map sumz foldr].
  unfold sumz in *. destruct (f x); cbn [map foldr]; rewrite IH; lia.
Qed.

Definition all_single_fields (n : Node) : Prop := ∀ m, In m (nodes n) → single_fields m.

Lemma all_single_child n m : all_single_fields n → In m (children n) → all_single_fields m.
Proof. intros H Hm d Hd. apply H. eauto with coach. Qed.

(** The place of a node among its siblings. *)
Definition child_index (m : Node) : option nat := snd <$> head (n_up m).

Section total.
Context {C : Type} (increment : Node → C → Z) (down : Node → C → list (option C)).

(** The sum of what the nodes below [n] add, each under the context it inherits. *)
Definition total (n : Node) (c : C) : Z :=
  sumz (map (λ mc, increment (fst mc) (snd mc)) (ctx_nodes down n c)).

Definition ototal (n : option Node) (c : C) : Z := match n with Some n => total n c | None => 0%Z end.

(** The sum over children, each with what it inherits. *)
Definition child_totals (l : list (Node * option C)) : Z :=
  sumz (map (λ mc, match snd mc with Some c' => total (fst mc) c' | None => 0%Z end) l).

Lemma total_eq n c : total n c = (increment n c + child_totals (combine (children n) (down n c)))%Z.
Proof.
  unfold total at 1. rewrite ctx_nodes_eq. cbn [map sumz foldr fst snd]. f_equal.
  rewrite map_flat_map. fold (sumz (flat_map (λ x, map (λ mc, increment mc.1 mc.2)
    (match x.2 with Some c' => ctx_nodes down x.1 c' | None => [] end)) (combine (children n) (down n c)))).
  rewrite sumz_flat_map. unfold child_totals. f_equal. apply map_ext. intros [m [c'|]]; done.
Qed.

(** Children that all inherit the same, or nothing. *)
Lemma child_totals_all l c' : child_totals (combine l (map (λ _, Some c') l)) = sumz (map (λ m, total m c') l).
Proof. unfold child_totals. f_equal. induction l as [|m l IH]; [done|]. cbn. f_equal. apply IH. Qed.

Lemma child_totals_none (l : list Node) : child_totals (combine l (map (λ _, None) l)) = 0%Z.
Proof. unfold child_totals. induction l as [|m l IH]; [done|]. exact IH. Qed.

(** Only the children bound to some fields inherit, the first of a field each. *)
Definition by_field (fs : list string) (g : string → Node → C) (n : Node) : list (option C) :=
  imap (λ i m, (λ f, g f m) <$> List.find (λ f, bool_decide (field_index n f = Some i)) fs) (children n).

Lemma child_totals_fields n fs g : NoDup fs → single_fields n →
  child_totals (combine (children n) (by_field fs g n))
  = sumz (map (λ f, match ChildByFieldName n f with Some m => total m (g f m) | None => 0%Z end) fs).
Proof.
  intros Hnd Hs. unfold child_totals, by_field. rewrite combine_imap.
  rewrite <- (sum_fields n fs (λ f m, total m (g f m))) by done.
  f_equal. apply imap_ext. intros i m _. cbn. by destruct (List.find _ fs).
Qed.

(** Only one child inherits. *)
Definition only (m : Node) (c : C) (n : Node) : list (option C) :=
  imap (λ i _, if bool_decide (child_index m = Some i) then Some c else None) (children n).

Lemma child_totals_only n m c : In m (children n) →
  child_totals (combine (children n) (only m c n)) = total m c.
Proof.
  intros Hm. apply list_elem_of_In, list_elem_of_lookup in Hm as [k Hk].
  assert (Hi : child_index m = Some k).
  { rewrite children_lookup in Hk. destruct (subtrees (n_tree n) !! k); [|done]. by injection Hk as <-. }
  unfold child_totals, only. rewrite combine_imap, Hi. cbn [fst snd].
  transitivity (sumz (imap (λ i m, if bool_decide (Some k = Some i) then total m c else 0%Z) (children n))).
  { f_equal. apply imap_ext. intros i x _. by case_bool_decide. }
  rewrite (sum_pick (children n) (Some k) (λ m, total m c) (λ _ _, 0%Z)) by done. cbn. rewrite Hk.
  assert (E : sumz (imap (λ _ _, 0%Z) (children n)) = 0%Z); [|rewrite E; lia].
  clear. induction (children n) as [|x l IH]; [done|]. exact IH.
Qed.

(** What a node of [root] adds, [0] when the scorer does not meet it. *)
Definition node_score (root : Node) (c0 : C) (n : Node) : Z :=
  match ctx_at down root c0 n with Some c => increment n c | None => 0%Z end.

Lemma total_nodes root c0 : total root c0 = sumz (map (node_score root c0) (nodes root)).
Proof.
  unfold total. rewrite ctx_nodes_at, sumz_omap. f_equal. apply map_ext. intros n.
  unfold node_score. by destruct (ctx_at _ _ _ _).
Qed.
End total.

(** ** The stack loop *)

Lemma push_children {A} (cs st : list A) : fold_left (λ st c, c :: st) (rev cs) st = cs ++ st.
Proof.
  rewrite <- (rev_involutive cs) at 2. generalize (rev cs) as l. intros l. revert st.
  induction l as [|x l IH]; intros st; [done|]. cbn [fold_left rev]. rewrite IH. by rewrite <- (assoc_L (++)).
Qed.

(** The loop ends after one round per node of the trees on the stack and meets them in
    pre-order. *)
Lemma collect_loop_preorder {T} (target : Node → list T) fuel stack out :
  length (flat_map nodes stack) ≤ fuel →
  collect_loop target fuel stack out = Some (out ++ flat_map target (flat_map nodes stack)).
Proof.
  revert stack out. induction fuel as [|fuel IH]; intros [|n stack] out H; cbn [collect_loop flat_map].
  - by rewrite app_nil_r.
  - exfalso. cbn [flat_map] in H. rewrite length_app, nodes_eq in H. cbn in H. lia.
  - by rewrite app_nil_r.
  - rewrite push_children, IH.
    + f_equal. rewrite nodes_eq. cbn [flat_map app]. rewrite flat_map_app, (flat_map_app target), <- !(assoc_L (++)).
      done.
    + cbn [flat_map] in H. rewrite length_app, nodes_eq in H. cbn in H. rewrite flat_map_app, length_app. lia.
Qed.

(** ** Order of the records *)

Definition cc_cmp (a b : FunctionCognitiveComplexity) : comparison :=
  then_cmp (loc_StartByte (fcc_Location a) ?= loc_StartByte (fcc_Location b))%N
    (String.compare (fcc_Name a) (fcc_Name b)).

Lemma cc_less_cmp a b : cc_less a b = is_lt (cc_cmp a b).
Proof. unfold cc_less, cc_cmp. by apply less_chain_N. Qed.

#[export] Instance cc_cmp_laws : CmpLaws cc_cmp.
Proof.
  pose proof (on_cmp_laws (λ r, loc_StartByte (fcc_Location r)) N.compare).
  pose proof (on_cmp_laws fcc_Name String.compare).
  by apply then_cmp_laws.
Qed.

#[export] Instance cc_less_strict_weak : StrictWeak cc_less.
Proof. apply (strict_weak_of_cmp cc_less cc_cmp cc_less_cmp), _. Qed.

(** ** Aggregates *)

Lemma aggregate_max records tl i mx sm :
  fst (aggregate records tl i mx sm) = foldr Z.max mx (map fcc_Score records).
Proof.
  revert i mx sm. induction records as [|r rs IH]; intros i mx sm; [done|]. cbn [aggregate map foldr]. rewrite IH.
  assert (Hm : ∀ l a b, foldr Z.max (Z.max a b) l = Z.max b (foldr Z.max a l)).
  { clear. intros l a b. induction l as [|x l IH]; simpl; lia. }
  rewrite <- Hm. f_equal. destruct (Z.ltb_spec mx (fcc_Score r)); lia.
Qed.

(** The records that count towards the sum. *)
Definition included (tl : option (list bool)) (i : nat) (r : FunctionCognitiveComplexity) : bool :=
  match tl with
  | None => (fcc_Kind r == "function") || (fcc_Kind r == "method")
  | Some tl => default false (tl !! i)
  end.

Lemma aggregate_sum records tl i mx sm :
  snd (aggregate records tl i mx sm)
  = (sm + sumz (imap (λ k r, if included tl (i + k) r then fcc_Score r else 0%Z) records))%Z.
Proof.
  revert i mx sm. induction records as [|r rs IH]; intros i mx sm.
  - cbn. lia.
  - cbn [aggregate]. rewrite IH. cbn [imap sumz foldr]. rewrite Nat.add_0_r.
    assert (E : imap (λ k r, if included tl (S i + k) r then fcc_Score r else 0%Z) rs
      = imap ((λ k r, if included tl (i + k) r then fcc_Score r else 0%Z) ∘ S) rs).
    { apply imap_ext. intros k x _. cbn. by rewrite Nat.add_succ_r. }
    rewrite E. unfold included at 2. unfold sumz.
    destruct tl as [tl|]; [destruct (default false (tl !! i))|destruct (_ || _)]; lia.
Qed.

(** The aggregates are the maximum of all scores, at least 0, and the sum of the
    scores of functions and methods, or of the records marked top-level when marks are
    given; no other metric changes. *)
Theorem aggregates_exact metrics records tl :
  let m := applyCognitiveComplexityAggregates metrics records tl in
  met_MaxCognitiveComplexity m = foldr Z.max 0%Z (map fcc_Score records)
  ∧ met_SumCognitiveComplexity m
    = sumz (imap (λ k r, if included tl k r then fcc_Score r else 0%Z) records)
  ∧ (met_Ifs m, met_Fors m, met_ExprSwitches m, met_TypeSwitches m, met_Selects m, met_Functions m, met_Methods m,
     met_MaxNestingDepth m)
    = (met_Ifs metrics, met_Fors metrics, met_ExprSwitches metrics, met_TypeSwitches metrics, met_Selects metrics,
       met_Functions metrics, met_Methods metrics, met_MaxNestingDepth metrics).
Proof.
  unfold applyCognitiveComplexityAggregates.
  pose proof (aggregate_max records tl 0 0 0) as Hm. pose proof (aggregate_sum records tl 0 0 0) as Hs.
  destruct (aggregate records tl 0 0 0) as [mx sm]. cbn in *. split_and!; [done|done|done].
Qed.
