(* ===== verification/GoComplexity.v ===== *)
(** * Cognitive complexity of Go functions

    [computeGoCognitiveComplexity] ([go_cognitive_complexity*.go]) finds every function,
    method and function literal of a file with an explicit stack and scores its body;
    [applyCognitiveComplexityAggregates] ([cognitive_complexity.go]) folds the scores
    into the metrics.

    The scorer is one recursion that skips, nests and treats else-if chains specially.
    [score_exact] rewrites it as a sum over the nodes of the body: what a node adds
    depends on the node and on the context that its way up gives it.  [targets_preorder]
    shows that the stack loop ends and visits the nodes in pre-order. *)

From Stdlib Require Import Sorted.
From S2P Require Import Prelude GoOrder GoText Semantics Syntax Complexity GoSyntax.

(** ** [go_cognitive_complexity_boolean_sequences.go] *)

(** go: pkg/semantics/go_cognitive_complexity_boolean_sequences.go#isGoBooleanBinary *)
Definition isGoBooleanBinary (n : option Node) : bool :=
  match n with
  | None => false
  | Some n =>
      if Kind n != "binary_expression" then false
      else let op := goBinaryOp n in (op == "&&") || (op == "||")
  end.

Definition flattenGoBooleanOps_body (rec : option Node → list string) (n : option Node) : list string :=
  match unwrapGoParen n with
  | Some m =>
      if negb (isGoBooleanBinary (Some m)) then []
      else rec (ChildByFieldName m "left") ++ [goBinaryOp m] ++ rec (ChildByFieldName m "right")
  | None => []
  end.

(** go: pkg/semantics/go_cognitive_complexity_boolean_sequences.go#flattenGoBooleanOps *)
Definition flattenGoBooleanOps : option Node → list string := descend oheight (λ _, []) flattenGoBooleanOps_body.

(** go: pkg/semantics/go_cognitive_complexity_boolean_sequences.go#countGoBooleanRuns *)
Definition countGoBooleanRuns (n : Node) : Z :=
  match flattenGoBooleanOps (Some n) with
  | [] => 0
  | op :: ops => 1 + count_changes op ops
  end.

(** go: pkg/semantics/go_cognitive_complexity_boolean_sequences.go#isTopmostGoBooleanBinary *)
Definition isTopmostGoBooleanBinary (n : Node) : bool :=
  match List.find (λ p, Kind p != "parenthesized_expression") (ancestors n) with
  | None => true
  | Some p => negb (isGoBooleanBinary (Some p))
  end.

(** ** [go_cognitive_complexity_increments.go], [go_cognitive_complexity_names.go] *)

(** go: pkg/semantics/go_cognitive_complexity_increments.go#goHasLabel *)
Definition goHasLabel (n : Node) : bool := existsb (λ child, Kind child == "label_name") (children n).

(** go: pkg/semantics/go_cognitive_complexity_increments.go#isGoDirectRecursion *)
Definition isGoDirectRecursion (call : Node) (funcName : string) : bool :=
  if funcName == "" then false
  else match ChildByFieldName call "function" with
  | None => false
  | Some fn => if Kind fn != "identifier" then false else Utf8Text fn == funcName
  end.

(** go: pkg/semantics/go_cognitive_complexity_names.go#goDeclName *)
Definition goDeclName (decl : Node) : string :=
  match ChildByFieldName decl "name" with
  | None => ""
  | Some name => Utf8Text name
  end.

(** go: pkg/semantics/go_cognitive_complexity_names.go#goFuncLitName *)
Definition goFuncLitName (lit : Node) : string :=
  let parent := Parent lit in
  let parent := match parent with
                | Some p => if Kind p == "expression_list" then Parent p else parent
                | None => parent
                end in
  match parent with
  | None => func_lit
  | Some parent =>
      if one_of ["short_var_declaration"; "assignment_statement"] (Kind parent) then
        let lhs := ChildByFieldName parent "left" in
        let rhs := ChildByFieldName parent "right" in
        let leftID := singleIdentifierName lhs in
        if (leftID == "") || negb (expressionListIsSingleNode rhs (Some lit)) then func_lit else leftID
      else func_lit
  end.

(** ** [go_cognitive_complexity_scorer.go] *)

Definition structural_kinds : list string :=
  ["for_statement"; "expression_switch_statement"; "type_switch_statement"; "select_statement"].

(** A call of the scorer: [walk], or one more turn of the loop over the else-if chain in
    [walkIf].  The score is threaded. *)
Inductive cc_call :=
| CWalk (n : option Node) (depth : Z) (score : Z)
| CChain (alt : option Node) (nest : Z) (score : Z).

Definition cc_size (c : cc_call) : nat :=
  match c with CWalk n _ _ => 2 * oheight n | CChain alt _ _ => 2 * oheight alt + 1 end.

(** The fields of a branch, walked in this order. *)
Definition branch_fields : list string := ["initializer"; "condition"; "consequence"].

Definition walk_branch (rec : cc_call → Z) (n : Node) (nest score : Z) : Z :=
  fold_left (λ score f, rec (CWalk (ChildByFieldName n f) nest score)) branch_fields score.

(** go: pkg/semantics/go_cognitive_complexity_scorer.go#walkIf *)
Definition walkIf (rec : cc_call → Z) (n : Node) (depth score : Z) : Z :=
  let score := (score + (1 + depth))%Z in
  let nest := (depth + 1)%Z in
  let score := walk_branch rec n nest score in
  rec (CChain (ChildByFieldName n "alternative") nest score).

(** go: pkg/semantics/go_cognitive_complexity_scorer.go#walkStructural *)
Definition walkStructural (rec : cc_call → Z) (n : Node) (depth score : Z) : Z :=
  fold_left (λ score child, rec (CWalk (Some child) (depth + 1)%Z score)) (children n) (score + (1 + depth))%Z.

(** go: pkg/semantics/go_cognitive_complexity_scorer.go:13-59#walk *)
Definition cc_body (funcName : string) (rec : cc_call → Z) (c : cc_call) : Z :=
  match c with
  | CChain None nest score => score
  | CChain (Some alt) nest score =>
      if Kind alt == "if_statement"
      then rec (CChain (ChildByFieldName alt "alternative") nest (walk_branch rec alt nest (score + 1)%Z))
      else rec (CWalk (Some alt) nest (score + 1)%Z)
  | CWalk None depth score => score
  | CWalk (Some n) depth score =>
      if Kind n == "if_statement" then walkIf rec n depth score
      else if one_of structural_kinds (Kind n) then walkStructural rec n depth score
      else if one_of ["func_literal"; "function_declaration"; "method_declaration"] (Kind n)
           then rec (CWalk (ChildByFieldName n "body") (depth + 1)%Z score)
      else if one_of ["break_statement"; "continue_statement"] (Kind n)
           then if goHasLabel n then (score + 1)%Z else score
      else if Kind n == "goto_statement" then (score + 1)%Z
      else
        let score :=
          if Kind n == "binary_expression" then
            if isGoBooleanBinary (Some n) && isTopmostGoBooleanBinary n
            then (score + countGoBooleanRuns n)%Z else score
          else if Kind n == "call_expression" then
            if isGoDirectRecursion n funcName then (score + 1)%Z else score
          else score in
        fold_left (λ score child, rec (CWalk (Some child) depth score)) (children n) score
  end.

Definition cc (funcName : string) : cc_call → Z := descend cc_size (λ _, 0%Z) (cc_body funcName).

(** ** [go_cognitive_complexity.go] *)

(** go: pkg/semantics/go_cognitive_complexity.go#goCCTarget *)
Record goCCTarget := mkGoCCTarget { gt_node : Node; gt_name : string; gt_kind : string }.

Definition target_of (n : Node) : list goCCTarget :=
  if Kind n == "function_declaration" then [mkGoCCTarget n (goDeclName n) "function"]
  else if Kind n == "method_declaration" then [mkGoCCTarget n (goDeclName n) "method"]
  else if Kind n == "func_literal" then [mkGoCCTarget n (goFuncLitName n) "func_lit"]
  else [].

(** One round of the loop per node.
    go: pkg/semantics/go_cognitive_complexity.go#collectGoCCTargets *)
Definition collectGoCCTargets (root : Node) : list goCCTarget :=
  default [] (collect_loop target_of (length (nodes root)) [root] []).

Definition score_target (t : goCCTarget) : FunctionCognitiveComplexity :=
  let score := match ChildByFieldName (gt_node t) "body" with
               | Some body => cc (gt_name t) (CWalk (Some body) 0 0)
               | None => 0%Z
               end in
  mkFunctionCognitiveComplexity (gt_name t) (gt_kind t) (locationFromNode (gt_node t)) score.

(** go: pkg/semantics/go_cognitive_complexity.go#computeGoCognitiveComplexity *)
Definition computeGoCognitiveComplexity (root : Node) : list FunctionCognitiveComplexity :=
  stable_sort cc_less (map score_target (collectGoCCTargets root)).

(** ** The recursions are the ones of the code *)

Lemma unwrapGoParen_height n : oheight (unwrapGoParen n) ≤ oheight n.
Proof.
  destruct n as [n|]; [|done]. induction n as [n IH] using node_height_ind.
  rewrite unwrapGoParen_eq. unfold unwrapGoParen_body. destruct (_ == _); [|done].
  destruct (parenthesizedInner n) as [i|] eqn:E; [|done].
  assert (Hi : nheight i < nheight n) by smaller. specialize (IH i Hi). cbn in *. lia.
Qed.
#[export] Hint Resolve unwrapGoParen_height : height.

Lemma flattenGoBooleanOps_eq n : flattenGoBooleanOps n = flattenGoBooleanOps_body flattenGoBooleanOps n.
Proof. unfold flattenGoBooleanOps at 1. rewrite descend_eq; [done|descends_tac]. Qed.

Lemma cc_eq fn c : cc fn c = cc_body fn (cc fn) c.
Proof.
  unfold cc at 1. rewrite descend_eq; [done|].
  intros g h x H. unfold cc_body, walkIf, walkStructural, walk_branch. descends_with H.
Qed.

(** ** What a node adds

    The context of a node is its nesting and its part in an else-if chain. *)

Inductive role := Plain | ElseIf | Else.

Definition increment (funcName : string) (n : Node) (c : Z * role) : Z :=
  let '(depth, r) := c in
  ((match r with Else => 1 | _ => 0 end)
   + (if Kind n == "if_statement" then match r with ElseIf => 1 | _ => 1 + depth end
      else if one_of structural_kinds (Kind n) then 1 + depth
      else if one_of ["break_statement"; "continue_statement"] (Kind n) then if goHasLabel n then 1 else 0
      else if Kind n == "goto_statement" then 1
      else if Kind n == "binary_expression" then
        if isGoBooleanBinary (Some n) && isTopmostGoBooleanBinary n then countGoBooleanRuns n else 0
      else if Kind n == "call_expression" then if isGoDirectRecursion n funcName then 1 else 0
      else 0))%Z.

Definition chain_fields : list string := branch_fields ++ ["alternative"].

(** What the child bound to a field of an [if] inherits. *)
Definition in_branch (nest : Z) (f : string) (m : Node) : Z * role :=
  if f == "alternative" then (nest, if Kind m == "if_statement" then ElseIf else Else) else (nest, Plain).

(** What the children of a node inherit: only the fields of an [if], all one deeper; an
    else-if is not deeper than the [if] it continues; the body of a function, one deeper;
    nothing of a jump; everything else as it is. *)
Definition cc_down (n : Node) (c : Z * role) : list (option (Z * role)) :=
  let '(depth, r) := c in
  if Kind n == "if_statement" then
    let nest := match r with ElseIf => depth | _ => (depth + 1)%Z end in
    by_field chain_fields (in_branch nest) n
  else if one_of structural_kinds (Kind n) then map (λ _, Some ((depth + 1)%Z, Plain)) (children n)
  else if one_of ["func_literal"; "function_declaration"; "method_declaration"] (Kind n) then
    by_field ["body"] (λ _ _, ((depth + 1)%Z, Plain)) n
  else if one_of ["break_statement"; "continue_statement"] (Kind n) then map (λ _, None) (children n)
  else if Kind n == "goto_statement" then map (λ _, None) (children n)
  else map (λ _, Some (depth, Plain)) (children n).

(** The definitions at one node. *)
Lemma increment_eq fn n depth r : increment fn n (depth, r)
  = ltac:(let t := eval cbv beta iota delta [increment] in (increment fn n (depth, r)) in exact t).
Proof. done. Qed.
Lemma cc_down_eq n depth r : cc_down n (depth, r)
  = ltac:(let t := eval cbv beta iota zeta delta [cc_down] in (cc_down n (depth, r)) in exact t).
Proof. done. Qed.

Notation cc_total fn := (total (increment fn) cc_down).
Notation cc_ototal fn := (ototal (increment fn) cc_down).

(** What a call of the scorer adds to the score. *)
Definition adds (fn : string) (c : cc_call) : Z :=
  match c with
  | CWalk n depth _ => cc_ototal fn n (depth, Plain)
  | CChain (Some alt) nest _ => cc_total fn alt (nest, if Kind alt == "if_statement" then ElseIf else Else)
  | CChain None _ _ => 0%Z
  end.
Definition score_of (c : cc_call) : Z := match c with CWalk _ _ s | CChain _ _ s => s end.

(** The increment of an else branch comes on top of the one of its node. *)
Lemma total_Else fn n depth : Kind n == "if_statement" = false →
  cc_total fn n (depth, Else) = (1 + cc_total fn n (depth, Plain))%Z.
Proof.
  intros Hk. rewrite !total_eq. rewrite !increment_eq, !cc_down_eq. rewrite Hk. lia.
Qed.

Definition call_node (c : cc_call) : option Node := match c with CWalk n _ _ | CChain n _ _ => n end.

Lemma fold_walk fn ns depth score
    (IH : ∀ n s, In n ns → cc fn (CWalk (Some n) depth s) = (s + cc_total fn n (depth, Plain))%Z) :
  fold_left (λ score child, cc fn (CWalk (Some child) depth score)) ns score
  = (score + sumz (map (λ m, cc_total fn m (depth, Plain)) ns))%Z.
Proof.
  revert score. induction ns as [|n ns IHn]; intros score; cbn [fold_left map].
  - unfold sumz. cbn. lia.
  - rewrite IHn, IH by (by left || by (intros; apply IH; right)). unfold sumz. cbn. lia.
Qed.

Lemma branch_fields_adds fn n nest score (rec : cc_call → Z)
    (IH : ∀ f s, rec (CWalk (ChildByFieldName n f) nest s) = (s + cc_ototal fn (ChildByFieldName n f) (nest, Plain))%Z) :
  walk_branch rec n nest score
  = (score + sumz (map (λ f, cc_ototal fn (ChildByFieldName n f) (nest, Plain)) branch_fields))%Z.
Proof. unfold walk_branch, branch_fields. cbn [fold_left map sumz foldr]. rewrite !IH. lia. Qed.

(** The nesting below an [if]. *)
Definition if_nest (depth : Z) (r : role) : Z := match r with ElseIf => depth | _ => (depth + 1)%Z end.

Lemma total_if fn n depth r : Kind n = "if_statement" → single_fields n →
  cc_total fn n (depth, r)
  = (increment fn n (depth, r)
     + sumz (map (λ f, cc_ototal fn (ChildByFieldName n f) (if_nest depth r, Plain)) branch_fields)
     + adds fn (CChain (ChildByFieldName n "alternative") (if_nest depth r) 0))%Z.
Proof.
  intros Hk Hs. rewrite total_eq, cc_down_eq. rewrite Hk. cbn [String.eqb Ascii.eqb Bool.eqb].
  fold (if_nest depth r).
  rewrite (child_totals_fields (increment fn) cc_down n chain_fields (in_branch (if_nest depth r))) by (done || (repeat constructor; set_solver)).
  unfold chain_fields, branch_fields. cbn [map app sumz foldr in_branch String.eqb Ascii.eqb Bool.eqb].
  unfold ototal, adds. destruct (ChildByFieldName n "alternative"); cbn [in_branch String.eqb Ascii.eqb Bool.eqb]; lia.
Qed.

Lemma adds_chain fn a d s s' : adds fn (CChain a d s) = adds fn (CChain a d s').
Proof. by destruct a. Qed.

(** One step of the scorer, when the calls it makes are accounted for. *)
Section step.
Context (fn : string) (c : cc_call).
Hypothesis Hrec : ∀ c', cc_size c' < cc_size c →
  (∀ n, call_node c' = Some n → all_single_fields n) → cc fn c' = (score_of c' + adds fn c')%Z.
Hypothesis Hs : ∀ n, call_node c = Some n → all_single_fields n.

Lemma field_call n f : call_node c = Some n → ∀ m, ChildByFieldName n f = Some m → all_single_fields m.
Proof. intros Hn m Hm. eapply all_single_child; [by apply Hs|]. by eapply ChildByFieldName_In. Qed.

Lemma chain_step alt nest s : c = CChain (Some alt) nest s → cc_body fn (cc fn) c = (score_of c + adds fn c)%Z.
Proof.
  intros Hc. assert (Hn : single_fields alt) by (apply (Hs alt); [by rewrite Hc|auto with coach]).
  rewrite Hc. cbn [cc_body score_of adds].
  destruct (Kind alt == "if_statement") eqn:Eif.
  - apply String.eqb_eq in Eif. rewrite (total_if fn alt nest ElseIf) by done.
    rewrite (Hrec (CChain _ _ _)); [|rewrite Hc; smaller|apply field_call; by rewrite Hc].
    cbn [score_of]. rewrite (branch_fields_adds fn).
    + rewrite increment_eq, Eif, (adds_chain _ _ _ _ 0%Z). cbn [String.eqb Ascii.eqb Bool.eqb if_nest]. lia.
    + intros f s'. apply (Hrec (CWalk (ChildByFieldName alt f) nest s')); [rewrite Hc; smaller|].
      apply field_call. by rewrite Hc.
  - rewrite (Hrec (CWalk (Some alt) nest (s + 1)%Z)); [|rewrite Hc; cbn; lia|intros m [= <-]; apply Hs; by rewrite Hc].
    cbn [score_of adds ototal]. rewrite total_Else by done. lia.
Qed.

Context (n : Node) (depth s : Z) (Hc : c = CWalk (Some n) depth s).

Lemma walk_field f d s' :
  cc fn (CWalk (ChildByFieldName n f) d s') = (s' + cc_ototal fn (ChildByFieldName n f) (d, Plain))%Z.
Proof. apply (Hrec (CWalk (ChildByFieldName n f) d s')); [rewrite Hc; smaller|apply field_call; by rewrite Hc]. Qed.

Lemma walk_children d s' :
  fold_left (λ score child, cc fn (CWalk (Some child) d score)) (children n) s'
  = (s' + sumz (map (λ m, cc_total fn m (d, Plain)) (children n)))%Z.
Proof.
  apply fold_walk. intros m s'' Hm. apply (Hrec (CWalk (Some m) d s'')); [rewrite Hc; smaller|].
  intros m' [= <-]. eapply all_single_child; [|done]. apply Hs. by rewrite Hc.
Qed.

Lemma walk_step : cc_body fn (cc fn) c = (score_of c + adds fn c)%Z.
Proof.
  assert (Hn : single_fields n) by (apply (Hs n); [by rewrite Hc|auto with coach]).
  rewrite Hc. cbn [cc_body score_of adds ototal].
  destruct (Kind n == "if_statement") eqn:Eif.
  { apply String.eqb_eq in Eif. rewrite (total_if fn n depth Plain) by done. unfold walkIf.
    rewrite (branch_fields_adds fn) by (intros; apply walk_field).
    rewrite (Hrec (CChain _ _ _)); [|rewrite Hc; smaller|apply field_call; by rewrite Hc].
    rewrite increment_eq, Eif, (adds_chain _ _ _ _ 0%Z).
    cbn [String.eqb Ascii.eqb Bool.eqb if_nest score_of]. lia. }
  rewrite total_eq, !increment_eq, !cc_down_eq. rewrite Eif.
  destruct (one_of structural_kinds (Kind n)); [unfold walkStructural; rewrite walk_children, child_totals_all; lia|].
  destruct (one_of ["func_literal"; "function_declaration"; "method_declaration"] (Kind n)) eqn:Efn.
  { rewrite walk_field, (child_totals_fields (increment fn) cc_down n ["body"] (λ _ _, ((depth + 1)%Z, Plain)))
      by (done || (repeat constructor; set_solver)).
    apply one_of_In in Efn. cbn [map sumz foldr]. unfold ototal.
    destruct Efn as [<-|[<-|[<-|[]]]]; cbn [one_of existsb String.eqb Ascii.eqb Bool.eqb orb];
      destruct (ChildByFieldName n "body"); lia. }
  destruct (one_of ["break_statement"; "continue_statement"] (Kind n)).
  { rewrite child_totals_none. destruct (goHasLabel n); lia. }
  destruct (Kind n == "goto_statement"); [rewrite child_totals_none; lia|].
  rewrite walk_children, child_totals_all.
  destruct (Kind n == "binary_expression"); [destruct (_ && _); lia|].
  destruct (Kind n == "call_expression"); [destruct (isGoDirectRecursion n fn); lia|lia].
Qed.
End step.

Lemma cc_adds fn c : (∀ n, call_node c = Some n → all_single_fields n) → cc fn c = (score_of c + adds fn c)%Z.
Proof.
  remember (cc_size c) as k eqn:Hk. revert c Hk. induction k as [k IH] using lt_wf_ind. intros c -> Hs.
  assert (Hrec : ∀ c', cc_size c' < cc_size c → (∀ n, call_node c' = Some n → all_single_fields n) →
    cc fn c' = (score_of c' + adds fn c')%Z) by (intros; by eapply IH).
  clear IH. rewrite cc_eq. destruct c as [[n|] depth s|[alt|] nest s]; [|cbn; lia| |cbn; lia].
  - by eapply walk_step.
  - by eapply chain_step.
Qed.

(** ** The stack loop *)

Lemma targets_preorder root : collectGoCCTargets root = flat_map target_of (nodes root).
Proof.
  unfold collectGoCCTargets. rewrite collect_loop_preorder; cbn [flat_map]; rewrite app_nil_r; done.
Qed.

(** ** The score of a body *)

(** What a node of a body adds. *)
Notation cc_node_score fn body := (node_score (increment fn) cc_down body (0%Z, Plain)).

Lemma score_body fn body : all_single_fields body →
  cc fn (CWalk (Some body) 0 0) = sumz (map (cc_node_score fn body) (nodes body)).
Proof.
  intros H. rewrite cc_adds by (by intros n [= <-]). cbn [score_of adds ototal]. by rewrite total_nodes.
Qed.

Lemma increment_nonneg fn n d r : (0 ≤ d)%Z → (0 ≤ increment fn n (d, r))%Z.
Proof.
  intros Hd. unfold increment.
  assert (Hr : (0 ≤ countGoBooleanRuns n)%Z).
  { unfold countGoBooleanRuns. destruct (flattenGoBooleanOps (Some n)) as [|op ops]; [lia|].
    enough (0 ≤ count_changes op ops)%Z by lia. revert op. induction ops as [|o ops IH]; intros op; cbn; [lia|].
    specialize (IH o). destruct (o != op); lia. }
  repeat match goal with |- context [if ?b then _ else _] => destruct b end; destruct r; lia.
Qed.

(** C23: The cognitive complexity of a Go file has one record per function, method and
    function literal of its tree, in the order of position and then name (ties as in
    the tree), each with the sum over the nodes of its body of what the node adds: an
    [if], loop, switch or select 1 and its nesting, an else-if or else 1, a topmost
    boolean expression its runs of equal operators, a labelled jump, a [goto] and a
    direct recursion 1.  The scorer's loops and recursions all end, and the stack of the
    target search empties after one round per node. *)
Theorem go_complexity_exact root : all_single_fields root →
  computeGoCognitiveComplexity root
  = stable_sort cc_less
      (map (λ t, mkFunctionCognitiveComplexity (gt_name t) (gt_kind t) (locationFromNode (gt_node t))
                   (match ChildByFieldName (gt_node t) "body" with
                    | Some body => sumz (map (cc_node_score (gt_name t) body) (nodes body))
                    | None => 0%Z
                    end))
         (flat_map target_of (nodes root)))
  ∧ StronglySorted (not_after cc_less) (computeGoCognitiveComplexity root).
Proof.
  intros H. split; [|apply stable_sort_sorted, _].
  unfold computeGoCognitiveComplexity. rewrite targets_preorder. f_equal. apply map_ext_in. intros t Ht.
  unfold score_target. f_equal. destruct (ChildByFieldName (gt_node t) "body") as [body|] eqn:E; [|done].
  apply score_body. intros d Hd. apply H.
  apply in_flat_map in Ht as (n & Hn & Ht).
  assert (gt_node t = n) as <-.
  { unfold target_of in Ht. repeat (destruct (_ == _); [by destruct Ht as [<-|[]]|]). done. }
  eapply nodes_trans; [exact Hn|]. eapply nodes_child; [by eapply ChildByFieldName_In|done].
Qed.

(** ** Examples *)

Module ComplexityExample.
Definition call (f : string) : string * Sketch :=
  ("", Br "call_expression" [("function", ident f); ("arguments", Br "argument_list" [tok "("; tok ")"])]).
Definition boolean (op : string) (l r : Sketch) : Sketch :=
  Br "binary_expression" [("left", l); ("operator", Tok op op); ("right", r)].
Definition block (ss : list (string * Sketch)) : Sketch := Br "block" (tok "{" :: ss ++ [tok "}"]).

(** [func f() { if a && b && (c || d) { for { f() } } else if a { break L } else { if b { } } }] *)
Definition f : Sketch :=
  Br "function_declaration"
    [tok "func"; ("name", ident "f"); ("parameters", Br "parameter_list" [tok "("; tok ")"]);
     ("body", block
        [("", Br "if_statement"
            [tok "if";
             ("condition", boolean "&&" (boolean "&&" (ident "a") (ident "b"))
                (Br "parenthesized_expression" [tok "("; ("", boolean "||" (ident "c") (ident "d")); tok ")"]));
             ("consequence", block [("", Br "for_statement" [tok "for"; ("body", block [call "f"])])]);
             tok "else";
             ("alternative", Br "if_statement"
                [tok "if"; ("condition", ident "a");
                 ("consequence", block [("", Br "break_statement" [tok "break"; ("", Tok "label_name" "L")])]);
                 tok "else";
                 ("alternative", block [("", Br "if_statement" [tok "if"; ("condition", ident "b");
                    ("consequence", block [])])])])])])].

Definition file : Node := parsed (Br "source_file" [("", f)]).

Definition ok_fields (n : Node) : bool := forallb (λ c : list string * Tree, length (fst c) <=? 1) (subtrees (n_tree n)).

Lemma all_fields : all_single_fields file.
Proof.
  assert (H : forallb ok_fields (nodes file) = true) by (vm_compute; reflexivity).
  intros n Hn c Hc. rewrite forallb_forall in H. specialize (H n Hn). unfold ok_fields in H.
  rewrite forallb_forall in H. apply Nat.leb_le. by apply H.
Qed.

(** 1 + 2 runs, 2 for the loop, 1 for the recursion, 1 for the else-if, 1 for the
    labelled break, 1 for the else and 2 for the [if] in it. *)
Lemma go_complexity_exact_witness :
  StronglySorted (not_after cc_less) (computeGoCognitiveComplexity file)
  ∧ map (λ r, (fcc_Name r, fcc_Kind r, fcc_Score r)) (computeGoCognitiveComplexity file) = [("f", "function", 11%Z)].
Proof.
  split; [|by vm_compute]. apply (go_complexity_exact file). apply all_fields.
Defined.
End ComplexityExample.
