(* ===== verification/GoUnquote.v ===== *)
(** * [strconv.Unquote] and runes

    What the extractors use of [strconv], [unicode] and [unicode/utf8]: the value of a
    Go string literal, the runes a [range] over a string yields, and the classes of
    runes.  The classes beyond ASCII are tables of the Unicode database, so they are a
    parameter with its values on ASCII as laws. *)

From Stdlib Require Import Ascii.
From S2P Require Import Prelude GoText Json.

(** ** Runes *)

(** [utf8.DecodeRuneInString]: the rune and the rest; U+FFFD and one byte for a byte that
    starts no rune.  [None] for the empty string. *)
Definition next_rune (s : string) : option (N * string) :=
  match s with
  | EmptyString => None
  | String c t =>
      if (code c <? 128)%N then Some (code c, t)
      else match decode_rune s with
           | Some (r, _, rest) => Some (r, rest)
           | None => Some (65533%N, t)
           end
  end.

(** [for _, r := range s]; a rune takes at least one byte. *)
Fixpoint runes_fuel (fuel : nat) (s : string) : list N :=
  match fuel, next_rune s with
  | S fuel, Some (r, rest) => r :: runes_fuel fuel rest
  | _, _ => []
  end.
Definition runes (s : string) : list N := runes_fuel (String.length s) s.

Lemma next_rune_shorter s r rest : next_rune s = Some (r, rest) → String.length rest < String.length s.
Proof.
  destruct s as [|c t]; [done|]. unfold next_rune.
  destruct (code c <? 128)%N; [intros [= <- <-]; cbn; lia|].
  destruct (decode_rune (String c t)) as [[[r' b] rest']|] eqn:E; intros [= <- <-].
  - by apply decode_rune_split in E as [_ ?].
  - cbn. lia.
Qed.

(** More fuel than bytes changes nothing. *)
Lemma runes_fuel_enough n s : String.length s ≤ n → runes_fuel n s = runes s.
Proof.
  unfold runes. revert s. enough (H : ∀ n m s, String.length s ≤ n → String.length s ≤ m →
    runes_fuel n s = runes_fuel m s) by (intros; by apply H).
  clear n. induction n as [|n IH]; intros [|m] s Hn Hm; cbn [runes_fuel].
  - done.
  - destruct s; [done|cbn in Hn; lia].
  - destruct s; [done|cbn in Hm; lia].
  - destruct (next_rune s) as [[r rest]|] eqn:E; [|done].
    apply next_rune_shorter in E. f_equal. apply IH; lia.
Qed.

(** The predicates of package [unicode] the code uses. *)
Class Unicode := {
  IsLetter : N → bool;
  IsDigit : N → bool;
  IsUpper : N → bool
}.

(** Their values on ASCII. *)
Class UnicodeLaws (U : Unicode) : Prop := {
  IsUpper_ascii r : (r < 128)%N → IsUpper r = in_range 65 90 r;
  IsDigit_ascii r : (r < 128)%N → IsDigit r = in_range 48 57 r;
  IsLetter_ascii r : (r < 128)%N → IsLetter r = in_range 65 90 r || in_range 97 122 r
}.

(** The classes of ASCII only. *)
Definition ascii_unicode : Unicode := {|
  IsLetter r := in_range 65 90 r || in_range 97 122 r;
  IsDigit := in_range 48 57;
  IsUpper := in_range 65 90
|}.

#[export] Instance ascii_unicode_laws : UnicodeLaws ascii_unicode.
Proof. by split. Qed.

(** ** [strconv.Unquote] *)

Definition quote_double : ascii := byte_of 34.
Definition quote_single : ascii := byte_of 39.
Definition quote_back : ascii := byte_of 96.
Definition is_octal (c : ascii) : bool := in_range 48 55 (code c).

(** [n] hexadecimal digits. *)
Fixpoint take_hex (n : nat) (v : N) (s : string) : option (N * string) :=
  match n, s with
  | O, _ => Some (v, s)
  | S n, String c s => if is_hex c then take_hex n (v * 16 + hex_value c)%N s else None
  | S _, EmptyString => None
  end.

Definition valid_rune (r : N) : bool := (r <? 55296)%N || in_range 57344 1114111 r.

(** [strconv.UnquoteChar]: the value, whether it is a rune to be encoded, the rest. *)
Definition UnquoteChar (s : string) (quote : ascii) : option (N * bool * string) :=
  match s with
  | EmptyString => None
  | String c t =>
      if Ascii.eqb c quote then None
      else if (128 <=? code c)%N then (λ rr, (fst rr, true, snd rr)) <$> next_rune s
      else if negb (Ascii.eqb c ch_backslash) then Some (code c, false, t)
      else match t with
      | EmptyString => None
      | String e u =>
          let esc n := Some (n, false, u) in
          if Ascii.eqb e "a"%char then esc 7%N else if Ascii.eqb e "b"%char then esc 8%N
          else if Ascii.eqb e "f"%char then esc 12%N else if Ascii.eqb e "n"%char then esc 10%N
          else if Ascii.eqb e "r"%char then esc 13%N else if Ascii.eqb e "t"%char then esc 9%N
          else if Ascii.eqb e "v"%char then esc 11%N
          else if Ascii.eqb e "x"%char then (λ vr, (fst vr, false, snd vr)) <$> take_hex 2 0 u
          else if Ascii.eqb e "u"%char || Ascii.eqb e "U"%char then
            '(v, rest) ← take_hex (if Ascii.eqb e "u"%char then 4 else 8) 0 u;
            if valid_rune v then Some (v, true, rest) else None
          else if is_octal e then
            match u with
            | String a (String b rest) =>
                if is_octal a && is_octal b then
                  let v := ((code e - 48) * 64 + (code a - 48) * 8 + (code b - 48))%N in
                  if (255 <? v)%N then None else Some (v, false, rest)
                else None
            | _ => None
            end
          else if Ascii.eqb e ch_backslash then esc 92%N
          else if Ascii.eqb e quote_single || Ascii.eqb e quote_double then
            if Ascii.eqb e quote then esc (code e) else None
          else None
      end
  end.

(** The loop over the characters up to the closing quote, each at least one byte long;
    [once] for a character literal.  The shortcut of the library for literals without
    escapes gives the same. *)
Fixpoint unquote_loop (fuel : nat) (quote : ascii) (once : bool) (s buf : string) : option string :=
  match s with
  | EmptyString => None
  | String c t =>
      if Ascii.eqb c quote then if t == "" then Some buf else None
      else match fuel with
      | O => None
      | S fuel =>
          if (code c =? 10)%N then None
          else
            '(r, multibyte, rest) ← UnquoteChar s quote;
            let buf := buf +:+ (if (r <? 128)%N || negb multibyte then String (byte_of r) "" else encode_rune r) in
            if once then if rest == String quote "" then Some buf else None
            else unquote_loop fuel quote once rest buf
      end
  end.

Fixpoint drop_cr (s : string) : string :=
  match s with
  | EmptyString => ""
  | String c t => if (code c =? 13)%N then drop_cr t else String c (drop_cr t)
  end.

Definition Unquote (s : string) : option string :=
  match s with
  | String q t =>
      if Ascii.eqb q quote_back then
        match CutLast quote_back t with
        | Some (body, EmptyString) => if Contains (String quote_back "") body then None else Some (drop_cr body)
        | _ => None
        end
      else if Ascii.eqb q quote_double then unquote_loop (String.length t) q false t ""
      else if Ascii.eqb q quote_single then
        if t == String q "" then Some "" else unquote_loop (String.length t) q true t ""
      else None
  | EmptyString => None
  end.

(** [s[1:len(s)-1]] of a string of at least two bytes. *)
Definition inner (s : string) : string := String.substring 1 (String.length s - 2) s.

Definition first_byte (s : string) : option ascii := String.get 0 s.
Definition last_byte (s : string) : option ascii := String.get (String.length s - 1) s.

(** The text between two equal quotes, single or double. *)
Definition same_quotes (s : string) : bool :=
  match first_byte s, last_byte s with
  | Some a, Some b => (Ascii.eqb a quote_double || Ascii.eqb a quote_single) && Ascii.eqb a b
  | _, _ => false
  end.

Lemma inner_quoted q s : inner (String q (s +:+ String q "")) = s.
Proof.
  unfold inner. cbn [String.length String.substring]. rewrite length_append. cbn.
  replace (String.length s + 1 - 1) with (String.length s) by lia. apply substring_prefix.
Qed.

Example Unquote_examples :
  (Unquote (String quote_double ("a/b" +:+ String quote_double "")),
   Unquote (String quote_double ("x" +:+ String ch_backslash ("t" +:+ String ch_backslash ("u00e9" +:+ String quote_double "")))),
   Unquote (String quote_back ("raw" +:+ String quote_back "")),
   Unquote (String quote_single ("ab" +:+ String quote_single "")), Unquote "plain")
  = (Some "a/b", Some ("x" +:+ String (byte_of 9) (String (byte_of 195) (String (byte_of 169) ""))), Some "raw", None, None).
Proof. vm_compute. done. Qed.
