(* ===== verification/TsSyntax.v ===== *)
(** * TypeScript syntax

    What the TypeScript extractors of [pkg/semantics] read off a syntax tree: wrapped
    expressions, calls, binding patterns, the names the statements of a block bind, and
    the scopes that attribute a mutation to a parameter ([ts_expressions.go],
    [ts_calls.go], [ts_binding_patterns.go], [ts_scope*.go],
    [ts_cognitive_complexity_names.go]).  A set [map[string]bool] is a [gset]; the
    bindings of a scope, where [false] means a local name, are a [gmap]. *)

From Stdlib Require Import Ascii.
From S2P Require Import Prelude GoText Semantics Syntax GoUnquote.

Definition any_kind (kinds : list string) (n : option Node) : bool :=
  match n with Some n => one_of kinds (Kind n) | None => false end.

(** A loop that stops at the first child whose kind is none of these. *)
Definition first_not (kinds : list string) (n : Node) : option Node :=
  List.find (λ child, negb (one_of kinds (Kind child))) (children n).

(** ** [ts_expressions.go] *)

(** go: pkg/semantics/ts_expressions.go#tsWrappedExpressionInner *)
Definition tsWrappedExpressionInner (expr : Node) : option Node :=
  match first_some (ChildByFieldName expr) ["expression"; "operand"; "argument"] with
  | Some child => Some child
  | None => first_not ["("; ")"; "!"] expr
  end.

Definition unwrapTSParen_body (rec : option Node → option Node) (n : option Node) : option Node :=
  match n with
  | Some p =>
      if one_of ["parenthesized_expression"; "non_null_expression"] (Kind p)
      then match tsWrappedExpressionInner p with
           | None => n
           | Some inner => rec (Some inner)
           end
      else n
  | None => n
  end.

(** go: pkg/semantics/ts_expressions.go#unwrapTSParen *)
Definition unwrapTSParen : option Node → option Node := descend oheight id unwrapTSParen_body.

(** go: pkg/semantics/ts_expressions.go#tsBinaryOp *)
Definition tsBinaryOp (n : Node) : string :=
  match ChildByFieldName n "operator" with
  | None => ""
  | Some op => Kind op
  end.

(** go: pkg/semantics/ts_expressions.go#tsStringLiteralText *)
Definition tsStringLiteralText (n : option Node) : option string :=
  match n with
  | None => None
  | Some n => if Kind n != "string" then None else Unquote (Utf8Text n)
  end.

(** ** [ts_calls.go] *)

(** go: pkg/semantics/ts_calls.go#tsCallFunctionName *)
Definition tsCallFunctionName (call : option Node) : option string :=
  match call with
  | None => None
  | Some call =>
      if Kind call != "call_expression" then None
      else match ChildByFieldName call "function" with
      | None => None
      | Some fn =>
          if Kind fn == "identifier" then Some (Utf8Text fn)
          else if Kind fn == "member_expression" then Utf8Text <$> ChildByFieldName fn "property"
          else None
      end
  end.

(** go: pkg/semantics/ts_calls.go#tsCallFirstArgument *)
Definition tsCallFirstArgument (call : Node) : option Node :=
  match ChildByFieldName call "arguments" with
  | None => None
  | Some args => first_not ["("; ")"; ","] args
  end.

(** ** [ts_binding_patterns.go] *)

(** The single field a pattern binds through. *)
Definition pattern_field (kind : string) : option string :=
  if kind == "pair_pattern" then Some "value"
  else if kind == "rest_pattern" then Some "argument"
  else if kind == "assignment_pattern" then Some "left"
  else None.

Definition identifier_kinds : list string := ["identifier"; "shorthand_property_identifier_pattern"].

Definition collectBinding_body (rec : Node * gset string → gset string) (x : Node * gset string) : gset string :=
  let (n, s) := x in
  if one_of identifier_kinds (Kind n) then {[Utf8Text n]} ∪ s
  else match pattern_field (Kind n) with
  | Some f => match ChildByFieldName n f with
              | Some m => rec (m, s)
              | None => s
              end
  | None => fold_left (λ s child, rec (child, s)) (children n) s
  end.

(** go: pkg/semantics/ts_binding_patterns.go#collectBindingPatternNames *)
Definition collectBindingPatternNames (s : gset string) (n : Node) : gset string :=
  descend (λ x, nheight (fst x)) snd collectBinding_body (n, s).

(** go: pkg/semantics/ts_binding_patterns.go#collectBindingPatternNamesExcept *)
Definition collectBindingPatternNamesExcept (s : gset string) (n : Node) (except : gset string) : gset string :=
  (collectBindingPatternNames ∅ n ∖ except) ∪ s.

(** ** Function-like nodes *)

(** go: pkg/semantics/ts_features.go#tsFunctionLikeKinds *)
Definition tsFunctionLikeKinds : list string :=
  ["function_declaration"; "function_expression"; "arrow_function"; "generator_function_declaration"; "generator_function"].

Definition function_like (n : Node) : bool := one_of tsFunctionLikeKinds (Kind n).
Definition function_or_method (n : Node) : bool := function_like n || (Kind n == "method_definition").

(** ** [ts_scope_declarators.go] *)

Definition declarators_body (rec : Node * gset string → gset string) (x : Node * gset string) : gset string :=
  let (n, names) := x in
  if Kind n == "variable_declarator" then
    match ChildByFieldName n "name" with
    | Some name => collectBindingPatternNames names name
    | None => names
    end
  else fold_left (λ names child, rec (child, names)) (children n) names.

(** go: pkg/semantics/ts_scope_declarators.go#collectTSVariableDeclaratorNames *)
Definition collectTSVariableDeclaratorNames (n : Node) (names : gset string) : gset string :=
  descend (λ x, nheight (fst x)) snd declarators_body (n, names).

Definition declaratorsAfter_body (currentParams : gset string) (rec : Node * gset string → gset string)
    (x : Node * gset string) : gset string :=
  let (n, names) := x in
  if Kind n == "variable_declarator" then
    match ChildByFieldName n "name" with
    | None => names
    | Some name =>
        match ChildByFieldName n "value" with
        | None => collectBindingPatternNamesExcept names name currentParams
        | Some _ => collectBindingPatternNames names name
        end
    end
  else fold_left (λ names child, rec (child, names)) (children n) names.

(** go: pkg/semantics/ts_scope_declarators.go#collectTSVariableDeclaratorNamesAfterStatement *)
Definition collectTSVariableDeclaratorNamesAfterStatement (n : Node) (currentParams names : gset string) : gset string :=
  descend (λ x, nheight (fst x)) snd (declaratorsAfter_body currentParams) (n, names).

Definition child_declarators (n : Node) (names : gset string) : gset string :=
  fold_left (λ names child, collectTSVariableDeclaratorNames child names) (children n) names.

(** The text of the [name] field, as a set. *)
Definition name_field (n : Node) (names : gset string) : gset string :=
  match ChildByFieldName n "name" with
  | Some name => {[Utf8Text name]} ∪ names
  | None => names
  end.

(** ** [ts_scope_block_bindings.go], [ts_scope_control_flow_bindings.go] *)

(** go: pkg/semantics/ts_scope_block_bindings.go#tsBlockScopedBindingNames *)
Definition tsBlockScopedBindingNames (n : Node) : gset string :=
  fold_left (λ names child,
      if Kind child == "lexical_declaration" then child_declarators child names
      else if one_of ["function_declaration"; "generator_function_declaration"; "class_declaration"] (Kind child)
           then name_field child names
      else names) (children n) ∅.

(** go: pkg/semantics/ts_scope_block_bindings.go#tsSwitchBodyBindingNames *)
Definition tsSwitchBodyBindingNames (n : Node) : gset string :=
  fold_left (λ names child,
      if (Kind child != "switch_case") && (Kind child != "switch_default") then names
      else tsBlockScopedBindingNames child ∪ names) (children n) ∅.

(** The loop ends at the body. *)
Fixpoint loop_bindings (cs : list Node) (names : gset string) : gset string :=
  match cs with
  | [] => names
  | child :: cs =>
      if Kind child == "statement_block" then names
      else if one_of ["lexical_declaration"; "variable_declaration"] (Kind child)
           then loop_bindings cs (child_declarators child names)
      else loop_bindings cs names
  end.

(** go: pkg/semantics/ts_scope_control_flow_bindings.go#tsControlFlowBindingNames *)
Definition tsControlFlowBindingNames (n : Node) : gset string :=
  if (Kind n != "for_statement") && (Kind n != "for_in_statement") then ∅
  else
    let names := match ChildByFieldName n "left" with
                 | Some lhs => collectBindingPatternNames ∅ lhs
                 | None => ∅
                 end in
    loop_bindings (children n) names.

(** go: pkg/semantics/ts_scope_control_flow_bindings.go#tsCatchBindingNames *)
Definition tsCatchBindingNames (n : Node) : gset string :=
  match ChildByFieldName n "parameter" with
  | Some p => collectBindingPatternNames ∅ p
  | None => ∅
  end.

(** ** [ts_scope_function_bindings.go] *)

(** go: pkg/semantics/ts_scope_function_bindings.go#collectFunctionScopedVarDeclarationNames *)
Definition collectFunctionScopedVarDeclarationNames (s : gset string) (node : Node) (params : gmap string bool) : gset string :=
  let varNames := child_declarators node ∅ in
  filter (λ name, default false (params !! name) = false) varNames ∪ s.

(** [node != root]: below [root], only [root] itself is not deeper. *)
Definition same_place (root node : Node) : bool := length (n_up root) =? length (n_up node).

(** go: pkg/semantics/ts_scope_function_bindings.go#collectFunctionDeclarationNames *)
Definition collectFunctionDeclarationNames (rec : Node * gset string → gset string) (s : gset string)
    (root node : Node) : gset string :=
  let s := if negb (same_place root node) then name_field node s else s in
  fold_left (λ s child, rec (child, s)) (children node) s.

(** [None] when not handled.
    go: pkg/semantics/ts_scope_function_bindings.go#tsCollectFunctionScopedNodeNames *)
Definition tsCollectFunctionScopedNodeNames (rec : Node * gset string → gset string) (root node : Node)
    (params : gmap string bool) (names : gset string) : option (gset string) :=
  if one_of ["function_declaration"; "generator_function_declaration"] (Kind node)
  then Some (collectFunctionDeclarationNames rec names root node)
  else if Kind node == "variable_declaration"
       then Some (collectFunctionScopedVarDeclarationNames names node params)
  else if Kind node == "lexical_declaration" then Some names
  else None.

Definition functionScoped_body (root : Node) (params : gmap string bool) (rec : Node * gset string → gset string)
    (x : Node * gset string) : gset string :=
  let (node, names) := x in
  if negb (same_place root node) && function_or_method node then names
  else match tsCollectFunctionScopedNodeNames rec root node params names with
  | Some names => names
  | None => fold_left (λ names child, rec (child, names)) (children node) names
  end.

(** go: pkg/semantics/ts_scope_function_bindings.go#collectTSFunctionScopedBindingNames *)
Definition collectTSFunctionScopedBindingNames (root node : Node) (params : gmap string bool) (names : gset string) : gset string :=
  descend (λ x, nheight (fst x)) snd (functionScoped_body root params) (node, names).

(** go: pkg/semantics/ts_scope_function_bindings.go#tsFunctionScopedBindingNames *)
Definition tsFunctionScopedBindingNames (n : Node) (params : gmap string bool) : gset string :=
  collectTSFunctionScopedBindingNames n n params ∅.

(** ** [ts_scope_statement_bindings.go] *)

(** go: pkg/semantics/ts_scope_statement_bindings.go#tsLocalBindingNames *)
Definition tsLocalBindingNames (n : Node) (currentParams : gset string) : gset string :=
  if Kind n == "lexical_declaration" then child_declarators n ∅
  else if Kind n == "variable_declaration" then collectTSVariableDeclaratorNamesAfterStatement n currentParams ∅
  else if one_of ["function_declaration"; "generator_function_declaration"; "class_declaration"] (Kind n)
       then name_field n ∅
  else ∅.

Definition varBindingNames_body (currentParams : gset string) (rec : Node * gset string → gset string)
    (x : Node * gset string) : gset string :=
  let (node, names) := x in
  if Kind node == "variable_declaration" then
    fold_left (λ names child, collectTSVariableDeclaratorNamesAfterStatement child currentParams names) (children node) names
  else if function_or_method node then names
  else fold_left (λ names child, rec (child, names)) (children node) names.

(** go: pkg/semantics/ts_scope_statement_bindings.go#tsVarBindingNames *)
Definition tsVarBindingNames (n : Node) (currentParams : gset string) : gset string :=
  descend (λ x, nheight (fst x)) snd (varBindingNames_body currentParams) (n, ∅).

(** ** [ts_scope_rebound_bindings.go] *)

Definition reboundTarget_body (rec : option Node * gset string → gset string) (x : option Node * gset string) : gset string :=
  match x with
  | (None, s) => s
  | (Some n, s) =>
      if one_of identifier_kinds (Kind n) then {[Utf8Text n]} ∪ s
      else match pattern_field (Kind n) with
      | Some f => rec (ChildByFieldName n f, s)
      | None =>
          if one_of ["object_pattern"; "array_pattern"; "parenthesized_expression"] (Kind n)
          then fold_left (λ s child, rec (Some child, s)) (children n) s
          else s
      end
  end.

(** go: pkg/semantics/ts_scope_rebound_bindings.go#collectReboundTargetNames *)
Definition collectReboundTargetNames (s : gset string) (n : option Node) : gset string :=
  descend (λ x, oheight (fst x)) snd reboundTarget_body (n, s).

Definition assignment_kinds : list string := ["assignment_expression"; "augmented_assignment_expression"].

Definition rebound_body (rec : Node * gset string → gset string) (x : Node * gset string) : gset string :=
  let (node, names) := x in
  if function_or_method node then names
  else if one_of assignment_kinds (Kind node) then
    match ChildByFieldName node "left" with
    | Some lhs => collectReboundTargetNames names (Some lhs)
    | None => names
    end
  else fold_left (λ names child, rec (child, names)) (children node) names.

(** go: pkg/semantics/ts_scope_rebound_bindings.go#tsReboundParameterNames *)
Definition tsReboundParameterNames (n : Node) : gset string :=
  descend (λ x, nheight (fst x)) snd rebound_body (n, ∅).
