(* ===== verification/TsScope.v ===== *)
(** * TypeScript scopes

    Which name a function is known by, which of its parameters a mutation is blamed on
    ([ts_scope.go], [ts_scope_assigned_names.go], [ts_scope_method_names.go],
    [ts_scope_parameters.go]), and the accumulators of [reduce] callbacks that are no
    caller's data ([ts_scope_reduce_accumulator.go]). *)

From Stdlib Require Import Ascii.
From S2P Require Import Prelude GoText Semantics Syntax GoUnquote TsSyntax.

(** go: pkg/semantics/ts_scope.go#tsAnonymousFunctionOwnerName *)
Definition tsAnonymousFunctionOwnerName : string := "<func lit>".

(** ** [ts_cognitive_complexity_names.go] *)

(** go: pkg/semantics/ts_cognitive_complexity_names.go#tsBoundIdentifierName *)
Definition tsBoundIdentifierName (lit : Node) : string :=
  let bound name_field value_field parent :=
    match ChildByFieldName parent name_field, ChildByFieldName parent value_field with
    | Some name, Some value =>
        if (Kind name != "identifier") || negb (sameNodeSpan value lit) then tsAnonymousFunctionOwnerName
        else Utf8Text name
    | _, _ => tsAnonymousFunctionOwnerName
    end in
  match Parent lit with
  | None => tsAnonymousFunctionOwnerName
  | Some parent =>
      if Kind parent == "variable_declarator" then bound "name" "value" parent
      else if Kind parent == "assignment_expression" then bound "left" "right" parent
      else tsAnonymousFunctionOwnerName
  end.

(** ** [ts_scope_assigned_names.go] *)

(** go: pkg/semantics/ts_scope_assigned_names.go#tsTransparentWrapperKinds *)
Definition tsTransparentWrapperKinds : list string :=
  ["parenthesized_expression"; "as_expression"; "satisfies_expression"; "non_null_expression"].

Fixpoint held_loop (held : Node) (up : list Node) : Node :=
  match up with
  | parent :: up => if one_of tsTransparentWrapperKinds (Kind parent) then held_loop parent up else held
  | [] => held
  end.

(** go: pkg/semantics/ts_scope_assigned_names.go#tsHeldExpression *)
Definition tsHeldExpression (fn : Node) : Node := held_loop fn (ancestors fn).

(** go: pkg/semantics/ts_scope_assigned_names.go#tsMemberKeyNode *)
Definition tsMemberKeyNode (target : option Node) : option Node :=
  match target with
  | None => None
  | Some target =>
      if Kind target == "member_expression" then ChildByFieldName target "property"
      else if Kind target == "subscript_expression" then ChildByFieldName target "index"
      else None
  end.

Section unicode.
Context {U : Unicode}.

(** go: pkg/semantics/ts_scope_assigned_names.go#tsIsPlainKeyText *)
Definition tsIsPlainKeyText (s : string) : bool :=
  if s == "" then false
  else if forallb (in_range 48 57) (runes s) then true
  else
    let isStart r := IsLetter r || (r =? 95)%N || (r =? 36)%N in
    match runes s with
    | [] => true
    | first :: rest => isStart first && forallb (λ r, isStart r || IsDigit r) rest
    end.

Definition keyName_body (rec : Node → string) (key : Node) : string :=
  if one_of ["property_identifier"; "private_property_identifier"; "number"] (Kind key) then Utf8Text key
  else if Kind key == "string" then
    let text := Utf8Text key in
    if (String.length text <? 2)%nat then ""
    else
      let content := inner text in
      if tsIsPlainKeyText content then content else dq +:+ content +:+ dq
  else if Kind key == "identifier" then "[" +:+ Utf8Text key +:+ "]"
  else if Kind key == "computed_property_name" then
    match Child key 1 with
    | Some inner => rec inner
    | None => ""
    end
  else "".

(** go: pkg/semantics/ts_scope_assigned_names.go#tsKeyName *)
Definition tsKeyName : Node → string := descend nheight (λ _, "") keyName_body.

(** go: pkg/semantics/ts_scope_assigned_names.go#tsAssignedName *)
Definition tsAssignedName (fn : Node) : string :=
  let held := tsHeldExpression fn in
  let bound := tsBoundIdentifierName held in
  if bound != tsAnonymousFunctionOwnerName then bound
  else match Parent held with
  | None => ""
  | Some parent =>
      let named key value :=
        match key, value with
        | Some key, Some value => if negb (sameNodeSpan value held) then "" else tsKeyName key
        | _, _ => ""
        end in
      if Kind parent == "public_field_definition"
      then named (ChildByFieldName parent "name") (ChildByFieldName parent "value")
      else if Kind parent == "pair" then named (ChildByFieldName parent "key") (ChildByFieldName parent "value")
      else if Kind parent == "assignment_expression"
      then named (tsMemberKeyNode (ChildByFieldName parent "left")) (ChildByFieldName parent "right")
      else ""
  end.

(** ** [ts_scope_method_names.go] *)

(** The loop ends at the name. *)
Fixpoint accessor_loop (nameStart : N) (cs : list Node) : string :=
  match cs with
  | [] => ""
  | child :: cs =>
      if (nameStart <=? StartByte child)%N then ""
      else if (Kind child == "get") || (Kind child == "set") then Kind child
      else accessor_loop nameStart cs
  end.

(** go: pkg/semantics/ts_scope_method_names.go#tsAccessorKind *)
Definition tsAccessorKind (method nameNode : Node) : string := accessor_loop (StartByte nameNode) (children method).

(** go: pkg/semantics/ts_scope_method_names.go#tsEnclosingClassName *)
Definition tsEnclosingClassName (method : Node) : string :=
  match Parent method with
  | None => ""
  | Some body =>
      if Kind body != "class_body" then ""
      else match Parent body with
      | None => ""
      | Some class =>
          match ChildByFieldName class "name" with
          | Some nameNode => Utf8Text nameNode
          | None => tsAssignedName class
          end
      end
  end.

(** go: pkg/semantics/ts_scope_method_names.go#tsQualifiedMethodName *)
Definition tsQualifiedMethodName (method nameNode : Node) : string :=
  let name := Utf8Text nameNode in
  let kind := tsAccessorKind method nameNode in
  let name := if kind != "" then kind +:+ " " +:+ name else name in
  let class := tsEnclosingClassName method in
  if class != "" then class +:+ "." +:+ name else name.

(** ** [ts_scope.go] *)

(** One turn of the loop up the tree: [None] to go on. *)
Definition function_name (node : Node) : option string :=
  if negb (function_or_method node) then None
  else match ChildByFieldName node "name" with
  | Some nameNode =>
      Some (if Kind node == "method_definition" then tsQualifiedMethodName node nameNode else Utf8Text nameNode)
  | None => let assigned := tsAssignedName node in if assigned != "" then Some assigned else None
  end.

(** go: pkg/semantics/ts_scope.go#tsNearestFunctionName *)
Definition tsNearestFunctionName (decl : Node) : string := default "" (first_some function_name (decl :: ancestors decl)).

(** go: pkg/semantics/ts_scope.go#tsFunctionOwnerName *)
Definition tsFunctionOwnerName (decl : Node) : string :=
  match ChildByFieldName decl "name" with
  | Some nameNode => Utf8Text nameNode
  | None =>
      let context := tsNearestFunctionName decl in
      if context != "" then context +:+ "/" +:+ tsAnonymousFunctionOwnerName else tsAnonymousFunctionOwnerName
  end.

(** ** [ts_scope_parameters.go] *)

(** go: pkg/semantics/ts_scope_parameters.go#tsFormalParameterIdentifierName *)
Definition tsFormalParameterIdentifierName (p : Node) : option string :=
  if (Kind p != "required_parameter") && (Kind p != "optional_parameter") then None
  else match ChildByFieldName p "value" with
  | Some _ => None
  | None =>
      match ChildByFieldName p "pattern" with
      | None => None
      | Some pattern => if Kind pattern != "identifier" then None else Some (Utf8Text pattern)
      end
  end.

(** go: pkg/semantics/ts_scope_parameters.go#arrowBareParams *)
Definition arrowBareParams (decl : Node) : option (gset string) :=
  if Kind decl != "arrow_function" then None
  else match ChildByFieldName decl "parameter" with
  | None => None
  | Some bare => Some (if Kind bare == "identifier" then {[Utf8Text bare]} else ∅)
  end.

(** go: pkg/semantics/ts_scope_parameters.go#tsIdentifierParams *)
Definition tsIdentifierParams (decl : Node) : gset string :=
  match arrowBareParams decl with
  | Some params => params
  | None =>
      match ChildByFieldName decl "parameters" with
      | None => ∅
      | Some formal =>
          fold_left (λ params p, match tsFormalParameterIdentifierName p with
                                 | Some name => {[name]} ∪ params
                                 | None => params
                                 end) (children formal) ∅
      end
  end.

(** ** [ts_scope_reduce_accumulator.go] *)

(** go: pkg/semantics/ts_scope_reduce_accumulator.go#tsArgumentNodes *)
Definition tsArgumentNodes (l : Node) : list Node :=
  List.filter (λ child, negb (one_of ["("; ")"; "["; "]"; "{"; "}"; ","; "comment"] (Kind child))) (children l).

Definition valueExpression_body (rec : option Node → option Node) (n : option Node) : option Node :=
  match n with
  | None => None
  | Some p =>
      if Kind p == "parenthesized_expression" then rec (Child p 1)
      else if one_of ["as_expression"; "satisfies_expression"; "non_null_expression"] (Kind p) then rec (Child p 0)
      else if one_of ["type_assertion"; "sequence_expression"] (Kind p) then rec (Child p (ChildCount p - 1))
      else n
  end.

(** go: pkg/semantics/ts_scope_reduce_accumulator.go#tsValueExpression *)
Definition tsValueExpression : option Node → option Node := descend oheight id valueExpression_body.

(** go: pkg/semantics/ts_scope_reduce_accumulator.go#tsIsEmptyFreshValue *)
Definition tsIsEmptyFreshValue (n : Node) : bool :=
  match tsValueExpression (Some n) with
  | None => false
  | Some value =>
      let empty l := match tsArgumentNodes l with [] => true | _ => false end in
      if one_of ["object"; "array"] (Kind value) then empty value
      else if Kind value == "new_expression" then
        match ChildByFieldName value "arguments" with
        | None => true
        | Some args => empty args
        end
      else false
  end.

(** go: pkg/semantics/ts_scope_reduce_accumulator.go#tsIsIdentifierNamed *)
Definition tsIsIdentifierNamed (n : Node) (name : string) : bool :=
  match tsValueExpression (Some n) with
  | None => false
  | Some value => (Kind value == "identifier") && (Utf8Text value == name)
  end.

(** go: pkg/semantics/ts_scope_reduce_accumulator.go#tsReturnStatementExpression *)
Definition tsReturnStatementExpression (statement : Node) : option Node :=
  first_not ["return"; ";"; "comment"] statement.

Definition returned_body (rec : Node → list (option Node)) (node : Node) : list (option Node) :=
  flat_map (λ child,
      if Kind child == "return_statement" then [tsReturnStatementExpression child]
      else if function_or_method child then []
      else rec child) (children node).

(** go: pkg/semantics/ts_scope_reduce_accumulator.go#collectTSReturnedExpressions *)
Definition collectTSReturnedExpressions : Node → list (option Node) := descend nheight (λ _, []) returned_body.

(** go: pkg/semantics/ts_scope_reduce_accumulator.go#tsCallbackReturnsOnly *)
Definition tsCallbackReturnsOnly (decl : Node) (name : string) : bool :=
  match ChildByFieldName decl "body" with
  | None => false
  | Some body =>
      if Kind body != "statement_block" then tsIsIdentifierNamed body name
      else
        let returned := collectTSReturnedExpressions body in
        forallb (λ e, match e with None => false | Some e => tsIsIdentifierNamed e name end) returned
        && negb (match returned with [] => true | _ => false end)
  end.

(** go: pkg/semantics/ts_scope_reduce_accumulator.go#tsRebindTargetsInclude *)
Definition tsRebindTargetsInclude (target : option Node) (name : string) : bool :=
  match tsValueExpression target with
  | None => false
  | Some target => bool_decide (name ∈ collectReboundTargetNames ∅ (Some target))
  end.

Definition assignsToName_body (name : string) (rec : Node → bool) (node : Node) : bool :=
  if function_or_method node && bool_decide (name ∈ tsIdentifierParams node) then false
  else if one_of ["assignment_expression"; "augmented_assignment_expression"; "for_in_statement"] (Kind node)
          && tsRebindTargetsInclude (ChildByFieldName node "left") name then true
  else if (Kind node == "variable_declarator")
          && kind_is (Parent node) "variable_declaration"
          && bool_decide (is_Some (ChildByFieldName node "value"))
          && match ChildByFieldName node "name" with
             | Some target => tsRebindTargetsInclude (Some target) name
             | None => false
             end then true
  else existsb rec (children node).

(** go: pkg/semantics/ts_scope_reduce_accumulator.go#tsAssignsToName *)
Definition tsAssignsToName (node : option Node) (name : string) : bool :=
  match node with
  | None => false
  | Some node => descend nheight (λ _, false) (assignsToName_body name) node
  end.

(** go: pkg/semantics/ts_scope_reduce_accumulator.go#tsFirstIdentifierParamName *)
Definition tsFirstIdentifierParamName (decl : Node) : option string :=
  match ChildByFieldName decl "parameter", Kind decl == "arrow_function" with
  | Some bare, true => if Kind bare != "identifier" then None else Some (Utf8Text bare)
  | _, _ =>
      match ChildByFieldName decl "parameters" with
      | None => None
      | Some formal =>
          match tsArgumentNodes formal with
          | [] => None
          | p :: _ => tsFormalParameterIdentifierName p
          end
      end
  end.

(** go: pkg/semantics/ts_scope_reduce_accumulator.go#tsIsMethodCallNamed *)
Definition tsIsMethodCallNamed (call : option Node) (names : list string) : bool :=
  match tsCallFunctionName call with
  | None => false
  | Some name => if negb (one_of names name) then false else kind_is (field call "function") "member_expression"
  end.

(** go: pkg/semantics/ts_scope_reduce_accumulator.go#tsReduceMethodNames *)
Definition tsReduceMethodNames : list string := ["reduce"; "reduceRight"].

(** go: pkg/semantics/ts_scope_reduce_accumulator.go#tsFreshReduceAccumulatorName *)
Definition tsFreshReduceAccumulatorName (decl : Node) : option string :=
  match Parent decl with
  | None => None
  | Some args =>
      if (Kind args != "arguments") || bool_decide (is_Some (ChildByFieldName decl "name")) then None
      else if negb (tsIsMethodCallNamed (Parent args) tsReduceMethodNames) then None
      else match tsArgumentNodes args with
      | callback :: initial :: _ =>
          if negb (sameNodeSpan callback decl) || negb (tsIsEmptyFreshValue initial) then None
          else match tsFirstIdentifierParamName decl with
          | None => None
          | Some name =>
              if negb (tsCallbackReturnsOnly decl name) || tsAssignsToName (ChildByFieldName decl "body") name
              then None else Some name
          end
      | _ => None
      end
  end.

(** ** The scopes of a walk *)

(** go: pkg/semantics/ts_scope.go#tsParamScope *)
Record tsParamScope := mkTsParamScope { sc_ownerName : string; sc_bindings : gmap string bool }.

Definition marked (b : bool) (names : gset string) : gmap string bool := gset_to_gmap b names.

(** go: pkg/semantics/ts_scope.go#newTSParamScope *)
Definition newTSParamScope (decl : Node) : tsParamScope :=
  let bindings := marked true (tsIdentifierParams decl) in
  let bindings := match tsFreshReduceAccumulatorName decl with
                  | Some accumulator => <[accumulator := false]> bindings
                  | None => bindings
                  end in
  mkTsParamScope (tsFunctionOwnerName decl) bindings.

(** The innermost scope is the last.
    go: pkg/semantics/ts_scope.go#appendTSLocalBindings *)
Definition appendTSLocalBindings (scopes : list tsParamScope) (names : gset string) : list tsParamScope :=
  if bool_decide (names = ∅) || match scopes with [] => true | _ => false end then scopes
  else scopes ++ [mkTsParamScope "" (marked false names)].

(** go: pkg/semantics/ts_scope.go#paramNamesInScope *)
Definition paramNamesInScope (bindings : gmap string bool) : gset string :=
  dom (filter (λ nb, nb.2 = true) bindings).

(** go: pkg/semantics/ts_scope.go#tsCurrentFunctionParamNames *)
Definition tsCurrentFunctionParamNames (scopes : list tsParamScope) : gset string :=
  match List.find (λ s, sc_ownerName s != "") (rev scopes) with
  | Some s => paramNamesInScope (sc_bindings s)
  | None => ∅
  end.
End unicode.
