(* ===== verification/TsFeatures.v ===== *)
(** * Structural metrics and findings of a TypeScript file

    [computeTSFeatures] ([ts_features.go]) walks a TypeScript or TSX tree once and
    collects the counters of [StructuralMetrics] and the findings of three detectors:
    tight coupling in constructors ([ts_tight_coupling.go]), hidden mutation of
    parameters ([ts_mutates_input*.go]) and check-then-act races ([ts_toctou*.go]).

    The walk inherits the block depth, the function and constructor it is in and a stack
    of scopes.  [ts_findings_exact] and [ts_metrics_exact] separate the two: what a node
    inherits follows from its way up ([ts_down]), and what is collected is a fold over
    the nodes in pre-order. *)

From S2P Require Import Prelude GoText Semantics Syntax GoUnquote Nesting TsSyntax TsScope.

(** ** The collector *)

(** go: pkg/semantics/ts_mutates_input.go#tsMutatesInputKey *)
Record tsMutatesInputKey := mkTsMutatesInputKey {
  tmk_ownerName : string; tmk_paramName : string; tmk_startByte : N; tmk_endByte : N
}.

(** go: pkg/semantics/ts_toctou.go#tsLocationKey *)
Record tsLocationKey := mkTsLocationKey { tlk_startByte : N; tlk_endByte : N }.

#[export] Instance tsMutatesInputKey_eq_dec : EqDecision tsMutatesInputKey.
Proof. solve_decision. Defined.
#[export] Program Instance tsMutatesInputKey_countable : Countable tsMutatesInputKey :=
  inj_countable' (λ k, (tmk_ownerName k, tmk_paramName k, tmk_startByte k, tmk_endByte k))
    (λ t, mkTsMutatesInputKey t.1.1.1 t.1.1.2 t.1.2 t.2) _.
Next Obligation. by intros []. Qed.

#[export] Instance tsLocationKey_eq_dec : EqDecision tsLocationKey.
Proof. solve_decision. Defined.
#[export] Program Instance tsLocationKey_countable : Countable tsLocationKey :=
  inj_countable' (λ k, (tlk_startByte k, tlk_endByte k)) (λ t, mkTsLocationKey t.1 t.2) _.
Next Obligation. by intros []. Qed.

(** go: pkg/semantics/ts_features.go#tsFeatureCollector *)
Record tsFeatureCollector := mkTsFeatureCollector {
  tfc_metrics : StructuralMetrics; tfc_findings : list Finding;
  tfc_mutatesInputSeen : gset tsMutatesInputKey; tfc_toctouActSeen : gset tsLocationKey
}.

Definition new_ts_collector : tsFeatureCollector := mkTsFeatureCollector zero_metrics [] ∅ ∅.

Definition ts_add_finding (f : Finding) (c : tsFeatureCollector) : tsFeatureCollector :=
  mkTsFeatureCollector (tfc_metrics c) (tfc_findings c ++ [f]) (tfc_mutatesInputSeen c) (tfc_toctouActSeen c).

Definition ts_on_metrics (f : StructuralMetrics → StructuralMetrics) (c : tsFeatureCollector) : tsFeatureCollector :=
  mkTsFeatureCollector (f (tfc_metrics c)) (tfc_findings c) (tfc_mutatesInputSeen c) (tfc_toctouActSeen c).

(** ** [ts_mutates_input_roots.go] *)

Definition resolveRoot_body (rec : option Node → option Node) (expr : option Node) : option Node :=
  match expr with
  | None => None
  | Some e =>
      if Kind e == "identifier" then expr
      else if one_of ["member_expression"; "subscript_expression"] (Kind e) then rec (ChildByFieldName e "object")
      else if one_of ["parenthesized_expression"; "non_null_expression"] (Kind e) then rec (tsWrappedExpressionInner e)
      else None
  end.

(** go: pkg/semantics/ts_mutates_input_roots.go#tsResolveRootIdentifier *)
Definition tsResolveRootIdentifier : option Node → option Node := descend oheight (λ _, None) resolveRoot_body.

(** go: pkg/semantics/ts_mutates_input_roots.go#tsMutationBase *)
Definition tsMutationBase (expr : option Node) : option Node :=
  match expr with
  | None => None
  | Some e =>
      if (Kind e != "member_expression") && (Kind e != "subscript_expression") then None
      else tsResolveRootIdentifier (ChildByFieldName e "object")
  end.

(** ** [ts_mutates_input.go] *)

(** The scope a name belongs to, innermost first: its owner when the name is one of its
    parameters. *)
Fixpoint owner_of (name : string) (scopes : list tsParamScope) : option string :=
  match scopes with
  | [] => None
  | s :: scopes =>
      match sc_bindings s !! name with
      | None => owner_of name scopes
      | Some isParam => if isParam : bool then Some (sc_ownerName s) else None
      end
  end.

(** go: pkg/semantics/ts_mutates_input.go#recordMutatesInput *)
Definition recordMutatesInput (base evidence : Node) (scopes : list tsParamScope) (c : tsFeatureCollector) : tsFeatureCollector :=
  let name := Utf8Text base in
  match owner_of name (rev scopes) with
  | None => c
  | Some owner =>
      let loc := locationFromNode evidence in
      let key := mkTsMutatesInputKey owner name (loc_StartByte loc) (loc_EndByte loc) in
      if bool_decide (key ∈ tfc_mutatesInputSeen c) then c
      else
        let c := mkTsFeatureCollector (tfc_metrics c) (tfc_findings c) ({[key]} ∪ tfc_mutatesInputSeen c) (tfc_toctouActSeen c) in
        ts_add_finding (newMutatesInputFinding owner name evidence) c
  end.

(** ** [ts_mutates_input_writes.go], [ts_mutates_input_method_calls.go] *)

Definition assignmentTargets_body (scopes : list tsParamScope)
    (rec : option Node * tsFeatureCollector → tsFeatureCollector) (x : option Node * tsFeatureCollector) : tsFeatureCollector :=
  match x with
  | (None, c) => c
  | (Some n, c) =>
      match tsMutationBase (Some n) with
      | Some base => recordMutatesInput base n scopes c
      | None =>
          if Kind n == "parenthesized_expression" then rec (tsWrappedExpressionInner n, c)
          else match pattern_field (Kind n) with
          | Some f => rec (ChildByFieldName n f, c)
          | None =>
              if one_of ["object_pattern"; "array_pattern"] (Kind n)
              then fold_left (λ c child, rec (Some child, c)) (children n) c
              else c
          end
      end
  end.

(** go: pkg/semantics/ts_mutates_input_writes.go#recordMutatesInputAssignmentTargets *)
Definition recordMutatesInputAssignmentTargets (n : option Node) (scopes : list tsParamScope)
    (c : tsFeatureCollector) : tsFeatureCollector :=
  descend (λ x, oheight (fst x)) snd (assignmentTargets_body scopes) (n, c).

(** go: pkg/semantics/ts_mutates_input_writes.go#checkMutatesInputAssignment *)
Definition checkMutatesInputAssignment (n : Node) (scopes : list tsParamScope) (c : tsFeatureCollector) : tsFeatureCollector :=
  match ChildByFieldName n "left" with
  | Some lhs =>
      match tsMutationBase (Some lhs) with
      | Some base => recordMutatesInput base lhs scopes c
      | None => recordMutatesInputAssignmentTargets (Some lhs) scopes c
      end
  | None => recordMutatesInputAssignmentTargets None scopes c
  end.

(** go: pkg/semantics/ts_mutates_input_writes.go#checkMutatesInputUpdate *)
Definition checkMutatesInputUpdate (n : Node) (scopes : list tsParamScope) (c : tsFeatureCollector) : tsFeatureCollector :=
  match ChildByFieldName n "argument" with
  | Some target =>
      match tsMutationBase (Some target) with
      | Some base => recordMutatesInput base target scopes c
      | None => c
      end
  | None => c
  end.

(** go: pkg/semantics/ts_mutates_input_writes.go#checkMutatesInputDelete *)
Definition checkMutatesInputDelete (n : Node) (scopes : list tsParamScope) (c : tsFeatureCollector) : tsFeatureCollector :=
  match ChildByFieldName n "operator" with
  | None => c
  | Some operator =>
      if Utf8Text operator != "delete" then c
      else match tsMutationBase (ChildByFieldName n "argument") with
      | None => c
      | Some base => recordMutatesInput base n scopes c
      end
  end.

(** go: pkg/semantics/ts_mutates_input_method_calls.go#mutatingTSMethodNames *)
Definition mutatingTSMethodNames : list string :=
  ["copyWithin"; "fill"; "pop"; "push"; "reverse"; "shift"; "sort"; "splice"; "unshift"; "set"; "add"; "delete"; "clear"].

(** go: pkg/semantics/ts_mutates_input_method_calls.go#tsMutatingMethodReceiver *)
Definition tsMutatingMethodReceiver (fn : Node) : option Node * string :=
  if Kind fn == "member_expression" then
    match ChildByFieldName fn "property" with
    | None => (None, "")
    | Some property => (ChildByFieldName fn "object", Utf8Text property)
    end
  else if Kind fn == "subscript_expression" then
    match tsStringLiteralText (ChildByFieldName fn "index") with
    | None => (None, "")
    | Some methodName => (ChildByFieldName fn "object", methodName)
    end
  else (None, "").

(** go: pkg/semantics/ts_mutates_input_method_calls.go#checkMutatesInputCall *)
Definition checkMutatesInputCall (n : Node) (scopes : list tsParamScope) (c : tsFeatureCollector) : tsFeatureCollector :=
  match ChildByFieldName n "function" with
  | None => c
  | Some fn =>
      match tsMutatingMethodReceiver fn with
      | (None, _) => c
      | (Some object, methodName) =>
          if negb (one_of mutatingTSMethodNames methodName) then c
          else match tsResolveRootIdentifier (Some object) with
          | None => c
          | Some base => recordMutatesInput base fn scopes c
          end
      end
  end.

(** go: pkg/semantics/ts_mutates_input.go#checkMutatesInputForNode *)
Definition checkMutatesInputForNode (n : Node) (scopes : list tsParamScope) (c : tsFeatureCollector) : tsFeatureCollector :=
  match scopes with
  | [] => c
  | _ =>
      if one_of assignment_kinds (Kind n) then checkMutatesInputAssignment n scopes c
      else if Kind n == "unary_expression" then checkMutatesInputDelete n scopes c
      else if Kind n == "call_expression" then checkMutatesInputCall n scopes c
      else if Kind n == "update_expression" then checkMutatesInputUpdate n scopes c
      else c
  end.

(** ** [ts_toctou_act_calls.go], [ts_toctou.go] *)

(** go: pkg/semantics/ts_toctou_act_calls.go#tsToctouActCallNames *)
Definition tsToctouActCallNames : list string := ["readFileSync"; "writeFileSync"; "appendFileSync"; "unlinkSync"; "rmSync"].

(** go: pkg/semantics/ts_toctou_act_calls.go#tsToctouActMatch *)
Definition tsToctouActMatch (n : Node) (pathText : string) : bool :=
  if Kind n != "call_expression" then false
  else match tsCallFunctionName (Some n) with
  | None => false
  | Some name =>
      if negb (one_of tsToctouActCallNames name) then false
      else match tsCallFirstArgument n with
           | Some arg => Utf8Text arg == pathText
           | None => false
           end
  end.

Definition findTSToctouActCall_body (pathText : string) (rec : Node → option Node) (n : Node) : option Node :=
  if tsToctouActMatch n pathText then Some n else first_some rec (children n).

(** go: pkg/semantics/ts_toctou_act_calls.go#findTSToctouActCall *)
Definition findTSToctouActCall (n : Node) (pathText : string) : option Node :=
  descend nheight (λ _, None) (findTSToctouActCall_body pathText) n.

(** go: pkg/semantics/ts_toctou.go#tsToctouCallArg *)
Definition tsToctouCallArg (call : option Node) (wantName : string) : option Node :=
  match call, tsCallFunctionName call with
  | Some c, Some name => if name != wantName then None else tsCallFirstArgument c
  | _, _ => None
  end.

(** go: pkg/semantics/ts_toctou.go#newTOCTOUCheckThenActFinding *)
Definition newTOCTOUCheckThenActFinding (checkCall actCall : Node) (pathText : string) : Finding :=
  mkFinding "toctou_check_then_act" pathText (locationFromNode actCall) "medium"
    (Utf8Text checkCall +:+ " ... " +:+ Utf8Text actCall)
    "Don't gate a filesystem operation behind an existsSync check on the same path -- the file can be created, removed, or replaced between the check and the act (CWE-367/TOCTOU). Call the operation directly and handle its ENOENT (or equivalent) error instead (EAFP-style); fs.promises.access does not close this race either, since it is still a separate check before the act."
    "find-bugs".

(** go: pkg/semantics/ts_toctou.go#checkTOCTOUCheckThenAct *)
Definition checkTOCTOUCheckThenAct (n : Node) (c : tsFeatureCollector) : tsFeatureCollector :=
  match unwrapTSParen (ChildByFieldName n "condition") with
  | None => c
  | Some cond =>
      match tsToctouCallArg (Some cond) "existsSync" with
      | None => c
      | Some checkArg =>
          match (if Kind n == "if_statement" then ChildByFieldName n "consequence" else ChildByFieldName n "body") with
          | None => c
          | Some body =>
              match findTSToctouActCall body (Utf8Text checkArg) with
              | None => c
              | Some act =>
                  let loc := locationFromNode act in
                  let key := mkTsLocationKey (loc_StartByte loc) (loc_EndByte loc) in
                  if bool_decide (key ∈ tfc_toctouActSeen c) then c
                  else
                    let c := mkTsFeatureCollector (tfc_metrics c) (tfc_findings c) (tfc_mutatesInputSeen c)
                               ({[key]} ∪ tfc_toctouActSeen c) in
                    ts_add_finding (newTOCTOUCheckThenActFinding cond act (Utf8Text checkArg)) c
              end
          end
      end
  end.

(** ** [ts_tight_coupling.go] *)

(** go: pkg/semantics/ts_tight_coupling.go#checkTightCouplingAssignment *)
Definition checkTightCouplingAssignment (n : Node) (c : tsFeatureCollector) : tsFeatureCollector :=
  match ChildByFieldName n "left" with
  | None => c
  | Some lhs =>
      if (Kind lhs != "member_expression") && (Kind lhs != "subscript_expression") then c
      else if negb (kind_is (ChildByFieldName lhs "object") "this") then c
      else match ChildByFieldName n "right" with
      | None => c
      | Some rhs =>
          if Kind rhs != "new_expression" then c
          else
            let name := match ChildByFieldName rhs "constructor" with Some ctor => Utf8Text ctor | None => "" end in
            ts_add_finding (plain_finding "tight_coupling" name (locationFromNode rhs)) c
      end
  end.

(** go: pkg/semantics/ts_features.go#isConstructorMethod *)
Definition isConstructorMethod (method : Node) : bool :=
  match ChildByFieldName method "name" with
  | Some nameNode => (Kind nameNode == "property_identifier") && (Utf8Text nameNode == "constructor")
  | None => false
  end.

(** ** The walk *)

(** What a descent inherits. *)
Record descent := mkDescent { d_blockDepth : Z; d_inFunc : bool; d_inCtorBody : bool; d_scopes : list tsParamScope }.

Section walk.
Context {U : Unicode}.

(** The two scopes a function-like node opens. *)
Definition open_scopes (n : Node) (scopes : list tsParamScope) : list tsParamScope :=
  let scope := newTSParamScope n in
  appendTSLocalBindings (scopes ++ [scope]) (tsFunctionScopedBindingNames n (sc_bindings scope)).

(** go: pkg/semantics/ts_features.go#walkEnterNode *)
Definition walkEnterNode (n : Node) (d : descent) (c : tsFeatureCollector) : descent * tsFeatureCollector :=
  if Kind n == "if_statement" then
    (d, checkTOCTOUCheckThenAct n (ts_on_metrics (increment cIfs) c))
  else if Kind n == "while_statement" then (d, checkTOCTOUCheckThenAct n c)
  else if (Kind n == "for_statement") || (Kind n == "for_in_statement") then (d, ts_on_metrics (increment cFors) c)
  else if Kind n == "switch_statement" then (d, ts_on_metrics (increment cExprSwitches) c)
  else if Kind n == "method_definition" then
    (mkDescent 0 true (isConstructorMethod n) (open_scopes n (d_scopes d)), ts_on_metrics (increment cMethods) c)
  else if function_like n then
    (mkDescent 0 true (if Kind n != "arrow_function" then false else d_inCtorBody d) (open_scopes n (d_scopes d)),
     ts_on_metrics (increment cFunctions) c)
  else if Kind n == "statement_block" then
    if d_inFunc d then
      let blockDepth := (d_blockDepth d + 1)%Z in
      (mkDescent blockDepth (d_inFunc d) (d_inCtorBody d) (d_scopes d),
       if (met_MaxNestingDepth (tfc_metrics c) <? blockDepth)%Z
       then ts_on_metrics (set_MaxNestingDepth blockDepth) c else c)
    else (d, c)
  else if d_inCtorBody d && (Kind n == "assignment_expression") then (d, checkTightCouplingAssignment n c)
  else (d, c).

Definition with_scopes (d : descent) (scopes : list tsParamScope) : descent :=
  mkDescent (d_blockDepth d) (d_inFunc d) (d_inCtorBody d) scopes.

(** What a child leaves to its later siblings. *)
Definition after_child (currentParams : gset string) (child : Node) (scopes : list tsParamScope) : list tsParamScope :=
  let scopes := appendTSLocalBindings scopes (tsLocalBindingNames child currentParams) in
  let scopes := appendTSLocalBindings scopes (tsReboundParameterNames child) in
  appendTSLocalBindings scopes (tsVarBindingNames child currentParams).

(** go: pkg/semantics/ts_features.go#walkScopedChildBlock *)
Definition walkScopedChildBlock (rec : Node * descent * tsFeatureCollector → tsFeatureCollector)
    (n : Node) (d : descent) (scopeNames : Node → gset string) (c : tsFeatureCollector) : tsFeatureCollector :=
  let scopes := appendTSLocalBindings (d_scopes d) (scopeNames n) in
  let currentParams := tsCurrentFunctionParamNames scopes in
  snd (fold_left (λ '(scopes, c) child,
         let c := rec (child, with_scopes d scopes, c) in
         (after_child currentParams child scopes, c)) (children n) (scopes, c)).

(** The names a block, switch body or case binds from its start on, for the three kinds
    of node whose children are walked as a sequence of statements. *)
Definition scope_names (n : Node) : option (Node → gset string) :=
  if Kind n == "statement_block" then Some tsBlockScopedBindingNames
  else if Kind n == "switch_body" then Some tsSwitchBodyBindingNames
  else if (Kind n == "switch_case") || (Kind n == "switch_default") then Some tsBlockScopedBindingNames
  else None.

(** The bindings of a catch clause or loop header. *)
Definition header_scopes (n : Node) (scopes : list tsParamScope) : list tsParamScope :=
  let scopes :=
    if Kind n == "catch_clause" then
      let names := tsCatchBindingNames n in
      if bool_decide (names = ∅) then scopes else appendTSLocalBindings scopes names
    else scopes in
  let names := tsControlFlowBindingNames n in
  if bool_decide (names = ∅) then scopes else appendTSLocalBindings scopes names.

Definition ts_walk_body (rec : Node * descent * tsFeatureCollector → tsFeatureCollector)
    (x : Node * descent * tsFeatureCollector) : tsFeatureCollector :=
  let '(n, d, c) := x in
  let d := with_scopes d (header_scopes n (d_scopes d)) in
  let '(d, c) := walkEnterNode n d c in
  let c := checkMutatesInputForNode n (d_scopes d) c in
  match scope_names n with
  | Some names => walkScopedChildBlock rec n d names c
  | None => fold_left (λ c child, rec (child, d, c)) (children n) c
  end.

(** go: pkg/semantics/ts_features.go#walk *)
Definition walk (n : Node) (d : descent) (c : tsFeatureCollector) : tsFeatureCollector :=
  descend (λ x, nheight (fst (fst x))) snd ts_walk_body (n, d, c).

(** go: pkg/semantics/ts_features.go#computeTSFeatures *)
Definition computeTSFeatures (root : Node) : StructuralMetrics * list Finding :=
  let c := walk root (mkDescent 0 false false []) new_ts_collector in
  (tfc_metrics c, tfc_findings c).
End walk.

#[global] Arguments recordMutatesInputAssignmentTargets : simpl never.
#[global] Arguments walk {U} : simpl never.

(** ** The recursions are the ones of the code *)

Lemma wrapped_inner_height n : oheight (tsWrappedExpressionInner n) < nheight n.
Proof.
  unfold tsWrappedExpressionInner. destruct (first_some _ _) as [m|] eqn:E; [|apply find_child_height].
  apply first_some_Some in E as (f & _ & E). simpl. apply children_height. by eapply ChildByFieldName_In.
Qed.
#[export] Hint Resolve wrapped_inner_height : height.

Lemma unwrapTSParen_eq n : unwrapTSParen n = unwrapTSParen_body unwrapTSParen n.
Proof. unfold unwrapTSParen at 1. rewrite descend_eq; [done|descends_tac]. Qed.

Lemma unwrapTSParen_height n : oheight (unwrapTSParen n) ≤ oheight n.
Proof.
  destruct n as [n|]; [|done]. induction n as [n IH] using node_height_ind.
  rewrite unwrapTSParen_eq. unfold unwrapTSParen_body. destruct (one_of _ _); [|done].
  destruct (tsWrappedExpressionInner n) as [i|] eqn:E; [|done].
  assert (Hi : nheight i < nheight n) by smaller. specialize (IH i Hi). cbn in *. lia.
Qed.
#[export] Hint Resolve unwrapTSParen_height : height.

Lemma tsResolveRootIdentifier_eq n : tsResolveRootIdentifier n = resolveRoot_body tsResolveRootIdentifier n.
Proof. unfold tsResolveRootIdentifier at 1. rewrite descend_eq; [done|descends_tac]. Qed.

Lemma findTSToctouActCall_eq n p : findTSToctouActCall n p
  = if tsToctouActMatch n p then Some n else first_some (λ c, findTSToctouActCall c p) (children n).
Proof. unfold findTSToctouActCall at 1. rewrite descend_eq; [done|descends_tac]. Qed.

Lemma assignmentTargets_eq n scopes c :
  recordMutatesInputAssignmentTargets n scopes c
  = assignmentTargets_body scopes (λ x, recordMutatesInputAssignmentTargets (fst x) scopes (snd x)) (n, c).
Proof. unfold recordMutatesInputAssignmentTargets at 1. rewrite descend_eq; [done|descends_tac]. Qed.

(** ** Observations

    What a node shows, before repetitions are left out. *)

Inductive observation :=
| Race (checkCall actCall : Node) (pathText : string)
| Coupling (name : string) (rhs : Node)
| Mutation (owner param : string) (evidence : Node).

Definition obs_finding (o : observation) : Finding :=
  match o with
  | Race ck act path => newTOCTOUCheckThenActFinding ck act path
  | Coupling name rhs => plain_finding "tight_coupling" name (locationFromNode rhs)
  | Mutation owner param ev => newMutatesInputFinding owner param ev
  end.

(** Races are told apart by the act, mutations by owner, parameter and place; couplings
    are all kept. *)
Definition obs_key (o : observation) : option (tsMutatesInputKey + tsLocationKey) :=
  match o with
  | Race _ act _ => Some (inr (mkTsLocationKey (StartByte act) (EndByte act)))
  | Coupling _ _ => None
  | Mutation owner param ev => Some (inl (mkTsMutatesInputKey owner param (StartByte ev) (EndByte ev)))
  end.

Definition seen (c : tsFeatureCollector) : gset (tsMutatesInputKey + tsLocationKey) :=
  set_map inl (tfc_mutatesInputSeen c) ∪ set_map inr (tfc_toctouActSeen c).

(** The collector after some observations. *)
Definition observes (c : tsFeatureCollector) (os : list observation) (c' : tsFeatureCollector) : Prop :=
  tfc_findings c' = tfc_findings c ++ map obs_finding (keep_first obs_key (seen c) os)
  ∧ seen c' = keys obs_key os ∪ seen c
  ∧ tfc_metrics c' = tfc_metrics c.

(** The same, up to the metrics. *)
Definition collects (c : tsFeatureCollector) (os : list observation) (c' : tsFeatureCollector) : Prop :=
  tfc_findings c' = tfc_findings c ++ map obs_finding (keep_first obs_key (seen c) os)
  ∧ seen c' = keys obs_key os ∪ seen c.

Lemma observes_refl c : observes c [] c.
Proof. split_and!; [by rewrite app_nil_r| |done]. unfold keys. cbn. set_solver. Qed.

Lemma keys_app {A K} `{Countable K} (key : A → option K) l1 l2 : keys key (l1 ++ l2) = keys key l1 ∪ keys key l2.
Proof. unfold keys. rewrite omap_app. set_solver. Qed.

Lemma ts_collects_trans c1 c2 c3 l1 l2 : collects c1 l1 c2 → collects c2 l2 c3 → collects c1 (l1 ++ l2) c3.
Proof.
  intros (F1 & T1) (F2 & T2). split.
  - by rewrite F2, F1, T1, keep_first_app, map_app, (assoc_L (++)).
  - rewrite T2, T1, keys_app. set_solver.
Qed.

Lemma observes_trans c1 c2 c3 l1 l2 : observes c1 l1 c2 → observes c2 l2 c3 → observes c1 (l1 ++ l2) c3.
Proof.
  intros (F1 & T1 & M1) (F2 & T2 & M2).
  destruct (ts_collects_trans c1 c2 c3 l1 l2) as [F T]; [done|done|]. split_and!; [done|done|congruence].
Qed.

Lemma observes_collects c os c' : observes c os c' → collects c os c'.
Proof. intros (F & T & _). by split. Qed.

Lemma seen_inl c k : inl k ∈ seen c ↔ k ∈ tfc_mutatesInputSeen c.
Proof. unfold seen. set_solver. Qed.
Lemma seen_inr c k : inr k ∈ seen c ↔ k ∈ tfc_toctouActSeen c.
Proof. unfold seen. set_solver. Qed.

Definition mutation_of (base evidence : Node) (scopes : list tsParamScope) : list observation :=
  match owner_of (Utf8Text base) (rev scopes) with
  | Some owner => [Mutation owner (Utf8Text base) evidence]
  | None => []
  end.

Lemma recordMutatesInput_observes base ev scopes c :
  observes c (mutation_of base ev scopes) (recordMutatesInput base ev scopes c).
Proof.
  unfold recordMutatesInput, mutation_of. destruct (owner_of _ _) as [owner|]; [|apply observes_refl].
  unfold observes. rewrite keep_first_step. cbn [obs_key].
  change (loc_StartByte (locationFromNode ev)) with (StartByte ev).
  change (loc_EndByte (locationFromNode ev)) with (EndByte ev).
  set (k := mkTsMutatesInputKey owner (Utf8Text base) (StartByte ev) (EndByte ev)).
  assert (Hk : keys obs_key [Mutation owner (Utf8Text base) ev] = {[inl k]}).
  { unfold keys. cbn. by rewrite (right_id_L ∅ (∪)). }
  rewrite Hk. pose proof (seen_inl c k) as Hs.
  case_bool_decide as H1; case_bool_decide as H2; try tauto; split_and!; cbn; rewrite ?app_nil_r; try done.
  - set_solver.
  - unfold seen. cbn. rewrite set_map_union_L, set_map_singleton_L. set_solver.
Qed.

(** ** What each detector shows *)

Definition pattern_targets_body (rec : option Node → list (Node * Node)) (n : option Node) : list (Node * Node) :=
  match n with
  | None => []
  | Some m =>
      match tsMutationBase n with
      | Some base => [(base, m)]
      | None =>
          if Kind m == "parenthesized_expression" then rec (tsWrappedExpressionInner m)
          else match pattern_field (Kind m) with
          | Some f => rec (ChildByFieldName m f)
          | None =>
              if one_of ["object_pattern"; "array_pattern"] (Kind m)
              then flat_map (λ child, rec (Some child)) (children m) else []
          end
      end
  end.

(** The property and element targets of an assignment, with the variable each is rooted
    at: inside parentheses, and anywhere in a destructuring pattern. *)
Definition pattern_targets : option Node → list (Node * Node) := descend oheight (λ _, []) pattern_targets_body.

Lemma pattern_targets_eq n : pattern_targets n = pattern_targets_body pattern_targets n.
Proof. unfold pattern_targets at 1. rewrite descend_eq; [done|descends_tac]. Qed.

Definition mutations (scopes : list tsParamScope) (targets : list (Node * Node)) : list observation :=
  flat_map (λ t, mutation_of (fst t) (snd t) scopes) targets.

Lemma fold_observes {X} (f : X → tsFeatureCollector → tsFeatureCollector) (g : X → list observation) l c :
  (∀ x c, In x l → observes c (g x) (f x c)) → observes c (flat_map g l) (fold_left (λ c x, f x c) l c).
Proof.
  revert c. induction l as [|x l IH]; intros c H; [apply observes_refl|]. cbn [flat_map fold_left].
  eapply observes_trans; [apply H; by left|]. apply IH. intros. apply H. by right.
Qed.

Lemma assignmentTargets_observes n scopes c :
  observes c (mutations scopes (pattern_targets n)) (recordMutatesInputAssignmentTargets n scopes c).
Proof.
  destruct n as [n|]; [|apply observes_refl].
  revert c. induction n as [n IH] using node_height_ind. intros c.
  rewrite assignmentTargets_eq, pattern_targets_eq. unfold assignmentTargets_body, pattern_targets_body. cbn [fst snd].
  assert (Hrec : ∀ m c, oheight m < nheight n →
    observes c (mutations scopes (pattern_targets m)) (recordMutatesInputAssignmentTargets m scopes c)).
  { intros [m|] c' Hm; [by apply IH|apply observes_refl]. }
  destruct (tsMutationBase (Some n)) as [b|].
  { cbn. rewrite app_nil_r. apply recordMutatesInput_observes. }
  destruct (_ == _); [apply Hrec; smaller|].
  destruct (pattern_field (Kind n)); [apply Hrec; smaller|].
  destruct (one_of _ _); [|apply observes_refl].
  unfold mutations. rewrite flat_map_flat_map.
  apply (fold_observes (λ child c, recordMutatesInputAssignmentTargets (Some child) scopes c)).
  intros m c' Hm. apply Hrec. smaller.
Qed.

(** The writes an expression makes: each target with its root and the evidence. *)
Definition write_targets (n : Node) : list (Node * Node) :=
  let through target evidence := match tsMutationBase target with Some base => [(base, evidence)] | None => [] end in
  if one_of assignment_kinds (Kind n) then pattern_targets (ChildByFieldName n "left")
  else if Kind n == "unary_expression" then
    match ChildByFieldName n "operator" with
    | Some operator => if Utf8Text operator == "delete" then through (ChildByFieldName n "argument") n else []
    | None => []
    end
  else if Kind n == "call_expression" then
    match ChildByFieldName n "function" with
    | Some fn =>
        match tsMutatingMethodReceiver fn with
        | (Some object, methodName) =>
            if one_of mutatingTSMethodNames methodName
            then match tsResolveRootIdentifier (Some object) with Some base => [(base, fn)] | None => [] end
            else []
        | (None, _) => []
        end
    | None => []
    end
  else if Kind n == "update_expression" then
    match ChildByFieldName n "argument" with
    | Some target => through (Some target) target
    | None => []
    end
  else [].

Lemma mutations_one scopes base ev : mutations scopes [(base, ev)] = mutation_of base ev scopes.
Proof. unfold mutations. cbn. apply app_nil_r. Qed.

Lemma mutations_no_scopes targets : mutations [] targets = [].
Proof. by apply flat_map_nil. Qed.

Lemma checkMutatesInputForNode_observes n scopes c :
  observes c (mutations scopes (write_targets n)) (checkMutatesInputForNode n scopes c).
Proof.
  unfold checkMutatesInputForNode. destruct scopes as [|s scopes]; [rewrite mutations_no_scopes; apply observes_refl|].
  generalize (s :: scopes) as ss. clear s scopes. intros ss. unfold write_targets.
  destruct (one_of assignment_kinds (Kind n)).
  { unfold checkMutatesInputAssignment. destruct (ChildByFieldName n "left") as [lhs|]; [|apply assignmentTargets_observes].
    rewrite pattern_targets_eq. unfold pattern_targets_body.
    destruct (tsMutationBase (Some lhs)) as [b|] eqn:E; [rewrite mutations_one; apply recordMutatesInput_observes|].
    pose proof (assignmentTargets_observes (Some lhs) ss c) as H.
    rewrite pattern_targets_eq in H. unfold pattern_targets_body in H. by rewrite E in H. }
  destruct (Kind n == "unary_expression").
  { unfold checkMutatesInputDelete. destruct (ChildByFieldName n "operator") as [op|]; [|apply observes_refl].
    destruct (Utf8Text op == "delete"); [|apply observes_refl]. cbn [negb].
    destruct (tsMutationBase _) as [b|]; [rewrite mutations_one; apply recordMutatesInput_observes|apply observes_refl]. }
  destruct (Kind n == "call_expression").
  { unfold checkMutatesInputCall. destruct (ChildByFieldName n "function") as [fn|]; [|apply observes_refl].
    destruct (tsMutatingMethodReceiver fn) as [[obj|] m]; [|apply observes_refl].
    destruct (one_of mutatingTSMethodNames m); [|apply observes_refl]. cbn [negb].
    destruct (tsResolveRootIdentifier _) as [b|]; [rewrite mutations_one; apply recordMutatesInput_observes|apply observes_refl]. }
  destruct (Kind n == "update_expression"); [|apply observes_refl].
  unfold checkMutatesInputUpdate. destruct (ChildByFieldName n "argument") as [t|]; [|apply observes_refl].
  destruct (tsMutationBase _) as [b|]; [rewrite mutations_one; apply recordMutatesInput_observes|apply observes_refl].
Qed.

(** The race an [if] or [while] opens. *)
Definition race_of (n : Node) : list observation :=
  match unwrapTSParen (ChildByFieldName n "condition") with
  | None => []
  | Some cond =>
      match tsToctouCallArg (Some cond) "existsSync" with
      | None => []
      | Some checkArg =>
          match (if Kind n == "if_statement" then ChildByFieldName n "consequence" else ChildByFieldName n "body") with
          | None => []
          | Some body =>
              match findTSToctouActCall body (Utf8Text checkArg) with
              | None => []
              | Some act => [Race cond act (Utf8Text checkArg)]
              end
          end
      end
  end.

Lemma checkTOCTOU_observes n c : observes c (race_of n) (checkTOCTOUCheckThenAct n c).
Proof.
  unfold checkTOCTOUCheckThenAct, race_of.
  destruct (unwrapTSParen _) as [cond|]; [|apply observes_refl].
  destruct (tsToctouCallArg _ _) as [arg|]; [|apply observes_refl].
  destruct (if Kind n == "if_statement" then _ else _) as [body|]; [|apply observes_refl].
  destruct (findTSToctouActCall body _) as [act|]; [|apply observes_refl].
  unfold observes. rewrite keep_first_step. cbn [obs_key].
  change (loc_StartByte (locationFromNode act)) with (StartByte act).
  change (loc_EndByte (locationFromNode act)) with (EndByte act).
  set (k := mkTsLocationKey (StartByte act) (EndByte act)).
  assert (Hk : keys obs_key [Race cond act (Utf8Text arg)] = {[inr k]}).
  { unfold keys. cbn. by rewrite (right_id_L ∅ (∪)). }
  rewrite Hk. pose proof (seen_inr c k) as Hs.
  case_bool_decide as H1; case_bool_decide as H2; try tauto; split_and!; cbn; rewrite ?app_nil_r; try done.
  - set_solver.
  - unfold seen. cbn. rewrite set_map_union_L, set_map_singleton_L. set_solver.
Qed.

Definition coupling_of (n : Node) : list observation :=
  match ChildByFieldName n "left", ChildByFieldName n "right" with
  | Some lhs, Some rhs =>
      if ((Kind lhs == "member_expression") || (Kind lhs == "subscript_expression"))
         && kind_is (ChildByFieldName lhs "object") "this" && (Kind rhs == "new_expression")
      then [Coupling (match ChildByFieldName rhs "constructor" with Some ctor => Utf8Text ctor | None => "" end) rhs]
      else []
  | _, _ => []
  end.

Lemma checkTightCoupling_observes n c : observes c (coupling_of n) (checkTightCouplingAssignment n c).
Proof.
  unfold checkTightCouplingAssignment, coupling_of.
  destruct (ChildByFieldName n "left") as [lhs|]; [|apply observes_refl].
  destruct (Kind lhs == "member_expression") eqn:E1, (Kind lhs == "subscript_expression") eqn:E2; cbn [negb andb orb];
    try (destruct (ChildByFieldName n "right"); apply observes_refl);
    (destruct (kind_is _ "this"); cbn [negb andb];
      [|destruct (ChildByFieldName n "right"); apply observes_refl]);
    (destruct (ChildByFieldName n "right") as [rhs|]; [|apply observes_refl]);
    (destruct (Kind rhs == "new_expression"); cbn [negb]; [|apply observes_refl]);
    (split_and!; [done| |done]; unfold keys; cbn; set_solver).
Qed.

(** ** The walk, taken apart *)

Section exact.
Context {U : Unicode}.

Lemma ts_walk_eq n d c : walk n d c = ts_walk_body (λ x, walk (fst (fst x)) (snd (fst x)) (snd x)) (n, d, c).
Proof.
  unfold walk at 1. rewrite descend_eq; [done|]. intros g h x H.
  unfold ts_walk_body, walkScopedChildBlock. descends_with H.
Qed.

(** What holds inside a node that is entered with [d]. *)
Definition enter (n : Node) (d : descent) : descent :=
  fst (walkEnterNode n (with_scopes d (header_scopes n (d_scopes d))) new_ts_collector).

(** The scopes the children of a block see one after the other. *)
Fixpoint scopes_after_each (currentParams : gset string) (d : descent) (scopes : list tsParamScope) (cs : list Node) :
    list (option descent) :=
  match cs with
  | [] => []
  | c :: cs => Some (with_scopes d scopes) :: scopes_after_each currentParams d (after_child currentParams c scopes) cs
  end.

(** What the children of a node inherit. *)
Definition ts_down (n : Node) (d : descent) : list (option descent) :=
  let d := enter n d in
  match scope_names n with
  | Some names =>
      let scopes := appendTSLocalBindings (d_scopes d) (names n) in
      scopes_after_each (tsCurrentFunctionParamNames scopes) d scopes (children n)
  | None => map (λ _, Some d) (children n)
  end.

Definition ts_counter_of (kind : string) : option counter :=
  if kind == "if_statement" then Some cIfs
  else if (kind == "for_statement") || (kind == "for_in_statement") then Some cFors
  else if kind == "switch_statement" then Some cExprSwitches
  else if kind == "method_definition" then Some cMethods
  else if one_of tsFunctionLikeKinds kind then Some cFunctions
  else None.

Definition ts_opens (kind : string) : bool := (kind == "method_definition") || one_of tsFunctionLikeKinds kind.

Notation ts_post := (post ts_opens "statement_block").
Notation ts_step := (met_step ts_counter_of "statement_block").
Definition depth_of (d : descent) : Z * bool := (d_blockDepth d, d_inFunc d).

Lemma ts_on_metrics_collects f c : collects c [] (ts_on_metrics f c).
Proof. split; [by rewrite app_nil_r|]. unfold keys, seen. cbn. set_solver. Qed.

Lemma function_like_eq n : function_like n = one_of tsFunctionLikeKinds (Kind n).
Proof. done. Qed.

(** A function-like kind is no other kind the walk asks for. *)
Lemma function_like_kinds kind k : one_of tsFunctionLikeKinds kind = true → one_of tsFunctionLikeKinds k = false → kind == k = false.
Proof. intros H1 H2. apply String.eqb_neq. intros ->. congruence. Qed.

Ltac other_kinds H := rewrite ?(function_like_kinds _ "if_statement" H eq_refl),
  ?(function_like_kinds _ "while_statement" H eq_refl), ?(function_like_kinds _ "assignment_expression" H eq_refl),
  ?(function_like_kinds _ "for_statement" H eq_refl), ?(function_like_kinds _ "for_in_statement" H eq_refl),
  ?(function_like_kinds _ "switch_statement" H eq_refl), ?(function_like_kinds _ "method_definition" H eq_refl),
  ?(function_like_kinds _ "statement_block" H eq_refl).

Ltac case_kind n k := let E := fresh "E" in destruct (Kind n == k) eqn:E; [apply String.eqb_eq in E; rewrite ?E; cbn [orb]|cbn [orb]].

Lemma enter_descent n d c : fst (walkEnterNode n d c) = fst (walkEnterNode n d new_ts_collector).
Proof. unfold walkEnterNode. repeat case_match; done. Qed.

Lemma enter_depth n d c : depth_of (fst (walkEnterNode n d c)) = ts_post n (depth_of d).
Proof.
  unfold walkEnterNode, post, ts_opens.
  case_kind n "if_statement"; [done|]. case_kind n "while_statement"; [done|].
  case_kind n "for_statement"; [done|]. case_kind n "for_in_statement"; [done|].
  case_kind n "switch_statement"; [done|]. case_kind n "method_definition"; [done|].
  change (function_like n) with (one_of tsFunctionLikeKinds (Kind n)).
  destruct (one_of tsFunctionLikeKinds (Kind n)); [done|].
  destruct (Kind n == "statement_block"); [|by destruct (_ && _)]. cbn [andb].
  unfold depth_of. cbn [fst snd]. destruct d as [bd [] ic ss]; done.
Qed.

Lemma enter_metrics n d c : tfc_metrics (snd (walkEnterNode n d c)) = ts_step (depth_of d) n (tfc_metrics c).
Proof.
  assert (Hr : ∀ c, tfc_metrics (checkTOCTOUCheckThenAct n c) = tfc_metrics c) by (intros c'; apply checkTOCTOU_observes).
  unfold walkEnterNode, met_step, ts_counter_of.
  case_kind n "if_statement"; [apply Hr|]. case_kind n "while_statement"; [apply Hr|].
  case_kind n "for_statement"; [done|]. case_kind n "for_in_statement"; [done|].
  case_kind n "switch_statement"; [done|]. case_kind n "method_definition"; [done|].
  change (function_like n) with (one_of tsFunctionLikeKinds (Kind n)).
  destruct (one_of tsFunctionLikeKinds (Kind n)) eqn:Ef; [done|]. cbn [orb].
  destruct (Kind n == "statement_block") eqn:Eb; cbn [andb].
  - unfold depth_of. cbn [fst snd]. destruct (d_inFunc d); [|done]. rewrite <- set_Max_if.
    cbn [snd]. by destruct (_ <? _)%Z.
  - destruct (_ && _); [|done]. cbn [snd]. apply checkTightCoupling_observes.
Qed.

(** What entering a node shows. *)
Definition entry_observations (n : Node) (d : descent) : list observation :=
  if (Kind n == "if_statement") || (Kind n == "while_statement") then race_of n
  else if (Kind n == "assignment_expression") && d_inCtorBody d then coupling_of n
  else [].

Lemma enter_collects n d c : collects c (entry_observations n d) (snd (walkEnterNode n d c)).
Proof.
  assert (H0 : ∀ f, collects c [] (ts_on_metrics f c)) by (intros f; apply ts_on_metrics_collects).
  assert (H1 : collects c [] c) by (apply observes_collects, observes_refl).
  unfold walkEnterNode, entry_observations.
  case_kind n "if_statement".
  { apply (ts_collects_trans c _ _ [] _ (H0 (increment cIfs))), observes_collects, checkTOCTOU_observes. }
  case_kind n "while_statement"; [apply observes_collects, checkTOCTOU_observes|].
  case_kind n "for_statement"; [apply H0|]. case_kind n "for_in_statement"; [apply H0|].
  case_kind n "switch_statement"; [apply H0|]. case_kind n "method_definition"; [apply H0|].
  change (function_like n) with (one_of tsFunctionLikeKinds (Kind n)).
  destruct (one_of tsFunctionLikeKinds (Kind n)) eqn:Ef.
  { rewrite (function_like_kinds _ "assignment_expression" Ef eq_refl). apply H0. }
  case_kind n "statement_block".
  { destruct (d_inFunc d); [|apply H1]. cbn [snd andb]. destruct (_ <? _)%Z; [apply H0|apply H1]. }
  rewrite andb_comm. destruct (_ && _); [|apply H1]. apply observes_collects, checkTightCoupling_observes.
Qed.

(** What a node shows when it is entered with [d]. *)
Definition node_observations (n : Node) (d : descent) : list observation :=
  entry_observations n d ++ mutations (d_scopes (enter n d)) (write_targets n).

(** What the nodes below [n] show, and how they count. *)
Definition shown (n : Node) (d : descent) : list observation :=
  flat_map (λ nd, node_observations (fst nd) (snd nd)) (ctx_nodes ts_down n d).
Definition counted (n : Node) (d : descent) : StructuralMetrics → StructuralMetrics :=
  count_nodes ts_counter_of "statement_block" (ctx_nodes (all_children ts_post) n (depth_of d)).

Definition walked (n : Node) (d : descent) : Prop :=
  ∀ c, collects c (shown n d) (walk n d c) ∧ tfc_metrics (walk n d c) = counted n d (tfc_metrics c).

(** Walks of children, in order, each with what it inherits. *)
Definition walk_each (l : list (Node * option descent)) (c : tsFeatureCollector) : tsFeatureCollector :=
  fold_left (λ c x, match snd x with Some d => walk (fst x) d c | None => c end) l c.

Lemma walk_each_spec l p c :
  (∀ x, In x l → ∃ d, snd x = Some d ∧ depth_of d = p ∧ walked (fst x) d) →
  collects c (flat_map (λ x, match snd x with Some d => shown (fst x) d | None => [] end) l) (walk_each l c)
  ∧ tfc_metrics (walk_each l c)
    = fold_left (λ s m, count_nodes ts_counter_of "statement_block" (ctx_nodes (all_children ts_post) m p) s)
        (map fst l) (tfc_metrics c).
Proof.
  revert c. induction l as [|[m o] l IH]; intros c H.
  { split; [apply observes_collects, observes_refl|done]. }
  destruct (H (m, o) (or_introl eq_refl)) as (d & Eo & Hp & Hw). cbn [fst snd] in *. subst o.
  destruct (Hw c) as [Hc Hm]. destruct (IH (walk m d c)) as [Hc' Hm']; [intros; apply H; by right|].
  cbn [walk_each fold_left flat_map map fst snd]. fold (walk_each l (walk m d c)). split.
  - eapply ts_collects_trans; [apply Hc|apply Hc'].
  - rewrite Hm', Hm. unfold counted. by rewrite Hp.
Qed.

Lemma depth_with_scopes d ss : depth_of (with_scopes d ss) = depth_of d.
Proof. done. Qed.

Lemma scopes_after_each_depth ps d ss cs x : In x (combine cs (scopes_after_each ps d ss cs)) →
  ∃ d', snd x = Some d' ∧ depth_of d' = depth_of d.
Proof.
  revert ss. induction cs as [|m cs IH]; intros ss; [done|]. cbn. intros [<-|H]; [eauto|]. by eapply IH.
Qed.

Lemma walkScopedChildBlock_each n d names c :
  let scopes := appendTSLocalBindings (d_scopes d) (names n) in
  walkScopedChildBlock (λ x, walk (fst (fst x)) (snd (fst x)) (snd x)) n d names c
  = walk_each (combine (children n) (scopes_after_each (tsCurrentFunctionParamNames scopes) d scopes (children n))) c.
Proof.
  cbn zeta. unfold walkScopedChildBlock.
  generalize (tsCurrentFunctionParamNames (appendTSLocalBindings (d_scopes d) (names n))) as ps.
  generalize (appendTSLocalBindings (d_scopes d) (names n)) as ss.
  intros ss ps. revert ss c. induction (children n) as [|m cs IH]; intros ss c; [done|]. cbn. apply IH.
Qed.

Lemma walk_all (l : list Node) d c :
  fold_left (λ c child, walk child d c) l c = walk_each (combine l (map (λ _, Some d) l)) c.
Proof. revert c. induction l as [|m l IH]; intros c; [done|]. cbn. apply IH. Qed.

(** Walking a node is entering it and walking its children. *)
Lemma ts_walk_step n d c : ∃ c',
  walk n d c = walk_each (combine (children n) (ts_down n d)) c'
  ∧ collects c (node_observations n d) c'
  ∧ tfc_metrics c' = ts_step (depth_of d) n (tfc_metrics c).
Proof.
  set (d1 := with_scopes d (header_scopes n (d_scopes d))).
  exists (checkMutatesInputForNode n (d_scopes (enter n d)) (snd (walkEnterNode n d1 c))). split_and!.
  - rewrite ts_walk_eq. unfold ts_walk_body. fold d1.
    rewrite (surjective_pairing (walkEnterNode n d1 c)), (enter_descent n d1 c). fold (enter n d).
    unfold ts_down. destruct (scope_names n) as [names|]; [apply walkScopedChildBlock_each|apply walk_all].
  - eapply ts_collects_trans; [|apply observes_collects, checkMutatesInputForNode_observes].
    change (entry_observations n d) with (entry_observations n d1). apply enter_collects.
  - destruct (checkMutatesInputForNode_observes n (d_scopes (enter n d)) (snd (walkEnterNode n d1 c))) as (_ & _ & ->).
    rewrite enter_metrics. done.
Qed.

Lemma ts_down_length n d : length (ts_down n d) = length (children n).
Proof.
  unfold ts_down. destruct (scope_names n); [|by rewrite length_map].
  generalize (tsCurrentFunctionParamNames (appendTSLocalBindings (d_scopes (enter n d)) (g n))) as ps.
  generalize (appendTSLocalBindings (d_scopes (enter n d)) (g n)) as ss.
  induction (children n) as [|m cs IH]; intros ss ps; [done|]. cbn. f_equal. apply IH.
Qed.

Lemma ts_down_depth n d x : In x (combine (children n) (ts_down n d)) →
  ∃ d', snd x = Some d' ∧ depth_of d' = ts_post n (depth_of d).
Proof.
  assert (He : depth_of (enter n d) = ts_post n (depth_of d)) by (unfold enter; rewrite enter_depth; done).
  rewrite <- He. unfold ts_down. destruct (scope_names n); [apply scopes_after_each_depth|].
  intros H. destruct x as [m o]. apply in_combine_r in H. apply in_map_iff in H as (? & <- & _). eauto.
Qed.

Lemma walk_walked n d : walked n d.
Proof.
  revert d. induction n as [n IH] using node_ind. intros d c.
  destruct (ts_walk_step n d c) as (c' & -> & Hc & Hm).
  destruct (walk_each_spec (combine (children n) (ts_down n d)) (ts_post n (depth_of d)) c') as [Hc' Hm'].
  { intros x Hx. destruct (ts_down_depth n d x Hx) as (d' & E1 & E2). exists d'. split_and!; [done..|].
    apply IH. destruct x as [m o]. by eapply in_combine_l. }
  split.
  - unfold shown. rewrite ctx_nodes_eq. cbn [flat_map fst snd]. eapply ts_collects_trans; [apply Hc|].
    rewrite flat_map_flat_map. erewrite flat_map_ext; [apply Hc'|].
    intros [m [d'|]]; done.
  - rewrite Hm', Hm. unfold counted, count_nodes. rewrite (fold_all_children ts_post ts_step).
    f_equal. clear -U. pose proof (ts_down_length n d) as Hl. revert Hl. generalize (ts_down n d) as l.
    induction (children n) as [|m cs IH]; intros [|o l] Hl; try done. cbn. f_equal. apply IH. by injection Hl.
Qed.

(** ** Properties *)

(** The structural metrics of a TypeScript file are counts over its syntax tree: the
    number of [if], loop and switch statements, of methods and of function-like nodes,
    wherever they are, and as nesting depth the largest number of statement blocks from
    a block up to the nearest enclosing function or method; [while] statements and the
    Go-only counters are not counted. *)
Theorem ts_metrics_exact t :
  let m := fst (computeTSFeatures (Root t)) in
  (∀ k, get k m = node_count ts_counter_of k (Root t))
  ∧ met_MaxNestingDepth m = foldr Z.max 0%Z (block_depths ts_opens "statement_block" (nodes (Root t)))
  ∧ met_MaxCognitiveComplexity m = 0%Z ∧ met_SumCognitiveComplexity m = 0%Z.
Proof.
  cbn zeta. unfold computeTSFeatures. cbn [fst].
  destruct (walk_walked (Root t) (mkDescent 0 false false []) new_ts_collector) as [_ ->].
  unfold counted. cbn [depth_of d_blockDepth d_inFunc]. rewrite nested_nodes.
  split; [|split; [by apply fold_max_nesting|by apply fold_rest]].
  intros k. apply fold_counts.
Qed.

End exact.
