(* ===== verification/TsComplexity.v ===== *)
(** * Cognitive complexity of TypeScript functions

    [computeTSCognitiveComplexity] ([ts_cognitive_complexity*.go]) finds every function,
    method, function expression and arrow function with a body, scores the body and marks
    the ones that are in no other.

    [ts_complexity_exact] rewrites the scorer as a sum over the nodes of the body, each
    under a context that its way up gives it: the nesting and its part in an else chain
    or in a boolean expression. *)

From Stdlib Require Import Sorted.
From S2P Require Import Prelude GoOrder GoText Semantics Syntax Complexity GoUnquote Nesting TsSyntax TsScope TsFeatures.

(** ** [ts_cognitive_complexity_boolean_sequences.go] *)

(** go: pkg/semantics/ts_cognitive_complexity_boolean_sequences.go#isTSBooleanBinary *)
Definition isTSBooleanBinary (n : option Node) : bool :=
  match n with
  | None => false
  | Some n =>
      if Kind n != "binary_expression" then false
      else let op := tsBinaryOp n in (op == "&&") || (op == "||")
  end.

Definition flattenTSBooleanOps_body (rec : option Node → list string) (n : option Node) : list string :=
  match unwrapTSParen n with
  | Some m =>
      if negb (isTSBooleanBinary (Some m)) then []
      else rec (ChildByFieldName m "left") ++ [tsBinaryOp m] ++ rec (ChildByFieldName m "right")
  | None => []
  end.

(** go: pkg/semantics/ts_cognitive_complexity_boolean_sequences.go#flattenTSBooleanOps *)
Definition flattenTSBooleanOps : option Node → list string := descend oheight (λ _, []) flattenTSBooleanOps_body.

(** go: pkg/semantics/ts_cognitive_complexity_boolean_sequences.go#countTSBooleanRuns *)
Definition countTSBooleanRuns (n : Node) : Z :=
  match flattenTSBooleanOps (Some n) with
  | [] => 0
  | op :: ops => 1 + count_changes op ops
  end.

(** ** [ts_cognitive_complexity_increments.go], [ts_cognitive_complexity_names.go],
    [ts_cognitive_complexity_targets.go] *)

(** go: pkg/semantics/ts_cognitive_complexity_increments.go#tsHasLabel *)
Definition tsHasLabel (n : Node) : bool := existsb (λ child, Kind child == "statement_identifier") (children n).

(** go: pkg/semantics/ts_cognitive_complexity_increments.go#isTSDirectRecursion *)
Definition isTSDirectRecursion (call : Node) (funcName : string) : bool :=
  if (funcName == "") || (funcName == func_lit) then false
  else match ChildByFieldName call "function" with
  | None => false
  | Some fn => if Kind fn != "identifier" then false else Utf8Text fn == funcName
  end.

(** go: pkg/semantics/ts_cognitive_complexity_names.go#tsCCName *)
Definition tsCCName (n : Node) : string :=
  if one_of ["function_declaration"; "generator_function_declaration"; "method_definition"] (Kind n) then
    match ChildByFieldName n "name" with Some name => Utf8Text name | None => func_lit end
  else if one_of ["function_expression"; "generator_function"] (Kind n) then
    match ChildByFieldName n "name" with Some name => Utf8Text name | None => tsBoundIdentifierName n end
  else if Kind n == "arrow_function" then tsBoundIdentifierName n
  else func_lit.

Definition scored_kinds : list string :=
  ["function_declaration"; "generator_function_declaration"; "function_expression"; "generator_function";
   "arrow_function"; "method_definition"].

(** go: pkg/semantics/ts_cognitive_complexity_targets.go#isTSCCScoredKind *)
Definition isTSCCScoredKind (kind : string) : bool := one_of scored_kinds kind.

(** go: pkg/semantics/ts_cognitive_complexity_targets.go#tsCCKind *)
Definition tsCCKind (nodeKind : string) : string :=
  if one_of ["function_declaration"; "generator_function_declaration"] nodeKind then "function"
  else if nodeKind == "method_definition" then "method"
  else if one_of ["function_expression"; "generator_function"] nodeKind then "func_lit"
  else if nodeKind == "arrow_function" then "arrow"
  else "".

(** go: pkg/semantics/ts_cognitive_complexity_targets.go#tsIsNestedInScoredBody *)
Definition tsIsNestedInScoredBody (n : Node) : bool := existsb (λ p, isTSCCScoredKind (Kind p)) (ancestors n).

(** go: pkg/semantics/ts_cognitive_complexity_targets.go#tsCCBody *)
Definition tsCCBody (n : option Node) : option Node :=
  match n with None => None | Some n => ChildByFieldName n "body" end.

(** go: pkg/semantics/ts_cognitive_complexity.go#tsCCTarget *)
Record tsCCTarget := mkTsCCTarget { tt_node : Node; tt_name : string; tt_kind : string; tt_topLevel : bool }.

(** go: pkg/semantics/ts_cognitive_complexity_targets.go#scoredTSCCTarget *)
Definition scoredTSCCTarget (n : Node) : option tsCCTarget :=
  if negb (isTSCCScoredKind (Kind n)) then None
  else match tsCCBody (Some n) with
  | None => None
  | Some _ => Some (mkTsCCTarget n (tsCCName n) (tsCCKind (Kind n)) (negb (tsIsNestedInScoredBody n)))
  end.

(** ** [ts_cognitive_complexity_if_chains.go] *)

(** go: pkg/semantics/ts_cognitive_complexity_if_chains.go#tsElseClauseInner *)
Definition tsElseClauseInner (elseClause : Node) : option Node :=
  List.find (λ c, Kind c != "else") (children elseClause).

(** An alternative without the else clause around it. *)
Definition opened (alt : Node) : option Node := if Kind alt == "else_clause" then tsElseClauseInner alt else Some alt.

(** A call of the scorer: [walk], or one more turn of the loop over the else chain in
    [walkIf].  The score is threaded. *)
Inductive ts_call :=
| TWalk (n : option Node) (depth : Z) (inBoolChain : bool) (score : Z)
| TChain (alt : option Node) (nest : Z) (score : Z).

Definition ts_size (c : ts_call) : nat :=
  match c with TWalk n _ _ _ => 2 * oheight n | TChain alt _ _ => 2 * oheight alt + 1 end.

(** The two walks of an [if] before its alternative. *)
Definition ts_branch (rec : ts_call → Z) (n : Node) (nest score : Z) : Z :=
  let score := rec (TWalk (ChildByFieldName n "condition") nest false score) in
  rec (TWalk (ChildByFieldName n "consequence") nest false score).

(** One turn of the loop, after the else clause has been opened. *)
Definition ts_alternative (rec : ts_call → Z) (alt : option Node) (nest score : Z) : Z :=
  match alt with
  | None => score
  | Some alt =>
      if Kind alt == "if_statement"
      then rec (TChain (ChildByFieldName alt "alternative") nest (ts_branch rec alt nest (score + 1)%Z))
      else rec (TWalk (Some alt) nest false (score + 1)%Z)
  end.

(** go: pkg/semantics/ts_cognitive_complexity_if_chains.go#walkIf *)
Definition ts_walkIf (rec : ts_call → Z) (n : Node) (depth score : Z) : Z :=
  let score := (score + (1 + depth))%Z in
  let nest := (depth + 1)%Z in
  let score := ts_branch rec n nest score in
  rec (TChain (ChildByFieldName n "alternative") nest score).

(** ** [ts_cognitive_complexity_scorer.go] *)

Definition ts_structural_kinds : list string :=
  ["for_statement"; "for_in_statement"; "while_statement"; "do_statement"; "switch_statement"; "ternary_expression";
   "catch_clause"].

(** go: pkg/semantics/ts_cognitive_complexity_scorer.go#walkStructural *)
Definition ts_walkStructural (rec : ts_call → Z) (n : Node) (depth score : Z) : Z :=
  fold_left (λ score child, rec (TWalk (Some child) (depth + 1)%Z false score)) (children n) (score + (1 + depth))%Z.

(** go: pkg/semantics/ts_cognitive_complexity_scorer.go#walkTSBooleanOperand *)
Definition walkTSBooleanOperand (rec : ts_call → Z) (n : option Node) (depth score : Z) : Z :=
  match unwrapTSParen n with
  | None => score
  | Some m =>
      if isTSBooleanBinary (Some m) then rec (TWalk (Some m) depth true score)
      else rec (TWalk (Some m) depth false score)
  end.

(** go: pkg/semantics/ts_cognitive_complexity_scorer.go:13-67#walk *)
Definition ts_cc_body (funcName : string) (rec : ts_call → Z) (c : ts_call) : Z :=
  match c with
  | TChain None nest score => score
  | TChain (Some alt) nest score =>
      ts_alternative rec (opened alt) nest score
  | TWalk None depth inBoolChain score => score
  | TWalk (Some n) depth inBoolChain score =>
      if Kind n == "if_statement" then ts_walkIf rec n depth score
      else if one_of ts_structural_kinds (Kind n) then ts_walkStructural rec n depth score
      else if one_of scored_kinds (Kind n) then rec (TWalk (tsCCBody (Some n)) (depth + 1)%Z false score)
      else if (Kind n == "binary_expression") && isTSBooleanBinary (Some n) then
        let score := if negb inBoolChain then (score + countTSBooleanRuns n)%Z else score in
        let score := walkTSBooleanOperand rec (ChildByFieldName n "left") depth score in
        walkTSBooleanOperand rec (ChildByFieldName n "right") depth score
      else if one_of ["break_statement"; "continue_statement"] (Kind n)
           then if tsHasLabel n then (score + 1)%Z else score
      else
        let score :=
          if Kind n == "call_expression" then
            if isTSDirectRecursion n funcName then (score + 1)%Z else score
          else score in
        fold_left (λ score child, rec (TWalk (Some child) depth false score)) (children n) score
  end.

Definition ts_cc (funcName : string) : ts_call → Z := descend ts_size (λ _, 0%Z) (ts_cc_body funcName).

(** ** [ts_cognitive_complexity.go] *)

(** One round of the loop per node.
    go: pkg/semantics/ts_cognitive_complexity.go#collectTSCCTargets *)
Definition collectTSCCTargets (root : Node) : list tsCCTarget :=
  default [] (collect_loop (λ n, option_list (scoredTSCCTarget n)) (length (nodes root)) [root] []).

Definition ts_score_target (t : tsCCTarget) : FunctionCognitiveComplexity :=
  let score := match tsCCBody (Some (tt_node t)) with
               | Some body => ts_cc (tt_name t) (TWalk (Some body) 0 false 0)
               | None => 0%Z
               end in
  mkFunctionCognitiveComplexity (tt_name t) (tt_kind t) (locationFromNode (tt_node t)) score.

Definition pair_less (a b : FunctionCognitiveComplexity * bool) : bool := cc_less (fst a) (fst b).

(** The two parallel slices are filled in one loop, sorted together and taken apart.
    go: pkg/semantics/ts_cognitive_complexity.go#computeTSCognitiveComplexity *)
Definition computeTSCognitiveComplexity (root : Node) : list FunctionCognitiveComplexity * list bool :=
  let targets := collectTSCCTargets root in
  let records := map ts_score_target targets in
  let topLevel := map tt_topLevel targets in
  let pairs := stable_sort pair_less (combine records topLevel) in
  (map fst pairs, map snd pairs).

(** ** The recursions are the ones of the code *)

Lemma flattenTSBooleanOps_eq n : flattenTSBooleanOps n = flattenTSBooleanOps_body flattenTSBooleanOps n.
Proof. unfold flattenTSBooleanOps at 1. rewrite descend_eq; [done|descends_tac]. Qed.

Lemma elseInner_height n : oheight (tsElseClauseInner n) < nheight n.
Proof. apply find_child_height. Qed.

Lemma opened_height n : oheight (opened n) ≤ nheight n.
Proof. unfold opened. pose proof (elseInner_height n). destruct (_ == _); [lia|done]. Qed.
#[export] Hint Resolve opened_height : height.

Lemma ts_cc_eq fn c : ts_cc fn c = ts_cc_body fn (ts_cc fn) c.
Proof.
  unfold ts_cc at 1. rewrite descend_eq; [done|].
  intros g h x H. unfold ts_cc_body, ts_walkIf, ts_walkStructural, ts_alternative, ts_branch, walkTSBooleanOperand, tsCCBody.
  descends_with H.
Qed.

(** ** What a node adds

    The context of a node is its nesting and its part: an [else if], the body of an
    [else], an else clause around one of these, or an operand of a boolean expression. *)

Inductive part := Plain | ElseIf | Else | ElseClause | Operand.

Definition ts_increment (funcName : string) (n : Node) (c : Z * part) : Z :=
  let '(depth, r) := c in
  ((match r with Else => 1 | _ => 0 end)
   + (if Kind n == "if_statement" then match r with ElseIf => 1 | _ => 1 + depth end
      else if one_of ts_structural_kinds (Kind n) then 1 + depth
      else if (Kind n == "binary_expression") && isTSBooleanBinary (Some n) then
        match r with Operand => 0 | _ => countTSBooleanRuns n end
      else if one_of ["break_statement"; "continue_statement"] (Kind n) then if tsHasLabel n then 1 else 0
      else if Kind n == "call_expression" then if isTSDirectRecursion n funcName then 1 else 0
      else 0))%Z.

Definition else_part (m : Node) : part := if Kind m == "if_statement" then ElseIf else Else.

(** What the child bound to a field of an [if] inherits. *)
Definition in_chain (nest : Z) (f : string) (m : Node) : Z * part :=
  if f == "alternative" then (nest, if Kind m == "else_clause" then ElseClause else else_part m) else (nest, Plain).

Definition ts_wrapper (n : Node) : bool := one_of ["parenthesized_expression"; "non_null_expression"] (Kind n).

(** What the children of a node inherit: only the fields of an [if], all one deeper; an
    else-if is not deeper than the [if] it continues; what an else clause holds, the part
    of the clause; the body of a function, one deeper; the operands of a boolean
    expression and what is in parentheses there; nothing of a jump; everything else as
    it is. *)
Definition cc_below (n : Node) (c : Z * part) : list (option (Z * part)) :=
  let '(depth, r) := c in
  let plain := map (λ _, Some (depth, Plain)) (children n) in
  let nothing := map (λ _, None) (children n) in
  if Kind n == "if_statement" then
    let nest := match r with ElseIf => depth | _ => (depth + 1)%Z end in
    by_field ["condition"; "consequence"; "alternative"] (in_chain nest) n
  else if one_of ts_structural_kinds (Kind n) then map (λ _, Some ((depth + 1)%Z, Plain)) (children n)
  else if one_of scored_kinds (Kind n) then by_field ["body"] (λ _ _, ((depth + 1)%Z, Plain)) n
  else if (Kind n == "binary_expression") && isTSBooleanBinary (Some n)
       then by_field ["left"; "right"] (λ _ _, (depth, Operand)) n
  else if one_of ["break_statement"; "continue_statement"] (Kind n) then nothing
  else match r with
       | ElseClause =>
           match tsElseClauseInner n with Some m => only m (depth, else_part m) n | None => nothing end
       | Operand =>
           match (if ts_wrapper n then tsWrappedExpressionInner n else None) with
           | Some m => only m (depth, Operand) n
           | None => plain
           end
       | _ => plain
       end.

(** The definitions at one node. *)
Lemma ts_increment_eq fn n depth r : ts_increment fn n (depth, r)
  = ltac:(let t := eval cbv beta iota delta [ts_increment] in (ts_increment fn n (depth, r)) in exact t).
Proof. done. Qed.
Lemma cc_below_eq n depth r : cc_below n (depth, r)
  = ltac:(let t := eval cbv beta iota zeta delta [cc_below] in (cc_below n (depth, r)) in exact t).
Proof. done. Qed.

Notation ts_total fn := (total (ts_increment fn) cc_below).
Notation ts_ototal fn := (ototal (ts_increment fn) cc_below).

(** What a call of the scorer adds to the score. *)
Definition ts_adds (fn : string) (c : ts_call) : Z :=
  match c with
  | TWalk n depth inBoolChain _ => ts_ototal fn n (depth, if inBoolChain then Operand else Plain)
  | TChain (Some alt) nest _ => ts_total fn alt (nest, if Kind alt == "else_clause" then ElseClause else else_part alt)
  | TChain None _ _ => 0%Z
  end.
Definition ts_score_of (c : ts_call) : Z := match c with TWalk _ _ _ s | TChain _ _ s => s end.
Definition ts_call_node (c : ts_call) : option Node := match c with TWalk n _ _ _ | TChain n _ _ => n end.

(** A chain flag is only set on boolean expressions. *)
Definition ts_flag_ok (c : ts_call) : Prop :=
  match c with TWalk n _ true _ => isTSBooleanBinary n = true | _ => True end.

(** A part that only adds to the node itself. *)
Lemma ts_total_Else fn n depth : Kind n == "if_statement" = false →
  ts_total fn n (depth, Else) = (1 + ts_total fn n (depth, Plain))%Z.
Proof. intros Hk. rewrite !total_eq, !ts_increment_eq, !cc_below_eq. rewrite Hk. lia. Qed.

Lemma ts_total_ElseClause fn n depth : Kind n = "else_clause" →
  ts_total fn n (depth, ElseClause)
  = match tsElseClauseInner n with Some m => ts_total fn m (depth, else_part m) | None => 0%Z end.
Proof.
  intros Hk. rewrite total_eq, ts_increment_eq, cc_below_eq, Hk.
  cbn [String.eqb Ascii.eqb Bool.eqb one_of existsb ts_structural_kinds scored_kinds orb andb].
  destruct (tsElseClauseInner n) as [m|] eqn:E; [|by rewrite child_totals_none].
  rewrite child_totals_only by (by apply find_some in E as [? _]). lia.
Qed.

Lemma wrapped_inner_In n m : tsWrappedExpressionInner n = Some m → In m (children n).
Proof.
  unfold tsWrappedExpressionInner. destruct (first_some _ _) as [k|] eqn:E.
  - intros [= <-]. apply first_some_Some in E as (f & _ & E). by eapply ChildByFieldName_In.
  - intros H. by apply find_some in H as [? _].
Qed.

Lemma wrapper_kinds n : ts_wrapper n = true → Kind n = "parenthesized_expression" ∨ Kind n = "non_null_expression".
Proof. intros H. apply one_of_In in H. cbn in H. intuition. Qed.

Lemma ts_total_wrapper fn n m depth : ts_wrapper n = true → tsWrappedExpressionInner n = Some m →
  ts_total fn n (depth, Operand) = ts_total fn m (depth, Operand).
Proof.
  intros Hw Hm. rewrite total_eq, ts_increment_eq, cc_below_eq, Hw, Hm.
  apply wrapper_kinds in Hw as [Hk|Hk]; rewrite Hk;
    cbn [String.eqb Ascii.eqb Bool.eqb one_of existsb ts_structural_kinds scored_kinds orb andb];
    rewrite child_totals_only by (by apply wrapped_inner_In); lia.
Qed.

Lemma ts_total_not_bool fn n depth : isTSBooleanBinary (Some n) = false →
  (if ts_wrapper n then tsWrappedExpressionInner n else None) = None →
  ts_total fn n (depth, Operand) = ts_total fn n (depth, Plain).
Proof.
  intros Hb Hw. rewrite !total_eq, !ts_increment_eq, !cc_below_eq, Hb, Hw, andb_false_r. lia.
Qed.

(** What an operand adds is what it adds without its parentheses. *)
Lemma ts_total_operand fn n depth :
  ts_total fn n (depth, Operand)
  = match unwrapTSParen (Some n) with
    | Some m => ts_total fn m (depth, if isTSBooleanBinary (Some m) then Operand else Plain)
    | None => 0%Z
    end.
Proof.
  induction n as [n IH] using node_height_ind. rewrite unwrapTSParen_eq. unfold unwrapTSParen_body.
  fold (ts_wrapper n).
  assert (Hstop : (if ts_wrapper n then tsWrappedExpressionInner n else None) = None →
    ts_total fn n (depth, Operand) = ts_total fn n (depth, if isTSBooleanBinary (Some n) then Operand else Plain)).
  { intros H. destruct (isTSBooleanBinary (Some n)) eqn:E; [done|by apply ts_total_not_bool]. }
  destruct (ts_wrapper n) eqn:Ew; [|by apply Hstop].
  destruct (tsWrappedExpressionInner n) as [m|] eqn:Ei; [|by apply Hstop].
  rewrite (ts_total_wrapper fn n m) by done. apply IH. smaller.
Qed.

Definition ts_if_nest (depth : Z) (r : part) : Z := match r with ElseIf => depth | _ => (depth + 1)%Z end.

Lemma ts_total_if fn n depth r : Kind n = "if_statement" → single_fields n →
  ts_total fn n (depth, r)
  = (ts_increment fn n (depth, r)
     + ts_ototal fn (ChildByFieldName n "condition") (ts_if_nest depth r, Plain)
     + ts_ototal fn (ChildByFieldName n "consequence") (ts_if_nest depth r, Plain)
     + ts_adds fn (TChain (ChildByFieldName n "alternative") (ts_if_nest depth r) 0))%Z.
Proof.
  intros Hk Hs. rewrite total_eq, cc_below_eq, Hk. cbn [String.eqb Ascii.eqb Bool.eqb]. fold (ts_if_nest depth r).
  rewrite child_totals_fields by (done || (repeat constructor; set_solver)).
  cbn [map sumz foldr in_chain String.eqb Ascii.eqb Bool.eqb]. unfold ototal, ts_adds.
  destruct (ChildByFieldName n "alternative"); cbn [in_chain String.eqb Ascii.eqb Bool.eqb]; lia.
Qed.

Lemma ts_adds_chain fn a d s s' : ts_adds fn (TChain a d s) = ts_adds fn (TChain a d s').
Proof. by destruct a. Qed.

(** What is left of an alternative adds as much as the alternative. *)
Lemma ts_adds_opened fn alt nest s :
  ts_adds fn (TChain (Some alt) nest s)
  = match opened alt with Some m => ts_total fn m (nest, else_part m) | None => 0%Z end.
Proof.
  cbn [ts_adds]. unfold opened. destruct (Kind alt == "else_clause") eqn:E; [|done].
  apply String.eqb_eq in E. by apply ts_total_ElseClause.
Qed.

(** ** One step of the scorer, when the calls it makes are accounted for *)

Section ts_step.
Context (fn : string) (c : ts_call).
Definition call_ok (c : ts_call) : Prop := (∀ n, ts_call_node c = Some n → all_single_fields n) ∧ ts_flag_ok c.
Hypothesis Hrec : ∀ c', ts_size c' < ts_size c → call_ok c' → ts_cc fn c' = (ts_score_of c' + ts_adds fn c')%Z.
Hypothesis Hok : call_ok c.

Lemma single_in n m : all_single_fields n → In m (children n) → all_single_fields m ∧ single_fields m.
Proof. intros H Hm. pose proof (all_single_child n m H Hm) as H'. split; [done|]. apply H', nodes_In_refl. Qed.

(** A walk of something below the node of this call. *)
Lemma ts_walk_below n m d s : ts_size c ≥ 2 * nheight n → all_single_fields n → oheight m < nheight n →
  (∀ k, m = Some k → all_single_fields k) →
  ts_cc fn (TWalk m d false s) = (s + ts_ototal fn m (d, Plain))%Z.
Proof. intros Hc Hn Hm Hk. apply (Hrec (TWalk m d false s)); [cbn; lia|by split]. Qed.

Lemma ts_walk_field n f d s : ts_size c ≥ 2 * nheight n → all_single_fields n →
  ts_cc fn (TWalk (ChildByFieldName n f) d false s) = (s + ts_ototal fn (ChildByFieldName n f) (d, Plain))%Z.
Proof.
  intros Hc Hn. apply (ts_walk_below n); [done|done|apply ChildByFieldName_height|].
  intros k Hk. apply (single_in n); [done|by eapply ChildByFieldName_In].
Qed.

Lemma ts_branch_adds n nest s : ts_size c ≥ 2 * nheight n → all_single_fields n →
  ts_branch (ts_cc fn) n nest s
  = (s + ts_ototal fn (ChildByFieldName n "condition") (nest, Plain)
     + ts_ototal fn (ChildByFieldName n "consequence") (nest, Plain))%Z.
Proof. intros Hc Hn. unfold ts_branch. rewrite !(ts_walk_field n) by done. lia. Qed.

Lemma ts_chain_adds n nest s : ts_size c > 2 * oheight (ChildByFieldName n "alternative") + 1 → all_single_fields n →
  ts_cc fn (TChain (ChildByFieldName n "alternative") nest s)
  = (s + ts_adds fn (TChain (ChildByFieldName n "alternative") nest 0))%Z.
Proof.
  intros Hc Hn. rewrite (Hrec (TChain _ _ _)); [by rewrite (ts_adds_chain _ _ _ _ 0)|cbn; lia|].
  split; [|done]. intros k Hk. apply (single_in n); [done|by eapply ChildByFieldName_In].
Qed.

Lemma ts_children_adds n d s : ts_size c ≥ 2 * nheight n → all_single_fields n →
  fold_left (λ score child, ts_cc fn (TWalk (Some child) d false score)) (children n) s
  = (s + sumz (map (λ m, ts_total fn m (d, Plain)) (children n)))%Z.
Proof.
  intros Hc Hn. assert (Hl : ∀ l, (∀ m, In m l → In m (children n)) → ∀ s,
    fold_left (λ score child, ts_cc fn (TWalk (Some child) d false score)) l s
    = (s + sumz (map (λ m, ts_total fn m (d, Plain)) l))%Z); [|by apply Hl].
  induction l as [|m l IH]; intros Hl s'; cbn [fold_left map].
  - unfold sumz. cbn. lia.
  - rewrite IH by (intros; apply Hl; by right). rewrite (ts_walk_below n).
    + unfold sumz. cbn. lia.
    + done.
    + done.
    + apply children_height, Hl. by left.
    + intros k [= <-]. apply (single_in n); [done|]. apply Hl. by left.
Qed.

Lemma unwrap_single n m : all_single_fields n → unwrapTSParen (Some n) = Some m → all_single_fields m.
Proof.
  revert m. induction n as [n IH] using node_height_ind. intros m Hn. rewrite unwrapTSParen_eq. unfold unwrapTSParen_body.
  destruct (one_of _ _); [|by intros [= <-]].
  destruct (tsWrappedExpressionInner n) as [k|] eqn:E; [|by intros [= <-]].
  apply IH; [smaller|]. apply (single_in n); [done|by apply wrapped_inner_In].
Qed.

Lemma ts_operand_adds n f d s : ts_size c ≥ 2 * nheight n → all_single_fields n →
  walkTSBooleanOperand (ts_cc fn) (ChildByFieldName n f) d s
  = (s + ts_ototal fn (ChildByFieldName n f) (d, Operand))%Z.
Proof.
  intros Hc Hn. unfold walkTSBooleanOperand. destruct (ChildByFieldName n f) as [k|] eqn:Ef; [|rewrite unwrapTSParen_eq; cbn; lia].
  cbn [ototal]. rewrite ts_total_operand.
  pose proof (ChildByFieldName_height n f) as Hk. rewrite Ef in Hk. cbn in Hk.
  pose proof (unwrapTSParen_height (Some k)) as Hu. cbn in Hu.
  assert (Hsk : all_single_fields k) by (apply (single_in n); [done|by eapply ChildByFieldName_In]).
  destruct (unwrapTSParen (Some k)) as [m|] eqn:Eu; [|lia].
  pose proof (unwrap_single k m Hsk Eu) as Hm. cbn in Hu.
  destruct (isTSBooleanBinary (Some m)) eqn:Eb.
  - apply (Hrec (TWalk (Some m) d true s)); [cbn; lia|]. split; [|done]. by intros ? [= <-].
  - apply (Hrec (TWalk (Some m) d false s)); [cbn; lia|]. split; [|done]. by intros ? [= <-].
Qed.

Lemma ts_chain_step alt nest s : c = TChain (Some alt) nest s →
  ts_cc_body fn (ts_cc fn) c = (ts_score_of c + ts_adds fn c)%Z.
Proof.
  intros Hc. destruct Hok as [Hs _]. assert (Ha : all_single_fields alt) by (apply Hs; by rewrite Hc).
  rewrite Hc, ts_adds_opened. cbn [ts_cc_body ts_score_of]. unfold ts_alternative.
  pose proof (opened_height alt) as Hh. destruct (opened alt) as [m|] eqn:Em; [|lia].
  assert (Hm : all_single_fields m).
  { unfold opened in Em. destruct (_ == _); [|by injection Em as <-].
    apply (single_in alt); [done|]. by apply find_some in Em as [? _]. }
  assert (Hsize : ts_size c = 2 * nheight alt + 1) by (by rewrite Hc). cbn in Hh.
  unfold else_part. destruct (Kind m == "if_statement") eqn:Eif.
  - apply String.eqb_eq in Eif. rewrite (ts_total_if fn m nest ElseIf) by (done || apply Hm, nodes_In_refl).
    rewrite ts_chain_adds by (done || smaller). rewrite ts_branch_adds by (done || lia).
    rewrite ts_increment_eq, Eif. cbn [String.eqb Ascii.eqb Bool.eqb ts_if_nest]. lia.
  - rewrite (Hrec (TWalk (Some m) nest false (s + 1)%Z)); [|cbn; lia|split; [by intros ? [= <-]|done]].
    cbn [ts_score_of ts_adds ototal]. rewrite ts_total_Else by done. lia.
Qed.

Lemma ts_one_step n depth b s : c = TWalk (Some n) depth b s →
  ts_cc_body fn (ts_cc fn) c = (ts_score_of c + ts_adds fn c)%Z.
Proof.
  intros Hc. destruct Hok as [Hs Hf]. assert (Hn : all_single_fields n) by (apply Hs; by rewrite Hc).
  assert (Hn1 : single_fields n) by apply Hn, nodes_In_refl.
  assert (Hsize : ts_size c = 2 * nheight n) by (by rewrite Hc).
  assert (Hb : isTSBooleanBinary (Some n) = false → b = false).
  { intros E. rewrite Hc in Hf. destruct b; [|done]. unfold ts_flag_ok in Hf. congruence. }
  rewrite Hc. cbn [ts_cc_body ts_score_of ts_adds ototal].
  destruct (Kind n == "if_statement") eqn:Eif.
  { apply String.eqb_eq in Eif. rewrite Hb by (cbn; by rewrite Eif).
    rewrite (ts_total_if fn n depth Plain) by done. unfold ts_walkIf.
    rewrite ts_chain_adds by (done || smaller). rewrite ts_branch_adds by (done || lia).
    rewrite ts_increment_eq, Eif. cbn [String.eqb Ascii.eqb Bool.eqb ts_if_nest]. lia. }
  destruct ((Kind n == "binary_expression") && isTSBooleanBinary (Some n)) eqn:Ebin.
  { pose proof Ebin as Ebin'. apply andb_prop in Ebin' as [Ek Eb]. apply String.eqb_eq in Ek.
    rewrite total_eq, ts_increment_eq, cc_below_eq, Ek, Eb.
    cbn [String.eqb Ascii.eqb Bool.eqb one_of existsb ts_structural_kinds scored_kinds orb andb].
    rewrite !ts_operand_adds by (done || lia). rewrite child_totals_fields by (done || (repeat constructor; set_solver)).
    cbn [map sumz foldr]. unfold ototal. destruct b; cbn [negb];
      destruct (ChildByFieldName n "left"), (ChildByFieldName n "right"); lia. }
  assert (b = false) as ->.
  { apply Hb. destruct (Kind n == "binary_expression") eqn:E; [done|]. cbn. unfold isTSBooleanBinary. by rewrite E. }
  rewrite total_eq, ts_increment_eq, cc_below_eq, Eif, Ebin.
  destruct (one_of ts_structural_kinds (Kind n)) eqn:Est.
  { unfold ts_walkStructural. rewrite ts_children_adds, child_totals_all by (done || lia). lia. }
  destruct (one_of scored_kinds (Kind n)) eqn:Efn.
  { cbn [tsCCBody]. rewrite ts_walk_field by (done || lia).
    rewrite child_totals_fields by (done || (repeat constructor; set_solver)).
    apply one_of_In in Efn. cbn [map sumz foldr]. unfold ototal.
    repeat destruct Efn as [<-|Efn]; try done; cbn [one_of existsb String.eqb Ascii.eqb Bool.eqb orb];
      destruct (ChildByFieldName n "body"); lia. }
  destruct (one_of ["break_statement"; "continue_statement"] (Kind n)).
  { rewrite child_totals_none. destruct (tsHasLabel n); lia. }
  rewrite ts_children_adds, child_totals_all by (done || lia).
  destruct (Kind n == "call_expression"); [destruct (isTSDirectRecursion n fn); lia|lia].
Qed.
End ts_step.

Lemma ts_cc_adds fn c : call_ok c → ts_cc fn c = (ts_score_of c + ts_adds fn c)%Z.
Proof.
  remember (ts_size c) as k eqn:Hk. revert c Hk. induction k as [k IH] using lt_wf_ind. intros c -> Hs.
  assert (Hrec : ∀ c', ts_size c' < ts_size c → call_ok c' → ts_cc fn c' = (ts_score_of c' + ts_adds fn c')%Z)
    by (intros; by eapply IH).
  clear IH. rewrite ts_cc_eq. destruct c as [[n|] depth b s|[alt|] nest s]; [|cbn; lia| |cbn; lia].
  - by eapply ts_one_step.
  - by eapply ts_chain_step.
Qed.

(** ** The records *)

Lemma ts_targets_preorder root : collectTSCCTargets root = omap scoredTSCCTarget (nodes root).
Proof.
  unfold collectTSCCTargets. rewrite collect_loop_preorder; cbn [flat_map]; rewrite app_nil_r; [|done]. cbn.
  induction (nodes root) as [|n l IH]; [done|]. cbn [flat_map]. rewrite IH, omap_step. by destruct (scoredTSCCTarget n).
Qed.

(** What a node of a body adds. *)
Notation ts_node_score fn body := (node_score (ts_increment fn) cc_below body (0%Z, Plain)).

Lemma ts_score_body fn body : all_single_fields body →
  ts_cc fn (TWalk (Some body) 0 false 0) = sumz (map (ts_node_score fn body) (nodes body)).
Proof.
  intros H. rewrite ts_cc_adds by (split; [by intros ? [= <-]|done]).
  cbn [ts_score_of ts_adds ototal]. by rewrite total_nodes.
Qed.

#[export] Instance pair_less_strict_weak : StrictWeak pair_less.
Proof.
  apply (strict_weak_of_cmp pair_less (λ a b, cc_cmp (fst a) (fst b))).
  - intros [a ta] [b tb]. apply cc_less_cmp.
  - apply (on_cmp_laws fst cc_cmp).
Qed.

(** The sum of the marked scores does not see the order. *)
Lemma sum_marked (l : list (FunctionCognitiveComplexity * bool)) :
  sumz (imap (λ k r, if included (Some (map snd l)) k r then fcc_Score r else 0%Z) (map fst l))
  = sumz (map (λ p, if snd p : bool then fcc_Score (fst p) else 0%Z) l).
Proof.
  induction l as [|[r b] l IH]; [done|]. cbn [map imap sumz foldr fst snd]. unfold sumz in *. rewrite <- IH. done.
Qed.

Lemma sumz_perm l l' : l ≡ₚ l' → sumz l = sumz l'.
Proof. unfold sumz. induction 1; cbn; lia. Qed.

Lemma max_perm l l' z : l ≡ₚ l' → foldr Z.max z l = foldr Z.max z l'.
Proof. induction 1; cbn; lia. Qed.

Lemma combine_maps {A B C} (f : A → B) (g : A → C) l : combine (map f l) (map g l) = map (λ x, (f x, g x)) l.
Proof. induction l as [|x l IH]; [done|]. cbn. by rewrite IH. Qed.

(** The score of a target: what the nodes of its body add. *)
Definition ts_target_score (t : tsCCTarget) : Z :=
  match ChildByFieldName (tt_node t) "body" with
  | Some body => sumz (map (ts_node_score (tt_name t) body) (nodes body))
  | None => 0%Z
  end.

Lemma ts_score_target_exact root t : all_single_fields root → In t (omap scoredTSCCTarget (nodes root)) →
  ts_score_target t
  = mkFunctionCognitiveComplexity (tt_name t) (tt_kind t) (locationFromNode (tt_node t)) (ts_target_score t).
Proof.
  intros H Ht. unfold ts_score_target, ts_target_score. f_equal. cbn [tsCCBody].
  destruct (ChildByFieldName (tt_node t) "body") as [body|] eqn:E; [|done].
  apply ts_score_body. intros d Hd. apply H.
  apply list_elem_of_In, list_elem_of_omap in Ht as (n & Hn & Ht). apply list_elem_of_In in Hn.
  assert (tt_node t = n) as <-.
  { unfold scoredTSCCTarget in Ht. destruct (negb _); [done|]. destruct (tsCCBody _); [|done]. by injection Ht as <-. }
  eapply nodes_trans; [exact Hn|]. eapply nodes_child; [by eapply ChildByFieldName_In|done].
Qed.

(** C22: The cognitive complexity of a TypeScript file has one record per function, method,
    function expression and arrow function of its tree that has a body, in the order of
    position and then name (ties as in the tree), each with the sum over the nodes of its
    body of what the node adds: an [if], loop, switch, ternary or catch clause 1 and its
    nesting, an else-if or else 1, a boolean expression that is no operand of another its
    runs of equal operators, a labelled jump and a direct recursion 1.  A record is marked
    top-level exactly when no node around it is a function, and the sum of the metrics
    adds up the scores of the functions so marked. *)
Theorem ts_complexity_exact root metrics : all_single_fields root →
  let targets := omap scoredTSCCTarget (nodes root) in
  let record t := mkFunctionCognitiveComplexity (tt_name t) (tt_kind t) (locationFromNode (tt_node t)) (ts_target_score t) in
  let marked := stable_sort pair_less (map (λ t, (record t, tt_topLevel t)) targets) in
  let result := computeTSCognitiveComplexity root in
  let metrics := applyCognitiveComplexityAggregates metrics (fst result) (Some (snd result)) in
  result = (map fst marked, map snd marked)
  ∧ StronglySorted (not_after pair_less) marked
  ∧ met_MaxCognitiveComplexity metrics = foldr Z.max 0%Z (map ts_target_score targets)
  ∧ met_SumCognitiveComplexity metrics
    = sumz (map (λ t, if tt_topLevel t then ts_target_score t else 0%Z) targets).
Proof.
  intros H targets record marked result metrics'.
  assert (Hr : result = (map fst marked, map snd marked)).
  { subst result marked targets. unfold computeTSCognitiveComplexity. rewrite ts_targets_preorder.
    assert (E : combine (map ts_score_target (omap scoredTSCCTarget (nodes root)))
                  (map tt_topLevel (omap scoredTSCCTarget (nodes root)))
                = map (λ t, (record t, tt_topLevel t)) (omap scoredTSCCTarget (nodes root))); [|by rewrite E].
    rewrite combine_maps. apply map_ext_in. intros t Ht. f_equal. by eapply ts_score_target_exact. }
  assert (Hp : map (λ t, (record t, tt_topLevel t)) targets ≡ₚ marked) by (symmetry; apply stable_sort_perm).
  split; [done|]. split; [apply stable_sort_sorted, _|]. subst metrics'. rewrite Hr. cbn [fst snd].
  destruct (aggregates_exact metrics (map fst marked) (Some (map snd marked))) as (Hm & Hs & _). split.
  - rewrite Hm. rewrite <- (max_perm _ _ 0 (Permutation_map fcc_Score (Permutation_map fst Hp))). by rewrite !map_map.
  - rewrite Hs, sum_marked. rewrite <- (sumz_perm _ _ (Permutation_map _ Hp)). by rewrite map_map.
Qed.

(** ** Examples *)

Module TsComplexityExample.
Definition boolean (op : string) (l r : Sketch) : Sketch :=
  Br "binary_expression" [("left", l); ("operator", Tok op op); ("right", r)].
Definition paren (s : Sketch) : Sketch := Br "parenthesized_expression" [tok "("; ("", s); tok ")"].
Definition block (ss : list (string * Sketch)) : Sketch := Br "statement_block" (tok "{" :: ss ++ [tok "}"]).
Definition if_ (cond body : Sketch) (alt : list (string * Sketch)) : Sketch :=
  Br "if_statement" ([tok "if"; ("condition", paren cond); ("consequence", body)] ++ alt).
Definition else_ (s : Sketch) : string * Sketch := ("alternative", Br "else_clause" [tok "else"; ("", s)]).
Definition call (f : string) : Sketch :=
  Br "call_expression" [("function", ident f); ("arguments", Br "arguments" [tok "("; tok ")"])].

(** [function f() { if (a && (b || c)) { while (a) { f() } } else if (b) { break L } else { const g = () => a ? b : c } }] *)
Definition f : Sketch :=
  Br "function_declaration"
    [tok "function"; ("name", ident "f"); ("parameters", Br "formal_parameters" [tok "("; tok ")"]);
     ("body", block
        [("", if_ (boolean "&&" (ident "a") (paren (boolean "||" (ident "b") (ident "c"))))
                (block [("", Br "while_statement" [tok "while"; ("condition", paren (ident "a")); ("body", block [("", call "f")])])])
                [else_ (if_ (ident "b")
                   (block [("", Br "break_statement" [tok "break"; ("label", Tok "statement_identifier" "L")])])
                   [else_ (block [("", Br "lexical_declaration" [tok "const"; ("", Br "variable_declarator"
                      [("name", ident "g"); tok "=";
                       ("value", Br "arrow_function" [("parameters", Br "formal_parameters" [tok "("; tok ")"]); tok "=>";
                          ("body", Br "ternary_expression" [("condition", ident "a"); tok "?"; ("consequence", ident "b");
                                     tok ":"; ("alternative", ident "c")])])])])])])])])].

Definition file : Node := parsed (Br "program" [("", f)]).

Definition ok_fields (n : Node) : bool := forallb (λ c : list string * Tree, length (fst c) <=? 1) (subtrees (n_tree n)).

Lemma ts_all_fields : all_single_fields file.
Proof.
  assert (H : forallb ok_fields (nodes file) = true) by (vm_compute; reflexivity).
  intros n Hn c Hc. rewrite forallb_forall in H. specialize (H n Hn). unfold ok_fields in H.
  rewrite forallb_forall in H. apply Nat.leb_le. by apply H.
Qed.

(** In [f]: the [if] 1, its condition 2 runs, the loop 2, the recursion 1, the else-if 1,
    the labelled break 1, the else 1, and the ternary in [g], three deep, 3.  In [g]
    itself the ternary is 1; only [f] is top-level. *)
Lemma ts_complexity_exact_witness :
  met_SumCognitiveComplexity
    (applyCognitiveComplexityAggregates zero_metrics (fst (computeTSCognitiveComplexity file))
       (Some (snd (computeTSCognitiveComplexity file)))) = 12%Z
  ∧ map (λ r, (fcc_Name r, fcc_Kind r, fcc_Score r)) (fst (computeTSCognitiveComplexity file))
    = [("f", "function", 12%Z); ("g", "arrow", 1%Z)].
Proof.
  destruct (ts_complexity_exact file zero_metrics ts_all_fields) as (_ & _ & _ & H).
  split; [rewrite H|]; by vm_compute.
Defined.
End TsComplexityExample.
