(* ===== verification/ReactScope.v ===== *)
(** * React scopes, JSX and hooks

    What the React extractors of [pkg/semantics] share ([react_components_scope.go],
    [react_components_candidacy.go], [react_components_wrappers.go],
    [react_local_function_names.go], [react_jsx_*.go], [react_use_state*.go]): walks that
    do not enter a nested component or function, names, JSX attributes, and the
    [useState] bindings of a component.

    A walk that stops below some nodes visits the nodes that have none of them on their
    way up ([scope_nodes_spec]). *)

From Stdlib Require Import Ascii.
From S2P Require Import Prelude GoOrder GoText Json Semantics Syntax Complexity GoUnquote TsSyntax TsScope TsFeatures.

(** ** Walks that stop below some nodes *)

Section cut.
Context (cut : Node → bool).

Definition cut_walk_body {S} (visit : S → Node → S) (rec : Node * S → S) (x : Node * S) : S :=
  let (n, s) := x in
  let s := visit s n in
  if cut n then s else fold_left (λ s child, rec (child, s)) (children n) s.

(** Pre-order, not below a node that is cut. *)
Definition cut_walk {S} (visit : S → Node → S) (n : Node) (s : S) : S :=
  descend (λ x, nheight (fst x)) snd (cut_walk_body visit) (n, s).

Definition cut_nodes_body (rec : Node → list Node) (n : Node) : list Node :=
  n :: (if cut n then [] else flat_map rec (children n)).

(** The nodes such a walk visits, in its order. *)
Definition cut_nodes : Node → list Node := descend nheight (λ _, []) cut_nodes_body.

Lemma cut_walk_eq {S} (visit : S → Node → S) n s :
  cut_walk visit n s
  = let s := visit s n in if cut n then s else fold_left (λ s child, cut_walk visit child s) (children n) s.
Proof. unfold cut_walk at 1. rewrite descend_eq; [done|descends_tac]. Qed.

Lemma cut_nodes_eq n : cut_nodes n = n :: (if cut n then [] else flat_map cut_nodes (children n)).
Proof. unfold cut_nodes at 1. rewrite descend_eq; [done|descends_tac]. Qed.

Lemma cut_walk_nodes {S} (visit : S → Node → S) n s : cut_walk visit n s = fold_left visit (cut_nodes n) s.
Proof.
  revert s. induction n as [n IH] using node_ind. intros s. rewrite cut_walk_eq, cut_nodes_eq. cbn [fold_left].
  destruct (cut n); [done|]. cbn zeta. rewrite fold_left_flat_map.
  apply fold_left_ext_In. intros s' m Hm. by apply IH.
Qed.

(** The ancestors of a node up to [root]. *)
Definition up_to (root n : Node) : list Node := firstn (length (n_up n) - length (n_up root)) (ancestors n).

Lemma up_to_child root p n : In n (children p) → length (n_up root) ≤ length (n_up p) →
  up_to root n = p :: up_to root p.
Proof.
  intros Hn Hle. unfold up_to. rewrite (child_ancestors p n Hn), (child_depth p n Hn).
  by replace (S (length (n_up p)) - length (n_up root)) with (S (length (n_up p) - length (n_up root))) by lia.
Qed.

Lemma filter_none {A} (f : A → bool) l : (∀ x, In x l → f x = false) → List.filter f l = [].
Proof.
  induction l as [|x l IH]; intros H; [done|]. cbn. rewrite (H x) by (by left). apply IH. intros. apply H. by right.
Qed.

Lemma filter_flat_map {A B} (f : B → bool) (g : A → list B) l :
  List.filter f (flat_map g l) = flat_map (λ x, List.filter f (g x)) l.
Proof. induction l as [|x l IH]; [done|]. cbn. by rewrite filter_app, IH. Qed.

(** The nodes visited are the ones with no cut between them and the root. *)
Lemma cut_nodes_spec root :
  cut_nodes root = List.filter (λ n, forallb (λ p, negb (cut p)) (up_to root n)) (nodes root).
Proof.
  assert (Hno : ∀ n, length (n_up root) ≤ length (n_up n) → forallb (λ p, negb (cut p)) (up_to root n) = false →
    List.filter (λ n, forallb (λ p, negb (cut p)) (up_to root n)) (nodes n) = []).
  { induction n as [n IH] using node_ind. intros Hle Hf. rewrite nodes_eq. cbn [List.filter]. rewrite Hf.
    rewrite filter_flat_map. apply flat_map_nil. intros m Hm. apply IH; [done| |].
    - rewrite (child_depth n m Hm). lia.
    - rewrite (up_to_child root n m) by done. cbn. rewrite Hf. apply andb_false_r. }
  enough (H : ∀ n, length (n_up root) ≤ length (n_up n) → forallb (λ p, negb (cut p)) (up_to root n) = true →
    cut_nodes n = List.filter (λ n, forallb (λ p, negb (cut p)) (up_to root n)) (nodes n)).
  { apply H; [done|]. unfold up_to. by rewrite Nat.sub_diag. }
  induction n as [n IH] using node_ind. intros Hle Hf. rewrite cut_nodes_eq, nodes_eq. cbn [List.filter]. rewrite Hf.
  f_equal. rewrite filter_flat_map.
  assert (Hm : ∀ m, In m (children n) →
    forallb (λ p, negb (cut p)) (up_to root m) = negb (cut n)).
  { intros m Hm. rewrite (up_to_child root n m) by done. cbn. by rewrite Hf, andb_true_r. }
  assert (Hd : ∀ m, In m (children n) → length (n_up root) ≤ length (n_up m)).
  { intros m Hm'. rewrite (child_depth n m Hm'). lia. }
  destruct (cut n); [symmetry; apply flat_map_nil|apply flat_map_ext_In]; intros m Hin.
  - apply Hno; [by apply Hd|]. by rewrite Hm.
  - apply IH; [done|by apply Hd|by rewrite Hm].
Qed.
End cut.

#[global] Arguments cut_nodes : simpl never.

(** ** [react_components_candidacy.go], [react_components_scope.go] *)

Section react.
Context {U : Unicode}.

(** go: pkg/semantics/react_components_candidacy.go#isPascalCaseName *)
Definition isPascalCaseName (name : string) : bool :=
  match next_rune name with
  | None => false
  | Some (r, _) => IsUpper r
  end.

(** [use[A-Z]] at the start.
    go: pkg/semantics/react_components_candidacy.go#reactHookNamePattern *)
Definition reactHookNamePattern (s : string) : bool :=
  match s with
  | String a (String b (String c (String d _))) =>
      (String a (String b (String c "")) == "use") && in_range 65 90 (code d)
  | _ => false
  end.

(** A callee that is one of some names, bare or as a property of [React]. *)
Definition react_callee (matches : string → bool) (call : Node) : bool :=
  match ChildByFieldName call "function" with
  | None => false
  | Some fn =>
      if Kind fn == "identifier" then matches (Utf8Text fn)
      else if Kind fn == "member_expression" then
        match ChildByFieldName fn "object", ChildByFieldName fn "property" with
        | Some obj, Some prop =>
            if (Kind obj != "identifier") || (Utf8Text obj != "React") then false
            else matches (Utf8Text prop)
        | _, _ => false
        end
      else false
  end.

(** go: pkg/semantics/react_components_candidacy.go#reactIsHookCallee *)
Definition reactIsHookCallee (call : Node) : bool := react_callee reactHookNamePattern call.

(** go: pkg/semantics/react_components_scope.go#reactIsNestedComponent *)
Definition reactIsNestedComponent (n : Node) : bool :=
  let bound := let bound := tsBoundIdentifierName n in (bound != func_lit) && isPascalCaseName bound in
  if Kind n == "function_declaration" then
    match ChildByFieldName n "name" with
    | Some name => isPascalCaseName (Utf8Text name)
    | None => false
    end
  else if Kind n == "function_expression" then
    match ChildByFieldName n "name" with
    | Some name => isPascalCaseName (Utf8Text name)
    | None => bound
    end
  else if Kind n == "arrow_function" then bound
  else false.

(** go: pkg/semantics/react_components_scope.go#reactWalkScope *)
Definition reactWalkScope {S} (visit : S → Node → S) (n : option Node) (s : S) : S :=
  match n with None => s | Some n => cut_walk reactIsNestedComponent visit n s end.

Definition jsx_kinds : list string := ["jsx_element"; "jsx_self_closing_element"; "jsx_fragment"].

(** go: pkg/semantics/react_components_scope.go#reactScopeContainsJSX *)
Definition reactScopeContainsJSX (body : Node) : bool :=
  reactWalkScope (λ found n, if found : bool then found else one_of jsx_kinds (Kind n)) (Some body) false.

(** go: pkg/semantics/react_components_scope.go#reactScopeInvokesHook *)
Definition reactScopeInvokesHook (body : Node) : bool :=
  reactWalkScope (λ found n,
    if found || (Kind n != "call_expression") then found else reactIsHookCallee n) (Some body) false.

(** ** [react_components_wrappers.go] *)

(** go: pkg/semantics/react_components_wrappers.go#isReactWrapperCallee *)
Definition isReactWrapperCallee (call : Node) : bool := react_callee (one_of ["memo"; "forwardRef"]) call.

(** go: pkg/semantics/react_components_wrappers.go#reactFirstArgumentNode *)
Definition reactFirstArgumentNode (argsNode : Node) : option Node := first_not ["("; ")"; ","] argsNode.

(** go: pkg/semantics/react_components_wrappers.go#reactResolveFunctionLike *)
Definition reactResolveFunctionLike (n : option Node) : option Node :=
  match n with
  | None => None
  | Some m =>
      if one_of ["function_declaration"; "function_expression"; "arrow_function"] (Kind m) then n
      else if Kind m == "call_expression" then
        if negb (isReactWrapperCallee m) then None
        else match ChildByFieldName m "arguments" with
        | None => None
        | Some args =>
            match reactFirstArgumentNode args with
            | None => None
            | Some first =>
                if (Kind first == "function_expression") || (Kind first == "arrow_function") then Some first else None
            end
        end
      else None
  end.

(** ** [react_local_function_names.go] *)

(** go: pkg/semantics/react_local_function_names.go#reactBoundIdentifierName *)
Definition reactBoundIdentifierName (parent : option Node) : option string :=
  let bound nameNode :=
    match nameNode with
    | None => None
    | Some nameNode =>
        if Kind nameNode != "identifier" then None
        else let nme := Utf8Text nameNode in if nme == "" then None else Some nme
    end in
  match parent with
  | None => None
  | Some parent =>
      if Kind parent == "variable_declarator" then bound (ChildByFieldName parent "name")
      else if Kind parent == "assignment_expression" then bound (ChildByFieldName parent "left")
      else None
  end.

(** go: pkg/semantics/react_local_function_names.go#reactLocalFunctionBindingName *)
Definition reactLocalFunctionBindingName (n : Node) : option string :=
  if Kind n == "function_declaration" then
    if reactIsNestedComponent n then None
    else match ChildByFieldName n "name" with
    | None => None
    | Some name => let nme := Utf8Text name in if nme == "" then None else Some nme
    end
  else if one_of ["function_expression"; "arrow_function"] (Kind n) then
    if reactIsNestedComponent n then None else reactBoundIdentifierName (Parent n)
  else None.

(** ** [react_jsx_attributes.go], [react_jsx_elements.go] *)

(** go: pkg/semantics/react_jsx_attributes.go#reactJSXAttributes *)
Definition reactJSXAttributes (n : Node) : list Node := List.filter (λ c, Kind c == "jsx_attribute") (children n).

(** go: pkg/semantics/react_jsx_attributes.go#reactJSXAttributeNameText *)
Definition reactJSXAttributeNameText (attr : Node) : string :=
  match Child attr 0 with
  | None => ""
  | Some nameNode => if Kind nameNode != "property_identifier" then "" else Utf8Text nameNode
  end.

(** go: pkg/semantics/react_jsx_attributes.go#reactJSXAttributeValueNode *)
Definition reactJSXAttributeValueNode (attr : Node) : option Node :=
  if (ChildCount attr <? 3)%Z then None else Child attr 2.

(** go: pkg/semantics/react_jsx_attributes.go#reactJSXExpressionInner *)
Definition reactJSXExpressionInner (jsxExpr : Node) : option Node := first_not ["{"; "}"] jsxExpr.

(** [text[1:len(text)-1]] between two equal quotes of one of these kinds. *)
Definition stripQuotes (text : string) : option string :=
  if String.length text <? 2 then None
  else if negb (same_quotes text) then None else Some (inner text).

(** go: pkg/semantics/react_jsx_attributes.go#reactBareStringText *)
Definition reactBareStringText (n : option Node) : option string :=
  match n with
  | None => None
  | Some n => if Kind n != "string" then None else stripQuotes (Utf8Text n)
  end.

Definition reactContainsJSX_body (rec : Node → bool) (n : Node) : bool :=
  if one_of jsx_kinds (Kind n) then true else existsb rec (children n).

(** go: pkg/semantics/react_jsx_elements.go#reactContainsJSX *)
Definition reactContainsJSX (n : option Node) : bool :=
  match n with None => false | Some n => descend nheight (λ _, false) reactContainsJSX_body n end.

(** go: pkg/semantics/react_jsx_elements.go#reactJSXElementTagName *)
Definition reactJSXElementTagName (n : Node) : string :=
  let name_of n := match ChildByFieldName n "name" with Some name => Utf8Text name | None => "" end in
  if Kind n == "jsx_element" then
    match ChildByFieldName n "open_tag" with
    | None => ""
    | Some open => name_of open
    end
  else if Kind n == "jsx_self_closing_element" then name_of n
  else "".

(** go: pkg/semantics/react_jsx_elements.go#reactPascalCaseJSXTag *)
Definition reactPascalCaseJSXTag (n : Node) : option string :=
  if negb (one_of ["jsx_opening_element"; "jsx_self_closing_element"] (Kind n)) then None
  else match ChildByFieldName n "name" with
  | None => None
  | Some nameNode =>
      let tag := Utf8Text nameNode in
      if negb (isPascalCaseName tag) then None else Some tag
  end.

(** ** [react_use_state.go], [react_use_state_bindings.go] *)

(** go: pkg/semantics/react_use_state.go#isReactUseStateCallee *)
Definition isReactUseStateCallee (call : Node) : bool := react_callee (String.eqb "useState") call.

(** go: pkg/semantics/react_use_state_bindings.go#reactArrayPatternOnComma *)
Definition reactArrayPatternOnComma (out : list (option Node)) (pendingElement : bool) : list (option Node) :=
  if pendingElement then out else out ++ [None].

(** go: pkg/semantics/react_use_state_bindings.go#reactArrayPatternElements *)
Definition reactArrayPatternElements (n : Node) : list (option Node) :=
  fst (fold_left (λ '(out, pendingElement) c,
    if one_of ["["; "]"] (Kind c) then (out, pendingElement)
    else if Kind c == "," then (reactArrayPatternOnComma out pendingElement, false)
    else (out ++ [Some c], true)) (children n) ([], false)).

(** go: pkg/semantics/react_use_state_bindings.go#reactUseStateBindingNames *)
Definition reactUseStateBindingNames (call : Node) : string * string :=
  match Parent call with
  | None => ("", "")
  | Some parent =>
      if Kind parent != "variable_declarator" then ("", "")
      else match ChildByFieldName parent "value" with
      | None => ("", "")
      | Some value =>
          if negb (sameNodeSpan value call) then ("", "")
          else match ChildByFieldName parent "name" with
          | None => ("", "")
          | Some name =>
              if Kind name == "identifier" then (Utf8Text name, "")
              else if Kind name == "array_pattern" then
                let elems := reactArrayPatternElements name in
                let slot i :=
                  match elems !! i with
                  | Some (Some e) => if Kind e == "identifier" then Utf8Text e else ""
                  | _ => ""
                  end in
                (slot 0, slot 1)
              else ("", "")
          end
      end
  end.

Definition start_less (a b : Node) : bool := (StartByte a <? StartByte b)%N.

(** The calls of a scope that satisfy a test, by position. *)
Definition scope_calls (test : Node → bool) (body : Node) : list Node :=
  stable_sort start_less
    (reactWalkScope (λ calls n,
       if Kind n != "call_expression" then calls else if test n then calls ++ [n] else calls) (Some body) []).

(** go: pkg/semantics/react_use_state.go#reactExtractUseState *)
Definition reactExtractUseState (body : Node) : list ReactUseStateBinding :=
  map (λ call,
    let (binding, setter) := reactUseStateBindingNames call in
    mkReactUseStateBinding binding setter (locationFromNode call))
    (scope_calls isReactUseStateCallee body).
End react.

(** ** What a walk of a scope collects *)

Section scope.
Context {U : Unicode}.

(** The nodes of a component: no nested component is entered. *)
Definition scope_nodes (body : Node) : list Node := cut_nodes reactIsNestedComponent body.

Lemma reactWalkScope_nodes {S} (visit : S → Node → S) body s :
  reactWalkScope visit (Some body) s = fold_left visit (scope_nodes body) s.
Proof. apply cut_walk_nodes. Qed.

Lemma fold_collect {A B} (f : A → list B) (step : list B → A → list B) l acc :
  (∀ acc x, step acc x = acc ++ f x) → fold_left step l acc = acc ++ flat_map f l.
Proof.
  intros H. revert acc. induction l as [|x l IH]; intros acc; cbn; [by rewrite app_nil_r|].
  by rewrite IH, H, <- (assoc_L (++)).
Qed.

Lemma flat_map_test {A} (f : A → bool) l : flat_map (λ x, if f x then [x] else []) l = List.filter f l.
Proof. induction l as [|x l IH]; [done|]. cbn. rewrite IH. by destruct (f x). Qed.

Lemma fold_some {A} (f : A → bool) (step : bool → A → bool) l b :
  (∀ b x, step b x = b || f x) → fold_left step l b = b || existsb f l.
Proof.
  intros H. revert b. induction l as [|x l IH]; intros b; cbn; [by rewrite orb_false_r|].
  by rewrite IH, H, orb_assoc.
Qed.

Definition is_call (test : Node → bool) (n : Node) : bool := (Kind n == "call_expression") && test n.

Lemma scope_calls_filter test body :
  scope_calls test body = stable_sort start_less (List.filter (is_call test) (scope_nodes body)).
Proof.
  unfold scope_calls. rewrite reactWalkScope_nodes. f_equal.
  rewrite (fold_collect (λ n, if is_call test n then [n] else [])); [apply flat_map_test|].
  intros acc n. unfold is_call. destruct (Kind n == "call_expression"); cbn [negb andb]; [|by rewrite app_nil_r].
  destruct (test n); [done|by rewrite app_nil_r].
Qed.

Lemma reactScopeContainsJSX_exists body :
  reactScopeContainsJSX body = existsb (λ n, one_of jsx_kinds (Kind n)) (scope_nodes body).
Proof.
  unfold reactScopeContainsJSX. rewrite reactWalkScope_nodes.
  by rewrite (fold_some (λ n, one_of jsx_kinds (Kind n))) by (by intros [] x).
Qed.

Lemma reactScopeInvokesHook_exists body :
  reactScopeInvokesHook body = existsb (is_call reactIsHookCallee) (scope_nodes body).
Proof.
  unfold reactScopeInvokesHook. rewrite reactWalkScope_nodes.
  rewrite (fold_some (is_call reactIsHookCallee)); [done|]. intros b x. unfold is_call.
  destruct b; [done|]. by destruct (Kind x == "call_expression").
Qed.

Definition is_jsx (n : Node) : bool := one_of jsx_kinds (Kind n).

Lemma existsb_flat_map {A B} (f : B → bool) (g : A → list B) l :
  existsb f (flat_map g l) = existsb (λ x, existsb f (g x)) l.
Proof. induction l as [|x l IH]; [done|]. cbn [flat_map existsb]. by rewrite existsb_app, IH. Qed.

Lemma reactContainsJSX_exists n : reactContainsJSX (Some n) = existsb is_jsx (nodes n).
Proof.
  assert (Heq : ∀ m, reactContainsJSX (Some m) = if is_jsx m then true else existsb (λ c, reactContainsJSX (Some c)) (children m)).
  { intros m. apply (descend_eq nheight (λ _, false) reactContainsJSX_body). descends_tac. }
  induction n as [n IH] using node_ind. rewrite Heq, nodes_eq.
  change (existsb is_jsx (n :: flat_map nodes (children n)))
    with (is_jsx n || existsb is_jsx (flat_map nodes (children n))).
  rewrite existsb_flat_map. destruct (is_jsx n); [done|]. by apply existsb_ext_In.
Qed.
End scope.

#[global] Arguments scope_nodes {U} body : simpl never.
