(* ===== verification/ReactFacts.v ===== *)
(** * Coordination facts of a React component

    The three kinds of fact a component's body gives besides its state bindings: functions
    that update several of them ([react_coordinated_transitions*.go]), workspace branches
    ([react_workspace_branches*.go]), imperative calls ([react_imperative_ui.go]) and
    state shared by several panels ([react_shared_panel_deps*.go]). *)

From Stdlib Require Import Ascii Sorted.
From stdpp Require sorting.
From S2P Require Import Prelude GoOrder GoText Json Semantics Syntax Complexity GoUnquote Nesting TsSyntax TsScope TsFeatures TsComplexity ReactScope.

Section facts.
Context {U : Unicode}.

(** The name of a function's own, if any.
    go: pkg/semantics/react_components_exports.go#reactFuncOwnName *)
Definition reactFuncOwnName (n : option Node) : string :=
  match n with
  | None => ""
  | Some n => match ChildByFieldName n "name" with Some name => Utf8Text name | None => "" end
  end.

(** ** [react_coordinated_transitions_kinds.go], [react_coordinated_transitions_effects.go],
    [react_coordinated_transitions_handlers.go] *)

(** go: pkg/semantics/react_coordinated_transitions_kinds.go#reactTransitionNameOrAnonymous *)
Definition reactTransitionNameOrAnonymous (fn : Node) : string :=
  let own := reactFuncOwnName (Some fn) in
  if own != "" then own else "<anonymous>".

(** go: pkg/semantics/react_coordinated_transitions_effects.go#reactIsEffectHookCallee *)
Definition reactIsEffectHookCallee (call : Node) : bool := react_callee (one_of ["useEffect"; "useLayoutEffect"]) call.

(** The first argument is never missing: the function is one of the children.
    go: pkg/semantics/react_coordinated_transitions_effects.go#reactTransitionEffect *)
Definition reactTransitionEffect (fn : Node) (parent : option Node) : option (string * string) :=
  match parent with
  | None => None
  | Some parent =>
      if Kind parent != "arguments" then None
      else if negb (match reactFirstArgumentNode parent with Some a => sameNodeSpan a fn | None => false end) then None
      else match Parent parent with
      | None => None
      | Some call =>
          if (Kind call != "call_expression") || negb (reactIsEffectHookCallee call) then None
          else Some ("effect", reactTransitionNameOrAnonymous fn)
      end
  end.

Fixpoint lower_ascii (s : string) : string :=
  match s with EmptyString => EmptyString | String c s => String (lower_byte c) (lower_ascii s) end.

(** [(?i)^(on|handle)]: none of these letters has a case variant outside ASCII.
    go: pkg/semantics/react_coordinated_transitions_handlers.go#reactHandlerNamePattern *)
Definition reactHandlerNamePattern (s : string) : bool :=
  let s := lower_ascii s in
  HasPrefix "on" s || HasPrefix "handle" s.

(** [^on[A-Z]].
    go: pkg/semantics/react_coordinated_transitions_handlers.go#reactJSXOnAttrPattern *)
Definition reactJSXOnAttrPattern (s : string) : bool :=
  match s with
  | String a (String b (String c _)) => (String a (String b "") == "on") && in_range 65 90 (code c)
  | _ => false
  end.

(** go: pkg/semantics/react_coordinated_transitions_handlers.go#reactTransitionBoundKind *)
Definition reactTransitionBoundKind (parent : Node) : option (string * string) :=
  let text kind n :=
    match n with
    | None => None
    | Some n => if Kind n != kind then None else Some (Utf8Text n)
    end in
  let name :=
    if Kind parent == "variable_declarator" then text "identifier" (ChildByFieldName parent "name")
    else if Kind parent == "assignment_expression" then text "identifier" (ChildByFieldName parent "left")
    else if Kind parent == "pair" then text "property_identifier" (ChildByFieldName parent "key")
    else None in
  (λ n, if reactHandlerNamePattern n then ("handler", n) else ("callback", n)) <$> name.

(** go: pkg/semantics/react_coordinated_transitions_handlers.go#reactTransitionJSXHandlerName *)
Definition reactTransitionJSXHandlerName (parent : Node) : option string :=
  if Kind parent != "jsx_expression" then None
  else match Parent parent with
  | None => None
  | Some attr =>
      if Kind attr != "jsx_attribute" then None
      else let n := reactJSXAttributeNameText attr in
      if negb (reactJSXOnAttrPattern n) then None else Some n
  end.

(** go: pkg/semantics/react_coordinated_transitions_kinds.go#reactTransitionKindAndName *)
Definition reactTransitionKindAndName (fn : Node) : string * string :=
  let parent := Parent fn in
  match reactTransitionEffect fn parent with
  | Some kn => kn
  | None =>
      match parent with
      | None => ("callback", reactTransitionNameOrAnonymous fn)
      | Some parent =>
          match reactTransitionBoundKind parent with
          | Some kn => kn
          | None =>
              match reactTransitionJSXHandlerName parent with
              | Some name => ("handler", name)
              | None => ("callback", reactTransitionNameOrAnonymous fn)
              end
          end
      end
  end.

(** ** [react_coordinated_transitions.go], [react_coordinated_transitions_setter_calls.go] *)

Definition local_function_kinds : list string := ["function_declaration"; "function_expression"; "arrow_function"].

(** go: pkg/semantics/react_coordinated_transitions_setter_calls.go#reactWalkLocalScope *)
Definition reactWalkLocalScope {S} (visit : S → Node → S) (n : option Node) (s : S) : S :=
  match n with None => s | Some n => cut_walk (λ n, one_of local_function_kinds (Kind n)) visit n s end.

(** go: pkg/semantics/react_coordinated_transitions_setter_calls.go#reactBindingsUpdatedBy *)
Definition reactBindingsUpdatedBy (fn : Node) (setters : gmap string string) : list string :=
  let updated := reactWalkLocalScope (λ (updated : gset string) n,
    if Kind n != "call_expression" then updated
    else match ChildByFieldName n "function" with
    | None => updated
    | Some callee =>
        if Kind callee != "identifier" then updated
        else match setters !! Utf8Text callee with
        | Some binding => {[binding]} ∪ updated
        | None => updated
        end
    end) (ChildByFieldName fn "body") ∅ in
  if bool_decide (updated = ∅) then [] else sort_strings (elements updated).

(** go: pkg/semantics/react_coordinated_transitions.go#reactUseStateSetterIndex *)
Definition reactUseStateSetterIndex (useState : list ReactUseStateBinding) : gmap string string :=
  fold_left (λ setters u,
    if (usb_Setter u != "") && (usb_Binding u != "") then <[usb_Setter u := usb_Binding u]> setters else setters) useState ∅.

(** go: pkg/semantics/react_coordinated_transitions.go#reactLocalFunctions *)
Definition reactLocalFunctions (body : Node) : list Node :=
  reactWalkScope (λ funcs n,
    if one_of local_function_kinds (Kind n) then
      if reactIsNestedComponent n then funcs else funcs ++ [n]
    else funcs) (Some body) [].

Definition transition_of (fn : Node) (updated : list string) : ReactCoordinatedTransition :=
  let (kind, name) := reactTransitionKindAndName fn in
  mkReactCoordinatedTransition name kind (locationFromNode fn) updated.

Definition transition_less (a b : ReactCoordinatedTransition) : bool :=
  (loc_StartByte (rct_Location a) <? loc_StartByte (rct_Location b))%N.

(** go: pkg/semantics/react_coordinated_transitions.go#reactExtractCoordinatedTransitions *)
Definition reactExtractCoordinatedTransitions (body : Node) (useState : list ReactUseStateBinding) :
    list ReactCoordinatedTransition :=
  let setters := reactUseStateSetterIndex useState in
  if bool_decide (setters = ∅) then []
  else
    let out := fold_left (λ out fn,
      let updated := reactBindingsUpdatedBy fn setters in
      if length updated <? 2 then out else out ++ [transition_of fn updated]) (reactLocalFunctions body) [] in
    stable_sort transition_less out.

(** ** [react_workspace_branches_discriminants.go] *)

(** go: pkg/semantics/react_workspace_branches_discriminants.go#reactDiscriminantOps *)
Definition reactDiscriminantOps : list string := ["==="; "!=="; "=="; "!="].

(** go: pkg/semantics/react_workspace_branches_discriminants.go#reactDiscriminantBase *)
Definition reactDiscriminantBase (baseSide literalSide : Node) : option string :=
  if (Kind literalSide != "string") && (Kind literalSide != "number") then None
  else if one_of ["identifier"; "member_expression"] (Kind baseSide) then Some (Utf8Text baseSide)
  else None.

(** The condition of a branch, when it is a binary expression. *)
Definition binary_condition (n : Node) : option Node :=
  match unwrapTSParen (ChildByFieldName n "condition") with
  | None => None
  | Some cond => if Kind cond != "binary_expression" then None else Some cond
  end.

(** go: pkg/semantics/react_workspace_branches_discriminants.go#reactDiscriminantConditionBase *)
Definition reactDiscriminantConditionBase (n : Node) : option string :=
  match binary_condition n with
  | None => None
  | Some cond =>
      if negb (one_of reactDiscriminantOps (tsBinaryOp cond)) then None
      else match ChildByFieldName cond "left", ChildByFieldName cond "right" with
      | Some lhs, Some rhs =>
          match reactDiscriminantBase lhs rhs with
          | Some base => Some base
          | None => reactDiscriminantBase rhs lhs
          end
      | _, _ => None
      end
  end.

(** go: pkg/semantics/react_workspace_branches_discriminants.go#reactLiteralLabelText *)
Definition reactLiteralLabelText (n : option Node) : option string :=
  match n with
  | None => None
  | Some m =>
      if Kind m == "string" then reactBareStringText n
      else if Kind m == "number" then Some (Utf8Text m)
      else None
  end.

(** go: pkg/semantics/react_workspace_branches_discriminants.go#reactDiscriminantLiteralLabel *)
Definition reactDiscriminantLiteralLabel (n : Node) : string :=
  match binary_condition n with
  | None => ""
  | Some cond =>
      match reactLiteralLabelText (ChildByFieldName cond "left") with
      | Some lbl => lbl
      | None => default "" (reactLiteralLabelText (ChildByFieldName cond "right"))
      end
  end.

(** ** [react_workspace_branches_labels.go] *)

Definition reactPrimaryJSXElement_body (rec : Node → option Node) (n : Node) : option Node :=
  if one_of ["jsx_element"; "jsx_self_closing_element"] (Kind n) then Some n else first_some rec (children n).

(** go: pkg/semantics/react_workspace_branches_labels.go#reactPrimaryJSXElement *)
Definition reactPrimaryJSXElement : Node → option Node := descend nheight (λ _, None) reactPrimaryJSXElement_body.

(** go: pkg/semantics/react_workspace_branches_labels.go#reactCapitalizedJSXChildLabel *)
Definition reactCapitalizedJSXChildLabel (cons : Node) : string :=
  match reactPrimaryJSXElement cons with
  | None => ""
  | Some el =>
      let name := reactJSXElementTagName el in
      if (name == "") || negb (isPascalCaseName name) then "" else name
  end.

(** go: pkg/semantics/react_workspace_branches_labels.go#reactWorkspaceBranchLabel *)
Definition reactWorkspaceBranchLabel (condHolder : option Node) (cons : Node) : string :=
  let literal := match condHolder with Some h => reactDiscriminantLiteralLabel h | None => "" end in
  if literal != "" then literal
  else let lbl := reactCapitalizedJSXChildLabel cons in
  if lbl != "" then lbl else "<branch>".

(** ** [react_workspace_branches_ternary_chains.go], [react_workspace_branches_if_chains.go] *)

(** A branch that shows JSX. *)
Definition jsx_branch (condHolder : option Node) (cons : option Node) : option ReactWorkspaceBranch :=
  match cons with
  | None => None
  | Some c =>
      if negb (reactContainsJSX cons) then None
      else Some (mkReactWorkspaceBranch (reactWorkspaceBranchLabel condHolder c) (locationFromNode c))
  end.

(** go: pkg/semantics/react_workspace_branches_ternary_chains.go#reactResidualBranch *)
Definition reactResidualBranch (cons : option Node) : option ReactWorkspaceBranch := jsx_branch None cons.

(** go: pkg/semantics/react_workspace_branches_ternary_chains.go#reactTernaryBranch *)
Definition reactTernaryBranch (n : Node) : option ReactWorkspaceBranch :=
  jsx_branch (Some n) (unwrapTSParen (ChildByFieldName n "consequence")).

(** go: pkg/semantics/react_workspace_branches_if_chains.go#reactIfBranch *)
Definition reactIfBranch (n : Node) : option ReactWorkspaceBranch := jsx_branch (Some n) (ChildByFieldName n "consequence").

(** What follows a link of a chain: the next link, or the branch the chain ends in. *)
Definition ternary_continue (cur : Node) : option Node * option ReactWorkspaceBranch :=
  let alt := unwrapTSParen (ChildByFieldName cur "alternative") in
  if kind_is alt "ternary_expression" then (alt, None) else (None, reactResidualBranch alt).

(** go: pkg/semantics/react_workspace_branches_if_chains.go#reactIfChainContinue *)
Definition reactIfChainContinue (cur : Node) : option Node * option ReactWorkspaceBranch :=
  let alt := match ChildByFieldName cur "alternative" with
             | Some alt => if Kind alt == "else_clause" then tsElseClauseInner alt else Some alt
             | None => None
             end in
  if kind_is alt "if_statement" then (alt, None) else (None, reactResidualBranch alt).

(** The loop along a chain: the branches and the links so far are threaded. *)
Definition chain_loop_body (kind base : string) (branch : Node → option ReactWorkspaceBranch)
    (continue : Node → option Node * option ReactWorkspaceBranch)
    (rec : option Node * list ReactWorkspaceBranch * list Node → list ReactWorkspaceBranch * list Node)
    (x : option Node * list ReactWorkspaceBranch * list Node) : list ReactWorkspaceBranch * list Node :=
  let '(cur, branches, nodes) := x in
  match cur with
  | None => (branches, nodes)
  | Some cur =>
      if Kind cur != kind then (branches, nodes)
      else if bool_decide (reactDiscriminantConditionBase cur ≠ Some base) then (branches, nodes)
      else
        let nodes := nodes ++ [cur] in
        let branches := match branch cur with Some b => branches ++ [b] | None => branches end in
        let (next, terminal) := continue cur in
        match next with
        | Some _ => rec (next, branches, nodes)
        | None => (match terminal with Some b => branches ++ [b] | None => branches end, nodes)
        end
  end.
Definition chain_loop kind base branch continue (n : Node) : list ReactWorkspaceBranch * list Node :=
  descend (λ x, oheight (fst (fst x))) (λ _, ([], [])) (chain_loop_body kind base branch continue) (Some n, [], []).

(** go: pkg/semantics/react_workspace_branches_ternary_chains.go#reactCollectTernaryChain *)
Definition reactCollectTernaryChain (n : Node) (base : string) : list ReactWorkspaceBranch * list Node :=
  chain_loop "ternary_expression" base reactTernaryBranch ternary_continue n.

(** go: pkg/semantics/react_workspace_branches_if_chains.go#reactCollectIfChain *)
Definition reactCollectIfChain (n : Node) (base : string) : list ReactWorkspaceBranch * list Node :=
  chain_loop "if_statement" base reactIfBranch reactIfChainContinue n.

(** ** [react_workspace_branches.go], [react_workspace_branches_tabpanels.go] *)

(** go: pkg/semantics/react_workspace_branches.go#reactCollectDiscriminantChain *)
Definition reactCollectDiscriminantChain (n : Node) (base : string) : list ReactWorkspaceBranch * list Node :=
  if Kind n == "ternary_expression" then reactCollectTernaryChain n base
  else if Kind n == "if_statement" then reactCollectIfChain n base
  else ([], []).

Definition span (n : Node) : N * N := (StartByte n, EndByte n).

(** The branches and the start bytes seen.

    go: pkg/semantics/react_workspace_branches.go:17-23#addBranch *)
Definition addBranch (b : ReactWorkspaceBranch) (s : list ReactWorkspaceBranch * gset N) :
    list ReactWorkspaceBranch * gset N :=
  let (branches, seen) := s in
  let k := loc_StartByte (rwb_Location b) in
  if bool_decide (k ∈ seen) then s else (branches ++ [b], {[k]} ∪ seen).

(** go: pkg/semantics/react_workspace_branches.go#reactCollectDiscriminantBranches *)
Definition reactCollectDiscriminantBranches (body : Node) (s : list ReactWorkspaceBranch * gset N) :
    list ReactWorkspaceBranch * gset N :=
  snd (reactWalkScope (λ '(consumed, s) n,
    if negb (one_of ["ternary_expression"; "if_statement"] (Kind n)) then (consumed, s)
    else if bool_decide (span n ∈ (consumed : gset (N * N))) then (consumed, s)
    else match reactDiscriminantConditionBase n with
    | None => (consumed, s)
    | Some base =>
        let (chainBranches, chainNodes) := reactCollectDiscriminantChain n base in
        let consumed := fold_left (λ consumed cn, {[span cn]} ∪ consumed) chainNodes consumed in
        if length chainBranches <? 3 then (consumed, s)
        else (consumed, fold_left (λ s b, addBranch b s) chainBranches s)
    end) (Some body) (∅, s)).

(** go: pkg/semantics/react_workspace_branches_tabpanels.go#reactHasStringJSXAttr *)
Definition reactHasStringJSXAttr (attrs : list Node) (name want : string) : bool :=
  existsb (λ attr,
    if reactJSXAttributeNameText attr != name then false
    else match reactBareStringText (reactJSXAttributeValueNode attr) with Some s => s == want | None => false end) attrs.

(** go: pkg/semantics/react_workspace_branches_tabpanels.go#reactFirstStringJSXAttr *)
Definition reactFirstStringJSXAttr (attrs : list Node) (name : string) : string :=
  default "" (first_some (λ attr,
    if reactJSXAttributeNameText attr != name then None
    else reactBareStringText (reactJSXAttributeValueNode attr)) attrs).

(** go: pkg/semantics/react_workspace_branches_tabpanels.go#reactTabpanelBranch *)
Definition reactTabpanelBranch (n : Node) : option ReactWorkspaceBranch :=
  let attrs := reactJSXAttributes n in
  if negb (reactHasStringJSXAttr attrs "role" "tabpanel") then None
  else
    let label := reactFirstStringJSXAttr attrs "aria-label" in
    let label := if label == "" then reactFirstStringJSXAttr attrs "id" else label in
    let label := if label == "" then "tabpanel" else label in
    Some (mkReactWorkspaceBranch label (locationFromNode n)).

(** go: pkg/semantics/react_workspace_branches_tabpanels.go#reactCollectTabpanelBranches *)
Definition reactCollectTabpanelBranches (body : Node) (s : list ReactWorkspaceBranch * gset N) :
    list ReactWorkspaceBranch * gset N :=
  reactWalkScope (λ s n,
    if negb (one_of ["jsx_opening_element"; "jsx_self_closing_element"] (Kind n)) then s
    else match reactTabpanelBranch n with Some b => addBranch b s | None => s end) (Some body) s.

Definition branch_less (a b : ReactWorkspaceBranch) : bool :=
  (loc_StartByte (rwb_Location a) <? loc_StartByte (rwb_Location b))%N.

(** go: pkg/semantics/react_workspace_branches.go#reactExtractWorkspaceBranches *)
Definition reactExtractWorkspaceBranches (body : Node) : list ReactWorkspaceBranch :=
  let s := ([], ∅) in
  let s := reactCollectDiscriminantBranches body s in
  let s := reactCollectTabpanelBranches body s in
  stable_sort branch_less (fst s).

(** ** [react_imperative_ui.go] *)

(** go: pkg/semantics/react_imperative_ui.go#reactImperativeAPINames *)
Definition reactImperativeAPINames : list string :=
  ["getElementById"; "querySelector"; "querySelectorAll"; "focus"; "blur"; "scrollIntoView"].

(** go: pkg/semantics/react_imperative_ui.go#reactImperativeAPI *)
Definition reactImperativeAPI (call : Node) : string :=
  let known api := if one_of reactImperativeAPINames api then api else "" in
  match ChildByFieldName call "function" with
  | None => ""
  | Some fn =>
      if Kind fn == "member_expression" then
        match ChildByFieldName fn "property" with
        | None => ""
        | Some prop => known (Utf8Text prop)
        end
      else if Kind fn == "identifier" then known (Utf8Text fn)
      else ""
  end.

(** go: pkg/semantics/react_imperative_ui.go#reactExtractImperativeUI *)
Definition reactExtractImperativeUI (body : Node) : list ReactImperativeUICall :=
  map (λ c, mkReactImperativeUICall (reactImperativeAPI c) (locationFromNode c))
    (scope_calls (λ n, reactImperativeAPI n != "") body).

(** ** [react_shared_panel_deps_refs.go], [react_shared_panel_deps.go] *)

(** go: pkg/semantics/react_shared_panel_deps_refs.go#reactPanelDepRef *)
Record reactPanelDepRef := mkReactPanelDepRef { pdr_tag : string; pdr_id : string }.

(** go: pkg/semantics/react_shared_panel_deps_refs.go#reactIdentifierJSXAttrValues *)
Definition reactIdentifierJSXAttrValues (n : Node) : list string :=
  omap (λ attr,
    match reactJSXAttributeValueNode attr with
    | None => None
    | Some val =>
        if Kind val != "jsx_expression" then None
        else match reactJSXExpressionInner val with
        | None => None
        | Some inner => if Kind inner != "identifier" then None else Some (Utf8Text inner)
        end
    end) (reactJSXAttributes n).

(** go: pkg/semantics/react_shared_panel_deps_refs.go#reactAllowedPanelDepRefs *)
Definition reactAllowedPanelDepRefs (n : Node) (allow : gset string) : option (string * list string) :=
  match reactPascalCaseJSXTag n with
  | None => None
  | Some tag =>
      let ids := List.filter (λ idName, bool_decide (idName ∈ allow)) (reactIdentifierJSXAttrValues n) in
      match ids with [] => None | _ => Some (tag, ids) end
  end.

(** go: pkg/semantics/react_shared_panel_deps_refs.go#reactPanelDepRefsFromNode *)
Definition reactPanelDepRefsFromNode (n : Node) (allow : gset string) : list reactPanelDepRef :=
  match reactAllowedPanelDepRefs n allow with
  | None => []
  | Some (tag, ids) => map (mkReactPanelDepRef tag) ids
  end.

(** go: pkg/semantics/react_shared_panel_deps_refs.go#reactCollectPanelDepRefs *)
Definition reactCollectPanelDepRefs (body : Node) (allow : gset string) : list reactPanelDepRef :=
  reactWalkScope (λ refs n, refs ++ reactPanelDepRefsFromNode n allow) (Some body) [].

(** go: pkg/semantics/react_shared_panel_deps_refs.go#reactBuildDepTags *)
Definition reactBuildDepTags (refs : list reactPanelDepRef) : gmap string (gset string) :=
  fold_left (λ depTags ref, <[pdr_id ref := {[pdr_tag ref]} ∪ default ∅ (depTags !! pdr_id ref)]> depTags) refs ∅.

(** go: pkg/semantics/react_shared_panel_deps_refs.go#reactPanelDepTagIndex *)
Definition reactPanelDepTagIndex (body : Node) (allow : gset string) : gmap string (gset string) :=
  reactBuildDepTags (reactCollectPanelDepRefs body allow).

(** go: pkg/semantics/react_shared_panel_deps.go#reactKnownSharedDepNames *)
Definition reactKnownSharedDepNames (body : Node) (useState : list ReactUseStateBinding) : gset string :=
  let known := fold_left (λ (known : gset string) u,
    if usb_Binding u != "" then {[usb_Binding u]} ∪ known else known) useState ∅ in
  reactWalkScope (λ (known : gset string) n,
    match reactLocalFunctionBindingName n with Some name => {[name]} ∪ known | None => known end) (Some body) known.

(** go: pkg/semantics/react_shared_panel_deps.go#reactSharedDepsFromTags *)
Definition reactSharedDepsFromTags (depTags : gmap string (gset string)) : list ReactSharedPanelDep :=
  let names := omap (λ nt : string * gset string, if 2 <=? base.size (snd nt) then Some (fst nt) else None) (map_to_list depTags) in
  map (λ name, mkReactSharedPanelDep name (sort_strings (elements (default ∅ (depTags !! name))))) (sort_strings names).

(** go: pkg/semantics/react_shared_panel_deps.go#reactExtractSharedPanelDeps *)
Definition reactExtractSharedPanelDeps (body : Node) (useState : list ReactUseStateBinding) : list ReactSharedPanelDep :=
  let allow := reactKnownSharedDepNames body useState in
  if bool_decide (allow = ∅) then [] else reactSharedDepsFromTags (reactPanelDepTagIndex body allow).
End facts.

(** ** Chains *)

Section facts_proofs.
Context {U : Unicode}.

Lemma ternary_continue_smaller cur next t : ternary_continue cur = (Some next, t) → nheight next < nheight cur.
Proof.
  unfold ternary_continue. pose proof (unwrapTSParen_height (ChildByFieldName cur "alternative")) as Hu.
  pose proof (ChildByFieldName_height cur "alternative") as Hc.
  destruct (kind_is _ _); [|done]. intros [= E _]. rewrite E in Hu. cbn in *. lia.
Qed.

Lemma reactIfChainContinue_smaller cur next t : reactIfChainContinue cur = (Some next, t) → nheight next < nheight cur.
Proof.
  unfold reactIfChainContinue. pose proof (ChildByFieldName_height cur "alternative") as Hc.
  destruct (ChildByFieldName cur "alternative") as [alt|]; [|done]. cbn [oheight] in Hc.
  pose proof (opened_height alt) as Ho. unfold opened in Ho.
  destruct (kind_is _ _); [|done]. intros [= E _]. rewrite E in Ho. cbn in *. lia.
Qed.

Section chain.
Context (kind base : string) (branch : Node → option ReactWorkspaceBranch).
Context (continue : Node → option Node * option ReactWorkspaceBranch).
Hypothesis smaller_next : ∀ cur next t, continue cur = (Some next, t) → nheight next < nheight cur.

(** A link of the chain: of the kind of its construct, with a condition on the base. *)
Definition link (n : Node) : bool := (Kind n == kind) && bool_decide (reactDiscriminantConditionBase n = Some base).

Notation loop := (descend (λ x : option Node * list ReactWorkspaceBranch * list Node, oheight (fst (fst x)))
  (λ _, ([], [])) (chain_loop_body kind base branch continue)).

Lemma loop_eq x : loop x = chain_loop_body kind base branch continue loop x.
Proof.
  apply (descend_eq _ (λ _, ([], []))). intros g h [[[cur|] bs] ns] H; unfold chain_loop_body; [|done].
  destruct (Kind cur != kind); [done|]. destruct (bool_decide _); [done|].
  destruct (continue cur) as [[next|] t] eqn:E; [|done]. apply H. cbn. by eapply smaller_next.
Qed.

(** The links of a chain, one the continuation of the other. *)
Inductive chain_of : Node → list Node → list ReactWorkspaceBranch → Prop :=
| chain_stop n : link n = false → chain_of n [] []
| chain_end n t : link n = true → continue n = (None, t) → chain_of n [n] (option_list (branch n) ++ option_list t)
| chain_next n m t ns bs : link n = true → continue n = (Some m, t) → chain_of m ns bs →
    chain_of n (n :: ns) (option_list (branch n) ++ bs).

Lemma loop_chain n ns bs : ∀ ns' bs', chain_of n ns' bs' → loop (Some n, bs, ns) = (bs ++ bs', ns ++ ns').
Proof.
  intros ns' bs' H. revert ns bs. induction H as [n Hl|n t Hl Hc|n m t ns' bs' Hl Hc _ IH]; intros ns bs;
    rewrite loop_eq; unfold chain_loop_body; unfold link in Hl.
  - rewrite !app_nil_r. destruct (Kind n == kind); [|done]. cbn [negb andb] in *.
    rewrite bool_decide_eq_false in Hl. by rewrite bool_decide_true.
  - apply andb_prop in Hl as [-> Hb%bool_decide_eq_true]. cbn [negb]. rewrite bool_decide_false by (intros ?; done).
    rewrite Hc. destruct (branch n), t; cbn; by rewrite ?app_nil_r, <- ?(assoc_L (++)).
  - apply andb_prop in Hl as [-> Hb%bool_decide_eq_true]. cbn [negb]. rewrite bool_decide_false by (intros ?; done).
    rewrite Hc, IH. destruct (branch n); cbn; by rewrite <- ?(assoc_L (++)).
Qed.

Lemma chain_exists n : ∃ ns bs, chain_of n ns bs.
Proof.
  induction n as [n IH] using node_height_ind. destruct (link n) eqn:El; [|do 2 eexists; by apply chain_stop].
  destruct (continue n) as [[m|] t] eqn:Ec.
  - destruct (IH m) as (ns & bs & Hm); [by eapply smaller_next|]. do 2 eexists. by eapply chain_next.
  - do 2 eexists. by eapply chain_end.
Qed.

(** The loop ends, and returns the links and the branches of the chain. *)
Lemma chain_loop_chain n : chain_of n (snd (chain_loop kind base branch continue n)) (fst (chain_loop kind base branch continue n)).
Proof.
  destruct (chain_exists n) as (ns & bs & H). unfold chain_loop.
  assert (E : loop (Some n, [], []) = (bs, ns)) by (by rewrite (loop_chain n [] [] ns bs)).
  by rewrite E.
Qed.

Lemma chain_head n ns bs : chain_of n ns bs → link n = true → ∃ tail, ns = n :: tail.
Proof. intros [k Hl|k t Hl Hc|k m t ns' bs' Hl Hc H] Hn; [congruence|eauto|eauto]. Qed.
End chain.

(** ** The state of [add] *)

Definition start_of (b : ReactWorkspaceBranch) : option N := Some (loc_StartByte (rwb_Location b)).

(** The branches added so far: those offered, without repetitions. *)
Definition offered (s : list ReactWorkspaceBranch * gset N) (bs : list ReactWorkspaceBranch)
    (s' : list ReactWorkspaceBranch * gset N) : Prop :=
  fst s' = fst s ++ keep_first start_of (snd s) bs ∧ snd s' = keys start_of bs ∪ snd s.

Lemma offered_nil s : offered s [] s.
Proof. split; [by rewrite app_nil_r|]. unfold keys. cbn. set_solver. Qed.

Lemma offered_app s1 s2 s3 l1 l2 : offered s1 l1 s2 → offered s2 l2 s3 → offered s1 (l1 ++ l2) s3.
Proof.
  intros (F1 & T1) (F2 & T2). split.
  - by rewrite F2, F1, T1, keep_first_app, (assoc_L (++)).
  - rewrite T2, T1, keys_app. set_solver.
Qed.

Lemma addBranch_offered b s : offered s [b] (addBranch b s).
Proof.
  destruct s as [bs seen]. unfold addBranch, offered. rewrite keep_first_step. cbn [start_of fst snd].
  assert (Hk : keys start_of [b] = {[loc_StartByte (rwb_Location b)]}).
  { unfold keys. cbn. by rewrite (right_id_L ∅ (∪)). }
  rewrite Hk. case_bool_decide as H; cbn [fst snd keep_first]; split; rewrite ?app_nil_r; [done|set_solver|done|done].
Qed.

Lemma fold_offered {A} (f : A → list ReactWorkspaceBranch) (step : list ReactWorkspaceBranch * gset N → A → _) l s :
  (∀ s x, offered s (f x) (step s x)) → offered s (flat_map f l) (fold_left step l s).
Proof.
  intros H. revert s. induction l as [|x l IH]; intros s; [apply offered_nil|]. cbn [flat_map fold_left].
  eapply offered_app; [apply H|apply IH].
Qed.

(** ** Workspace branches *)

(** The chain that starts at a node, if it can start one. *)
Definition chain_at (n : Node) : option (list ReactWorkspaceBranch * list Node) :=
  if negb (one_of ["ternary_expression"; "if_statement"] (Kind n)) then None
  else reactCollectDiscriminantChain n <$> reactDiscriminantConditionBase n.

(** The branches of the chains of some nodes: a node in an earlier chain starts none, and
    a chain of fewer than three branches gives none. *)
Fixpoint chains (consumed : gset (N * N)) (l : list Node) : list (list ReactWorkspaceBranch) :=
  match l with
  | [] => []
  | n :: l =>
      if bool_decide (span n ∈ consumed) then chains consumed l
      else match chain_at n with
      | None => chains consumed l
      | Some (bs, ns) => (if length bs <? 3 then [] else bs) :: chains (list_to_set (map span ns) ∪ consumed) l
      end
  end.

Lemma fold_consumed (ns : list Node) (consumed : gset (N * N)) :
  fold_left (λ consumed cn, {[span cn]} ∪ consumed) ns consumed = (list_to_set (map span ns) : gset (N * N)) ∪ consumed.
Proof. revert consumed. induction ns as [|n ns IH]; intros consumed; cbn; [set_solver|]. rewrite IH. set_solver. Qed.

Lemma discriminant_offered body s :
  offered s (concat (chains ∅ (scope_nodes body))) (reactCollectDiscriminantBranches body s).
Proof.
  unfold reactCollectDiscriminantBranches. rewrite reactWalkScope_nodes.
  generalize (∅ : gset (N * N)) as consumed. revert s.
  induction (scope_nodes body) as [|n l IH]; intros s consumed; cbn [fold_left chains]; [apply offered_nil|].
  unfold chain_at. destruct (one_of ["ternary_expression"; "if_statement"] (Kind n)); cbn [negb];
    [|case_bool_decide; apply IH].
  case_bool_decide; [apply IH|]. destruct (reactDiscriminantConditionBase n) as [base|]; [|apply IH]. cbn [fmap option_fmap option_map].
  destruct (reactCollectDiscriminantChain n base) as [bs ns]. rewrite fold_consumed. cbn [concat].
  destruct (length bs <? 3); [apply IH|]. eapply offered_app; [|apply IH].
  pose proof (fold_offered (λ b, [b]) (λ s b, addBranch b s) bs s (λ s b, addBranch_offered b s)) as Hb.
  assert (E : flat_map (λ b : ReactWorkspaceBranch, [b]) bs = bs); [|by rewrite E in Hb].
  clear. induction bs as [|b bs IH]; [done|]. cbn. by rewrite IH.
Qed.

Definition tabpanel_at (n : Node) : option ReactWorkspaceBranch :=
  if negb (one_of ["jsx_opening_element"; "jsx_self_closing_element"] (Kind n)) then None else reactTabpanelBranch n.

Lemma tabpanel_offered body s :
  offered s (omap tabpanel_at (scope_nodes body)) (reactCollectTabpanelBranches body s).
Proof.
  unfold reactCollectTabpanelBranches. rewrite reactWalkScope_nodes.
  assert (E : omap tabpanel_at (scope_nodes body) = flat_map (λ n, option_list (tabpanel_at n)) (scope_nodes body)).
  { induction (scope_nodes body) as [|n l IH]; [done|]. rewrite omap_step, IH. cbn [flat_map]. by destruct (tabpanel_at n). }
  rewrite E. apply fold_offered. intros s' n. unfold tabpanel_at. destruct (negb _); [apply offered_nil|].
  destruct (reactTabpanelBranch n); [apply addBranch_offered|apply offered_nil].
Qed.

(** All the branches a component offers. *)
Definition offered_branches (body : Node) : list ReactWorkspaceBranch :=
  concat (chains ∅ (scope_nodes body)) ++ omap tabpanel_at (scope_nodes body).

Lemma workspace_branches_kept body :
  reactExtractWorkspaceBranches body = stable_sort branch_less (keep_first start_of ∅ (offered_branches body)).
Proof.
  unfold reactExtractWorkspaceBranches. f_equal.
  destruct (offered_app _ _ _ _ _ (discriminant_offered body ([], ∅)) (tabpanel_offered body _)) as [E _].
  rewrite E. done.
Qed.

Lemma chains_sound consumed l b : In b (concat (chains consumed l)) →
  ∃ n bs ns, In n l ∧ chain_at n = Some (bs, ns) ∧ 3 ≤ length bs ∧ In b bs.
Proof.
  revert consumed. induction l as [|n l IH]; intros consumed; cbn [chains]; [done|].
  assert (Hl : ∀ c, In b (concat (chains c l)) → ∃ n' bs ns, In n' (n :: l) ∧ chain_at n' = Some (bs, ns) ∧ 3 ≤ length bs ∧ In b bs).
  { intros c H. destruct (IH c H) as (m & bs & ns & Hm & H'). exists m, bs, ns. split; [by right|done]. }
  case_bool_decide; [apply Hl|]. destruct (chain_at n) as [[bs ns]|] eqn:E; [|apply Hl].
  cbn [concat]. intros [H'|H']%in_app_or; [|by eapply Hl].
  destruct (Nat.ltb_spec (length bs) 3); [done|]. exists n, bs, ns. split_and!; [by left|done|lia|done].
Qed.

Lemma chains_complete consumed l1 n l2 bs ns : chain_at n = Some (bs, ns) → 3 ≤ length bs →
  (∀ b, In b bs → In b (concat (chains consumed (l1 ++ n :: l2))))
  ∨ span n ∈ consumed
  ∨ ∃ m bs' ms, In m l1 ∧ chain_at m = Some (bs', ms) ∧ In (span n) (map span ms).
Proof.
  intros Hc H3. revert consumed. induction l1 as [|m l IH]; intros consumed; cbn [chains app].
  - case_bool_decide as Hm; [auto|]. left. rewrite Hc. destruct (Nat.ltb_spec (length bs) 3); [lia|].
    intros b Hb. cbn. apply in_or_app. by left.
  - case_bool_decide as Hm; [|destruct (chain_at m) as [[bs' ms]|] eqn:E].
    + destruct (IH consumed) as [H|[H|(x & ? & ? & ? & ?)]]; [by left|by right; left|].
      right; right. do 3 eexists. split; [by right|done].
    + destruct (IH (list_to_set (map span ms) ∪ consumed)) as [H|[H|(x & ? & ? & ? & ?)]].
      * left. intros b Hb. cbn. apply in_or_app. right. by apply H.
      * apply elem_of_union in H as [H|H]; [|by right; left].
        right; right. exists m, bs', ms. split_and!; [by left|done|]. by apply elem_of_list_to_set, list_elem_of_In in H.
      * right; right. do 3 eexists. split; [by right|done].
    + destruct (IH consumed) as [H|[H|(x & ? & ? & ? & ?)]]; [by left|by right; left|].
      right; right. do 3 eexists. split; [by right|done].
Qed.

Lemma keep_first_In {A K} `{Countable K} (key : A → option K) seen l x : In x (keep_first key seen l) → In x l.
Proof.
  revert seen. induction l as [|y l IH]; intros seen; [done|]. rewrite keep_first_step.
  destruct (key y); [case_bool_decide|]; cbn; intros H'; repeat destruct H' as [H'|H']; eauto.
Qed.

Lemma keep_first_covers l b : In b l → ∃ b', In b' (keep_first start_of ∅ l) ∧ start_of b' = start_of b.
Proof.
  intros H. assert (Hk : loc_StartByte (rwb_Location b) ∈ omap start_of (keep_first start_of ∅ l)).
  { apply keep_first_keys. split; [|set_solver]. apply list_elem_of_omap. exists b. split; [by apply list_elem_of_In|done]. }
  apply list_elem_of_omap in Hk as (b' & Hb' & E). exists b'. split; [by apply list_elem_of_In|]. unfold start_of in *. congruence.
Qed.

Lemma strictly_sorted {A} (key : A → N) (l : list A) :
  StronglySorted (λ a b, (key b <? key a)%N = false) l → NoDup (map key l) → StronglySorted (λ a b, (key a < key b)%N) l.
Proof.
  induction 1 as [|a l Hs IH Hf]; intros Hn; [constructor|]. cbn in Hn. apply list.NoDup_cons in Hn as [Ha Hn].
  constructor; [by apply IH|]. rewrite List.Forall_forall in Hf |- *. intros b Hb. specialize (Hf b Hb).
  apply N.ltb_ge in Hf. assert (key a ≠ key b); [|lia]. intros E. apply Ha. rewrite E. by apply list_elem_of_In, in_map.
Qed.

Lemma omap_total {A B} (f : A → B) l : omap (λ x, Some (f x)) l = map f l.
Proof. induction l as [|x l IH]; [done|]. rewrite omap_step, IH. done. Qed.

Lemma by_start_strict_weak {A} (key : A → N) : StrictWeak (λ a b, (key a <? key b)%N).
Proof.
  apply (strict_weak_of_cmp _ (λ a b, (key a ?= key b)%N)).
  - intros a b. unfold N.ltb, is_lt. by destruct (_ ?= _)%N.
  - apply (on_cmp_laws key N.compare).
Qed.
#[local] Instance branch_less_strict_weak : StrictWeak branch_less := by_start_strict_weak _.
#[local] Instance transition_less_strict_weak : StrictWeak transition_less := by_start_strict_weak _.

(** A chain as the code collects it. *)
Definition discriminant_chain (n : Node) (bs : list ReactWorkspaceBranch) (ns : list Node) : Prop :=
  ∃ base, reactDiscriminantConditionBase n = Some base ∧
    ((Kind n = "ternary_expression" ∧ chain_of "ternary_expression" base reactTernaryBranch ternary_continue n ns bs)
     ∨ (Kind n = "if_statement" ∧ chain_of "if_statement" base reactIfBranch reactIfChainContinue n ns bs)).

Lemma chain_at_chain n bs ns : chain_at n = Some (bs, ns) → discriminant_chain n bs ns.
Proof.
  unfold chain_at. destruct (one_of _ _) eqn:Ek; [|done]. cbn [negb].
  destruct (reactDiscriminantConditionBase n) as [base|] eqn:Eb; [|done]. cbn. intros [= E].
  exists base. split; [done|]. unfold reactCollectDiscriminantChain in E.
  destruct (Kind n == "ternary_expression") eqn:E1.
  - left. apply String.eqb_eq in E1. split; [done|].
    pose proof (chain_loop_chain "ternary_expression" base reactTernaryBranch _ ternary_continue_smaller n) as H.
    unfold reactCollectTernaryChain in E. by rewrite E in H.
  - destruct (Kind n == "if_statement") eqn:E2; [|by apply one_of_In in Ek; cbn in Ek;
      destruct Ek as [Ek|[Ek|[]]]; rewrite <- Ek in E1, E2].
    right. apply String.eqb_eq in E2. split; [done|].
    pose proof (chain_loop_chain "if_statement" base reactIfBranch _ reactIfChainContinue_smaller n) as H.
    unfold reactCollectIfChain in E. by rewrite E in H.
Qed.

(** Two chains of a node are the same. *)
Lemma chain_at_unique n bs ns : discriminant_chain n bs ns → chain_at n = Some (bs, ns).
Proof.
  intros (base & Eb & H). unfold chain_at, reactCollectDiscriminantChain, reactCollectTernaryChain, reactCollectIfChain, chain_loop.
  rewrite Eb. destruct H as [[Ek H]|[Ek H]]; rewrite Ek; cbn [one_of existsb String.eqb Ascii.eqb Bool.eqb orb negb fmap option_fmap option_map].
  - by rewrite (loop_chain _ _ _ _ ternary_continue_smaller n [] [] ns bs).
  - by rewrite (loop_chain _ _ _ _ reactIfChainContinue_smaller n [] [] ns bs).
Qed.

(** The workspace branches of a component stand in strictly increasing order of position.
    Each is a tab panel of the component, or a branch of one of its ternary or else-if
    chains over one discriminant that has at least three branches with JSX.  Every tab
    panel has its branch, and every chain with at least three has all of them, unless its
    first link already is a link of a chain that starts earlier; among branches at one
    position only the first is kept.  The loops along the chains end. *)
Theorem workspace_branches_exact body :
  let bs := reactExtractWorkspaceBranches body in
  StronglySorted (λ a b, (loc_StartByte (rwb_Location a) < loc_StartByte (rwb_Location b))%N) bs
  ∧ (∀ b, In b bs →
      (∃ n, In n (scope_nodes body) ∧ tabpanel_at n = Some b)
      ∨ ∃ n cs ns, In n (scope_nodes body) ∧ discriminant_chain n cs ns ∧ 3 ≤ length cs ∧ In b cs)
  ∧ (∀ n b, In n (scope_nodes body) → tabpanel_at n = Some b → ∃ b', In b' bs ∧ start_of b' = start_of b)
  ∧ (∀ before n after cs ns, scope_nodes body = before ++ n :: after → discriminant_chain n cs ns → 3 ≤ length cs →
      (∀ b, In b cs → ∃ b', In b' bs ∧ start_of b' = start_of b)
      ∨ ∃ m cs' ms, In m before ∧ discriminant_chain m cs' ms ∧ In (span n) (map span ms)).
Proof.
  cbn zeta. rewrite workspace_branches_kept. split_and!.
  - apply (strictly_sorted (λ b, loc_StartByte (rwb_Location b))); [apply stable_sort_sorted, _|].
    rewrite stable_sort_perm. rewrite <- omap_total. apply keep_first_NoDup.
  - intros b Hb. apply stable_sort_In, keep_first_In in Hb.
    apply in_app_or in Hb as [Hb|Hb].
    + right. apply chains_sound in Hb as (n & cs & ns & Hn & Hc & H3 & Hb). apply chain_at_chain in Hc. eauto 8.
    + left. apply list_elem_of_In, list_elem_of_omap in Hb as (n & Hn & Hb). exists n. split; [by apply list_elem_of_In|done].
  - intros n b Hn Hb. destruct (keep_first_covers (offered_branches body) b) as (b' & Hb' & E).
    + apply in_or_app. right. apply list_elem_of_In, list_elem_of_omap. exists n. split; [by apply list_elem_of_In|done].
    + exists b'. split; [by apply stable_sort_In|done].
  - intros before n after cs ns Hn Hc H3. apply chain_at_unique in Hc.
    destruct (chains_complete ∅ before n after cs ns Hc H3) as [H|[H|(m & cs' & ms & Hm & Hcm & Hs)]]; [|set_solver|].
    + left. intros b Hb. destruct (keep_first_covers (offered_branches body) b) as (b' & Hb' & E).
      { unfold offered_branches. rewrite Hn. apply in_or_app. left. by apply H. }
      exists b'. split; [by apply stable_sort_In|done].
    + right. apply chain_at_chain in Hcm. eauto 8.
Qed.

(** ** Sets of strings in order *)

Lemma fold_union {A} (f : A → option string) (step : gset string → A → gset string) l s :
  (∀ s x, step s x = match f x with Some b => {[b]} ∪ s | None => s end) →
  fold_left step l s = list_to_set (omap f l) ∪ s.
Proof.
  intros H. revert s. induction l as [|x l IH]; intros s; cbn [fold_left]; [cbn; by rewrite (left_id_L ∅ (∪))|].
  rewrite IH, H, omap_step. destruct (f x); cbn [list_to_set]; set_solver.
Qed.

(** The elements of a set, sorted. *)
Definition sorted_elements (s : gset string) : list string := sort_strings (elements s).

Lemma sorted_elements_In s x : In x (sorted_elements s) ↔ x ∈ s.
Proof. unfold sorted_elements, sort_strings. rewrite stable_sort_In, <- list_elem_of_In. apply elem_of_elements. Qed.

Lemma sorted_elements_length s : length (sorted_elements s) = base.size s.
Proof. unfold sorted_elements, sort_strings. by rewrite stable_sort_length. Qed.

Lemma strings_strictly_sorted l : NoDup l → StronglySorted (λ a b, str_less a b = true) (sort_strings l).
Proof.
  intros Hn. assert (Hs : StronglySorted (not_after str_less) (sort_strings l)) by apply stable_sort_sorted, _.
  assert (Hd : NoDup (sort_strings l)) by (unfold sort_strings; by rewrite stable_sort_perm).
  induction Hs as [|a r Hs IH Hf]; [constructor|]. apply list.NoDup_cons in Hd as [Ha Hd].
  constructor; [by apply IH|]. rewrite List.Forall_forall in Hf |- *. intros b Hb. specialize (Hf b Hb).
  unfold not_after, str_less in *. destruct (String.compare a b) eqn:E; [|done|].
  - apply String.compare_eq_iff in E as ->. exfalso. apply Ha. by apply list_elem_of_In.
  - rewrite String.compare_antisym, E in Hf. done.
Qed.

Lemma StronglySorted_NoDup (R : string → string → Prop) l : (∀ a, ¬ R a a) → StronglySorted R l → NoDup l.
Proof.
  intros Hi. induction 1 as [|a l Hs IH Hf]; [constructor|]. apply list.NoDup_cons. split; [|done].
  intros Ha. rewrite List.Forall_forall in Hf. apply (Hi a), Hf. by apply list_elem_of_In.
Qed.

Lemma str_less_irrefl a : ¬ str_less a a = true.
Proof. by rewrite (sw_irrefl str_less). Qed.

(** ** Coordinated transitions *)

(** The calls a function makes itself. *)
Definition own_nodes (fn : Node) : list Node :=
  match ChildByFieldName fn "body" with
  | Some body => cut_nodes (λ n, one_of local_function_kinds (Kind n)) body
  | None => []
  end.

(** The binding a call sets. *)
Definition sets (setters : gmap string string) (n : Node) : option string :=
  if Kind n != "call_expression" then None
  else match ChildByFieldName n "function" with
  | None => None
  | Some callee => if Kind callee != "identifier" then None else setters !! Utf8Text callee
  end.

Definition updated_by (setters : gmap string string) (fn : Node) : gset string :=
  list_to_set (omap (sets setters) (own_nodes fn)).

Lemma reactBindingsUpdatedBy_exact fn setters :
  reactBindingsUpdatedBy fn setters = sorted_elements (updated_by setters fn).
Proof.
  unfold reactBindingsUpdatedBy, reactWalkLocalScope, updated_by, own_nodes.
  destruct (ChildByFieldName fn "body") as [body|]; [|done]. rewrite cut_walk_nodes.
  rewrite (fold_union (sets setters)).
  - rewrite (right_id_L ∅ (∪)). case_bool_decide as E; [|done]. rewrite E. done.
  - intros s n. unfold sets. destruct (Kind n == "call_expression"); [|done]. cbn [negb].
    destruct (ChildByFieldName n "function") as [callee|]; [|done]. by destruct (Kind callee == "identifier").
Qed.

Definition is_local_function (n : Node) : bool := one_of local_function_kinds (Kind n) && negb (reactIsNestedComponent n).

Lemma reactLocalFunctions_filter body : reactLocalFunctions body = List.filter is_local_function (scope_nodes body).
Proof.
  unfold reactLocalFunctions. rewrite reactWalkScope_nodes.
  rewrite (fold_collect (λ n, if is_local_function n then [n] else [])); [apply flat_map_test|].
  intros acc n. unfold is_local_function. destruct (one_of local_function_kinds (Kind n)); [|by rewrite app_nil_r].
  destruct (reactIsNestedComponent n); [by rewrite app_nil_r|done].
Qed.

(** Without setters no function updates anything. *)
Lemma updated_by_none fn : updated_by ∅ fn = ∅.
Proof.
  unfold updated_by. assert (E : omap (sets ∅) (own_nodes fn) = []); [|by rewrite E].
  induction (own_nodes fn) as [|n l IH]; [done|]. rewrite omap_step, IH. unfold sets.
  destruct (Kind n != _); [done|]. destruct (ChildByFieldName n "function") as [c|]; [|done].
  destruct (Kind c != "identifier"); [done|]. by rewrite lookup_empty.
Qed.

(** The functions of a component that update at least two bindings. *)
Definition coordinating (body : Node) (setters : gmap string string) : list Node :=
  List.filter (λ fn, 2 <=? base.size (updated_by setters fn)) (List.filter is_local_function (scope_nodes body)).

Lemma transitions_sorted body us :
  let setters := reactUseStateSetterIndex us in
  reactExtractCoordinatedTransitions body us
  = stable_sort transition_less (map (λ fn, transition_of fn (sorted_elements (updated_by setters fn))) (coordinating body setters)).
Proof.
  cbn zeta. unfold reactExtractCoordinatedTransitions. set (setters := reactUseStateSetterIndex us).
  assert (Hf : ∀ acc, fold_left (λ out fn, let updated := reactBindingsUpdatedBy fn setters in
      if length updated <? 2 then out else out ++ [transition_of fn updated]) (reactLocalFunctions body) acc
    = acc ++ map (λ fn, transition_of fn (sorted_elements (updated_by setters fn))) (coordinating body setters)).
  { rewrite reactLocalFunctions_filter. unfold coordinating.
    induction (List.filter is_local_function (scope_nodes body)) as [|fn l IH]; intros acc; cbn [fold_left List.filter];
      [by rewrite app_nil_r|].
    rewrite IH. cbn zeta. rewrite reactBindingsUpdatedBy_exact, sorted_elements_length.
    destruct (Nat.ltb_spec (base.size (updated_by setters fn)) 2), (Nat.leb_spec 2 (base.size (updated_by setters fn)));
      try lia; [done|]. cbn [map]. by rewrite <- (assoc_L (++)). }
  case_bool_decide as E; [|by rewrite Hf].
  assert (Hno : coordinating body setters = []); [|by rewrite Hno].
  apply filter_none. intros fn _. rewrite E, updated_by_none. done.
Qed.

(** The binding of a setter is the one of the last declaration that names both. *)
Lemma setter_index us s b :
  reactUseStateSetterIndex us !! s = Some b ↔
  ∃ before u after, us = before ++ u :: after ∧ usb_Setter u = s ∧ usb_Binding u = b ∧ s ≠ "" ∧ b ≠ ""
    ∧ ∀ v, In v after → usb_Setter v = s → usb_Binding v = "".
Proof.
  unfold reactUseStateSetterIndex. induction us as [|v us IH] using rev_ind.
  { cbn. rewrite lookup_empty. split; [done|]. intros (before & u & after & E & _). by destruct before. }
  rewrite fold_left_app. cbn [fold_left].
  assert (Hgo : usb_Setter v ≠ s ∨ usb_Binding v = "" ∨ usb_Setter v = "" →
    (∃ before u after, us = before ++ u :: after ∧ usb_Setter u = s ∧ usb_Binding u = b ∧ s ≠ "" ∧ b ≠ ""
       ∧ ∀ v, In v after → usb_Setter v = s → usb_Binding v = "")
    ↔ (∃ before u after, us ++ [v] = before ++ u :: after ∧ usb_Setter u = s ∧ usb_Binding u = b ∧ s ≠ "" ∧ b ≠ ""
       ∧ ∀ v, In v after → usb_Setter v = s → usb_Binding v = "")).
  { intros Hv. split.
    - intros (before & u & after & -> & E1 & E2 & E3 & E4 & H). exists before, u, (after ++ [v]).
      split; [by rewrite <- (assoc_L (++))|]. split_and!; [done..|]. intros w Hw. apply in_app_or in Hw as [Hw|[<-|[]]]; [by apply H|].
      intros E. destruct Hv as [?|[?|?]]; [done|done|congruence].
    - intros (before & u & after & E & E1 & E2 & E3 & E4 & H).
      destruct after as [|w after _] using rev_ind.
      { apply app_inj_tail in E as [-> <-]. exfalso. destruct Hv as [?|[?|?]]; congruence. }
      rewrite app_comm_cons, (assoc_L (++)) in E. apply app_inj_tail in E as [-> <-].
      exists before, u, after. split_and!; [done..|]. intros x Hx. apply H, in_or_app. by left. }
  destruct (String.eqb_spec (usb_Setter v) "") as [Es|Es], (String.eqb_spec (usb_Binding v) "") as [Eb|Eb]; cbn [negb andb];
    try (rewrite IH; apply Hgo; by auto).
  destruct (decide (usb_Setter v = s)) as [<-|Hne]; [|rewrite lookup_insert_ne by done; rewrite IH; apply Hgo; by auto].
  rewrite lookup_insert. rewrite decide_True by done. split.
  - intros [= <-]. exists us, v, []. split_and!; done.
  - intros (before & u & after & E & E1 & E2 & E3 & E4 & H).
    destruct after as [|w after _] using rev_ind; [apply app_inj_tail in E as [_ <-]; congruence|].
    rewrite app_comm_cons, (assoc_L (++)) in E. apply app_inj_tail in E as [_ <-].
    exfalso. apply Eb, H; [apply in_or_app; right; by left|done].
Qed.

(** The coordinated transitions of a component are exactly the functions of its body,
    nested components and what is in them left out, that call the setters of at least
    two different state bindings, a call counting for the function directly around it;
    each lists the bindings it updates in strictly increasing order, and the transitions
    stand in the order of their functions. *)
Theorem coordinated_transitions_exact body us :
  let setters := reactUseStateSetterIndex us in
  let out := reactExtractCoordinatedTransitions body us in
  (∀ tr, In tr out ↔ ∃ fn updated, In fn (scope_nodes body) ∧ is_local_function fn = true
     ∧ 2 ≤ length updated ∧ StronglySorted (λ a b, str_less a b = true) updated
     ∧ (∀ b, In b updated ↔ ∃ call, In call (own_nodes fn) ∧ sets setters call = Some b)
     ∧ tr = transition_of fn updated)
  ∧ StronglySorted (not_after transition_less) out.
Proof.
  cbn zeta. rewrite transitions_sorted. split; [|apply stable_sort_sorted, _].
  set (setters := reactUseStateSetterIndex us).
  assert (Hup : ∀ fn, StronglySorted (λ a b, str_less a b = true) (sorted_elements (updated_by setters fn))
    ∧ ∀ b, In b (sorted_elements (updated_by setters fn)) ↔ ∃ call, In call (own_nodes fn) ∧ sets setters call = Some b).
  { intros fn. split; [apply strings_strictly_sorted, NoDup_elements|]. intros b. rewrite sorted_elements_In.
    unfold updated_by. rewrite elem_of_list_to_set, list_elem_of_omap. by setoid_rewrite list_elem_of_In. }
  intros tr. rewrite stable_sort_In, in_map_iff. unfold coordinating. split.
  - intros (fn & <- & Hfn). apply filter_In in Hfn as [Hfn H2]. apply filter_In in Hfn as [Hfn Hl].
    apply Nat.leb_le in H2. exists fn, (sorted_elements (updated_by setters fn)).
    rewrite sorted_elements_length. destruct (Hup fn) as [H3 H4]. split_and!; done.
  - intros (fn & updated & Hfn & Hl & H2 & Hs & Hb & ->). exists fn. destruct (Hup fn) as [H3 H4].
    assert (E : updated = sorted_elements (updated_by setters fn)).
    { apply (sorting.StronglySorted_unique_strong (λ a b, str_less a b = true)); [|done|done|].
      - intros a b _ _ Hab Hba. exfalso. unfold str_less in *. rewrite String.compare_antisym in Hba.
        by destruct (String.compare a b).
      - apply NoDup_Permutation; [| |intros b; rewrite !list_elem_of_In, Hb, H4; done].
        + apply (StronglySorted_NoDup _ _ str_less_irrefl Hs).
        + apply (StronglySorted_NoDup _ _ str_less_irrefl H3). }
    split; [by rewrite E|]. apply filter_In. split; [by apply filter_In|].
    apply Nat.leb_le. by rewrite <- sorted_elements_length, <- E.
Qed.

(** ** Shared panel dependencies *)

(** The component tags a scope passes a name to. *)
Definition panel_tags (body : Node) (name : string) : gset string :=
  list_to_set (omap (λ n, if bool_decide (name ∈ reactIdentifierJSXAttrValues n) then reactPascalCaseJSXTag n else None)
    (scope_nodes body)).

Lemma panel_tags_spec body name tag :
  tag ∈ panel_tags body name ↔
  ∃ n, In n (scope_nodes body) ∧ reactPascalCaseJSXTag n = Some tag ∧ In name (reactIdentifierJSXAttrValues n).
Proof.
  unfold panel_tags. rewrite elem_of_list_to_set, list_elem_of_omap. split.
  - intros (n & Hn & H). apply list_elem_of_In in Hn. exists n. split; [done|].
    case_bool_decide as Hv; [|done]. split; [done|by apply list_elem_of_In].
  - intros (n & Hn & Ht & Hv). exists n. split; [by apply list_elem_of_In|].
    rewrite bool_decide_true; [done|by apply list_elem_of_In].
Qed.

Lemma dep_tags_lookup refs (m : gmap string (gset string)) name :
  default ∅ (fold_left (λ depTags ref, <[pdr_id ref := {[pdr_tag ref]} ∪ default ∅ (depTags !! pdr_id ref)]> depTags) refs m !! name)
  = list_to_set (omap (λ ref, if pdr_id ref == name then Some (pdr_tag ref) else None) refs) ∪ default ∅ (m !! name).
Proof.
  revert m. induction refs as [|r refs IH]; intros m; cbn [fold_left]; [cbn; by rewrite (left_id_L ∅ (∪))|].
  rewrite IH, omap_step. destruct (String.eqb_spec (pdr_id r) name) as [->|Hne].
  - rewrite lookup_insert, decide_True by done. cbn [default list_to_set]. set_solver.
  - by rewrite lookup_insert_ne.
Qed.

Lemma panel_refs_flat body allow :
  reactCollectPanelDepRefs body allow = flat_map (λ n, reactPanelDepRefsFromNode n allow) (scope_nodes body).
Proof. unfold reactCollectPanelDepRefs. rewrite reactWalkScope_nodes. by rewrite (fold_collect (λ n, reactPanelDepRefsFromNode n allow)). Qed.

Lemma panel_refs_In n allow tag name : In (mkReactPanelDepRef tag name) (reactPanelDepRefsFromNode n allow)
  ↔ reactPascalCaseJSXTag n = Some tag ∧ In name (reactIdentifierJSXAttrValues n) ∧ name ∈ allow.
Proof.
  unfold reactPanelDepRefsFromNode, reactAllowedPanelDepRefs.
  destruct (reactPascalCaseJSXTag n) as [t|]; [|split; [done|by intros [? _]]].
  pose proof (filter_In (λ idName, bool_decide (idName ∈ allow)) name (reactIdentifierJSXAttrValues n)) as Hf.
  rewrite bool_decide_eq_true in Hf.
  assert (Hm : In (mkReactPanelDepRef tag name)
      (map (mkReactPanelDepRef t) (List.filter (λ idName, bool_decide (idName ∈ allow)) (reactIdentifierJSXAttrValues n)))
    ↔ Some t = Some tag ∧ In name (reactIdentifierJSXAttrValues n) ∧ name ∈ allow).
  { rewrite <- Hf, in_map_iff. split; [intros (x & [= -> ->] & ?); done|]. intros ([= ->] & ?). eauto. }
  destruct (List.filter _ _) as [|i ids]; exact Hm.
Qed.

(** The index gives an allowed name its tags and any other name none. *)
Lemma tag_index body allow name :
  default ∅ (reactPanelDepTagIndex body allow !! name) = if bool_decide (name ∈ allow) then panel_tags body name else ∅.
Proof.
  unfold reactPanelDepTagIndex, reactBuildDepTags. rewrite dep_tags_lookup, lookup_empty. cbn [default].
  rewrite (right_id_L ∅ (∪)), panel_refs_flat. apply set_eq. intros tag.
  rewrite elem_of_list_to_set, list_elem_of_omap.
  assert (Hr : (∃ r, r ∈ flat_map (λ n, reactPanelDepRefsFromNode n allow) (scope_nodes body)
      ∧ (if pdr_id r == name then Some (pdr_tag r) else None) = Some tag)
    ↔ name ∈ allow ∧ tag ∈ panel_tags body name).
  { rewrite panel_tags_spec. split.
    - intros ([t i] & Hr & E). cbn in E. destruct (String.eqb_spec i name) as [->|]; [|done]. injection E as ->.
      apply list_elem_of_In, in_flat_map in Hr as (n & Hn & Hr). apply panel_refs_In in Hr as (Ht & Hv & Ha). eauto 6.
    - intros (Ha & n & Hn & Ht & Hv). exists (mkReactPanelDepRef tag name). cbn. rewrite String.eqb_refl. split; [|done].
      apply list_elem_of_In, in_flat_map. exists n. split; [done|]. by apply panel_refs_In. }
  rewrite Hr. case_bool_decide; set_solver.
Qed.

Lemma known_names body us name : name ∈ reactKnownSharedDepNames body us ↔
  (name ≠ "" ∧ ∃ u, In u us ∧ usb_Binding u = name)
  ∨ ∃ n, In n (scope_nodes body) ∧ reactLocalFunctionBindingName n = Some name.
Proof.
  unfold reactKnownSharedDepNames. rewrite reactWalkScope_nodes. rewrite (fold_union reactLocalFunctionBindingName) by done.
  rewrite (fold_union (λ u, if usb_Binding u != "" then Some (usb_Binding u) else None)) by (intros; by destruct (_ != _)).
  rewrite !elem_of_union, !elem_of_list_to_set, !list_elem_of_omap. setoid_rewrite list_elem_of_In. split.
  - intros [H|[(u & Hu & E)|H]]; [by right| |set_solver]. left.
    destruct (String.eqb_spec (usb_Binding u) ""); [done|]. injection E as <-. eauto.
  - intros [[Hn (u & Hu & <-)]|H]; [|by left]. right; left. exists u. split; [done|].
    by destruct (String.eqb_spec (usb_Binding u) "").
Qed.

Lemma NoDup_picked {A} (f : string * A → bool) l : NoDup l.*1 → NoDup (omap (λ nt, if f nt then Some (fst nt) else None) l).
Proof.
  induction l as [|[k t] l IH]; [constructor|]. rewrite omap_step. cbn [fmap list_fmap fst]. intros Hd.
  apply list.NoDup_cons in Hd as [Hk Hd]. destruct (f (k, t)); [|by apply IH]. apply list.NoDup_cons. split; [|by apply IH].
  intros Hin. apply Hk. apply list_elem_of_omap in Hin as ([k' t'] & Hin & E).
  destruct (f (k', t')); [|done]. injection E as <-. apply list_elem_of_In, in_map_iff. exists (k', t').
  split; [done|by apply list_elem_of_In].
Qed.

(** The shared panel dependencies of a component are, in strictly increasing order of name,
    the names of its state bindings and local functions that at least two different
    component tags of its body, nested components left out, receive as a plain identifier
    attribute; each lists those tags in strictly increasing order. *)
Theorem shared_panel_deps_exact body us :
  ∃ names,
    reactExtractSharedPanelDeps body us
    = map (λ name, mkReactSharedPanelDep name (sorted_elements (panel_tags body name))) names
    ∧ StronglySorted (λ a b, str_less a b = true) names
    ∧ ∀ name, In name names ↔ name ∈ reactKnownSharedDepNames body us ∧ 2 ≤ base.size (panel_tags body name).
Proof.
  unfold reactExtractSharedPanelDeps. set (allow := reactKnownSharedDepNames body us).
  case_bool_decide as E.
  { exists []. split_and!; [done|constructor|]. intros name. rewrite E. set_solver. }
  unfold reactSharedDepsFromTags. set (index := reactPanelDepTagIndex body allow).
  set (names := omap _ (map_to_list index)).
  assert (Hnames : ∀ name, In name names ↔ name ∈ allow ∧ 2 ≤ base.size (panel_tags body name)).
  { intros name. unfold names. rewrite <- list_elem_of_In, list_elem_of_omap.
    pose proof (tag_index body allow name) as Hi. fold index in Hi. split.
    - intros ([k tags] & Hk & E2). apply elem_of_map_to_list in Hk. cbn [fst snd] in E2.
      destruct (Nat.leb_spec 2 (base.size tags)); [|done]. injection E2 as ->. rewrite Hk in Hi. cbn in Hi. subst tags.
      case_bool_decide; [done|]. rewrite size_empty in H. lia.
    - intros [Ha H2]. rewrite bool_decide_true in Hi by done. destruct (index !! name) as [tags|] eqn:Ei.
      + cbn in Hi. subst tags. exists (name, panel_tags body name). split; [by apply elem_of_map_to_list|]. cbn [fst snd].
        by apply Nat.leb_le in H2 as ->.
      + cbn in Hi. rewrite <- Hi, size_empty in H2. lia. }
  exists (sort_strings names). split_and!.
  - apply map_ext_in. intros name Hn. unfold sort_strings in Hn. apply stable_sort_In, Hnames in Hn as [Ha _].
    unfold sorted_elements. do 3 f_equal. unfold index. rewrite tag_index. by rewrite bool_decide_true.
  - apply strings_strictly_sorted, NoDup_picked, NoDup_fst_map_to_list.
  - intros name. unfold sort_strings. rewrite stable_sort_In. apply Hnames.
Qed.
End facts_proofs.
