(* ===== verification/ReactComponents.v ===== *)
(** * React components of a file

    [computeReactComponents] ([react_components*.go]) finds the components a TypeScript
    file exports, through every form of export and one [memo] or [forwardRef], and
    gathers the facts of each. *)

From Stdlib Require Import Ascii Sorted.
From S2P Require Import Prelude GoOrder GoText Json Semantics Syntax Complexity GoUnquote Nesting TsSyntax TsScope TsFeatures TsComplexity ReactScope ReactFacts.

Section components.
Context {U : Unicode}.

(** ** [react_components_use_client.go] *)

(** go: pkg/semantics/react_components_use_client.go#reactFirstStringChild *)
Definition reactFirstStringChild (n : Node) : option Node := List.find (λ c, Kind c == "string") (children n).

(** go: pkg/semantics/react_components_use_client.go#reactIsUseClientLiteral *)
Definition reactIsUseClientLiteral (str : Node) : bool :=
  match stripQuotes (Utf8Text str) with
  | None => false
  | Some text => text == "use client"
  end.

(** The first statement that is no comment decides.
    go: pkg/semantics/react_components_use_client.go#moduleHasUseClientDirective *)
Definition moduleHasUseClientDirective (root : Node) : bool :=
  match List.find (λ c, Kind c != "comment") (children root) with
  | None => false
  | Some c =>
      if Kind c != "expression_statement" then false
      else match reactFirstStringChild c with
      | None => false
      | Some str => reactIsUseClientLiteral str
      end
  end.

(** ** [react_components_module_bindings.go] *)

(** A declarator that binds a plain name to a value. *)
Definition declarator_binding (d : Node) : option (Node * Node) :=
  if Kind d != "variable_declarator" then None
  else match ChildByFieldName d "name", ChildByFieldName d "value" with
  | Some name, Some value => if Kind name != "identifier" then None else Some (name, value)
  | _, _ => None
  end.

(** An empty map and [nil] are the same to a [range].
    go: pkg/semantics/react_components_module_bindings.go#reactDeclaratorBindingMap *)
Definition reactDeclaratorBindingMap (n : Node) : gmap string Node :=
  fold_left (λ out d,
    match declarator_binding d with Some (name, value) => <[Utf8Text name := value]> out | None => out end) (children n) ∅.

Definition moduleBindings_body (rec : Node → gmap string Node) (n : Node) : gmap string Node :=
  if Kind n == "function_declaration" then
    match ChildByFieldName n "name" with
    | None => ∅
    | Some name => {[Utf8Text name := n]}
    end
  else if one_of ["lexical_declaration"; "variable_declaration"] (Kind n) then reactDeclaratorBindingMap n
  else if Kind n == "export_statement" then
    match ChildByFieldName n "declaration" with
    | None => ∅
    | Some decl => rec decl
    end
  else ∅.

(** go: pkg/semantics/react_components_module_bindings.go#reactModuleBindingsFrom *)
Definition reactModuleBindingsFrom : Node → gmap string Node := descend nheight (λ _, ∅) moduleBindings_body.

(** The bindings of a statement replace earlier ones; the order of the inner loop over a
    map does not matter, as its names differ.
    go: pkg/semantics/react_components_module_bindings.go#collectModuleTopLevelBindings *)
Definition collectModuleTopLevelBindings (root : Node) : gmap string Node :=
  fold_left (λ bindings child, reactModuleBindingsFrom child ∪ bindings) (children root) ∅.

(** ** [react_components_exports.go], [react_components_default_export.go],
    [react_components_named_exports.go] *)

(** go: pkg/semantics/react_components_exports.go#reactCandidate *)
Record reactCandidate := mkReactCandidate { rc_funcNode : Node; rc_name : string }.

(** go: pkg/semantics/react_components_exports.go#reactSingleCandidate *)
Definition reactSingleCandidate (funcNode : option Node) (name : string) : list reactCandidate :=
  match funcNode with None => [] | Some f => [mkReactCandidate f name] end.

(** The function's own name, or the name it is exported under. *)
Definition own_or (funcNode : Node) (name : string) : string :=
  let fname := reactFuncOwnName (Some funcNode) in if fname == "" then name else fname.

(** go: pkg/semantics/react_components_named_exports.go#reactCandidatesFromDeclarators *)
Definition reactCandidatesFromDeclarators (declNode : Node) : list reactCandidate :=
  omap (λ d,
    match declarator_binding d with
    | None => None
    | Some (name, value) =>
        match reactResolveFunctionLike (Some value) with
        | None => None
        | Some funcNode => Some (mkReactCandidate funcNode (own_or funcNode (Utf8Text name)))
        end
    end) (children declNode).

(** go: pkg/semantics/react_components_named_exports.go#reactCandidatesFromExportClause *)
Definition reactCandidatesFromExportClause (clause : Node) (bindings : gmap string Node) : list reactCandidate :=
  omap (λ spec,
    if Kind spec != "export_specifier" then None
    else match ChildByFieldName spec "name" with
    | None => None
    | Some nameField =>
        let localName := Utf8Text nameField in
        match bindings !! localName with
        | None => None
        | Some target =>
            match reactResolveFunctionLike (Some target) with
            | None => None
            | Some funcNode => Some (mkReactCandidate funcNode (own_or funcNode localName))
            end
        end
    end) (children clause).

(** go: pkg/semantics/react_components_default_export.go#reactCandidatesFromExportValue *)
Definition reactCandidatesFromExportValue (val : Node) (bindings : gmap string Node) : list reactCandidate :=
  if Kind val == "function_expression" then reactSingleCandidate (Some val) (reactFuncOwnName (Some val))
  else if Kind val == "arrow_function" then reactSingleCandidate (Some val) ""
  else if Kind val == "identifier" then
    match bindings !! Utf8Text val with
    | None => []
    | Some target =>
        match reactResolveFunctionLike (Some target) with
        | None => []
        | Some funcNode => reactSingleCandidate (Some funcNode) (own_or funcNode (Utf8Text val))
        end
    end
  else if Kind val == "call_expression" then
    match reactResolveFunctionLike (Some val) with
    | None => []
    | Some funcNode => reactSingleCandidate (Some funcNode) (reactFuncOwnName (Some funcNode))
    end
  else [].

(** go: pkg/semantics/react_components_exports.go#reactFindExportClause *)
Definition reactFindExportClause (exportStmt : Node) : option Node :=
  List.find (λ c, Kind c == "export_clause") (children exportStmt).

(** go: pkg/semantics/react_components_exports.go#reactExportedCandidates *)
Definition reactExportedCandidates (exportStmt : Node) (bindings : gmap string Node) : list reactCandidate :=
  match ChildByFieldName exportStmt "declaration" with
  | Some decl =>
      if Kind decl == "function_declaration" then reactSingleCandidate (Some decl) (reactFuncOwnName (Some decl))
      else if one_of ["lexical_declaration"; "variable_declaration"] (Kind decl) then reactCandidatesFromDeclarators decl
      else []
  | None =>
      match ChildByFieldName exportStmt "value" with
      | Some val => reactCandidatesFromExportValue val bindings
      | None =>
          match reactFindExportClause exportStmt with
          | Some clause => reactCandidatesFromExportClause clause bindings
          | None => []
          end
      end
  end.

(** ** [react_components_candidacy.go], [react_components.go] *)

(** go: pkg/semantics/react_components_candidacy.go#reactBuildComponentFacts *)
Definition reactBuildComponentFacts (cand : reactCandidate) (hasDirective : bool) : option ReactComponentFacts :=
  if negb (isPascalCaseName (rc_name cand)) then None
  else match ChildByFieldName (rc_funcNode cand) "body" with
  | None => None
  | Some body =>
      if negb (reactScopeContainsJSX body) then None
      else
        let clientKind := if hasDirective then Some "use_client_directive"
                          else if reactScopeInvokesHook body then Some "hooks_and_jsx"
                          else None in
        match clientKind with
        | None => None
        | Some clientKind =>
            let useState := reactExtractUseState body in
            Some (mkReactComponentFacts (rc_name cand) (locationFromNode (rc_funcNode cand)) clientKind useState
                    (reactExtractCoordinatedTransitions body useState) (reactExtractWorkspaceBranches body)
                    (reactExtractImperativeUI body) (reactExtractSharedPanelDeps body useState))
        end
  end.

(** go: pkg/semantics/react_components.go#reactExportStatements *)
Definition reactExportStatements (root : Node) : list Node :=
  List.filter (λ child, Kind child == "export_statement") (children root).

(** go: pkg/semantics/react_components.go#reactFactsFromExport *)
Definition reactFactsFromExport (exportStmt : Node) (hasDirective : bool) (bindings : gmap string Node) :
    list ReactComponentFacts :=
  omap (λ cand, reactBuildComponentFacts cand hasDirective) (reactExportedCandidates exportStmt bindings).

Definition rec_span (r : ReactComponentFacts) : N * N := (loc_StartByte (rcf_Location r), loc_EndByte (rcf_Location r)).

(** go: pkg/semantics/react_components.go#reactDedupeComponentsBySpan *)
Definition reactDedupeComponentsBySpan (in_ : list ReactComponentFacts) : list ReactComponentFacts :=
  fst (fold_left (λ '(out, seen) rec,
    if bool_decide (rec_span rec ∈ (seen : gset (N * N))) then (out, seen)
    else (out ++ [rec], {[rec_span rec]} ∪ seen)) in_ ([], ∅)).

(** go: pkg/semantics/react_components.go#reactCollectExportedComponents *)
Definition reactCollectExportedComponents (root : Node) (hasDirective : bool) (bindings : gmap string Node) :
    list ReactComponentFacts :=
  reactDedupeComponentsBySpan
    (fold_left (λ out exportStmt, out ++ reactFactsFromExport exportStmt hasDirective bindings) (reactExportStatements root) []).

Definition component_less (a b : ReactComponentFacts) : bool :=
  let sa := loc_StartByte (rcf_Location a) in
  let sb := loc_StartByte (rcf_Location b) in
  if negb (sa =? sb)%N then (sa <? sb)%N else str_less (rcf_Name a) (rcf_Name b).

(** go: pkg/semantics/react_components.go#computeReactComponents *)
Definition computeReactComponents (root : Node) : list ReactComponentFacts :=
  let hasDirective := moduleHasUseClientDirective root in
  let bindings := collectModuleTopLevelBindings root in
  stable_sort component_less (reactCollectExportedComponents root hasDirective bindings).
End components.

(** ** Bindings *)

Section bindings.
Context {U : Unicode}.

Lemma reactModuleBindingsFrom_eq n : reactModuleBindingsFrom n = moduleBindings_body reactModuleBindingsFrom n.
Proof. unfold reactModuleBindingsFrom at 1. rewrite descend_eq; [done|descends_tac]. Qed.

(** A declaration binds the value of its last declarator of a name. *)
Lemma fold_last {A B} (f : A → option (string * B)) (step : gmap string B → A → gmap string B) l m k b :
  (∀ m x, step m x = match f x with Some (k, b) => <[k := b]> m | None => m end) →
  fold_left step l m !! k = Some b ↔
  (∃ before x after, l = before ++ x :: after ∧ f x = Some (k, b) ∧ ∀ y c, In y after → f y ≠ Some (k, c))
  ∨ ((∀ y c, In y l → f y ≠ Some (k, c)) ∧ m !! k = Some b).
Proof.
  intros Hstep. induction l as [|x l IH] using rev_ind.
  { cbn. split; [intros H; right; split; [by intros ? ? []|done]|].
    intros [(before & x & after & E & _)|[_ H]]; [by destruct before|done]. }
  rewrite fold_left_app. cbn [fold_left]. rewrite Hstep.
  assert (Hother : (∀ c, f x ≠ Some (k, c)) →
    (fold_left step l m !! k = Some b ↔
     (∃ before x' after, l ++ [x] = before ++ x' :: after ∧ f x' = Some (k, b) ∧ ∀ y c, In y after → f y ≠ Some (k, c))
     ∨ ((∀ y c, In y (l ++ [x]) → f y ≠ Some (k, c)) ∧ m !! k = Some b))).
  { intros Hx. rewrite IH. split.
    - intros [(before & y & after & -> & E & H)|[H Hm]].
      + left. exists before, y, (after ++ [x]). split; [by rewrite <- (assoc_L (++))|]. split; [done|].
        intros z c Hz. apply in_app_or in Hz as [Hz|[<-|[]]]; [by apply H|apply Hx].
      + right. split; [|done]. intros z c Hz. apply in_app_or in Hz as [Hz|[<-|[]]]; [by apply H|apply Hx].
    - intros [(before & y & after & E & Ey & H)|[H Hm]].
      + destruct after as [|z after _] using rev_ind.
        { apply app_inj_tail in E as [_ <-]. by apply Hx in Ey. }
        rewrite app_comm_cons, (assoc_L (++)) in E. apply app_inj_tail in E as [-> _].
        left. exists before, y, after. split_and!; [done..|]. intros w c Hw. apply H, in_or_app. by left.
      + right. split; [|done]. intros z c Hz. apply H, in_or_app. by left. }
  destruct (f x) as [[k' b']|] eqn:Ex; [|apply Hother; congruence].
  destruct (decide (k' = k)) as [->|Hne]; [|rewrite lookup_insert_ne by done; apply Hother; congruence].
  rewrite lookup_insert, decide_True by done. split.
  - intros [= ->]. left. exists l, x, []. split_and!; done.
  - intros [(before & y & after & E & Ey & H)|[H _]].
    + destruct after as [|z after _] using rev_ind; [apply app_inj_tail in E as [_ <-]; congruence|].
      rewrite app_comm_cons, (assoc_L (++)) in E. apply app_inj_tail in E as [_ <-].
      exfalso. apply (H x b'); [apply in_or_app; right; by left|done].
    + exfalso. apply (H x b'); [apply in_or_app; right; by left|done].
Qed.

(** ** The records *)

Definition span_key (r : ReactComponentFacts) : option (N * N) := Some (rec_span r).

Lemma dedupe_kept l : reactDedupeComponentsBySpan l = keep_first span_key ∅ l.
Proof.
  unfold reactDedupeComponentsBySpan.
  assert (H : ∀ l out seen, fst (fold_left (λ '(out, seen) rec,
    if bool_decide (rec_span rec ∈ (seen : gset (N * N))) then (out, seen)
    else (out ++ [rec], {[rec_span rec]} ∪ seen)) l (out, seen)) = out ++ keep_first span_key seen l); [|by apply H].
  clear l. induction l as [|r l IH]; intros out seen; cbn [fold_left]; [by rewrite app_nil_r|].
  rewrite keep_first_step. cbn [span_key]. case_bool_decide; rewrite IH; [done|]. by rewrite <- (assoc_L (++)).
Qed.

(** The facts of all exports of a file, in its order. *)
Definition exported_facts (root : Node) : list ReactComponentFacts :=
  flat_map (λ stmt, reactFactsFromExport stmt (moduleHasUseClientDirective root) (collectModuleTopLevelBindings root))
    (reactExportStatements root).

Lemma components_kept root :
  computeReactComponents root = stable_sort component_less (keep_first span_key ∅ (exported_facts root)).
Proof.
  unfold computeReactComponents, reactCollectExportedComponents. rewrite dedupe_kept. do 2 f_equal.
  by rewrite (fold_collect (λ stmt, reactFactsFromExport stmt (moduleHasUseClientDirective root) (collectModuleTopLevelBindings root))).
Qed.

#[local] Instance component_less_strict_weak : StrictWeak component_less.
Proof.
  apply (strict_weak_of_cmp _ (λ a b, then_cmp (loc_StartByte (rcf_Location a) ?= loc_StartByte (rcf_Location b))%N
    (String.compare (rcf_Name a) (rcf_Name b)))).
  - intros a b. unfold component_less. by apply less_chain_N.
  - pose proof (on_cmp_laws (λ r, loc_StartByte (rcf_Location r)) N.compare).
    pose proof (on_cmp_laws rcf_Name String.compare). by apply then_cmp_laws.
Qed.

(** What the facts of a component with body [body] are. *)
Definition facts_of (cand : reactCandidate) (clientKind : string) (body : Node) : ReactComponentFacts :=
  let calls test := stable_sort start_less (List.filter (is_call test) (scope_nodes body)) in
  let useState := map (λ call, mkReactUseStateBinding (fst (reactUseStateBindingNames call)) (snd (reactUseStateBindingNames call))
                                 (locationFromNode call)) (calls isReactUseStateCallee) in
  mkReactComponentFacts (rc_name cand) (locationFromNode (rc_funcNode cand)) clientKind useState
    (reactExtractCoordinatedTransitions body useState) (reactExtractWorkspaceBranches body)
    (map (λ c, mkReactImperativeUICall (reactImperativeAPI c) (locationFromNode c)) (calls (λ n, reactImperativeAPI n != "")))
    (reactExtractSharedPanelDeps body useState).

(** The client gate. *)
Definition client_kind (hasDirective : bool) (body : Node) (kind : string) : Prop :=
  hasDirective = true ∧ kind = "use_client_directive"
  ∨ hasDirective = false ∧ kind = "hooks_and_jsx" ∧ ∃ call, In call (scope_nodes body) ∧ is_call reactIsHookCallee call = true.

Lemma build_exact cand hasDirective r :
  reactBuildComponentFacts cand hasDirective = Some r ↔
  ∃ body kind, isPascalCaseName (rc_name cand) = true ∧ ChildByFieldName (rc_funcNode cand) "body" = Some body
    ∧ (∃ n, In n (scope_nodes body) ∧ one_of jsx_kinds (Kind n) = true)
    ∧ client_kind hasDirective body kind ∧ r = facts_of cand kind body.
Proof.
  unfold reactBuildComponentFacts, client_kind. destruct (isPascalCaseName (rc_name cand)); cbn [negb];
    [|split; [done|by intros (? & ? & ? & _)]].
  destruct (ChildByFieldName (rc_funcNode cand) "body") as [body|]; [|split; [done|by intros (? & ? & _ & ? & _)]].
  rewrite reactScopeContainsJSX_exists, reactScopeInvokesHook_exists.
  assert (Hu : ∀ kind, facts_of cand kind body = mkReactComponentFacts (rc_name cand) (locationFromNode (rc_funcNode cand)) kind
      (reactExtractUseState body) (reactExtractCoordinatedTransitions body (reactExtractUseState body))
      (reactExtractWorkspaceBranches body) (reactExtractImperativeUI body)
      (reactExtractSharedPanelDeps body (reactExtractUseState body))).
  { intros kind. unfold facts_of, reactExtractImperativeUI. rewrite <- !scope_calls_filter.
    assert (E : map (λ call, mkReactUseStateBinding (fst (reactUseStateBindingNames call)) (snd (reactUseStateBindingNames call))
      (locationFromNode call)) (scope_calls isReactUseStateCallee body) = reactExtractUseState body).
    { apply map_ext. intros call. by destruct (reactUseStateBindingNames call). }
    by rewrite E. }
  pose proof (existsb_exists (λ n, one_of jsx_kinds (Kind n)) (scope_nodes body)) as Hj.
  destruct (existsb (λ n, one_of jsx_kinds (Kind n)) (scope_nodes body)); cbn [negb];
    [|split; [done|intros (b & k & _ & [= <-] & Hx & _); by apply Hj in Hx]].
  pose proof (existsb_exists (is_call reactIsHookCallee) (scope_nodes body)) as Hh.
  destruct hasDirective; [|destruct (existsb (is_call reactIsHookCallee) (scope_nodes body))].
  - split.
    + intros [= <-]. exists body, "use_client_directive". split_and!; [done|done|by apply Hj|by left|by rewrite Hu].
    + intros (b & k & _ & [= <-] & _ & [[_ ->]|[? _]] & ->); [by rewrite Hu|done].
  - split.
    + intros [= <-]. exists body, "hooks_and_jsx".
      split_and!; [done|done|by apply Hj|right; split_and!; [done|done|by apply Hh]|by rewrite Hu].
    + intros (b & k & _ & [= <-] & _ & [[? _]|(_ & -> & _)] & ->); [done|by rewrite Hu].
  - split; [done|]. intros (b & k & _ & [= <-] & _ & [[? _]|(_ & _ & Hx)] & _); [done|by apply Hh in Hx].
Qed.

(** A statement of a file binds a name at top level. *)
Definition binds (stmt : Node) (name : string) (value : Node) : Prop := reactModuleBindingsFrom stmt !! name = Some value.

Lemma top_level_bindings root name value :
  collectModuleTopLevelBindings root !! name = Some value ↔
  ∃ before stmt after, children root = before ++ stmt :: after ∧ binds stmt name value
    ∧ ∀ later v, In later after → ¬ binds later name v.
Proof.
  unfold collectModuleTopLevelBindings, binds. induction (children root) as [|x l IH] using rev_ind.
  { cbn. rewrite lookup_empty. split; [done|]. intros (before & u & after & E & _). by destruct before. }
  rewrite fold_left_app. cbn [fold_left]. rewrite lookup_union_Some_raw. split.
  - intros [Hx|[Hx Hl]].
    + exists l, x, []. split_and!; done.
    + apply IH in Hl as (before & stmt & after & -> & Hs & H). exists before, stmt, (after ++ [x]).
      split; [by rewrite <- (assoc_L (++))|]. split; [done|].
      intros later v Hin. apply in_app_or in Hin as [Hin|[<-|[]]]; [by apply H|]. by rewrite Hx.
  - intros (before & stmt & after & E & Hs & H). destruct after as [|z after _] using rev_ind.
    { apply app_inj_tail in E as [_ <-]. by left. }
    rewrite app_comm_cons, (assoc_L (++)) in E. apply app_inj_tail in E as [-> <-]. right. split.
    + destruct (reactModuleBindingsFrom x !! name) as [v|] eqn:Ex; [|done]. exfalso.
      apply (H x v); [apply in_or_app; right; by left|done].
    + apply IH. exists before, stmt, after. split_and!; [done..|]. intros later v Hin. apply H, in_or_app. by left.
Qed.

End bindings.

(** ** Example *)

Module ReactExample.
Definition str (s : string) : Sketch := Tok "string" (String (byte_of 34) s +:+ String (byte_of 34) "").
Definition call (f : Sketch) (args : list (string * Sketch)) : Sketch :=
  Br "call_expression" [("function", f); ("arguments", Br "arguments" (tok "(" :: args ++ [tok ")"]))].
Definition member (o p : string) : Sketch :=
  Br "member_expression" [("object", ident o); tok "."; ("property", Tok "property_identifier" p)].
Definition block (ss : list (string * Sketch)) : Sketch := Br "statement_block" (tok "{" :: ss ++ [tok "}"]).
Definition expr (s : Sketch) : string * Sketch := ("", Br "expression_statement" [("", s)]).
Definition params : string * Sketch := ("parameters", Br "formal_parameters" [tok "("; tok ")"]).
Definition state (binding setter : string) : string * Sketch :=
  ("", Br "lexical_declaration" [tok "const"; ("", Br "variable_declarator"
    [("name", Br "array_pattern" [tok "["; ("", ident binding); tok ","; ("", ident setter); tok "]"]); tok "=";
     ("value", call (ident "useState") [("", str "a")])])]).
Definition panel (tag : string) (attrs : list string) : Sketch :=
  Br "jsx_self_closing_element" ([tok "<"; ("name", ident tag)]
    ++ map (λ a, ("attribute", Br "jsx_attribute" [("", Tok "property_identifier" a); tok "=";
                    ("", Br "jsx_expression" [tok "{"; ("", ident a); tok "}"])])) attrs ++ [tok "/>"]).
Definition choice (v : string) (yes no : Sketch) : Sketch :=
  Br "ternary_expression" [("condition", Br "binary_expression" [("left", ident "view"); ("operator", Tok "===" "==="); ("right", str v)]);
                           tok "?"; ("consequence", yes); tok ":"; ("alternative", no)].

(** [function Page() { const [view, setView] = useState("a"); const [sel, setSel] = useState("a");
     function onReset() { setView("a"); setSel("a") } el.focus();
     return view === "a" ? <List sel={sel} /> : view === "b" ? <Detail sel={sel} view={view} /> : <Other /> }] *)
Definition page : Sketch :=
  Br "function_declaration" [tok "function"; ("name", ident "Page"); params;
    ("body", block
      [state "view" "setView"; state "sel" "setSel";
       ("", Br "function_declaration" [tok "function"; ("name", ident "onReset"); params;
          ("body", block [expr (call (ident "setView") [("", str "a")]); expr (call (ident "setSel") [("", str "a")])])]);
       expr (call (member "el" "focus") []);
       ("", Br "return_statement" [tok "return";
          ("", choice "a" (panel "List" ["sel"]) (choice "b" (panel "Detail" ["sel"; "view"]) (panel "Other" [])))])])].

(** [page], exported twice, under the client directive. *)
Definition file : Node :=
  parsed (Br "program"
    [expr (str "use client");
     ("", Br "export_statement" [tok "export"; ("declaration", page)]);
     ("", Br "export_statement" [tok "export"; ("", Br "export_clause" [tok "{";
        ("", Br "export_specifier" [("name", ident "Page")]); tok "}"])])]).

#[local] Existing Instance ascii_unicode.

Lemma react_example :
  map (λ r, (rcf_Name r, rcf_ClientKind r, map (λ u, (usb_Binding u, usb_Setter u)) (rcf_UseState r),
             map (λ t, (rct_Name t, rct_Kind t, rct_UpdatedBindings t)) (rcf_CoordinatedTransitions r),
             map rwb_Label (rcf_WorkspaceBranches r), map riu_API (rcf_ImperativeUI r),
             map (λ d, (rsp_Name d, rsp_Panels d)) (rcf_SharedPanelDeps r)))
    (computeReactComponents file)
  = [("Page", "use_client_directive", [("view", "setView"); ("sel", "setSel")],
      [("onReset", "callback", ["sel"; "view"])], ["a"; "b"; "Other"], ["focus"], [("sel", ["Detail"; "List"])])].
Proof. by vm_compute. Qed.
End ReactExample.
