(* ===== verification/Analyzer.v ===== *)
(** * Analysis of a file

    [Analyzer.AnalyzeBytes] ([analyzer.go], [analyzer_options.go], [validate.go],
    [parser.go], [errors.go], [syntax_issues.go], [ts_syntax_issues.go], [language.go],
    [go_imports.go], [ts_imports.go]): the checks before parsing, the syntax issues of a
    tree, the imports, and the result put together from the extractors.

    The parser and its queries are the third-party engine behind [engine.Language]: an
    implicit argument.  A context is asked at three moments. *)

From Stdlib Require Import Ascii Sorted.
From S2P Require Import Prelude GoOrder GoText GoErr Json Semantics Syntax Complexity GoUnquote Nesting GoSyntax GoFeatures GoComplexity TsSyntax TsScope TsFeatures TsComplexity ReactScope ReactFacts ReactComponents.

(** ** The engine *)

(** What the code asks of [engine.Language], for each language: a parser, a parse (with
    the tree, which may be missing), the compilation of a query, and the captures of each
    match of a query below a node. *)
Class Engine := {
  NewParser : string → option error;
  Parse : string → string → error + option Tree;
  NewQuery : string → string → option error;
  Matches : string → string → Node → list (list Node)
}.

(** ** [errors.go] *)

(** go: pkg/semantics/errors.go#SyntaxError *)
Record SyntaxError := mkSyntaxError { se_Issues : list SyntaxIssue }.

(** The error the code returns: a plain one, or a [*SyntaxError]. *)
Inductive AnalyzeError := PlainError (e : error) | SyntaxErr (e : SyntaxError).

(** go: pkg/semantics/errors.go#Error *)
Definition SyntaxError_Error (e : SyntaxError) : string :=
  "semantics: " +:+ Itoa (zlen (se_Issues e)) +:+ " syntax issue(s)".

(** go: pkg/semantics/errors.go#Is *)
Definition SyntaxError_Is (e : SyntaxError) (target : sentinel) : bool := bool_decide (target = SemErrSyntax).

(** [errors.Is]. *)
Definition analyze_Is (e : AnalyzeError) (s : sentinel) : bool :=
  match e with PlainError e => errors_Is e s | SyntaxErr e => SyntaxError_Is e s end.

(** ** [language.go], [analyzer_options.go] *)

Definition LanguageGo : string := "go".
Definition LanguageTypeScript : string := "typescript".
Definition LanguageTSX : string := "tsx".

(** The keys of the registry. *)
Definition registered (lang : string) : bool := one_of [LanguageGo; LanguageTypeScript; LanguageTSX] lang.

(** go: pkg/semantics/analyzer_options.go#AnalyzerOptions *)
Record AnalyzerOptions := mkAnalyzerOptions { ao_Languages : list string; ao_MaxFileBytes : Z }.

(** go: pkg/semantics/analyzer.go#Analyzer *)
Record Analyzer := mkAnalyzer { an_maxFileBytes : Z; an_languages : gset string }.

(** go: pkg/semantics/analyzer.go#FileInput *)
Record FileInput := mkFileInput { fi_Path : string; fi_Language : string; fi_Content : string }.

Section analyzer.
Context {table : IsPrint}.

Definition unsupported (lang : string) : error := Errorw SemErrUnsupportedLanguage (": " +:+ quoted lang).

(** The loop over the requested languages. *)
Fixpoint add_languages (langs : list string) (languages : gset string) : error + gset string :=
  match langs with
  | [] => inr languages
  | lang :: langs => if negb (registered lang) then inl (unsupported lang) else add_languages langs ({[lang]} ∪ languages)
  end.

(** go: pkg/semantics/analyzer_options.go#NewAnalyzer *)
Definition NewAnalyzer (opts : AnalyzerOptions) : error + Analyzer :=
  if (ao_MaxFileBytes opts <? 0)%Z
  then inl (errors_New ("semantics: MaxFileBytes must be >= 0, got " +:+ Itoa (ao_MaxFileBytes opts)))
  else match add_languages (ao_Languages opts) ∅ with
  | inl e => inl e
  | inr languages => inr (mkAnalyzer (ao_MaxFileBytes opts) languages)
  end.

(** ** [validate.go] *)

(** go: pkg/semantics/validate.go#defaultMaxFileBytes *)
Definition defaultMaxFileBytes : Z := 2 * 1024 * 1024.

Definition slen (s : string) : Z := Z.of_nat (String.length s).

(** [bytes.IndexByte(content, 0) != -1]. *)
Fixpoint has_nul (s : string) : bool :=
  match s with EmptyString => false | String c s => (code c =? 0)%N || has_nul s end.

(** go: pkg/semantics/validate.go#validate *)
Definition validate (ctx : Context) (t : nat) (content lang : string) (maxFileBytes : Z) (allowed : gset string) :
    option error :=
  match ctx_Err ctx t with
  | Some err => Some err
  | None =>
      if (slen content =? 0)%Z then Some (sentinel_error SemErrEmptyContent)
      else if negb (registered lang) then Some (unsupported lang)
      else if bool_decide (allowed ≠ ∅) && negb (bool_decide (lang ∈ allowed)) then Some (unsupported lang)
      else
        let max := if (maxFileBytes <=? 0)%Z then defaultMaxFileBytes else maxFileBytes in
        if (max <? slen content)%Z
        then Some (Errorw SemErrFileTooLarge
               (": content is " +:+ Itoa (slen content) +:+ " bytes, exceeds max " +:+ Itoa max +:+ " bytes"))
        else if has_nul content then Some (sentinel_error SemErrBinaryContent)
        else None
  end.

(** ** [syntax_issues.go], [ts_syntax_issues.go] *)

Definition syntaxIssues_body (rec : Node * list SyntaxIssue → list SyntaxIssue) (x : Node * list SyntaxIssue) :
    list SyntaxIssue :=
  let (node, issues) := x in
  let issues :=
    if IsMissing node then issues ++ [mkSyntaxIssue "missing" (locationFromNode node)]
    else if IsError node then issues ++ [mkSyntaxIssue "error" (locationFromNode node)]
    else issues in
  fold_left (λ issues child, rec (child, issues)) (children node) issues.

(** go: pkg/semantics/syntax_issues.go#collectSyntaxIssues *)
Definition collectSyntaxIssues (n : Node) : list SyntaxIssue :=
  descend (λ x, nheight (fst x)) snd syntaxIssues_body (n, []).

(** go: pkg/semantics/ts_syntax_issues.go#tsStatementContainerKinds *)
Definition tsStatementContainerKinds : list string := ["program"; "statement_block"; "class_body"].

(** go: pkg/semantics/ts_syntax_issues.go#tsBareTokenKinds *)
Definition tsBareTokenKinds : list string := ["const"; "let"; "var"; "="].

(** go: pkg/semantics/ts_syntax_issues.go#bareTokenIssue *)
Definition bareTokenIssue (child : Node) : list SyntaxIssue :=
  if negb (one_of tsBareTokenKinds (Kind child)) then [] else [mkSyntaxIssue "error" (locationFromNode child)].

(** go: pkg/semantics/ts_syntax_issues.go#bareStatementTokenIssues *)
Definition bareStatementTokenIssues (n : Node) : list SyntaxIssue :=
  if negb (one_of tsStatementContainerKinds (Kind n)) then []
  else fold_left (λ issues child, issues ++ bareTokenIssue child) (children n) [].

Definition bareTokens_body (rec : Node * list SyntaxIssue → list SyntaxIssue) (x : Node * list SyntaxIssue) :
    list SyntaxIssue :=
  let (n, issues) := x in
  fold_left (λ issues child, rec (child, issues)) (children n) (issues ++ bareStatementTokenIssues n).

(** go: pkg/semantics/ts_syntax_issues.go#detectTSBareStatementTokens *)
Definition detectTSBareStatementTokens (root : Node) : list SyntaxIssue :=
  descend (λ x, nheight (fst x)) snd bareTokens_body (root, []).

Section engine.
Context {E : Engine} {U : Unicode}.

(** ** [parser.go] *)

(** go: pkg/semantics/parser.go#parse *)
Definition parse (ctx : Context) (t : nat) (content lang : string) : error + Tree :=
  match ctx_Err ctx t with
  | Some err => inl err
  | None =>
      if negb (registered lang) then inl (Errorw SemErrParseFailure (": " +:+ quoted lang +:+ " has no registered grammar"))
      else match NewParser lang with
      | Some err => inl (Errorw SemErrParseFailure (": " +:+ err_Error err))
      | None =>
          match Parse lang content with
          | inl err => inl (Errorw SemErrParseFailure (": " +:+ err_Error err))
          | inr None => inl (Errorw SemErrParseFailure ": Parse returned a nil tree")
          | inr (Some tree) => inr tree
          end
      end
  end.

(** ** [go_imports.go], [ts_imports.go] *)

(** go: pkg/semantics/go_imports.go#goImportQuerySource *)
Definition goImportQuerySource : string := "(import_spec path: (_) @import.path)".

(** go: pkg/semantics/ts_imports.go#tsImportQuerySource *)
Definition tsImportQuerySource : string := "(import_statement source: (string) @import.path)".

(** go: pkg/semantics/go_imports.go#importAlias *)
Definition importAlias (pathNode : Node) : string :=
  match Parent pathNode with
  | None => ""
  | Some spec => match ChildByFieldName spec "name" with Some name => Utf8Text name | None => "" end
  end.

(** [strconv.ErrSyntax]. *)
Definition strconv_ErrSyntax : error := errors_New "invalid syntax".

(** The first literal that cannot be unquoted ends the loop.
    go: pkg/semantics/go_imports.go#importFeaturesFromCaptures *)
Fixpoint importFeaturesFromCaptures (captures : list Node) : error + list ImportFeature :=
  match captures with
  | [] => inr []
  | pathNode :: captures =>
      match Unquote (Utf8Text pathNode) with
      | None => inl (Errorf ("semantics: unquoting import path " +:+ quoted (Utf8Text pathNode) +:+ ": ") strconv_ErrSyntax)
      | Some path =>
          match importFeaturesFromCaptures captures with
          | inl err => inl err
          | inr imports => inr (mkImportFeature path (importAlias pathNode) (locationFromNode pathNode) :: imports)
          end
      end
  end.

Fixpoint go_matches (matches : list (list Node)) : error + list ImportFeature :=
  match matches with
  | [] => inr []
  | captures :: matches =>
      match importFeaturesFromCaptures captures with
      | inl err => inl err
      | inr imported =>
          match go_matches matches with
          | inl err => inl err
          | inr imports => inr (imported ++ imports)
          end
      end
  end.

(** The order [sort.Slice] is given; two imports of a file do not start at one byte. *)
Definition import_less (a b : ImportFeature) : bool :=
  (loc_StartByte (imp_Location a) <? loc_StartByte (imp_Location b))%N.

(** go: pkg/semantics/go_imports.go#extractGoImports *)
Definition extractGoImports (root : Node) : error + list ImportFeature :=
  match NewQuery LanguageGo goImportQuerySource with
  | Some queryErr => inl (Errorf "semantics: compiling import query: " queryErr)
  | None =>
      match go_matches (Matches LanguageGo goImportQuerySource root) with
      | inl err => inl err
      | inr imports => inr (stable_sort import_less imports)
      end
  end.

(** go: pkg/semantics/ts_imports.go#tsUnquoteString *)
Definition tsUnquoteString (raw : string) : string :=
  if String.length raw <? 2 then raw
  else if same_quotes raw then inner raw else raw.

(** go: pkg/semantics/ts_imports.go#extractTSImportsForGrammar *)
Definition extractTSImportsForGrammar (lang : string) (root : Node) : error + list ImportFeature :=
  match NewQuery lang tsImportQuerySource with
  | Some queryErr => inl (Errorf "semantics: compiling TS import query: " queryErr)
  | None =>
      let imports := flat_map (map (λ pathNode,
        mkImportFeature (tsUnquoteString (Utf8Text pathNode)) "" (locationFromNode pathNode)))
        (Matches lang tsImportQuerySource root) in
      inr (stable_sort import_less imports)
  end.

(** ** [language.go], [analyzer.go] *)

(** The entry of a language in the registry: its imports and features.
    go: pkg/semantics/language.go#languageSpec *)
Record languageSpec := mkLanguageSpec {
  ls_extractImports : Node → error + list ImportFeature;
  ls_computeFeatures : Node → StructuralMetrics * list Finding
}.

(** go: pkg/semantics/language.go#languageRegistry *)
Definition languageRegistry (lang : string) : option languageSpec :=
  if lang == LanguageGo then Some (mkLanguageSpec extractGoImports computeGoFeatures)
  else if lang == LanguageTypeScript
  then Some (mkLanguageSpec (extractTSImportsForGrammar LanguageTypeScript) computeTSFeatures)
  else if lang == LanguageTSX then Some (mkLanguageSpec (extractTSImportsForGrammar LanguageTSX) computeTSFeatures)
  else None.

(** A result with nothing but its issues. *)
Definition issues_result (in_ : FileInput) (issues : list SyntaxIssue) : option Result * option AnalyzeError :=
  (Some (mkResult (fi_Path in_) (fi_Language in_) "syntax_errors" issues [] zero_metrics [] [] []),
   Some (SyntaxErr (mkSyntaxError issues))).

Definition is_typescript (lang : string) : bool := (lang == LanguageTypeScript) || (lang == LanguageTSX).

(** go: pkg/semantics/analyzer.go#AnalyzeBytes *)
Definition AnalyzeBytes (a : Analyzer) (ctx : Context) (t : nat) (in_ : FileInput) : option Result * option AnalyzeError :=
  match validate ctx t (fi_Content in_) (fi_Language in_) (an_maxFileBytes a) (an_languages a) with
  | Some err => (None, Some (PlainError err))
  | None =>
      match parse ctx (S t) (fi_Content in_) (fi_Language in_) with
      | inl err => (None, Some (PlainError err))
      | inr tree =>
          let root := Root tree in
          if HasError root then issues_result in_ (collectSyntaxIssues root)
          else match ctx_Err ctx (S (S t)) with
          | Some err => (None, Some (PlainError err))
          | None =>
              let issues := if is_typescript (fi_Language in_) then detectTSBareStatementTokens root else [] in
              match issues with
              | _ :: _ => issues_result in_ issues
              | [] =>
                  match languageRegistry (fi_Language in_) with
                  | None => (None, None)
                  | Some spec =>
                      match ls_extractImports spec root with
                      | inl err => (None, Some (PlainError err))
                      | inr imports =>
                          let (metrics, findings) := ls_computeFeatures spec root in
                          let '(cognitive, metrics) :=
                            if fi_Language in_ == LanguageGo then
                              let cognitive := computeGoCognitiveComplexity root in
                              (cognitive, applyCognitiveComplexityAggregates metrics cognitive None)
                            else if is_typescript (fi_Language in_) then
                              let (cognitive, topLevel) := computeTSCognitiveComplexity root in
                              (cognitive, applyCognitiveComplexityAggregates metrics cognitive (Some topLevel))
                            else ([], metrics) in
                          let reactComponents :=
                            if is_typescript (fi_Language in_) then computeReactComponents root else [] in
                          (Some (mkResult (fi_Path in_) (fi_Language in_) "ok" [] imports metrics findings cognitive
                                   reactComponents), None)
                      end
                  end
              end
          end
      end
  end.
End engine.
End analyzer.

(** ** Syntax issues *)

Definition issue_of (n : Node) : option SyntaxIssue :=
  if IsMissing n then Some (mkSyntaxIssue "missing" (locationFromNode n))
  else if IsError n then Some (mkSyntaxIssue "error" (locationFromNode n))
  else None.

(** A walk that appends what each node gives, in pre-order. *)
Lemma walk_appends {A} (f : Node → list A) (body : (Node * list A → list A) → Node * list A → list A) :
  (∀ rec n acc, body rec (n, acc) = fold_left (λ acc child, rec (child, acc)) (children n) (acc ++ f n)) →
  ∀ n acc, descend (λ x : Node * list A, nheight (fst x)) snd body (n, acc) = acc ++ flat_map f (nodes n).
Proof.
  intros Hb. assert (Hd : descends (λ x : Node * list A, nheight (fst x)) body).
  { intros g h [n acc] H. rewrite !Hb. apply fold_left_ext_In. intros acc' m Hm. apply H. cbn. by apply children_height. }
  induction n as [n IH] using node_ind. intros acc. rewrite descend_eq by done. rewrite Hb, nodes_eq. cbn [flat_map].
  rewrite (assoc_L (++)). generalize (acc ++ f n) as acc'.
  assert (Hl : ∀ l, (∀ m, In m l → In m (children n)) → ∀ acc',
    fold_left (λ acc child, descend (λ x : Node * list A, nheight (fst x)) snd body (child, acc)) l acc'
    = acc' ++ flat_map f (flat_map nodes l)); [|by apply Hl].
  induction l as [|m l IHl]; intros Hl acc'; cbn [fold_left flat_map]; [by rewrite app_nil_r|].
  rewrite IHl by (intros; apply Hl; by right). rewrite IH by (apply Hl; by left).
  by rewrite flat_map_app, <- (assoc_L (++)).
Qed.

Lemma collectSyntaxIssues_exact n : collectSyntaxIssues n = omap issue_of (nodes n).
Proof.
  unfold collectSyntaxIssues. rewrite (walk_appends (λ m, option_list (issue_of m))).
  - induction (nodes n) as [|m l IH]; [done|]. cbn [flat_map]. rewrite omap_step. cbn [app] in *. rewrite IH. by destruct (issue_of m).
  - intros rec m acc. unfold syntaxIssues_body, issue_of.
    destruct (IsMissing m); [done|]. destruct (IsError m); [done|]. cbn. by rewrite app_nil_r.
Qed.

Definition bare_token (child : Node) : bool := one_of tsBareTokenKinds (Kind child).

Lemma detectTSBareStatementTokens_exact root :
  detectTSBareStatementTokens root
  = flat_map (λ n, if one_of tsStatementContainerKinds (Kind n)
                   then map (λ child, mkSyntaxIssue "error" (locationFromNode child)) (List.filter bare_token (children n))
                   else []) (nodes root).
Proof.
  unfold detectTSBareStatementTokens. rewrite (walk_appends bareStatementTokenIssues); [|done].
  cbn [app]. apply flat_map_ext. intros n. unfold bareStatementTokenIssues.
  destruct (one_of tsStatementContainerKinds (Kind n)); [|done]. cbn [negb].
  rewrite (fold_collect bareTokenIssue) by done. cbn [app].
  induction (children n) as [|m l IH]; [done|]. cbn [flat_map List.filter]. rewrite IH. unfold bareTokenIssue, bare_token.
  by destruct (one_of tsBareTokenKinds (Kind m)).
Qed.

(** ** Outcomes *)

Section outcomes.
Context {table : IsPrint} {E : Engine} {U : Unicode}.

Lemma registry_registered lang : registered lang = true ↔ is_Some (languageRegistry lang).
Proof.
  unfold registered, languageRegistry. rewrite one_of_In. cbn [In]. split.
  - intros [<-|[<-|[<-|[]]]]; eexists; reflexivity.
  - destruct (String.eqb_spec lang LanguageGo) as [->|]; [auto|].
    destruct (String.eqb_spec lang LanguageTypeScript) as [->|]; [auto|].
    destruct (String.eqb_spec lang LanguageTSX) as [->|]; [auto|]. by intros [? ?].
Qed.

(** The language passes the check of the analyzer. *)
Definition language_ok (a : Analyzer) (lang : string) : Prop :=
  registered lang = true ∧ (an_languages a = ∅ ∨ lang ∈ an_languages a).

Definition max_bytes (a : Analyzer) : Z := if (an_maxFileBytes a <=? 0)%Z then defaultMaxFileBytes else an_maxFileBytes a.

(** The checks before parsing, in their order. *)
Inductive refusal (a : Analyzer) (ctx : Context) (t : nat) (in_ : FileInput) : sentinel → Prop :=
| refuse_done s : ctx t = Some s → refusal a ctx t in_ s
| refuse_empty : ctx t = None → fi_Content in_ = "" → refusal a ctx t in_ SemErrEmptyContent
| refuse_language : ctx t = None → fi_Content in_ ≠ "" → ¬ language_ok a (fi_Language in_) →
    refusal a ctx t in_ SemErrUnsupportedLanguage
| refuse_large : ctx t = None → fi_Content in_ ≠ "" → language_ok a (fi_Language in_) →
    (max_bytes a < slen (fi_Content in_))%Z → refusal a ctx t in_ SemErrFileTooLarge
| refuse_binary : ctx t = None → fi_Content in_ ≠ "" → language_ok a (fi_Language in_) →
    (slen (fi_Content in_) ≤ max_bytes a)%Z → has_nul (fi_Content in_) = true → refusal a ctx t in_ SemErrBinaryContent.

(** The input passes all of them. *)
Definition admitted (a : Analyzer) (ctx : Context) (t : nat) (in_ : FileInput) : Prop :=
  ctx t = None ∧ fi_Content in_ ≠ "" ∧ language_ok a (fi_Language in_)
  ∧ (slen (fi_Content in_) ≤ max_bytes a)%Z ∧ has_nul (fi_Content in_) = false.

Lemma slen_zero s : (slen s =? 0)%Z = true ↔ s = "".
Proof. unfold slen. rewrite Z.eqb_eq. destruct s; cbn; split; intros; try done; lia. Qed.

Lemma validate_cases a ctx t in_ :
  match validate ctx t (fi_Content in_) (fi_Language in_) (an_maxFileBytes a) (an_languages a) with
  | Some err => ∃ s, refusal a ctx t in_ s ∧ err_chain err = [s]
  | None => admitted a ctx t in_
  end.
Proof.
  unfold validate, ctx_Err. destruct (ctx t) as [s|] eqn:Ec; cbn [option_map].
  { exists s. split; [by apply refuse_done|done]. }
  pose proof (slen_zero (fi_Content in_)) as Hz. destruct (slen (fi_Content in_) =? 0)%Z.
  { exists SemErrEmptyContent. split; [apply refuse_empty; [done|by apply Hz]|done]. }
  assert (Hne : fi_Content in_ ≠ "") by (intros E'; by apply Hz in E').
  destruct (registered (fi_Language in_)) eqn:Er; cbn [negb].
  2:{ exists SemErrUnsupportedLanguage. split; [|done]. apply refuse_language; [done..|]. intros [? _]. congruence. }
  destruct (decide (an_languages a = ∅ ∨ fi_Language in_ ∈ an_languages a)) as [Hl|Hl].
  2:{ rewrite bool_decide_true, bool_decide_false by tauto. exists SemErrUnsupportedLanguage. split; [|done].
      apply refuse_language; [done..|]. intros [_ ?]. tauto. }
  assert (Hb : bool_decide (an_languages a ≠ ∅) && negb (bool_decide (fi_Language in_ ∈ an_languages a)) = false).
  { destruct Hl as [H|H]; [by rewrite (bool_decide_false (_ ≠ _)) by tauto|]. rewrite (bool_decide_true (_ ∈ _)) by done.
    by rewrite andb_false_r. }
  rewrite Hb. fold (max_bytes a). destruct (Z.ltb_spec (max_bytes a) (slen (fi_Content in_))).
  { exists SemErrFileTooLarge. split; [by apply refuse_large|done]. }
  destruct (has_nul (fi_Content in_)) eqn:En.
  { exists SemErrBinaryContent. split; [by apply refuse_binary|done]. }
  done.
Qed.

Lemma refusal_not_admitted a ctx t in_ s : refusal a ctx t in_ s → ¬ admitted a ctx t in_.
Proof. intros H (H1 & H2 & H3 & H4 & H5). destruct H; try congruence; try tauto. lia. Qed.

Lemma refusal_unique a ctx t in_ s s' : refusal a ctx t in_ s → refusal a ctx t in_ s' → s = s'.
Proof. intros H H'. destruct H, H'; try congruence; try tauto; lia. Qed.

(** What the engine reports as an error is none of the code's own sentinels. *)
Definition plain_engine : Prop := ∀ lang q err, NewQuery lang q = Some err → err_chain err = [].

Lemma extract_errors lang spec root err : plain_engine → languageRegistry lang = Some spec →
  ls_extractImports spec root = inl err → err_chain err = [].
Proof.
  intros HE Hs.
  assert (Hc : ∀ captures e, importFeaturesFromCaptures captures = inl e → err_chain e = []).
  { induction captures as [|n l IH]; intros e; cbn; [done|]. destruct (Unquote _); [|by intros [= <-]].
    destruct (importFeaturesFromCaptures l); [|done]. intros [= <-]. by apply IH. }
  assert (Hm : ∀ ms e, go_matches ms = inl e → err_chain e = []).
  { induction ms as [|m l IH]; intros e; cbn; [done|]. destruct (importFeaturesFromCaptures m) eqn:Ec; [intros [= <-]; by eapply Hc|].
    destruct (go_matches l); [|done]. intros [= <-]. by apply IH. }
  assert (Hgo : ∀ e, extractGoImports root = inl e → err_chain e = []).
  { intros e. unfold extractGoImports. destruct (NewQuery _ _) eqn:En; [intros [= <-]; by eapply (HE _ _ _ En)|].
    destruct (go_matches _) eqn:Em; [|done]. intros [= <-]. by eapply Hm. }
  assert (Hts : ∀ l e, extractTSImportsForGrammar l root = inl e → err_chain e = []).
  { intros l e. unfold extractTSImportsForGrammar. destruct (NewQuery _ _) eqn:En; [|done]. intros [= <-]. by eapply (HE _ _ _ En). }
  unfold languageRegistry in Hs. repeat (destruct (_ == _); [injection Hs as <-; cbn; eauto|]). done.
Qed.

(** C20: A call of [AnalyzeBytes] ends in one of three ways.  It refuses the input before
    parsing, with the error of the first check that fails, or fails later with an error
    that is no syntax error; it returns a partial result together with a syntax error that
    carries the same issues, the result having none of the extracted parts; or it returns
    a complete result without issues and no error.  It never returns neither, and a
    result always echoes the path and the language. *)
Theorem analyze_outcome a ctx t in_ : plain_engine →
  match AnalyzeBytes a ctx t in_ with
  | (Some r, None) =>
      admitted a ctx t in_ ∧ ctx (S t) = None ∧ ctx (S (S t)) = None
      ∧ res_Path r = fi_Path in_ ∧ res_Language r = fi_Language in_ ∧ res_ParseStatus r = "ok" ∧ res_SyntaxErrors r = []
      ∧ ∃ tree, Parse (fi_Language in_) (fi_Content in_) = inr (Some tree) ∧ HasError (Root tree) = false
          ∧ (is_typescript (fi_Language in_) = true → detectTSBareStatementTokens (Root tree) = [])
  | (Some r, Some err) =>
      admitted a ctx t in_ ∧ ctx (S t) = None ∧ analyze_Is err SemErrSyntax = true
      ∧ r = mkResult (fi_Path in_) (fi_Language in_) "syntax_errors" (res_SyntaxErrors r) [] zero_metrics [] [] []
      ∧ err = SyntaxErr (mkSyntaxError (res_SyntaxErrors r))
      ∧ ∃ tree, Parse (fi_Language in_) (fi_Content in_) = inr (Some tree)
          ∧ res_SyntaxErrors r = if HasError (Root tree) then omap issue_of (nodes (Root tree))
                                 else detectTSBareStatementTokens (Root tree)
  | (None, Some err) =>
      (∃ s, refusal a ctx t in_ s ∧ ∀ s', analyze_Is err s' = bool_decide (s' = s))
      ∨ admitted a ctx t in_
        ∧ ((∃ s, (ctx (S t) = Some s ∨ ctx (S (S t)) = Some s) ∧ ∀ s', analyze_Is err s' = bool_decide (s' = s))
           ∨ analyze_Is err SemErrParseFailure = true
           ∨ ∀ s, analyze_Is err s = false)
  | (None, None) => False
  end.
Proof.
  intros HE. assert (Hone : ∀ e s, err_chain e = [s] → ∀ s', analyze_Is (PlainError e) s' = bool_decide (s' = s)).
  { intros e s He s'. cbn. unfold errors_Is. rewrite He. apply bool_decide_ext, list_elem_of_singleton. }
  unfold AnalyzeBytes. pose proof (validate_cases a ctx t in_) as Hv.
  destruct (validate _ _ _ _ _ _) as [err|].
  { destruct Hv as (s & Hs & Hc). left. exists s. split; [done|by apply Hone]. }
  assert (Hlang : registered (fi_Language in_) = true) by apply Hv.
  unfold parse, ctx_Err. rewrite Hlang. cbn [negb]. destruct (ctx (S t)) as [s|] eqn:E1; cbn [option_map].
  { right. split; [done|]. left. exists s. split; [by left|by apply Hone]. }
  assert (Hfail : ∀ suffix, admitted a ctx t in_ ∧
    ((∃ s, (None = Some s ∨ ctx (S (S t)) = Some s) ∧
        ∀ s', analyze_Is (PlainError (Errorw SemErrParseFailure suffix)) s' = bool_decide (s' = s))
     ∨ analyze_Is (PlainError (Errorw SemErrParseFailure suffix)) SemErrParseFailure = true
     ∨ ∀ s, analyze_Is (PlainError (Errorw SemErrParseFailure suffix)) s = false)).
  { intros suffix. split; [done|]. right; left. by rewrite (Hone _ SemErrParseFailure). }
  destruct (NewParser _); [right; apply Hfail|].
  destruct (Parse _ _) as [err|[tree|]] eqn:Ep; [right; apply Hfail| |right; apply Hfail].
  destruct (HasError (Root tree)) eqn:Eh.
  { split_and!; [done..|]. exists tree. rewrite Eh. split; [done|]. apply collectSyntaxIssues_exact. }
  destruct (ctx (S (S t))) as [s|] eqn:E2; cbn [option_map].
  { right. split; [done|]. left. exists s. split; [by right|by apply Hone]. }
  destruct (if is_typescript (fi_Language in_) then _ else _) as [|i is_] eqn:Ei.
  2:{ destruct (is_typescript _) eqn:Et; [|done]. split_and!; [done..|]. exists tree. rewrite Eh. cbn. by rewrite Ei. }
  destruct (languageRegistry (fi_Language in_)) as [spec|] eqn:Er;
    [|by apply registry_registered in Hlang as [? ?]; congruence].
  destruct (ls_extractImports spec (Root tree)) as [err|imports] eqn:Ex.
  { right. split; [done|]. right; right. intros s. cbn. unfold errors_Is.
    rewrite (extract_errors _ _ _ _ HE Er Ex). done. }
  destruct (ls_computeFeatures spec (Root tree)) as [metrics findings].
  destruct (if fi_Language in_ == LanguageGo then _ else _) as [cognitive metrics'].
  split_and!; [done..|]. exists tree. split_and!; [done..|]. intros Et. by rewrite Et in Ei.
Qed.

(** The counters and block kinds of a language. *)
Definition language_counter (lang : string) : string → option counter :=
  if lang == LanguageGo then GoFeatures.counter_of else ts_counter_of.
Definition language_depths (lang : string) (root : Node) : list Z :=
  if lang == LanguageGo then block_depths is_decl_kind "block" (nodes root)
  else block_depths ts_opens "statement_block" (nodes root).

Lemma features_metrics lang spec tree : languageRegistry lang = Some spec →
  let m := fst (ls_computeFeatures spec (Root tree)) in
  (∀ k, get k m = node_count (language_counter lang) k (Root tree))
  ∧ met_MaxNestingDepth m = foldr Z.max 0%Z (language_depths lang (Root tree)).
Proof.
  unfold languageRegistry, language_counter, language_depths. intros H.
  assert (Hgo : let m := fst (computeGoFeatures (Root tree)) in
    (∀ k, get k m = node_count GoFeatures.counter_of k (Root tree))
    ∧ met_MaxNestingDepth m = foldr Z.max 0%Z (block_depths is_decl_kind "block" (nodes (Root tree)))).
  { cbn zeta. unfold computeGoFeatures. cbn [fst]. rewrite walk_metrics, nested_nodes.
    split; [intros k; apply fold_counts|by apply fold_max_nesting]. }
  assert (Hts : let m := fst (computeTSFeatures (Root tree)) in
    (∀ k, get k m = node_count ts_counter_of k (Root tree))
    ∧ met_MaxNestingDepth m = foldr Z.max 0%Z (block_depths ts_opens "statement_block" (nodes (Root tree)))).
  { cbn zeta. unfold computeTSFeatures. cbn [fst].
    destruct (walk_walked (Root tree) (mkDescent 0 false false []) new_ts_collector) as [_ ->].
    unfold counted. cbn [depth_of d_blockDepth d_inFunc]. rewrite nested_nodes.
    split; [intros k; apply fold_counts|by apply fold_max_nesting]. }
  destruct (lang == LanguageGo); [injection H as <-; exact Hgo|].
  destruct (lang == LanguageTypeScript); [injection H as <-; exact Hts|].
  destruct (lang == LanguageTSX); [injection H as <-; exact Hts|done].
Qed.

(** The metrics of a complete result fit together: the counters count the nodes of the
    tree, the nesting depth is the deepest block below a function, and the complexity
    fields are the maximum of the scores the result lists, at least 0, and the sum of the
    scores of its functions and methods, for TypeScript of the functions that are in no
    other. *)
Theorem analyze_metrics a ctx t in_ r : AnalyzeBytes a ctx t in_ = (Some r, None) →
  ∃ tree, Parse (fi_Language in_) (fi_Content in_) = inr (Some tree)
  ∧ let m := res_Metrics r in
    (∀ k, get k m = node_count (language_counter (fi_Language in_)) k (Root tree))
    ∧ met_MaxNestingDepth m = foldr Z.max 0%Z (language_depths (fi_Language in_) (Root tree))
    ∧ met_MaxCognitiveComplexity m = foldr Z.max 0%Z (map fcc_Score (res_CognitiveComplexity r))
    ∧ met_SumCognitiveComplexity m
      = if fi_Language in_ == LanguageGo
        then sumz (map (λ c, if (fcc_Kind c == "function") || (fcc_Kind c == "method") then fcc_Score c else 0%Z)
                     (res_CognitiveComplexity r))
        else sumz (map (λ p, if snd p : bool then fcc_Score (fst p) else 0%Z)
                     (combine (res_CognitiveComplexity r) (snd (computeTSCognitiveComplexity (Root tree))))).
Proof.
  unfold AnalyzeBytes, parse. destruct (validate _ _ _ _ _ _); [done|].
  destruct (ctx_Err ctx (S t)); [done|]. destruct (registered (fi_Language in_)) eqn:Hreg; [|done]. cbn [negb].
  destruct (NewParser _); [done|]. destruct (Parse _ _) as [err|[tree|]]; [done| |done].
  destruct (HasError (Root tree)); [done|]. destruct (ctx_Err ctx (S (S t))); [done|].
  destruct (if is_typescript (fi_Language in_) then _ else _); [|done].
  destruct (languageRegistry (fi_Language in_)) as [spec|] eqn:Er; [|done].
  destruct (ls_extractImports spec (Root tree)) as [|imports]; [done|].
  pose proof (features_metrics _ _ tree Er) as [Hk Hd].
  destruct (ls_computeFeatures spec (Root tree)) as [metrics findings]. cbn [fst] in Hk, Hd.
  intros H. exists tree. split; [done|].
  assert (Hagg : ∀ recs tl, let m := applyCognitiveComplexityAggregates metrics recs tl in
    (∀ k, get k m = get k metrics) ∧ met_MaxNestingDepth m = met_MaxNestingDepth metrics
    ∧ met_MaxCognitiveComplexity m = foldr Z.max 0%Z (map fcc_Score recs)
    ∧ met_SumCognitiveComplexity m = sumz (imap (λ k r, if included tl k r then fcc_Score r else 0%Z) recs)).
  { intros recs tl m. destruct (aggregates_exact metrics recs tl) as (H1 & H2 & H3). fold m in H1, H2, H3.
    injection H3 as E1 E2 E3 E4 E5 E6 E7 E8. split_and!; [|done|done|done]. intros []; done. }
  destruct (fi_Language in_ == LanguageGo) eqn:Eg.
  - injection H as <-. cbn [res_Metrics res_CognitiveComplexity].
    destruct (Hagg (computeGoCognitiveComplexity (Root tree)) None) as (A1 & A2 & A3 & A4).
    split_and!; [intros k; by rewrite A1|by rewrite A2|done|].
    rewrite A4. f_equal. generalize (computeGoCognitiveComplexity (Root tree)) as l. clear.
    induction l as [|c l IH]; [done|]. cbn [imap map]. f_equal. exact IH.
  - assert (Ets : is_typescript (fi_Language in_) = true).
    { unfold registered in Hreg. cbn [one_of existsb] in Hreg. unfold is_typescript.
      rewrite Eg in Hreg.
      cbn [orb] in Hreg. by rewrite orb_false_r in Hreg. }
    rewrite Ets in H. unfold computeTSCognitiveComplexity in *. injection H as <-. cbn [res_Metrics res_CognitiveComplexity snd].
    set (pairs := stable_sort pair_less _).
    destruct (Hagg (map fst pairs) (Some (map snd pairs))) as (A1 & A2 & A3 & A4).
    split_and!; [intros k; by rewrite A1|by rewrite A2|done|].
    rewrite A4, sum_marked. do 2 f_equal. clearbody pairs. clear. induction pairs as [|[c b] l IH]; [done|]. cbn. by rewrite <- IH.
Qed.

(** ** Imports *)

(** What the documentation of queries says of the two queries: the captures are the nodes
    bound to the field of a node of the kind, each once. *)
Definition captured (kind f : string) (ok : Node → bool) (n : Node) : bool :=
  match Parent n with
  | Some p => (Kind p == kind) && bool_decide (is_Some (child_index n) ∧ field_index p f = child_index n) && ok n
  | None => false
  end.
Definition go_captures (root : Node) : list Node := List.filter (captured "import_spec" "path" (λ _, true)) (nodes root).
Definition ts_captures (root : Node) : list Node :=
  List.filter (captured "import_statement" "source" (λ n, Kind n == "string")) (nodes root).

Record QueryLaws : Prop := {
  go_query : NewQuery LanguageGo goImportQuerySource = None;
  ts_query lang : is_typescript lang = true → NewQuery lang tsImportQuerySource = None;
  go_matches_law root : concat (Matches LanguageGo goImportQuerySource root) ≡ₚ go_captures root;
  ts_matches_law lang root : is_typescript lang = true → concat (Matches lang tsImportQuerySource root) ≡ₚ ts_captures root
}.

Definition go_import (n : Node) : option ImportFeature :=
  (λ path, mkImportFeature path (importAlias n) (locationFromNode n)) <$> Unquote (Utf8Text n).
Definition ts_import (n : Node) : ImportFeature := mkImportFeature (tsUnquoteString (Utf8Text n)) "" (locationFromNode n).

Lemma captures_features l :
  match importFeaturesFromCaptures l with
  | inr imports => Forall2 (λ n i, go_import n = Some i) l imports
  | inl _ => ∃ n, In n l ∧ Unquote (Utf8Text n) = None
  end.
Proof.
  induction l as [|n l IH]; cbn; [constructor|]. unfold go_import. destruct (Unquote (Utf8Text n)) as [p|] eqn:Eu; [|exists n; auto].
  destruct (importFeaturesFromCaptures l) as [e|is_].
  - destruct IH as (m & Hm & Hu). exists m. auto.
  - constructor; [by rewrite Eu|done].
Qed.

Lemma matches_features ms :
  match go_matches ms with
  | inr imports => Forall2 (λ n i, go_import n = Some i) (concat ms) imports
  | inl _ => ∃ n, In n (concat ms) ∧ Unquote (Utf8Text n) = None
  end.
Proof.
  induction ms as [|l ms IH]; cbn; [constructor|]. pose proof (captures_features l) as Hl.
  destruct (importFeaturesFromCaptures l) as [e|is1].
  { destruct Hl as (n & Hn & Hu). exists n. split; [|done]. apply in_or_app. auto. }
  destruct (go_matches ms) as [e|is2].
  { destruct IH as (n & Hn & Hu). exists n. split; [|done]. apply in_or_app. auto. }
  by apply Forall2_app.
Qed.

Lemma Forall2_omap {A B} (f : A → option B) l l' : Forall2 (λ x y, f x = Some y) l l' → omap f l = l'.
Proof. induction 1 as [|x y l l' Hx Hl IH]; [done|]. by rewrite omap_step, Hx, IH. Qed.

Lemma omap_perm {A B} (f : A → option B) l l' : l ≡ₚ l' → omap f l ≡ₚ omap f l'.
Proof.
  induction 1 as [|x l l' H IH|x y l|l1 l2 l3 H1 IH1 H2 IH2]; [done| | |by etrans].
  - rewrite !omap_step. destruct (f x); [by f_equiv|done].
  - rewrite !omap_step. destruct (f x), (f y); try done. apply Permutation_swap.
Qed.

#[local] Instance import_less_strict_weak : StrictWeak import_less := by_start_strict_weak _.

(** The imports of a Go file are its import specifications, in the order of position,
    with the value of the path literal and the alias; the extraction fails exactly when
    the literal of one of them has no value.  Those of a TypeScript file are the module
    strings of its import statements without their quotes, in the order of position, and
    never fail. *)
Theorem imports_exact root : QueryLaws →
  match extractGoImports root with
  | inr imports => imports ≡ₚ omap go_import (go_captures root) ∧ StronglySorted (not_after import_less) imports
      ∧ ∀ n, In n (go_captures root) → is_Some (Unquote (Utf8Text n))
  | inl _ => ∃ n, In n (go_captures root) ∧ Unquote (Utf8Text n) = None
  end
  ∧ ∀ lang, is_typescript lang = true → ∃ imports, extractTSImportsForGrammar lang root = inr imports
      ∧ imports ≡ₚ map ts_import (ts_captures root) ∧ StronglySorted (not_after import_less) imports.
Proof.
  intros [Hgq Htq Hgm Htm]. split.
  - unfold extractGoImports. rewrite Hgq. specialize (Hgm root).
    pose proof (matches_features (Matches LanguageGo goImportQuerySource root)) as H. destruct (go_matches _) as [e|imports].
    + destruct H as (n & Hn & Hu). exists n. split; [by rewrite <- Hgm|done].
    + split_and!; [|apply stable_sort_sorted, _|].
      * rewrite stable_sort_perm, <- (Forall2_omap _ _ _ H). by apply omap_perm.
      * intros n Hn. rewrite <- Hgm in Hn. apply list_elem_of_In, list_elem_of_lookup in Hn as [i Hi].
        destruct (Forall2_lookup_l _ _ _ _ _ H Hi) as (x & _ & Hx). unfold go_import in Hx.
        destruct (Unquote (Utf8Text n)); [by eexists|done].
  - intros lang Hlang. unfold extractTSImportsForGrammar. rewrite Htq by done. eexists. split; [done|].
    split; [|apply stable_sort_sorted, _]. rewrite stable_sort_perm, <- (Htm lang root Hlang).
    rewrite flat_map_concat_map, <- concat_map. done.
Qed.
End outcomes.

(** ** Examples *)

Module AnalyzerExample.
Definition quote_text (s : string) : string := String quote_double (s +:+ String quote_double "").

(** [import f "fmt" ; import "a/b" ; func g() { if x { } }] *)
Definition spec (alias : list (string * Sketch)) (path : string) : string * Sketch :=
  ("", Br "import_declaration" [tok "import"; ("", Br "import_spec" (alias ++ [("path", Tok "interpreted_string_literal" (quote_text path))]))]).
Definition go_file : Tree :=
  layout 0 (Br "source_file"
    [spec [("name", ident "f")] "fmt"; spec [] "a/b";
     ("", Br "function_declaration"
        [tok "func"; ("name", ident "g"); ("parameters", Br "parameter_list" [tok "("; tok ")"]);
         ("body", Br "block" [tok "{"; ("", Br "if_statement" [tok "if"; ("condition", ident "x");
            ("consequence", Br "block" [tok "{"; tok "}"])]); tok "}"])])]).

(** A file with a missing token. *)
Definition broken_file : Tree :=
  mkTree (mkNodeInfo "source_file" "x" (one_line 0 1) true false false)
    [([], mkTree (mkNodeInfo ")" "" (one_line 1 1) true false true) [])].

(** An engine that knows two files and answers queries by looking at every node. *)
Definition example_engine : Engine := {|
  NewParser _ := None;
  Parse _ content := inr (if content == "go" then Some go_file else if content == "broken" then Some broken_file else None);
  NewQuery _ _ := None;
  Matches _ q root := if q == goImportQuerySource then map (λ n, [n]) (go_captures root) else map (λ n, [n]) (ts_captures root)
|}.

#[local] Existing Instances ascii_table ascii_unicode example_engine.

Lemma example_laws : QueryLaws.
Proof.
  assert (Hc : ∀ l : list Node, concat (map (λ n, [n]) l) = l) by (induction l; cbn; congruence).
  assert (Hq : tsImportQuerySource == goImportQuerySource = false) by reflexivity.
  split; [done|done| |]; intros; unfold Matches, example_engine; rewrite ?String.eqb_refl, ?Hq; by rewrite Hc.
Qed.

Definition analyzer : Analyzer := mkAnalyzer 0 ∅.
Definition input (content : string) : FileInput := mkFileInput "g.go" "go" content.

Definition shown (r : option Result) :=
  (λ r, (res_ParseStatus r, map iss_Kind (res_SyntaxErrors r), map (λ i, (imp_Path i, imp_Alias i)) (res_Imports r),
         met_Ifs (res_Metrics r), met_MaxNestingDepth (res_Metrics r), met_SumCognitiveComplexity (res_Metrics r))) <$> r.

(** A clean file, one with an issue, one the engine gives no tree for, and an empty one. *)
Lemma analyze_outcome_witness :
  plain_engine
  ∧ map (λ c, shown (fst (AnalyzeBytes analyzer Background 0 (input c)))) ["go"; "broken"; "?"; ""]
    = [Some ("ok", [], [("fmt", "f"); ("a/b", "")], 1%Z, 2%Z, 1%Z); Some ("syntax_errors", ["missing"], [], 0%Z, 0%Z, 0%Z); None; None]
  ∧ ∃ err, snd (AnalyzeBytes analyzer Background 0 (input "broken")) = Some err ∧ analyze_Is err SemErrSyntax = true.
Proof.
  assert (HE : plain_engine) by done. split; [done|]. split; [by vm_compute|].
  pose proof (analyze_outcome analyzer Background 0 (input "broken") HE) as H.
  assert (E : AnalyzeBytes analyzer Background 0 (input "broken")
    = issues_result (input "broken") [mkSyntaxIssue "missing" (one_line 1 1)]) by (by vm_compute).
  rewrite E in H |- *. eexists. split; [done|]. apply H.
Defined.

Lemma analyze_metrics_witness :
  ∃ r, AnalyzeBytes analyzer Background 0 (input "go") = (Some r, None)
  ∧ get cIfs (res_Metrics r) = node_count (language_counter "go") cIfs (Root go_file).
Proof.
  destruct (AnalyzeBytes analyzer Background 0 (input "go")) as [[r|] [e|]] eqn:E; try (vm_compute in E; done).
  exists r. split; [done|]. destruct (analyze_metrics _ _ _ _ _ E) as (tree & Ht & Hk & _).
  assert (Hp : Parse (fi_Language (input "go")) (fi_Content (input "go")) = inr (Some go_file)) by reflexivity.
  rewrite Hp in Ht. injection Ht as <-. apply Hk.
Defined.

Lemma imports_exact_witness : QueryLaws ∧ ∃ imports, extractGoImports (Root go_file) = inr imports
  ∧ StronglySorted (not_after import_less) imports.
Proof.
  split; [apply example_laws|]. destruct (imports_exact (Root go_file) example_laws) as [H _].
  destruct (extractGoImports (Root go_file)) as [e|imports] eqn:E; [vm_compute in E; done|].
  exists imports. split; [done|apply H].
Defined.
End AnalyzerExample.
