(* ===== verification/GitRepo.v ===== *)
(** * The git adapter

    [internal/codesignalcli/gitrepo]: running git, and reading what it prints: changed
    and tracked files, worktree status, objects of a revision through one
    [git cat-file --batch] process, and the unpacking of a revision's archive.  The git
    executable and the operating system are parameters. *)

From Stdlib Require Import Ascii Decimal DecimalString.
From stdpp Require Import sorting.
From S2P Require Import Prelude GoText Paths GoOrder GoErr Semantics Signals Report TreeSource.

#[local] Arguments String.append : simpl nomatch.

Definition nul : ascii := byte_of 0.

(** ** [strings.Fields], [strings.Cut], [bytes.TrimSuffix] *)

Definition flush_field (cur : string) (l : list string) : list string := if cur == "" then l else cur :: l.

(** [cur] is the field being read. *)
Fixpoint fields_from (cur s : string) : list string :=
  match s with
  | EmptyString => flush_field cur []
  | String a t =>
      if space1 a then flush_field cur (fields_from "" t)
      else match t with
      | String b u =>
          if space2 a b then flush_field cur (fields_from "" u)
          else match u with
          | String c v =>
              if space3 a b c then flush_field cur (fields_from "" v) else fields_from (cur +:+ String a "") t
          | EmptyString => fields_from (cur +:+ String a "") t
          end
      | EmptyString => fields_from (cur +:+ String a "") t
      end
  end.

Definition Fields (s : string) : list string := fields_from "" s.

(** [strings.Cut(s, c)] for a byte [c]. *)
Fixpoint CutByte (c : ascii) (s : string) : option (string * string) :=
  match s with
  | EmptyString => None
  | String d t =>
      if Ascii.eqb d c then Some ("", t)
      else match CutByte c t with Some (a, b) => Some (String d a, b) | None => None end
  end.

Definition TrimSuffixByte (c : ascii) (s : string) : string :=
  match CutLast c s with Some (a, EmptyString) => a | _ => s end.

(** ** [command.go] *)

(** What a child process leaves: [cmd.Run]'s error, and its two outputs. *)
Record ProcessResult := mkProcessResult { ps_Err : option error; ps_Stdout : string; ps_Stderr : string }.

(** [git -C dir args...], on a repository nobody writes meanwhile. *)
Class Git := git_process : string → list string → ProcessResult.

(** The error of a failed command, with what it printed.

    go: internal/codesignalcli/gitrepo/bounded_output.go#gitWaitError *)
Definition gitWaitError (waitErr : error) (stderr : string) : error :=
  if stderr == "" then waitErr else errors_New (err_Error waitErr +:+ ": " +:+ TrimSpace stderr).

(** go: internal/codesignalcli/gitrepo/command.go#RunBytes *)
Definition RunBytes {git : Git} (dir : string) (args : list string) : error + string :=
  let r := git_process dir args in
  match ps_Err r with
  | Some err => inl (gitWaitError err (ps_Stderr r))
  | None => inr (ps_Stdout r)
  end.

(** go: internal/codesignalcli/gitrepo/command.go#Run *)
Definition Run {git : Git} (dir : string) (args : list string) : error + string := RunBytes dir args.

(** go: internal/codesignalcli/gitrepo/operational_error.go#OperationalError *)
Record OperationalError := mkOperationalError { oe_Message : string; oe_reason : string }.

Definition operational (message : string) : OperationalError := mkOperationalError message "".

(** go: internal/codesignalcli/gitrepo/operational_error.go#Reason *)
Definition Reason (e : OperationalError) : string := if oe_reason e == "" then oe_Message e else oe_reason e.

(** ** [bounded_output.go], [bounded_command.go] *)

(** go: internal/codesignalcli/gitrepo/bounded_command.go:14-20#BoundErrorKind *)
Inductive BoundErrorKind := BoundTimeout | BoundStdout | BoundStderr.

(** Either an error of the system or git, or one of the adapter's own bounds. *)
Inductive BoundedFailure :=
  | OtherFailure (err : error)
  | BoundError (kind : BoundErrorKind) (message : string).

(** go: internal/codesignalcli/gitrepo/bounded_output.go#validateGitReadBounds *)
Definition validateGitReadBounds (timeout : Duration) (maxStdout maxStderr : Z) : option error :=
  if (timeout <=? 0)%Z then Some (errors_New "git execution timeout must be positive")
  else if (maxStdout <? 0)%Z || (maxStderr <? 0)%Z
  then Some (errors_New "git output bounds must be non-negative")
  else None.

(** The first [limit] bytes: [io.ReadAll(io.LimitReader(r, limit))], whose error comes
    from the pipe.

    go: internal/codesignalcli/gitrepo/bounded_output.go#readGitPipe *)
Definition readGitPipe (pipe : option error * string) (limit : Z) : option error * string :=
  (pipe.1, String.substring 0 (Z.to_nat limit) pipe.2).

(** go: internal/codesignalcli/gitrepo/bounded_output.go#finishGitBoundedRead *)
Definition finishGitBoundedRead (stdout stderr : option error * string) (waitErr : option error) (expired : bool)
    (maxStdout maxStderr : Z) (timeout : Duration) : BoundedFailure + string :=
  match stdout.1, stderr.1 with
  | Some err, _ => inl (OtherFailure err)
  | None, Some err => inl (OtherFailure err)
  | None, None =>
      if (maxStdout <? Z.of_nat (String.length stdout.2))%Z then
        inl (BoundError BoundStdout ("git stdout exceeded " +:+ Itoa maxStdout +:+ "-byte budget"))
      else if (maxStderr <? Z.of_nat (String.length stderr.2))%Z then
        inl (BoundError BoundStderr ("git stderr exceeded " +:+ Itoa maxStderr +:+ "-byte budget"))
      else if expired then
        inl (BoundError BoundTimeout ("git execution timed out after " +:+ Duration_String timeout))
      else match waitErr with
      | Some err => inl (OtherFailure (gitWaitError err stderr.2))
      | None => inr stdout.2
      end
  end.

(** A child run under a deadline: an error of starting it, or its two pipes, the error
    of [Wait], and whether the deadline had passed by then. *)
Record BoundedChild := mkBoundedChild {
  bc_Start : option error; bc_Stdout : option error * string; bc_Stderr : option error * string;
  bc_Wait : option error; bc_Expired : bool
}.

Class BoundedGit := bounded_git : Duration → string → list string → BoundedChild.

(** go: internal/codesignalcli/gitrepo/bounded_command.go#RunBytesBoundedWith *)
Definition RunBytesBounded {git : BoundedGit} (dir : string) (maxStdout maxStderr : Z) (timeout : Duration)
    (args : list string) : BoundedFailure + string :=
  match validateGitReadBounds timeout maxStdout maxStderr with
  | Some err => inl (OtherFailure err)
  | None =>
      let child := bounded_git timeout dir args in
      match bc_Start child with
      | Some err => inl (OtherFailure err)
      | None =>
          finishGitBoundedRead (readGitPipe (bc_Stdout child) (int64_wrap (maxStdout + 1)))
            (readGitPipe (bc_Stderr child) (int64_wrap (maxStderr + 1))) (bc_Wait child) (bc_Expired child)
            maxStdout maxStderr timeout
      end
  end.

(** go: internal/codesignalcli/gitrepo/bounded_command.go#Error *)
Definition bounded_message (f : BoundedFailure) : string :=
  match f with OtherFailure err => err_Error err | BoundError _ message => message end.

(** ** [tracked_files.go] *)

(** go: internal/codesignalcli/gitrepo/tracked_files.go#SplitNULPaths *)
Definition SplitNULPaths (data : string) : list string :=
  match SplitByte nul (TrimSuffixByte nul data) with
  | [EmptyString] => []
  | fields => fields
  end.

(** go: internal/codesignalcli/gitrepo/tracked_files.go#coverageLanguageLabel *)
Definition coverageLanguageLabel (ext : string) : string := if ext == "" then "(no extension)" else ext.

(** go: internal/codesignalcli/gitrepo/changed_files.go#SelectedFile *)
Record SelectedFile := mkSelectedFile {
  sf_Path : string; sf_Status : string; sf_Language : string; sf_SourceScope : string
}.

(** [m[k]++]. *)
Definition incr {K} `{Countable K} (k : K) (m : gmap K Z) : gmap K Z := <[k := (default 0 (m !! k) + 1)%Z]> m.

(** One turn of the loop over the listed paths: the selected files and the counts of
    the unsupported ones. *)
Definition track (s : list SelectedFile * gmap string Z) (path : string) : list SelectedFile * gmap string Z :=
  match LanguageForExtension (Ext path) with
  | None => (s.1, incr (coverageLanguageLabel (Ext path)) s.2)
  | Some lang => (s.1 ++ [mkSelectedFile path "" lang ""], s.2)
  end.

(** go: internal/codesignalcli/gitrepo/tracked_files.go#DiscoverTrackedFiles *)
Definition DiscoverTrackedFiles {git : Git} (dir revisionSHA : string) :
    OperationalError + list SelectedFile * Coverage :=
  match RunBytes dir ["ls-tree"; "-r"; "-z"; "--name-only"; revisionSHA] with
  | inl err => inl (operational ("coach codesignal: git ls-tree failed: " +:+ err_Error err))
  | inr output =>
      let paths := SplitNULPaths output in
      let '(files, unsupportedCounts) := fold_left track paths ([], ∅) in
      let extensions := sort_strings (map fst (map_to_list unsupportedCounts)) in
      let unsupported := map (λ ext, mkCoverageGroup "unsupported_language" ext
                                       (default 0%Z (unsupportedCounts !! ext))) extensions in
      inr (files, mkCoverage (zlen paths) 0 0 unsupported [])
  end.

(** ** [name_status.go] *)

(** go: internal/codesignalcli/gitrepo/name_status.go#nameStatusRecord *)
Record nameStatusRecord := mkRecord { nsr_status : string; nsr_paths : list string }.

Definition two_paths (status : string) : bool := HasPrefix "R" status || HasPrefix "C" status.

Section Quoted.
Context {table : IsPrint}.

(** The loop over the fields; a record takes one or two paths. *)
Fixpoint parse_records (fields : list string) : error + list nameStatusRecord :=
  match fields with
  | [] => inr []
  | status :: rest =>
      if status == "" then inl (errors_New "malformed diff status stream: empty status field") else
      let truncated := errors_New ("malformed diff status stream: truncated record for status " +:+ quoted status) in
      if two_paths status then
        match rest with
        | old :: new :: rest =>
            match parse_records rest with inl e => inl e | inr rs => inr (mkRecord status [old; new] :: rs) end
        | _ => inl truncated
        end
      else
        match rest with
        | path :: rest =>
            match parse_records rest with inl e => inl e | inr rs => inr (mkRecord status [path] :: rs) end
        | [] => inl truncated
        end
  end.

(** go: internal/codesignalcli/gitrepo/name_status.go#parseNameStatusZ *)
Definition parseNameStatusZ (data : string) : error + list nameStatusRecord :=
  match SplitByte nul (TrimSuffixByte nul data) with
  | [EmptyString] => inr []
  | fields => parse_records fields
  end.

(** ** [changed_files.go] *)

(** go: internal/codesignalcli/gitrepo/changed_files.go#statusToChangeStatus *)
Definition statusToChangeStatus (status : string) : string :=
  if status == "A" then "added" else if status == "M" then "modified" else if status == "D" then "removed" else "".

(** go: internal/codesignalcli/gitrepo/changed_files.go#selectSupportedPath *)
Definition selectSupportedPath (path status : string) : Diagnostic + SelectedFile :=
  match LanguageForExtension (Ext path) with
  | None => inl (file_diagnostic path "unsupported_language"
                   ("file extension " +:+ quoted (Ext path) +:+ " is not a supported language"))
  | Some lang => inr (mkSelectedFile path status lang "")
  end.

Definition last_path (r : nameStatusRecord) : string := List.last (nsr_paths r) "".
Definition first_path (r : nameStatusRecord) : string := List.hd "" (nsr_paths r).

Definition undetermined_diagnostic (headSHA path : string) : Diagnostic :=
  mkDiagnostic path "continuity_not_determined"
    ("rename/copy lifecycle continuity was not determined at head revision " +:+ headSHA) None "head" headSHA.

Definition unsupported_change (r : nameStatusRecord) : Diagnostic :=
  file_diagnostic (first_path r) "unsupported_change_type"
    ("change status " +:+ quoted (nsr_status r) +:+ " is not supported").

Definition plain_status (status : string) : bool := (status == "A") || (status == "M") || (status == "D").

(** What the loop has collected. *)
Record selection := mkSelection {
  sel_Files : list SelectedFile; sel_Diagnostics : list Diagnostic; sel_Continuity : list PathContinuity
}.

(** go: internal/codesignalcli/gitrepo/changed_files.go:50-82#SelectChangedFiles *)
Definition select_record (headSHA : string) (s : selection) (r : nameStatusRecord) : selection :=
  let '(mkSelection files diagnostics continuity) := s in
  if two_paths (nsr_status r) then
    let path := last_path r in
    let continuity := continuity ++ [mkPathContinuity path (first_path r)] in
    match selectSupportedPath path "" with
    | inl diag => mkSelection files (diagnostics ++ [diag]) continuity
    | inr sf => mkSelection (files ++ [sf]) (diagnostics ++ [undetermined_diagnostic headSHA path]) continuity
    end
  else if plain_status (nsr_status r) then
    match selectSupportedPath (first_path r) (statusToChangeStatus (nsr_status r)) with
    | inl diag => mkSelection files (diagnostics ++ [diag]) continuity
    | inr sf => mkSelection (files ++ [sf]) diagnostics continuity
    end
  else mkSelection files (diagnostics ++ [unsupported_change r]) continuity.

(** go: internal/codesignalcli/gitrepo/changed_files.go#SelectChangedFiles *)
Definition SelectChangedFiles {git : Git} (dir mergeBaseSHA headSHA : string) : OperationalError + selection :=
  match RunBytes dir ["diff"; "--name-status"; "-z"; "--find-renames"; "--find-copies-harder"; mergeBaseSHA; "HEAD"] with
  | inl err => inl (operational ("coach codesignal: git diff failed: " +:+ err_Error err))
  | inr output =>
      match parseNameStatusZ output with
      | inl err => inl (operational ("coach codesignal: " +:+ err_Error err))
      | inr records => inr (fold_left (select_record headSHA) records (mkSelection [] [] []))
      end
  end.

(** ** [revisions.go], [repository_root.go] *)

(** [exec.LookPath("git")] finds one. *)
Context (git_in_path : bool).

(** go: internal/codesignalcli/gitrepo/revisions.go#resolveHEAD *)
Definition resolveHEAD {git : Git} (dir : string) : OperationalError + string :=
  if negb git_in_path then inl (operational "coach codesignal: git executable not found in PATH") else
  let outside := inl (mkOperationalError ("coach codesignal: " +:+ dir +:+ " is not inside a Git worktree")
                        "not inside a Git worktree") in
  match Run dir ["rev-parse"; "--is-inside-work-tree"] with
  | inl _ => outside
  | inr worktreeOutput =>
      if TrimSpace worktreeOutput != "true" then outside else
      match Run dir ["rev-parse"; "HEAD"] with
      | inl _ => inl (operational "coach codesignal: HEAD is not readable (does the repository have any commits?)")
      | inr headOutput => inr (TrimSpace headOutput)
      end
  end.

(** go: internal/codesignalcli/gitrepo/revisions.go#ResolveRevisions *)
Definition ResolveRevisions {git : Git} (dir base : string) : OperationalError + string * string :=
  match resolveHEAD dir with
  | inl err => inl err
  | inr headSHA =>
      match Run dir ["rev-parse"; "--verify"; base +:+ "^{commit}"] with
      | inl _ => inl (operational ("coach codesignal: --base " +:+ quoted base +:+ " cannot be resolved to a commit"))
      | inr _ =>
          match Run dir ["merge-base"; base; "HEAD"] with
          | inl _ => inl (operational ("coach codesignal: no merge base between " +:+ quoted base +:+ " and HEAD"))
          | inr mergeBaseOutput => inr (headSHA, TrimSpace mergeBaseOutput)
          end
      end
  end.

(** go: internal/codesignalcli/gitrepo/revisions.go#ResolveBaselineRevision *)
Definition ResolveBaselineRevision {git : Git} (dir : string) : OperationalError + string := resolveHEAD dir.

(** [filepath.EvalSymlinks]. *)
Context (EvalSymlinks : string → error + string).

(** go: internal/codesignalcli/gitrepo/repository_root.go#RepositoryRoot *)
Definition RepositoryRoot {git : Git} (dir : string) : error + string :=
  match Run dir ["rev-parse"; "--show-toplevel"] with
  | inl err => inl (Errorf "determining repository root: " err)
  | inr output =>
      match EvalSymlinks (TrimSpace output) with
      | inl err => inl (Errorf "resolving repository root: " err)
      | inr resolved => inr resolved
      end
  end.

(** ** [revision_files.go] *)

(** go: internal/codesignalcli/gitrepo/revision_files.go#lsTreeBlobSHA *)
Definition lsTreeBlobSHA (output : string) : option string :=
  let trimmed := TrimSpace output in
  if (trimmed == "") || Contains (String (byte_of 10) "") trimmed then None else
  match CutByte (byte_of 9) trimmed with
  | None => None
  | Some (meta, _) =>
      match Fields meta with
      | [_; kind; sha] => if kind != "blob" then None else Some sha
      | _ => None
      end
  end.

(** [run] is the caller's git runner; its error is printed.

    go: internal/codesignalcli/gitrepo/revision_files.go#FileExistsAtRevision *)
Definition FileExistsAtRevision (run : string → list string → error + string) (dir revision repoPath : string) :
    OperationalError + bool :=
  let failed subject verb err :=
    inl (operational ("coach codesignal --check-project: " +:+ subject +:+ verb +:+ ": " +:+ err_Error err)) in
  match run dir ["cat-file"; "-e"; revision +:+ "^{commit}"] with
  | inl err => failed ("revision " +:+ quoted revision) " could not be verified" err
  | inr _ =>
      match run dir ["ls-tree"; "--full-tree"; revision; "--"; repoPath] with
      | inl err => failed (quoted repoPath) (" could not be resolved at revision " +:+ quoted revision) err
      | inr output =>
          match lsTreeBlobSHA output with
          | None => inr false
          | Some blobSHA =>
              match run dir ["cat-file"; "-e"; blobSHA] with
              | inl err => failed (quoted repoPath) (" could not be read at revision " +:+ quoted revision) err
              | inr _ => inr true
              end
          end
      end
  end.

(** ** [catfile_reader.go] *)

(** The batch process: what it answers to a request, or the error of writing to it. *)
Class BatchProcess := batch_answer : string → error + string.

(** A reader: the revision it reads, and the output of the process not yet read.

    go: internal/codesignalcli/gitrepo/catfile_reader.go#RevisionFileReader *)
Record RevisionFileReader := mkReader { rr_revisionSHA : string; rr_stdout : string }.

(** The request for a path, up to its NUL.

    A size beyond what a slice can hold, which git does not print, would end the process. *)
Definition batch_request (r : RevisionFileReader) (path : string) : string := rr_revisionSHA r +:+ ":" +:+ path.

Definition drop_string (n : nat) (s : string) : string := String.substring n (String.length s - n) s.

(** go: internal/codesignalcli/gitrepo/catfile_reader.go#Next *)
Definition Next {batch : BatchProcess} (r : RevisionFileReader) (path : string) :
    (error + string) * RevisionFileReader :=
  match batch_answer (batch_request r path) with
  | inl err => (inl (Errorf ("writing cat-file request for " +:+ quoted path +:+ ": ") err), r)
  | inr answer =>
      let stream := rr_stdout r +:+ answer in
      let left_with s := mkReader (rr_revisionSHA r) s in
      match CutByte nul stream with
      | None => (inl (errors_New ("reading cat-file response header for " +:+ quoted path +:+ ": EOF")), left_with "")
      | Some (header, rest) =>
          let malformed what := errors_New ("malformed cat-file " +:+ what +:+ " for " +:+ quoted path +:+ ": " +:+ quoted header) in
          match Fields header with
          | [_; second] =>
              if second == "missing"
              then (inl (errors_New (quoted path +:+ " is missing at " +:+ rr_revisionSHA r)), left_with rest)
              else (inl (malformed "header"), left_with rest)
          | [_; _; third] =>
              match Atoi third with
              | None => (inl (malformed "size"), left_with rest)
              | Some size =>
                  if (size <? 0)%Z then (inl (malformed "size"), left_with rest) else
                  let n := Z.to_nat size in
                  if String.length rest <? n then
                    (inl (errors_New ("reading cat-file content for " +:+ quoted path +:+ ": " +:+ (if rest == "" then "EOF" else "unexpected EOF"))), left_with "")
                  else match drop_string n rest with
                  | EmptyString => (inl (errors_New ("reading cat-file trailing NUL for " +:+ quoted path +:+ ": EOF")), left_with "")
                  | String _ rest' => (inr (String.substring 0 n rest), left_with rest')
                  end
              end
          | _ => (inl (malformed "header"), left_with rest)
          end
      end
  end.

End Quoted.

(** ** [worktree_status.go], [worktree_status_codes.go] *)

(** go: internal/codesignalcli/gitrepo/worktree_status.go#WorktreeEntry *)
Record WorktreeEntry := mkEntry { we_Code : string; we_Path : string }.

(** [strings.ContainsAny(code, "RC")]. *)
Definition renamed_code (code : string) : bool := Contains "R" code || Contains "C" code.

(** The loop over the fields, one or two at a time. *)
Fixpoint status_entries (fields : list string) : list WorktreeEntry :=
  match fields with
  | [] => []
  | raw :: rest =>
      if String.length raw <? 3 then status_entries rest else
      let code := String.substring 0 2 raw in
      mkEntry code (drop_string 3 raw)
      :: (if renamed_code code then match rest with _ :: rest => status_entries rest | [] => [] end
          else status_entries rest)
  end.

(** go: internal/codesignalcli/gitrepo/worktree_status.go#ParseWorktreeStatus *)
Definition ParseWorktreeStatus (output : string) : list WorktreeEntry := status_entries (SplitNULPaths output).

Definition maxWorktreeStatusBytes : Z := 16 * 2 ^ 20.
Definition maxWorktreeStatusStderr : Z := 64 * 2 ^ 10.
Definition worktreeStatusTimeout : Duration := (30 * Second)%Z.

(** go: internal/codesignalcli/gitrepo/worktree_status.go#WorktreeStatus *)
Definition WorktreeStatus {git : BoundedGit} (dir : string) : BoundedFailure + list WorktreeEntry :=
  match RunBytesBounded dir maxWorktreeStatusBytes maxWorktreeStatusStderr worktreeStatusTimeout
          ["status"; "--porcelain=v1"; "--untracked-files=all"; "-z"] with
  | inl err => inl err
  | inr output => inr (ParseWorktreeStatus output)
  end.

(** go: internal/codesignalcli/gitrepo/worktree_status_codes.go#worktreeIntentToAdd *)
Definition worktreeIntentToAdd (code : string) : bool :=
  match code with String a (String b _) => Ascii.eqb a " " && Ascii.eqb b "A" | _ => false end.

(** go: internal/codesignalcli/gitrepo/worktree_status_codes.go#worktreeStatusUnmerged *)
Definition worktreeStatusUnmerged (code : string) : bool :=
  existsb (λ c, code == c) ["DD"; "AU"; "UD"; "UA"; "DU"; "AA"; "UU"].

(** go: internal/codesignalcli/gitrepo/worktree_status_codes.go#worktreeIndexStaged *)
Definition worktreeIndexStaged (column : ascii) : bool :=
  existsb (Ascii.eqb column) ["A"; "M"; "D"; "R"; "C"; "T"]%char.

(** go: internal/codesignalcli/gitrepo/worktree_status_codes.go#worktreeColumnModified *)
Definition worktreeColumnModified (column : ascii) : bool := existsb (Ascii.eqb column) ["M"; "D"; "T"]%char.

(** Untracked, staged, modified, unmerged.

    go: internal/codesignalcli/gitrepo/worktree_status_codes.go#ClassifyWorktreeStatus *)
Definition ClassifyWorktreeStatus (code : string) : bool * bool * bool * bool :=
  match code with
  | String a (String b _) =>
      if code == "!!" then (false, false, false, false)
      else if (code == "??") || worktreeIntentToAdd code then (true, false, false, false)
      else if worktreeStatusUnmerged code then (false, false, false, true)
      else
        let staged := worktreeIndexStaged a in
        let modified := worktreeColumnModified b in
        (false, staged, if negb staged && negb modified then true else modified, false)
  | _ => (false, false, false, false)
  end.

(** ** [archive_entries.go], [archive_snapshot.go] *)

Inductive TarType := TypeXGlobalHeader | TypeXHeader | TypeDir | TypeReg | TypeSymlink | TypeOther.

(** A header of the archive with its content. *)
Record TarEntry := mkTarEntry {
  te_Name : string; te_Typeflag : TarType; te_Linkname : string; te_Mode : Z; te_Content : string
}.

(** What unpacking asks of the operating system. *)
Inductive FsOp :=
  | OpMkdirAll (path : string) (mode : Z)
  | OpWriteFile (path : string) (mode : Z) (content : string)
  | OpSymlink (target path : string).

(** The place an operation is about. *)
Definition op_path (o : FsOp) : string :=
  match o with OpMkdirAll p _ => p | OpWriteFile p _ _ => p | OpSymlink _ p => p end.

Section Archive.
Context {table : IsPrint}.

(** Whether an operation succeeds after the ones already performed. *)
Context (perform : list FsOp → FsOp → option error).

(** The operations performed so far, and the error that ended the work. *)
Definition Unpacked : Type := list FsOp * option error.

(** Operations in order, up to the first that fails. *)
Fixpoint run_ops (done_ops : list FsOp) (ops : list FsOp) : Unpacked :=
  match ops with
  | [] => (done_ops, None)
  | o :: ops =>
      match perform done_ops o with
      | Some err => (done_ops ++ [o], Some err)
      | None => run_ops (done_ops ++ [o]) ops
      end
  end.

Definition dirMode : Z := 493. (* 0o755 *)

(** Opening, copying and closing are one operation.

    go: internal/codesignalcli/gitrepo/archive_entries.go#extractTarRegularFile *)
Definition extractTarRegularFile (path : string) (header : TarEntry) : list FsOp :=
  [OpMkdirAll (Dir path) dirMode; OpWriteFile path (te_Mode header) (te_Content header)].

(** go: internal/codesignalcli/gitrepo/archive_entries.go#extractTarSymlink *)
Definition extractTarSymlink (path : string) (header : TarEntry) : list FsOp :=
  [OpMkdirAll (Dir path) dirMode; OpSymlink (te_Linkname header) path].

(** go: internal/codesignalcli/gitrepo/archive_entries.go#safeTarEntryPath *)
Definition safeTarEntryPath (dir name : string) : error + string :=
  let path := Join2 dir name in
  if outside (RelPath dir path) then inl (errors_New ("unsafe archive path " +:+ quoted name))
  else inr path.

(** go: internal/codesignalcli/gitrepo/archive_entries.go#extractTarEntry *)
Definition extractTarEntry (dir : string) (header : TarEntry) (done_ops : list FsOp) : Unpacked :=
  match safeTarEntryPath dir (te_Name header) with
  | inl err => (done_ops, Some err)
  | inr path =>
      match te_Typeflag header with
      | TypeXGlobalHeader | TypeXHeader => (done_ops, None)
      | TypeDir => run_ops done_ops [OpMkdirAll path (te_Mode header)]
      | TypeReg => run_ops done_ops (extractTarRegularFile path header)
      | TypeSymlink => run_ops done_ops (extractTarSymlink path header)
      | TypeOther => (done_ops, Some (errors_New ("unsupported archive entry " +:+ quoted (te_Name header))))
      end
  end.

(** The archive as its reader hands it over: entries, and the error it ends with instead
    of the end of the archive.

    go: internal/codesignalcli/gitrepo/archive_snapshot.go#extractTar *)
Fixpoint extractTar (dir : string) (entries : list TarEntry) (broken : option error) (done_ops : list FsOp) :
    Unpacked :=
  match entries with
  | [] => (done_ops, broken)
  | header :: entries =>
      match extractTarEntry dir header done_ops with
      | (done_ops, Some err) => (done_ops, Some err)
      | (done_ops, None) => extractTar dir entries broken done_ops
      end
  end.

(** [archive/tar] over the bytes of an archive, and [os.MkdirTemp]. *)
Context (tar_entries : string → list TarEntry * option error) (MkdirTemp : error + string).

(** The directory, and the operations performed; a failed unpacking removes the directory.

    go: internal/codesignalcli/gitrepo/archive_snapshot.go#ExtractRevision *)
Definition ExtractRevision {git : Git} (repositoryRoot revision : string) : (error + string) * list FsOp :=
  match RunBytes repositoryRoot ["archive"; "--format=tar"; revision] with
  | inl err => (inl (Errorf ("reading source snapshot " +:+ quoted revision +:+ ": ") err), [])
  | inr archive =>
      match MkdirTemp with
      | inl err => (inl (Errorf "creating source snapshot: " err), [])
      | inr dir =>
          let '(entries, broken) := tar_entries archive in
          match extractTar dir entries broken [] with
          | (ops, Some err) => (inl (Errorf "extracting source snapshot: " err), ops)
          | (ops, None) => (inr dir, ops)
          end
      end
  end.

End Archive.

(** ** Fields *)

(** Every field followed by a NUL, as git prints with [-z]. *)
Definition nul_terminated (fields : list string) : string := foldr (λ f s, f +:+ String nul s) "" fields.

Definition no_nul (s : string) : Prop := CutLast nul s = None.

Lemma nul_terminated_split fields : fields ≠ [] → Forall no_nul fields →
  ∃ s, nul_terminated fields = s +:+ String nul "" ∧ SplitByte nul s = fields.
Proof.
  intros Hne H. induction H as [|f fields Hf H IH]; [done|]. cbn [nul_terminated foldr].
  destruct fields as [|g fields]; [exists f; split; [done|by apply SplitByte_last]|].
  destruct IH as (s & E & Es); [done|]. exists (f +:+ String nul s). fold (nul_terminated (g :: fields)). rewrite E.
  split; [by rewrite append_assoc_str|]. rewrite SplitByte_app by done. by rewrite Es.
Qed.

Lemma TrimSuffix_nul s : TrimSuffixByte nul (s +:+ String nul "") = s.
Proof. unfold TrimSuffixByte. by rewrite CutLast_app. Qed.

Lemma split_nul fields : fields ≠ [] → Forall no_nul fields →
  SplitByte nul (TrimSuffixByte nul (nul_terminated fields)) = fields.
Proof. intros Hne H. destruct (nul_terminated_split fields Hne H) as (s & -> & <-). by rewrite TrimSuffix_nul. Qed.

(** Non-empty paths without a NUL, whatever else they contain, are read back. *)
Lemma SplitNULPaths_nul paths : Forall (λ p, no_nul p ∧ p ≠ "") paths → SplitNULPaths (nul_terminated paths) = paths.
Proof.
  intros H. destruct paths as [|p paths]; [done|]. unfold SplitNULPaths.
  rewrite split_nul; [|done|eapply list.Forall_impl; [exact H|by intros ? []]].
  apply list.Forall_cons in H as [[_ Hp] _]. destruct paths; [by destruct p|by destruct p].
Qed.

(** ** Changed files *)

Lemma omap_head {A B} (f : A → option B) x l : omap f (x :: l) = option_list (f x) ++ omap f l.
Proof. cbn. by destruct (f x). Qed.

Section Changed.
Context {table : IsPrint}.

(** A record as git prints one. *)
Definition record_ok (r : nameStatusRecord) : Prop :=
  nsr_status r ≠ "" ∧ no_nul (nsr_status r) ∧ Forall no_nul (nsr_paths r)
  ∧ length (nsr_paths r) = if two_paths (nsr_status r) then 2 else 1.

Definition record_fields (r : nameStatusRecord) : list string := nsr_status r :: nsr_paths r.

Lemma parse_records_fields records : Forall record_ok records →
  parse_records (List.concat (map record_fields records)) = inr records.
Proof.
  induction 1 as [|[status paths] records (Hs & _ & _ & Hl) _ IH]; [done|]. cbn in Hs, Hl |- *.
  apply String.eqb_neq in Hs. rewrite Hs. destruct (two_paths status).
  - destruct paths as [|old [|new [|]]]; try done. cbn. by rewrite IH.
  - destruct paths as [|path [|]]; try done. cbn. by rewrite IH.
Qed.

Lemma name_status_roundtrip records : Forall record_ok records →
  parseNameStatusZ (nul_terminated (List.concat (map record_fields records))) = inr records.
Proof.
  intros H. destruct records as [|r records]; [done|]. unfold parseNameStatusZ.
  rewrite split_nul; [|by destruct r|].
  - rewrite <- (parse_records_fields (r :: records)) by done. destruct H as [|[status paths] ? (Hs & _) ]; [done|].
    cbn in Hs |- *. by destruct paths, status.
  - apply List.Forall_concat, List.Forall_map. eapply list.Forall_impl; [exact H|]. intros x (_ & H1 & H2 & _).
    by constructor.
Qed.

(** What one record contributes. *)
Definition record_file (r : nameStatusRecord) : option SelectedFile :=
  let supported path status := option_map (λ lang, mkSelectedFile path status lang "") (LanguageForExtension (Ext path)) in
  if two_paths (nsr_status r) then supported (last_path r) ""
  else if plain_status (nsr_status r) then supported (first_path r) (statusToChangeStatus (nsr_status r)) else None.

Definition record_continuity (r : nameStatusRecord) : option PathContinuity :=
  if two_paths (nsr_status r) then Some (mkPathContinuity (last_path r) (first_path r)) else None.

(** The kind and path of the diagnostic it gets, if it gets one. *)
Definition record_diagnostic (r : nameStatusRecord) : option (string * string) :=
  if two_paths (nsr_status r) then
    Some (if decide (is_Some (record_file r)) then "continuity_not_determined" else "unsupported_language", last_path r)
  else if plain_status (nsr_status r) then
    if decide (is_Some (record_file r)) then None else Some ("unsupported_language", first_path r)
  else Some ("unsupported_change_type", first_path r).

Lemma select_record_exact headSHA s r : select_record headSHA s r =
  mkSelection (sel_Files s ++ option_list (record_file r))
    (sel_Diagnostics s ++ sel_Diagnostics (select_record headSHA (mkSelection [] [] []) r))
    (sel_Continuity s ++ option_list (record_continuity r))
  ∧ map (λ d, (dg_Kind d, dg_Path d)) (sel_Diagnostics (select_record headSHA (mkSelection [] [] []) r))
    = option_list (record_diagnostic r).
Proof.
  destruct s as [files ds cont]. unfold select_record, record_diagnostic, record_file, record_continuity, selectSupportedPath.
  destruct (two_paths (nsr_status r)).
  - destruct (LanguageForExtension _); cbn; rewrite ?app_nil_r; done.
  - destruct (plain_status (nsr_status r)); [|cbn; by rewrite !app_nil_r].
    destruct (LanguageForExtension _); cbn; rewrite ?app_nil_r; done.
Qed.

Lemma select_all headSHA records s : let t := fold_left (select_record headSHA) records s in
  sel_Files t = sel_Files s ++ omap record_file records
  ∧ sel_Continuity t = sel_Continuity s ++ omap record_continuity records
  ∧ map (λ d, (dg_Kind d, dg_Path d)) (sel_Diagnostics t)
    = map (λ d, (dg_Kind d, dg_Path d)) (sel_Diagnostics s) ++ omap record_diagnostic records.
Proof.
  revert s. induction records as [|r records IH]; intros s; [by rewrite !app_nil_r|]. cbn [fold_left].
  specialize (IH (select_record headSHA s r)). destruct (select_record_exact headSHA s r) as [E Ed]. rewrite E in IH |- *.
  cbn [sel_Files sel_Continuity sel_Diagnostics] in IH. destruct IH as (-> & -> & ->).
  by rewrite map_app, Ed, !omap_head, !app_assoc.
Qed.

(** Selecting changed files accounts for every record of the diff.  When git prints
    records of a status and its one or two paths, which may contain anything but a NUL,
    the selected files, the pairs without continuity and the diagnostics are those of the
    records, each in the order of the diff: an added, modified or removed file and the new
    path of a rename or copy is selected when its language is supported; an unsupported
    one, a status of another kind, and every selected rename or copy has its diagnostic. *)
Theorem changed_files_exact {git : Git} dir base headSHA records stderr : Forall record_ok records →
  git_process dir ["diff"; "--name-status"; "-z"; "--find-renames"; "--find-copies-harder"; base; "HEAD"]
  = mkProcessResult None (nul_terminated (List.concat (map record_fields records))) stderr →
  ∃ s, SelectChangedFiles dir base headSHA = inr s
    ∧ sel_Files s = omap record_file records ∧ sel_Continuity s = omap record_continuity records
    ∧ map (λ d, (dg_Kind d, dg_Path d)) (sel_Diagnostics s) = omap record_diagnostic records.
Proof.
  intros H E. unfold SelectChangedFiles, RunBytes. rewrite E. cbn [ps_Err ps_Stdout].
  rewrite name_status_roundtrip by done. eexists; split; [done|]. apply (select_all headSHA records (mkSelection [] [] [])).
Qed.

End Changed.

(** ** Tracked files *)

Section Tracked.

Definition path_language (p : string) : option string := LanguageForExtension (Ext p).

Definition tracked_file (p : string) : option SelectedFile :=
  option_map (λ lang, mkSelectedFile p "" lang "") (path_language p).

Definition unsupported_label (p : string) : option string :=
  match path_language p with Some _ => None | None => Some (coverageLanguageLabel (Ext p)) end.

(** Counting: how often a key occurs. *)
Definition occurrences {K} `{EqDecision K} (x : K) (l : list K) : Z := zlen (List.filter (λ y, bool_decide (y = x)) l).

Definition count_keys {K} `{Countable K} (keys : list K) (m : gmap K Z) : gmap K Z := fold_left (λ m k, incr k m) keys m.

Lemma count_keys_spec {K} `{Countable K} (keys : list K) : ∀ m x,
  default 0%Z (count_keys keys m !! x) = (default 0 (m !! x) + occurrences x keys)%Z
  ∧ (is_Some (count_keys keys m !! x) ↔ is_Some (m !! x) ∨ x ∈ keys).
Proof.
  induction keys as [|k keys IH]; intros m x.
  { cbn. split; [unfold occurrences, zlen; cbn; lia|set_solver]. }
  destruct (IH (incr k m) x) as [H1 H2]. change (count_keys (k :: keys) m) with (count_keys keys (incr k m)).
  unfold occurrences in *. cbn [List.filter]. unfold incr in H1, H2 |- *. rewrite lookup_insert in H1, H2.
  destruct (decide (k = x)) as [->|Hk].
  - rewrite bool_decide_eq_true_2 by done. unfold zlen in *. cbn [length default] in *.
    split; [unfold incr; rewrite H1; cbn; lia|]. unfold incr. rewrite H2. set_solver.
  - rewrite bool_decide_eq_false_2 by done. split; [exact H1|]. rewrite H2. set_solver.
Qed.

Lemma count_keys_empty {K} `{Countable K} (keys : list K) x :
  default 0%Z (count_keys keys ∅ !! x) = occurrences x keys ∧ (is_Some (count_keys keys ∅ !! x) ↔ x ∈ keys).
Proof.
  destruct (count_keys_spec keys ∅ x) as [E1 E2]. rewrite lookup_empty in E1, E2. split; [exact E1|].
  rewrite E2. split; [by intros [[]|]|by right].
Qed.

(** The keys of the counts, sorted by a strict order. *)
Lemma sorted_keys {K} `{Countable K} (less : K → K → bool) `{!StrictWeak less} (keys : list K) :
  let sorted := stable_sort less (map fst (map_to_list (count_keys keys ∅))) in
  StronglySorted (not_after less) sorted ∧ NoDup sorted ∧ ∀ x, x ∈ sorted ↔ x ∈ keys.
Proof.
  cbn. split; [apply stable_sort_sorted, _|]. rewrite stable_sort_perm. split; [apply NoDup_fst_map_to_list|].
  intros x. rewrite stable_sort_perm. change (map fst ?l) with (fst <$> l). rewrite list_elem_of_fmap.
  rewrite <- (proj2 (count_keys_empty keys x)). split.
  - intros ([y n] & -> & Hy%elem_of_map_to_list). by exists n.
  - intros [n Hn]. exists (x, n). by rewrite elem_of_map_to_list.
Qed.

Lemma track_all paths files m :
  fold_left track paths (files, m) = (files ++ omap tracked_file paths, count_keys (omap unsupported_label paths) m).
Proof.
  revert files m. induction paths as [|p paths IH]; intros files m; [by rewrite app_nil_r|].
  cbn [fold_left]. rewrite !omap_head. unfold track at 2, tracked_file at 1, unsupported_label at 1.
  fold (path_language p). destruct (path_language p) as [lang|]; cbn [fst snd]; rewrite IH; [|done].
  by rewrite <- app_assoc.
Qed.

Definition strictly_sorted (l : list string) : Prop := StronglySorted (not_after str_less) l ∧ NoDup l.

(** Listing a revision's files loses none.  When git prints the revision's paths,
    which may contain anything but a NUL, the files are the ones of a supported language
    in git's order, the count of discovered files is the count of paths, and the groups of
    unsupported files are one per extension that occurs, in strict order, each with the
    number of its files; so files and groups together account for every path. *)
Theorem tracked_files_exact {git : Git} dir revision paths stderr : Forall (λ p, no_nul p ∧ p ≠ "") paths →
  git_process dir ["ls-tree"; "-r"; "-z"; "--name-only"; revision]
  = mkProcessResult None (nul_terminated paths) stderr →
  ∃ files cov, DiscoverTrackedFiles dir revision = inr (files, cov)
    ∧ files = omap tracked_file paths
    ∧ cov_TrackedFilesDiscovered cov = zlen paths
    ∧ strictly_sorted (map cg_Language (cov_Unsupported cov))
    ∧ (∀ x, x ∈ map cg_Language (cov_Unsupported cov) ↔ x ∈ omap unsupported_label paths)
    ∧ Forall (λ g, cg_Reason g = "unsupported_language"
                   ∧ cg_Count g = occurrences (cg_Language g) (omap unsupported_label paths)) (cov_Unsupported cov).
Proof.
  intros H E. unfold DiscoverTrackedFiles, RunBytes. rewrite E. cbn [ps_Err ps_Stdout].
  rewrite SplitNULPaths_nul by done. rewrite track_all. cbn [app]. do 2 eexists. split; [done|].
  cbn [cov_TrackedFilesDiscovered cov_Unsupported]. split; [done|]. split; [done|]. rewrite map_map, map_id.
  destruct (sorted_keys str_less (omap unsupported_label paths)) as (Hs & Hn & Hx).
  split; [by split|]. split; [exact Hx|]. apply List.Forall_map, list.Forall_forall. intros x _. cbn.
  split; [done|]. apply count_keys_empty.
Qed.

End Tracked.

(** ** The batch reader *)

Section Batch.
Context {table : IsPrint}.

(** What the repository has under a request. *)
Inductive batch_object :=
  | Found (oid kind content : string)
  | Missing.

(** The documented answer of [git cat-file --batch -Z]. *)
Definition answer_text (request : string) (o : batch_object) : string :=
  match o with
  | Found oid kind content =>
      oid +:+ " " +:+ kind +:+ " " +:+ Itoa (Z.of_nat (String.length content)) +:+ String nul (content +:+ String nul "")
  | Missing => request +:+ " missing" +:+ String nul ""
  end.

(** A printed word: graphic ASCII. *)
Fixpoint word (s : string) : bool :=
  match s with EmptyString => true | String c t => in_range 33 126 (code c) && word t end.

Definition object_ok (o : batch_object) : Prop :=
  match o with
  | Found oid kind content =>
      word oid = true ∧ oid ≠ "" ∧ word kind = true ∧ kind ≠ "" ∧ in_int64 (Z.of_nat (String.length content)) = true
  | Missing => True
  end.

Lemma space_plain a b c : in_range 33 126 (code a) = true → space1 a = false ∧ space2 a b = false ∧ space3 a b c = false.
Proof.
  unfold in_range, space1, space2, space3, in_range. intros H. breflect.
  assert (∀ n, (126 < n)%N → (code a =? n)%N = false) as Hn by (intros; apply N.eqb_neq; lia).
  rewrite (Hn 194%N), (Hn 225%N), (Hn 226%N), (Hn 227%N) by lia. split; [|done]. apply orb_false_iff. split; [|apply N.eqb_neq; lia].
  apply andb_false_iff. right. apply N.leb_gt. lia.
Qed.

Lemma fields_step cur a t : (∀ b c, space1 a = false ∧ space2 a b = false ∧ space3 a b c = false) →
  fields_from cur (String a t) = fields_from (cur +:+ String a "") t.
Proof.
  intros H. cbn [fields_from]. rewrite (proj1 (H a a)). destruct t as [|b u]; [done|].
  rewrite (proj1 (proj2 (H b b))). destruct u as [|c v]; [done|]. by rewrite (proj2 (proj2 (H b c))).
Qed.

(** A word is a field up to the next space or the end. *)
Lemma fields_word w cur s : word w = true → s = "" ∨ (∃ t, s = String " " t) →
  fields_from cur (w +:+ s) = flush_field (cur +:+ w) (Fields s).
Proof.
  intros Hw Hs. revert cur. induction w as [|a w IH]; intros cur.
  - rewrite append_empty_r. change ("" +:+ s) with s. destruct Hs as [->|[t ->]]; [done|]. by destruct t.
  - cbn [word] in Hw. apply andb_true_iff in Hw as [Ha Hw]. change (String a w +:+ s) with (String a (w +:+ s)).
    rewrite fields_step by (intros; by apply space_plain). rewrite IH by done. by rewrite append_assoc_str.
Qed.

Lemma flush_last cur l w : ∃ l', flush_field cur (l ++ [w]) = l' ++ [w].
Proof. unfold flush_field. destruct (cur == ""); [by exists l|by exists (cur :: l)]. Qed.

(** Whatever comes before, a last word after a space is the last field. *)
Lemma fields_last w : word w = true → w ≠ "" → ∀ n s cur, String.length s ≤ n →
  ∃ l, fields_from cur (s +:+ String " " w) = l ++ [w].
Proof.
  intros Hw Hne n. assert (∀ cur, ∃ l, fields_from cur (String " " w) = l ++ [w]) as Hbase.
  { intros cur. destruct (flush_last cur [] w) as [l Hl]. exists l. rewrite <- Hl.
    change (fields_from cur (String " " w)) with (flush_field cur (fields_from "" w)). f_equal.
    rewrite <- (append_empty_r w) at 1. rewrite fields_word by auto. destruct w; done. }
  assert (∀ a, space2 a " " = false ∧ (∀ b, space3 a b " " = false) ∧ ∀ c, space3 a " " c = false) as Hsp.
  { intros a. unfold space2, space3. change (code " ") with 32%N. split_and!; [by rewrite andb_false_r| |]; intros;
      cbn [N.eqb Pos.eqb in_range N.leb N.compare Pos.compare Pos.compare_cont andb orb]; rewrite ?andb_false_r; done. }
  induction n as [|n IH]; intros s cur Hs; [destruct s; [apply Hbase|simpl in Hs; lia]|].
  destruct s as [|a t]; [apply Hbase|]. simpl in Hs. change (String a t +:+ ?x) with (String a (t +:+ x)). cbn [fields_from].
  assert (∀ cur, ∃ l, fields_from cur (t +:+ String " " w) = l ++ [w]) as Ht by (intros; apply IH; lia).
  destruct (space1 a); [destruct (Ht "") as [l ->]; apply flush_last|].
  destruct t as [|b u].
  { cbn [String.append] in *. rewrite (proj1 (Hsp a)). destruct w as [|c v]; [done|]. rewrite (proj2 (proj2 (Hsp a))). apply Ht. }
  change (String b u +:+ ?x) with (String b (u +:+ x)) in *. simpl in Hs.
  destruct (space2 a b) eqn:E2; rewrite ?E2. { destruct (IH u "") as [l ->]; [lia|]. apply flush_last. }
  destruct u as [|c v].
  { cbn [String.append] in *. rewrite (proj1 (proj2 (Hsp a))). apply Ht. }
  change (String c v +:+ ?x) with (String c (v +:+ x)) in *. simpl in Hs.
  destruct (space3 a b c) eqn:E3; rewrite ?E3; [|apply Ht]. destruct (IH v "") as [l ->]; [lia|]. apply flush_last.
Qed.

Lemma no_nul_cons c s : no_nul (String c s) ↔ Ascii.eqb c nul = false ∧ no_nul s.
Proof.
  unfold no_nul. rewrite CutLast_cons. destruct (CutLast nul s) as [[]|]; [split; [done|by intros [_ ?]]|].
  destruct (Ascii.eqb c nul); split; try done; by intros [].
Qed.

Lemma no_nul_app a b : no_nul a → no_nul b → no_nul (a +:+ b).
Proof.
  intros Ha Hb. induction a as [|c a IH]; [done|]. apply no_nul_cons in Ha as [Hc Ha].
  change (no_nul (String c (a +:+ b))). apply no_nul_cons. auto.
Qed.

Lemma word_no_nul w : word w = true → no_nul w.
Proof.
  induction w as [|c w IH]; [done|]. cbn [word]. intros [Hc Hw]%andb_true_iff. apply no_nul_cons. split; [|auto].
  destruct (Ascii.eqb_spec c nul) as [->|]; [done|done].
Qed.

Lemma CutByte_nul a b : no_nul a → CutByte nul (a +:+ String nul b) = Some (a, b).
Proof.
  induction a as [|c a IH]; intros Ha; [done|]. apply no_nul_cons in Ha as [Hc Ha].
  change (String c a +:+ ?x) with (String c (a +:+ x)). cbn [CutByte]. by rewrite Hc, IH.
Qed.

Lemma word_Itoa n : word (Itoa (Z.of_nat n)) = true ∧ Itoa (Z.of_nat n) ≠ "".
Proof.
  assert (∀ d, word (NilEmpty.string_of_uint d) = true) as Hd by (induction d; done).
  unfold Itoa. destruct (Z.to_int (Z.of_nat n)) as [d|d] eqn:E; [|by destruct n].
  cbn [NilZero.string_of_int]. unfold NilZero.string_of_uint. split; [destruct d; [done|apply Hd..]|by destruct d].
Qed.

Lemma substring_here a b : String.substring 0 (String.length a) (a +:+ b) = a.
Proof. apply substring_prefix. Qed.

Lemma drop_here a b : drop_string (String.length a) (a +:+ b) = b.
Proof.
  unfold drop_string. rewrite length_append, Nat.add_comm, Nat.add_sub.
  rewrite <- (append_empty_r b) at 2. rewrite substring_app. done.
Qed.

Definition is_object (o : batch_object) (x : error + string) : Prop :=
  match o with Found _ _ content => x = inr content | Missing => ∃ e, x = inl e end.

(** Reading paths one after the other. *)
Fixpoint read_all {batch : BatchProcess} (r : RevisionFileReader) (paths : list string) :
    list (error + string) * RevisionFileReader :=
  match paths with
  | [] => ([], r)
  | path :: paths =>
      let '(x, r) := Next r path in
      let '(xs, r) := read_all r paths in
      (x :: xs, r)
  end.

(** One process that answers as documented. *)
Class BatchLaws {batch : BatchProcess} (objects : string → batch_object) : Prop := {
  batch_documented request : no_nul request → batch_answer request = inr (answer_text request (objects request));
  batch_objects_ok request : object_ok (objects request)
}.

Lemma next_in_sync {batch : BatchProcess} objects `{!BatchLaws objects} revision path :
  no_nul revision → no_nul path →
  (Next (mkReader revision "") path).2 = mkReader revision ""
  ∧ is_object (objects (revision +:+ ":" +:+ path)) (Next (mkReader revision "") path).1.
Proof.
  intros Hr Hp. assert (no_nul (revision +:+ ":" +:+ path)) as Hreq by (repeat apply no_nul_app; done).
  unfold Next, batch_request. cbn [rr_revisionSHA rr_stdout]. rewrite batch_documented by done.
  pose proof (batch_objects_ok (revision +:+ ":" +:+ path)) as Hok. set (request := revision +:+ _) in *.
  change ("" +:+ ?x) with x. destruct (objects request) as [oid kind content|]; cbn [answer_text is_object].
  - destruct Hok as (Ho & Hone & Hk & Hkne & Hsize). pose proof (word_Itoa (String.length content)) as [Hw Hwne].
    set (size := Itoa _) in *.
    replace (oid +:+ " " +:+ kind +:+ " " +:+ size +:+ String nul (content +:+ String nul ""))
      with ((oid +:+ " " +:+ kind +:+ " " +:+ size) +:+ String nul (content +:+ String nul "")) by by rewrite !append_assoc_str.
    rewrite CutByte_nul by (repeat apply no_nul_app; try done; by apply word_no_nul).
    assert (Fields (oid +:+ " " +:+ kind +:+ " " +:+ size) = [oid; kind; size]) as ->.
    { assert (∀ w l, w ≠ "" → flush_field ("" +:+ w) l = w :: l) as Hf by (intros [|] l; done).
      unfold Fields. rewrite fields_word by (done || right; by eexists). rewrite Hf by done.
      change (Fields (" " +:+ kind +:+ " " +:+ size)) with (fields_from "" (kind +:+ " " +:+ size)).
      rewrite fields_word by (done || right; by eexists). rewrite Hf by done.
      change (Fields (" " +:+ size)) with (fields_from "" size).
      rewrite <- (append_empty_r size) at 1. rewrite fields_word by (done || by left). by rewrite Hf. }
    assert (Atoi size = Some (Z.of_nat (String.length content))) as -> by (unfold size; by apply Atoi_Itoa). replace (Z.of_nat (String.length content) <? 0)%Z with false by (symmetry; apply Z.ltb_ge; lia).
    rewrite Nat2Z.id, length_append. replace (_ <? String.length content) with false by (symmetry; apply Nat.ltb_ge; lia).
    rewrite drop_here, substring_here. done.
  - rewrite <- append_assoc_str, CutByte_nul by (apply no_nul_app; done).
    destruct (fields_last "missing" eq_refl ltac:(done) _ request "" (le_n _)) as [l Hl].
    change (" missing") with (String " " "missing"). unfold Fields. rewrite Hl.
    destruct l as [|x [|y [|z l]]]; cbn [app]; [split; [reflexivity|eexists; reflexivity]..|].
    destruct l; (split; [reflexivity|eexists; reflexivity]).
Qed.

(** C19: Reading the files of a revision never loses step with git.  One
    [git cat-file --batch -Z] process answers every request of a scan; if it answers as
    documented, then for any paths without a NUL, with spaces or newlines in them or none
    in the repository, every read gives the content of exactly the object its path names,
    or an error when there is none, and after every read the whole answer is consumed. *)
Theorem batch_in_sync {batch : BatchProcess} objects `{!BatchLaws objects} revision paths :
  no_nul revision → Forall no_nul paths →
  Forall2 (λ path x, is_object (objects (revision +:+ ":" +:+ path)) x) paths (read_all (mkReader revision "") paths).1
  ∧ (read_all (mkReader revision "") paths).2 = mkReader revision "".
Proof.
  intros Hr Hp. induction Hp as [|path paths Hp _ [IH1 IH2]]; [done|]. cbn [read_all].
  pose proof (next_in_sync objects revision path Hr Hp) as [H1 H2].
  destruct (Next _ path) as [x r]. cbn [fst snd] in H1, H2. subst r.
  destruct (read_all _ paths) as [xs r]. cbn [fst snd] in *. split; [by constructor|done].
Qed.

End Batch.

(** ** Archives *)

Section ArchiveProofs.
Context {table : IsPrint} (perform : list FsOp → FsOp → option error).

(** A place in the snapshot: below its directory, by elements none of which goes up. *)
Definition inside (dir path : string) : Prop :=
  ∃ down, segments path = segments (Clean dir) ++ down ∧ Forall plain_element (segments path).

Lemma safe_path dir name path : HasPrefix "/" dir = true → safeTarEntryPath dir name = inr path → inside dir path.
Proof.
  intros Hd. unfold safeTarEntryPath. destruct (outside _) eqn:Eo; [done|]. intros [= <-].
  destruct (RelPath_inside _ _ Hd Eo) as (Hs & down & Hseg).
  assert (∃ p, HasPrefix "/" p = true ∧ Join2 dir name = Clean p) as (p & Hp & E).
  { unfold Join2. destruct (String.eqb_spec dir "") as [->|]; [done|]. destruct (name == ""); [by exists dir|].
    exists (dir +:+ "/" +:+ name). split; [by apply HasPrefix_slash_app|done]. }
  rewrite E in Hseg |- *. rewrite Clean_idemp in Hseg by done. exists down. split; [done|]. by apply segments_Clean.
Qed.

(** The directory above a place is one too, or the one above the snapshot's. *)
Definition parent_of_inside (dir path : string) : Prop := ∃ p, inside dir p ∧ path = Dir p.

Definition op_contained (dir : string) (o : FsOp) : Prop :=
  match o with OpMkdirAll p _ => inside dir p ∨ parent_of_inside dir p | OpWriteFile p _ _ | OpSymlink _ p => inside dir p end.

Lemma run_ops_contained dir ops : ∀ done_ops, Forall (op_contained dir) done_ops → Forall (op_contained dir) ops →
  Forall (op_contained dir) (run_ops perform done_ops ops).1.
Proof.
  induction ops as [|o ops IH]; intros done_ops Hd H; [done|]. apply list.Forall_cons in H as [Ho H]. cbn [run_ops].
  assert (Forall (op_contained dir) (done_ops ++ [o])) by (apply list.Forall_app; split; [done|by constructor]).
  destruct (perform done_ops o); [done|]. by apply IH.
Qed.

Lemma extract_contained dir entries broken : HasPrefix "/" dir = true → ∀ done_ops,
  Forall (op_contained dir) done_ops → Forall (op_contained dir) (extractTar perform dir entries broken done_ops).1.
Proof.
  intros Hdir. induction entries as [|header entries IH]; intros done_ops Hd; [done|]. cbn [extractTar].
  enough (Forall (op_contained dir) (extractTarEntry perform dir header done_ops).1) as H.
  { destruct (extractTarEntry perform dir header done_ops) as [ops [err|]]; [done|]. by apply IH. }
  unfold extractTarEntry. destruct (safeTarEntryPath dir (te_Name header)) as [err|path] eqn:E; [done|].
  apply safe_path in E; [|done].
  assert (op_contained dir (OpMkdirAll (Dir path) dirMode)) as Hparent by (right; by exists path).
  destruct (te_Typeflag header); try done; apply run_ops_contained; try done;
    unfold extractTarRegularFile, extractTarSymlink; rewrite ?list.Forall_cons, list.Forall_nil; repeat split; try done;
    by left.
Qed.

(** Unpacking a revision writes only inside the snapshot.  Whatever the archive
    holds, and whatever calls fail on the way, every file and symbolic link is made at a
    path below the fresh directory, by elements none of which goes up, and every directory
    is such a path or the directory of one. *)
Theorem archive_contained {git : Git} tar_entries MkdirTemp root revision dir :
  MkdirTemp = inr dir → HasPrefix "/" dir = true →
  Forall (op_contained dir) (ExtractRevision perform tar_entries MkdirTemp root revision).2.
Proof.
  intros -> Hdir. unfold ExtractRevision. destruct (RunBytes _ _) as [err|archive]; [constructor|].
  destruct (tar_entries archive) as [entries broken].
  pose proof (extract_contained dir entries broken Hdir [] (list.Forall_nil_2 _)) as H.
  by destruct (extractTar perform dir entries broken []) as [ops [err|]].
Qed.

End ArchiveProofs.

(** ** Worktree status *)

(** An entry as git prints it: the code, a space and the path, and for a rename or copy
    the old path after it. *)
Definition status_ok (e : WorktreeEntry * string) : Prop :=
  String.length (we_Code e.1) = 2 ∧ no_nul (we_Code e.1) ∧ no_nul (we_Path e.1) ∧ no_nul e.2.

Definition status_fields (e : WorktreeEntry * string) : list string :=
  (we_Code e.1 +:+ " " +:+ we_Path e.1) :: (if renamed_code (we_Code e.1) then [e.2] else []).

Lemma status_entries_fields entries : Forall status_ok entries →
  status_entries (List.concat (map status_fields entries)) = map fst entries.
Proof.
  induction 1 as [|[[code path] old] entries (Hl & _) _ IH]; [done|]. cbn [we_Code we_Path fst] in Hl.
  destruct code as [|a [|b [|]]]; try done. cbn [map List.concat status_fields we_Code we_Path fst snd app].
  change (String a (String b "") +:+ " " +:+ path) with (String a (String b (String " " path))). cbn [status_entries].
  change (String.length (String a (String b (String " " path))) <? 3) with false. cbv iota.
  change (String.substring 0 2 (String a (String b (String " " path)))) with (String a (String b (String.substring 0 0 (String " " path)))).
  replace (drop_string 3 (String a (String b (String " " path)))) with path.
  - cbn [String.substring]. destruct (renamed_code _); cbn [app]; by rewrite IH.
  - symmetry. apply (drop_here (String a (String b " ")) path).
Qed.

(** What git prints of a worktree is read back, old paths dropped, whatever the paths hold. *)
Lemma worktree_status_roundtrip entries : Forall status_ok entries →
  ParseWorktreeStatus (nul_terminated (List.concat (map status_fields entries))) = map fst entries.
Proof.
  intros H. destruct entries as [|e entries]; [done|]. unfold ParseWorktreeStatus, SplitNULPaths.
  rewrite split_nul; [|done|].
  - rewrite <- (status_entries_fields (e :: entries)) by done. destruct e as [[[|a code] path] old]; [|done].
    by apply list.Forall_cons in H as [(Hl & _) _].
  - apply List.Forall_concat, List.Forall_map. eapply list.Forall_impl; [exact H|]. intros [[code path] old] (_ & H1 & H2 & H3).
    unfold status_fields. cbn [we_Code we_Path fst snd] in *. constructor; [|destruct (renamed_code code); by repeat constructor].
    repeat apply no_nul_app; done.
Qed.

(** Every code falls in one class at least, unless it is short or marks an ignored file;
    untracked and unmerged exclude the other classes. *)
Lemma ClassifyWorktreeStatus_classes code untracked staged modified unmerged :
  ClassifyWorktreeStatus code = (untracked, staged, modified, unmerged) →
  (2 ≤ String.length code → code ≠ "!!" → untracked || staged || modified || unmerged = true)
  ∧ (untracked = true → staged || modified || unmerged = false)
  ∧ (unmerged = true → untracked || staged || modified = false).
Proof.
  unfold ClassifyWorktreeStatus. destruct code as [|a [|b code]]; try (intros [= <- <- <- <-]; cbn; split_and!; [lia|done..]).
  destruct (_ == "!!") eqn:E0; [intros [= <- <- <- <-]; split_and!; [|done..]; intros _ H; by apply String.eqb_eq in E0|].
  destruct (_ || _); [by intros [= <- <- <- <-]|]. destruct (worktreeStatusUnmerged _); [by intros [= <- <- <- <-]|].
  intros [= <- <- <- <-]. destruct (worktreeIndexStaged a), (worktreeColumnModified b); done.
Qed.

(** ** Bounded reads *)

Lemma substring_short s n : String.length (String.substring 0 n s) < n → String.substring 0 n s = s.
Proof.
  revert n. induction s as [|c s IH]; intros [|n]; try done; [simpl; lia|]. cbn. intros H. f_equal. apply IH. lia.
Qed.

(** A successful bounded read returns everything the child printed, within both bounds,
    before the deadline, from a child that succeeded. *)
Lemma bounded_read_exact {git : BoundedGit} dir maxStdout maxStderr timeout args out :
  (maxStdout < 2 ^ 63 - 1)%Z → (maxStderr < 2 ^ 63 - 1)%Z →
  RunBytesBounded dir maxStdout maxStderr timeout args = inr out →
  (0 < timeout)%Z ∧ bc_Stdout (bounded_git timeout dir args) = (None, out)
  ∧ (Z.of_nat (String.length out) <= maxStdout)%Z ∧ bc_Expired (bounded_git timeout dir args) = false
  ∧ bc_Wait (bounded_git timeout dir args) = None.
Proof.
  intros Ho He. unfold RunBytesBounded, validateGitReadBounds. destruct (timeout <=? 0)%Z eqn:Et; [done|]. apply Z.leb_gt in Et.
  destruct (_ || _) eqn:Eb; [done|]. apply orb_false_iff in Eb as [E1%Z.ltb_ge E2%Z.ltb_ge].
  destruct (bounded_git timeout dir args) as [start stdout stderr waitErr expired]. cbn.
  destruct start; [done|]. unfold finishGitBoundedRead, readGitPipe. cbn.
  destruct stdout as [[]  so], stderr as [[] se]; try done. cbn.
  destruct (maxStdout <? _)%Z eqn:E3; [done|]. apply Z.ltb_ge in E3.
  destruct (maxStderr <? _)%Z eqn:E4; [done|]. destruct expired; [done|]. destruct waitErr; [done|].
  intros [= <-]. rewrite int64_wrap_small in E3 |- * by lia. rewrite (substring_short so) in E3 |- * by lia.
  split_and!; done.
Qed.

(** ** Examples *)

Module GitExample.

#[local] Instance table : IsPrint := ascii_table.

Definition records : list nameStatusRecord := [
  mkRecord "M" ["pkg/a b.go"]; mkRecord "R100" ["old.ts"; "new
line.ts"]; mkRecord "D" ["README.md"]; mkRecord "T" ["link.go"]].

Definition tracked : list string := ["a.go"; "LICENSE"; "b.tsx"; "Makefile"; "doc.md"].

#[local] Instance git : Git := λ _ args, mkProcessResult None
  (if decide (List.hd "" args = "diff") then nul_terminated (List.concat (map record_fields records))
   else nul_terminated tracked) "".

Lemma changed_files_exact_witness :
  Forall record_ok records
  ∧ ∃ s, SelectChangedFiles "." "base" "head" = inr s
    ∧ sel_Files s = omap record_file records ∧ sel_Continuity s = omap record_continuity records
    ∧ map (λ d, (dg_Kind d, dg_Path d)) (sel_Diagnostics s) = omap record_diagnostic records.
Proof.
  assert (Forall record_ok records) as H by (repeat constructor; done).
  split; [exact H|]. exact (changed_files_exact "." "base" "head" records "" H eq_refl).
Defined.

Lemma tracked_files_exact_witness :
  Forall (λ p, no_nul p ∧ p ≠ "") tracked
  ∧ ∃ files cov, DiscoverTrackedFiles "." "head" = inr (files, cov)
    ∧ files = omap tracked_file tracked ∧ cov_TrackedFilesDiscovered cov = 5%Z
    ∧ map (λ g, (cg_Language g, cg_Count g)) (cov_Unsupported cov) = [("(no extension)", 2%Z); (".md", 1%Z)].
Proof.
  assert (Forall (λ p, no_nul p ∧ p ≠ "") tracked) as H by (repeat constructor; done).
  split; [exact H|]. destruct (tracked_files_exact "." "head" tracked "" H eq_refl) as (files & cov & E & Hf & Hn & _).
  exists files, cov. split; [exact E|]. split; [exact Hf|]. split; [exact Hn|].
  vm_compute in E. injection E as <- <-. reflexivity.
Defined.

(** One tracked file whose path has a space and a newline. *)
Definition objects (request : string) : batch_object :=
  if request == "4f:a b
.go" then Found "9d" "blob" "package a" else Missing.

#[local] Instance batch : BatchProcess := λ request, inr (answer_text request (objects request)).

#[local] Instance batch_laws : BatchLaws objects.
Proof.
  split; [done|]. intros request. unfold objects. destruct (request == _); [|done]. repeat split; done.
Defined.

Lemma batch_in_sync_witness :
  Forall2 (λ path x, is_object (objects ("4f" +:+ ":" +:+ path)) x) ["x y"; "a b
.go"] (read_all (mkReader "4f" "") ["x y"; "a b
.go"]).1
  ∧ (read_all (mkReader "4f" "") ["x y"; "a b
.go"]).2 = mkReader "4f" "".
Proof. apply (batch_in_sync objects "4f"); [reflexivity|repeat constructor; reflexivity]. Defined.

(** An archive that tries to leave the directory. *)
Definition entries : list TarEntry := [
  mkTarEntry "src/" TypeDir "" 493 ""; mkTarEntry "src/a.go" TypeReg "" 420 "package a";
  mkTarEntry "link" TypeSymlink "/etc/passwd" 511 ""; mkTarEntry "../../etc/x" TypeReg "" 420 "x"].

Lemma archive_contained_witness :
  let r := ExtractRevision (λ _ _, None) (λ _, (entries, None)) (inr "/tmp/s") "/repo" "head" in
  (∃ err, r.1 = inl err) ∧ length r.2 = 5 ∧ Forall (op_contained "/tmp/s") r.2.
Proof.
  split; [vm_compute; eexists; reflexivity|]. split; [vm_compute; reflexivity|].
  apply (archive_contained (λ _ _, None) (λ _, (entries, None)) (inr "/tmp/s") "/repo" "head" "/tmp/s"); reflexivity.
Defined.

End GitExample.
