(* ===== verification/Glob.v ===== *)
(** * Glob patterns

    [internal/codesignalcli/sourcescope/glob.go]: a pattern of a [tsconfig.json] becomes
    a regular expression over the runes of a path.  [glob_exact] is the equivalence with
    the reading of a pattern as a relation, [glob_bytes] what a pattern beyond ASCII
    means. *)

From Stdlib Require Import Ascii.
From S2P Require Import Prelude GoText.

(** ** Runes *)

(** The runes of a string as [regexp] steps through them: a byte that is not part of a
    valid encoding is U+FFFD. *)
Fixpoint runes_from (fuel : nat) (s : string) : list N :=
  match fuel, s with
  | S fuel, String c t =>
      if (code c <? 128)%N then code c :: runes_from fuel t
      else match decode_rune s with
      | Some (r, _, rest) => r :: runes_from fuel rest
      | None => 65533%N :: runes_from fuel t
      end
  | _, _ => []
  end.

Definition runes (s : string) : list N := runes_from (String.length s) s.

(** ** The expression *)

(** What a pattern's expression is a sequence of: a quoted rune, [[^/]], [[^/]*], [.*]
    and [(?:.*/)?]. *)
Inductive atom := AQuoted (r : N) | ANotSlash | ANotSlashStar | AAnyStar | ADirs.

Definition slash : N := 47.
Definition newline_rune : N := 10.

Definition not_slash (r : N) : bool := negb (r =? slash)%N.
Definition any (r : N) : bool := negb (r =? newline_rune)%N.

(** The atom a star begins, and what is left of the pattern after it.

    go: internal/codesignalcli/sourcescope/glob.go#writeGlobStar *)
Definition writeGlobStar (rest : string) : atom * string :=
  match rest with
  | String "*" u =>
      match u with
      | String "/" v => (ADirs, v)
      | _ => (AAnyStar, u)
      end
  | _ => (ANotSlashStar, rest)
  end.

(** The loop over the pattern.  [string(pattern[i])] is the rune numbered by the byte. *)
Fixpoint expression (fuel : nat) (pattern : string) : list atom :=
  match fuel, pattern with
  | S fuel, String c t =>
      match c with
      | "*"%char => let '(a, rest) := writeGlobStar t in a :: expression fuel rest
      | "?"%char => ANotSlash :: expression fuel t
      | _ => AQuoted (code c) :: expression fuel t
      end
  | _, _ => []
  end.

(** ** Matching *)

(** Some runes of the class, then the rest. *)
Fixpoint star (class : N → bool) (rest : list N → bool) (s : list N) : bool :=
  rest s || match s with r :: s => class r && star class rest s | [] => false end.

Definition after_slash (rest : list N → bool) (s : list N) : bool :=
  match s with r :: s => (r =? slash)%N && rest s | [] => false end.

(** Whether the whole of a text matches. *)
Fixpoint matches (e : list atom) (s : list N) : bool :=
  match e with
  | [] => match s with [] => true | _ => false end
  | AQuoted q :: e => match s with r :: s => (r =? q)%N && matches e s | [] => false end
  | ANotSlash :: e => match s with r :: s => not_slash r && matches e s | [] => false end
  | ANotSlashStar :: e => star not_slash (matches e) s
  | AAnyStar :: e => star any (matches e) s
  | ADirs :: e => matches e s || star any (after_slash (matches e)) s
  end.

(** go: internal/codesignalcli/sourcescope/glob.go#globMatch *)
Definition globMatch (pattern path : string) : bool :=
  matches (expression (String.length pattern) pattern) (runes path).

Example globMatch_examples :
  map (λ '(p, s), globMatch p s) [
    ("src/**/*.ts", "src/a.ts"); ("src/**/*.ts", "src/x/y/a.ts"); ("src/*.ts", "src/x/a.ts"); ("**/*_test.?s", "a/b_test.ts");
    ("src", "src/a.ts"); ("a.ts", "axts"); ("**", "")]
  = [true; true; false; true; false; false; true].
Proof. vm_compute. reflexivity. Qed.

(** ** What a pattern means *)

Definition starts (c : ascii) (s : string) : Prop := ∃ t, s = String c t.

(** One star stands for runes other than a slash; two stars for any runes of a line; two
    stars and a slash for nothing or for any runes up to a slash; a question mark for one
    rune other than a slash; another byte for its own rune. *)
Inductive glob : string → list N → Prop :=
  | glob_end : glob "" []
  | glob_star p u v : ¬ starts "*" p → Forall (λ r, r ≠ slash) u → glob p v → glob (String "*" p) (u ++ v)
  | glob_deep p u v : ¬ starts "/" p → Forall (λ r, r ≠ newline_rune) u → glob p v →
      glob (String "*" (String "*" p)) (u ++ v)
  | glob_no_dirs p v : glob p v → glob (String "*" (String "*" (String "/" p))) v
  | glob_dirs p u v : Forall (λ r, r ≠ newline_rune) u → glob p v →
      glob (String "*" (String "*" (String "/" p))) (u ++ slash :: v)
  | glob_one p r v : r ≠ slash → glob p v → glob (String "?" p) (r :: v)
  | glob_char c p v : c ≠ "*"%char → c ≠ "?"%char → glob p v → glob (String c p) (code c :: v).

Lemma star_spec class rest s : star class rest s = true ↔
  ∃ u v, s = u ++ v ∧ Forall (λ r, class r = true) u ∧ rest v = true.
Proof.
  induction s as [|r s IH]; cbn [star]; rewrite orb_true_iff.
  - split; [intros [H|]; [by exists [], []|done]|]. intros (u & v & E & _ & H). symmetry in E.
    apply app_nil in E as [_ ->]. by left.
  - rewrite andb_true_iff, IH. split.
    + intros [H|[Hr (u & v & -> & Hu & Hv)]]; [by exists [], (r :: s)|].
      exists (r :: u), v. split; [done|]. split; [by constructor|done].
    + intros ([|x u] & v & E & Hu & Hv); cbn in E; [subst v; by left|]. injection E as -> ->. apply list.Forall_cons in Hu as [Hx Hu]. right.
      split; [done|]. by exists u, v.
Qed.

Lemma not_slash_spec r : not_slash r = true ↔ r ≠ slash.
Proof. unfold not_slash. by rewrite negb_true_iff, N.eqb_neq. Qed.

Lemma any_spec r : any r = true ↔ r ≠ newline_rune.
Proof. unfold any. by rewrite negb_true_iff, N.eqb_neq. Qed.

Lemma after_slash_spec rest s : after_slash rest s = true ↔ ∃ v, s = slash :: v ∧ rest v = true.
Proof.
  destruct s as [|r s]; cbn; [split; [done|by intros (? & ? & ?)]|]. rewrite andb_true_iff, N.eqb_eq. split.
  - intros [-> H]. by exists s.
  - by intros (v & [= -> ->] & H).
Qed.

Lemma expression_fuel n m p : String.length p ≤ n → String.length p ≤ m → expression n p = expression m p.
Proof.
  revert m p. induction n as [|n IH]; intros [|m] [|c t]; try done; simpl; try lia. intros Hn Hm.
  assert (∀ q, String.length q ≤ String.length t → expression n q = expression m q) as Hq by (intros; apply IH; lia).
  assert (String.length (writeGlobStar t).2 ≤ String.length t) as Hw.
  { unfold writeGlobStar. repeat case_match; simpl; lia. }
  repeat case_match; f_equal; apply Hq; done.
Qed.

Definition compiled (p : string) : list atom := expression (String.length p) p.

Lemma compiled_star p : compiled (String "*" p) = (writeGlobStar p).1 :: compiled (writeGlobStar p).2.
Proof.
  unfold compiled at 1. cbn [String.length expression]. destruct (writeGlobStar p) as [a q] eqn:E. cbn [fst snd]. f_equal.
  apply expression_fuel; [|done]. change q with (a, q).2. rewrite <- E. unfold writeGlobStar. repeat case_match; simpl; lia.
Qed.

Lemma compiled_one p : compiled (String "?" p) = ANotSlash :: compiled p.
Proof. reflexivity. Qed.

Lemma compiled_char c p : c ≠ "*"%char → c ≠ "?"%char → compiled (String c p) = AQuoted (code c) :: compiled p.
Proof. intros H1 H2. unfold compiled at 1. cbn [String.length expression]. repeat case_match; done. Qed.

(** The three kinds of star. *)
Lemma star_kinds p :
  (∃ q, p = String "*" (String "/" q) ∧ writeGlobStar p = (ADirs, q))
  ∨ (∃ q, p = String "*" q ∧ ¬ starts "/" q ∧ writeGlobStar p = (AAnyStar, q))
  ∨ (¬ starts "*" p ∧ writeGlobStar p = (ANotSlashStar, p)).
Proof.
  destruct p as [|c p]; [right; right; split; [by intros [? ?]|done]|].
  destruct (Ascii.ascii_dec c "*") as [->|Hc].
  - destruct p as [|d p]; [right; left; exists ""; split; [done|split; [by intros [? ?]|done]]|].
    destruct (Ascii.ascii_dec d "/") as [->|Hd]; [left; by exists p|].
    right; left. exists (String d p). split; [done|]. split; [intros [? [=]]; done|].
    unfold writeGlobStar. repeat case_match; done.
  - right; right. split; [intros [? [=]]; done|]. unfold writeGlobStar. repeat case_match; done.
Qed.

Lemma glob_sound p s : glob p s → matches (compiled p) s = true.
Proof.
  induction 1 as [|p u v Hp Hu _ IH|p u v Hp Hu _ IH|p v _ IH|p u v Hu _ IH|p r v Hr _ IH|c p v H1 H2 _ IH].
  - done.
  - rewrite compiled_star. destruct (star_kinds p) as [(q & -> & _)|[(q & -> & _)|[_ ->]]]; [by destruct Hp; eexists..|].
    apply star_spec. exists u, v. split; [done|]. split; [|done]. eapply list.Forall_impl; [exact Hu|]. intros. by apply not_slash_spec.
  - rewrite compiled_star. destruct (star_kinds (String "*" p)) as [(q & [= ->] & _)|[(q & [= <-] & _ & ->)|[H _]]];
      [by destruct Hp; eexists| |by destruct H; eexists].
    apply star_spec. exists u, v. split; [done|]. split; [|done]. eapply list.Forall_impl; [exact Hu|]. intros. by apply any_spec.
  - rewrite compiled_star. cbn [writeGlobStar fst snd matches]. by rewrite IH.
  - rewrite compiled_star. cbn [writeGlobStar fst snd matches]. apply orb_true_iff. right. apply star_spec.
    exists u, (slash :: v). split; [done|]. split; [|by apply after_slash_spec; exists v].
    eapply list.Forall_impl; [exact Hu|]. intros. by apply any_spec.
  - rewrite compiled_one. cbn. rewrite IH, andb_true_r. by apply not_slash_spec.
  - rewrite compiled_char by done. cbn. by rewrite N.eqb_refl.
Qed.

Lemma glob_complete n : ∀ p s, String.length p ≤ n → matches (compiled p) s = true → glob p s.
Proof.
  induction n as [|n IH]; intros [|c p] s Hn; simpl in Hn; try lia; try (destruct s; [intros; constructor|done]).
  assert (∀ q s, String.length q ≤ String.length p → matches (compiled q) s = true → glob q s) as Hq
    by (intros; apply IH; [lia|done]).
  destruct (Ascii.ascii_dec c "*") as [->|Hc]; [|destruct (Ascii.ascii_dec c "?") as [->|Hc']].
  - rewrite compiled_star. destruct (star_kinds p) as [(q & -> & ->)|[(q & -> & Hs & ->)|[Hs ->]]]; cbn [fst snd matches].
    + rewrite orb_true_iff. intros [H|H]; [apply glob_no_dirs, Hq; [simpl; lia|done]|].
      apply star_spec in H as (u & v & -> & Hu & (w & -> & Hw)%after_slash_spec).
      apply glob_dirs; [|apply Hq; [simpl; lia|done]]. eapply list.Forall_impl; [exact Hu|]. intros r. by rewrite any_spec.
    + intros (u & v & -> & Hu & Hv)%star_spec. apply glob_deep; [done| |apply Hq; [simpl; lia|done]].
      eapply list.Forall_impl; [exact Hu|]. intros r. by rewrite any_spec.
    + intros (u & v & -> & Hu & Hv)%star_spec. apply glob_star; [done| |by apply Hq].
      eapply list.Forall_impl; [exact Hu|]. intros r. by rewrite not_slash_spec.
  - rewrite compiled_one. destruct s as [|r s]; [done|]. cbn. rewrite andb_true_iff, not_slash_spec. intros [H1 H2].
    apply glob_one; auto.
  - rewrite compiled_char by done. destruct s as [|r s]; [done|]. cbn. rewrite andb_true_iff, N.eqb_eq. intros [-> H2].
    apply glob_char; auto.
Qed.

(** A path matches a pattern of a configuration exactly when the pattern means it: one
    star stands for runes other than a slash, two stars for any runes of a line, two stars
    and a slash for nothing or for anything up to a slash, a question mark for one rune
    other than a slash, and any other byte for the rune of its number. *)
Theorem glob_exact pattern path : globMatch pattern path = true ↔ glob pattern (runes path).
Proof. split; [apply (glob_complete _ _ _ (le_n _))|apply glob_sound]. Qed.

(** A pattern is read by bytes and a path by runes, so beyond ASCII a pattern does not
    match the path it spells. *)
Lemma glob_beyond_ascii : ∃ p, globMatch p p = false ∧ decode_rune p = Some (233%N, p, "").
Proof. exists (String (byte_of 195) (String (byte_of 169) "")). split; vm_compute; reflexivity. Qed.

(** Literal ASCII matches itself and nothing else. *)
Fixpoint literal_ascii (s : string) : bool :=
  match s with
  | EmptyString => true
  | String c t => (code c <? 128)%N && negb (Ascii.eqb c "*") && negb (Ascii.eqb c "?") && literal_ascii t
  end.

Lemma runes_fuel n m s : String.length s ≤ n → String.length s ≤ m → runes_from n s = runes_from m s.
Proof.
  revert m s. induction n as [|n IH]; intros [|m] [|c t]; try done; simpl; try lia. intros Hn Hm.
  destruct (code c <? 128)%N; [f_equal; apply IH; lia|].
  destruct (match t with EmptyString => None | String _ _ => _ end) as [[[r bytes] rest]|] eqn:E; [|f_equal; apply IH; lia].
  f_equal. assert (decode_rune (String c t) = Some (r, bytes, rest)) as Hd by exact E.
  enough (String.length rest ≤ String.length t) by (apply IH; lia). clear -Hd. unfold decode_rune in Hd.
  repeat case_match; simplify_eq; simpl; lia.
Qed.

Lemma runes_ascii c t : (code c <? 128)%N = true → runes (String c t) = code c :: runes t.
Proof. intros H. unfold runes. cbn [String.length runes_from]. by rewrite H. Qed.

Lemma glob_literal p s : literal_ascii p = true → glob p s ↔ s = runes p.
Proof.
  revert s. induction p as [|c p IH]; intros s H.
  - split; [by inversion 1|intros ->; constructor].
  - cbn [literal_ascii] in H. apply andb_true_iff in H as [[[H1 H2]%andb_true_iff H3]%andb_true_iff H4].
    apply negb_true_iff, Ascii.eqb_neq in H2, H3. rewrite runes_ascii by done. split.
    + inversion 1; subst; try done. f_equal. by apply IH.
    + intros ->. apply glob_char; [done..|]. by apply IH.
Qed.
