(* ===== verification/SourceScope.v ===== *)
(** * Which source set a file belongs to

    [internal/codesignalcli/sourcescope]: each selected file of a revision is labelled
    production, test-only, excluded or unknown from the Go build graph and the
    [tsconfig.json] of the same revision, and files known not to ship are split off. *)

From Stdlib Require Import Ascii.
From stdpp Require Import sorting.
From S2P Require Import Prelude GoText Paths GoOrder GoErr Json Jsonc Semantics Rules Signals Report TreeSource GitRepo Glob.

(** go: internal/codesignalcli/sourcescope/scope.go:14#Production *)
Definition Production : string := "production".
(** go: internal/codesignalcli/sourcescope/scope.go:15#TestOnly *)
Definition TestOnly : string := "test_only".
(** go: internal/codesignalcli/sourcescope/scope.go:16#Excluded *)
Definition Excluded : string := "excluded".
(** go: internal/codesignalcli/sourcescope/scope.go:17#Unknown *)
Definition Unknown : string := "unknown".

(** ** [tsconfig.go] *)

(** A nil slice or pointer is [None].

    go: internal/codesignalcli/sourcescope/tsconfig.go#tsConfig *)
Record tsConfig := mkTsConfig {
  tc_Extends : string; tc_Include : option (list string); tc_Exclude : option (list string);
  tc_Files : option (list string)
}.

Definition no_config : tsConfig := mkTsConfig "" None None None.

(** go: internal/codesignalcli/sourcescope/tsconfig.go#isTSConfigPathSpecifier *)
Definition isTSConfigPathSpecifier (extends : string) : bool :=
  HasPrefix "./" extends || HasPrefix "../" extends
  || HasPrefix ("." +:+ String ch_backslash "") extends || HasPrefix (".." +:+ String ch_backslash "") extends
  || HasPrefix "/" extends.

(** go: internal/codesignalcli/sourcescope/tsconfig.go#matchesAny *)
Definition matchesAny (path : string) (patterns : list string) : bool :=
  existsb (λ pattern, globMatch pattern path) patterns.

(** go: internal/codesignalcli/sourcescope/tsconfig.go#matchesExclude *)
Definition matchesExclude (c : tsConfig) (path : string) : bool := matchesAny path (default [] (tc_Exclude c)).

(** go: internal/codesignalcli/sourcescope/tsconfig.go#matchesInclude *)
Definition matchesInclude (c : tsConfig) (path : string) : bool :=
  if match tc_Files c with Some files => matchesAny path files | None => false end then true
  else match tc_Include c with
  | Some ((_ :: _) as include) => matchesAny path include
  | _ => match tc_Files c with None => true | Some _ => false end
  end.

(** The fields read with the raw [extends] in front of the embedded one. *)
Definition tsconfig_fields (cur : string * tsConfig) (ms : list (string * json)) : option (string * tsConfig) :=
  let '(raw, c) := cur in
  raw ← field dec_raw raw "extends" ms;
  include ← field (dec_slice "" dec_string) (tc_Include c) "include" ms;
  exclude ← field (dec_slice "" dec_string) (tc_Exclude c) "exclude" ms;
  files ← field (dec_slice "" dec_string) (tc_Files c) "files" ms;
  Some (raw, mkTsConfig "" include exclude files).

(** A pointer to a slice is read as the slice: [null] makes it nil.

    go: internal/codesignalcli/sourcescope/tsconfig.go#UnmarshalJSON *)
Definition dec_tsconfig : Decoder tsConfig := λ _ j,
  match dec_struct tsconfig_fields ("", no_config) j with
  | None => None
  | Some (raw, c) =>
      let extends := if raw == "" then "" else default "" (Unmarshal dec_string "" raw) in
      Some (mkTsConfig extends (tc_Include c) (tc_Exclude c) (tc_Files c))
  end.

(** go: internal/codesignalcli/sourcescope/tsconfig.go#rebaseTSConfigPatterns *)
Definition rebaseTSConfigPatterns (snapshotRoot baseDir : string) (patterns : option (list string)) :
    option (list string) :=
  match patterns with
  | None => None
  | Some l =>
      match RelPath snapshotRoot baseDir with
      | None => Some l
      | Some relBaseDir => Some (map (Join2 relBaseDir) l)
      end
  end.

(** ** [tsconfig_load.go], [tsconfig_extends.go] *)

(** The files of a system: what reading, resolving and looking at a path gives. *)
Class Files := {
  os_ReadFile : string → OsFailure + string;
  os_EvalSymlinks : string → error + string;
  os_IsFile : string → bool
}.

Section Load.
Context {files : Files}.

(** [None]: missing or malformed.

    go: internal/codesignalcli/sourcescope/tsconfig_load.go#readTSConfigFile *)
Definition readTSConfigFile (path : string) : error + option tsConfig :=
  match os_ReadFile path with
  | inl (_, true) => inr None
  | inl (err, false) => inl (Errorf ("reading " +:+ path +:+ ": ") err)
  | inr data => inr (Unmarshal dec_tsconfig no_config (stripJSONCComments data))
  end.

(** go: internal/codesignalcli/sourcescope/tsconfig_extends.go#resolveTSConfigExtendsTarget *)
Definition resolveTSConfigExtendsTarget (target : string) : string :=
  if HasSuffix ".json" target then target
  else if os_IsFile target then target
  else target +:+ ".json".

(** go: internal/codesignalcli/sourcescope/tsconfig_extends.go#resolveExtendedTSConfig *)
Definition resolveExtendedTSConfig (snapshotRoot dir extends : string) : option (tsConfig * string * string) :=
  if negb (isTSConfigPathSpecifier extends) then None else
  let target := if HasPrefix "/" extends then extends else Join2 dir extends in
  let target := resolveTSConfigExtendsTarget target in
  match os_EvalSymlinks snapshotRoot, os_EvalSymlinks target with
  | inr resolvedRoot, inr resolvedTarget =>
      if outside (RelPath resolvedRoot resolvedTarget) then None else
      match readTSConfigFile resolvedTarget with
      | inr (Some base) => Some (base, Dir resolvedTarget, Clean resolvedTarget)
      | _ => None
      end
  | _, _ => None
  end.

(** go: internal/codesignalcli/sourcescope/tsconfig_extends.go#applyTSConfigBase *)
Definition applyTSConfigBase (config : tsConfig) (snapshotRoot baseDir : string) (base : tsConfig) : tsConfig :=
  let rebase := rebaseTSConfigPatterns snapshotRoot baseDir in
  mkTsConfig (tc_Extends config)
    (match tc_Include config with None => rebase (tc_Include base) | own => own end)
    (match tc_Exclude config with None => rebase (tc_Exclude base) | own => own end)
    (match tc_Files config with None => rebase (tc_Files base) | own => own end).

(** The loop over the chain; the outer [None] is a chain that is not followed to its end,
    the inner one a chain that is given up. *)
Fixpoint extends_loop (fuel : nat) (snapshotRoot : string) (visited : gset string) (config : tsConfig)
    (currentDir extends : string) : option (option tsConfig) :=
  if extends == "" then Some (Some config) else
  match fuel with
  | O => None
  | S fuel =>
      match resolveExtendedTSConfig snapshotRoot currentDir extends with
      | None => Some None
      | Some (base, baseDir, basePath) =>
          if decide (basePath ∈ visited) then Some None
          else extends_loop fuel snapshotRoot ({[basePath]} ∪ visited)
                 (applyTSConfigBase config snapshotRoot baseDir base) baseDir (tc_Extends base)
      end
  end.

(** go: internal/codesignalcli/sourcescope/tsconfig_load.go#loadTSConfig *)
Definition loadTSConfig (fuel : nat) (dir : string) : option (error + option tsConfig) :=
  let path := Join2 dir "tsconfig.json" in
  match readTSConfigFile path with
  | inl err => Some (inl err)
  | inr None => Some (inr None)
  | inr (Some config) =>
      if tc_Extends config == "" then Some (inr (Some config)) else
      match os_EvalSymlinks dir with
      | inl _ => Some (inr None)
      | inr resolvedDir =>
          option_map inr (extends_loop fuel resolvedDir {[Clean path]} config dir (tc_Extends config))
      end
  end.

End Load.

(** ** [go_build_target.go], [go_production_files.go] *)

(** The system the classification runs on: git, the Go command, and what unpacking an
    archive meets. *)
Class Host := {
  host_git :: Git;
  host_files :: Files;
  host_command : string → list string → ProcessResult;
  host_perform : list FsOp → FsOp → option error;
  host_tar : string → list TarEntry * option error;
  host_MkdirTemp : error + string
}.

Section Scope.
Context {table : IsPrint} {host : Host}.

(** Only [go] is run.

    go: internal/codesignalcli/sourcescope/go_build_target.go#runCommand *)
Definition runCommand (dir : string) (args : list string) : error + string :=
  let r := host_command dir args in
  match ps_Err r with
  | Some err => inl (gitWaitError err (ps_Stderr r))
  | None => inr (ps_Stdout r)
  end.

(** go: internal/codesignalcli/sourcescope/go_build_target.go#snapshotBuildTarget *)
Definition snapshotBuildTarget (target repositoryRoot invocationDir snapshotDir : string) : error + string :=
  match os_EvalSymlinks invocationDir with
  | inl err => inl (Errorf "resolving invocation directory: " err)
  | inr resolvedInvocationDir =>
      if HasPrefix "/" target then
        match os_EvalSymlinks target with
        | inl err => inl (Errorf "resolving build target: " err)
        | inr resolvedTarget =>
            match RelPath repositoryRoot resolvedTarget with
            | Some rel =>
                if outside (Some rel)
                then inl (errors_New ("build target " +:+ quoted target +:+ " is outside the repository"))
                else inr (Join2 snapshotDir rel)
            | None => inl (errors_New ("build target " +:+ quoted target +:+ " is outside the repository"))
            end
        end
      else if negb (HasPrefix "." target) then inr target
      else match RelPath repositoryRoot resolvedInvocationDir with
      | None => inl (errors_New ("resolving build target: Rel: can't make " +:+ resolvedInvocationDir
                                 +:+ " relative to " +:+ repositoryRoot))
      | Some relDir => inr (Join2 (Join2 snapshotDir relDir) target)
      end
  end.

(** The package of one entry of [go list -json]: its directory, its Go and cgo files. *)
Definition listed_package : Type := string * option (list string) * option (list string).

Definition package_fields (cur : listed_package) (ms : list (string * json)) : option listed_package :=
  let '(dir, goFiles, cgoFiles) := cur in
  dir ← field dec_string dir "Dir" ms;
  goFiles ← field (dec_slice "" dec_string) goFiles "GoFiles" ms;
  cgoFiles ← field (dec_slice "" dec_string) cgoFiles "CgoFiles" ms;
  Some (dir, goFiles, cgoFiles).

Definition decode_failed : error := errors_New "decoding go list output: malformed".

(** go: internal/codesignalcli/sourcescope/go_production_files.go#add *)
Definition add_listed (root dir : string) (l : gset string) (name : string) : gset string :=
  match RelPath root (Join2 dir name) with
  | Some path => if HasPrefix "../" path then l else {[path]} ∪ l
  | None => l
  end.

(** The stream of [json.Decoder]: a value at a time until the end, or a closing bracket
    outside any value.  The text of a decoding error is not modelled. *)
Fixpoint decode_listed (fuel : nat) (root : string) (l : gset string) (output : string) : error + gset string :=
  let s := skip_ws output in
  match fuel, s with
  | _, EmptyString => inr l
  | O, _ => inl decode_failed
  | S fuel, String c _ =>
      if (code c =? 93)%N || (code c =? 125)%N then inr l else
      match scan_value (S (2 * String.length s)) 0 s with
      | None => inl decode_failed
      | Some (j, rest) =>
          match dec_struct package_fields ("", None, None) j with
          | None => inl decode_failed
          | Some (dir, goFiles, cgoFiles) =>
              decode_listed fuel root
                (fold_left (add_listed root dir) (default [] goFiles ++ default [] cgoFiles) l) rest
          end
      end
  end.

(** Without a build target the map is nil, in which no path is found.

    go: internal/codesignalcli/sourcescope/go_production_files.go#goProductionFiles *)
Definition goProductionFiles (snapshotDir repositoryRoot invocationDir buildTarget : string) : error + gset string :=
  if buildTarget == "" then inr ∅ else
  match snapshotBuildTarget buildTarget repositoryRoot invocationDir snapshotDir with
  | inl err => inl err
  | inr target =>
      match runCommand snapshotDir ["list"; "-deps"; "-json"; target] with
      | inl err => inl (Errorf ("determining Go production files for " +:+ quoted buildTarget +:+ ": ") err)
      | inr output => decode_listed (String.length output) snapshotDir ∅ output
      end
  end.

(** ** [file_classification.go], [snapshot_classification.go] *)

(** [hasTSConfig] and the configuration are one value.

    go: internal/codesignalcli/sourcescope/file_classification.go#classifySourceFile *)
Definition classifySourceFile (file : SelectedFile) (goProduction : gset string) (buildTarget : string)
    (config : option tsConfig) : string :=
  if sf_Language file == LanguageGo then
    if bool_decide (sf_Path file ∈ goProduction) then Production
    else if HasSuffix "_test.go" (sf_Path file) then TestOnly
    else if buildTarget == "" then Unknown else Excluded
  else if (sf_Language file == LanguageTypeScript) || (sf_Language file == LanguageTSX) then
    match config with
    | None => Unknown
    | Some config =>
        if matchesExclude config (sf_Path file) || negb (matchesInclude config (sf_Path file)) then TestOnly
        else Production
    end
  else Unknown.

(** go: internal/codesignalcli/sourcescope/snapshot_classification.go#classifyFilename *)
Definition classifyFilename (file : SelectedFile) : string :=
  if HasSuffix "_test.go" (sf_Path file) then TestOnly else Unknown.

Definition with_scope (file : SelectedFile) (scope : string) : SelectedFile :=
  mkSelectedFile (sf_Path file) (sf_Status file) (sf_Language file) scope.

(** [None] only when the chain of configurations is longer than the fuel.

    go: internal/codesignalcli/sourcescope/snapshot_classification.go#classifySourceFiles *)
Definition classifySourceFiles (fuel : nat) (dir headSHA buildTarget scope : string) (files : list SelectedFile) :
    option (error + list SelectedFile) :=
  if scope == "all" then Some (inr (map (λ file, with_scope file (classifyFilename file)) files)) else
  match RepositoryRoot os_EvalSymlinks dir with
  | inl err => Some (inl err)
  | inr repositoryRoot =>
      match (ExtractRevision host_perform host_tar host_MkdirTemp repositoryRoot headSHA).1 with
      | inl err => Some (inl err)
      | inr snapshotDir =>
          match goProductionFiles snapshotDir repositoryRoot dir buildTarget with
          | inl err => Some (inl err)
          | inr goProduction =>
              match loadTSConfig fuel snapshotDir with
              | None => None
              | Some (inl err) => Some (inl err)
              | Some (inr config) =>
                  Some (inr (map (λ file, with_scope file (classifySourceFile file goProduction buildTarget config)) files))
              end
          end
      end
  end.

(** ** [scope.go] *)

Definition group_key : Type := string * string.

Definition file_key (file : SelectedFile) : group_key := (sf_SourceScope file, sf_Language file).

Definition ships (file : SelectedFile) : bool :=
  negb ((sf_SourceScope file == TestOnly) || (sf_SourceScope file == Excluded)).

(** One turn of the loop: the kept files and the counts. *)
Definition tally_file (s : list SelectedFile * gmap group_key Z) (file : SelectedFile) :
    list SelectedFile * gmap group_key Z :=
  if ships file then (s.1 ++ [file], s.2) else (s.1, incr (file_key file) s.2).

Definition key_less (a b : group_key) : bool :=
  if a.1 != b.1 then str_less a.1 b.1 else str_less a.2 b.2.

(** go: internal/codesignalcli/sourcescope/scope.go#tallyClassified *)
Definition tallyClassified (classified : list SelectedFile) : list SelectedFile * list CoverageGroup :=
  let '(kept, counts) := fold_left tally_file classified ([], ∅) in
  let keys := stable_sort key_less (map fst (map_to_list counts)) in
  (kept, map (λ key : group_key, mkCoverageGroup key.1 key.2 (default 0%Z (counts !! key))) keys).

(** The two callers differ in the revision they pass.

    go: internal/codesignalcli/sourcescope/scope.go#Apply *)
Definition Apply (fuel : nat) (dir headSHA buildTarget scope : string) (files : list SelectedFile) :
    option (error + list SelectedFile * list CoverageGroup) :=
  match classifySourceFiles fuel dir headSHA buildTarget scope files with
  | None => None
  | Some (inl err) => Some (inl err)
  | Some (inr classified) => Some (inr (if scope == "all" then (classified, []) else tallyClassified classified))
  end.

(** go: internal/codesignalcli/sourcescope/scope.go#ApplyBaseline *)
Definition ApplyBaseline (fuel : nat) (dir revisionSHA buildTarget scope : string) (files : list SelectedFile) :
    option (error + list SelectedFile * list CoverageGroup) :=
  match classifySourceFiles fuel dir revisionSHA buildTarget scope files with
  | None => None
  | Some (inl err) => Some (inl err)
  | Some (inr classified) => Some (inr (if scope == "all" then (classified, []) else tallyClassified classified))
  end.

End Scope.

(** ** Nothing is lost *)

#[export] Instance key_less_strict_weak : StrictWeak key_less.
Proof. lex_strict_weak [fst : group_key → string; snd : group_key → string]. Qed.

Definition left_out_key (file : SelectedFile) : option group_key := if ships file then None else Some (file_key file).

Lemma tally_all files kept m :
  fold_left tally_file files (kept, m) = (kept ++ List.filter ships files, count_keys (omap left_out_key files) m).
Proof.
  revert kept m. induction files as [|file files IH]; intros kept m; [by rewrite app_nil_r|].
  cbn [fold_left List.filter]. rewrite omap_head. unfold tally_file at 2, left_out_key at 1.
  destruct (ships file); cbn [fst snd]; rewrite IH; [|done]. by rewrite <- app_assoc.
Qed.

Definition group_of (g : CoverageGroup) : group_key := (cg_Reason g, cg_Language g).

(** Groups in strict order, one per key that occurs, each with its count. *)
Definition groups_of (keys : list group_key) (groups : list CoverageGroup) : Prop :=
  StronglySorted (not_after key_less) (map group_of groups) ∧ NoDup (map group_of groups)
  ∧ (∀ k, k ∈ map group_of groups ↔ k ∈ keys)
  ∧ Forall (λ g, cg_Count g = occurrences (group_of g) keys) groups.

Lemma tally_exact files :
  (tallyClassified files).1 = List.filter ships files
  ∧ groups_of (omap left_out_key files) (tallyClassified files).2.
Proof.
  unfold tallyClassified. rewrite tally_all. cbn [app fst snd]. split; [done|].
  destruct (sorted_keys key_less (omap left_out_key files)) as (Hs & Hn & Hx). cbn in Hs, Hn, Hx.
  unfold groups_of. rewrite map_map. rewrite (map_ext _ (λ x, x)) by (by intros [a b]). rewrite map_id.
  split; [done|]. split; [done|]. split; [done|]. apply List.Forall_map, list.Forall_forall. intros [a b] _. cbn.
  apply count_keys_empty.
Qed.

(** The counts of all keys make up the length. *)
Lemma occurrences_total (keys distinct : list group_key) : NoDup distinct → (∀ k, k ∈ keys → k ∈ distinct) →
  foldr (λ k n, (occurrences k keys + n)%Z) 0%Z distinct = zlen keys.
Proof.
  intros Hn Hk. pose proof (concat_classes id distinct keys Hn) as H.
  assert (concat (map (λ k, List.filter (λ x, bool_decide (id x = k)) keys) distinct) ≡ₚ keys) as Hp
    by (apply H; intros x Hx; apply Hk; by apply list_elem_of_In).
  unfold zlen at 1. rewrite <- (Permutation_length Hp). clear H Hp Hn Hk.
  induction distinct as [|k distinct IH]; [done|]. cbn [foldr map concat]. rewrite length_app, IH.
  unfold occurrences, zlen, id. lia.
Qed.

Lemma groups_total keys groups : groups_of keys groups → foldr (λ g n, (cg_Count g + n)%Z) 0%Z groups = zlen keys.
Proof.
  intros (_ & Hn & Hk & Hc). rewrite <- (occurrences_total keys (map group_of groups)); [|done|intros k; apply Hk].
  clear Hn Hk. induction Hc as [|g groups Hg _ IH]; [done|]. cbn. by rewrite Hg, IH.
Qed.

Lemma split_total files : (zlen (List.filter ships files) + zlen (omap left_out_key files))%Z = zlen files.
Proof.
  unfold zlen. induction files as [|file files IH]; [done|]. rewrite omap_head. unfold left_out_key at 1. cbn [List.filter].
  destruct (ships file); [change (list.option_list None ++ ?l) with l|change (list.option_list (Some ?k) ++ ?l) with (k :: l)];
    cbn [length]; lia.
Qed.

Section ScopeProofs.
Context {table : IsPrint} {host : Host}.

(** How the files of a revision are labelled, when nothing failed: by name alone for the
    scope [all], otherwise from the snapshot's production files and configuration. *)
Definition labelled (buildTarget scope : string) (goProduction : gset string) (config : option tsConfig)
    (file : SelectedFile) : SelectedFile :=
  with_scope file (if scope == "all" then classifyFilename file
                   else classifySourceFile file goProduction buildTarget config).

Lemma classify_labels fuel dir sha buildTarget scope files classified :
  classifySourceFiles fuel dir sha buildTarget scope files = Some (inr classified) →
  ∃ goProduction config, classified = map (labelled buildTarget scope goProduction config) files.
Proof.
  unfold classifySourceFiles, labelled. destruct (scope == "all"); [intros [= <-]; by exists ∅, None|].
  destruct (RepositoryRoot _ _) as [|root]; [done|]. destruct (ExtractRevision _ _ _ _ _).1 as [|snap]; [done|].
  destruct (goProductionFiles _ _ _ _) as [|gp]; [done|]. destruct (loadTSConfig _ _) as [[|config]|]; try done.
  intros [= <-]. by exists gp, config.
Qed.


(** The labels, case by case. *)
Lemma classify_cases file goProduction buildTarget config label :
  classifySourceFile file goProduction buildTarget config = label →
  (label = Production ↔
     (sf_Language file = LanguageGo ∧ sf_Path file ∈ goProduction)
     ∨ ((sf_Language file = LanguageTypeScript ∨ sf_Language file = LanguageTSX)
        ∧ ∃ c, config = Some c ∧ matchesExclude c (sf_Path file) = false ∧ matchesInclude c (sf_Path file) = true))
  ∧ (label = Excluded → sf_Language file = LanguageGo ∧ buildTarget ≠ "")
  ∧ (config = None → sf_Language file ≠ LanguageGo → label = Unknown).
Proof.
  unfold classifySourceFile. intros <-.
  destruct (String.eqb_spec (sf_Language file) LanguageGo) as [->|Hgo].
  { case_bool_decide as Hp; [split; [split; [by left|done]|done]|].
    destruct (HasSuffix _ _); [split; [split; [done|intros [[_ ?]|[[?|?] _]]; done]|done]|].
    destruct (String.eqb_spec buildTarget ""); (split; [split; [done|intros [[_ ?]|[[?|?] _]]; done]|done]). }
  assert (∀ P : Prop, (sf_Language file = LanguageTypeScript ∨ sf_Language file = LanguageTSX) ∧ P ↔
    (sf_Language file == LanguageTypeScript) || (sf_Language file == LanguageTSX) = true ∧ P) as Hts
    by (intros P; by rewrite orb_true_iff, !String.eqb_eq).
  rewrite Hts. destruct (_ || _); [|split; [split; [done|intros [[? _]|[? _]]; done]|done]].
  destruct config as [c|]; [|split; [split; [done|intros [[? _]|(_ & ? & ? & _)]; done]|done]].
  destruct (matchesExclude c _) eqn:Ee, (matchesInclude c _) eqn:Ei; cbn [orb negb]; (split; [split|done]); try done;
    try (intros [[? _]|(_ & ? & [= <-] & ? & ?)]; congruence).
  intros _. right. split; [done|]. by exists c.
Qed.

End ScopeProofs.

(** ** Chains of configurations *)

Section Chains.
Context {files : Files}.

Lemma resolve_inv root dir extends base baseDir basePath :
  resolveExtendedTSConfig root dir extends = Some (base, baseDir, basePath) →
  ∃ target resolvedRoot data, os_EvalSymlinks root = inr resolvedRoot
    ∧ outside (RelPath resolvedRoot target) = false ∧ os_ReadFile target = inr data
    ∧ baseDir = Dir target ∧ basePath = Clean target.
Proof.
  unfold resolveExtendedTSConfig. destruct (negb _); [done|].
  destruct (os_EvalSymlinks root) as [|resolvedRoot]; [done|].
  destruct (os_EvalSymlinks _) as [|target]; [done|]. destruct (outside _) eqn:Eo; [done|].
  unfold readTSConfigFile. destruct (os_ReadFile target) as [[err []]|data] eqn:Er; try done.
  destruct (Unmarshal _ _ _); [|done]. intros [= <- <- <-]. exists target, resolvedRoot, data. done.
Qed.

Lemma size_set_map_le (f : string → string) (all : gset string) :
  base.size (set_map f all : gset string) ≤ base.size all.
Proof.
  induction all as [|x all Hx IH] using set_ind_L; [by rewrite set_map_empty|].
  rewrite set_map_union_L, set_map_singleton_L, size_union_alt, (size_union_alt {[x]} all), !size_singleton.
  assert (base.size ((set_map f all : gset string) ∖ {[f x]}) ≤ base.size (set_map f all : gset string))
    by (apply subseteq_size; set_solver).
  replace (all ∖ {[x]}) with all by set_solver. lia.
Qed.

(** The files that can be read. *)
Definition readable (all : gset string) : Prop := ∀ p data, os_ReadFile p = inr data → p ∈ all.

Lemma extends_loop_total all root : readable all → ∀ fuel visited config dir extends,
  base.size ((set_map Clean all : gset string) ∖ visited) < fuel →
  is_Some (extends_loop fuel root visited config dir extends).
Proof.
  intros Hall. induction fuel as [|fuel IH]; intros visited config dir extends Hf; [lia|].
  cbn [extends_loop]. destruct (extends == ""); [by eexists|].
  destruct (resolveExtendedTSConfig root dir extends) as [[[base baseDir] basePath]|] eqn:E; [|by eexists].
  destruct (decide (basePath ∈ visited)) as [|Hv]; [by eexists|]. apply IH.
  apply resolve_inv in E as (target & _ & data & _ & _ & Hr & _ & ->). apply Hall in Hr.
  enough (base.size (set_map Clean all ∖ ({[Clean target]} ∪ visited)) < base.size ((set_map Clean all : gset string) ∖ visited)) by lia.
  apply subset_size. set_solver.
Qed.

(** A chain of [extends] is followed to its end or given up.  Whatever the
    configurations of a snapshot say, also when they extend each other in a cycle, loading
    takes at most one turn per file that can be read: with more fuel than there are files
    the result is reached. *)
Theorem load_terminates all fuel dir : readable all → base.size all < fuel → is_Some (loadTSConfig fuel dir).
Proof.
  intros Hall Hf. unfold loadTSConfig. destruct (readTSConfigFile _) as [|[config|]]; [by eexists| |by eexists].
  destruct (_ == ""); [by eexists|]. destruct (os_EvalSymlinks dir) as [|root]; [by eexists|].
  destruct (extends_loop_total all root Hall fuel {[Clean (Join2 dir "tsconfig.json")]} config dir (tc_Extends config)) as [r ->];
    [|by eexists].
  assert (base.size ((set_map Clean all : gset string) ∖ {[Clean (Join2 dir "tsconfig.json")]}) ≤ base.size (set_map Clean all : gset string))
    by (apply subseteq_size; set_solver).
  pose proof (size_set_map_le Clean all). lia.
Qed.

(** *** What a chain amounts to *)

(** The configurations a chain of [extends] goes through, with their directories. *)
Inductive chain (root : string) : string → string → list (tsConfig * string) → Prop :=
  | chain_end dir : chain root dir "" []
  | chain_step dir extends base baseDir basePath l : extends ≠ "" →
      resolveExtendedTSConfig root dir extends = Some (base, baseDir, basePath) →
      chain root baseDir (tc_Extends base) l → chain root dir extends ((base, baseDir) :: l).

(** The first that is declared. *)
Definition first_declared (l : list (option (list string))) : option (list string) :=
  foldr (λ o rest, match o with Some x => Some x | None => rest end) None l.

(** A field of the configurations, each rebased to where it was declared. *)
Definition inherited (root : string) (field : tsConfig → option (list string)) (l : list (tsConfig * string)) :
    list (option (list string)) :=
  map (λ '(base, baseDir), rebaseTSConfigPatterns root baseDir (field base)) l.

Definition effective (root : string) (config : tsConfig) (l : list (tsConfig * string)) : tsConfig :=
  let all field := first_declared (field config :: inherited root field l) in
  mkTsConfig (tc_Extends config) (all tc_Include) (all tc_Exclude) (all tc_Files).

Lemma effective_step root config base baseDir l :
  effective root (applyTSConfigBase config root baseDir base) l = effective root config ((base, baseDir) :: l).
Proof.
  by destruct config as [? [] [] []].
Qed.

Lemma extends_loop_effective root : ∀ fuel visited config dir extends c,
  extends_loop fuel root visited config dir extends = Some (Some c) →
  ∃ l, chain root dir extends l ∧ c = effective root config l.
Proof.
  induction fuel as [|fuel IH]; intros visited config dir extends c; cbn [extends_loop];
    (destruct (String.eqb_spec extends "") as [->|Hne];
      [intros [= <-]; exists []; split; [constructor|by destruct config as [? [] [] []]]|]); [done|].
  destruct (resolveExtendedTSConfig root dir extends) as [[[base baseDir] basePath]|] eqn:E; [|done].
  destruct (decide _); [done|]. intros (l & Hl & ->)%IH. exists ((base, baseDir) :: l).
  split; [by econstructor|]. apply effective_step.
Qed.

(** The configuration in effect is the nearest declaration of each list.  When loading
    gives a configuration, there is the chain of the configurations it extends, each found
    from the directory of the one before, and its [include], [exclude] and [files] are the
    first that is declared along the chain, rebased to the directory of its declaration. *)
Theorem load_effective fuel dir c : loadTSConfig fuel dir = Some (inr (Some c)) →
  ∃ config, readTSConfigFile (Join2 dir "tsconfig.json") = inr (Some config)
    ∧ (tc_Extends config = "" ∧ c = config
       ∨ ∃ root l, os_EvalSymlinks dir = inr root ∧ chain root dir (tc_Extends config) l ∧ c = effective root config l).
Proof.
  unfold loadTSConfig. destruct (readTSConfigFile _) as [|[config|]]; try done. intros H. exists config. split; [done|].
  destruct (String.eqb_spec (tc_Extends config) "") as [E|]; [injection H as ->; by left|]. right.
  destruct (os_EvalSymlinks dir) as [|root]; [done|].
  destruct (extends_loop _ _ _ _ _ _) as [r|] eqn:El; [|done]. injection H as ->.
  apply extends_loop_effective in El as (l & Hl & ->). by exists root, l.
Qed.

End Chains.

(** *** What is read *)

Section Confined.
Context (before after : Files).

Definition below (root p : string) : Prop := ∃ down, segments (Clean p) = segments (Clean root) ++ down.

(** The two systems differ at most in the content of files outside a directory and other
    than the first configuration. *)
Record agree (dir : string) : Prop := {
  agree_links p : @os_EvalSymlinks before p = @os_EvalSymlinks after p;
  agree_kind p : @os_IsFile before p = @os_IsFile after p;
  agree_first : @os_ReadFile before (Join2 dir "tsconfig.json") = @os_ReadFile after (Join2 dir "tsconfig.json");
  agree_below root p : @os_EvalSymlinks before dir = inr root → below root p →
    @os_ReadFile before p = @os_ReadFile after p
}.

(** Resolved paths are absolute and resolve to themselves. *)
Class SymlinkLaws := {
  eval_rooted p q : @os_EvalSymlinks before p = inr q → HasPrefix "/" p = true → HasPrefix "/" q = true;
  eval_resolved p q : @os_EvalSymlinks before p = inr q → @os_EvalSymlinks before q = inr q
}.

Lemma resolve_agree {laws : SymlinkLaws} dir root current extends : agree dir → HasPrefix "/" dir = true →
  @os_EvalSymlinks before dir = inr root →
  @resolveExtendedTSConfig before root current extends = @resolveExtendedTSConfig after root current extends.
Proof.
  intros Hag Hd Hroot. unfold resolveExtendedTSConfig, resolveTSConfigExtendsTarget.
  destruct (negb _); [done|]. rewrite <- !(agree_links _ Hag), (eval_resolved _ _ Hroot), <- (agree_kind _ Hag).
  destruct (@os_EvalSymlinks before (if HasSuffix _ _ then _ else _)) as [|target]; [done|].
  destruct (outside (RelPath root target)) eqn:Eo; [done|].
  destruct (RelPath_inside _ _ (eval_rooted _ _ Hroot Hd) Eo) as [_ Hb].
  unfold readTSConfigFile. by rewrite (agree_below _ Hag root target Hroot Hb).
Qed.

(** C17: Following [extends] reads nothing outside the snapshot.  Apart from the snapshot's
    own [tsconfig.json], no file that resolves to a place outside the snapshot has any
    influence on the configuration: two systems that agree on the links, and on the
    content of the files below the snapshot, load the same one. *)
Theorem load_confined {laws : SymlinkLaws} fuel dir : agree dir → HasPrefix "/" dir = true →
  @loadTSConfig before fuel dir = @loadTSConfig after fuel dir.
Proof.
  intros Hag Hd. unfold loadTSConfig.
  assert (@readTSConfigFile before (Join2 dir "tsconfig.json") = @readTSConfigFile after (Join2 dir "tsconfig.json")) as <-
    by (unfold readTSConfigFile; by rewrite (agree_first _ Hag)).
  rewrite <- (agree_links _ Hag). destruct (readTSConfigFile _) as [|[config|]]; try done.
  destruct (_ == ""); [done|]. destruct (@os_EvalSymlinks before dir) as [|root] eqn:Eroot; [done|]. f_equal.
  assert (∀ config extends current visited, @extends_loop before fuel root visited config current extends
    = @extends_loop after fuel root visited config current extends) as ->; [|done].
  clear config. induction fuel as [|fuel IH]; intros config extends current visited; [done|]. cbn [extends_loop].
  destruct (extends == ""); [done|]. rewrite <- (resolve_agree dir root current extends) by done.
  destruct (resolveExtendedTSConfig _ _ _) as [[[base baseDir] basePath]|]; [|done].
  destruct (decide _); [done|]. apply IH.
Qed.

End Confined.

(** ** Behaviour to know of *)

(** A configuration that includes a directory by name, as TypeScript allows, matches none
    of the files in it: they are labelled test-only, and left out. *)
Lemma directory_include_is_test_only :
  let config := mkTsConfig "" (Some ["src"]) None None in
  classifySourceFile (mkSelectedFile "src/app.ts" "modified" "typescript" "") ∅ "" (Some config) = TestOnly.
Proof. vm_compute. reflexivity. Qed.

(** The first configuration is read whatever it resolves to: without an [extends] no link
    is looked at. *)
Lemma first_config_unchecked (fs : Files) (links : string → error + string) fuel dir config :
  @readTSConfigFile fs (Join2 dir "tsconfig.json") = inr (Some config) → tc_Extends config = "" →
  @loadTSConfig (Build_Files os_ReadFile links os_IsFile) fuel dir = Some (inr (Some config)).
Proof. intros E Ee. unfold loadTSConfig. change (@readTSConfigFile (Build_Files _ _ _)) with (@readTSConfigFile fs). rewrite E. by rewrite Ee. Qed.

(** ** Examples *)

Module ScopeExample.

#[local] Instance table : IsPrint := ascii_table.

Definition contents : list (string * string) := [
  ("/snap/tsconfig.json", jtext "{ 'extends': './base/common', 'include': ['src/**/*.ts',], /* mine */ }");
  ("/snap/base/common.json", jtext "{ 'exclude': ['../src/**/*.test.ts'], 'include': ['lib'] } // shared");
  ("/host/secret", "[")].

Definition not_there : OsFailure := (errors_New "no such file", true).

Definition read_from (all : list (string * string)) (p : string) : OsFailure + string :=
  match List.find (λ f, f.1 == p) all with Some (_, data) => inr data | None => inl not_there end.

Definition places : list string := ["/snap"; "/repo"; "/repo/cmd"; "/snap/tsconfig.json"; "/snap/base/common.json"; "/host/secret"].

Definition resolve (p : string) : error + string :=
  if existsb (String.eqb p) places then inr p else inl (errors_New "no such file").

Definition files_with (all : list (string * string)) : Files :=
  Build_Files (read_from all) resolve (λ p, existsb (λ f, f.1 == p) all).

#[local] Instance files : Files := files_with contents.

#[local] Instance links : SymlinkLaws files.
Proof.
  split.
  - intros p q. cbn. unfold resolve. destruct (existsb _ _); [|done]. by intros [= ->].
  - intros p q. cbn. unfold resolve. destruct (existsb (String.eqb p) places) eqn:E; [|done]. intros [= <-]. by rewrite E.
Defined.

Definition readable_paths : gset string := list_to_set (map fst contents).

Lemma contents_readable : readable readable_paths.
Proof.
  intros p data. change (os_ReadFile p) with (read_from contents p). unfold read_from, readable_paths.
  destruct (List.find _ _) as [[f d]|] eqn:E; [|done]. intros _.
  apply find_some in E as [Hin Ep]. apply String.eqb_eq in Ep. cbn in Ep. subst f.
  apply elem_of_list_to_set, list_elem_of_In, in_map_iff. by exists (p, d).
Qed.

Lemma load_terminates_witness :
  is_Some (loadTSConfig 4 "/snap") ∧ loadTSConfig 4 "/snap" = Some (inr (Some
    (mkTsConfig "./base/common" (Some ["src/**/*.ts"]) (Some ["src/**/*.test.ts"]) None))).
Proof.
  split; [|vm_compute; reflexivity]. apply (load_terminates readable_paths 4 "/snap" contents_readable).
  apply (bool_decide_unpack (base.size readable_paths < 4)). vm_compute. exact I.
Defined.

Lemma load_effective_witness : ∃ config, readTSConfigFile "/snap/tsconfig.json" = inr (Some config)
  ∧ tc_Include config = Some ["src/**/*.ts"] ∧ tc_Exclude config = None.
Proof.
  assert (loadTSConfig 4 "/snap" = Some (inr (Some
    (mkTsConfig "./base/common" (Some ["src/**/*.ts"]) (Some ["src/**/*.test.ts"]) None)))) as H by (vm_compute; reflexivity).
  destruct (load_effective _ _ _ H) as (config & E & _).
  change (Join2 "/snap" "tsconfig.json") with "/snap/tsconfig.json" in E.
  exists config. split; [exact E|]. clear H. vm_compute in E. injection E as <-. split; reflexivity.
Defined.

(** The same tree on a host where the file outside holds something else. *)
Definition other_files : Files := files_with (take 2 contents ++ [("/host/secret", "{}")]).

Lemma systems_agree : agree files other_files "/snap".
Proof.
  split; try done.
  intros root p. cbn. intros [= <-] (down & E). unfold read_from. cbn [contents take app List.find fst].
  destruct ("/snap/tsconfig.json" == p); [done|]. destruct ("/snap/base/common.json" == p); [done|].
  destruct (String.eqb_spec "/host/secret" p) as [<-|]; [|done]. by vm_compute in E.
Qed.

Lemma load_confined_witness : agree files other_files "/snap" ∧ @loadTSConfig files 4 "/snap" = @loadTSConfig other_files 4 "/snap".
Proof. split; [exact systems_agree|]. apply (load_confined files other_files 4 "/snap" systems_agree). reflexivity. Defined.

#[local] Instance host : Host := {|
  host_git := λ _ args, mkProcessResult None (if decide (List.hd "" args = "archive") then "tar" else "/repo" +:+ newline) "";
  host_files := files;
  host_command := λ _ _, mkProcessResult None
    (jtext "{'Dir': '/snap/cmd', 'GoFiles': ['main.go']} {'Dir': '/go/src/fmt', 'GoFiles': ['print.go']}") "";
  host_perform := λ _ _, None; host_tar := λ _, ([], None); host_MkdirTemp := inr "/snap" |}.

Definition selected : list SelectedFile :=
  map (λ '(p, l), mkSelectedFile p "modified" l "") [
    ("cmd/main.go", "go"); ("cmd/main_test.go", "go"); ("cmd/old.go", "go"); ("src/a.ts", "typescript");
    ("src/a.test.ts", "typescript")].


End ScopeExample.
