(* ===== verification/ProjectConfig.v ===== *)
(** * Project policy documents

    [internal/codesignalcli/projectconfig]: the strict reading and validation of a
    repository's policy document, its bounded reading at a revision, and which document a
    revision has.  [parse_exact] says what is accepted, [overlap_pairs] that the sorted
    scan for overlapping prefixes finds what comparing all pairs would. *)

From Stdlib Require Import Ascii.
From stdpp Require Import sorting.
From S2P Require Import Prelude GoText Paths GoOrder GoHash GoErr Json JobParams SignalWire GitRepo.

(** ** [config.go] *)

(** go: internal/codesignalcli/projectconfig/config.go:17#MaxBytes *)
Definition MaxBytes : Z := 2 ^ 20.
(** go: internal/codesignalcli/projectconfig/config.go:18#maxJSONDepth *)
Definition maxJSONDepth : nat := 32.
(** go: internal/codesignalcli/projectconfig/config.go:19#MaxGitStderr *)
Definition MaxGitStderr : Z := 64 * 2 ^ 10.
(** go: internal/codesignalcli/projectconfig/config.go:20#GitTimeout *)
Definition GitTimeout : Duration := (30 * Second)%Z.
(** go: internal/codesignalcli/projectconfig/config.go:23#MaxLayerPrefixes *)
Definition MaxLayerPrefixes : Z := 4096.
(** go: internal/codesignalcli/projectconfig/config.go:33#MaxRoots *)
Definition MaxRoots : Z := 256.

(** go: internal/codesignalcli/projectconfig/config.go#Layer *)
Record Layer := mkLayer { ly_Name : string; ly_Prefixes : list string }.

(** go: internal/codesignalcli/projectconfig/config.go#ForbiddenImport *)
Record ForbiddenImport := mkForbidden { fi_From : string; fi_To : string }.

(** A nil list is the empty one: nothing here tells them apart.

    go: internal/codesignalcli/projectconfig/config.go#Config *)
Record Config := mkConfig {
  pc_SchemaVersion : string; pc_Roots : list string; pc_Layers : list Layer;
  pc_ForbiddenImports : list ForbiddenImport; pc_SourceSinkPack : string; pc_RequiredLayer : string;
  pc_ExcludeTypeOnlyEdges : bool
}.

(** go: internal/codesignalcli/projectconfig/config.go#Digest *)
Definition Digest (config : RawMessage) : string := "pcfg_" +:+ EncodeToString (Sum256 config).

(** go: internal/codesignalcli/projectconfig/config.go:97#CanonicalPath *)
Definition CanonicalPath : string := ".lousy-agents/coach.json".
(** go: internal/codesignalcli/projectconfig/config.go:98#DefaultPath *)
Definition DefaultPath : string := "project.json".

(** ** [json_walk.go] *)

Section Policy.
Context {table : IsPrint} {json_errors : JsonErrors}.

Definition too_deep : error := errors_New ("document exceeds JSON nesting budget of " +:+ Itoa (Z.of_nat maxJSONDepth)).

Definition duplicate_key (key : string) : error := errors_New ("duplicate object key " +:+ quoted key).

(** The members of an object, walked with the keys seen so far.

    go: internal/codesignalcli/projectconfig/json_walk.go#walkJSONObject *)
Definition walkJSONObject (walk : json → option error) : gset string → list (string * json) → option error :=
  fix go seen ms :=
    match ms with
    | [] => None
    | (raw, v) :: ms =>
        let key := unquote raw in
        if decide (key ∈ seen) then Some (duplicate_key key)
        else match walk v with
        | Some err => Some err
        | None => go ({[key]} ∪ seen) ms
        end
    end.

(** go: internal/codesignalcli/projectconfig/json_walk.go#walkJSONArray *)
Definition walkJSONArray (walk : json → option error) : list json → option error :=
  fix go l :=
    match l with
    | [] => None
    | v :: l => match walk v with Some err => Some err | None => go l end
    end.

(** The walk over the tokens of a valid document is the walk over its tree.

    go: internal/codesignalcli/projectconfig/json_walk.go#walkJSONValue *)
Fixpoint walkJSONValue (depth : nat) (j : json) {struct j} : option error :=
  if maxJSONDepth <? depth then Some too_deep else
  match j with
  | JObject ms => walkJSONObject (walkJSONValue (S depth)) ∅ ms
  | JArray l => walkJSONArray (walkJSONValue (S depth)) l
  | _ => None
  end.

(** ** [decode.go] *)

(** A second value after the first is ruled out by [json.Valid] before.

    go: internal/codesignalcli/projectconfig/decode.go#rejectDuplicateJSONKeys *)
Definition rejectDuplicateJSONKeys (j : json) : option error := walkJSONValue 1 j.

Definition layer_fields (cur : Layer) (ms : list (string * json)) : option Layer :=
  name ← field dec_string (ly_Name cur) "name" ms;
  prefixes ← field (dec_list "" dec_string) (ly_Prefixes cur) "prefixes" ms;
  Some (mkLayer name prefixes).

Definition forbidden_fields (cur : ForbiddenImport) (ms : list (string * json)) : option ForbiddenImport :=
  from ← field dec_string (fi_From cur) "from" ms;
  to ← field dec_string (fi_To cur) "to" ms;
  Some (mkForbidden from to).

Definition config_fields (cur : Config) (ms : list (string * json)) : option Config :=
  version ← field dec_string (pc_SchemaVersion cur) "schema_version" ms;
  roots ← field (dec_list "" dec_string) (pc_Roots cur) "roots" ms;
  layers ← field (dec_list (mkLayer "" []) (dec_struct_strict ["name"; "prefixes"] layer_fields))
             (pc_Layers cur) "layers" ms;
  forbidden ← field (dec_list (mkForbidden "" "") (dec_struct_strict ["from"; "to"] forbidden_fields))
             (pc_ForbiddenImports cur) "forbidden_imports" ms;
  pack ← field dec_string (pc_SourceSinkPack cur) "source_sink_pack" ms;
  required ← field dec_string (pc_RequiredLayer cur) "required_layer" ms;
  exclude ← field dec_bool (pc_ExcludeTypeOnlyEdges cur) "exclude_type_only_edges" ms;
  Some (mkConfig version roots layers forbidden pack required exclude).

Definition config_names : list string :=
  ["schema_version"; "roots"; "layers"; "forbidden_imports"; "source_sink_pack"; "required_layer"; "exclude_type_only_edges"].

Definition dec_config : Decoder Config := dec_struct_strict config_names config_fields.

Definition no_config : Config := mkConfig "" [] [] [] "" "" false.

(** go: internal/codesignalcli/projectconfig/decode.go#decode *)
Definition decode (data : string) : error + Config :=
  if (MaxBytes <? Z.of_nat (String.length data))%Z
  then inl (errors_New ("document exceeds " +:+ Itoa MaxBytes +:+ "-byte size budget"))
  else match parse data with
  | None => inl (errors_New "document is not valid JSON")
  | Some j =>
      match rejectDuplicateJSONKeys j with
      | Some err => inl err
      | None =>
          match Decode dec_config no_config data with
          | None => inl (errors_New ("schema decode failed: " +:+ json_error_text "projectconfig.Config" data))
          | Some config =>
              if pc_SchemaVersion config != "1"
              then inl (errors_New ("schema_version must be " +:+ dq +:+ "1" +:+ dq))
              else inr config
          end
      end
  end.

(** ** [validate_roots.go] *)

(** go: internal/codesignalcli/projectconfig/validate_roots.go#ValidateDirectory *)
Definition ValidateDirectory (value : string) : option error :=
  if (value == "") || HasPrefix "/" value then Some (errors_New "must be a non-empty repository-relative path") else
  let clean := Clean value in
  if (clean != value) || (clean == "..") || HasPrefix "../" clean || Contains (String ch_backslash "") value
  then Some (errors_New "must be a normalized repository-relative path")
  else None.

(** go: internal/codesignalcli/projectconfig/validate_roots.go#hasDuplicatePaths *)
Definition hasDuplicatePaths (paths : list string) : bool :=
  (fix go (seen : gset string) (paths : list string) :=
     match paths with
     | [] => false
     | p :: paths => if decide (p ∈ seen) then true else go ({[p]} ∪ seen) paths
     end) ∅ paths.

(** The first element a check rejects, with its error. *)
Fixpoint first_rejected {A} (check : A → option error) (l : list A) : option (A * error) :=
  match l with
  | [] => None
  | x :: l => match check x with Some err => Some (x, err) | None => first_rejected check l end
  end.

(** go: internal/codesignalcli/projectconfig/validate_roots.go#validateRoots *)
Definition validateRoots (roots : list string) : option error :=
  if (zlen roots =? 0)%Z then Some (errors_New "roots must contain at least one repository-relative directory")
  else if (MaxRoots <? zlen roots)%Z then Some (errors_New ("roots exceed budget of " +:+ Itoa MaxRoots +:+ " entries"))
  else match first_rejected ValidateDirectory roots with
  | Some (root, err) => Some (errors_New ("root " +:+ quoted root +:+ ": " +:+ err_Error err))
  | None => if hasDuplicatePaths roots then Some (errors_New "roots must be unique") else None
  end.

(** ** [layer_prefix_overlap.go] *)

Fixpoint adjacent_prefix (sorted : list string) : bool :=
  match sorted with
  | a :: (b :: _) as rest => HasPrefix a b || adjacent_prefix rest
  | _ => false
  end.

(** go: internal/codesignalcli/projectconfig/layer_prefix_overlap.go#HasDuplicateOrOverlappingPaths *)
Definition HasDuplicateOrOverlappingPaths (paths : list string) : bool :=
  if (zlen paths <? 2)%Z then false
  else if existsb (λ path, path == ".") paths then true
  else adjacent_prefix (sort_strings (map (λ path, path +:+ "/") paths)).

(** ** [validate_layers.go] *)

(** go: internal/codesignalcli/projectconfig/validate_layers.go#collectLayerPrefixes *)
Definition collectLayerPrefixes (layer : Layer) : error + list string :=
  match ly_Prefixes layer with
  | [] => inl (errors_New ("layer " +:+ quoted (ly_Name layer) +:+ " must contain at least one prefix"))
  | prefixes =>
      match first_rejected ValidateDirectory prefixes with
      | Some (prefix, err) =>
          inl (errors_New ("layer " +:+ quoted (ly_Name layer) +:+ " prefix " +:+ quoted prefix +:+ ": " +:+ err_Error err))
      | None => inr prefixes
      end
  end.

(** The loop: the names seen and the prefixes collected. *)
Fixpoint collect_layers (seen : gset string) (all : list string) (layers : list Layer) :
    error + gset string * list string :=
  match layers with
  | [] => inr (seen, all)
  | layer :: layers =>
      if ly_Name layer == "" then inl (errors_New "layer name must be non-empty")
      else if decide (ly_Name layer ∈ seen) then inl (errors_New "layer names must be unique")
      else match collectLayerPrefixes layer with
      | inl err => inl err
      | inr prefixes => collect_layers ({[ly_Name layer]} ∪ seen) (all ++ prefixes) layers
      end
  end.

(** go: internal/codesignalcli/projectconfig/validate_layers.go#validateLayers *)
Definition validateLayers (layers : list Layer) : error + gset string :=
  match collect_layers ∅ [] layers with
  | inl err => inl err
  | inr (seenLayerNames, allPrefixes) =>
      if (MaxLayerPrefixes <? zlen allPrefixes)%Z
      then inl (errors_New ("layer prefixes exceed budget of " +:+ Itoa MaxLayerPrefixes +:+ " entries"))
      else if HasDuplicateOrOverlappingPaths allPrefixes
      then inl (errors_New "layer prefixes must be unique and non-overlapping")
      else inr seenLayerNames
  end.

(** ** [validate_layer_references.go] *)

Definition forbidden_key (f : ForbiddenImport) : string := fi_From f +:+ String nul (fi_To f).

Definition undefined_layer (what name : string) : error :=
  errors_New (what +:+ " references undefined layer " +:+ quoted name).

Fixpoint check_forbidden (names seen : gset string) (l : list ForbiddenImport) : option error :=
  match l with
  | [] => None
  | f :: l =>
      if (fi_From f == "") || (fi_To f == "")
      then Some (errors_New "forbidden_imports entries require non-empty from and to")
      else if decide (fi_From f ∉ names) then Some (undefined_layer "forbidden_imports entry" (fi_From f))
      else if decide (fi_To f ∉ names) then Some (undefined_layer "forbidden_imports entry" (fi_To f))
      else if decide (forbidden_key f ∈ seen) then Some (errors_New "forbidden_imports entries must be unique")
      else check_forbidden names ({[forbidden_key f]} ∪ seen) l
  end.

(** go: internal/codesignalcli/projectconfig/validate_layer_references.go#validateForbiddenImports *)
Definition validateForbiddenImports (forbiddenImports : list ForbiddenImport) (seenLayerNames : gset string) :
    option error := check_forbidden seenLayerNames ∅ forbiddenImports.

(** go: internal/codesignalcli/projectconfig/validate_layer_references.go#validateLayerReferences *)
Definition validateLayerReferences (config : Config) (seenLayerNames : gset string) : option error :=
  if (pc_SourceSinkPack config != "") && (pc_SourceSinkPack config != "builtin-v1")
  then Some (errors_New ("source_sink_pack must be " +:+ dq +:+ "builtin-v1" +:+ dq +:+ " when supplied"))
  else if (pc_RequiredLayer config != "") && bool_decide (pc_RequiredLayer config ∉ seenLayerNames)
  then Some (undefined_layer "required_layer" (pc_RequiredLayer config))
  else None.

(** go: internal/codesignalcli/projectconfig/config.go#Parse *)
Definition Parse (data : string) : error + Config :=
  match decode data with
  | inl err => inl err
  | inr config =>
      match validateRoots (pc_Roots config) with
      | Some err => inl err
      | None =>
          match validateLayers (pc_Layers config) with
          | inl err => inl err
          | inr seenLayerNames =>
              match validateForbiddenImports (pc_ForbiddenImports config) seenLayerNames with
              | Some err => inl err
              | None =>
                  match validateLayerReferences config seenLayerNames with
                  | Some err => inl err
                  | None => inr config
                  end
              end
          end
      end
  end.

(** go: internal/codesignalcli/projectconfig/config.go#validateJSON *)
Definition validateJSON (data : string) : option error :=
  match Parse data with inl err => Some err | inr _ => None end.

(** ** [errors.go] *)

(** go: internal/codesignalcli/projectconfig/errors.go:17-39#ErrorKind *)
Inductive ErrorKind := KindUnset | KindNotFound | KindInvalid | KindUncommitted | KindUnreadable.

(** go: internal/codesignalcli/projectconfig/errors.go#ConfigError *)
Record ConfigError := mkConfigError { ce_Message : string; ce_Kind : ErrorKind }.

Context (worktree : string → bool).

(** [worktree] tells whether [os.Stat] succeeds.

    go: internal/codesignalcli/projectconfig/errors.go#configExistsInWorktree *)
Definition configExistsInWorktree (dir repoPath : string) : bool := worktree (Join2 dir repoPath).

Definition about_config (repoPath middle revision rest : string) : string :=
  "coach codesignal: --project-config " +:+ quoted repoPath +:+ middle +:+ quoted revision
  +:+ " (project_config_invalid)" +:+ rest.

(** go: internal/codesignalcli/projectconfig/errors.go#readError *)
Definition readError (dir revision repoPath : string) (gitErr : BoundedFailure) : ConfigError :=
  match gitErr with
  | BoundError _ message =>
      mkConfigError (about_config repoPath " is not readable at revision " revision (": " +:+ message)) KindUnreadable
  | OtherFailure _ =>
      if configExistsInWorktree dir repoPath then
        mkConfigError (about_config repoPath " exists in the worktree but is not committed at revision " revision
          ": commit the file so it is readable at the analyzed revision") KindUncommitted
      else mkConfigError (about_config repoPath " was not found at revision " revision "") KindNotFound
  end.

(** go: internal/codesignalcli/projectconfig/errors.go#invalidError *)
Definition invalidError (repoPath revision reason : string) : ConfigError :=
  mkConfigError (about_config repoPath " is invalid at revision " revision (": " +:+ reason)) KindInvalid.

(** ** [load.go] *)

(** go: internal/codesignalcli/projectconfig/load.go#ValidatePath *)
Definition ValidatePath (repoPath : string) : option error :=
  if (repoPath == "") || HasPrefix "/" repoPath
  then Some (errors_New "path must be a non-empty repository-relative path") else
  let clean := Clean repoPath in
  if (clean != repoPath) || (clean == ".") || (clean == "..") || HasPrefix "../" clean
  then Some (errors_New "path must be normalized and remain inside the repository")
  else if Contains (String ch_backslash "") repoPath
  then Some (errors_New "path must use repository-relative slash separators")
  else None.

Context {git : BoundedGit}.

(** go: internal/codesignalcli/projectconfig/load.go:15-17#runProjectConfigGit *)
Definition runProjectConfigGit (dir : string) (args : list string) : BoundedFailure + string :=
  RunBytesBounded dir MaxBytes MaxGitStderr GitTimeout args.

(** A failure is a rejected configuration or a failed environment. *)
Inductive LoadFailure :=
  | FailConfig (err : ConfigError)
  | FailOperational (err : OperationalError)
  | FailOther (err : error).

(** go: internal/codesignalcli/projectconfig/load.go#LoadForReadiness *)
Definition LoadForReadiness (dir revision repoPath : string) : LoadFailure + Config :=
  match ValidatePath repoPath with
  | Some err => inl (FailConfig (invalidError repoPath revision (err_Error err)))
  | None =>
      match runProjectConfigGit dir ["show"; revision +:+ ":" +:+ repoPath] with
      | inl (BoundError BoundStdout message) =>
          inl (FailConfig (invalidError repoPath revision
                 ("committed content exceeds the " +:+ Itoa MaxBytes +:+ "-byte size budget: " +:+ message)))
      | inl err =>
          inl (FailOperational (operational ("coach codesignal --check-project: --project-config " +:+ quoted repoPath
                 +:+ " could not be read at revision " +:+ quoted revision +:+ ": " +:+ bounded_message err)))
      | inr data =>
          match Parse data with
          | inl err => inl (FailConfig (invalidError repoPath revision (err_Error err)))
          | inr config => inr config
          end
      end
  end.

(** go: internal/codesignalcli/projectconfig/load.go#Load *)
Definition Load (dir revision repoPath : string) : ConfigError + RawMessage :=
  match ValidatePath repoPath with
  | Some err => inl (invalidError repoPath revision (err_Error err))
  | None =>
      match runProjectConfigGit dir ["show"; revision +:+ ":" +:+ repoPath] with
      | inl err => inl (readError dir revision repoPath err)
      | inr data =>
          match validateJSON data with
          | Some err => inl (invalidError repoPath revision (err_Error err))
          | None => inr data
          end
      end
  end.

(** ** [selection.go], [discover.go] *)

(** go: internal/codesignalcli/projectconfig/selection.go#Selection *)
Record Selection := mkSelection {
  sel_Path : string; sel_Deprecated : bool; sel_UncommittedCanonical : bool; sel_Fatal : option ConfigError
}.

Context {plain_git : Git} (EvalSymlinks : string → error + string).

(** go: internal/codesignalcli/projectconfig/discover.go#loadCanonical *)
Definition loadCanonical (dir revision : string) : Selection :=
  match Load dir revision CanonicalPath with
  | inl err => mkSelection "" false false (Some err)
  | inr _ => mkSelection CanonicalPath false false None
  end.

(** go: internal/codesignalcli/projectconfig/discover.go#legacyLoadFailure *)
Definition legacyLoadFailure (selection : Selection) (err : ConfigError) : LoadFailure + Selection :=
  match ce_Kind err with
  | KindNotFound | KindInvalid | KindUncommitted => inr selection
  | _ => inl (FailConfig err)
  end.

(** go: internal/codesignalcli/projectconfig/discover.go#selectLegacy *)
Definition selectLegacy (dir root revision : string) : LoadFailure + Selection :=
  let uncommitted := configExistsInWorktree root CanonicalPath in
  match Load dir revision DefaultPath with
  | inl err => legacyLoadFailure (mkSelection "" false uncommitted None) err
  | inr _ => inr (mkSelection DefaultPath true uncommitted None)
  end.

(** The runner handed to [FileExistsAtRevision] has its error printed. *)
Definition printed_runner (dir : string) (args : list string) : error + string :=
  match runProjectConfigGit dir args with inl f => inl (errors_New (bounded_message f)) | inr out => inr out end.

(** go: internal/codesignalcli/projectconfig/discover.go#Discover *)
Definition Discover (dir revision : string) : LoadFailure + Selection :=
  match RepositoryRoot EvalSymlinks dir with
  | inl err => inl (FailOther err)
  | inr root =>
      match FileExistsAtRevision printed_runner dir revision CanonicalPath with
      | inl err => inl (FailOperational err)
      | inr true => inr (loadCanonical dir revision)
      | inr false => selectLegacy dir root revision
      end
  end.

End Policy.

(** ** Overlapping prefixes *)

(** A directory contains the other path, or is the repository root. *)
Definition covers (p q : string) : Prop := p = "." ∨ q = p ∨ ∃ r, q = p +:+ "/" +:+ r.

Lemma append_slash_covers p q : HasPrefix (p +:+ "/") (q +:+ "/") = true ↔ q = p ∨ ∃ r, q = p +:+ "/" +:+ r.
Proof.
  rewrite HasPrefix_spec. split.
  - intros (r & Hr). rewrite append_assoc_str in Hr. revert q Hr. induction p as [|c p IH]; intros q Hr.
    + destruct q as [|d q]; [by left|]. right. injection Hr as -> Hr. by exists q.
    + destruct q as [|d q]; [injection Hr as _ Hr; by destruct p|]. injection Hr as -> Hr.
      destruct (IH q Hr) as [->|(t & ->)]; [by left|right; by exists t].
  - intros [->|(r & ->)]; [exists ""; by rewrite append_empty_r|]. exists (r +:+ "/"). by rewrite !append_assoc_str.
Qed.

Lemma HasPrefix_cons c p d q : HasPrefix (String c p) (String d q) = Ascii.eqb c d && HasPrefix p q.
Proof. unfold HasPrefix, CutPrefix. fold CutPrefix. by destruct (Ascii.eqb c d). Qed.

Lemma not_after_cons c a d b : not_after str_less (String c a) (String d b) →
  (code c < code d)%N ∨ (c = d ∧ not_after str_less a b).
Proof.
  unfold not_after, str_less. cbn [String.compare]. unfold Ascii.compare, code.
  destruct (N.compare_spec (N_of_ascii d) (N_of_ascii c)) as [E|E|E]; cbn; [|done|by left].
  intros H. right. split; [|done]. by rewrite <- (ascii_N_embedding c), <- E, ascii_N_embedding.
Qed.

(** What sorts between a string and one it is a prefix of has the prefix too. *)
Lemma prefix_between a b c : not_after str_less a b → not_after str_less b c → HasPrefix a c = true → HasPrefix a b = true.
Proof.
  revert b c. induction a as [|x a IH]; intros b c Hab Hbc Hac; [done|].
  destruct c as [|z c]; [done|]. destruct b as [|y b]; [done|].
  rewrite HasPrefix_cons in Hac. apply andb_true_iff in Hac as [->%Ascii.eqb_eq Hac].
  apply not_after_cons in Hab as [?|[-> Hab]]; apply not_after_cons in Hbc as [?|[Hc Hbc]]; subst; try lia.
  rewrite HasPrefix_cons, Ascii.eqb_refl. by apply (IH b c).
Qed.

Lemma prefix_after a b : not_after str_less a b → HasPrefix b a = true → a = b.
Proof.
  intros H (r & ->)%HasPrefix_spec. induction b as [|x b IH]; [|apply not_after_cons in H as [?|[_ H]]; [lia|change (String x (b +:+ r) = String x b); by rewrite (IH H)]].
  by destruct r.
Qed.

Definition apart (a b : string) : Prop := HasPrefix a b = false ∧ HasPrefix b a = false.

Lemma adjacent_apart l : StronglySorted (not_after str_less) l → adjacent_prefix l = false → StronglySorted apart l.
Proof.
  induction 1 as [|a l Hl IH Ha]; [constructor|]. destruct l as [|b l]; [repeat constructor|].
  cbn [adjacent_prefix]. intros [Hp Hr]%orb_false_iff. constructor; [by apply IH|].
  apply list.Forall_forall. intros c Hc.
  assert (not_after str_less a b ∧ not_after str_less a c) as [Hab Hac].
  { rewrite list.Forall_forall in Ha. split; apply Ha; [left|done]. }
  assert (not_after str_less b c) as Hbc.
  { apply list_elem_of_In in Hc. destruct Hc as [->|Hc]; [apply sw_irrefl, _|].
    inversion Hl as [|? ? _ Hb]; subst. rewrite list.Forall_forall in Hb. by apply Hb, list_elem_of_In. }
  assert (HasPrefix a c = false) as Hn.
  { destruct (HasPrefix a c) eqn:E; [|done]. by rewrite (prefix_between a b c) in Hp. }
  split; [done|]. destruct (HasPrefix c a) eqn:E; [|done]. apply prefix_after in E as ->; [|done].
  destruct (HasPrefix_spec c c) as [_ Hcc]. rewrite Hcc in Hn; [done|]. exists "". by rewrite append_empty_r.
Qed.

Lemma StronglySorted_perm {A} (R : A → A → Prop) l l' : (∀ a b, R a b → R b a) → l ≡ₚ l' →
  StronglySorted R l → StronglySorted R l'.
Proof.
  intros Hs. induction 1 as [|x l l' Hp IH|x y l|l1 l2 l3 _ IH1 _ IH2]; intros H; [done|..|by apply IH2, IH1].
  - inversion H as [|? ? Hl Hx]; subst. constructor; [by apply IH|]. by rewrite <- Hp.
  - inversion H as [|? ? Hl Hy]; subst. inversion Hl as [|? ? Hl' Hx]; subst. inversion Hy; subst.
    repeat constructor; auto.
Qed.

Lemma adjacent_pair l : adjacent_prefix l = true → ∃ a b rest, l ≡ₚ a :: b :: rest ∧ HasPrefix a b = true.
Proof.
  induction l as [|a [|b l] IH]; [done|done|]. cbn [adjacent_prefix]. intros [H|H]%orb_true_iff; [by exists a, b, l|].
  destruct (IH H) as (p & q & rest & Hp & Hq). exists p, q, (a :: rest). split; [|done]. rewrite Hp, (Permutation_swap p a), (Permutation_swap q a). done.
Qed.

Lemma overlap_pairs paths :
  HasDuplicateOrOverlappingPaths paths = true ↔ ∃ p q rest, paths ≡ₚ p :: q :: rest ∧ covers p q.
Proof.
  unfold HasDuplicateOrOverlappingPaths. destruct (Z.ltb_spec (zlen paths) 2) as [Hn|Hn].
  { split; [done|]. intros (p & q & rest & Hp & _). apply Permutation_length in Hp. unfold zlen in Hn. cbn in Hp. lia. }
  destruct (existsb (λ path, path == ".") paths) eqn:E.
  { split; [intros _|done]. apply existsb_exists in E as (p & Hp%list_elem_of_In & ->%String.eqb_eq).
    apply elem_of_Permutation in Hp as ([|q rest] & Hp).
    - apply Permutation_length in Hp. unfold zlen in Hn. cbn in Hp. lia.
    - exists ".", q, rest. split; [done|by left]. }
  split.
  - intros (a & b & rest & Hp & Hab)%adjacent_pair. unfold sort_strings in Hp. rewrite stable_sort_perm in Hp.
    symmetry in Hp. apply Permutation_map_inv in Hp as (l & Hl & Hp). destruct l as [|p [|q l]]; try done.
    injection Hl as -> -> ->. exists p, q, l. split; [done|]. right. by apply append_slash_covers.
  - intros (p & q & rest & Hp & Hc). destruct (adjacent_prefix _) eqn:Ea; [done|]. exfalso.
    assert (StronglySorted apart (map (λ path, path +:+ "/") (p :: q :: rest))) as Hs.
    { eapply StronglySorted_perm; [by intros ? ? []| |apply adjacent_apart; [|exact Ea]].
      - unfold sort_strings. rewrite stable_sort_perm. by apply Permutation_map.
      - apply stable_sort_sorted, _. }
    apply StronglySorted_inv in Hs as [_ Hs]. cbn [map] in Hs. apply list.Forall_cons in Hs as [[Hs _] _].
    destruct Hc as [->|Hc]; [|by apply append_slash_covers in Hc; rewrite Hc in Hs].
    assert (existsb (λ path, path == ".") paths = true) as Hd; [|by rewrite Hd in E].
    apply existsb_exists. exists ".". split; [|done]. apply list_elem_of_In. rewrite Hp. left.
Qed.

(** ** Directories *)

(** What cleaning an unrooted path keeps: elements below, and the way up above them. *)
Lemma clean_unrooted elems : Forall no_slash elems → ∀ stack ups, Forall plain_element stack →
  ∃ stack' ups', fold_left (clean_step false) elems (stack ++ replicate ups "..") = stack' ++ replicate ups' ".."
    ∧ Forall plain_element stack'.
Proof.
  induction 1 as [|e elems Hn _ IH]; intros stack ups Hs; [by exists stack, ups|]. cbn [fold_left]. unfold clean_step at 2.
  destruct (String.eqb_spec e "") as [|N1]; [by apply IH|]. destruct (String.eqb_spec e ".") as [|N2]; [by apply IH|]. cbn [orb].
  destruct (String.eqb_spec e "..") as [->|N3]; [|apply (IH (e :: stack)); by constructor].
  destruct stack as [|top stack].
  - assert (Forall plain_element []) as H0 by constructor. destruct ups as [|ups]; [exact (IH [] 1 H0)|]. exact (IH [] (S (S ups)) H0).
  - inversion Hs as [|?? Ht Hr]; subst. cbn [app]. destruct (String.eqb_spec top "..") as [->|]; [by destruct Ht as (_ & _ & _ & ?)|].
    by apply IH.
Qed.

Lemma fold_plain_unrooted elems stack : Forall plain_element elems →
  fold_left (clean_step false) elems stack = reverse elems ++ stack.
Proof.
  intros H. revert stack. induction H as [|e elems (_ & H1 & H2 & H3) _ IH]; intros stack; [done|].
  cbn [fold_left]. rewrite IH, reverse_cons, <- app_assoc. f_equal. unfold clean_step.
  apply String.eqb_neq in H1, H2, H3. by rewrite H1, H2, H3.
Qed.

Lemma Join_cons e l : Join (e :: l) "/" = match l with [] => e | _ => e +:+ "/" +:+ Join l "/" end.
Proof. by destruct l. Qed.

Lemma plain_no_slash elems : Forall plain_element elems → Forall no_slash elems.
Proof. intros H. eapply list.Forall_impl; [exact H|by intros ? []]. Qed.

(** The paths that stay below the directory they start from, with no element to skip. *)
Definition descends (v : string) : Prop :=
  ∃ elems, elems ≠ [] ∧ Forall plain_element elems ∧ v = Join elems "/".

Lemma clean_descends v : v ≠ "" → HasPrefix "/" v = false → Clean v = v → v ≠ ".." → HasPrefix "../" v = false →
  v = "." ∨ descends v.
Proof.
  intros Hv Hs Hc Hu Hp. unfold Clean in Hc. rewrite Hs in Hc.
  destruct (clean_unrooted _ (SplitByte_no_slash v) [] 0 (@Forall_nil_2 _ _)) as (stack & ups & E & Hst).
  cbn [app replicate] in E. rewrite E in Hc. rewrite reverse_app in Hc.
  destruct ups as [|ups].
  - cbn [replicate] in Hc. rewrite app_nil_l in Hc. destruct (String.eqb_spec (Join (reverse stack) "/") "") as [|Hne]; [by left|].
    right. exists (reverse stack). repeat split; [|by apply list.Forall_reverse|done]. by intros Hr; rewrite Hr in Hne.
  - exfalso. rewrite reverse_replicate in Hc.
    cbn [replicate app] in Hc. rewrite Join_cons in Hc. destruct (replicate ups ".." ++ reverse stack) as [|x l]; [by subst|].
    cbn in Hc. by subst v.
Qed.

Lemma descends_shape v : descends v → v ≠ "" ∧ HasPrefix "/" v = false ∧ Clean v = v ∧ v ≠ "." ∧ v ≠ ".." ∧ HasPrefix "../" v = false.
Proof.
  intros (elems & Hne & Hp & ->). pose proof (SplitByte_Join elems (plain_no_slash _ Hp) Hne) as Hsplit.
  assert (∀ s l, SplitByte ch_slash (Join elems "/") = s :: l → plain_element s) as Hhead.
  { intros s l H. rewrite Hsplit in H. subst elems. by inversion Hp. }
  assert (Join elems "/" ≠ "") as H0.
  { intros H. rewrite H in Hhead. destruct (Hhead "" [] eq_refl) as (_ & ? & _). done. }
  assert (HasPrefix "/" (Join elems "/") = false) as H1.
  { destruct (HasPrefix "/" (Join elems "/")) eqn:E; [|done]. apply HasPrefix_slash in E as (q & E).
    rewrite E, SplitByte_cons, Ascii.eqb_refl in Hhead. by destruct (Hhead "" _ eq_refl) as (_ & ? & _). }
  repeat split; try done.
  - unfold Clean. rewrite H1, Hsplit, fold_plain_unrooted by done. rewrite app_nil_r, reverse_involutive.
    by apply String.eqb_neq in H0 as ->.
  - intros H. rewrite H in Hhead. by destruct (Hhead "." [] eq_refl) as (_ & _ & ? & _).
  - intros H. rewrite H in Hhead. by destruct (Hhead ".." [] eq_refl) as (_ & _ & _ & ?).
  - destruct (HasPrefix "../" (Join elems "/")) eqn:E; [|done]. apply HasPrefix_spec in E as (r & E).
    change ("../" +:+ r) with (".." +:+ String ch_slash r) in E. rewrite E, SplitByte_app in Hhead by done.
    by destruct (Hhead ".." _ eq_refl) as (_ & _ & _ & ?).
Qed.

Definition no_backslash (v : string) : Prop := Contains (String ch_backslash "") v = false.

Lemma directory_iff v : ValidateDirectory v = None ↔ no_backslash v ∧ (v = "." ∨ descends v).
Proof.
  unfold ValidateDirectory, no_backslash. split.
  - destruct (String.eqb_spec v "") as [|H0]; [done|]. destruct (HasPrefix "/" v) eqn:H1; [done|]. cbn [orb].
    destruct (String.eqb_spec (Clean v) v) as [H2|]; [|done]. rewrite H2.
    destruct (String.eqb_spec v "..") as [|H3]; [done|]. destruct (HasPrefix "../" v) eqn:H4; [done|].
    destruct (Contains _ v) eqn:H5; [done|]. intros _. split; [done|]. by apply clean_descends.
  - intros [Hb [->|(H0 & H1 & H2 & _ & H3 & H4)%descends_shape]]; [done|].
    apply String.eqb_neq in H0, H3. by rewrite H0, H1, H2, String.eqb_refl, H3, H4, Hb.
Qed.

Lemma path_iff v : ValidatePath v = None ↔ no_backslash v ∧ descends v.
Proof.
  unfold ValidatePath, no_backslash. split.
  - destruct (String.eqb_spec v "") as [|H0]; [done|]. destruct (HasPrefix "/" v) eqn:H1; [done|]. cbn [orb].
    destruct (String.eqb_spec (Clean v) v) as [H2|]; [|done]. rewrite H2.
    destruct (String.eqb_spec v ".") as [|Hd]; [done|].
    destruct (String.eqb_spec v "..") as [|H3]; [done|]. destruct (HasPrefix "../" v) eqn:H4; [done|].
    destruct (Contains _ v) eqn:H5; [done|]. intros _. split; [done|]. by destruct (clean_descends v) as [|?].
  - intros [Hb (H0 & H1 & H2 & Hd & H3 & H4)%descends_shape].
    apply String.eqb_neq in H0, Hd, H3. by rewrite H0, H1, H2, String.eqb_refl, Hd, H3, H4, Hb.
Qed.

(** ** What a valid document is *)

(** Objects name each member once, and no value is nested deeper than the budget. *)
Inductive readable : nat → json → Prop :=
  | readable_scalar d j : d ≤ maxJSONDepth →
      match j with JArray _ | JObject _ => False | _ => True end → readable d j
  | readable_array d l : d ≤ maxJSONDepth → Forall (readable (S d)) l → readable d (JArray l)
  | readable_object d ms : d ≤ maxJSONDepth → NoDup (map (λ m, unquote m.1) ms) →
      Forall (λ m, readable (S d) m.2) ms → readable d (JObject ms).

(** A policy over layers that exist, each holding directories no other layer holds. *)
Record valid_config (c : Config) : Prop := {
  vc_version : pc_SchemaVersion c = "1";
  vc_roots : (1 ≤ zlen (pc_Roots c) ≤ MaxRoots)%Z ∧ NoDup (pc_Roots c);
  vc_root : Forall (λ v, no_backslash v ∧ (v = "." ∨ descends v)) (pc_Roots c);
  vc_names : NoDup (map ly_Name (pc_Layers c)) ∧ "" ∉ map ly_Name (pc_Layers c);
  vc_layers : Forall (λ l, ly_Prefixes l ≠ []) (pc_Layers c);
  vc_prefix : Forall (λ v, no_backslash v ∧ (v = "." ∨ descends v)) (concat (map ly_Prefixes (pc_Layers c)));
  vc_prefixes : (zlen (concat (map ly_Prefixes (pc_Layers c))) ≤ MaxLayerPrefixes)%Z;
  vc_disjoint : ¬ ∃ p q rest, concat (map ly_Prefixes (pc_Layers c)) ≡ₚ p :: q :: rest ∧ covers p q;
  vc_forbidden : Forall (λ f, fi_From f ∈ map ly_Name (pc_Layers c) ∧ fi_To f ∈ map ly_Name (pc_Layers c))
                   (pc_ForbiddenImports c);
  vc_forbidden_once : NoDup (map forbidden_key (pc_ForbiddenImports c));
  vc_pack : pc_SourceSinkPack c = "" ∨ pc_SourceSinkPack c = "builtin-v1";
  vc_required : pc_RequiredLayer c = "" ∨ pc_RequiredLayer c ∈ map ly_Name (pc_Layers c)
}.

(** A loop that keeps the keys it has seen stops at the first repeated one. *)
Lemma NoDup_seen {K} `{Countable K} (seen : gset K) k ks :
  NoDup (k :: ks) ∧ Forall (.∉ seen) (k :: ks) ↔ k ∉ seen ∧ NoDup ks ∧ Forall (.∉ {[k]} ∪ seen) ks.
Proof.
  rewrite list.NoDup_cons, list.Forall_cons, !list.Forall_forall. split.
  - intros ((Hk & Hn) & Hs & Ha). repeat split; try done. intros x Hx. specialize (Ha x Hx). set_solver.
  - intros (Hs & Hn & Ha). repeat split; try done; [intros Hx; specialize (Ha k Hx); set_solver|].
    intros x Hx. specialize (Ha x Hx). set_solver.
Qed.

Lemma NoDup_unseen {K} `{Countable K} (ks : list K) : NoDup ks ∧ Forall (.∉ (∅ : gset K)) ks ↔ NoDup ks.
Proof. split; [by intros []|]. intros Hn. split; [done|]. apply list.Forall_forall. set_solver. Qed.

Section Reading.
Context {table : IsPrint} {json_errors : JsonErrors}.

Lemma walk_array d l : (∀ x, x ∈ l → walkJSONValue d x = None ↔ readable d x) →
  walkJSONArray (walkJSONValue d) l = None ↔ Forall (readable d) l.
Proof.
  induction l as [|x l IH]; intros H; [split; [intros _; constructor|done]|]. cbn. rewrite list.Forall_cons.
  rewrite <- (H x) by left. rewrite <- IH by (intros; apply H; by right). destruct (walkJSONValue d x); naive_solver.
Qed.

Lemma walk_object d ms seen : (∀ m, m ∈ ms → walkJSONValue d m.2 = None ↔ readable d m.2) →
  walkJSONObject (walkJSONValue d) seen ms = None ↔
  (NoDup (map (λ m, unquote m.1) ms) ∧ Forall (.∉ seen) (map (λ m, unquote m.1) ms)) ∧ Forall (λ m, readable d m.2) ms.
Proof.
  revert seen. induction ms as [|(raw, v) ms IH]; intros seen H.
  - split; [intros _; repeat constructor|done].
  - cbn [map]. rewrite NoDup_seen, list.Forall_cons. cbn. rewrite <- (H (raw, v)) by left. cbn [fst snd].
    destruct (decide (unquote raw ∈ seen)) as [Hi|Hi]; [naive_solver|].
    specialize (IH ({[unquote raw]} ∪ seen)). cbn in IH.
    destruct (walkJSONValue d v); [naive_solver|]. rewrite IH by (intros; apply H; by right). naive_solver.
Qed.

Lemma walk_iff j d : walkJSONValue d j = None ↔ readable d j.
Proof.
  revert d. induction j as [|b|lit|raw|l IH|ms IH] using json_induction; intros d; cbn [walkJSONValue];
    destruct (Nat.ltb_spec maxJSONDepth d) as [Hd|Hd].
  all: try (split; [done|by inversion 1; lia]).
  all: try (split; [intros _; by constructor|done]).
  - rewrite walk_array by (rewrite list.Forall_forall in IH; eauto).
    split; [by constructor|by inversion 1].
  - rewrite walk_object by (rewrite list.Forall_forall in IH; eauto). rewrite NoDup_unseen.
    split; [intros []; by constructor|by inversion 1].
Qed.

Lemma hasDuplicatePaths_iff paths : hasDuplicatePaths paths = false ↔ NoDup paths.
Proof.
  unfold hasDuplicatePaths. rewrite <- NoDup_unseen. generalize (∅ : gset string).
  induction paths as [|p paths IH]; intros seen; [split; [intros _; repeat constructor|done]|].
  rewrite NoDup_seen. destruct (decide (p ∈ seen)); [naive_solver|]. rewrite IH. naive_solver.
Qed.

Lemma first_rejected_iff {A} (check : A → option error) l :
  first_rejected check l = None ↔ Forall (λ x, check x = None) l.
Proof.
  induction l as [|x l IH]; [split; [intros _; constructor|done]|]. cbn. rewrite list.Forall_cons.
  destruct (check x); naive_solver.
Qed.

Notation layer_names layers := (map ly_Name layers).
Notation layer_prefixes layers := (concat (map ly_Prefixes layers)).

Lemma collectLayerPrefixes_iff l prefixes :
  collectLayerPrefixes l = inr prefixes ↔
  ly_Prefixes l ≠ [] ∧ Forall (λ v, ValidateDirectory v = None) (ly_Prefixes l) ∧ prefixes = ly_Prefixes l.
Proof.
  unfold collectLayerPrefixes. destruct (ly_Prefixes l) as [|p ps]; [naive_solver|]. rewrite <- first_rejected_iff.
  destruct (first_rejected ValidateDirectory (p :: ps)) as [[? ?]|]; naive_solver.
Qed.

(** What the loop over the layers asks of each of them. *)
Definition sound_layers (layers : list Layer) : Prop :=
  "" ∉ layer_names layers ∧ Forall (λ l, ly_Prefixes l ≠ []) layers ∧
  Forall (λ v, ValidateDirectory v = None) (layer_prefixes layers).

Lemma sound_layers_cons l layers : sound_layers (l :: layers) ↔
  ly_Name l ≠ "" ∧ ly_Prefixes l ≠ [] ∧ Forall (λ v, ValidateDirectory v = None) (ly_Prefixes l) ∧ sound_layers layers.
Proof.
  unfold sound_layers. cbn [map concat]. rewrite not_elem_of_cons, list.Forall_cons, Forall_app. naive_solver.
Qed.

Lemma collect_layers_iff layers seen all names prefixes :
  collect_layers seen all layers = inr (names, prefixes) ↔
  (NoDup (layer_names layers) ∧ Forall (.∉ seen) (layer_names layers)) ∧ sound_layers layers ∧
  names = list_to_set (layer_names layers) ∪ seen ∧ prefixes = all ++ layer_prefixes layers.
Proof.
  revert seen all. induction layers as [|l layers IH]; intros seen all.
  - cbn. rewrite app_nil_r. split; [intros [= <- <-]|intros (_ & _ & -> & ->)].
    + repeat split; try constructor; [by apply not_elem_of_nil|set_solver].
    + do 2 f_equal. set_solver.
  - rewrite sound_layers_cons. cbn [map]. rewrite NoDup_seen. cbn [collect_layers].
    destruct (String.eqb_spec (ly_Name l) "") as [|Hn]; [naive_solver|].
    destruct (decide (ly_Name l ∈ seen)) as [|Hs]; [naive_solver|].
    destruct (collectLayerPrefixes l) as [err|ps] eqn:E.
    + split; [done|]. intros (_ & (_ & H1 & H2 & _) & _). by rewrite (proj2 (collectLayerPrefixes_iff l _) (conj H1 (conj H2 eq_refl))) in E.
    + apply collectLayerPrefixes_iff in E as (H1 & H2 & ->). rewrite IH.
      assert (list_to_set (layer_names layers) ∪ ({[ly_Name l]} ∪ seen)
              =@{gset string} list_to_set (ly_Name l :: layer_names layers) ∪ seen) as -> by set_solver.
      cbn [map concat]. rewrite app_assoc. naive_solver.
Qed.

Lemma validateLayers_iff layers names :
  validateLayers layers = inr names ↔
  NoDup (layer_names layers) ∧ sound_layers layers ∧ (zlen (layer_prefixes layers) ≤ MaxLayerPrefixes)%Z ∧
  (¬ ∃ p q rest, layer_prefixes layers ≡ₚ p :: q :: rest ∧ covers p q) ∧ names = list_to_set (layer_names layers).
Proof.
  unfold validateLayers. rewrite <- overlap_pairs.
  destruct (collect_layers ∅ [] layers) as [err|[names' prefixes]] eqn:E.
  - split; [done|]. intros (H1 & H2 & _).
    by rewrite (proj2 (collect_layers_iff layers ∅ [] _ _) (conj (proj2 (NoDup_unseen _) H1) (conj H2 (conj eq_refl eq_refl)))) in E.
  - apply collect_layers_iff in E as (H1 & H2 & -> & ->). apply NoDup_unseen in H1. cbn [app].
    rewrite union_empty_r_L. destruct (Z.ltb_spec MaxLayerPrefixes (zlen (layer_prefixes layers))) as [Hl|Hl].
    + split; [done|]. intros (_ & _ & ? & _). lia.
    + destruct (HasDuplicateOrOverlappingPaths _); naive_solver.
Qed.

Lemma check_forbidden_iff names seen l : "" ∉ names →
  check_forbidden names seen l = None ↔
  (NoDup (map forbidden_key l) ∧ Forall (.∉ seen) (map forbidden_key l)) ∧
  Forall (λ f, fi_From f ∈ names ∧ fi_To f ∈ names) l.
Proof.
  intros Hn. revert seen. induction l as [|f l IH]; intros seen; [split; [intros _; repeat constructor|done]|].
  cbn [map]. rewrite NoDup_seen, list.Forall_cons. cbn [check_forbidden].
  destruct (String.eqb_spec (fi_From f) "") as [H1|_]; [split; [done|by intros (_ & [Hf _] & _); rewrite H1 in Hf]|].
  destruct (String.eqb_spec (fi_To f) "") as [H2|_]; [split; [done|by intros (_ & [_ Hf] & _); rewrite H2 in Hf]|]. cbn [orb].
  destruct (decide (fi_From f ∉ names)) as [|H1]; [naive_solver|]. destruct (decide (fi_To f ∉ names)) as [|H2]; [naive_solver|].
  apply dec_stable in H1, H2. destruct (decide (forbidden_key f ∈ seen)) as [|H3]; [naive_solver|]. rewrite IH. naive_solver.
Qed.

Lemma validateRoots_iff roots : validateRoots roots = None ↔
  (1 ≤ zlen roots ≤ MaxRoots)%Z ∧ NoDup roots ∧ Forall (λ v, ValidateDirectory v = None) roots.
Proof.
  unfold validateRoots. destruct (Z.eqb_spec (zlen roots) 0) as [H0|H0]; [split; [done|lia]|].
  destruct (Z.ltb_spec MaxRoots (zlen roots)) as [H1|H1]; [split; [done|lia]|].
  rewrite <- first_rejected_iff, <- hasDuplicatePaths_iff.
  assert (1 ≤ zlen roots ≤ MaxRoots)%Z by (unfold zlen in *; lia).
  destruct (first_rejected _ roots) as [[? ?]|]; [naive_solver|]. destruct (hasDuplicatePaths roots); naive_solver.
Qed.

Lemma decode_iff data c : decode data = inr c ↔
  (Z.of_nat (String.length data) ≤ MaxBytes)%Z ∧ (∃ j, parse data = Some j ∧ readable 1 j) ∧
  Decode dec_config no_config data = Some c ∧ pc_SchemaVersion c = "1".
Proof.
  unfold decode, rejectDuplicateJSONKeys. destruct (Z.ltb_spec MaxBytes (Z.of_nat (String.length data))); [split; [done|lia]|].
  destruct (parse data) as [j|]; [|naive_solver]. pose proof (walk_iff j 1) as Hw.
  destruct (walkJSONValue 1 j); [naive_solver|]. destruct (Decode dec_config no_config data) as [c'|]; [|naive_solver].
  destruct (String.eqb_spec (pc_SchemaVersion c') "1"); naive_solver.
Qed.

Lemma directories_iff l :
  Forall (λ v, ValidateDirectory v = None) l ↔ Forall (λ v, no_backslash v ∧ (v = "." ∨ descends v)) l.
Proof. apply Forall_iff. intros v. apply directory_iff. Qed.

Lemma forbidden_iff layers l : "" ∉ layer_names layers →
  validateForbiddenImports l (list_to_set (layer_names layers)) = None ↔
  NoDup (map forbidden_key l) ∧ Forall (λ f, fi_From f ∈ layer_names layers ∧ fi_To f ∈ layer_names layers) l.
Proof.
  intros Hn. unfold validateForbiddenImports. rewrite check_forbidden_iff by (by rewrite elem_of_list_to_set).
  rewrite NoDup_unseen. do 2 f_equiv. intros f. by rewrite !elem_of_list_to_set.
Qed.

Lemma references_iff c :
  validateLayerReferences c (list_to_set (layer_names (pc_Layers c))) = None ↔
  (pc_SourceSinkPack c = "" ∨ pc_SourceSinkPack c = "builtin-v1") ∧
  (pc_RequiredLayer c = "" ∨ pc_RequiredLayer c ∈ layer_names (pc_Layers c)).
Proof.
  unfold validateLayerReferences. rewrite <- (elem_of_list_to_set (C:=gset string)).
  destruct (String.eqb_spec (pc_SourceSinkPack c) ""), (String.eqb_spec (pc_SourceSinkPack c) "builtin-v1"),
    (String.eqb_spec (pc_RequiredLayer c) ""); cbn [negb andb]; try case_bool_decide; try naive_solver;
    try (apply dec_stable in H; naive_solver).
Qed.

(** C11: [Parse] accepts a document exactly when it is at most a mebibyte of JSON in which
    no object repeats a key and nothing is nested beyond 32 levels, its members are the known ones, and the policy they
    make is valid: between one and 256 distinct roots, layers with distinct names and at
    most 4096 directories of which none is or contains another, forbidden imports between
    declared layers given once, a known pack, and a required layer that is declared.
    Roots and prefixes are [.] or go down through plain elements. *)
Theorem parse_exact data c :
  Parse data = inr c ↔
  (Z.of_nat (String.length data) ≤ MaxBytes)%Z ∧ (∃ j, parse data = Some j ∧ readable 1 j) ∧
  Decode dec_config no_config data = Some c ∧ valid_config c.
Proof.
  unfold Parse. destruct (decode data) as [err|c'] eqn:Ed.
  { split; [done|]. intros (H1 & H2 & H3 & H4). apply vc_version in H4.
    by rewrite (proj2 (decode_iff data c) (conj H1 (conj H2 (conj H3 H4)))) in Ed. }
  apply decode_iff in Ed as (H1 & H2 & H3 & H4). rewrite H3.
  destruct (validateRoots (pc_Roots c')) as [err|] eqn:Er.
  { split; [done|]. intros (_ & _ & [= ->] & Hc). enough (validateRoots (pc_Roots c) = None) by congruence.
    apply validateRoots_iff. destruct Hc as [? [] Hr]. by rewrite directories_iff. }
  apply validateRoots_iff in Er as (R1 & R2 & R3). rewrite directories_iff in R3.
  destruct (validateLayers (pc_Layers c')) as [err|names] eqn:El.
  { split; [done|]. intros (_ & _ & [= ->] & Hc).
    enough (validateLayers (pc_Layers c) = inr (list_to_set (layer_names (pc_Layers c)))) by congruence.
    apply validateLayers_iff. destruct Hc. unfold sound_layers. rewrite directories_iff. naive_solver. }
  apply validateLayers_iff in El as (L1 & (L2 & L3 & L4) & L5 & L6 & ->). rewrite directories_iff in L4.
  pose proof (forbidden_iff (pc_Layers c') (pc_ForbiddenImports c') L2) as Hf. pose proof (references_iff c') as Hl.
  destruct (validateForbiddenImports _ _) as [err|].
  { split; [done|]. intros (_ & _ & [= ->] & []). naive_solver. }
  destruct (validateLayerReferences c' _) as [err|].
  { split; [done|]. intros (_ & _ & [= ->] & []). naive_solver. }
  split; [intros [= <-]; repeat split; try done|by intros (_ & _ & [= ->] & _)]; naive_solver.
Qed.

(** ** Which document a revision has *)

Context (worktree : string → bool) {git : BoundedGit} {plain_git : Git} (EvalSymlinks : string → error + string).

Lemma Load_reads dir revision path data : Load worktree dir revision path = inr data →
  ValidatePath path = None ∧ runProjectConfigGit dir ["show"; revision +:+ ":" +:+ path] = inr data ∧
  ∃ c, Parse data = inr c.
Proof.
  unfold Load, validateJSON. destruct (ValidatePath path); [done|].
  destruct (runProjectConfigGit _ _) as [|data'] eqn:E; [done|]. destruct (Parse data') as [|c] eqn:Hp; [done|].
  intros [= ->]. by repeat split; [..|exists c].
Qed.

(** A document that [Discover] selects was read at the revision and is a valid
    policy, and one of the old name is selected only when the revision has none of the
    current name: a current document that cannot be used is reported, and never makes way
    for the old one. *)
Theorem discover_selects dir revision sel :
  Discover worktree EvalSymlinks dir revision = inr sel →
  (sel_Path sel = "" ∨ (sel_Path sel = CanonicalPath ∧ sel_Deprecated sel = false) ∨
   (sel_Path sel = DefaultPath ∧ sel_Deprecated sel = true)) ∧
  (sel_Path sel ≠ "" → sel_Fatal sel = None ∧
    ∃ data c, runProjectConfigGit dir ["show"; revision +:+ ":" +:+ sel_Path sel] = inr data ∧ Parse data = inr c) ∧
  (sel_Path sel = DefaultPath → FileExistsAtRevision printed_runner dir revision CanonicalPath = inr false) ∧
  (FileExistsAtRevision printed_runner dir revision CanonicalPath = inr true → sel_Path sel = "" → sel_Fatal sel ≠ None).
Proof.
  unfold Discover. destruct (RepositoryRoot EvalSymlinks dir) as [|root]; [done|].
  destruct (FileExistsAtRevision _ _ _ _) as [|[]]; [done|..].
  - intros [= <-]. unfold loadCanonical. destruct (Load _ dir revision CanonicalPath) as [err|data] eqn:E; cbn.
    + repeat split; try done. by left.
    + apply Load_reads in E as (_ & Hg & c & Hc). repeat split; try done; [by right; left|by exists data, c].
  - unfold selectLegacy. destruct (Load _ dir revision DefaultPath) as [err|data] eqn:E.
    + unfold legacyLoadFailure. destruct (ce_Kind err); intros H; try done; injection H as <-; repeat split; try done; by left.
    + apply Load_reads in E as (_ & Hg & c & Hc). intros [= <-]. cbn. repeat split; try done; [by right; right|by exists data, c].
Qed.
End Reading.

Module PolicyExample.

#[local] Instance printable : IsPrint := λ _, true.
#[local] Instance json_message : JsonErrors := λ _ _, "cannot unmarshal".

Definition accepted (data : string) : bool := match Parse data with inr _ => true | inl _ => false end.

Definition policy (roots layers rest : string) : string := jtext
  ("{'schema_version': '1', 'roots': " +:+ roots +:+ ", 'layers': [" +:+ layers +:+ "]" +:+ rest +:+ "}").

Definition two_layers : string := "{'name':'ui','prefixes':['src/ui']}, {'name':'api','prefixes':['src/ui-api']}".

Example sibling_directories_are_apart : accepted (policy "['src']" two_layers "") = true.
Proof. vm_compute. reflexivity. Qed.

Example nested_directories_overlap :
  accepted (policy "['src']" "{'name':'ui','prefixes':['src/ui/a']}, {'name':'api','prefixes':['src/ui-b','src/ui']}" "") = false.
Proof. vm_compute. reflexivity. Qed.

(** The names of members are compared exactly when repeated ones are looked for, and up to
    their case when they are decoded: of two members that differ in case the second is
    taken, silently. *)
Example repeated_up_to_case :
  match Parse (policy "['src']" two_layers ", 'ROOTS': ['elsewhere']") with
  | inr c => pc_Roots c = ["elsewhere"]
  | inl _ => False
  end.
Proof. vm_compute. reflexivity. Qed.

Example repeated_exactly : accepted (policy "['src']" two_layers ", 'roots': ['elsewhere']") = false.
Proof. vm_compute. reflexivity. Qed.

(** A repository with a policy of the old name only. *)
#[local] Instance plain : Git := λ _ _, mkProcessResult None "/repo" "".
#[local] Instance bounded : BoundedGit := λ _ _ args, mkBoundedChild None
  (None, if decide (args = ["show"; "HEAD:project.json"]) then policy "['.']" two_layers "" else "") (None, "") None false.

Lemma discover_selects_witness :
  let sel := mkSelection DefaultPath true false None in
  Discover (λ _, false) inr "/repo" "HEAD" = inr sel ∧
  (sel_Path sel ≠ "" → sel_Fatal sel = None ∧
    ∃ data c, runProjectConfigGit "/repo" ["show"; "HEAD:project.json"] = inr data ∧ Parse data = inr c).
Proof.
  intros sel. assert (H : Discover (λ _, false) inr "/repo" "HEAD" = inr sel) by (vm_compute; reflexivity).
  split; [exact H|]. exact (proj1 (proj2 (discover_selects (λ _, false) inr "/repo" "HEAD" sel H))).
Defined.

End PolicyExample.
