(* ===== verification/ScopeModel.v ===== *)
(** * The scope of a project analysis

    [pkg/projectmodel]'s [project_scope.go], [layer_membership.go] and the roots of a
    snapshot ([snapshot_meta.go], [go_roots_filter.go]): which of the policy's roots the
    analyzer saw, which layers hold a file it analyzed, and how many files no layer holds,
    where a count that could be too low is not made. *)

From S2P Require Import Prelude GoOrder GoText GoErr Domain Reachability.

(** ** [snapshot_meta.go], [go_roots_filter.go] *)

(** go: pkg/projectmodel/snapshot_meta.go#SnapshotMeta *)
Record SnapshotMeta := mkSnapshotMeta {
  sm_Revision : string; sm_TreeID : string; sm_ConfigDigest : string;
  sm_BackendDigest : string; sm_BuildContextDigest : string; sm_Repository : string
}.

(** go: pkg/projectmodel/snapshot_meta.go#selectedRootsFrom *)
Definition selectedRootsFrom (roots : list string) : list string := sort_strings (map Clean roots).

(** go: pkg/projectmodel/go_roots_filter.go#rootAllowsDir *)
Definition rootAllowsDir (roots : list string) (dir : string) : bool :=
  existsb (λ r, let r := Clean r in (r == ".") || (dir == r) || HasPrefix (r +:+ "/") dir) roots.

(** What is read of the modules and workspaces of a snapshot is the directories they are in.

    go: pkg/projectmodel/go_roots_filter.go#filterToRoots *)
Definition filterToRoots {M W} (modules : gmap string M) (workspaces : gmap string W) (roots : list string) :
    gmap string M * gmap string W :=
  (filter (λ kv, rootAllowsDir roots kv.1 = true) modules, filter (λ kv, rootAllowsDir roots kv.1 = true) workspaces).

(** ** [project_scope.go] *)

(** go: pkg/projectmodel/project_scope.go#ProjectScopePolicyLayer *)
Record ProjectScopePolicyLayer := mkPolicyLayer { psl_Name : string; psl_Prefixes : list string }.

(** go: pkg/projectmodel/project_scope.go#ProjectScopePolicy *)
Record ProjectScopePolicy := mkScopePolicy { psp_Roots : list string; psp_Layers : list ProjectScopePolicyLayer }.

(** go: pkg/domain/project_scope.go#InclusionRuleTSConfigIncludesNoTestClassification *)
Definition InclusionRuleTSConfigIncludesNoTestClassification : string := "tsconfig_includes_no_test_classification".

(** The paths not seen before are added, in order.

    go: pkg/projectmodel/project_scope.go:74-87#add *)
Definition add_path (acc : gset string * list string) (p : string) : gset string * list string :=
  if decide (p ∈ acc.1) then acc else ({[p]} ∪ acc.1, acc.2 ++ [p]).

(** go: pkg/projectmodel/project_scope.go#analyzedFilePathsFromRootScopes *)
Definition analyzedFilePathsFromRootScopes (scopes : list RootScope) : list string :=
  (fold_left (λ acc scope, fold_left add_path (rs_AnalyzedPaths scope) acc) scopes (∅, [])).2.

(** go: pkg/projectmodel/project_scope.go#prefixMatchesAnyPath *)
Definition prefixMatchesAnyPath (prefix : string) (paths : list string) : bool :=
  existsb (λ path, LayerPrefixContains prefix path) paths.

(** go: pkg/projectmodel/project_scope.go#layerMatchesAnyPath *)
Definition layerMatchesAnyPath (layer : ProjectScopePolicyLayer) (paths : list string) : bool :=
  fold_left (λ matched prefix, matched || prefixMatchesAnyPath prefix paths) (psl_Prefixes layer) false.

(** ** [layer_membership.go] *)

(** go: pkg/projectmodel/layer_membership.go#rootHoldsAPath *)
Definition rootHoldsAPath (paths : list string) (root : string) : bool := existsb (λ p, rootAllowsDir [root] p) paths.

(** go: pkg/projectmodel/layer_membership.go#everyRootHoldsAPath *)
Definition everyRootHoldsAPath (paths roots : list string) : bool :=
  match paths with [] => false | _ => forallb (rootHoldsAPath paths) roots end.

(** go: pkg/projectmodel/layer_membership.go#filePaths *)
Definition filePaths (files : list File) : list string := map file_Path files.

(** go: pkg/projectmodel/layer_membership.go#layerPrefixes *)
Definition layerPrefixes (layers : list ProjectScopePolicyLayer) : list string := concat (map psl_Prefixes layers).

Definition no_layers (layers : list ProjectScopePolicyLayer) : bool := match layers with [] => true | _ => false end.

(** go: pkg/projectmodel/layer_membership.go#GoLayerMembership *)
Definition GoLayerMembership (model : Model) (roots : list string) (layers : list ProjectScopePolicyLayer) :
    option LayerMembership :=
  if no_layers layers || negb (pc_Complete (m_Coverage model)) || negb (everyRootHoldsAPath (filePaths (m_Files model)) roots)
  then None
  else Some (NewLayerMembership (map (λ f, Dir (file_Path f)) (m_Files model)) (layerPrefixes layers)).

(** The analyzer sent fewer paths than it found candidates, or than it counts. *)
Definition scope_short (scope : RootScope) : bool :=
  (rs_AnalyzedFiles scope <? rs_CandidateFiles scope)%Z || negb (zlen (rs_AnalyzedPaths scope) =? rs_AnalyzedFiles scope)%Z.

(** go: pkg/projectmodel/layer_membership.go#tsLayerMembership *)
Definition tsLayerMembership (coverage : ProjCoverage) (scopes : list RootScope) (analyzedPaths : list string)
    (layers : list ProjectScopePolicyLayer) : option LayerMembership :=
  if no_layers layers || negb (pc_Complete coverage) then None
  else if existsb scope_short scopes then None
  else if negb (everyRootHoldsAPath analyzedPaths (map rs_Root scopes)) then None
  else Some (NewLayerMembership analyzedPaths (layerPrefixes layers)).

(** ** The scope of a revision *)

Section Scope.
Context {table : IsPrint}.

(** The last entry of a root is the one its policy root finds. *)
Definition scope_by_root (scopes : list RootScope) : gmap string RootScope :=
  fold_left (λ m rs, <[Clean (rs_Root rs) := rs]> m) scopes ∅.

Fixpoint policy_scopes (by_root : gmap string RootScope) (roots : list string) : error + list RootScope :=
  match roots with
  | [] => inr []
  | root :: roots =>
      match by_root !! Clean root with
      | None => inl (errors_New ("project_scope: policy root " +:+ quoted root
                       +:+ " has no matching root_scopes entry in the analyzer response"))
      | Some fact => match policy_scopes by_root roots with inl err => inl err | inr facts => inr (fact :: facts) end
      end
  end.

(** go: pkg/projectmodel/project_scope.go#ProjectScopeFromModel *)
Definition ProjectScopeFromModel (model : Model) (policy : ProjectScopePolicy) : error + ProjectScope :=
  match policy_scopes (scope_by_root (m_RootScopes model)) (psp_Roots policy) with
  | inl err => inl err
  | inr scopes =>
      let analyzedPaths := analyzedFilePathsFromRootScopes scopes in
      let matches layer := layerMatchesAnyPath layer analyzedPaths in
      inr (mkProjectScope InclusionRuleTSConfigIncludesNoTestClassification TSReachabilityAlgorithm
             (map (λ rs, mkProjectScopeRoot (rs_Root rs) (rs_CandidateFiles rs) (rs_AnalyzedFiles rs)) scopes)
             (map psl_Name (List.filter matches (psp_Layers policy)))
             (map psl_Name (List.filter (λ l, negb (matches l)) (psp_Layers policy)))
             (tsLayerMembership (m_Coverage model) scopes analyzedPaths (psp_Layers policy)))
  end.
End Scope.

(** ** What the count says *)

Definition in_layers (layers : list ProjectScopePolicyLayer) (key : string) : Prop :=
  ∃ layer prefix, layer ∈ layers ∧ prefix ∈ psl_Prefixes layer ∧ LayerPrefixContains prefix key = true.

#[export] Instance in_layers_dec layers key : Decision (in_layers layers key).
Proof.
  refine (cast_if (decide (Exists (λ layer, Exists (λ prefix, LayerPrefixContains prefix key = true) (psl_Prefixes layer)) layers))).
  - apply list.Exists_exists in e as (layer & Hl & (prefix & Hp & Hc)%list.Exists_exists). by exists layer, prefix.
  - intros (layer & prefix & Hl & Hp & Hc). apply n, list.Exists_exists. exists layer. split; [done|]. apply list.Exists_exists. by exists prefix.
Defined.

Lemma any_prefix_iff prefixes key :
  anyLayerPrefixContains prefixes key = true ↔ ∃ prefix, prefix ∈ prefixes ∧ LayerPrefixContains prefix key = true.
Proof.
  induction prefixes as [|p ps IH]; cbn; [split; [done|by intros (? & []%elem_of_nil & _)]|].
  destruct (LayerPrefixContains p key) eqn:E; [split; [intros _; exists p; by split; [left|]|done]|].
  rewrite IH. split; intros (q & Hq & Hc); exists q; (split; [|done]); [by right|].
  apply elem_of_cons in Hq as [->|Hq]; [congruence|done].
Qed.

Lemma layerPrefixes_iff layers key : anyLayerPrefixContains (layerPrefixes layers) key = true ↔ in_layers layers key.
Proof.
  rewrite any_prefix_iff. unfold layerPrefixes, in_layers. split.
  - intros (p & Hp & Hc). apply list_elem_of_In, in_concat in Hp as (l & (layer & <- & Hl)%in_map_iff & Hp).
    exists layer, p. by rewrite !list_elem_of_In.
  - intros (layer & p & Hl & Hp & Hc). exists p. split; [|done]. apply list_elem_of_In, in_concat. exists (psl_Prefixes layer).
    split; [apply in_map|]; by apply list_elem_of_In.
Qed.

Lemma membership_count keys layers :
  NewLayerMembership keys (layerPrefixes layers)
  = mkLayerMembership (zlen keys) (zlen (filter (λ key, ¬ in_layers layers key) keys)).
Proof.
  unfold NewLayerMembership, zlen. f_equal.
  enough (∀ n, fold_left (λ n key, if anyLayerPrefixContains (layerPrefixes layers) key then n else (n + 1)%Z) keys n
    = (n + Z.of_nat (length (filter (λ key, ¬ in_layers layers key) keys)))%Z) as -> by done.
  induction keys as [|key keys IH]; intros n; cbn [fold_left]; [cbn; lia|]. rewrite IH, filter_cons.
  destruct (anyLayerPrefixContains (layerPrefixes layers) key) eqn:E.
  - apply layerPrefixes_iff in E. rewrite decide_False by tauto. done.
  - rewrite decide_True by (rewrite <- layerPrefixes_iff, E; done). cbn. lia.
Qed.

Lemma everyRootHoldsAPath_iff paths roots : everyRootHoldsAPath paths roots = true ↔
  paths ≠ [] ∧ ∀ root, root ∈ roots → ∃ p, p ∈ paths ∧ rootAllowsDir [root] p = true.
Proof.
  assert (∀ root, rootHoldsAPath paths root = true ↔ ∃ p, p ∈ paths ∧ rootAllowsDir [root] p = true) as Hr.
  { intros root. unfold rootHoldsAPath. rewrite existsb_exists. by setoid_rewrite list_elem_of_In. }
  unfold everyRootHoldsAPath. destruct paths as [|p paths]; [split; [done|by intros []]|]. rewrite forallb_forall.
  split; [intros H; split; [done|]|intros [_ H]]; intros root Hroot; [apply Hr, H|apply Hr, H]; by apply list_elem_of_In.
Qed.

(** The files outside every layer are counted exactly, or not at all: a count is given
    exactly when there are layers, the model is complete and every root holds a file of
    it, and it counts the files whose directory no prefix of a layer contains. *)
Theorem go_membership_exact model roots layers m :
  GoLayerMembership model roots layers = Some m ↔
  layers ≠ [] ∧ pc_Complete (m_Coverage model) = true ∧
  (filePaths (m_Files model) ≠ [] ∧
   ∀ root, root ∈ roots → ∃ p, p ∈ filePaths (m_Files model) ∧ rootAllowsDir [root] p = true) ∧
  lm_AnalyzedFiles m = zlen (m_Files model) ∧
  lm_FilesOutsideLayers m = zlen (filter (λ f, ¬ in_layers layers (Dir (file_Path f))) (m_Files model)).
Proof.
  unfold GoLayerMembership. rewrite <- everyRootHoldsAPath_iff, membership_count.
  assert (∀ l, length (filter (λ key, ¬ in_layers layers key) (map (λ f, Dir (file_Path f)) l))
    = length (filter (λ f, ¬ in_layers layers (Dir (file_Path f))) l)) as Hf.
  { induction l as [|f l IH]; [done|]. cbn [map]. rewrite !filter_cons. repeat case_decide; cbn; by rewrite ?IH. }
  unfold zlen. rewrite length_map, Hf. destruct layers as [|layer layers]; [split; [done|by intros []]|]. cbn [no_layers orb].
  destruct (pc_Complete (m_Coverage model)); cbn [negb orb]; [|split; [done|by intros (_ & ? & _)]].
  destruct (everyRootHoldsAPath _ _); cbn [negb]; [|split; [done|by intros (_ & _ & ? & _)]].
  split; [by intros [= <-]|]. intros (_ & _ & _ & H1 & H2). destruct m. cbn in *. by subst.
Qed.

(** ** What the scope says *)

Lemma fold_add_path_NoDup paths acc : NoDup acc.2 → (∀ p, p ∈ acc.1 ↔ p ∈ acc.2) →
  let acc' := fold_left add_path paths acc in
  NoDup acc'.2 ∧ (∀ p, p ∈ acc'.1 ↔ p ∈ acc'.2) ∧ ∀ p, p ∈ acc'.2 ↔ p ∈ acc.2 ∨ p ∈ paths.
Proof.
  revert acc. induction paths as [|q paths IH]; intros acc Hn Ha; [cbn; set_solver|]. cbn [fold_left].
  destruct (IH (add_path acc q)) as (H1 & H2 & H3); [unfold add_path; case_decide as Hq; [done|]..|].
  - cbn. apply list.NoDup_app. split; [done|]. split; [|by apply NoDup_singleton]. intros p Hp. rewrite list_elem_of_singleton.
    intros ->. by rewrite Ha in Hq.
  - intros p. cbn. rewrite elem_of_union, elem_of_app, elem_of_singleton, list_elem_of_singleton, Ha. tauto.
  - split; [done|]. split; [done|]. intros p. rewrite H3, elem_of_cons. unfold add_path. case_decide as Hq; cbn.
    + rewrite Ha in Hq. naive_solver.
    + rewrite elem_of_app, list_elem_of_singleton. tauto.
Qed.

Lemma analyzed_paths_iff scopes :
  NoDup (analyzedFilePathsFromRootScopes scopes) ∧
  ∀ p, p ∈ analyzedFilePathsFromRootScopes scopes ↔ ∃ scope, scope ∈ scopes ∧ p ∈ rs_AnalyzedPaths scope.
Proof.
  unfold analyzedFilePathsFromRootScopes.
  enough (∀ acc : gset string * list string, NoDup acc.2 → (∀ p, p ∈ acc.1 ↔ p ∈ acc.2) →
    let acc' := fold_left (λ acc scope, fold_left add_path (rs_AnalyzedPaths scope) acc) scopes acc in
    NoDup acc'.2 ∧ ∀ p, p ∈ acc'.2 ↔ p ∈ acc.2 ∨ ∃ scope, scope ∈ scopes ∧ p ∈ rs_AnalyzedPaths scope) as H.
  { destruct (H (∅, [])) as [H1 H2]; [constructor|set_solver|]. split; [done|]. intros p. rewrite H2. cbn. set_solver. }
  induction scopes as [|scope scopes IH]; intros acc Hn Ha; [cbn; set_solver|]. cbn [fold_left].
  destruct (fold_add_path_NoDup (rs_AnalyzedPaths scope) acc Hn Ha) as (H1 & H2 & H3).
  destruct (IH _ H1 H2) as [H4 H5]. split; [done|]. intros p. rewrite H5, H3. set_solver.
Qed.

Lemma layerMatchesAnyPath_iff layer paths : layerMatchesAnyPath layer paths = true ↔
  ∃ p, p ∈ paths ∧ in_layers [layer] p.
Proof.
  unfold layerMatchesAnyPath.
  assert (∀ prefixes b, fold_left (λ matched prefix, matched || prefixMatchesAnyPath prefix paths) prefixes b = true ↔
    b = true ∨ ∃ prefix p, prefix ∈ prefixes ∧ p ∈ paths ∧ LayerPrefixContains prefix p = true) as H.
  { induction prefixes as [|q qs IH]; intros b; cbn [fold_left]; [set_solver|].
    rewrite IH, orb_true_iff. unfold prefixMatchesAnyPath. rewrite existsb_exists. setoid_rewrite <- list_elem_of_In. set_solver. }
  rewrite H. unfold in_layers. split.
  - intros [|(q & p & Hq & Hp & Hc)]; [done|]. exists p. split; [done|]. exists layer, q. set_solver.
  - intros (p & Hp & l & q & ->%list_elem_of_singleton & Hq & Hc). right. by exists q, p.
Qed.

Section Exact.
Context {table : IsPrint}.

Lemma scope_by_root_lookup scopes key rs : scope_by_root scopes !! key = Some rs → rs ∈ scopes ∧ Clean (rs_Root rs) = key.
Proof.
  unfold scope_by_root.
  enough (∀ m, fold_left (λ m rs, <[Clean (rs_Root rs) := rs]> m) scopes m !! key = Some rs →
    m !! key = Some rs ∨ rs ∈ scopes ∧ Clean (rs_Root rs) = key) as H by (intros [?|?]%H; done).
  induction scopes as [|x scopes IH]; intros m H; [by left|]. cbn [fold_left] in H.
  apply IH in H as [[[<- <-]|[_ H]]%lookup_insert_Some|[H ?]]; [right; split; [left|done]|by left|right; split; [by right|done]].
Qed.

Lemma scope_by_root_None scopes key : scope_by_root scopes !! key = None → ∀ rs, rs ∈ scopes → Clean (rs_Root rs) ≠ key.
Proof.
  unfold scope_by_root.
  enough (∀ m, fold_left (λ m rs, <[Clean (rs_Root rs) := rs]> m) scopes m !! key = None →
    m !! key = None ∧ ∀ rs, rs ∈ scopes → Clean (rs_Root rs) ≠ key) as H by (intros [_ ?]%H; done).
  induction scopes as [|x scopes IH]; intros m H; [split; [done|by intros ? ?%elem_of_nil]|]. cbn [fold_left] in H.
  apply IH in H as [[H1 H2]%lookup_insert_None H3]. split; [done|]. intros rs [->|Hrs]%elem_of_cons; auto.
Qed.

Lemma policy_scopes_cases scopes roots :
  match policy_scopes (scope_by_root scopes) roots with
  | inl _ => ∃ root, root ∈ roots ∧ ∀ rs, rs ∈ scopes → Clean (rs_Root rs) ≠ Clean root
  | inr facts => Forall2 (λ root rs, rs ∈ scopes ∧ Clean (rs_Root rs) = Clean root) roots facts
  end.
Proof.
  induction roots as [|root roots IH]; [constructor|]. cbn. destruct (scope_by_root scopes !! Clean root) as [fact|] eqn:E.
  - apply scope_by_root_lookup in E. destruct (policy_scopes _ _); [|by constructor].
    destruct IH as (r & Hr & H). exists r. split; [by right|done].
  - exists root. split; [left|]. by apply scope_by_root_None.
Qed.

Lemma scopes_short_iff scopes : existsb scope_short scopes = false ↔
  ∀ scope, scope ∈ scopes → (rs_CandidateFiles scope ≤ rs_AnalyzedFiles scope)%Z ∧ zlen (rs_AnalyzedPaths scope) = rs_AnalyzedFiles scope.
Proof.
  rewrite <- not_true_iff_false, existsb_exists. unfold scope_short. split.
  - intros H scope Hs%list_elem_of_In. split.
    + destruct (Z.ltb_spec (rs_AnalyzedFiles scope) (rs_CandidateFiles scope)) as [Hl|]; [|done]. exfalso. apply H. exists scope.
      split; [done|]. by apply Z.ltb_lt in Hl as ->.
    + destruct (Z.eqb_spec (zlen (rs_AnalyzedPaths scope)) (rs_AnalyzedFiles scope)) as [|Hl]; [done|]. exfalso. apply H. exists scope.
      split; [done|]. apply Z.eqb_neq in Hl as ->. apply orb_true_r.
  - intros H (scope & Hs%list_elem_of_In & Hb). destruct (H scope Hs) as [H1 H2]. apply Z.ltb_ge in H1. apply Z.eqb_eq in H2.
    by rewrite H1, H2 in Hb.
Qed.

(** What a scope says of the entries its roots found, and of the paths analyzed in them. *)
Record scope_says (model : Model) (policy : ProjectScopePolicy) (scopes : list RootScope) (paths : list string)
    (scope : ProjectScope) : Prop := {
  ss_entries : Forall2 (λ root rs, rs ∈ m_RootScopes model ∧ Clean (rs_Root rs) = Clean root) (psp_Roots policy) scopes;
  ss_roots : psc_Roots scope = map (λ rs, mkProjectScopeRoot (rs_Root rs) (rs_CandidateFiles rs) (rs_AnalyzedFiles rs)) scopes;
  ss_paths : NoDup paths ∧ ∀ p, p ∈ paths ↔ ∃ rs, rs ∈ scopes ∧ p ∈ rs_AnalyzedPaths rs;
  ss_matched : ∀ name, name ∈ psc_MatchedLayers scope ↔
    ∃ layer, layer ∈ psp_Layers policy ∧ name = psl_Name layer ∧ ∃ p, p ∈ paths ∧ in_layers [layer] p;
  ss_unmatched : ∀ name, name ∈ psc_UnmatchedLayers scope ↔
    ∃ layer, layer ∈ psp_Layers policy ∧ name = psl_Name layer ∧ ∀ p, p ∈ paths → ¬ in_layers [layer] p;
  ss_membership : ∀ m, psc_LayerMembership scope = Some m ↔
    psp_Layers policy ≠ [] ∧ pc_Complete (m_Coverage model) = true ∧
    (∀ rs, rs ∈ scopes → (rs_CandidateFiles rs ≤ rs_AnalyzedFiles rs)%Z ∧ zlen (rs_AnalyzedPaths rs) = rs_AnalyzedFiles rs) ∧
    (paths ≠ [] ∧ ∀ root, root ∈ map rs_Root scopes → ∃ p, p ∈ paths ∧ rootAllowsDir [root] p = true) ∧
    m = mkLayerMembership (zlen paths) (zlen (filter (λ p, ¬ in_layers (psp_Layers policy) p) paths))
}.

Lemma filter_names (f : ProjectScopePolicyLayer → bool) layers name :
  name ∈ map psl_Name (List.filter f layers) ↔ ∃ layer, layer ∈ layers ∧ name = psl_Name layer ∧ f layer = true.
Proof.
  rewrite list_elem_of_In, in_map_iff. setoid_rewrite filter_In. setoid_rewrite list_elem_of_In. naive_solver.
Qed.

(** The scope of a revision reports each root of the policy by the analyzer's entry for
    it, and fails exactly when a root has none; it calls a layer matched exactly when one
    of its prefixes contains an analyzed file, and unmatched otherwise; and it counts the
    files outside every layer only when no root fell short of its candidates and every
    root holds an analyzed file, each file once. *)
Theorem project_scope_exact model policy :
  match ProjectScopeFromModel model policy with
  | inl _ => ∃ root, root ∈ psp_Roots policy ∧ ∀ rs, rs ∈ m_RootScopes model → Clean (rs_Root rs) ≠ Clean root
  | inr scope => ∃ scopes paths, scope_says model policy scopes paths scope
  end.
Proof.
  unfold ProjectScopeFromModel. pose proof (policy_scopes_cases (m_RootScopes model) (psp_Roots policy)) as Hp.
  destruct (policy_scopes _ _) as [err|scopes]; [done|]. set (paths := analyzedFilePathsFromRootScopes scopes).
  exists scopes, paths. split; cbn; [done|done|apply analyzed_paths_iff| | |].
  - intros name. rewrite filter_names. by setoid_rewrite layerMatchesAnyPath_iff.
  - intros name. rewrite filter_names. setoid_rewrite negb_true_iff. setoid_rewrite <- not_true_iff_false.
    setoid_rewrite layerMatchesAnyPath_iff. naive_solver.
  - intros m. rewrite <- scopes_short_iff, <- everyRootHoldsAPath_iff. unfold tsLayerMembership.
    destruct (psp_Layers policy) as [|l layers] eqn:El; [split; [done|by intros []]|]. cbn [no_layers orb].
    destruct (pc_Complete (m_Coverage model)); cbn [negb]; [|split; [done|by intros (_ & ? & _)]].
    destruct (existsb scope_short scopes); [split; [done|by intros (_ & _ & ? & _)]|].
    destruct (everyRootHoldsAPath paths _); cbn [negb]; [|split; [done|by intros (_ & _ & _ & ? & _)]].
    rewrite membership_count. naive_solver.
Qed.
End Exact.
