(* ===== verification/Disclosure.v ===== *)
(** * Disclosing the worktree

    [internal/codesignalcli]'s [worktree_*.go] and [projectcheck/dirty_worktree.go]: a scan
    reads committed content only, and tells what of the worktree it did not see. *)

From Stdlib Require Import Ascii.
From S2P Require Import Prelude GoOrder GoText GoErr Signals TreeSource GitRepo.

(** go: pkg/codesignal/diagnostics.go:29-29#DiagKindWorktreeChangesNotAnalyzed *)
Definition DiagKindWorktreeChangesNotAnalyzed : string := "worktree_changes_not_analyzed".
(** go: pkg/codesignal/diagnostics.go:51-51#DiagKindWorktreeNotClean *)
Definition DiagKindWorktreeNotClean : string := "worktree_not_clean".
(** go: pkg/codesignal/diagnostics.go:52-52#DiagKindWorktreeStatusCheckFailed *)
Definition DiagKindWorktreeStatusCheckFailed : string := "worktree_status_check_failed".
(** go: pkg/codesignal/diagnostics.go:53-53#DiagKindWorktreeReportReflectsCommittedHEAD *)
Definition DiagKindWorktreeReportReflectsCommittedHEAD : string := "worktree_report_reflects_committed_head".

(** ** [worktree_disclosure.go] *)

(** go: internal/codesignalcli/worktree_disclosure.go#worktreeDisclosureSampleLimit *)
Definition worktreeDisclosureSampleLimit : nat := 5.

(** go: internal/codesignalcli/worktree_disclosure.go#worktreeDisclosureDiagnostic *)
Definition worktreeDisclosureDiagnostic (kind message : string) : Diagnostic := file_diagnostic "" kind message.

(** go: internal/codesignalcli/worktree_disclosure.go#worktreeStatusFailureDiagnostic *)
Definition worktreeStatusFailureDiagnostic (err : BoundedFailure) : Diagnostic :=
  worktreeDisclosureDiagnostic DiagKindWorktreeStatusCheckFailed ("working tree status check failed: " +:+ bounded_message err).

(** go: internal/codesignalcli/worktree_disclosure.go#supportedWorktreePath *)
Definition supportedWorktreePath (path : string) : bool :=
  match LanguageForExtension (Ext path) with Some _ => true | None => false end.

(** go: internal/codesignalcli/worktree_disclosure.go#worktreePathSample *)
Definition worktreePathSample (paths : list string) : string * bool :=
  if length paths <=? worktreeDisclosureSampleLimit then (Join paths ", ", false)
  else (Join (take worktreeDisclosureSampleLimit paths) ", ", true).

Definition sampled (paths : list string) : string :=
  let '(sample, truncated) := worktreePathSample paths in if truncated then sample +:+ ", …" else sample.

(** go: internal/codesignalcli/worktree_disclosure.go#supportedWorktreeMessage *)
Definition supportedWorktreeMessage (classification : string) (paths : list string) : string :=
  let '(noun, verb) := match paths with [_] => ("file", "was") | _ => ("files", "were") end in
  Itoa (zlen paths) +:+ " " +:+ classification +:+ " " +:+ noun +:+ " " +:+ verb +:+ " not analyzed: " +:+ sampled paths.

(** go: internal/codesignalcli/worktree_disclosure.go#worktreeNotCleanMessage *)
Definition worktreeNotCleanMessage (paths : list string) : string := "working tree is not clean: " +:+ sampled paths.

(** go: internal/codesignalcli/worktree_disclosure.go#unsupportedOnlyDiagnostic *)
Definition unsupportedOnlyDiagnostic (unsupported : list string) : list Diagnostic :=
  match unsupported with
  | [] => []
  | _ => [worktreeDisclosureDiagnostic DiagKindWorktreeNotClean (worktreeNotCleanMessage (sort_strings unsupported))]
  end.

(** go: internal/codesignalcli/worktree_disclosure.go#appendCategory *)
Definition appendCategory (diagnostics : list Diagnostic) (classification : string) (paths : list string) : list Diagnostic :=
  match paths with
  | [] => diagnostics
  | _ => diagnostics ++ [worktreeDisclosureDiagnostic DiagKindWorktreeChangesNotAnalyzed
                           (supportedWorktreeMessage classification paths)]
  end.

(** ** [worktree_paths.go] *)

(** go: internal/codesignalcli/worktree_paths.go#worktreePathSets *)
Record worktreePathSets := mkPathSets {
  wp_untracked : list string; wp_staged : list string; wp_modified : list string; wp_unmerged : list string;
  wp_unsupported : list string
}.

Definition add_if (b : bool) (l : list string) (path : string) : list string := if b then l ++ [path] else l.

(** go: internal/codesignalcli/worktree_paths.go#appendSupported *)
Definition appendSupported (s : worktreePathSets) (path : string) (untracked staged modified unmerged : bool) : worktreePathSets :=
  mkPathSets (add_if untracked (wp_untracked s) path) (add_if staged (wp_staged s) path)
    (add_if modified (wp_modified s) path) (add_if unmerged (wp_unmerged s) path) (wp_unsupported s).

(** go: internal/codesignalcli/worktree_paths.go#add *)
Definition add_entry (s : worktreePathSets) (entry : WorktreeEntry) : worktreePathSets :=
  if we_Path entry == "" then s else
  let '(untracked, staged, modified, unmerged) := ClassifyWorktreeStatus (we_Code entry) in
  if negb untracked && negb staged && negb modified && negb unmerged then s
  else if negb (supportedWorktreePath (we_Path entry))
  then mkPathSets (wp_untracked s) (wp_staged s) (wp_modified s) (wp_unmerged s) (wp_unsupported s ++ [we_Path entry])
  else appendSupported s (we_Path entry) untracked staged modified unmerged.

(** go: internal/codesignalcli/worktree_paths.go#collectWorktreePaths *)
Definition collectWorktreePaths (entries : list WorktreeEntry) : worktreePathSets :=
  fold_left add_entry entries (mkPathSets [] [] [] [] []).

(** go: internal/codesignalcli/worktree_paths.go#diagnostics *)
Definition sets_diagnostics (s : worktreePathSets) : list Diagnostic :=
  let diagnostics := appendCategory [] "untracked" (sort_strings (wp_untracked s)) in
  let diagnostics := appendCategory diagnostics "staged" (sort_strings (wp_staged s)) in
  let diagnostics := appendCategory diagnostics "modified" (sort_strings (wp_modified s)) in
  let diagnostics := appendCategory diagnostics "unmerged" (sort_strings (wp_unmerged s)) in
  match diagnostics with
  | _ :: _ => diagnostics
  | [] => unsupportedOnlyDiagnostic (wp_unsupported s)
  end.

(** go: internal/codesignalcli/worktree_disclosure.go#disclosureDiagnostics *)
Definition disclosureDiagnostics (entries : list WorktreeEntry) : list Diagnostic :=
  sets_diagnostics (collectWorktreePaths entries).

(** The variable [listWorktreeStatus]: what reads the status of a directory. *)
Definition StatusReader : Type := string → BoundedFailure + list WorktreeEntry.

(** go: internal/codesignalcli/worktree_disclosure.go#WorkingTreeDisclosureDiagnostics *)
Definition WorkingTreeDisclosureDiagnostics (listWorktreeStatus : StatusReader) (dir : string) : list Diagnostic :=
  match listWorktreeStatus dir with
  | inl err => [worktreeStatusFailureDiagnostic err]
  | inr entries => disclosureDiagnostics entries
  end.

(** ** [worktree_status_snapshot.go] *)

(** go: internal/codesignalcli/worktree_status_snapshot.go#CaptureWorktreeStatus *)
Definition CaptureWorktreeStatus (listWorktreeStatus : StatusReader) (dir : string) : BoundedFailure + list WorktreeEntry :=
  listWorktreeStatus dir.

(** The reader from then on, and the one that [restore] puts back.

    go: internal/codesignalcli/worktree_status_snapshot.go#UseWorktreeStatusSnapshot *)
Definition UseWorktreeStatusSnapshot (listWorktreeStatus : StatusReader) (captured : BoundedFailure + list WorktreeEntry) :
    StatusReader * StatusReader := (λ _, captured, listWorktreeStatus).

(** ** [projectcheck/dirty_worktree.go] *)

(** [path.Base]. *)
Definition path_Base (p : string) : string :=
  if p == "" then "." else
  let p := rev_string (TrimLeftByte ch_slash (rev_string p)) in
  let p := match CutLast ch_slash p with Some (_, last) => last | None => p end in
  if p == "" then "/" else p.

(** go: internal/codesignalcli/projectcheck/dirty_worktree.go#alwaysRelevantMetadataBasenames *)
Definition alwaysRelevantMetadataBasenames : list string :=
  ["package.json"; "package-lock.json"; "yarn.lock"; "pnpm-lock.yaml"; "npm-shrinkwrap.json"; "bun.lock"; "bun.lockb";
   ".npmrc"; "bunfig.toml"].

(** go: internal/codesignalcli/projectcheck/dirty_worktree.go#pathUnderRoot *)
Definition pathUnderRoot (candidate root : string) : bool :=
  if (root == ".") || (root == "") then true else (candidate == root) || HasPrefix (root +:+ "/") candidate.

(** go: internal/codesignalcli/projectcheck/dirty_worktree.go#IsRelevantDirtyPath *)
Definition IsRelevantDirtyPath (candidate : string) (roots : list string) (policyPath : string) : bool :=
  if candidate == policyPath then true else
  let base := path_Base candidate in
  if HasPrefix "tsconfig" base then true
  else if existsb (String.eqb base) alwaysRelevantMetadataBasenames then true
  else existsb (pathUnderRoot candidate) roots.

(** go: internal/codesignalcli/projectreadiness/result.go#DirtyWorktree *)
Record DirtyWorktree := mkDirtyWorktree { dw_RelevantChanges : bool; dw_Paths : list string }.

(** go: internal/codesignalcli/projectcheck/dirty_worktree.go#detectRelevantDirtyWorktree *)
Definition detectRelevantDirtyWorktree {git : BoundedGit} (dir : string) (roots : list string) (policyPath : string) :
    OperationalError + DirtyWorktree :=
  match WorktreeStatus dir with
  | inl err => inl (operational ("coach codesignal --check-project: git status failed: " +:+ bounded_message err))
  | inr entries =>
      let relevant := sort_strings (List.filter (λ p, IsRelevantDirtyPath p roots policyPath) (map we_Path entries)) in
      inr (mkDirtyWorktree (0 <? zlen relevant)%Z relevant)
  end.

(** ** [worktree_project_diagnostic.go] *)

(** go: internal/codesignalcli/worktree_project_diagnostic.go#hasRelevantDirtyWorktree *)
Definition hasRelevantDirtyWorktree (entries : list WorktreeEntry) (roots : list string) (configPath : string) : bool :=
  existsb (λ entry, IsRelevantDirtyPath (we_Path entry) roots configPath) entries.

(** go: internal/codesignalcli/worktree_project_diagnostic.go#hasDiagnosticKind *)
Definition hasDiagnosticKind (diagnostics : list Diagnostic) (kind : string) : bool :=
  existsb (λ d, dg_Kind d == kind) diagnostics.

(** go: internal/codesignalcli/worktree_project_diagnostic.go#appendDiagnosticCopy *)
Definition appendDiagnosticCopy (diagnostics : list Diagnostic) (extra : Diagnostic) : list Diagnostic := diagnostics ++ [extra].

(** go: internal/codesignalcli/worktree_project_diagnostic.go#appendProjectWorktreeDiagnostic *)
Definition appendProjectWorktreeDiagnostic (listWorktreeStatus : StatusReader) (diagnostics : list Diagnostic) (dir : string)
    (roots : list string) (configPath : string) : list Diagnostic :=
  match listWorktreeStatus dir with
  | inl err =>
      if hasDiagnosticKind diagnostics DiagKindWorktreeStatusCheckFailed || hasDiagnosticKind diagnostics DiagKindWorktreeNotClean
      then diagnostics else appendDiagnosticCopy diagnostics (worktreeStatusFailureDiagnostic err)
  | inr entries =>
      if negb (hasRelevantDirtyWorktree entries roots configPath) then diagnostics
      else if hasDiagnosticKind diagnostics DiagKindWorktreeReportReflectsCommittedHEAD then diagnostics
      else appendDiagnosticCopy diagnostics
             (file_diagnostic "" DiagKindWorktreeReportReflectsCommittedHEAD "report reflects committed HEAD")
  end.

(** ** What is disclosed *)

(** An entry git reports something about. *)
Definition dirty (e : WorktreeEntry) : bool :=
  (we_Path e != "") && (let '(u, s, m, x) := ClassifyWorktreeStatus (we_Code e) in u || s || m || x).

Definition class_of (k : nat) (e : WorktreeEntry) : bool :=
  let '(u, s, m, x) := ClassifyWorktreeStatus (we_Code e) in nth k [u; s; m; x] false.

(** The paths of the supported entries in a class, and of the unsupported ones. *)
Definition class_paths (k : nat) (entries : list WorktreeEntry) : list string :=
  map we_Path (List.filter (λ e, dirty e && supportedWorktreePath (we_Path e) && class_of k e) entries).
Definition unsupported_paths (entries : list WorktreeEntry) : list string :=
  map we_Path (List.filter (λ e, dirty e && negb (supportedWorktreePath (we_Path e))) entries).

Lemma collect_exact entries :
  collectWorktreePaths entries
  = mkPathSets (class_paths 0 entries) (class_paths 1 entries) (class_paths 2 entries) (class_paths 3 entries)
      (unsupported_paths entries).
Proof.
  unfold collectWorktreePaths.
  enough (∀ s, fold_left add_entry entries s
    = mkPathSets (wp_untracked s ++ class_paths 0 entries) (wp_staged s ++ class_paths 1 entries)
        (wp_modified s ++ class_paths 2 entries) (wp_unmerged s ++ class_paths 3 entries)
        (wp_unsupported s ++ unsupported_paths entries)) as -> by done.
  induction entries as [|e entries IH]; intros s.
  - cbn. rewrite !app_nil_r. by destruct s.
  - cbn [fold_left]. rewrite IH. unfold class_paths, unsupported_paths, add_entry. cbn [List.filter].
    unfold dirty, class_of. destruct (we_Path e == ""); [done|]. cbn [negb andb].
    destruct (ClassifyWorktreeStatus (we_Code e)) as [[[u st] m] x].
    destruct u, st, m, x, (supportedWorktreePath (we_Path e)); cbn; by rewrite <- ?app_assoc.
Qed.

Definition class_diagnostic (entries : list WorktreeEntry) (kc : nat * string) : list Diagnostic :=
  appendCategory [] kc.2 (sort_strings (class_paths kc.1 entries)).

Definition classes : list (nat * string) := [(0, "untracked"); (1, "staged"); (2, "modified"); (3, "unmerged")].

Lemma appendCategory_app ds c paths : appendCategory ds c paths = ds ++ appendCategory [] c paths.
Proof. destruct paths; [by rewrite app_nil_r|done]. Qed.

Lemma sort_strings_nil l : sort_strings l = [] ↔ l = [].
Proof.
  split; [|by intros ->]. intros H. apply length_zero_iff_nil. rewrite <- (stable_sort_length str_less l).
  change (stable_sort str_less l) with (sort_strings l). by rewrite H.
Qed.

Lemma class_diagnostic_nil entries kc : class_diagnostic entries kc = [] ↔ class_paths kc.1 entries = [].
Proof.
  unfold class_diagnostic. rewrite <- sort_strings_nil. destruct (sort_strings _); [done|]. split; [|done]. by destruct kc.
Qed.

Lemma filter_nil_iff {A} (f : A → bool) l : List.filter f l = [] ↔ ∀ x, In x l → f x = false.
Proof.
  split; [|apply filter_nil]. intros H x Hx. destruct (f x) eqn:E; [|done].
  assert (In x (List.filter f l)) as Hf by (by apply filter_In). by rewrite H in Hf.
Qed.

Lemma class_paths_nil k entries : class_paths k entries = [] ↔
  ∀ e, In e entries → dirty e = true → supportedWorktreePath (we_Path e) = true → class_of k e = false.
Proof.
  unfold class_paths. split.
  - intros H%map_eq_nil e He Hd Hs. assert (E := proj1 (filter_nil_iff _ entries) H e He). cbn in E.
    by rewrite Hd, Hs in E.
  - intros H. rewrite filter_nil; [done|]. intros e He. destruct (dirty e) eqn:Hd, (supportedWorktreePath (we_Path e)) eqn:Hs; cbn; auto.
Qed.

(** Every dirty entry is in a class. *)
Lemma dirty_class e : dirty e = true → ∃ k c, In (k, c) classes ∧ class_of k e = true.
Proof.
  unfold dirty, class_of. intros [_ H]%andb_true_iff. destruct (ClassifyWorktreeStatus (we_Code e)) as [[[[] []] []] []]; try done.
  all: first [by exists 0, "untracked"; split; [left|]|by exists 1, "staged"; split; [right; left|]
    |by exists 2, "modified"; split; [do 2 right; left|]|by exists 3, "unmerged"; split; [do 3 right; left|]].
Qed.

Lemma disclosure_eq entries :
  disclosureDiagnostics entries = match flat_map (class_diagnostic entries) classes with
    | [] => unsupportedOnlyDiagnostic (unsupported_paths entries) | ds => ds end.
Proof.
  unfold disclosureDiagnostics, sets_diagnostics. rewrite collect_exact. cbn [wp_untracked wp_staged wp_modified wp_unmerged wp_unsupported].
  rewrite (appendCategory_app (appendCategory (appendCategory _ _ _) _ _)), (appendCategory_app (appendCategory _ _ _)),
    (appendCategory_app (appendCategory _ _ _)). unfold classes. cbn [flat_map]. rewrite app_nil_r, !app_assoc.
  unfold class_diagnostic. cbn [fst snd]. by destruct (((_ ++ _) ++ _) ++ _).
Qed.

Lemma classes_nil entries : flat_map (class_diagnostic entries) classes = [] ↔
  ∀ e, In e entries → dirty e = true → supportedWorktreePath (we_Path e) = false.
Proof.
  split.
  - intros H e He Hd. destruct (supportedWorktreePath (we_Path e)) eqn:Hs; [|done].
    destruct (dirty_class e Hd) as (k & c & Hk & Hc).
    assert (class_diagnostic entries (k, c) = []) as Hn.
    { destruct (class_diagnostic entries (k, c)) as [|d ds] eqn:Ed; [done|].
      assert (In d (flat_map (class_diagnostic entries) classes)) as Hin; [|by rewrite H in Hin].
      apply in_flat_map. exists (k, c). split; [done|]. rewrite Ed. by left. }
    apply class_diagnostic_nil in Hn. by rewrite (proj1 (class_paths_nil k entries) Hn e He Hd Hs) in Hc.
  - intros H. assert (∀ k c, class_diagnostic entries (k, c) = []) as Hn.
    { intros k c. apply class_diagnostic_nil, class_paths_nil. intros e He Hd Hs. by rewrite (H e He Hd) in Hs. }
    unfold classes. cbn [flat_map]. by rewrite !Hn.
Qed.

Lemma unsupported_nil entries : unsupportedOnlyDiagnostic (unsupported_paths entries) = [] ↔
  ∀ e, In e entries → dirty e = true → supportedWorktreePath (we_Path e) = true.
Proof.
  assert (unsupportedOnlyDiagnostic (unsupported_paths entries) = [] ↔ unsupported_paths entries = []) as ->
    by (by destruct (unsupported_paths entries)).
  unfold unsupported_paths. split.
  - intros H%map_eq_nil e He Hd. assert (Hf := proj1 (filter_nil_iff _ entries) H e He). cbn in Hf. rewrite Hd in Hf.
    by apply negb_false_iff in Hf.
  - intros H. rewrite filter_nil; [done|]. intros e He. destruct (dirty e) eqn:Hd; [|done]. by rewrite (H e He Hd).
Qed.

Definition disclosure_kind (d : Diagnostic) : Prop :=
  dg_Path d = "" ∧ dg_Kind d ∈ [DiagKindWorktreeChangesNotAnalyzed; DiagKindWorktreeNotClean].

Lemma classes_kind entries : Forall disclosure_kind (flat_map (class_diagnostic entries) classes).
Proof.
  assert (∀ c paths, Forall disclosure_kind (appendCategory [] c paths)) as Hc by (intros c [|]; repeat constructor).
  unfold classes. cbn [flat_map]. rewrite !Forall_app. repeat split; try apply Hc; constructor.
Qed.

(** The worktree is disclosed in full: nothing is said exactly when git reports nothing;
    the dirty files of supported languages are told by class, each class once with the
    number of its files and the first five; and when there are none of those, the other
    dirty files are told. *)
Theorem disclosure_exact entries :
  let ds := disclosureDiagnostics entries in
  (ds = [] ↔ ∀ e, In e entries → dirty e = false) ∧
  ((∃ e, In e entries ∧ dirty e = true ∧ supportedWorktreePath (we_Path e) = true) →
     ds = flat_map (class_diagnostic entries) classes) ∧
  ((∀ e, In e entries → dirty e = true → supportedWorktreePath (we_Path e) = false) →
     ds = unsupportedOnlyDiagnostic (unsupported_paths entries)) ∧
  Forall disclosure_kind ds.
Proof.
  cbv zeta. rewrite disclosure_eq. pose proof (classes_nil entries) as Hnil. pose proof (classes_kind entries) as Hkind.
  destruct (flat_map _ classes) as [|d ds] eqn:Ef.
  - assert (Hn := proj1 Hnil eq_refl). split; [|split; [|split; [done|]]].
    + rewrite unsupported_nil. split; [|intros H e He; by rewrite (H e He)].
      intros H e He. destruct (dirty e) eqn:Hd; [|done]. specialize (H e He Hd). by rewrite (Hn e He Hd) in H.
    + intros (e & He & Hd & Hs). by rewrite (Hn e He Hd) in Hs.
    + destruct (unsupported_paths entries); repeat constructor.
  - split; [|split; [done|split; [|done]]].
    + split; [done|]. intros H. apply Hnil. intros e He Hd. by rewrite (H e He) in Hd.
    + intros H. by apply Hnil in H.
Qed.

Example disclosure_example :
  map dg_Message (disclosureDiagnostics
    [mkEntry "??" "new.go"; mkEntry "MM" "a.ts"; mkEntry " M" "README.md"; mkEntry "UU" "b.go"; mkEntry "M " "z.tsx"])
  = ["1 untracked file was not analyzed: new.go"; "2 staged files were not analyzed: a.ts, z.tsx";
     "1 modified file was not analyzed: a.ts"; "1 unmerged file was not analyzed: b.go"].
Proof. vm_compute. reflexivity. Qed.
