(* ===== verification/Scan.v ===== *)
(** * The scan of a repository

    [internal/codesignalcli]: reading the files of a diff or of a whole revision, analysing
    each side, the changed ranges of a diff, and the report of [pkg/codesignal] over all of
    it ([changed_ranges*.go], [analyze_*.go], [project_analysis.go]).  The project backend
    is an interface; [ProjectBackends] has the two of the package. *)

From Stdlib Require Import Ascii.
From S2P Require Import Prelude GoOrder GoText ProjectConfig GoErr Json Semantics Domain Signals Report ProjectReport SignalOrder Syntax FileSignals Analyzer TreeSource GitRepo GoUnquote Disclosure.

(** ** [changed_ranges.go] *)

(** [(?:,(\d+))?] *)
Definition optional_count (s : string) : string * string :=
  match s with
  | String c t => if Ascii.eqb c "," then match scan_digits1 t with Some p => p | None => ("", s) end else ("", s)
  | EmptyString => ("", s)
  end.

(** The two groups of a match; no repetition of the pattern can give back what it took, as
    none is followed by something it could take.

    go: internal/codesignalcli/changed_ranges.go#hunkHeaderPattern *)
Definition hunkHeaderPattern (line : string) : option (string * string) :=
  s ← CutPrefix "@@ -" line;
  p ← scan_digits1 s;
  s ← CutPrefix " +" (optional_count p.2).2;
  p ← scan_digits1 s;
  let '(count, s) := optional_count p.2 in
  match CutPrefix " @@" s with Some _ => Some (p.1, count) | None => None end.

(** [uint] of an [int]. *)
Definition to_uint (z : Z) : N := Z.to_N (z mod 2 ^ 64).

Section Scan.
Context {table : IsPrint}.

(** The error of [strconv.Atoi] on digits. *)
Definition out_of_range (digits : string) : error :=
  errors_New ("strconv.Atoi: parsing " +:+ dq +:+ digits +:+ dq +:+ ": value out of range").

(** go: internal/codesignalcli/changed_ranges.go#parseHunkHeaderRange *)
Definition parseHunkHeaderRange (line : string) : error + option LineRange :=
  match hunkHeaderPattern line with
  | None => inl (errors_New ("unparsable hunk header: " +:+ quoted line))
  | Some (start, count) =>
      match Atoi start with
      | None => inl (Errorf ("invalid hunk new-start in " +:+ quoted line +:+ ": ") (out_of_range start))
      | Some newStart =>
          match (if count != "" then Atoi count else Some 1%Z) with
          | None => inl (Errorf ("invalid hunk new-count in " +:+ quoted line +:+ ": ") (out_of_range count))
          | Some newCount =>
              if (newCount =? 0)%Z then inr None
              else inr (Some (mkLineRange (to_uint (int64_wrap (newStart - 1)))
                                (to_uint (int64_wrap (int64_wrap (newStart + newCount) - 2)))))
          end
      end
  end.

Definition newline_byte : ascii := byte_of 10.
Definition maxLine : Z := 16 * 1024 * 1024.

(** The lines of a [bufio.Scanner]: without the end of the line, and without a text after
    the last end when there is none. *)
Definition scan_lines (s : string) : list string :=
  match SplitByte newline_byte s with
  | [] => []
  | l => if List.last l "" == "" then removelast l else l
  end.

Definition drop_cr (line : string) : string := TrimSuffixByte (byte_of 13) line.

Fixpoint ranges_of_lines (lines : list string) (ranges : list LineRange) : error + list LineRange :=
  match lines with
  | [] => inr ranges
  | line :: lines =>
      if (maxLine <=? Z.of_nat (String.length line))%Z then inl (errors_New "bufio.Scanner: token too long") else
      let line := drop_cr line in
      if negb (HasPrefix "@@ " line) then ranges_of_lines lines ranges
      else match parseHunkHeaderRange line with
      | inl err => inl err
      | inr (Some r) => ranges_of_lines lines (ranges ++ [r])
      | inr None => ranges_of_lines lines ranges
      end
  end.

(** go: internal/codesignalcli/changed_ranges.go#parseChangedRanges *)
Definition parseChangedRanges (diff : string) : error + list LineRange := ranges_of_lines (scan_lines diff) [].

(** go: internal/codesignalcli/changed_ranges_diff.go#computeChangedRanges *)
Definition computeChangedRanges {git : Git} (dir mergeBaseSHA path : string) : Diagnostic + list LineRange :=
  let failed what err := inl (file_diagnostic path "diff_analysis_failed" (what +:+ quoted path +:+ ": " +:+ err_Error err)) in
  match RunBytes dir ["diff"; "--unified=0"; "--no-ext-diff"; mergeBaseSHA; "HEAD"; "--"; path] with
  | inl err => failed "computing changed ranges for " err
  | inr output =>
      match parseChangedRanges output with
      | inl err => failed "parsing diff for " err
      | inr ranges => inr ranges
      end
  end.

(** ** [analyze_changed_file.go], [analyze_removed_file.go] *)

Definition analyze_message (err : AnalyzeError) : string :=
  match err with PlainError e => err_Error e | SyntaxErr e => SyntaxError_Error e end.

(** go: internal/codesignalcli/analyze_baseline.go#readFailedDiagnostic *)
Definition readFailedDiagnostic (path side : string) (err : error) : Diagnostic :=
  file_diagnostic path (side +:+ "_read_failed") ("reading " +:+ side +:+ " content for " +:+ quoted path +:+ ": " +:+ err_Error err).

(** go: internal/codesignalcli/analyze_baseline.go#baseSyntaxDiagnostics *)
Definition baseSyntaxDiagnostics (path : string) (baseErr : AnalyzeError) : list Diagnostic :=
  match baseErr with
  | PlainError err => [file_diagnostic path "base_syntax_errors" (err_Error err)]
  | SyntaxErr err =>
      map (λ issue, mkDiagnostic path "base_syntax_errors"
                      ("base analysis found a syntax issue of kind " +:+ quoted (iss_Kind issue))
                      (Some (iss_Location issue)) "" "") (se_Issues err)
  end.

(** go: internal/codesignalcli/analyze_changes.go#mapSemanticsError *)
Definition mapSemanticsError (path : string) (err : AnalyzeError) : Diagnostic :=
  let kind :=
    if analyze_Is err SemErrEmptyContent then "empty_content"
    else if analyze_Is err SemErrBinaryContent then "binary_content"
    else if analyze_Is err SemErrFileTooLarge then "file_too_large"
    else if analyze_Is err SemErrUnsupportedLanguage then "unsupported_language"
    else "analysis_failed" in
  file_diagnostic path kind (analyze_message err).

Context {E : Engine} {U : Unicode} {git : Git}.

(** A file analysed at a moment. *)
Definition analyze (a : Analyzer) (ctx : Context) (t : nat) (sf : SelectedFile) (content : string) :
    option Result * option AnalyzeError :=
  AnalyzeBytes a ctx t (mkFileInput (sf_Path sf) (sf_Language sf) content).

Definition is_syntax (err : AnalyzeError) : bool := analyze_Is err SemErrSyntax.

(** [git show revision:path]. *)
Definition show (dir revision path : string) : error + string := RunBytes dir ["show"; revision +:+ ":" +:+ path].

(** What the base of a modified file gives: its result, if it has one, and diagnostics. *)
Definition base_side (a : Analyzer) (ctx : Context) (t : nat) (dir mergeBaseSHA : string) (sf : SelectedFile) :
    option Result * list Diagnostic :=
  match show dir mergeBaseSHA (sf_Path sf) with
  | inl err => (None, [readFailedDiagnostic (sf_Path sf) "base" err])
  | inr baseBytes =>
      match analyze a ctx t sf baseBytes with
      | (baseResult, None) => (baseResult, [])
      | (_, Some baseErr) =>
          if is_syntax baseErr then (None, baseSyntaxDiagnostics (sf_Path sf) baseErr)
          else (None, [file_diagnostic (sf_Path sf) "base_analysis_failed" (analyze_message baseErr)])
      end
  end.

(** go: internal/codesignalcli/analyze_changed_file.go#analyzeAddedOrModifiedFile *)
Definition analyzeAddedOrModifiedFile (a : Analyzer) (ctx : Context) (t : nat) (dir headSHA mergeBaseSHA : string)
    (sf : SelectedFile) : option FileChange * list Diagnostic :=
  match show dir headSHA (sf_Path sf) with
  | inl err => (None, [readFailedDiagnostic (sf_Path sf) "head" err])
  | inr headBytes =>
      let '(headResult, headErr) := analyze a ctx t sf headBytes in
      let analysed :=
        let '(base, diagnostics) :=
          if sf_Status sf == "modified" then base_side a ctx (t + 4) dir mergeBaseSHA sf else (None, []) in
        let '(ranges, diagnostics) :=
          match computeChangedRanges dir mergeBaseSHA (sf_Path sf) with
          | inl d => ([], diagnostics ++ [d])
          | inr ranges => (ranges, diagnostics)
          end in
        (Some (mkFileChange (sf_Path sf) (sf_Status sf) (sf_SourceScope sf) base headResult ranges), diagnostics) in
      match headErr with
      | Some headErr => if negb (is_syntax headErr) then (None, [mapSemanticsError (sf_Path sf) headErr]) else analysed
      | None => analysed
      end
  end.

(** go: internal/codesignalcli/analyze_removed_file.go#analyzeRemovedFile *)
Definition analyzeRemovedFile (a : Analyzer) (ctx : Context) (t : nat) (dir mergeBaseSHA : string) (sf : SelectedFile) :
    option FileChange * list Diagnostic :=
  match show dir mergeBaseSHA (sf_Path sf) with
  | inl err => (None, [readFailedDiagnostic (sf_Path sf) "base" err])
  | inr baseBytes =>
      match analyze a ctx t sf baseBytes with
      | (baseResult, None) => (Some (mkFileChange (sf_Path sf) (sf_Status sf) (sf_SourceScope sf) baseResult None []), [])
      | (_, Some baseErr) =>
          if is_syntax baseErr then (None, baseSyntaxDiagnostics (sf_Path sf) baseErr)
          else (None, [mapSemanticsError (sf_Path sf) baseErr])
      end
  end.

(** ** [project_analysis.go] *)

(** go: internal/codesignalcli/project_analysis.go#ProjectBackendRequest *)
Record ProjectBackendRequest := mkBackendRequest {
  br_Dir : string; br_HeadRevision : string; br_BaseRevision : string; br_Baseline : bool;
  br_ConfigPath : string; br_Config : RawMessage; br_ConfigDigest : string; br_Language : string
}.

(** go: internal/codesignalcli/project_analysis.go#ProjectBackendResult *)
Record ProjectBackendResult := mkBackendResult {
  bres_HeadChanges : list ProjectChange; bres_BaseChanges : list ProjectChange; bres_Facts : list ProjectFact;
  bres_HeadDiagnostics : list Diagnostic; bres_BaseDiagnostics : list Diagnostic;
  bres_HeadCoverage : option ProjCoverage; bres_BaseCoverage : option ProjCoverage;
  bres_HeadProjectScope : option ProjectScope; bres_BaseProjectScope : option ProjectScope;
  bres_HeadLayerMembership : option LayerMembership; bres_BaseLayerMembership : option LayerMembership;
  bres_HeadModelCoverage : option ProjCoverage; bres_BaseModelCoverage : option ProjCoverage;
  bres_HeadBypassCoverage : option ProjCoverage; bres_BaseBypassCoverage : option ProjCoverage;
  bres_HeadReachabilityCoverage : option ProjCoverage; bres_BaseReachabilityCoverage : option ProjCoverage;
  bres_BaseAnalyzed : bool;
  bres_RuntimeKind : string; bres_RuntimeVersion : string; bres_RuntimeOrigin : string;
  bres_CompilerVersion : string; bres_CompilerOrigin : string;
  bres_AnalyzerProtocolVersion : Z; bres_AnalyzerVersion : string; bres_AnalyzerDigest : string;
  bres_PackageManagerKind : string; bres_PackageManagerVersion : string; bres_PackageManagerOrigin : string
}.

(** The interface of a backend: a request to an error or a result, which may be nil.

    go: internal/codesignalcli/project_analysis.go#ProjectBackend *)
Definition ProjectBackend : Type := ProjectBackendRequest → error + option ProjectBackendResult.

(** go: internal/codesignalcli/project_analysis.go#ProjectAnalysis *)
Record ProjectAnalysis := mkProjectAnalysis {
  pan_ConfigPath : string; pan_Language : string; pan_Config : RawMessage; pan_ConfigDigest : string;
  pan_Backend : option ProjectBackend
}.

Context {json_errors : JsonErrors}.

(** go: internal/codesignalcli/project_analysis.go#selectedRootsFromConfig *)
Definition selectedRootsFromConfig (config : RawMessage) : list string :=
  if config == "" then [] else
  match ProjectConfig.Parse config with inl _ => [] | inr cfg => ProjectConfig.pc_Roots cfg end.

(** go: internal/codesignalcli/project_analysis.go#forbiddenImportsDeclared *)
Definition forbiddenImportsDeclared (config : RawMessage) : bool :=
  if config == "" then false else
  match ProjectConfig.Parse config with
  | inl _ => false
  | inr cfg => match ProjectConfig.pc_ForbiddenImports cfg with [] => false | _ => true end
  end.

(** go: internal/codesignalcli/project_analysis.go#headProjectDiagnostics *)
Definition headProjectDiagnostics (diagnostics : list Diagnostic) (headRevision : string) : list Diagnostic :=
  map (λ d, mkDiagnostic (dg_Path d) (dg_Kind d) (dg_Message d) (dg_Location d) "head" headRevision) diagnostics.

(** go: internal/codesignalcli/project_analysis.go#baseProjectDiagnostics *)
Definition baseProjectDiagnostics (diagnostics : list Diagnostic) (baseRevision : string) : list Diagnostic :=
  map (λ d, mkDiagnostic (dg_Path d) ("base_" +:+ dg_Kind d) (dg_Message d) (dg_Location d) "base" baseRevision) diagnostics.

(** go: internal/projectbridge/protocol.go#ProtocolVersion *)
Definition ProtocolVersion : Z := 1.

(** The reader of the worktree's status. *)
Context (listWorktreeStatus : StatusReader).

(** The input with what a backend found.

    go: internal/codesignalcli/project_analysis.go:142-195#applyProjectBackend *)
Definition merge_project (input : Input) (project : ProjectAnalysis) (dir headRevision baseRevision : string)
    (result : ProjectBackendResult) : Input :=
  let diagnostics :=
    in_Diagnostics input ++ headProjectDiagnostics (bres_HeadDiagnostics result) headRevision
      ++ baseProjectDiagnostics (bres_BaseDiagnostics result) baseRevision in
  let analyzerProtocolVersion :=
    if (pan_Language project == "typescript") && (bres_AnalyzerProtocolVersion result =? 0)%Z then ProtocolVersion
    else bres_AnalyzerProtocolVersion result in
  let roots := selectedRootsFromConfig (pan_Config project) in
  let diagnostics := appendProjectWorktreeDiagnostic listWorktreeStatus diagnostics dir roots (pan_ConfigPath project) in
  {| in_Scope := in_Scope input; in_Files := in_Files input; in_Diagnostics := diagnostics; in_Coverage := in_Coverage input;
     in_ProjectChanges := bres_HeadChanges result; in_BaseProjectChanges := bres_BaseChanges result;
     in_ProjectFacts := bres_Facts result; in_ProjectCoverage := bres_HeadCoverage result;
     in_BaseProjectCoverage := bres_BaseCoverage result; in_ProjectBaseAnalyzed := bres_BaseAnalyzed result;
     in_UndeterminedContinuity := in_UndeterminedContinuity input;
     in_RuntimeKind := bres_RuntimeKind result; in_RuntimeVersion := bres_RuntimeVersion result;
     in_RuntimeOrigin := bres_RuntimeOrigin result; in_CompilerVersion := bres_CompilerVersion result;
     in_CompilerOrigin := bres_CompilerOrigin result; in_Language := pan_Language project;
     in_ConfigDigest := pan_ConfigDigest project; in_SelectedRoots := roots;
     in_AnalyzerProtocolVersion := analyzerProtocolVersion; in_AnalyzerVersion := bres_AnalyzerVersion result;
     in_AnalyzerDigest := bres_AnalyzerDigest result;
     in_PackageManagerKind := bres_PackageManagerKind result; in_PackageManagerVersion := bres_PackageManagerVersion result;
     in_PackageManagerOrigin := bres_PackageManagerOrigin result;
     in_HeadProjectScope := bres_HeadProjectScope result; in_BaseProjectScope := bres_BaseProjectScope result;
     in_HeadLayerMembership := bres_HeadLayerMembership result; in_BaseLayerMembership := bres_BaseLayerMembership result;
     in_LayerForbiddenImportsDeclared := forbiddenImportsDeclared (pan_Config project);
     in_HeadModelCoverage := bres_HeadModelCoverage result; in_BaseModelCoverage := bres_BaseModelCoverage result;
     in_HeadBypassCoverage := bres_HeadBypassCoverage result; in_BaseBypassCoverage := bres_BaseBypassCoverage result;
     in_HeadReachabilityCoverage := bres_HeadReachabilityCoverage result;
     in_BaseReachabilityCoverage := bres_BaseReachabilityCoverage result |}.

(** Appending nothing leaves the diagnostics as they are.

    go: internal/codesignalcli/project_analysis.go#applyProjectBackend *)
Definition applyProjectBackend (input : Input) (opts : Options) (project : option ProjectAnalysis)
    (dir headRevision baseRevision : string) (baseline : bool) : error + Input * Options :=
  match project with
  | None => inr (input, opts)
  | Some project =>
      match pan_Backend project with
      | None => inr (input, opts)
      | Some backend =>
          match backend (mkBackendRequest dir headRevision baseRevision baseline (pan_ConfigPath project)
                           (pan_Config project) (pan_ConfigDigest project) (pan_Language project)) with
          | inl err => inl err
          | inr result =>
              let enabled := mkOptions (opt_IncludeResolved opts) (opt_Baseline opts) true in
              match result with
              | None => inr (input, enabled)
              | Some result => inr (merge_project input project dir headRevision baseRevision result, enabled)
              end
          end
      end
  end.

(** ** [analyze_changes.go], [analyze_baseline.go] *)

(** Why a scan ends without a report. *)
Inductive ScanFailure :=
  | ScanOperational (err : OperationalError)
  | ScanOther (err : error).

(** The input of a scan before any project is added. *)
Definition file_input (scope : Scope) (files : list FileChange) (diagnostics : list Diagnostic) (coverage : option Coverage)
    (continuity : list PathContinuity) : Input :=
  {| in_Scope := scope; in_Files := files; in_Diagnostics := diagnostics; in_Coverage := coverage;
     in_ProjectChanges := []; in_BaseProjectChanges := []; in_ProjectFacts := []; in_ProjectCoverage := None;
     in_BaseProjectCoverage := None; in_ProjectBaseAnalyzed := false; in_UndeterminedContinuity := continuity;
     in_RuntimeKind := ""; in_RuntimeVersion := ""; in_RuntimeOrigin := ""; in_CompilerVersion := ""; in_CompilerOrigin := "";
     in_Language := ""; in_ConfigDigest := ""; in_SelectedRoots := []; in_AnalyzerProtocolVersion := 0;
     in_AnalyzerVersion := ""; in_AnalyzerDigest := ""; in_PackageManagerKind := ""; in_PackageManagerVersion := "";
     in_PackageManagerOrigin := ""; in_HeadProjectScope := None; in_BaseProjectScope := None;
     in_HeadLayerMembership := None; in_BaseLayerMembership := None; in_LayerForbiddenImportsDeclared := false;
     in_HeadModelCoverage := None; in_BaseModelCoverage := None; in_HeadBypassCoverage := None;
     in_BaseBypassCoverage := None; in_HeadReachabilityCoverage := None; in_BaseReachabilityCoverage := None |}.

(** The report over an input, the project added. *)
Definition build_scan (ctx : Context) (t : nat) (input : Input) (opts : Options) (project : option ProjectAnalysis)
    (dir headRevision baseRevision : string) (baseline : bool) : ScanFailure + Report :=
  match applyProjectBackend input opts project dir headRevision baseRevision baseline with
  | inl err => inl (ScanOther err)
  | inr (input, opts) => match Build (ctx_Err ctx t) opts input with inl err => inl (ScanOther err) | inr report => inr report end
  end.

(** Moments set aside for one file. *)
Definition file_moments : nat := 8.

(** The loop over the files of a diff: the changes and diagnostics of each. *)
Fixpoint change_files (a : Analyzer) (ctx : Context) (t : nat) (dir headSHA mergeBaseSHA : string) (files : list SelectedFile) :
    list FileChange * list Diagnostic :=
  match files with
  | [] => ([], [])
  | sf :: files =>
      let '(fc, fileDiagnostics) :=
        if sf_Status sf == "removed" then analyzeRemovedFile a ctx t dir mergeBaseSHA sf
        else analyzeAddedOrModifiedFile a ctx t dir headSHA mergeBaseSHA sf in
      let '(fileChanges, diagnostics) := change_files a ctx (t + file_moments) dir headSHA mergeBaseSHA files in
      (match fc with Some fc => fc :: fileChanges | None => fileChanges end, fileDiagnostics ++ diagnostics)
  end.

Definition default_analyzer : error + Analyzer := NewAnalyzer (mkAnalyzerOptions [] 0).

(** go: internal/codesignalcli/analyze_changes.go#AnalyzeChanges *)
Definition AnalyzeChanges (ctx : Context) (t : nat) (dir headSHA mergeBaseSHA : string) (files : list SelectedFile)
    (extraDiagnostics : list Diagnostic) (continuity : list PathContinuity) (appliedScope : string)
    (excluded : list CoverageGroup) (project : option ProjectAnalysis) : ScanFailure + Report :=
  match default_analyzer with
  | inl err => inl (ScanOperational (operational ("coach codesignal: " +:+ err_Error err)))
  | inr analyzer =>
      let '(fileChanges, diagnostics) := change_files analyzer ctx t dir headSHA mergeBaseSHA files in
      let coverage := match excluded with [] => None | _ => Some (mkCoverage 0 0 0 [] excluded) end in
      build_scan ctx (t + length files * file_moments)
        (file_input (mkScope "" headSHA mergeBaseSHA appliedScope false) fileChanges (extraDiagnostics ++ diagnostics)
           coverage continuity)
        (mkOptions true false false) project dir headSHA mergeBaseSHA false
  end.

Context {batch : BatchProcess}.

(** What one file of a baseline gives: a change, or a diagnostic, and whether it counts as
    analysed. *)
Definition baseline_file (a : Analyzer) (ctx : Context) (t : nat) (sf : SelectedFile) (content : error + string) :
    option FileChange * list Diagnostic * bool :=
  match content with
  | inl err => (None, [readFailedDiagnostic (sf_Path sf) "head" err], false)
  | inr headBytes =>
      let '(headResult, headErr) := analyze a ctx t sf headBytes in
      let analysed := (Some (mkFileChange (sf_Path sf) "" (sf_SourceScope sf) None headResult []), [],
                       match headResult with Some r => res_ParseStatus r == "ok" | None => false end) in
      match headErr with
      | Some headErr => if negb (is_syntax headErr) then (None, [mapSemanticsError (sf_Path sf) headErr], false) else analysed
      | None => analysed
      end
  end.

Fixpoint baseline_files (a : Analyzer) (ctx : Context) (t : nat) (reader : RevisionFileReader) (files : list SelectedFile)
    (coverage : Coverage) : list FileChange * list Diagnostic * Coverage :=
  match files with
  | [] => ([], [], coverage)
  | sf :: files =>
      let '(content, reader) := Next reader (sf_Path sf) in
      let '(fc, fileDiagnostics, analyzed) := baseline_file a ctx t sf content in
      let coverage := mkCoverage (cov_TrackedFilesDiscovered coverage)
        (if analyzed then cov_FilesAnalyzed coverage + 1 else cov_FilesAnalyzed coverage)%Z
        (if analyzed then cov_FilesUnanalyzable coverage else cov_FilesUnanalyzable coverage + 1)%Z
        (cov_Unsupported coverage) (cov_Excluded coverage) in
      let '(fileChanges, diagnostics, coverage) := baseline_files a ctx (t + file_moments) reader files coverage in
      (match fc with Some fc => fc :: fileChanges | None => fileChanges end, fileDiagnostics ++ diagnostics, coverage)
  end.

(** [started] is the reader, or the error of starting its process.

    go: internal/codesignalcli/analyze_baseline.go#AnalyzeBaseline *)
Definition AnalyzeBaseline (ctx : Context) (t : nat) (started : error + RevisionFileReader) (dir revisionSHA : string)
    (files : list SelectedFile) (extraDiagnostics : list Diagnostic) (appliedScope : string) (coverage : Coverage)
    (project : option ProjectAnalysis) : ScanFailure + Report :=
  match default_analyzer with
  | inl err => inl (ScanOperational (operational ("coach codesignal: " +:+ err_Error err)))
  | inr analyzer =>
      match started with
      | inl err => inl (ScanOperational (operational ("coach codesignal: starting git cat-file --batch failed: " +:+ err_Error err)))
      | inr reader =>
          let '(fileChanges, diagnostics, coverage) := baseline_files analyzer ctx t reader files coverage in
          build_scan ctx (t + length files * file_moments)
            (file_input (mkScope "" revisionSHA "" appliedScope false) fileChanges (extraDiagnostics ++ diagnostics)
               (Some coverage) [])
            (mkOptions false true false) project dir revisionSHA "" true
      end
  end.

End Scan.

(** ** Changed ranges *)

(** A hunk of a diff: where it starts on both sides, how many lines it takes, which git
    leaves out when it is one, and what follows the header. *)
Record hunk := mkHunk { hk_OldStart : N; hk_OldCount : option N; hk_Start : N; hk_Count : option N; hk_Heading : string }.

Definition count_text (c : option N) : string := match c with Some n => "," +:+ FormatUint n | None => "" end.

(** A line of a diff: a hunk's header, or another one, which begins with none of the
    header's marks. *)
Inductive diff_line := Header (h : hunk) | OtherLine (s : string).

Definition line_text (l : diff_line) : string :=
  match l with
  | Header h => "@@ -" +:+ FormatUint (hk_OldStart h) +:+ count_text (hk_OldCount h) +:+ " +" +:+ FormatUint (hk_Start h)
                  +:+ count_text (hk_Count h) +:+ " @@" +:+ hk_Heading h
  | OtherLine s => s
  end.

Definition one_line (s : string) : Prop :=
  CutLast newline_byte s = None ∧ (Z.of_nat (String.length s) < maxLine)%Z.

Definition line_ok (l : diff_line) : Prop :=
  one_line (line_text l) ∧
  match l with
  | Header h => let n := default 1%N (hk_Count h) in
                (0 < n)%N → (1 ≤ hk_Start h)%N ∧ (hk_Start h + n < 2 ^ 63)%N
  | OtherLine s => HasPrefix "@@ " s = false
  end ∧
  match l with Header h => (hk_Start h < 2 ^ 63)%N ∧ (default 1 (hk_Count h) < 2 ^ 63)%N | _ => True end.

Definition diff_text (ls : list diff_line) : string :=
  foldr (λ l s, line_text l +:+ String newline_byte s) "" ls.

(** The lines a diff says the new side has at a hunk. *)
Definition hunk_range (l : diff_line) : option LineRange :=
  match l with
  | Header h =>
      let n := default 1%N (hk_Count h) in
      if (n =? 0)%N then None else Some (mkLineRange (hk_Start h - 1) (hk_Start h + n - 2))
  | OtherLine _ => None
  end.

Lemma uint_digits d : scan_digits (DecimalString.NilEmpty.string_of_uint d) = (DecimalString.NilEmpty.string_of_uint d, "").
Proof. induction d; cbn; try done; by rewrite IHd. Qed.

Lemma scan_FormatUint n rest : no_digit rest → scan_digits1 (FormatUint n +:+ rest) = Some (FormatUint n, rest).
Proof.
  intros Hr. unfold FormatUint, Itoa, DecimalString.NilZero.string_of_int, DecimalString.NilZero.string_of_uint.
  assert (∃ d, Z.to_int (Z.of_N n) = Decimal.Pos d) as [d ->] by (destruct n; by eexists).
  assert (scan_digits1 (match d with Decimal.Nil => "0" | _ => DecimalString.NilEmpty.string_of_uint d end)
    = Some (match d with Decimal.Nil => "0" | _ => DecimalString.NilEmpty.string_of_uint d end, "")) as H.
  { unfold scan_digits1. destruct d; cbn [DecimalString.NilEmpty.string_of_uint]; try done; cbn; by rewrite uint_digits. }
  eapply scan_digits1_app in H; [|exact Hr]. exact H.
Qed.

Lemma optional_count_text c rest : match rest with String x _ => x = " "%char | _ => False end →
  optional_count (count_text c +:+ rest) = (match c with Some n => FormatUint n | None => "" end, rest).
Proof.
  intros Hr. destruct rest as [|x rest]; [done|]. subst x. destruct c as [n|]; [|done].
  cbn [count_text]. rewrite append_assoc_str. change ("," +:+ ?s) with (String "," s). cbn [optional_count].
  change (Ascii.eqb "," ",") with true. cbn iota.
  rewrite scan_FormatUint by done. done.
Qed.

Lemma FormatUint_nonempty n : FormatUint n ≠ "".
Proof. intros H. pose proof (scan_FormatUint n "" I) as E. by rewrite H in E. Qed.

Lemma no_digit_count c rest : match rest with String x _ => x = " "%char | _ => False end → no_digit (count_text c +:+ rest).
Proof. destruct rest; [done|]. intros ->. by destruct c. Qed.

(** The pattern reads back a header, whatever follows it. *)
Lemma hunk_header_read h tail :
  hunkHeaderPattern ("@@ -" +:+ FormatUint (hk_OldStart h) +:+ count_text (hk_OldCount h) +:+ " +" +:+ FormatUint (hk_Start h)
    +:+ count_text (hk_Count h) +:+ " @@" +:+ tail)
  = Some (FormatUint (hk_Start h), match hk_Count h with Some n => FormatUint n | None => "" end).
Proof.
  unfold hunkHeaderPattern. rewrite CutPrefix_app. cbn [mbind option_bind].
  rewrite scan_FormatUint by (by apply no_digit_count). cbn [mbind option_bind snd].
  rewrite optional_count_text by done. cbn [snd]. rewrite CutPrefix_app. cbn [mbind option_bind].
  rewrite scan_FormatUint by (by apply no_digit_count). cbn [mbind option_bind snd fst].
  rewrite optional_count_text by done. by rewrite CutPrefix_app.
Qed.

Lemma drop_last p h a c : p +:+ String "@" h = a +:+ String c "" → c ≠ "@"%char → ∃ h', a = p +:+ String "@" h'.
Proof.
  intros H Hc. revert a H. induction p as [|x p IH]; intros [|y a] H; cbn in H.
  - injection H as <- _. done.
  - injection H as <- ->. by exists a.
  - injection H as _ H. by destruct p.
  - injection H as <- H. destruct (IH a H) as [h' ->]. by exists h'.
Qed.

(** Without a carriage return the text is what it was, up to its last character. *)
Lemma drop_cr_cases s : drop_cr s = s ∨ ∃ a, s = a +:+ String (byte_of 13) "" ∧ drop_cr s = a.
Proof.
  unfold drop_cr, TrimSuffixByte. destruct (CutLast (byte_of 13) s) as [[a [|d b]]|] eqn:E; [right|by left|by left].
  apply CutLast_Some in E as [-> _]. by exists a.
Qed.

Lemma drop_cr_header h : ∃ tail,
  drop_cr (line_text (Header h)) = "@@ -" +:+ FormatUint (hk_OldStart h) +:+ count_text (hk_OldCount h) +:+ " +"
    +:+ FormatUint (hk_Start h) +:+ count_text (hk_Count h) +:+ " @@" +:+ tail.
Proof.
  set (p := "@@ -" +:+ FormatUint (hk_OldStart h) +:+ count_text (hk_OldCount h) +:+ " +" +:+ FormatUint (hk_Start h)
    +:+ count_text (hk_Count h) +:+ " @").
  assert (Hp : ∀ t, p +:+ String "@" t = "@@ -" +:+ FormatUint (hk_OldStart h) +:+ count_text (hk_OldCount h) +:+ " +"
    +:+ FormatUint (hk_Start h) +:+ count_text (hk_Count h) +:+ " @@" +:+ t) by (intros t; unfold p; by rewrite !append_assoc_str).
  destruct (drop_cr_cases (line_text (Header h))) as [->|(a & E & ->)]; [by exists (hk_Heading h)|].
  cbn [line_text] in E. rewrite <- Hp in E. apply drop_last in E as [h' ->]; [|done]. exists h'. by rewrite Hp.
Qed.

Lemma drop_cr_other s : HasPrefix "@@ " s = false → HasPrefix "@@ " (drop_cr s) = false.
Proof.
  intros H. destruct (drop_cr_cases s) as [->|(a & -> & ->)]; [done|]. destruct (HasPrefix "@@ " a) eqn:E; [|done].
  apply HasPrefix_spec in E as [r ->]. rewrite append_assoc_str in H. rewrite <- not_true_iff_false in H. exfalso. apply H, HasPrefix_spec.
  by eexists.
Qed.

Lemma to_uint_small z : (0 ≤ z < 2 ^ 63)%Z → to_uint (int64_wrap z) = Z.to_N z.
Proof. intros H. rewrite int64_wrap_small by lia. unfold to_uint. by rewrite Z.mod_small by lia. Qed.

Section Facts.
Context {table : IsPrint}.

Lemma Atoi_FormatUint n : (n < 2 ^ 63)%N → Atoi (FormatUint n) = Some (Z.of_N n).
Proof.
  intros H. apply Atoi_Itoa. unfold in_int64. apply andb_true_iff. split; [apply Z.leb_le|apply Z.ltb_lt]; lia.
Qed.

Lemma header_range h : line_ok (Header h) → parseHunkHeaderRange (drop_cr (line_text (Header h))) = inr (hunk_range (Header h)).
Proof.
  intros (_ & Hn & Hs & Hc). destruct (drop_cr_header h) as [tail ->]. unfold parseHunkHeaderRange.
  rewrite hunk_header_read, Atoi_FormatUint by done.
  assert ((if match hk_Count h with Some n => FormatUint n | None => "" end != "" then Atoi match hk_Count h with Some n => FormatUint n | None => "" end
    else Some 1%Z) = Some (Z.of_N (default 1%N (hk_Count h)))) as ->.
  { destruct (hk_Count h) as [n|]; [|done]. pose proof (FormatUint_nonempty n) as Hf. apply String.eqb_neq in Hf. rewrite Hf. cbn [negb].
    by apply Atoi_FormatUint. }
  cbn [hunk_range]. set (n := default 1%N (hk_Count h)) in *. destruct (Z.eqb_spec (Z.of_N n) 0), (N.eqb_spec n 0); try lia; [done|].
  destruct Hn as [H1 H2]; [lia|]. rewrite (int64_wrap_small (_ + _)) by lia. rewrite !to_uint_small by lia. do 3 f_equal; lia.
Qed.

Lemma scan_lines_text ls : Forall line_ok ls → scan_lines (diff_text ls) = map line_text ls.
Proof.
  intros H. assert (SplitByte newline_byte (diff_text ls) = map line_text ls ++ [""]) as E.
  { induction H as [|l ls [[Hl _] _] _ IH]; [done|]. cbn [diff_text foldr map]. rewrite SplitByte_app by done. fold (diff_text ls). by rewrite IH. }
  unfold scan_lines. rewrite E. destruct (map line_text ls ++ [""]) eqn:E'; [by destruct ls|]. rewrite <- E'.
  rewrite List.last_last. cbn. apply removelast_last.
Qed.

(** The changed ranges of a diff are its hunks: the rows they cover are exactly the rows
    of the new side that some hunk of the diff says it has, whatever the rest of the diff
    contains, and hunks that only remove lines give none. *)
Theorem changed_ranges_exact ls :
  Forall line_ok ls →
  parseChangedRanges (diff_text ls) = inr (omap hunk_range ls) ∧
  ∀ row, (∃ r, r ∈ omap hunk_range ls ∧ (lr_StartRow r ≤ row ≤ lr_EndRow r)%N) ↔
         (∃ h, Header h ∈ ls ∧ (hk_Start h ≤ row + 1 < hk_Start h + default 1 (hk_Count h))%N).
Proof.
  intros H. split.
  - unfold parseChangedRanges. rewrite scan_lines_text by done.
    enough (∀ acc, ranges_of_lines (map line_text ls) acc = inr (acc ++ omap hunk_range ls)) as -> by done.
    induction H as [|l ls Hl _ IH]; intros acc; [cbn; by rewrite app_nil_r|]. cbn [map ranges_of_lines].
    assert ((maxLine <=? Z.of_nat (String.length (line_text l)))%Z = false) as -> by (apply Z.leb_gt; apply Hl).
    destruct l as [h|s].
    + rewrite header_range by done. assert (HasPrefix "@@ " (drop_cr (line_text (Header h))) = true) as ->.
      { destruct (drop_cr_header h) as [tail ->]. apply HasPrefix_spec. by eexists. }
      cbn [negb]. rewrite omap_head. destruct (hunk_range (Header h)) as [r|]; [|apply IH].
      rewrite IH, <- app_assoc. done.
    + rewrite drop_cr_other by apply Hl. cbn [negb]. rewrite omap_head. apply IH.
  - intros row. setoid_rewrite list_elem_of_omap. rewrite list.Forall_forall in H. split.
    + intros (r & (l & Hl & Hr) & Hrow). destruct l as [h|s]; [|done]. exists h. split; [done|].
      destruct (H _ Hl) as (_ & Hn & _). cbn in Hn, Hr. destruct (N.eqb_spec (default 1%N (hk_Count h)) 0); [done|].
      injection Hr as <-. cbn in Hrow. lia.
    + intros (h & Hl & Hrow). destruct (H _ Hl) as (_ & Hn & _). cbn in Hn.
      exists (mkLineRange (hk_Start h - 1) (hk_Start h + default 1%N (hk_Count h) - 2)). split; [|cbn; lia].
      exists (Header h). split; [done|]. cbn. destruct (N.eqb_spec (default 1%N (hk_Count h)) 0); [lia|done].
Qed.
End Facts.

(** ** Every file is accounted for *)

Section Accounts.
Context {table : IsPrint} {json_errors : JsonErrors} {E : Engine} {U : Unicode} {git : Git}.
Context (listWorktreeStatus : StatusReader).

(** A tree that has an error has a node that says so, below the root or the root itself,
    and the queries of the code give errors of their own. *)
Record honest_engine : Prop := {
  he_queries : plain_engine;
  he_errors : ∀ lang content tree, Parse lang content = inr (Some tree) → HasError (Root tree) = true →
    ∃ n, n ∈ nodes (Root tree) ∧ is_Some (issue_of n)
}.

Lemma issues_found lang content tree : honest_engine → Parse lang content = inr (Some tree) → HasError (Root tree) = true →
  collectSyntaxIssues (Root tree) ≠ [].
Proof.
  intros He Hp Hh Hn. destruct (he_errors He _ _ _ Hp Hh) as (n & Hin & i & Hi). rewrite collectSyntaxIssues_exact in Hn.
  assert (i ∈ omap issue_of (nodes (Root tree))) as Hx by (apply list_elem_of_omap; by exists n). rewrite Hn in Hx. by apply elem_of_nil in Hx.
Qed.

(** What an analysis leaves: a complete result, a partial one with issues, or an error. *)
Lemma analyze_shape a ctx t in_ r e : honest_engine → ctx_proper ctx → AnalyzeBytes a ctx t in_ = (r, e) →
  (∃ res, r = Some res ∧ e = None ∧ res_ParseStatus res = "ok") ∨
  (∃ res issues, r = Some res ∧ e = Some (SyntaxErr (mkSyntaxError issues)) ∧ issues ≠ [] ∧ res_ParseStatus res = "syntax_errors") ∨
  (∃ err, r = None ∧ e = Some (PlainError err) ∧ is_syntax (PlainError err) = false).
Proof.
  intros He Hctx. assert (Hone : ∀ err s, err_chain err = [s] → s ≠ SemErrSyntax → is_syntax (PlainError err) = false).
  { intros err s Hc Hs. unfold is_syntax. cbn. unfold errors_Is. rewrite Hc. apply bool_decide_eq_false.
    rewrite list_elem_of_singleton. congruence. }
  assert (Hc : ∀ k s, ctx k = Some s → s ≠ SemErrSyntax) by (intros k s Hs ->; by destruct (Hctx _ _ Hs)).
  unfold AnalyzeBytes. pose proof (validate_cases a ctx t in_) as Hv. destruct (validate _ _ _ _ _ _) as [err|].
  { destruct Hv as (s & Hs & Hch). intros [= <- <-]. right; right. exists err. repeat split. apply (Hone err s); [done|].
    destruct Hs; [by eapply Hc|done..]. }
  assert (Hlang : registered (fi_Language in_) = true) by apply Hv.
  destruct (parse ctx (S t) (fi_Content in_) (fi_Language in_)) as [err|tree] eqn:Ep.
  { intros [= <- <-]. right; right. exists err. repeat split. unfold parse, ctx_Err in Ep. rewrite Hlang in Ep.
    destruct (ctx (S t)) as [s|] eqn:Es; [injection Ep as <-; apply (Hone _ s); [done|by eapply Hc]|]. cbn [option_map negb] in Ep.
    destruct (NewParser _); [|destruct (Parse _ _) as [?|[?|]]]; by simplify_eq. }
  assert (Hp : Parse (fi_Language in_) (fi_Content in_) = inr (Some tree)).
  { unfold parse, ctx_Err in Ep. rewrite Hlang in Ep. destruct (ctx (S t)); [done|]. cbn [option_map negb] in Ep.
    destruct (NewParser _); [done|]. destruct (Parse _ _) as [?|[?|]]; by simplify_eq. }
  assert (Hiss : ∀ issues, issues ≠ [] → issues_result in_ issues = (r, e) → ∃ res issues', r = Some res ∧
    e = Some (SyntaxErr (mkSyntaxError issues')) ∧ issues' ≠ [] ∧ res_ParseStatus res = "syntax_errors") by (intros issues Hne [= <- <-]; eauto 8).
  destruct (HasError (Root tree)) eqn:Eh; [intros H; right; left; eapply Hiss, H; by eapply issues_found|].
  destruct (ctx_Err ctx (S (S t))) as [err|] eqn:Ee.
  { intros [= <- <-]. right; right. exists err. repeat split. unfold ctx_Err in Ee. destruct (ctx (S (S t))) as [s|] eqn:Es; [|done].
    injection Ee as <-. apply (Hone _ s); [done|by eapply Hc]. }
  destruct (if is_typescript (fi_Language in_) then _ else _) as [|i l]; [|intros H; right; left; by eapply Hiss, H].
  destruct (languageRegistry (fi_Language in_)) as [spec|] eqn:Er; [|by apply registry_registered in Hlang as [? ?]; congruence].
  destruct (ls_extractImports spec (Root tree)) as [err|imports] eqn:Ex.
  { intros [= <- <-]. right; right. exists err. repeat split. unfold is_syntax. cbn. unfold errors_Is.
    by rewrite (extract_errors _ _ _ _ (he_queries He) Er Ex). }
  destruct (ls_computeFeatures spec (Root tree)) as [metrics findings]. destruct (if fi_Language in_ == LanguageGo then _ else _) as [cog m].
  intros [= <- <-]. left. by eexists.
Qed.

(** A file of the scan gave a change with its path, or a diagnostic about it. *)
Definition accounted (sf : SelectedFile) (changes : list FileChange) (diagnostics : list Diagnostic) : Prop :=
  (∃ fc, fc ∈ changes ∧ fc_Path fc = sf_Path sf) ∨ (∃ d, d ∈ diagnostics ∧ dg_Path d = sf_Path sf).

Lemma syntax_diagnostics path issues : issues ≠ [] →
  ∃ d, d ∈ baseSyntaxDiagnostics path (SyntaxErr (mkSyntaxError issues)) ∧ dg_Path d = path.
Proof. destruct issues as [|i issues]; [done|]. intros _. eexists. split; [left|done]. Qed.

(** What one file of a diff gives. *)
Lemma changed_file_account a ctx t dir head base sf fc ds : analyzeAddedOrModifiedFile a ctx t dir head base sf = (fc, ds) →
  match fc with
  | Some fc => fc_Path fc = sf_Path sf ∧ fc_Status fc = sf_Status sf ∧ (fc_Base fc ≠ None → sf_Status sf = "modified")
  | None => ∃ d, d ∈ ds ∧ dg_Path d = sf_Path sf
  end.
Proof.
  unfold analyzeAddedOrModifiedFile. destruct (show _ _ _) as [err|content]; [intros [= <- <-]; eexists; split; [left|done]|].
  destruct (analyze _ _ _ _ content) as [r e].
  set (rest := let '(base, diagnostics) := _ in _). intros H.
  assert (rest = (fc, ds) → match fc with
    | Some fc => fc_Path fc = sf_Path sf ∧ fc_Status fc = sf_Status sf ∧ (fc_Base fc ≠ None → sf_Status sf = "modified")
    | None => ∃ d, d ∈ ds ∧ dg_Path d = sf_Path sf end) as Hrest.
  { unfold rest. destruct (String.eqb_spec (sf_Status sf) "modified") as [Hm|Hm].
    - destruct (base_side _ _ _ _ _ _) as [b ds']. destruct (computeChangedRanges _ _ _); by intros [= <- <-].
    - destruct (computeChangedRanges _ _ _); by intros [= <- <-]. }
  destruct e as [e|]; [|by apply Hrest]. destruct (negb (is_syntax e)); [|by apply Hrest].
  injection H as <- <-. eexists. split; [left|done].
Qed.

Lemma removed_file_account a ctx t dir base sf fc ds : honest_engine → ctx_proper ctx →
  analyzeRemovedFile a ctx t dir base sf = (fc, ds) →
  match fc with
  | Some fc => fc_Path fc = sf_Path sf ∧ fc_Status fc = sf_Status sf ∧ fc_Head fc = None
  | None => ∃ d, d ∈ ds ∧ dg_Path d = sf_Path sf
  end.
Proof.
  intros He Hc. unfold analyzeRemovedFile. destruct (show _ _ _) as [err|content]; [intros [= <- <-]; eexists; split; [left|done]|].
  destruct (analyze _ _ _ _ content) as [r e] eqn:Ea.
  destruct (analyze_shape _ _ _ _ _ _ He Hc Ea) as [(res & -> & -> & _)|[(res & issues & -> & -> & Hi & _)|(err & -> & -> & Hs)]].
  - by intros [= <- <-].
  - intros [= <- <-]. by apply syntax_diagnostics.
  - rewrite Hs. intros [= <- <-]. eexists. split; [left|done].
Qed.

Lemma change_files_account a ctx dir head base files : honest_engine → ctx_proper ctx → ∀ t,
  let '(changes, ds) := change_files a ctx t dir head base files in
  (∀ sf, sf ∈ files → accounted sf changes ds) ∧
  (∀ fc, fc ∈ changes → ∃ sf, sf ∈ files ∧ fc_Path fc = sf_Path sf ∧ fc_Status fc = sf_Status sf).
Proof.
  intros He Hc. induction files as [|sf files IH]; intros t; [split; by intros ? ?%elem_of_nil|]. cbn [change_files].
  destruct (if sf_Status sf == "removed" then _ else _) as [fc ds] eqn:Ef.
  specialize (IH (t + file_moments)). destruct (change_files _ _ _ _ _ _ files) as [changes ds']. destruct IH as [IH1 IH2].
  assert (Hfc : match fc with
    | Some fc => fc_Path fc = sf_Path sf ∧ fc_Status fc = sf_Status sf
    | None => ∃ d, d ∈ ds ∧ dg_Path d = sf_Path sf end).
  { destruct (sf_Status sf == "removed").
    - apply removed_file_account in Ef; [|done..]. destruct fc; naive_solver.
    - apply changed_file_account in Ef. destruct fc; naive_solver. }
  split.
  - intros sf' [->|Hsf]%elem_of_cons.
    + destruct fc as [fc|]; [left; exists fc; split; [left|apply Hfc]|]. destruct Hfc as (d & Hd & Hp). right. exists d.
      split; [apply elem_of_app; by left|done].
    + destruct (IH1 sf' Hsf) as [(fc' & Hin & Hp)|(d & Hd & Hp)].
      * left. exists fc'. split; [|done]. destruct fc; [by right|done].
      * right. exists d. split; [apply elem_of_app; by right|done].
  - intros fc' Hin. destruct fc as [fc|].
    + apply elem_of_cons in Hin as [->|Hin]; [exists sf; split; [left|done]|].
      destruct (IH2 fc' Hin) as (sf' & Hs & Hp). exists sf'. split; [by right|done].
    + destruct (IH2 fc' Hin) as (sf' & Hs & Hp). exists sf'. split; [by right|done].
Qed.

(** A project adds to an input, and changes nothing of its files. *)
Lemma project_keeps input opts project dir head base baseline input' opts' :
  applyProjectBackend listWorktreeStatus input opts project dir head base baseline = inr (input', opts') →
  in_Scope input' = in_Scope input ∧ in_Files input' = in_Files input ∧ in_Coverage input' = in_Coverage input ∧
  in_UndeterminedContinuity input' = in_UndeterminedContinuity input ∧
  (∃ more, in_Diagnostics input' = in_Diagnostics input ++ more) ∧
  opt_IncludeResolved opts' = opt_IncludeResolved opts ∧ opt_Baseline opts' = opt_Baseline opts.
Proof.
  unfold applyProjectBackend. destruct project as [project|]; [|intros [= <- <-]; split_and!; try done; exists []; by rewrite app_nil_r].
  destruct (pan_Backend project) as [backend|]; [|intros [= <- <-]; split_and!; try done; exists []; by rewrite app_nil_r].
  destruct (backend _) as [|[result|]]; [done| |intros [= <- <-]; split_and!; try done; exists []; by rewrite app_nil_r].
  intros [= <- <-]. split_and!; try done. cbn. unfold appendProjectWorktreeDiagnostic, appendDiagnosticCopy.
  destruct (listWorktreeStatus dir); repeat case_match; rewrite <- ?app_assoc; by eexists.
Qed.

(** A report keeps the diagnostics it is given. *)
Lemma report_keeps opts input d : d ∈ in_Diagnostics input → In d (rep_Diagnostics (build_report opts input)).
Proof.
  intros Hd%list_elem_of_In.
  assert (∀ ds, In d (fst (processFileChanges (in_Files input) (in_Diagnostics input) (lifecycleWithoutBase (opt_Baseline opts)) ) ++ ds)) as Hp.
  { intros ds. apply in_app_iff. left. unfold processFileChanges. rewrite processFileChanges_app. apply in_app_iff. by left. }
  unfold build_report. destruct (processFileChanges _ _ _) as [ds ss]. cbn [fst] in Hp.
  set (surface := if opt_ProjectEnabled opts then _ else _). destruct surface as [[[[[c f] sm] cv] sg] pd].
  destruct (finalizeSignals _ _ _ _ _). unfold assembleReport. destruct (opt_ProjectEnabled opts); cbn;
    unfold sortDiagnostics; by apply stable_sort_In.
Qed.

Lemma build_scan_inv ctx t input opts project dir head base baseline report :
  build_scan listWorktreeStatus ctx t input opts project dir head base baseline = inr report →
  ∃ input' opts', report = build_report opts' input' ∧
    in_Scope input' = in_Scope input ∧ in_Files input' = in_Files input ∧ in_Coverage input' = in_Coverage input ∧
    in_UndeterminedContinuity input' = in_UndeterminedContinuity input ∧
    (∀ d, d ∈ in_Diagnostics input → In d (rep_Diagnostics report)).
Proof.
  unfold build_scan. destruct (applyProjectBackend _ _ _ _ _ _ _ _) as [|[input' opts']] eqn:Ea; [done|].
  apply project_keeps in Ea as (H1 & H2 & H3 & H4 & (more & H5) & _). destruct (ctx_Err ctx t); [done|]. intros [= <-].
  exists input', opts'. repeat split; try done. intros d Hd. apply report_keeps. rewrite H5. apply elem_of_app. by left.
Qed.

(** C8: The report of a diff accounts for every selected file: the file is one of the
    changes the report was built from, with its status, or a diagnostic of the report has
    its path.  What the selection found before is among the diagnostics, and a project
    backend, if there is one, changes none of it. *)
Theorem diff_scan_accounts ctx t dir head base files extra continuity scope excluded project report :
  honest_engine → ctx_proper ctx →
  AnalyzeChanges listWorktreeStatus ctx t dir head base files extra continuity scope excluded project = inr report →
  ∃ input opts, report = build_report opts input ∧
    in_Scope input = mkScope "" head base scope false ∧ in_UndeterminedContinuity input = continuity ∧
    (∀ d, d ∈ extra → In d (rep_Diagnostics report)) ∧
    (∀ fc, fc ∈ in_Files input → ∃ sf, sf ∈ files ∧ fc_Path fc = sf_Path sf ∧ fc_Status fc = sf_Status sf) ∧
    ∀ sf, sf ∈ files →
      (∃ fc, fc ∈ in_Files input ∧ fc_Path fc = sf_Path sf) ∨ (∃ d, In d (rep_Diagnostics report) ∧ dg_Path d = sf_Path sf).
Proof.
  intros He Hc. unfold AnalyzeChanges. destruct default_analyzer as [|a]; [done|].
  pose proof (change_files_account a ctx dir head base files He Hc t) as Hf.
  destruct (change_files _ _ _ _ _ _ _) as [changes ds]. destruct Hf as [Hf1 Hf2].
  intros (input & opts & Hr & H1 & H2 & _ & H4 & H5)%build_scan_inv. cbn in H1, H2, H4, H5.
  exists input, opts. rewrite H2. split_and!; try done.
  - intros d Hd. apply H5, elem_of_app. by left.
  - intros sf Hsf. destruct (Hf1 sf Hsf) as [?|(d & Hd & Hp)]; [by left|]. right. exists d. split; [|done].
    apply H5, elem_of_app. by right.
Qed.

(** Whether a change was analysed without issues. *)
Definition head_ok (fc : FileChange) : bool :=
  match fc_Head fc with Some r => res_ParseStatus r == "ok" | None => false end.

Lemma baseline_file_account a ctx t sf content fc ds analyzed :
  honest_engine → ctx_proper ctx → baseline_file a ctx t sf content = (fc, ds, analyzed) →
  match fc with
  | Some fc => fc_Path fc = sf_Path sf ∧ analyzed = head_ok fc ∧ fc_Head fc ≠ None
  | None => analyzed = false ∧ ∃ d, d ∈ ds ∧ dg_Path d = sf_Path sf
  end.
Proof.
  intros He Hc. unfold baseline_file.
  destruct content as [err|content]; [intros [= <- <- <-]; split; [done|]; eexists; split; [left|done]|].
  destruct (analyze _ _ _ _ content) as [r e] eqn:Ea.
  destruct (analyze_shape _ _ _ _ _ _ He Hc Ea) as [(res & -> & -> & _)|[(res & issues & -> & -> & _)|(err & -> & -> & Hs)]].
  - by intros [= <- <- <-].
  - by intros [= <- <- <-].
  - rewrite Hs. intros [= <- <- <-]. split; [done|]. eexists. split; [left|done].
Qed.

Lemma baseline_files_account {batch : BatchProcess} a ctx files : honest_engine → ctx_proper ctx → ∀ t reader cov,
  let '(changes, ds, cov') := baseline_files a ctx t reader files cov in
  (∀ sf, sf ∈ files → accounted sf changes ds) ∧
  cov_FilesAnalyzed cov' = (cov_FilesAnalyzed cov + zlen (List.filter head_ok changes))%Z ∧
  (cov_FilesAnalyzed cov' + cov_FilesUnanalyzable cov' = cov_FilesAnalyzed cov + cov_FilesUnanalyzable cov + zlen files)%Z ∧
  cov_TrackedFilesDiscovered cov' = cov_TrackedFilesDiscovered cov ∧ cov_Unsupported cov' = cov_Unsupported cov ∧
  cov_Excluded cov' = cov_Excluded cov.
Proof.
  intros He Hc. induction files as [|sf files IH]; intros t reader cov.
  { cbn. split; [by intros ? ?%elem_of_nil|]. unfold zlen. cbn. repeat split; lia. }
  cbn [baseline_files]. destruct (Next reader (sf_Path sf)) as [content reader'].
  destruct (baseline_file a ctx t sf content) as [[fc ds] analyzed] eqn:Ef. apply baseline_file_account in Ef; [|done..].
  specialize (IH (t + file_moments) reader' (mkCoverage (cov_TrackedFilesDiscovered cov)
    (if analyzed then cov_FilesAnalyzed cov + 1 else cov_FilesAnalyzed cov)%Z
    (if analyzed then cov_FilesUnanalyzable cov else cov_FilesUnanalyzable cov + 1)%Z (cov_Unsupported cov) (cov_Excluded cov))).
  destruct (baseline_files _ _ _ _ files _) as [[changes ds'] cov']. cbn in IH. destruct IH as (I1 & I2 & I3 & I4 & I5 & I6).
  split; [|split; [|split; [|done]]].
  - intros sf' [->|Hsf]%elem_of_cons.
    + destruct fc as [fc|]; [left; exists fc; split; [left|apply Ef]|]. destruct Ef as (_ & d & Hd & Hp). right. exists d.
      split; [apply elem_of_app; by left|done].
    + destruct (I1 sf' Hsf) as [(fc' & Hin & Hp)|(d & Hd & Hp)].
      * left. exists fc'. split; [|done]. destruct fc; [by right|done].
      * right. exists d. split; [apply elem_of_app; by right|done].
  - rewrite I2. unfold zlen in *. destruct fc as [fc|].
    + destruct Ef as (_ & -> & _). cbn [List.filter]. destruct (head_ok fc); cbn [length]; lia.
    + destruct Ef as [-> _]. lia.
  - rewrite I3. unfold zlen. cbn [length]. destruct analyzed; lia.
Qed.

(** C9: The coverage of a baseline is exact: it counts a file as analysed exactly when its
    head is among the inputs and parsed without issues, counts every selected file once,
    as analysed or as not, and keeps the counts it was given; and every file is among the
    inputs or told by a diagnostic of the report. *)
Theorem baseline_scan_counts {batch : BatchProcess} ctx t started dir revision files extra scope coverage project report :
  honest_engine → ctx_proper ctx →
  AnalyzeBaseline listWorktreeStatus ctx t started dir revision files extra scope coverage project = inr report →
  ∃ input opts cov, report = build_report opts input ∧ in_Coverage input = Some cov ∧
    cov_FilesAnalyzed cov = (cov_FilesAnalyzed coverage + zlen (List.filter head_ok (in_Files input)))%Z ∧
    (cov_FilesAnalyzed cov + cov_FilesUnanalyzable cov
     = cov_FilesAnalyzed coverage + cov_FilesUnanalyzable coverage + zlen files)%Z ∧
    cov_TrackedFilesDiscovered cov = cov_TrackedFilesDiscovered coverage ∧
    cov_Unsupported cov = cov_Unsupported coverage ∧ cov_Excluded cov = cov_Excluded coverage ∧
    ∀ sf, sf ∈ files →
      (∃ fc, fc ∈ in_Files input ∧ fc_Path fc = sf_Path sf) ∨ (∃ d, In d (rep_Diagnostics report) ∧ dg_Path d = sf_Path sf).
Proof.
  intros He Hc. unfold AnalyzeBaseline. destruct default_analyzer as [|a]; [done|]. destruct started as [|reader]; [done|].
  pose proof (baseline_files_account a ctx files He Hc t reader coverage) as Hf.
  destruct (baseline_files _ _ _ _ _ _) as [[changes ds] cov]. destruct Hf as (F1 & F2 & F3 & F4 & F5 & F6).
  intros (input & opts & Hr & H1 & H2 & H3 & _ & H5)%build_scan_inv. cbn in H1, H2, H3, H5.
  exists input, opts, cov. rewrite H2. split_and!; try done.
  intros sf Hsf. destruct (F1 sf Hsf) as [?|(d & Hd & Hp)]; [by left|]. right. exists d. split; [|done].
  apply H5, elem_of_app. by right.
Qed.
End Accounts.

Module ScanExample.
#[local] Instance printable : IsPrint := ascii_table.
#[local] Instance json_message : JsonErrors := λ _ _, "cannot unmarshal".
#[local] Existing Instances ascii_unicode AnalyzerExample.example_engine.

(** A diff and a whole revision: a clean file, a broken one, and one git cannot show. *)
Definition files : list SelectedFile :=
  [mkSelectedFile "a.go" "modified" "go" ""; mkSelectedFile "b.go" "added" "go" ""; mkSelectedFile "c.go" "removed" "go" "";
   mkSelectedFile "gone.go" "added" "go" ""].

Definition content_of (object : string) : option string :=
  if HasSuffix ":a.go" object || HasSuffix ":c.go" object then Some "go"
  else if HasSuffix ":b.go" object then Some "broken" else None.

Definition diff_example : list diff_line :=
  [OtherLine "--- a/a.go"; OtherLine "+++ b/a.go"; Header (mkHunk 1 (Some 0%N) 2 None " func f()"); OtherLine "+x";
   Header (mkHunk 9 (Some 2%N) 9 (Some 0%N) ""); OtherLine "-y"; OtherLine "-z";
   Header (mkHunk 20 None 19 (Some 3%N) "")].

#[local] Instance git : Git := λ _ args,
  match args with
  | ["show"; object] =>
      match content_of object with
      | Some content => mkProcessResult None content ""
      | None => mkProcessResult (Some (errors_New "exit status 128")) "" "no such path"
      end
  | _ => mkProcessResult None (diff_text diff_example) ""
  end.

#[local] Instance batch : BatchProcess := λ request,
  match content_of request with
  | Some content => inr ("0f blob " +:+ Itoa (Z.of_nat (String.length content)) +:+ String nul (content +:+ String nul ""))
  | None => inr (request +:+ " missing" +:+ String nul "")
  end.

Lemma engine_honest : honest_engine.
Proof.
  split; [done|]. intros lang content tree. cbn. destruct (content == "go"); [intros [= <-]; vm_compute; done|].
  destruct (content == "broken"); [|done]. intros [= <-] _.
  exists (List.nth 1 (nodes (Root AnalyzerExample.broken_file)) (Root AnalyzerExample.broken_file)).
  split; [apply list_elem_of_In; vm_compute; right; by left|by eexists].
Qed.

Lemma changed_ranges_exact_witness :
  parseChangedRanges (diff_text diff_example) = inr [mkLineRange 1 1; mkLineRange 18 20].
Proof.
  assert (H : Forall line_ok diff_example).
  { repeat constructor; vm_compute; try done; intros; split; lia || done. }
  exact (proj1 (changed_ranges_exact diff_example H)).
Defined.

Definition clean_worktree : StatusReader := λ _, inr [].

Lemma background_proper : ctx_proper Background.
Proof. done. Qed.

Lemma diff_scan_accounts_witness :
  ∃ report, AnalyzeChanges clean_worktree Background 0 "/r" "HEAD" "base" files [] [] "all" [] None = inr report ∧
  ((∃ fc, fc_Path fc = "gone.go") ∨ ∃ d, In d (rep_Diagnostics report) ∧ dg_Path d = "gone.go").
Proof.
  destruct (AnalyzeChanges clean_worktree Background 0 "/r" "HEAD" "base" files [] [] "all" [] None) as [f|report] eqn:H;
    [vm_compute in H; discriminate H|].
  exists report. split; [reflexivity|].
  destruct (diff_scan_accounts clean_worktree Background 0 "/r" "HEAD" "base" files [] [] "all" [] None report engine_honest
    background_proper H) as (input & opts & _ & _ & _ & _ & _ & Hf).
  destruct (Hf (mkSelectedFile "gone.go" "added" "go" "")) as [(fc & _ & Hp)|Hd]; [|left; exists fc; exact Hp|right; exact Hd].
  apply list_elem_of_In. vm_compute. do 3 right. by left.
Defined.

Lemma baseline_scan_counts_witness :
  ∃ report cov, AnalyzeBaseline clean_worktree Background 0 (inr (mkReader "HEAD" "")) "/r" "HEAD" files [] "all"
    (mkCoverage 9 0 0 [] []) None = inr report ∧ rep_Coverage report = Some cov ∧ (cov_FilesAnalyzed cov + cov_FilesUnanalyzable cov = 4)%Z.
Proof.
  destruct (AnalyzeBaseline clean_worktree Background 0 (inr (mkReader "HEAD" "")) "/r" "HEAD" files [] "all"
    (mkCoverage 9 0 0 [] []) None) as [f|report] eqn:H; [vm_compute in H; discriminate H|].
  destruct (baseline_scan_counts clean_worktree Background 0 (inr (mkReader "HEAD" "")) "/r" "HEAD" files [] "all"
    (mkCoverage 9 0 0 [] []) None report engine_honest background_proper H) as (input & opts & cov & -> & Hc & _ & Hs & _).
  exists (build_report opts input), cov. split; [reflexivity|]. split; [|exact Hs].
  rewrite <- Hc. unfold build_report. destruct (processFileChanges _ _ _). destruct (if opt_ProjectEnabled opts then _ else _) as [[[[[? ?] ?] ?] ?] ?].
  destruct (finalizeSignals _ _ _ _ _). unfold assembleReport. by destruct (opt_ProjectEnabled opts).
Defined.
End ScanExample.
