(* ===== verification/RevisionFs.v ===== *)
(** * A revision as a file system

    [internal/codesignalcli/revisionfs]: one immutable revision of a git repository as a
    read-only [fs.FS].  The tree is built once from a listing of git, files are read when
    they are asked for.  [tree_exact] says that what can be seen of it is the tree the
    listed paths form, [file_reads_exact] and [directory_reads_exact] that reading an open
    file or directory in pieces gives all of it.  The git child of an environment is a
    parameter. *)

From Stdlib Require Import Ascii.
From stdpp Require Import sorting.
From S2P Require Import Prelude GoText Paths GoOrder GoErr Json ProjectConfig GitRepo.

#[local] Arguments String.append : simpl nomatch.

(** ** [io/fs], [unicode/utf8], [path] *)

(** [utf8.ValidString], with fuel for the bytes. *)
Fixpoint valid_string_from (fuel : nat) (s : string) : bool :=
  match s, fuel with
  | EmptyString, _ => true
  | String c t, S fuel =>
      if (code c <? 128)%N then valid_string_from fuel t
      else match decode_rune s with Some (_, _, rest) => valid_string_from fuel rest | None => false end
  | String _ _, O => false
  end.

Definition ValidString (s : string) : bool := valid_string_from (String.length s) s.

(** [fs.ValidPath]. *)
Definition ValidPath (name : string) : bool :=
  ValidString name && ((name == ".") || forallb (λ e, negb ((e == "") || (e == ".") || (e == ".."))) (SplitByte ch_slash name)).

Definition IsAbs (p : string) : bool := HasPrefix "/" p.

(** [path.Base] of a path without a trailing slash. *)
Definition Base (p : string) : string :=
  if p == "" then "." else match CutLast ch_slash p with Some (_, f) => f | None => p end.

(** The causes of a failure the package tells apart. *)
Inductive FsCause := ErrInvalid | ErrNotExist | CauseOther (err : error).

(** [fs.PathError]. *)
Record PathError := mkPathError { pe_Op : string; pe_Path : string; pe_Err : FsCause }.

Definition ModeDir : Z := 2 ^ 31.

(** ** [git_reads.go] *)

(** go: internal/codesignalcli/revisionfs/git_reads.go:18-18#MaxListBytes *)
Definition MaxListBytes : Z := 64 * 2 ^ 20.
(** go: internal/codesignalcli/revisionfs/git_reads.go:19-19#maxSnapshotFileBytes *)
Definition maxSnapshotFileBytes : Z := 32 * 2 ^ 20.
(** go: internal/codesignalcli/revisionfs/git_reads.go:20-20#maxSnapshotGitStderr *)
Definition maxSnapshotGitStderr : Z := 64 * 2 ^ 10.
(** go: internal/codesignalcli/revisionfs/git_reads.go:21-21#snapshotGitTimeout *)
Definition snapshotGitTimeout : Duration := (30 * Second)%Z.

(** The environment handed to every git child; [lookup] is [os.LookupEnv].

    go: internal/codesignalcli/revisionfs/git_reads.go#sanitizedSnapshotGitEnv *)
Definition sanitizedSnapshotGitEnv (lookup : string → option string) : list string :=
  ["GIT_TERMINAL_PROMPT=0"; "GIT_CONFIG_NOSYSTEM=1"; "GIT_NO_LAZY_FETCH=1"]
  ++ match lookup "PATH" with Some value => ["PATH=" +:+ value] | None => [] end
  ++ match lookup "HOME" with Some value => ["HOME=" +:+ value] | None => [] end.

(** ** [entries.go] *)

(** go: internal/codesignalcli/revisionfs/entries.go#snapshotDirEntry *)
Record snapshotDirEntry := mkDirEntry { de_name : string; de_isDir : bool }.

(** go: internal/codesignalcli/revisionfs/entries.go:20-25#Type *)
Definition entry_Type (e : snapshotDirEntry) : Z := if de_isDir e then ModeDir else 0.

(** The two implementations of [fs.FileInfo], [snapshotFileInfo] and [snapshotDirInfo].

    go: internal/codesignalcli/revisionfs/entries.go:55-58#snapshotFileInfo *)
Inductive FileInfo := snapshotFileInfo (name : string) (size : Z) | snapshotDirInfo (name : string).

(** go: internal/codesignalcli/revisionfs/entries.go:60-60#Name *)
Definition info_Name (i : FileInfo) : string := match i with snapshotFileInfo name _ | snapshotDirInfo name => name end.

(** go: internal/codesignalcli/revisionfs/entries.go:62-62#Size *)
Definition info_Size (i : FileInfo) : Z := match i with snapshotFileInfo _ size => size | snapshotDirInfo _ => 0 end.

(** go: internal/codesignalcli/revisionfs/entries.go:64-64#Mode *)
Definition info_Mode (i : FileInfo) : Z := match i with snapshotFileInfo _ _ => 292 | snapshotDirInfo _ => ModeDir + 365 end.

(** go: internal/codesignalcli/revisionfs/entries.go:68-68#IsDir *)
Definition info_IsDir (i : FileInfo) : bool := match i with snapshotFileInfo _ _ => false | snapshotDirInfo _ => true end.

(** go: internal/codesignalcli/revisionfs/entries.go:86-91#Info *)
Definition entry_Info (e : snapshotDirEntry) : FileInfo :=
  if de_isDir e then snapshotDirInfo (de_name e) else snapshotFileInfo (de_name e) 0.

(** go: internal/codesignalcli/revisionfs/entries.go:27-31#snapshotFile *)
Record snapshotFile := mkSnapshotFile { sf_name : string; sf_data : string; sf_pos : nat }.

(** go: internal/codesignalcli/revisionfs/entries.go:39-43#snapshotDirFile *)
Record snapshotDirFile := mkSnapshotDirFile { sd_name : string; sd_entries : list snapshotDirEntry; sd_offset : nat }.

(** [fs.File]: what [Open] returns. *)
Inductive File := OpenFile (f : snapshotFile) | OpenDir (d : snapshotDirFile).

(** go: internal/codesignalcli/revisionfs/entries.go:33-35#Stat *)
Definition file_Stat (f : File) : FileInfo :=
  match f with
  | OpenFile sf => snapshotFileInfo (Base (sf_name sf)) (Z.of_nat (String.length (sf_data sf)))
  | OpenDir sd => snapshotDirInfo (Base (sd_name sd))
  end.

(** Reading into a buffer of [len] bytes: the bytes copied, or [None] for [io.EOF].

    go: internal/codesignalcli/revisionfs/entries.go:111-118#Read *)
Definition file_Read (len : nat) (sf : snapshotFile) : option string * snapshotFile :=
  if String.length (sf_data sf) <=? sf_pos sf then (None, sf)
  else
    let chunk := String.substring (sf_pos sf) len (sf_data sf) in
    (Some chunk, mkSnapshotFile (sf_name sf) (sf_data sf) (sf_pos sf + String.length chunk)).

(** go: internal/codesignalcli/revisionfs/entries.go:49-51#Read *)
Definition directory_Read (sd : snapshotDirFile) : PathError :=
  mkPathError "read" (sd_name sd) (CauseOther (errors_New "is a directory")).

(** What a batch of entries comes to: the entries, [io.EOF], or the panic of a slice
    expression whose end lies before its start. *)
Inductive Batch := Entries (l : list snapshotDirEntry) | EndOfDirectory | SlicePanic.

(** [end] is computed at the width of an [int].

    go: internal/codesignalcli/revisionfs/entries.go:93-109#ReadDir *)
Definition directory_ReadDir (n : Z) (sd : snapshotDirFile) : Batch * snapshotDirFile :=
  let entries := sd_entries sd in
  let at_offset o := mkSnapshotDirFile (sd_name sd) entries o in
  if (n <=? 0)%Z then (Entries (drop (sd_offset sd) entries), at_offset (length entries))
  else if length entries <=? sd_offset sd then (EndOfDirectory, sd)
  else
    let stop := int64_wrap (Z.of_nat (sd_offset sd) + n) in
    let stop := if (zlen entries <? stop)%Z then zlen entries else stop in
    if (stop <? Z.of_nat (sd_offset sd))%Z then (SlicePanic, sd)
    else (Entries (take (Z.to_nat stop - sd_offset sd) (drop (sd_offset sd) entries)), at_offset (Z.to_nat stop)).

(** ** [listing.go] *)

(** go: internal/codesignalcli/revisionfs/listing.go#snapshotPaths *)
Record snapshotPaths := mkSnapshotPaths { sp_childSets : gmap string (gmap string bool); sp_isDir : gset string }.

Definition set_child (parent segment : string) (isDir : bool) (s : gmap string (gmap string bool)) :
    gmap string (gmap string bool) :=
  <[parent := <[segment := isDir]> (default ∅ (s !! parent))]> s.

(** The loop of [add] from a parent on. *)
Fixpoint add_segments (parent : string) (segments : list string) (s : snapshotPaths) : snapshotPaths :=
  match segments with
  | [] => s
  | [segment] => mkSnapshotPaths (set_child parent segment false (sp_childSets s)) (sp_isDir s)
  | segment :: rest =>
      let parent' := Join2 parent segment in
      add_segments parent' rest (mkSnapshotPaths (set_child parent segment true (sp_childSets s)) ({[parent']} ∪ sp_isDir s))
  end.

(** go: internal/codesignalcli/revisionfs/listing.go:17-32#add *)
Definition add (filePath : string) (s : snapshotPaths) : snapshotPaths := add_segments "." (SplitByte ch_slash filePath) s.

Definition tab_byte : ascii := byte_of 9.

(** go: internal/codesignalcli/revisionfs/listing.go#finalizeSnapshotChildren *)
Definition finalizeSnapshotChildren (childSets : gmap string (gmap string bool)) : gmap string (list snapshotDirEntry) :=
  (λ names, stable_sort (λ a b, str_less (de_name a) (de_name b)) (map (uncurry mkDirEntry) (map_to_list names)))
  <$> childSets.

Section Snapshot.
Context {table : IsPrint}.

(** go: internal/codesignalcli/revisionfs/listing.go#parseSnapshotLsTreeEntry *)
Definition parseSnapshotLsTreeEntry (entry : string) : error + string * Z :=
  match CutByte tab_byte entry with
  | None => inl (errors_New "missing tab-separated path")
  | Some (meta, p) =>
      match Fields meta with
      | _ :: _ :: _ :: size :: _ => inr (p, default 0%Z (Atoi size))
      | _ => inl (errors_New ("expected mode/type/object/size, got " +:+ quoted meta))
      end
  end.

(** ** [revision_fs.go] *)

(** go: internal/codesignalcli/revisionfs/revision_fs.go#validateSnapshotPath *)
Definition validateSnapshotPath (p : string) : option error :=
  if p == "" then Some (errors_New "path must be non-empty")
  else if IsAbs p then Some (errors_New "path must not be absolute")
  else
    let clean := Clean p in
    if (clean != p) || (clean == ".") || (clean == "..") || HasPrefix "../" clean
    then Some (errors_New "path must be a normalized, repository-relative path")
    else if Contains (String ch_backslash "") p then Some (errors_New "path must use forward-slash separators")
    else None.

(** go: internal/codesignalcli/revisionfs/revision_fs.go#revisionFS *)
Record revisionFS := mkRevisionFS {
  fs_dir : string; fs_revision : string; fs_isDir : gset string; fs_isFile : gset string;
  fs_sizes : gmap string Z; fs_children : gmap string (list snapshotDirEntry)
}.

(** go: internal/codesignalcli/revisionfs/revision_fs.go#ListError *)
Record ListError := mkListError { le_Revision : string; le_Dir : string; le_Err : BoundedFailure }.

(** go: internal/codesignalcli/revisionfs/revision_fs.go:41-43#Error *)
Definition ListError_Error (e : ListError) : string :=
  "coach: git ls-tree failed for revision " +:+ quoted (le_Revision e) +:+ " in " +:+ quoted (le_Dir e) +:+ ": "
  +:+ bounded_message (le_Err e).

(** An error of [New]: a failed listing, or another. *)
Inductive NewError := ListFailed (e : ListError) | NewFailed (err : error).

Definition NewError_Error (e : NewError) : string :=
  match e with ListFailed le => ListError_Error le | NewFailed err => err_Error err end.

(** What the loop over the listing has built. *)
Record listing := mkListing { ls_isFile : gset string; ls_sizes : gmap string Z; ls_paths : snapshotPaths }.

Definition empty_listing : listing := mkListing ∅ ∅ (mkSnapshotPaths ∅ {["."]}).

Definition list_file (p : string) (size : Z) (l : listing) : listing :=
  mkListing ({[p]} ∪ ls_isFile l) (<[p := size]> (ls_sizes l)) (add p (ls_paths l)).

(** The loop over the entries of the listing. *)
Fixpoint list_entries (entries : list string) (l : listing) : error + listing :=
  match entries with
  | [] => inr l
  | entry :: rest =>
      match parseSnapshotLsTreeEntry entry with
      | inl err => inl (Errorf ("coach: git ls-tree reported an unparseable entry " +:+ quoted entry +:+ ": ") err)
      | inr (p, size) =>
          match validateSnapshotPath p with
          | Some err => inl (Errorf ("coach: git ls-tree reported an unsafe path " +:+ quoted p +:+ ": ") err)
          | None => list_entries rest (list_file p size l)
          end
      end
  end.

(** The git child of an environment, and the environment of this process. *)
Context (spawn : list string → BoundedGit) (lookup_env : string → option string).

(** go: internal/codesignalcli/revisionfs/git_reads.go:27-31#snapshotGitCommandContext *)
Definition snapshotGitCommandContext : BoundedGit := spawn (sanitizedSnapshotGitEnv lookup_env).

(** go: internal/codesignalcli/revisionfs/git_reads.go:36-38#runSnapshotGit *)
Definition runSnapshotGit (dir : string) (maxStdout maxStderr : Z) (timeout : Duration) (args : list string) :
    BoundedFailure + string :=
  @RunBytesBounded snapshotGitCommandContext dir maxStdout maxStderr timeout args.

(** go: internal/codesignalcli/revisionfs/revision_fs.go#New *)
Definition New (dir revision : string) : NewError + revisionFS :=
  if revision == "" then inl (NewFailed (errors_New "coach: revision must be a non-empty Git revision"))
  else match runSnapshotGit dir MaxListBytes maxSnapshotGitStderr snapshotGitTimeout ["ls-tree"; "-r"; "-z"; "-l"; revision] with
  | inl f => inl (ListFailed (mkListError revision dir f))
  | inr output =>
      match list_entries (SplitNULPaths output) empty_listing with
      | inl err => inl (NewFailed err)
      | inr l =>
          inr (mkRevisionFS dir revision (sp_isDir (ls_paths l)) (ls_isFile l) (ls_sizes l)
                 (finalizeSnapshotChildren (sp_childSets (ls_paths l))))
      end
  end.

(** ** [fs_open.go], [fs_read.go] *)

(** go: internal/codesignalcli/revisionfs/fs_open.go#normalizeSnapshotName *)
Definition normalizeSnapshotName (name : string) : error + string :=
  if name == "." then inr "."
  else if ValidPath name then inr name
  else inl (errors_New ("invalid path " +:+ quoted name)).

(** go: internal/codesignalcli/revisionfs/fs_read.go#readFile *)
Definition readFile (f : revisionFS) (clean : string) : PathError + string :=
  match runSnapshotGit (fs_dir f) maxSnapshotFileBytes maxSnapshotGitStderr snapshotGitTimeout
          ["show"; fs_revision f +:+ ":" +:+ clean] with
  | inl e =>
      inl (mkPathError "read" clean (CauseOther (errors_New
        ("git show " +:+ fs_revision f +:+ ":" +:+ clean +:+ ": " +:+ bounded_message e))))
  | inr data => inr data
  end.

Definition children_of (f : revisionFS) (dir : string) : list snapshotDirEntry := default [] (fs_children f !! dir).

(** go: internal/codesignalcli/revisionfs/fs_open.go#Open *)
Definition Open (f : revisionFS) (name : string) : PathError + File :=
  match normalizeSnapshotName name with
  | inl _ => inl (mkPathError "open" name ErrInvalid)
  | inr clean =>
      if decide (clean ∈ fs_isDir f) then inr (OpenDir (mkSnapshotDirFile clean (children_of f clean) 0))
      else if decide (clean ∈ fs_isFile f) then
        match readFile f clean with
        | inl err => inl err
        | inr data => inr (OpenFile (mkSnapshotFile clean data 0))
        end
      else inl (mkPathError "open" name ErrNotExist)
  end.

(** go: internal/codesignalcli/revisionfs/fs_open.go#Stat *)
Definition Stat (f : revisionFS) (name : string) : PathError + FileInfo :=
  match normalizeSnapshotName name with
  | inl _ => inl (mkPathError "stat" name ErrInvalid)
  | inr clean =>
      if decide (clean ∈ fs_isDir f) then inr (snapshotDirInfo (Base clean))
      else if decide (clean ∈ fs_isFile f) then inr (snapshotFileInfo (Base clean) (default 0%Z (fs_sizes f !! clean)))
      else inl (mkPathError "stat" name ErrNotExist)
  end.

(** go: internal/codesignalcli/revisionfs/fs_read.go#ReadDir *)
Definition ReadDir (f : revisionFS) (name : string) : PathError + list snapshotDirEntry :=
  match normalizeSnapshotName name with
  | inl _ => inl (mkPathError "readdir" name ErrInvalid)
  | inr clean =>
      if decide (clean ∈ fs_isDir f) then inr (children_of f clean)
      else if decide (clean ∈ fs_isFile f) then inl (mkPathError "readdir" name (CauseOther (errors_New "not a directory")))
      else inl (mkPathError "readdir" name ErrNotExist)
  end.

(** go: internal/codesignalcli/revisionfs/fs_read.go#ReadFile *)
Definition ReadFile (f : revisionFS) (name : string) : PathError + string :=
  match normalizeSnapshotName name with
  | inl _ => inl (mkPathError "readfile" name ErrInvalid)
  | inr clean =>
      if decide (clean ∈ fs_isDir f) then inl (mkPathError "read" name (CauseOther (errors_New "is a directory")))
      else if decide (clean ∈ fs_isFile f) then readFile f clean
      else inl (mkPathError "open" name ErrNotExist)
  end.
End Snapshot.

(** ** Paths and their elements *)

Lemma Join_split p : Join (SplitByte ch_slash p) "/" = p.
Proof.
  induction p as [|c p IH]; [done|]. rewrite SplitByte_cons. destruct (Ascii.eqb_spec c ch_slash) as [->|Hc].
  - rewrite Join_cons. destruct (SplitByte ch_slash p) as [|x l] eqn:E; [by apply SplitByte_some in E|by rewrite IH].
  - destruct (SplitByte ch_slash p) as [|x l]; [by rewrite <- IH|]. rewrite Join_cons in *. by destruct l; rewrite <- IH.
Qed.

(** The name of the directory some elements lead to. *)
Definition path_of (es : list string) : string := match es with [] => "." | _ => Join es "/" end.

Lemma Join_app a b : a ≠ [] → b ≠ [] → Join (a ++ b) "/" = Join a "/" +:+ "/" +:+ Join b "/".
Proof.
  intros Ha Hb. induction a as [|x a IH]; [done|]. cbn [app]. rewrite !Join_cons.
  destruct a as [|y a]; [by destruct b|]. rewrite IH by done. cbn [app]. by rewrite !append_assoc_str.
Qed.

Lemma plain_descends es : Forall plain_element es → es ≠ [] → descends (Join es "/").
Proof. intros H Hne. by exists es. Qed.

Lemma path_of_inj a b : Forall plain_element a → Forall plain_element b → path_of a = path_of b → a = b.
Proof.
  intros Ha Hb. unfold path_of.
  assert (∀ es, Forall plain_element es → es ≠ [] → "." ≠ Join es "/") as Hdot.
  { intros es H Hne E. destruct (descends_shape (Join es "/")) as (_ & _ & _ & Hd & _); [by apply plain_descends|done]. }
  destruct a as [|x a], b as [|y b]; intros E; [done|by eapply Hdot in E|symmetry in E; by eapply Hdot in E|].
  rewrite <- (SplitByte_Join (x :: a)), <- (SplitByte_Join (y :: b)) by (done || by apply plain_no_slash). by rewrite E.
Qed.

Lemma Join2_below ds e : Forall plain_element (ds ++ [e]) → Join2 (path_of ds) e = path_of (ds ++ [e]).
Proof.
  intros H. destruct (descends_shape (Join (ds ++ [e]) "/")) as (_ & _ & Hc & _); [apply plain_descends; [done|by destruct ds]|].
  apply Forall_app in H as [Hds He]. inversion He as [|?? (Hs & Hne & Hd & Hu) _]; subst. unfold Join2.
  assert (e == "" = false) as -> by by apply String.eqb_neq.
  destruct ds as [|d ds].
  - cbn [path_of app]. change ("." == "") with false. cbn iota. unfold Clean.
    change ("." +:+ "/" +:+ e) with (String ch_dot (String ch_slash e)).
    change (HasPrefix "/" (String ch_dot (String ch_slash e))) with false.
    change (String ch_dot (String ch_slash e)) with ("." +:+ String ch_slash e).
    rewrite SplitByte_app by done. rewrite SplitByte_last by done. cbn [fold_left].
    unfold clean_step. change ("." == "") with false. change ("." == ".") with true. cbn [orb].
    apply String.eqb_neq in Hd, Hu, Hne. rewrite Hd, Hu, Hne. cbn [orb]. cbn. by rewrite Hne.
  - assert (path_of (d :: ds) = Join (d :: ds) "/") as -> by done.
    assert (path_of ((d :: ds) ++ [e]) = Join ((d :: ds) ++ [e]) "/") as -> by done.
    destruct (descends_shape (Join (d :: ds) "/")) as (H0 & _); [by apply plain_descends|].
    apply String.eqb_neq in H0. rewrite H0. rewrite <- Hc. by rewrite Join_app.
Qed.

Lemma snapshot_path_iff p : validateSnapshotPath p = None ↔ no_backslash p ∧ descends p.
Proof.
  unfold validateSnapshotPath, no_backslash, IsAbs. split.
  - destruct (String.eqb_spec p "") as [|H0]; [done|]. destruct (HasPrefix "/" p) eqn:H1; [done|].
    destruct (String.eqb_spec (Clean p) p) as [H2|]; [|done]. rewrite H2. cbn [negb orb].
    destruct (String.eqb_spec p ".") as [|Hd]; [done|].
    destruct (String.eqb_spec p "..") as [|H3]; [done|]. destruct (HasPrefix "../" p) eqn:H4; [done|].
    destruct (Contains _ p) eqn:H5; [done|]. intros _. split; [done|]. by destruct (clean_descends p) as [|?].
  - intros [Hb (H0 & H1 & H2 & Hd & H3 & H4)%descends_shape].
    apply String.eqb_neq in H0, Hd, H3. by rewrite H0, H1, H2, String.eqb_refl, Hd, H3, H4, Hb.
Qed.

(** ** One path of the listing *)

Definition child (s : snapshotPaths) (d name : string) : option bool := sp_childSets s !! d ≫= λ names, names !! name.

Lemma child_set d name b s dirs d' name' :
  child (mkSnapshotPaths (set_child d name b s) dirs) d' name'
  = if decide (d = d' ∧ name = name') then Some b else child (mkSnapshotPaths s dirs) d' name'.
Proof.
  unfold child, set_child. cbn. destruct (decide (d = d')) as [->|Hd].
  - rewrite lookup_insert_eq. cbn. destruct (decide (name = name')) as [->|Hn].
    + rewrite lookup_insert_eq. by rewrite decide_True by done.
    + rewrite lookup_insert_ne by done. rewrite decide_False by naive_solver. by destruct (s !! d').
  - rewrite lookup_insert_ne by done. by rewrite decide_False by naive_solver.
Qed.

(** What adding the elements [es] below [ds] makes of the directories and children. *)
Record added (ds es : list string) (s s' : snapshotPaths) : Prop := {
  ad_dirs name : name ∈ sp_isDir s' ↔ name ∈ sp_isDir s ∨
    ∃ pre rest, es = pre ++ rest ∧ pre ≠ [] ∧ rest ≠ [] ∧ name = path_of (ds ++ pre);
  ad_sound d name b : child s' d name = Some b → child s d name = Some b ∨
    ∃ pre rest, es = pre ++ name :: rest ∧ d = path_of (ds ++ pre) ∧ b = bool_decide (rest ≠ []);
  ad_keeps d name : is_Some (child s d name) → is_Some (child s' d name);
  ad_complete pre name rest : es = pre ++ name :: rest → is_Some (child s' (path_of (ds ++ pre)) name)
}.

Lemma add_segments_spec es : ∀ ds s, es ≠ [] → Forall plain_element (ds ++ es) → added ds es s (add_segments (path_of ds) es s).
Proof.
  induction es as [|e es IH]; intros ds s Hne Hp; [done|]. destruct s as [sets dirs]. destruct es as [|e2 es].
  - cbn [add_segments sp_childSets sp_isDir]. split.
    + intros name. split; [by left|]. intros [H|(pre & rest & E & Hpre & Hrest & _)]; [done|].
      destruct pre as [|? [|]], rest; naive_solver.
    + intros d name b. rewrite child_set. case_decide as H; [|by left]. destruct H as [<- <-]. intros [= <-]. right.
      exists [], []. by rewrite app_nil_r.
    + intros d name H. rewrite child_set. case_decide; [by eexists|done].
    + intros pre name rest E. destruct pre as [|? []]; [|naive_solver..]. injection E as -> _.
      rewrite app_nil_r, child_set, decide_True by done. by eexists.
  - change (add_segments (path_of ds) (e :: e2 :: es) (mkSnapshotPaths sets dirs)) with
      (add_segments (Join2 (path_of ds) e) (e2 :: es)
         (mkSnapshotPaths (set_child (path_of ds) e true sets) ({[Join2 (path_of ds) e]} ∪ dirs))).
    assert (ds ++ e :: e2 :: es = (ds ++ [e]) ++ e2 :: es) as Eds by by rewrite <- app_assoc.
    rewrite Eds in Hp. rewrite Join2_below by by apply Forall_app in Hp as [? _].
    destruct (IH (ds ++ [e]) (mkSnapshotPaths (set_child (path_of ds) e true sets) ({[path_of (ds ++ [e])]} ∪ dirs)))
      as [Hd Hs Hk Hc]; [done|done|]. cbn [sp_isDir] in Hd. split; cbn [sp_isDir].
    + intros name. rewrite Hd, elem_of_union, elem_of_singleton. split.
      * intros [[->|H]|(pre & rest & E & Hpre & Hrest & ->)]; [right|by left|right].
        -- by exists [e], (e2 :: es).
        -- exists (e :: pre), rest. cbn. rewrite E. rewrite <- app_assoc. done.
      * intros [H|(pre & rest & E & Hpre & Hrest & ->)]; [by left; right|]. destruct pre as [|x pre]; [done|].
        injection E as <- E. destruct pre as [|y pre]; [by left; left|]. right. exists (y :: pre), rest.
        rewrite E. repeat split; try done. by rewrite <- app_assoc.
    + intros d name b [H|(pre & rest & E & -> & ->)]%Hs.
      * rewrite child_set in H. case_decide as Hx; [|by left]. destruct Hx as [<- <-]. injection H as <-. right.
        exists [], (e2 :: es). by rewrite app_nil_r.
      * right. exists (e :: pre), rest. cbn. rewrite E. by rewrite <- app_assoc.
    + intros d name H. apply Hk. rewrite child_set. case_decide; [by eexists|done].
    + intros pre name rest E. destruct pre as [|x pre].
      * injection E as -> <-. rewrite app_nil_r. apply Hk. rewrite child_set, decide_True by done. by eexists.
      * injection E as <- E. specialize (Hc pre name rest E). by rewrite <- app_assoc in Hc.
Qed.

Lemma descends_elements p : descends p → Forall plain_element (SplitByte ch_slash p).
Proof. intros (es & Hne & Hp & ->). by rewrite SplitByte_Join by (done || by apply plain_no_slash). Qed.

Lemma add_spec p s : descends p → added [] (SplitByte ch_slash p) s (add p s).
Proof. intros H. apply (add_segments_spec _ []); [apply SplitByte_some|by apply descends_elements]. Qed.

(** ** The tree of some paths *)

(** The path [x] below a directory. *)
Definition below (dir x : string) : string := if dir == "." then x else dir +:+ "/" +:+ x.

Definition is_directory (paths : list string) (name : string) : Prop :=
  name = "." ∨ ∃ p q, p ∈ paths ∧ p = name +:+ "/" +:+ q.

(** What a directory has one element below it: files, and directories. *)
Definition has_entry (paths : list string) (dir : string) (e : snapshotDirEntry) : Prop :=
  no_slash (de_name e) ∧
  if de_isDir e then ∃ q, below dir (de_name e +:+ "/" +:+ q) ∈ paths else below dir (de_name e) ∈ paths.

(** No path is a directory of another. *)
Definition no_file_above (paths : list string) : Prop := ∀ p q, p ∈ paths → p +:+ "/" +:+ q ∉ paths.

Lemma below_path_of ds es : Forall plain_element ds → es ≠ [] → below (path_of ds) (Join es "/") = Join (ds ++ es) "/".
Proof.
  intros Hp He. unfold below. destruct ds as [|d ds]; [done|].
  destruct (descends_shape (Join (d :: ds) "/")) as (_ & _ & _ & Hd & _); [by apply plain_descends|].
  apply String.eqb_neq in Hd. change (path_of (d :: ds)) with (Join (d :: ds) "/"). rewrite Hd. by rewrite <- Join_app.
Qed.

(** The elements of a path below a directory. *)
Lemma split_below dir x p : p = below dir x → descends p → ∃ ds, Forall plain_element ds ∧ dir = path_of ds ∧
  SplitByte ch_slash p = ds ++ SplitByte ch_slash x.
Proof.
  intros E H%descends_elements. unfold below in E. destruct (String.eqb_spec dir ".") as [->|Hd].
  - exists []. subst p. by split; [constructor|].
  - exists (SplitByte ch_slash dir). subst p. change (dir +:+ "/" +:+ x) with (dir +:+ String ch_slash x) in *.
    rewrite SplitByte_at in *. apply Forall_app in H as [H _]. repeat split; [done|].
    unfold path_of. destruct (SplitByte ch_slash dir) as [|a l] eqn:E; [by apply SplitByte_some in E|]. by rewrite <- E, Join_split.
Qed.

(** What the listing holds after the paths [l] with their sizes. *)
Record holds (l : list (string * Z)) (s : listing) : Prop := {
  hd_files p : p ∈ ls_isFile s ↔ p ∈ l.*1;
  hd_sizes p size : NoDup l.*1 → (p, size) ∈ l → ls_sizes s !! p = Some size;
  hd_dirs name : name ∈ sp_isDir (ls_paths s) ↔ name = "." ∨ ∃ p pre rest, p ∈ l.*1 ∧
    SplitByte ch_slash p = pre ++ rest ∧ pre ≠ [] ∧ rest ≠ [] ∧ name = path_of pre;
  hd_sound d name b : child (ls_paths s) d name = Some b → ∃ p pre rest, p ∈ l.*1 ∧
    SplitByte ch_slash p = pre ++ name :: rest ∧ d = path_of pre ∧ b = bool_decide (rest ≠ []);
  hd_complete p pre name rest : p ∈ l.*1 → SplitByte ch_slash p = pre ++ name :: rest →
    is_Some (child (ls_paths s) (path_of pre) name)
}.

Lemma holds_empty : holds [] empty_listing.
Proof.
  split; cbn.
  - set_solver.
  - set_solver.
  - intros name. rewrite elem_of_singleton. split; [by left|]. intros [?|(p & ? & ? & H & _)]; [done|]. by apply elem_of_nil in H.
  - intros d name b. unfold child. cbn. by rewrite lookup_empty.
  - intros p pre name rest H. by apply elem_of_nil in H.
Qed.

Lemma holds_list_file l s p size : descends p → holds l s → holds (l ++ [(p, size)]) (list_file p size s).
Proof.
  intros Hp [Hf Hz Hd Hs Hc]. destruct (add_spec p (ls_paths s) Hp) as [Ad As Ak Ac]. split; cbn [ls_isFile ls_sizes ls_paths list_file].
  - intros q. rewrite elem_of_union, elem_of_singleton, Hf, fmap_app, elem_of_app. cbn. rewrite list_elem_of_singleton. tauto.
  - intros q z Hnd Hq. rewrite fmap_app in Hnd. apply list.NoDup_app in Hnd as (Hn1 & Hn2 & _).
    apply elem_of_app in Hq as [Hq|Hq].
    + destruct (decide (p = q)) as [->|].
      * exfalso. apply (Hn2 q); [apply list_elem_of_fmap; by exists (q, z)|left].
      * rewrite lookup_insert_ne by done. by apply Hz.
    + apply list_elem_of_singleton in Hq as [= -> ->]. by rewrite lookup_insert_eq.
  - intros name. rewrite Ad, Hd. setoid_rewrite fmap_app. setoid_rewrite elem_of_app. cbn.
    setoid_rewrite list_elem_of_singleton. split.
    + intros [[->|(q & pre & rest & Hq & H)]|(pre & rest & H)]; [by left|right; exists q, pre, rest; tauto|].
      right. exists p, pre, rest. tauto.
    + intros [->|(q & pre & rest & [Hq| ->] & H)]; [by left; left| |]; [left; right; by exists q, pre, rest|].
      right. by exists pre, rest.
  - intros d name b [H|(pre & rest & E & -> & ->)]%As.
    + apply Hs in H as (q & pre & rest & Hq & H). exists q, pre, rest. rewrite fmap_app, elem_of_app. tauto.
    + exists p, pre, rest. rewrite fmap_app, elem_of_app. cbn. rewrite list_elem_of_singleton. tauto.
  - intros q pre name rest Hq E. rewrite fmap_app, elem_of_app in Hq. cbn in Hq. rewrite list_elem_of_singleton in Hq.
    destruct Hq as [Hq| ->]; [apply Ak; by eapply Hc|]. by apply (Ac pre name rest).
Qed.

Section Exact.
Context (l : list (string * Z)) (s : listing) (H : holds l s) (Hd : Forall descends l.*1).

Lemma listed_descends p : p ∈ l.*1 → descends p.
Proof. intros Hp. rewrite list.Forall_forall in Hd. by apply Hd. Qed.

Lemma dirs_exact name : name ∈ sp_isDir (ls_paths s) ↔ is_directory l.*1 name.
Proof.
  rewrite (hd_dirs _ _ H). unfold is_directory. split; (intros [->|Hx]; [by left|right]).
  - destruct Hx as (p & pre & rest & Hp & E & Hpre & Hrest & ->). exists p, (Join rest "/"). split; [done|].
    assert (path_of pre = Join pre "/") as -> by by destruct pre. by rewrite <- Join_app, <- E, Join_split.
  - destruct Hx as (p & q & Hp & E). exists p, (SplitByte ch_slash name), (SplitByte ch_slash q). subst p.
    change (name +:+ "/" +:+ q) with (name +:+ String ch_slash q). rewrite SplitByte_at.
    repeat split; [done|apply SplitByte_some..|]. unfold path_of.
    destruct (SplitByte ch_slash name) eqn:E; [by apply SplitByte_some in E|]. by rewrite <- E, Join_split.
Qed.

Lemma children_sound d name b : child (ls_paths s) d name = Some b → has_entry l.*1 d (mkDirEntry name b).
Proof.
  intros (p & pre & rest & Hp & E & -> & ->)%(hd_sound _ _ H). pose proof (descends_elements _ (listed_descends _ Hp)) as Hpl.
  rewrite E in Hpl. apply Forall_app in Hpl as [Hpre Hrest].
  inversion Hrest as [|?? [Hn _] Hr]; subst. split; [done|]. cbn [de_name de_isDir].
  destruct rest as [|r rest].
  - rewrite bool_decide_false by naive_solver. change name with (Join [name] "/").
    rewrite below_path_of by done. by rewrite <- E, Join_split.
  - rewrite bool_decide_true by done. exists (Join (r :: rest) "/").
    change (name +:+ "/" +:+ Join (r :: rest) "/") with (Join [name] "/" +:+ "/" +:+ Join (r :: rest) "/").
    rewrite <- Join_app by done. rewrite below_path_of by done. cbn [app]. by rewrite <- E, Join_split.
Qed.

Lemma children_exact d e : no_file_above l.*1 → child (ls_paths s) d (de_name e) = Some (de_isDir e) ↔ has_entry l.*1 d e.
Proof.
  intros Habove. destruct e as [name b]. split; [apply children_sound|]. intros [Hns He]. cbn [de_name de_isDir] in *.
  assert (is_Some (child (ls_paths s) d name)) as [b' Hb'].
  { destruct b.
    - destruct He as [q Hp]. destruct (split_below d _ _ eq_refl (listed_descends _ Hp)) as (ds & Hds & -> & E).
      change (name +:+ "/" +:+ q) with (name +:+ String ch_slash q) in E. rewrite SplitByte_app in E by done.
      by eapply (hd_complete _ _ H).
    - destruct (split_below d _ _ eq_refl (listed_descends _ He)) as (ds & Hds & -> & E).
      rewrite (SplitByte_last _ name) in E by done. by eapply (hd_complete _ _ H). }
  rewrite Hb'. f_equal. apply children_sound in Hb' as [_ He']. cbn [de_name de_isDir] in He'.
  assert (∀ q, below d (name +:+ "/" +:+ q) = below d name +:+ "/" +:+ q) as Hbl.
  { intros q. unfold below. destruct (d == "."); [done|]. by rewrite !append_assoc_str. }
  destruct b, b'; try done; exfalso.
  - destruct He as [q Hq]. rewrite Hbl in Hq. by apply (Habove _ q) in He'.
  - destruct He' as [q Hq]. rewrite Hbl in Hq. by apply (Habove _ q) in He.
Qed.

Lemma file_not_directory p : no_file_above l.*1 → p ∈ l.*1 → ¬ is_directory l.*1 p.
Proof.
  intros Habove Hp [->|(x & q & Hx & ->)]; [|by apply (Habove p q Hp)].
  destruct (descends_shape _ (listed_descends _ Hp)) as (_ & _ & _ & ? & _). done.
Qed.
End Exact.

(** ** Sorted entries *)

Definition entry_less (a b : snapshotDirEntry) : bool := str_less (de_name a) (de_name b).

#[local] Instance entry_less_weak : StrictWeak entry_less.
Proof. apply (strict_weak_of_cmp _ (lex_strings [de_name])); [|apply _]. intros x y. apply str_less_lex. Qed.

Definition entries_of (names : gmap string bool) : list snapshotDirEntry := map (uncurry mkDirEntry) (map_to_list names).

Lemma entries_of_names names : map de_name (entries_of names) = (map_to_list names).*1.
Proof. unfold entries_of. rewrite map_map. apply map_ext. by intros []. Qed.

Lemma entries_of_elem names e : e ∈ entries_of names ↔ names !! de_name e = Some (de_isDir e).
Proof.
  unfold entries_of. rewrite list_elem_of_fmap. split.
  - intros ([name b] & -> & Hx). by apply elem_of_map_to_list in Hx.
  - intros Hx. exists (de_name e, de_isDir e). split; [by destruct e|]. by apply elem_of_map_to_list.
Qed.

(** A map is iterated in any order; sorting forgets it. *)
Lemma entries_any_order names es : es ≡ₚ entries_of names → stable_sort entry_less es = stable_sort entry_less (entries_of names).
Proof.
  intros Hp. apply stable_sort_perm_eq; [apply _| |done]. intros x y Hx Hy He.
  rewrite <- list_elem_of_In, Hp, entries_of_elem in Hx, Hy.
  assert (de_name x = de_name y) as E.
  { assert (∀ a b, entry_less a b = is_lt (lex_strings [de_name] a b)) as Hl by (intros; apply str_less_lex).
    unfold equiv_to in He. rewrite !Hl in He.
    assert (lex_strings [de_name] x y = Eq) as HE; [|by apply lex_strings_eq, Forall_inv in HE].
    rewrite (cmp_antisym (cmp:=lex_strings [de_name]) x y) in He. by destruct (lex_strings [de_name] x y). }
  destruct x, y. cbn in *. congruence.
Qed.

Lemma children_sorted s dir l f : fs_children f = finalizeSnapshotChildren (sp_childSets s) → children_of f dir = l →
  strictly_sorted (map de_name l) ∧ ∀ e, e ∈ l ↔ child s dir (de_name e) = Some (de_isDir e).
Proof.
  intros Hf <-. unfold children_of, child. rewrite Hf. unfold finalizeSnapshotChildren. rewrite lookup_fmap.
  destruct (sp_childSets s !! dir) as [names|]; cbn.
  - change (map (uncurry mkDirEntry) (map_to_list names)) with (entries_of names).
    change (λ a b, str_less (de_name a) (de_name b)) with entry_less. split.
    + unfold strictly_sorted. rewrite <- (stable_sort_map str_less de_name), entries_of_names. split; [apply stable_sort_sorted; apply _|].
      rewrite stable_sort_perm. apply NoDup_fst_map_to_list.
    + intros e. rewrite <- entries_of_elem. by rewrite !list_elem_of_In, stable_sort_In.
  - split; [split; constructor|]. intros e. split; [by intros ?%elem_of_nil|done].
Qed.

(** ** What git prints *)

Lemma CutLast_None_cons c d s : CutLast c (String d s) = None ↔ Ascii.eqb d c = false ∧ CutLast c s = None.
Proof. rewrite CutLast_cons. destruct (CutLast c s) as [[]|], (Ascii.eqb d c); split; naive_solver. Qed.

Lemma CutLast_None_app c a b : CutLast c a = None → CutLast c b = None → CutLast c (a +:+ b) = None.
Proof.
  intros Ha Hb. induction a as [|d a IH]; [done|]. apply CutLast_None_cons in Ha as [Hd Ha].
  change (CutLast c (String d (a +:+ b)) = None). apply CutLast_None_cons. auto.
Qed.

Lemma CutByte_first c a b : CutLast c a = None → CutByte c (a +:+ String c b) = Some (a, b).
Proof.
  induction a as [|d a IH]; intros Ha.
  - change ("" +:+ String c b) with (String c b). cbn [CutByte]. by rewrite Ascii.eqb_refl.
  - apply CutLast_None_cons in Ha as [Hd Ha]. change (String d a +:+ ?x) with (String d (a +:+ x)). cbn [CutByte].
    by rewrite Hd, IH.
Qed.

(** Graphic bytes and spaces hold neither tabs nor NULs. *)
Fixpoint graphic (s : string) : bool :=
  match s with EmptyString => true | String c t => in_range 32 126 (code c) && graphic t end.

Lemma graphic_app a b : graphic (a +:+ b) = graphic a && graphic b.
Proof.
  induction a as [|c a IH]; [done|]. change (String c a +:+ b) with (String c (a +:+ b)). cbn [graphic].
  by rewrite IH, andb_assoc.
Qed.

Lemma graphic_space s : graphic (String " " s) = graphic s.
Proof. reflexivity. Qed.

Lemma graphic_without c s : (code c <? 32)%N = true → graphic s = true → CutLast c s = None.
Proof.
  intros Hc. induction s as [|d s IH]; [done|]. cbn [graphic]. intros [Hd Hs]%andb_true_iff. apply CutLast_None_cons. split; [|auto].
  destruct (Ascii.eqb_spec d c) as [->|]; [|done]. unfold in_range in Hd. apply andb_true_iff in Hd as [Hd%N.leb_le _].
  apply N.ltb_lt in Hc. lia.
Qed.

Lemma word_graphic w : word w = true → graphic w = true.
Proof.
  induction w as [|c w IH]; [done|]. cbn [word graphic]. intros [Hc Hw]%andb_true_iff. rewrite IH by done. rewrite andb_true_r.
  unfold in_range in *. apply andb_true_iff in Hc as [H1%N.leb_le H2]. apply andb_true_iff. split; [apply N.leb_le; lia|done].
Qed.

Fixpoint spaces (n : nat) : string := match n with O => "" | S n => String " " (spaces n) end.

Lemma spaces_graphic n : graphic (spaces n) = true.
Proof. induction n; done. Qed.

Lemma Fields_space s : Fields (String " " s) = Fields s.
Proof. reflexivity. Qed.

Lemma Fields_spaces n s : Fields (spaces n +:+ s) = Fields s.
Proof. induction n as [|n IH]; [done|]. change (spaces (S n) +:+ s) with (String " " (spaces n +:+ s)). by rewrite Fields_space. Qed.

Lemma Fields_word w s : word w = true → w ≠ "" → Fields (w +:+ String " " s) = w :: Fields s.
Proof.
  intros Hw Hne. unfold Fields. rewrite fields_word by (done || (right; by eexists)). unfold flush_field.
  change ("" +:+ w) with w. apply String.eqb_neq in Hne. rewrite Hne. by rewrite Fields_space.
Qed.

Lemma Fields_last w : word w = true → w ≠ "" → Fields w = [w].
Proof.
  intros Hw Hne. unfold Fields. rewrite <- (append_empty_r w) at 1. rewrite fields_word by auto. unfold flush_field.
  change ("" +:+ w) with w. apply String.eqb_neq in Hne. by rewrite Hne.
Qed.

(** The size git prints of an entry: a number, or a word for what has none. *)
Inductive blob_size := Size (n : nat) | NoBlob | MissingBlob.

Definition size_text (z : blob_size) : string :=
  match z with Size n => Itoa (Z.of_nat n) | NoBlob => "-" | MissingBlob => "BAD" end.

Definition size_value (z : blob_size) : Z := match z with Size n => Z.of_nat n | _ => 0 end.

(** An entry of [git ls-tree -l]; git pads the size with spaces. *)
Record tree_line := mkTreeLine {
  tl_mode : string; tl_kind : string; tl_object : string; tl_pad : nat; tl_size : blob_size; tl_path : string
}.

Definition line_meta (x : tree_line) : string :=
  tl_mode x +:+ String " " (tl_kind x +:+ String " " (tl_object x +:+ String " " (spaces (tl_pad x) +:+ size_text (tl_size x)))).

Definition line_text (x : tree_line) : string := line_meta x +:+ String tab_byte (tl_path x).

Record line_ok (x : tree_line) : Prop := {
  ok_mode : word (tl_mode x) = true ∧ tl_mode x ≠ "";
  ok_kind : word (tl_kind x) = true ∧ tl_kind x ≠ "";
  ok_object : word (tl_object x) = true ∧ tl_object x ≠ "";
  ok_size : in_int64 (size_value (tl_size x)) = true;
  ok_path : no_backslash (tl_path x) ∧ descends (tl_path x) ∧ no_nul (tl_path x)
}.

Lemma size_text_word z : word (size_text z) = true ∧ size_text z ≠ "".
Proof. destruct z as [n| |]; [apply word_Itoa|done..]. Qed.

Lemma line_meta_graphic x : line_ok x → graphic (line_meta x) = true.
Proof.
  intros [[H1 _] [H2 _] [H3 _] _ _]. unfold line_meta.
  rewrite !graphic_app, graphic_space, graphic_app, graphic_space, graphic_app, graphic_space, graphic_app, spaces_graphic.
  by rewrite (word_graphic _ H1), (word_graphic _ H2), (word_graphic _ H3), (word_graphic _ (proj1 (size_text_word (tl_size x)))).
Qed.

Lemma parse_line {table : IsPrint} x : line_ok x → parseSnapshotLsTreeEntry (line_text x) = inr (tl_path x, size_value (tl_size x)).
Proof.
  intros Hx. unfold parseSnapshotLsTreeEntry, line_text.
  rewrite CutByte_first by (apply graphic_without; [done|by apply line_meta_graphic]).
  destruct Hx as [[H1 N1] [H2 N2] [H3 N3] Hz _]. destruct (size_text_word (tl_size x)) as [H4 N4]. unfold line_meta.
  rewrite !Fields_word, Fields_spaces, Fields_last by done. do 2 f_equal.
  destruct (tl_size x) as [n| |]; [|done..]. cbn [size_text size_value] in *. by rewrite Atoi_Itoa.
Qed.

Lemma list_entries_lines {table : IsPrint} xs : Forall line_ok xs → ∀ l s, holds l s →
  ∃ s', list_entries (map line_text xs) s = inr s' ∧ holds (l ++ map (λ x, (tl_path x, size_value (tl_size x))) xs) s'.
Proof.
  induction 1 as [|x xs Hx _ IH]; intros l s Hs; [exists s; by rewrite app_nil_r|]. cbn [map list_entries].
  rewrite (parse_line _ Hx). destruct (ok_path _ Hx) as (Hb & Hd & _).
  rewrite (proj2 (snapshot_path_iff (tl_path x))) by done.
  destruct (IH (l ++ [(tl_path x, size_value (tl_size x))]) (list_file (tl_path x) (size_value (tl_size x)) s)) as (s' & E & Hs').
  { by apply holds_list_file. }
  exists s'. split; [done|]. by rewrite <- app_assoc in Hs'.
Qed.

Lemma lines_split xs : Forall line_ok xs → SplitNULPaths (nul_terminated (map line_text xs)) = map line_text xs.
Proof.
  intros H. apply SplitNULPaths_nul, list.Forall_fmap. eapply list.Forall_impl; [exact H|]. intros x Hx. cbn. split.
  - unfold line_text, no_nul. apply CutLast_None_app; [apply graphic_without; [done|by apply line_meta_graphic]|].
    apply CutLast_None_cons. split; [done|]. by destruct (ok_path _ Hx) as (_ & _ & ?).
  - unfold line_text. by destruct (line_meta x).
Qed.

(** ** The file system is the tree of the listed paths *)

Section Tree.
Context {table : IsPrint} (spawn : list string → BoundedGit) (lookup_env : string → option string).

Notation New := (New spawn lookup_env).
Notation Open := (Open spawn lookup_env).
Notation ReadFile := (ReadFile spawn lookup_env).

(** What a git child of the package printed, in time, before it succeeded. *)
Definition prints (dir : string) (args : list string) (output stderr : string) : Prop :=
  snapshotGitCommandContext spawn lookup_env snapshotGitTimeout dir args
  = mkBoundedChild None (None, output) (None, stderr) None false
  ∧ (Z.of_nat (String.length stderr) <= maxSnapshotGitStderr)%Z.

Lemma run_prints dir args output stderr limit : prints dir args output stderr →
  (Z.of_nat (String.length output) <= limit < 2 ^ 63 - 1)%Z →
  runSnapshotGit spawn lookup_env dir limit maxSnapshotGitStderr snapshotGitTimeout args = inr output.
Proof.
  intros [H He] Ho. unfold runSnapshotGit, RunBytesBounded, validateGitReadBounds.
  change (snapshotGitTimeout <=? 0)%Z with false. change (maxSnapshotGitStderr <? 0)%Z with false.
  destruct (Z.ltb_spec limit 0) as [|_]; [lia|]. cbn [orb]. unfold bounded_git. rewrite H. cbn [bc_Start bc_Stdout bc_Stderr bc_Wait bc_Expired].
  unfold finishGitBoundedRead, readGitPipe. cbn [fst snd].
  assert (∀ s n, (Z.of_nat (String.length s) <= n < 2 ^ 63 - 1)%Z → String.substring 0 (Z.to_nat (int64_wrap (n + 1))) s = s) as Hs.
  { intros s n Hn. rewrite int64_wrap_small by lia. rewrite <- (substring_here s "") at 2. rewrite append_empty_r.
    assert (∀ m, String.length s ≤ m → String.substring 0 m s = String.substring 0 (String.length s) s) as Hm.
    { clear. induction s as [|c s IH]; intros [|m]; cbn; try done; [lia|]. intros Hm. f_equal. apply IH. lia. }
    apply Hm. lia. }
  rewrite (Hs output) by lia. rewrite (Hs stderr) by (unfold maxSnapshotGitStderr in *; lia).
  destruct (Z.ltb_spec limit (Z.of_nat (String.length output))) as [|_]; [lia|].
  destruct (Z.ltb_spec maxSnapshotGitStderr (Z.of_nat (String.length stderr))) as [|_]; [lia|]. done.
Qed.

Definition ls_args (revision : string) : list string := ["ls-tree"; "-r"; "-z"; "-l"; revision].

(** A file system that was built holds what was listed. *)
Record built (dir revision : string) (lines : list tree_line) (f : revisionFS) : Prop := {
  bt_dir : fs_dir f = dir; bt_revision : fs_revision f = revision;
  bt_listing : ∃ s, holds (map (λ x, (tl_path x, size_value (tl_size x))) lines) s
    ∧ fs_isDir f = sp_isDir (ls_paths s) ∧ fs_isFile f = ls_isFile s ∧ fs_sizes f = ls_sizes s
    ∧ fs_children f = finalizeSnapshotChildren (sp_childSets (ls_paths s))
}.

Lemma New_built dir revision lines stderr : revision ≠ "" → Forall line_ok lines →
  prints dir (ls_args revision) (nul_terminated (map line_text lines)) stderr →
  (Z.of_nat (String.length (nul_terminated (map line_text lines))) <= MaxListBytes)%Z →
  ∃ f, New dir revision = inr f ∧ built dir revision lines f.
Proof.
  intros Hr Hl Hp Hlen. unfold RevisionFs.New. apply String.eqb_neq in Hr. rewrite Hr.
  fold (ls_args revision). rewrite (run_prints _ _ _ _ _ Hp) by (unfold MaxListBytes in *; lia). rewrite lines_split by done.
  destruct (list_entries_lines lines Hl [] empty_listing holds_empty) as (s & -> & Hs).
  eexists. split; [done|]. split; [done..|]. by exists s.
Qed.

Lemma normalize_valid name : ValidPath name = true → normalizeSnapshotName name = inr name.
Proof. intros H. unfold normalizeSnapshotName. rewrite H. by destruct (String.eqb_spec name ".") as [->|]. Qed.

Lemma normalize_invalid name : ValidPath name = false → ∃ err, normalizeSnapshotName name = inl err.
Proof.
  intros H. unfold normalizeSnapshotName. rewrite H. destruct (String.eqb_spec name ".") as [->|]; [done|by eexists].
Qed.

(** What a name is found to be. *)
Definition invalid (f : revisionFS) (name : string) : Prop :=
  Stat f name = inl (mkPathError "stat" name ErrInvalid) ∧ Open f name = inl (mkPathError "open" name ErrInvalid)
  ∧ ReadDir f name = inl (mkPathError "readdir" name ErrInvalid) ∧ ReadFile f name = inl (mkPathError "readfile" name ErrInvalid).

Definition missing (f : revisionFS) (name : string) : Prop :=
  Stat f name = inl (mkPathError "stat" name ErrNotExist) ∧ Open f name = inl (mkPathError "open" name ErrNotExist)
  ∧ ReadDir f name = inl (mkPathError "readdir" name ErrNotExist) ∧ ReadFile f name = inl (mkPathError "open" name ErrNotExist).

Definition a_directory (paths : list string) (f : revisionFS) (name : string) : Prop :=
  Stat f name = inr (snapshotDirInfo (Base name)) ∧ (∃ err, ReadFile f name = inl err) ∧
  ∃ l, ReadDir f name = inr l ∧ Open f name = inr (OpenDir (mkSnapshotDirFile name l 0))
    ∧ strictly_sorted (map de_name l) ∧ ∀ e, e ∈ l ↔ has_entry paths name e.

Definition a_file (f : revisionFS) (name : string) (size : Z) : Prop :=
  Stat f name = inr (snapshotFileInfo (Base name) size) ∧ (∃ err, ReadDir f name = inl err) ∧
  ReadFile f name = readFile spawn lookup_env f name ∧
  Open f name = match ReadFile f name with inl err => inl err | inr data => inr (OpenFile (mkSnapshotFile name data 0)) end.

Lemma built_exact dir revision lines f : Forall line_ok lines → NoDup (map tl_path lines) → no_file_above (map tl_path lines) →
  built dir revision lines f → ∀ name,
  (ValidPath name = false → invalid f name) ∧
  (ValidPath name = true →
    (is_directory (map tl_path lines) name → a_directory (map tl_path lines) f name) ∧
    (∀ x, x ∈ lines → tl_path x = name → a_file f name (size_value (tl_size x))) ∧
    (¬ is_directory (map tl_path lines) name → name ∉ map tl_path lines → missing f name)).
Proof.
  intros Hok Hnd Habove [_ _ (s & Hs & Ed & Ef & Ez & Ec)] name.
  assert ((map (λ x, (tl_path x, size_value (tl_size x))) lines).*1 = map tl_path lines) as Efst by (rewrite map_map; by apply map_ext).
  assert (Forall descends (map tl_path lines)) as Hdesc.
  { apply list.Forall_fmap. eapply list.Forall_impl; [exact Hok|]. intros x Hx. by destruct (ok_path _ Hx) as (_ & ? & _). }
  pose proof Hs as Hs'. rewrite <- Efst in Hnd, Habove, Hdesc |- *.
  assert (∀ name, name ∈ fs_isDir f ↔ is_directory (map (λ x, (tl_path x, size_value (tl_size x))) lines).*1 name) as Hdir
    by (intros; rewrite Ed; by apply dirs_exact).
  assert (∀ name, name ∈ fs_isFile f ↔ name ∈ (map (λ x, (tl_path x, size_value (tl_size x))) lines).*1) as Hfile
    by (intros; rewrite Ef; by apply hd_files).
  split; [intros [err E]%normalize_invalid; unfold invalid, Stat, RevisionFs.Open, ReadDir, RevisionFs.ReadFile; by rewrite E|].
  intros E%normalize_valid. split_and!.
  - intros Hn. apply Hdir in Hn as Hn'. unfold a_directory, Stat, RevisionFs.Open, ReadDir, RevisionFs.ReadFile. rewrite E.
    rewrite !decide_True by done. split; [done|]. split; [by eexists|]. eexists. split; [done|]. split; [done|].
    destruct (children_sorted (ls_paths s) name _ f Ec eq_refl) as [H1 H2]. split; [done|]. intros e. rewrite H2.
    by apply children_exact.
  - intros x Hx <-. assert ((tl_path x, size_value (tl_size x)) ∈ map (λ x, (tl_path x, size_value (tl_size x))) lines) as Hin
      by (apply list_elem_of_fmap; by exists x).
    assert (tl_path x ∈ (map (λ x, (tl_path x, size_value (tl_size x))) lines).*1) as Hin1
      by (apply list_elem_of_fmap; by exists (tl_path x, size_value (tl_size x))).
    pose proof (file_not_directory _ Hdesc _ Habove Hin1) as Hnot. rewrite <- Hdir in Hnot. apply Hfile in Hin1 as Hin2.
    unfold a_file, Stat, RevisionFs.Open, ReadDir, RevisionFs.ReadFile. rewrite E. rewrite !(decide_False _ _ Hnot).
    rewrite !(decide_True _ _ Hin2). rewrite Ez, (hd_sizes _ _ Hs _ _ Hnd Hin). split; [done|]. split; [by eexists|]. done.
  - intros H1 H2. rewrite <- Hdir in H1. rewrite <- Hfile in H2.
    unfold missing, Stat, RevisionFs.Open, ReadDir, RevisionFs.ReadFile. rewrite E.
    by rewrite !(decide_False _ _ H1), !(decide_False _ _ H2).
Qed.

(** C12: A revision is seen as the tree of its paths.  When git lists the revision, whose
    paths are distinct and none a directory of another, every name is found to be just
    what the listing makes it: an ill-formed name is refused; a directory is one by a path
    below it, and shows, in strict order, exactly the files and directories one element
    below it; a file has the size listed, and its content is asked of git at the revision;
    and nothing else exists. *)
Theorem tree_exact dir revision lines stderr :
  revision ≠ "" → Forall line_ok lines → NoDup (map tl_path lines) → no_file_above (map tl_path lines) →
  prints dir (ls_args revision) (nul_terminated (map line_text lines)) stderr →
  (Z.of_nat (String.length (nul_terminated (map line_text lines))) <= MaxListBytes)%Z →
  ∃ f, New dir revision = inr f ∧ fs_revision f = revision ∧ ∀ name,
    (ValidPath name = false → invalid f name) ∧
    (ValidPath name = true →
      (is_directory (map tl_path lines) name → a_directory (map tl_path lines) f name) ∧
      (∀ x, x ∈ lines → tl_path x = name → a_file f name (size_value (tl_size x))) ∧
      (¬ is_directory (map tl_path lines) name → name ∉ map tl_path lines → missing f name)).
Proof.
  intros Hr Hok Hnd Habove Hp Hlen. destruct (New_built dir revision lines stderr Hr Hok Hp Hlen) as (f & Hf & Hb).
  exists f. split; [done|]. split; [apply Hb|]. by apply (built_exact dir revision).
Qed.
End Tree.

(** ** Reading in pieces *)

Lemma substring_length s : ∀ p n, String.length (String.substring p n s) = Nat.min n (String.length s - p).
Proof.
  induction s as [|c s IH]; intros [|p] n; cbn; try (by destruct n).
  destruct n as [|n]; [done|]. cbn. by rewrite IH, Nat.sub_0_r.
Qed.

Lemma substring_empty p n : String.substring p n "" = "".
Proof. by destruct p, n. Qed.

Lemma substring_join s : ∀ p n m, String.substring p n s +:+ String.substring (p + n) m s = String.substring p (n + m) s.
Proof.
  induction s as [|c s IH]; intros p n m; [by rewrite !substring_empty|]. destruct p as [|p]; [|exact (IH p n m)].
  destruct n as [|n]; [done|]. change (String.substring 0 (S n) (String c s)) with (String c (String.substring 0 n s)).
  change (String c ?x +:+ ?y) with (String c (x +:+ y)). cbn [Nat.add String.substring]. f_equal. apply (IH 0).
Qed.

Lemma substring_min s p n : String.substring p n s = String.substring p (Nat.min n (String.length s - p)) s.
Proof.
  revert p n. induction s as [|c s IH]; intros [|p] n; cbn; try (by destruct n).
  destruct n as [|n]; [done|]. cbn. f_equal. rewrite (IH 0 n). by rewrite Nat.sub_0_r.
Qed.

Definition total (sizes : list nat) : nat := foldr Nat.add 0 sizes.

(** One read after another, into buffers of the given sizes. *)
Fixpoint read_pieces (sizes : list nat) (sf : snapshotFile) : list string * snapshotFile :=
  match sizes with
  | [] => ([], sf)
  | n :: sizes =>
      let '(piece, sf) := file_Read n sf in
      let '(pieces, sf) := read_pieces sizes sf in
      (option_list piece ++ pieces, sf)
  end.

Lemma read_pieces_exact sizes : ∀ name data pos, pos ≤ String.length data →
  Join (read_pieces sizes (mkSnapshotFile name data pos)).1 "" = String.substring pos (total sizes) data ∧
  (read_pieces sizes (mkSnapshotFile name data pos)).2 = mkSnapshotFile name data (Nat.min (pos + total sizes) (String.length data)).
Proof.
  assert (∀ x l, Join (x :: l) "" = x +:+ Join l "") as Hj.
  { intros x [|y l]; [by rewrite append_empty_r|done]. }
  induction sizes as [|n sizes IH]; intros name data pos Hpos.
  { cbn. rewrite Nat.min_l by lia. rewrite Nat.add_0_r. split; [|done].
    pose proof (substring_length data pos 0) as E. by destruct (String.substring pos 0 data). }
  cbn [read_pieces]. unfold file_Read. cbn [sf_data sf_pos sf_name].
  destruct (Nat.leb_spec (String.length data) pos) as [Hle|Hlt].
  - destruct (IH name data pos Hpos) as [H1 H2]. destruct (read_pieces _ _) as [pieces sf]. cbn [fst snd] in *.
    change (option_list None ++ pieces) with pieces.
    rewrite H1, H2. rewrite (substring_min data pos (total sizes)), (substring_min data pos (total (n :: sizes))).
    replace (String.length data - pos) with 0 by lia. rewrite !Nat.min_0_r. split; [done|]. f_equal. cbn [total foldr]. lia.
  - assert (pos + String.length (String.substring pos n data) ≤ String.length data) as Hp by (rewrite substring_length; lia).
    destruct (IH name data _ Hp) as [H1 H2]. destruct (read_pieces _ _) as [pieces sf]. cbn [fst snd] in *.
    change (option_list (Some ?x) ++ pieces) with (x :: pieces).
    rewrite Hj, H1, H2. rewrite (substring_length data pos n). split.
    + rewrite (substring_min data pos n), substring_join.
      rewrite (substring_min data pos (_ + _)), (substring_min data pos (total (n :: sizes))). f_equal. cbn [total foldr].
      change (foldr Nat.add 0 sizes) with (total sizes). lia.
    + f_equal. cbn [total foldr]. change (foldr Nat.add 0 sizes) with (total sizes). lia.
Qed.

(** Reading an open file in pieces gives its content from the start, as much as the
    buffers hold, and the end of the file once they held it all. *)
Theorem file_reads_exact sizes name data : let r := read_pieces sizes (mkSnapshotFile name data 0) in
  Join r.1 "" = String.substring 0 (total sizes) data ∧
  (String.length data ≤ total sizes → Join r.1 "" = data ∧ ∀ n, (file_Read n r.2).1 = None).
Proof.
  destruct (read_pieces_exact sizes name data 0 (Nat.le_0_l _)) as [H1 H2]. cbn zeta. split; [done|]. intros Hlen. split.
  - rewrite H1, substring_min, Nat.sub_0_r, Nat.min_r by done. pose proof (substring_here data "") as E. by rewrite append_empty_r in E.
  - intros n. rewrite H2. unfold file_Read. cbn [sf_data sf_pos]. rewrite Nat.min_r by lia. by rewrite Nat.leb_refl.
Qed.

(** One batch of entries after another. *)
Fixpoint read_batches (ns : list Z) (sd : snapshotDirFile) : list Batch * snapshotDirFile :=
  match ns with
  | [] => ([], sd)
  | n :: ns =>
      let '(batch, sd) := directory_ReadDir n sd in
      let '(batches, sd) := read_batches ns sd in
      (batch :: batches, sd)
  end.

Definition batch_entries (b : Batch) : list snapshotDirEntry := match b with Entries l => l | _ => [] end.

Lemma batch_step n sd : sd_offset sd ≤ length (sd_entries sd) → (0 < n)%Z → (Z.of_nat (sd_offset sd) + n < 2 ^ 63)%Z →
  let next := Nat.min (sd_offset sd + Z.to_nat n) (length (sd_entries sd)) in
  (directory_ReadDir n sd).2 = mkSnapshotDirFile (sd_name sd) (sd_entries sd) next ∧
  (directory_ReadDir n sd).1 ≠ SlicePanic ∧
  batch_entries (directory_ReadDir n sd).1 = take (next - sd_offset sd) (drop (sd_offset sd) (sd_entries sd)).
Proof.
  destruct sd as [name entries o]. cbn [sd_name sd_entries sd_offset]. intros Ho Hn Hb.
  set (next := Nat.min (o + Z.to_nat n) (length entries)). unfold directory_ReadDir.
  cbn [sd_name sd_entries sd_offset]. destruct (Z.leb_spec n 0) as [|_]; [lia|].
  destruct (Nat.leb_spec (length entries) o) as [Hle|Hlt]; cbn [fst snd batch_entries].
  - subst next. replace (Nat.min _ _) with o by lia. by rewrite Nat.sub_diag.
  - rewrite int64_wrap_small by lia. unfold zlen.
    assert ((if (Z.of_nat (length entries) <? Z.of_nat o + n)%Z then Z.of_nat (length entries) else (Z.of_nat o + n)%Z)
      = Z.of_nat next) as ->.
    { subst next. destruct (Z.ltb_spec (Z.of_nat (length entries)) (Z.of_nat o + n)); lia. }
    destruct (Z.ltb_spec (Z.of_nat next) (Z.of_nat o)) as [Hx|_]; [lia|]. by rewrite Nat2Z.id.
Qed.

(** Reading an open directory in batches gives its entries in order, as many as were
    asked for, without a panic as long as no count reaches past the width of an int. *)
Theorem directory_reads_exact ns name entries :
  Forall (λ n, (0 < n)%Z ∧ (zlen entries + n < 2 ^ 63)%Z) ns →
  let r := read_batches ns (mkSnapshotDirFile name entries 0) in
  SlicePanic ∉ r.1 ∧ List.concat (map batch_entries r.1) = take (total (map Z.to_nat ns)) entries ∧
  (length entries ≤ total (map Z.to_nat ns) → ∀ n, (0 < n)%Z → (directory_ReadDir n r.2).1 = EndOfDirectory).
Proof.
  intros Hns. enough (∀ o, o ≤ length entries → let r := read_batches ns (mkSnapshotDirFile name entries o) in
    SlicePanic ∉ r.1 ∧ List.concat (map batch_entries r.1) = take (total (map Z.to_nat ns)) (drop o entries) ∧
    r.2 = mkSnapshotDirFile name entries (Nat.min (o + total (map Z.to_nat ns)) (length entries))) as H.
  { destruct (H 0 (Nat.le_0_l _)) as (H1 & H2 & H3). cbn zeta. rewrite drop_0 in H2. repeat split; [done..|].
    intros Hlen n Hn. rewrite H3. unfold directory_ReadDir. cbn [sd_offset sd_entries].
    destruct (Z.leb_spec n 0) as [|_]; [lia|]. rewrite Nat.add_0_l, Nat.min_r by done. by rewrite Nat.leb_refl. }
  induction Hns as [|n ns [Hn Hb] _ IH]; intros o Ho; cbn zeta.
  { cbn. split; [apply not_elem_of_nil|]. split; [done|]. f_equal. lia. }
  cbn [read_batches]. destruct (batch_step n (mkSnapshotDirFile name entries o)) as (E2 & Hp & E1);
    [done|done|cbn; unfold zlen in *; lia|]. cbn [sd_name sd_entries sd_offset] in *.
  destruct (directory_ReadDir n _) as [batch sd]. cbn [fst snd] in *. subst sd.
  destruct (IH (Nat.min (o + Z.to_nat n) (length entries))) as (H1 & H2 & H3); [lia|].
  destruct (read_batches ns _) as [batches sd]. cbn [fst snd map List.concat] in *. split; [|split].
  - rewrite not_elem_of_cons. split; [by intros <-|done].
  - rewrite E1, H2. replace (Nat.min (o + Z.to_nat n) (length entries)) with (o + Nat.min (Z.to_nat n) (length entries - o)) by lia.
    rewrite <- drop_drop. replace (o + _ - o) with (Nat.min (Z.to_nat n) (length entries - o)) by lia.
    cbn [map total foldr]. change (foldr Nat.add 0 (map Z.to_nat ns)) with (total (map Z.to_nat ns)).
    destruct (decide (Z.to_nat n ≤ length entries - o)).
    + rewrite Nat.min_l by done. by rewrite take_take_drop.
    + rewrite Nat.min_r by lia. rewrite !(take_ge (drop o entries)) by (rewrite length_drop; lia).
      rewrite (drop_ge (drop o entries)) by (rewrite length_drop; lia). by rewrite take_nil, app_nil_r.
  - rewrite H3. f_equal. cbn [map total foldr]. change (foldr Nat.add 0 (map Z.to_nat ns)) with (total (map Z.to_nat ns)). lia.
Qed.

(** Asking for the largest count after a first batch panics: the end wraps around. *)
Lemma directory_read_overflow name e1 e2 :
  (directory_ReadDir (2 ^ 63 - 1) (mkSnapshotDirFile name [e1; e2] 1)).1 = SlicePanic.
Proof. reflexivity. Qed.

(** ** Examples *)

Module SnapshotExample.

Definition lines : list tree_line := [
  mkTreeLine "100644" "blob" "b1" 4 (Size 12) "go.mod";
  mkTreeLine "100644" "blob" "b2" 0 (Size 1024) "pkg/b.go";
  mkTreeLine "100644" "blob" "b3" 3 MissingBlob "pkg/a b.go";
  mkTreeLine "160000" "commit" "c4" 6 NoBlob "vendor/lib"].

Definition git (env : list string) : BoundedGit := λ timeout dir args,
  mkBoundedChild None (None, nul_terminated (map line_text lines)) (None, "") None false.

Definition no_env (name : string) : option string := None.

#[local] Existing Instance ascii_table.

Lemma lines_ok : Forall line_ok lines.
Proof.
  repeat constructor; try done; cbn [tl_path].
  all: match goal with |- descends ?p => exists (SplitByte ch_slash p) end; repeat split; try done; repeat constructor; done.
Defined.

Lemma lines_apart : no_file_above (map tl_path lines).
Proof.
  intros p q Hp Hq. cbn in Hp, Hq. rewrite !elem_of_cons, elem_of_nil in Hp, Hq.
  destruct Hp as [->|[->|[->|[->|[]]]]]; destruct Hq as [Hq|[Hq|[Hq|[Hq|[]]]]]; discriminate.
Qed.

Lemma tree_exact_witness : ∃ f, New git no_env "/repo" "HEAD" = inr f ∧
  a_directory git no_env (map tl_path lines) f "pkg" ∧ a_file git no_env f "pkg/b.go" 1024 ∧ missing git no_env f "nothing".
Proof.
  destruct (tree_exact git no_env "/repo" "HEAD" lines "") as (f & Hf & _ & H).
  - done.
  - apply lines_ok.
  - apply (bool_decide_unpack (NoDup (map tl_path lines))). vm_compute. exact I.
  - apply lines_apart.
  - split; [reflexivity|]. vm_compute. done.
  - vm_compute. done.
  - exists f. split; [exact Hf|]. split_and!.
    + apply (H "pkg"); [reflexivity|]. right. exists "pkg/b.go", "b.go". split; [right; left|reflexivity].
    + refine (proj1 (proj2 (proj2 (H "pkg/b.go") eq_refl)) (mkTreeLine "100644" "blob" "b2" 0 (Size 1024) "pkg/b.go") _ eq_refl).
      right; left.
    + apply (H "nothing"); [reflexivity| |].
      * intros [?|(p & q & Hp & ->)]; [discriminate|]. cbn in Hp. rewrite !elem_of_cons, elem_of_nil in Hp.
        destruct Hp as [Hp|[Hp|[Hp|[Hp|[]]]]]; discriminate.
      * cbn. rewrite !elem_of_cons, elem_of_nil. intros [Hp|[Hp|[Hp|[Hp|[]]]]]; discriminate.
Defined.

(** A path that is not UTF-8 is listed by the directory above it and refused by name;
    an entry's own information says every file is empty. *)
Definition latin1 : string := "caf" +:+ String (byte_of 233) ".go".

Definition latin1_git (env : list string) : BoundedGit := λ timeout dir args,
  mkBoundedChild None (None, nul_terminated [line_text (mkTreeLine "100644" "blob" "b1" 4 (Size 12) latin1)]) (None, "") None false.

Example listed_but_refused :
  match New latin1_git no_env "/repo" "HEAD" with
  | inr f =>
      match ReadDir f ".", Stat f latin1 with
      | inr [e], inl err => (de_name e == latin1) && (info_Size (entry_Info e) =? 0)%Z
          && match pe_Err err with ErrInvalid => true | _ => false end
      | _, _ => false
      end
  | inl _ => false
  end = true.
Proof. vm_compute. reflexivity. Qed.
End SnapshotExample.
