(* ===== verification/Readiness.v ===== *)
(** * Project readiness

    [internal/codesignalcli/projectreadiness], the versions of
    [internal/codesignalcli/tstoolchain], the bounded probes of
    [internal/codesignalcli/subprocess], and the aggregation of
    [internal/codesignalcli/projectcheck]: the checks of [--check-project], the gaps and
    next actions they lead to, and the status.  [readiness_exact] says what the aggregate
    reports.  Running a child process is a parameter. *)

From Stdlib Require Import Ascii.
From S2P Require Import Prelude GoText Paths GoOrder GoErr Json GitRepo.

#[local] Arguments String.append : simpl nomatch.

(** ** [projectreadiness/result.go], [projectreadiness/check.go] *)

(** go: internal/codesignalcli/projectreadiness/result.go:10-18#Status *)
Inductive Status := StatusOutsideSupport | StatusNeedsPrerequisite | StatusNeedsPolicy | StatusReadyWithLimits | StatusReady.

#[export] Instance status_eq_dec : EqDecision Status.
Proof. solve_decision. Defined.

(** go: internal/codesignalcli/projectreadiness/check.go:3-9#State *)
Inductive State := Pass | Fail | NotChecked.

#[export] Instance state_eq_dec : EqDecision State.
Proof. solve_decision. Defined.

(** go: internal/codesignalcli/projectreadiness/result.go:25-28#Gap *)
Record Gap := mkGap { gap_Code : string; gap_PackageManagerKind : string }.

(** go: internal/codesignalcli/projectreadiness/result.go:30-36#Warning *)
Record Warning := mkWarning {
  wn_Code : string; wn_DeclaredVersion : string; wn_FoundVersion : string; wn_DeclarationOrigin : string; wn_Root : string
}.

(** go: internal/codesignalcli/projectreadiness/result.go#NextAction *)
Record NextAction := mkNextAction {
  na_Kind : string; na_Executable : bool; na_RuntimeKind : string; na_PackageManagerKind : string;
  na_Supported : list string; na_FoundVersion : string; na_Detail : string; na_Choices : list string
}.

(** go: internal/codesignalcli/projectreadiness/result.go#MiseChoice *)
Record MiseChoice := mkMiseChoice { mc_Kind : string; mc_Verified : bool; mc_Code : string; mc_Reason : string }.

(** go: internal/codesignalcli/projectreadiness/check.go#WarnCompilerDeclarationMismatch *)
Definition WarnCompilerDeclarationMismatch : string := "compiler_declaration_mismatch".

(** go: internal/codesignalcli/projectreadiness/check.go#RootFinding *)
Record RootFinding := mkRootFinding { rtf_Root : string; rtf_Version : string }.

(** go: internal/codesignalcli/projectreadiness/check.go#OriginFinding *)
Record OriginFinding := mkOriginFinding { of_Origin : string; of_Class : string }.

(** go: internal/codesignalcli/projectreadiness/check.go#DeclarationMismatch *)
Record DeclarationMismatch := mkDeclarationMismatch { dm_Root : string; dm_Declared : string }.

(** go: internal/codesignalcli/projectreadiness/check.go#Check *)
Record ReadyCheck := mkReadyCheck {
  ck_State : State; ck_Code : string; ck_Kind : string; ck_Version : string; ck_ExpectedVersion : string;
  ck_FoundVersion : string; ck_PinnedVersion : string; ck_SupportedVersions : list string;
  ck_RootFindings : list RootFinding; ck_Origin : string; ck_Detail : string; ck_DeclaredVersion : string;
  ck_DeclarationOrigin : string; ck_OriginFindings : list OriginFinding;
  ck_DeclarationMismatches : list DeclarationMismatch
}.

(** A check with a state, a code, a kind, an origin, a version and a detail; the rest empty. *)
Definition plain_check (state : State) (code kind origin version detail : string) : ReadyCheck :=
  mkReadyCheck state code kind version "" "" "" [] [] origin detail "" "" [] [].

(** go: internal/codesignalcli/projectreadiness/check.go#Checks *)
Record Checks := mkChecks {
  cks_ProjectShape : ReadyCheck; cks_Policy : ReadyCheck; cks_Node : ReadyCheck; cks_Runtime : ReadyCheck;
  cks_Compiler : ReadyCheck; cks_PackageManager : ReadyCheck
}.

(** ** [projectreadiness/gap_codes.go] *)

Definition GapUnsupportedRepositoryShape : string := "unsupported_repository_shape".
Definition GapNodeMissing : string := "node_missing".
Definition GapNodeUnsupported : string := "node_unsupported".
Definition GapNodeUnverifiable : string := "node_unverifiable".
Definition GapTypescriptCompilerMissing : string := "typescript_compiler_missing".
Definition GapTypescriptVersionMismatch : string := "typescript_version_mismatch".
Definition GapTypescriptVersionConflict : string := "typescript_version_conflict".
Definition GapPackageManagerAmbiguous : string := "package_manager_ambiguous".
Definition GapPackageManagerConfigUnverifiable : string := "package_manager_config_unverifiable".
Definition GapPackageManagerVersionUnverifiable : string := "package_manager_version_unverifiable".
Definition GapPackageManagerVersionUnsupported : string := "package_manager_version_unsupported".
Definition GapPolicyMissing : string := "policy_missing".
Definition GapPolicyInvalid : string := "policy_invalid".

Definition NextActionInstallSupportedRuntime : string := "install_supported_runtime".
Definition NextActionRepairRuntimeProbe : string := "repair_runtime_probe".
Definition NextActionPrepareCompiler : string := "prepare_compiler".
Definition NextActionResolvePackageManager : string := "resolve_package_manager".

(** go: internal/codesignalcli/projectreadiness/gap_codes.go#gapCodeInfo *)
Record gapCodeInfo := mkGapCodeInfo { gi_status : Status; gi_nextActionKind : string; gi_isPackageManagerGap : bool }.

(** go: internal/codesignalcli/projectreadiness/gap_codes.go:83-97#gapCodeTable *)
Definition gapCodeTable : gmap string gapCodeInfo := list_to_map [
  (GapUnsupportedRepositoryShape, mkGapCodeInfo StatusOutsideSupport "confirm_repository_shape" false);
  (GapNodeMissing, mkGapCodeInfo StatusNeedsPrerequisite NextActionInstallSupportedRuntime false);
  (GapNodeUnsupported, mkGapCodeInfo StatusNeedsPrerequisite NextActionInstallSupportedRuntime false);
  (GapNodeUnverifiable, mkGapCodeInfo StatusNeedsPrerequisite NextActionRepairRuntimeProbe false);
  (GapTypescriptCompilerMissing, mkGapCodeInfo StatusNeedsPrerequisite NextActionPrepareCompiler false);
  (GapTypescriptVersionMismatch, mkGapCodeInfo StatusNeedsPrerequisite NextActionPrepareCompiler false);
  (GapTypescriptVersionConflict, mkGapCodeInfo StatusNeedsPrerequisite NextActionPrepareCompiler false);
  (GapPackageManagerAmbiguous, mkGapCodeInfo StatusNeedsPrerequisite NextActionResolvePackageManager true);
  (GapPackageManagerConfigUnverifiable, mkGapCodeInfo StatusNeedsPrerequisite NextActionResolvePackageManager true);
  (GapPackageManagerVersionUnverifiable, mkGapCodeInfo StatusNeedsPrerequisite NextActionResolvePackageManager true);
  (GapPackageManagerVersionUnsupported, mkGapCodeInfo StatusNeedsPrerequisite NextActionResolvePackageManager true);
  (GapPolicyMissing, mkGapCodeInfo StatusNeedsPolicy "author_policy" false);
  (GapPolicyInvalid, mkGapCodeInfo StatusNeedsPolicy "author_policy" false)].

(** go: internal/codesignalcli/projectreadiness/gap_codes.go#StatusForGapCode *)
Definition StatusForGapCode (code : string) : Status :=
  match gapCodeTable !! code with Some info => gi_status info | None => StatusReady end.

(** go: internal/codesignalcli/projectreadiness/gap_codes.go#StatusRank *)
Definition StatusRank (status : Status) : nat :=
  match status with
  | StatusOutsideSupport => 4 | StatusNeedsPrerequisite => 3 | StatusNeedsPolicy => 2 | StatusReadyWithLimits => 1
  | StatusReady => 0
  end.

(** go: internal/codesignalcli/projectreadiness/gap_codes.go#NextActionForGapCode *)
Definition NextActionForGapCode (code : string) : option string := gi_nextActionKind <$> gapCodeTable !! code.

(** go: internal/codesignalcli/projectreadiness/gap_codes.go#NextActionExecutable *)
Definition NextActionExecutable (kind : string) : bool := kind == NextActionPrepareCompiler.

(** go: internal/codesignalcli/projectreadiness/gap_codes.go#IsPackageManagerGapCode *)
Definition IsPackageManagerGapCode (code : string) : bool :=
  match gapCodeTable !! code with Some info => gi_isPackageManagerGap info | None => false end.

(** go: internal/codesignalcli/projectreadiness/gap_codes.go#KnownGapCodes *)
Definition KnownGapCodes : list string := (map_to_list gapCodeTable).*1.

(** ** [projectreadiness/findings_format.go] *)

(** go: internal/codesignalcli/projectreadiness/findings_format.go#formatRootFinding *)
Definition formatRootFinding (finding : RootFinding) : string :=
  if rtf_Version finding == "" then rtf_Root finding else rtf_Root finding +:+ "@" +:+ rtf_Version finding.

(** go: internal/codesignalcli/projectreadiness/findings_format.go#FormatRootFindings *)
Definition FormatRootFindings (findings : list RootFinding) : string := Join (map formatRootFinding findings) ",".

(** go: internal/codesignalcli/projectreadiness/findings_format.go#FormatOriginFindings *)
Definition FormatOriginFindings (findings : list OriginFinding) : string :=
  Join (map (λ f, of_Origin f +:+ ":" +:+ of_Class f) findings) ",".

(** ** [tstoolchain/supported_versions.go], [tstoolchain/node_support.go] *)

(** go: internal/codesignalcli/tstoolchain/supported_versions.go:12-12#SupportedTypescriptVersions *)
Definition SupportedTypescriptVersions : list string := ["7.0.2"].

(** go: internal/codesignalcli/tstoolchain/supported_versions.go#NewestSupportedTypescriptVersion *)
Definition NewestSupportedTypescriptVersion : string := List.last SupportedTypescriptVersions "".

(** go: internal/codesignalcli/tstoolchain/supported_versions.go#IsSupportedTypescriptVersion *)
Definition IsSupportedTypescriptVersion (version : string) : bool :=
  existsb (λ candidate, candidate == version) SupportedTypescriptVersions.

(** A run of at least one digit, as long as it goes. *)
Fixpoint digits_run (s : string) : string :=
  match s with
  | String c t => if in_range 48 57 (code c) then digits_run t else s
  | EmptyString => ""
  end.

Definition take_digits (s : string) : option string :=
  match s with String c t => if in_range 48 57 (code c) then Some (digits_run t) else None | EmptyString => None end.

Definition take_byte (c : ascii) (s : string) : option string :=
  match s with String d t => if Ascii.eqb d c then Some t else None | EmptyString => None end.

(** [[0-9A-Za-z.-]]. *)
Definition qualifier_byte (c : ascii) : bool :=
  in_range 48 57 (code c) || in_range 65 90 (code c) || in_range 97 122 (code c) || Ascii.eqb c "." || Ascii.eqb c "-".

Fixpoint qualifier_run (s : string) : string :=
  match s with String c t => if qualifier_byte c then qualifier_run t else s | EmptyString => "" end.

(** An optional qualifier after its mark: at least one byte, and all that follow.  Neither
    mark of the pattern nor its end can follow inside a run, so a greedy run loses none. *)
Definition skip_qualifier (mark : ascii) (s : string) : string :=
  match s with
  | String d (String c t) => if Ascii.eqb d mark && qualifier_byte c then qualifier_run t else s
  | _ => s
  end.

(** What is left after the three numbers. *)
Definition version_numbers (s : string) : option string :=
  s ← take_digits s; s ← take_byte "." s; s ← take_digits s; s ← take_byte "." s; take_digits s.

(** go: internal/codesignalcli/tstoolchain/supported_versions.go:33-37#IsExactVersion *)
Definition IsExactVersion (value : string) : bool :=
  match version_numbers (TrimSpace value) with
  | Some rest => skip_qualifier "+" (skip_qualifier "-" rest) == ""
  | None => false
  end.

(** go: internal/codesignalcli/tstoolchain/supported_versions.go#DedupeStrings *)
Fixpoint dedupe_from (seen : gset string) (values : list string) : list string :=
  match values with
  | [] => []
  | value :: rest => if decide (value ∈ seen) then dedupe_from seen rest else value :: dedupe_from ({[value]} ∪ seen) rest
  end.

Definition DedupeStrings (values : list string) : list string := dedupe_from ∅ values.

(** go: internal/codesignalcli/tstoolchain/node_support.go:7-7#SupportedNodeMajors *)
Definition SupportedNodeMajors : list Z := [24; 26]%Z.

(** go: internal/codesignalcli/tstoolchain/node_support.go#NodeMajorSupported *)
Definition NodeMajorSupported (major : Z) : bool := existsb (λ supported, (supported =? major)%Z) SupportedNodeMajors.

(** go: internal/codesignalcli/tstoolchain/node_support.go#SupportedNodeMajorsCopy *)
Definition SupportedNodeMajorsCopy : list string := map Itoa SupportedNodeMajors.

(** ** [subprocess/probe.go] *)

(** What running a child comes to: an error of making its pipe or starting it, what was
    read of its output, its exit, and whether the deadline passed first. *)
Record ProbedChild := mkProbedChild {
  pb_Start : option error; pb_Stdout : option error * string; pb_Wait : option error; pb_Expired : bool
}.

(** The outcome of a probe: its output, a non-zero exit, a timeout, or another failure,
    with the cause of a [fs.PathError] in it if there is one. *)
Inductive ProbeOutcome :=
  | ProbeData (data : string) | ProbeExit (err : error) | ProbeTimedOut | ProbeFailed (err : error).

(** go: internal/codesignalcli/subprocess/probe.go#ProbeAt *)
Definition ProbeAt (name : string) (maxOutput : Z) (child : ProbedChild) : ProbeOutcome :=
  match pb_Start child with
  | Some err => ProbeFailed (Errorf ("starting " +:+ name +:+ ": ") err)
  | None =>
      let data := String.substring 0 (Z.to_nat (int64_wrap (maxOutput + 1))) (pb_Stdout child).2 in
      if pb_Expired child then ProbeTimedOut
      else match (pb_Stdout child).1 with
      | Some err => ProbeFailed (Errorf ("reading " +:+ name +:+ " output: ") err)
      | None =>
          if (maxOutput <? Z.of_nat (String.length data))%Z
          then ProbeFailed (errors_New (name +:+ " output exceeded " +:+ Itoa maxOutput +:+ "-byte budget"))
          else match pb_Wait child with Some err => ProbeExit err | None => ProbeData data end
      end
  end.

(** ** [tstoolchain/node_readiness.go] *)

(** go: internal/codesignalcli/tstoolchain/node_readiness.go#maxNodeVersionProbeOutput *)
Definition maxNodeVersionProbeOutput : Z := 4 * 2 ^ 10.

(** go: internal/codesignalcli/tstoolchain/node_readiness.go#ParseNodeMajor *)
Definition ParseNodeMajor (rawVersion : string) : option Z :=
  let trimmed := TrimPrefix "v" rawVersion in
  Atoi (match CutByte ch_dot trimmed with Some (majorPart, _) => majorPart | None => trimmed end).

(** Why the host's Node could not be told. *)
Inductive NodeError := NodeNotFound | NodeTimedOut | NodeFailed (err : error) (path_cause : option error).

Section Node.
Context {table : IsPrint}.

(** Whether [node] is on the path, the child of [node --version], and the [fs.PathError]
    in an error, if there is one. *)
Context (node_on_path : bool) (node_version : ProbedChild) (path_error : error → option error).

(** The raw version as far as it was read, and the major version or the error.

    go: internal/codesignalcli/tstoolchain/node_readiness.go#detectHostNodeMajor *)
Definition detectHostNodeMajor : string * (NodeError + Z) :=
  if negb node_on_path then ("", inl NodeNotFound)
  else match ProbeAt "node" maxNodeVersionProbeOutput node_version with
  | ProbeTimedOut => ("", inl NodeTimedOut)
  | ProbeFailed err => ("", inl (NodeFailed err (path_error err)))
  | ProbeExit err =>
      let wrapped := Errorf "running node --version: " err in ("", inl (NodeFailed wrapped (path_error wrapped)))
  | ProbeData data =>
      let rawVersion := TrimSpace data in
      match ParseNodeMajor rawVersion with
      | Some major => (rawVersion, inr major)
      | None => (rawVersion, inl (NodeFailed (errors_New ("unparsable node version " +:+ quoted rawVersion)) None))
      end
  end.

(** go: internal/codesignalcli/tstoolchain/node_readiness.go#truncateNodeUnverifiableRawVersion *)
Definition truncateNodeUnverifiableRawVersion (rawVersion : string) : string :=
  if String.length rawVersion <=? 200 then rawVersion else String.substring 0 200 rawVersion +:+ "...(truncated)".

(** go: internal/codesignalcli/tstoolchain/node_readiness.go#nodeUnverifiableDetail *)
Definition nodeUnverifiableDetail (err : NodeError) (rawVersion : string) : string :=
  match err with
  | NodeTimedOut => "node --version timed out"
  | _ =>
      if rawVersion != "" then
        "node --version printed an unparsable version: " +:+ quoted (truncateNodeUnverifiableRawVersion rawVersion)
      else match err with
      | NodeFailed _ (Some cause) => "node --version failed to start: " +:+ truncateNodeUnverifiableRawVersion (err_Error cause)
      | NodeFailed err None => "node --version failed: " +:+ err_Error err
      | _ => "node --version failed: node executable not found on PATH"
      end
  end.

Definition NodeCheckKind : string := "node".

(** go: internal/codesignalcli/tstoolchain/node_readiness.go#CheckNode *)
Definition CheckNode : ReadyCheck :=
  match detectHostNodeMajor with
  | (_, inl NodeNotFound) => plain_check Fail GapNodeMissing NodeCheckKind "path" "" ""
  | (rawVersion, inl err) =>
      plain_check Fail GapNodeUnverifiable NodeCheckKind "path" "" (nodeUnverifiableDetail err rawVersion)
  | (rawVersion, inr major) =>
      if negb (NodeMajorSupported major) then plain_check Fail GapNodeUnsupported NodeCheckKind "path" rawVersion ""
      else plain_check Pass "" NodeCheckKind "path" rawVersion ""
  end.
End Node.

(** go: internal/codesignalcli/tstoolchain/node_readiness.go#NodeCompatibilityMirror *)
Definition NodeCompatibilityMirror (runtimeCheck : ReadyCheck) : ReadyCheck :=
  plain_check (ck_State runtimeCheck) (ck_Code runtimeCheck) "" "" (ck_Version runtimeCheck) "".

(** ** [projectcheck/next_actions.go] *)

(** go: internal/codesignalcli/projectcheck/next_actions.go#restrictPrepareCompilerChoices *)
Definition restrictPrepareCompilerChoices (actions : list NextAction) (adapterRejected : bool) (verified : list string) :
    list NextAction :=
  if negb adapterRejected then actions
  else flat_map (λ action,
    if na_Kind action != NextActionPrepareCompiler then [action]
    else match verified with
    | [] => []
    | _ => [mkNextAction (na_Kind action) (na_Executable action) (na_RuntimeKind action) (na_PackageManagerKind action)
              (na_Supported action) (na_FoundVersion action) (na_Detail action) verified]
    end) actions.

(** go: internal/codesignalcli/projectcheck/next_actions.go#nextActionForCheck *)
Definition nextActionForCheck (kind : string) (check : ReadyCheck) : NextAction :=
  let executable := NextActionExecutable kind in
  if kind == NextActionInstallSupportedRuntime then
    mkNextAction kind executable NodeCheckKind "" SupportedNodeMajorsCopy
      (if ck_Code check == GapNodeUnsupported then ck_Version check else "") "" []
  else if kind == NextActionRepairRuntimeProbe then
    mkNextAction kind executable NodeCheckKind "" [] "" (ck_Detail check) []
  else if kind == NextActionPrepareCompiler then
    mkNextAction kind executable "" "" SupportedTypescriptVersions (ck_FoundVersion check) "" []
  else if kind == NextActionResolvePackageManager then
    mkNextAction kind executable "" (ck_Kind check) [] (ck_FoundVersion check) "" []
  else mkNextAction kind executable "" "" [] "" "" [].

(** ** [projectcheck/aggregate.go] *)

(** go: internal/codesignalcli/projectcheck/aggregate.go#hasReadinessLimitWarning *)
Definition hasReadinessLimitWarning (checks : Checks) (dirtyRelevant : bool) : bool :=
  dirtyRelevant || (ck_Code (cks_Compiler checks) == WarnCompilerDeclarationMismatch).

(** go: internal/codesignalcli/projectcheck/aggregate.go#compilerDeclarationWarnings *)
Definition compilerDeclarationWarnings (check : ReadyCheck) : list Warning :=
  if ck_Code check != WarnCompilerDeclarationMismatch then []
  else map (λ m, mkWarning WarnCompilerDeclarationMismatch (dm_Declared m) (ck_Version check) (ck_DeclarationOrigin check)
                   (dm_Root m)) (ck_DeclarationMismatches check).

(** go: internal/codesignalcli/projectcheck/aggregate.go#readinessWarnings *)
Definition readinessWarnings (checks : Checks) : list Warning := compilerDeclarationWarnings (cks_Compiler checks).

Definition failed (check : ReadyCheck) : bool := bool_decide (ck_State check = Fail).

(** go: internal/codesignalcli/projectcheck/aggregate.go#failingReadinessChecks *)
Definition failingReadinessChecks (checks : Checks) : list ReadyCheck :=
  List.filter failed [cks_ProjectShape checks; cks_Policy checks; cks_Runtime checks; cks_Compiler checks].

(** go: internal/codesignalcli/projectcheck/aggregate.go#raiseStatus *)
Definition raiseStatus (status candidate : Status) : Status :=
  if StatusRank status <? StatusRank candidate then candidate else status.

(** The loop, with the kinds of action already listed. *)
Fixpoint gap_checks_from (seen : gset string) (status : Status) (failing : list ReadyCheck) :
    list Gap * list NextAction * Status :=
  match failing with
  | [] => ([], [], status)
  | check :: rest =>
      let status := raiseStatus status (StatusForGapCode (ck_Code check)) in
      let gap := mkGap (ck_Code check) "" in
      match NextActionForGapCode (ck_Code check) with
      | Some kind =>
          if decide (kind ∈ seen) then
            let '(gaps, actions, status) := gap_checks_from seen status rest in (gap :: gaps, actions, status)
          else
            let '(gaps, actions, status) := gap_checks_from ({[kind]} ∪ seen) status rest in
            (gap :: gaps, nextActionForCheck kind check :: actions, status)
      | None => let '(gaps, actions, status) := gap_checks_from seen status rest in (gap :: gaps, actions, status)
      end
  end.

(** go: internal/codesignalcli/projectcheck/aggregate.go#readinessFromGapChecks *)
Definition readinessFromGapChecks (failing : list ReadyCheck) : list Gap * list NextAction * Status :=
  gap_checks_from ∅ StatusReady failing.

(** ** [projectcheck/package_manager_gaps.go] *)

(** go: internal/codesignalcli/projectcheck/package_manager_gaps.go#appendPackageManagerFinding *)
Definition appendPackageManagerFinding (acc : list Gap * list NextAction * Status) (code kind foundVersion : string) :
    list Gap * list NextAction * Status :=
  let '(gaps, actions, status) := acc in
  (gaps ++ [mkGap code kind],
   match NextActionForGapCode code with
   | Some actionKind => actions ++ [mkNextAction actionKind (NextActionExecutable actionKind) "" kind [] foundVersion "" []]
   | None => actions
   end,
   raiseStatus status (StatusForGapCode code)).

(** One mise choice: verified, rejected with a gap, or neither. *)
Definition mise_finding (acc : list Gap * list NextAction * Status * list string) (choice : MiseChoice) :
    list Gap * list NextAction * Status * list string :=
  let '(findings, verified) := acc in
  if mc_Verified choice then (findings, verified ++ [mc_Kind choice])
  else if negb (IsPackageManagerGapCode (mc_Code choice)) then acc
  else (appendPackageManagerFinding findings (mc_Code choice) (mc_Kind choice) "", verified).

(** go: internal/codesignalcli/projectcheck/package_manager_gaps.go#packageManagerGapEntries *)
Definition packageManagerGapEntries (checks : Checks) (miseChoices : list MiseChoice) :
    list Gap * list NextAction * Status * list string :=
  let pm := cks_PackageManager checks in
  if decide (ck_State (cks_Compiler checks) = Pass) then ([], [], StatusReady, [])
  else
    let verified := if decide (ck_State pm = Pass) then (if ck_Kind pm != "" then [ck_Kind pm] else []) else [] in
    let findings :=
      if failed pm && IsPackageManagerGapCode (ck_Code pm)
      then appendPackageManagerFinding ([], [], StatusReady) (ck_Code pm) (ck_Kind pm) (ck_FoundVersion pm)
      else ([], [], StatusReady) in
    fold_left mise_finding miseChoices (findings, verified).

(** go: internal/codesignalcli/projectcheck/aggregate.go#aggregateReadiness *)
Definition aggregateReadiness (checks : Checks) (dirtyRelevant : bool) (miseChoices : list MiseChoice) :
    Status * list Gap * list NextAction * list Warning :=
  let '(gaps, nextActions, status) := readinessFromGapChecks (failingReadinessChecks checks) in
  let '(pmGaps, pmActions, pmStatus, verifiedChoices) := packageManagerGapEntries checks miseChoices in
  let gaps := gaps ++ pmGaps in
  let nextActions := restrictPrepareCompilerChoices (nextActions ++ pmActions) (failed (cks_PackageManager checks)) verifiedChoices in
  let status := raiseStatus status pmStatus in
  let status :=
    match gaps with [] => if hasReadinessLimitWarning checks dirtyRelevant then StatusReadyWithLimits else status | _ => status end in
  (status, gaps, nextActions, readinessWarnings checks).

(** ** What the aggregate reports *)

Lemma StatusRank_inj a b : StatusRank a = StatusRank b → a = b.
Proof. by destruct a, b. Qed.

Lemma raiseStatus_rank a b : StatusRank (raiseStatus a b) = Nat.max (StatusRank a) (StatusRank b).
Proof. unfold raiseStatus. destruct (Nat.ltb_spec (StatusRank a) (StatusRank b)); lia. Qed.

(** The worst rank among gaps. *)
Definition worst (gaps : list Gap) : nat := foldr (λ g n, Nat.max (StatusRank (StatusForGapCode (gap_Code g))) n) 0 gaps.

Lemma worst_app a b : worst (a ++ b) = Nat.max (worst a) (worst b).
Proof. induction a as [|g a IH]; [done|]. cbn. fold (worst (a ++ b)) (worst a). rewrite IH. lia. Qed.

Lemma worst_attained gaps : gaps ≠ [] → ∃ g, g ∈ gaps ∧ StatusRank (StatusForGapCode (gap_Code g)) = worst gaps.
Proof.
  induction gaps as [|g gaps IH]; [done|]. intros _. cbn. fold (worst gaps). destruct gaps as [|g' gaps].
  - exists g. split; [left|]. cbn. lia.
  - destruct IH as (x & Hx & E); [done|]. destruct (decide (StatusRank (StatusForGapCode (gap_Code g)) ≤ worst (g' :: gaps))).
    + exists x. split; [by right|]. lia.
    + exists g. split; [left|]. lia.
Qed.

Lemma worst_bound gaps g : g ∈ gaps → StatusRank (StatusForGapCode (gap_Code g)) ≤ worst gaps.
Proof.
  induction 1 as [g gaps|g x gaps _ IH]; cbn; fold (worst gaps); lia.
Qed.

Definition failing_gap (check : ReadyCheck) : Gap := mkGap (ck_Code check) "".

(** The first check of each kind of action not yet seen. *)
Fixpoint first_actions (seen : gset string) (failing : list ReadyCheck) : list NextAction :=
  match failing with
  | [] => []
  | check :: rest =>
      match NextActionForGapCode (ck_Code check) with
      | Some kind =>
          if decide (kind ∈ seen) then first_actions seen rest
          else nextActionForCheck kind check :: first_actions ({[kind]} ∪ seen) rest
      | None => first_actions seen rest
      end
  end.

Lemma gap_checks_spec failing : ∀ seen status,
  (gap_checks_from seen status failing).1 = (map failing_gap failing, first_actions seen failing) ∧
  StatusRank (gap_checks_from seen status failing).2 = Nat.max (StatusRank status) (worst (map failing_gap failing)).
Proof.
  induction failing as [|check failing IH]; intros seen status; [cbn; split; [done|lia]|].
  cbn [gap_checks_from first_actions map]. destruct (NextActionForGapCode (ck_Code check)) as [kind|]; [case_decide|].
  all: match goal with |- context [gap_checks_from ?sn ?st ?rest] =>
      destruct (IH sn st) as [E1 E2]; destruct (gap_checks_from sn st rest) as [[gaps actions] s];
      cbn [fst snd] in *; injection E1 as -> ->; split; [done|]; rewrite E2, raiseStatus_rank; cbn;
      fold (worst (map failing_gap rest)); lia
    end.
Qed.

Lemma nextActionForCheck_kind kind check : na_Kind (nextActionForCheck kind check) = kind.
Proof. unfold nextActionForCheck. by repeat case_match. Qed.

Lemma first_actions_kinds failing : ∀ seen,
  NoDup (map na_Kind (first_actions seen failing)) ∧
  ∀ kind, kind ∈ map na_Kind (first_actions seen failing) ↔
    kind ∉ seen ∧ ∃ check, check ∈ failing ∧ NextActionForGapCode (ck_Code check) = Some kind.
Proof.
  induction failing as [|check failing IH]; intros seen; cbn [first_actions map].
  { split; [constructor|]. intros kind. split; [by intros ?%elem_of_nil|]. by intros (_ & c & ?%elem_of_nil & _). }
  destruct (NextActionForGapCode (ck_Code check)) as [k|] eqn:E; [case_decide as Hk|].
  - destruct (IH seen) as [Hn Hi]. split; [done|]. intros kind. rewrite Hi. split.
    + intros (Hs & c & Hc & Hx). split; [done|]. exists c. split; [by right|done].
    + intros (Hs & c & Hc & Hx). split; [done|]. apply elem_of_cons in Hc as [->|Hc]; [|by exists c].
      rewrite E in Hx. by injection Hx as ->.
  - destruct (IH ({[k]} ∪ seen)) as [Hn Hi]. cbn [map]. rewrite nextActionForCheck_kind. split.
    + constructor; [|done]. rewrite Hi. set_solver.
    + intros kind. rewrite elem_of_cons, Hi. split.
      * intros [->|(Hs & c & Hc & Hx)]; [split; [done|]; exists check; split; [left|done]|].
        split; [set_solver|]. exists c. split; [by right|done].
      * intros (Hs & c & Hc & Hx). destruct (decide (kind = k)) as [->|Hne]; [by left|]. right. split; [set_solver|].
        apply elem_of_cons in Hc as [->|Hc]; [|by exists c]. rewrite E in Hx. by injection Hx as ->.
  - destruct (IH seen) as [Hn Hi]. split; [done|]. intros kind. rewrite Hi. split.
    + intros (Hs & c & Hc & Hx). split; [done|]. exists c. split; [by right|done].
    + intros (Hs & c & Hc & Hx). split; [done|]. apply elem_of_cons in Hc as [->|Hc]; [|by exists c]. by rewrite E in Hx.
Qed.

(** *** The package manager's gaps *)

Definition choice_gap (choice : MiseChoice) : option Gap :=
  if mc_Verified choice || negb (IsPackageManagerGapCode (mc_Code choice)) then None
  else Some (mkGap (mc_Code choice) (mc_Kind choice)).

Definition adapter_gap (pm : ReadyCheck) : option Gap :=
  if failed pm && IsPackageManagerGapCode (ck_Code pm) then Some (mkGap (ck_Code pm) (ck_Kind pm)) else None.

(** The gaps of the ways to install a compiler, while none is found. *)
Definition setup_gaps (checks : Checks) (choices : list MiseChoice) : list Gap :=
  if decide (ck_State (cks_Compiler checks) = Pass) then []
  else option_list (adapter_gap (cks_PackageManager checks)) ++ omap choice_gap choices.

(** The ways to install a compiler that were verified. *)
Definition verified_choices (checks : Checks) (choices : list MiseChoice) : list string :=
  if decide (ck_State (cks_Compiler checks) = Pass) then []
  else (if decide (ck_State (cks_PackageManager checks) = Pass)
        then if ck_Kind (cks_PackageManager checks) != "" then [ck_Kind (cks_PackageManager checks)] else [] else [])
       ++ map mc_Kind (List.filter mc_Verified choices).

Lemma pm_code_action code : IsPackageManagerGapCode code = true → NextActionForGapCode code = Some NextActionResolvePackageManager.
Proof.
  unfold IsPackageManagerGapCode, NextActionForGapCode. intros H.
  destruct (gapCodeTable !! code) as [info|] eqn:E; [|done]. apply elem_of_list_to_map_2 in E.
  repeat (apply elem_of_cons in E as [[= -> ->]|E]; [done|]). by apply elem_of_nil in E.
Qed.

(** What a finding adds: its gap, one action of its kind, and its status. *)
Record findings_say (gaps : list Gap) (acc : list Gap * list NextAction * Status) : Prop := {
  fs_gaps : acc.1.1 = gaps;
  fs_actions : Forall2 (λ g a, na_Kind a = NextActionResolvePackageManager ∧ na_PackageManagerKind a = gap_PackageManagerKind g)
                 gaps acc.1.2;
  fs_status : StatusRank acc.2 = worst gaps
}.

Lemma append_finding gaps acc code kind found : IsPackageManagerGapCode code = true → findings_say gaps acc →
  findings_say (gaps ++ [mkGap code kind]) (appendPackageManagerFinding acc code kind found).
Proof.
  intros Hc [Hg Ha Hs]. destruct acc as [[g a] s]. cbn [fst snd] in *. subst g. unfold appendPackageManagerFinding.
  rewrite (pm_code_action _ Hc). split; cbn [fst snd]; [done| |].
  - apply Forall2_app; [done|]. by repeat constructor.
  - rewrite raiseStatus_rank, Hs, worst_app. cbn. lia.
Qed.

Lemma mise_findings choices : ∀ gaps acc verified, findings_say gaps acc →
  ∃ acc', fold_left mise_finding choices (acc, verified) = (acc', verified ++ map mc_Kind (List.filter mc_Verified choices)) ∧
    findings_say (gaps ++ omap choice_gap choices) acc'.
Proof.
  induction choices as [|choice choices IH]; intros gaps acc verified H; [exists acc; by rewrite !app_nil_r|].
  cbn [fold_left]. unfold mise_finding at 2. rewrite omap_head. unfold choice_gap at 1. cbn [List.filter].
  destruct (mc_Verified choice); cbn [orb].
  - destruct (IH gaps acc (verified ++ [mc_Kind choice]) H) as (acc' & E & H'). exists acc'. split; [|done].
    cbn [map]. by rewrite E, <- app_assoc.
  - destruct (IsPackageManagerGapCode (mc_Code choice)) eqn:Hc; cbn [negb].
    + destruct (IH (gaps ++ [mkGap (mc_Code choice) (mc_Kind choice)])
        (appendPackageManagerFinding acc (mc_Code choice) (mc_Kind choice) "") verified) as (acc' & E & H'); [by apply append_finding|].
      exists acc'. split; [done|]. by rewrite <- app_assoc in H'.
    + by apply IH.
Qed.

Lemma setup_spec checks choices : ∃ acc,
  packageManagerGapEntries checks choices = (acc, verified_choices checks choices) ∧ findings_say (setup_gaps checks choices) acc.
Proof.
  unfold packageManagerGapEntries, verified_choices, setup_gaps. case_decide; [exists ([], [], StatusReady); by repeat constructor|].
  set (pm := cks_PackageManager checks). apply mise_findings. unfold adapter_gap.
  destruct (failed pm && IsPackageManagerGapCode (ck_Code pm)) eqn:E; [|by repeat constructor].
  apply andb_true_iff in E as [_ E]. apply (append_finding []); [done|]. by repeat constructor.
Qed.

(** *** The result *)

(** A failed check names a code of the table. *)
Definition known (check : ReadyCheck) : Prop := ck_State check = Fail → is_Some (gapCodeTable !! ck_Code check).

Lemma table_status code info : gapCodeTable !! code = Some info → 2 ≤ StatusRank (gi_status info).
Proof.
  intros E. apply elem_of_list_to_map_2 in E. repeat (apply elem_of_cons in E as [[= -> ->]|E]; [cbn; lia|]).
  by apply elem_of_nil in E.
Qed.

Lemma restrict_elem actions rejected verified a : a ∈ restrictPrepareCompilerChoices actions rejected verified ↔
  if rejected then (a ∈ actions ∧ na_Kind a ≠ NextActionPrepareCompiler) ∨
    (verified ≠ [] ∧ na_Kind a = NextActionPrepareCompiler ∧ na_Choices a = verified ∧ ∃ b, b ∈ actions ∧
      na_Kind b = NextActionPrepareCompiler ∧ a = mkNextAction (na_Kind b) (na_Executable b) (na_RuntimeKind b)
        (na_PackageManagerKind b) (na_Supported b) (na_FoundVersion b) (na_Detail b) verified)
  else a ∈ actions.
Proof.
  unfold restrictPrepareCompilerChoices. destruct rejected; [|done]. cbn [negb]. rewrite list_elem_of_In, in_flat_map. split.
  - intros (b & Hb & Ha). destruct (String.eqb_spec (na_Kind b) NextActionPrepareCompiler) as [E|E]; cbn [negb] in Ha.
    + right. destruct verified as [|v vs]; [done|]. destruct Ha as [<-|[]]. cbn. repeat split; try done.
      exists b. by rewrite list_elem_of_In.
    + destruct Ha as [<-|[]]. left. by rewrite list_elem_of_In.
  - intros [[Ha Hk]|(Hv & Hk & _ & b & Hb & Eb & ->)].
    + exists a. rewrite <- list_elem_of_In. split; [done|]. apply String.eqb_neq in Hk. rewrite Hk. by left.
    + exists b. rewrite <- list_elem_of_In. split; [done|]. rewrite Eb, String.eqb_refl. cbn [negb].
      destruct verified; [done|]. by left.
Qed.

Lemma setup_gap_code checks choices g : g ∈ setup_gaps checks choices → IsPackageManagerGapCode (gap_Code g) = true.
Proof.
  unfold setup_gaps. case_decide; [by intros ?%elem_of_nil|]. rewrite elem_of_app. intros [Hg|Hg].
  - unfold adapter_gap in Hg. destruct (failed _ && _) eqn:E; [|by apply elem_of_nil in Hg].
    apply list_elem_of_singleton in Hg as ->. by apply andb_true_iff in E as [_ E].
  - apply list_elem_of_omap in Hg as (c & _ & E). unfold choice_gap in E.
    destruct (mc_Verified c); [done|]. destruct (IsPackageManagerGapCode (mc_Code c)) eqn:Hc; [|done]. by injection E as <-.
Qed.

Lemma setup_action_elem gaps actions g : Forall2 (λ g a, na_Kind a = NextActionResolvePackageManager ∧
    na_PackageManagerKind a = gap_PackageManagerKind g) gaps actions → g ∈ gaps →
  ∃ a, a ∈ actions ∧ na_Kind a = NextActionResolvePackageManager ∧ na_PackageManagerKind a = gap_PackageManagerKind g.
Proof.
  induction 1 as [|x a gaps actions Hxa _ IH]; [by intros ?%elem_of_nil|]. intros [->|Hg]%elem_of_cons.
  - exists a. split; [left|done].
  - destruct (IH Hg) as (b & Hb & Hk). exists b. split; [by right|done].
Qed.

Definition failed_gaps (checks : Checks) : list Gap := map failing_gap (failingReadinessChecks checks).

(** The gaps are told apart from what is done about them: what the actions are. *)
Record actions_say (checks : Checks) (choices : list MiseChoice) (actions : list NextAction) : Prop := {
  (** every gap of a failed check has an action of the kind of its code, unless preparing a
      compiler was withheld *)
  as_failed check kind : check ∈ failingReadinessChecks checks → NextActionForGapCode (ck_Code check) = Some kind →
    kind ≠ NextActionPrepareCompiler → ∃ a, a ∈ actions ∧ na_Kind a = kind;
  (** every rejected way to install a compiler has an action that names it *)
  as_setup g : g ∈ setup_gaps checks choices →
    ∃ a, a ∈ actions ∧ na_Kind a = NextActionResolvePackageManager ∧ na_PackageManagerKind a = gap_PackageManagerKind g;
  (** preparing a compiler is offered exactly when some failed check calls for it and, if
      the project's package manager was rejected, another way was verified *)
  as_prepare : (∃ a, a ∈ actions ∧ na_Kind a = NextActionPrepareCompiler) ↔
    (∃ check, check ∈ failingReadinessChecks checks ∧ NextActionForGapCode (ck_Code check) = Some NextActionPrepareCompiler) ∧
    (ck_State (cks_PackageManager checks) = Fail → verified_choices checks choices ≠ []);
  (** and then with the verified ways alone *)
  as_choices a : a ∈ actions → na_Kind a = NextActionPrepareCompiler → ck_State (cks_PackageManager checks) = Fail →
    na_Choices a = verified_choices checks choices
}.

Lemma aggregate_actions checks choices pm_acc :
  findings_say (setup_gaps checks choices) pm_acc →
  actions_say checks choices (restrictPrepareCompilerChoices (first_actions ∅ (failingReadinessChecks checks) ++ pm_acc.1.2)
    (failed (cks_PackageManager checks)) (verified_choices checks choices)).
Proof.
  intros [_ Ha _]. set (first := first_actions _ _). set (verified := verified_choices checks choices).
  destruct (first_actions_kinds (failingReadinessChecks checks) ∅) as [_ Hk]. fold first in Hk.
  assert (∀ a, a ∈ pm_acc.1.2 → na_Kind a = NextActionResolvePackageManager) as Hpm.
  { revert Ha. induction 1 as [|x a gaps actions Hxa _ IH]; [by intros ? ?%elem_of_nil|]. intros b [->|Hb]%elem_of_cons; [apply Hxa|auto]. }
  assert (∀ kind, (∃ a, a ∈ first ∧ na_Kind a = kind) ↔
    ∃ check, check ∈ failingReadinessChecks checks ∧ NextActionForGapCode (ck_Code check) = Some kind) as Hfirst.
  { intros kind. transitivity (kind ∈ map na_Kind first); [rewrite list_elem_of_fmap; naive_solver|]. rewrite Hk. set_solver. }
  assert (∀ a, na_Kind a ≠ NextActionPrepareCompiler → a ∈ first ++ pm_acc.1.2 →
    a ∈ restrictPrepareCompilerChoices (first ++ pm_acc.1.2) (failed (cks_PackageManager checks)) verified) as Hkeep.
  { intros a Hn Hin. apply restrict_elem. destruct (failed _); [by left|done]. }
  split.
  - intros check kind Hc E Hn. destruct (proj2 (Hfirst kind)) as (a & Hin & <-); [by exists check|].
    exists a. split; [|done]. apply Hkeep; [done|]. apply elem_of_app. by left.
  - intros g Hg. destruct (setup_action_elem _ _ g Ha Hg) as (a & Hin & E & Ek). exists a. split; [|done].
    apply Hkeep; [by rewrite E|]. apply elem_of_app. by right.
  - rewrite <- Hfirst. unfold failed. split.
    + intros (a & Hin & E). apply restrict_elem in Hin. case_bool_decide as Hf.
      * destruct Hin as [[_ ?]|(Hv & _ & _ & b & Hb & Eb & _)]; [done|]. split; [|done].
        apply elem_of_app in Hb as [Hb|Hb]; [by exists b|]. apply Hpm in Hb. by rewrite Hb in Eb.
      * split; [|done]. apply elem_of_app in Hin as [Hin|Hin]; [by exists a|]. apply Hpm in Hin. by rewrite Hin in E.
    + intros [(a & Hin & E) Hv]. case_bool_decide as Hf.
      * exists (mkNextAction (na_Kind a) (na_Executable a) (na_RuntimeKind a) (na_PackageManagerKind a)
          (na_Supported a) (na_FoundVersion a) (na_Detail a) verified). split; [|done]. apply restrict_elem. right.
        split; [by apply Hv|]. repeat split; [done|]. exists a. split; [apply elem_of_app; by left|done].
      * exists a. split; [|done]. apply restrict_elem. apply elem_of_app. by left.
  - intros a Hin E Hf. apply restrict_elem in Hin. unfold failed in Hin. rewrite bool_decide_true in Hin by done.
    by destruct Hin as [[_ ?]|(_ & _ & ? & _)].
Qed.


(** ** Examples *)

Module ReadinessExample.

Definition passing : ReadyCheck := plain_check Pass "" "" "" "" "".

(** No compiler, a package manager that cannot be told, and mise verified for the project. *)
Definition no_compiler : Checks := mkChecks passing passing passing passing
  (plain_check Fail GapTypescriptCompilerMissing "" "" "" "") (plain_check Fail GapPackageManagerAmbiguous "npm" "" "" "").

Definition mise : list MiseChoice := [
  mkMiseChoice "mise_project" true "" ""; mkMiseChoice "mise_global" false GapPackageManagerConfigUnverifiable "mise_unverifiable"].


Example exact_versions :
  map IsExactVersion ["7.0.2"; " 1.2.3-rc.1+build.5 "; "1.2"; "1.2.3-"; "^1.2.3"; "1.2.3+a-b"; "01.2.3x"]
  = [true; true; false; false; false; true; false].
Proof. vm_compute. reflexivity. Qed.
End ReadinessExample.
