(* ===== verification/PackageManager.v ===== *)
(** * The package manager of a project

    [internal/codesignalcli/pkgmanager]: which package manager a project declares, in the
    worktree and at a revision, the configuration that would redirect an install, and the
    version that would run.  [check_passes_exact] says when the manager is cleared,
    [at_revision_exact] what a revision says.  Files, children and git are parameters. *)

From Stdlib Require Import Ascii.
From S2P Require Import Prelude GoText Paths GoOrder GoErr Json GitRepo Readiness.

#[local] Arguments String.append : simpl nomatch.

(** ** [lockfile.go] *)

Definition KindNPM : string := "npm".
Definition KindPNPM : string := "pnpm".
Definition KindBun : string := "bun".
Definition KindYarn : string := "yarn".

(** A map iterated in any order: no loop over it depends on the order.

    go: internal/codesignalcli/pkgmanager/lockfile.go:40-46#LockfileBasenames *)
Definition LockfileBasenames : list (string * string) :=
  [("package-lock.json", KindNPM); ("pnpm-lock.yaml", KindPNPM); ("bun.lock", KindBun); ("bun.lockb", KindBun);
   ("yarn.lock", KindYarn)].

(** Membership of one of the four kinds. *)
Definition recognized_kind (name : string) : bool := existsb (λ k, k == name) [KindNPM; KindPNPM; KindBun; KindYarn].

(** ** [detection.go] *)

(** go: internal/codesignalcli/pkgmanager/detection.go#managerDetection *)
Record managerDetection := mkDetection { md_kind : string; md_pin : string; md_ambiguous : bool }.

Definition ambiguous_detection : managerDetection := mkDetection "" "" true.

(** [None] for [ok] false.

    go: internal/codesignalcli/pkgmanager/detection.go#reconcileDetection *)
Definition reconcileDetection (fieldKind fieldPin : string) (fieldOK : bool) (lockKind : string) (lockOK lockAmbiguous : bool) :
    option managerDetection :=
  if lockAmbiguous || (fieldOK && lockOK && (fieldKind != lockKind)) then Some ambiguous_detection
  else if fieldOK then Some (mkDetection fieldKind fieldPin false)
  else if lockOK then Some (mkDetection lockKind "" false)
  else None.

(** The distinct kinds of the lockfiles that are there: none, one, or more than one. *)
Inductive LockKinds := NoLock | OneLock (kind : string) | ManyLocks.

Definition lock_kinds (found : list string) : LockKinds :=
  match remove_dups found with [] => NoLock | [k] => OneLock k | _ => ManyLocks end.

(** ** [package_json_field.go] *)

Definition dq_byte : ascii := byte_of 34.
Definition sq_byte : ascii := byte_of 39.
Definition at_byte : ascii := "@"%char.
Definition eq_byte : ascii := "="%char.
Definition lf_byte : ascii := byte_of 10.

(** [name, rest] of the [packageManager] member, if it is one of a recognized manager. *)
Definition packageManager_member (data : string) : option (string * string) :=
  manifest ← Unmarshal (dec_struct (λ cur ms, field dec_string cur "packageManager" ms)) "" data;
  if manifest == "" then None
  else match CutByte at_byte manifest with
  | Some (name, rest) => if (rest == "") || negb (recognized_kind name) then None else Some (name, rest)
  | None => None
  end.

(** go: internal/codesignalcli/pkgmanager/package_json_field.go#trimConfigValueQuotes *)
Definition trimConfigValueQuotes (value : string) : string :=
  match value with
  | String first rest =>
      match rev_string rest with
      | String last middle =>
          if Ascii.eqb first last && (Ascii.eqb first dq_byte || Ascii.eqb first sq_byte) then rev_string middle else value
      | EmptyString => value
      end
  | EmptyString => value
  end.

(** ** [npmrc_hazards.go] *)

(** go: internal/codesignalcli/pkgmanager/npmrc_hazards.go#isNpmrcRegistryKey *)
Definition isNpmrcRegistryKey (key : string) : bool := (key == "registry") || HasSuffix ":registry" key.

(** A line that sets something: its key and its value as written, each trimmed. *)
Definition setting (comments : list ascii) (line : string) : option (string * string) :=
  let line := TrimSpace line in
  match line with
  | EmptyString => None
  | String c _ =>
      if existsb (Ascii.eqb c) comments then None
      else match CutByte eq_byte line with
      | Some (key, value) => Some (TrimSpace key, trimConfigValueQuotes (TrimSpace value))
      | None => None
      end
  end.

Definition npmrc_comments : list ascii := ["#"; ";"]%char.

(** [strings.EqualFold(value, "true")]: its letters fold with ASCII alone. *)
Definition is_true (value : string) : bool := map_string lower_byte value == "true".

(** The first detail a function finds. *)
Fixpoint first_detail {A} (f : A → string) (l : list A) : string :=
  match l with [] => "" | x :: l => let d := f x in if d != "" then d else first_detail f l end.

(** ** [bunfig_hazards.go] *)

(** [strings.Trim(s, quotes)] for the two quotes. *)
Fixpoint trim_left_quotes (s : string) : string :=
  match s with
  | String c t => if Ascii.eqb c dq_byte || Ascii.eqb c sq_byte then trim_left_quotes t else s
  | EmptyString => ""
  end.

Definition trim_quotes (s : string) : string := rev_string (trim_left_quotes (rev_string (trim_left_quotes s))).

(** [line] starts with a bracket.

    go: internal/codesignalcli/pkgmanager/bunfig_hazards.go#bunfigSectionName *)
Definition bunfigSectionName (line : string) : string :=
  let rest := match line with String _ t => t | EmptyString => "" end in
  let name := match CutByte "]" rest with Some (name, _) => name | None => rest end in
  ToLower (trim_quotes (TrimSpace name)).

(** go: internal/codesignalcli/pkgmanager/bunfig_hazards.go#bunfigUnverifiableHazard *)
Definition bunfigUnverifiableHazard (data : string) : string :=
  let unverifiable := "committed bunfig.toml could not be verified to leave package resolution unredirected" in
  if Contains (String ch_backslash "") data then unverifiable
  else if existsb (λ keyword, Contains keyword (ToLower data)) ["install"; "registry"; "scopes"; "cache"] then unverifiable
  else "".

(** ** The host *)

(** What the package asks of the host: the content of a file, whether a path is there at
    all ([os.Lstat] without [fs.ErrNotExist]), whether [os.Stat] finds a directory or a
    file, and the child of a manager's [--version], when it is on the path and a private
    directory could be made. *)
Class PmHost := {
  pm_ReadFile : string → option string;
  pm_Exists : string → bool;
  pm_Stat : string → option bool;
  pm_version_child : string → option ProbedChild
}.

(** [strings.ToLower] where its result is shown. *)
Class LowerText := lower_text : string → string.

Section Host.
Context {host : PmHost} {lower : LowerText}.

(** ** [detection.go], [lockfile.go], [package_json_field.go] *)

(** go: internal/codesignalcli/pkgmanager/detection.go#fileExists *)
Definition fileExists (path : string) : bool := match pm_Stat path with Some _ => true | None => false end.

(** go: internal/codesignalcli/pkgmanager/lockfile.go#detectPackageManagerLockfile *)
Definition detectPackageManagerLockfile (root : string) : LockKinds :=
  lock_kinds (omap (λ '(basename, k), if fileExists (Join2 root basename) then Some k else None) LockfileBasenames).

(** go: internal/codesignalcli/pkgmanager/package_json_field.go#readPackageManagerField *)
Definition readPackageManagerField (root : string) : option (string * string) :=
  data ← pm_ReadFile (Join2 root "package.json"); packageManager_member data.

(** go: internal/codesignalcli/pkgmanager/detection.go#detectPackageManager *)
Definition detectPackageManager (root : string) : option managerDetection :=
  let '(fieldKind, fieldVersion) := default ("", "") (readPackageManagerField root) in
  let fieldOK := bool_decide (is_Some (readPackageManagerField root)) in
  match detectPackageManagerLockfile root with
  | NoLock => reconcileDetection fieldKind fieldVersion fieldOK "" false false
  | OneLock k => reconcileDetection fieldKind fieldVersion fieldOK k true false
  | ManyLocks => reconcileDetection fieldKind fieldVersion fieldOK "" true true
  end.

(** The loop, with what it resolved so far. *)
Fixpoint detect_from (resolved : option managerDetection) (contexts : list string) : option managerDetection :=
  match contexts with
  | [] => resolved
  | packageDir :: rest =>
      match detectPackageManager packageDir with
      | None => detect_from resolved rest
      | Some d =>
          if md_ambiguous d then Some ambiguous_detection
          else match resolved with
          | None => detect_from (Some d) rest
          | Some r =>
              if md_kind d != md_kind r then Some ambiguous_detection
              else detect_from (Some (if md_pin r == "" then mkDetection (md_kind r) (md_pin d) (md_ambiguous r) else r)) rest
          end
      end
  end.

(** go: internal/codesignalcli/pkgmanager/detection.go#detectPackageManagerAcrossContexts *)
Definition detectPackageManagerAcrossContexts (contexts : list string) : option managerDetection := detect_from None contexts.

(** ** [npmrc_hazards.go] *)

(** go: internal/codesignalcli/pkgmanager/npmrc_hazards.go#scanNpmrcLines *)
Definition scanNpmrcLines (root : string) (handle : string → string → string → string) : string :=
  let path := Join2 root ".npmrc" in
  match pm_ReadFile path with
  | None => if pm_Exists path then "committed .npmrc could not be read" else ""
  | Some data =>
      first_detail (λ line, match setting npmrc_comments line with
                            | Some (key, value) => handle (ToLower key) (lower_text key) value
                            | None => ""
                            end) (SplitByte lf_byte data)
  end.

Definition registry_detail (shown value : string) : string :=
  "committed .npmrc redirects the package registry (" +:+ shown +:+ "=" +:+ value +:+ ")".

(** go: internal/codesignalcli/pkgmanager/npmrc_hazards.go#detectNpmrcRegistryHazard *)
Definition detectNpmrcRegistryHazard (root : string) : string :=
  scanNpmrcLines root (λ key shown value, if isNpmrcRegistryKey key then registry_detail shown value else "").

Definition npm_detail (key shown value : string) : string :=
  if isNpmrcRegistryKey key then registry_detail shown value
  else if key == "ignore-scripts" then
    if is_true value then "" else "committed .npmrc re-enables lifecycle scripts (ignore-scripts=" +:+ value +:+ ")"
  else if key == "script-shell" then
    "committed .npmrc overrides the lifecycle script shell (script-shell=" +:+ value +:+ ")"
  else "".

(** go: internal/codesignalcli/pkgmanager/npmrc_hazards.go#detectNpmrcHazard *)
Definition detectNpmrcHazard (root : string) : string := scanNpmrcLines root npm_detail.

(** ** [bunfig_hazards.go], [hazards.go] *)

(** What one setting of a section is told as. *)
Definition bunfig_detail (section key shown value : string) : string :=
  if (section == "install") && (key == "registry") then
    "committed bunfig.toml redirects the install registry (registry=" +:+ value +:+ ")"
  else if (section == "install") && (key == "scopes") then
    "committed bunfig.toml redirects scoped install registries (scopes=" +:+ value +:+ ")"
  else if section == "install.scopes" then
    "committed bunfig.toml redirects a scoped install registry (" +:+ shown +:+ "=" +:+ value +:+ ")"
  else "".

(** The loop over the lines, in a section. *)
Fixpoint bunfig_lines (section : string) (lines : list string) : string :=
  match lines with
  | [] => ""
  | line :: rest =>
      match TrimSpace line with
      | String c _ as trimmed =>
          if Ascii.eqb c "[" then bunfig_lines (bunfigSectionName trimmed) rest
          else match setting ["#"]%char line with
          | Some (key, value) =>
              let d := bunfig_detail section (ToLower key) (lower_text key) value in
              if d != "" then d else bunfig_lines section rest
          | None => bunfig_lines section rest
          end
      | EmptyString => bunfig_lines section rest
      end
  end.

(** go: internal/codesignalcli/pkgmanager/bunfig_hazards.go#bunfigRedirectHazard *)
Definition bunfigRedirectHazard (data : string) : string := bunfig_lines "" (SplitByte lf_byte data).

Definition bom : string := String (byte_of 239) (String (byte_of 187) (String (byte_of 191) "")).

(** The content, or the detail of its absence.

    go: internal/codesignalcli/pkgmanager/hazards.go#readCommittedBunfig *)
Definition readCommittedBunfig (root : string) : string + string :=
  let path := Join2 root "bunfig.toml" in
  match pm_ReadFile path with
  | None => inl (if pm_Exists path then "committed bunfig.toml could not be read" else "")
  | Some data => inr (TrimPrefix bom data)
  end.

(** go: internal/codesignalcli/pkgmanager/hazards.go#detectBunfigHazard *)
Definition detectBunfigHazard (root : string) : string :=
  match readCommittedBunfig root with
  | inl detail => detail
  | inr data => let hazard := bunfigRedirectHazard data in if hazard != "" then hazard else bunfigUnverifiableHazard data
  end.

(** go: internal/codesignalcli/pkgmanager/hazards.go#DetectPackageManagerHazard *)
Definition DetectPackageManagerHazard (root kind : string) : string :=
  if kind == KindNPM then detectNpmrcHazard root
  else if kind == KindPNPM then detectNpmrcRegistryHazard root
  else if kind == KindBun then
    let detail := detectNpmrcRegistryHazard root in if detail != "" then detail else detectBunfigHazard root
  else "".

(** ** [version_probe.go], [version_support.go] *)

(** go: internal/codesignalcli/pkgmanager/version_probe.go:15-15#maxPackageManagerProbeOutput *)
Definition maxPackageManagerProbeOutput : Z := 4 * 2 ^ 10.

(** [None] when the probe did not run confined; otherwise the output and whether the exit
    was clean.

    go: internal/codesignalcli/pkgmanager/version_probe.go#runPackageManagerProbe *)
Definition runPackageManagerProbe (executable : string) : option (string * bool) :=
  child ← pm_version_child executable;
  match ProbeAt executable maxPackageManagerProbeOutput child with
  | ProbeData data => Some (TrimSpace data, true)
  | ProbeExit _ => Some (TrimSpace "", false)
  | _ => None
  end.

(** go: internal/codesignalcli/pkgmanager/version_probe.go#packageManagerVersionToken *)
Definition packageManagerVersionToken (versionOutput : string) : option string :=
  let out := TrimSpace versionOutput in
  let line := match CutByte lf_byte out with Some (line, _) => line | None => out end in
  let line := TrimSpace line in
  let token := match CutByte " " line with Some (token, _) => token | None => line end in
  if token == "" then None else Some token.

(** go: internal/codesignalcli/pkgmanager/version_probe.go#ProbeVersion *)
Definition ProbeVersion (kind : string) : option string :=
  match runPackageManagerProbe kind with
  | Some (out, true) => if out == "" then None else packageManagerVersionToken out
  | _ => None
  end.

(** The part before a mark of a qualifier, and whether there is one. *)
Fixpoint before_qualifier (s : string) : string * bool :=
  match s with
  | EmptyString => ("", false)
  | String c t =>
      if Ascii.eqb c "-" || Ascii.eqb c "+" then ("", true)
      else let '(core, q) := before_qualifier t in (String c core, q)
  end.

(** go: internal/codesignalcli/pkgmanager/version_support.go#semverMajor *)
Definition semverMajor (version : string) : option (Z * bool) :=
  if negb (IsExactVersion version) then None
  else
    let '(core, qualified) := before_qualifier version in
    let majorPart := match CutByte ch_dot core with Some (m, _) => m | None => core end in
    major ← Atoi majorPart; Some (major, qualified).

(** go: internal/codesignalcli/pkgmanager/version_support.go#packageManagerVersionSupported *)
Definition packageManagerVersionSupported (kind version : string) : bool :=
  match semverMajor version with
  | None => false
  | Some (major, qualified) =>
      if kind == KindNPM then (major =? 11)%Z && negb qualified
      else if kind == KindPNPM then (major =? 10)%Z && negb qualified
      else if kind == KindBun then (major =? 1)%Z && negb qualified
      else false
  end.

Definition pm_check (state : State) (code kind version found pin detail : string) : ReadyCheck :=
  mkReadyCheck state code kind version "" found pin [] [] "" detail "" "" [] [].

(** go: internal/codesignalcli/pkgmanager/version_support.go#classifyProbedPackageManagerVersion *)
Definition classifyProbedPackageManagerVersion (d : managerDetection) : ReadyCheck :=
  let unverifiable := pm_check Fail GapPackageManagerVersionUnverifiable (md_kind d) "" "" (md_pin d) "" in
  match ProbeVersion (md_kind d) with
  | None => unverifiable
  | Some version =>
      if negb (IsExactVersion version) then unverifiable
      else if negb (packageManagerVersionSupported (md_kind d) version)
      then pm_check Fail GapPackageManagerVersionUnsupported (md_kind d) "" version (md_pin d) ""
      else pm_check Pass "" (md_kind d) version "" (md_pin d) ""
  end.

(** ** [contexts.go], [tstoolchain/project_root_resolution.go] *)

(** go: internal/codesignalcli/tstoolchain/project_root_resolution.go#SelectedRootAbs *)
Definition SelectedRootAbs (worktreeRoot root : string) : string :=
  if (root == "") || (root == ".") then worktreeRoot else Join2 worktreeRoot root.

(** The way up, with fuel for the elements of the path. *)
Fixpoint nearest_from (fuel : nat) (ceiling current : string) : option string :=
  match pm_Stat (Join2 current "package.json"), fuel with
  | Some false, _ => Some current
  | _, O => None
  | _, S fuel =>
      if current == ceiling then None
      else
        let parent := Dir current in
        if parent == current then None else nearest_from fuel ceiling parent
  end.

(** go: internal/codesignalcli/tstoolchain/project_root_resolution.go#NearestPackageJSONDir *)
Definition NearestPackageJSONDir (start ceiling : string) : option string :=
  let start := Clean start in
  let ceiling := Clean ceiling in
  if outside (RelPath ceiling start) then None else nearest_from (String.length start) ceiling start.

(** go: internal/codesignalcli/pkgmanager/contexts.go#Contexts *)
Definition Contexts (worktreeRoot : string) (roots : list string) : list string * bool :=
  let roots := match roots with [] => ["."] | _ => roots end in
  match omap (λ root, NearestPackageJSONDir (SelectedRootAbs worktreeRoot root) worktreeRoot) roots with
  | [] => ([worktreeRoot], true)
  | contexts => (DedupeStrings contexts, false)
  end.

(** ** [check.go] *)

(** go: internal/codesignalcli/pkgmanager/check.go#packageManagerConfigUnverifiable *)
Definition packageManagerConfigUnverifiable (d : managerDetection) (detail : string) : ReadyCheck :=
  pm_check Fail GapPackageManagerConfigUnverifiable (md_kind d) "" "" (md_pin d) detail.

(** go: internal/codesignalcli/pkgmanager/check.go#requireReadableLockfile *)
Definition requireReadableLockfile (root kind : string) : string :=
  if existsb (λ '(basename, k), (k == kind) && bool_decide (is_Some (pm_ReadFile (Join2 root basename)))) LockfileBasenames
  then "" else "no readable " +:+ kind +:+ " lockfile was found (SA-280-012)".

(** The loop over the contexts. *)
Fixpoint first_unverifiable (kind : string) (contexts : list string) : option string :=
  match contexts with
  | [] => None
  | packageDir :: rest =>
      let hazard := DetectPackageManagerHazard packageDir kind in
      if hazard != "" then Some hazard
      else
        let lockfile := requireReadableLockfile packageDir kind in
        if lockfile != "" then Some lockfile else first_unverifiable kind rest
  end.

(** go: internal/codesignalcli/tstoolchain/compiler_resolution.go#WorktreeRoot *)
Definition WorktreeRoot {git : BoundedGit} (dir : string) : string :=
  match RunBytesBounded dir (4 * 2 ^ 10) (4 * 2 ^ 10) (10 * Second)%Z ["rev-parse"; "--show-toplevel"] with
  | inl _ => dir
  | inr output => let root := TrimSpace output in if root == "" then dir else root
  end.

(** The check once the contexts are known. *)
Definition check_contexts (contexts : list string) (fellBackToWorktreeRoot policyPassed : bool) : ReadyCheck :=
  let not_checked := pm_check NotChecked "" "" "" "" "" "" in
  if fellBackToWorktreeRoot && negb policyPassed then not_checked
  else match detectPackageManagerAcrossContexts contexts with
  | None => not_checked
  | Some d =>
      if md_ambiguous d then pm_check Fail GapPackageManagerAmbiguous "" "" "" "" ""
      else if md_kind d == KindYarn then
        pm_check Fail GapPackageManagerVersionUnsupported (md_kind d) "" "" (md_pin d)
          "Yarn has no supported package-manager adapter row (SA-280-012); use npm, pnpm, or Bun instead."
      else match first_unverifiable (md_kind d) contexts with
      | Some detail => packageManagerConfigUnverifiable d detail
      | None => classifyProbedPackageManagerVersion d
      end
  end.

(** go: internal/codesignalcli/pkgmanager/check.go#Check *)
Definition Check {git : BoundedGit} (dir : string) (roots : list string) (policyPassed : bool) : ReadyCheck :=
  let '(contexts, fellBack) := Contexts (WorktreeRoot dir) roots in check_contexts contexts fellBack policyPassed.
End Host.

(** ** [revision_reads.go], [revision_detection.go] *)

Section Revision.
Context {table : IsPrint} {git : BoundedGit} {host : PmHost}.

(** The bounded read of a revision; its error is printed.

    go: internal/codesignalcli/pkgmanager/revision_detection.go:29-31#runPackageManagerRevisionGit *)
Definition runPackageManagerRevisionGit (dir : string) (args : list string) : error + string :=
  match RunBytesBounded dir (2 ^ 20) (64 * 2 ^ 10) (30 * Second)%Z args with
  | inl f => inl (errors_New (bounded_message f))
  | inr out => inr out
  end.

(** go: internal/codesignalcli/pkgmanager/revision_detection.go#joinRepoPath *)
Definition joinRepoPath (root name : string) : string := if (root == ".") || (root == "") then name else Join2 root name.

(** [inl tt] when git failed, which makes the detection ambiguous.

    go: internal/codesignalcli/pkgmanager/revision_reads.go#snapshotReadPackageManagerField *)
Definition snapshotReadPackageManagerField (dir revision repoPath : string) : unit + option string :=
  match FileExistsAtRevision runPackageManagerRevisionGit dir revision repoPath with
  | inl _ => inl tt
  | inr false => inr None
  | inr true =>
      match runPackageManagerRevisionGit dir ["show"; revision +:+ ":" +:+ repoPath] with
      | inl _ => inl tt
      | inr data => inr (fst <$> packageManager_member data)
      end
  end.

(** The loop over the basenames: the kinds found, or a failure of git.

    go: internal/codesignalcli/pkgmanager/revision_reads.go:52-62#snapshotDetectLockfileAtRoot *)
Fixpoint snapshot_lockfiles (dir revision root : string) (basenames : list (string * string)) : unit + list string :=
  match basenames with
  | [] => inr []
  | (basename, k) :: rest =>
      match FileExistsAtRevision runPackageManagerRevisionGit dir revision (joinRepoPath root basename) with
      | inl _ => inl tt
      | inr exists_ =>
          match snapshot_lockfiles dir revision root rest with
          | inl u => inl u
          | inr found => inr (if exists_ then k :: found else found)
          end
      end
  end.

(** go: internal/codesignalcli/pkgmanager/revision_reads.go#snapshotDetectLockfileAtRoot *)
Definition snapshotDetectLockfileAtRoot (dir revision root : string) : unit + option string :=
  match snapshot_lockfiles dir revision root LockfileBasenames with
  | inl u => inl u
  | inr found => match lock_kinds found with NoLock => inr None | OneLock k => inr (Some k) | ManyLocks => inl tt end
  end.

(** go: internal/codesignalcli/pkgmanager/revision_detection.go#snapshotDetection *)
Record snapshotDetection := mkSnapshotDetection { sdn_manager : managerDetection; sdn_origin : string }.

(** go: internal/codesignalcli/pkgmanager/revision_detection.go#snapshotDetectPackageManagerAtRoot *)
Definition snapshotDetectPackageManagerAtRoot (dir revision root : string) : option snapshotDetection :=
  let field := snapshotReadPackageManagerField dir revision (joinRepoPath root "package.json") in
  let lock := snapshotDetectLockfileAtRoot dir revision root in
  let fieldKind := match field with inr o => o | inl _ => None end in
  let lockKind := match lock with inr o => o | inl _ => None end in
  let failed := match field, lock with inr _, inr _ => false | _, _ => true end in
  match reconcileDetection (default "" fieldKind) "" (bool_decide (is_Some fieldKind))
          (default "" lockKind) (bool_decide (is_Some lockKind)) failed with
  | None => None
  | Some d =>
      if md_ambiguous d then Some (mkSnapshotDetection d "")
      else Some (mkSnapshotDetection d (if bool_decide (is_Some fieldKind) then "package_manager_field" else "lockfile"))
  end.

(** The loop over the roots: [inl tt] when they disagree. *)
Fixpoint revision_from (dir revision : string) (resolved : option snapshotDetection) (roots : list string) :
    unit + option snapshotDetection :=
  match roots with
  | [] => inr resolved
  | root :: rest =>
      match snapshotDetectPackageManagerAtRoot dir revision root with
      | None => revision_from dir revision resolved rest
      | Some d =>
          if md_ambiguous (sdn_manager d) then inl tt
          else match resolved with
          | None => revision_from dir revision (Some d) rest
          | Some r =>
              if md_kind (sdn_manager d) != md_kind (sdn_manager r) then inl tt else revision_from dir revision resolved rest
          end
      end
  end.

(** Kind, version and origin.

    go: internal/codesignalcli/pkgmanager/revision_detection.go#AtRevision *)
Definition AtRevision (dir revision : string) (roots : list string) : string * string * string :=
  let roots := match roots with [] => ["."] | _ => roots end in
  match revision_from dir revision None roots with
  | inl _ | inr None => ("", "", "")
  | inr (Some r) =>
      let kind := md_kind (sdn_manager r) in
      if existsb (λ k, k == kind) [KindNPM; KindPNPM; KindBun] then (kind, default "" (ProbeVersion kind), sdn_origin r)
      else ("", "", "")
  end.

(** *** The roots agree, or nothing is said *)

(** What a root declares: unambiguously a kind. *)
Definition declares (dir revision root kind : string) : Prop :=
  ∃ d, snapshotDetectPackageManagerAtRoot dir revision root = Some d ∧ md_ambiguous (sdn_manager d) = false
    ∧ md_kind (sdn_manager d) = kind.

Definition silent (dir revision root : string) : Prop := snapshotDetectPackageManagerAtRoot dir revision root = None.

Lemma revision_from_exact dir revision roots : ∀ resolved, (∀ r, resolved = Some r → md_ambiguous (sdn_manager r) = false) →
  ∀ kind, (∃ r, revision_from dir revision resolved roots = inr (Some r) ∧ md_kind (sdn_manager r) = kind) ↔
    (∀ r, resolved = Some r → md_kind (sdn_manager r) = kind) ∧
    (∀ root, root ∈ roots → silent dir revision root ∨ declares dir revision root kind) ∧
    (is_Some resolved ∨ ∃ root, root ∈ roots ∧ declares dir revision root kind).
Proof.
  unfold silent, declares. induction roots as [|root roots IH]; intros resolved Hr kind; cbn [revision_from].
  { split.
    - intros (r & [= ->] & <-). split; [by intros ? [= <-]|]. split; [by intros ? ?%elem_of_nil|left; by eexists].
    - intros (H1 & _ & [[r ->]|(? & ?%elem_of_nil & _)]); [|done]. exists r. split; [done|by apply H1]. }
  destruct (snapshotDetectPackageManagerAtRoot dir revision root) as [d|] eqn:E; cycle 1.
  { rewrite IH by done. setoid_rewrite elem_of_cons. split.
    - intros (H1 & H2 & H3). split; [done|]. split; [|naive_solver]. intros x [->|Hx]; [by left|by apply H2].
    - intros (H1 & H2 & H3). split; [done|]. split; [by intros x Hx; apply H2; right|].
      destruct H3 as [?|(x & [->|Hx] & Hd)]; [by left| |right; by exists x]. destruct Hd as (? & Hd & _). congruence. }
  destruct (md_ambiguous (sdn_manager d)) eqn:Ea.
  { split; [by intros (? & ? & _)|]. intros (_ & H2 & _). destruct (H2 root) as [?|(x & Hx & Hax & _)]; [left|congruence|].
    congruence. }
  destruct resolved as [r|].
  - destruct (String.eqb_spec (md_kind (sdn_manager d)) (md_kind (sdn_manager r))) as [Ek|Ek]; cbn [negb].
    + rewrite IH by done. setoid_rewrite elem_of_cons. split.
      * intros (H1 & H2 & _). split; [done|]. split; [|left; by eexists]. intros x [->|Hx]; [right|by apply H2].
        exists d. split_and!; [done..|]. rewrite Ek. by apply H1.
      * intros (H1 & H2 & _). split; [done|]. split; [by intros x Hx; apply H2; right|left; by eexists].
    + split; [by intros (? & ? & _)|]. intros (H1 & H2 & _). specialize (H1 r eq_refl).
      destruct (H2 root) as [?|(x & Hx & _ & Hk)]; [left|congruence|]. congruence.
  - rewrite IH by (by intros ? [= <-]). setoid_rewrite elem_of_cons. split.
    + intros (H1 & H2 & _). specialize (H1 d eq_refl). split; [done|]. split.
      * intros x [->|Hx]; [right; by exists d|by apply H2].
      * right. exists root. split; [by left|]. by exists d.
    + intros (_ & H2 & H3). assert (md_kind (sdn_manager d) = kind) as Hk.
      { destruct (H2 root) as [?|(x & Hx & _ & Hk)]; [by left|congruence|]. congruence. }
      split; [by intros ? [= <-]|]. split; [by intros x Hx; apply H2; right|left; by eexists].
Qed.

(** A revision's package manager is reported exactly when its roots agree on it.  A
    kind is named exactly when it is one of the supported three, at least one selected
    root declares it, and every other root declares the same or nothing; a root that git
    could not be asked about, or that has lockfiles of several managers, or one that
    contradicts its manifest, declares nothing and silences the report. *)
Theorem at_revision_exact dir revision roots kind :
  (AtRevision dir revision roots).1.1 = kind ∧ kind ≠ "" ↔
  kind ∈ [KindNPM; KindPNPM; KindBun] ∧
  let roots := match roots with [] => ["."] | _ => roots end in
  (∀ root, root ∈ roots → silent dir revision root ∨ declares dir revision root kind) ∧
  ∃ root, root ∈ roots ∧ declares dir revision root kind.
Proof.
  cbn zeta. unfold AtRevision. set (l := match roots with [] => ["."] | _ => roots end).
  pose proof (revision_from_exact dir revision l None ltac:(done)) as H.
  assert (∀ k, existsb (λ x, x == k) [KindNPM; KindPNPM; KindBun] = true ↔ k ∈ [KindNPM; KindPNPM; KindBun]) as Hk.
  { intros k. rewrite existsb_exists. setoid_rewrite <- list_elem_of_In. split.
    - intros (x & Hx & ->%String.eqb_eq). done.
    - intros Hx. exists k. split; [done|apply String.eqb_refl]. }
  split.
  - intros [<- Hne]. destruct (revision_from dir revision None l) as [|[r|]] eqn:E; [done| |done].
    destruct (existsb _ _) eqn:Ex; [|done]. cbn [fst]. apply Hk in Ex. split; [done|].
    destruct (proj1 (H (md_kind (sdn_manager r)))) as (_ & H2 & H3); [by exists r|]. split; [done|].
    destruct H3 as [[? ?]|?]; done.
  - intros (Hin & H2 & H3). destruct (proj2 (H kind)) as (r & -> & <-); [by repeat split; [| |right]|].
    rewrite (proj2 (Hk _) Hin). split; [done|]. intros E. rewrite E in Hin.
    repeat (apply elem_of_cons in Hin as [Hin|Hin]; [done|]). by apply elem_of_nil in Hin.
Qed.
End Revision.

(** ** What clears a package manager *)

Section Clear.
Context {host : PmHost} {lower : LowerText}.

Lemma first_detail_none {A} (f : A → string) l : first_detail f l = "" ↔ ∀ x, x ∈ l → f x = "".
Proof.
  induction l as [|x l IH]; cbn [first_detail]; [split; [by intros _ ? ?%elem_of_nil|done]|].
  setoid_rewrite elem_of_cons. destruct (String.eqb_spec (f x) "") as [E|E]; cbn [negb].
  - rewrite IH. naive_solver.
  - naive_solver.
Qed.

(** The settings of a file that is there; a file that is not there has none, and one that
    cannot be read is not safe. *)
Definition settings_of (path : string) (settings : list (string * string)) : Prop :=
  match pm_ReadFile path with
  | None => pm_Exists path = false ∧ settings = []
  | Some data => settings = omap (setting npmrc_comments) (SplitByte lf_byte data)
  end.

(** What a committed [.npmrc] may not set. *)
Definition npmrc_harmless (kind key value : string) : Prop :=
  isNpmrcRegistryKey (ToLower key) = false ∧
  (kind = KindNPM → (ToLower key = "ignore-scripts" → is_true value = true) ∧ ToLower key ≠ "script-shell").

Definition npmrc_safe (root kind : string) : Prop :=
  ∃ settings, settings_of (Join2 root ".npmrc") settings ∧ ∀ key value, (key, value) ∈ settings → npmrc_harmless kind key value.

(** A [bunfig.toml] that is there names no redirect, and nothing an install could read. *)
Definition bunfig_safe (root : string) : Prop :=
  match pm_ReadFile (Join2 root "bunfig.toml") with
  | None => pm_Exists (Join2 root "bunfig.toml") = false
  | Some data =>
      let data := TrimPrefix bom data in
      bunfigRedirectHazard data = "" ∧ Contains (String ch_backslash "") data = false ∧
      ∀ keyword, keyword ∈ ["install"; "registry"; "scopes"; "cache"] → Contains keyword (ToLower data) = false
  end.

Lemma scan_none root handle : scanNpmrcLines root handle = "" ↔
  ∃ settings, settings_of (Join2 root ".npmrc") settings ∧
    ∀ key value, (key, value) ∈ settings → handle (ToLower key) (lower_text key) value = "".
Proof.
  unfold scanNpmrcLines, settings_of. destruct (pm_ReadFile _) as [data|].
  - rewrite first_detail_none. split.
    + intros H. eexists. split; [done|]. intros key value (line & Hl & E)%list_elem_of_omap.
      specialize (H line Hl). by rewrite E in H.
    + intros (? & -> & H) line Hl. destruct (setting npmrc_comments line) as [[key value]|] eqn:E; [|done].
      apply H. apply list_elem_of_omap. by exists line.
  - destruct (pm_Exists _); split; try done; [naive_solver|]. intros _. exists []. split; [done|]. by intros ? ? ?%elem_of_nil.
Qed.

Lemma registry_hazard_none root : detectNpmrcRegistryHazard root = "" ↔
  ∃ settings, settings_of (Join2 root ".npmrc") settings ∧
    ∀ key value, (key, value) ∈ settings → isNpmrcRegistryKey (ToLower key) = false.
Proof.
  unfold detectNpmrcRegistryHazard. rewrite scan_none. split; intros (settings & Hs & H); exists settings; split; try done;
    intros key value Hin; specialize (H key value Hin); [by destruct (isNpmrcRegistryKey _)|by rewrite H].
Qed.

Lemma npm_hazard_none root : detectNpmrcHazard root = "" ↔ npmrc_safe root KindNPM.
Proof.
  unfold detectNpmrcHazard, npmrc_safe. rewrite scan_none.
  enough (∀ key value, npm_detail (ToLower key) (lower_text key) value = "" ↔ npmrc_harmless KindNPM key value) as E
    by (setoid_rewrite E; done).
  intros key value. unfold npm_detail, npmrc_harmless. destruct (isNpmrcRegistryKey _); [naive_solver|].
  destruct (String.eqb_spec (ToLower key) "ignore-scripts") as [->|].
  { destruct (is_true value); split; naive_solver. }
  destruct (String.eqb_spec (ToLower key) "script-shell"); naive_solver.
Qed.

Lemma bunfig_hazard_none root : detectBunfigHazard root = "" ↔ bunfig_safe root.
Proof.
  unfold detectBunfigHazard, readCommittedBunfig, bunfig_safe. destruct (pm_ReadFile _) as [data|]; [|by destruct (pm_Exists _)].
  cbn zeta. set (d := TrimPrefix bom data). destruct (String.eqb_spec (bunfigRedirectHazard d) "") as [E|E]; cbn [negb]; [|naive_solver].
  unfold bunfigUnverifiableHazard. destruct (Contains (String ch_backslash "") d); [naive_solver|].
  destruct (existsb _ _) eqn:Ex.
  - split; [done|]. intros (_ & _ & H). apply existsb_exists in Ex as (k & Hk & Hc). by rewrite H in Hc by by apply list_elem_of_In.
  - split; [|done]. intros _. split; [done|]. split; [done|]. intros k Hk. destruct (Contains k (ToLower d)) eqn:Ec; [|done].
    assert (existsb (λ keyword, Contains keyword (ToLower d)) ["install"; "registry"; "scopes"; "cache"] = true); [|congruence].
    apply existsb_exists. exists k. split; [by apply list_elem_of_In|done].
Qed.

(** Nothing in a directory redirects an install by a manager. *)
Definition undirected (root kind : string) : Prop := npmrc_safe root kind ∧ (kind = KindBun → bunfig_safe root).

Lemma hazard_none root kind : kind ∈ [KindNPM; KindPNPM; KindBun] →
  DetectPackageManagerHazard root kind = "" ↔ undirected root kind.
Proof.
  assert (∀ k, k ≠ KindNPM → npmrc_safe root k ↔ ∃ settings, settings_of (Join2 root ".npmrc") settings ∧
    ∀ key value, (key, value) ∈ settings → isNpmrcRegistryKey (ToLower key) = false) as Hk.
  { intros k Hne. unfold npmrc_safe, npmrc_harmless. naive_solver. }
  intros Hin. rewrite !elem_of_cons, elem_of_nil in Hin. unfold undirected, DetectPackageManagerHazard.
  destruct Hin as [->|[->|[->|[]]]].
  - change (KindNPM == KindNPM) with true. cbn iota. rewrite npm_hazard_none. naive_solver.
  - change (KindPNPM == KindNPM) with false. change (KindPNPM == KindPNPM) with true. cbn iota.
    rewrite registry_hazard_none, Hk by done. naive_solver.
  - change (KindBun == KindNPM) with false. change (KindBun == KindPNPM) with false. change (KindBun == KindBun) with true.
    cbn iota zeta. rewrite Hk, <- registry_hazard_none, <- bunfig_hazard_none by done.
    destruct (String.eqb_spec (detectNpmrcRegistryHazard root) ""); cbn [negb]; naive_solver.
Qed.

Lemma first_unverifiable_none kind contexts : first_unverifiable kind contexts = None ↔
  ∀ c, c ∈ contexts → DetectPackageManagerHazard c kind = "" ∧ requireReadableLockfile c kind = "".
Proof.
  induction contexts as [|c contexts IH]; cbn [first_unverifiable]; [split; [by intros _ ? ?%elem_of_nil|done]|].
  setoid_rewrite elem_of_cons. destruct (String.eqb_spec (DetectPackageManagerHazard c kind) "") as [E|E]; cbn [negb]; [|naive_solver].
  destruct (String.eqb_spec (requireReadableLockfile c kind) "") as [E'|E']; cbn [negb]; [|naive_solver]. rewrite IH. naive_solver.
Qed.

(** A lockfile of the manager can be read. *)
Definition has_lockfile (root kind : string) : Prop :=
  ∃ basename, (basename, kind) ∈ LockfileBasenames ∧ is_Some (pm_ReadFile (Join2 root basename)).

Lemma lockfile_none root kind : requireReadableLockfile root kind = "" ↔ has_lockfile root kind.
Proof.
  unfold requireReadableLockfile, has_lockfile. destruct (existsb _ _) eqn:E.
  - split; [|done]. intros _. apply existsb_exists in E as ([b k] & Hin & [->%String.eqb_eq Hr%bool_decide_eq_true]%andb_true_iff).
    exists b. by rewrite list_elem_of_In.
  - split; [done|]. intros (b & Hin & Hr). assert (existsb (λ '(basename, k), (k == kind) &&
      bool_decide (is_Some (pm_ReadFile (Join2 root basename)))) LockfileBasenames = true); [|congruence].
    apply existsb_exists. exists (b, kind). rewrite <- list_elem_of_In. by rewrite String.eqb_refl, bool_decide_true.
Qed.

(** *** The contexts agree *)

Definition context_silent (c : string) : Prop := detectPackageManager c = None.

Definition context_declares (c kind : string) : Prop :=
  ∃ d, detectPackageManager c = Some d ∧ md_ambiguous d = false ∧ md_kind d = kind.

Lemma detect_from_exact contexts : ∀ resolved, (∀ r, resolved = Some r → md_ambiguous r = false) → ∀ kind,
  (∃ d, detect_from resolved contexts = Some d ∧ md_ambiguous d = false ∧ md_kind d = kind) ↔
    (∀ r, resolved = Some r → md_kind r = kind) ∧
    (∀ c, c ∈ contexts → context_silent c ∨ context_declares c kind) ∧
    (is_Some resolved ∨ ∃ c, c ∈ contexts ∧ context_declares c kind).
Proof.
  unfold context_silent, context_declares. induction contexts as [|c contexts IH]; intros resolved Hr kind; cbn [detect_from].
  { split.
    - intros (d & -> & Ha & <-). split; [by intros ? [= <-]|]. split; [by intros ? ?%elem_of_nil|left; by eexists].
    - intros (H1 & _ & [[r ->]|(? & ?%elem_of_nil & _)]); [|done]. exists r. split; [done|]. split; [by apply Hr|by apply H1]. }
  destruct (detectPackageManager c) as [x|] eqn:E; cycle 1.
  { rewrite IH by done. setoid_rewrite elem_of_cons. split.
    - intros (H1 & H2 & H3). split; [done|]. split; [|naive_solver]. intros y [->|Hy]; [by left|by apply H2].
    - intros (H1 & H2 & H3). split; [done|]. split; [by intros y Hy; apply H2; right|].
      destruct H3 as [?|(y & [->|Hy] & Hd)]; [by left| |right; by exists y]. destruct Hd as (? & Hd & _). congruence. }
  destruct (md_ambiguous x) eqn:Ea.
  { split; [by intros (? & [= <-] & ? & _)|]. intros (_ & H2 & _). destruct (H2 c) as [?|(y & Hy & Hay & _)]; [left|congruence|].
    congruence. }
  destruct resolved as [r|].
  - destruct (String.eqb_spec (md_kind x) (md_kind r)) as [Ek|Ek]; cbn [negb].
    + set (r' := if md_pin r == "" then _ else _). assert (md_kind r' = md_kind r ∧ md_ambiguous r' = false) as [Hk' Ha'].
      { unfold r'. pose proof (Hr r eq_refl). by destruct (md_pin r == ""). }
      rewrite IH by (by intros ? [= <-]). setoid_rewrite elem_of_cons. split.
      * intros (H1 & H2 & _). specialize (H1 r' eq_refl). split; [intros ? [= <-]; congruence|]. split; [|left; by eexists].
        intros y [->|Hy]; [right|by apply H2]. exists x. split_and!; [done..|congruence].
      * intros (H1 & H2 & _). specialize (H1 r eq_refl). split; [intros ? [= <-]; congruence|].
        split; [by intros y Hy; apply H2; right|left; by eexists].
    + split; [by intros (? & [= <-] & ? & _)|]. intros (H1 & H2 & _). specialize (H1 r eq_refl).
      destruct (H2 c) as [?|(y & Hy & _ & Hk)]; [left|congruence|]. congruence.
  - rewrite IH by (by intros ? [= <-]). setoid_rewrite elem_of_cons. split.
    + intros (H1 & H2 & _). specialize (H1 x eq_refl). split; [done|]. split.
      * intros y [->|Hy]; [right; by exists x|by apply H2].
      * right. exists c. split; [by left|]. by exists x.
    + intros (_ & H2 & H3). assert (md_kind x = kind) as Hk.
      { destruct (H2 c) as [?|(y & Hy & _ & Hk)]; [by left|congruence|]. congruence. }
      split; [by intros ? [= <-]|]. split; [by intros y Hy; apply H2; right|left; by eexists].
Qed.

(** *** The check *)

(** A manager of the three supported, that every context declares or is silent about, whose
    installs nothing committed redirects, with a lockfile in every context, and whose
    version on the host is an exact supported one. *)
Record cleared (contexts : list string) (kind version : string) : Prop := {
  cl_kind : kind ∈ [KindNPM; KindPNPM; KindBun];
  cl_agree c : c ∈ contexts → context_silent c ∨ context_declares c kind;
  cl_declared : ∃ c, c ∈ contexts ∧ context_declares c kind;
  cl_undirected c : c ∈ contexts → undirected c kind;
  cl_lockfile c : c ∈ contexts → has_lockfile c kind;
  cl_version : ProbeVersion kind = Some version ∧ packageManagerVersionSupported kind version = true
}.

Lemma supported_exact kind version : packageManagerVersionSupported kind version = true → IsExactVersion version = true.
Proof. unfold packageManagerVersionSupported, semverMajor. by destruct (IsExactVersion version). Qed.

Lemma supported_kind kind version : packageManagerVersionSupported kind version = true → kind ∈ [KindNPM; KindPNPM; KindBun].
Proof.
  unfold packageManagerVersionSupported. destruct (semverMajor version) as [[]|]; [|done]. rewrite !elem_of_cons.
  destruct (String.eqb_spec kind KindNPM) as [->|]; [tauto|]. destruct (String.eqb_spec kind KindPNPM) as [->|]; [tauto|].
  destruct (String.eqb_spec kind KindBun) as [->|]; [tauto|done].
Qed.

Lemma contexts_pass_exact contexts fellBack policyPassed kind version :
  (ck_State (check_contexts contexts fellBack policyPassed) = Pass ∧
   ck_Kind (check_contexts contexts fellBack policyPassed) = kind ∧
   ck_Version (check_contexts contexts fellBack policyPassed) = version) ↔
  (fellBack = true → policyPassed = true) ∧ cleared contexts kind version.
Proof.
  pose proof (detect_from_exact contexts None ltac:(done)) as Hdet. unfold check_contexts.
  destruct (fellBack && negb policyPassed) eqn:Ef.
  { split; [by intros [? _]|]. intros [H _]. destruct fellBack, policyPassed; try done. by specialize (H eq_refl). }
  assert (fellBack = true → policyPassed = true) as Hf by (by destruct fellBack, policyPassed).
  assert ((fellBack = true → policyPassed = true) ∧ cleared contexts kind version ↔ cleared contexts kind version) as -> by tauto.
  unfold detectPackageManagerAcrossContexts. destruct (detect_from None contexts) as [d|] eqn:E; cycle 1.
  { split; [by intros [? _]|]. intros Hc. destruct (proj2 (Hdet kind)) as (? & ? & _); [|congruence].
    split; [done|]. split; [apply Hc|right; apply Hc]. }
  destruct (md_ambiguous d) eqn:Ea.
  { split; [by intros [? _]|]. intros Hc. destruct (proj2 (Hdet kind)) as (? & [= <-] & ? & _); [|congruence].
    split; [done|]. split; [apply Hc|right; apply Hc]. }
  assert (∀ k, (∀ c, c ∈ contexts → context_silent c ∨ context_declares c k) ∧ (∃ c, c ∈ contexts ∧ context_declares c k)
    ↔ md_kind d = k) as Hkind.
  { intros k. specialize (Hdet k). split.
    - intros [H1 H2]. destruct (proj2 Hdet) as (? & [= <-] & _ & ?); [by repeat split; [| |right]|done].
    - intros Hk. destruct (proj1 Hdet) as (_ & H1 & [[? ?]|H2]); [by exists d|done|by split]. }
  destruct (proj2 (Hkind (md_kind d)) eq_refl) as [Hagree Hsome].
  destruct (String.eqb_spec (md_kind d) KindYarn) as [Ey|Ey].
  { split; [by intros [? _]|]. intros Hc. assert (md_kind d = kind) as Hk by (apply Hkind; split; apply Hc).
    destruct Hc as [Hk' _ _ _ _ _]. rewrite <- Hk, Ey in Hk'. repeat (apply elem_of_cons in Hk' as [Hk'|Hk']; [done|]).
    by apply elem_of_nil in Hk'. }
  destruct (first_unverifiable (md_kind d) contexts) as [detail|] eqn:Eu.
  { split; [by intros [? _]|]. intros Hc. assert (md_kind d = kind) as Hk by (apply Hkind; split; apply Hc).
    enough (first_unverifiable (md_kind d) contexts = None) by congruence. apply first_unverifiable_none. intros c Hin.
    rewrite Hk. rewrite hazard_none by apply Hc. rewrite lockfile_none. by split; apply Hc. }
  pose proof (proj1 (first_unverifiable_none _ _) Eu) as Hsafe. unfold classifyProbedPackageManagerVersion. split.
  - intros (Hp & Hk & Hv). destruct (ProbeVersion (md_kind d)) as [v|] eqn:Ev; [|done].
    destruct (IsExactVersion v); [|done]. destruct (packageManagerVersionSupported (md_kind d) v) eqn:Es; [|done].
    cbn in Hk, Hv. subst kind version. apply supported_kind in Es as Hin. split; try done.
    + intros c Hc. apply hazard_none; [done|]. by apply Hsafe.
    + intros c Hc. apply lockfile_none. by apply Hsafe.
  - intros Hc. assert (md_kind d = kind) as Hk by (apply Hkind; split; apply Hc). destruct (cl_version _ _ _ Hc) as [Ev Es].
    rewrite Hk, Ev, (supported_exact _ _ Es), Es. done.
Qed.
End Clear.

(** ** The nearest manifest *)

Section Nearest.
Context {host : PmHost}.

Definition dir_at (es : list string) : string := String ch_slash (Join es "/").

Lemma CutLast_last_slash a e : no_slash e → CutLast ch_slash (a +:+ String ch_slash e) = Some (a, e).
Proof. intros H. by apply CutLast_app. Qed.

Lemma Join_snoc es e : es ≠ [] → Join (es ++ [e]) "/" = Join es "/" +:+ String ch_slash e.
Proof.
  induction es as [|x es IH]; [done|]. intros _. destruct es as [|y es]; [done|].
  change (Join ((x :: y :: es) ++ [e]) "/") with (x +:+ String ch_slash (Join ((y :: es) ++ [e]) "/")).
  change (Join (x :: y :: es) "/") with (x +:+ String ch_slash (Join (y :: es) "/")).
  rewrite IH by done. by rewrite append_assoc_str.
Qed.

Lemma Clean_trailing es : Forall plain_element es → es ≠ [] → Clean (dir_at es +:+ "/") = dir_at es.
Proof.
  intros H Hne. unfold dir_at. change (String ch_slash (Join es "/") +:+ "/") with (String ch_slash (Join es "/" +:+ String ch_slash "")).
  unfold Clean. replace (HasPrefix "/" _) with true by (symmetry; apply HasPrefix_slash; by eexists).
  assert (SplitByte ch_slash (Join es "/" +:+ String ch_slash "") = es ++ [""]) as E.
  { rewrite SplitByte_at, SplitByte_Join; [done|eapply list.Forall_impl; [exact H|by intros ? []]|done]. }
  rewrite SplitByte_cons, Ascii.eqb_refl, E. cbn [fold_left]. change (clean_step true [] "") with (@nil string).
  rewrite fold_left_app. rewrite (fold_plain es) by done. cbn [fold_left]. rewrite app_nil_r.
  change (clean_step true (reverse es) "") with (reverse es). by rewrite reverse_involutive.
Qed.

Lemma Dir_up es e : Forall plain_element (es ++ [e]) → Dir (dir_at (es ++ [e])) = dir_at es.
Proof.
  intros [Hes He]%Forall_app. inversion He as [|?? [Hn _] _]; subst. unfold Dir. destruct es as [|x es].
  - unfold dir_at. cbn [app]. change (Join [e] "/") with e. change (String ch_slash e) with ("" +:+ String ch_slash e).
    rewrite CutLast_last_slash by done. reflexivity.
  - unfold dir_at at 1. rewrite Join_snoc by done.
    change (String ch_slash (Join (x :: es) "/" +:+ ?y)) with (dir_at (x :: es) +:+ y).
    rewrite CutLast_last_slash by done. by rewrite Clean_trailing.
Qed.

Lemma dir_at_inj a b : Forall plain_element a → Forall plain_element b → dir_at a = dir_at b → a = b.
Proof.
  intros Ha Hb [= E]. assert (∀ l, Forall plain_element l → l ≠ [] → SplitByte ch_slash (Join l "/") = l) as Hs.
  { intros l H Hne. apply SplitByte_Join; [eapply list.Forall_impl; [exact H|by intros ? []]|done]. }
  assert (∀ l, Forall plain_element l → l ≠ [] → Join l "/" ≠ "") as He.
  { intros l H Hne El. specialize (Hs l H Hne). rewrite El in Hs. cbn in Hs. subst l. by inversion H as [|?? (_ & ? & _)]. }
  destruct a as [|x a], b as [|y b]; [done|symmetry in E; by apply He in E|by apply He in E|].
  rewrite <- (Hs (x :: a)), <- (Hs (y :: b)) by done. by rewrite E.
Qed.

Definition has_manifest (dir : string) : Prop := pm_Stat (Join2 dir "package.json") = Some false.

(** The way up from a directory to the ceiling finds the nearest manifest, or that there
    is none; the fuel is never what ends it. *)
Lemma nearest_exact cs ds fuel : Forall plain_element (cs ++ ds) → length ds < fuel →
  match nearest_from fuel (dir_at cs) (dir_at (cs ++ ds)) with
  | Some d => ∃ k, k ≤ length ds ∧ d = dir_at (cs ++ take k ds) ∧ has_manifest d ∧
      ∀ j, k < j ≤ length ds → ¬ has_manifest (dir_at (cs ++ take j ds))
  | None => ∀ j, j ≤ length ds → ¬ has_manifest (dir_at (cs ++ take j ds))
  end.
Proof.
  revert fuel. induction ds as [|e ds IH] using rev_ind; intros fuel Hp Hf; destruct fuel as [|fuel]; try (cbn in Hf; lia);
    cbn [nearest_from]; unfold has_manifest in *.
  - rewrite app_nil_r, String.eqb_refl. destruct (pm_Stat _) as [[]|] eqn:E.
    1,3: intros [|j] Hj; [cbn [take]; rewrite app_nil_r; congruence|cbn in Hj; lia].
    exists 0. cbn [take length]. rewrite app_nil_r. split_and!; [lia|done|done|intros; lia].
  - rewrite length_app in *. cbn [length] in *.
    assert (take (length ds + 1) (ds ++ [e]) = ds ++ [e]) as Hall by (apply take_ge; rewrite length_app; cbn; lia).
    assert (∀ j, j ≤ length ds → take j (ds ++ [e]) = take j ds) as Htake by (intros j Hj; by apply take_app_le).
    assert (dir_at (cs ++ ds ++ [e]) == dir_at cs = false) as Hc.
    { apply String.eqb_neq. intros E%dir_at_inj; [|done|by apply Forall_app in Hp as [? _]].
      apply (f_equal length) in E. rewrite !length_app in E. cbn in E. lia. }
    assert (Dir (dir_at (cs ++ ds ++ [e])) = dir_at (cs ++ ds)) as Hup.
    { rewrite app_assoc in *. by apply Dir_up. }
    assert (dir_at (cs ++ ds) == dir_at (cs ++ ds ++ [e]) = false) as Hm.
    { apply String.eqb_neq. rewrite app_assoc in *. intros E%dir_at_inj; [|by apply Forall_app in Hp as [? _]|done].
      apply (f_equal length) in E. rewrite !length_app in E. cbn in E. lia. }
    destruct (pm_Stat (Join2 (dir_at (cs ++ ds ++ [e])) "package.json")) as [[]|] eqn:E.
    2: { exists (length ds + 1). rewrite Hall. repeat split; try done. intros j Hj. lia. }
    all: rewrite Hc; cbn zeta; rewrite Hup, Hm; specialize (IH fuel);
      assert (Forall plain_element (cs ++ ds)) as Hp' by (rewrite app_assoc in Hp; by apply Forall_app in Hp as [? _]);
      specialize (IH Hp' ltac:(lia)); destruct (nearest_from fuel _ _) as [d|].
    1,3: destruct IH as (k & Hk & -> & Hman & Hno); exists k; rewrite Htake by done; repeat split; try done; [lia|];
      intros j Hj; destruct (decide (j ≤ length ds)); [rewrite Htake by done; apply Hno; lia|];
      replace j with (length ds + 1) by lia; rewrite Hall; congruence.
    all: intros j Hj; destruct (decide (j ≤ length ds)); [rewrite Htake by done; by apply IH|];
      replace j with (length ds + 1) by lia; rewrite Hall; congruence.
Qed.
End Nearest.

(** ** Examples *)

Module PackageManagerExample.

Definition quoted_key : string := dq +:+ "registry" +:+ dq +:+ "=https://registry.example".

(** A project for npm, with an [.npmrc]. *)
Definition npm_project (npmrc : string) : PmHost := {|
  pm_ReadFile p :=
    if p == "/repo/package.json" then
      Some ("{" +:+ dq +:+ "packageManager" +:+ dq +:+ ":" +:+ dq +:+ "npm@11.2.0" +:+ dq +:+ "}")
    else if p == "/repo/package-lock.json" then Some "{}"
    else if p == "/repo/.npmrc" then Some npmrc else None;
  pm_Exists p := p == "/repo/.npmrc";
  pm_Stat p := if (p == "/repo/package.json") || (p == "/repo/package-lock.json") then Some false else None;
  pm_version_child _ := Some (mkProbedChild None (None, "11.6.1" +:+ String lf_byte "") None false)
|}.

Definition npm_check (npmrc : string) : ReadyCheck :=
  @check_contexts (npm_project npmrc) (λ s, s) ["/repo"] false true.

Example npm_checks :
  map (λ npmrc, ck_State (npm_check npmrc))
    ["save-exact=true"; "Registry = https://registry.example"; "@acme:registry=x"; "ignore-scripts=false"; "script-shell=/bin/x"]
  = [Pass; Fail; Fail; Fail; Fail].
Proof. vm_compute. reflexivity. Qed.

(** npm unquotes the keys of its configuration; the scan does not, and clears a quoted one. *)
Example quoted_key_cleared : ck_State (npm_check quoted_key) = Pass.
Proof. vm_compute. reflexivity. Qed.
End PackageManagerExample.
